(* ===== verification/_CoqProject ===== *)
-Q . S2P
Prelude.v
Mylib.v
ByteOrder.v
Fields.v
PbufDefs.v
InetChksum.v
Allocator.v
Mem.v
Memp.v
PbufMem.v
World.v
Pbuf.v
PbufData.v
PbufChains.v
PbufLinks.v
NetifDefs.v
IpAddr.v
Pqueue.v
Printf.v
Driver.v
PbufRefs.v
Stats.v
Linked.v
Etharp.v
EtharpTable.v
EtharpFlow.v
EtharpInput.v
IpDefs.v
IpOutput.v
IpHeader.v
IpSend.v
Icmp.v
IcmpEcho.v
IpReass.v
IpReassFacts.v
IpInput.v
IpInputFacts.v
Raw.v
Udp.v
UdpPorts.v
UdpFlow.v
UdpSend.v
TcpDefs.v
TcpSeg.v
TcpOut.v
Tcp.v
TcpIn.v
Echo.v
TcpSample.v
Netif.v
Stack.v
Main.v
MainSample.v
Pres.v
TcpFrame.v
TcpLists.v
TcpOptions.v
TcpStates.v
TcpWindow.v
TcpDemux.v
TcpTimers.v
TcpCongestion.v
TcpRexmit.v
TcpTypes.v
Reach.v
TcpWrite.v
TcpAppend.v
TcpStream.v
TcpOoseq.v
Timers.v
Agenda.v
Asn1.v
Ber.v
TcpDeliver.v
Slip.v
SlipLine.v
