(* ===== verification/Prelude.v ===== *)
(** * A model of the picorv32 firmware and its TCP/IP stack

    The firmware of this repository (src/firmware) is an lwIP 1.4.1 stack on a
    PicoRV32 SoC without an operating system.  firmware/Makefile builds main.c,
    mylib.c (the firmware's own C library), the core of lwIP 1.4.1
    (lwip141/lwip-1.4.1/src), the port (lwip141/contrib/ports/riscv) with its
    DMA driver, and an echo server.  This library models that code with the
    configuration of the port's lwipopts.h: NO_SYS 1, no timers of lwIP's own,
    MEM_ALIGNMENT 4, MEM_SIZE 8192, MEMP_OVERFLOW_CHECK 0, PBUF_POOL_BUFSIZE
    1700, LWIP_CHKSUM_ALGORITHM 3, ARP_TABLE_SIZE 10, ARP_QUEUEING 1,
    IP_REASSEMBLY 1, IP_FRAG 1, IP_FORWARD 0, no IGMP, DHCP, SNMP or AutoIP, on
    a little-endian target with unsigned [char].

    ** Conventions

    - A w-bit integer is a [Z] with its wrap-around written out ([u8], [u16],
      [u32], [s32] of this file).
    - Memory is a function from addresses to bytes ([memory]); [ld16], [st32]
      and the like are little-endian accesses.  The heap's block headers, the
      free lists of the pools and the bytes of packets live in it.
    - A [struct pbuf], an ARP queue entry and other structures that are
      allocated and linked are entries of a finite map from addresses to
      records; a function that follows a pointer to no live object has the
      result [None], and the theorems show when that cannot happen.
    - A loop is [while fuel body] ([Prelude.while]): [body] returns the next
      state or the result.  The fuel is computed from the data (the length of a
      buffer, the number of live pbufs, the number of blocks that fit a heap)
      and the theorems show that it is enough: they say that the function
      returns, not only what it returns.  The NUL-terminated routines take the
      fuel as an argument, and any fuel above the string's length will do.
    - LWIP_ASSERT prints and goes on (LWIP_PLATFORM_ASSERT of arch/cc.h), so
      assertions are no steps of the model; the invariants imply those of the
      heap.
    - Device registers that are read are arguments, those written are recorded
      in order; functions called through pointers ([netif->linkoutput],
      [custom_free_function]) are parameters.

    ** Components

    - Prelude: integers, memory, loops, tactics and shared lemmas.
    - Mylib, Printf: mylib.c.  Copying, comparing, the word-at-a-time string
      routines, and formatted output.
    - ByteOrder: core/def.c.  InetChksum: core/ipv4/inet_chksum.c, the three
      versions of the checksum loop against the one's complement sum of RFC
      1071, over buffers and pbuf chains.
    - Allocator: the interface ([Class]) of an allocator to its clients, in
      terms of live regions.  Mem: core/mem.c, the heap on the bytes of its
      array, refining a list of blocks with first fit, splitting, coalescing
      and trimming.  Memp: core/memp.c, the pools.  Both are instances of the
      interface.  PbufMem: the interface of the memory system to pbuf.c.
      World: the heap and the pools side by side in one memory, as the firmware
      has them, discharging PbufMem's laws ([world_laws]), so that what is
      proved against the interface holds for the real allocators.
    - PbufDefs, Pbuf: core/pbuf.c.  PbufData: reading and writing the contents
      of a chain.  PbufChains: allocation and release.  PbufLinks: headers,
      concatenation, splitting and truncation of chains.  PbufRefs: reference
      counts over whole histories of a client.
    - NetifDefs, IpAddr: struct netif of netif.h, core/ipv4/ip_addr.c.
    - Pqueue, Driver: netif/pqueue.c, netif/riscvdma.c and netif/riscvnetif.c
      of the port.
    - Etharp: netif/etharp.c.  EtharpTable: the table and the queues as a
      resource, searching, aging and recycling entries.  EtharpFlow: sending,
      resolving and queueing packets.
    - Stats, Fields: counters of lwip/stats.h and multi-byte fields of headers.
      EtharpInput: receiving ARP packets.
    - IpDefs: the IP header, the state of the IP layer ([istate], polymorphic in
      what is below and above it).  IpOutput: ip_route, ip_output(_if) of
      core/ipv4/ip.c and ip_frag of ip_frag.c; IpHeader, IpSend: the header that
      is built and the packet that is sent.  Icmp, IcmpEcho: core/ipv4/icmp.c and
      the echo service.  IpReass, IpReassFacts: reassembly of ip_frag.c.
      IpInput, IpInputFacts: ip_input.  The transport protocols are arguments of
      [ip_input].
    - Linked: singly linked lists threaded through a map of records, as the PCB
      lists are.  Raw: core/raw.c.  Udp: core/udp.c; UdpPorts: port allocation
      and the bindings, UdpFlow: demultiplexing, UdpSend: sending.  The receive
      callbacks of the PCBs are arguments.
    - TcpDefs, TcpSeg, TcpOut, Tcp, TcpIn: tcp_impl.h, core/tcp.c, tcp_out.c and
      tcp_in.c; the control blocks and segments are maps from addresses, the
      lists of tcp.c are threaded through them, and the file-scope variables of
      tcp_in.c are a record.  The callbacks are a record of operations
      ([tcp_app]); Echo: the echo server is one.  TcpSample: a run of it.
    - Pres: a calculus for "this function keeps that property of the state",
      with a tactic that proves it from the body.  TcpFrame: what every function
      of TCP leaves alone.  TcpLists: the lists of control blocks.  TcpStates:
      the state machine.  TcpWindow: sequence numbers and the receive window.
      TcpOptions: parsing options.  TcpDemux: which control block a segment
      reaches.  TcpTimers: the loops of the timers.  TcpCongestion: the
      round-trip estimator and the congestion window.  TcpRexmit:
      retransmission.  TcpWrite, TcpAppend, TcpStream: the phases of [tcp_write]
      (the new segments, the end of the last one, the commit).  TcpDeliver: data
      in sequence, from the segment to the application.  TcpTypes: the ranges of TCP's variables, kept by every
      function of TCP and of the echo server.
    - Netif: core/netif.c.  Stack: the layers put together, where every argument
      that stood for another module becomes that module.  Main: main.c with its
      interrupt handler; MainSample: a session of the whole firmware, evaluated.
      TcpOoseq: [pbuf_free_ooseq].  Timers: core/timers.c, and Agenda: its proofs.
      Asn1: core/snmp/asn1_enc.c and asn1_dec.c, and Ber: their proofs.
      Slip: netif/slipif.c, and SlipLine: packets over the serial line.
      Reach: what every layer keeps of the others, and the states the firmware
      can reach.
    ** Theorems

    Heap: every operation refines its operation on the list of blocks, and over
    every history of [mem_malloc], [mem_trim] and [mem_free] the live blocks do
    not overlap, keep their contents and can all be released.  Pools: the same
    for fixed-size elements, [memp_sanity] included.  Packets: [pbuf_alloc]
    gives a chain of the length asked for or NULL without a leak, [pbuf_free]
    releases exactly the pbufs with no reference left, references are counted
    soundly over histories, and the other functions are functional
    specifications over the bytes of the chain.  Checksum: the optimised loops
    equal the reference sum, and a packet that carries its checksum verifies.
    Library: string and formatting routines against list functions.  Driver:
    the receive interrupt and the dispatch loop, each with the branch on which
    the code misbehaves.
    ARP: searching, recycling, aging and resolving table entries against the
    table as a list, and the answers to requests.  IP: [ip_output] prepends a
    header that decodes to its arguments and verifies, on the interface the
    routing rule selects; [ip_input] drops or passes on packets by their header;
    ICMP echo replies are the request with the addresses exchanged.  UDP: ports are unique, the
    search for one ends, datagrams reach the PCB the matching rule selects and
    leave with a header that decodes and verifies.  TCP: a synchronized
    connection moves as the diagram of RFC 793 says, with its place on the lists;
    the announced window refines an unbounded window that never shrinks;
    comparisons of sequence numbers are those of unbounded ones; the option
    parser returns on every header and finds the options; a segment reaches the
    control block of its four addresses, else the listening one; timed-out
    segments return to the send queue in order; [tcp_write] queues all of the
    data it is given, in segments with consecutive sequence numbers, or leaves
    the queue, the pbufs and the allocated memory as they were; data in
    sequence reaches the application as the peer sent it, without gaps or
    repetitions and within the window; the congestion window and the
    estimator follow their formulas within the machine's widths; the fast timer
    ends when the callbacks leave the lists alone, and runs for ever when one changes
    the list of connections whose first was seen; the slow timer reads
    outside its table after enough duplicate SYNs.  Timeouts: the list of differences
    is an agenda of deadlines; setting and removing timeouts are entering and
    withdrawing entries; what is due is called in order, and the loop ends.
    ASN.1: numbers, object identifiers and strings, encoded over a chain of
    buffers, take the octets that were counted and decode to what they were.
    SLIP: a packet of up to 1500 bytes that is sent over a serial line is received.  The firmware: in every state
    that loop turns, interrupts and frames lead to, TCP's variables are in the
    ranges of their types.
    ** Not modelled

    Floating-point output (print_double of mylib.c) is a parameter of
    [vprintfmt].  Interrupts are taken between turns of the main loop, not inside
    them.  Modules that the configuration does not compile (DHCP, DNS, IGMP,
    AutoIP, SNMP but its codec, the sequential API, the second copy of lwIP under lwip211), the
    start-up code in assembler and the Verilog of the SoC are left out. *)

From stdpp Require Import base tactics numbers list gmap.
From Stdlib Require Import ZArith Lia Zdiv.

(** * Automation *)

(** [lia] extended with the definitions of [/] and [mod] by constants. *)
Ltac zlia := Z.div_mod_to_equations; lia.

(** Turns boolean comparisons of [Z] in the context and the goal into
    propositions and splits on the ones the goal branches on. *)
Ltac bool_to_prop :=
  repeat match goal with
  | H : (_ =? _)%Z = true |- _ => apply Z.eqb_eq in H
  | H : (_ =? _)%Z = false |- _ => apply Z.eqb_neq in H
  | H : (_ <? _)%Z = true |- _ => apply Z.ltb_lt in H
  | H : (_ <? _)%Z = false |- _ => apply Z.ltb_ge in H
  | H : (_ <=? _)%Z = true |- _ => apply Z.leb_le in H
  | H : (_ <=? _)%Z = false |- _ => apply Z.leb_gt in H
  | H : andb _ _ = true |- _ => apply andb_true_iff in H as [? ?]
  | H : orb _ _ = false |- _ => apply orb_false_iff in H as [? ?]
  | H : negb _ = true |- _ => apply negb_true_iff in H
  | H : negb _ = false |- _ => apply negb_false_iff in H
  end.

Ltac case_bool :=
  match goal with
  | |- context [ if ?b then _ else _ ] =>
      lazymatch type of b with bool => destruct b eqn:? end
  | H : context [ if ?b then _ else _ ] |- _ =>
      lazymatch type of b with bool => destruct b eqn:? end
  end; bool_to_prop.

(** Adds up the constant offsets of an address. *)
Ltac add_consts H := rewrite <- !Z.add_assoc in H; cbn [Z.add Pos.add Pos.succ] in H.

Create HintDb fw.
Create Rewrite HintDb fwz.

(** * Machine integers

    A [w]-bit unsigned integer is a [Z] reduced modulo [2^w]; a signed one is
    its two's complement representative.  The reductions are written at every
    point where the source stores into a variable of that width. *)

Declare Scope word_scope.
Delimit Scope word_scope with word.

Definition u8 (x : Z) : Z := x mod 256.
Definition u16 (x : Z) : Z := x mod 65536.
Definition u32 (x : Z) : Z := x mod 4294967296.
Definition u64 (x : Z) : Z := x mod 18446744073709551616.

Definition s16 (x : Z) : Z := (x + 32768) mod 65536 - 32768.
Definition s32 (x : Z) : Z := (x + 2147483648) mod 4294967296 - 2147483648.
Definition s64 (x : Z) : Z :=
  (x + 9223372036854775808) mod 18446744073709551616 - 9223372036854775808.

(** Bitwise complement at 32 and 16 bits. *)
Definition not32 (x : Z) : Z := 4294967295 - u32 x.
Definition not16 (x : Z) : Z := 65535 - u16 x.

Notation "x '+u32' y" := (u32 (x + y)) (at level 50, left associativity) : word_scope.
Notation "x '-u32' y" := (u32 (x - y)) (at level 50, left associativity) : word_scope.
Notation "x '+u16' y" := (u16 (x + y)) (at level 50, left associativity) : word_scope.
Notation "x '-u16' y" := (u16 (x - y)) (at level 50, left associativity) : word_scope.

Section words.
Local Open Scope Z_scope.

Lemma u8_range x : 0 <= u8 x < 256.
Proof. apply Z.mod_pos_bound; lia. Qed.

Lemma u16_range x : 0 <= u16 x < 65536.
Proof. apply Z.mod_pos_bound; lia. Qed.

Lemma u32_range x : 0 <= u32 x < 4294967296.
Proof. apply Z.mod_pos_bound; lia. Qed.

Lemma u8_id x : 0 <= x < 256 -> u8 x = x.
Proof. apply Z.mod_small. Qed.

Lemma u16_id x : 0 <= x < 65536 -> u16 x = x.
Proof. apply Z.mod_small. Qed.

Lemma u32_id x : 0 <= x < 4294967296 -> u32 x = x.
Proof. apply Z.mod_small. Qed.

Lemma u64_id x : 0 <= x < 18446744073709551616 -> u64 x = x.
Proof. apply Z.mod_small. Qed.

Lemma s32_id x : -2147483648 <= x < 2147483648 -> s32 x = x.
Proof. intros. unfold s32. rewrite Z.mod_small; lia. Qed.

Lemma land_255 x : Z.land x 255 = x mod 256.
Proof. exact (Z.land_ones x 8 ltac:(lia)). Qed.

Lemma land_65535 x : Z.land x 65535 = x mod 65536.
Proof. exact (Z.land_ones x 16 ltac:(lia)). Qed.

Lemma land_3 x : Z.land x 3 = x mod 4.
Proof. exact (Z.land_ones x 2 ltac:(lia)). Qed.

Lemma land_1 x : Z.land x 1 = x mod 2.
Proof. exact (Z.land_ones x 1 ltac:(lia)). Qed.

(** Clearing the low bits, the way the alignment macros do it. *)
Lemma land_lnot_3 x : Z.land x (Z.lnot 3) = 4 * (x / 4).
Proof.
  rewrite <- Z.ldiff_land. change 3 with (Z.ones 2).
  rewrite Z.ldiff_ones_r, Z.shiftl_mul_pow2, Z.shiftr_div_pow2 by lia.
  change (2 ^ 2) with 4. lia.
Qed.

Lemma shiftr_8 x : Z.shiftr x 8 = x / 256.
Proof. exact (Z.shiftr_div_pow2 x 8 ltac:(lia)). Qed.

Lemma shiftr_16 x : Z.shiftr x 16 = x / 65536.
Proof. exact (Z.shiftr_div_pow2 x 16 ltac:(lia)). Qed.

Lemma shiftl_8 x : Z.shiftl x 8 = x * 256.
Proof. exact (Z.shiftl_mul_pow2 x 8 ltac:(lia)). Qed.

(** An [lor] of numbers with disjoint bits is a sum. *)
Lemma lor_shift_add n a b :
  0 <= n -> 0 <= b < 2 ^ n -> Z.lor (a * 2 ^ n) b = a * 2 ^ n + b.
Proof.
  intros Hn Hb. rewrite <- Z.add_lor_land.
  enough (Z.land (a * 2 ^ n) b = 0) by lia.
  apply Z.bits_inj'. intros i Hi. rewrite Z.land_spec, Z.bits_0.
  destruct (decide (i < n)) as [Hlt | Hge].
  - rewrite Z.mul_pow2_bits_low by lia. done.
  - rewrite <- (Z.mod_small b (2 ^ n)) by done.
    rewrite Z.mod_pow2_bits_high by lia. apply andb_false_r.
Qed.

Lemma testbit_div_mod x n : 0 <= n -> Z.b2z (Z.testbit x n) = (x / 2 ^ n) mod 2.
Proof. apply Z.testbit_spec'. Qed.

End words.

#[export] Hint Resolve u8_range u16_range u32_range : fw.
#[export] Hint Rewrite land_255 land_65535 land_3 land_1 land_lnot_3
  shiftr_8 shiftr_16 shiftl_8 : fwz.

(** * Loops

    A C loop is [while fuel body s]: [body] maps the loop variables either to
    their next values ([inl]) or to the result with which the loop is left
    ([inr]).  Running out of fuel is [None], so that a theorem which gives
    [Some] is also a termination theorem. *)

Fixpoint while {St R : Type} (fuel : nat) (body : St -> St + R) (s : St) : option R :=
  match fuel with
  | O => None
  | S f => match body s with
           | inl s' => while f body s'
           | inr r => Some r
           end
  end.

(** The state after [n] turns of the loop, nothing when it has ended before: what tells a
    loop that goes on for ever from one that ends with an error. *)
Fixpoint turns {St R : Type} (n : nat) (body : St -> St + R) (s : St) : option St :=
  match n with
  | O => Some s
  | S n => match body s with inl s' => turns n body s' | inr _ => None end
  end.

Lemma turns_while {St R : Type} (body : St -> St + R) n m s y :
  turns n body s = Some y -> while (n + m) body s = while m body y.
Proof.
  revert s. induction n as [| n IH]; intros s E; [injection E as <-; reflexivity |].
  cbn in E |- *. destruct (body s) as [s' | r]; [exact (IH s' E) | discriminate E].
Qed.

Lemma turns_add {St R : Type} (body : St -> St + R) n m s : turns (n + m) body s = turns n body s ≫= turns m body.
Proof. revert s. induction n as [| n IH]; intros s; [reflexivity |]. cbn. destruct (body s); [apply IH | reflexivity]. Qed.

Lemma turns_S {St R : Type} (body : St -> St + R) n s y z : turns n body s = Some y -> body y = inl z -> turns (S n) body s = Some z.
Proof. intros E B. rewrite <- Nat.add_1_r, turns_add, E. cbn. rewrite B. reflexivity. Qed.

(** A turn that changes nothing is followed by the same turn, for ever. *)
Lemma turns_stuck {St R : Type} (body : St -> St + R) y : body y = inl y -> forall n, turns n body y = Some y.
Proof. intros B n. induction n as [| n IH]; [reflexivity |]. cbn. rewrite B. exact IH. Qed.

Lemma turns_forever {St R : Type} (body : St -> St + R) s : (forall n, is_Some (turns n body s)) -> forall fuel, while fuel body s = None.
Proof. intros T fuel. destruct (T fuel) as [y E]. rewrite <- (Nat.add_0_r fuel), (turns_while body fuel 0 s y E). reflexivity. Qed.

(** Total correctness: an invariant, a measure, a postcondition. *)
Lemma while_total {St R : Type} (body : St -> St + R)
    (I : St -> Prop) (measure : St -> nat) (Q : R -> Prop) :
  (forall s, I s -> match body s with
                    | inl s' => I s' /\ (measure s' < measure s)%nat
                    | inr r => Q r
                    end) ->
  forall s fuel, I s -> (measure s < fuel)%nat ->
  exists r, while fuel body s = Some r /\ Q r.
Proof.
  intros Hstep s fuel. revert s.
  induction fuel as [| fuel IH]; intros s HI Hfuel; [lia |].
  simpl. specialize (Hstep s HI). destruct (body s) as [s' | r].
  - destruct Hstep as [HI' Hm]. apply IH; [done | lia].
  - eauto.
Qed.

(** More fuel does not change a result. *)
Lemma while_fuel_mono {St R : Type} (body : St -> St + R) s f1 f2 r :
  (f1 <= f2)%nat -> while f1 body s = Some r -> while f2 body s = Some r.
Proof.
  revert s f2. induction f1 as [| f1 IH]; intros s f2 Hle H; [done |].
  destruct f2 as [| f2]; [lia |]. simpl in *.
  destruct (body s); [apply IH; [lia | done] | done].
Qed.

(** Unfolding one iteration. *)
Lemma while_S {St R : Type} (body : St -> St + R) f s :
  while (S f) body s = match body s with inl s' => while f body s' | inr r => Some r end.
Proof. done. Qed.

(** * Byte-addressed memory

    RAM is a total function from addresses to bytes; whatever an address held
    before it is written is unconstrained, and every theorem quantifies over
    it.  The target is little-endian (BYTE_ORDER in arch/cc.h). *)

Definition memory : Type := Z -> Z.

Definition ld8 (m : memory) (a : Z) : Z := u8 (m a).

Definition st8 (m : memory) (a v : Z) : memory :=
  fun x => if Z.eqb x a then u8 v else m x.

Definition ld16 (m : memory) (a : Z) : Z := (ld8 m a + 256 * ld8 m (a + 1))%Z.

Definition st16 (m : memory) (a v : Z) : memory :=
  st8 (st8 m a v) (a + 1)%Z (v / 256)%Z.

Definition ld32 (m : memory) (a : Z) : Z :=
  (ld8 m a + 256 * ld8 m (a + 1) + 65536 * ld8 m (a + 2)
   + 16777216 * ld8 m (a + 3))%Z.

Definition st32 (m : memory) (a v : Z) : memory :=
  (st8 (st8 (st8 (st8 m a v) (a + 1) (v / 256)) (a + 2) (v / 65536))
     (a + 3) (v / 16777216))%Z.

(** The [n] bytes that start at [a]. *)
Fixpoint bytes (m : memory) (a : Z) (n : nat) : list Z :=
  match n with
  | O => []
  | S k => ld8 m a :: bytes m (a + 1) k
  end.

(** Writing a list of bytes from [a] on. *)
Fixpoint st_bytes (m : memory) (a : Z) (l : list Z) : memory :=
  match l with
  | [] => m
  | b :: l' => st_bytes (st8 m a b) (a + 1) l'
  end.

(** Two memories agree outside the [n] bytes at [a]. *)
Definition frame (m m' : memory) (a n : Z) : Prop :=
  forall x, ~ (a <= x < a + n)%Z -> ld8 m' x = ld8 m x.

Section memory_lemmas.
Local Open Scope Z_scope.
Implicit Types (m : memory) (a v : Z).

Lemma ld8_range m a : 0 <= ld8 m a < 256.
Proof. apply u8_range. Qed.

Lemma ld8_st8_eq m a v : ld8 (st8 m a v) a = u8 v.
Proof. unfold ld8, st8. rewrite Z.eqb_refl. apply u8_id, u8_range. Qed.

Lemma ld8_st8_ne m a b v : b <> a -> ld8 (st8 m a v) b = ld8 m b.
Proof. intros H. unfold ld8, st8. apply Z.eqb_neq in H. by rewrite H. Qed.

Lemma ld8_st8 m a b v :
  ld8 (st8 m a v) b = if Z.eqb b a then u8 v else ld8 m b.
Proof.
  destruct (Z.eqb_spec b a) as [-> | H]; [apply ld8_st8_eq | by apply ld8_st8_ne].
Qed.

Lemma ld16_range m a : 0 <= ld16 m a < 65536.
Proof.
  unfold ld16. pose proof (ld8_range m a). pose proof (ld8_range m (a + 1)). lia.
Qed.

Lemma ld32_range m a : 0 <= ld32 m a < 4294967296.
Proof.
  unfold ld32. pose proof (ld8_range m a). pose proof (ld8_range m (a + 1)).
  pose proof (ld8_range m (a + 2)). pose proof (ld8_range m (a + 3)). lia.
Qed.

Lemma ld8_st16_ne m a v x : ~ (a <= x < a + 2) -> ld8 (st16 m a v) x = ld8 m x.
Proof. intros H. unfold st16. rewrite !ld8_st8_ne by lia. done. Qed.

Lemma ld16_st16 m a v : 0 <= v < 65536 -> ld16 (st16 m a v) a = v.
Proof.
  intros Hv. unfold ld16, st16. rewrite ld8_st8_ne by lia. rewrite !ld8_st8_eq.
  unfold u8. zlia.
Qed.

Lemma ld16_st16_ne m a b v : a + 2 <= b \/ b + 2 <= a -> ld16 (st16 m a v) b = ld16 m b.
Proof. intros H. unfold ld16. rewrite !ld8_st16_ne by lia. done. Qed.

Lemma ld16_st8_ne m a b v : a < b \/ b + 2 <= a -> ld16 (st8 m a v) b = ld16 m b.
Proof. intros H. unfold ld16. rewrite !ld8_st8_ne by lia. done. Qed.

Lemma ld16_ext m m' a :
  (forall x, a <= x < a + 2 -> ld8 m' x = ld8 m x) -> ld16 m' a = ld16 m a.
Proof. intros H. unfold ld16. by rewrite !H by lia. Qed.

(** The little-endian store writes back exactly what the load read. *)
Lemma ld8_st32 m a v x : 0 <= v < 4294967296 ->
  ld8 (st32 m a v) x =
    if (a <=? x) && (x <? a + 4) then (v / 2 ^ (8 * (x - a))) mod 256 else ld8 m x.
Proof.
  intros Hv. unfold st32.
  rewrite !ld8_st8.
  destruct (Z.eqb_spec x (a + 3)) as [-> | H3];
    [| destruct (Z.eqb_spec x (a + 2)) as [-> | H2];
       [| destruct (Z.eqb_spec x (a + 1)) as [-> | H1];
          [| destruct (Z.eqb_spec x a) as [-> | H0]]]].
  5: { destruct (Z.leb_spec a x), (Z.ltb_spec x (a + 4)); try done. lia. }
  all: match goal with |- context [Z.leb ?p ?q] =>
         rewrite (proj2 (Z.leb_le p q)) by lia end.
  all: match goal with |- context [Z.ltb ?p ?q] =>
         rewrite (proj2 (Z.ltb_lt p q)) by lia end.
  all: cbn [andb]; unfold u8.
  1: replace (a + 3 - a) with 3 by lia; reflexivity.
  1: replace (a + 2 - a) with 2 by lia; reflexivity.
  1: replace (a + 1 - a) with 1 by lia; reflexivity.
  replace (a - a) with 0 by lia. change (2 ^ (8 * 0)) with 1. by rewrite Z.div_1_r.
Qed.

Lemma ld8_st32_ne m a v x : ~ (a <= x < a + 4) -> ld8 (st32 m a v) x = ld8 m x.
Proof. intros H. unfold st32. rewrite !ld8_st8_ne by lia. done. Qed.

Lemma ld32_st32 m a v : 0 <= v < 4294967296 -> ld32 (st32 m a v) a = v.
Proof.
  intros Hv. unfold ld32, st32. rewrite !ld8_st8.
  repeat match goal with |- context [?x =? ?y] =>
    destruct (Z.eqb_spec x y); try lia end.
  unfold u8. zlia.
Qed.

Lemma ld32_ext m m' a :
  (forall x, a <= x < a + 4 -> ld8 m' x = ld8 m x) -> ld32 m' a = ld32 m a.
Proof. intros H. unfold ld32. by rewrite !H by lia. Qed.

Lemma ld32_st32_ne m a b v : a + 4 <= b \/ b + 4 <= a -> ld32 (st32 m a v) b = ld32 m b.
Proof. intros H. apply ld32_ext. intros x Hx. apply ld8_st32_ne. lia. Qed.

Lemma bytes_length m a n : length (bytes m a n) = n.
Proof. revert a. induction n as [| n IH]; intros a; simpl; [done | by rewrite IH]. Qed.

Lemma bytes_lookup m a n i :
  (i < n)%nat -> bytes m a n !! i = Some (ld8 m (a + Z.of_nat i)).
Proof.
  revert a i. induction n as [| n IH]; intros a i Hi; [lia |].
  destruct i as [| i]; simpl; [f_equal; f_equal; lia |].
  rewrite IH by lia. f_equal. f_equal. lia.
Qed.

Lemma bytes_app m a n k :
  bytes m a (n + k) = bytes m a n ++ bytes m (a + Z.of_nat n) k.
Proof.
  revert a. induction n as [| n IH]; intros a; simpl.
  - f_equal. lia.
  - rewrite IH. do 3 f_equal. lia.
Qed.

Lemma take_bytes m a n k : (k <= n)%nat -> take k (bytes m a n) = bytes m a k.
Proof.
  intros H. replace n with (k + (n - k))%nat by lia. rewrite bytes_app.
  rewrite take_app_length'; [done | by rewrite bytes_length].
Qed.

Lemma drop_bytes m a n k : (k <= n)%nat -> drop k (bytes m a n) = bytes m (a + Z.of_nat k) (n - k).
Proof.
  intros H. replace n with (k + (n - k))%nat at 1 by lia. rewrite bytes_app.
  rewrite drop_app_length'; [done | by rewrite bytes_length].
Qed.

Lemma bytes_range m a n : Forall (fun b => 0 <= b < 256) (bytes m a n).
Proof.
  revert a. induction n as [| n IH]; intros a; simpl; constructor; auto using ld8_range.
Qed.

(** Memories that agree on a range give the same bytes. *)
Lemma bytes_ext m m' a n :
  (forall x, a <= x < a + Z.of_nat n -> ld8 m' x = ld8 m x) ->
  bytes m' a n = bytes m a n.
Proof.
  revert a. induction n as [| n IH]; intros a H; simpl; [done |].
  rewrite H by lia. f_equal. apply IH. intros x Hx. apply H. lia.
Qed.

Lemma ld8_st_bytes_ne m a l x :
  ~ (a <= x < a + Z.of_nat (length l)) -> ld8 (st_bytes m a l) x = ld8 m x.
Proof.
  revert m a. induction l as [| b l IH]; intros m a H; simpl in *; [done |].
  rewrite IH by lia. apply ld8_st8_ne. lia.
Qed.

Lemma frame_refl m a n : frame m m a n.
Proof. done. Qed.

Lemma frame_trans m1 m2 m3 a n :
  frame m1 m2 a n -> frame m2 m3 a n -> frame m1 m3 a n.
Proof. intros H1 H2 x Hx. by rewrite H2, H1. Qed.

Lemma bytes_st_bytes m a l :
  Forall (fun b => 0 <= b < 256) l -> bytes (st_bytes m a l) a (length l) = l.
Proof.
  intros Hl. revert m a. induction Hl as [| b l Hb Hl IH]; intros m a; simpl; [done |].
  f_equal; [| apply IH].
  rewrite ld8_st_bytes_ne by lia. rewrite ld8_st8_eq. by apply u8_id.
Qed.

End memory_lemmas.

(** Reads over stores at addresses [lia] can compare. *)
Ltac mem_simp :=
  repeat first
    [ rewrite ld16_st16 by lia
    | rewrite ld8_st8_eq
    | rewrite ld16_st16_ne by lia
    | rewrite ld16_st8_ne by lia
    | rewrite ld8_st16_ne by lia
    | rewrite ld8_st8_ne by lia ].

#[export] Hint Resolve ld8_range ld16_range ld32_range : fw.

(** * C strings: the bytes [s], none of them zero, followed by a zero byte. *)

Definition cstr (m : memory) (a : Z) (s : list Z) : Prop :=
  bytes m a (length s) = s /\ Forall (fun b => b <> 0)%Z s /\
  ld8 m (a + Z.of_nat (length s)) = 0%Z.

Section cstr_lemmas.
Local Open Scope Z_scope.

Lemma cstr_lookup m a s i b :
  cstr m a s -> s !! i = Some b -> ld8 m (a + Z.of_nat i) = b /\ b <> 0.
Proof.
  intros (Hb & Hnz & _) Hi. split.
  - pose proof (lookup_lt_Some _ _ _ Hi) as Hlt.
    rewrite <- Hb in Hi. rewrite bytes_lookup in Hi by done. congruence.
  - rewrite Forall_lookup in Hnz. eauto.
Qed.

(** A byte of a string before its terminator is not zero. *)
Lemma cstr_nonzero m a s i :
  cstr m a s -> 0 <= i < Z.of_nat (length s) -> ld8 m (a + i) <> 0.
Proof.
  intros Hs Hi. destruct (lookup_lt_is_Some_2 s (Z.to_nat i)) as [b Hb]; [lia |].
  destruct (cstr_lookup _ _ _ _ _ Hs Hb) as [Hl Hn].
  rewrite Z2Nat.id in Hl by lia. congruence.
Qed.

End cstr_lemmas.
