(* ===== verification/Mylib.v ===== *)
(** The memory and string routines of the firmware's own C library
    (src/firmware/mylib.c): [memcpy], [memset], [memcmp], [strnlen],
    [strlen], and the word-at-a-time [strcpy] and [strcmp].

    Memory is byte-addressed and little-endian (Prelude).  [char] is unsigned,
    as it is for gcc on RISC-V.  [memcpy], [memset] and [memcmp]
    take the number of iterations from their length argument; the
    NUL-terminated routines and [strnlen] take the fuel of their loops as an
    argument, and the theorems give a result for every fuel above the string's
    length. *)

From stdpp Require Import base tactics numbers list.
From Stdlib Require Import ZArith Lia.
From S2P Require Import Prelude.

Local Open Scope Z_scope.

Module Mylib.

(** ** memcpy, memset, memcmp *)

(** [while (n--) *(a++) = *(b++);] *)
Definition memcpy (m : memory) (aa bb n : Z) : option (memory * Z) :=
  while (S (Z.to_nat n))
    (fun '(m, a, b, n) =>
       if n =? 0 then inr (m, aa)
       else inl (st8 m a (ld8 m b), a + 1, b + 1, n - 1))
    (m, aa, bb, n).

(** [while (count--) { *(char* )dst = (char)val; dst = dst + 1; }] *)
Definition memset (m : memory) (dst val count : Z) : option (memory * Z) :=
  while (S (Z.to_nat count))
    (fun '(m, d, n) =>
       if n =? 0 then inr (m, dst)
       else inl (st8 m d val, d + 1, n - 1))
    (m, dst, count).

(** [--count && *buffer1 == *buffer2], then the difference of the bytes the
    loop stopped at. *)
Definition memcmp (m : memory) (buffer1 buffer2 count : Z) : option Z :=
  if count =? 0 then Some 0
  else while (S (Z.to_nat count))
    (fun '(p, q, n) =>
       let n := n - 1 in
       if negb (n =? 0) && (ld8 m p =? ld8 m q) then inl (p + 1, q + 1, n)
       else inr (ld8 m p - ld8 m q))
    (buffer1, buffer2, count).

(** ** strnlen, strlen *)

Definition strnlen (fuel : nat) (m : memory) (str maxsize : Z) : option Z :=
  while fuel
    (fun '(n, p) =>
       if (n <? maxsize) && negb (ld8 m p =? 0) then inl (n + 1, p + 1)
       else inr n)
    (0, str).

(** The loop over [*eos++] leaves [eos] one past the terminator. *)
Definition strlen (fuel : nat) (m : memory) (str : Z) : option Z :=
  while fuel
    (fun eos => if ld8 m eos =? 0 then inr (eos + 1 - str - 1) else inl (eos + 1))
    str.

(** ** Words with a zero byte *)

(** [((v) - 0x01010101UL) & ~(v) & 0x80808080UL] *)
Definition zero_byte_test (v : Z) : Z :=
  Z.land (Z.land (u32 (v - 0x01010101)) (not32 v)) 0x80808080.

(** ** strcpy *)

(** The byte loop that runs while a pointer is not word aligned: it ends
    either with the copy done ([inl]) or at two aligned pointers ([inr]). *)
Definition strcpy_bytes (fuel : nat) (m : memory) (dst src : Z)
    : option (memory + memory * Z * Z) :=
  while fuel
    (fun '(m, d, s) =>
       if negb (Z.land (Z.lor d s) 3 =? 0) then
         let c := ld8 m s in
         let m := st8 m d c in
         if c =? 0 then inr (inl m) else inl (m, d + 1, s + 1)
       else inr (inr (m, d, s)))
    (m, dst, src).

(** The last word: store byte by byte up to and including the zero byte. *)
Definition strcpy_tail (m : memory) (d v : Z) : memory :=
  let m := st8 m d (Z.land v 255) in
  if Z.land v 255 =? 0 then m else
  let v := Z.shiftr v 8 in
  let m := st8 m (d + 1) (Z.land v 255) in
  if Z.land v 255 =? 0 then m else
  let v := Z.shiftr v 8 in
  let m := st8 m (d + 2) (Z.land v 255) in
  if Z.land v 255 =? 0 then m else
  let v := Z.shiftr v 8 in
  st8 m (d + 3) (Z.land v 255).

Definition strcpy_words (fuel : nat) (m : memory) (dst src : Z) : option memory :=
  while fuel
    (fun '(m, d, s) =>
       let v := ld32 m s in
       if negb (zero_byte_test v =? 0) then inr (strcpy_tail m d v)
       else inl (st32 m d v, d + 4, s + 4))
    (m, dst, src).

Definition strcpy (fuel : nat) (m : memory) (dst src : Z) : option (memory * Z) :=
  r ← strcpy_bytes fuel m dst src;
  match r with
  | inl m => Some (m, dst)
  | inr (m, d, s) => m ← strcpy_words fuel m d s; Some (m, dst)
  end.

(** ** strcmp *)

Definition strcmp_bytes (fuel : nat) (m : memory) (s1 s2 : Z) : option (Z + Z * Z) :=
  while fuel
    (fun '(p, q) =>
       if negb (Z.land (Z.lor p q) 3 =? 0) then
         let c1 := ld8 m p in
         let c2 := ld8 m q in
         if negb (c1 =? c2) then inr (inl (if c1 <? c2 then -1 else 1))
         else if c1 =? 0 then inr (inl 0)
         else inl (p + 1, q + 1)
       else inr (inr (p, q)))
    (s1, s2).

(** The two words differ: find the first byte that decides. *)
Definition strcmp_tail (v1 v2 : Z) : Z :=
  let c1 := Z.land v1 255 in let c2 := Z.land v2 255 in
  if negb (c1 =? c2) then (if c1 <? c2 then -1 else 1) else
  if c1 =? 0 then 0 else
  let v1 := Z.shiftr v1 8 in let v2 := Z.shiftr v2 8 in
  let c1 := Z.land v1 255 in let c2 := Z.land v2 255 in
  if negb (c1 =? c2) then (if c1 <? c2 then -1 else 1) else
  if c1 =? 0 then 0 else
  let v1 := Z.shiftr v1 8 in let v2 := Z.shiftr v2 8 in
  let c1 := Z.land v1 255 in let c2 := Z.land v2 255 in
  if negb (c1 =? c2) then (if c1 <? c2 then -1 else 1) else
  if c1 =? 0 then 0 else
  let v1 := Z.shiftr v1 8 in let v2 := Z.shiftr v2 8 in
  let c1 := Z.land v1 255 in let c2 := Z.land v2 255 in
  if negb (c1 =? c2) then (if c1 <? c2 then -1 else 1) else 0.

Definition strcmp_words (fuel : nat) (m : memory) (s1 s2 : Z) : option Z :=
  while fuel
    (fun '(p, q) =>
       let v1 := ld32 m p in
       let v2 := ld32 m q in
       if negb (v1 =? v2) then inr (strcmp_tail v1 v2)
       else if negb (zero_byte_test v1 =? 0) then inr 0
       else inl (p + 4, q + 4))
    (s1, s2).

Definition strcmp (fuel : nat) (m : memory) (s1 s2 : Z) : option Z :=
  r ← strcmp_bytes fuel m s1 s2;
  match r with
  | inl x => Some x
  | inr (p, q) => strcmp_words fuel m p q
  end.

(** * Reference definitions *)

(** Lexicographic order of byte strings, the way the C library defines the
    sign of [strcmp]. *)
Fixpoint str_order (l1 l2 : list Z) : Z :=
  match l1, l2 with
  | [], [] => 0
  | [], _ :: _ => -1
  | _ :: _, [] => 1
  | x :: l1, y :: l2 =>
      if x =? y then str_order l1 l2 else if x <? y then -1 else 1
  end.

(** The first [i] bytes at [src] are copied to [dst], and nothing else of the
    memory changed. *)
Definition copied (m m' : memory) (dst src i : Z) : Prop :=
  (forall j, 0 <= j < i -> ld8 m' (dst + j) = ld8 m (src + j)) /\
  frame m m' dst i.

(** A forward copy of [n] bytes reads no byte it has already overwritten. *)
Definition forward_safe (dst src n : Z) : Prop := dst <= src \/ src + n <= dst.

(** The difference of the first bytes that differ, 0 when there are none. *)
Fixpoint first_diff (l1 l2 : list Z) : Z :=
  match l1, l2 with
  | x :: l1, y :: l2 => if x =? y then first_diff l1 l2 else x - y
  | _, _ => 0
  end.

(** * Lemmas *)

Lemma copied_refl m dst src : copied m m dst src 0.
Proof. split; [intros j Hj; lia | apply frame_refl]. Qed.

Lemma copied_src m m' dst src n i k :
  forward_safe dst src n -> 0 <= i <= k -> k < n -> copied m m' dst src i ->
  ld8 m' (src + k) = ld8 m (src + k).
Proof. intros [H | H] Hi Hk [_ Hf]; apply Hf; lia. Qed.

Lemma copied_step m m' dst src i v :
  0 <= i -> copied m m' dst src i -> u8 v = ld8 m (src + i) ->
  copied m (st8 m' (dst + i) v) dst src (i + 1).
Proof.
  intros Hi [Hc Hf] Hv. split.
  - intros j Hj. destruct (decide (j = i)) as [-> | Hne].
    + by rewrite ld8_st8_eq.
    + rewrite ld8_st8_ne by lia. apply Hc. lia.
  - intros x Hx. rewrite ld8_st8_ne by lia. apply Hf. lia.
Qed.

(** A string is empty or a nonzero byte and a string. *)
Lemma cstr_inv m p l :
  cstr m p l ->
  (l = [] /\ ld8 m p = 0) \/
  (exists l', l = ld8 m p :: l' /\ ld8 m p <> 0 /\ cstr m (p + 1) l').
Proof.
  intros (Hb & Hnz & Hz). destruct l as [| b l]; simpl in *.
  - left. split; [done |]. rewrite <- Hz. f_equal. lia.
  - right. injection Hb as Hb0 Hb. inversion Hnz; subst.
    exists l. split; [done |]. split; [done |].
    split; [done |]. split; [done |]. rewrite <- Hz. f_equal. lia.
Qed.

Lemma cstr_terminator m p l : cstr m p l -> ld8 m (p + Z.of_nat (length l)) = 0.
Proof. intros (_ & _ & H). exact H. Qed.

Lemma cstr_bound m p l i :
  cstr m p l -> 0 <= i <= Z.of_nat (length l) -> ld8 m (p + i) <> 0 ->
  i < Z.of_nat (length l).
Proof.
  intros Hs Hi Hnz. destruct (decide (i = Z.of_nat (length l))) as [-> |]; [| lia].
  by rewrite (cstr_terminator _ _ _ Hs) in Hnz.
Qed.

(** The bytes of a loaded word. *)
Lemma ld32_byte0 m p : Z.land (ld32 m p) 255 = ld8 m p.
Proof.
  rewrite land_255. unfold ld32.
  pose proof (ld8_range m p). zlia.
Qed.

Lemma ld32_byte1 m p : Z.land (Z.shiftr (ld32 m p) 8) 255 = ld8 m (p + 1).
Proof.
  rewrite land_255, shiftr_8. unfold ld32.
  pose proof (ld8_range m p). pose proof (ld8_range m (p + 1)). zlia.
Qed.

Lemma ld32_byte2 m p :
  Z.land (Z.shiftr (Z.shiftr (ld32 m p) 8) 8) 255 = ld8 m (p + 2).
Proof.
  rewrite land_255, !shiftr_8. unfold ld32.
  pose proof (ld8_range m p). pose proof (ld8_range m (p + 1)).
  pose proof (ld8_range m (p + 2)). zlia.
Qed.

Lemma ld32_byte3 m p :
  Z.land (Z.shiftr (Z.shiftr (Z.shiftr (ld32 m p) 8) 8) 8) 255 = ld8 m (p + 3).
Proof.
  rewrite land_255, !shiftr_8. unfold ld32.
  pose proof (ld8_range m p). pose proof (ld8_range m (p + 1)).
  pose proof (ld8_range m (p + 2)). pose proof (ld8_range m (p + 3)). zlia.
Qed.

(** ** The zero-byte test *)

Lemma testbit_high_bits a :
  Z.land a 0x80808080 = 0 <->
  Z.testbit a 7 = false /\ Z.testbit a 15 = false /\
  Z.testbit a 23 = false /\ Z.testbit a 31 = false.
Proof.
  split.
  - intros H.
    assert (forall i, Z.testbit 0x80808080 i = true -> Z.testbit a i = false) as Hb.
    { intros i Hi. pose proof (Z.land_spec a 0x80808080 i) as Hl.
      rewrite H, Z.bits_0, Hi, andb_true_r in Hl. done. }
    repeat split; apply Hb; reflexivity.
  - intros (H7 & H15 & H23 & H31). apply Z.bits_inj'. intros i Hi.
    rewrite Z.land_spec, Z.bits_0.
    destruct (decide (i < 32)) as [Hlt | Hge].
    + destruct (decide (i = 7)) as [-> |]; [by rewrite H7 |].
      destruct (decide (i = 15)) as [-> |]; [by rewrite H15 |].
      destruct (decide (i = 23)) as [-> |]; [by rewrite H23 |].
      destruct (decide (i = 31)) as [-> |]; [by rewrite H31 |].
      assert (Z.testbit 0x80808080 i = false) as ->; [| apply andb_false_r].
      destruct i as [| i | i]; [done | | lia].
      do 6 (destruct i as [i | i |]; try done; try lia).
    + rewrite (Z.bits_above_log2 0x80808080 i) by (cbn; lia). apply andb_false_r.
Qed.

(** Bit [8 k + 7] of a number given by its bytes. *)
Lemma testbit_byte_top b0 b1 b2 b3 :
  0 <= b0 < 256 -> 0 <= b1 < 256 -> 0 <= b2 < 256 -> 0 <= b3 < 256 ->
  let v := b0 + 256 * b1 + 65536 * b2 + 16777216 * b3 in
  Z.testbit v 7 = (128 <=? b0) /\ Z.testbit v 15 = (128 <=? b1) /\
  Z.testbit v 23 = (128 <=? b2) /\ Z.testbit v 31 = (128 <=? b3).
Proof.
  intros H0 H1 H2 H3 v.
  assert (forall n b, 0 <= n -> (v / 2 ^ n) mod 2 = Z.b2z b -> Z.testbit v n = b) as Hbit.
  { intros n b Hn Hv. rewrite <- testbit_div_mod in Hv by done.
    by apply Z.b2z_inj in Hv. }
  subst v.
  repeat split; apply Hbit; try lia;
    match goal with |- context [128 <=? ?b] => destruct (Z.leb_spec 128 b) end;
    cbn [Z.b2z]; zlia.
Qed.

(** Subtracting one from every byte: without a borrow up to the lowest zero
    byte, which becomes 255. *)
Lemma sub_ones_bytes b0 b1 b2 b3 :
  0 <= b0 < 256 -> 0 <= b1 < 256 -> 0 <= b2 < 256 -> 0 <= b3 < 256 ->
  exists d0 d1 d2 d3,
    u32 (b0 + 256 * b1 + 65536 * b2 + 16777216 * b3 - 0x01010101)
      = d0 + 256 * d1 + 65536 * d2 + 16777216 * d3 /\
    0 <= d0 < 256 /\ 0 <= d1 < 256 /\ 0 <= d2 < 256 /\ 0 <= d3 < 256 /\
    d0 = (if b0 =? 0 then 255 else b0 - 1) /\
    (b0 <> 0 -> d1 = if b1 =? 0 then 255 else b1 - 1) /\
    (b0 <> 0 -> b1 <> 0 -> d2 = if b2 =? 0 then 255 else b2 - 1) /\
    (b0 <> 0 -> b1 <> 0 -> b2 <> 0 -> d3 = if b3 =? 0 then 255 else b3 - 1).
Proof.
  intros H0 H1 H2 H3.
  set (c1 := if b0 <? 1 then 1 else 0).
  set (c2 := if b1 <? 1 + c1 then 1 else 0).
  set (c3 := if b2 <? 1 + c2 then 1 else 0).
  set (c4 := if b3 <? 1 + c3 then 1 else 0).
  exists (b0 - 1 + 256 * c1), (b1 - 1 - c1 + 256 * c2),
         (b2 - 1 - c2 + 256 * c3), (b3 - 1 - c3 + 256 * c4).
  assert (0 <= c1 <= 1) by (unfold c1; case_bool; lia).
  assert (0 <= c2 <= 1) by (unfold c2; case_bool; lia).
  assert (0 <= c3 <= 1) by (unfold c3; case_bool; lia).
  assert (0 <= b0 - 1 + 256 * c1 < 256) by (unfold c1; case_bool; lia).
  assert (0 <= b1 - 1 - c1 + 256 * c2 < 256) by (unfold c2; case_bool; lia).
  assert (0 <= b2 - 1 - c2 + 256 * c3 < 256) by (unfold c3; case_bool; lia).
  assert (0 <= b3 - 1 - c3 + 256 * c4 < 256) by (unfold c4; case_bool; lia).
  split.
  { unfold u32. symmetry. apply Z.mod_unique_pos with (- c4); lia. }
  do 4 (split; [done |]).
  split; [unfold c1; repeat case_bool; lia |].
  split; [intros; unfold c2, c1; repeat case_bool; lia |].
  split; [intros; unfold c3, c2, c1; repeat case_bool; lia |].
  intros; unfold c4, c3, c2, c1; repeat case_bool; lia.
Qed.

Lemma andb_high_bits d b :
  (128 <=? d) && (128 <=? 255 - b) = false <-> ~ (128 <= d /\ b <= 127).
Proof.
  rewrite andb_false_iff, !Z.leb_gt. lia.
Qed.

Lemma zero_byte_test_bytes b0 b1 b2 b3 :
  0 <= b0 < 256 -> 0 <= b1 < 256 -> 0 <= b2 < 256 -> 0 <= b3 < 256 ->
  zero_byte_test (b0 + 256 * b1 + 65536 * b2 + 16777216 * b3) = 0 <->
  b0 <> 0 /\ b1 <> 0 /\ b2 <> 0 /\ b3 <> 0.
Proof.
  intros H0 H1 H2 H3. unfold zero_byte_test.
  rewrite testbit_high_bits, !Z.land_spec.
  destruct (sub_ones_bytes b0 b1 b2 b3) as
    (d0 & d1 & d2 & d3 & -> & R0 & R1 & R2 & R3 & E0 & E1 & E2 & E3); try done.
  destruct (testbit_byte_top d0 d1 d2 d3) as (-> & -> & -> & ->); try done.
  replace (not32 _) with ((255 - b0) + 256 * (255 - b1) + 65536 * (255 - b2)
                    + 16777216 * (255 - b3))
    by (unfold not32; rewrite u32_id by lia; lia).
  destruct (testbit_byte_top (255 - b0) (255 - b1) (255 - b2) (255 - b3))
    as (-> & -> & -> & ->); [lia .. |].
  rewrite !andb_high_bits.
  destruct (Z.eqb_spec b0 0); [lia |]. specialize (E1 ltac:(done)).
  destruct (Z.eqb_spec b1 0); [lia |]. specialize (E2 ltac:(done) ltac:(done)).
  destruct (Z.eqb_spec b2 0); [lia |].
  specialize (E3 ltac:(done) ltac:(done) ltac:(done)).
  destruct (Z.eqb_spec b3 0); lia.
Qed.

(** The test finds a zero byte in a word exactly when there is one. *)
Lemma zero_byte_test_ld32 m p :
  zero_byte_test (ld32 m p) = 0 <->
  ld8 m p <> 0 /\ ld8 m (p + 1) <> 0 /\ ld8 m (p + 2) <> 0 /\ ld8 m (p + 3) <> 0.
Proof. apply zero_byte_test_bytes; apply ld8_range. Qed.

(** * memcpy, memset, memcmp, strnlen, strlen *)

(** The copy loop, by its invariant. *)
Lemma memcpy_spec (m : memory) (dst src n : Z) :
  0 <= n -> forward_safe dst src n ->
  exists m', memcpy m dst src n = Some (m', dst) /\ copied m m' dst src n.
Proof.
  intros Hn Hsafe.
  destruct (while_total
    (fun '(m, a, b, n) =>
       if n =? 0 then inr (m, dst) else inl (st8 m a (ld8 m b), a + 1, b + 1, n - 1))
    (fun '(m1, a, b, k) => 0 <= k <= n /\ a = dst + (n - k) /\ b = src + (n - k) /\
       copied m m1 dst src (n - k))
    (fun '(_, _, _, k) => Z.to_nat k)
    (fun '(m', r) => r = dst /\ copied m m' dst src n))
    with (s := (m, dst, src, n)) (fuel := S (Z.to_nat n)) as [[m' r] [Hr [-> Hq]]].
  - intros [[[m1 a] b] k] (Hk & -> & -> & Hc). case_bool.
    + subst k. rewrite Z.sub_0_r in Hc. done.
    + split; [| lia]. split; [lia |]. split; [lia |]. split; [lia |].
      replace (n - (k - 1)) with (n - k + 1) by lia.
      apply copied_step; [lia | done |].
      rewrite (copied_src m m1 dst src n (n - k) (n - k)) by (done || lia).
      apply u8_id, ld8_range.
  - rewrite Z.sub_diag. repeat split; try lia; apply copied_refl.
  - lia.
  - exists m'. done.
Qed.

Lemma copied_bytes m m' dst src n :
  copied m m' dst src (Z.of_nat n) -> bytes m' dst n = bytes m src n.
Proof.
  intros [Hc _]. apply list_eq. intros i. destruct (decide (i < n)%nat) as [Hi | Hi].
  - rewrite !bytes_lookup by done. f_equal. apply Hc. lia.
  - rewrite !lookup_ge_None_2 by (rewrite bytes_length; lia). done.
Qed.

(** [memcpy] returns for every length that is not negative, with the
    destination as its result; if the regions are disjoint or the destination
    starts at or below the source, the destination then holds the bytes the
    source held before the call, and no other byte of memory is changed. *)
Theorem memcpy_correct (m : memory) (dst src : Z) (n : nat) :
  forward_safe dst src (Z.of_nat n) ->
  exists m', memcpy m dst src (Z.of_nat n) = Some (m', dst) /\
    bytes m' dst n = bytes m src n /\ frame m m' dst (Z.of_nat n).
Proof.
  intros Hs. destruct (memcpy_spec m dst src (Z.of_nat n)) as (m' & Hm & Hc & Hf); [lia | done |].
  exists m'. split; [done |]. split; [by apply copied_bytes | done].
Qed.

Lemma memcpy_correct_witness :
  exists m', memcpy (fun x => x mod 256) 100 200 (Z.of_nat 3) = Some (m', 100) /\
             bytes m' 100 3 = [200; 201; 202] /\ frame (fun x => x mod 256) m' 100 (Z.of_nat 3).
Proof. apply (memcpy_correct (fun x => x mod 256) 100 200 3). left. lia. Defined.

(** [memset] fills exactly the region with the low byte of the value. *)
Lemma memset_correct (m : memory) (dst val count : Z) :
  0 <= count ->
  exists m', memset m dst val count = Some (m', dst) /\
    (forall j, 0 <= j < count -> ld8 m' (dst + j) = u8 val) /\
    frame m m' dst count.
Proof.
  intros Hn.
  destruct (while_total
    (fun '(m, d, n) => if n =? 0 then inr (m, dst) else inl (st8 m d val, d + 1, n - 1))
    (fun '(m1, d, k) => 0 <= k <= count /\ d = dst + (count - k) /\
       (forall j, 0 <= j < count - k -> ld8 m1 (dst + j) = u8 val) /\
       frame m m1 dst (count - k))
    (fun '(_, _, k) => Z.to_nat k)
    (fun '(m', r) => r = dst /\
       (forall j, 0 <= j < count -> ld8 m' (dst + j) = u8 val) /\ frame m m' dst count))
    with (s := (m, dst, count)) (fuel := S (Z.to_nat count)) as [[m' r] [Hr [-> Hq]]].
  - intros [[m1 d] k] (Hk & -> & Hc & Hf). case_bool.
    + subst k. rewrite Z.sub_0_r in Hc, Hf. done.
    + split; [| lia]. split; [lia |]. split; [lia |]. split.
      * intros j Hj. rewrite ld8_st8. destruct (Z.eqb_spec (dst + j) (dst + (count - k))).
        -- done.
        -- apply Hc. lia.
      * intros x Hx. rewrite ld8_st8_ne by lia. apply Hf. lia.
  - rewrite Z.sub_diag. split; [lia |]. split; [lia |].
    split; [intros; lia | apply frame_refl].
  - lia.
  - exists m'. done.
Qed.

(** [memcmp] over [count] bytes returns the difference of the first pair
    of bytes that differ, taken as unsigned, and 0 exactly when the two
    regions hold the same bytes. *)
Theorem memcmp_correct (m : memory) (p q : Z) (count : nat) :
  memcmp m p q (Z.of_nat count) = Some (first_diff (bytes m p count) (bytes m q count))
  /\ (first_diff (bytes m p count) (bytes m q count) = 0 <->
      bytes m p count = bytes m q count).
Proof.
  split.
  - unfold memcmp. destruct (Z.eqb_spec (Z.of_nat count) 0) as [H0 | H0].
    { by replace count with 0%nat by lia. }
    set (body := fun _ => _).
    destruct (while_total body
      (fun '(p', q', k) => exists j : nat, k = Z.of_nat j /\ j <> 0%nat /\
         first_diff (bytes m p' j) (bytes m q' j)
         = first_diff (bytes m p count) (bytes m q count))
      (fun '(_, _, k) => Z.to_nat k)
      (fun r => r = first_diff (bytes m p count) (bytes m q count)))
      with (s := (p, q, Z.of_nat count)) (fuel := S (Z.to_nat (Z.of_nat count)))
      as [r [Hr Hq]].
    + intros [[p' q'] k] (j & -> & Hj & Hd). unfold body.
      destruct j as [| j]; [done |]. replace (Z.of_nat (S j) - 1) with (Z.of_nat j) by lia.
      cbn [bytes first_diff] in Hd.
      destruct (Z.eqb_spec (Z.of_nat j) 0) as [Hj0 | Hj0]; cbn [negb andb].
      * replace j with 0%nat in Hd by lia. cbn [bytes first_diff] in Hd.
        destruct (Z.eqb_spec (ld8 m p') (ld8 m q')); lia.
      * destruct (Z.eqb_spec (ld8 m p') (ld8 m q')) as [E | E]; [| done].
        split; [exists j; repeat split; [lia | done] | lia].
    + exists count. repeat split. lia.
    + lia.
    + by rewrite Hr, Hq.
  - revert p q. induction count as [| k IH]; intros p q; simpl; [done |].
    destruct (Z.eqb_spec (ld8 m p) (ld8 m q)) as [E | E].
    + rewrite E, IH. split; congruence.
    + split; [lia | intros H; injection H; done].
Qed.

(** [strlen] returns the length of the string. *)
Lemma strlen_correct (m : memory) (a : Z) (s : list Z) (fuel : nat) :
  cstr m a s -> (length s < fuel)%nat -> strlen fuel m a = Some (Z.of_nat (length s)).
Proof.
  intros Hs Hf.
  destruct (while_total
    (fun eos => if ld8 m eos =? 0 then inr (eos + 1 - a - 1) else inl (eos + 1))
    (fun p => exists l, cstr m p l /\ p + Z.of_nat (length l) = a + Z.of_nat (length s))
    (fun p => Z.to_nat (a + Z.of_nat (length s) - p))
    (fun r => r = Z.of_nat (length s)))
    with (s := a) (fuel := fuel) as [r [Hr Hq]].
  - intros p (l & Hl & E).
    destruct (cstr_inv _ _ _ Hl) as [[-> Hz] | (l' & -> & Hnz & Hl')].
    + rewrite Hz. cbn in *. lia.
    + apply Z.eqb_neq in Hnz. rewrite Hnz. simpl in E. split; [| lia].
      exists l'. split; [done | lia].
  - by exists s.
  - lia.
  - unfold strlen. by rewrite Hr, Hq.
Qed.

(** [strnlen] returns the length of the string, or [maxsize] if that is less. *)
Lemma strnlen_correct (m : memory) (a : Z) (s : list Z) (maxsize : Z) (fuel : nat) :
  cstr m a s -> 0 <= maxsize -> (length s < fuel)%nat ->
  strnlen fuel m a maxsize = Some (Z.min (Z.of_nat (length s)) maxsize).
Proof.
  intros Hs Hm Hf.
  destruct (while_total
    (fun '(n, p) => if (n <? maxsize) && negb (ld8 m p =? 0) then inl (n + 1, p + 1) else inr n)
    (fun '(n, p) => 0 <= n <= maxsize /\ p = a + n /\
       exists l, cstr m p l /\ n + Z.of_nat (length l) = Z.of_nat (length s))
    (fun '(n, _) => Z.to_nat (Z.of_nat (length s) - n))
    (fun r => r = Z.min (Z.of_nat (length s)) maxsize))
    with (s := (0, a)) (fuel := fuel) as [r [Hr Hq]].
  - intros [n p] (Hn & -> & l & Hl & E).
    destruct (Z.ltb_spec n maxsize); cbn [andb]; [| lia].
    destruct (cstr_inv _ _ _ Hl) as [[-> Hz] | (l' & -> & Hnz & Hl')].
    + rewrite Hz. cbn in *. lia.
    + apply Z.eqb_neq in Hnz. rewrite Hnz. cbn [negb]. simpl in E.
      split; [| lia]. split; [lia |]. split; [lia |]. exists l'.
      split; [by replace (a + (n + 1)) with (a + n + 1) by lia | lia].
  - split; [lia |]. split; [lia |]. by exists s.
  - lia.
  - unfold strnlen. by rewrite Hr, Hq.
Qed.

(** * strcpy *)

Section strcpy_proof.
Context (m : memory) (dst src : Z) (s : list Z).
Context (Hs : cstr m src s)
        (Hsafe : forward_safe dst src (Z.of_nat (length s) + 1)).

Let L := Z.of_nat (length s).

(** [i] bytes of the string are copied and the pointers have advanced over
    them. *)
Definition copying (m1 : memory) (d p : Z) : Prop :=
  exists i, 0 <= i <= L /\ d = dst + i /\ p = src + i /\ copied m m1 dst src i.

Definition copy_left (p : Z) : nat := Z.to_nat (src + L + 1 - p).

Lemma copying_read m1 d p k :
  copying m1 d p -> 0 <= k -> p + k <= src + L -> ld8 m1 (p + k) = ld8 m (p + k).
Proof.
  intros (i & Hi & -> & -> & Hc) Hk Hle.
  replace (src + i + k) with (src + (i + k)) by lia.
  apply (copied_src m m1 dst src (L + 1) i); (done || lia).
Qed.

(** A zero byte read at the source pointer is the terminator. *)
Lemma copying_zero m1 d p :
  copying m1 d p -> ld8 m1 p = 0 -> p = src + L.
Proof.
  intros Hc Hz. pose proof (copying_read m1 d p 0 Hc) as Hr.
  destruct Hc as (i & Hi & -> & -> & Hc).
  rewrite Z.add_0_r in Hr. rewrite Hr in Hz by lia.
  destruct (decide (i = L)) as [-> |]; [done |].
  exfalso. apply (cstr_nonzero m src s i Hs); [unfold L in *; lia | done].
Qed.

Lemma copying_nonzero m1 d p :
  copying m1 d p -> ld8 m1 p <> 0 -> p < src + L.
Proof.
  intros Hc Hz. pose proof (copying_read m1 d p 0 Hc) as Hr.
  destruct Hc as (i & Hi & -> & -> & Hc).
  rewrite Z.add_0_r in Hr. rewrite Hr in Hz by lia.
  pose proof (cstr_bound m src s i Hs ltac:(unfold L in *; lia) Hz). unfold L. lia.
Qed.

(** Storing the next nonzero byte advances the copy by one. *)
Lemma copying_step m1 d p v :
  copying m1 d p -> u8 v = ld8 m1 p -> ld8 m1 p <> 0 ->
  copying (st8 m1 d v) (d + 1) (p + 1) /\
  (forall x, d <> x -> ld8 (st8 m1 d v) x = ld8 m1 x).
Proof.
  intros Hc Hv Hnz. pose proof (copying_nonzero _ _ _ Hc Hnz) as Hlt.
  pose proof (copying_read m1 d p 0 Hc ltac:(lia) ltac:(lia)) as Hr.
  rewrite Z.add_0_r in Hr. split.
  - destruct Hc as (i & Hi & -> & -> & Hc).
    exists (i + 1). split; [lia |]. split; [lia |]. split; [lia |].
    apply copied_step; [lia | done | congruence].
  - intros x Hx. apply ld8_st8_ne. done.
Qed.

(** Storing the terminator completes it. *)
Lemma copying_done m1 d p v :
  copying m1 d p -> u8 v = ld8 m1 p -> ld8 m1 p = 0 ->
  copied m (st8 m1 d v) dst src (L + 1).
Proof.
  intros Hc Hv Hz. pose proof (copying_zero _ _ _ Hc Hz) as Hp.
  pose proof (copying_read m1 d p 0 Hc ltac:(lia) ltac:(lia)) as Hr.
  rewrite Z.add_0_r in Hr. destruct Hc as (i & Hi & -> & -> & Hc).
  replace i with L in * by lia. apply copied_step; [lia | done | congruence].
Qed.

Lemma strcpy_bytes_correct fuel :
  (Z.to_nat (L + 1) < fuel)%nat ->
  exists r, strcpy_bytes fuel m dst src = Some r /\
    match r with
    | inl m' => copied m m' dst src (L + 1)
    | inr (m', d, p) => copying m' d p
    end.
Proof.
  intros Hf. apply (while_total _
    (fun '(m1, d, p) => copying m1 d p) (fun '(_, _, p) => copy_left p)).
  - intros [[m1 d] p] Hc. destruct (negb _); [| done]. cbv zeta.
    destruct (Z.eqb_spec (ld8 m1 p) 0) as [Hz | Hnz].
    + apply copying_done with p; [done | | done]. apply u8_id, ld8_range.
    + split.
      * apply copying_step; [done | apply u8_id, ld8_range | done].
      * pose proof (copying_nonzero _ _ _ Hc Hnz). unfold copy_left. lia.
  - exists 0. split; [unfold L; lia |]. split; [lia |]. split; [lia | apply copied_refl].
  - unfold copy_left. lia.
Qed.

(** The source bytes still to be copied read the same at every stage. *)
Lemma copying_same m1 d p m2 d2 k :
  copying m1 d p -> copying m2 d2 (p + k) -> 0 <= k -> ld8 m2 (p + k) = ld8 m1 (p + k).
Proof.
  intros H1 H2 Hk. assert (p + k <= src + L) as Hle by (destruct H2 as (i & ? & _ & -> & _); lia).
  pose proof (copying_read m2 d2 (p + k) 0 H2 ltac:(lia) ltac:(lia)) as Hr.
  rewrite Z.add_0_r in Hr. rewrite Hr. symmetry. by apply (copying_read m1 d).
Qed.

(** The same, for the byte whose offset in the word is [k]. *)
Lemma copying_next m1 d p m2 k v :
  copying m1 d p -> 0 <= k -> copying m2 (d + k) (p + k) ->
  u8 v = ld8 m1 (p + k) -> ld8 m1 (p + k) <> 0 ->
  copying (st8 m2 (d + k) v) (d + (k + 1)) (p + (k + 1)).
Proof.
  intros H1 Hk H2 Hv Hnz. pose proof (copying_same _ _ _ _ _ _ H1 H2 Hk) as E.
  rewrite <- E in Hv, Hnz. destruct (copying_step _ _ _ v H2 Hv Hnz) as [H _].
  by rewrite !Z.add_assoc.
Qed.

Lemma copying_last m1 d p m2 k v :
  copying m1 d p -> 0 <= k -> copying m2 (d + k) (p + k) ->
  u8 v = ld8 m1 (p + k) -> ld8 m1 (p + k) = 0 ->
  copied m (st8 m2 (d + k) v) dst src (L + 1).
Proof.
  intros H1 Hk H2 Hv Hz. pose proof (copying_same _ _ _ _ _ _ H1 H2 Hk) as E.
  rewrite <- E in Hv, Hz. by apply copying_done with (p + k).
Qed.

Lemma u8_ld32_byte m1 p :
  u8 (ld32 m1 p) = ld8 m1 p /\ u8 (ld32 m1 p / 256) = ld8 m1 (p + 1) /\
  u8 (ld32 m1 p / 65536) = ld8 m1 (p + 2) /\ u8 (ld32 m1 p / 16777216) = ld8 m1 (p + 3).
Proof.
  unfold ld32, u8.
  pose proof (ld8_range m1 p). pose proof (ld8_range m1 (p + 1)).
  pose proof (ld8_range m1 (p + 2)). pose proof (ld8_range m1 (p + 3)).
  repeat split; zlia.
Qed.

Lemma strcpy_word_step m1 d p :
  copying m1 d p -> zero_byte_test (ld32 m1 p) = 0 ->
  copying (st32 m1 d (ld32 m1 p)) (d + 4) (p + 4).
Proof.
  intros Hc Hz. apply zero_byte_test_ld32 in Hz as (N0 & N1 & N2 & N3).
  destruct (u8_ld32_byte m1 p) as (B0 & B1 & B2 & B3).
  destruct (copying_step m1 d p _ Hc B0 N0) as [H1 _].
  pose proof (copying_next m1 d p _ 1 _ Hc ltac:(lia) H1 B1 N1) as H2.
  pose proof (copying_next m1 d p _ 2 _ Hc ltac:(lia) H2 B2 N2) as H3.
  pose proof (copying_next m1 d p _ 3 _ Hc ltac:(lia) H3 B3 N3) as H4.
  exact H4.
Qed.

Lemma strcpy_tail_correct m1 d p :
  copying m1 d p -> zero_byte_test (ld32 m1 p) <> 0 ->
  copied m (strcpy_tail m1 d (ld32 m1 p)) dst src (L + 1).
Proof.
  intros Hc Hz. rewrite zero_byte_test_ld32 in Hz. unfold strcpy_tail.
  rewrite ld32_byte0, ld32_byte1, ld32_byte2, ld32_byte3.
  assert (forall x, u8 (ld8 m1 x) = ld8 m1 x) as B by (intros; apply u8_id, ld8_range).
  cbv zeta. destruct (Z.eqb_spec (ld8 m1 p) 0) as [Z0 | N0];
    [by apply copying_done with p |].
  destruct (copying_step m1 d p _ Hc (B _) N0) as [H1 _].
  destruct (Z.eqb_spec (ld8 m1 (p + 1)) 0) as [Z1 | N1];
    [by apply copying_last with m1 p |].
  pose proof (copying_next m1 d p _ 1 _ Hc ltac:(lia) H1 (B _) N1) as H2.
  destruct (Z.eqb_spec (ld8 m1 (p + 2)) 0) as [Z2 | N2];
    [by apply copying_last with m1 p |].
  pose proof (copying_next m1 d p _ 2 _ Hc ltac:(lia) H2 (B _) N2) as H3.
  destruct (Z.eqb_spec (ld8 m1 (p + 3)) 0) as [Z3 | N3];
    [by apply copying_last with m1 p |].
  exfalso. by apply Hz.
Qed.

Lemma strcpy_words_correct fuel m1 d p :
  copying m1 d p -> (copy_left p < fuel)%nat ->
  exists m', strcpy_words fuel m1 d p = Some m' /\ copied m m' dst src (L + 1).
Proof.
  intros H0 Hf. apply (while_total _
    (fun '(m1, d, p) => copying m1 d p) (fun '(_, _, p) => copy_left p)); [| done | done].
  clear m1 d p H0 Hf. intros [[m1 d] p] Hc. cbv zeta.
  destruct (Z.eqb_spec (zero_byte_test (ld32 m1 p)) 0) as [Hz | Hz]; cbn [negb].
  - pose proof (strcpy_word_step _ _ _ Hc Hz) as H. split; [done |].
    destruct H as (i & Hi & _ & Hp & _). unfold copy_left. lia.
  - by apply strcpy_tail_correct.
Qed.

End strcpy_proof.

(** [strcpy], which copies bytes until both pointers are word aligned and
    then whole words until a word contains a zero byte, terminates on every
    NUL-terminated source that it does not overwrite ahead of its reads.  It
    returns the destination, copies exactly the string and its terminator,
    and changes no other byte, for every alignment of the two pointers. *)
Theorem strcpy_correct (m : memory) (dst src : Z) (s : list Z) (fuel : nat) :
  cstr m src s -> forward_safe dst src (Z.of_nat (length s) + 1) ->
  (length s + 2 <= fuel)%nat ->
  exists m', strcpy fuel m dst src = Some (m', dst) /\
    copied m m' dst src (Z.of_nat (length s) + 1) /\ cstr m' dst s.
Proof.
  intros Hs Hsafe Hf.
  assert (exists m', strcpy fuel m dst src = Some (m', dst) /\
    copied m m' dst src (Z.of_nat (length s) + 1)) as (m' & Hr & Hc).
  { destruct (strcpy_bytes_correct m dst src s Hs Hsafe fuel) as (r & Hr & Hq); [lia |].
    unfold strcpy. rewrite Hr. destruct r as [m' | [[m1 d] p]]; simpl; [by exists m' |].
    destruct (strcpy_words_correct m dst src s Hs Hsafe fuel m1 d p) as (m' & -> & Hc).
    - done.
    - destruct Hq as (i & Hi & _ & -> & _). unfold copy_left. lia.
    - by exists m'. }
  exists m'. split; [done |]. split; [done |].
  destruct Hs as (Hb & Hnz & Hz), Hc as [Hc _]. split; [| split; [done |]].
  - rewrite <- Hb at 2. apply list_eq. intros i.
    destruct (decide (i < length s)%nat).
    + rewrite !bytes_lookup by done. f_equal. apply Hc. lia.
    + rewrite !lookup_ge_None_2; rewrite ?bytes_length; lia || done.
  - rewrite Hc by lia. done.
Qed.

Definition strcpy_example_memory : memory :=
  st_bytes (fun _ => 7) 101 [104; 101; 108; 108; 111; 33; 0].

Lemma strcpy_correct_witness :
  exists m', strcpy 20 strcpy_example_memory 201 101 = Some (m', 201) /\
    copied strcpy_example_memory m' 201 101 7 /\
    cstr m' 201 [104; 101; 108; 108; 111; 33].
Proof.
  apply (strcpy_correct strcpy_example_memory 201 101 [104; 101; 108; 108; 111; 33] 20).
  - split; [reflexivity |]. split; [repeat constructor; lia | reflexivity].
  - right. cbn. lia.
  - cbn. lia.
Defined.

(** * strcmp *)

(** One byte of each string. *)
Lemma str_order_step m p q l1 l2 :
  cstr m p l1 -> cstr m q l2 ->
  (ld8 m p <> ld8 m q -> str_order l1 l2 = if ld8 m p <? ld8 m q then -1 else 1) /\
  (ld8 m p = ld8 m q -> ld8 m p = 0 -> str_order l1 l2 = 0) /\
  (ld8 m p = ld8 m q -> ld8 m p <> 0 -> exists l1' l2', cstr m (p + 1) l1' /\
     cstr m (q + 1) l2' /\ str_order l1 l2 = str_order l1' l2' /\
     length l1 = S (length l1')).
Proof.
  intros H1 H2. pose proof (ld8_range m p). pose proof (ld8_range m q).
  destruct (cstr_inv _ _ _ H1) as [[-> Z1] | (l1' & -> & N1 & C1)];
  destruct (cstr_inv _ _ _ H2) as [[-> Z2] | (l2' & -> & N2 & C2)].
  - rewrite Z1, Z2. repeat split; intros; done.
  - rewrite Z1. cbn [str_order]. repeat split; intros; try lia.
    destruct (Z.ltb_spec 0 (ld8 m q)); [done | lia].
  - rewrite Z2. cbn [str_order]. repeat split; intros; try lia.
    destruct (Z.ltb_spec (ld8 m p) 0); [lia | done].
  - cbn [str_order]. destruct (Z.eqb_spec (ld8 m p) (ld8 m q)) as [E | E].
    + repeat split; intros; try done. exists l1', l2'. done.
    + repeat split; intros; done.
Qed.

Section strcmp_proof.
Context (m : memory) (a b : Z) (s1 s2 : list Z).

(** What remains to be compared decides the comparison of the whole. *)
Definition comparing (p q : Z) (n : nat) : Prop :=
  exists l1 l2, cstr m p l1 /\ cstr m q l2 /\ str_order l1 l2 = str_order s1 s2 /\
    p + Z.of_nat (length l1) = a + Z.of_nat (length s1) /\ n = length l1.

Definition cmp_left (p : Z) : nat := Z.to_nat (a + Z.of_nat (length s1) - p).

Lemma comparing_byte p q n :
  comparing p q n ->
  (ld8 m p <> ld8 m q -> (if ld8 m p <? ld8 m q then -1 else 1) = str_order s1 s2) /\
  (ld8 m p = ld8 m q -> ld8 m p = 0 -> 0 = str_order s1 s2) /\
  (ld8 m p = ld8 m q -> ld8 m p <> 0 ->
     exists n', n = S n' /\ comparing (p + 1) (q + 1) n').
Proof.
  intros (l1 & l2 & H1 & H2 & E & El & ->).
  destruct (str_order_step m p q l1 l2 H1 H2) as (A & B & C). rewrite <- E.
  split; [intros; symmetry; auto |]. split; [intros; symmetry; auto |].
  intros Heq Hnz. destruct (C Heq Hnz) as (l1' & l2' & C1 & C2 & E' & Hl).
  exists (length l1'). split; [done |]. exists l1', l2'.
  split; [done |]. split; [done |]. split; [congruence |]. split; [lia | done].
Qed.

Lemma strcmp_bytes_correct fuel n :
  comparing a b n -> (n < fuel)%nat ->
  exists r, strcmp_bytes fuel m a b = Some r /\
    match r with
    | inl x => x = str_order s1 s2
    | inr (p, q) => exists k, (k <= n)%nat /\ comparing p q k
    end.
Proof.
  intros H0 Hf. apply (while_total _
    (fun '(p, q) => exists k, (k <= n)%nat /\ comparing p q k) (fun '(p, _) => cmp_left p)).
  - intros [p q] (k & Hk & Hc). destruct (negb _); [| eauto]. cbv zeta.
    destruct (comparing_byte p q k Hc) as (A & B & C).
    destruct (Z.eqb_spec (ld8 m p) (ld8 m q)) as [E | E]; cbn [negb]; [| auto].
    destruct (Z.eqb_spec (ld8 m p) 0) as [Z0 | N0]; [auto |].
    destruct (C E N0) as (k' & -> & Hc'). split; [exists k'; split; [lia | done] |].
    destruct Hc' as (l & _ & _ & _ & _ & El & _). unfold cmp_left. lia.
  - by exists n.
  - destruct H0 as (l & _ & _ & _ & _ & El & ->). unfold cmp_left. lia.
Qed.

Lemma strcmp_tail_correct p q n :
  comparing p q n -> ld32 m p <> ld32 m q ->
  strcmp_tail (ld32 m p) (ld32 m q) = str_order s1 s2.
Proof.
  intros H0 Hne. unfold strcmp_tail.
  rewrite !ld32_byte0, !ld32_byte1, !ld32_byte2, !ld32_byte3.
  destruct (comparing_byte p q n H0) as (A0 & B0 & C0).
  destruct (Z.eqb_spec (ld8 m p) (ld8 m q)) as [E0 | E0]; cbn [negb]; [| auto].
  destruct (Z.eqb_spec (ld8 m p) 0) as [Z0 | N0]; [auto |].
  destruct (C0 E0 N0) as (n1 & _ & H1).
  destruct (comparing_byte _ _ _ H1) as (A1 & B1 & C1).
  destruct (Z.eqb_spec (ld8 m (p + 1)) (ld8 m (q + 1))) as [E1 | E1]; cbn [negb]; [| auto].
  destruct (Z.eqb_spec (ld8 m (p + 1)) 0) as [Z1 | N1]; [auto |].
  destruct (C1 E1 N1) as (n2 & _ & H2). add_consts H2.
  destruct (comparing_byte _ _ _ H2) as (A2 & B2 & C2).
  destruct (Z.eqb_spec (ld8 m (p + 2)) (ld8 m (q + 2))) as [E2 | E2]; cbn [negb]; [| auto].
  destruct (Z.eqb_spec (ld8 m (p + 2)) 0) as [Z2 | N2]; [auto |].
  destruct (C2 E2 N2) as (n3 & _ & H3). add_consts H3.
  destruct (comparing_byte _ _ _ H3) as (A3 & B3 & C3).
  destruct (Z.eqb_spec (ld8 m (p + 3)) (ld8 m (q + 3))) as [E3 | E3]; cbn [negb]; [| auto].
  exfalso. apply Hne. unfold ld32. congruence.
Qed.

Lemma ld32_eq_bytes p q :
  ld32 m p = ld32 m q ->
  ld8 m p = ld8 m q /\ ld8 m (p + 1) = ld8 m (q + 1) /\
  ld8 m (p + 2) = ld8 m (q + 2) /\ ld8 m (p + 3) = ld8 m (q + 3).
Proof.
  intros E.
  rewrite <- (ld32_byte1 m p), <- (ld32_byte2 m p), <- (ld32_byte3 m p), <- (ld32_byte0 m p).
  rewrite E, ld32_byte0, ld32_byte1, ld32_byte2, ld32_byte3. done.
Qed.

(** Two equal words without a zero byte. *)
Lemma comparing_word p q n :
  comparing p q n -> ld32 m p = ld32 m q -> zero_byte_test (ld32 m p) = 0 ->
  exists n', (n' < n)%nat /\ comparing (p + 4) (q + 4) n'.
Proof.
  intros H0 E Hz. apply zero_byte_test_ld32 in Hz as (N0 & N1 & N2 & N3).
  destruct (ld32_eq_bytes p q E) as (E0 & E1 & E2 & E3).
  destruct (comparing_byte _ _ _ H0) as (_ & _ & C0).
  destruct (C0 E0 N0) as (n1 & -> & H1).
  destruct (comparing_byte _ _ _ H1) as (_ & _ & C1).
  destruct (C1 E1 N1) as (n2 & -> & H2). add_consts H2.
  destruct (comparing_byte _ _ _ H2) as (_ & _ & C2).
  destruct (C2 E2 N2) as (n3 & -> & H3). add_consts H3.
  destruct (comparing_byte _ _ _ H3) as (_ & _ & C3).
  destruct (C3 E3 N3) as (n4 & -> & H4). add_consts H4.
  exists n4. split; [lia | done].
Qed.

(** Two equal words with a zero byte. *)
Lemma comparing_zero p q n :
  comparing p q n -> ld32 m p = ld32 m q -> zero_byte_test (ld32 m p) <> 0 ->
  0 = str_order s1 s2.
Proof.
  intros H0 E Hz. rewrite zero_byte_test_ld32 in Hz.
  destruct (ld32_eq_bytes p q E) as (E0 & E1 & E2 & E3).
  destruct (comparing_byte _ _ _ H0) as (_ & B0 & C0).
  destruct (decide (ld8 m p = 0)) as [| N0]; [auto |].
  destruct (C0 E0 N0) as (n1 & -> & H1).
  destruct (comparing_byte _ _ _ H1) as (_ & B1 & C1).
  destruct (decide (ld8 m (p + 1) = 0)) as [| N1]; [auto |].
  destruct (C1 E1 N1) as (n2 & -> & H2). add_consts H2.
  destruct (comparing_byte _ _ _ H2) as (_ & B2 & C2).
  destruct (decide (ld8 m (p + 2) = 0)) as [| N2]; [auto |].
  destruct (C2 E2 N2) as (n3 & -> & H3). add_consts H3.
  destruct (comparing_byte _ _ _ H3) as (_ & B3 & C3).
  destruct (decide (ld8 m (p + 3) = 0)) as [| N3]; [auto |].
  exfalso. apply Hz. done.
Qed.

Lemma strcmp_words_correct fuel p q n :
  comparing p q n -> (n < fuel)%nat ->
  strcmp_words fuel m p q = Some (str_order s1 s2).
Proof.
  intros H0 Hf. revert p q n H0 Hf.
  induction fuel as [| fuel IH]; intros p q n H0 Hf; [lia |].
  unfold strcmp_words. rewrite while_S.
  destruct (Z.eqb_spec (ld32 m p) (ld32 m q)) as [E | E]; cbn [negb].
  - destruct (Z.eqb_spec (zero_byte_test (ld32 m p)) 0) as [Z0 | Z0]; cbn [negb].
    + destruct (comparing_word p q n H0 E Z0) as (n' & Hn & H1).
      apply (IH _ _ n'); [done | lia].
    + by rewrite <- (comparing_zero p q n H0 E Z0).
  - by rewrite (strcmp_tail_correct p q n H0 E).
Qed.

End strcmp_proof.

(** [strcmp], which compares bytes until both pointers are word aligned
    and then whole words, terminates on any two NUL-terminated strings and
    returns the sign of their lexicographic order as unsigned bytes: 0 for
    equal strings, -1 or 1 by the first byte that differs (the terminator
    counting as less than any byte), for every alignment of the pointers. *)
Theorem strcmp_correct (m : memory) (a b : Z) (s1 s2 : list Z) (fuel : nat) :
  cstr m a s1 -> cstr m b s2 -> (length s1 < fuel)%nat ->
  strcmp fuel m a b = Some (str_order s1 s2).
Proof.
  intros H1 H2 Hf.
  assert (comparing m a s1 s2 a b (length s1)) as H0
    by (exists s1, s2; done).
  destruct (strcmp_bytes_correct m a b s1 s2 fuel _ H0 Hf) as (r & Hr & Hq).
  unfold strcmp. rewrite Hr. destruct r as [x | [p q]]; simpl; [by rewrite Hq |].
  destruct Hq as (k & Hk & Hc).
  apply (strcmp_words_correct m a s1 s2 fuel p q k Hc). lia.
Qed.

Definition strcmp_example_memory : memory :=
  st_bytes (st_bytes (fun _ => 7) 100 [116; 99; 112; 0]) 200 [116; 99; 113; 0].

Lemma strcmp_correct_witness : strcmp 10 strcmp_example_memory 100 200 = Some (-1).
Proof.
  apply (strcmp_correct strcmp_example_memory 100 200 [116; 99; 112] [116; 99; 113] 10).
  - split; [reflexivity |]. split; [repeat constructor; lia | reflexivity].
  - split; [reflexivity |]. split; [repeat constructor; lia | reflexivity].
  - cbn. lia.
Defined.

End Mylib.
