(* ===== verification/ByteOrder.v ===== *)
(** Byte order conversion: src/core/def.c and the macros of
    src/include/lwip/def.h of lwIP 1.4.1, for a little-endian host. *)

From stdpp Require Import base tactics numbers list.
From Stdlib Require Import ZArith Lia.
From S2P Require Import Prelude.

Local Open Scope Z_scope.

Module ByteOrder.

Definition lwip_htons (n : Z) : Z :=
  u16 (Z.lor (Z.shiftl (Z.land n 0xff) 8) (Z.shiftr (Z.land n 0xff00) 8)).

Definition lwip_ntohs (n : Z) : Z :=
  u16 (Z.lor (Z.shiftl (Z.land n 0xff) 8) (Z.shiftr (Z.land n 0xff00) 8)).

Definition lwip_htonl (n : Z) : Z :=
  u32 (Z.lor (Z.lor (Z.lor (Z.shiftl (Z.land n 0xff) 24)
                           (Z.shiftl (Z.land n 0xff00) 8))
                    (Z.shiftr (Z.land n 0xff0000) 8))
             (Z.shiftr (Z.land n 0xff000000) 24)).

Definition lwip_ntohl (n : Z) : Z :=
  u32 (Z.lor (Z.lor (Z.lor (Z.shiftl (Z.land n 0xff) 24)
                           (Z.shiftl (Z.land n 0xff00) 8))
                    (Z.shiftr (Z.land n 0xff0000) 8))
             (Z.shiftr (Z.land n 0xff000000) 24)).

(** [PP_HTONS], which [htons] and [ntohs] expand to. *)
Definition PP_HTONS (x : Z) : Z :=
  Z.lor (Z.shiftl (Z.land x 0xff) 8) (Z.shiftr (Z.land x 0xff00) 8).

(** [PP_HTONL], which [htonl] and [ntohl] expand to. *)
Definition PP_HTONL (x : Z) : Z :=
  u32 (Z.lor (Z.lor (Z.lor (Z.shiftl (Z.land x 0xff) 24)
                           (Z.shiftl (Z.land x 0xff00) 8))
                    (Z.shiftr (Z.land x 0xff0000) 8))
             (Z.shiftr (Z.land x 0xff000000) 24)).

(** * The bytes of the converted numbers *)

(** A bit field masked out in place. *)
Lemma land_field n w k :
  0 <= w -> 0 <= k ->
  Z.land n (Z.shiftl (Z.ones w) k) = ((n / 2 ^ k) mod 2 ^ w) * 2 ^ k.
Proof.
  intros Hw Hk. apply Z.bits_inj'. intros i Hi. rewrite Z.land_spec.
  rewrite <- (Z.land_ones _ w) by lia.
  rewrite <- Z.shiftl_mul_pow2, <- Z.shiftr_div_pow2 by lia.
  destruct (decide (k <= i)) as [H | H].
  - rewrite !Z.shiftl_spec, Z.land_spec, Z.shiftr_spec by lia.
    do 2 f_equal. lia.
  - rewrite !Z.shiftl_spec_low by lia. apply andb_false_r.
Qed.

Lemma land_byte_at n k :
  0 <= k -> Z.land n (Z.shiftl 255 k) = ((n / 2 ^ k) mod 256) * 2 ^ k.
Proof. apply (land_field n 8); lia. Qed.

Lemma PP_HTONS_bytes b0 b1 :
  0 <= b0 < 256 -> 0 <= b1 < 256 -> PP_HTONS (b0 + 256 * b1) = b1 + 256 * b0.
Proof.
  intros H0 H1. unfold PP_HTONS.
  change 0xff00 with (Z.shiftl 255 8). rewrite land_byte_at by lia.
  rewrite land_255, Z.shiftr_div_pow2, Z.div_mul by lia.
  rewrite Z.shiftl_mul_pow2, lor_shift_add by zlia.
  change (2 ^ 8) with 256. zlia.
Qed.

Lemma lwip_htonl_bytes b0 b1 b2 b3 :
  0 <= b0 < 256 -> 0 <= b1 < 256 -> 0 <= b2 < 256 -> 0 <= b3 < 256 ->
  lwip_htonl (b0 + 256 * b1 + 65536 * b2 + 16777216 * b3)
  = b3 + 256 * b2 + 65536 * b1 + 16777216 * b0.
Proof.
  intros H0 H1 H2 H3. unfold lwip_htonl.
  set (n := b0 + 256 * b1 + 65536 * b2 + 16777216 * b3).
  change 0xff00 with (Z.shiftl 255 8). change 0xff0000 with (Z.shiftl 255 16).
  change 0xff000000 with (Z.shiftl 255 24).
  rewrite !land_byte_at, land_255 by lia.
  replace (n mod 256) with b0 by (unfold n; zlia).
  replace (n / 2 ^ 8 mod 256) with b1 by (change (2 ^ 8) with 256; unfold n; zlia).
  replace (n / 2 ^ 16 mod 256) with b2 by (change (2 ^ 16) with 65536; unfold n; zlia).
  replace (n / 2 ^ 24 mod 256) with b3 by (change (2 ^ 24) with 16777216; unfold n; zlia).
  rewrite !Z.shiftl_mul_pow2, !Z.shiftr_div_pow2 by lia.
  replace (b1 * 2 ^ 8 * 2 ^ 8) with (b1 * 2 ^ 16) by lia.
  replace (b2 * 2 ^ 16 / 2 ^ 8) with (b2 * 2 ^ 8) by zlia.
  rewrite Z.div_mul by lia.
  rewrite (lor_shift_add 24 b0) by lia.
  replace (b0 * 2 ^ 24 + b1 * 2 ^ 16) with ((b0 * 2 ^ 8 + b1) * 2 ^ 16) by lia.
  rewrite (lor_shift_add 16) by lia.
  replace ((b0 * 2 ^ 8 + b1) * 2 ^ 16 + b2 * 2 ^ 8)
    with ((b0 * 2 ^ 16 + b1 * 2 ^ 8 + b2) * 2 ^ 8) by lia.
  rewrite (lor_shift_add 8) by lia.
  rewrite u32_id; lia.
Qed.

(** The four bytes of a 32-bit number. *)
Lemma u32_bytes n : 0 <= n < 4294967296 ->
  exists b0 b1 b2 b3, 0 <= b0 < 256 /\ 0 <= b1 < 256 /\ 0 <= b2 < 256 /\ 0 <= b3 < 256 /\
    n = b0 + 256 * b1 + 65536 * b2 + 16777216 * b3.
Proof.
  intros H. exists (n mod 256), (n / 256 mod 256), (n / 65536 mod 256), (n / 16777216).
  repeat split; zlia.
Qed.

Lemma PP_HTONS_lwip n : 0 <= n < 65536 -> PP_HTONS n = lwip_htons n.
Proof.
  intros H. unfold lwip_htons. fold (PP_HTONS n).
  replace n with (n mod 256 + 256 * (n / 256)) by zlia.
  rewrite PP_HTONS_bytes by zlia. rewrite u16_id; zlia.
Qed.

Lemma PP_HTONS_range n : 0 <= n < 65536 -> 0 <= PP_HTONS n < 65536.
Proof. intros H. rewrite PP_HTONS_lwip by done. apply u16_range. Qed.

Lemma PP_HTONL_lwip n : PP_HTONL n = lwip_htonl n.
Proof. done. Qed.

(** The byte-order conversions of lwIP reverse the bytes of a word: for
    every 16-bit and 32-bit value, [ntohs]/[ntohl] undo [htons]/[htonl], and the
    32-bit number stored little-endian at an address reads back, byte by byte,
    in network order after [htonl]. *)
Theorem byte_order_roundtrip (n : Z) :
  0 <= n < 4294967296 ->
  lwip_ntohl (lwip_htonl n) = n /\
  (n < 65536 -> lwip_ntohs (lwip_htons n) = n) /\
  forall m a, bytes (st32 m a (lwip_htonl n)) a 4 =
    [n / 16777216; n / 65536 mod 256; n / 256 mod 256; n mod 256].
Proof.
  intros H. destruct (u32_bytes n H) as (b0 & b1 & b2 & b3 & H0 & H1 & H2 & H3 & ->).
  split; [| split].
  - change lwip_ntohl with lwip_htonl. by rewrite !lwip_htonl_bytes.
  - intros Hs. replace (b0 + _ + _ + _) with (b0 + 256 * b1) by lia.
    change lwip_ntohs with lwip_htons.
    rewrite <- !PP_HTONS_lwip by (try rewrite <- PP_HTONS_lwip, PP_HTONS_bytes; lia).
    by rewrite !PP_HTONS_bytes.
  - intros m a. rewrite lwip_htonl_bytes by done.
    cbn [bytes]. replace (a + 1 + 1) with (a + 2) by lia.
    replace (a + 2 + 1) with (a + 3) by lia.
    rewrite !ld8_st32 by lia. rewrite !(proj2 (Z.leb_le _ _)), !(proj2 (Z.ltb_lt _ _)) by lia.
    cbn [andb]. replace (a - a) with 0 by lia. replace (a + 1 - a) with 1 by lia.
    replace (a + 2 - a) with 2 by lia. replace (a + 3 - a) with 3 by lia.
    change (2 ^ (8 * 0)) with 1. change (2 ^ (8 * 1)) with 256.
    change (2 ^ (8 * 2)) with 65536. change (2 ^ (8 * 3)) with 16777216.
    f_equal; [zlia |]. f_equal; [zlia |]. f_equal; [zlia |]. f_equal. zlia.
Qed.

Lemma byte_order_roundtrip_witness :
  0 <= 0xc0a8010a < 4294967296 /\ lwip_ntohl (lwip_htonl 0xc0a8010a) = 0xc0a8010a /\
  bytes (st32 (fun _ => 0) 40 (lwip_htonl 0xc0a8010a)) 40 4 = [192; 168; 1; 10].
Proof.
  assert (0 <= 0xc0a8010a < 4294967296) as H by lia.
  destruct (byte_order_roundtrip 0xc0a8010a H) as (H1 & _ & H2).
  exact (conj H (conj H1 (H2 (fun _ => 0) 40))).
Defined.

End ByteOrder.
