(* ===== verification/Fields.v ===== *)
(** Header fields in packets: numbers as the bytes they have on the wire, and
    what writes to fields leave of other fields. *)

From stdpp Require Import base tactics numbers list.
From Stdlib Require Import ZArith Lia.
From S2P Require Import Prelude ByteOrder.

Local Open Scope Z_scope.

Module Fields.
Import ByteOrder.

(** A 16-bit number in network order, and the bytes of a word stored as it is
    (an address, which is kept in network order). *)
Definition be16 (v : Z) : list Z := [v / 256; v mod 256].
Definition word (v : Z) : list Z := [v mod 256; v / 256 mod 256; v / 65536 mod 256; v / 16777216].
Definition be32 (v : Z) : list Z := [v / 16777216; v / 65536 mod 256; v / 256 mod 256; v mod 256].

Lemma bytes_st8 m a v : bytes (st8 m a v) a 1 = [u8 v].
Proof. cbn. by rewrite ld8_st8_eq. Qed.

Lemma bytes_st16 m a v : 0 <= v < 65536 -> bytes (st16 m a v) a 2 = [v mod 256; v / 256].
Proof.
  intros Hv. unfold st16. cbn [bytes]. rewrite ld8_st8_eq, ld8_st8_ne, ld8_st8_eq by lia.
  unfold u8. repeat f_equal. apply Z.mod_small. zlia.
Qed.

Lemma htons_bytes v : 0 <= v < 65536 -> PP_HTONS v = v / 256 + 256 * (v mod 256).
Proof. intros Hv. rewrite <- (PP_HTONS_bytes (v mod 256) (v / 256)) by zlia. f_equal. zlia. Qed.

Lemma bytes_st16_htons m a v : 0 <= v < 65536 -> bytes (st16 m a (PP_HTONS v)) a 2 = be16 v.
Proof.
  intros Hv. rewrite bytes_st16, htons_bytes by (try apply PP_HTONS_range; lia). unfold be16.
  f_equal; [| f_equal]; zlia.
Qed.

Lemma bytes_st32 m a v : 0 <= v < 4294967296 -> bytes (st32 m a v) a 4 = word v.
Proof.
  intros Hv. cbn [bytes]. replace (a + 1 + 1) with (a + 2) by lia. replace (a + 2 + 1) with (a + 3) by lia.
  unfold st32. rewrite !ld8_st8. rewrite !Z.eqb_refl.
  repeat match goal with |- context [?x =? ?y] => rewrite (proj2 (Z.eqb_neq x y)) by lia end.
  unfold word, u8. repeat f_equal. rewrite Z.mod_small; zlia.
Qed.

Lemma bytes_st32_htonl m a v : 0 <= v < 4294967296 -> bytes (st32 m a (lwip_htonl v)) a 4 = be32 v.
Proof.
  intros Hv. rewrite bytes_st32 by apply u32_range.
  destruct (u32_bytes v Hv) as (b0 & b1 & b2 & b3 & H0 & H1 & H2 & H3 & ->). rewrite lwip_htonl_bytes by done.
  unfold word, be32. f_equal; [| f_equal; [| f_equal; [| f_equal]]]; zlia.
Qed.

(** Writes elsewhere. *)
Lemma bytes_st8_ne m a v b n : b + Z.of_nat n <= a \/ a < b -> bytes (st8 m a v) b n = bytes m b n.
Proof. intros Hd. apply bytes_ext. intros x Hx. apply ld8_st8_ne. lia. Qed.

Lemma bytes_st16_ne m a v b n : b + Z.of_nat n <= a \/ a + 2 <= b -> bytes (st16 m a v) b n = bytes m b n.
Proof. intros Hd. apply bytes_ext. intros x Hx. apply ld8_st16_ne. lia. Qed.

Lemma bytes_st32_ne m a v b n : b + Z.of_nat n <= a \/ a + 4 <= b -> bytes (st32 m a v) b n = bytes m b n.
Proof. intros Hd. apply bytes_ext. intros x Hx. apply ld8_st32_ne. lia. Qed.

Lemma bytes_st_bytes_ne m a l b n :
  b + Z.of_nat n <= a \/ a + Z.of_nat (length l) <= b -> bytes (st_bytes m a l) b n = bytes m b n.
Proof. intros Hd. apply bytes_ext. intros x Hx. apply ld8_st_bytes_ne. lia. Qed.

Lemma bytes_st_bytes_eq m a l n :
  Forall (fun x => 0 <= x < 256) l -> length l = n -> bytes (st_bytes m a l) a n = l.
Proof. intros Hl <-. by apply bytes_st_bytes. Qed.

(** Reading fields. *)
Lemma ld8_bytes m a x : bytes m a 1 = [x] -> ld8 m a = x.
Proof. intros H. by injection H. Qed.

Lemma ld16_htons m a v : 0 <= v < 65536 -> bytes m a 2 = be16 v <-> ld16 m a = PP_HTONS v.
Proof.
  intros Hv. rewrite htons_bytes by done. unfold ld16, be16. cbn [bytes].
  pose proof (ld8_range m a). pose proof (ld8_range m (a + 1)).
  split; [intros [= -> ->]; done |]. intros Heq. repeat f_equal; zlia.
Qed.

Lemma bytes_ld32 m a : bytes m a 4 = word (ld32 m a).
Proof.
  pose proof (ld8_range m a). pose proof (ld8_range m (a + 1)).
  pose proof (ld8_range m (a + 2)). pose proof (ld8_range m (a + 3)).
  cbn [bytes]. replace (a + 1 + 1) with (a + 2) by lia. replace (a + 2 + 1) with (a + 3) by lia.
  unfold word, ld32. f_equal; [| f_equal; [| f_equal; [| f_equal]]]; zlia.
Qed.

Lemma word_inj v w : 0 <= v < 4294967296 -> 0 <= w < 4294967296 -> word v = word w -> v = w.
Proof. unfold word. intros Hv Hw [= H1 H2 H3 H4]. zlia. Qed.

Lemma ld32_word m a v : 0 <= v < 4294967296 -> bytes m a 4 = word v -> ld32 m a = v.
Proof. intros Hv Hb. apply word_inj; [apply ld32_range | done | by rewrite <- bytes_ld32]. Qed.

(** [ntohs] of a field. *)
Lemma PP_HTONS_invol v : 0 <= v < 65536 -> PP_HTONS (PP_HTONS v) = v.
Proof. intros Hv. rewrite (htons_bytes (PP_HTONS v)) by by apply PP_HTONS_range. rewrite htons_bytes by done. zlia. Qed.

Lemma ntohs_be16 m a v : 0 <= v < 65536 -> bytes m a 2 = be16 v -> PP_HTONS (ld16 m a) = v.
Proof. intros Hv Hb. apply (ld16_htons m a v Hv) in Hb. rewrite Hb. by apply PP_HTONS_invol. Qed.

(** Splitting a read where two lists are joined. *)
Lemma bytes_app_inv m a n l k l' :
  bytes m a n = l ++ l' -> length l = k -> (k <= n)%nat ->
  bytes m a k = l /\ bytes m (a + Z.of_nat k) (n - k) = l'.
Proof.
  intros Hb Hl Hk. replace n with (k + (n - k))%nat in Hb by lia. rewrite bytes_app in Hb.
  apply app_inj_1 in Hb; [done |]. by rewrite bytes_length.
Qed.

End Fields.

(** Pushes a read of some bytes through the writes that do not touch them. *)
Ltac skip_writes :=
  repeat first
    [ rewrite Fields.bytes_st8_ne by lia | rewrite Fields.bytes_st16_ne by lia
    | rewrite Fields.bytes_st32_ne by lia | rewrite Fields.bytes_st_bytes_ne by (rewrite ?bytes_length; cbn [length]; lia) ].

(** The same for a single byte. *)
Ltac skip_writes8 :=
  repeat first
    [ rewrite ld8_st8_ne by lia | rewrite ld8_st16_ne by lia
    | rewrite ld8_st32_ne by lia | rewrite ld8_st_bytes_ne by (rewrite ?bytes_length; cbn [length]; lia) ].
