(* ===== verification/PbufDefs.v ===== *)
(** Packet buffers as data: [struct pbuf], its enumerations and flags
    (src/include/lwip/pbuf.h of lwIP 1.4.1), the error codes of
    src/include/lwip/err.h, the store of live pbufs, and chains in it.

    A pointer to a pbuf is its address, 0 standing for NULL.  The store maps the
    address of every live pbuf to its fields; following a pointer that is not in
    the store (a dangling or wild pointer) has no defined result, so the
    operations that dereference return an [option]. *)

From stdpp Require Import base tactics numbers list gmap.
From Stdlib Require Import ZArith Lia.
From S2P Require Import Prelude.

Local Open Scope Z_scope.

Inductive pbuf_layer := PBUF_TRANSPORT | PBUF_IP | PBUF_LINK | PBUF_RAW.

Inductive pbuf_type := PBUF_RAM | PBUF_ROM | PBUF_REF | PBUF_POOL.

#[export] Instance pbuf_type_eq_dec : EqDecision pbuf_type.
Proof. solve_decision. Defined.

#[export] Instance pbuf_layer_eq_dec : EqDecision pbuf_layer.
Proof. solve_decision. Defined.

Definition PBUF_FLAG_PUSH : Z := 0x01.
Definition PBUF_FLAG_IS_CUSTOM : Z := 0x02.
Definition PBUF_FLAG_MCASTLOOP : Z := 0x04.
Definition PBUF_FLAG_LLBCAST : Z := 0x08.
Definition PBUF_FLAG_LLMCAST : Z := 0x10.
Definition PBUF_FLAG_TCP_FIN : Z := 0x20.

Record pbuf := mkPbuf {
  next : Z;
  payload : Z;
  tot_len : Z;
  len : Z;
  type : pbuf_type;
  flags : Z;
  ref : Z
}.

#[export] Instance pbuf_eq_dec : EqDecision pbuf.
Proof. solve_decision. Defined.

Definition set_next (b : pbuf) (x : Z) : pbuf :=
  mkPbuf x (payload b) (tot_len b) (len b) (type b) (flags b) (ref b).
Definition set_payload (b : pbuf) (x : Z) : pbuf :=
  mkPbuf (next b) x (tot_len b) (len b) (type b) (flags b) (ref b).
Definition set_tot_len (b : pbuf) (x : Z) : pbuf :=
  mkPbuf (next b) (payload b) x (len b) (type b) (flags b) (ref b).
Definition set_len (b : pbuf) (x : Z) : pbuf :=
  mkPbuf (next b) (payload b) (tot_len b) x (type b) (flags b) (ref b).
Definition set_flags (b : pbuf) (x : Z) : pbuf :=
  mkPbuf (next b) (payload b) (tot_len b) (len b) (type b) x (ref b).
Definition set_ref (b : pbuf) (x : Z) : pbuf :=
  mkPbuf (next b) (payload b) (tot_len b) (len b) (type b) (flags b) x.

Abbreviation pstore := (gmap Z pbuf).

(** Error codes. *)
Definition ERR_OK : Z := 0.
Definition ERR_MEM : Z := -1.
Definition ERR_BUF : Z := -2.
Definition ERR_TIMEOUT : Z := -3.
Definition ERR_RTE : Z := -4.
Definition ERR_INPROGRESS : Z := -5.
Definition ERR_VAL : Z := -6.
Definition ERR_WOULDBLOCK : Z := -7.
Definition ERR_USE : Z := -8.
Definition ERR_ISCONN : Z := -9.
Definition ERR_ABRT : Z := -10.
Definition ERR_RST : Z := -11.
Definition ERR_CLSD : Z := -12.
Definition ERR_CONN : Z := -13.
Definition ERR_ARG : Z := -14.
Definition ERR_IF : Z := -15.

(** * Chains *)

(** [l] lists the pbufs of the chain that starts at [p], with their
    addresses. *)
Inductive chain (st : pstore) : Z -> list (Z * pbuf) -> Prop :=
| chain_nil : chain st 0 []
| chain_cons p b l :
    p <> 0 -> st !! p = Some b -> chain st (next b) l -> chain st p ((p, b) :: l).

#[export] Hint Constructors chain : fw.

(** The invariant of struct pbuf:
    [p->tot_len == p->len + (p->next ? p->next->tot_len : 0)], with the length
    fields in their 16 bits. *)
Fixpoint chain_len (l : list (Z * pbuf)) : Z :=
  match l with
  | [] => 0
  | (_, b) :: l => len b + chain_len l
  end.

Fixpoint lengths_ok (l : list (Z * pbuf)) : Prop :=
  match l with
  | [] => True
  | (_, b) :: l' => tot_len b = len b + chain_len l' /\ 0 <= len b /\
                    tot_len b < 65536 /\ lengths_ok l'
  end.

(** The data of a packet: the payloads of its pbufs in order. *)
Fixpoint chain_data (m : memory) (l : list (Z * pbuf)) : list Z :=
  match l with
  | [] => []
  | (_, b) :: l => bytes m (payload b) (Z.to_nat (len b)) ++ chain_data m l
  end.

Section chain_lemmas.
Implicit Types (st : pstore) (l : list (Z * pbuf)).

Lemma chain_det st p l1 l2 : chain st p l1 -> chain st p l2 -> l1 = l2.
Proof.
  intros H. revert l2. induction H as [| p b l Hp Hb H IH]; intros l2 H2.
  - inversion H2; [done | congruence].
  - inversion H2 as [| ? b' l' ? Hb' H']; [congruence |].
    rewrite Hb in Hb'. injection Hb' as <-. f_equal. by apply IH.
Qed.

Lemma chain_inv st p l :
  chain st p l ->
  (p = 0 /\ l = []) \/
  (p <> 0 /\ exists b l', l = (p, b) :: l' /\ st !! p = Some b /\ chain st (next b) l').
Proof. destruct 1; [by left | right; split; [done |]; eauto]. Qed.

Lemma chain_lookup st p l a b : chain st p l -> (a, b) ∈ l -> st !! a = Some b /\ a <> 0.
Proof.
  induction 1 as [| p b' l Hp Hb H IH]; intros Hin.
  - by apply not_elem_of_nil in Hin.
  - apply elem_of_cons in Hin as [[= -> ->] | Hin]; [done | by apply IH].
Qed.

(** The tail of a chain that starts at one of its elements. *)
Lemma chain_suffix st p l a :
  chain st p l -> a ∈ l.*1 -> exists l', chain st a l' /\ (length l' <= length l)%nat.
Proof.
  induction 1 as [| p b l Hp Hb H IH]; intros Hin; [by apply not_elem_of_nil in Hin |].
  cbn in Hin. apply elem_of_cons in Hin as [-> | Hin].
  - exists ((p, b) :: l). split; [by constructor | done].
  - destruct (IH Hin) as (l' & H' & Hl). exists l'. split; [done | cbn; lia].
Qed.

(** A finite chain visits no pbuf twice. *)
Lemma chain_NoDup st p l : chain st p l -> NoDup l.*1.
Proof.
  induction 1 as [| p b l Hp Hb H IH]; cbn; constructor; [| done].
  intros Hin. destruct (chain_suffix _ _ _ _ H Hin) as (l' & H' & Hl).
  assert (chain st p ((p, b) :: l)) as H2 by by constructor.
  pose proof (chain_det _ _ _ _ H' H2) as ->. cbn in Hl. lia.
Qed.

(** A chain has at most as many pbufs as the store. *)
Lemma chain_length_size st p l : chain st p l -> (length l <= size st)%nat.
Proof.
  intros H. rewrite <- size_dom.
  assert (list_to_set (C := gset Z) (l.*1) ⊆ dom st) as Hsub.
  { intros a. rewrite elem_of_list_to_set. intros Hin.
    apply list_elem_of_fmap in Hin as ([a' b] & -> & Hin).
    apply elem_of_dom. exists b. by apply (chain_lookup st p l). }
  apply subseteq_size in Hsub.
  rewrite size_list_to_set in Hsub by by apply (chain_NoDup st p).
  by rewrite length_fmap in Hsub.
Qed.

(** Changing the store outside a chain does not affect it. *)
Lemma chain_ext st st' p l :
  chain st p l -> (forall a, a ∈ l.*1 -> st' !! a = st !! a) -> chain st' p l.
Proof.
  induction 1 as [| p b l Hp Hb H IH]; intros He; [constructor |].
  constructor; [done | |].
  - rewrite He; [done | cbn; set_solver].
  - apply IH. intros a Ha. apply He. cbn. set_solver.
Qed.

Lemma chain_insert_ne st p l a b :
  chain st p l -> a ∉ l.*1 -> chain (<[a := b]> st) p l.
Proof.
  intros H Ha. apply (chain_ext st); [done |]. intros x Hx.
  apply lookup_insert_ne. by intros ->.
Qed.

Lemma chain_delete_ne st p l a :
  chain st p l -> a ∉ l.*1 -> chain (delete a st) p l.
Proof.
  intros H Ha. apply (chain_ext st); [done |]. intros x Hx.
  apply lookup_delete_ne. by intros ->.
Qed.

(** Linking the last pbuf of a chain to another chain. *)
Lemma chain_link st p l0 r br q lq :
  chain st p (l0 ++ [(r, br)]) -> chain st q lq ->
  (forall a, a ∈ lq.*1 -> a ∉ (l0 ++ [(r, br)]).*1) ->
  chain (<[r := set_next br q]> st) p (l0 ++ (r, set_next br q) :: lq).
Proof.
  revert p. induction l0 as [| [a b] l0 IH]; intros p H Hq Hdis; cbn in H |- *.
  - inversion H; subst. constructor; [done | by rewrite lookup_insert_eq |].
    apply chain_insert_ne; [done |]. intros Hin. apply (Hdis _ Hin). apply elem_of_cons. by left.
  - pose proof (chain_NoDup _ _ _ H) as Hnd. inversion H as [| ? ? ? Hp Hb H']; subst.
    constructor; [done | |].
    + rewrite lookup_insert_ne; [done |]. intros <-. cbn in Hnd. inversion Hnd as [| ? ? Hni _]; subst.
      apply Hni. rewrite fmap_app. apply elem_of_app. right. apply elem_of_cons. by left.
    + apply IH; [done | done |]. intros x Hx Hin. apply (Hdis x Hx). apply elem_of_cons. by right.
Qed.

Lemma chain_len_nonneg l : lengths_ok l -> 0 <= chain_len l.
Proof.
  induction l as [| [a b] l IH]; cbn; [done |]. intros (Ht & Hl & Hm & Hok).
  specialize (IH Hok). lia.
Qed.

Lemma chain_data_length m l :
  lengths_ok l -> Z.of_nat (length (chain_data m l)) = chain_len l.
Proof.
  induction l as [| [a b] l IH]; cbn; [done |]. intros (Ht & Hl & Hm & Hok).
  rewrite length_app, bytes_length, Nat2Z.inj_add, IH by done. lia.
Qed.

Lemma chain_tot_len p b l : lengths_ok ((p, b) :: l) -> tot_len b = chain_len ((p, b) :: l).
Proof. cbn. lia. Qed.

End chain_lemmas.
