(* ===== verification/InetChksum.v ===== *)
(** The Internet checksum: src/core/ipv4/inet_chksum.c and the macros of
    src/include/ipv4/lwip/inet_chksum.h of lwIP 1.4.1.

    The three variants of [lwip_standard_chksum] are modelled; the firmware
    compiles the third (LWIP_CHKSUM_ALGORITHM 3 in lwipopts.h), which works on
    unaligned data, two bytes, then eight bytes, then two bytes at a time.  The
    specification is the one's complement sum of RFC 1071 over the bytes as
    little-endian 16-bit words ([inet_sum]). *)

From stdpp Require Import base tactics numbers list gmap.
From Stdlib Require Import ZArith Lia.
From S2P Require Import Prelude ByteOrder PbufDefs.

Local Open Scope Z_scope.

Module InetChksum.
Import ByteOrder.

(** [(((u) >> 16) + ((u) & 0x0000ffffUL))] *)
Definition FOLD_U32T (u : Z) : Z := u32 (Z.shiftr u 16 + Z.land u 0xffff).

(** [(((w) & 0xff) << 8) | (((w) & 0xff00) >> 8)] *)
Definition SWAP_BYTES_IN_WORD (w : Z) : Z :=
  Z.lor (Z.shiftl (Z.land w 0xff) 8) (Z.shiftr (Z.land w 0xff00) 8).

(** ** Version 1: byte pairs in network order *)

Definition chksum1_loop (m : memory) (octetptr len : Z) : option (Z * Z * Z) :=
  while (S (Z.to_nat len))
    (fun '(acc, p, len) =>
       if 1 <? len then
         let src := u16 (Z.shiftl (ld8 m p) 8) in
         let src := Z.lor src (ld8 m (p + 1)) in
         inl (u32 (acc + src), p + 2, len - 2)
       else inr (acc, p, len))
    (0, octetptr, len).

Definition lwip_standard_chksum_v1 (m : memory) (dataptr len : Z) : option Z :=
  '(acc, p, len) ← chksum1_loop m dataptr len;
  let acc := if 0 <? len then u32 (acc + u16 (Z.shiftl (ld8 m p) 8)) else acc in
  let acc := u32 (Z.shiftr acc 16 + Z.land acc 0xffff) in
  let acc := if negb (Z.land acc 0xffff0000 =? 0)
             then u32 (Z.shiftr acc 16 + Z.land acc 0xffff) else acc in
  Some (PP_HTONS (u16 acc)).

(** ** Version 2: aligned half words *)

(** [sum += *ps++] while two bytes are left, shared by versions 2 and 3. *)
Definition chksum_halves (m : memory) (sum ps len : Z) : option (Z * Z * Z) :=
  while (S (Z.to_nat len))
    (fun '(sum, ps, len) =>
       if 1 <? len then inl (u32 (sum + ld16 m ps), ps + 2, len - 2)
       else inr (sum, ps, len))
    (sum, ps, len).

Definition lwip_standard_chksum_v2 (m : memory) (dataptr len : Z) : option Z :=
  let odd := Z.land dataptr 1 in
  let '(t, pb, len) :=
    if negb (odd =? 0) && (0 <? len) then (256 * ld8 m dataptr, dataptr + 1, len - 1)
    else (0, dataptr, len) in
  '(sum, ps, len) ← chksum_halves m 0 pb len;
  let t := if 0 <? len then 256 * (t / 256) + ld8 m ps else t in
  let sum := u32 (sum + t) in
  let sum := FOLD_U32T sum in
  let sum := FOLD_U32T sum in
  let sum := if negb (odd =? 0) then SWAP_BYTES_IN_WORD sum else sum in
  Some (u16 sum).

(** ** Version 3: eight bytes per iteration with end-around carry *)

Definition add_carry (sum w : Z) : Z :=
  let tmp := u32 (sum + w) in
  if tmp <? sum then u32 (tmp + 1) else tmp.

Definition chksum3_words (m : memory) (sum pl len : Z) : option (Z * Z * Z) :=
  while (S (Z.to_nat len))
    (fun '(sum, pl, len) =>
       if 7 <? len then
         let tmp := add_carry sum (ld32 m pl) in
         let sum := add_carry tmp (ld32 m (pl + 4)) in
         inl (sum, pl + 8, len - 8)
       else inr (sum, pl, len))
    (sum, pl, len).

Definition lwip_standard_chksum (m : memory) (dataptr len : Z) : option Z :=
  let odd := Z.land dataptr 1 in
  let '(t, pb, len) :=
    if negb (odd =? 0) && (0 <? len) then (256 * ld8 m dataptr, dataptr + 1, len - 1)
    else (0, dataptr, len) in
  let '(sum, ps, len) :=
    if negb (Z.land pb 3 =? 0) && (1 <? len) then (u32 (0 + ld16 m pb), pb + 2, len - 2)
    else (0, pb, len) in
  '(sum, pl, len) ← chksum3_words m sum ps len;
  let sum := FOLD_U32T sum in
  '(sum, ps, len) ← chksum_halves m sum pl len;
  let t := if 0 <? len then 256 * (t / 256) + ld8 m ps else t in
  let sum := u32 (sum + t) in
  let sum := FOLD_U32T sum in
  let sum := FOLD_U32T sum in
  let sum := if negb (odd =? 0) then SWAP_BYTES_IN_WORD sum else sum in
  Some (u16 sum).

(** ** The checksums of the protocol modules *)

Definition inet_chksum (m : memory) (dataptr len : Z) : option Z :=
  s ← lwip_standard_chksum m dataptr len;
  Some (not16 s).

(** One iteration of the loop over a pbuf chain that [inet_chksum_pbuf] and
    [inet_chksum_pseudo] share: [None] for a wild pointer. *)
Definition chksum_chain_body (m : memory) (st : pstore) (s : Z * Z * Z)
    : (Z * Z * Z) + option (Z * Z) :=
  let '(acc, swapped, q) := s in
  if q =? 0 then inr (Some (acc, swapped))
  else match st !! q with
       | None => inr None
       | Some b =>
           match lwip_standard_chksum m (payload b) (len b) with
           | None => inr None
           | Some c =>
               let acc := FOLD_U32T (u32 (acc + c)) in
               if negb (len b mod 2 =? 0)
               then inl (SWAP_BYTES_IN_WORD acc, u8 (1 - swapped), next b)
               else inl (acc, swapped, next b)
           end
       end.

Definition chksum_chain (m : memory) (st : pstore) (p : Z) : option (Z * Z) :=
  mjoin (while (S (size st)) (chksum_chain_body m st) (0, 0, p)).

Definition inet_chksum_pbuf (m : memory) (st : pstore) (p : Z) : option Z :=
  '(acc, swapped) ← chksum_chain m st p;
  let acc := if negb (swapped =? 0) then SWAP_BYTES_IN_WORD acc else acc in
  Some (not16 (Z.land acc 0xffff)).

(** Adding the pseudo header (addresses in network order, as they are stored)
    and folding. *)
Definition add_pseudo_header (acc src dest proto proto_len : Z) : Z :=
  let addr := src in
  let acc := u32 (acc + Z.land addr 0xffff) in
  let acc := u32 (acc + Z.land (Z.shiftr addr 16) 0xffff) in
  let addr := dest in
  let acc := u32 (acc + Z.land addr 0xffff) in
  let acc := u32 (acc + Z.land (Z.shiftr addr 16) 0xffff) in
  let acc := u32 (acc + PP_HTONS (u16 proto)) in
  let acc := u32 (acc + PP_HTONS proto_len) in
  let acc := FOLD_U32T acc in
  FOLD_U32T acc.

Definition inet_chksum_pseudo (m : memory) (st : pstore) (p src dest proto proto_len : Z)
    : option Z :=
  '(acc, swapped) ← chksum_chain m st p;
  let acc := if negb (swapped =? 0) then SWAP_BYTES_IN_WORD acc else acc in
  Some (not16 (Z.land (add_pseudo_header acc src dest proto proto_len) 0xffff)).

(** The chain loop that stops after [chksum_len] bytes. *)
Definition chksum_partial_body (m : memory) (st : pstore) (s : Z * Z * Z * Z)
    : (Z * Z * Z * Z) + option (Z * Z) :=
  let '(acc, swapped, q, chksum_len) := s in
  if (q =? 0) || negb (0 <? chksum_len) then inr (Some (acc, swapped))
  else match st !! q with
       | None => inr None
       | Some b =>
           let chklen := if chksum_len <? len b then chksum_len else len b in
           match lwip_standard_chksum m (payload b) chklen with
           | None => inr None
           | Some c =>
               let chksum_len := u16 (chksum_len - chklen) in
               let acc := FOLD_U32T (u32 (acc + c)) in
               if negb (len b mod 2 =? 0)
               then inl (SWAP_BYTES_IN_WORD acc, u8 (1 - swapped), next b, chksum_len)
               else inl (acc, swapped, next b, chksum_len)
           end
       end.

Definition chksum_chain_partial (m : memory) (st : pstore) (p chksum_len : Z)
    : option (Z * Z) :=
  mjoin (while (S (size st)) (chksum_partial_body m st) (0, 0, p, chksum_len)).

Definition inet_chksum_pseudo_partial (m : memory) (st : pstore)
    (p src dest proto proto_len chksum_len : Z) : option Z :=
  '(acc, swapped) ← chksum_chain_partial m st p chksum_len;
  let acc := if negb (swapped =? 0) then SWAP_BYTES_IN_WORD acc else acc in
  Some (not16 (Z.land (add_pseudo_header acc src dest proto proto_len) 0xffff)).

(** * Specification: the one's complement sum *)

(** The bytes as little-endian 16-bit words, an odd byte padded with zero. *)
Fixpoint word_sum (l : list Z) : Z :=
  match l with
  | [] => 0
  | [b] => b
  | b0 :: b1 :: l => b0 + 256 * b1 + word_sum l
  end.

(** One's complement representative of a sum: 0 only for 0, else in
    [1 .. 65535]. *)
Definition oc_fold (s : Z) : Z := if s =? 0 then 0 else (s - 1) mod 65535 + 1.

Definition inet_sum (l : list Z) : Z := oc_fold (word_sum l).

(** [x] represents the sum [s] in one's complement arithmetic. *)
Definition oc_rep (x s : Z) : Prop :=
  0 <= x /\ 0 <= s /\ x mod 65535 = s mod 65535 /\ (x = 0 <-> s = 0).

(** * Lemmas: one's complement arithmetic *)

Lemma oc_rep_refl s : 0 <= s -> oc_rep s s.
Proof. unfold oc_rep. lia. Qed.

Lemma oc_rep_add x s y t : oc_rep x s -> oc_rep y t -> oc_rep (x + y) (s + t).
Proof.
  intros (Hx & Hs & Hm & Hz) (Hy & Ht & Hn & Hw). repeat split; try lia.
  rewrite Zplus_mod, Hm, Hn, <- Zplus_mod. done.
Qed.

Lemma oc_rep_trans x y z : oc_rep x y -> oc_rep y z -> oc_rep x z.
Proof. unfold oc_rep. intuition lia. Qed.

Lemma oc_rep_sym x y : oc_rep x y -> oc_rep y x.
Proof. unfold oc_rep. intuition lia. Qed.

(** A 16-bit representative is the canonical one. *)
Lemma oc_rep_unique x s : oc_rep x s -> x < 65536 -> x = oc_fold s.
Proof.
  intros (Hx & Hs & Hm & Hz) Hlt. unfold oc_fold.
  destruct (Z.eqb_spec s 0); [lia |].
  assert (x <> 0) by lia. apply Z.eq_sym. zlia.
Qed.

Lemma FOLD_U32T_eq u : 0 <= u < 4294967296 -> FOLD_U32T u = u / 65536 + u mod 65536.
Proof.
  intros Hu. unfold FOLD_U32T. rewrite shiftr_16, land_65535. rewrite u32_id; zlia.
Qed.

Lemma FOLD_U32T_range u :
  0 <= u < 4294967296 -> 0 <= FOLD_U32T u <= 131070 /\ (u <= 131070 -> FOLD_U32T u <= 65535).
Proof. intros Hu. rewrite FOLD_U32T_eq by done. split; zlia. Qed.

Lemma oc_rep_fold u : 0 <= u < 4294967296 -> oc_rep (FOLD_U32T u) u.
Proof.
  intros Hu. rewrite FOLD_U32T_eq by done. repeat split; zlia.
Qed.

Lemma PP_HTONS_eq w : 0 <= w < 65536 -> PP_HTONS w = w / 256 + 256 * (w mod 256).
Proof.
  intros H. replace w with (w mod 256 + 256 * (w / 256)) at 1 by zlia.
  rewrite PP_HTONS_bytes by zlia. done.
Qed.

Lemma SWAP_eq w : 0 <= w < 65536 -> SWAP_BYTES_IN_WORD w = w / 256 + 256 * (w mod 256).
Proof. exact (PP_HTONS_eq w). Qed.

(** Swapping the bytes multiplies by 256 modulo 65535. *)
Lemma oc_rep_swap w : 0 <= w < 65536 -> oc_rep (SWAP_BYTES_IN_WORD w) (256 * w).
Proof. intros H. rewrite SWAP_eq by done. repeat split; zlia. Qed.

Lemma oc_rep_scale x s : oc_rep x s -> oc_rep (256 * x) (256 * s).
Proof.
  intros (Hx & Hs & Hm & Hz). repeat split; try lia.
  rewrite Zmult_mod, Hm, <- Zmult_mod. done.
Qed.

Lemma oc_rep_65536 s : 0 <= s -> oc_rep (65536 * s) s.
Proof.
  intros H. repeat split; try lia.
  replace (65536 * s) with (s + s * 65535) by lia. apply Z_mod_plus_full.
Qed.

Lemma SWAP_range w : 0 <= w < 65536 -> 0 <= SWAP_BYTES_IN_WORD w < 65536.
Proof. intros H. rewrite SWAP_eq by done. zlia. Qed.

Lemma add_carry_rep x w :
  0 <= x < 4294967296 -> 0 <= w < 4294967296 ->
  oc_rep (add_carry x w) (x + w) /\ 0 <= add_carry x w < 4294967296.
Proof.
  intros Hx Hw. unfold add_carry.
  destruct (decide (x + w < 4294967296)) as [H | H].
  - rewrite u32_id by lia. destruct (Z.ltb_spec (x + w) x); [lia |].
    split; [apply oc_rep_refl; lia | lia].
  - replace (u32 (x + w)) with (x + w - 4294967296) by (unfold u32; zlia).
    destruct (Z.ltb_spec (x + w - 4294967296) x); [| lia].
    rewrite u32_id by lia. split; [| lia]. repeat split; try lia.
    rewrite <- (Z_mod_plus_full _ 65537). f_equal. lia.
Qed.

(** * Lemmas: sums of bytes *)

Lemma word_sum_nonneg l : Forall (fun b => 0 <= b < 256) l -> 0 <= word_sum l.
Proof.
  revert l. fix IH 1. intros [| b0 [| b1 l]] H; cbn [word_sum]; [lia | |].
  - inversion H; lia.
  - inversion H as [| ? ? H0 H']; subst. inversion H' as [| ? ? H1 Hl]; subst.
    specialize (IH l Hl). lia.
Qed.

(** Two bytes more at the front, as the loops consume them. *)
Lemma word_sum_bytes2 m a n :
  word_sum (bytes m a (S (S n))) = ld16 m a + word_sum (bytes m (a + 2) n).
Proof.
  cbn [bytes word_sum]. unfold ld16. replace (a + 1 + 1) with (a + 2) by lia. lia.
Qed.

(** Prepending one byte shifts every other by one position. *)
Lemma word_sum_cons b l :
  0 <= b < 256 -> Forall (fun b => 0 <= b < 256) l ->
  oc_rep (b + 256 * word_sum l) (word_sum (b :: l)).
Proof.
  revert b l. fix IH 2. intros b [| c l] Hb Hl; cbn [word_sum].
  - replace (b + 256 * 0) with b by lia. apply oc_rep_refl. lia.
  - inversion Hl as [| ? ? Hc Hl']; subst.
    pose proof (IH c l Hc Hl') as H. pose proof (word_sum_nonneg l Hl').
    apply oc_rep_trans with (b + 256 * (c + 256 * word_sum l)).
    + apply oc_rep_add; [apply oc_rep_refl; lia |].
      apply oc_rep_scale, oc_rep_sym. exact H.
    + replace (b + 256 * (c + 256 * word_sum l))
        with (b + 256 * c + 65536 * word_sum l) by lia.
      apply oc_rep_add; [apply oc_rep_refl; lia | apply oc_rep_65536; lia].
Qed.

Lemma word_sum_bound l :
  Forall (fun b => 0 <= b < 256) l ->
  word_sum l <= 65535 * ((Z.of_nat (length l) + 1) / 2).
Proof.
  revert l. fix IH 1. intros [| b0 [| b1 l]] H; cbn [word_sum length].
  - zlia.
  - inversion H; subst. zlia.
  - inversion H as [| ? ? H0 H']; subst. inversion H' as [| ? ? H1 Hl]; subst.
    specialize (IH l Hl). zlia.
Qed.

Lemma word_sum_bytes_nonneg m a n : 0 <= word_sum (bytes m a n).
Proof. apply word_sum_nonneg, bytes_range. Qed.

Lemma word_sum_bytes_bound m a n :
  word_sum (bytes m a n) <= 65535 * ((Z.of_nat n + 1) / 2).
Proof.
  pose proof (word_sum_bound (bytes m a n) (bytes_range m a n)) as H.
  by rewrite bytes_length in H.
Qed.

Lemma word_sum_bytes8 m a n :
  oc_rep (ld32 m a + ld32 m (a + 4) + word_sum (bytes m (a + 8) n))
         (word_sum (bytes m a (8 + n))).
Proof.
  change (8 + n)%nat with (S (S (S (S (S (S (S (S n)))))))).
  rewrite !word_sum_bytes2. replace (a + 2 + 2) with (a + 4) by lia.
  replace (a + 4 + 2) with (a + 6) by lia. replace (a + 6 + 2) with (a + 8) by lia.
  assert (forall x, oc_rep (ld32 m x) (ld16 m x + ld16 m (x + 2))) as Hw.
  { intros x. replace (ld32 m x) with (ld16 m x + 65536 * ld16 m (x + 2))
      by (unfold ld32, ld16; replace (x + 2 + 1) with (x + 3) by lia; lia).
    pose proof (ld16_range m x). pose proof (ld16_range m (x + 2)).
    apply oc_rep_add; [apply oc_rep_refl; lia | apply oc_rep_65536; lia]. }
  pose proof (Hw (a + 4)) as Hw4. replace (a + 4 + 2) with (a + 6) in Hw4 by lia.
  pose proof (oc_rep_add _ _ _ _ (oc_rep_add _ _ _ _ (Hw a) Hw4)
    (oc_rep_refl _ (word_sum_bytes_nonneg m (a + 8) n))) as H.
  replace (ld16 m a + ld16 m (a + 2) + (ld16 m (a + 4) + ld16 m (a + 6)) + _)
    with (ld16 m a + (ld16 m (a + 2) + (ld16 m (a + 4) + (ld16 m (a + 6)
          + word_sum (bytes m (a + 8) n))))) in H by lia.
  exact H.
Qed.

(** ** The loops *)

(** What is left when the half-word loop ends: nothing, or one byte. *)
Definition tail_of (m : memory) (total sum ps len : Z) : Prop :=
  0 <= sum /\ ((len = 0 /\ sum = total) \/ (len = 1 /\ sum + ld8 m ps = total)).

Lemma chksum_halves_correct m sum ps n :
  0 <= sum -> sum + word_sum (bytes m ps n) < 4294967296 ->
  exists sum' ps' len',
    chksum_halves m sum ps (Z.of_nat n) = Some (sum', ps', len') /\
    tail_of m (sum + word_sum (bytes m ps n)) sum' ps' len'.
Proof.
  intros Hs Hb. set (total := sum + word_sum (bytes m ps n)) in *.
  destruct (while_total
    (fun '(sum, ps, len) =>
       if 1 <? len then inl (u32 (sum + ld16 m ps), ps + 2, len - 2)
       else inr (sum, ps, len))
    (fun '(sum, ps, len) => exists k, len = Z.of_nat k /\ 0 <= sum /\
       sum + word_sum (bytes m ps k) = total)
    (fun '(_, _, len) => Z.to_nat len)
    (fun '(sum', ps', len') => tail_of m total sum' ps' len'))
    with (s := (sum, ps, Z.of_nat n)) (fuel := S (Z.to_nat (Z.of_nat n)))
    as [[[s' p'] l'] [Hr Hq]].
  - intros [[s p] l] (k & -> & Hs' & Ht).
    destruct k as [| [| k]]; cbn [bytes word_sum] in Ht.
    + split; [done | left; lia].
    + split; [done | right; cbn in *; lia].
    + change (ld8 m p :: ld8 m (p + 1) :: bytes m (p + 1 + 1) k)
        with (bytes m p (S (S k))) in Ht.
      destruct (Z.ltb_spec 1 (Z.of_nat (S (S k)))); [| lia].
      assert (s + (ld16 m p + word_sum (bytes m (p + 2) k)) = total) as Ht'.
      { rewrite <- Ht. unfold ld16. replace (p + 1 + 1) with (p + 2) by lia. lia. }
      pose proof (word_sum_bytes_nonneg m (p + 2) k). pose proof (ld16_range m p).
      split; [| lia]. exists k. split; [lia |]. rewrite u32_id by lia. split; lia.
  - exists n. done.
  - lia.
  - exists s', p', l'. done.
Qed.

Lemma chksum3_words_correct m sum ps n s0 :
  0 <= sum < 4294967296 -> oc_rep sum s0 ->
  exists sum' ps' k s1,
    chksum3_words m sum ps (Z.of_nat n) = Some (sum', ps', Z.of_nat k) /\
    (k < 8)%nat /\ 0 <= sum' < 4294967296 /\ oc_rep sum' s1 /\
    oc_rep (s1 + word_sum (bytes m ps' k)) (s0 + word_sum (bytes m ps n)).
Proof.
  intros Hs Hrep. set (total := s0 + word_sum (bytes m ps n)) in *.
  destruct (while_total
    (fun '(sum, pl, len) =>
       if 7 <? len then
         let tmp := add_carry sum (ld32 m pl) in
         let sum := add_carry tmp (ld32 m (pl + 4)) in
         inl (sum, pl + 8, len - 8)
       else inr (sum, pl, len))
    (fun '(sum, pl, len) => exists k s1, len = Z.of_nat k /\ 0 <= sum < 4294967296 /\
       oc_rep sum s1 /\ oc_rep (s1 + word_sum (bytes m pl k)) total)
    (fun '(_, _, len) => Z.to_nat len)
    (fun '(sum', pl', len') => exists k s1, len' = Z.of_nat k /\ (k < 8)%nat /\
       0 <= sum' < 4294967296 /\ oc_rep sum' s1 /\
       oc_rep (s1 + word_sum (bytes m pl' k)) total))
    with (s := (sum, ps, Z.of_nat n)) (fuel := S (Z.to_nat (Z.of_nat n)))
    as [[[s' p'] l'] [Hr Hq]].
  - intros [[s p] l] (k & s1 & -> & Hs1 & Hr1 & Ht).
    destruct (Z.ltb_spec 7 (Z.of_nat k)); [| exists k, s1; split; [done |]; split; [lia | done]].
    cbv zeta. destruct (add_carry_rep s (ld32 m p) Hs1 (ld32_range m p)) as [R1 B1].
    destruct (add_carry_rep _ (ld32 m (p + 4)) B1 (ld32_range m (p + 4))) as [R2 B2].
    split; [| lia]. exists (k - 8)%nat, (s1 + ld32 m p + ld32 m (p + 4)).
    split; [lia |]. split; [done |].
    pose proof (ld32_range m p). pose proof (ld32_range m (p + 4)). split.
    + apply (oc_rep_trans _ _ _ R2). apply oc_rep_add; [| apply oc_rep_refl; lia].
      apply (oc_rep_trans _ _ _ R1). apply oc_rep_add; [done | apply oc_rep_refl; lia].
    + apply oc_rep_trans with (s1 + word_sum (bytes m p k)); [| done].
      replace k with (8 + (k - 8))%nat at 2 by lia.
      rewrite <- !Z.add_assoc. apply oc_rep_add;
        [apply oc_rep_refl; destruct Hr1 as (_ & ? & _); done |].
      rewrite Z.add_assoc. apply word_sum_bytes8.
  - exists n, s0. split; [done |]. split; [done |]. split; [done |].
    apply oc_rep_refl. pose proof (word_sum_bytes_nonneg m ps n).
    destruct Hrep as (_ & ? & _). lia.
  - lia.
  - destruct Hq as (k & s1 & -> & Hk & Hb & Hr1 & Ht). exists s', p', k, s1. done.
Qed.

(** ** Assembling the sum *)

Lemma fold_twice u :
  0 <= u < 4294967296 ->
  oc_rep (FOLD_U32T (FOLD_U32T u)) u /\ 0 <= FOLD_U32T (FOLD_U32T u) < 65536.
Proof.
  intros Hu. destruct (FOLD_U32T_range u Hu) as [H1 _].
  destruct (FOLD_U32T_range (FOLD_U32T u) ltac:(lia)) as [H2 H3]. split; [| lia].
  apply oc_rep_trans with (FOLD_U32T u); apply oc_rep_fold; lia.
Qed.

(** The end bytes, two folds, and the swap for an odd start address. *)
Definition chksum_finish (m : memory) (odd t sum ps len : Z) : Z :=
  let t := if 0 <? len then 256 * (t / 256) + ld8 m ps else t in
  let sum := FOLD_U32T (FOLD_U32T (u32 (sum + t))) in
  u16 (if negb (odd =? 0) then SWAP_BYTES_IN_WORD sum else sum).

Lemma chksum_finish_correct m odd b total sum ps len S :
  tail_of m total sum ps len -> 0 <= b < 256 -> total + 256 * b < 4294967296 ->
  oc_rep total S ->
  chksum_finish m odd (256 * b) sum ps len
  = oc_fold (if negb (odd =? 0) then b + 256 * S else S + 256 * b).
Proof.
  intros (Hs & Ht) Hb Hbound Hrep. unfold chksum_finish.
  assert (sum + (if 0 <? len then 256 * (256 * b / 256) + ld8 m ps else 256 * b)
          = total + 256 * b) as ->.
  { destruct Ht as [[-> ->] | [-> <-]]; cbn; zlia. }
  assert (0 <= total) by (destruct Hrep as (? & _); done).
  assert (0 <= S) by (destruct Hrep as (_ & ? & _); done).
  rewrite u32_id by lia.
  destruct (fold_twice (total + 256 * b) ltac:(lia)) as [R1 B1].
  assert (oc_rep (FOLD_U32T (FOLD_U32T (total + 256 * b))) (S + 256 * b)) as R2.
  { apply (oc_rep_trans _ _ _ R1). apply oc_rep_add; [done | apply oc_rep_refl; lia]. }
  destruct (negb (odd =? 0)).
  - pose proof (SWAP_range _ B1). rewrite u16_id by done.
    apply oc_rep_unique; [| lia]. apply (oc_rep_trans _ _ _ (oc_rep_swap _ B1)).
    apply (oc_rep_trans _ _ _ (oc_rep_scale _ _ R2)).
    replace (256 * (S + 256 * b)) with (65536 * b + 256 * S) by lia.
    apply oc_rep_add; [apply oc_rep_65536; lia | apply oc_rep_refl; lia].
  - rewrite u16_id by done. apply oc_rep_unique; [done | lia].
Qed.

Lemma oc_fold_rep x y : oc_rep x y -> oc_fold x = oc_fold y.
Proof.
  intros (Hx & Hy & Hm & Hz). unfold oc_fold.
  destruct (Z.eqb_spec x 0), (Z.eqb_spec y 0); [done | lia | lia |].
  f_equal. rewrite (Zminus_mod x), (Zminus_mod y), Hm. done.
Qed.

Lemma inet_sum_cons b l :
  0 <= b < 256 -> Forall (fun b => 0 <= b < 256) l ->
  oc_fold (b + 256 * word_sum l) = inet_sum (b :: l).
Proof. intros Hb Hl. apply oc_fold_rep. by apply word_sum_cons. Qed.

(** Versions 2 and 3 split off the odd first byte in the same way. *)
Lemma odd_start_cases m a n :
  exists t pb k,
    (if negb (Z.land a 1 =? 0) && (0 <? Z.of_nat n)
     then (256 * ld8 m a, a + 1, Z.of_nat n - 1) else (0, a, Z.of_nat n))
    = (256 * t, pb, Z.of_nat k) /\ 0 <= t < 256 /\ (k <= n)%nat /\
    (Z.of_nat k + (if t =? 0 then 0 else 1) <= Z.of_nat n) /\
    forall S, oc_rep S (word_sum (bytes m pb k)) ->
      oc_fold (if negb (Z.land a 1 =? 0) then t + 256 * S else S + 256 * t)
      = inet_sum (bytes m a n).
Proof.
  destruct (negb (Z.land a 1 =? 0)); cbn [andb].
  - destruct n as [| n].
    + exists 0, a, 0%nat. repeat split; try (cbn; lia). intros S HS.
      apply (oc_fold_rep _ 0). destruct HS as (? & ? & _ & Hz). cbn in Hz.
      replace S with 0 by lia. apply oc_rep_refl. lia.
    + exists (ld8 m a), (a + 1), n. pose proof (ld8_range m a).
      destruct (Z.ltb_spec 0 (Z.of_nat (S n))); [| lia].
      split; [do 2 f_equal; lia |]. split; [done |]. split; [lia |].
      split; [destruct (_ =? _); lia |]. intros T HT. cbn [bytes].
      rewrite <- inet_sum_cons by (done || apply bytes_range).
      apply oc_fold_rep, oc_rep_add; [apply oc_rep_refl; lia | by apply oc_rep_scale].
  - exists 0, a, n. repeat split; try (cbn; lia). intros S HS.
    replace (S + 256 * 0) with S by lia. by apply oc_fold_rep.
Qed.

(** Version 3. *)
Lemma lwip_standard_chksum_sum (m : memory) (a : Z) (n : nat) :
  lwip_standard_chksum m a (Z.of_nat n) = Some (inet_sum (bytes m a n)).
Proof.
  unfold lwip_standard_chksum.
  destruct (odd_start_cases m a n) as (t & pb & k & -> & Ht & Hk & _ & Hfin).
  assert (exists sum ps j s0,
    (if negb (Z.land pb 3 =? 0) && (1 <? Z.of_nat k)
     then (u32 (0 + ld16 m pb), pb + 2, Z.of_nat k - 2) else (0, pb, Z.of_nat k))
    = (sum, ps, Z.of_nat j) /\ 0 <= sum < 4294967296 /\ oc_rep sum s0 /\
    s0 + word_sum (bytes m ps j) = word_sum (bytes m pb k)) as (sum & ps & j & s0 & -> & Hs & Hr & Hw).
  { destruct (negb (Z.land pb 3 =? 0) && (1 <? Z.of_nat k)) eqn:E; bool_to_prop.
    - destruct k as [| [| k]]; [lia | lia |].
      pose proof (ld16_range m pb). rewrite u32_id by lia.
      exists (ld16 m pb), (pb + 2), k, (ld16 m pb).
      split; [do 2 f_equal; lia |]. split; [lia |]. split; [apply oc_rep_refl; lia |].
      by rewrite word_sum_bytes2.
    - exists 0, pb, k, 0. split; [done |]. split; [lia |].
      split; [by apply oc_rep_refl | lia]. }
  destruct (chksum3_words_correct m sum ps j s0 Hs Hr)
    as (sum' & ps' & i & s1 & Hwords & Hi & Hs' & Hr' & Hrep).
  rewrite Hwords. cbn [mbind option_bind].
  destruct (FOLD_U32T_range sum' Hs') as [HF _].
  pose proof (word_sum_bytes_bound m ps' i). pose proof (word_sum_bytes_nonneg m ps' i).
  assert ((Z.of_nat i + 1) / 2 <= 4) by zlia.
  destruct (chksum_halves_correct m (FOLD_U32T sum') ps' i)
    as (s2 & p2 & l2 & Hhalves & Htail); [lia | lia |].
  rewrite Hhalves. cbn [mbind option_bind].
  change (Some (chksum_finish m (Z.land a 1) (256 * t) s2 p2 l2)
          = Some (inet_sum (bytes m a n))).
  f_equal. rewrite <- (Hfin (s1 + word_sum (bytes m ps' i))).
  - apply (chksum_finish_correct m _ t _ s2 p2 l2 _ Htail Ht); [lia |].
    apply oc_rep_add; [| apply oc_rep_refl; lia].
    apply oc_rep_trans with sum'; [by apply oc_rep_fold | done].
  - by rewrite <- Hw.
Qed.

(** Version 2, up to the length its comment gives. *)
Lemma chksum_v2_sum (m : memory) (a : Z) (n : nat) :
  Z.of_nat n <= 0x20000 ->
  lwip_standard_chksum_v2 m a (Z.of_nat n) = Some (inet_sum (bytes m a n)).
Proof.
  intros Hn. unfold lwip_standard_chksum_v2.
  destruct (odd_start_cases m a n) as (t & pb & k & -> & Ht & Hk & _ & Hfin).
  pose proof (word_sum_bytes_bound m pb k). pose proof (word_sum_bytes_nonneg m pb k).
  assert ((Z.of_nat k + 1) / 2 <= 65536) by zlia.
  destruct (chksum_halves_correct m 0 pb k) as (s2 & p2 & l2 & -> & Htail); [lia | lia |].
  cbn [mbind option_bind].
  change (Some (chksum_finish m (Z.land a 1) (256 * t) s2 p2 l2)
          = Some (inet_sum (bytes m a n))).
  f_equal. rewrite <- (Hfin (word_sum (bytes m pb k))) by (apply oc_rep_refl; lia).
  apply (chksum_finish_correct m _ t _ s2 p2 l2 _ Htail Ht); [lia |].
  apply oc_rep_refl. lia.
Qed.

(** The sum in network order, as version 1 accumulates it. *)
Fixpoint be_sum (l : list Z) : Z :=
  match l with
  | [] => 0
  | [b] => 256 * b
  | b0 :: b1 :: l => 256 * b0 + b1 + be_sum l
  end.

Lemma be_sum_nonneg l : Forall (fun b => 0 <= b < 256) l -> 0 <= be_sum l.
Proof.
  revert l. fix IH 1. intros [| b0 [| b1 l]] H; cbn [be_sum]; [lia | |].
  - inversion H; lia.
  - inversion H as [| ? ? H0 H']; subst. inversion H' as [| ? ? H1 Hl]; subst.
    specialize (IH l Hl). lia.
Qed.

Lemma be_sum_word_sum l :
  Forall (fun b => 0 <= b < 256) l -> oc_rep (256 * be_sum l) (word_sum l).
Proof.
  revert l. fix IH 1. intros [| b0 [| b1 l]] H; cbn [be_sum word_sum].
  - by apply oc_rep_refl.
  - inversion H; subst. replace (256 * (256 * b0)) with (65536 * b0) by lia.
    apply oc_rep_65536. lia.
  - inversion H as [| ? ? H0 H']; subst. inversion H' as [| ? ? H1 Hl]; subst.
    specialize (IH l Hl).
    replace (256 * (256 * b0 + b1 + be_sum l))
      with (65536 * b0 + 256 * b1 + 256 * be_sum l) by lia.
    apply oc_rep_add; [| done].
    apply oc_rep_add; [apply oc_rep_65536; lia | apply oc_rep_refl; lia].
Qed.

Lemma be_sum_bound l :
  Forall (fun b => 0 <= b < 256) l -> be_sum l <= 65535 * ((Z.of_nat (length l) + 1) / 2).
Proof.
  revert l. fix IH 1. intros [| b0 [| b1 l]] H; cbn [be_sum length].
  - zlia.
  - inversion H; subst. zlia.
  - inversion H as [| ? ? H0 H']; subst. inversion H' as [| ? ? H1 Hl]; subst.
    specialize (IH l Hl). zlia.
Qed.

Lemma chksum1_loop_correct m a n :
  be_sum (bytes m a n) < 4294967296 ->
  exists acc p len, chksum1_loop m a (Z.of_nat n) = Some (acc, p, len) /\ 0 <= acc /\
    ((len = 0 /\ acc = be_sum (bytes m a n)) \/
     (len = 1 /\ acc + 256 * ld8 m p = be_sum (bytes m a n))).
Proof.
  intros Hb. set (total := be_sum (bytes m a n)) in *.
  destruct (while_total
    (fun '(acc, p, len) =>
       if 1 <? len then
         let src := u16 (Z.shiftl (ld8 m p) 8) in
         let src := Z.lor src (ld8 m (p + 1)) in
         inl (u32 (acc + src), p + 2, len - 2)
       else inr (acc, p, len))
    (fun '(acc, p, len) => exists k, len = Z.of_nat k /\ 0 <= acc /\
       acc + be_sum (bytes m p k) = total)
    (fun '(_, _, len) => Z.to_nat len)
    (fun '(acc, p, len) => 0 <= acc /\ ((len = 0 /\ acc = total) \/
       (len = 1 /\ acc + 256 * ld8 m p = total))))
    with (s := (0, a, Z.of_nat n)) (fuel := S (Z.to_nat (Z.of_nat n)))
    as [[[s' p'] l'] [Hr Hq]].
  - intros [[acc p] l] (k & -> & Ha & Ht).
    destruct k as [| [| k]]; cbn [bytes be_sum] in Ht.
    + split; [done | left; lia].
    + split; [done | right; cbn in *; lia].
    + destruct (Z.ltb_spec 1 (Z.of_nat (S (S k)))); [| lia]. cbv zeta.
      pose proof (ld8_range m p). pose proof (ld8_range m (p + 1)).
      rewrite shiftl_8, u16_id by lia. change (ld8 m p * 256) with (ld8 m p * 2 ^ 8).
      rewrite lor_shift_add by lia. replace (p + 1 + 1) with (p + 2) in Ht by lia.
      pose proof (be_sum_nonneg _ (bytes_range m (p + 2) k)).
      split; [| lia]. exists k. split; [lia |]. rewrite u32_id by lia. split; lia.
  - exists n. done.
  - lia.
  - exists s', p', l'. done.
Qed.

(** Version 1, for the lengths its 16-bit argument allows. *)
Lemma chksum_v1_sum (m : memory) (a : Z) (n : nat) :
  Z.of_nat n <= 65535 ->
  lwip_standard_chksum_v1 m a (Z.of_nat n) = Some (inet_sum (bytes m a n)).
Proof.
  intros Hn. unfold lwip_standard_chksum_v1.
  pose proof (bytes_range m a n) as Hl. pose proof (be_sum_bound _ Hl) as Hb.
  rewrite bytes_length in Hb. pose proof (be_sum_nonneg _ Hl).
  assert ((Z.of_nat n + 1) / 2 <= 32768) by zlia.
  destruct (chksum1_loop_correct m a n) as (acc & p & len & -> & Ha & Ht); [lia |].
  cbn [mbind option_bind]. set (total := be_sum (bytes m a n)) in *.
  pose proof (ld8_range m p).
  assert ((if 0 <? len then u32 (acc + u16 (Z.shiftl (ld8 m p) 8)) else acc) = total) as ->.
  { rewrite shiftl_8, u16_id by lia.
    destruct Ht as [[-> ->] | [-> Ht]]; cbn; [done | rewrite u32_id; lia]. }
  fold (FOLD_U32T total).
  assert (0 <= total < 4294967296) as Htot by lia.
  destruct (FOLD_U32T_range total Htot) as [HF _]. pose proof (oc_rep_fold total Htot) as RF.
  set (f := FOLD_U32T total) in *. fold (FOLD_U32T f).
  assert (oc_rep (if negb (Z.land f 0xffff0000 =? 0) then FOLD_U32T f else f) total /\
          0 <= (if negb (Z.land f 0xffff0000 =? 0) then FOLD_U32T f else f) < 65536) as [R2 B2].
  { change 0xffff0000 with (Z.shiftl (Z.ones 16) 16). rewrite land_field by lia.
    change (2 ^ 16) with 65536.
    destruct (Z.eqb_spec ((f / 65536) mod 65536 * 65536) 0) as [E | E]; cbn [negb].
    - split; [done | zlia].
    - destruct (FOLD_U32T_range f ltac:(lia)) as [? H2]. split; [| lia].
      apply oc_rep_trans with f; [apply oc_rep_fold; lia | done]. }
  f_equal. rewrite u16_id by done. set (g := if negb _ then _ else _) in *.
  change (PP_HTONS g) with (SWAP_BYTES_IN_WORD g). pose proof (SWAP_range _ B2).
  apply oc_rep_unique; [| lia].
  apply (oc_rep_trans _ _ _ (oc_rep_swap _ B2)).
  apply (oc_rep_trans _ _ _ (oc_rep_scale _ _ R2)). by apply be_sum_word_sum.
Qed.

(** C9: The checksum routine the firmware compiles (version 3: optional odd
    byte, optional half word, then eight bytes at a time with end-around
    carries, then the tail) returns for every address, aligned or not, and
    every length, and its result is the one's complement sum of RFC 1071; the
    two portable variants return the same sum for the lengths their comments
    allow, 65535 bytes for version 1 and 0x20000 bytes for version 2. *)
Theorem chksum_correct (m : memory) (a : Z) (n : nat) :
  lwip_standard_chksum m a (Z.of_nat n) = Some (inet_sum (bytes m a n)) /\
  (Z.of_nat n <= 0x20000 ->
     lwip_standard_chksum_v2 m a (Z.of_nat n) = Some (inet_sum (bytes m a n))) /\
  (Z.of_nat n <= 65535 ->
     lwip_standard_chksum_v1 m a (Z.of_nat n) = Some (inet_sum (bytes m a n))).
Proof.
  split; [apply lwip_standard_chksum_sum |].
  split; [apply chksum_v2_sum | apply chksum_v1_sum].
Qed.

(** * Checksums over chains *)

Definition even_len (l : list Z) : bool := Z.even (Z.of_nat (length l)).

(** Data after an odd number of bytes is summed one position off. *)
Lemma word_sum_app d c :
  Forall (fun b => 0 <= b < 256) d -> Forall (fun b => 0 <= b < 256) c ->
  oc_rep (word_sum d + (if even_len d then 1 else 256) * word_sum c) (word_sum (d ++ c)).
Proof.
  intros Hd Hc. pose proof (word_sum_nonneg c Hc). revert d Hd. fix IH 1.
  intros [| b0 [| b1 d]] Hd.
  - change (even_len []) with true. cbn [app word_sum]. rewrite Z.add_0_l, Z.mul_1_l.
    by apply oc_rep_refl.
  - inversion Hd; subst. cbn [app]. change (even_len [b0]) with false. cbn [word_sum].
    by apply word_sum_cons.
  - inversion Hd as [| ? ? H0 Hd']; subst. inversion Hd' as [| ? ? H1 Hd2]; subst.
    cbn [app word_sum].
    replace (even_len (b0 :: b1 :: d)) with (even_len d)
      by (unfold even_len; cbn [length]; rewrite !Nat2Z.inj_succ, !Z.even_succ, Z.odd_succ; done).
    rewrite <- Z.add_assoc. apply oc_rep_add; [apply oc_rep_refl; lia | by apply IH].
Qed.

Lemma even_len_app d c : even_len (d ++ c) = Bool.eqb (even_len d) (even_len c).
Proof. unfold even_len. rewrite length_app, Nat2Z.inj_add. apply Z.even_add. Qed.

Lemma even_len_bytes m a n : even_len (bytes m a n) = (Z.of_nat n mod 2 =? 0).
Proof.
  unfold even_len. rewrite bytes_length, Zmod_even.
  by destruct (Z.even (Z.of_nat n)).
Qed.

(** The accumulator after the data [d]: its sum, swapped if [d] is odd. *)
Definition chain_acc (d : list Z) (acc swapped : Z) : Prop :=
  0 <= acc < 65536 /\ swapped = (if even_len d then 0 else 1) /\
  oc_rep acc ((if even_len d then 1 else 256) * word_sum d).

Lemma oc_fold_range s : 0 <= oc_fold s < 65536.
Proof. unfold oc_fold. destruct (s =? 0); zlia. Qed.

Lemma oc_fold_oc_rep s : 0 <= s -> oc_rep (oc_fold s) s.
Proof.
  intros Hs. unfold oc_fold. destruct (Z.eqb_spec s 0) as [-> |]; [by apply oc_rep_refl |].
  repeat split; zlia.
Qed.

(** Adding the sum of more data to the accumulator. *)
Lemma chain_acc_add d c acc swapped :
  Forall (fun x => 0 <= x < 256) d -> Forall (fun x => 0 <= x < 256) c ->
  chain_acc d acc swapped ->
  let acc' := FOLD_U32T (u32 (acc + inet_sum c)) in
  0 <= acc' < 65536 /\ oc_rep acc' ((if even_len d then 1 else 256) * word_sum (d ++ c)).
Proof.
  intros Hd Hc (Ha & Hsw & Hrep) acc'.
  pose proof (word_sum_nonneg c Hc) as Hcn. pose proof (oc_fold_range (word_sum c)) as Hcr.
  pose proof (word_sum_nonneg d Hd) as Hdn.
  unfold acc', inet_sum. rewrite u32_id by lia.
  destruct (FOLD_U32T_range (acc + oc_fold (word_sum c)) ltac:(lia)) as [? H2].
  split; [lia |].
  apply oc_rep_trans with (acc + oc_fold (word_sum c)); [apply oc_rep_fold; lia |].
  apply oc_rep_trans with ((if even_len d then 1 else 256) * word_sum d + word_sum c).
  { apply oc_rep_add; [done | by apply oc_fold_oc_rep]. }
  pose proof (word_sum_app d c Hd Hc) as Happ. destruct (even_len d).
  - rewrite !Z.mul_1_l in *. done.
  - apply oc_rep_scale in Happ. apply oc_rep_sym. apply (oc_rep_trans _ _ _ (oc_rep_sym _ _ Happ)).
    replace (256 * (word_sum d + 256 * word_sum c))
      with (256 * word_sum d + 65536 * word_sum c) by lia.
    apply oc_rep_add; [apply oc_rep_refl; lia | by apply oc_rep_65536].
Qed.

(** One pbuf of the chain. *)
Lemma chain_acc_step m d acc swapped b :
  Forall (fun x => 0 <= x < 256) d -> 0 <= len b -> chain_acc d acc swapped ->
  let c := bytes m (payload b) (Z.to_nat (len b)) in
  let acc := FOLD_U32T (u32 (acc + inet_sum c)) in
  if negb (len b mod 2 =? 0)
  then chain_acc (d ++ c) (SWAP_BYTES_IN_WORD acc) (u8 (1 - swapped))
  else chain_acc (d ++ c) acc swapped.
Proof.
  intros Hd Hl Hacc c acc'.
  pose proof (bytes_range m (payload b) (Z.to_nat (len b))) as Hc.
  destruct (chain_acc_add d c acc swapped Hd Hc Hacc) as [Ha' Hr'].
  fold acc' in Ha', Hr'. destruct Hacc as (_ & Hsw & _).
  assert (even_len c = (len b mod 2 =? 0)) as Hev
    by (unfold c; rewrite even_len_bytes, Z2Nat.id by done; done).
  unfold chain_acc. rewrite even_len_app, Hev. clear Hev.
  destruct (len b mod 2 =? 0); cbn [negb].
  - replace (Bool.eqb (even_len d) true) with (even_len d) by by destruct (even_len d).
    done.
  - split; [by apply SWAP_range |].
    pose proof (oc_rep_trans _ _ _ (oc_rep_swap _ Ha') (oc_rep_scale _ _ Hr')) as Hsr.
    assert (0 <= word_sum (d ++ c)) by (apply word_sum_nonneg; by apply Forall_app).
    destruct (even_len d); cbn [Bool.eqb]; subst swapped.
    + split; [done |]. by rewrite Z.mul_1_l in Hsr.
    + split; [done |]. apply (oc_rep_trans _ _ _ Hsr).
      rewrite Z.mul_assoc, Z.mul_1_l. by apply oc_rep_65536.
Qed.

Lemma chain_data_range m l : Forall (fun b => 0 <= b < 256) (chain_data m l).
Proof.
  induction l as [| [a b] l IH]; cbn; [constructor |].
  apply Forall_app. split; [apply bytes_range | done].
Qed.

Definition lens_nonneg (l : list (Z * pbuf)) : Prop := Forall (fun x => 0 <= len x.2) l.

Lemma lengths_ok_nonneg l : lengths_ok l -> lens_nonneg l.
Proof.
  induction l as [| [a b] l IH]; cbn; intros H; constructor.
  - by destruct H as (_ & ? & _).
  - apply IH. by destruct H as (_ & _ & _ & ?).
Qed.

Lemma chksum_bytes m a n :
  0 <= n -> lwip_standard_chksum m a n = Some (inet_sum (bytes m a (Z.to_nat n))).
Proof. intros H. rewrite <- lwip_standard_chksum_sum, Z2Nat.id by done. done. Qed.

(** The loop over a chain, from any point of it. *)
Lemma chksum_chain_loop m st fuel p l d acc swapped :
  chain st p l -> lens_nonneg l -> (length l < fuel)%nat ->
  Forall (fun b => 0 <= b < 256) d -> chain_acc d acc swapped ->
  exists acc' swapped',
    while fuel (chksum_chain_body m st)
      (acc, swapped, p) = Some (Some (acc', swapped')) /\
    chain_acc (d ++ chain_data m l) acc' swapped'.
Proof.
  intros H. revert fuel d acc swapped.
  induction H as [| p b l Hp Hb H IH]; intros fuel d acc swapped Hnn Hf Hd Hacc.
  - destruct fuel as [| fuel]; [cbn in Hf; lia |]. cbn. rewrite app_nil_r.
    by exists acc, swapped.
  - destruct fuel as [| fuel]; [cbn in Hf; lia |]. cbn [length] in Hf.
    inversion Hnn as [| ? ? Hl Hnn']; subst. cbn in Hl.
    rewrite while_S. unfold chksum_chain_body at 1. apply Z.eqb_neq in Hp. rewrite Hp, Hb.
    rewrite chksum_bytes by done.
    pose proof (chain_acc_step m d acc swapped b Hd Hl Hacc) as Hstep. cbv zeta in *.
    cbn [chain_data]. rewrite app_assoc.
    assert (Forall (fun x => 0 <= x < 256) (d ++ bytes m (payload b) (Z.to_nat (len b))))
      by (apply Forall_app; split; [done | apply bytes_range]).
    destruct (negb (len b mod 2 =? 0)); apply IH; (done || lia).
Qed.

(** The swap that undoes the last odd pbuf. *)
Definition unswap (acc swapped : Z) : Z :=
  if negb (swapped =? 0) then SWAP_BYTES_IN_WORD acc else acc.

Lemma unswap_rep acc (e : bool) s :
  0 <= acc < 65536 -> 0 <= s -> oc_rep acc ((if e then 1 else 256) * s) ->
  0 <= unswap acc (if e then 0 else 1) < 65536 /\
  oc_rep (unswap acc (if e then 0 else 1)) s.
Proof.
  intros Ha Hs Hrep. destruct e; unfold unswap; cbn [negb Z.eqb].
  - by rewrite Z.mul_1_l in Hrep.
  - split; [by apply SWAP_range |].
    apply (oc_rep_trans _ _ _ (oc_rep_swap acc Ha)).
    apply (oc_rep_trans _ _ _ (oc_rep_scale _ _ Hrep)).
    rewrite Z.mul_assoc. by apply oc_rep_65536.
Qed.

Lemma chain_acc_unswap d acc swapped :
  Forall (fun x => 0 <= x < 256) d -> chain_acc d acc swapped ->
  unswap acc swapped = inet_sum d.
Proof.
  intros Hd (Ha & -> & Hrep). pose proof (word_sum_nonneg d Hd).
  destruct (unswap_rep acc (even_len d) (word_sum d)) as [Hr Hu]; [done.. |].
  apply oc_rep_unique; [done | lia].
Qed.

(** After the chain loop and the last swap, the accumulator is the sum of the
    packet's data. *)
Lemma chksum_chain_sum m st p l :
  chain st p l -> lens_nonneg l ->
  exists acc swapped, chksum_chain m st p = Some (acc, swapped) /\
    unswap acc swapped = inet_sum (chain_data m l).
Proof.
  intros H Hl. pose proof (chain_length_size st p l H).
  destruct (chksum_chain_loop m st (S (size st)) p l [] 0 0) as (acc & sw & Hr & Hacc);
    [done | done | lia | constructor | |].
  { split; [lia |]. split; [done |]. by apply oc_rep_refl. }
  exists acc, sw. split; [unfold chksum_chain; by rewrite Hr |].
  apply (chain_acc_unswap (chain_data m l)); [apply chain_data_range | done].
Qed.

(** The last pbuf of a partial sum, of which only the bytes [c] count. *)
Lemma partial_last d c acc swapped n :
  Forall (fun x => 0 <= x < 256) d -> Forall (fun x => 0 <= x < 256) c ->
  chain_acc d acc swapped ->
  let acc' := FOLD_U32T (u32 (acc + inet_sum c)) in
  (if negb (n mod 2 =? 0)
   then unswap (SWAP_BYTES_IN_WORD acc') (u8 (1 - swapped))
   else unswap acc' swapped) = inet_sum (d ++ c).
Proof.
  intros Hd Hc Hacc acc'. destruct (chain_acc_add d c acc swapped Hd Hc Hacc) as [Ha Hr].
  fold acc' in Ha, Hr. destruct Hacc as (_ & -> & _).
  assert (Forall (fun x => 0 <= x < 256) (d ++ c)) as Hdc by by apply Forall_app.
  pose proof (word_sum_nonneg _ Hdc).
  destruct (negb (n mod 2 =? 0)).
  - pose proof (oc_rep_trans _ _ _ (oc_rep_swap _ Ha) (oc_rep_scale _ _ Hr)) as Hs.
    pose proof (SWAP_range _ Ha).
    replace (u8 (1 - (if even_len d then 0 else 1)))
      with (if negb (even_len d) then 0 else 1) by by destruct (even_len d).
    destruct (unswap_rep (SWAP_BYTES_IN_WORD acc') (negb (even_len d)) (word_sum (d ++ c)))
      as [? Hu]; [done | done | | apply oc_rep_unique; [done | lia]].
    destruct (even_len d); cbn [negb]; [by rewrite Z.mul_1_l in Hs |].
    rewrite Z.mul_1_l. apply (oc_rep_trans _ _ _ Hs).
    rewrite Z.mul_assoc. by apply oc_rep_65536.
  - destruct (unswap_rep acc' (even_len d) (word_sum (d ++ c))) as [? Hu]; [done.. |].
    apply oc_rep_unique; [done | lia].
Qed.

Lemma chksum_partial_loop m st fuel p l d acc swapped n :
  chain st p l -> lens_nonneg l -> (length l < fuel)%nat ->
  Forall (fun b => 0 <= b < 256) d -> chain_acc d acc swapped -> 0 <= n < 65536 ->
  exists acc' swapped',
    while fuel (chksum_partial_body m st) (acc, swapped, p, n)
      = Some (Some (acc', swapped')) /\
    unswap acc' swapped' = inet_sum (d ++ take (Z.to_nat n) (chain_data m l)).
Proof.
  intros H. revert fuel d acc swapped n.
  induction H as [| p b l Hp Hb H IH]; intros fuel d acc swapped n Hnn Hf Hd Hacc Hn;
    (destruct fuel as [| fuel]; [cbn in Hf; lia |]); cbn [length] in Hf; rewrite while_S;
    unfold chksum_partial_body at 1.
  { cbn. exists acc, swapped. split; [done |]. rewrite take_nil, app_nil_r.
    by apply chain_acc_unswap. }
  apply Z.eqb_neq in Hp. rewrite Hp. cbn [orb].
  destruct (Z.ltb_spec 0 n) as [Hn0 | Hn0]; cbn [negb].
  2: { assert (n = 0) as -> by lia. exists acc, swapped. split; [done |].
       change (Z.to_nat 0) with 0%nat. rewrite take_0, app_nil_r. by apply chain_acc_unswap. }
  inversion Hnn as [| ? ? Hl Hnn']; subst. cbn in Hl. rewrite Hb. cbv zeta.
  cbn [chain_data].
  destruct (Z.ltb_spec n (len b)) as [Hlt | Hge].
  - rewrite chksum_bytes by lia. rewrite Z.sub_diag. change (u16 0) with 0.
    rewrite take_app_le by (rewrite bytes_length; lia).
    rewrite take_bytes by lia.
    pose proof (partial_last d (bytes m (payload b) (Z.to_nat n)) acc swapped (len b)
      Hd (bytes_range _ _ _) Hacc) as Hlast. cbv zeta in Hlast.
    destruct fuel as [| fuel]; [lia |].
    destruct (negb (len b mod 2 =? 0)); rewrite while_S; unfold chksum_partial_body at 1;
      cbn [Z.ltb Z.compare negb]; rewrite orb_true_r; eauto.
  - rewrite chksum_bytes by done. rewrite u16_id by lia.
    pose proof (chain_acc_step m d acc swapped b Hd Hl Hacc) as Hstep. cbv zeta in *.
    rewrite take_app_ge by (rewrite bytes_length; lia). rewrite bytes_length, app_assoc.
    replace (Z.to_nat n - Z.to_nat (len b))%nat with (Z.to_nat (n - len b)) by lia.
    assert (Forall (fun x => 0 <= x < 256) (d ++ bytes m (payload b) (Z.to_nat (len b))))
      by (apply Forall_app; split; [done | apply bytes_range]).
    destruct (negb (len b mod 2 =? 0)); apply IH; (done || lia).
Qed.

Lemma chksum_chain_partial_sum m st p l n :
  chain st p l -> lens_nonneg l -> 0 <= n < 65536 ->
  exists acc swapped, chksum_chain_partial m st p n = Some (acc, swapped) /\
    unswap acc swapped = inet_sum (take (Z.to_nat n) (chain_data m l)).
Proof.
  intros H Hl Hn. pose proof (chain_length_size st p l H).
  destruct (chksum_partial_loop m st (S (size st)) p l [] 0 0 n) as (acc & sw & Hr & Hacc);
    [done | done | lia | constructor | | done |].
  { split; [lia |]. split; [done |]. by apply oc_rep_refl. }
  exists acc, sw. split; [unfold chksum_chain_partial; by rewrite Hr | done].
Qed.

(** * The pseudo header *)

(** The pseudo header of RFC 793 and RFC 768 as it is summed: the addresses as
    they are stored, a zero byte, the protocol and the length in network
    order. *)
Definition pseudo_header (src dest proto proto_len : Z) : list Z :=
  [src mod 256; src / 256 mod 256; src / 65536 mod 256; src / 16777216;
   dest mod 256; dest / 256 mod 256; dest / 65536 mod 256; dest / 16777216;
   0; proto; proto_len / 256; proto_len mod 256].

(** The arguments of the checksum functions fit their types. *)
Definition pseudo_args (src dest proto proto_len : Z) : Prop :=
  0 <= src < 4294967296 /\ 0 <= dest < 4294967296 /\ 0 <= proto < 256 /\
  0 <= proto_len < 65536.

Lemma word_sum_app_even d c : even_len d = true -> word_sum (d ++ c) = word_sum d + word_sum c.
Proof.
  revert d. fix IH 1. intros [| b0 [| b1 d]] H; [done | done |].
  cbn [app word_sum]. rewrite IH; [lia |].
  revert H. unfold even_len. cbn [length].
  rewrite !Nat2Z.inj_succ, !Z.even_succ, Z.odd_succ. done.
Qed.

Lemma add_pseudo_header_sum acc src dest proto proto_len :
  pseudo_args src dest proto proto_len -> 0 <= acc < 65536 ->
  oc_rep (add_pseudo_header acc src dest proto proto_len)
    (word_sum (pseudo_header src dest proto proto_len) + acc) /\
  0 <= add_pseudo_header acc src dest proto proto_len < 65536.
Proof.
  intros (Hs & Hd & Hp & Hl) Ha. unfold add_pseudo_header.
  rewrite (u16_id proto) by lia. rewrite !shiftr_16, !land_65535.
  rewrite !PP_HTONS_eq by lia.
  set (s0 := src mod 65536). set (s1 := (src / 65536) mod 65536).
  set (d0 := dest mod 65536). set (d1 := (dest / 65536) mod 65536).
  set (q := proto / 256 + 256 * (proto mod 256)).
  set (w := proto_len / 256 + 256 * (proto_len mod 256)).
  assert (0 <= s0 < 65536 /\ 0 <= s1 < 65536 /\ 0 <= d0 < 65536 /\ 0 <= d1 < 65536 /\
          0 <= q < 65536 /\ 0 <= w < 65536) as (? & ? & ? & ? & ? & ?)
    by (unfold s0, s1, d0, d1, q, w; repeat split; zlia).
  rewrite (u32_id (acc + _)), (u32_id (acc + s0 + _)), (u32_id (acc + s0 + s1 + _)),
    (u32_id (acc + s0 + s1 + d0 + _)), (u32_id (acc + s0 + s1 + d0 + d1 + _)),
    (u32_id (acc + s0 + s1 + d0 + d1 + q + _)) by lia.
  set (x := acc + s0 + s1 + d0 + d1 + q + w).
  replace (word_sum (pseudo_header src dest proto proto_len) + acc) with x
    by (unfold x, s0, s1, d0, d1, q, w; cbn [pseudo_header word_sum]; zlia).
  assert (0 <= x < 458752) as Hx by (unfold x; lia). clearbody x.
  pose proof (FOLD_U32T_range x ltac:(lia)) as [Hf1 _].
  destruct (FOLD_U32T_range (FOLD_U32T x) ltac:(lia)) as [? Hf2].
  split; [| specialize (Hf2 ltac:(lia)); lia].
  apply oc_rep_trans with (FOLD_U32T x); apply oc_rep_fold; lia.
Qed.

(** The pseudo header added to the sum of the data. *)
Lemma pseudo_data_sum d src dest proto proto_len :
  pseudo_args src dest proto proto_len -> Forall (fun x => 0 <= x < 256) d ->
  not16 (Z.land (add_pseudo_header (inet_sum d) src dest proto proto_len) 0xffff)
  = 65535 - inet_sum (pseudo_header src dest proto proto_len ++ d).
Proof.
  intros Hp Hd. pose proof (oc_fold_range (word_sum d)) as Hr.
  destruct (add_pseudo_header_sum (inet_sum d) src dest proto proto_len Hp Hr) as [Hrep Hlt].
  unfold not16. rewrite land_65535, Z.mod_small, u16_id by done. f_equal.
  apply oc_rep_unique; [| lia]. apply (oc_rep_trans _ _ _ Hrep).
  rewrite word_sum_app_even by done.
  destruct Hp as (? & ? & ? & ?).
  apply oc_rep_add; [apply oc_rep_refl; cbn [pseudo_header word_sum]; zlia |].
  apply oc_fold_oc_rep. by apply word_sum_nonneg.
Qed.

Lemma Forall_take_range (d : list Z) n :
  Forall (fun x => 0 <= x < 256) d -> Forall (fun x => 0 <= x < 256) (take n d).
Proof. apply Forall_take. Qed.

Lemma packet_chksum_spec m st p l src dest proto proto_len n :
  chain st p l -> lens_nonneg l -> pseudo_args src dest proto proto_len -> 0 <= n < 65536 ->
  inet_chksum_pbuf m st p = Some (65535 - inet_sum (chain_data m l)) /\
  inet_chksum_pseudo m st p src dest proto proto_len
    = Some (65535 - inet_sum (pseudo_header src dest proto proto_len ++ chain_data m l)) /\
  inet_chksum_pseudo_partial m st p src dest proto proto_len n
    = Some (65535 - inet_sum (pseudo_header src dest proto proto_len
                              ++ take (Z.to_nat n) (chain_data m l))).
Proof.
  intros Hc Hl Hp Hn. pose proof (chain_data_range m l) as Hd.
  pose proof (Forall_take_range _ (Z.to_nat n) Hd) as Ht.
  destruct (chksum_chain_sum m st p l Hc Hl) as (acc & sw & Hr & Hu).
  destruct (chksum_chain_partial_sum m st p l n Hc Hl Hn) as (acc2 & sw2 & Hr2 & Hu2).
  unfold inet_chksum_pbuf, inet_chksum_pseudo, inet_chksum_pseudo_partial.
  rewrite Hr, Hr2. cbn [mbind option_bind]. fold (unswap acc sw) (unswap acc2 sw2).
  rewrite Hu, Hu2, !pseudo_data_sum by done. split; [| done].
  pose proof (oc_fold_range (word_sum (chain_data m l))).
  unfold not16, inet_sum. rewrite land_65535, Z.mod_small, u16_id by done. done.
Qed.

(** C10: over a packet (any pbuf chain, whatever the lengths and alignments of
    its pieces) the packet checksums terminate and return the one's complement
    of the RFC 1071 sum of the packet's bytes: [inet_chksum_pbuf] of the data,
    [inet_chksum_pseudo] of the pseudo header followed by the data, and
    [inet_chksum_pseudo_partial] of the pseudo header followed by the first
    [n] bytes of the data. *)
Theorem packet_chksum_correct m st p l src dest proto proto_len n :
  chain st p l -> lens_nonneg l -> pseudo_args src dest proto proto_len -> 0 <= n < 65536 ->
  inet_chksum_pbuf m st p = Some (65535 - inet_sum (chain_data m l)) /\
  inet_chksum_pseudo m st p src dest proto proto_len
    = Some (65535 - inet_sum (pseudo_header src dest proto proto_len ++ chain_data m l)) /\
  inet_chksum_pseudo_partial m st p src dest proto proto_len n
    = Some (65535 - inet_sum (pseudo_header src dest proto proto_len
                              ++ take (Z.to_nat n) (chain_data m l))).
Proof. apply packet_chksum_spec. Qed.

(** A packet of an odd and an even piece, the second at an odd address. *)
Definition sample_chain : pstore :=
  {[ 16 := mkPbuf 32 101 7 3 PBUF_RAM 0 1; 32 := mkPbuf 0 205 4 4 PBUF_REF 0 1 ]}.

Lemma packet_chksum_correct_witness :
  inet_chksum_pbuf (fun a => a) sample_chain 16
    = Some (65535 - inet_sum [101; 102; 103; 205; 206; 207; 208]).
Proof.
  apply (packet_chksum_correct (fun a => a) sample_chain 16
    [(16, mkPbuf 32 101 7 3 PBUF_RAM 0 1); (32, mkPbuf 0 205 4 4 PBUF_REF 0 1)] 1 2 6 7 5).
  - repeat (constructor; [done | done |]). constructor.
  - repeat constructor; cbn; lia.
  - repeat split; lia.
  - lia.
Defined.

(** Splitting off the 16-bit field at an even offset. *)
Lemma word_sum_field m a n k :
  (Z.of_nat k mod 2 = 0) -> (k + 2 <= n)%nat ->
  word_sum (bytes m a n) =
    word_sum (bytes m a k) + ld16 m (a + Z.of_nat k)
    + word_sum (bytes m (a + Z.of_nat k + 2) (n - k - 2)).
Proof.
  intros Hk Hn. replace n with (k + (S (S (n - k - 2))))%nat at 1 by lia.
  rewrite bytes_app, word_sum_app_even, word_sum_bytes2; [lia |].
  rewrite even_len_bytes. by apply Z.eqb_eq.
Qed.

Lemma chksum_stored m a n k c :
  Z.of_nat k mod 2 = 0 -> (k + 2 <= n)%nat -> ld16 m (a + Z.of_nat k) = 0 ->
  inet_chksum m a (Z.of_nat n) = Some c ->
  inet_chksum (st16 m (a + Z.of_nat k) c) a (Z.of_nat n) = Some 0.
Proof.
  intros Hk Hn Hz. unfold inet_chksum. rewrite !lwip_standard_chksum_sum.
  cbn [mbind option_bind]. intros [= <-]. f_equal.
  pose proof (oc_fold_range (word_sum (bytes m a n))) as Hr. fold (inet_sum (bytes m a n)) in Hr.
  pose proof (word_sum_bytes_nonneg m a n) as Hnn.
  unfold not16. rewrite (u16_id _ Hr). set (c := 65535 - inet_sum (bytes m a n)).
  assert (word_sum (bytes (st16 m (a + Z.of_nat k) c) a n) = word_sum (bytes m a n) + c) as Hs.
  { rewrite !(word_sum_field _ a n k Hk Hn). rewrite Hz, ld16_st16 by lia.
    rewrite !(bytes_ext m (st16 m (a + Z.of_nat k) c)); [lia | |];
      intros x Hx; apply ld8_st16_ne; lia. }
  unfold inet_sum at 1. rewrite Hs. unfold c, inet_sum.
  set (S := word_sum (bytes m a n)) in *. clearbody S.
  unfold oc_fold. destruct (Z.eqb_spec S 0) as [-> | H0]; [reflexivity |].
  set (r := (S - 1) mod 65535). assert (S = 65535 * ((S - 1) / 65535) + r + 1) by (unfold r; zlia).
  assert (0 <= r < 65535) by (unfold r; zlia).
  rewrite (proj2 (Z.eqb_neq _ 0)) by lia.
  replace (S + (65535 - (r + 1)) - 1) with (65534 + ((S - 1) / 65535) * 65535) by lia.
  rewrite Z_mod_plus_full. reflexivity.
Qed.

(** a header whose checksum field was zero when [inet_chksum] computed it
    verifies once the result is stored in that field: summed again it gives 0,
    the test every receive function makes. *)
Theorem inet_chksum_verifies m a n k c :
  Z.of_nat k mod 2 = 0 -> (k + 2 <= n)%nat -> ld16 m (a + Z.of_nat k) = 0 ->
  inet_chksum m a (Z.of_nat n) = Some c ->
  inet_chksum (st16 m (a + Z.of_nat k) c) a (Z.of_nat n) = Some 0.
Proof. apply chksum_stored. Qed.

Lemma inet_chksum_verifies_witness :
  inet_chksum (st16 (fun a => if a =? 30 then 0 else if a =? 31 then 0 else a) (20 + Z.of_nat 10)
    0xf1fa) 20 (Z.of_nat 20) = Some 0.
Proof. apply inet_chksum_verifies; [reflexivity | lia | reflexivity | vm_compute; reflexivity]. Defined.

End InetChksum.
