(* ===== verification/Allocator.v ===== *)
(** The interface between the allocators (the heap of mem.c, the pools of
    memp.c) and the modules that allocate packets and control blocks: what an
    allocation and a release promise about the live regions and about the
    bytes of memory.  The components that provide it give instances; the
    clients are proved against the classes. *)

From stdpp Require Import base tactics numbers list gmap.
From Stdlib Require Import ZArith Lia.
From S2P Require Import Prelude.

Local Open Scope Z_scope.

(** Live regions: the address of each allocated object with the number of bytes
    it may use. *)
Abbreviation regions := (gmap Z Z).

Definition in_region (L : regions) (x : Z) : Prop :=
  exists p n, L !! p = Some n /\ p <= x < p + n.

(** Regions are aligned, not at NULL, and two of them never overlap. *)
Record regions_ok (L : regions) : Prop := {
  ro_region : forall p n, L !! p = Some n -> 0 < p /\ 0 <= n /\ p mod 4 = 0;
  ro_disjoint : forall p q n k, L !! p = Some n -> L !! q = Some k -> p <> q ->
                p + n <= q \/ q + k <= p
}.

(** The bytes of the live regions are untouched. *)
Definition preserves (m m' : memory) (L : regions) : Prop :=
  forall x, in_region L x -> ld8 m' x = ld8 m x.

Lemma preserves_refl m L : preserves m m L.
Proof. done. Qed.

Lemma preserves_trans m1 m2 m3 L : preserves m1 m2 L -> preserves m2 m3 L -> preserves m1 m3 L.
Proof. intros H1 H2 x Hx. rewrite H2, H1; done. Qed.

Lemma in_region_insert L p n x :
  L !! p = None -> in_region L x -> in_region (<[p := n]> L) x.
Proof.
  intros Hp (q & k & Hq & Hx). exists q, k. split; [| done].
  rewrite lookup_insert_ne; [done | congruence].
Qed.

Lemma in_region_delete L p x : in_region (delete p L) x -> in_region L x.
Proof.
  intros (q & k & Hq & Hx). exists q, k. split; [| done].
  by apply lookup_delete_Some in Hq as [_ ?].
Qed.

Class LiveRegions {A : Type} (live : A -> regions -> Prop) : Prop := {
  live_ok : forall a L, live a L -> regions_ok L
}.

(** [alloc] always returns; it gives NULL and changes no live byte, or a fresh
    region of at least [size] bytes. *)
Class Allocates {A : Type} (mem : A -> memory) (live : A -> regions -> Prop)
    (alloc : A -> option (A * Z)) (size : Z) : Prop := {
  alloc_spec : forall a L, live a L ->
    exists a' p, alloc a = Some (a', p) /\ preserves (mem a) (mem a') L /\
      ((p = 0 /\ live a' L) \/
       (p <> 0 /\ exists n, size <= n /\ L !! p = None /\ live a' (<[p := n]> L)))
}.

(** [release] of a live region that [owns] says is its own removes it and touches
    no byte of the others. *)
Class Releases {A : Type} (mem : A -> memory) (live : A -> regions -> Prop)
    (owns : Z -> Prop) (release : A -> Z -> A) : Prop := {
  release_spec : forall a L p n, live a L -> L !! p = Some n -> owns p ->
    live (release a p) (delete p L) /\ preserves (mem a) (mem (release a p)) (delete p L)
}.
