(* ===== verification/Mem.v ===== *)
(** The heap: src/core/mem.c and src/include/lwip/mem.h of lwIP 1.4.1, with the
    configuration of lwipopts.h (MEM_SIZE 8192, MEM_ALIGNMENT 4, [mem_size_t] is
    [u16_t], no concurrency).

    The heap lives in byte memory: every block starts with a [struct mem]
    ([next], [prev] and [used]) at a multiple of four bytes from [ram], followed
    by its data.  The operations read and write those bytes.  The abstract heap
    is the list of its blocks, each with its size (header included) and whether
    it is in use; [heap_inv] relates the two, and the theorems show that every
    operation refines an operation on the list: first fit with splitting,
    release with coalescing, trimming.  LWIP_ASSERT prints a message and goes
    on (LWIP_PLATFORM_ASSERT in arch/cc.h), so assertions are not modelled as
    steps; the invariant implies them. *)

From stdpp Require Import base tactics numbers list gmap.
From Stdlib Require Import ZArith Lia.
From S2P Require Import Prelude Mylib Allocator.

Local Open Scope Z_scope.

Module Mem.

(** [(((size) + MEM_ALIGNMENT - 1) & ~(MEM_ALIGNMENT-1))], stored in a
    [mem_size_t]. *)
Definition LWIP_MEM_ALIGN_SIZE (size : Z) : Z := u16 (Z.land (size + 4 - 1) (Z.lnot 3)).

Definition LWIP_MEM_ALIGN (addr : Z) : Z := u32 (Z.land (addr + 4 - 1) (Z.lnot 3)).

Definition MIN_SIZE_ALIGNED : Z := 12.
Definition SIZEOF_STRUCT_MEM : Z := 8.
Definition MEM_SIZE_ALIGNED : Z := 8192.

(** [struct stats_mem] of stats.h and its macros. *)
Record stats_mem := mkStats {
  st_avail : Z; st_used : Z; st_max : Z; st_err : Z; st_illegal : Z }.

Definition MEM_STATS_INC_USED (s : stats_mem) (y : Z) : stats_mem :=
  let us := u16 (st_used s + y) in
  mkStats (st_avail s) us (if st_max s <? us then us else st_max s) (st_err s) (st_illegal s).

Definition MEM_STATS_DEC_USED (s : stats_mem) (y : Z) : stats_mem :=
  mkStats (st_avail s) (u16 (st_used s - y)) (st_max s) (st_err s) (st_illegal s).

Definition MEM_STATS_INC_err (s : stats_mem) : stats_mem :=
  mkStats (st_avail s) (st_used s) (st_max s) (u16 (st_err s + 1)) (st_illegal s).

Definition MEM_STATS_INC_illegal (s : stats_mem) : stats_mem :=
  mkStats (st_avail s) (st_used s) (st_max s) (st_err s) (u16 (st_illegal s + 1)).

(** The static variables of mem.c, the memory they point into and the
    statistics. *)
Record heap := mkHeap {
  hmem : memory; ram : Z; ram_end : Z; lfree : Z; stats : stats_mem }.

Definition set_hmem (h : heap) (m : memory) : heap :=
  mkHeap m (ram h) (ram_end h) (lfree h) (stats h).
Definition set_lfree (h : heap) (a : Z) : heap :=
  mkHeap (hmem h) (ram h) (ram_end h) a (stats h).
Definition set_stats (h : heap) (s : stats_mem) : heap :=
  mkHeap (hmem h) (ram h) (ram_end h) (lfree h) s.

(** [struct mem] at an address: [next] at offset 0, [prev] at 2, [used] at 4. *)
Definition m_next (h : heap) (a : Z) : Z := ld16 (hmem h) a.
Definition m_prev (h : heap) (a : Z) : Z := ld16 (hmem h) (a + 2).
Definition m_used (h : heap) (a : Z) : Z := ld8 (hmem h) (a + 4).
Definition set_m_next (h : heap) (a v : Z) : heap := set_hmem h (st16 (hmem h) a v).
Definition set_m_prev (h : heap) (a v : Z) : heap := set_hmem h (st16 (hmem h) (a + 2) v).
Definition set_m_used (h : heap) (a v : Z) : heap := set_hmem h (st8 (hmem h) (a + 4) v).

(** Plug the hole forward. *)
Definition plug_forward (h : heap) (mem : Z) : heap :=
  let nmem := ram h + m_next h mem in
  if negb (mem =? nmem) && (m_used h nmem =? 0) && negb (nmem =? ram_end h) then
    let h := if lfree h =? nmem then set_lfree h mem else h in
    let h := set_m_next h mem (m_next h nmem) in
    set_m_prev h (ram h + m_next h nmem) (u16 (mem - ram h))
  else h.

(** Plug the hole backward. *)
Definition plug_backward (h : heap) (mem : Z) : heap :=
  let pmem := ram h + m_prev h mem in
  if negb (pmem =? mem) && (m_used h pmem =? 0) then
    let h := if lfree h =? mem then set_lfree h pmem else h in
    let h := set_m_next h pmem (m_next h mem) in
    set_m_prev h (ram h + m_next h mem) (u16 (pmem - ram h))
  else h.

Definition plug_holes (h : heap) (mem : Z) : heap := plug_backward (plug_forward h mem) mem.

Definition mem_init (m : memory) (s : stats_mem) (ram_heap : Z) : heap :=
  let ram := LWIP_MEM_ALIGN ram_heap in
  let mem := ram in
  let ram_end := ram + MEM_SIZE_ALIGNED in
  let h := mkHeap m ram ram_end 0 s in
  let h := set_m_next h mem MEM_SIZE_ALIGNED in
  let h := set_m_prev h mem 0 in
  let h := set_m_used h mem 0 in
  let h := set_m_used h ram_end 1 in
  let h := set_m_next h ram_end MEM_SIZE_ALIGNED in
  let h := set_m_prev h ram_end MEM_SIZE_ALIGNED in
  let h := set_lfree h ram in
  set_stats h (mkStats MEM_SIZE_ALIGNED (st_used s) (st_max s) (st_err s) (st_illegal s)).

Definition mem_free (h : heap) (rmem : Z) : heap :=
  if rmem =? 0 then h
  else if (rmem <? ram h) || (ram_end h <=? rmem) then
    set_stats h (MEM_STATS_INC_illegal (stats h))
  else
    let mem := rmem - SIZEOF_STRUCT_MEM in
    let h := set_m_used h mem 0 in
    let h := if mem <? lfree h then set_lfree h mem else h in
    let h := set_stats h (MEM_STATS_DEC_USED (stats h) (m_next h mem - u16 (mem - ram h))) in
    plug_holes h mem.

(** [mem_trim] when the next block is free: it is moved. *)
Definition trim_move_next (h : heap) (mem ptr size newsize : Z) : heap :=
  let mem2 := ram h + m_next h mem in
  let next := m_next h mem2 in
  let ptr2 := u16 (ptr + SIZEOF_STRUCT_MEM + newsize) in
  let h := if lfree h =? mem2 then set_lfree h (ram h + ptr2) else h in
  let mem2 := ram h + ptr2 in
  let h := set_m_used h mem2 0 in
  let h := set_m_next h mem2 next in
  let h := set_m_prev h mem2 ptr in
  let h := set_m_next h mem ptr2 in
  let h := if negb (m_next h mem2 =? MEM_SIZE_ALIGNED)
           then set_m_prev h (ram h + m_next h mem2) ptr2 else h in
  set_stats h (MEM_STATS_DEC_USED (stats h) (size - newsize)).

(** [mem_trim] when the next block is used and a new one fits between them. *)
Definition trim_split (h : heap) (mem ptr size newsize : Z) : heap :=
  let ptr2 := u16 (ptr + SIZEOF_STRUCT_MEM + newsize) in
  let mem2 := ram h + ptr2 in
  let h := if mem2 <? lfree h then set_lfree h mem2 else h in
  let h := set_m_used h mem2 0 in
  let h := set_m_next h mem2 (m_next h mem) in
  let h := set_m_prev h mem2 ptr in
  let h := set_m_next h mem ptr2 in
  let h := if negb (m_next h mem2 =? MEM_SIZE_ALIGNED)
           then set_m_prev h (ram h + m_next h mem2) ptr2 else h in
  set_stats h (MEM_STATS_DEC_USED (stats h) (size - newsize)).

(** Returns the heap and the pointer, 0 for NULL. *)
Definition mem_trim (h : heap) (rmem newsize : Z) : heap * Z :=
  let newsize := LWIP_MEM_ALIGN_SIZE newsize in
  let newsize := if newsize <? MIN_SIZE_ALIGNED then MIN_SIZE_ALIGNED else newsize in
  if MEM_SIZE_ALIGNED <? newsize then (h, 0)
  else if (rmem <? ram h) || (ram_end h <=? rmem) then
    (set_stats h (MEM_STATS_INC_illegal (stats h)), rmem)
  else
    let mem := rmem - SIZEOF_STRUCT_MEM in
    let ptr := u16 (mem - ram h) in
    let size := u16 (m_next h mem - ptr - SIZEOF_STRUCT_MEM) in
    if size <? newsize then (h, 0)
    else if newsize =? size then (h, rmem)
    else
      let mem2 := ram h + m_next h mem in
      if m_used h mem2 =? 0 then (trim_move_next h mem ptr size newsize, rmem)
      else if newsize + SIZEOF_STRUCT_MEM + MIN_SIZE_ALIGNED <=? size then
        (trim_split h mem ptr size newsize, rmem)
      else (h, rmem).

(** The loops visit each block at most once; a heap of 8192 bytes has fewer
    blocks than this. *)
Definition heap_fuel : nat := 512.

(** One step of the scan of [mem_malloc] for a free block. *)
Definition scan_body (h : heap) (size ptr : Z) : Z + option Z :=
  if ptr <? MEM_SIZE_ALIGNED - size then
    let mem := ram h + ptr in
    if (m_used h mem =? 0) && (size <=? u32 (m_next h mem - (ptr + SIZEOF_STRUCT_MEM)))
    then inr (Some ptr)
    else inl (m_next h (ram h + ptr))
  else inr None.

(** The scan from the lowest free block: the index of the first block that is
    free and large enough, if there is one. *)
Definition malloc_scan (h : heap) (size : Z) : option (option Z) :=
  while heap_fuel (scan_body h size) (u16 (lfree h - ram h)).

(** Taking the block at [ptr], splitting it if a remainder fits. *)
Definition malloc_take (h : heap) (ptr size : Z) : heap :=
  let mem := ram h + ptr in
  if size + SIZEOF_STRUCT_MEM + MIN_SIZE_ALIGNED
     <=? u32 (m_next h mem - (ptr + SIZEOF_STRUCT_MEM)) then
    let ptr2 := u16 (ptr + SIZEOF_STRUCT_MEM + size) in
    let mem2 := ram h + ptr2 in
    let h := set_m_used h mem2 0 in
    let h := set_m_next h mem2 (m_next h mem) in
    let h := set_m_prev h mem2 ptr in
    let h := set_m_next h mem ptr2 in
    let h := set_m_used h mem 1 in
    let h := if negb (m_next h mem2 =? MEM_SIZE_ALIGNED)
             then set_m_prev h (ram h + m_next h mem2) ptr2 else h in
    set_stats h (MEM_STATS_INC_USED (stats h) (size + SIZEOF_STRUCT_MEM))
  else
    let h := set_m_used h mem 1 in
    set_stats h (MEM_STATS_INC_USED (stats h) (m_next h mem - u16 (mem - ram h))).

(** One step of the search for the next free block. *)
Definition lfree_body (h : heap) (cur : Z) : Z + Z :=
  if negb (m_used h cur =? 0) && negb (cur =? ram_end h)
  then inl (ram h + m_next h cur) else inr cur.

(** When the lowest free block was taken, the search starts there. *)
Definition malloc_adjust_lfree (h : heap) (mem : Z) : option heap :=
  if mem =? lfree h then
    cur ← while heap_fuel (lfree_body h) (lfree h);
    Some (set_lfree h cur)
  else Some h.

(** [None] if a loop does not end. *)
Definition mem_malloc (h : heap) (size : Z) : option (heap * Z) :=
  if size =? 0 then Some (h, 0)
  else
    let size := LWIP_MEM_ALIGN_SIZE size in
    let size := if size <? MIN_SIZE_ALIGNED then MIN_SIZE_ALIGNED else size in
    if MEM_SIZE_ALIGNED <? size then Some (h, 0)
    else
      r ← malloc_scan h size;
      match r with
      | Some ptr =>
          let h := malloc_take h ptr size in
          let mem := ram h + ptr in
          h ← malloc_adjust_lfree h mem;
          Some (h, mem + SIZEOF_STRUCT_MEM)
      | None => Some (set_stats h (MEM_STATS_INC_err (stats h)), 0)
      end.

(** The product is truncated to a [mem_size_t] for [mem_malloc] but not for
    [memset]. *)
Definition mem_calloc (h : heap) (count size : Z) : option (heap * Z) :=
  '(h, p) ← mem_malloc h (u16 (count * size));
  if negb (p =? 0) then
    '(m, _) ← Mylib.memset (hmem h) p 0 (u32 (count * size));
    Some (set_hmem h m, p)
  else Some (h, p).

(** * The abstract heap *)

(** A block: its size with the header, and whether it is used. *)
Abbreviation block := (Z * bool)%type.

Fixpoint sum (bs : list block) : Z :=
  match bs with [] => 0 | b :: bs => b.1 + sum bs end.

Fixpoint used_sum (bs : list block) : Z :=
  match bs with [] => 0 | b :: bs => (if b.2 then b.1 else 0) + used_sum bs end.

(** The index of the first free block of a list that starts at [o]. *)
Fixpoint first_free (o : Z) (bs : list block) : Z :=
  match bs with
  | [] => o
  | (sz, u) :: bs => if u then first_free (o + sz) bs else o
  end.

(** A block taken for [size] bytes: split when the remainder holds a block. *)
Definition split_block (sz size : Z) : list block :=
  if size + 20 <=? sz - 8 then [(8 + size, true); (sz - 8 - size, false)] else [(sz, true)].

(** First fit: the index of the first free block with [size] bytes of data, and
    the blocks after it was taken. *)
Fixpoint first_fit (o size : Z) (bs : list block) : option (Z * list block) :=
  match bs with
  | [] => None
  | (sz, u) :: bs =>
      if negb u && (size <=? sz - 8) then Some (o, split_block sz size ++ bs)
      else match first_fit (o + sz) size bs with
           | Some (a, bs') => Some (a, (sz, u) :: bs')
           | None => None
           end
  end.

(** A freed block joined with a free successor, then with a free predecessor. *)
Definition join_next (sz : Z) (post : list block) : list block :=
  match post with
  | (s, false) :: post => (sz + s, false) :: post
  | _ => (sz, false) :: post
  end.

Definition join_prev (pre : list block) (rest : list block) : list block :=
  match reverse pre, rest with
  | (s, false) :: pre, (sz, _) :: post => reverse pre ++ (s + sz, false) :: post
  | _, _ => pre ++ rest
  end.

(** A block trimmed to [n] bytes of data. *)
Definition trim_block (sz n : Z) (post : list block) : list block :=
  match post with
  | (s, false) :: post' => (8 + n, true) :: (s + (sz - 8 - n), false) :: post'
  | _ => if n + 20 <=? sz - 8 then (8 + n, true) :: (sz - 8 - n, false) :: post
         else (sz, true) :: post
  end.

(** Whether a run starts, or ends, with a free block. *)
Definition starts_free (bs : list block) : bool :=
  match bs with (_, u) :: _ => negb u | [] => false end.

Fixpoint ends_free (bs : list block) : bool :=
  match bs with
  | [] => false
  | (_, u) :: bs => match bs with [] => negb u | _ => ends_free bs end
  end.

Fixpoint no_adjacent_free (bs : list block) : Prop :=
  match bs with
  | [] => True
  | (_, u) :: t => negb u && starts_free t = false /\ no_adjacent_free t
  end.

(** The data bytes of the used blocks. *)
Fixpoint in_used_data (base : Z) (bs : list block) (x : Z) : Prop :=
  match bs with
  | [] => False
  | (sz, u) :: bs => (u = true /\ base + 8 <= x < base + sz) \/ in_used_data (base + sz) bs x
  end.

(** * The representation invariant *)

Definition hdr (m : memory) (a nx pv : Z) (u : bool) : Prop :=
  ld16 m a = nx /\ ld16 m (a + 2) = pv /\ ld8 m (a + 4) = Z.b2z u.

Definition blk_ok (sz : Z) : Prop := 20 <= sz /\ sz mod 4 = 0.

(** The blocks [bs] from index [o] on, the one before them being at [p]. *)
Fixpoint seg (m : memory) (r p o : Z) (bs : list block) : Prop :=
  match bs with
  | [] => True
  | (sz, u) :: bs => blk_ok sz /\ hdr m (r + o) (o + sz) p u /\ seg m r o (o + sz) bs
  end.

(** The blocks from index [o] to the end of the heap, with its last header. *)
Fixpoint rest (m : memory) (r p o : Z) (bs : list block) : Prop :=
  match bs with
  | [] => o = 8192 /\ ld16 m (r + 8192) = 8192 /\ ld8 m (r + 8192 + 4) = 1
  | (sz, u) :: bs => blk_ok sz /\ hdr m (r + o) (o + sz) p u /\ rest m r o (o + sz) bs
  end.

Fixpoint last_off (p o : Z) (bs : list block) : Z :=
  match bs with [] => p | (sz, _) :: bs => last_off o (o + sz) bs end.

Definition stats_ok (s : stats_mem) (bs : list block) : Prop :=
  st_avail s = 8192 /\ st_used s = used_sum bs /\ used_sum bs <= st_max s <= 8192.

Record heap_inv (h : heap) (bs : list block) : Prop := {
  hi_ram : 0 < ram h /\ ram h mod 4 = 0;
  hi_end : ram_end h = ram h + 8192;
  hi_rest : rest (hmem h) (ram h) 0 0 bs;
  hi_adj : no_adjacent_free bs;
  hi_lfree : lfree h = ram h + first_free 0 bs;
  hi_stats : stats_ok (stats h) bs
}.

(** * Lemmas on blocks *)

Lemma sum_app a b : sum (a ++ b) = sum a + sum b.
Proof. induction a as [| x a IH]; cbn [sum app]; lia. Qed.

Lemma used_sum_app a b : used_sum (a ++ b) = used_sum a + used_sum b.
Proof. induction a as [| x a IH]; cbn [used_sum app]; lia. Qed.

Lemma rest_app m r p o a b :
  rest m r p o (a ++ b) <-> seg m r p o a /\ rest m r (last_off p o a) (o + sum a) b.
Proof.
  revert p o. induction a as [| [sz u] a IH]; intros p o; cbn.
  - rewrite Z.add_0_r. tauto.
  - rewrite IH, Z.add_assoc. tauto.
Qed.

Lemma naf_app a b :
  no_adjacent_free (a ++ b) <->
  no_adjacent_free a /\ no_adjacent_free b /\ ends_free a && starts_free b = false.
Proof.
  induction a as [| [s u] a IH]; [cbn; tauto |].
  cbn [app no_adjacent_free]. rewrite IH. destruct a as [| [s' u'] a]; cbn; [| tauto].
  rewrite andb_false_r. tauto.
Qed.

Lemma rest_app0 m r a b :
  rest m r 0 0 (a ++ b) <-> seg m r 0 0 a /\ rest m r (last_off 0 0 a) (sum a) b.
Proof. rewrite rest_app, Z.add_0_l. done. Qed.

Lemma ends_free_snoc a s u : ends_free (a ++ [(s, u)]) = negb u.
Proof.
  induction a as [| [s' u'] a IH]; [done |]. cbn. rewrite IH. by destruct a.
Qed.

Lemma seg_nonneg m r p o bs : seg m r p o bs -> 0 <= sum bs.
Proof.
  revert p o. induction bs as [| [sz u] bs IH]; intros p o; cbn; [lia |].
  intros ([Hsz Hal] & _ & H). apply IH in H. lia.
Qed.

Lemma seg_aligned m r p o bs : seg m r p o bs -> sum bs mod 4 = 0.
Proof.
  revert p o. induction bs as [| [sz u] bs IH]; intros p o; cbn; [done |].
  intros ([Hsz Hal] & _ & H). apply IH in H. zlia.
Qed.

Lemma last_off_bound m r p o bs :
  seg m r p o bs -> 0 <= p <= o -> 0 <= last_off p o bs <= o + sum bs.
Proof.
  revert p o. induction bs as [| [sz u] bs IH]; intros p o; cbn; [lia |].
  intros ([Hsz Hal] & _ & H) Hp. apply IH in H; lia.
Qed.

Lemma rest_sum m r p o bs : rest m r p o bs -> o + sum bs = 8192 /\ 0 <= sum bs.
Proof.
  revert p o. induction bs as [| [sz u] bs IH]; intros p o; cbn; [lia |].
  intros ([Hsz Hal] & _ & H). apply IH in H. lia.
Qed.

Lemma rest_length m r p o bs : rest m r p o bs -> 20 * Z.of_nat (length bs) <= sum bs.
Proof.
  revert p o. induction bs as [| [sz u] bs IH]; intros p o; cbn [length sum rest]; [lia |].
  intros ([Hsz Hal] & _ & H). apply IH in H. cbn. lia.
Qed.

Lemma rest_used_sum m r p o bs : rest m r p o bs -> 0 <= used_sum bs <= sum bs.
Proof.
  revert p o. induction bs as [| [sz u] bs IH]; intros p o; cbn; [lia |].
  intros ([Hsz Hal] & _ & H). apply IH in H. destruct u; lia.
Qed.

Lemma hdr_ext m m' a nx pv u :
  (forall x, a <= x < a + 8 -> ld8 m' x = ld8 m x) -> hdr m a nx pv u -> hdr m' a nx pv u.
Proof.
  intros He (Hn & Hp & Hu). unfold hdr.
  rewrite !(ld16_ext m m') by (intros; apply He; lia). rewrite He by lia. done.
Qed.

(** Stores outside a run of blocks do not affect it. *)
Lemma seg_ext m m' r p o bs :
  (forall x, r + o <= x < r + o + sum bs -> ld8 m' x = ld8 m x) ->
  seg m r p o bs -> seg m' r p o bs.
Proof.
  revert p o. induction bs as [| [sz u] bs IH]; intros p o He; cbn; [done |].
  intros (Hb & Hh & H). pose proof (seg_nonneg _ _ _ _ _ H). cbn in He. destruct Hb.
  split; [done |]. split.
  - eapply hdr_ext; [| done]. intros x Hx. apply He. lia.
  - apply IH; [| done]. intros x Hx. apply He. lia.
Qed.

Lemma rest_ext m m' r p o bs :
  (forall x, r + o <= x < r + 8200 -> ld8 m' x = ld8 m x) ->
  rest m r p o bs -> rest m' r p o bs.
Proof.
  revert p o. induction bs as [| [sz u] bs IH]; intros p o He; cbn.
  - intros (-> & Hn & Hu). rewrite (ld16_ext m m') by (intros; apply He; lia).
    by rewrite He by lia.
  - intros (Hb & Hh & H). destruct (rest_sum _ _ _ _ _ H), Hb. split; [done |]. split.
    + eapply hdr_ext; [| done]. intros x Hx. apply He. lia.
    + apply IH; [| done]. intros x Hx. apply He. lia.
Qed.

(** Setting the back link of the first block of a run. *)
Lemma rest_relink m r p p' o bs :
  0 <= p' < 65536 -> rest m r p o bs -> rest (st16 m (r + o + 2) p') r p' o bs.
Proof.
  intros Hp. destruct bs as [| [sz u] bs]; cbn.
  - intros (-> & Hn & Hu). mem_simp. done.
  - intros (Hb & (Hn & _ & Hu) & H). destruct Hb. split; [done |]. split.
    + unfold hdr. mem_simp. done.
    + eapply rest_ext; [| done]. intros x Hx. by mem_simp.
Qed.

(** The back link is not set when the run is the end of the heap. *)
Lemma rest_relink_cond m r p p' o bs :
  0 <= p' < 65536 -> rest m r p o bs ->
  rest (if negb (o =? 8192) then st16 m (r + o + 2) p' else m) r p' o bs.
Proof.
  intros Hp H. destruct (Z.eqb_spec o 8192) as [-> | Hne]; cbn; [| by eapply rest_relink].
  destruct bs as [| [sz u] bs]; [done |].
  destruct (rest_sum _ _ _ _ _ H) as [Hs _]. cbn in H, Hs.
  destruct H as ([Hsz Hal] & _ & H). destruct (rest_sum _ _ _ _ _ H). lia.
Qed.

Lemma first_free_app_used o a b :
  Forall (fun x => x.2 = true) a -> first_free o (a ++ b) = first_free (o + sum a) b.
Proof.
  intros H. revert o. induction H as [| [sz u] a Hu H IH]; intros o; cbn.
  - by rewrite Z.add_0_r.
  - cbn in Hu. subst u. rewrite IH. f_equal. lia.
Qed.

Lemma first_free_app_free o a b :
  ~ Forall (fun x => x.2 = true) a -> first_free o (a ++ b) = first_free o a.
Proof.
  revert o. induction a as [| [sz u] a IH]; intros o H; cbn; [by destruct H |].
  destruct u; [| done]. apply IH. intros Ha. apply H. by constructor.
Qed.

Lemma first_free_bounds m r p o bs :
  seg m r p o bs -> o <= first_free o bs <= o + sum bs.
Proof.
  revert p o. induction bs as [| [sz u] bs IH]; intros p o; cbn; [lia |].
  intros ([Hsz Hal] & _ & H). pose proof (seg_nonneg _ _ _ _ _ H).
  apply IH in H. destruct u; lia.
Qed.

(** A run with a free block has its first free block inside. *)
Lemma first_free_lt m r p o bs :
  seg m r p o bs -> ~ Forall (fun x => x.2 = true) bs -> first_free o bs < o + sum bs.
Proof.
  revert p o. induction bs as [| [sz u] bs IH]; intros p o; cbn; intros Hs Hn.
  - by destruct Hn.
  - destruct Hs as ([Hsz Hal] & _ & Hs). pose proof (seg_nonneg _ _ _ _ _ Hs).
    destruct u; [| lia].
    assert (first_free (o + sz) bs < o + sz + sum bs); [| lia].
    eapply IH; [done |]. intros Ha. apply Hn. by constructor.
Qed.

Lemma in_used_bounds m r p o bs x :
  rest m r p o bs -> in_used_data (r + o) bs x -> r + o + 8 <= x < r + 8192.
Proof.
  revert p o. induction bs as [| [sz u] bs IH]; intros p o; cbn; [done |].
  intros ([Hsz Hal] & _ & H) Hin. destruct (rest_sum _ _ _ _ _ H).
  destruct Hin as [[_ Hin] | Hin]; [lia |].
  rewrite <- Z.add_assoc in Hin. apply (IH _ _ H) in Hin. lia.
Qed.

Lemma in_used_seg_bounds m r p o bs x :
  seg m r p o bs -> in_used_data (r + o) bs x -> r + o + 8 <= x < r + o + sum bs.
Proof.
  revert p o. induction bs as [| [sz u] bs IH]; intros p o; cbn; [done |].
  intros ([Hsz Hal] & _ & H) Hin. pose proof (seg_nonneg _ _ _ _ _ H).
  destruct Hin as [[_ Hin] | Hin]; [lia |].
  rewrite <- Z.add_assoc in Hin. apply (IH _ _ H) in Hin. lia.
Qed.

Lemma in_used_app base a b x :
  in_used_data base (a ++ b) x <-> in_used_data base a x \/ in_used_data (base + sum a) b x.
Proof.
  revert base. induction a as [| [sz u] a IH]; intros base; cbn.
  - rewrite Z.add_0_r. tauto.
  - rewrite IH. rewrite Z.add_assoc. tauto.
Qed.

(** * mem_malloc *)

Lemma hmem_if (b : bool) h m :
  (if b then set_hmem h m else h) = set_hmem h (if b then m else hmem h).
Proof. by destruct b, h. Qed.

Lemma first_fit_split o size bs a bs' :
  first_fit o size bs = Some (a, bs') ->
  exists pre sz post, bs = pre ++ (sz, false) :: post /\ a = o + sum pre /\ size <= sz - 8 /\
    bs' = pre ++ split_block sz size ++ post.
Proof.
  revert o a bs'. induction bs as [| [sz u] bs IH]; intros o a bs' H; cbn in H; [done |].
  destruct (negb u && (size <=? sz - 8)) eqn:Hc.
  - bool_to_prop. subst u. injection H as <- <-. exists [], sz, bs. cbn. split; [done |].
    split; [lia | done].
  - destruct (first_fit (o + sz) size bs) as [[a' bs''] |] eqn:He; [| done].
    injection H as <- <-. apply IH in He as (pre & sz' & post & -> & -> & Hs & ->).
    exists ((sz, u) :: pre), sz', post. cbn. split; [done |]. split; [lia | done].
Qed.

(** No block fits exactly if every free one is too small. *)
Lemma first_fit_None o size bs :
  first_fit o size bs = None <-> Forall (fun b => b.2 = false -> b.1 - 8 < size) bs.
Proof.
  revert o. induction bs as [| [sz u] bs IH]; intros o; cbn; [done |].
  destruct (negb u && (size <=? sz - 8)) eqn:Hc.
  - bool_to_prop. subst u. split; [done |]. intros H. inversion H as [| ? ? Hx]; subst.
    specialize (Hx eq_refl). cbn in Hx. lia.
  - rewrite Forall_cons, <- (IH (o + sz)). destruct (first_fit (o + sz) size bs) as [[? ?] |].
    + split; [done |]. by intros [_ ?].
    + split; [| done]. intros _. split; [| done]. cbn. intros ->. cbn in Hc.
      apply Z.leb_gt in Hc. lia.
Qed.

Lemma first_fit_used o size a b :
  Forall (fun x => x.2 = true) a ->
  fst <$> first_fit o size (a ++ b) = fst <$> first_fit (o + sum a) size b.
Proof.
  intros H. revert o. induction H as [| [sz u] a Hu H IH]; intros o; cbn.
  - by rewrite Z.add_0_r.
  - cbn in Hu. subst u. cbn. rewrite Z.add_assoc, <- IH.
    by destruct (first_fit (o + sz) size (a ++ b)) as [[? ?] |].
Qed.

(** The used blocks before the lowest free one. *)
Lemma first_free_split o bs :
  exists a b, bs = a ++ b /\ Forall (fun x => x.2 = true) a /\ first_free o bs = o + sum a.
Proof.
  revert o. induction bs as [| [sz [|]] bs IH]; intros o.
  - exists [], []. cbn. split; [done |]. split; [constructor | lia].
  - destruct (IH (o + sz)) as (a & b & -> & Ha & Hf). exists ((sz, true) :: a), b.
    split; [done |]. split; [by constructor |]. cbn. rewrite Hf. lia.
  - exists [], ((sz, false) :: bs). cbn. split; [done |]. split; [constructor | lia].
Qed.

(** When the scan stops early, no later block can fit. *)
Lemma first_fit_late m r p o size bs :
  rest m r p o bs -> 8192 - size <= o -> first_fit o size bs = None.
Proof.
  intros H Ho. apply (first_fit_None o). revert p o H Ho.
  induction bs as [| [sz u] bs IH]; intros p o H Ho; constructor.
  - cbn in *. intros _. destruct H as ([? ?] & _ & H), (rest_sum _ _ _ _ _ H). lia.
  - cbn in H. destruct H as ([? ?] & _ & H). eapply IH; [done | lia].
Qed.

Lemma scan_loop h p o size bs fuel :
  rest (hmem h) (ram h) p o bs -> 0 <= o -> 12 <= size -> (length bs < fuel)%nat ->
  while fuel (scan_body h size) o = Some (fst <$> first_fit o size bs).
Proof.
  revert p o fuel. induction bs as [| [sz u] bs IH]; intros p o fuel H Ho Hs Hf;
    (destruct fuel as [| fuel]; [cbn in Hf; lia |]); rewrite while_S;
    unfold scan_body at 1, MEM_SIZE_ALIGNED;
    destruct (Z.ltb_spec o (8192 - size)) as [Hlt | Hge];
    try (by rewrite (first_fit_late _ _ _ _ _ _ H) by lia).
  - cbn in H. lia.
  - cbn in H. destruct H as ([Hsz Hal] & (Hn & _ & Hu) & H).
    destruct (rest_sum _ _ _ _ _ H) as [Hsum Hnn].
    unfold m_used, m_next. rewrite Hn, Hu. unfold SIZEOF_STRUCT_MEM.
    rewrite u32_id by lia. replace (o + sz - (o + 8)) with (sz - 8) by lia.
    cbn [first_fit]. replace (Z.b2z u =? 0) with (negb u) by by destruct u.
    destruct (negb u && (size <=? sz - 8)); [done |]. cbn [length] in Hf.
    rewrite (IH o (o + sz)) by (done || lia).
    by destruct (first_fit (o + sz) size bs) as [[? ?] |].
Qed.

Lemma rest_fuel m r p o bs : rest m r p o bs -> 0 <= o -> (length bs < heap_fuel)%nat.
Proof.
  intros H Ho. pose proof (rest_length _ _ _ _ _ H). destruct (rest_sum _ _ _ _ _ H).
  unfold heap_fuel. lia.
Qed.

(** The scan starts at the lowest free block and finds the first fit. *)
Lemma malloc_scan_ok h bs size :
  heap_inv h bs -> 12 <= size -> malloc_scan h size = Some (fst <$> first_fit 0 size bs).
Proof.
  intros [_ _ Hr _ Hl _] Hs.
  destruct (first_free_split 0 bs) as (a & b & -> & Ha & Hf).
  rewrite first_fit_used by done. apply rest_app in Hr as [Hseg Hr].
  pose proof (seg_nonneg _ _ _ _ _ Hseg). destruct (rest_sum _ _ _ _ _ Hr).
  unfold malloc_scan. rewrite Hl, Hf. rewrite u16_id by lia.
  replace (ram h + (0 + sum a) - ram h) with (0 + sum a) by lia.
  apply (scan_loop h (last_off 0 0 a)); [done | lia | done |].
  eapply rest_fuel; [done | lia].
Qed.

Lemma lfree_loop h p o bs fuel :
  ram_end h = ram h + 8192 ->
  rest (hmem h) (ram h) p o bs -> (length bs < fuel)%nat ->
  while fuel (lfree_body h) (ram h + o) = Some (ram h + first_free o bs).
Proof.
  intros He. revert p o fuel. induction bs as [| [sz u] bs IH]; intros p o fuel H Hf;
    (destruct fuel as [| fuel]; [cbn in Hf; lia |]); rewrite while_S; unfold lfree_body at 1.
  - cbn in H. destruct H as (-> & _ & _). rewrite He, Z.eqb_refl, andb_false_r. done.
  - cbn in H. destruct H as ([Hsz Hal] & (Hn & _ & Hu) & H).
    destruct (rest_sum _ _ _ _ _ H). unfold m_used, m_next. rewrite Hn, Hu, He.
    rewrite (proj2 (Z.eqb_neq (ram h + o) (ram h + 8192))) by lia.
    destruct u; cbn; [| done]. apply (IH o); [done |]. cbn in Hf. lia.
Qed.

(** What an operation on the heap may change: nothing outside the heap and no
    data byte of a used block of [bs]. *)
Definition keeps (m m' : memory) (r : Z) (bs : list block) : Prop :=
  forall x, in_used_data r bs x \/ x < r \/ r + 8200 <= x -> ld8 m' x = ld8 m x.

Lemma keeps_refl m r bs : keeps m m r bs.
Proof. done. Qed.

(** The position of a block in the heap. *)
Lemma heap_at h pre sz u post :
  heap_inv h (pre ++ (sz, u) :: post) ->
  seg (hmem h) (ram h) 0 0 pre /\ blk_ok sz /\
  hdr (hmem h) (ram h + sum pre) (sum pre + sz) (last_off 0 0 pre) u /\
  rest (hmem h) (ram h) (sum pre) (sum pre + sz) post /\
  0 <= sum pre /\ sum pre mod 4 = 0 /\ 0 <= last_off 0 0 pre <= sum pre /\
  sum pre + sz + sum post = 8192 /\ 0 <= sum post.
Proof.
  intros [_ _ Hr _ _ _]. apply rest_app in Hr as [Hseg Hr]. cbn in Hr.
  destruct Hr as (Hb & Hh & Hr). destruct (rest_sum _ _ _ _ _ Hr).
  pose proof (seg_nonneg _ _ _ _ _ Hseg). pose proof (seg_aligned _ _ _ _ _ Hseg).
  pose proof (last_off_bound _ _ _ _ _ Hseg ltac:(lia)).
  repeat (split; [done || lia |]). lia.
Qed.

Lemma keeps_at h pre sz u post m' :
  heap_inv h (pre ++ (sz, u) :: post) ->
  (forall x, x < ram h + sum pre \/ (u = true /\ ram h + sum pre + 8 <= x < ram h + sum pre + sz)
             \/ ram h + sum pre + sz + 8 <= x -> ld8 m' x = ld8 (hmem h) x) ->
  keeps (hmem h) m' (ram h) (pre ++ (sz, u) :: post).
Proof.
  intros Hi He x Hx. destruct (heap_at _ _ _ _ _ Hi) as (Hseg & [? ?] & _ & Hr & Ho & Hoal & Hlast & Hsum & Hpost).
  apply He. rewrite in_used_app in Hx. cbn in Hx.
  destruct Hx as [[Hx | [[-> Hx] | Hx]] | [Hx | Hx]]; [| | | lia | lia].
  - rewrite <- (Z.add_0_r (ram h)) in Hx. apply (in_used_seg_bounds _ _ _ _ _ _ Hseg) in Hx. lia.
  - right. left. lia.
  - rewrite <- Z.add_assoc in Hx. apply (in_used_bounds _ _ _ _ _ _ Hr) in Hx. lia.
Qed.

(** The memory after [mem2] was created behind a block taken or trimmed. *)
Definition split_mem (m : memory) (r o o2 nx : Z) : memory :=
  let m := st8 m (r + o2 + 4) 0 in
  let m := st16 m (r + o2) nx in
  let m := st16 m (r + o2 + 2) o in
  st16 m (r + o) o2.

Definition relink_mem (m : memory) (r nx o2 : Z) : memory :=
  if negb (nx =? MEM_SIZE_ALIGNED) then st16 m (r + nx + 2) o2 else m.

Ltac heap_cbn :=
  unfold set_m_prev, set_m_next, set_m_used, m_next, m_prev, m_used;
  cbn [hmem set_hmem ram ram_end lfree stats set_stats set_lfree].

Lemma malloc_take_eq h o size nx :
  m_next h (ram h + o) = nx -> 0 <= o -> o + 8 + size <= nx <= 8192 -> 12 <= size ->
  malloc_take h o size =
    if size + 20 <=? nx - o - 8 then
      set_stats (set_hmem h (relink_mem
          (st8 (split_mem (hmem h) (ram h) o (o + 8 + size) nx) (ram h + o + 4) 1)
          (ram h) nx (o + 8 + size)))
        (MEM_STATS_INC_USED (stats h) (size + 8))
    else
      set_stats (set_hmem h (st8 (hmem h) (ram h + o + 4) 1))
        (MEM_STATS_INC_USED (stats h) (nx - o)).
Proof.
  intros Hn Ho Hnx Hs. destruct h as [m r re lf st]. unfold malloc_take. revert Hn.
  heap_cbn. intros Hn. rewrite Hn. unfold SIZEOF_STRUCT_MEM, MIN_SIZE_ALIGNED.
  rewrite (u32_id (nx - _)), (u16_id (o + 8 + size)) by lia.
  replace (size + 8 + 12) with (size + 20) by lia.
  replace (nx - (o + 8)) with (nx - o - 8) by lia.
  destruct (Z.leb_spec (size + 20) (nx - o - 8)).
  - mem_simp. rewrite Hn. unfold split_mem, relink_mem. by destruct (negb _).
  - mem_simp. rewrite Hn, u16_id by lia. do 2 f_equal. lia.
Qed.

(** A run of blocks with the two headers at [o] and [o2] in it, followed by
    [post], which is linked back to [o2]. *)
Lemma split_rest m m1 r o o2 nx p0 pre post :
  seg m r 0 0 pre -> rest m r p0 nx post -> sum pre = o -> 0 <= o ->
  blk_ok (o2 - o) -> blk_ok (nx - o2) -> nx <= 8192 ->
  (forall x, x < r + o \/ r + nx <= x -> ld8 m1 x = ld8 m x) ->
  hdr m1 (r + o) o2 (last_off 0 0 pre) true -> hdr m1 (r + o2) nx o false ->
  rest (relink_mem m1 r nx o2) r 0 0 (pre ++ (o2 - o, true) :: (nx - o2, false) :: post).
Proof.
  intros Hseg Hr Hsum Ho [Hb1 Ha1] [Hb2 Ha2] Hnx He Hh1 Hh2.
  assert (rest (relink_mem m1 r nx o2) r o2 nx post) as Hpost.
  { apply rest_relink_cond with p0; [lia |].
    eapply rest_ext; [| done]. intros x Hx. apply He. lia. }
  assert (forall x, x < r + nx -> ld8 (relink_mem m1 r nx o2) x = ld8 m1 x) as He1.
  { intros x Hx. unfold relink_mem. destruct (negb _); by mem_simp. }
  apply rest_app. split.
  - eapply seg_ext; [| done]. intros x Hx. rewrite He1 by lia. apply He. lia.
  - rewrite Hsum, Z.add_0_l. cbn [rest]. replace (o + (o2 - o)) with o2 by lia.
    replace (o2 + (nx - o2)) with nx by lia.
    split; [done |]. split; [eapply hdr_ext; [| done]; intros x Hx; apply He1; lia |].
    split; [done |]. split; [eapply hdr_ext; [| done]; intros x Hx; apply He1; lia | done].
Qed.

Lemma relink_keeps m r nx o2 x :
  ~ (r + nx <= x < r + nx + 8) -> ld8 (relink_mem m r nx o2) x = ld8 m x.
Proof. intros Hx. unfold relink_mem. destruct (negb _); by mem_simp. Qed.

Lemma malloc_take_mem h pre sz post size h' :
  heap_inv h (pre ++ (sz, false) :: post) -> 12 <= size <= sz - 8 -> size mod 4 = 0 ->
  malloc_take h (sum pre) size = h' ->
  rest (hmem h') (ram h) 0 0 (pre ++ split_block sz size ++ post) /\
  keeps (hmem h) (hmem h') (ram h) (pre ++ (sz, false) :: post).
Proof.
  intros Hi Hs Hal <-. pose proof (keeps_at h pre sz false post) as Hk.
  destruct (heap_at _ _ _ _ _ Hi) as (Hseg & [Hsz Hszal] & (Hn & Hp & Hu) & Hr & Ho & Hoal & Hlast & Hsum & Hpost).
  rewrite (malloc_take_eq h _ _ (sum pre + sz)) by (done || lia).
  unfold split_block. replace (sum pre + sz - sum pre - 8) with (sz - 8) by lia.
  destruct (Z.leb_spec (size + 20) (sz - 8)) as [Hsp | Hsp];
    cbn [hmem set_stats set_hmem app]; split.
  - replace (8 + size) with (sum pre + 8 + size - sum pre) by lia.
    replace (sz - 8 - size) with (sum pre + sz - (sum pre + 8 + size)) by lia.
    eapply split_rest; try done; try (split; zlia); try lia.
    + intros x Hx. unfold split_mem. by mem_simp.
    + unfold hdr, split_mem. mem_simp. done.
    + unfold hdr, split_mem. mem_simp. done.
  - apply Hk; [done |]. intros x Hx. rewrite relink_keeps by lia.
    unfold split_mem. by mem_simp.
  - apply rest_app. split; [eapply seg_ext; [| done]; intros x Hx; by mem_simp |].
    rewrite Z.add_0_l. cbn [rest]. split; [done |]. split; [unfold hdr; by mem_simp |].
    eapply rest_ext; [| done]. intros x Hx. by mem_simp.
  - apply Hk; [done |]. intros x Hx. by mem_simp.
Qed.

(** The block size that serves a request. *)
Definition req_size (size : Z) : Z := Z.max 12 (4 * ((size + 3) / 4)).

Lemma align_size_eq size :
  0 <= size <= 65532 ->
  (if LWIP_MEM_ALIGN_SIZE size <? MIN_SIZE_ALIGNED then MIN_SIZE_ALIGNED
   else LWIP_MEM_ALIGN_SIZE size) = req_size size.
Proof.
  intros Hs. unfold LWIP_MEM_ALIGN_SIZE, MIN_SIZE_ALIGNED, req_size.
  rewrite land_lnot_3. replace (size + 4 - 1) with (size + 3) by lia.
  rewrite u16_id by zlia. case_bool; lia.
Qed.

Lemma req_size_bounds size : 12 <= req_size size /\ size <= req_size size /\ req_size size mod 4 = 0.
Proof. unfold req_size. repeat split; zlia. Qed.

Lemma split_block_facts pre sz post size :
  12 <= size <= sz - 8 ->
  no_adjacent_free (pre ++ (sz, false) :: post) ->
  no_adjacent_free (pre ++ split_block sz size ++ post) /\
  sum (split_block sz size) = sz /\
  0 <= used_sum (split_block sz size) <= sz /\
  used_sum (split_block sz size) = (if size + 20 <=? sz - 8 then size + 8 else sz) /\
  forall base x, base + 8 <= x < base + 8 + size -> in_used_data base (split_block sz size) x.
Proof.
  intros Hs Hn. rewrite naf_app in Hn. cbn in Hn.
  destruct Hn as (Hpre & [Hsp Hpost] & Hend). unfold split_block.
  destruct (Z.leb_spec (size + 20) (sz - 8)); cbn.
  - split; [rewrite naf_app; cbn; rewrite andb_false_r; done |].
    repeat split; try lia.
  - split; [rewrite naf_app; cbn; rewrite andb_false_r; done |].
    repeat split; try lia.
Qed.

(** Taking a block and moving the lowest-free pointer. *)
Lemma malloc_found h pre sz post size :
  heap_inv h (pre ++ (sz, false) :: post) -> 12 <= size <= sz - 8 -> size mod 4 = 0 ->
  exists h', malloc_adjust_lfree (malloc_take h (sum pre) size) (ram h + sum pre) = Some h' /\
    ram h' = ram h /\ heap_inv h' (pre ++ split_block sz size ++ post) /\
    keeps (hmem h) (hmem h') (ram h) (pre ++ (sz, false) :: post).
Proof.
  intros Hi Hs Hal. destruct (malloc_take_mem h pre sz post size _ Hi Hs Hal eq_refl) as [Hrest Hk].
  destruct (heap_at _ _ _ _ _ Hi) as (Hseg & [Hsz Hszal] & (Hn & Hp & Hu) & Hr & Ho & Hoal & Hlast & Hsum & Hpost).
  assert (ram (malloc_take h (sum pre) size) = ram h /\
          ram_end (malloc_take h (sum pre) size) = ram_end h /\
          lfree (malloc_take h (sum pre) size) = lfree h /\
          stats (malloc_take h (sum pre) size) =
            MEM_STATS_INC_USED (stats h) (used_sum (split_block sz size))) as (E1 & E2 & E3 & E4).
  { rewrite (malloc_take_eq h _ _ (sum pre + sz)) by (done || lia). unfold split_block.
    replace (sum pre + sz - sum pre - 8) with (sz - 8) by lia.
    destruct (Z.leb_spec (size + 20) (sz - 8)); cbn; repeat split; f_equal; lia. }
  set (h1 := malloc_take h (sum pre) size) in *.
  destruct Hi as [Hram Hend _ Hadj Hlf Hst].
  destruct (split_block_facts pre sz post size Hs Hadj) as (Hadj' & Hss & Hus & _ & _).
  assert (stats_ok (stats h1) (pre ++ split_block sz size ++ post)) as Hst'.
  { rewrite E4. destruct Hst as (Hav & Hud & Hmx).
    destruct (rest_used_sum _ _ _ _ _ Hrest). destruct (rest_sum _ _ _ _ _ Hrest) as [Hsm _].
    rewrite !used_sum_app in *. cbn in Hud, Hmx.
    unfold MEM_STATS_INC_USED, stats_ok. cbn [st_avail st_used st_max].
    rewrite !used_sum_app, Hud. rewrite u16_id by lia.
    split; [done |]. split; [lia |]. case_bool; lia. }
  unfold malloc_adjust_lfree.
  destruct (Z.eqb_spec (ram h + sum pre) (lfree h1)) as [Heq | Hne].
  - rewrite <- E1 in Hrest, Heq. rewrite <- Heq.
    assert (Forall (fun x => x.2 = true) pre) as Hpu.
    { destruct (decide (Forall (fun x => x.2 = true) pre)) as [| Hnu]; [done |].
      pose proof (first_free_lt _ _ _ _ _ Hseg Hnu) as Hlt.
      rewrite <- (first_free_app_free _ _ ((sz, false) :: post) Hnu) in Hlt. lia. }
    pose proof Hrest as Hrest2. apply rest_app in Hrest2 as [_ Hrest2]. rewrite Z.add_0_l in Hrest2.
    rewrite (lfree_loop h1 _ (sum pre) _ _ ltac:(lia) Hrest2)
      by (eapply rest_fuel; [done | lia]).
    eexists. split; [reflexivity |]. cbn. split; [done |]. split; [| done].
    split; cbn; rewrite ?E1, ?E2; rewrite ?E1 in Hrest; try done.
    rewrite (first_free_app_used 0 pre) by done. by rewrite Z.add_0_l.
  - eexists. split; [reflexivity |]. split; [done |]. split; [| done].
    split; rewrite ?E1, ?E2, ?E3; try done. rewrite Hlf.
    destruct (decide (Forall (fun x => x.2 = true) pre)) as [Hpu | Hnu].
    + rewrite first_free_app_used in Hlf by done. cbn in Hlf. lia.
    + by rewrite !first_free_app_free.
Qed.

Lemma block_le_heap h bs : heap_inv h bs -> Forall (fun b => b.1 <= 8192) bs.
Proof.
  intros [_ _ Hr _ _ _]. apply Forall_forall. intros [sz u] Hin.
  apply list_elem_of_split in Hin as (a & b & ->). apply rest_app in Hr as [Hs Hr]. cbn in *.
  pose proof (seg_nonneg _ _ _ _ _ Hs). destruct Hr as (_ & _ & Hr).
  destruct (rest_sum _ _ _ _ _ Hr). lia.
Qed.

Lemma heap_inv_stats h bs s :
  heap_inv h bs -> stats_ok s bs -> heap_inv (set_stats h s) bs.
Proof. intros [? ? ? ? ? ?] Hs. by split. Qed.

Lemma mem_malloc_spec h bs size :
  heap_inv h bs -> 0 < size <= 65532 ->
  exists h' p, mem_malloc h size = Some (h', p) /\
    match first_fit 0 (req_size size) bs with
    | Some (o, bs') =>
        p = ram h + o + 8 /\ ram h' = ram h /\ heap_inv h' bs' /\
        keeps (hmem h) (hmem h') (ram h) bs
    | None => p = 0 /\ ram h' = ram h /\ heap_inv h' bs /\ hmem h' = hmem h
    end.
Proof.
  intros Hi Hs. unfold mem_malloc. rewrite (proj2 (Z.eqb_neq size 0)) by lia. cbv zeta.
  rewrite align_size_eq by lia. destruct (req_size_bounds size) as (Hr1 & Hr2 & Hr3).
  unfold MEM_SIZE_ALIGNED at 1. destruct (Z.ltb_spec 8192 (req_size size)) as [Hbig | Hfit].
  - exists h, 0. split; [done |].
    rewrite (proj2 (first_fit_None 0 (req_size size) bs)); [done |].
    apply (Forall_impl _ _ _ (block_le_heap h bs Hi)). intros b Hb _. lia.
  - rewrite (malloc_scan_ok h bs) by (done || lia). cbn [mbind option_bind].
    destruct (first_fit 0 (req_size size) bs) as [[o bs'] |] eqn:Hff; cbn.
    + apply first_fit_split in Hff as (pre & sz & post & -> & -> & Hsz & ->).
      rewrite Z.add_0_l.
      destruct (malloc_found h pre sz post (req_size size)) as (h' & Ha & Hram & Hi' & Hk);
        [done | lia | done |].
      assert (ram (malloc_take h (sum pre) (req_size size)) = ram h) as E.
      { unfold malloc_take. heap_cbn. rewrite hmem_if. by case_bool. }
      rewrite E, Ha. exists h', (ram h + sum pre + 8). done.
    + eexists _, _. split; [reflexivity |]. split; [done |]. split; [done |]. split; [| done].
      apply heap_inv_stats; [done |]. by destruct Hi.
Qed.

(** * mem_free *)

(** The memory after the block at [o] swallowed its successor. *)
Definition merge_mem (m : memory) (r o nx : Z) : memory :=
  st16 (st16 m (r + o) nx) (r + nx + 2) o.

Lemma merge_rest m r pre s1 u1 s2 u2 post :
  rest m r 0 0 (pre ++ (s1, u1) :: (s2, u2) :: post) ->
  let m' := merge_mem m r (sum pre) (sum pre + s1 + s2) in
  rest m' r 0 0 (pre ++ (s1 + s2, u1) :: post) /\
  keeps m m' r (pre ++ (s1, u1) :: (s2, u2) :: post).
Proof.
  intros H. apply rest_app0 in H as [Hseg H]. cbn in H.
  destruct H as ([Hs1 Ha1] & (Hn & Hp & Hu) & [Hs2 Ha2] & (Hn2 & Hp2 & Hu2) & Hr).
  pose proof (seg_nonneg _ _ _ _ _ Hseg). destruct (rest_sum _ _ _ _ _ Hr).
  unfold merge_mem. split.
  - apply rest_app0. split.
    + eapply seg_ext; [| done]. intros x Hx. by mem_simp.
    + cbn [rest]. replace (sum pre + (s1 + s2)) with (sum pre + s1 + s2) by lia. split; [split; zlia |]. split.
      * unfold hdr. mem_simp. done.
      * apply rest_relink with (sum pre + s1); [lia |].
        eapply rest_ext; [| done]. intros x Hx. by mem_simp.
  - intros x Hx. rewrite in_used_app in Hx. cbn in Hx.
    destruct Hx as [[Hx | [[_ Hx] | [[_ Hx] | Hx]]] | [Hx | Hx]]; try (mem_simp; done).
    + rewrite <- (Z.add_0_r r) in Hx. apply (in_used_seg_bounds _ _ _ _ _ _ Hseg) in Hx.
      by mem_simp.
    + rewrite <- !Z.add_assoc in Hx. rewrite <- !Z.add_assoc in Hr.
      apply (in_used_bounds _ _ _ _ _ _ Hr) in Hx. by mem_simp.
Qed.

(** What releasing a block has established when the holes are plugged. *)
Record hole (h : heap) (bs : list block) : Prop := {
  ho_end : ram_end h = ram h + 8192;
  ho_rest : rest (hmem h) (ram h) 0 0 bs;
  ho_lfree : lfree h = ram h + first_free 0 bs
}.

Lemma first_free_hole m r pre b post :
  seg m r 0 0 pre -> b.2 = false -> first_free 0 (pre ++ b :: post) <= sum pre.
Proof.
  intros Hs Hb. destruct (decide (Forall (fun x => x.2 = true) pre)) as [Hu | Hn].
  - rewrite first_free_app_used by done. destruct b as [sz u]. cbn in *. subst u. lia.
  - rewrite first_free_app_free by done. by apply (first_free_bounds _ _ _ _ _ Hs).
Qed.

Lemma first_free_replace pre sz sz' post post' :
  first_free 0 (pre ++ (sz, false) :: post) = first_free 0 (pre ++ (sz', false) :: post').
Proof.
  destruct (decide (Forall (fun x => x.2 = true) pre)) as [Hu | Hn].
  - by rewrite !first_free_app_used.
  - by rewrite !first_free_app_free.
Qed.

Lemma plug_forward_eq h pre sz post :
  hole h (pre ++ (sz, false) :: post) ->
  plug_forward h (ram h + sum pre) =
    match post with
    | (s, false) :: _ => set_hmem h (merge_mem (hmem h) (ram h) (sum pre) (sum pre + sz + s))
    | _ => h
    end.
Proof.
  intros [He Hr Hl]. apply rest_app0 in Hr as [Hseg Hr]. cbn in Hr.
  destruct Hr as ([Hsz Hal] & (Hn & Hp & Hu) & Hr). pose proof (seg_nonneg _ _ _ _ _ Hseg).
  pose proof (first_free_hole _ _ pre (sz, false) post Hseg eq_refl) as Hff.
  unfold plug_forward. cbv zeta. unfold m_next at 1 2 3. rewrite Hn.
  rewrite (proj2 (Z.eqb_neq (ram h + sum pre) (ram h + (sum pre + sz)))) by lia.
  unfold m_used. destruct post as [| [s [|]] post]; cbn in Hr; cbn [negb andb].
  - destruct Hr as (E & _ & Hu'). by rewrite E, Hu'.
  - destruct Hr as (_ & (_ & _ & Hu') & _). by rewrite Hu'.
  - destruct Hr as ([Hs Has] & (Hn' & _ & Hu') & Hr). destruct (rest_sum _ _ _ _ _ Hr).
    rewrite Hu', He. cbn [Z.b2z Z.eqb andb].
    rewrite (proj2 (Z.eqb_neq (ram h + (sum pre + sz)) (ram h + 8192))) by lia. cbn [negb].
    unfold set_m_prev, set_m_next, m_next. rewrite Hn, Hl.
    rewrite (proj2 (Z.eqb_neq (ram h + first_free _ _) (ram h + (sum pre + sz)))) by lia.
    cbn [hmem set_hmem ram]. rewrite Hn'. rewrite ld16_st16_ne by lia.
    rewrite Hn'. rewrite u16_id by lia.
    replace (ram h + sum pre - ram h) with (sum pre) by lia. done.
Qed.

Lemma plug_forward_ok h pre sz post h' :
  hole h (pre ++ (sz, false) :: post) -> plug_forward h (ram h + sum pre) = h' ->
  hole h' (pre ++ join_next sz post) /\ ram h' = ram h /\ stats h' = stats h /\
  keeps (hmem h) (hmem h') (ram h) (pre ++ (sz, false) :: post).
Proof.
  intros Hh <-. rewrite (plug_forward_eq h pre sz post Hh).
  destruct post as [| [s [|]] post]; [done | done |].
  destruct Hh as [He Hr Hl]. destruct (merge_rest _ _ _ _ _ _ _ _ Hr) as [Hm Hk].
  split; [| done]. split; cbn; [done | done |].
  rewrite Hl. f_equal. apply first_free_replace.
Qed.

Lemma last_off_snoc a s u : last_off 0 0 (a ++ [(s, u)]) = sum a.
Proof.
  assert (forall p o, last_off p o (a ++ [(s, u)]) = o + sum a) as H; [| by rewrite H].
  induction a as [| [s' u'] a IH]; intros p o; cbn; [lia |]. rewrite IH. lia.
Qed.

Lemma plug_backward_eq h pre sz post :
  hole h (pre ++ (sz, false) :: post) ->
  plug_backward h (ram h + sum pre) =
    match reverse pre with
    | (s, false) :: pre' =>
        set_hmem h (merge_mem (hmem h) (ram h) (sum (reverse pre')) (sum (reverse pre') + s + sz))
    | _ => h
    end.
Proof.
  intros [He Hr Hl]. destruct pre as [| [s u] pre _] using rev_ind.
  - cbn in Hr. destruct Hr as (_ & (_ & Hp & _) & _). unfold plug_backward, m_prev. cbv zeta.
    cbn [sum]. rewrite Hp, Z.eqb_refl. done.
  - rewrite reverse_snoc. rewrite <- app_assoc in Hr, Hl. cbn [app] in Hr, Hl.
    pose proof (first_free_hole (hmem h) (ram h) pre (s, u) ((sz, false) :: post)) as Hff.
    apply rest_app0 in Hr as [Hseg Hr]. cbn in Hr.
    destruct Hr as ([Hs Ha] & (_ & _ & Hu) & [Hsz Hal] & (Hn & Hp & _) & Hr).
    pose proof (seg_nonneg _ _ _ _ _ Hseg). destruct (rest_sum _ _ _ _ _ Hr).
    rewrite sum_app. cbn [sum fst]. rewrite Z.add_0_r.
    unfold plug_backward. cbv zeta. unfold m_prev, m_used. rewrite Hp, Hu.
    rewrite (proj2 (Z.eqb_neq (ram h + sum pre) (ram h + (sum pre + s)))) by lia.
    destruct u; [done |]. cbn [Z.b2z Z.eqb negb andb]. rewrite reverse_involutive.
    specialize (Hff Hseg eq_refl).
    unfold set_m_prev, set_m_next, m_next. rewrite Hl.
    rewrite (proj2 (Z.eqb_neq (ram h + first_free _ _) (ram h + (sum pre + s)))) by lia.
    cbn [hmem set_hmem ram]. rewrite Hn. rewrite ld16_st16_ne by lia.
    rewrite Hn, u16_id by lia. replace (ram h + sum pre - ram h) with (sum pre) by lia. done.
Qed.

Lemma plug_backward_ok h pre sz post h' :
  hole h (pre ++ (sz, false) :: post) -> plug_backward h (ram h + sum pre) = h' ->
  hole h' (join_prev pre ((sz, false) :: post)) /\ ram h' = ram h /\ stats h' = stats h /\
  keeps (hmem h) (hmem h') (ram h) (pre ++ (sz, false) :: post).
Proof.
  intros Hh <-. rewrite (plug_backward_eq h pre sz post Hh). unfold join_prev.
  destruct (reverse pre) as [| [s [|]] pre'] eqn:Hrev; [done | done |].
  assert (pre = reverse pre' ++ [(s, false)]) as ->.
  { rewrite <- (reverse_involutive pre), Hrev. by rewrite reverse_cons. }
  rewrite <- app_assoc in *. cbn [app] in *.
  destruct Hh as [He Hr Hl]. destruct (merge_rest _ _ _ _ _ _ _ _ Hr) as [Hm Hk].
  split; [| done]. split; cbn; [done | done |].
  rewrite Hl. f_equal. apply first_free_replace.
Qed.

Lemma in_used_join_next base pre sz post x :
  in_used_data base (pre ++ (sz, false) :: post) x ->
  in_used_data base (pre ++ join_next sz post) x.
Proof.
  rewrite !in_used_app. destruct post as [| [s [|]] post]; cbn; [tauto | tauto |].
  rewrite Z.add_assoc. intuition done.
Qed.

Lemma in_used_join base pre sz post x :
  in_used_data base (join_prev pre (join_next sz post)) x ->
  in_used_data base (pre ++ (sz, false) :: post) x.
Proof.
  assert (exists s p, join_next sz post = (s, false) :: p /\ forall b,
            in_used_data (b + s) p x -> in_used_data (b + sz) post x) as (s & p & -> & Hp).
  { destruct post as [| [s [|]] post]; cbn; eexists _, _; (split; [done |]); intros b; try done.
    rewrite Z.add_assoc. tauto. }
  unfold join_prev. destruct pre as [| [s0 u] pre _] using rev_ind.
  - cbn. intros [[? _] | H]; [done | by right; apply Hp].
  - rewrite reverse_snoc. destruct u.
    + rewrite !in_used_app. cbn. intros [H | [[? _] | H]]; [by left | done | right; right; by apply Hp].
    + rewrite reverse_involutive, !in_used_app, sum_app. cbn.
      intros [H | [[? _] | H]]; [by left; left | done | right; right]. apply Hp.
      by rewrite Z.add_0_r, <- !Z.add_assoc in *.
Qed.

Lemma used_sum_join pre sz post : used_sum (join_prev pre (join_next sz post)) = used_sum pre + used_sum post.
Proof.
  unfold join_prev. destruct (reverse pre) as [| [s [|]] pre'] eqn:Hrev.
  1,2: rewrite used_sum_app; by destruct post as [| [s' [|]] post].
  assert (pre = reverse pre' ++ [(s, false)]) as ->.
  { rewrite <- (reverse_involutive pre), Hrev. by rewrite reverse_cons. }
  rewrite used_sum_app. destruct post as [| [s' [|]] post]; cbn; rewrite used_sum_app; cbn; lia.
Qed.

Lemma naf_join pre sz post :
  no_adjacent_free (pre ++ (sz, true) :: post) ->
  no_adjacent_free (join_prev pre (join_next sz post)).
Proof.
  rewrite naf_app. cbn. intros (Hpre & [_ Hpost] & _).
  assert (exists sz' post', join_next sz post = (sz', false) :: post' /\
          no_adjacent_free post' /\ starts_free post' = false) as (sz' & post' & -> & Hn & Hs).
  { destruct post as [| [s [|]] post]; cbn in *; eauto 6. destruct Hpost; eauto. }
  unfold join_prev. destruct pre as [| [s u] pre _] using rev_ind; [cbn; by rewrite Hs |].
  rewrite reverse_snoc. apply naf_app in Hpre as (Hp & _ & He). cbn in He. destruct u.
  - rewrite naf_app, ends_free_snoc. cbn. rewrite naf_app. cbn. by rewrite Hs, andb_false_r.
  - rewrite reverse_involutive, naf_app. cbn. rewrite Hs. done.
Qed.

(** The lowest free block after the release of a used one. *)
Lemma first_free_release h pre sz post :
  heap_inv h (pre ++ (sz, true) :: post) ->
  (if ram h + sum pre <? lfree h then ram h + sum pre else lfree h)
  = ram h + first_free 0 (pre ++ (sz, false) :: post).
Proof.
  intros Hi. destruct (heap_at _ _ _ _ _ Hi) as (Hseg & [Hsz _] & _ & Hr & _).
  destruct Hi as [_ _ _ _ Hl _].
  destruct (decide (Forall (fun x => x.2 = true) pre)) as [Hu | Hn].
  - rewrite first_free_app_used in * by done. cbn [first_free] in *. rewrite Z.add_0_l in *.
    destruct (first_free_split (sum pre + sz) post) as (a & b & -> & _ & Hf).
    apply rest_app in Hr as [Hs _]. pose proof (seg_nonneg _ _ _ _ _ Hs).
    rewrite (proj2 (Z.ltb_lt _ _)) by lia. done.
  - rewrite first_free_app_free in * by done. pose proof (first_free_lt _ _ _ _ _ Hseg Hn).
    rewrite (proj2 (Z.ltb_ge _ _)) by lia. done.
Qed.

(** The state of [mem_free] when it calls [plug_holes]. *)
Lemma mem_free_mark h pre sz post :
  heap_inv h (pre ++ (sz, true) :: post) ->
  exists h2, mem_free h (ram h + sum pre + 8) = plug_holes h2 (ram h + sum pre) /\
    hmem h2 = st8 (hmem h) (ram h + sum pre + 4) 0 /\ ram h2 = ram h /\
    stats h2 = MEM_STATS_DEC_USED (stats h) sz /\ hole h2 (pre ++ (sz, false) :: post).
Proof.
  intros Hi. pose proof (first_free_release _ _ _ _ Hi) as Hlf.
  destruct (heap_at _ _ _ _ _ Hi) as (Hseg & [Hsz Hszal] & (Hn & Hp & Hu) & Hr & Ho & Hoal & Hlast & Hsum & Hpost).
  destruct Hi as [Hram He _ Hadj Hl Hst].
  exists (mkHeap (st8 (hmem h) (ram h + sum pre + 4) 0) (ram h) (ram_end h)
            (ram h + first_free 0 (pre ++ (sz, false) :: post)) (MEM_STATS_DEC_USED (stats h) sz)).
  split; [| split; [done |]; split; [done |]; split; [done |]; split; [done | | done]].
  - unfold mem_free. rewrite He. rewrite (proj2 (Z.eqb_neq _ 0)) by lia.
    rewrite (proj2 (Z.ltb_ge _ _)) by lia. rewrite (proj2 (Z.leb_gt _ _)) by lia. cbn [orb].
    unfold SIZEOF_STRUCT_MEM. replace (ram h + sum pre + 8 - 8) with (ram h + sum pre) by lia.
    cbv zeta. f_equal. heap_cbn. rewrite <- Hlf, <- He.
    destruct (ram h + sum pre <? lfree h); heap_cbn; mem_simp; rewrite Hn, u16_id by lia;
      replace (sum pre + sz - (ram h + sum pre - ram h)) with sz by lia; done.
  - cbn [hmem ram]. apply rest_app0.
    split; [eapply seg_ext; [| done]; intros x Hx; by mem_simp |].
    cbn [rest]. split; [done |]. split; [unfold hdr; by mem_simp |].
    eapply rest_ext; [| done]. intros x Hx. by mem_simp.
Qed.

(** Releasing a block that is in use. *)
Lemma mem_free_spec h pre sz post h' :
  heap_inv h (pre ++ (sz, true) :: post) -> mem_free h (ram h + sum pre + 8) = h' ->
  heap_inv h' (join_prev pre (join_next sz post)) /\ ram h' = ram h /\
  keeps (hmem h) (hmem h') (ram h) (pre ++ (sz, false) :: post).
Proof.
  intros Hi <-. destruct (mem_free_mark _ _ _ _ Hi) as (h2 & -> & Em & Er & Es & Hh).
  unfold plug_holes. rewrite <- Er.
  destruct (plug_forward_ok h2 pre sz post _ Hh eq_refl) as (Hh3 & Er3 & Es3 & Hk3).
  set (h3 := plug_forward h2 (ram h2 + sum pre)) in *.
  assert (exists sz' post', join_next sz post = (sz', false) :: post') as (sz' & post' & Ej).
  { destruct post as [| [s [|]] post]; cbn; eauto. }
  rewrite Ej in Hh3. rewrite <- Er3.
  destruct (plug_backward_ok h3 pre sz' post' _ Hh3 eq_refl) as (Hh4 & Er4 & Es4 & Hk4).
  set (h4 := plug_backward h3 (ram h3 + sum pre)) in *. rewrite Ej.
  split; [| split; [done |]].
  - destruct (heap_at _ _ _ _ _ Hi) as (_ & [Hsz _] & _ & Hr & _ & _ & _ & Hsum & _).
    destruct Hi as [Hram He _ Hadj Hl Hst], Hh4 as [He4 Hr4 Hl4]. split; try done.
    + by rewrite Er4, Er3, Er.
    + rewrite <- Ej. by apply naf_join.
    + rewrite Es4, Es3, Es, <- Ej. destruct Hst as (Hav & Hus & Hmx).
      unfold stats_ok. rewrite used_sum_join. rewrite used_sum_app in Hus, Hmx. cbn in Hus, Hmx.
      cbn. rewrite Hus. pose proof (rest_used_sum _ _ _ _ _ Hr4) as Hr4u.
      rewrite <- Ej, used_sum_join in Hr4u.
      rewrite u16_id by lia. split; [done |]. lia.
  - intros x Hx. rewrite Er3, Er in *. unfold keeps in Hk3, Hk4.
    rewrite Hk4, Hk3, Em; [| tauto |].
    + rewrite ld8_st8_ne; [done |]. intros ->.
      destruct (heap_at _ _ _ _ _ Hi) as (Hseg & [Hsz _] & _ & Hr & Ho & _ & _ & Hsum & Hpost).
      rewrite in_used_app in Hx. cbn in Hx.
      destruct Hx as [[Hx | [[? _] | Hx]] | Hx]; [| done | | lia].
      * rewrite <- (Z.add_0_r (ram h)) in Hx.
        apply (in_used_seg_bounds _ _ _ _ _ _ Hseg) in Hx. lia.
      * rewrite <- Z.add_assoc in Hx. apply (in_used_bounds _ _ _ _ _ _ Hr) in Hx. lia.
    + rewrite <- Ej. destruct Hx as [Hx | Hx]; [left; by apply in_used_join_next | by right].
Qed.

(** * mem_trim *)

(** The result of a trim that creates a free block of [nx - o2] bytes. *)
Definition trimmed (h : heap) (o o2 nx lf used : Z) : heap :=
  mkHeap (relink_mem (split_mem (hmem h) (ram h) o o2 nx) (ram h) nx o2)
    (ram h) (ram_end h) lf (MEM_STATS_DEC_USED (stats h) used).

Lemma trim_split_eq h o sz k :
  ld16 (hmem h) (ram h + o) = o + sz -> 0 <= o -> o + sz <= 8192 -> 12 <= k -> k + 20 <= sz - 8 ->
  trim_split h (ram h + o) o (sz - 8) k =
    trimmed h o (o + 8 + k) (o + sz)
      (if ram h + (o + 8 + k) <? lfree h then ram h + (o + 8 + k) else lfree h) (sz - 8 - k).
Proof.
  intros Hn Ho Hsz Hk Hk2. destruct h as [m r re lf st]. cbn in Hn.
  unfold trim_split, SIZEOF_STRUCT_MEM. rewrite u16_id by lia. cbn [ram lfree].
  unfold trimmed, split_mem, relink_mem.
  destruct (r + (o + 8 + k) <? lf); heap_cbn; mem_simp; rewrite Hn; by destruct (negb _).
Qed.

Lemma trim_move_eq h o sz s k :
  ld16 (hmem h) (ram h + o) = o + sz -> ld16 (hmem h) (ram h + (o + sz)) = o + sz + s ->
  0 <= o -> o + sz + s <= 8192 -> 20 <= s -> 12 <= k -> k < sz - 8 ->
  trim_move_next h (ram h + o) o (sz - 8) k =
    trimmed h o (o + 8 + k) (o + sz + s)
      (if lfree h =? ram h + (o + sz) then ram h + (o + 8 + k) else lfree h) (sz - 8 - k).
Proof.
  intros Hn Hn2 Ho Hsz Hs Hk Hk2. destruct h as [m r re lf st]. cbn in Hn, Hn2.
  unfold trim_move_next, SIZEOF_STRUCT_MEM. rewrite u16_id by lia.
  heap_cbn. rewrite Hn. unfold trimmed, split_mem, relink_mem.
  destruct (lf =? r + (o + sz)); heap_cbn; rewrite Hn2; mem_simp; by destruct (negb _).
Qed.

(** The blocks, the lowest free block and the data of used blocks after a trim
    that puts a free block at [o2]; [mid] is the free block it moves, if any. *)
Lemma trimmed_ok h pre sz mid post o2 nx lf h' bs' :
  heap_inv h (pre ++ (sz, true) :: mid ++ post) ->
  Forall (fun b => b.2 = false) mid -> starts_free post = false ->
  nx = sum pre + sz + sum mid -> sum pre + 20 <= o2 -> o2 + 20 <= nx -> o2 < sum pre + sz ->
  o2 mod 4 = 0 -> sum mid mod 4 = 0 ->
  bs' = pre ++ (o2 - sum pre, true) :: (nx - o2, false) :: post ->
  lf = ram h + first_free 0 bs' -> h' = trimmed h (sum pre) o2 nx lf (sum pre + sz - o2) ->
  heap_inv h' bs' /\ keeps (hmem h) (hmem h') (ram h) bs'.
Proof.
  intros Hi Hmid Hsf -> Ho2 Hnx Hlt Hal Hma -> -> ->.
  destruct (heap_at _ _ _ _ _ Hi) as (Hseg & [Hsz Hszal] & (Hn & Hp & Hu) & Hr & Ho & Hoal & Hlast & Hsum & Hpost).
  destruct Hi as [Hram He _ Hadj Hl Hst].
  apply rest_app in Hr as [Hmseg Hr]. destruct (rest_sum _ _ _ _ _ Hr).
  set (nx := sum pre + sz + sum mid) in *.
  assert (rest (relink_mem (split_mem (hmem h) (ram h) (sum pre) o2 nx) (ram h) nx o2)
    (ram h) 0 0 (pre ++ (o2 - sum pre, true) :: (nx - o2, false) :: post)) as Hrest.
  { eapply split_rest; try done; try (split; unfold nx; zlia); try lia.
    - intros x Hx. unfold split_mem. mem_simp. done.
    - unfold hdr, split_mem. mem_simp. done.
    - unfold hdr, split_mem. mem_simp. done. }
  split.
  - split; cbn [trimmed hmem ram ram_end lfree stats]; try done.
    + rewrite !naf_app in *. cbn in *. rewrite naf_app in Hadj. cbn in Hadj.
      rewrite Hsf, andb_false_r. tauto.
    + destruct Hst as (Hav & Hus & Hmx). pose proof (rest_used_sum _ _ _ _ _ Hrest) as Hrs.
      rewrite used_sum_app in Hus, Hmx, Hrs. cbn in Hus, Hmx, Hrs.
      rewrite used_sum_app in Hus, Hmx.
      assert (used_sum mid = 0) as Hm0
        by (clear -Hmid; induction Hmid as [| [s u] mid Hu _ IH]; cbn in *; [done | by subst]).
      unfold stats_ok. cbn. rewrite used_sum_app. cbn. rewrite Hus, u16_id by lia. lia.
  - intros x Hx. apply rest_app0 in Hrest as [_ Hrest].
    rewrite in_used_app in Hx. cbn in Hx, Hrest. destruct Hrest as (_ & _ & _ & _ & Hrp).
    replace (sum pre + (o2 - sum pre) + (nx - o2)) with nx in Hrp by lia.
    replace (ram h + sum pre + (o2 - sum pre) + (nx - o2)) with (ram h + nx) in Hx by lia.
    cbn [trimmed hmem]. unfold split_mem.
    assert (x < ram h + sum pre \/ ram h + sum pre + 8 <= x < ram h + o2 \/ ram h + nx + 8 <= x)
      as Hx'; [| rewrite relink_keeps by lia; mem_simp; done].
    destruct Hx as [[Hx | [[_ Hx] | [[? _] | Hx]]] | Hx]; [| lia | done | | lia].
    + rewrite <- (Z.add_0_r (ram h)) in Hx.
      apply (in_used_seg_bounds _ _ _ _ _ _ Hseg) in Hx. lia.
    + apply (in_used_bounds _ _ _ _ _ _ Hrp) in Hx. lia.
Qed.

Lemma trim_lfree h pre sz post k :
  heap_inv h (pre ++ (sz, true) :: post) -> 12 <= k < sz - 8 ->
  (forall s post', post = (s, false) :: post' ->
    (if lfree h =? ram h + (sum pre + sz) then ram h + (sum pre + 8 + k) else lfree h) =
    ram h + first_free 0 (pre ++ (8 + k, true) :: (s + (sz - 8 - k), false) :: post')) /\
  (if ram h + (sum pre + 8 + k) <? lfree h then ram h + (sum pre + 8 + k) else lfree h) =
    ram h + first_free 0 (pre ++ (8 + k, true) :: (sz - 8 - k, false) :: post).
Proof.
  intros Hi Hk. destruct (heap_at _ _ _ _ _ Hi) as (Hseg & [Hsz _] & _ & Hr & _).
  destruct Hi as [_ _ _ _ Hl _].
  destruct (decide (Forall (fun x => x.2 = true) pre)) as [Hu | Hn].
  - rewrite !first_free_app_used in * by done. cbn [first_free] in *. rewrite !Z.add_0_l in *. split.
    + intros s post' ->. cbn [first_free] in Hl. rewrite Hl, Z.eqb_refl.
      rewrite first_free_app_used by done. cbn. lia.
    + destruct (first_free_split (sum pre + sz) post) as (a & b & -> & _ & Hf).
      apply rest_app in Hr as [Hs _]. pose proof (seg_nonneg _ _ _ _ _ Hs).
      rewrite (proj2 (Z.ltb_lt _ _)) by lia. lia.
  - rewrite !first_free_app_free in * by done. pose proof (first_free_lt _ _ _ _ _ Hseg Hn). split.
    + intros s post' ->. rewrite (proj2 (Z.eqb_neq _ _)) by lia. by rewrite first_free_app_free.
    + rewrite (proj2 (Z.ltb_ge _ _)) by lia. done.
Qed.

(** Up to the branches that change the heap. *)
Lemma mem_trim_cases h pre sz post n :
  heap_inv h (pre ++ (sz, true) :: post) -> 0 <= n <= 65532 ->
  let k := req_size n in
  mem_trim h (ram h + sum pre + 8) n =
    if sz - 8 <? k then (h, 0)
    else if k =? sz - 8 then (h, ram h + sum pre + 8)
    else (if m_used h (ram h + (sum pre + sz)) =? 0
          then trim_move_next h (ram h + sum pre) (sum pre) (sz - 8) k
          else if k + 20 <=? sz - 8 then trim_split h (ram h + sum pre) (sum pre) (sz - 8) k else h,
          ram h + sum pre + 8).
Proof.
  intros Hi Hb k. pose proof (req_size_bounds n) as (Hk1 & Hk2 & Hk3). fold k in Hk1, Hk2, Hk3.
  destruct (heap_at _ _ _ _ _ Hi) as (Hseg & [Hsz Hszal] & (Hn & Hp & Hu) & Hr & Ho & Hoal & Hlast & Hsum & Hpost).
  destruct Hi as [Hram He _ Hadj Hl Hst].
  unfold mem_trim. cbv zeta. rewrite align_size_eq by done. fold k.
  unfold MEM_SIZE_ALIGNED, SIZEOF_STRUCT_MEM, MIN_SIZE_ALIGNED.
  replace (ram h + sum pre + 8 - 8) with (ram h + sum pre) by lia. rewrite He.
  destruct (Z.ltb_spec 8192 k); [by rewrite (proj2 (Z.ltb_lt _ _)) by lia |].
  rewrite (proj2 (Z.ltb_ge _ (ram h))) by lia.
  rewrite (proj2 (Z.leb_gt (ram h + 8192) _)) by lia. cbn [orb].
  unfold m_next at 1. rewrite Hn. replace (ram h + sum pre - ram h) with (sum pre) by lia.
  rewrite (u16_id (sum pre)) by lia. rewrite (u16_id (sum pre + sz - sum pre - 8)) by lia.
  replace (sum pre + sz - sum pre - 8) with (sz - 8) by lia.
  replace (k + 8 + 12) with (k + 20) by lia.
  unfold m_next. rewrite Hn. replace (sum pre + sz - sum pre - 8) with (sz - 8) by lia.
  rewrite (u16_id (sz - 8)) by lia.
  repeat (case_bool; try done).
Qed.

Lemma trim_used_next h pre sz post k :
  heap_inv h (pre ++ (sz, true) :: post) -> starts_free post = false ->
  12 <= k < sz - 8 -> k mod 4 = 0 ->
  let h' := if k + 20 <=? sz - 8
            then trim_split h (ram h + sum pre) (sum pre) (sz - 8) k else h in
  ram h' = ram h /\ heap_inv h' (pre ++ trim_block sz k post) /\
  keeps (hmem h) (hmem h') (ram h) (pre ++ trim_block sz k post).
Proof.
  intros Hi Hsf Hk Hal.
  assert (trim_block sz k post = if k + 20 <=? sz - 8
    then (8 + k, true) :: (sz - 8 - k, false) :: post else (sz, true) :: post) as ->
    by by destruct post as [| [s [|]] post].
  destruct (Z.leb_spec (k + 20) (sz - 8)); cbv zeta; [| by split; [| split; [| apply keeps_refl]]].
  destruct (trim_lfree h pre sz post k Hi Hk) as [_ Hlf].
  destruct (heap_at _ _ _ _ _ Hi) as (_ & [Hsz Hszal] & (Hn & _ & _) & _ & Ho & Hoal & _ & Hsum & Hpost).
  rewrite trim_split_eq by (done || lia). split; [done |].
  apply (trimmed_ok h pre sz [] post (sum pre + 8 + k) (sum pre + sz)
           (ram h + first_free 0 (pre ++ (8 + k, true) :: (sz - 8 - k, false) :: post)));
    try done; cbn [sum]; try lia; try zlia.
  - f_equal; f_equal; [f_equal; lia |]. do 2 f_equal. lia.
  - rewrite Hlf. f_equal. lia.
Qed.

Lemma trim_free_next h pre sz s post k :
  heap_inv h (pre ++ (sz, true) :: (s, false) :: post) -> 12 <= k < sz - 8 -> k mod 4 = 0 ->
  let h' := trim_move_next h (ram h + sum pre) (sum pre) (sz - 8) k in
  let bs' := pre ++ trim_block sz k ((s, false) :: post) in
  ram h' = ram h /\ heap_inv h' bs' /\ keeps (hmem h) (hmem h') (ram h) bs'.
Proof.
  intros Hi Hk Hal. destruct (trim_lfree h pre sz _ k Hi Hk) as [Hlf _].
  specialize (Hlf s post eq_refl).
  destruct (heap_at _ _ _ _ _ Hi) as (_ & [Hsz Hszal] & (Hn & _ & _) & Hr & Ho & Hoal & _ & Hsum & Hpost).
  pose proof (hi_adj _ _ Hi) as Hadj. apply naf_app in Hadj as (_ & Hadj & _). cbn in Hadj.
  cbn in Hr. destruct Hr as ([Hs Hsal] & (Hn2 & _ & _) & Hr). destruct (rest_sum _ _ _ _ _ Hr).
  cbv zeta. rewrite (trim_move_eq h (sum pre) sz s k) by (done || lia). split; [done |].
  cbn [trim_block].
  apply (trimmed_ok h pre sz [(s, false)] post (sum pre + 8 + k) (sum pre + sz + s)
           (ram h + first_free 0 (pre ++ (8 + k, true) :: (s + (sz - 8 - k), false) :: post)));
    try done; cbn [sum fst]; try lia; try zlia.
  - repeat constructor.
  - tauto.
  - f_equal; f_equal; [f_equal; lia |]. do 2 f_equal. lia.
  - rewrite Hlf. f_equal. lia.
Qed.

(** Shrinking a block that is in use. *)
Lemma mem_trim_spec h pre sz post n :
  heap_inv h (pre ++ (sz, true) :: post) -> 0 <= n <= 65532 ->
  if sz - 8 <? req_size n then mem_trim h (ram h + sum pre + 8) n = (h, 0)
  else exists h', mem_trim h (ram h + sum pre + 8) n = (h', ram h + sum pre + 8) /\
         ram h' = ram h /\ heap_inv h' (pre ++ trim_block sz (req_size n) post) /\
         keeps (hmem h) (hmem h') (ram h) (pre ++ trim_block sz (req_size n) post).
Proof.
  intros Hi Hb. rewrite (mem_trim_cases _ _ _ _ _ Hi Hb).
  destruct (req_size_bounds n) as (Hk1 & Hk2 & Hk3). set (k := req_size n) in *.
  destruct (Z.ltb_spec (sz - 8) k) as [| Hle]; [done |].
  destruct (Z.eqb_spec k (sz - 8)) as [Hke | Hkn].
  - exists h. split; [done |]. split; [done |].
    assert (trim_block sz k post = (sz, true) :: post) as ->; [| by split; [| apply keeps_refl]].
    unfold trim_block. rewrite (proj2 (Z.leb_gt _ _)) by lia.
    destruct post as [| [s [|]] post]; [done | done |]. by repeat f_equal; lia.
  - eexists. split; [reflexivity |]. unfold m_used.
    destruct (heap_at _ _ _ _ _ Hi) as (_ & _ & _ & Hr & _).
    destruct post as [| [s [|]] post]; cbn in Hr.
    + destruct Hr as (E & _ & Hu). rewrite E, Hu. apply trim_used_next; (done || lia).
    + destruct Hr as (_ & (_ & _ & Hu) & _). rewrite Hu. apply trim_used_next; (done || lia).
    + destruct Hr as (_ & (_ & _ & Hu) & _). rewrite Hu. apply trim_free_next; (done || lia).
Qed.

(** * Theorems *)

Lemma mem_init_inv m s a :
  0 < a < 4294950000 -> st_used s = 0 -> 0 <= st_max s <= 8192 ->
  heap_inv (mem_init m s a) [(8192, false)].
Proof.
  intros Ha Hs Hm. unfold mem_init. cbv zeta.
  assert (LWIP_MEM_ALIGN a = 4 * ((a + 3) / 4)) as ->.
  { unfold LWIP_MEM_ALIGN. rewrite land_lnot_3. replace (a + 4 - 1) with (a + 3) by lia.
    apply u32_id. zlia. }
  set (r := 4 * ((a + 3) / 4)). assert (0 < r /\ r mod 4 = 0) as Hr by (unfold r; zlia).
  clearbody r. split; heap_cbn; unfold MEM_SIZE_ALIGNED; try done.
  - cbn [rest]. split; [done |]. rewrite !Z.add_0_r, !Z.add_0_l.
    split; [unfold hdr; mem_simp; done |]. mem_simp. done.
  - unfold stats_ok. cbn. lia.
Qed.

Definition zero_stats : stats_mem := mkStats 0 0 0 0 0.

(** A heap at address 4100, just initialised. *)
Definition sample_heap : heap := mem_init (fun x => x) zero_stats 4098.

Lemma sample_heap_inv : heap_inv sample_heap [(8192, false)].
Proof.
  split; [split; [reflexivity | reflexivity] | reflexivity | | done | reflexivity | ].
  - cbn [rest]. split; [split; [lia | reflexivity] |].
    split; [split; [vm_compute; reflexivity | split; vm_compute; reflexivity] |].
    split; [reflexivity |]. split; vm_compute; reflexivity.
  - split; [reflexivity |]. cbn. lia.
Qed.

(** What the caller of [mem_malloc] gets from a first fit. *)
Lemma first_fit_region h bs size o bs' :
  heap_inv h bs -> 12 <= size -> first_fit 0 size bs = Some (o, bs') ->
  (ram h + o + 8) mod 4 = 0 /\ 0 <= o /\ o + 8 + size <= 8192 /\
  forall x, ram h + o + 8 <= x < ram h + o + 8 + size ->
    ~ in_used_data (ram h) bs x /\ in_used_data (ram h) bs' x.
Proof.
  intros Hi Hs H. apply first_fit_split in H as (pre & sz & post & -> & -> & Hsz & ->).
  destruct (heap_at _ _ _ _ _ Hi) as (Hseg & _ & _ & Hr & Ho & Hoal & _ & Hsum & Hpost).
  destruct Hi as [[Hram Hra] _ _ Hadj _ _]. rewrite Z.add_0_l.
  split; [zlia |]. split; [done |]. split; [lia |]. intros x Hx.
  destruct (split_block_facts pre sz post size ltac:(lia) Hadj) as (_ & _ & _ & _ & Hin).
  rewrite !in_used_app. cbn. split.
  - intros [Hu | [[? _] | Hu]]; [| done |].
    + rewrite <- (Z.add_0_r (ram h)) in Hu.
      apply (in_used_seg_bounds _ _ _ _ _ _ Hseg) in Hu. lia.
    + rewrite <- Z.add_assoc in Hu. apply (in_used_bounds _ _ _ _ _ _ Hr) in Hu. lia.
  - right. left. apply Hin. lia.
Qed.

(** C5: [mem_malloc] refines first fit.  For every request of 1 to 65532 bytes it
    terminates; it returns NULL and leaves every byte of memory as it was
    exactly when no free block has room, and otherwise returns the aligned data
    area of the first free block that fits (split when the remainder holds a
    block), an area of at least [size] bytes inside the heap that no used block
    owned before, with the heap invariant re-established and the data of every
    used block and all memory outside the heap unchanged. *)
Theorem mem_malloc_first_fit h bs size :
  heap_inv h bs -> 0 < size <= 65532 ->
  exists h' p, mem_malloc h size = Some (h', p) /\
    match first_fit 0 (req_size size) bs with
    | Some (o, bs') =>
        p = ram h + o + 8 /\ p mod 4 = 0 /\ ram h <= p /\ p + size <= ram_end h /\
        (forall x, p <= x < p + size ->
           ~ in_used_data (ram h) bs x /\ in_used_data (ram h) bs' x) /\
        heap_inv h' bs' /\ keeps (hmem h) (hmem h') (ram h) bs
    | None =>
        p = 0 /\ heap_inv h' bs /\ hmem h' = hmem h /\
        Forall (fun b => b.2 = false -> b.1 - 8 < req_size size) bs
    end.
Proof.
  intros Hi Hs. destruct (mem_malloc_spec h bs size Hi Hs) as (h' & p & Hm & H).
  exists h', p. split; [done |]. destruct (req_size_bounds size) as (Hr1 & Hr2 & _).
  destruct (first_fit 0 (req_size size) bs) as [[o bs'] |] eqn:Hf.
  - destruct H as (-> & _ & Hi' & Hk).
    destruct (first_fit_region h bs _ o bs' Hi Hr1 Hf) as (Ha & Ho & Hend & Hx).
    rewrite (hi_end _ _ Hi). split; [done |]. split; [done |]. split; [lia |]. split; [lia |].
    split; [| done]. intros x Hxx. apply Hx. lia.
  - destruct H as (-> & _ & Hi' & Hk). apply first_fit_None in Hf. done.
Qed.

Lemma mem_malloc_first_fit_witness :
  exists h', mem_malloc sample_heap 100 = Some (h', 4108) /\
    heap_inv h' [(108, true); (8084, false)].
Proof.
  destruct (mem_malloc_first_fit sample_heap [(8192, false)] 100 sample_heap_inv ltac:(lia))
    as (h' & p & Hm & H).
  exists h'. change (first_fit 0 (req_size 100) [(8192, false)])
    with (Some (0, [(108, true); (8084, false)])) in H.
  destruct H as (-> & _ & _ & _ & _ & Hi & _). split; [exact Hm | exact Hi].
Defined.

(** C6: [mem_free] refines release with coalescing.  Given the data pointer of a
    used block it marks the block free and joins it with a free successor and a
    free predecessor; the heap invariant holds again (no two adjacent free
    blocks, lowest-free pointer, back links, statistics), and the data of every
    other used block and all memory outside the heap are unchanged. *)
Theorem mem_free_coalesces h pre sz post :
  heap_inv h (pre ++ (sz, true) :: post) ->
  let h' := mem_free h (ram h + sum pre + 8) in
  heap_inv h' (join_prev pre (join_next sz post)) /\
  keeps (hmem h) (hmem h') (ram h) (pre ++ (sz, false) :: post).
Proof.
  intros Hi h'. destruct (mem_free_spec h pre sz post h' Hi eq_refl) as (Hi' & _ & Hk). done.
Qed.

(** Three blocks of which the middle one is in use. *)
Definition sample_heap3 : heap :=
  match mem_malloc sample_heap 100 with
  | Some (h1, a) =>
      match mem_malloc h1 40 with Some (h2, b) => mem_free h2 a | None => h1 end
  | None => sample_heap
  end.

Lemma sample_heap3_inv : heap_inv sample_heap3 [(108, false); (48, true); (8036, false)].
Proof.
  split; [split; [reflexivity | reflexivity] | reflexivity | | done | vm_compute; reflexivity | ].
  - cbn [rest]. repeat (split; [split; [lia | reflexivity] |];
      split; [split; [vm_compute; reflexivity | split; vm_compute; reflexivity] |]).
    split; [reflexivity |]. split; vm_compute; reflexivity.
  - split; [vm_compute; reflexivity |]. split; [vm_compute; reflexivity |]. vm_compute. split; discriminate.
Qed.

Lemma mem_free_coalesces_witness :
  heap_inv (mem_free sample_heap3 (ram sample_heap3 + sum [(108, false)] + 8)) [(8192, false)].
Proof.
  apply (mem_free_coalesces sample_heap3 [(108, false)] 48 [(8036, false)]).
  exact sample_heap3_inv.
Defined.

(** [mem_trim] of a used block to [n] bytes.  A block too small for [n] is
    refused with NULL and nothing changes; otherwise the pointer is returned,
    the block keeps at least [n] bytes with their contents, the space behind it
    goes to the free block that follows or becomes a free block if one fits, and
    the heap invariant and the data of every other used block are preserved. *)
Theorem mem_trim_shrinks h pre sz post n :
  heap_inv h (pre ++ (sz, true) :: post) -> 0 <= n <= 65532 ->
  let p := ram h + sum pre + 8 in
  if sz - 8 <? req_size n then mem_trim h p n = (h, 0)
  else exists h', mem_trim h p n = (h', p) /\
         heap_inv h' (pre ++ trim_block sz (req_size n) post) /\
         keeps (hmem h) (hmem h') (ram h) (pre ++ trim_block sz (req_size n) post) /\
         bytes (hmem h') p (Z.to_nat n) = bytes (hmem h) p (Z.to_nat n).
Proof.
  intros Hi Hn p. pose proof (mem_trim_spec h pre sz post n Hi Hn) as H.
  destruct (Z.ltb_spec (sz - 8) (req_size n)) as [| Hle]; [done |].
  destruct H as (h' & Hm & _ & Hi' & Hk). exists h'. split; [done |]. split; [done |].
  split; [done |]. apply bytes_ext. intros x Hx. apply Hk. left.
  destruct (req_size_bounds n) as (Hr1 & Hr2 & _).
  rewrite in_used_app. right. unfold trim_block, p in *.
  destruct post as [| [s [|]] post]; repeat case_bool; left; (split; [done | lia]).
Qed.

Lemma mem_trim_shrinks_witness :
  exists h', mem_trim sample_heap3 (ram sample_heap3 + sum [(108, false)] + 8) 13 =
    (h', ram sample_heap3 + sum [(108, false)] + 8) /\
    heap_inv h' [(108, false); (24, true); (8060, false)].
Proof.
  destruct (mem_trim_shrinks sample_heap3 [(108, false)] 48 [(8036, false)] 13
              sample_heap3_inv ltac:(lia)) as (h' & Hm & Hi & _).
  exists h'. split; [exact Hm | exact Hi].
Defined.

(** ** The heap as an allocator *)

(** The used blocks as live regions. *)
Fixpoint used_map (base : Z) (bs : list block) : regions :=
  match bs with
  | [] => ∅
  | (sz, u) :: bs =>
      if u then <[base + 8 := sz - 8]> (used_map (base + sz) bs) else used_map (base + sz) bs
  end.

Definition heap_live (h : heap) (L : regions) : Prop :=
  exists bs, heap_inv h bs /\ L = used_map (ram h) bs.

(** A live region is the data area of a used block of the list. *)
Lemma used_map_lookup m r p o bs a n :
  rest m r p o bs ->
  used_map (r + o) bs !! a = Some n <->
  exists pre sz post, bs = pre ++ (sz, true) :: post /\ a = r + o + sum pre + 8 /\ n = sz - 8.
Proof.
  revert p o. induction bs as [| [sz u] bs IH]; intros p o Hr.
  - cbn. rewrite lookup_empty. split; [done |]. intros ([| ? ?] & ? & ? & ? & _); done.
  - cbn in Hr. destruct Hr as ([Hsz _] & _ & Hr). specialize (IH _ _ Hr). rewrite Z.add_assoc in IH.
    assert ((exists pre sz' post, (sz, u) :: bs = pre ++ (sz', true) :: post /\
               a = r + o + sum pre + 8 /\ n = sz' - 8) <->
            (u = true /\ a = r + o + 8 /\ n = sz - 8) \/
            (exists pre sz' post, bs = pre ++ (sz', true) :: post /\
               a = r + o + sz + sum pre + 8 /\ n = sz' - 8)) as ->.
    { split.
      - intros ([| [s0 u0] pre] & sz' & post & E & -> & ->); cbn in E; injection E as -> -> ->.
        + left. cbn. split; [done |]. lia.
        + right. exists pre, sz', post. cbn. split; [done |]. lia.
      - intros [(-> & -> & ->) | (pre & sz' & post & -> & -> & ->)].
        + exists [], sz, bs. cbn. split; [done |]. lia.
        + exists ((sz, u) :: pre), sz', post. cbn. split; [done |]. lia. }
    rewrite <- IH. cbn [used_map]. destruct u; [| by split; [right | intros [(? & _) |]]].
    destruct (decide (a = r + o + 8)) as [-> | Hne].
    + rewrite lookup_insert_eq. split; [intros [= <-]; by left |].
      intros [(_ & _ & ->) | Hin]; [done |]. apply IH in Hin as (pre & sz' & post & -> & E & _).
      apply rest_app in Hr as [Hs _]. pose proof (seg_nonneg _ _ _ _ _ Hs). lia.
    + rewrite lookup_insert_ne by done. split; [by right |]. by intros [(_ & ? & _) | ?].
Qed.

Lemma used_map_lookup0 h bs a n :
  heap_inv h bs -> used_map (ram h) bs !! a = Some n <->
  exists pre sz post, bs = pre ++ (sz, true) :: post /\ a = ram h + sum pre + 8 /\ n = sz - 8.
Proof.
  intros [_ _ Hr _ _ _]. pose proof (used_map_lookup _ _ _ _ _ a n Hr) as H.
  by rewrite Z.add_0_r in H.
Qed.

Lemma used_map_lt m r p o bs a n :
  seg m r p o bs -> used_map (r + o) bs !! a = Some n -> a < r + o + sum bs.
Proof.
  revert p o. induction bs as [| [s u] bs IH]; intros p o Hs Ha; [done |].
  cbn in Hs, Ha. destruct Hs as ([Hsz _] & _ & Hs). pose proof (seg_nonneg _ _ _ _ _ Hs).
  cbn [sum fst].
  assert (used_map (r + o + s) bs !! a = Some n -> a < r + o + (s + sum bs)) as Hin.
  { intros Hb. rewrite <- Z.add_assoc in Hb. apply (IH _ _ Hs) in Hb. lia. }
  destruct u; [| by apply Hin].
  apply lookup_insert_Some in Ha as [[<- _] | [_ Ha]]; [lia | by apply Hin].
Qed.

Lemma in_used_split r bs x :
  in_used_data r bs x <->
  exists pre sz post, bs = pre ++ (sz, true) :: post /\ r + sum pre + 8 <= x < r + sum pre + sz.
Proof.
  revert r. induction bs as [| [sz u] bs IH]; intros r; cbn.
  - split; [done |]. intros ([| ? ?] & ? & ? & ? & _); done.
  - rewrite IH. split.
    + intros [[-> Hx] | (pre & sz' & post & -> & Hx)].
      * exists [], sz, bs. cbn. split; [done | lia].
      * exists ((sz, u) :: pre), sz', post. cbn. split; [done | lia].
    + intros ([| [s0 u0] pre] & sz' & post & E & Hx); cbn in E; injection E as -> -> ->.
      * left. cbn in Hx. split; [done | lia].
      * right. exists pre, sz', post. cbn in Hx. split; [done | lia].
Qed.

Lemma in_region_used h bs x :
  heap_inv h bs -> in_region (used_map (ram h) bs) x <-> in_used_data (ram h) bs x.
Proof.
  intros Hi. rewrite in_used_split. unfold in_region. split.
  - intros (p & n & Hl & Hx). apply (used_map_lookup0 _ _ _ _ Hi) in Hl
      as (pre & sz & post & E & -> & ->). exists pre, sz, post. split; [done | lia].
  - intros (pre & sz & post & E & Hx). exists (ram h + sum pre + 8), (sz - 8).
    split; [| lia]. apply (used_map_lookup0 _ _ _ _ Hi). eauto 6.
Qed.

(** Two blocks of a list are the same or one lies before the other. *)
Lemma split_order m r p o pre1 b1 post1 pre2 b2 post2 :
  rest m r p o (pre1 ++ b1 :: post1) -> pre1 ++ b1 :: post1 = pre2 ++ b2 :: post2 ->
  (pre1 = pre2 /\ b1 = b2) \/ sum pre1 + b1.1 <= sum pre2 \/ sum pre2 + b2.1 <= sum pre1.
Proof.
  revert p o pre2. induction pre1 as [| c pre1 IH]; intros p o [| c2 pre2] Hr E;
    cbn in E; injection E as -> E; cbn [sum fst].
  - by left.
  - right. left. subst post1. destruct c2. cbn in Hr. destruct Hr as (_ & _ & Hr).
    apply rest_app in Hr as [Hs _]. pose proof (seg_nonneg _ _ _ _ _ Hs). cbn. lia.
  - right. right. destruct b2. cbn in Hr. destruct Hr as (_ & _ & Hr).
    apply rest_app in Hr as [Hs _]. pose proof (seg_nonneg _ _ _ _ _ Hs). cbn. lia.
  - destruct c2. cbn in Hr. destruct Hr as (_ & _ & Hr).
    destruct (IH _ _ pre2 Hr E) as [[-> ->] | H]; [by left | right; lia].
Qed.

#[export] Instance heap_regions : LiveRegions heap_live.
Proof.
  split. intros h L (bs & Hi & ->). split.
  - intros a n Ha. apply (used_map_lookup0 _ _ _ _ Hi) in Ha as (pre & sz & post & -> & -> & ->).
    destruct (heap_at _ _ _ _ _ Hi) as (_ & [Hsz _] & _ & _ & Ho & Hoal & _).
    pose proof (hi_ram _ _ Hi) as [Hram Hra].
    split; [lia |]. split; [lia |]. zlia.
  - intros p q n k Hp Hq Hne. apply (used_map_lookup0 _ _ _ _ Hi) in Hp as (pre & sz & post & -> & -> & ->).
    apply (used_map_lookup0 _ _ _ _ Hi) in Hq as (pre2 & sz2 & post2 & E2 & -> & ->).
    destruct (split_order _ _ _ _ _ _ _ _ _ _ (hi_rest _ _ Hi) E2) as [[-> [= ->]] | H]; [done |].
    cbn in H. lia.
Qed.

Lemma used_map_app base a b :
  used_map base (a ++ b) = used_map base a ∪ used_map (base + sum a) b.
Proof.
  revert base. induction a as [| [sz u] a IH]; intros base; cbn.
  - rewrite Z.add_0_r. symmetry. apply (left_id_L ∅ (∪)).
  - rewrite IH, Z.add_assoc. destruct u; [by rewrite insert_union_l | done].
Qed.

(** No region of another block has the address of this one. *)
Lemma used_map_fresh h pre sz u post :
  heap_inv h (pre ++ (sz, u) :: post) ->
  used_map (ram h) pre !! (ram h + sum pre + 8) = None /\
  used_map (ram h + sum pre + sz) post !! (ram h + sum pre + 8) = None.
Proof.
  intros Hi. destruct (heap_at _ _ _ _ _ Hi) as (Hseg & [Hsz _] & _ & Hrp & _). split.
  - destruct (used_map (ram h) pre !! _) as [n |] eqn:Hl; [exfalso | done].
    rewrite <- (Z.add_0_r (ram h)) in Hl. apply (used_map_lt _ _ _ _ _ _ _ Hseg) in Hl. lia.
  - destruct (used_map (ram h + sum pre + sz) post !! _) as [n |] eqn:Hl; [exfalso | done].
    rewrite <- !Z.add_assoc in Hl. apply (used_map_lookup _ _ _ _ _ _ _ Hrp) in Hl
      as (pre2 & sz2 & post2 & -> & E & _).
    apply rest_app in Hrp as [Hs _]. pose proof (seg_nonneg _ _ _ _ _ Hs). lia.
Qed.

Lemma keeps_preserves h h' bs bs' :
  heap_inv h bs -> keeps (hmem h) (hmem h') (ram h) bs' ->
  (forall x, in_used_data (ram h) bs x -> in_used_data (ram h) bs' x) ->
  preserves (hmem h) (hmem h') (used_map (ram h) bs).
Proof.
  intros Hi Hk Hsub x Hx. apply Hk. left. apply Hsub. by apply (in_region_used h bs x Hi).
Qed.

#[export] Instance mem_malloc_allocates size :
  0 < size <= 65532 -> Allocates hmem heap_live (fun h => mem_malloc h size) size.
Proof.
  intros Hs. split. intros h L (bs & Hi & ->).
  destruct (mem_malloc_spec h bs size Hi ltac:(lia)) as (h' & p & Hm & Hres).
  exists h', p. split; [done |].
  destruct (first_fit 0 (req_size size) bs) as [[o bs'] |] eqn:Hf.
  - destruct Hres as (-> & Hram & Hi' & Hk). split; [by eapply keeps_preserves |].
    right. apply first_fit_split in Hf as (pre & sz & post & -> & -> & Hsz & ->).
    destruct (used_map_fresh _ _ _ _ _ Hi) as [Hf1 Hf2].
    destruct (heap_at _ _ _ _ _ Hi) as (_ & _ & _ & _ & Ho & _).
    destruct (req_size_bounds size) as (Hr1 & Hr2 & _).
    pose proof (proj1 (hi_ram _ _ Hi)). split; [lia |].
    exists (used_sum (split_block sz (req_size size)) - 8).
    rewrite Z.add_0_l. rewrite used_map_app. cbn [used_map].
    split; [unfold split_block; case_bool; cbn; lia |].
    split; [by apply lookup_union_None |].
    exists (pre ++ split_block sz (req_size size) ++ post). split; [done |].
    rewrite Hram, used_map_app, insert_union_r by done. f_equal.
    unfold split_block. case_bool; cbn; rewrite ?Z.add_0_r.
    + replace (ram h + sum pre + (8 + req_size size) + (sz - 8 - req_size size))
        with (ram h + sum pre + sz) by lia. done.
    + done.
  - destruct Hres as (-> & Hram & Hi' & Hk). split; [by rewrite Hk |]. left.
    split; [done |]. exists bs. by rewrite Hram.
Qed.

Lemma used_map_join base pre sz post :
  used_map base (join_prev pre (join_next sz post)) =
  used_map base pre ∪ used_map (base + sum pre + sz) post.
Proof.
  assert (forall a, used_map base (a ++ join_next sz post) =
            used_map base a ∪ used_map (base + sum a + sz) post) as Hn.
  { intros a. rewrite used_map_app.
    destruct post as [| [s [|]] post]; cbn; rewrite ?Z.add_assoc; done. }
  assert (exists s p, join_next sz post = (s, false) :: p /\ forall b,
            used_map (b + s) p = used_map (b + sz) post) as (s & p & -> & Hp).
  { destruct post as [| [s [|]] post]; cbn; eexists _, _; (split; [done |]); intros b; try done.
    by rewrite Z.add_assoc. }
  unfold join_prev. destruct pre as [| [s0 u] pre _] using rev_ind; [cbn; rewrite (left_id_L ∅ (∪)), Z.add_0_r; apply Hp |].
  rewrite reverse_snoc. destruct u.
  - rewrite used_map_app. cbn [used_map]. by rewrite Hp.
  - rewrite reverse_involutive, !used_map_app, sum_app. cbn. rewrite Z.add_0_r, (right_id_L ∅ (∪)).
    f_equal. rewrite !Z.add_assoc. apply Hp.
Qed.

#[export] Instance mem_free_releases : Releases hmem heap_live (fun _ => True) mem_free.
Proof.
  split. intros h L p n (bs & Hi & ->) Hp _.
  apply (used_map_lookup0 _ _ _ _ Hi) in Hp as (pre & sz & post & -> & -> & ->).
  destruct (mem_free_spec h pre sz post _ Hi eq_refl) as (Hi' & Hram & Hk).
  destruct (used_map_fresh _ _ _ _ _ Hi) as [Hf1 Hf2].
  assert (delete (ram h + sum pre + 8) (used_map (ram h) (pre ++ (sz, true) :: post)) =
          used_map (ram h) (join_prev pre (join_next sz post))) as ->.
  { rewrite used_map_join, used_map_app, delete_union. cbn [used_map].
    rewrite delete_insert_id by done. f_equal. by apply delete_id. }
  split; [exists (join_prev pre (join_next sz post)); by rewrite Hram |].
  intros x Hx. apply Hk. left.
  rewrite <- Hram in Hx. apply (in_region_used _ _ x Hi') in Hx. rewrite Hram in Hx.
  apply in_used_join in Hx. done.
Qed.

(** ** Client histories *)

(** Writing the data of used blocks does not disturb the heap. *)
Lemma rest_data m m' r p o bs :
  rest m r p o bs ->
  (forall y, r + o <= y < r + 8200 -> ~ in_used_data (r + o) bs y -> ld8 m' y = ld8 m y) ->
  rest m' r p o bs.
Proof.
  revert p o. induction bs as [| [sz u] bs IH]; intros p o; cbn.
  - intros (-> & Hn & Hu) He. rewrite (ld16_ext m m') by (intros; apply He; [lia | tauto]).
    rewrite He by (lia || tauto). done.
  - intros ([Hsz Hal] & Hh & Hr) He. destruct (rest_sum _ _ _ _ _ Hr).
    split; [done |]. split.
    + eapply hdr_ext; [| done]. intros y Hy. apply He; [lia |].
      intros [[_ Hx] | Hx]; [lia |]. rewrite <- Z.add_assoc in Hx. apply (in_used_bounds _ _ _ _ _ _ Hr) in Hx. lia.
    + apply IH; [done |]. intros y Hy Hn. apply He; [lia |]. rewrite Z.add_assoc in Hn.
      intros [[_ Hx] | Hx]; [lia | done].
Qed.

Lemma heap_live_data h U m' :
  heap_live h U ->
  (forall y, ram h <= y < ram h + 8200 -> ~ in_region U y -> ld8 m' y = ld8 (hmem h) y) ->
  heap_live (set_hmem h m') U.
Proof.
  intros (bs & Hi & ->) He. exists bs. split; [| done]. pose proof Hi as [Hram Hend Hr Hadj Hl Hst].
  split; try done. cbn. eapply rest_data; [done |]. intros y Hy1 Hy. apply He; [lia |].
  rewrite (in_region_used h bs y Hi). by rewrite Z.add_0_r in Hy.
Qed.

Lemma heap_live_write h U x v :
  heap_live h U -> in_region U x -> heap_live (set_hmem h (st8 (hmem h) x v)) U.
Proof.
  intros Hl Hx. apply heap_live_data; [done |]. intros y _ Hy. apply ld8_st8_ne. by intros ->.
Qed.

Lemma used_map_trim base sz k post :
  used_map base (trim_block sz k post) =
  <[base + 8 := match trim_block sz k post with (s, _) :: _ => s - 8 | [] => 0 end]>
    (used_map (base + sz) post).
Proof.
  assert (forall s, base + (8 + k) + (s + (sz - 8 - k)) = base + sz + s) as E1 by lia.
  assert (base + (8 + k) + (sz - 8 - k) = base + sz) as E2 by lia.
  unfold trim_block. destruct post as [| [s [|]] post]; repeat case_bool; cbn;
    rewrite ?E1, ?E2; done.
Qed.

(** [mem_trim] of a live region to fewer bytes. *)
Lemma heap_live_trim h U p k n :
  heap_live h U -> U !! p = Some k -> 0 <= n <= k ->
  exists h' k', mem_trim h p n = (h', p) /\ n <= k' /\ heap_live h' (<[p := k']> U) /\
    ram h' = ram h /\
    (forall x, in_region (<[p := k']> U) x \/ x < ram h \/ ram h + 8200 <= x ->
       ld8 (hmem h') x = ld8 (hmem h) x).
Proof.
  intros (bs & Hi & ->) Hp Hn.
  apply (used_map_lookup0 _ _ _ _ Hi) in Hp as (pre & sz & post & -> & -> & ->).
  destruct (heap_at _ _ _ _ _ Hi) as (_ & [Hsz Hal] & _ & _ & Ho & _ & _ & Hsum & Hpost).
  pose proof (mem_trim_spec h pre sz post n Hi ltac:(lia)) as Ht.
  destruct (req_size_bounds n) as (Hr1 & Hr2 & _).
  assert (req_size n <= sz - 8) as Hfit by (unfold req_size; zlia).
  rewrite (proj2 (Z.ltb_ge _ _)) in Ht by done. destruct Ht as (h' & Ht & Hram & Hi' & Hkp).
  destruct (used_map_fresh _ _ _ _ _ Hi) as [Hf1 Hf2].
  set (k' := match trim_block sz (req_size n) post with (s, _) :: _ => s - 8 | [] => 0 end).
  exists h', k'. split; [done |]. split.
  { unfold k', trim_block. destruct post as [| [s [|]] post]; repeat case_bool; lia. }
  assert (<[ram h + sum pre + 8 := k']> (used_map (ram h) (pre ++ (sz, true) :: post))
          = used_map (ram h) (pre ++ trim_block sz (req_size n) post)) as EU.
  { rewrite !used_map_app, insert_union_r by done. f_equal.
    rewrite used_map_trim. cbn [used_map]. by rewrite insert_insert_eq. }
  rewrite EU. split; [eexists; split; [done |]; by rewrite Hram |]. split; [done |].
  intros x Hx. apply Hkp. destruct Hx as [Hx | Hx]; [left | by right].
  rewrite <- Hram in Hx |- *. by apply (in_region_used h' _ x Hi').
Qed.

(** A client of the heap that allocates, trims and releases, and writes only
    inside the bytes it asked for; [L] has the size it asked for of every
    pointer it holds. *)
Inductive history : heap -> regions -> Prop :=
| history_init m s a :
    0 < a < 4294950000 -> st_used s = 0 -> 0 <= st_max s <= 8192 ->
    history (mem_init m s a) ∅
| history_malloc h L size h' p :
    history h L -> 0 < size <= 65532 -> mem_malloc h size = Some (h', p) ->
    history h' (if p =? 0 then L else <[p := size]> L)
| history_free h L p size :
    history h L -> L !! p = Some size -> history (mem_free h p) (delete p L)
| history_trim h L p size n h' q :
    history h L -> L !! p = Some size -> 0 <= n <= size -> mem_trim h p n = (h', q) ->
    history h' (<[p := n]> L)
| history_write h L x v :
    history h L -> in_region L x -> history (set_hmem h (st8 (hmem h) x v)) L.

(** The regions of the client lie in the live regions of the heap. *)
Definition covers (L U : regions) : Prop :=
  forall p, match L !! p, U !! p with
            | Some n, Some k => 0 <= n <= k
            | None, None => True
            | _, _ => False
            end.

Lemma covers_region L U x : covers L U -> in_region L x -> in_region U x.
Proof.
  intros Hc (p & n & Hp & Hx). specialize (Hc p). rewrite Hp in Hc.
  destruct (U !! p) as [k |] eqn:Hk; [| done]. exists p, k. split; [done | lia].
Qed.

Lemma history_live h L : history h L -> exists U, heap_live h U /\ covers L U.
Proof.
  induction 1 as [m s a Ha Hs Hm | h L size h' p _ IH Hs Hm | h L p size _ IH Hp
                 | h L p size n h' q _ IH Hp Hn Ht | h L x v _ IH Hx].
  - exists ∅. split; [| done]. exists [(8192, false)]. split; [| done]. by apply mem_init_inv.
  - destruct IH as (U & Hl & Hc).
    destruct (alloc_spec (Allocates := mem_malloc_allocates size Hs) h U Hl)
      as (a' & q & Hm' & _ & Hres). rewrite Hm in Hm'. injection Hm' as <- <-.
    destruct Hres as [[-> Hl'] | (Hp & n & Hn & Hf & Hl')]; [by exists U |].
    exists (<[p := n]> U). split; [done |]. rewrite (proj2 (Z.eqb_neq _ _)) by done. intros q.
    destruct (decide (q = p)) as [-> | Hne]; [rewrite !lookup_insert_eq; lia |].
    rewrite !lookup_insert_ne by done. apply Hc.
  - destruct IH as (U & Hl & Hc). pose proof (Hc p) as Hcp. rewrite Hp in Hcp.
    destruct (U !! p) as [k |] eqn:Hk; [| done].
    exists (delete p U). split; [exact (proj1 (release_spec h U p k Hl Hk I)) |]. intros q.
    destruct (decide (q = p)) as [-> | Hne]; [by rewrite !lookup_delete_eq |].
    rewrite !lookup_delete_ne by done. apply Hc.
  - destruct IH as (U & Hl & Hc). pose proof (Hc p) as Hcp. rewrite Hp in Hcp.
    destruct (U !! p) as [k |] eqn:Hk; [| done].
    destruct (heap_live_trim h U p k n Hl Hk ltac:(lia)) as (h2 & k' & Ht' & Hk' & Hl' & _).
    rewrite Ht in Ht'. injection Ht' as -> ->. exists (<[p := k']> U). split; [done |]. intros q'.
    destruct (decide (q' = p)) as [-> | Hne]; [rewrite !lookup_insert_eq; lia |].
    rewrite !lookup_insert_ne by done. apply Hc.
  - destruct IH as (U & Hl & Hc). exists U. split; [| done].
    apply heap_live_write; [done | by eapply covers_region].
Qed.

(** A heap with no used block is one free block. *)
Lemma all_free_single h bs :
  heap_inv h bs -> used_map (ram h) bs = ∅ -> bs = [(8192, false)].
Proof.
  intros Hi He. pose proof (hi_adj _ _ Hi) as Hadj. pose proof (hi_rest _ _ Hi) as Hr.
  destruct (rest_sum _ _ _ _ _ Hr) as [Hs _].
  assert (Forall (fun b => b.2 = false) bs) as Hf.
  { apply Forall_forall. intros [sz u] Hin. cbn. destruct u; [exfalso | done].
    apply list_elem_of_split in Hin as (pre & post & E).
    assert (used_map (ram h) bs !! (ram h + sum pre + 8) = Some (sz - 8)) as Hl
      by (apply (used_map_lookup0 _ _ _ _ Hi); eauto 6).
    by rewrite He, lookup_empty in Hl. }
  destruct bs as [| [s1 u1] [| [s2 u2] bs]]; [done | |].
  - inversion Hf as [| ? ? Hu]; subst. cbn in *. subst u1. do 2 f_equal. lia.
  - inversion Hf as [| ? ? Hu1 Hf']; subst. inversion Hf' as [| ? ? Hu2 _]; subst.
    cbn in *. subst. destruct Hadj. done.
Qed.

(** C1: heap safety over client histories.  After [mem_init], let a client make any
    sequence of [mem_malloc] with sizes from 1 to 65532 bytes, of [mem_free] of regions
    that it holds, of [mem_trim] of regions that it holds to a size that is not larger,
    and of writes inside its own regions.  Then the regions it holds are aligned, never
    NULL, inside the heap and pairwise disjoint, the heap invariant holds, and when it has
    released everything the heap is again one free block of all its bytes.  (Larger
    requests wrap around in 16 bits, see [mem_malloc_align_wraps].) *)
Theorem heap_client_safety h L :
  history h L ->
  regions_ok L /\
  (forall p n, L !! p = Some n -> ram h <= p /\ p + n <= ram_end h) /\
  (exists bs, heap_inv h bs /\ (L = ∅ -> bs = [(8192, false)])).
Proof.
  intros Hh. destruct (history_live h L Hh) as (U & Hl & Hc). pose proof (live_ok h U Hl) as [Ho Hd].
  destruct Hl as (bs & Hi & ->).
  assert (forall p n, L !! p = Some n ->
            exists k, used_map (ram h) bs !! p = Some k /\ 0 <= n <= k) as HU.
  { intros p n Hp. specialize (Hc p). rewrite Hp in Hc.
    destruct (used_map (ram h) bs !! p) as [k |]; [eauto | done]. }
  split; [split | split].
  - intros p n Hp. destruct (HU p n Hp) as (k & Hk & ?). destruct (Ho p k Hk) as (? & ? & ?). lia.
  - intros p q n k Hp Hq Hne. destruct (HU p n Hp) as (n' & Hn' & ?).
    destruct (HU q k Hq) as (k' & Hk' & ?). destruct (Hd p q n' k' Hn' Hk' Hne); lia.
  - intros p n Hp. destruct (HU p n Hp) as (k & Hk & ?).
    apply (used_map_lookup0 _ _ _ _ Hi) in Hk as (pre & sz & post & -> & -> & ->).
    destruct (heap_at _ _ _ _ _ Hi) as (_ & _ & _ & _ & ? & _ & _ & ? & ?).
    rewrite (hi_end _ _ Hi). lia.
  - exists bs. split; [done |]. intros ->. apply (all_free_single h); [done |].
    apply map_empty. intros p. specialize (Hc p). rewrite lookup_empty in Hc.
    by destruct (used_map (ram h) bs !! p).
Qed.

Lemma heap_client_safety_witness :
  exists h p, mem_malloc (mem_init (fun x => x) zero_stats 4098) 100 = Some (h, p) /\
    regions_ok {[ p := 100 ]}.
Proof.
  eexists _, 4108. split; [vm_compute; reflexivity |].
  apply (heap_client_safety _ _ (history_malloc _ ∅ 100 _ 4108
    (history_init (fun x => x) zero_stats 4098 ltac:(lia) eq_refl ltac:(cbn; lia)) ltac:(lia) eq_refl)).
Defined.

(** ** Round trip, error paths, width limits *)

Lemma join_split pre sz post size :
  12 <= size <= sz - 8 -> no_adjacent_free (pre ++ (sz, false) :: post) ->
  exists s rest, split_block sz size ++ post = (s, true) :: rest /\
    join_prev pre (join_next s rest) = pre ++ (sz, false) :: post.
Proof.
  intros Hs Hn. apply naf_app in Hn as (_ & Hn & He). cbn in Hn, He. rewrite andb_true_r in He.
  assert (forall r, join_prev pre ((sz, false) :: r) = pre ++ (sz, false) :: r) as Hj.
  { intros r. unfold join_prev. destruct pre as [| [s u] pre _] using rev_ind; [done |].
    rewrite reverse_snoc. rewrite ends_free_snoc in He. by destruct u. }
  unfold split_block. case_bool; cbn; eexists _, _; (split; [done |]).
  - cbn. replace (8 + size + (sz - 8 - size)) with sz by lia. apply Hj.
  - destruct post as [| [s [|]] post]; cbn in *; [apply Hj | apply Hj | by destruct Hn].
Qed.

(** releasing what [mem_malloc] returned restores the blocks exactly: the
    remainder that was split off is joined again, so an allocate-release pair
    does not fragment the heap. *)
Theorem malloc_free_roundtrip h bs size h' p :
  heap_inv h bs -> 0 < size <= 65532 -> mem_malloc h size = Some (h', p) -> p <> 0 ->
  heap_inv (mem_free h' p) bs.
Proof.
  intros Hi Hs Hm Hp. destruct (mem_malloc_spec h bs size Hi Hs) as (h2 & q & Hm2 & Hres).
  rewrite Hm in Hm2. injection Hm2 as <- <-.
  destruct (first_fit 0 (req_size size) bs) as [[o bs'] |] eqn:Hf; [| by destruct Hres].
  destruct Hres as (-> & Hram & Hi' & _).
  apply first_fit_split in Hf as (pre & sz & post & -> & -> & Hsz & ->).
  destruct (req_size_bounds size) as (Hr1 & _ & _).
  destruct (join_split pre sz post (req_size size) ltac:(lia) (hi_adj _ _ Hi)) as (s & r & E & Hj).
  rewrite E in Hi'. rewrite <- Hj, Z.add_0_l, <- Hram.
  by destruct (mem_free_spec h' pre s r _ Hi' eq_refl) as (? & _).
Qed.

Lemma malloc_free_roundtrip_witness :
  exists h' p, mem_malloc sample_heap3 200 = Some (h', p) /\
    heap_inv (mem_free h' p) [(108, false); (48, true); (8036, false)].
Proof.
  eexists _, _. split; [vm_compute; reflexivity |].
  eapply (malloc_free_roundtrip sample_heap3 _ 200); [exact sample_heap3_inv | lia | reflexivity |].
  discriminate.
Defined.

(** the guards of the heap functions.  A request of 0 bytes and any request
    above the heap size give NULL without touching anything; [mem_free] of NULL
    does nothing; [mem_free] and [mem_trim] of a pointer outside the heap only
    count an illegal access. *)
Theorem mem_guards h bs p n :
  heap_inv h bs ->
  mem_malloc h 0 = Some (h, 0) /\
  (8192 < n <= 65532 -> mem_malloc h n = Some (h, 0) /\ mem_trim h p n = (h, 0)) /\
  mem_free h 0 = h /\
  (p <> 0 -> p < ram h \/ ram h + 8192 <= p ->
     mem_free h p = set_stats h (MEM_STATS_INC_illegal (stats h)) /\
     (0 <= n <= 8192 ->
      mem_trim h p n = (set_stats h (MEM_STATS_INC_illegal (stats h)), p))).
Proof.
  intros Hi. split; [done |]. split; [| split; [done |]].
  - intros Hn. assert (8192 < req_size n) as Hr by (unfold req_size; zlia).
    unfold mem_malloc, mem_trim. rewrite (proj2 (Z.eqb_neq n 0)) by lia. cbv zeta.
    rewrite align_size_eq by lia. unfold MEM_SIZE_ALIGNED.
    rewrite (proj2 (Z.ltb_lt _ _)) by done. done.
  - intros Hp Ho. assert ((p <? ram h) || (ram_end h <=? p) = true) as Hb.
    { rewrite (hi_end _ _ Hi). apply orb_true_iff. destruct Ho.
      - left. by apply Z.ltb_lt.
      - right. by apply Z.leb_le. }
    split.
    + unfold mem_free. rewrite (proj2 (Z.eqb_neq p 0)) by done. by rewrite Hb.
    + intros Hn. unfold mem_trim. cbv zeta. rewrite align_size_eq by lia.
      assert (req_size n <= 8192) as Hr by (unfold req_size; zlia). unfold MEM_SIZE_ALIGNED.
      rewrite (proj2 (Z.ltb_ge _ _)) by done. by rewrite Hb.
Qed.

Lemma mem_guards_witness : mem_malloc sample_heap 9000 = Some (sample_heap, 0).
Proof. apply (mem_guards sample_heap _ 5 9000 sample_heap_inv). lia. Defined.

(** the limit of the guards.  The three largest requests a [mem_size_t] can
    express wrap to 0 when they are aligned, so [mem_malloc] serves them with a
    block of 12 bytes instead of refusing them. *)
Theorem mem_malloc_align_wraps h size :
  65533 <= size <= 65535 -> mem_malloc h size = mem_malloc h 12.
Proof.
  intros Hs. unfold mem_malloc. rewrite (proj2 (Z.eqb_neq size 0)) by lia.
  assert (LWIP_MEM_ALIGN_SIZE size = 0) as ->; [| done].
  unfold LWIP_MEM_ALIGN_SIZE. rewrite land_lnot_3. unfold u16. zlia.
Qed.

Lemma mem_malloc_align_wraps_witness :
  mem_malloc sample_heap 65535 = mem_malloc sample_heap 12.
Proof. apply mem_malloc_align_wraps. lia. Defined.

(** [mem_calloc] of a product that fits a [mem_size_t] returns NULL or a fresh
    region of [count * size] zero bytes; the live regions keep their bytes. *)
Theorem mem_calloc_zeroes h U count size :
  heap_live h U -> 0 < count * size <= 65532 ->
  exists h' p, mem_calloc h count size = Some (h', p) /\
    preserves (hmem h) (hmem h') U /\
    ((p = 0 /\ heap_live h' U) \/
     (p <> 0 /\ U !! p = None /\
      (exists n, count * size <= n /\ heap_live h' (<[p := n]> U)) /\
      forall j, 0 <= j < count * size -> ld8 (hmem h') (p + j) = 0)).
Proof.
  intros Hl Hc. unfold mem_calloc. rewrite u16_id, u32_id by lia.
  destruct (alloc_spec (Allocates := mem_malloc_allocates _ Hc) h U Hl) as (h1 & p & Hm & Hk & Hres).
  rewrite Hm. cbn [mbind option_bind].
  destruct Hres as [[-> Hl1] | (Hp & n & Hn & Hf & Hl1)]; [exists h1, 0; auto |].
  rewrite (proj2 (Z.eqb_neq p 0)) by done. cbn [negb].
  destruct (Mylib.memset_correct (hmem h1) p 0 (count * size)) as (m2 & Hm2 & Hz & Hfr); [lia |].
  rewrite Hm2. cbn [mbind option_bind]. eexists _, _. split; [reflexivity |]. cbn.
  pose proof (live_ok h1 _ Hl1) as [Ho Hd]. split.
  - intros x Hx. rewrite <- Hk by done. apply Hfr. intros Hx2. destruct Hx as (q & k & Hq & Hx).
    assert (q <> p) as Hne by congruence.
    destruct (Hd p q n k); [by rewrite lookup_insert_eq | by rewrite lookup_insert_ne | done | lia | lia].
  - right. split; [done |]. split; [done |]. split; [| done].
    exists n. split; [done |]. apply heap_live_data; [done |]. intros y _ Hy. apply Hfr. intros Hin.
    apply Hy. exists p, n. rewrite lookup_insert_eq. split; [done | lia].
Qed.

Lemma mem_calloc_zeroes_witness :
  exists h' p, mem_calloc sample_heap 5 20 = Some (h', p) /\
    preserves (hmem sample_heap) (hmem h') ∅.
Proof.
  destruct (mem_calloc_zeroes sample_heap ∅ 5 20) as (h' & p & H & Hk & _);
    [exists [(8192, false)]; split; [exact sample_heap_inv | reflexivity] | lia |].
  exists h', p. split; [exact H | exact Hk].
Defined.

Lemma rest_end m r p o bs : rest m r p o bs -> ld8 m (r + 8192 + 4) = 1.
Proof.
  revert p o. induction bs as [| [sz u] bs IH]; intros p o; cbn; [tauto |].
  intros (_ & _ & H). by eapply IH.
Qed.

(** [mem_calloc] has no overflow check.  When [count * size] exceeds 65535 the
    request is truncated but [memset] clears all [count * size] bytes from the
    small block on, past the end of the heap: the heap is corrupt. *)
Theorem mem_calloc_overflow h bs count size h1 p :
  heap_inv h bs -> 65536 < count * size < 4294967296 -> 0 < u16 (count * size) <= 65532 ->
  mem_malloc h (u16 (count * size)) = Some (h1, p) -> p <> 0 ->
  exists h', mem_calloc h count size = Some (h', p) /\ ~ exists bs', heap_inv h' bs'.
Proof.
  intros Hi Hc Hu Hm Hp. unfold mem_calloc. rewrite Hm. cbn [mbind option_bind].
  rewrite (proj2 (Z.eqb_neq p 0)) by done. cbn [negb]. rewrite (u32_id (count * size)) by lia.
  destruct (Mylib.memset_correct (hmem h1) p 0 (count * size)) as (m2 & Hm2 & Hz & _); [lia |].
  rewrite Hm2. cbn [mbind option_bind]. eexists. split; [reflexivity |].
  intros (bs' & [_ _ Hr _ _ _]). apply rest_end in Hr. cbn in Hr.
  destruct (mem_malloc_spec h bs _ Hi Hu) as (h2 & q & Hm3 & Hres).
  rewrite Hm in Hm3. injection Hm3 as <- <-.
  destruct (first_fit 0 (req_size (u16 (count * size))) bs) as [[o bs2] |] eqn:Hf;
    [| by destruct Hres].
  destruct Hres as (-> & Hram & _).
  destruct (req_size_bounds (u16 (count * size))) as (Hr1 & _).
  destruct (first_fit_region h bs _ o bs2 Hi Hr1 Hf) as (_ & Ho & Hend & _).
  rewrite Hram in Hr.
  replace (ram h + 8192 + 4) with (ram h + o + 8 + (8188 - o)) in Hr by lia.
  rewrite Hz in Hr by lia. done.
Qed.

Lemma mem_calloc_overflow_witness :
  exists h', mem_calloc sample_heap 256 257 = Some (h', 4108) /\ ~ exists bs', heap_inv h' bs'.
Proof.
  eapply (mem_calloc_overflow sample_heap); [exact sample_heap_inv | lia | cbv; split; congruence |
    vm_compute; reflexivity | discriminate].
Defined.

End Mem.
