(* ===== verification/Memp.v ===== *)
(** The memory pools: src/core/memp.c of lwIP 1.4.1 (MEMP_OVERFLOW_CHECK 0, one
    array for all pools, MEMP_STATS 1).

    The pools of memp_std.h are a list [conf] of element counts and aligned
    element sizes: the sizes are those of the C structures, which the compiler
    lays out, so they are a parameter.  The free elements of a pool form a list
    linked through their first word, in byte memory.  [pools_live] relates a
    state to the elements that are allocated; the pools implement the allocator
    interface. *)

From stdpp Require Import base tactics numbers list gmap.
From Stdlib Require Import ZArith Lia.
From S2P Require Import Prelude Allocator Mem.

Local Open Scope Z_scope.

Module Memp.
Import Mem.

(** The pools of the configuration, in the order of memp_std.h. *)
Inductive memp_t :=
| MEMP_RAW_PCB | MEMP_UDP_PCB | MEMP_TCP_PCB | MEMP_TCP_PCB_LISTEN | MEMP_TCP_SEG
| MEMP_REASSDATA | MEMP_FRAG_PBUF | MEMP_ARP_QUEUE | MEMP_PBUF | MEMP_PBUF_POOL.

#[export] Instance memp_t_eq_dec : EqDecision memp_t.
Proof. solve_decision. Defined.

Definition memp_index (t : memp_t) : nat :=
  match t with
  | MEMP_RAW_PCB => 0 | MEMP_UDP_PCB => 1 | MEMP_TCP_PCB => 2 | MEMP_TCP_PCB_LISTEN => 3
  | MEMP_TCP_SEG => 4 | MEMP_REASSDATA => 5 | MEMP_FRAG_PBUF => 6 | MEMP_ARP_QUEUE => 7
  | MEMP_PBUF => 8 | MEMP_PBUF_POOL => 9
  end.

(** A pool: the number of its elements and their size. *)
Abbreviation pool := (nat * Z)%type.

(** [memp_tab], the statistics and the memory the pools lie in. *)
Record pools := mkPools { pmem : memory; memp_tab : list Z; pstats : list stats_mem }.

(** The inner loop of [memp_init]: the elements of one pool. *)
Fixpoint init_elems (n : nat) (size : Z) (m : memory) (tab memp : Z) : memory * Z * Z :=
  match n with
  | O => (m, tab, memp)
  | S k => init_elems k size (st32 m memp tab) memp (memp + size)
  end.

Fixpoint init_pools (conf : list pool) (m : memory) (memp : Z) : memory * list Z :=
  match conf with
  | [] => (m, [])
  | (num, size) :: conf =>
      let '(m, tab, memp) := init_elems num size m 0 memp in
      let '(m, tabs) := init_pools conf m memp in
      (m, tab :: tabs)
  end.

Definition memp_init (conf : list pool) (m : memory) (memp_memory : Z) (illegal : list Z)
    : pools :=
  let stats := zip_with (fun (c : pool) i => mkStats (Z.of_nat c.1) 0 0 0 i) conf illegal in
  let memp := LWIP_MEM_ALIGN memp_memory in
  let '(m, tabs) := init_pools conf m memp in
  mkPools m tabs stats.

Definition MEMP_STATS_DEC (s : stats_mem) : stats_mem :=
  mkStats (st_avail s) (u16 (st_used s - 1)) (st_max s) (st_err s) (st_illegal s).

(** Returns the element, 0 for NULL; a type that is not a pool gives NULL. *)
Definition memp_malloc (P : pools) (type : nat) : pools * Z :=
  match memp_tab P !! type with
  | None => (P, 0)
  | Some memp =>
      if negb (memp =? 0) then
        (mkPools (pmem P) (<[type := ld32 (pmem P) memp]> (memp_tab P))
           (alter (fun s => MEM_STATS_INC_USED s 1) type (pstats P)), memp)
      else
        (mkPools (pmem P) (memp_tab P) (alter MEM_STATS_INC_err type (pstats P)), memp)
  end.

(** [type] is a pool: the source indexes [memp_tab] without a check. *)
Definition memp_free (P : pools) (type : nat) (mem : Z) : pools :=
  if mem =? 0 then P
  else
    match memp_tab P !! type with
    | None => P
    | Some head =>
        mkPools (st32 (pmem P) mem head) (<[type := mem]> (memp_tab P))
          (alter MEMP_STATS_DEC type (pstats P))
    end.

(** [memp_sanity]: Floyd's search for a cycle in every free list; 0 if it finds
    one. *)
Definition sanity_body (m : memory) (th : Z * Z) : (Z * Z) + Z :=
  let '(t, h) := th in
  if negb (t =? 0) && negb (h =? 0) then
    if t =? h then inr 0
    else
      let hn := ld32 m h in
      let h' := if negb (hn =? 0) && negb (ld32 m hn =? 0) then ld32 m hn else 0 in
      inl (ld32 m t, h')
  else inr 1.

Fixpoint memp_sanity (fuel : nat) (m : memory) (tab : list Z) : option Z :=
  match tab with
  | [] => Some 1
  | t :: tab =>
      if negb (t =? 0) then
        r ← while fuel (sanity_body m) (t, ld32 m t);
        if r =? 0 then Some 0 else memp_sanity fuel m tab
      else memp_sanity fuel m tab
  end.

(** * Layout and free lists *)

Fixpoint elems (base size : Z) (n : nat) : list Z :=
  match n with O => [] | S k => base :: elems (base + size) size k end.

Fixpoint layout (base : Z) (conf : list pool) : list (list Z) :=
  match conf with
  | [] => []
  | (n, size) :: conf => elems base size n :: layout (base + size * Z.of_nat n) conf
  end.

Fixpoint total (conf : list pool) : Z :=
  match conf with [] => 0 | (n, size) :: conf => size * Z.of_nat n + total conf end.

(** Aligned elements that hold the link word, counted in 16 bits. *)
Definition conf_ok (conf : list pool) : Prop :=
  Forall (fun c => 4 <= c.2 /\ c.2 mod 4 = 0 /\ Z.of_nat c.1 < 65536) conf.

Inductive flist (m : memory) : Z -> list Z -> Prop :=
| flist_nil : flist m 0 []
| flist_cons h F : h <> 0 -> flist m (ld32 m h) F -> flist m h (h :: F).

(** One pool: its free list starts at [h] and holds elements of the pool, each
    once; the statistics count the elements that are out. *)
Record pool_ok (m : memory) (c : pool) (E F : list Z) (h : Z) (s : stats_mem) : Prop := {
  po_list : flist m h F;
  po_sub : F ⊆+ E;
  po_avail : st_avail s = Z.of_nat c.1;
  po_used : st_used s = Z.of_nat (length E) - Z.of_nat (length F);
  po_max : st_used s <= st_max s <= st_avail s
}.

(** The pools at [base] with the free lists [Fs]. *)
Record pools_inv (base : Z) (conf : list pool) (P : pools) (Fs : list (list Z)) : Prop := {
  pi_base : 0 < base /\ base mod 4 = 0 /\ base + total conf < 4294967296;
  pi_conf : conf_ok conf;
  pi_len : length (memp_tab P) = length conf;
  pi_pool : forall i c, conf !! i = Some c ->
    exists E F h s, layout base conf !! i = Some E /\ Fs !! i = Some F /\
      memp_tab P !! i = Some h /\ pstats P !! i = Some s /\ pool_ok (pmem P) c E F h s
}.

(** An element of a pool that is not in its free list is live. *)
Definition live_elem (base : Z) (conf : list pool) (Fs : list (list Z)) (e n : Z) : Prop :=
  exists i E F c, layout base conf !! i = Some E /\ Fs !! i = Some F /\ conf !! i = Some c /\
    n = c.2 /\ e ∈ E /\ e ∉ F.

Definition pools_live (base : Z) (conf : list pool) (P : pools) (L : regions) : Prop :=
  exists Fs, pools_inv base conf P Fs /\
    forall e n, L !! e = Some n <-> live_elem base conf Fs e n.

(** * Lemmas on the layout *)

Lemma elems_In b s n e :
  e ∈ elems b s n <-> exists j, (j < n)%nat /\ e = b + s * Z.of_nat j.
Proof.
  revert b. induction n as [| n IH]; intros b; cbn [elems].
  - split; [intros H; by apply not_elem_of_nil in H | intros (j & ? & _); lia].
  - rewrite elem_of_cons, IH. split.
    + intros [-> | (j & Hj & ->)]; [exists 0%nat | exists (S j)]; split; lia.
    + intros ([| j] & Hj & ->); [left; lia | right; exists j; split; lia].
Qed.

Lemma elems_length b s n : length (elems b s n) = n.
Proof. revert b. induction n as [| n IH]; intros b; cbn; [done | by rewrite IH]. Qed.

Lemma elems_NoDup b s n : 0 < s -> NoDup (elems b s n).
Proof.
  intros Hs. revert b. induction n as [| n IH]; intros b; cbn; constructor; [| apply IH].
  rewrite elems_In. intros (j & _ & E). lia.
Qed.

Lemma total_nonneg conf : conf_ok conf -> 0 <= total conf.
Proof.
  induction conf as [| [n s] conf IH]; intros H; cbn; [lia |].
  inversion H as [| ? ? (H1 & _ & _) H']; subst. cbn in H1. specialize (IH H'). lia.
Qed.

(** Every element lies in the array, aligned. *)
Lemma layout_bounds base conf i E c e :
  conf_ok conf -> base mod 4 = 0 -> layout base conf !! i = Some E -> conf !! i = Some c -> e ∈ E ->
  base <= e /\ e + c.2 <= base + total conf /\ e mod 4 = 0.
Proof.
  revert base i. induction conf as [| [n s] conf IH]; intros base i Hok Hb HE Hc He; [done |].
  inversion Hok as [| ? ? (Hs & Ha & _) Hok']; subst. cbn in Hs, Ha.
  pose proof (total_nonneg _ Hok'). cbn [total]. destruct i as [| i]; cbn in HE, Hc.
  - injection HE as <-. injection Hc as <-. apply elems_In in He as (j & Hj & ->). cbn.
    repeat split; [nia | nia |]. rewrite Zplus_mod, Zmult_mod, Ha, Hb. done.
  - destruct (IH (base + s * Z.of_nat n) i Hok') as (H1 & H2 & H3); try done.
    + rewrite Zplus_mod, Zmult_mod, Ha, Hb. done.
    + repeat split; [nia | lia | done].
Qed.

(** Two elements are the same one or do not overlap. *)
Lemma layout_disjoint base conf i j E1 E2 c1 c2 e1 e2 :
  conf_ok conf -> base mod 4 = 0 ->
  layout base conf !! i = Some E1 -> layout base conf !! j = Some E2 ->
  conf !! i = Some c1 -> conf !! j = Some c2 -> e1 ∈ E1 -> e2 ∈ E2 ->
  (i = j /\ e1 = e2) \/ e1 + c1.2 <= e2 \/ e2 + c2.2 <= e1.
Proof.
  revert base i j. induction conf as [| [n s] conf IH]; intros base i j Hok Hb HE1 HE2 Hc1 Hc2 H1 H2;
    [done |].
  inversion Hok as [| ? ? (Hs & Ha & _) Hok']; subst. cbn in Hs, Ha.
  assert ((base + s * Z.of_nat n) mod 4 = 0) as Hb' by (rewrite Zplus_mod, Zmult_mod, Ha, Hb; done).
  assert (forall e, e ∈ elems base s n -> e + s <= base + s * Z.of_nat n) as Hfirst.
  { intros e He. apply elems_In in He as (k & Hk & ->). nia. }
  destruct i as [| i], j as [| j]; cbn in HE1, HE2, Hc1, Hc2.
  - injection HE1 as <-. injection HE2 as <-. injection Hc1 as <-. injection Hc2 as <-. cbn.
    apply elems_In in H1 as (k1 & Hk1 & ->). apply elems_In in H2 as (k2 & Hk2 & ->).
    destruct (Nat.lt_trichotomy k1 k2) as [? | [-> | ?]]; [right; left; nia | by left | right; right; nia].
  - injection HE1 as <-. injection Hc1 as <-.
    destruct (layout_bounds _ _ _ _ _ _ Hok' Hb' HE2 Hc2 H2). specialize (Hfirst _ H1). cbn. lia.
  - injection HE2 as <-. injection Hc2 as <-.
    destruct (layout_bounds _ _ _ _ _ _ Hok' Hb' HE1 Hc1 H1). specialize (Hfirst _ H2). cbn. lia.
  - destruct (IH _ _ _ Hok' Hb' HE1 HE2 Hc1 Hc2 H1 H2) as [[-> ->] | H]; [by left | by right].
Qed.

Lemma layout_NoDup base conf i E c :
  conf_ok conf -> layout base conf !! i = Some E -> conf !! i = Some c -> NoDup E /\ length E = c.1.
Proof.
  revert base i. induction conf as [| [n s] conf IH]; intros base i Hok HE Hc; [done |].
  inversion Hok as [| ? ? (Hs & _ & _) Hok']; subst. cbn in Hs. destruct i as [| i]; cbn in HE, Hc.
  - injection HE as <-. injection Hc as <-. split; [apply elems_NoDup; lia | apply elems_length].
  - by apply (IH (base + s * Z.of_nat n) i).
Qed.

(** * Lemmas on free lists *)

Lemma flist_ext m m' h F :
  flist m h F -> (forall e, e ∈ F -> ld32 m' e = ld32 m e) -> flist m' h F.
Proof.
  induction 1 as [| h F Hh H IH]; intros He; constructor; [done |].
  rewrite He by set_solver. apply IH. intros e Hin. apply He. set_solver.
Qed.

Lemma flist_inv m h F :
  flist m h F -> (h = 0 /\ F = []) \/ (h <> 0 /\ exists F', F = h :: F' /\ flist m (ld32 m h) F').
Proof. destruct 1; [by left | right; eauto]. Qed.

(** * Operations *)

Lemma lookup_insert_alter {A} (l : list A) f i j (x : A) :
  l !! i = Some x -> alter f i l !! j = if decide (i = j) then Some (f x) else l !! j.
Proof.
  intros H. destruct (decide (i = j)) as [<- | Hne].
  - by rewrite list_lookup_alter_eq, H.
  - by rewrite list_lookup_alter_ne.
Qed.

Lemma submseteq_NoDup (F E : list Z) : F ⊆+ E -> NoDup E -> NoDup F.
Proof.
  intros Hs Hn. apply submseteq_Permutation in Hs as [k Hk]. rewrite Hk in Hn.
  by apply NoDup_app in Hn as [? _].
Qed.

Lemma memp_malloc_spec base conf P Fs i c :
  pools_inv base conf P Fs -> conf !! i = Some c ->
  exists P' E F, memp_malloc P i = (P', hd 0 F) /\ pmem P' = pmem P /\
    layout base conf !! i = Some E /\ Fs !! i = Some F /\
    pools_inv base conf P' (<[i := tail F]> Fs) /\ Forall (fun e => e <> 0) F.
Proof.
  intros [Hb Hok Hlen Hp] Hc. destruct (Hp i c Hc) as (E & F & h & s & HE & HF & Hh & Hs & Hpo).
  pose proof Hpo as [Hfl Hsub Hav Hus Hmx].
  destruct (layout_NoDup _ _ _ _ _ Hok HE Hc) as [Hnd HlenE].
  pose proof (submseteq_length _ _ Hsub) as HlenF.
  assert (Z.of_nat c.1 < 65536) as Hc16
    by (by apply (Forall_lookup_1 _ _ _ _ Hok) in Hc as (_ & _ & ?)).
  assert (Forall (fun e => e <> 0) F) as HF0.
  { apply Forall_forall. intros e He.
    assert (e ∈ E) as HeE by (by eapply elem_of_submseteq).
    destruct (layout_bounds _ _ _ _ _ _ Hok (proj1 (proj2 Hb)) HE Hc HeE). lia. }
  unfold memp_malloc. rewrite Hh. destruct (flist_inv _ _ _ Hfl) as [[-> ->] | (Hh0 & F' & -> & Hfl')].
  - cbn [negb Z.eqb]. eexists _, E, []. split; [done |]. split; [done |]. split; [done |].
    split; [done |]. split; [| done]. split; try done. intros j d Hd.
    destruct (Hp j d Hd) as (E' & F' & h' & s' & HE' & HF' & Hh' & Hs' & Hpo').
    destruct (decide (i = j)) as [<- | Hne].
    + rewrite Hc in Hd. injection Hd as <-. exists E, [], 0, (MEM_STATS_INC_err s). cbn.
      rewrite list_lookup_insert_eq by (by eapply lookup_lt_Some).
      rewrite (lookup_insert_alter _ _ _ _ _ Hs), decide_True by done.
      repeat (split; [done |]). split; [constructor | done | done | done | done].
    + exists E', F', h', s'. cbn. rewrite list_lookup_insert_ne by done.
      rewrite (lookup_insert_alter _ _ _ _ _ Hs), decide_False by done. done.
  - apply Z.eqb_neq in Hh0. rewrite Hh0. cbn [negb]. eexists _, E, (h :: F').
    split; [done |]. split; [done |]. split; [done |]. split; [done |]. split; [| done].
    split; try done; [cbn; by rewrite length_insert |]. intros j d Hd. cbn.
    destruct (Hp j d Hd) as (E' & F2 & h' & s' & HE' & HF' & Hh' & Hs' & Hpo').
    destruct (decide (i = j)) as [<- | Hne].
    + rewrite Hc in Hd. injection Hd as <-.
      exists E, F', (ld32 (pmem P) h), (MEM_STATS_INC_USED s 1).
      rewrite !list_lookup_insert_eq by (by eapply lookup_lt_Some).
      rewrite (lookup_insert_alter _ _ _ _ _ Hs), decide_True by done.
      repeat (split; [done |]). cbn [length] in *. split; cbn; [done | | done | |].
      * etrans; [| done]. by apply submseteq_cons.
      * rewrite u16_id by lia. lia.
      * rewrite u16_id by lia. case_bool; lia.
    + exists E', F2, h', s'. rewrite !list_lookup_insert_ne by done.
      rewrite (lookup_insert_alter _ _ _ _ _ Hs), decide_False by done. done.
Qed.

Lemma memp_free_spec base conf P Fs i c E F e :
  pools_inv base conf P Fs -> conf !! i = Some c -> layout base conf !! i = Some E ->
  Fs !! i = Some F -> e ∈ E -> e ∉ F ->
  pools_inv base conf (memp_free P i e) (<[i := e :: F]> Fs) /\
  (forall x, ~ (e <= x < e + 4) -> ld8 (pmem (memp_free P i e)) x = ld8 (pmem P) x).
Proof.
  intros [Hb Hok Hlen Hp] Hc HE HF He HeF.
  destruct (layout_bounds _ _ _ _ _ _ Hok (proj1 (proj2 Hb)) HE Hc He) as (Hlo & Hhi & _).
  destruct (Hp i c Hc) as (E1 & F1 & h & s & HE1 & HF1 & Hh & Hs & [Hfl Hsub Hav Hus Hmx]).
  rewrite HE in HE1. injection HE1 as <-. rewrite HF in HF1. injection HF1 as <-.
  pose proof (Forall_lookup_1 _ _ _ _ Hok Hc) as (Hs4 & _ & Hc16).
  destruct (layout_NoDup _ _ _ _ _ Hok HE Hc) as [HndE HlenE].
  unfold memp_free. rewrite (proj2 (Z.eqb_neq e 0)) by lia. rewrite Hh. cbn [pmem].
  split; [| intros x Hx; by apply ld8_st32_ne].
  assert (0 <= h < 4294967296) as Hh32.
  { destruct (flist_inv _ _ _ Hfl) as [[-> _] | (_ & F' & -> & _)]; [lia |].
    assert (h ∈ E) as HhE by (eapply elem_of_submseteq; [apply elem_of_cons; by left | done]).
    destruct (layout_bounds _ _ _ _ _ _ Hok (proj1 (proj2 Hb)) HE Hc HhE). lia. }
  assert (forall j d E2 F2 h0, conf !! j = Some d -> layout base conf !! j = Some E2 ->
            F2 ⊆+ E2 -> (e ∉ F2) -> flist (pmem P) h0 F2 ->
            flist (st32 (pmem P) e h) h0 F2) as Hkeep.
  { intros j d E2 F2 h0 Hd HE2 Hs2 He2 Hfl2. eapply flist_ext; [done |]. intros x Hx.
    apply ld32_st32_ne. assert (x ∈ E2) as HxE by (by eapply elem_of_submseteq).
    pose proof (Forall_lookup_1 _ _ _ _ Hok Hd) as (Hd4 & _).
    destruct (layout_disjoint _ _ _ _ _ _ _ _ _ _ Hok (proj1 (proj2 Hb)) HE HE2 Hc Hd He HxE)
      as [[_ ->] | H]; [done | lia]. }
  split; try done; [cbn; by rewrite length_insert |]. intros j d Hd. cbn.
  destruct (Hp j d Hd) as (E' & F2 & h' & s' & HE' & HF' & Hh' & Hs' & Hpo').
  destruct (decide (i = j)) as [<- | Hne].
  - rewrite Hc in Hd. injection Hd as <-.
    assert (e :: F ⊆+ E) as Hsub'.
    { apply NoDup_submseteq; [constructor; [done | by eapply submseteq_NoDup] |].
      intros x Hx. apply elem_of_cons in Hx as [-> | Hx]; [done | by eapply elem_of_submseteq]. }
    pose proof (submseteq_length _ _ Hsub') as HlenF. cbn [length] in HlenF.
    exists E, (e :: F), e, (MEMP_STATS_DEC s).
    rewrite !list_lookup_insert_eq by (by eapply lookup_lt_Some).
    rewrite (lookup_insert_alter _ _ _ _ _ Hs), decide_True by done.
    repeat (split; [done |]). split; cbn [length MEMP_STATS_DEC st_avail st_used st_max]; try done.
    + constructor; [lia |]. rewrite ld32_st32 by done. by apply (Hkeep i c E).
    + rewrite u16_id by lia. lia.
    + rewrite u16_id by lia. lia.
  - exists E', F2, h', s'. rewrite !list_lookup_insert_ne by done.
    rewrite (lookup_insert_alter _ _ _ _ _ Hs), decide_False by done.
    repeat (split; [done |]). destruct Hpo' as [Hfl' Hsub' ? ? ?]. split; try done.
    apply (Hkeep j d E'); try done. intros Hin.
    assert (e ∈ E') as HeE' by (by eapply elem_of_submseteq).
    pose proof (Forall_lookup_1 _ _ _ _ Hok Hd) as (Hd4 & _).
    destruct (layout_disjoint _ _ _ _ _ _ _ _ _ _ Hok (proj1 (proj2 Hb)) HE HE' Hc Hd He HeE')
      as [[? _] | H]; [done | lia].
Qed.

(** * Initialisation *)

Lemma init_elems_spec n size m tab memp F m' tab' memp' :
  4 <= size -> 0 < memp -> memp + size * Z.of_nat n < 4294967296 -> 0 <= tab < 4294967296 ->
  flist m tab F -> Forall (fun e => e + 4 <= memp) F ->
  init_elems n size m tab memp = (m', tab', memp') ->
  memp' = memp + size * Z.of_nat n /\ flist m' tab' (reverse (elems memp size n) ++ F) /\
  0 <= tab' < 4294967296 /\
  (forall x, ~ (memp <= x < memp + size * Z.of_nat n) -> ld8 m' x = ld8 m x).
Proof.
  intros Hs. revert m tab memp F. induction n as [| n IH]; intros m tab memp F Hm Hb Ht Hfl HF E; cbn in E.
  - injection E as <- <- <-. cbn. rewrite Z.mul_0_r, Z.add_0_r. done.
  - assert (Forall (fun e => e + 4 <= memp + size) (memp :: F)) as HF'.
    { constructor; [lia |]. eapply Forall_impl; [done |]. intros; cbn in *; lia. }
    destruct (IH (st32 m memp tab) memp (memp + size) (memp :: F)) as (-> & Hfl' & Ht' & Hfr);
      try done; try lia.
    { constructor; [lia |]. rewrite ld32_st32 by done. eapply flist_ext; [done |].
      intros e He. apply ld32_st32_ne. rewrite Forall_forall in HF. specialize (HF e He). cbn in HF. lia. }
    split; [lia |]. split; [| split; [done |]].
    + cbn [elems]. rewrite reverse_cons, <- app_assoc. done.
    + intros x Hx. rewrite Hfr by lia. apply ld8_st32_ne. lia.
Qed.

Lemma init_pools_spec conf m base m' tabs :
  conf_ok conf -> 0 < base -> base + total conf < 4294967296 ->
  init_pools conf m base = (m', tabs) ->
  length tabs = length conf /\
  (forall i E, layout base conf !! i = Some E ->
     exists h, tabs !! i = Some h /\ flist m' h (reverse E)) /\
  (forall x, ~ (base <= x < base + total conf) -> ld8 m' x = ld8 m x).
Proof.
  revert m base tabs. induction conf as [| [n s] conf IH]; intros m base tabs Hok Hb Ht E.
  { cbn in E. injection E as <- <-. by split; [| split]. }
  inversion Hok as [| ? ? (Hs & Ha & _) Hok']; subst. cbn in Hs, Ha, E, Ht.
  pose proof (total_nonneg _ Hok'). assert (0 <= s * Z.of_nat n) by nia.
  destruct (init_elems n s m 0 base) as [[m1 tab] memp] eqn:E1.
  destruct (init_elems_spec n s m 0 base [] m1 tab memp) as (-> & Hfl & _ & Hfr1);
    try done; try lia; [constructor |].
  destruct (init_pools conf m1 (base + s * Z.of_nat n)) as [m2 tabs2] eqn:E2.
  injection E as <- <-. destruct (IH m1 (base + s * Z.of_nat n) tabs2 Hok' ltac:(lia) ltac:(lia) E2) as (Hlen & Hp & Hfr2).
  split; [cbn; by rewrite Hlen |]. split.
  - intros [| i] E HE; cbn in HE; [| by apply Hp]. injection HE as <-. exists tab. split; [done |].
    rewrite app_nil_r in Hfl. eapply flist_ext; [done |]. intros e He.
    apply ld32_ext. intros x Hx. apply Hfr2.
    rewrite elem_of_reverse, elems_In in He. destruct He as (j & Hj & ->). nia.
  - intros x Hx. cbn in Hx. rewrite Hfr2, Hfr1 by lia. done.
Qed.

Lemma layout_lookup base conf i c :
  conf !! i = Some c -> exists E, layout base conf !! i = Some E.
Proof.
  revert base i. induction conf as [| [n s] conf IH]; intros base [| i] Hc; cbn in *; try done; eauto.
Qed.

Lemma layout_align a : 0 < a < 4294967000 ->
  LWIP_MEM_ALIGN a = 4 * ((a + 3) / 4).
Proof.
  intros Ha. unfold LWIP_MEM_ALIGN. rewrite land_lnot_3. replace (a + 4 - 1) with (a + 3) by lia.
  apply u32_id. zlia.
Qed.

Lemma memp_init_inv conf m a illegal :
  conf_ok conf -> 0 < a -> a + 3 + total conf < 4294967000 -> length illegal = length conf ->
  pools_inv (LWIP_MEM_ALIGN a) conf (memp_init conf m a illegal)
    (reverse <$> layout (LWIP_MEM_ALIGN a) conf).
Proof.
  intros Hok Ha Ht Hil. pose proof (total_nonneg _ Hok). rewrite layout_align by lia.
  unfold memp_init. rewrite layout_align by lia.
  set (base := 4 * ((a + 3) / 4)). assert (0 < base /\ base mod 4 = 0 /\ base <= a + 3) as Hb
    by (unfold base; zlia). clearbody base.
  destruct (init_pools conf m base) as [m' tabs] eqn:E.
  destruct (init_pools_spec conf m base m' tabs Hok) as (Hlen & Hp & _); [lia | lia | done |].
  split; try done; try lia. intros i c Hc. destruct (layout_lookup base _ _ _ Hc) as [El HE].
  destruct (Hp i El HE) as (h & Hh & Hfl).
  destruct (lookup_lt_is_Some_2 illegal i) as [il Hi].
  { rewrite Hil. by eapply lookup_lt_Some. }
  exists El, (reverse El), h, (mkStats (Z.of_nat c.1) 0 0 0 il). cbn.
  rewrite list_lookup_fmap, HE. rewrite lookup_zip_with, Hc, Hi. cbn.
  repeat (split; [done |]). destruct (layout_NoDup _ _ _ _ _ Hok HE Hc) as [Hnd Hl].
  split; cbn; [done | | done | rewrite length_reverse; lia | lia].
  by rewrite reverse_Permutation.
Qed.

(** * The pools as an allocator *)

Section allocator.
Context (base : Z) (conf : list pool).

#[export] Instance pools_regions : LiveRegions (pools_live base conf).
Proof.
  split. intros P L (Fs & [Hb Hok _ _] & HL). split.
  - intros p n Hp. apply HL in Hp as (i & E & F & c & HE & _ & Hc & -> & He & _).
    destruct (layout_bounds _ _ _ _ _ _ Hok (proj1 (proj2 Hb)) HE Hc He) as (? & ? & ?).
    pose proof (Forall_lookup_1 _ _ _ _ Hok Hc) as (? & _). lia.
  - intros p q n k Hp Hq Hne. apply HL in Hp as (i & E & F & c & HE & _ & Hc & -> & He & _).
    apply HL in Hq as (j & E2 & F2 & c2 & HE2 & _ & Hc2 & -> & He2 & _).
    destruct (layout_disjoint _ _ _ _ _ _ _ _ _ _ Hok (proj1 (proj2 Hb)) HE HE2 Hc Hc2 He He2)
      as [[_ ->] | ?]; [done | done].
Qed.

(** The pool of an element is determined. *)
Lemma same_pool i j E1 E2 c1 c2 e :
  conf_ok conf -> base mod 4 = 0 ->
  layout base conf !! i = Some E1 -> layout base conf !! j = Some E2 ->
  conf !! i = Some c1 -> conf !! j = Some c2 -> e ∈ E1 -> e ∈ E2 -> i = j.
Proof.
  intros Hok Hb HE1 HE2 Hc1 Hc2 H1 H2.
  destruct (layout_disjoint _ _ _ _ _ _ _ _ _ _ Hok Hb HE1 HE2 Hc1 Hc2 H1 H2) as [[-> _] | H]; [done |].
  pose proof (Forall_lookup_1 _ _ _ _ Hok Hc1) as (? & _).
  pose proof (Forall_lookup_1 _ _ _ _ Hok Hc2) as (? & _). lia.
Qed.

Lemma live_in_pool P Fs i E F c e n :
  pools_inv base conf P Fs -> layout base conf !! i = Some E -> Fs !! i = Some F ->
  conf !! i = Some c -> e ∈ E -> live_elem base conf Fs e n <-> n = c.2 /\ e ∉ F.
Proof.
  intros [Hb Hok _ _] HE HF Hc He. split.
  - intros (j & E2 & F2 & c2 & HE2 & HF2 & Hc2 & -> & He2 & Hf2).
    pose proof (same_pool _ _ _ _ _ _ _ Hok (proj1 (proj2 Hb)) HE HE2 Hc Hc2 He He2) as <-.
    naive_solver.
  - intros [-> Hf]. exists i, E, F, c. done.
Qed.

(** The live elements after the free list of pool [i] became [F']. *)
Lemma live_update P Fs i E F F' c (L L' : regions) :
  pools_inv base conf P Fs -> layout base conf !! i = Some E -> Fs !! i = Some F ->
  conf !! i = Some c ->
  (forall e n, L !! e = Some n <-> live_elem base conf Fs e n) ->
  (forall e n, e ∈ E -> L' !! e = Some n <-> n = c.2 /\ e ∉ F') ->
  (forall e, e ∉ E -> L' !! e = L !! e) ->
  forall e n, L' !! e = Some n <-> live_elem base conf (<[i := F']> Fs) e n.
Proof.
  intros Hi HE HF Hc HL Hin Hout e n. pose proof Hi as [Hb Hok _ _].
  assert (forall j E2 c2, layout base conf !! j = Some E2 -> conf !! j = Some c2 -> e ∈ E -> e ∈ E2 -> i = j)
    as Hsame by (intros j E2 c2 HE2 Hc2 H1 H2;
      exact (same_pool _ _ _ _ _ _ _ Hok (proj1 (proj2 Hb)) HE HE2 Hc Hc2 H1 H2)).
  destruct (decide (e ∈ E)) as [He | He].
  - rewrite (Hin e n He). split.
    + intros [-> Hf]. exists i, E, F', c.
      rewrite list_lookup_insert_eq by (by eapply lookup_lt_Some). done.
    + intros (j & E2 & F2 & c2 & HE2 & HF2 & Hc2 & -> & He2 & Hf2).
      pose proof (Hsame j E2 c2 HE2 Hc2 He He2) as <-.
      rewrite list_lookup_insert_eq in HF2 by (by eapply lookup_lt_Some). naive_solver.
  - rewrite (Hout e He), HL. split; intros (j & E2 & F2 & c2 & HE2 & HF2 & Hc2 & -> & He2 & Hf2);
      exists j, E2, F2, c2; (assert (i <> j) by congruence);
      [rewrite list_lookup_insert_ne by done | rewrite list_lookup_insert_ne in HF2 by done]; done.
Qed.

Lemma memp_malloc_live P L i c :
  pools_live base conf P L -> conf !! i = Some c ->
  exists P' p E, memp_malloc P i = (P', p) /\ pmem P' = pmem P /\ layout base conf !! i = Some E /\
    ((p = 0 /\ pools_live base conf P' L /\ forall e, e ∈ E -> L !! e = Some c.2) \/
     (p <> 0 /\ p ∈ E /\ L !! p = None /\ pools_live base conf P' (<[p := c.2]> L))).
Proof.
  intros (Fs & Hi & HL) Hc.
  destruct (memp_malloc_spec _ _ _ _ _ _ Hi Hc) as (P' & E & F & Hm & Hpm & HE & HF & Hi' & HF0).
  exists P', (hd 0 F), E. split; [done |]. split; [done |]. split; [done |].
  destruct (pi_pool _ _ _ _ Hi i c Hc) as (E1 & F1 & h & s & HE1 & HF1 & _ & _ & [_ Hsub _ _ _]).
  rewrite HE in HE1. injection HE1 as <-. rewrite HF in HF1. injection HF1 as <-.
  destruct (layout_NoDup _ _ _ _ _ (pi_conf _ _ _ _ Hi) HE Hc) as [HndE _].
  pose proof (submseteq_NoDup _ _ Hsub HndE) as HndF.
  assert (forall e n, e ∈ E -> L !! e = Some n <-> n = c.2 /\ e ∉ F) as HLE
    by (intros; rewrite HL; by eapply live_in_pool).
  destruct F as [| p F]; cbn in *.
  - left. split; [done |]. rewrite list_insert_id in Hi' by done. split; [by exists Fs |].
    intros e He. apply HLE; [done |]. split; [done | apply not_elem_of_nil].
  - right. inversion HF0 as [| ? ? Hp0 _]; subst. inversion HndF as [| ? ? HpF _]; subst.
    assert (p ∈ E) as HpE by (eapply elem_of_submseteq; [apply elem_of_cons; by left | done]).
    split; [done |]. split; [done |]. split.
    { destruct (L !! p) as [n |] eqn:Hp; [| done]. apply (HLE p n HpE) in Hp as [_ Hp].
      destruct Hp. apply elem_of_cons. by left. }
    exists (<[i := F]> Fs). split; [done |].
    apply (live_update P Fs i E (p :: F) F c L); try done.
    + intros e n He. destruct (decide (e = p)) as [-> | Hne].
      * rewrite lookup_insert_eq. split; [by intros [= <-] | by intros [-> _]].
      * rewrite lookup_insert_ne by done. rewrite (HLE e n He). set_solver.
    + intros e He. apply lookup_insert_ne. by intros ->.
Qed.

Lemma memp_free_live P L i c E p :
  pools_live base conf P L -> conf !! i = Some c -> layout base conf !! i = Some E ->
  p ∈ E -> L !! p = Some c.2 ->
  pools_live base conf (memp_free P i p) (delete p L) /\
  preserves (pmem P) (pmem (memp_free P i p)) (delete p L).
Proof.
  intros Hl Hc HE Hp HLp. pose proof (live_ok P L Hl) as [_ Hd]. destruct Hl as (Fs & Hi & HL).
  destruct (pi_pool _ _ _ _ Hi i c Hc) as (E1 & F & h & s & HE1 & HF & _ & _ & Hpo).
  rewrite HE in HE1. injection HE1 as <-.
  assert (forall e n, e ∈ E -> L !! e = Some n <-> n = c.2 /\ e ∉ F) as HLE
    by (intros; rewrite HL; by eapply live_in_pool).
  pose proof (proj1 (HLE p c.2 Hp) HLp) as [_ HpF].
  destruct (memp_free_spec _ _ _ _ _ _ _ _ _ Hi Hc HE HF Hp HpF) as [Hi' Hfr].
  pose proof (Forall_lookup_1 _ _ _ _ (pi_conf _ _ _ _ Hi) Hc) as (Hc4 & _).
  split.
  - exists (<[i := p :: F]> Fs). split; [done |].
    apply (live_update P Fs i E F (p :: F) c L); try done.
    + intros e n He. destruct (decide (e = p)) as [-> | Hne].
      * rewrite lookup_delete_eq. split; [done |]. intros [_ []]. apply elem_of_cons. by left.
      * rewrite lookup_delete_ne by done. rewrite (HLE e n He). set_solver.
    + intros e He. apply lookup_delete_ne. by intros ->.
  - intros x (q & k & Hq & Hx). apply lookup_delete_Some in Hq as [Hne Hq]. apply Hfr.
    destruct (Hd p q _ _ HLp Hq Hne); lia.
Qed.

#[export] Instance memp_malloc_allocates i c :
  conf !! i = Some c ->
  Allocates pmem (pools_live base conf) (fun P => Some (memp_malloc P i)) c.2.
Proof.
  intros Hc. split. intros P L Hl.
  destruct (memp_malloc_live P L i c Hl Hc) as (P' & p & E & Hm & Hpm & HE & Hres).
  exists P', p. rewrite Hm, Hpm. split; [done |]. split; [done |].
  destruct Hres as [(-> & Hl' & _) | (Hp & _ & HLp & Hl')]; [by left |].
  right. split; [done |]. by exists c.2.
Qed.

#[export] Instance memp_free_releases i c E :
  conf !! i = Some c -> layout base conf !! i = Some E ->
  Releases pmem (pools_live base conf) (fun p => p ∈ E) (fun P p => memp_free P i p).
Proof.
  intros Hc HE. split. intros P L p n Hl HLp Hp.
  assert (n = c.2) as ->.
  { destruct Hl as (Fs & Hi & HL). apply HL in HLp.
    destruct (pi_pool _ _ _ _ Hi i c Hc) as (E1 & F & h & s & HE1 & HF & _ & _ & Hpo).
    apply (live_in_pool P Fs i E F c) in HLp; try done. by destruct HLp. }
  by eapply memp_free_live.
Qed.

End allocator.

(** * Client histories *)

Section histories.
Context (base : Z) (conf : list pool).

(** Writing the live elements does not disturb the free lists. *)
Lemma pools_live_data P L m' :
  pools_live base conf P L ->
  (forall y, base <= y < base + total conf -> ~ in_region L y -> ld8 m' y = ld8 (pmem P) y) ->
  pools_live base conf (mkPools m' (memp_tab P) (pstats P)) L.
Proof.
  intros (Fs & Hi & HL) He. exists Fs. split; [| done]. pose proof Hi as [Hb Hok Hlen Hp].
  split; try done. intros i c Hc.
  destruct (Hp i c Hc) as (E & F & h & s & HE & HF & Hh & Hs & [Hfl Hsub ? ? ?]).
  exists E, F, h, s. repeat (split; [done |]). split; try done. cbn.
  eapply flist_ext; [done |]. intros e HeF. assert (e ∈ E) as HeE by (by eapply elem_of_submseteq).
  pose proof (Forall_lookup_1 _ _ _ _ Hok Hc) as (Hsz & _).
  destruct (layout_bounds _ _ _ _ _ _ Hok (proj1 (proj2 Hb)) HE Hc HeE) as (Hlo & Hhi & _).
  apply ld32_ext. intros y Hy. apply He; [lia |].
  intros (q & n & Hq & Hx). apply HL in Hq as (j & E2 & F2 & c2 & HE2 & HF2 & Hc2 & -> & Hq2 & HqF).
  destruct (layout_disjoint _ _ _ _ _ _ _ _ _ _ Hok (proj1 (proj2 Hb)) HE HE2 Hc Hc2 HeE Hq2)
    as [[<- <-] | ?]; [| lia]. rewrite HF in HF2. by injection HF2 as <-.
Qed.

(** A client that takes elements from pools, gives them back to the pool they
    came from, and writes only inside elements it holds. *)
Inductive phistory : pools -> regions -> Prop :=
| phistory_init m a illegal :
    conf_ok conf -> 0 < a -> a + 3 + total conf < 4294967000 -> length illegal = length conf ->
    base = LWIP_MEM_ALIGN a -> phistory (memp_init conf m a illegal) ∅
| phistory_malloc P L i c P' p :
    phistory P L -> conf !! i = Some c -> memp_malloc P i = (P', p) ->
    phistory P' (if p =? 0 then L else <[p := c.2]> L)
| phistory_free P L i c E p :
    phistory P L -> conf !! i = Some c -> layout base conf !! i = Some E -> p ∈ E ->
    is_Some (L !! p) -> phistory (memp_free P i p) (delete p L)
| phistory_write P L x v :
    phistory P L -> in_region L x ->
    phistory (mkPools (st8 (pmem P) x v) (memp_tab P) (pstats P)) L.

Lemma phistory_live P L : phistory P L -> pools_live base conf P L.
Proof.
  induction 1 as [m a il Hok Ha Ht Hil -> | P L i c P' p _ IH Hc Hm | P L i c E p _ IH Hc HE Hp [n Hn]
                 | P L x v _ IH Hx].
  - exists (reverse <$> layout (LWIP_MEM_ALIGN a) conf).
    split; [by apply memp_init_inv |]. intros e n. rewrite lookup_empty. split; [done |].
    intros (i & E & F & c & HE & HF & _ & _ & He & HeF). rewrite list_lookup_fmap, HE in HF.
    injection HF as <-. by rewrite elem_of_reverse in HeF.
  - destruct (alloc_spec (Allocates := memp_malloc_allocates base conf i c Hc) P L IH)
      as (P2 & q & Hm' & _ & Hres). rewrite Hm in Hm'. injection Hm' as <- <-.
    destruct Hres as [[-> Hl] | (Hp & n & _ & _ & _)]; [done |].
    destruct (memp_malloc_live base conf P L i c IH Hc) as (P2 & q & E & Hm2 & _ & _ & Hres).
    rewrite Hm in Hm2. injection Hm2 as <- <-.
    destruct Hres as [(-> & _) | (_ & _ & _ & Hl)]; [done |].
    by rewrite (proj2 (Z.eqb_neq _ _)).
  - exact (proj1 (release_spec (Releases := memp_free_releases base conf i c E Hc HE) P L p n IH Hn Hp)).
  - apply pools_live_data; [done |]. intros y _ Hy. apply ld8_st8_ne. by intros ->.
Qed.

(** The live elements of a pool are those missing from its free list. *)
Lemma filter_none (Q : Z -> Prop) `{forall x, Decision (Q x)} (l : list Z) :
  (forall x, x ∈ l -> ~ Q x) -> filter Q l = [].
Proof.
  induction l as [| a l IH]; intros Hn; [done |].
  rewrite filter_cons_False by (apply Hn, elem_of_cons; by left).
  apply IH. intros x Hx. apply Hn, elem_of_cons. by right.
Qed.

Lemma filter_every (Q : Z -> Prop) `{forall x, Decision (Q x)} (l : list Z) :
  (forall x, x ∈ l -> Q x) -> filter Q l = l.
Proof.
  induction l as [| a l IH]; intros Hn; [done |].
  rewrite filter_cons_True by (apply Hn, elem_of_cons; by left).
  f_equal. apply IH. intros x Hx. apply Hn, elem_of_cons. by right.
Qed.

Lemma live_count P Fs (L : regions) i c E F :
  pools_inv base conf P Fs -> (forall e n, L !! e = Some n <-> live_elem base conf Fs e n) ->
  conf !! i = Some c -> layout base conf !! i = Some E -> Fs !! i = Some F -> F ⊆+ E ->
  length (filter (fun e => is_Some (L !! e)) E) = (length E - length F)%nat.
Proof.
  intros Hi HL Hc HE HF Hsub.
  assert (forall e, e ∈ E -> is_Some (L !! e) <-> e ∉ F) as HLE.
  { intros e He. split.
    - intros [n Hn]. apply HL in Hn.
      by apply (live_in_pool base conf P Fs i E F c e n Hi HE HF Hc He) in Hn as [_ ?].
    - intros Hf. exists c.2. apply HL. by apply (live_in_pool base conf P Fs i E F c). }
  destruct (layout_NoDup _ _ _ _ _ (pi_conf _ _ _ _ Hi) HE Hc) as [Hnd _].
  apply submseteq_Permutation in Hsub as [k Hk].
  assert (NoDup (F ++ k)) as Hnd2 by by rewrite <- Hk.
  apply NoDup_app in Hnd2 as (_ & Hdis & _).
  assert (forall e, e ∈ F ++ k -> is_Some (L !! e) <-> e ∉ F) as HLk
    by (intros e He; apply HLE; by rewrite Hk).
  assert (filter (fun e => is_Some (L !! e)) E ≡ₚ filter (fun e => is_Some (L !! e)) (F ++ k)) as Hf
    by by rewrite Hk.
  rewrite (Permutation_length Hf), filter_app, length_app, (Permutation_length Hk), length_app.
  rewrite (filter_none _ F), (filter_every _ k); [cbn; lia | |].
  - intros e He. apply HLk; [apply elem_of_app; by right |]. intros HeF. by apply (Hdis e).
  - intros e He Hs. apply HLk in Hs; [done |]. apply elem_of_app. by left.
Qed.

End histories.

Lemma flist_det m h F1 F2 : flist m h F1 -> flist m h F2 -> F1 = F2.
Proof.
  intros H. revert F2. induction H as [| h F Hh H IH]; intros F2 H2.
  - inversion H2; [done | congruence].
  - inversion H2 as [| h' F' Hh' H']; [congruence |]. f_equal. by apply IH.
Qed.

(** Floyd's search ends with "no cycle" on a free list. *)
Lemma sanity_loop m t Ft h Fh fuel :
  flist m t Ft -> flist m h Fh -> (length Fh < length Ft)%nat \/ h = 0 ->
  (length Ft < fuel)%nat -> while fuel (sanity_body m) (t, h) = Some 1.
Proof.
  revert t Ft h Fh. induction fuel as [| fuel IH]; intros t Ft h Fh Ht Hh Hlt Hf; [lia |].
  rewrite while_S. unfold sanity_body at 1.
  destruct (flist_inv _ _ _ Ht) as [[-> ->] | (Ht0 & Ft' & -> & Ht')]; [done |].
  destruct (flist_inv _ _ _ Hh) as [[-> ->] | (Hh0 & Fh' & -> & Hh')].
  { by rewrite andb_false_r. }
  rewrite (proj2 (Z.eqb_neq t 0)), (proj2 (Z.eqb_neq h 0)) by done. cbn [negb andb].
  cbn [length] in *. destruct Hlt as [Hlt | ?]; [| done].
  destruct (Z.eqb_spec t h) as [-> | Hth].
  { pose proof (flist_det _ _ _ _ Ht Hh) as E. injection E as ->. lia. }
  destruct (flist_inv _ _ _ Hh') as [[E ->] | (Hn0 & Fh2 & -> & Hh2)].
  - rewrite E. cbn [negb Z.eqb andb].
    apply (IH _ Ft' 0 []); [done | constructor | by right | lia].
  - rewrite (proj2 (Z.eqb_neq (ld32 m h) 0)) by done. cbn [negb andb].
    destruct (Z.eqb_spec (ld32 m (ld32 m h)) 0) as [E | Hn2]; cbn [negb].
    + apply (IH _ Ft' 0 []); [done | constructor | by right | lia].
    + apply (IH _ Ft' _ Fh2); [done | done | | lia]. left. cbn in *. lia.
Qed.

Lemma memp_sanity_lists fuel m tab :
  (forall h, h ∈ tab -> exists F, flist m h F /\ (length F < fuel)%nat) ->
  memp_sanity fuel m tab = Some 1.
Proof.
  induction tab as [| t tab IH]; intros Hall; [done |]. cbn [memp_sanity].
  assert (memp_sanity fuel m tab = Some 1) as IH'
    by (apply IH; intros h Hh; apply Hall, elem_of_cons; by right).
  destruct (Hall t) as (F & Hfl & HlenF); [apply elem_of_cons; by left |].
  destruct (flist_inv _ _ _ Hfl) as [[-> _] | (Ht & F' & -> & Hfl')]; [exact IH' |].
  rewrite (proj2 (Z.eqb_neq t 0)) by done. cbn [negb].
  rewrite (sanity_loop _ t (t :: F') _ F'); [exact IH' | done | done | left; cbn; lia | done].
Qed.

(** Every free list is shorter than the largest pool plus one. *)
Lemma pools_inv_lists base conf P Fs h :
  pools_inv base conf P Fs -> h ∈ memp_tab P ->
  exists F, flist (pmem P) h F /\ (length F < S (list_max (fst <$> conf)))%nat.
Proof.
  intros [_ Hok Hlen Hp] Hin. apply list_elem_of_lookup in Hin as [i Hh].
  destruct (lookup_lt_is_Some_2 conf i) as [c Hc].
  { rewrite <- Hlen. by eapply lookup_lt_Some. }
  destruct (Hp i c Hc) as (E & F & h2 & s & HE & HF & Hh2 & Hs & [Hfl Hsub _ _ _]).
  rewrite Hh in Hh2. injection Hh2 as <-. exists F. split; [done |].
  destruct (layout_NoDup _ _ _ _ _ Hok HE Hc) as [_ HE'].
  apply submseteq_length in Hsub. apply list_elem_of_lookup_2 in Hc.
  assert (c.1 <= list_max (fst <$> conf))%nat; [| lia].
  pose proof (proj1 (list_max_le (fst <$> conf) _) (le_n _)) as Hmx.
  rewrite Forall_forall in Hmx. apply Hmx, list_elem_of_fmap. by exists c.
Qed.

(** * Theorems *)

(** C11: pool safety over client histories.  Whatever sequence of [memp_malloc],
    [memp_free] to the right pool and writes inside the elements it holds a
    client makes after [memp_init], the elements it holds are aligned, never
    NULL and pairwise disjoint; each pool's statistics count exactly its
    elements that are out; [memp_malloc] fails exactly when all elements of the
    pool are out, and otherwise returns an element of that pool that nobody
    holds; and the free lists pass [memp_sanity]. *)
Theorem memp_client_safety base conf P L :
  phistory base conf P L ->
  regions_ok L /\
  memp_sanity (S (list_max (fst <$> conf))) (pmem P) (memp_tab P) = Some 1 /\
  (forall i c, conf !! i = Some c ->
     exists E P' p s, layout base conf !! i = Some E /\ length E = c.1 /\
       pstats P !! i = Some s /\
       st_used s = Z.of_nat (length (filter (fun e => is_Some (L !! e)) E)) /\
       memp_malloc P i = (P', p) /\
       ((p = 0 /\ forall e, e ∈ E -> is_Some (L !! e)) \/
        (p ∈ E /\ L !! p = None /\ p <> 0))).
Proof.
  intros Hh. pose proof (phistory_live _ _ _ _ Hh) as Hl. split; [by eapply live_ok |].
  pose proof Hl as (Fs & Hi & HL). split.
  - apply memp_sanity_lists. intros h Hin. by eapply pools_inv_lists.
  - intros i c Hc. destruct (pi_pool _ _ _ _ Hi i c Hc) as (E & F & h & s & HE & HF & _ & Hs & Hpo).
    destruct (memp_malloc_live base conf P L i c Hl Hc) as (P' & p & E' & Hm & _ & HE' & Hres).
    rewrite HE in HE'. injection HE' as <-. exists E, P', p, s. split; [done |].
    split; [by apply (layout_NoDup _ _ _ _ _ (pi_conf _ _ _ _ Hi) HE Hc) |]. split; [done |].
    destruct Hpo as [_ Hsub _ Hus _]. pose proof (submseteq_length _ _ Hsub).
    split; [rewrite Hus, (live_count base conf P Fs L i c E F) by done; lia |]. split; [done |].
    destruct Hres as [(-> & _ & Hall) | (Hp & HpE & HLp & _)].
    + left. split; [done |]. intros e He. eexists. by apply Hall.
    + by right.
Qed.

(** Two pools: three elements of 8 bytes and two of 16. *)
Definition sample_conf : list pool := [(3%nat, 8); (2%nat, 16)].

Lemma memp_client_safety_witness :
  memp_sanity 4 (pmem (memp_init sample_conf (fun x => x) 1001 [0; 0]))
    (memp_tab (memp_init sample_conf (fun x => x) 1001 [0; 0])) = Some 1.
Proof.
  refine (proj1 (proj2 (memp_client_safety 1004 sample_conf _ ∅ _))).
  apply phistory_init; [repeat constructor; cbn; lia | lia | cbn; lia | reflexivity | reflexivity].
Defined.

(** releasing an element and allocating again returns that element: the free
    list is a stack, so a release never loses an element. *)
Theorem memp_free_malloc base conf P L i c E p :
  pools_live base conf P L -> conf !! i = Some c -> layout base conf !! i = Some E ->
  p ∈ E -> L !! p = Some c.2 ->
  exists P', memp_malloc (memp_free P i p) i = (P', p) /\ memp_tab P' = memp_tab P /\
    pools_live base conf P' L.
Proof.
  intros Hl Hc HE Hp HLp.
  destruct (memp_free_live base conf P L i c E p Hl Hc HE Hp HLp) as [Hl2 _].
  destruct (memp_malloc_live base conf _ _ i c Hl2 Hc) as (P' & q & E' & Hm & Hpm & _ & Hres).
  pose proof (ro_region L (live_ok P L Hl) p _ HLp) as (Hp0 & _ & _).
  destruct Hl as (Fs & Hi & HL).
  destruct (pi_pool _ _ _ _ Hi i c Hc) as (E1 & F & h & s & HE1 & HF & Hh & Hs & [Hfl Hsub _ _ _]).
  assert (0 <= h < 4294967296) as Hh32.
  { destruct (flist_inv _ _ _ Hfl) as [[-> _] | (_ & F' & -> & _)]; [lia |].
    assert (h ∈ E1) as HhE by (eapply elem_of_submseteq; [apply elem_of_cons; by left | done]).
    destruct (layout_bounds _ _ _ _ _ _ (pi_conf _ _ _ _ Hi)
      (proj1 (proj2 (pi_base _ _ _ _ Hi))) HE1 Hc HhE).
    pose proof (pi_base _ _ _ _ Hi). pose proof (Forall_lookup_1 _ _ _ _ (pi_conf _ _ _ _ Hi) Hc) as (? & _).
    lia. }
  assert (q = p /\ memp_tab P' = memp_tab P) as [-> Htab].
  { revert Hm. unfold memp_free, memp_malloc. rewrite (proj2 (Z.eqb_neq p 0)) by lia. rewrite Hh. cbn.
    rewrite list_lookup_insert_eq by (by eapply lookup_lt_Some).
    rewrite (proj2 (Z.eqb_neq p 0)) by lia. cbn. intros [= <- <-]. cbn.
    rewrite ld32_st32 by done. rewrite list_insert_insert_eq. by rewrite list_insert_id. }
  exists P'. split; [done |]. split; [done |].
  destruct Hres as [(? & _) | (_ & _ & _ & Hl')]; [lia |].
  by rewrite insert_delete_id in Hl'.
Qed.

(** The pools above with one element of the second pool out. *)
Definition sample_pools : pools := (memp_malloc (memp_init sample_conf (fun x => x) 1001 [0; 0]) 1).1.

Lemma sample_pools_live : pools_live 1004 sample_conf sample_pools {[ 1044 := 16 ]}.
Proof.
  apply phistory_live.
  apply (phistory_malloc 1004 sample_conf (memp_init sample_conf (fun x => x) 1001 [0; 0]) ∅ 1
           (2%nat, 16) sample_pools 1044); [| done | vm_compute; reflexivity].
  apply phistory_init; [repeat constructor; cbn; lia | lia | cbn; lia | reflexivity | reflexivity].
Qed.

Lemma memp_free_malloc_witness :
  exists P', memp_malloc (memp_free sample_pools 1 1044) 1 = (P', 1044).
Proof.
  destruct (memp_free_malloc 1004 sample_conf sample_pools {[ 1044 := 16 ]} 1 (2%nat, 16)
              [1028; 1044] 1044) as (P' & H & _);
    [exact sample_pools_live | reflexivity | reflexivity | set_solver | reflexivity |].
  exists P'. exact H.
Defined.

End Memp.
