(* ===== verification/PbufMem.v ===== *)
(** What pbuf.c uses of the allocators: [MemSystem] has the calls it makes to
    mem.c and memp.c, [MemSystemLaws] what it relies on.  The laws are the
    allocator interface for the heap and for the two pools of pbufs, over one
    memory; the addresses of the pools are fixed, so [ms_pool] says which pool
    an address belongs to. *)

From stdpp Require Import base tactics numbers list gmap.
From Stdlib Require Import ZArith Lia.
From S2P Require Import Prelude Allocator Mem Memp.

Local Open Scope Z_scope.

Class MemSystem (W : Type) := {
  ms_mem : W -> memory;
  ms_set_mem : W -> memory -> W;
  ms_malloc : W -> Z -> option (W * Z);
  ms_free : W -> Z -> W;
  ms_trim : W -> Z -> Z -> W * Z;
  ms_memp_malloc : W -> Memp.memp_t -> W * Z;
  ms_memp_free : W -> Memp.memp_t -> Z -> W
}.

Class MemSystemLaws (W : Type) `{MemSystem W} := {
  ms_live : W -> regions -> Prop;
  ms_pool : Z -> option Memp.memp_t;
  ms_elem : Memp.memp_t -> Z;
  ms_pbuf_elem : 16 <= ms_elem Memp.MEMP_PBUF;
  ms_pool_elem : 1716 <= ms_elem Memp.MEMP_PBUF_POOL;
  ms_regions : LiveRegions ms_live;
  ms_addr : forall w L p n, ms_live w L -> L !! p = Some n -> p + n < 4294967296 /\ n < 65536;
  ms_malloc_law : forall size, 0 < size <= 65532 ->
    Allocates ms_mem ms_live (fun w => ms_malloc w size) size;
  ms_malloc_heap : forall w size w' p, ms_malloc w size = Some (w', p) -> p <> 0 ->
    0 < size <= 65532 -> (exists L, ms_live w L) -> ms_pool p = None;
  ms_free_law : Releases ms_mem ms_live (fun p => ms_pool p = None) ms_free;
  ms_trim_law : forall w L p k n, ms_live w L -> L !! p = Some k -> ms_pool p = None ->
    0 <= n <= k -> exists w' k', ms_trim w p n = (w', p) /\ n <= k' /\
      ms_live w' (<[p := k']> L) /\
      (forall x, in_region (delete p L) x \/ p <= x < p + n -> ld8 (ms_mem w') x = ld8 (ms_mem w) x);
  ms_memp_law : forall t,
    Allocates ms_mem ms_live (fun w => Some (ms_memp_malloc w t)) (ms_elem t);
  ms_memp_pool : forall w t w' p L, ms_live w L -> ms_memp_malloc w t = (w', p) -> p <> 0 ->
    ms_pool p = Some t;
  ms_memp_free_law : forall t,
    Releases ms_mem ms_live (fun p => ms_pool p = Some t) (fun w p => ms_memp_free w t p);
  ms_mem_set : forall w m, ms_mem (ms_set_mem w m) = m;
  ms_data_law : forall w L m, ms_live w L ->
    (forall x, ~ in_region L x -> ld8 m x = ld8 (ms_mem w) x) -> ms_live (ms_set_mem w m) L
}.
