(* ===== verification/World.v ===== *)
(** The memory of the firmware: the heap of mem.c and the pools of memp.c in one
    address space, as an instance of the interface pbuf.c uses.

    [world] has the state of both allocators over one memory.  Its laws hold for
    every placement of the heap and of the pools that does not overlap, given by
    [cfg_ram], [cfg_base] and the table of pools [cfg_conf]. *)

From stdpp Require Import base tactics numbers list gmap.
From Stdlib Require Import ZArith Lia.
From S2P Require Import Prelude Allocator Mem Memp PbufMem.

Local Open Scope Z_scope.

Module World.
Import Mem Memp.

Record world := mkWorld { wheap : heap; wtab : list Z; wpstats : list stats_mem }.

Definition wpools (w : world) : pools := mkPools (hmem (wheap w)) (wtab w) (wpstats w).
Definition put_heap (w : world) (h : heap) : world := mkWorld h (wtab w) (wpstats w).
Definition put_pools (w : world) (P : pools) : world :=
  mkWorld (set_hmem (wheap w) (pmem P)) (memp_tab P) (pstats P).

#[export] Instance world_system : MemSystem world := {
  ms_mem w := hmem (wheap w);
  ms_set_mem w m := put_heap w (set_hmem (wheap w) m);
  ms_malloc w size := '(h, p) ← mem_malloc (wheap w) size; Some (put_heap w h, p);
  ms_free w p := put_heap w (mem_free (wheap w) p);
  ms_trim w p n := let '(h, q) := mem_trim (wheap w) p n in (put_heap w h, q);
  ms_memp_malloc w t := let '(P, p) := memp_malloc (wpools w) (memp_index t) in (put_pools w P, p);
  ms_memp_free w t p := put_pools w (memp_free (wpools w) (memp_index t) p)
}.

(** ** What the heap leaves alone *)

(** Bytes outside the heap. *)
Definition outside (r x : Z) : Prop := x < r \/ r + 8200 <= x.

Lemma malloc_frame h L size h' p :
  heap_live h L -> 0 < size <= 65532 -> mem_malloc h size = Some (h', p) ->
  ram h' = ram h /\ (forall x, outside (ram h) x -> ld8 (hmem h') x = ld8 (hmem h) x).
Proof.
  intros (bs & Hi & _) Hs Hm. destruct (mem_malloc_spec h bs size Hi Hs) as (h1 & p1 & Hm1 & Hres).
  rewrite Hm in Hm1. injection Hm1 as <- <-. destruct (first_fit 0 (req_size size) bs) as [[o bs'] |].
  - destruct Hres as (_ & Hr & _ & Hk). split; [done |]. intros x Hx. apply Hk. by right.
  - destruct Hres as (_ & Hr & _ & ->). done.
Qed.

Lemma free_frame h L p n :
  heap_live h L -> L !! p = Some n ->
  ram (mem_free h p) = ram h /\ (forall x, outside (ram h) x -> ld8 (hmem (mem_free h p)) x = ld8 (hmem h) x).
Proof.
  intros (bs & Hi & ->) Hp. apply (used_map_lookup0 _ _ _ _ Hi) in Hp as (pre & sz & post & -> & -> & ->).
  destruct (mem_free_spec h pre sz post _ Hi eq_refl) as (_ & Hr & Hk). split; [done |].
  intros x Hx. apply Hk. by right.
Qed.

(** Where the live regions of the heap are. *)
Lemma heap_bounds h L p n :
  heap_live h L -> L !! p = Some n -> ram h + 8 <= p /\ p + n <= ram h + 8192 /\ 0 <= n.
Proof.
  intros (bs & Hi & ->) Hp. apply (used_map_lookup0 _ _ _ _ Hi) in Hp as (pre & sz & post & -> & -> & ->).
  destruct (heap_at _ _ _ _ _ Hi) as (_ & [? _] & _ & _ & Ho & _ & _ & Hsum & Hpost). lia.
Qed.

Lemma pool_bounds base conf P L p n :
  pools_live base conf P L -> L !! p = Some n -> base <= p /\ p + n <= base + total conf /\ 4 <= n.
Proof.
  intros (Fs & [Hb Hok _ _] & HL) Hp. apply HL in Hp as (i & E & F & c & HE & _ & Hc & -> & He & _).
  destruct (layout_bounds _ _ _ _ _ _ Hok (proj1 (proj2 Hb)) HE Hc He) as (? & ? & _).
  pose proof (Forall_lookup_1 _ _ _ _ Hok Hc) as (? & _). lia.
Qed.

(** ** Placement *)

Record config := mkConfig { cfg_ram : Z; cfg_base : Z; cfg_conf : list pool }.

Record config_ok (g : config) : Prop := {
  co_apart : cfg_ram g + 8200 <= cfg_base g \/ cfg_base g + total (cfg_conf g) <= cfg_ram g;
  co_addr : cfg_ram g + 8200 < 4294967296;
  co_base : cfg_base g mod 4 = 0;
  co_conf : conf_ok (cfg_conf g);
  co_types : length (cfg_conf g) = 10%nat;
  co_small : Forall (fun c => c.2 < 65536) (cfg_conf g)
}.

Definition all_memp : list memp_t :=
  [MEMP_RAW_PCB; MEMP_UDP_PCB; MEMP_TCP_PCB; MEMP_TCP_PCB_LISTEN; MEMP_TCP_SEG;
   MEMP_REASSDATA; MEMP_FRAG_PBUF; MEMP_ARP_QUEUE; MEMP_PBUF; MEMP_PBUF_POOL].

(** The size and the addresses of the elements of a pool. *)
Definition cfg_elem (g : config) (t : memp_t) : Z :=
  match cfg_conf g !! memp_index t with Some c => c.2 | None => 0 end.
Definition cfg_elems (g : config) (t : memp_t) : list Z :=
  match layout (cfg_base g) (cfg_conf g) !! memp_index t with Some E => E | None => [] end.

(** The pool an address belongs to. *)
Definition cfg_pool (g : config) (p : Z) : option memp_t :=
  head (filter (fun t => p ∈ cfg_elems g t) all_memp).

(** The live regions of both allocators. *)
Definition wlive (g : config) (w : world) (L : regions) : Prop :=
  ram (wheap w) = cfg_ram g /\
  exists LH LP, heap_live (wheap w) LH /\ pools_live (cfg_base g) (cfg_conf g) (wpools w) LP /\ L = LH ∪ LP.

Lemma layout_length base conf : length (layout base conf) = length conf.
Proof. revert base. induction conf as [| [n sz] conf IH]; intros b; cbn; [done | by rewrite IH]. Qed.

Section laws.
Context (g : config) (Hg : config_ok g).

Implicit Types (w : world) (L LH LP : regions).

Lemma memp_conf t :
  exists c E, cfg_conf g !! memp_index t = Some c /\ c.2 = cfg_elem g t /\
    layout (cfg_base g) (cfg_conf g) !! memp_index t = Some E /\ E = cfg_elems g t.
Proof.
  assert (memp_index t < 10)%nat as Hlt by (destruct t; cbn; lia). rewrite <- (co_types g Hg) in Hlt.
  destruct (lookup_lt_is_Some_2 _ _ Hlt) as [c Hc]. rewrite <- (layout_length (cfg_base g)) in Hlt.
  destruct (lookup_lt_is_Some_2 _ _ Hlt) as [E HE]. exists c, E.
  unfold cfg_elem, cfg_elems. by rewrite Hc, HE.
Qed.

Lemma memp_index_inj t u : memp_index t = memp_index u -> t = u.
Proof. by destruct t, u. Qed.

Lemma elems_bounds t p :
  p ∈ cfg_elems g t -> cfg_base g <= p /\ p + cfg_elem g t <= cfg_base g + total (cfg_conf g) /\ 4 <= cfg_elem g t.
Proof.
  destruct (memp_conf t) as (c & E & Hc & <- & HE & <-). intros Hp.
  destruct (layout_bounds _ _ _ _ _ _ (co_conf g Hg) (co_base g Hg) HE Hc Hp) as (? & ? & _).
  pose proof (Forall_lookup_1 _ _ _ _ (co_conf g Hg) Hc) as (? & _). lia.
Qed.

Lemma cfg_pool_spec p t : cfg_pool g p = Some t <-> p ∈ cfg_elems g t.
Proof.
  assert (forall u, p ∈ cfg_elems g t -> p ∈ cfg_elems g u -> t = u) as Huniq.
  { intros u Ht Hu. apply memp_index_inj. destruct (memp_conf t) as (c & E & Hc & _ & HE & EE).
    destruct (memp_conf u) as (c' & E' & Hc' & _ & HE' & EE').
    eapply (same_pool (cfg_base g) (cfg_conf g) _ _ E E' c c' p (co_conf g Hg) (co_base g Hg));
      try done; congruence. }
  assert (t ∈ all_memp) as Hall by (unfold all_memp; rewrite !elem_of_cons; destruct t; tauto).
  unfold cfg_pool. split.
  - intros Hh. assert (t ∈ filter (fun t => p ∈ cfg_elems g t) all_memp) as Hin.
    { destruct (filter _ _); [done |]. cbn in Hh. injection Hh as ->. apply elem_of_cons. by left. }
    by apply list_elem_of_filter in Hin as [? _].
  - intros Hp. destruct (filter _ all_memp) as [| u l] eqn:Hf.
    + exfalso. apply (not_elem_of_nil t). rewrite <- Hf. by apply list_elem_of_filter.
    + cbn. f_equal. symmetry. apply Huniq; [done |].
      assert (u ∈ filter (fun t => p ∈ cfg_elems g t) all_memp) as Hu by (rewrite Hf; by apply elem_of_cons; left).
      by apply list_elem_of_filter in Hu as [? _].
Qed.

(** The regions of the two allocators do not meet. *)
Lemma apart w LH LP p n q k :
  ram (wheap w) = cfg_ram g -> heap_live (wheap w) LH ->
  pools_live (cfg_base g) (cfg_conf g) (wpools w) LP ->
  LH !! p = Some n -> LP !! q = Some k -> p + n <= q \/ q + k <= p.
Proof.
  intros Hr Hh Hp Hlp Hlq. destruct (heap_bounds _ _ _ _ Hh Hlp). destruct (pool_bounds _ _ _ _ _ _ Hp Hlq).
  pose proof (co_apart g Hg). lia.
Qed.

(** The areas: every heap region lies in the heap and every element in the
    array of the pools, which do not overlap. *)
Lemma heap_area w LH x :
  ram (wheap w) = cfg_ram g -> heap_live (wheap w) LH -> in_region LH x ->
  cfg_ram g <= x < cfg_ram g + 8200 /\ ~ (cfg_base g <= x < cfg_base g + total (cfg_conf g)).
Proof.
  intros Hr Hh (p & n & Hp & Hx). destruct (heap_bounds _ _ _ _ Hh Hp). pose proof (co_apart g Hg). lia.
Qed.

Lemma pool_area P LP x :
  pools_live (cfg_base g) (cfg_conf g) P LP -> in_region LP x ->
  cfg_base g <= x < cfg_base g + total (cfg_conf g) /\ outside (cfg_ram g) x.
Proof.
  intros Hp (p & n & Hl & Hx). destruct (pool_bounds _ _ _ _ _ _ Hp Hl). pose proof (co_apart g Hg).
  unfold outside. lia.
Qed.

Lemma in_region_union LH LP x :
  LH ##ₘ LP -> in_region (LH ∪ LP) x <-> in_region LH x \/ in_region LP x.
Proof.
  intros Hd. split.
  - intros (p & n & Hp & Hx). apply lookup_union_Some in Hp as [Hp | Hp]; [| | done].
    + left. by exists p, n.
    + right. by exists p, n.
  - intros [(p & n & Hp & Hx) | (p & n & Hp & Hx)]; exists p, n; (split; [| done]);
      apply lookup_union_Some; auto.
Qed.

Lemma apart_disjoint w LH LP :
  ram (wheap w) = cfg_ram g -> heap_live (wheap w) LH ->
  pools_live (cfg_base g) (cfg_conf g) (wpools w) LP -> LH ##ₘ LP.
Proof.
  intros Hr Hh Hp. apply map_disjoint_spec. intros p n k Hn Hk.
  destruct (heap_bounds _ _ _ _ Hh Hn). destruct (pool_bounds _ _ _ _ _ _ Hp Hk) as (? & ? & ?).
  pose proof (live_ok (LiveRegions := heap_regions) _ _ Hh) as [Hro _]. destruct (Hro p n Hn).
  pose proof (co_apart g Hg). lia.
Qed.

(** Changes outside the heap and changes outside the pools. *)
Lemma heap_moved h LH m :
  ram h = cfg_ram g -> heap_live h LH -> (forall x, ~ outside (cfg_ram g) x -> ld8 m x = ld8 (hmem h) x) ->
  heap_live (set_hmem h m) LH.
Proof.
  intros Hr Hh He. apply heap_live_data; [done |]. intros y Hy _. apply He. unfold outside. lia.
Qed.

Lemma pools_moved P LP m :
  pools_live (cfg_base g) (cfg_conf g) P LP -> (forall x, outside (cfg_ram g) x -> ld8 m x = ld8 (pmem P) x) ->
  pools_live (cfg_base g) (cfg_conf g) (mkPools m (memp_tab P) (pstats P)) LP.
Proof.
  intros Hp He. apply pools_live_data; [done |]. intros y Hy _. apply He. pose proof (co_apart g Hg).
  unfold outside. lia.
Qed.

Lemma pools_beside w LP h :
  pools_live (cfg_base g) (cfg_conf g) (wpools w) LP ->
  (forall x, outside (cfg_ram g) x -> ld8 (hmem h) x = ld8 (hmem (wheap w)) x) ->
  pools_live (cfg_base g) (cfg_conf g) (wpools (put_heap w h)) LP.
Proof. exact (pools_moved (wpools w) LP (hmem h)). Qed.

Lemma wlive_ok w L : wlive g w L -> regions_ok L.
Proof.
  intros (Hr & LH & LP & Hh & Hp & ->). pose proof (apart_disjoint _ _ _ Hr Hh Hp) as Hd.
  destruct (live_ok (LiveRegions := heap_regions) _ _ Hh) as [Hro Hdis].
  destruct (live_ok (LiveRegions := pools_regions (cfg_base g) (cfg_conf g)) _ _ Hp) as [Hro' Hdis']. split.
  - intros p n Hl. apply lookup_union_Some in Hl as [Hl | Hl]; [by apply Hro | by apply Hro' | done].
  - intros p q n k Hlp Hlq Hne. apply lookup_union_Some in Hlp; [| done]. apply lookup_union_Some in Hlq; [| done].
    destruct Hlp as [Hlp | Hlp], Hlq as [Hlq | Hlq]; eauto.
    + by eapply apart.
    + pose proof (apart _ _ _ _ _ _ _ Hr Hh Hp Hlq Hlp). lia.
Qed.

(** Which allocator a live region belongs to. *)
Lemma heap_pool_None w LH p n :
  ram (wheap w) = cfg_ram g -> heap_live (wheap w) LH -> LH !! p = Some n -> cfg_pool g p = None.
Proof.
  intros Hr Hh Hp. destruct (cfg_pool g p) as [t |] eqn:Ht; [exfalso | done].
  apply cfg_pool_spec in Ht. destruct (elems_bounds _ _ Ht). destruct (heap_bounds _ _ _ _ Hh Hp).
  pose proof (co_apart g Hg). lia.
Qed.

Lemma index_memp i : (i < 10)%nat -> exists t, memp_index t = i.
Proof.
  intros Hi. destruct (lookup_lt_is_Some_2 all_memp i Hi) as [t Ht]. exists t. clear Hi.
  do 10 (destruct i as [| i]; [by injection Ht as <- |]). done.
Qed.

Lemma pools_pool_Some P LP p n :
  pools_live (cfg_base g) (cfg_conf g) P LP -> LP !! p = Some n ->
  exists t, cfg_pool g p = Some t /\ n = cfg_elem g t.
Proof.
  intros (Fs & Hi & HL) Hp. apply HL in Hp as (i & E & F & c & HE & _ & Hc & -> & He & _).
  destruct (index_memp i) as [t <-].
  { rewrite <- (co_types g Hg). by eapply lookup_lt_Some. }
  exists t. destruct (memp_conf t) as (c' & E' & Hc' & <- & HE' & EE). split.
  - apply cfg_pool_spec. congruence.
  - congruence.
Qed.

(** ** The laws *)

Lemma set_hmem_id h : set_hmem h (hmem h) = h.
Proof. by destruct h. Qed.

Lemma world_malloc size :
  0 < size <= 65532 -> Allocates ms_mem (wlive g) (fun w => ms_malloc w size) size.
Proof.
  intros Hs. split. intros w L (Hr & LH & LP & Hh & Hp & ->). pose proof (apart_disjoint _ _ _ Hr Hh Hp) as Hd.
  destruct (alloc_spec (Allocates := mem_malloc_allocates size Hs) _ _ Hh) as (h & p & Hm & Hpr & Hres).
  destruct (malloc_frame _ _ _ _ _ Hh Hs Hm) as [Hr' Hfr]. rewrite Hr in Hr', Hfr.
  assert (pools_live (cfg_base g) (cfg_conf g) (wpools (put_heap w h)) LP) as Hp' by by apply pools_beside.
  exists (put_heap w h), p. cbn. rewrite Hm. cbn. split; [done |]. split.
  { intros x Hx. apply in_region_union in Hx as [Hx | Hx]; [by apply Hpr | | done].
    apply Hfr. by apply (pool_area _ _ _ Hp Hx). }
  destruct Hres as [[-> Hl] | (Hp0 & n & Hn & HL & Hl)]; [left; split; [done |]; split; [done |]; by exists LH, LP |].
  right. split; [done |]. exists n. split; [done |].
  assert (LP !! p = None) as HLP.
  { destruct (LP !! p) as [k |] eqn:Hk; [exfalso | done].
    assert (cfg_pool g p = None) by (by eapply (heap_pool_None (put_heap w h)); [| exact Hl | apply lookup_insert_eq]).
    destruct (pools_pool_Some _ _ _ _ Hp Hk) as (t & Ht & _). congruence. }
  split; [by apply lookup_union_None |]. split; [done |]. exists (<[p := n]> LH), LP.
  split; [done |]. split; [done |]. by rewrite insert_union_l.
Qed.

Lemma world_malloc_heap w size w' p :
  ms_malloc w size = Some (w', p) -> p <> 0 -> 0 < size <= 65532 -> (exists L, wlive g w L) -> cfg_pool g p = None.
Proof.
  intros Hm Hp Hs (L & Hr & LH & LP & Hh & Hpl & ->).
  destruct (alloc_spec (Allocates := mem_malloc_allocates size Hs) _ _ Hh) as (h & q & Hq & _ & Hres).
  destruct (malloc_frame _ _ _ _ _ Hh Hs Hq) as [Hr' _]. cbn in Hm. rewrite Hq in Hm. cbn in Hm. injection Hm as <- ->.
  destruct Hres as [[-> _] | (_ & n & _ & _ & Hl)]; [done |].
  eapply (heap_pool_None (put_heap w h)); [cbn; congruence | exact Hl | apply lookup_insert_eq].
Qed.

(** A live region that no pool has is the heap's. *)
Lemma live_heap w LH LP p n :
  ram (wheap w) = cfg_ram g -> heap_live (wheap w) LH -> pools_live (cfg_base g) (cfg_conf g) (wpools w) LP ->
  (LH ∪ LP) !! p = Some n -> cfg_pool g p = None -> LH !! p = Some n /\ LP !! p = None.
Proof.
  intros Hr Hh Hp Hl Hno. pose proof (apart_disjoint _ _ _ Hr Hh Hp) as Hd.
  apply lookup_union_Some in Hl as [Hl | Hl]; [| | done].
  - split; [done |]. by eapply map_disjoint_Some_l.
  - destruct (pools_pool_Some _ _ _ _ Hp Hl) as (t & Ht & _). congruence.
Qed.

Lemma world_free : Releases ms_mem (wlive g) (fun p => cfg_pool g p = None) ms_free.
Proof.
  split. intros w L p n (Hr & LH & LP & Hh & Hp & ->) Hl Hno. pose proof (apart_disjoint _ _ _ Hr Hh Hp) as Hd.
  destruct (live_heap _ _ _ _ _ Hr Hh Hp Hl Hno) as [HLH HLP].
  destruct (release_spec (Releases := mem_free_releases) _ _ _ _ Hh HLH I) as [Hh' Hpr].
  destruct (free_frame _ _ _ _ Hh HLH) as [Hr' Hfr]. rewrite Hr in Hr', Hfr.
  rewrite delete_union, (delete_id LP) by done. split.
  - split; [done |]. exists (delete p LH), LP. split; [done |]. split; [by apply pools_beside | done].
  - intros x Hx. apply in_region_union in Hx as [Hx | Hx]; [by apply Hpr | | by apply map_disjoint_delete_l].
    apply Hfr. by apply (pool_area _ _ _ Hp Hx).
Qed.

Lemma world_trim w L p k n :
  wlive g w L -> L !! p = Some k -> cfg_pool g p = None -> 0 <= n <= k ->
  exists w' k', ms_trim w p n = (w', p) /\ n <= k' /\ wlive g w' (<[p := k']> L) /\
    (forall x, in_region (delete p L) x \/ p <= x < p + n -> ld8 (ms_mem w') x = ld8 (ms_mem w) x).
Proof.
  intros (Hr & LH & LP & Hh & Hp & ->) Hl Hno Hn. pose proof (apart_disjoint _ _ _ Hr Hh Hp) as Hd.
  destruct (live_heap _ _ _ _ _ Hr Hh Hp Hl Hno) as [HLH HLP].
  destruct (heap_live_trim _ _ _ _ _ Hh HLH Hn) as (h & k' & Ht & Hk' & Hh' & Hr' & Hkeep). rewrite Hr in Hr', Hkeep.
  exists (put_heap w h), k'. cbn. rewrite Ht. split; [done |]. split; [done |]. split.
  - split; [done |]. exists (<[p := k']> LH), LP. split; [done |].
    split; [apply pools_beside; [done |]; intros x Hx; apply Hkeep; by right | by rewrite insert_union_l].
  - intros x Hx. apply Hkeep. destruct Hx as [Hx | Hx].
    + rewrite delete_union, (delete_id LP) in Hx by done.
      apply in_region_union in Hx as [Hx | Hx]; [left | right; by apply (pool_area _ _ _ Hp Hx) | by apply map_disjoint_delete_l].
      destruct Hx as (q & j & Hq & Hx). apply lookup_delete_Some in Hq as [Hne Hq]. exists q, j.
      by rewrite lookup_insert_ne.
    + left. exists p, k'. rewrite lookup_insert_eq. split; [done | lia].
Qed.

Lemma world_memp t : Allocates ms_mem (wlive g) (fun w => Some (ms_memp_malloc w t)) (cfg_elem g t).
Proof.
  split. intros w L (Hr & LH & LP & Hh & Hp & ->). pose proof (apart_disjoint _ _ _ Hr Hh Hp) as Hd.
  destruct (memp_conf t) as (c & E & Hc & <- & HE & EE).
  destruct (memp_malloc_live _ _ _ _ _ _ Hp Hc) as (P & p & E' & Hm & Hpm & HE' & Hres).
  cbn. rewrite Hm. exists (put_pools w P), p. split; [done |]. cbn. rewrite Hpm. split; [apply preserves_refl |].
  assert (heap_live (wheap (put_pools w P)) LH) as Hh' by (cbn; rewrite Hpm; cbn; by rewrite set_hmem_id).
  assert (wpools (put_pools w P) = P) as EP by by destruct P.
  destruct Hres as [(-> & Hp' & _) | (Hp0 & Hin & HLP & Hp')].
  - left. split; [done |]. split; [done |]. exists LH, LP. by rewrite EP.
  - right. split; [done |]. exists c.2. split; [done |].
    assert (LH !! p = None) as HLH.
    { destruct (LH !! p) as [k |] eqn:Hk; [exfalso | done].
      pose proof (heap_pool_None _ _ _ _ Hr Hh Hk) as Hno.
      assert (p ∈ cfg_elems g t) as Hel by congruence. apply cfg_pool_spec in Hel. congruence. }
    split; [by apply lookup_union_None |]. split; [done |]. exists LH, (<[p := c.2]> LP).
    rewrite EP. split; [done |]. split; [done |]. by rewrite insert_union_r.
Qed.

Lemma world_memp_pool w t w' p L :
  wlive g w L -> ms_memp_malloc w t = (w', p) -> p <> 0 -> cfg_pool g p = Some t.
Proof.
  intros (Hr & LH & LP & Hh & Hp & ->) Hm Hp0. destruct (memp_conf t) as (c & E & Hc & _ & HE & EE).
  destruct (memp_malloc_live _ _ _ _ _ _ Hp Hc) as (P & q & E' & Hm' & _ & HE' & Hres).
  cbn in Hm. rewrite Hm' in Hm. injection Hm as _ ->.
  destruct Hres as [(-> & _) | (_ & Hin & _)]; [done |]. apply cfg_pool_spec. congruence.
Qed.

Lemma world_memp_free t :
  Releases ms_mem (wlive g) (fun p => cfg_pool g p = Some t) (fun w p => ms_memp_free w t p).
Proof.
  split. intros w L p n (Hr & LH & LP & Hh & Hp & ->) Hl Ht. pose proof (apart_disjoint _ _ _ Hr Hh Hp) as Hd.
  assert (LP !! p = Some n /\ LH !! p = None) as [HLP HLH].
  { apply lookup_union_Some in Hl as [Hl | Hl]; [| | done].
    - pose proof (heap_pool_None _ _ _ _ Hr Hh Hl). congruence.
    - split; [done |]. by eapply map_disjoint_Some_r. }
  destruct (memp_conf t) as (c & E & Hc & Hsz & HE & EE). apply cfg_pool_spec in Ht.
  assert (p ∈ E) as HpE by congruence.
  destruct (release_spec (Releases := memp_free_releases _ _ _ c E Hc HE) _ _ _ _ Hp HLP HpE) as [Hp' Hpr].
  set (P := memp_free (wpools w) (memp_index t) p) in *.
  assert (forall x, ~ (p <= x < p + 4) -> ld8 (pmem P) x = ld8 (hmem (wheap w)) x) as Hfr.
  { intros x Hx. unfold P, memp_free. case_bool; [done |]. destruct (memp_tab _ !! _); [| done]. cbn.
    by apply ld8_st32_ne. }
  destruct (elems_bounds _ _ Ht) as (Hlo & Hhi & H4). rewrite delete_union, (delete_id LH) by done. cbn. fold P.
  assert (wpools (put_pools w P) = P) as EP by by destruct P.
  split.
  - split; [done |]. exists LH, (delete p LP). rewrite EP. split; [| done].
    apply heap_moved; [done | done |]. intros x Hx. apply Hfr. pose proof (co_apart g Hg). unfold outside in Hx. lia.
  - intros x Hx. apply in_region_union in Hx as [Hx | Hx]; [| by apply Hpr | by apply map_disjoint_delete_r].
    apply Hfr. destruct (heap_area _ _ _ Hr Hh Hx). lia.
Qed.

Lemma world_data w L m :
  wlive g w L -> (forall x, ~ in_region L x -> ld8 m x = ld8 (ms_mem w) x) -> wlive g (ms_set_mem w m) L.
Proof.
  intros (Hr & LH & LP & Hh & Hp & ->) He. pose proof (apart_disjoint _ _ _ Hr Hh Hp) as Hd.
  split; [done |]. exists LH, LP. split; [| split; [| done]].
  - apply heap_live_data; [done |]. intros y Hy Hn. apply He. intros Hx.
    apply in_region_union in Hx as [Hx | Hx]; [done | | done].
    apply (pool_area _ _ _ Hp) in Hx as [_ Hx]. unfold outside in Hx. lia.
  - refine (pools_live_data _ _ (wpools w) LP m Hp _). intros y Hy Hn. apply He. intros Hx.
    apply in_region_union in Hx as [Hx | Hx]; [| done | done].
    apply (heap_area _ _ _ Hr Hh) in Hx as [_ Hx]. lia.
Qed.

Lemma world_addr w L p n : wlive g w L -> L !! p = Some n -> p + n < 4294967296 /\ n < 65536.
Proof.
  intros (Hr & LH & LP & Hh & Hp & ->) Hl. pose proof (co_addr g Hg).
  apply lookup_union_Some in Hl as [Hl | Hl]; [| | by eapply apart_disjoint].
  - pose proof (heap_bounds _ _ _ _ Hh Hl). pose proof Hh as (bs & Hi & _).
    destruct (hi_ram _ _ Hi). lia.
  - pose proof (pool_bounds _ _ _ _ _ _ Hp Hl). destruct (pools_pool_Some _ _ _ _ Hp Hl) as (t & _ & ->).
    destruct Hp as (Fs & [Hb _ _ _] & _). destruct (memp_conf t) as (c & E & Hc & Hsz & _).
    pose proof (Forall_lookup_1 _ _ _ _ (co_small g Hg) Hc) as Hs. cbn in Hs. lia.
Qed.

(** The heap and the pools keep what pbuf.c relies on. *)
#[export] Instance world_laws
    (Hpbuf : 16 <= cfg_elem g MEMP_PBUF) (Hpool : 1716 <= cfg_elem g MEMP_PBUF_POOL) :
  MemSystemLaws world := {|
    ms_live := wlive g;
    ms_pool := cfg_pool g;
    ms_elem := cfg_elem g;
    ms_pbuf_elem := Hpbuf;
    ms_pool_elem := Hpool;
    ms_regions := {| live_ok := wlive_ok |};
    ms_addr := world_addr;
    ms_malloc_law := world_malloc;
    ms_malloc_heap := world_malloc_heap;
    ms_free_law := world_free;
    ms_trim_law := world_trim;
    ms_memp_law := world_memp;
    ms_memp_pool := world_memp_pool;
    ms_memp_free_law := world_memp_free;
    ms_mem_set := fun w m => eq_refl;
    ms_data_law := world_data
  |}.

End laws.

(** ** Initialisation *)

(** The memory part of [lwip_init]: [mem_init] and then [memp_init]. *)
Definition lwip_init_memory (m : memory) (st : stats_mem) (ram_heap memp_memory : Z)
    (conf : list pool) (illegal : list Z) : world :=
  let h := mem_init m st ram_heap in
  let P := memp_init conf (hmem h) memp_memory illegal in
  mkWorld (set_hmem h (pmem P)) (memp_tab P) (pstats P).

Lemma lwip_init_memory_live g m st ram_heap memp_memory illegal :
  config_ok g -> cfg_ram g = LWIP_MEM_ALIGN ram_heap -> cfg_base g = LWIP_MEM_ALIGN memp_memory ->
  0 < ram_heap < 4294950000 -> st_used st = 0 -> 0 <= st_max st <= 8192 ->
  0 < memp_memory -> memp_memory + 3 + total (cfg_conf g) < 4294967000 ->
  length illegal = length (cfg_conf g) ->
  wlive g (lwip_init_memory m st ram_heap memp_memory (cfg_conf g) illegal) ∅.
Proof.
  intros Hg Er Eb Hr Hst Hmx Hb Ht Hil. unfold lwip_init_memory. split; [by rewrite Er |]. exists ∅, ∅.
  pose proof (mem_init_inv m st ram_heap Hr Hst Hmx) as Hi. set (h := mem_init m st ram_heap) in *.
  pose proof (memp_init_inv (cfg_conf g) (hmem h) memp_memory illegal (co_conf g Hg) Hb Ht Hil) as Hp.
  split; [| split; [| by rewrite (left_id_L ∅ (∪))]].
  - apply (heap_moved g); [by rewrite Er | by exists [(8192, false)] |].
    intros x Hx. unfold memp_init. destruct (init_pools _ _ _) as [m' tabs] eqn:E. cbn.
    pose proof (total_nonneg _ (co_conf g Hg)). rewrite <- Eb in E.
    assert (0 < cfg_base g /\ cfg_base g <= memp_memory + 3) as [Hb1 Hb2].
    { rewrite Eb, layout_align by lia. zlia. }
    eapply init_pools_spec; [apply (co_conf g Hg) | exact Hb1 | lia | exact E |].
    pose proof (co_apart g Hg). unfold outside in Hx. lia.
  - exists (reverse <$> layout (cfg_base g) (cfg_conf g)). rewrite <- Eb in Hp. split.
    + by destruct (memp_init _ _ _ _).
    + intros e n. rewrite lookup_empty. split; [done |].
      intros (i & E & F & c & HE & HF & _ & _ & He & HeF). rewrite list_lookup_fmap, HE in HF.
      injection HF as <-. by rewrite elem_of_reverse in HeF.
Qed.

(** A placement with three pool pbufs, two pbufs for references and one element
    of each of the other pools. *)
Definition sample_cfg : config :=
  mkConfig 4100 16384
    [(1%nat, 4); (1%nat, 4); (1%nat, 4); (1%nat, 4); (1%nat, 4); (1%nat, 4); (1%nat, 4); (1%nat, 4);
     (2%nat, 16); (3%nat, 1716)].

Lemma sample_cfg_ok : config_ok sample_cfg.
Proof.
  split; cbn; try lia; try done; repeat constructor; cbn; lia.
Qed.

Definition sample_world : world :=
  lwip_init_memory (fun _ => 0) zero_stats 4098 16384 (cfg_conf sample_cfg) (replicate 10 0).

Lemma sample_world_live : wlive sample_cfg sample_world ∅.
Proof.
  apply lwip_init_memory_live; try done; try (cbn; lia). exact sample_cfg_ok.
Qed.

Definition sample_laws : MemSystemLaws world :=
  world_laws sample_cfg sample_cfg_ok ltac:(cbn; lia) ltac:(cbn; lia).

End World.
