(* ===== verification/Pbuf.v ===== *)
(** Packet buffers: src/core/pbuf.c of lwIP 1.4.1.

    The state is the memory system, the store of live pbufs and the flag that
    asks for out-of-sequence segments to be freed.  A function that dereferences
    a pointer to no live pbuf has the result [None].  The bytes of a [struct
    pbuf] are its entry in the store, not bytes of memory; its payload is bytes
    of memory.  [pbuf_alloc] leaves [flags] of the first pool pbuf unset until
    the chain is complete: [stale] is the byte that happens to be there.
    [custom_free] stands for the [custom_free_function] of a custom pbuf. *)

From stdpp Require Import base tactics numbers list gmap.
From Stdlib Require Import ZArith Lia.
From S2P Require Import Prelude PbufDefs Mylib Allocator Mem Memp PbufMem.

Local Open Scope Z_scope.

Module Pbuf.
Import Mem Memp.

Definition SIZEOF_STRUCT_PBUF : Z := 16.
Definition PBUF_POOL_BUFSIZE_ALIGNED : Z := 1700.
Definition PBUF_LINK_HLEN : Z := 14.
Definition PBUF_IP_HLEN : Z := 20.
Definition PBUF_TRANSPORT_HLEN : Z := 20.

(** [LWIP_MEM_ALIGN_SIZE] in an [int] expression. *)
Definition align_int (size : Z) : Z := Z.land (size + 4 - 1) (Z.lnot 3).

Record pstate (W : Type) := mkPstate {
  pw : W; pst : pstore; ooseq_pending : Z }.
Arguments mkPstate {W}. Arguments pw {W}. Arguments pst {W}. Arguments ooseq_pending {W}.

Section operations.
Context {W : Type} `{MemSystem W}.
Context (stale : Z -> Z) (custom_free : pstate W -> Z -> option (pstate W)).

Implicit Type s : pstate W.

Definition set_pw s (w : W) : pstate W := mkPstate w (pst s) (ooseq_pending s).
Definition set_pst s (st : pstore) : pstate W := mkPstate (pw s) st (ooseq_pending s).
Definition set_pending s (x : Z) : pstate W := mkPstate (pw s) (pst s) x.
Definition mem_of s : memory := ms_mem (pw s).
Definition set_mem s (m : memory) : pstate W := set_pw s (ms_set_mem (pw s) m).

(** Assigning a field of a live pbuf. *)
Definition update s (p : Z) (f : pbuf -> pbuf) : option (pstate W) :=
  b ← pst s !! p; Some (set_pst s (<[p := f b]> (pst s))).

Definition pbuf_pool_is_empty s : pstate W := set_pending s 1.

Definition layer_offset (layer : pbuf_layer) : Z :=
  match layer with
  | PBUF_TRANSPORT => PBUF_LINK_HLEN + PBUF_IP_HLEN + PBUF_TRANSPORT_HLEN
  | PBUF_IP => PBUF_LINK_HLEN + PBUF_IP_HLEN
  | PBUF_LINK => PBUF_LINK_HLEN
  | PBUF_RAW => 0
  end.

(** ** pbuf_free *)

(** Returning the memory of a pbuf whose last reference is gone. *)
Definition pbuf_dealloc s (p : Z) (b : pbuf) : option (pstate W) :=
  if negb (Z.land (flags b) PBUF_FLAG_IS_CUSTOM =? 0) then custom_free s p
  else
    let w :=
      match type b with
      | PBUF_POOL => ms_memp_free (pw s) MEMP_PBUF_POOL p
      | PBUF_ROM | PBUF_REF => ms_memp_free (pw s) MEMP_PBUF p
      | PBUF_RAM => ms_free (pw s) p
      end in
    Some (set_pst (set_pw s w) (delete p (pst s))).

(** One iteration: the state, the pbuf and the count. *)
Definition free_body (x : pstate W * Z * Z) : (pstate W * Z * Z) + option (pstate W * Z) :=
  let '(s, p, count) := x in
  if p =? 0 then inr (Some (s, count))
  else
    match pst s !! p with
    | None => inr None
    | Some b =>
        let r := u16 (ref b - 1) in
        let b := set_ref b r in
        let s := set_pst s (<[p := b]> (pst s)) in
        if r =? 0 then
          let q := next b in
          match pbuf_dealloc s p b with
          | None => inr None
          | Some s => inl (s, q, u8 (count + 1))
          end
        else inl (s, 0, count)
    end.

Definition pbuf_free s (p : Z) : option (pstate W * Z) :=
  if p =? 0 then Some (s, 0)
  else mjoin (while (S (S (size (pst s)))) free_body (s, p, 0)).

(** ** pbuf_alloc *)

(** The tail of a PBUF_POOL chain behind [r]: the loop that allocates [rem_len]
    more bytes, [p] being the head to free on failure. *)
Definition pool_body (p : Z) (x : pstate W * Z * Z)
    : (pstate W * Z * Z) + option (pstate W * Z) :=
  let '(s, r, rem_len) := x in
  if 0 <? rem_len then
    let '(w, q) := ms_memp_malloc (pw s) MEMP_PBUF_POOL in
    let s := set_pw s w in
    if q =? 0 then
      let s := pbuf_pool_is_empty s in
      match pbuf_free s p with
      | None => inr None
      | Some (s, _) => inr (Some (s, 0))
      end
    else
      match update s r (fun b => set_next b q) with
      | None => inr None
      | Some s =>
          let l := Z.min (u16 rem_len) PBUF_POOL_BUFSIZE_ALIGNED in
          let b := mkPbuf 0 (q + SIZEOF_STRUCT_PBUF) (u16 rem_len) l PBUF_POOL 0 1 in
          inl (set_pst s (<[q := b]> (pst s)), q, rem_len - l)
      end
  else inr (Some (s, p)).

Definition alloc_pool s (offset length : Z) : option (pstate W * Z) :=
  let '(w, p) := ms_memp_malloc (pw s) MEMP_PBUF_POOL in
  let s := set_pw s w in
  if p =? 0 then Some (pbuf_pool_is_empty s, 0)
  else
    let l := Z.min length (PBUF_POOL_BUFSIZE_ALIGNED - align_int offset) in
    let b := mkPbuf 0 (LWIP_MEM_ALIGN (p + (SIZEOF_STRUCT_PBUF + offset))) length l
               PBUF_POOL (stale p) 1 in
    let s := set_pst s (<[p := b]> (pst s)) in
    mjoin (while (S (Z.to_nat length)) (pool_body p) (s, p, length - l)).

Definition alloc_ram s (offset length : Z) : option (pstate W * Z) :=
  '(w, p) ← ms_malloc (pw s)
              (u16 (align_int (SIZEOF_STRUCT_PBUF + offset) + align_int length));
  let s := set_pw s w in
  if p =? 0 then Some (s, 0)
  else
    let b := mkPbuf 0 (LWIP_MEM_ALIGN (p + SIZEOF_STRUCT_PBUF + offset)) length length
               PBUF_RAM (stale p) 1 in
    Some (set_pst s (<[p := b]> (pst s)), p).

Definition alloc_ref s (length : Z) (ty : pbuf_type) : option (pstate W * Z) :=
  let '(w, p) := ms_memp_malloc (pw s) MEMP_PBUF in
  let s := set_pw s w in
  if p =? 0 then Some (s, 0)
  else
    let b := mkPbuf 0 0 length length ty (stale p) 1 in
    Some (set_pst s (<[p := b]> (pst s)), p).

(** Returns the pbuf, 0 for NULL. *)
Definition pbuf_alloc s (layer : pbuf_layer) (length : Z) (ty : pbuf_type)
    : option (pstate W * Z) :=
  let offset := layer_offset layer in
  '(s, p) ← match ty with
            | PBUF_POOL => alloc_pool s offset length
            | PBUF_RAM => alloc_ram s offset length
            | PBUF_ROM | PBUF_REF => alloc_ref s length ty
            end;
  if p =? 0 then Some (s, 0)
  else
    s ← update s p (fun b => set_flags (set_ref b 1) 0);
    Some (s, p).

(** A custom pbuf in memory the caller provides. *)
Definition pbuf_alloced_custom s (l : pbuf_layer) (length : Z) (ty : pbuf_type)
    (p payload_mem payload_mem_len : Z) : pstate W * Z :=
  let offset := layer_offset l in
  if payload_mem_len <? align_int offset + length then (s, 0)
  else
    let pl := if negb (payload_mem =? 0) then payload_mem + align_int offset else 0 in
    (set_pst s (<[p := mkPbuf 0 pl length length ty PBUF_FLAG_IS_CUSTOM 1]> (pst s)), p).

(** ** pbuf_realloc *)

Definition realloc_body (grow : Z) (x : pstate W * Z * Z)
    : (pstate W * Z * Z) + option (pstate W * Z * Z) :=
  let '(s, q, rem_len) := x in
  match pst s !! q with
  | None => inr None
  | Some b =>
      if len b <? rem_len then
        let rem_len := u16 (rem_len - len b) in
        let b := set_tot_len b (u16 (tot_len b + u16 grow)) in
        inl (set_pst s (<[q := b]> (pst s)), next b, rem_len)
      else inr (Some (s, q, rem_len))
  end.

Definition pbuf_realloc s (p new_len : Z) : option (pstate W) :=
  b ← pst s !! p;
  if tot_len b <=? new_len then Some s
  else
    let grow := new_len - tot_len b in
    '(s, q, rem_len) ← mjoin (while (S (size (pst s))) (realloc_body grow) (s, p, new_len));
    b ← pst s !! q;
    let '(s, q) :=
      if bool_decide (type b = PBUF_RAM) && negb (rem_len =? len b) then
        let '(w, q) := ms_trim (pw s) q (u16 (u16 (payload b - q) + rem_len)) in
        (set_pw s w, q)
      else (s, q) in
    b ← pst s !! q;
    let b := set_tot_len (set_len b rem_len) rem_len in
    let s := set_pst s (<[q := b]> (pst s)) in
    s ← (if negb (next b =? 0) then '(s, _) ← pbuf_free s (next b); Some s else Some s);
    update s q (fun b => set_next b 0).

(** ** pbuf_header *)

Definition pbuf_header s (p header_size_increment : Z) : option (pstate W * Z) :=
  if (header_size_increment =? 0) || (p =? 0) then Some (s, 0)
  else
    b ← pst s !! p;
    let increment_magnitude :=
      u16 (if header_size_increment <? 0 then - header_size_increment else header_size_increment) in
    if (header_size_increment <? 0) && (len b <? increment_magnitude) then Some (s, 1)
    else
      let moved := payload b - header_size_increment in
      let ok :=
        match type b with
        | PBUF_RAM | PBUF_POOL => negb (moved <? p + SIZEOF_STRUCT_PBUF)
        | PBUF_REF | PBUF_ROM => (header_size_increment <? 0) && (increment_magnitude <=? len b)
        end in
      if ok then
        let b := set_payload b moved in
        let b := set_len b (u16 (len b + header_size_increment)) in
        let b := set_tot_len b (u16 (tot_len b + header_size_increment)) in
        Some (set_pst s (<[p := b]> (pst s)), 0)
      else Some (s, 1).

(** ** Chains: clen, ref, cat, chain, dechain *)

Definition pbuf_clen s (p : Z) : option Z :=
  mjoin (while (S (size (pst s)))
    (fun '(len, p) =>
       if p =? 0 then inr (Some len)
       else match pst s !! p with
            | None => inr None
            | Some b => inl (u8 (len + 1), next b)
            end)
    (0, p)).

Definition pbuf_ref s (p : Z) : option (pstate W) :=
  if negb (p =? 0) then update s p (fun b => set_ref b (u16 (ref b + 1))) else Some s.

Definition cat_body (t : Z) (x : pstate W * Z) : (pstate W * Z) + option (pstate W * Z) :=
  let '(s, p) := x in
  match pst s !! p, pst s !! t with
  | Some b, Some bt =>
      if next b =? 0 then inr (Some (s, p))
      else
        let b := set_tot_len b (u16 (tot_len b + tot_len bt)) in
        inl (set_pst s (<[p := b]> (pst s)), next b)
  | _, _ => inr None
  end.

Definition pbuf_cat s (h t : Z) : option (pstate W) :=
  if (h =? 0) || (t =? 0) then Some s
  else
    '(s, p) ← mjoin (while (S (size (pst s))) (cat_body t) (s, h));
    bt ← pst s !! t;
    s ← update s p (fun b => set_tot_len b (u16 (tot_len b + tot_len bt)));
    update s p (fun b => set_next b t).

Definition pbuf_chain s (h t : Z) : option (pstate W) :=
  s ← pbuf_cat s h t; pbuf_ref s t.

Definition pbuf_dechain s (p : Z) : option (pstate W * Z) :=
  b ← pst s !! p;
  let q := next b in
  if negb (q =? 0) then
    s ← update s q (fun c => set_tot_len c (u16 (tot_len b - len b)));
    s ← update s p (fun b => set_next b 0);
    s ← update s p (fun b => set_tot_len b (len b));
    '(s, tail_gone) ← pbuf_free s q;
    Some (s, if 0 <? tail_gone then 0 else q)
  else Some (s, 0).

(** ** Copying: pbuf_copy, pbuf_copy_partial, pbuf_take, pbuf_coalesce *)

(** The part of the source that fits. *)
Definition copy_len (bt bf : pbuf) (offset_to offset_from : Z) : Z :=
  u16 (if len bf - offset_from <=? len bt - offset_to
       then len bf - offset_from else len bt - offset_to).

(** A pbuf that is the last of a packet by its lengths but has a successor. *)
Definition is_queue (st : pstore) (p : Z) : option bool :=
  if p =? 0 then Some false
  else b ← st !! p; Some ((len b =? tot_len b) && negb (next b =? 0)).

(** One iteration of the do-while loop of [pbuf_copy]. *)
Definition copy_body (st : pstore) (x : memory * Z * Z * Z * Z)
    : (memory * Z * Z * Z * Z) + option (memory * Z) :=
  let '(m, p_to, p_from, offset_to, offset_from) := x in
  match st !! p_to, st !! p_from with
  | Some bt, Some bf =>
      let l := copy_len bt bf offset_to offset_from in
      match Mylib.memcpy m (payload bt + offset_to) (payload bf + offset_from) l with
      | None => inr None
      | Some (m, _) =>
          let offset_to := u16 (offset_to + l) in
          let offset_from := u16 (offset_from + l) in
          let '(offset_from, p_from) :=
            if len bf <=? offset_from then (0, next bf) else (offset_from, p_from) in
          let '(offset_to, p_to, bad) :=
            if offset_to =? len bt
            then (0, next bt, (next bt =? 0) && negb (p_from =? 0))
            else (offset_to, p_to, false) in
          if bad then inr (Some (m, ERR_ARG))
          else
            match is_queue st p_from, is_queue st p_to with
            | Some qf, Some qt =>
                if qf || qt then inr (Some (m, ERR_VAL))
                else if p_from =? 0 then inr (Some (m, ERR_OK))
                else inl (m, p_to, p_from, offset_to, offset_from)
            | _, _ => inr None
            end
      end
  | _, _ => inr None
  end.

(** Every iteration finishes a pbuf of one of the two chains. *)
Definition pbuf_copy (m : memory) (st : pstore) (p_to p_from : Z) : option (memory * Z) :=
  if (p_to =? 0) || (p_from =? 0) then Some (m, ERR_ARG)
  else
    bt ← st !! p_to; bf ← st !! p_from;
    if tot_len bt <? tot_len bf then Some (m, ERR_ARG)
    else mjoin (while (S (2 * size st)) (copy_body st) (m, p_to, p_from, 0, 0)).

Definition partial_body (st : pstore) (dataptr : Z) (x : memory * Z * Z * Z * Z * Z)
    : (memory * Z * Z * Z * Z * Z) + option (memory * Z) :=
  let '(m, p, len_, offset, left_, copied_total) := x in
  if (len_ =? 0) || (p =? 0) then inr (Some (m, copied_total))
  else
    match st !! p with
    | None => inr None
    | Some b =>
        if negb (offset =? 0) && (len b <=? offset) then
          inl (m, next b, len_, u16 (offset - len b), left_, copied_total)
        else
          let buf_copy_len := u16 (len b - offset) in
          let buf_copy_len := if len_ <? buf_copy_len then len_ else buf_copy_len in
          match Mylib.memcpy m (dataptr + left_) (payload b + offset) buf_copy_len with
          | None => inr None
          | Some (m, _) =>
              inl (m, next b, u16 (len_ - buf_copy_len), 0, u16 (left_ + buf_copy_len),
                   u16 (copied_total + buf_copy_len))
          end
    end.

Definition pbuf_copy_partial (m : memory) (st : pstore) (buf dataptr len_ offset : Z)
    : option (memory * Z) :=
  if (buf =? 0) || (dataptr =? 0) then Some (m, 0)
  else mjoin (while (S (size st)) (partial_body st dataptr) (m, buf, len_, offset, 0, 0)).

Definition take_body (st : pstore) (dataptr : Z) (x : memory * Z * Z * Z)
    : (memory * Z * Z * Z) + option (memory * Z) :=
  let '(m, p, total_copy_len, copied_total) := x in
  if total_copy_len =? 0 then inr (Some (m, ERR_OK))
  else
    match st !! p with
    | None => inr None
    | Some b =>
        let buf_copy_len := if len b <? total_copy_len then len b else total_copy_len in
        match Mylib.memcpy m (payload b) (dataptr + copied_total) buf_copy_len with
        | None => inr None
        | Some (m, _) =>
            inl (m, next b, u16 (total_copy_len - buf_copy_len), u16 (copied_total + buf_copy_len))
        end
    end.

Definition pbuf_take (m : memory) (st : pstore) (buf dataptr len_ : Z) : option (memory * Z) :=
  if buf =? 0 then Some (m, 0)
  else if dataptr =? 0 then Some (m, 0)
  else
    b ← st !! buf;
    if tot_len b <? len_ then Some (m, ERR_ARG)
    else mjoin (while (S (size st)) (take_body st dataptr) (m, buf, len_, 0)).

Definition pbuf_coalesce s (p : Z) (layer : pbuf_layer) : option (pstate W * Z) :=
  b ← pst s !! p;
  if next b =? 0 then Some (s, p)
  else
    '(s, q) ← pbuf_alloc s layer (tot_len b) PBUF_RAM;
    if q =? 0 then Some (s, p)
    else
      '(m, _) ← pbuf_copy (mem_of s) (pst s) q p;
      '(s, _) ← pbuf_free (set_mem s m) p;
      Some (s, q).

(** ** Access: pbuf_get_at, pbuf_memcmp, pbuf_memfind, pbuf_strstr *)

(** The pbuf that holds the byte at [offset], with the offset in it. *)
Definition seek (st : pstore) (p offset : Z) : option (Z * Z) :=
  mjoin (while (S (size st))
    (fun '(q, copy_from) =>
       if q =? 0 then inr (Some (q, copy_from))
       else match st !! q with
            | None => inr None
            | Some b =>
                if len b <=? copy_from then inl (next b, u16 (copy_from - len b))
                else inr (Some (q, copy_from))
            end)
    (p, offset)).

Definition pbuf_get_at (m : memory) (st : pstore) (p offset : Z) : option Z :=
  '(q, copy_from) ← seek st p offset;
  if q =? 0 then Some 0
  else b ← st !! q; Some (if copy_from <? len b then ld8 m (payload b + copy_from) else 0).

Definition memcmp_body (m : memory) (st : pstore) (q start s2 n i : Z) : Z + option Z :=
  if i <? n then
    match pbuf_get_at m st q (u16 (start + i)) with
    | None => inr None
    | Some a => if negb (a =? ld8 m (s2 + i)) then inr (Some (u16 (i + 1))) else inl (u16 (i + 1))
    end
  else inr (Some 0).

Definition pbuf_memcmp (m : memory) (st : pstore) (p offset s2 n : Z) : option Z :=
  '(q, start) ← seek st p offset;
  if q =? 0 then Some 0xffff
  else
    b ← st !! q;
    if start <? len b then
      mjoin (while (S (Z.to_nat n)) (memcmp_body m st q start s2 n) 0)
    else Some 0xffff.

Definition memfind_body (m : memory) (st : pstore) (p mem mem_len max i : Z) : Z + option Z :=
  if i <=? max then
    match pbuf_memcmp m st p i mem mem_len with
    | None => inr None
    | Some plus => if plus =? 0 then inr (Some i) else inl (u16 (i + plus))
    end
  else inr (Some 0xFFFF).

Definition pbuf_memfind (m : memory) (st : pstore) (p mem mem_len start_offset : Z) : option Z :=
  b ← st !! p;
  let max := u16 (tot_len b - mem_len) in
  if mem_len + start_offset <=? tot_len b then
    mjoin (while (Z.to_nat 65538) (memfind_body m st p mem mem_len max) start_offset)
  else Some 0xFFFF.

Definition pbuf_strstr (fuel : nat) (m : memory) (st : pstore) (p substr : Z) : option Z :=
  if (substr =? 0) || (ld8 m substr =? 0) then Some 0xFFFF
  else
    b ← st !! p;
    if tot_len b =? 0xFFFF then Some 0xFFFF else
    substr_len ← Mylib.strlen fuel m substr;
    if 0xFFFF <=? substr_len then Some 0xFFFF
    else pbuf_memfind m st p substr (u16 substr_len) 0.

End operations.

End Pbuf.
