(* ===== verification/PbufData.v ===== *)
(** The data of packets: what the copy and access functions of
    src/core/pbuf.c compute, in terms of the bytes of the chain
    ([chain_data]). *)

From stdpp Require Import base tactics numbers list gmap.
From Stdlib Require Import ZArith Lia.
From S2P Require Import Prelude PbufDefs Mylib Mem Memp PbufMem Pbuf.

Local Open Scope Z_scope.

Module PbufData.
Import Pbuf.

(** * Access *)

(** Where the byte at an offset of a chain lies. *)
Lemma seek_loop st p l off fuel :
  chain st p l -> lengths_ok l -> 0 <= off < 65536 -> (length l < fuel)%nat ->
  exists q off', while fuel
    (fun '(q, copy_from) =>
       if q =? 0 then inr (Some (q, copy_from))
       else match st !! q with
            | None => inr None
            | Some b =>
                if len b <=? copy_from then inl (next b, u16 (copy_from - len b))
                else inr (Some (q, copy_from))
            end) (p, off) = Some (Some (q, off')) /\
    ((q = 0 /\ chain_len l <= off) \/
     (exists l1 b l2, l = l1 ++ (q, b) :: l2 /\ q <> 0 /\ off = chain_len l1 + off' /\
        0 <= off' < len b)).
Proof.
  intros H. revert off fuel. induction H as [| p b l Hp Hb H IH]; intros off fuel Hok Hoff Hf;
    (destruct fuel as [| fuel]; [cbn in Hf; lia |]); cbn [length] in Hf; rewrite while_S.
  - exists 0, off. cbn. split; [done |]. left. split; [done |]. lia.
  - cbn in Hok. destruct Hok as (Ht & Hl & Hm & Hok). pose proof (chain_len_nonneg l Hok).
    rewrite (proj2 (Z.eqb_neq p 0)) by done. rewrite Hb.
    destruct (Z.leb_spec (len b) off) as [Hle | Hlt].
    + rewrite u16_id by lia.
      destruct (IH (off - len b) fuel Hok ltac:(lia) ltac:(lia)) as (q & off' & Hr & Hres).
      exists q, off'. split; [done |]. cbn [chain_len].
      destruct Hres as [[-> ?] | (l1 & b' & l2 & -> & Hq & Ho & Hin)]; [left; split; [done | lia] |].
      right. exists ((p, b) :: l1), b', l2. cbn. split; [done |]. split; [done |]. split; [lia | done].
    + exists p, off. split; [done |]. right. exists [], b, l. cbn.
      split; [done |]. split; [done |]. split; [lia |]. lia.
Qed.

Lemma seek_spec st p l off :
  chain st p l -> lengths_ok l -> 0 <= off < 65536 ->
  exists q off', seek st p off = Some (q, off') /\
    ((q = 0 /\ chain_len l <= off) \/
     (exists l1 b l2, l = l1 ++ (q, b) :: l2 /\ q <> 0 /\ off = chain_len l1 + off' /\
        0 <= off' < len b)).
Proof.
  intros H Hok Hoff. pose proof (chain_length_size _ _ _ H).
  destruct (seek_loop st p l off (S (size st)) H Hok Hoff ltac:(lia)) as (q & off' & Hr & Hres).
  exists q, off'. split; [unfold seek; by rewrite Hr | done].
Qed.

Lemma chain_data_app m l1 l2 : chain_data m (l1 ++ l2) = chain_data m l1 ++ chain_data m l2.
Proof. induction l1 as [| [a b] l1 IH]; cbn; [done |]. by rewrite IH, app_assoc. Qed.

Lemma chain_len_app l1 l2 : chain_len (l1 ++ l2) = chain_len l1 + chain_len l2.
Proof. induction l1 as [| [a b] l1 IH]; cbn; lia. Qed.

Lemma lengths_ok_app l1 l2 : lengths_ok (l1 ++ l2) -> lengths_ok l2 /\ 0 <= chain_len l1.
Proof.
  induction l1 as [| [a b] l1 IH]; cbn; [done |]. intros (Ht & Hl & Hm & Hok).
  destruct (IH Hok). split; [done | lia].
Qed.

Lemma chain_data_length_app m l1 l2 :
  lengths_ok (l1 ++ l2) -> Z.of_nat (length (chain_data m l1)) = chain_len l1.
Proof.
  induction l1 as [| [a b] l1 IH]; cbn; [done |]. intros (Ht & Hl & Hm & Hok).
  rewrite length_app, bytes_length, Nat2Z.inj_add, IH by done. lia.
Qed.

(** The rest of a chain from one of its pbufs on. *)
Lemma chain_split st p l1 q b l2 :
  chain st p (l1 ++ (q, b) :: l2) -> st !! q = Some b /\ chain st q ((q, b) :: l2).
Proof.
  revert p. induction l1 as [| [a c] l1 IH]; intros p H; cbn in H.
  - inversion H; subst. split; [done | by constructor].
  - inversion H; subst. by eapply IH.
Qed.

(** The byte found by [seek] is the byte of the packet's data. *)
Lemma data_at m l1 q b l2 off' :
  lengths_ok (l1 ++ (q, b) :: l2) -> 0 <= off' < len b ->
  chain_data m (l1 ++ (q, b) :: l2) !! Z.to_nat (chain_len l1 + off')
  = Some (ld8 m (payload b + off')).
Proof.
  intros Hok Ho. pose proof (chain_data_length_app m l1 _ Hok).
  rewrite chain_data_app. rewrite lookup_app_r by lia.
  replace (Z.to_nat (chain_len l1 + off') - length (chain_data m l1))%nat with (Z.to_nat off') by lia.
  cbn [chain_data]. rewrite lookup_app_l by (rewrite bytes_length; lia).
  rewrite bytes_lookup by lia. do 2 f_equal. lia.
Qed.

Lemma pbuf_get_at_spec m st p l off :
  chain st p l -> lengths_ok l -> 0 <= off < 65536 ->
  pbuf_get_at m st p off = Some (default 0 (chain_data m l !! Z.to_nat off)).
Proof.
  intros H Hok Hoff. destruct (seek_spec st p l off H Hok Hoff) as (q & off' & Hs & Hres).
  unfold pbuf_get_at. rewrite Hs. cbn [mbind option_bind].
  destruct Hres as [[-> Hge] | (l1 & b & l2 & -> & Hq & -> & Hin)].
  - cbn. rewrite lookup_ge_None_2; [done |]. pose proof (chain_data_length m l Hok). lia.
  - rewrite (proj2 (Z.eqb_neq q 0)) by done.
    destruct (chain_lookup st p _ q b H) as [Hb _]; [apply elem_of_app; right; apply elem_of_cons; by left |].
    rewrite Hb. cbn [mbind option_bind]. rewrite (proj2 (Z.ltb_lt _ _)) by lia.
    by rewrite data_at.
Qed.

(** One more than the index of the first difference, 0 if there is none. *)
Fixpoint mismatch (l1 l2 : list Z) : Z :=
  match l1, l2 with
  | x :: l1, y :: l2 =>
      if x =? y then (if mismatch l1 l2 =? 0 then 0 else mismatch l1 l2 + 1) else 1
  | _, _ => 0
  end.

(** [n] bytes of data from [off] on, zero behind its end. *)
Fixpoint padded (d : list Z) (off n : nat) : list Z :=
  match n with O => [] | S n => default 0 (d !! off) :: padded d (S off) n end.

Lemma mismatch_bounds l1 l2 : 0 <= mismatch l1 l2 <= Z.of_nat (length l2).
Proof.
  revert l2. induction l1 as [| x l1 IH]; intros [| y l2]; cbn [mismatch length]; try lia.
  specialize (IH l2). repeat case_bool; lia.
Qed.

Lemma memcmp_loop m st q lq start s2 n k :
  chain st q lq -> lengths_ok lq -> 0 <= start -> start + Z.of_nat n < 65536 -> (k <= n)%nat ->
  forall fuel, (k < fuel)%nat ->
  while fuel (memcmp_body m st q start s2 (Z.of_nat n)) (Z.of_nat (n - k)) =
  let d := mismatch (padded (chain_data m lq) (Z.to_nat start + (n - k)) k)
             (bytes m (s2 + Z.of_nat (n - k)) k) in
  Some (Some (if d =? 0 then 0 else Z.of_nat (n - k) + d)).
Proof.
  intros H Hok Hs Hn. induction k as [| k IH]; intros Hk fuel Hf;
    (destruct fuel as [| fuel]; [lia |]); rewrite while_S; unfold memcmp_body at 1.
  - rewrite (proj2 (Z.ltb_ge _ _)) by lia. done.
  - rewrite (proj2 (Z.ltb_lt _ _)) by lia. rewrite u16_id by lia.
    rewrite (pbuf_get_at_spec m st q lq) by (done || lia). cbn [padded bytes mismatch].
    replace (Z.to_nat (start + Z.of_nat (n - S k))) with (Z.to_nat start + (n - S k))%nat by lia.
    destruct (Z.eqb_spec (default 0 (chain_data m lq !! (Z.to_nat start + (n - S k))%nat))
                (ld8 m (s2 + Z.of_nat (n - S k)))) as [E | E]; cbn [negb].
    + rewrite u16_id by lia. replace (Z.of_nat (n - S k) + 1) with (Z.of_nat (n - k)) by lia.
      rewrite IH by lia. cbv zeta.
      replace (S (Z.to_nat start + (n - S k)))%nat with (Z.to_nat start + (n - k))%nat by lia.
      replace (s2 + Z.of_nat (n - S k) + 1) with (s2 + Z.of_nat (n - k)) by lia.
      set (d := mismatch _ _). pose proof (mismatch_bounds
        (padded (chain_data m lq) (Z.to_nat start + (n - k)) k) (bytes m (s2 + Z.of_nat (n - k)) k)) as Hd.
      fold d in Hd. destruct (Z.eqb_spec d 0) as [-> | Hd0]; [done |].
      rewrite (proj2 (Z.eqb_neq (d + 1) 0)) by lia. do 2 f_equal. lia.
    + cbn [Z.eqb]. rewrite u16_id by lia. done.
Qed.

Lemma padded_ext d1 d2 o1 o2 n :
  (forall i, (i < n)%nat -> d1 !! (o1 + i)%nat = d2 !! (o2 + i)%nat) ->
  padded d1 o1 n = padded d2 o2 n.
Proof.
  revert o1 o2. induction n as [| n IH]; intros o1 o2 He; cbn; [done |]. f_equal.
  - specialize (He 0%nat ltac:(lia)). rewrite !Nat.add_0_r in He. by rewrite He.
  - apply IH. intros i Hi. specialize (He (S i) ltac:(lia)).
    by rewrite <- !Nat.add_succ_comm in He.
Qed.

Lemma pbuf_memcmp_spec m st p l off s2 n :
  chain st p l -> lengths_ok l -> 0 <= off -> off + Z.of_nat n < 65536 ->
  pbuf_memcmp m st p off s2 (Z.of_nat n) =
    Some (if off <? chain_len l
          then mismatch (padded (chain_data m l) (Z.to_nat off) n) (bytes m s2 n)
          else 0xffff).
Proof.
  intros H Hok Hoff Hn. destruct (seek_spec st p l off H Hok ltac:(lia)) as (q & off' & Hs & Hres).
  unfold pbuf_memcmp. rewrite Hs. cbn [mbind option_bind].
  destruct Hres as [[-> Hge] | (l1 & b & l2 & -> & Hq & -> & Hin)].
  - cbn [Z.eqb]. rewrite (proj2 (Z.ltb_ge _ _)) by done. done.
  - rewrite (proj2 (Z.eqb_neq q 0)) by done.
    destruct (chain_split st p l1 q b l2 H) as [Hb Hcq].
    destruct (lengths_ok_app _ _ Hok) as [Hokq Hl1].
    rewrite Hb. cbn [mbind option_bind]. rewrite (proj2 (Z.ltb_lt off' _)) by lia.
    assert (chain_len (l1 ++ (q, b) :: l2) = chain_len l1 + (len b + chain_len l2)) as Hcl
      by (by rewrite chain_len_app).
    cbn in Hokq. pose proof (chain_len_nonneg l2 ltac:(tauto)).
    rewrite (proj2 (Z.ltb_lt (chain_len l1 + off') _)) by lia.
    pose proof (memcmp_loop m st q ((q, b) :: l2) off' s2 n n Hcq Hokq ltac:(lia) ltac:(lia)
      (le_n _) (S (Z.to_nat (Z.of_nat n))) ltac:(lia)) as Hloop.
    rewrite Nat.sub_diag in Hloop. change (Z.of_nat 0) with 0 in Hloop. rewrite Hloop. cbn [mjoin option_join].
    rewrite Nat.add_0_r, Z.add_0_r, Z.add_0_l.
    assert (padded (chain_data m ((q, b) :: l2)) (Z.to_nat off') n =
            padded (chain_data m (l1 ++ (q, b) :: l2)) (Z.to_nat (chain_len l1 + off')) n) as ->.
    { apply padded_ext. intros i Hi. rewrite (chain_data_app m l1).
      pose proof (chain_data_length_app m l1 _ Hok). rewrite (lookup_app_r (chain_data m l1)) by lia.
      f_equal. lia. }
    by destruct (Z.eqb_spec (mismatch (padded (chain_data m (l1 ++ (q, b) :: l2))
      (Z.to_nat (chain_len l1 + off')) n) (bytes m s2 n)) 0) as [-> |].
Qed.

(** Inside the data there is no padding. *)
Lemma padded_exact (d : list Z) off n :
  (off + n <= length d)%nat -> padded d off n = take n (drop off d).
Proof.
  revert off. induction n as [| n IH]; intros off Hn; cbn [padded]; [done |].
  destruct (lookup_lt_is_Some_2 d off) as [x Hx]; [lia |].
  rewrite Hx, IH by lia. rewrite (drop_S d x off Hx). done.
Qed.

Lemma padded_length d off n : length (padded d off n) = n.
Proof. revert off. induction n as [| n IH]; intros off; cbn; [done | by rewrite IH]. Qed.

Lemma mismatch_zero l1 l2 : length l1 = length l2 -> mismatch l1 l2 = 0 <-> l1 = l2.
Proof.
  revert l2. induction l1 as [| x l1 IH]; intros [| y l2] Hl; cbn in *; try done.
  destruct (Z.eqb_spec x y) as [-> |].
  - destruct (Z.eqb_spec (mismatch l1 l2) 0) as [E | E].
    + apply IH in E; [| lia]. by subst.
    + pose proof (mismatch_bounds l1 l2). split; [lia |]. intros [= ->].
      destruct E. by apply IH.
  - split; [done |]. congruence.
Qed.

(** The search: sound from any position, and it ends. *)
Lemma memfind_loop m st p l mem n i fuel :
  chain st p l -> lengths_ok l -> chain_len l < 65535 -> (0 < n)%nat ->
  Z.of_nat n <= chain_len l -> 0 <= i <= chain_len l -> (Z.to_nat (chain_len l - i) < fuel)%nat ->
  exists r, while fuel (memfind_body m st p mem (Z.of_nat n) (chain_len l - Z.of_nat n)) i
      = Some (Some r) /\
    (r = 0xFFFF \/
     (i <= r /\ r + Z.of_nat n <= chain_len l /\
      take n (drop (Z.to_nat r) (chain_data m l)) = bytes m mem n)).
Proof.
  intros H Hok Hmax Hn0 Hn. revert i. induction fuel as [| fuel IH]; intros i Hi Hf; [lia |].
  rewrite while_S. unfold memfind_body at 1.
  destruct (Z.leb_spec i (chain_len l - Z.of_nat n)) as [Hle | Hgt]; [| exists 0xFFFF; auto].
  rewrite (pbuf_memcmp_spec m st p l) by (done || lia). rewrite (proj2 (Z.ltb_lt _ _)) by lia.
  pose proof (chain_data_length m l Hok).
  set (d := mismatch _ _). pose proof (mismatch_bounds
    (padded (chain_data m l) (Z.to_nat i) n) (bytes m mem n)) as Hd.
  fold d in Hd. rewrite bytes_length in Hd.
  destruct (Z.eqb_spec d 0) as [E | E].
  - exists i. split; [done |]. right. split; [lia |]. split; [lia |].
    apply mismatch_zero in E; [| by rewrite padded_length, bytes_length].
    rewrite padded_exact in E by lia. done.
  - rewrite u16_id by lia. destruct (IH (i + d) ltac:(lia) ltac:(lia)) as (r & Hr & Hres).
    exists r. split; [done |]. destruct Hres as [-> | (? & ? & ?)]; [by left | right; split; [lia | done]].
Qed.

(** reading packets.  [pbuf_get_at] returns the byte at an offset of the
    packet's data, whichever pbuf it lies in, and 0 behind the end;
    [pbuf_memcmp] compares the data from an offset, zero-extended behind its
    end, with a buffer and returns one more than the index of the first
    difference, 0 if there is none, or 0xffff for an offset outside the
    packet; [pbuf_memfind] ends, and what it returns is 0xFFFF or an offset in
    range at which the buffer's bytes occur in the packet. *)
Theorem pbuf_access_correct m st p l off s2 n :
  chain st p l -> lengths_ok l -> 0 <= off -> off + Z.of_nat n < 65535 ->
  chain_len l < 65535 ->
  pbuf_get_at m st p off = Some (default 0 (chain_data m l !! Z.to_nat off)) /\
  pbuf_memcmp m st p off s2 (Z.of_nat n) =
    Some (if off <? chain_len l
          then mismatch (padded (chain_data m l) (Z.to_nat off) n) (bytes m s2 n)
          else 0xffff) /\
  ((0 < n)%nat -> p <> 0 ->
   exists r, pbuf_memfind m st p s2 (Z.of_nat n) off = Some r /\
     (r = 0xFFFF \/
      (off <= r /\ r + Z.of_nat n <= chain_len l /\
       take n (drop (Z.to_nat r) (chain_data m l)) = bytes m s2 n))).
Proof.
  intros H Hok Hoff Hn Hmax. split; [apply pbuf_get_at_spec; (done || lia) |].
  split; [apply pbuf_memcmp_spec; (done || lia) |]. intros Hn0 Hp.
  destruct (chain_inv _ _ _ H) as [[? _] | (_ & b & l' & -> & Hb & _)]; [done |].
  unfold pbuf_memfind. rewrite Hb. cbn [mbind option_bind].
  rewrite (chain_tot_len p b l' Hok).
  destruct (Z.leb_spec (Z.of_nat n + off) (chain_len ((p, b) :: l'))) as [Hle | Hgt];
    [| exists 0xFFFF; auto].
  rewrite u16_id by lia.
  destruct (memfind_loop m st p ((p, b) :: l') s2 n off (Z.to_nat 65538) H Hok Hmax Hn0)
    as (r & Hr & Hres); [lia | lia | lia |].
  exists r. rewrite Hr. done.
Qed.

(** "aab" in two pbufs, and the pattern "ab" at address 300. *)
Definition sample_text : memory :=
  fun a => if a =? 100 then 97 else if a =? 200 then 97 else if a =? 201 then 98
           else if a =? 300 then 97 else if a =? 301 then 98 else 0.
Definition sample_store : pstore :=
  {[ 16 := mkPbuf 32 100 3 1 PBUF_RAM 0 1; 32 := mkPbuf 0 200 2 2 PBUF_RAM 0 1 ]}.
Definition sample_list : list (Z * pbuf) :=
  [(16, mkPbuf 32 100 3 1 PBUF_RAM 0 1); (32, mkPbuf 0 200 2 2 PBUF_RAM 0 1)].

Lemma pbuf_access_correct_witness :
  pbuf_get_at sample_text sample_store 16 2 = Some 98 /\
  exists r, pbuf_memfind sample_text sample_store 16 300 (Z.of_nat 2) 1 = Some r.
Proof.
  assert (chain sample_store 16 sample_list) as Hc by (repeat (constructor; [done | done |]); constructor).
  assert (lengths_ok sample_list) as Hok by (cbn; lia).
  split.
  - apply (pbuf_access_correct sample_text sample_store 16 sample_list 2 300 2 Hc Hok); cbn; lia.
  - destruct (pbuf_access_correct sample_text sample_store 16 sample_list 1 300 2 Hc Hok
      ltac:(lia) ltac:(lia) ltac:(cbn; lia)) as (_ & _ & Hf).
    destruct (Hf ltac:(lia) ltac:(lia)) as (r & Hr & _). exists r. exact Hr.
Defined.

(** [pbuf_memfind] is not complete.  It advances by the whole compared
    length after a mismatch, so it reports that "ab" is not in "aab", where it
    occurs at offset 1. *)
Theorem pbuf_memfind_misses :
  chain sample_store 16 sample_list /\
  take 2 (drop 1 (chain_data sample_text sample_list)) = bytes sample_text 300 2 /\
  pbuf_memfind sample_text sample_store 16 300 2 0 = Some 0xFFFF.
Proof.
  split; [repeat (constructor; [done | done |]); constructor |].
  split; [reflexivity | vm_compute; reflexivity].
Qed.

(** a packet too short for a comparison is not always reported.  The bytes
    behind the end count as zeros, so a packet compares equal to its own data
    followed by zeros instead of giving 0xffff. *)
Theorem pbuf_memcmp_zero_extends m st p l off s2 k :
  chain st p l -> lengths_ok l -> 0 <= off < chain_len l -> chain_len l + Z.of_nat k < 65536 ->
  bytes m s2 (Z.to_nat (chain_len l - off) + k) =
    drop (Z.to_nat off) (chain_data m l) ++ replicate k 0 ->
  pbuf_memcmp m st p off s2 (chain_len l - off + Z.of_nat k) = Some 0.
Proof.
  intros H Hok Hoff Hk Hb.
  replace (chain_len l - off + Z.of_nat k) with (Z.of_nat (Z.to_nat (chain_len l - off) + k)) by lia.
  rewrite (pbuf_memcmp_spec m st p l) by (done || lia). rewrite (proj2 (Z.ltb_lt _ _)) by lia.
  f_equal. apply mismatch_zero; [by rewrite padded_length, bytes_length |]. rewrite Hb.
  pose proof (chain_data_length m l Hok) as Hlen. apply list_eq. intros i.
  assert (forall d o n j, (j < n)%nat -> padded d o n !! j = Some (default 0 (d !! (o + j)%nat))) as Hpl.
  { clear. intros d o n. revert o. induction n as [| n IH]; intros o j Hj; [lia |].
    destruct j as [| j]; cbn; [by rewrite Nat.add_0_r |].
    rewrite IH by lia. by rewrite Nat.add_succ_comm. }
  destruct (decide (i < Z.to_nat (chain_len l - off) + k)%nat) as [Hi | Hi].
  - rewrite Hpl by done. destruct (decide (i < Z.to_nat (chain_len l - off))%nat) as [Hi2 | Hi2].
    + rewrite lookup_app_l by (rewrite length_drop; lia). rewrite lookup_drop.
      destruct (lookup_lt_is_Some_2 (chain_data m l) (Z.to_nat off + i)) as [x Hx]; [lia |].
      by rewrite Hx.
    + rewrite lookup_app_r by (rewrite length_drop; lia). rewrite length_drop.
      rewrite (lookup_ge_None_2 (chain_data m l)) by lia. cbn.
      symmetry. apply lookup_replicate. lia.
  - rewrite !lookup_ge_None_2; [done | |].
    + rewrite length_app, length_drop, length_replicate. lia.
    + rewrite padded_length. lia.
Qed.

Lemma pbuf_memcmp_zero_extends_witness :
  pbuf_memcmp sample_text sample_store 16 1 300 (chain_len sample_list - 1 + Z.of_nat 2) = Some 0.
Proof.
  apply pbuf_memcmp_zero_extends;
    [repeat (constructor; [done | done |]); constructor | cbn; lia | cbn; lia | cbn; lia | vm_compute; reflexivity].
Defined.

(** * Copying out of a packet *)

(** No payload of the chain meets the [n] bytes at [a]. *)
Definition apart (l : list (Z * pbuf)) (a n : Z) : Prop :=
  Forall (fun x => payload x.2 + len x.2 <= a \/ a + n <= payload x.2) l.

(** Changes apart from the payloads leave the data. *)
Lemma chain_data_frame m m' l a n k o :
  lengths_ok l -> apart l a n -> 0 <= o -> o + k <= n -> frame m m' (a + o) k ->
  chain_data m' l = chain_data m l.
Proof.
  intros Hok Ha Ho Hk Hf. induction l as [| [p b] l IH]; cbn; [done |].
  cbn in Hok. destruct Hok as (_ & Hl & _ & Hok). inversion Ha as [| ? ? Hb Ha']; subst. cbn in Hb.
  rewrite IH by done. f_equal. apply bytes_ext. intros x Hx. apply Hf. lia.
Qed.

Lemma take_drop_app (c r : list Z) n off :
  (off <= length c)%nat ->
  take n (drop off (c ++ r)) = take n (drop off c) ++ take (n - (length c - off)) r.
Proof.
  intros H. rewrite drop_app_le by done. rewrite take_app. by rewrite length_drop.
Qed.

Lemma partial_loop st dst N fuel p l m n off lf :
  chain st p l -> lengths_ok l -> apart l dst N ->
  0 <= n -> 0 <= lf -> lf + n <= N -> N < 65536 -> 0 <= off < 65536 -> (length l < fuel)%nat ->
  let d := take (Z.to_nat n) (drop (Z.to_nat off) (chain_data m l)) in
  let k := Z.of_nat (length d) in
  exists m', while fuel (partial_body st dst) (m, p, n, off, lf, lf) = Some (Some (m', lf + k)) /\
    bytes m' (dst + lf) (length d) = d /\ frame m m' (dst + lf) k.
Proof.
  intros H. revert fuel m n off lf.
  induction H as [| p b l Hp Hb H IH]; intros fuel m n off lf Hok Ha Hn Hlf HN HN2 Hoff Hf d k;
    (destruct fuel as [| fuel]; [cbn in Hf; lia |]); cbn [length] in Hf; rewrite while_S;
    unfold partial_body at 1.
  { rewrite orb_true_r. subst d k. cbn. rewrite drop_nil, take_nil. cbn. rewrite Z.add_0_r.
    eexists. split; [done |]. split; [done | apply frame_refl]. }
  destruct (Z.eqb_spec n 0) as [-> | Hn0].
  { subst d k. cbn. rewrite take_0. cbn. rewrite Z.add_0_r.
    eexists. split; [done |]. split; [done | apply frame_refl]. }
  rewrite (proj2 (Z.eqb_neq p 0)) by done. cbn [orb]. rewrite Hb.
  cbn in Hok. destruct Hok as (Ht & Hl & Hm & Hok). inversion Ha as [| ? ? Hab Ha']; subst. cbn in Hab.
  pose proof (chain_len_nonneg l Hok). subst k. cbn [chain_data] in d.
  destruct (negb (off =? 0) && (len b <=? off)) eqn:Hskip.
  - bool_to_prop. rewrite u16_id by lia.
    assert (d = take (Z.to_nat n) (drop (Z.to_nat (off - len b)) (chain_data m l))) as ->.
    { unfold d. rewrite drop_app_ge by (rewrite bytes_length; lia). rewrite bytes_length.
      do 2 f_equal. lia. }
    apply IH; (done || lia).
  - assert (off < len b \/ off = 0) as Hin.
    { apply andb_false_iff in Hskip as [Hs | Hs]; bool_to_prop; [by right | left; lia]. }
    rewrite (u16_id (len b - off)) by lia.
    set (c := if n <? len b - off then n else len b - off).
    assert (c = Z.min n (len b - off)) as Hc by (unfold c; case_bool; lia). clearbody c.
    destruct (Mylib.memcpy_spec m (dst + lf) (payload b + off) c) as (m2 & Hm2 & Hcp);
      [lia | unfold Mylib.forward_safe; lia |].
    rewrite Hm2. rewrite !u16_id by lia.
    pose proof Hcp as [_ Hfr].
    rewrite <- (Z2Nat.id c) in Hcp by lia. apply Mylib.copied_bytes in Hcp.
    assert (chain_data m2 l = chain_data m l) as Hd2
      by (by apply (chain_data_frame m m2 l dst N c lf); try lia).
    destruct (IH fuel m2 (n - c) 0 (lf + c) Hok Ha') as (m' & Hr & Hby & Hfr'); try lia.
    rewrite Hd2 in Hr, Hby, Hfr'. change (Z.to_nat 0) with 0%nat in *. rewrite drop_0 in *.
    set (d' := take (Z.to_nat (n - c)) (chain_data m l)) in *.
    assert (d = bytes m (payload b + off) (Z.to_nat c) ++ d') as Hd.
    { unfold d. rewrite take_drop_app by (rewrite bytes_length; lia). rewrite bytes_length.
      rewrite drop_bytes by lia. rewrite Z2Nat.id by lia. unfold d'.
      destruct (Z.min_spec n (len b - off)) as [[? E] | [? E]]; rewrite E in Hc; subst c.
      - rewrite take_bytes by lia. do 2 f_equal. lia.
      - rewrite take_ge by (rewrite bytes_length; lia). f_equal; [f_equal; lia |]. f_equal. lia. }
    assert (length d = (Z.to_nat c + length d')%nat) as Hdl
      by (rewrite Hd, length_app, bytes_length; done).
    exists m'. rewrite Hr, Hdl. split; [do 3 f_equal; lia |]. split.
    + rewrite bytes_app. rewrite Z2Nat.id by lia.
      replace (dst + lf + c) with (dst + (lf + c)) by lia. rewrite Hby, Hd. f_equal.
      rewrite <- Hcp. apply bytes_ext. intros x Hx. apply Hfr'. lia.
    + intros x Hx. rewrite Hfr', Hfr by lia. done.
Qed.

Lemma pbuf_copy_partial_spec m st p l dst n off :
  chain st p l -> lengths_ok l -> p <> 0 -> dst <> 0 -> apart l dst n ->
  0 <= n < 65536 -> 0 <= off < 65536 ->
  let d := take (Z.to_nat n) (drop (Z.to_nat off) (chain_data m l)) in
  exists m', pbuf_copy_partial m st p dst n off = Some (m', Z.of_nat (length d)) /\
    bytes m' dst (length d) = d /\ frame m m' dst (Z.of_nat (length d)).
Proof.
  intros H Hok Hp Hdst Ha Hn Hoff d. pose proof (chain_length_size _ _ _ H).
  unfold pbuf_copy_partial. rewrite (proj2 (Z.eqb_neq p 0)), (proj2 (Z.eqb_neq dst 0)) by done.
  cbn [orb].
  destruct (partial_loop st dst n (S (size st)) p l m n off 0) as (m' & Hr & Hb & Hf); try (done || lia).
  rewrite Z.add_0_l, Z.add_0_r in *. exists m'. rewrite Hr. done.
Qed.

(** * Copying into a packet *)

(** The payloads of a chain do not overlap. *)
Fixpoint separate (l : list (Z * pbuf)) : Prop :=
  match l with
  | [] => True
  | (_, b) :: l => apart l (payload b) (len b) /\ separate l
  end.

Definition in_payload (l : list (Z * pbuf)) (x : Z) : Prop :=
  Exists (fun y => payload y.2 <= x < payload y.2 + len y.2) l.

Lemma apart_not_in l a n x : apart l a n -> a <= x < a + n -> ~ in_payload l x.
Proof.
  intros Ha Hx Hin. apply Exists_exists in Hin as ([p b] & Hin & Hpx). cbn in Hpx.
  unfold apart in Ha. rewrite Forall_forall in Ha. apply (Ha (p, b)) in Hin. cbn in Hin. lia.
Qed.

Lemma take_loop st src N fuel p l m n c :
  chain st p l -> lengths_ok l -> apart l src N -> separate l ->
  0 <= n -> 0 <= c -> c + n <= N -> N < 65536 -> n <= chain_len l -> (length l < fuel)%nat ->
  exists m', while fuel (take_body st src) (m, p, n, c) = Some (Some (m', ERR_OK)) /\
    chain_data m' l = bytes m (src + c) (Z.to_nat n) ++ drop (Z.to_nat n) (chain_data m l) /\
    (forall x, ~ in_payload l x -> ld8 m' x = ld8 m x).
Proof.
  intros H. revert fuel m n c.
  induction H as [| p b l Hp Hb H IH]; intros fuel m n c Hok Ha Hs Hn Hc HN HN2 Hfit Hf;
    (destruct fuel as [| fuel]; [cbn in Hf; lia |]); cbn [length] in Hf; rewrite while_S;
    unfold take_body at 1;
    (destruct (Z.eqb_spec n 0) as [-> | Hn0]; [exists m; cbn; by rewrite drop_0 |]).
  { cbn in Hfit. lia. }
  cbn in Hok, Hs. destruct Hok as (Ht & Hl & Hm & Hok), Hs as [Hsb Hs].
  inversion Ha as [| ? ? Hab Ha']; subst. cbn in Hab. cbn [chain_len] in Hfit.
  pose proof (chain_len_nonneg l Hok).
  rewrite Hb. set (k := if len b <? n then len b else n).
  assert (k = Z.min (len b) n) as Hk by (unfold k; case_bool; lia). clearbody k.
  destruct (Mylib.memcpy_spec m (payload b) (src + c) k) as (m2 & Hm2 & Hcp);
    [lia | unfold Mylib.forward_safe; lia |].
  rewrite Hm2. rewrite !u16_id by lia. pose proof Hcp as [_ Hfr].
  rewrite <- (Z2Nat.id k) in Hcp by lia. apply Mylib.copied_bytes in Hcp.
  assert (chain_data m2 l = chain_data m l) as Hd2
    by (apply (chain_data_frame m m2 l (payload b) (len b) k 0); try done; try lia; by rewrite Z.add_0_r).
  destruct (IH fuel m2 (n - k) (c + k) Hok Ha' Hs) as (m' & Hr & Hd & Hfr'); try lia.
  exists m'. split; [done |]. split.
  - cbn [chain_data]. rewrite Hd, Hd2.
    assert (bytes m' (payload b) (Z.to_nat (len b)) = bytes m (src + c) (Z.to_nat k)
              ++ drop (Z.to_nat k) (bytes m (payload b) (Z.to_nat (len b)))) as ->.
    { rewrite drop_bytes by lia.
      replace (Z.to_nat (len b)) with (Z.to_nat k + (Z.to_nat (len b) - Z.to_nat k))%nat at 1 by lia.
      rewrite bytes_app, <- Hcp.
      f_equal; apply bytes_ext; intros x Hx; (rewrite Hfr'; [| apply (apart_not_in l (payload b) (len b)); [done | lia]]);
        [done | apply Hfr; lia]. }
    assert (bytes m2 (src + (c + k)) (Z.to_nat (n - k)) = bytes m (src + (c + k)) (Z.to_nat (n - k))) as ->
      by (apply bytes_ext; intros x Hx; apply Hfr; lia).
    replace (Z.to_nat n) with (Z.to_nat k + Z.to_nat (n - k))%nat by lia.
    rewrite (bytes_app m (src + c)), Z2Nat.id by lia. rewrite Z.add_assoc.
    destruct (Z.min_spec (len b) n) as [[? E] | [? E]]; rewrite E in Hk; subst k.
    + rewrite drop_ge by (rewrite bytes_length; lia). rewrite app_nil_r, <- app_assoc. do 2 f_equal.
      rewrite drop_app_ge by (rewrite bytes_length; lia). f_equal. rewrite bytes_length. lia.
    + rewrite Z.sub_diag. change (Z.to_nat 0) with 0%nat. cbn [bytes app].
      rewrite app_nil_r, drop_0, Nat.add_0_r, <- app_assoc. f_equal.
      by rewrite drop_app_le by (rewrite bytes_length; lia).
  - intros x Hx. rewrite Hfr'; [apply Hfr |]; intros Hin; apply Hx.
    + apply Exists_cons. left. cbn. lia.
    + apply Exists_cons. by right.
Qed.

Lemma pbuf_take_spec m st p b l src n :
  chain st p ((p, b) :: l) -> lengths_ok ((p, b) :: l) -> src <> 0 ->
  apart ((p, b) :: l) src n -> separate ((p, b) :: l) -> 0 <= n <= tot_len b ->
  exists m', pbuf_take m st p src n = Some (m', ERR_OK) /\
    chain_data m' ((p, b) :: l)
      = bytes m src (Z.to_nat n) ++ drop (Z.to_nat n) (chain_data m ((p, b) :: l)) /\
    (forall x, ~ in_payload ((p, b) :: l) x -> ld8 m' x = ld8 m x).
Proof.
  intros H Hok Hsrc Ha Hs Hn. pose proof (chain_length_size _ _ _ H).
  pose proof (chain_tot_len _ _ _ Hok) as Ht.
  destruct (chain_inv _ _ _ H) as [[_ ?] | (Hp & b' & l' & E & Hb & _)]; [done |].
  injection E as <- <-. unfold pbuf_take.
  rewrite (proj2 (Z.eqb_neq p 0)), (proj2 (Z.eqb_neq src 0)) by done. rewrite Hb.
  cbn [mbind option_bind]. rewrite (proj2 (Z.ltb_ge _ _)) by lia.
  assert (tot_len b < 65536) by (cbn in Hok; lia).
  destruct (take_loop st src n (S (size st)) p ((p, b) :: l) m n 0) as (m' & Hr & Hd & Hf); try (done || lia).
  exists m'. rewrite Hr. rewrite Z.add_0_r in Hd. done.
Qed.

(** [pbuf_copy_partial] copies exactly the requested part of a packet, however
    it is split into pbufs: the bytes from [off] on, at most [n] and no more
    than there are, appear at the destination, their number is returned, and
    no other byte of memory changes; with a NULL packet or destination it
    returns 0 and changes nothing. *)
Theorem pbuf_copy_partial_correct m st p l dst n off :
  chain st p l -> lengths_ok l -> apart l dst n -> 0 <= n < 65536 -> 0 <= off < 65536 ->
  let d := if (p =? 0) || (dst =? 0) then []
           else take (Z.to_nat n) (drop (Z.to_nat off) (chain_data m l)) in
  exists m', pbuf_copy_partial m st p dst n off = Some (m', Z.of_nat (length d)) /\
    bytes m' dst (length d) = d /\ frame m m' dst (Z.of_nat (length d)).
Proof.
  intros H Hok Ha Hn Hoff d. destruct ((p =? 0) || (dst =? 0)) eqn:Hnull.
  - exists m. unfold pbuf_copy_partial. rewrite Hnull. cbn. done.
  - bool_to_prop. by apply pbuf_copy_partial_spec.
Qed.

Lemma sample_chain_ok : chain sample_store 16 sample_list.
Proof. repeat (constructor; [done | done |]). constructor. Qed.

Lemma pbuf_copy_partial_correct_witness :
  exists m', pbuf_copy_partial sample_text sample_store 16 400 2 1 = Some (m', 2) /\
    bytes m' 400 2 = [97; 98].
Proof.
  destruct (pbuf_copy_partial_correct sample_text sample_store 16 sample_list 400 2 1)
    as (m' & Hr & Hb & _);
    [exact sample_chain_ok | cbn; lia | repeat constructor; cbn; lia | lia | lia |].
  exists m'. split; [exact Hr | exact Hb].
Defined.

(** [pbuf_take] fills a packet with a buffer and [pbuf_copy_partial] reads it
    back: for a packet of separate payloads, apart from the source and the
    destination buffer, the round trip returns the [n] bytes of the source, and
    bytes outside the packet's payloads survive the first step. *)
Theorem pbuf_take_copy_roundtrip m st p b l src dst n :
  chain st p ((p, b) :: l) -> lengths_ok ((p, b) :: l) -> separate ((p, b) :: l) ->
  src <> 0 -> dst <> 0 -> apart ((p, b) :: l) src n -> apart ((p, b) :: l) dst n ->
  0 <= n <= tot_len b ->
  exists m1 m2, pbuf_take m st p src n = Some (m1, ERR_OK) /\
    pbuf_copy_partial m1 st p dst n 0 = Some (m2, n) /\
    bytes m2 dst (Z.to_nat n) = bytes m src (Z.to_nat n) /\
    (forall x, ~ in_payload ((p, b) :: l) x -> ld8 m1 x = ld8 m x).
Proof.
  intros H Hok Hs Hsrc Hdst Ha1 Ha2 Hn.
  destruct (pbuf_take_spec m st p b l src n H Hok Hsrc Ha1 Hs Hn) as (m1 & Hr1 & Hd1 & Hf1).
  assert (tot_len b < 65536) by (cbn in Hok; lia).
  destruct (pbuf_copy_partial_spec m1 st p ((p, b) :: l) dst n 0 H Hok) as (m2 & Hr2 & Hb2 & _);
    try done; try lia; [by inversion H |].
  rewrite Hd1 in Hr2, Hb2. change (Z.to_nat 0) with 0%nat in *. rewrite drop_0 in *.
  rewrite take_app_length' in Hr2, Hb2 by (by rewrite bytes_length).
  rewrite bytes_length, Z2Nat.id in Hr2 by lia. rewrite bytes_length in Hb2.
  exists m1, m2. done.
Qed.

Lemma pbuf_take_copy_roundtrip_witness :
  exists m1 m2, pbuf_take sample_text sample_store 16 300 2 = Some (m1, ERR_OK) /\
    pbuf_copy_partial m1 sample_store 16 400 2 0 = Some (m2, 2) /\
    bytes m2 400 2 = [97; 98].
Proof.
  destruct (pbuf_take_copy_roundtrip sample_text sample_store 16 (mkPbuf 32 100 3 1 PBUF_RAM 0 1)
    [(32, mkPbuf 0 200 2 2 PBUF_RAM 0 1)] 300 400 2) as (m1 & m2 & H1 & H2 & H3 & _);
    [exact sample_chain_ok | cbn; lia | cbn; repeat constructor; cbn; lia | lia | lia
    | repeat constructor; cbn; lia | repeat constructor; cbn; lia | cbn; lia |].
  exists m1, m2. split; [exact H1 |]. split; [exact H2 | exact H3].
Defined.

(** * Copying a packet into another *)

(** [x] written over [d] from position [o] on. *)
Definition splice (d : list Z) (o : nat) (x : list Z) : list Z :=
  take o d ++ x ++ drop (o + length x) d.

Lemma splice_splice d o x y :
  (o + length x <= length d)%nat -> splice (splice d o x) (o + length x) y = splice d o (x ++ y).
Proof.
  intros H. unfold splice. rewrite length_app, !(app_assoc (take o d) x (drop _ d)).
  assert (length (take o d ++ x) = (o + length x)%nat) as Hl
    by (rewrite length_app, length_take; lia).
  rewrite (take_app_length' (take o d ++ x)) by lia. rewrite drop_app_ge by lia.
  rewrite Hl, drop_drop, <- !app_assoc. do 3 f_equal. f_equal. lia.
Qed.

Lemma splice_app_l a b o x :
  (o + length x <= length a)%nat -> splice (a ++ b) o x = splice a o x ++ b.
Proof.
  intros H. unfold splice. rewrite take_app_le, drop_app_le by lia. by rewrite <- !app_assoc.
Qed.

Lemma splice_app_r a b x : splice (a ++ b) (length a) x = a ++ splice b 0 x.
Proof.
  unfold splice. rewrite take_app_length, take_0. cbn [app]. f_equal. f_equal.
  rewrite drop_app_ge by lia. f_equal. lia.
Qed.

Lemma splice_nil d o : splice d o [] = d.
Proof. unfold splice. cbn. rewrite Nat.add_0_r. apply take_drop. Qed.

(** Bytes copied into a region are a splice of its contents. *)
Lemma bytes_splice m m2 a n o src k :
  (o + k <= n)%nat -> Mylib.copied m m2 (a + Z.of_nat o) src (Z.of_nat k) ->
  bytes m2 a n = splice (bytes m a n) o (bytes m src k).
Proof.
  intros Hk Hc. pose proof (Mylib.copied_bytes _ _ _ _ _ Hc) as Hb. destruct Hc as [_ Hf].
  unfold splice. rewrite bytes_length, take_bytes, drop_bytes, <- Hb by lia.
  replace n with (o + (k + (n - (o + k))))%nat at 1 by lia. rewrite !bytes_app.
  f_equal; [apply bytes_ext; intros x Hx; apply Hf; lia |]. f_equal.
  replace (a + Z.of_nat (o + k)) with (a + Z.of_nat o + Z.of_nat k) by lia.
  apply bytes_ext. intros x Hx. apply Hf. lia.
Qed.

(** No empty pbuf in a packet. *)
Definition filled (l : list (Z * pbuf)) : Prop := Forall (fun x => 0 < len x.2) l.

Lemma is_queue_filled st p l : chain st p l -> lengths_ok l -> filled l -> is_queue st p = Some false.
Proof.
  intros H Hok Hf. unfold is_queue.
  destruct (chain_inv _ _ _ H) as [[-> _] | (Hp & b & l' & -> & Hb & Hc)]; [done |].
  rewrite (proj2 (Z.eqb_neq p 0)) by done. rewrite Hb. cbn [mbind option_bind]. f_equal.
  apply andb_false_iff. cbn in Hok. destruct Hok as (Ht & Hl & Hm & Hok).
  destruct (chain_inv _ _ _ Hc) as [[-> _] | (Hq & c & l2 & -> & _ & _)]; [by right |].
  left. apply Z.eqb_neq. inversion Hf as [| ? ? Hfb Hf']; subst. inversion Hf' as [| ? ? Hfc _]; subst.
  cbn in *. destruct Hok as (_ & _ & _ & Hok). pose proof (chain_len_nonneg l2 Hok). lia.
Qed.

(** What the two chains of a copy satisfy. *)
Record copyable (st : pstore) (p_to p_from : Z) (lt lf : list (Z * pbuf)) : Prop := {
  cp_to : chain st p_to lt;
  cp_from : chain st p_from lf;
  cp_to_ok : lengths_ok lt;
  cp_from_ok : lengths_ok lf;
  cp_to_filled : filled lt;
  cp_from_filled : filled lf;
  cp_sep : separate lt;
  cp_apart : Forall (fun x => apart lt (payload x.2) (len x.2)) lf
}.

Lemma copyable_from_tail st pt pf b lt lf :
  copyable st pt pf lt ((pf, b) :: lf) -> copyable st pt (next b) lt lf.
Proof.
  intros [H1 H2 H3 H4 H5 H6 H7 H8]. inversion H2; subst. inversion H6; subst. inversion H8; subst.
  cbn in H4. split; try done. tauto.
Qed.

Lemma copyable_to_tail st pt pf b lt lf :
  copyable st pt pf ((pt, b) :: lt) lf -> copyable st (next b) pf lt lf.
Proof.
  intros [H1 H2 H3 H4 H5 H6 H7 H8]. inversion H1; subst. inversion H5; subst.
  cbn in H3, H7. split; try done; try tauto.
  eapply Forall_impl; [done |]. intros x Hx. cbn in Hx. by inversion Hx.
Qed.

(** A change inside one pbuf of the target leaves the source. *)
Lemma source_kept m m2 lt lf a k :
  lengths_ok lf -> Forall (fun x => apart lt (payload x.2) (len x.2)) lf ->
  (forall x, a <= x < a + k -> in_payload lt x) -> frame m m2 a k ->
  chain_data m2 lf = chain_data m lf.
Proof.
  intros Hok Ha Hin Hf. induction lf as [| [p b] lf IH]; cbn; [done |].
  cbn in Hok. destruct Hok as (_ & Hl & _ & Hok). inversion Ha as [| ? ? Hb Ha']; subst. cbn in Hb.
  rewrite IH by done. f_equal. apply bytes_ext. intros x Hx. apply Hf. intros Hk.
  apply (apart_not_in lt (payload b) (len b) x Hb); [lia | by apply Hin].
Qed.

(** One step of the copy, on the data: [k] bytes go from the source pbuf to the
    target pbuf. *)
Lemma copy_step_data st pt pf bt bf lt lf m m2 ot fo k :
  copyable st pt pf ((pt, bt) :: lt) ((pf, bf) :: lf) ->
  0 <= ot -> 0 <= fo -> 0 <= k -> ot + k <= len bt -> fo + k <= len bf ->
  Mylib.copied m m2 (payload bt + ot) (payload bf + fo) k ->
  chain_data m2 ((pt, bt) :: lt) =
    splice (chain_data m ((pt, bt) :: lt)) (Z.to_nat ot) (bytes m (payload bf + fo) (Z.to_nat k)) /\
  chain_data m2 ((pf, bf) :: lf) = chain_data m ((pf, bf) :: lf) /\
  chain_data m2 lt = chain_data m lt.
Proof.
  intros [H1 H2 H3 H4 H5 H6 H7 H8] Hot Hfo Hk Hkt Hkf Hc. pose proof Hc as [_ Hfr].
  cbn in H3, H7. destruct H3 as (_ & Hlt & _ & Hokt), H7 as [Hap Hsep].
  assert (chain_data m2 lt = chain_data m lt) as Hlt2
    by (by apply (chain_data_frame m m2 lt (payload bt) (len bt) k ot); try lia).
  split; [| split; [| done]].
  - cbn [chain_data]. rewrite Hlt2. rewrite splice_app_l by (rewrite !bytes_length; lia). f_equal.
    apply bytes_splice; [lia |]. by rewrite !Z2Nat.id by lia.
  - apply (source_kept m m2 ((pt, bt) :: lt) ((pf, bf) :: lf) (payload bt + ot) k H4 H8); [| done].
    intros x Hx. apply Exists_cons. left. cbn. lia.
Qed.

(** The data still to copy, before and after a step. *)
Lemma remaining_data m bf lf (pf fo k : Z) :
  lengths_ok ((pf, bf) :: lf) -> 0 <= fo -> 0 <= k -> fo + k <= len bf ->
  drop (Z.to_nat fo) (chain_data m ((pf, bf) :: lf)) =
    bytes m (payload bf + fo) (Z.to_nat k) ++ drop (Z.to_nat (fo + k)) (chain_data m ((pf, bf) :: lf)).
Proof.
  intros Hok Hfo Hk Hkf. cbn [chain_data].
  rewrite <- (take_drop (Z.to_nat k) (drop (Z.to_nat fo) _)) at 1. rewrite drop_drop.
  f_equal; [| f_equal; lia].
  rewrite drop_app_le by (rewrite bytes_length; lia). rewrite drop_bytes by lia.
  rewrite take_app_le by (rewrite bytes_length; lia). rewrite take_bytes by lia.
  rewrite Z2Nat.id by lia. done.
Qed.

(** A source pbuf that was copied to its end. *)
Lemma remaining_tail m pf bf lf o :
  0 <= o -> o = len bf -> drop (Z.to_nat o) (chain_data m ((pf, bf) :: lf)) = chain_data m lf.
Proof.
  intros Ho ->. cbn [chain_data]. rewrite drop_app_length'; [done | by rewrite bytes_length].
Qed.

(** A copy that goes on in the pbufs behind a full one. *)
Lemma to_tail_data m m2 m' pt bt lt y :
  separate ((pt, bt) :: lt) -> 0 <= len bt ->
  chain_data m' lt = splice (chain_data m2 lt) 0 y ->
  (forall x, ~ in_payload lt x -> ld8 m' x = ld8 m2 x) ->
  (forall x, ~ in_payload ((pt, bt) :: lt) x -> ld8 m2 x = ld8 m x) ->
  chain_data m' ((pt, bt) :: lt) = splice (chain_data m2 ((pt, bt) :: lt)) (Z.to_nat (len bt)) y /\
  (forall x, ~ in_payload ((pt, bt) :: lt) x -> ld8 m' x = ld8 m x).
Proof.
  intros [Hap _] Hl Hd Hf' Hf2. split.
  - cbn [chain_data].
    replace (Z.to_nat (len bt)) with (length (bytes m2 (payload bt) (Z.to_nat (len bt)))) at 3
      by apply bytes_length.
    rewrite splice_app_r, Hd. f_equal. apply bytes_ext. intros x Hx. apply Hf'.
    apply (apart_not_in lt (payload bt) (len bt)); [done | lia].
  - intros x Hx. rewrite Hf', Hf2; [done | done |]. intros Hin. apply Hx, Exists_cons. by right.
Qed.

Lemma copy_loop st fuel pt pf bt bf lt lf m ot fo :
  copyable st pt pf ((pt, bt) :: lt) ((pf, bf) :: lf) ->
  0 <= ot < len bt -> 0 <= fo < len bf ->
  chain_len ((pf, bf) :: lf) - fo <= chain_len ((pt, bt) :: lt) - ot ->
  (length lt + length lf < fuel)%nat ->
  exists m', while fuel (copy_body st) (m, pt, pf, ot, fo) = Some (Some (m', ERR_OK)) /\
    chain_data m' ((pt, bt) :: lt) =
      splice (chain_data m ((pt, bt) :: lt)) (Z.to_nat ot)
        (drop (Z.to_nat fo) (chain_data m ((pf, bf) :: lf))) /\
    (forall x, ~ in_payload ((pt, bt) :: lt) x -> ld8 m' x = ld8 m x).
Proof.
  revert pt pf bt bf lt lf m ot fo. induction fuel as [| fuel IH];
    intros pt pf bt bf lt lf m ot fo Hcp Hot Hfo Hfit Hf; [lia |].
  pose proof Hcp as [Hct Hcf Hokt Hokf Hft Hff Hsep Hap].
  destruct (chain_inv _ _ _ Hct) as [[_ ?] | (Hpt & ? & ? & E & Hbt & Hct')]; [done |].
  injection E as <- <-.
  destruct (chain_inv _ _ _ Hcf) as [[_ ?] | (Hpf & ? & ? & E & Hbf & Hcf')]; [done |].
  injection E as <- <-.
  assert (len bt < 65536 /\ 0 <= chain_len lt) as [Hlt16 Hclt].
  { cbn in Hokt. pose proof (chain_len_nonneg lt ltac:(tauto)). lia. }
  assert (len bf < 65536 /\ 0 <= chain_len lf) as [Hlf16 Hclf].
  { cbn in Hokf. pose proof (chain_len_nonneg lf ltac:(tauto)). lia. }
  rewrite while_S. unfold copy_body at 1. rewrite Hbt, Hbf. unfold copy_len.
  set (k := if len bf - fo <=? len bt - ot then len bf - fo else len bt - ot).
  assert (k = Z.min (len bf - fo) (len bt - ot)) as Hk by (unfold k; case_bool; lia). clearbody k.
  rewrite !(u16_id k) by lia.
  destruct (Mylib.memcpy_spec m (payload bt + ot) (payload bf + fo) k) as (m2 & Hm2 & Hc); [lia | |].
  { inversion Hap as [| ? ? Hb _]; subst. inversion Hb as [| ? ? Hb' _]; subst. cbn in Hb'.
    unfold Mylib.forward_safe. lia. }
  rewrite Hm2. rewrite !u16_id by lia.
  destruct (copy_step_data st pt pf bt bf lt lf m m2 ot fo k Hcp) as (Hd2 & Hs2 & _); try done; try lia.
  assert (forall x, ~ in_payload ((pt, bt) :: lt) x -> ld8 m2 x = ld8 m x) as Hfr2.
  { intros x Hx. destruct Hc as [_ Hfr]. apply Hfr. intros Hin. apply Hx, Exists_cons. left. cbn. lia. }
  pose proof (remaining_data m bf lf pf fo k Hokf ltac:(lia) ltac:(lia) ltac:(lia)) as Hrem.
  assert (forall y, splice (chain_data m2 ((pt, bt) :: lt)) (Z.to_nat (ot + k)) y =
            splice (chain_data m ((pt, bt) :: lt)) (Z.to_nat ot)
              (bytes m (payload bf + fo) (Z.to_nat k) ++ y)) as Hsp.
  { intros y. rewrite Hd2.
    replace (Z.to_nat (ot + k)) with (Z.to_nat ot + length (bytes m (payload bf + fo) (Z.to_nat k)))%nat
      by (rewrite bytes_length; lia).
    apply splice_splice. rewrite bytes_length. pose proof (chain_data_length m _ Hokt) as Hl.
    cbn [chain_len] in Hl. lia. }
  rewrite Hrem, <- Hsp, <- Hs2. clear Hrem Hsp Hd2 Hm2 Hc.
  assert (fo + k = len bf \/ (fo + k < len bf /\ ot + k = len bt)) as Hcase by lia.
  destruct Hcase as [Hfk | [Hfk Htk]].
  - (* the source pbuf is finished *)
    rewrite (proj2 (Z.leb_le (len bf) (fo + k))) by lia.
    pose proof (copyable_from_tail _ _ _ _ _ _ Hcp) as Hcp1.
    rewrite (remaining_tail m2 pf bf lf (fo + k)) by (done || lia).
    destruct (Z.eqb_spec (ot + k) (len bt)) as [Htk | Htk].
    + pose proof (copyable_to_tail _ _ _ _ _ _ Hcp1) as Hcp2.
      destruct (chain_inv _ _ _ Hcf') as [[E ->] | (Hq & bf2 & lf2 & -> & Hbf2 & _)].
      * rewrite E, andb_false_r. cbn [is_queue Z.eqb].
        rewrite (is_queue_filled st (next bt) lt) by apply Hcp2. cbn [orb chain_data].
        exists m2. rewrite splice_nil. done.
      * destruct (chain_inv _ _ _ Hct') as [[E ->] | (Hq2 & bt2 & lt2 & -> & Hbt2 & _)].
        { exfalso. inversion Hff as [| ? ? _ Hff2]; subst. inversion Hff2; subst. cbn in *.
          pose proof (chain_len_nonneg lf2 ltac:(tauto)). lia. }
        rewrite (proj2 (Z.eqb_neq (next bt) 0)) by done. cbn [andb].
        rewrite (is_queue_filled st _ _ (cp_from _ _ _ _ _ Hcp2)), (is_queue_filled st _ _ (cp_to _ _ _ _ _ Hcp2))
          by apply Hcp2. cbn [orb]. rewrite (proj2 (Z.eqb_neq (next bf) 0)) by done.
        destruct (IH _ _ _ _ _ _ m2 0 0 Hcp2) as (m' & Hr & Hd & Hfr);
          [ | | cbn in *; lia | cbn in *; lia |].
        { inversion Hft as [| ? ? _ Hft2]; subst. inversion Hft2; subst. cbn in *. lia. }
        { inversion Hff as [| ? ? _ Hff2]; subst. inversion Hff2; subst. cbn in *. lia. }
        exists m'. split; [done |]. rewrite Htk. change (Z.to_nat 0) with 0%nat in Hd. rewrite drop_0 in Hd.
        apply (to_tail_data m m2); (done || lia).
    + destruct (chain_inv _ _ _ Hcf') as [[E ->] | (Hq & bf2 & lf2 & -> & Hbf2 & _)].
      * rewrite E. rewrite (is_queue_filled st pt _ Hct) by done. cbn [is_queue Z.eqb orb chain_data].
        exists m2. rewrite splice_nil. done.
      * rewrite (is_queue_filled st _ _ (cp_from _ _ _ _ _ Hcp1)), (is_queue_filled st _ _ (cp_to _ _ _ _ _ Hcp1))
          by apply Hcp1. cbn [orb]. rewrite (proj2 (Z.eqb_neq (next bf) 0)) by done.
        destruct (IH _ _ _ _ _ _ m2 (ot + k) 0 Hcp1) as (m' & Hr & Hd & Hfr);
          [lia | | cbn in *; lia | cbn in *; lia |].
        { inversion Hff as [| ? ? _ Hff2]; subst. inversion Hff2; subst. cbn in *. lia. }
        exists m'. split; [done |]. change (Z.to_nat 0) with 0%nat in Hd. rewrite drop_0 in Hd.
        split; [done |]. intros x Hx. by rewrite Hfr, Hfr2.
  - (* the target pbuf is full *)
    rewrite (proj2 (Z.leb_gt (len bf) (fo + k))) by lia. rewrite (proj2 (Z.eqb_eq (ot + k) (len bt))) by done.
    pose proof (copyable_to_tail _ _ _ _ _ _ Hcp) as Hcp2.
    destruct (chain_inv _ _ _ Hct') as [[E ->] | (Hq2 & bt2 & lt2 & -> & Hbt2 & _)].
    { cbn in Hfit. lia. }
    rewrite (proj2 (Z.eqb_neq (next bt) 0)) by done. cbn [andb].
    rewrite (is_queue_filled st _ _ (cp_from _ _ _ _ _ Hcp2)), (is_queue_filled st _ _ (cp_to _ _ _ _ _ Hcp2))
      by apply Hcp2. cbn [orb]. rewrite (proj2 (Z.eqb_neq pf 0)) by done.
    destruct (IH _ _ _ _ _ _ m2 0 (fo + k) Hcp2) as (m' & Hr & Hd & Hfr);
      [ | lia | cbn in *; lia | cbn in *; lia |].
    { inversion Hft as [| ? ? _ Hft2]; subst. inversion Hft2; subst. cbn in *. lia. }
    exists m'. split; [done |]. rewrite Htk. apply (to_tail_data m m2); (done || lia).
Qed.

(** [pbuf_copy] copies a packet into another, whatever the sizes of their
    pbufs: for packets without empty pbufs whose payloads do not overlap and a
    target at least as long as the source it returns ERR_OK, the target's data
    starts with the source's data and keeps its own bytes behind it, and no byte
    outside the target's payloads changes; a target that is too short is refused
    with ERR_ARG and nothing is written. *)
Theorem pbuf_copy_correct m st pt pf bt bf lt lf :
  copyable st pt pf ((pt, bt) :: lt) ((pf, bf) :: lf) ->
  if tot_len bt <? tot_len bf then pbuf_copy m st pt pf = Some (m, ERR_ARG)
  else exists m', pbuf_copy m st pt pf = Some (m', ERR_OK) /\
    chain_data m' ((pt, bt) :: lt) =
      chain_data m ((pf, bf) :: lf) ++ drop (Z.to_nat (tot_len bf)) (chain_data m ((pt, bt) :: lt)) /\
    (forall x, ~ in_payload ((pt, bt) :: lt) x -> ld8 m' x = ld8 m x).
Proof.
  intros Hcp. pose proof Hcp as [Hct Hcf Hokt Hokf Hft Hff _ _].
  destruct (chain_inv _ _ _ Hct) as [[_ ?] | (Hpt & ? & ? & E & Hbt & _)]; [done |]. injection E as <- <-.
  destruct (chain_inv _ _ _ Hcf) as [[_ ?] | (Hpf & ? & ? & E & Hbf & _)]; [done |]. injection E as <- <-.
  unfold pbuf_copy. rewrite (proj2 (Z.eqb_neq pt 0)), (proj2 (Z.eqb_neq pf 0)) by done.
  cbn [orb]. rewrite Hbt, Hbf. cbn [mbind option_bind].
  destruct (Z.ltb_spec (tot_len bt) (tot_len bf)) as [| Hle]; [done |].
  pose proof (chain_tot_len _ _ _ Hokt) as Ett. pose proof (chain_tot_len _ _ _ Hokf) as Etf.
  pose proof (chain_length_size _ _ _ Hct). pose proof (chain_length_size _ _ _ Hcf).
  inversion Hft as [| ? ? Hft1 _]; subst. inversion Hff as [| ? ? Hff1 _]; subst. cbn in Hft1, Hff1.
  destruct (copy_loop st (S (2 * size st)) pt pf bt bf lt lf m 0 0 Hcp) as (m' & Hr & Hd & Hfr);
    [lia | lia | lia | cbn in *; lia |].
  exists m'. rewrite Hr. split; [done |]. split; [| done].
  rewrite Hd. change (Z.to_nat 0) with 0%nat. unfold splice. rewrite drop_0, take_0. cbn [app].
  f_equal. f_equal. pose proof (chain_data_length m _ Hokf). lia.
Qed.

(** Three pbufs of 2, 1 and 2 bytes that receive the two of [sample_list]. *)
Definition copy_store : pstore :=
  {[ 16 := mkPbuf 32 100 3 1 PBUF_RAM 0 1; 32 := mkPbuf 0 200 2 2 PBUF_RAM 0 1;
     48 := mkPbuf 64 500 5 2 PBUF_RAM 0 1; 64 := mkPbuf 80 510 3 1 PBUF_RAM 0 1;
     80 := mkPbuf 0 520 2 2 PBUF_RAM 0 1 ]}.

Lemma pbuf_copy_correct_witness :
  exists m', pbuf_copy sample_text copy_store 48 16 = Some (m', ERR_OK) /\
    bytes m' 500 2 = [97; 97] /\ bytes m' 510 1 = [98].
Proof.
  destruct (pbuf_copy_correct sample_text copy_store 48 16 (mkPbuf 64 500 5 2 PBUF_RAM 0 1)
    (mkPbuf 32 100 3 1 PBUF_RAM 0 1)
    [(64, mkPbuf 80 510 3 1 PBUF_RAM 0 1); (80, mkPbuf 0 520 2 2 PBUF_RAM 0 1)]
    [(32, mkPbuf 0 200 2 2 PBUF_RAM 0 1)]) as (m' & Hr & Hd & _).
  - split; try (repeat (constructor; [done | done |]); constructor); try (cbn; lia);
      try (repeat constructor; cbn; lia).
  - exists m'. split; [exact Hr |]. cbn in Hd. injection Hd as H1 H2 H3 _ _. cbn.
    rewrite H1, H2, H3. split; reflexivity.
Defined.

End PbufData.
