(* ===== verification/PbufChains.v ===== *)
(** Packet buffers as a resource: allocation, reference counting and release of
    chains, proved against the interface of the allocators
    ([MemSystemLaws]). *)

From stdpp Require Import base tactics numbers list gmap.
From Stdlib Require Import ZArith Lia.
From S2P Require Import Prelude PbufDefs Mylib Allocator Mem Memp PbufMem World Pbuf PbufData.

Local Open Scope Z_scope.

Module PbufChains.
Import Mem Memp Pbuf PbufData.

(** Removing the entries of a list of pbufs from a map. *)
Fixpoint del {A} (l : list (Z * pbuf)) (M : gmap Z A) : gmap Z A :=
  match l with [] => M | (a, _) :: l => del l (delete a M) end.

Lemma lookup_del {A} l (M : gmap Z A) x : del l M !! x = if decide (x ∈ l.*1) then None else M !! x.
Proof.
  revert M. induction l as [| [a b] l IH]; intros M; [done |]. cbn [del]. rewrite IH. cbn.
  destruct (decide (x ∈ l.*1)) as [Hin | Hin].
  { rewrite decide_True; [done |]. apply elem_of_cons. by right. }
  destruct (decide (x = a)) as [-> | Hne].
  - rewrite lookup_delete_eq, decide_True; [done |]. apply elem_of_cons. by left.
  - rewrite lookup_delete_ne by done. rewrite decide_False; [done |]. rewrite elem_of_cons. tauto.
Qed.

Lemma del_delete {A} l (M : gmap Z A) a : del l (delete a M) = delete a (del l M).
Proof.
  apply map_eq. intros x. rewrite lookup_del. destruct (decide (x = a)) as [-> | Hne].
  - rewrite !lookup_delete_eq. by destruct (decide _).
  - rewrite !lookup_delete_ne by done. by rewrite lookup_del.
Qed.

Section laws.
Context {W : Type} `{LW : MemSystemLaws W}.
Context (stale : Z -> Z) (custom_free : pstate W -> Z -> option (pstate W)).
(** The memory of a pbuf never held the flag of a custom pbuf. *)
Context (stale_ok : forall p, Z.land (stale p) PBUF_FLAG_IS_CUSTOM = 0).

Implicit Types (s : pstate W) (L : regions).

Abbreviation pbuf_free := (Pbuf.pbuf_free custom_free).
Abbreviation pbuf_alloc := (Pbuf.pbuf_alloc stale custom_free).

(** The pool a pbuf comes from. *)
Definition home (ty : pbuf_type) : option memp_t :=
  match ty with
  | PBUF_POOL => Some MEMP_PBUF_POOL
  | PBUF_ROM | PBUF_REF => Some MEMP_PBUF
  | PBUF_RAM => None
  end.

(** A live pbuf has its memory: a region of the allocator its type names, which
    holds the payload when the pbuf owns one. *)
Definition pbuf_ok L (p : Z) (b : pbuf) : Prop :=
  Z.land (flags b) PBUF_FLAG_IS_CUSTOM = 0 /\ 1 <= ref b < 65536 /\ 0 <= len b /\
  ms_pool p = home (type b) /\
  exists n, L !! p = Some n /\ 16 <= n /\
    match type b with
    | PBUF_RAM | PBUF_POOL => p + 16 <= payload b /\ payload b + len b <= p + n
    | PBUF_ROM | PBUF_REF => True
    end.

Record psys s L : Prop := {
  ps_live : ms_live (pw s) L;
  ps_pbuf : forall p b, pst s !! p = Some b -> pbuf_ok L p b
}.

(** Deallocating one pbuf. *)
Lemma dealloc_spec s L p b b0 :
  psys s L -> pst s !! p = Some b0 -> type b = type b0 -> flags b = flags b0 ->
  exists w, pbuf_dealloc custom_free (set_pst s (<[p := b]> (pst s))) p b
      = Some (set_pst (set_pw s w) (delete p (pst s))) /\
    psys (set_pst (set_pw s w) (delete p (pst s))) (delete p L) /\
    preserves (mem_of s) (ms_mem w) (delete p L).
Proof.
  intros [Hl Hb] Hp Hty Hfl. destruct (Hb p b0 Hp) as (Hc & Hr & Hlen & Hk & n & Hn & _).
  unfold pbuf_dealloc. rewrite Hfl, Hc. cbn [Z.eqb negb].
  set (w := match type b with
            | PBUF_POOL => _ | PBUF_ROM => _ | PBUF_REF => _ | PBUF_RAM => _ end).
  assert (ms_live w (delete p L) /\ preserves (mem_of s) (ms_mem w) (delete p L)) as [Hl' Hpr].
  { unfold w, mem_of. rewrite Hty in *. cbn [pw set_pst]. destruct (type b0); cbn in Hk.
    - apply (release_spec (Releases := ms_free_law) (pw s) L p n Hl Hn Hk).
    - apply (release_spec (Releases := ms_memp_free_law MEMP_PBUF) (pw s) L p n Hl Hn Hk).
    - apply (release_spec (Releases := ms_memp_free_law MEMP_PBUF) (pw s) L p n Hl Hn Hk).
    - apply (release_spec (Releases := ms_memp_free_law MEMP_PBUF_POOL) (pw s) L p n Hl Hn Hk). }
  clearbody w. exists w. split.
  { f_equal. unfold set_pst, set_pw. cbn. f_equal. apply delete_insert_eq. }
  split; [| done]. split; [done |]. cbn. intros q c Hq.
  apply lookup_delete_Some in Hq as [Hne Hq].
  destruct (Hb q c Hq) as (H1 & H2 & H3 & H4 & k & Hk' & H6).
  repeat (split; [done |]). exists k. by rewrite lookup_delete_ne.
Qed.

(** Where a release of a chain stops: at its end or at a pbuf that has other
    references. *)
Definition stops (l : list (Z * pbuf)) : Prop :=
  match l with [] => True | (_, b) :: _ => 1 < ref b end.

(** The store after the pbuf at the head of [l] lost a reference. *)
Definition drop_ref (l : list (Z * pbuf)) (st : pstore) : pstore :=
  match l with [] => st | (q, b) :: _ => <[q := set_ref b (ref b - 1)]> st end.

Lemma free_loop l1 l2 fuel s L p c :
  psys s L -> chain (pst s) p (l1 ++ l2) -> Forall (fun x => ref x.2 = 1) l1 -> stops l2 ->
  (S (length l1) < fuel)%nat -> 0 <= c < 256 ->
  exists s', while fuel (free_body custom_free) (s, p, c)
      = Some (Some (s', u8 (c + Z.of_nat (length l1)))) /\
    pst s' = drop_ref l2 (del l1 (pst s)) /\ psys s' (del l1 L) /\
    ooseq_pending s' = ooseq_pending s /\ preserves (mem_of s) (mem_of s') (del l1 L) /\
    (l1 = [] -> pw s' = pw s).
Proof.
  revert fuel s L p c. induction l1 as [| [p0 b0] l1 IH]; intros fuel s L p c Hs Hc H1 H2 Hf Hc8;
    (destruct fuel as [| fuel]; [lia |]); rewrite while_S; unfold free_body at 1; cbn [length] in *.
  - cbn [app] in Hc. replace (u8 (c + Z.of_nat 0)) with c by (rewrite u8_id; lia).
    destruct (chain_inv _ _ _ Hc) as [[-> ->] | (Hp & b & l & -> & Hb & Hcn)].
    { cbn [Z.eqb]. exists s. split; [done |]. split; [done |]. split; [done |].
      split; [done | split; [apply preserves_refl | done]]. }
    rewrite (proj2 (Z.eqb_neq p 0)) by done. rewrite Hb.
    destruct (ps_pbuf _ _ Hs p b Hb) as (Hcu & Hrf & Hlen & Hk & n & Hn & H16 & Hty).
    cbn [stops] in H2. rewrite u16_id by lia. rewrite (proj2 (Z.eqb_neq (ref b - 1) 0)) by lia.
    destruct fuel as [| fuel]; [lia |]. rewrite while_S. cbn [free_body Z.eqb].
    eexists. split; [reflexivity |]. split; [done |]. split; [| split; [done | split; [apply preserves_refl | done]]].
    split; [apply Hs |]. cbn. intros q d Hq. apply lookup_insert_Some in Hq as [[<- <-] | [_ Hq]];
      [| by apply (ps_pbuf _ _ Hs)].
    split; [done |]. split; [cbn; lia |]. split; [done |]. split; [done |]. exists n. done.
  - cbn [app] in Hc. inversion Hc as [| ? ? ? Hp Hb Hcn]; subst. inversion H1 as [| ? ? Hr1 H1']; subst.
    cbn in Hr1. rewrite (proj2 (Z.eqb_neq p0 0)) by done. rewrite Hb, Hr1.
    change (u16 (1 - 1)) with 0. cbn [Z.eqb set_ref next].
    destruct (dealloc_spec s L p0 (set_ref b0 0) b0 Hs Hb eq_refl eq_refl) as (w & Hd & Hs1 & Hpr).
    rewrite Hd. pose proof (chain_NoDup _ _ _ Hc) as Hnd. cbn in Hnd. inversion Hnd as [| ? ? Hni _]; subst.
    destruct (IH fuel _ _ (next b0) (u8 (c + 1)) Hs1) as (s' & Hr & Hst & Hs' & Hpe & Hpr' & _); try done.
    + cbn. by apply chain_delete_ne.
    + lia.
    + apply u8_range.
    + exists s'. split.
      { etrans; [exact Hr |]. do 3 f_equal. unfold u8.
        rewrite Zplus_mod_idemp_l. f_equal. lia. }
      split; [done |]. split; [done |]. split; [done |]. split; [| done].
      intros x Hx. rewrite Hpr' by done. apply Hpr. cbn [del] in Hx.
      destruct Hx as (q & k & Hq & Hx). exists q, k. split; [| done].
      rewrite lookup_del in Hq. by destruct (decide _).
Qed.

Lemma pbuf_free_spec l1 l2 s L p :
  psys s L -> chain (pst s) p (l1 ++ l2) -> Forall (fun x => ref x.2 = 1) l1 -> stops l2 ->
  exists s', pbuf_free s p = Some (s', u8 (Z.of_nat (length l1))) /\
    pst s' = drop_ref l2 (del l1 (pst s)) /\ psys s' (del l1 L) /\
    ooseq_pending s' = ooseq_pending s /\ preserves (mem_of s) (mem_of s') (del l1 L) /\
    (l1 = [] -> pw s' = pw s).
Proof.
  intros Hs Hc H1 H2. unfold Pbuf.pbuf_free. destruct (Z.eqb_spec p 0) as [-> | Hp].
  - destruct (chain_inv _ _ _ Hc) as [[_ E] | [? _]]; [| done].
    apply app_eq_nil in E as [-> ->]. exists s. cbn.
    split; [done |]. split; [done |]. split; [done |]. split; [done | split; [apply preserves_refl | done]].
  - pose proof (chain_length_size _ _ _ Hc) as Hsz. rewrite length_app in Hsz.
    destruct (free_loop l1 l2 (S (S (size (pst s)))) s L p 0 Hs Hc H1 H2) as (s' & Hr & H'); [lia | lia |].
    exists s'. rewrite Hr, Z.add_0_l. done.
Qed.

(** Every chain splits where its release stops. *)
Lemma free_split l :
  Forall (fun x => 1 <= ref x.2) l ->
  exists l1 l2, l = l1 ++ l2 /\ Forall (fun x => ref x.2 = 1) l1 /\ stops l2.
Proof.
  induction 1 as [| [p b] l Hr _ IH]; [by exists [], [] |].
  destruct (decide (ref b = 1)) as [E | E].
  - destruct IH as (l1 & l2 & -> & H1 & H2). exists ((p, b) :: l1), l2. split; [done |].
    split; [by constructor | done].
  - exists [], ((p, b) :: l). cbn in *. split; [done |]. split; [constructor | cbn; lia].
Qed.

(** C32: [pbuf_free] of a finite chain of pbufs, in a buffer system that is consistent (every
    pbuf has at least one reference, none is a custom one, and its memory is live), always
    returns.  It releases the pbufs at the head of the chain up to the first one
    with other references: these and only these leave the store and return
    their memory to the allocator they came from, the next one loses a single
    reference, the number returned counts them modulo 256, the live data of all
    other regions is unchanged, and the buffer system stays consistent. *)
Theorem pbuf_free_releases s L p l :
  psys s L -> chain (pst s) p l ->
  exists l1 l2 s', l = l1 ++ l2 /\ Forall (fun x => ref x.2 = 1) l1 /\ stops l2 /\
    pbuf_free s p = Some (s', Z.of_nat (length l1) mod 256) /\
    pst s' = drop_ref l2 (del l1 (pst s)) /\ psys s' (del l1 L) /\
    preserves (mem_of s) (mem_of s') (del l1 L).
Proof.
  intros Hs Hc. destruct (free_split l) as (l1 & l2 & -> & H1 & H2).
  { apply Forall_forall. intros [a b] Hin. apply (chain_lookup _ _ _ _ _ Hc) in Hin as [Hb _].
    destruct (ps_pbuf _ _ Hs a b Hb) as (_ & Hr & _). cbn. lia. }
  destruct (pbuf_free_spec l1 l2 s L p Hs Hc H1 H2) as (s' & Hr & Hst & Hs' & _ & Hpr & _).
  exists l1, l2, s'. done.
Qed.

(** ** pbuf_alloc *)

Lemma psys_set_pw s L w : psys s L -> ms_live w L -> psys (set_pw s w) L.
Proof. intros [_ Hb] Hl. by split. Qed.

Lemma psys_pending s L x : psys s L -> psys (set_pending s x) L.
Proof. intros [Hl Hb]. by split. Qed.

Lemma pbuf_ok_insert L p n q b : L !! p = None -> pbuf_ok L q b -> pbuf_ok (<[p := n]> L) q b.
Proof.
  intros Hp (H1 & H2 & H3 & H4 & k & Hk & H6). repeat (split; [done |]). exists k.
  rewrite lookup_insert_ne by congruence. done.
Qed.

(** A pbuf in memory that was just allocated. *)
Lemma psys_new s L w p n b :
  psys s L -> L !! p = None -> ms_live w (<[p := n]> L) -> pbuf_ok (<[p := n]> L) p b ->
  psys (set_pst (set_pw s w) (<[p := b]> (pst s))) (<[p := n]> L) /\ pst s !! p = None.
Proof.
  intros [_ Hb] Hp Hl Hok. split.
  - split; [done |]. cbn. intros q c Hq. apply lookup_insert_Some in Hq as [[<- <-] | [_ Hq]]; [done |].
    by apply pbuf_ok_insert, Hb.
  - destruct (pst s !! p) as [c |] eqn:E; [| done].
    destruct (Hb p c E) as (_ & _ & _ & _ & k & Hk & _). congruence.
Qed.

Lemma memp_spec s L t :
  psys s L ->
  exists w p, ms_memp_malloc (pw s) t = (w, p) /\ preserves (mem_of s) (ms_mem w) L /\
    ((p = 0 /\ psys (set_pw s w) L) \/
     (p <> 0 /\ ms_pool p = Some t /\ L !! p = None /\ p mod 4 = 0 /\ 0 < p /\
      exists n, ms_elem t <= n /\ p + n < 4294967296 /\ ms_live w (<[p := n]> L))).
Proof.
  intros Hs. destruct (alloc_spec (Allocates := ms_memp_law t) (pw s) L (ps_live _ _ Hs))
    as (w & p & E & Hpr & Hres). injection E as E. exists w, p. split; [done |]. split; [done |].
  destruct Hres as [[-> Hl] | (Hp & n & Hn & HL & Hl)]; [left; split; [done | by apply psys_set_pw] |].
  right. split; [done |]. split; [exact (ms_memp_pool _ _ _ _ _ (ps_live _ _ Hs) E Hp) |].
  split; [done |].
  assert ((<[p := n]> L) !! p = Some n) as Hl1 by by rewrite lookup_insert_eq.
  pose proof (ro_region _ (live_ok (LiveRegions := ms_regions) _ _ Hl) p n Hl1) as (? & ? & ?).
  pose proof (ms_addr _ _ _ _ Hl Hl1) as [? _].
  split; [done |]. split; [done |]. by exists n.
Qed.

Lemma align_payload p offset :
  0 < p -> p mod 4 = 0 -> 0 <= offset -> p + 16 + 4 * ((offset + 3) / 4) < 4294967296 ->
  LWIP_MEM_ALIGN (p + (16 + offset)) = p + 16 + align_int offset.
Proof.
  intros Hp Ha Ho Hlt. unfold LWIP_MEM_ALIGN, align_int. rewrite !land_lnot_3.
  rewrite u32_id by zlia. zlia.
Qed.

Lemma align_int_eq x : align_int x = 4 * ((x + 3) / 4).
Proof. unfold align_int. rewrite land_lnot_3. do 3 f_equal. lia. Qed.

(** The length fields of a chain that misses [rem] bytes at its end. *)
Fixpoint plens (rem : Z) (l : list (Z * pbuf)) : Prop :=
  match l with
  | [] => True
  | (_, b) :: l => tot_len b = len b + chain_len l + rem /\ 0 <= len b /\ tot_len b < 65536 /\ plens rem l
  end.

Lemma plens_0 l : plens 0 l -> lengths_ok l.
Proof.
  induction l as [| [a b] l IH]; cbn; [done |]. intros (H1 & H2 & H3 & H4).
  split; [lia |]. split; [done |]. split; [done | by apply IH].
Qed.

Lemma plens_extend l0 r br q bq rem :
  plens rem (l0 ++ [(r, br)]) -> tot_len bq = rem -> 0 <= len bq -> rem < 65536 ->
  plens (rem - len bq) (l0 ++ [(r, set_next br q); (q, bq)]).
Proof.
  intros HH Ht Hl Hr. induction l0 as [| [a b] l0 IH]; cbn in HH |- *.
  - destruct HH as (H1 & H2 & H3 & _). repeat split; try done; lia.
  - destruct HH as (H1 & H2 & H3 & H4). specialize (IH H4).
    rewrite chain_len_app in *. cbn in H1 |- *. repeat split; try done; lia.
Qed.

(** A chain under construction, [rem] bytes missing, its head
    initialised as [hd] and [r] its last pbuf: what is new since [s0], [L0]. *)
Record building (ty : pbuf_type) s0 L0 s1 L1 (p : Z) (hd : pbuf) (r rem : Z) (l : list (Z * pbuf)) : Prop := {
  bu_chain : chain (pst s1) p l;
  bu_last : exists l0 br, l = l0 ++ [(r, br)];
  bu_head : exists n l', l = (p, set_next hd n) :: l';
  bu_lens : plens rem l;
  bu_sys : psys s1 L1;
  bu_fresh : forall a, a ∈ l.*1 -> pst s0 !! a = None /\ L0 !! a = None;
  bu_old : forall a, a ∉ l.*1 -> pst s1 !! a = pst s0 !! a /\ L1 !! a = L0 !! a;
  bu_new : Forall (fun x => ref x.2 = 1 /\ type x.2 = ty) l;
  bu_flags : Forall (fun x => flags x.2 = 0) (tail l);
  bu_keep : preserves (mem_of s0) (mem_of s1) L0
}.

(** Releasing a chain under construction restores the state. *)
Lemma building_free s0 L0 s1 L1 p hd r rem l w :
  building PBUF_POOL s0 L0 s1 L1 p hd r rem l -> ms_live w L1 -> preserves (mem_of s1) (ms_mem w) L1 ->
  exists s', pbuf_free (pbuf_pool_is_empty (set_pw s1 w)) p = Some (s', u8 (Z.of_nat (length l))) /\
    pst s' = pst s0 /\ psys s' L0 /\ preserves (mem_of s0) (mem_of s') L0.
Proof.
  intros [Hc _ _ _ Hs Hfr Hold Hnew _ Hk] Hl Hpw.
  destruct (pbuf_free_spec l [] (pbuf_pool_is_empty (set_pw s1 w)) L1 p)
    as (s' & Hr & Hst & Hs' & _ & Hpr & _).
  - by apply psys_pending, psys_set_pw.
  - by rewrite app_nil_r.
  - eapply Forall_impl; [done |]. by intros x [? _].
  - done.
  - assert (del l L1 = L0) as EL.
    { apply map_eq. intros a. rewrite lookup_del. destruct (decide (a ∈ l.*1)) as [Hin | Hin].
      - symmetry. by apply Hfr.
      - by apply Hold. }
    assert (forall x, in_region L0 x -> in_region L1 x) as Hsub.
    { intros x (q & k & Hq & Hx). exists q, k. split; [| done]. rewrite <- Hq. apply Hold.
      intros Hin. apply Hfr in Hin as [_ Hin]. congruence. }
    exists s'. split; [done |]. split; [| split].
    + rewrite Hst. apply map_eq. intros a. cbn [drop_ref]. rewrite lookup_del.
      destruct (decide (a ∈ l.*1)) as [Hin | Hin]; [symmetry; by apply Hfr | by apply Hold].
    + by rewrite EL in Hs'.
    + rewrite EL in Hpr. intros x Hx. rewrite Hpr by done. cbn. rewrite Hpw by (by apply Hsub).
      by apply Hk.
Qed.

(** A write to the fields of a live pbuf. *)
Lemma psys_update s L p b :
  psys s L -> pbuf_ok L p b -> psys (set_pst s (<[p := b]> (pst s))) L.
Proof.
  intros [Hl Hb] Hok. split; [done |]. cbn. intros q c Hq.
  apply lookup_insert_Some in Hq as [[<- <-] | [_ Hq]]; [done | by apply Hb].
Qed.

(** The next pbuf of a pool chain. *)
Definition pool_next (q rem : Z) : pbuf :=
  mkPbuf 0 (q + SIZEOF_STRUCT_PBUF) rem (Z.min rem PBUF_POOL_BUFSIZE_ALIGNED) PBUF_POOL 0 1.

Lemma pool_next_ok L q n rem :
  ms_pool q = Some MEMP_PBUF_POOL -> ms_elem MEMP_PBUF_POOL <= n -> 0 <= rem ->
  pbuf_ok (<[q := n]> L) q (pool_next q rem).
Proof.
  intros Hp Hn Hr. pose proof ms_pool_elem. unfold pool_next, PBUF_POOL_BUFSIZE_ALIGNED, SIZEOF_STRUCT_PBUF.
  split; [done |]. cbn. split; [lia |]. split; [lia |]. split; [done |].
  exists n. rewrite lookup_insert_eq. split; [done |]. lia.
Qed.

Lemma building_step s0 L0 s1 L1 p hd r rem l (w : W) q n :
  building PBUF_POOL s0 L0 s1 L1 p hd r rem l -> 0 < rem < 65536 ->
  ms_pool q = Some MEMP_PBUF_POOL -> L1 !! q = None -> ms_elem MEMP_PBUF_POOL <= n -> q <> 0 ->
  ms_live w (<[q := n]> L1) -> preserves (mem_of s1) (ms_mem w) L1 ->
  exists (br : pbuf) l', pst s1 !! r = Some br /\
    building PBUF_POOL s0 L0 (set_pst (set_pw s1 w) (<[q := pool_next q rem]> (<[r := set_next br q]> (pst s1))))
      (<[q := n]> L1) p hd q (rem - Z.min rem PBUF_POOL_BUFSIZE_ALIGNED) l'.
Proof.
  intros [Hc (l0 & br & ->) (nx & lh & Hhd) Hlen Hs Hfr Hold Hnew Hfl Hk] Hrem Hpool Hq Hn Hq0 Hl Hpr.
  assert ((r, br) ∈ l0 ++ [(r, br)]) as Hin by (apply elem_of_app; right; by apply elem_of_cons; left).
  destruct (chain_lookup _ _ _ _ _ Hc Hin) as [Hr Hr0].
  pose proof (pool_next_ok L1 q n rem Hpool Hn ltac:(lia)) as Hok.
  destruct (psys_new s1 L1 w q n _ Hs Hq Hl Hok) as [Hs' Hqn].
  assert (q ∉ (l0 ++ [(r, br)]).*1) as Hni.
  { intros Hx. apply list_elem_of_fmap in Hx as ([a b] & -> & Hx).
    apply (chain_lookup _ _ _ _ _ Hc) in Hx as [Hx _]. cbn in Hqn. congruence. }
  assert (r <> q) as Hrq by (intros ->; congruence).
  assert (L0 !! q = None /\ pst s0 !! q = None) as [HL0 Hst0].
  { destruct (Hold q Hni) as [E1 E2]. by rewrite <- E1, <- E2. }
  exists br, (l0 ++ [(r, set_next br q); (q, pool_next q rem)]). split; [done |].
  assert (forall a, a ∈ (l0 ++ [(r, set_next br q); (q, pool_next q rem)]).*1
            <-> a ∈ (l0 ++ [(r, br)]).*1 \/ a = q) as Hdom.
  { intros a. rewrite !fmap_app. cbn. rewrite !elem_of_app, !elem_of_cons, !elem_of_nil. tauto. }
  rewrite insert_insert_ne by done. split.
  - cbn. apply (chain_link _ p l0 r br q [(q, pool_next q rem)]).
    + by apply chain_insert_ne.
    + constructor; [done | by rewrite lookup_insert_eq | constructor].
    + intros a Ha. cbn in Ha. apply elem_of_cons in Ha as [-> | Ha]; [done | by apply elem_of_nil in Ha].
  - exists (l0 ++ [(r, set_next br q)]), (pool_next q rem). by rewrite <- app_assoc.
  - destruct l0 as [| x l0]; cbn in Hhd |- *; simplify_eq; eauto.
  - apply (plens_extend l0 r br q (pool_next q rem) rem); [done | done | | lia].
    cbn. unfold PBUF_POOL_BUFSIZE_ALIGNED. lia.
  - refine (psys_update (set_pst (set_pw s1 w) (<[q := pool_next q rem]> (pst s1))) _ r (set_next br q) Hs' _).
    destruct (ps_pbuf _ _ Hs' r br) as (H1 & H2 & H3 & H4 & H5); [| by repeat (split; [done |])].
    cbn. by rewrite lookup_insert_ne.
  - intros a Ha. apply Hdom in Ha as [Ha | ->]; [by apply Hfr | done].
  - intros a Ha. rewrite Hdom in Ha. cbn. assert (q <> a /\ r <> a) as [Hqa Hra].
    { split; intros <-; apply Ha; [by right |]. left. by apply (list_elem_of_fmap_2 fst) in Hin. }
    rewrite !lookup_insert_ne by done. apply Hold. tauto.
  - apply Forall_app in Hnew as [Hn1 Hn2]. inversion Hn2 as [| ? ? [Hr1 Ht1] _]; subst. apply Forall_app.
    split; [done |]. constructor; [done |]. by repeat constructor.
  - destruct l0 as [| x l0]; cbn in *; [by repeat constructor |].
    apply Forall_app in Hfl as [Hf1 Hf2]. inversion Hf2 as [| ? ? Hr1 _]; subst. apply Forall_app.
    split; [done |]. constructor; [done |]. by repeat constructor.
  - intros x Hx. cbn. rewrite Hpr; [by apply Hk |]. destruct Hx as (a & k & Ha & Hx).
    exists a, k. split; [| done]. rewrite <- Ha. apply Hold.
    intros Hin'. apply Hfr in Hin' as [_ Hin']. congruence.
Qed.

(** The outcome of an allocation: NULL with nothing changed, or a new chain. *)
Definition unchanged s L s' : Prop :=
  pst s' = pst s /\ psys s' L /\ preserves (mem_of s) (mem_of s') L.

Lemma pool_loop fuel s0 L0 s1 L1 p hd r rem l :
  building PBUF_POOL s0 L0 s1 L1 p hd r rem l -> 0 <= rem < 65536 -> (Z.to_nat rem < fuel)%nat ->
  exists s' q, while fuel (pool_body custom_free p) (s1, r, rem) = Some (Some (s', q)) /\
    ((q = 0 /\ unchanged s0 L0 s') \/ (q = p /\ exists L' r' l', building PBUF_POOL s0 L0 s' L' p hd r' 0 l')).
Proof.
  revert s1 L1 r rem l. induction fuel as [| fuel IH]; intros s1 L1 r rem l Hb Hr Hf; [lia |].
  rewrite while_S. unfold pool_body at 1. destruct (Z.ltb_spec 0 rem) as [Hpos | Hz].
  - destruct (memp_spec s1 L1 MEMP_PBUF_POOL (bu_sys _ _ _ _ _ _ _ _ _ _ Hb))
      as (w & q & -> & Hpr & [[-> Hs] | (Hq & Hpool & HL & _ & _ & n & Hn & _ & Hl)]).
    + cbn [Z.eqb]. destruct (building_free _ _ _ _ _ _ _ _ _ w Hb) as (s' & -> & H'); [by apply Hs | done |].
      exists s', 0. split; [done | by left].
    + rewrite (proj2 (Z.eqb_neq q 0)) by done.
      destruct (building_step _ _ _ _ _ _ _ _ _ w q n Hb ltac:(lia) Hpool HL Hn Hq Hl Hpr)
        as (br & l' & Hbr & Hb').
      unfold update. cbn [pst set_pw]. rewrite Hbr. cbn [mbind option_bind]. rewrite !u16_id by lia.
      apply (IH _ _ _ _ _ Hb'); unfold PBUF_POOL_BUFSIZE_ALIGNED; lia.
  - assert (rem = 0) as -> by lia. exists s1, p. split; [done |]. right. split; [done |]. by exists L1, r, l.
Qed.

(** A chain that was just allocated, its head at [p]. *)
Record allocated s L s' L' (p length_ offset : Z) (ty : pbuf_type) (l : list (Z * pbuf)) : Prop := {
  al_chain : chain (pst s') p l;
  al_lengths : lengths_ok l;
  al_len : chain_len l = length_;
  al_fields : Forall (fun x => ref x.2 = 1 /\ type x.2 = ty /\ flags x.2 = 0) l;
  al_fresh : forall a, a ∈ l.*1 -> pst s !! a = None /\ L !! a = None;
  al_old : forall a, a ∉ l.*1 -> pst s' !! a = pst s !! a /\ L' !! a = L !! a;
  al_sys : psys s' L';
  al_room : match ty with
            | PBUF_RAM | PBUF_POOL =>
                exists b, pst s' !! p = Some b /\ payload b mod 4 = 0 /\
                  p + SIZEOF_STRUCT_PBUF + offset <= payload b
            | PBUF_ROM | PBUF_REF => exists b, pst s' !! p = Some b /\ payload b = 0
            end;
  al_single : ty <> PBUF_POOL -> length l = 1%nat;
  al_keep : preserves (mem_of s) (mem_of s') L
}.

Lemma building_init ty s L w p n hd rem :
  psys s L -> L !! p = None -> ms_live w (<[p := n]> L) -> pbuf_ok (<[p := n]> L) p hd ->
  preserves (mem_of s) (ms_mem w) L -> p <> 0 -> next hd = 0 -> ref hd = 1 -> type hd = ty ->
  tot_len hd = len hd + rem -> tot_len hd < 65536 ->
  building ty s L (set_pst (set_pw s w) (<[p := hd]> (pst s))) (<[p := n]> L) p hd p rem [(p, hd)].
Proof.
  intros Hs HL Hl Hok Hpr Hp Hn Hr Hty Ht Hm.
  destruct (psys_new s L w p n hd Hs HL Hl Hok) as [Hs' Hpn].
  assert (forall a, a ∈ [(p, hd)].*1 <-> a = p) as Hdom by (intros a; cbn; apply list_elem_of_singleton).
  split; [ | by exists [], hd | | | done | | | | constructor | done].
  - constructor; [done | cbn; by rewrite lookup_insert_eq | rewrite Hn; constructor].
  - exists 0, []. destruct hd. cbn in Hn. by subst.
  - cbn. destruct Hok as (_ & _ & ? & _). lia.
  - intros a Ha. by apply Hdom in Ha as ->.
  - intros a Ha. rewrite Hdom in Ha. cbn. by rewrite !lookup_insert_ne by done.
  - by repeat constructor.
Qed.

(** Completing the chain: the reference count and the flags of its head. *)
Lemma building_finish ty s0 L0 s1 L1 p hd r l offset :
  building ty s0 L0 s1 L1 p hd r 0 l -> (ty <> PBUF_POOL -> length l = 1%nat) ->
  match ty with
  | PBUF_RAM | PBUF_POOL => payload hd mod 4 = 0 /\ p + SIZEOF_STRUCT_PBUF + offset <= payload hd
  | PBUF_ROM | PBUF_REF => payload hd = 0
  end ->
  exists s' l', update s1 p (fun b => set_flags (set_ref b 1) 0) = Some s' /\
    allocated s0 L0 s' L1 p (tot_len hd) offset ty l'.
Proof.
  intros [Hc _ (n & l1 & ->) Hlen Hs Hfr Hold Hnew Hfl Hk] Hsingle Hroom.
  pose proof (chain_NoDup _ _ _ Hc) as Hnd. cbn in Hnd. inversion Hnd as [| ? ? Hni _]; subst.
  inversion Hc as [| ? ? ? Hp Hb Hcn]; subst. unfold update. rewrite Hb. cbn [mbind option_bind].
  apply Forall_cons in Hnew as [[Hr1 Ht1] Hnew']. cbn in Hfl.
  set (hd' := set_flags (set_ref (set_next hd n) 1) 0). exists (set_pst s1 (<[p := hd']> (pst s1))), ((p, hd') :: l1).
  split; [done |]. split; [ | | | | | | | | | done].
  - cbn. constructor; [done | by rewrite lookup_insert_eq | by apply chain_insert_ne].
  - apply plens_0. exact Hlen.
  - destruct Hlen as (Ht & _). cbn in Ht |- *. lia.
  - constructor; [done |]. rewrite Forall_forall in *. intros x Hx.
    destruct (Hnew' x Hx). by rewrite (Hfl x Hx).
  - apply Hfr.
  - intros a Ha. cbn. rewrite lookup_insert_ne; [by apply Hold |]. intros <-. apply Ha. by apply elem_of_cons; left.
  - apply psys_update; [done |]. destruct (ps_pbuf _ _ Hs _ _ Hb) as (_ & H2 & H3 & H4 & H5).
    by repeat (split; [done |]).
  - cbn. rewrite lookup_insert_eq. destruct ty; eauto.
  - apply Hsingle.
Qed.

Lemma layer_offset_range layer : 0 <= layer_offset layer <= 54.
Proof. by destruct layer. Qed.

(** What each kind of allocation leaves to [building_finish]. *)
Definition alloc_result s L (length_ offset : Z) (ty : pbuf_type) s1 (p : Z) : Prop :=
  (p = 0 /\ unchanged s L s1) \/
  (p <> 0 /\ exists L1 hd r l, building ty s L s1 L1 p hd r 0 l /\ tot_len hd = length_ /\
     (ty <> PBUF_POOL -> length l = 1%nat) /\
     match ty with
     | PBUF_RAM | PBUF_POOL => payload hd mod 4 = 0 /\ p + SIZEOF_STRUCT_PBUF + offset <= payload hd
     | PBUF_ROM | PBUF_REF => payload hd = 0
     end).

Lemma alloc_pool_spec s L offset length_ :
  psys s L -> 0 <= offset <= 54 -> 0 <= length_ < 65536 ->
  exists s1 p, alloc_pool stale custom_free s offset length_ = Some (s1, p) /\
    alloc_result s L length_ offset PBUF_POOL s1 p.
Proof.
  intros Hs Ho Hlen. unfold alloc_pool. pose proof ms_pool_elem as He.
  destruct (memp_spec s L MEMP_PBUF_POOL Hs)
    as (w & p & -> & Hpr & [[-> Hs'] | (Hp & Hpool & HL & Ha & Hpos & n & Hn & Hlt & Hl)]).
  - exists (pbuf_pool_is_empty (set_pw s w)), 0. split; [done |]. left. split; [done |].
    split; [done |]. split; [by apply psys_pending | done].
  - rewrite (proj2 (Z.eqb_neq p 0)) by done. unfold SIZEOF_STRUCT_PBUF, PBUF_POOL_BUFSIZE_ALIGNED.
    rewrite align_payload, align_int_eq by zlia.
    set (hd := mkPbuf 0 _ _ _ _ _ _). set (rem := length_ - _).
    assert (0 <= rem < 65536 /\ len hd + rem = length_) as [Hrem Hsum] by (unfold rem, hd; cbn; zlia).
    assert (pbuf_ok (<[p := n]> L) p hd) as Hok.
    { split; [apply stale_ok |]. cbn. split; [lia |]. split; [zlia |]. split; [done |].
      exists n. rewrite lookup_insert_eq. split; [done |]. zlia. }
    pose proof (building_init PBUF_POOL s L w p n hd rem Hs HL Hl Hok Hpr Hp eq_refl eq_refl eq_refl
      ltac:(cbn [tot_len hd]; lia) ltac:(cbn; lia)) as Hb.
    destruct (pool_loop (S (Z.to_nat length_)) _ _ _ _ _ _ _ _ _ Hb Hrem) as (s' & q & Hr & Hres).
    { unfold rem. zlia. }
    exists s', q. split; [exact (f_equal mjoin Hr) |].
    destruct Hres as [[-> Hun] | (-> & L' & r' & l' & Hb')]; [by left | right].
    split; [done |]. exists L', hd, r', l'. split; [done |]. split; [done |]. split; [done |].
    unfold SIZEOF_STRUCT_PBUF. cbn. zlia.
Qed.

Lemma alloc_ref_spec s L offset length_ ty :
  psys s L -> ty = PBUF_ROM \/ ty = PBUF_REF -> 0 <= length_ < 65536 ->
  exists s1 p, alloc_ref stale s length_ ty = Some (s1, p) /\
    alloc_result s L length_ offset ty s1 p.
Proof.
  intros Hs Hty Hlen. unfold alloc_ref. pose proof ms_pbuf_elem as He.
  destruct (memp_spec s L MEMP_PBUF Hs)
    as (w & p & -> & Hpr & [[-> Hs'] | (Hp & Hpool & HL & _ & _ & n & Hn & _ & Hl)]).
  - exists (set_pw s w), 0. split; [done |]. left. split; [done |]. by split.
  - rewrite (proj2 (Z.eqb_neq p 0)) by done. set (hd := mkPbuf 0 _ _ _ _ _ _).
    eexists _, p. split; [reflexivity |]. right. split; [done |].
    exists (<[p := n]> L), hd, p, [(p, hd)]. split; [| split; [done | split; [done | by destruct Hty as [-> | ->]]]].
    apply (building_init ty s L w p n hd 0); try done; try (cbn; lia).
    split; [apply stale_ok |]. cbn. split; [lia |]. split; [lia |].
    split; [by destruct Hty as [-> | ->] |]. exists n. rewrite lookup_insert_eq.
    split; [done |]. split; [lia | by destruct Hty as [-> | ->]].
Qed.

(** The size [pbuf_alloc] asks for fits the 16-bit argument up to this length. *)
Definition ram_length_ok (length_ : Z) : Prop := 0 <= length_ <= 65460.

Lemma alloc_ram_spec s L offset length_ :
  psys s L -> 0 <= offset <= 54 -> ram_length_ok length_ ->
  exists s1 p, alloc_ram stale s offset length_ = Some (s1, p) /\
    alloc_result s L length_ offset PBUF_RAM s1 p.
Proof.
  intros Hs Ho Hlen. unfold ram_length_ok in Hlen. unfold alloc_ram, SIZEOF_STRUCT_PBUF. rewrite !align_int_eq.
  set (size := 4 * ((16 + offset + 3) / 4) + 4 * ((length_ + 3) / 4)).
  assert (0 < size <= 65532 /\ 16 + 4 * ((offset + 3) / 4) + length_ <= size) as [Hsz Hfit] by (unfold size; zlia).
  clearbody size. rewrite u16_id by lia.
  destruct (alloc_spec (Allocates := ms_malloc_law size Hsz) (pw s) L (ps_live _ _ Hs))
    as (w & p & E & Hpr & [[-> Hl] | (Hp & n & Hn & HL & Hl)]).
  - rewrite E. exists (set_pw s w), 0. split; [done |]. left. split; [done |].
    split; [done |]. split; [by apply psys_set_pw | done].
  - rewrite E. cbn [mbind option_bind]. rewrite (proj2 (Z.eqb_neq p 0)) by done.
    assert ((<[p := n]> L) !! p = Some n) as Hl1 by by rewrite lookup_insert_eq.
    pose proof (ro_region _ (live_ok (LiveRegions := ms_regions) _ _ Hl) p n Hl1) as (Hpos & _ & Hal).
    pose proof (ms_addr _ _ _ _ Hl Hl1) as [Hlt _]. rewrite <- Z.add_assoc, align_payload, align_int_eq by zlia.
    set (hd := mkPbuf 0 _ _ _ _ _ _). eexists _, p. split; [reflexivity |]. right. split; [done |].
    exists (<[p := n]> L), hd, p, [(p, hd)].
    split; [| split; [done | split; [done | unfold SIZEOF_STRUCT_PBUF; cbn; zlia]]].
    apply (building_init PBUF_RAM s L w p n hd 0); try done; try (cbn; lia).
    split; [apply stale_ok |]. cbn. split; [lia |]. split; [lia |].
    split; [by eapply ms_malloc_heap; [exact E | done | done | exists L; apply Hs] |].
    exists n. rewrite lookup_insert_eq. split; [done |]. zlia.
Qed.

Lemma pbuf_alloc_spec s L layer length_ ty :
  psys s L -> 0 <= length_ < 65536 -> (ty = PBUF_RAM -> ram_length_ok length_) ->
  exists s' p, pbuf_alloc s layer length_ ty = Some (s', p) /\
    ((p = 0 /\ unchanged s L s') \/
     (p <> 0 /\ exists L' l, allocated s L s' L' p length_ (layer_offset layer) ty l)).
Proof.
  intros Hs Hlen Hram. unfold Pbuf.pbuf_alloc. pose proof (layer_offset_range layer) as Ho.
  set (al := match ty with PBUF_RAM => _ | PBUF_ROM => _ | PBUF_REF => _ | PBUF_POOL => _ end).
  assert (exists s1 p, al = Some (s1, p) /\ alloc_result s L length_ (layer_offset layer) ty s1 p)
    as (s1 & p & -> & Hres).
  { unfold al. destruct ty; [apply alloc_ram_spec | apply alloc_ref_spec | apply alloc_ref_spec |
      apply alloc_pool_spec]; auto. }
  cbn [mbind option_bind]. destruct Hres as [[-> Hun] | (Hp & L1 & hd & r & l & Hb & Ht & Hsi & Hroom)].
  - exists s1, 0. split; [done | by left].
  - rewrite (proj2 (Z.eqb_neq p 0)) by done.
    destruct (building_finish _ _ _ _ _ _ _ _ _ (layer_offset layer) Hb Hsi Hroom) as (s' & l' & -> & Hal).
    exists s', p. split; [done |]. right. split; [done |]. exists L1, l'. by rewrite Ht in Hal.
Qed.

(** C8: [pbuf_alloc] of 0 to 65535 bytes, at most 65460 for PBUF_RAM (above that the size
    wraps around, see [pbuf_alloc_ram_wraps]), always returns, provided that the flags
    that memory from the pool happens to hold, which are read when a partly built chain is
    given back, do not include that of custom pbufs.  It returns NULL, with the store of pbufs, every live
    region and its data as before (a partly built pool chain is given back), or
    a fresh chain of exactly [length_] bytes of the requested type, each pbuf
    referenced once and with no flags, whose length fields are consistent,
    whose payloads lie in memory the allocators gave out for them and whose
    head has room in front of the aligned payload for the headers of the layer;
    all other pbufs and live data are as before. *)
Theorem pbuf_alloc_correct s L layer length_ ty :
  psys s L -> 0 <= length_ < 65536 -> (ty = PBUF_RAM -> ram_length_ok length_) ->
  exists s' p, pbuf_alloc s layer length_ ty = Some (s', p) /\
    ((p = 0 /\ unchanged s L s') \/
     (p <> 0 /\ exists L' l, allocated s L s' L' p length_ (layer_offset layer) ty l)).
Proof. apply pbuf_alloc_spec. Qed.

(** the size of a PBUF_RAM buffer is computed in 16 bits without a check: for
    a transport-layer buffer of more than 65464 bytes the heap is asked for at
    most 72 bytes, and when it has them the pbuf returned claims all of
    [length_] bytes. *)
Theorem pbuf_alloc_ram_wraps s length_ :
  65464 < length_ < 65536 ->
  0 < u16 (72 + align_int length_) <= 72 /\
  forall w p, ms_malloc (pw s) (u16 (72 + align_int length_)) = Some (w, p) -> p <> 0 ->
      exists s' b, pbuf_alloc s PBUF_TRANSPORT length_ PBUF_RAM = Some (s', p) /\
        pst s' !! p = Some b /\ len b = length_ /\ tot_len b = length_.
Proof.
  intros Hl. split.
  { rewrite align_int_eq. unfold u16. zlia. }
  intros w p Hm Hp. unfold Pbuf.pbuf_alloc, alloc_ram. cbn [layer_offset].
  change (align_int (SIZEOF_STRUCT_PBUF + (PBUF_LINK_HLEN + PBUF_IP_HLEN + PBUF_TRANSPORT_HLEN))) with 72.
  rewrite Hm. cbn [mbind option_bind]. rewrite (proj2 (Z.eqb_neq p 0)) by done. cbn [mbind option_bind].
  rewrite (proj2 (Z.eqb_neq p 0)) by done. unfold update. cbn [pst set_pst set_pw]. rewrite lookup_insert_eq.
  cbn [mbind option_bind]. eexists _, _. split; [reflexivity |]. cbn. rewrite lookup_insert_eq. done.
Qed.

End laws.

(** ** A sample system *)

#[local] Existing Instance World.world_system.
#[local] Existing Instance World.sample_laws.

(** No stale bytes and no custom pbufs. *)
Definition no_stale (p : Z) : Z := 0.
Definition no_custom (s : pstate World.world) (p : Z) : option (pstate World.world) := None.

Definition sample_empty : pstate World.world := mkPstate World.sample_world ∅ 0.

Lemma sample_empty_ok : psys sample_empty ∅.
Proof. split; [exact World.sample_world_live |]. intros p b Hp. cbn in Hp; by rewrite lookup_empty in Hp. Qed.

Definition sample_alloc (s : pstate World.world) (layer : pbuf_layer) (n : Z) (ty : pbuf_type) : pstate World.world :=
  match pbuf_alloc no_stale no_custom s layer n ty with Some (s', _) => s' | None => s end.

Lemma sample_alloc_ok s L layer n ty :
  psys s L -> 0 <= n < 65536 -> (ty = PBUF_RAM -> ram_length_ok n) ->
  exists L', psys (sample_alloc s layer n ty) L'.
Proof.
  intros Hs Hn Hr. unfold sample_alloc.
  destruct (pbuf_alloc_spec no_stale no_custom (fun _ => eq_refl) s L layer n ty Hs Hn Hr) as (s' & p & -> & Hres).
  destruct Hres as [(_ & _ & Hs' & _) | (_ & L' & l & Hal)]; [by exists L |].
  exists L'. by destruct Hal.
Qed.

(** A packet of 2000 bytes in two pool pbufs. *)
Definition sample_packet : pstate World.world := sample_alloc sample_empty PBUF_RAW 2000 PBUF_POOL.

Lemma sample_packet_ok : exists L, psys sample_packet L.
Proof. apply (sample_alloc_ok _ ∅); [exact sample_empty_ok | lia | done]. Qed.

Definition sample_chain : list (Z * pbuf) :=
  [(19880, mkPbuf 18164 19896 2000 1700 PBUF_POOL 0 1); (18164, mkPbuf 0 18180 300 300 PBUF_POOL 0 1)].

Lemma sample_packet_chain : chain (pst sample_packet) 19880 sample_chain.
Proof. repeat (constructor; [lia | vm_compute; reflexivity |]). constructor. Qed.

Lemma pbuf_alloc_correct_witness :
  exists s' p, pbuf_alloc no_stale no_custom sample_empty PBUF_TRANSPORT 100 PBUF_RAM = Some (s', p).
Proof.
  destruct (pbuf_alloc_correct no_stale no_custom (fun _ => eq_refl) sample_empty ∅ PBUF_TRANSPORT 100 PBUF_RAM)
    as (s' & p & Hr & _); [exact sample_empty_ok | lia | intros _; unfold ram_length_ok; lia |].
  exists s', p. exact Hr.
Defined.

Lemma pbuf_free_releases_witness :
  exists s' n, pbuf_free no_custom sample_packet 19880 = Some (s', n) /\ n = 2.
Proof.
  destruct sample_packet_ok as [L HL].
  destruct (pbuf_free_releases no_custom sample_packet L 19880 sample_chain HL sample_packet_chain)
    as (l1 & l2 & s' & Hl & H1 & H2 & Hr & _).
  exists s', (Z.of_nat (length l1) mod 256). split; [exact Hr |].
  destruct l1 as [| a l1]; [cbn in Hl; subst l2; cbn in H2; lia |].
  destruct l1 as [| b l1]; cbn in Hl; [injection Hl as _ <-; cbn in H2; lia |].
  injection Hl as _ _ Hl. by destruct l1.
Defined.

Lemma pbuf_alloc_ram_wraps_witness :
  exists s' p b, pbuf_alloc no_stale no_custom sample_empty PBUF_TRANSPORT 65465 PBUF_RAM = Some (s', p) /\
    pst s' !! p = Some b /\ len b = 65465 /\
    mem_malloc (World.wheap World.sample_world) 4 = mem_malloc (World.wheap World.sample_world) 12.
Proof.
  destruct (pbuf_alloc_ram_wraps no_stale no_custom sample_empty 65465) as (Hn & Ha); [lia |].
  assert (snd <$> ms_malloc (pw sample_empty) (u16 (72 + align_int 65465)) = Some 4108) as Hs
    by (vm_compute; reflexivity).
  destruct (ms_malloc (pw sample_empty) (u16 (72 + align_int 65465))) as [[w p] |] eqn:Hm; [| done].
  injection Hs as ->.
  destruct (Ha w 4108 eq_refl ltac:(done)) as (s' & b & Hr & Hb & Hlen & _). exists s', 4108, b.
  split; [exact Hr |]. split; [exact Hb |]. split; [exact Hlen |]. vm_compute. reflexivity.
Defined.

End PbufChains.
