(* ===== verification/PbufLinks.v ===== *)
(** Operations on chains of packet buffers: headers, references, concatenation,
    splitting and shrinking, proved against the interface of the allocators. *)

From stdpp Require Import base tactics numbers list gmap.
From Stdlib Require Import ZArith Lia.
From S2P Require Import Prelude PbufDefs Mylib Allocator Mem Memp PbufMem World Pbuf PbufData PbufChains.

Local Open Scope Z_scope.

Module PbufLinks.
Import Mem Memp Pbuf PbufData PbufChains.

(** ** Rewriting the pbufs of a chain in place *)

(** The store with the listed pbufs overwritten. *)
Fixpoint ins (l : list (Z * pbuf)) (st : pstore) : pstore :=
  match l with [] => st | (a, b) :: l => ins l (<[a := b]> st) end.

(** Adding [d] to the total length of every pbuf. *)
Definition bump1 (d : Z) (b : pbuf) : pbuf := set_tot_len b (u16 (tot_len b + d)).
Definition bump (d : Z) (l : list (Z * pbuf)) : list (Z * pbuf) := (fun x => (x.1, bump1 d x.2)) <$> l.

Section lists.
Implicit Types (st : pstore) (l : list (Z * pbuf)).

Lemma ins_app l1 l2 st : ins (l1 ++ l2) st = ins l2 (ins l1 st).
Proof. revert st. induction l1 as [| [a b] l1 IH]; intros st; [done | apply IH]. Qed.

Lemma lookup_ins_ne l st a : a ∉ l.*1 -> ins l st !! a = st !! a.
Proof.
  revert st. induction l as [| [x b] l IH]; intros st Ha; [done |]. cbn in *.
  rewrite elem_of_cons in Ha. rewrite IH by tauto. apply lookup_insert_ne. intros ->. tauto.
Qed.

Lemma lookup_ins_eq l st a b : NoDup l.*1 -> (a, b) ∈ l -> ins l st !! a = Some b.
Proof.
  revert st. induction l as [| [x c] l IH]; intros st Hnd Hin; [by apply elem_of_nil in Hin |].
  cbn in Hnd. apply NoDup_cons in Hnd as [Hx Hnd]. apply elem_of_cons in Hin as [[= -> ->] | Hin].
  - cbn. rewrite lookup_ins_ne by done. apply lookup_insert_eq.
  - by apply IH.
Qed.

Lemma bump_fst d l : (bump d l).*1 = l.*1.
Proof. unfold bump. rewrite <- list_fmap_compose. by apply list_fmap_ext. Qed.

Lemma bump_app d l1 l2 : bump d (l1 ++ l2) = bump d l1 ++ bump d l2.
Proof. apply fmap_app. Qed.

Lemma chain_len_bump d l : chain_len (bump d l) = chain_len l.
Proof. induction l as [| [a b] l IH]; cbn; [done |]. by rewrite <- IH. Qed.

Lemma chain_data_bump m d l : chain_data m (bump d l) = chain_data m l.
Proof. induction l as [| [a b] l IH]; cbn; [done |]. by rewrite <- IH. Qed.

Lemma chain_data_ext m m' l :
  Forall (fun x => forall y, payload x.2 <= y < payload x.2 + len x.2 -> ld8 m' y = ld8 m y) l ->
  chain_data m' l = chain_data m l.
Proof.
  induction 1 as [| [a b] l Hx _ IH]; cbn in *; [done |]. rewrite IH. f_equal.
  apply bytes_ext. intros y Hy. apply Hx. lia.
Qed.

(** The data up to a point inside one of the pbufs. *)
Lemma chain_data_take m l1 q b l2 b' rem d :
  lengths_ok (l1 ++ (q, b) :: l2) -> payload b' = payload b -> len b' = rem -> 0 <= rem <= len b ->
  chain_data m (bump d l1 ++ [(q, b')])
  = take (Z.to_nat (chain_len l1 + rem)) (chain_data m (l1 ++ (q, b) :: l2)).
Proof.
  intros Hl Hp Hb Hr. pose proof (chain_data_length_app m l1 _ Hl) as Hlen.
  destruct (lengths_ok_app _ _ Hl) as [_ Hl1].
  rewrite !chain_data_app, chain_data_bump. cbn. rewrite app_nil_r, Hp, Hb, take_app.
  rewrite (take_ge (chain_data m l1)) by lia. f_equal.
  replace (Z.to_nat (chain_len l1 + rem) - length (chain_data m l1))%nat with (Z.to_nat rem) by lia.
  rewrite take_app_le by (rewrite bytes_length; lia). by rewrite take_bytes by lia.
Qed.

(** Rewriting the pbufs at the front of a chain. *)
Lemma chain_bump d st p l1 l2 :
  chain st p (l1 ++ l2) -> chain (ins (bump d l1) st) p (bump d l1 ++ l2).
Proof.
  revert st p. induction l1 as [| [a b] l1 IH]; intros st p Hc; [done |].
  pose proof (chain_NoDup _ _ _ Hc) as Hnd. cbn in Hnd. apply NoDup_cons in Hnd as [Ha Hnd].
  inversion Hc as [| ? ? ? Hp Hb Hc']; subst. cbn [bump fmap list_fmap app ins fst snd].
  constructor; [done | |].
  - rewrite lookup_ins_ne; [apply lookup_insert_eq |]. fold (bump d l1). rewrite bump_fst.
    intros Hin. apply Ha. rewrite fmap_app. apply elem_of_app. by left.
  - apply IH. by apply chain_insert_ne.
Qed.

(** Rewriting one pbuf of a chain together with what follows it. *)
Lemma chain_replace st p l1 a b b' l2 l2' :
  chain st p (l1 ++ (a, b) :: l2) -> chain (<[a := b']> st) (next b') l2' ->
  chain (<[a := b']> st) p (l1 ++ (a, b') :: l2').
Proof.
  intros Hc Hn. revert p Hc. induction l1 as [| [x c] l1 IH]; intros p Hc;
    pose proof (chain_NoDup _ _ _ Hc) as Hnd; cbn in Hnd; apply NoDup_cons in Hnd as [Hx _];
    inversion Hc as [| ? ? ? Hp Hb Hc']; subst; cbn.
  - constructor; [done | apply lookup_insert_eq | done].
  - constructor; [done | | by apply IH]. rewrite lookup_insert_ne; [done |]. intros ->. apply Hx.
    rewrite fmap_app. apply elem_of_app. right. by apply elem_of_cons; left.
Qed.

(** The part of a chain after one of its pbufs. *)
Lemma chain_after st p l1 a b l2 :
  chain st p (l1 ++ (a, b) :: l2) -> chain st (next b) l2 /\ (a ∉ l2.*1) /\ (a ∉ l1.*1).
Proof.
  intros Hc. pose proof (chain_NoDup _ _ _ Hc) as Hnd. rewrite fmap_app in Hnd.
  apply NoDup_app in Hnd as (_ & Hdis & Hnd). cbn in Hnd. apply NoDup_cons in Hnd as [Ha _].
  split; [| split; [done |]].
  - clear Ha Hdis. revert p Hc. induction l1 as [| [x c] l1 IH]; intros p Hc; inversion Hc; subst; eauto.
  - intros Hin. apply (Hdis a Hin). by apply elem_of_cons; left.
Qed.

Lemma chain_update st p l1 a b b' l2 :
  chain st p (l1 ++ (a, b) :: l2) -> next b' = next b -> chain (<[a := b']> st) p (l1 ++ (a, b') :: l2).
Proof.
  intros Hc Hn. apply (chain_replace st p l1 a b b' l2); [done |]. rewrite Hn.
  destruct (chain_after _ _ _ _ _ _ Hc) as (? & ? & _). by apply chain_insert_ne.
Qed.

Lemma lengths_ok_update l1 a b b' l2 :
  lengths_ok (l1 ++ (a, b) :: l2) -> len b' = len b -> tot_len b' = tot_len b ->
  lengths_ok (l1 ++ (a, b') :: l2).
Proof.
  intros Hl Hb Ht. induction l1 as [| [x c] l1 IH]; cbn in *; [by rewrite Hb, Ht |].
  rewrite chain_len_app in *. cbn in *. rewrite Hb. destruct Hl as (? & ? & ? & ?). auto.
Qed.

End lists.

Section links.
Context {W : Type} `{LW : MemSystemLaws W}.

Implicit Types (s : pstate W) (L : regions).

(** ** pbuf_header *)

(** The room a header may use. *)
Definition header_fits (p : Z) (b : pbuf) (h : Z) : Prop :=
  - len b <= h /\
  match type b with
  | PBUF_RAM | PBUF_POOL => p + SIZEOF_STRUCT_PBUF <= payload b - h
  | PBUF_REF | PBUF_ROM => h <= 0
  end.

(** Moving the start of the payload [h] bytes to the front. *)
Definition move_payload (b : pbuf) (h : Z) : pbuf :=
  mkPbuf (next b) (payload b - h) (tot_len b + h) (len b + h) (type b) (flags b) (ref b).

Lemma header_spec s p b h :
  pst s !! p = Some b -> p <> 0 -> 0 <= len b <= tot_len b -> -32768 <= h <= 32767 ->
  tot_len b + h < 65536 ->
  (header_fits p b h -> pbuf_header s p h = Some (set_pst s (<[p := move_payload b h]> (pst s)), 0)) /\
  (~ header_fits p b h -> h <> 0 -> pbuf_header s p h = Some (s, 1)).
Proof.
  intros Hb Hp Hl Hh Ht. unfold pbuf_header, header_fits. rewrite Hb, (proj2 (Z.eqb_neq p 0)) by done.
  rewrite orb_false_r. destruct (Z.eqb_spec h 0) as [-> | Hh0].
  { split; [| by intros]. intros _. do 2 f_equal. destruct s as [w st o]. unfold set_pst, move_payload. cbn in *.
    f_equal. symmetry. apply insert_id. rewrite Hb. destruct b. cbn. f_equal. f_equal; lia. }
  cbn [mbind option_bind]. set (im := u16 _).
  assert (im = Z.abs h) as -> by (unfold im; case_bool; rewrite u16_id; lia).
  split.
  - intros [Hf1 Hf2]. replace ((h <? 0) && (len b <? Z.abs h)) with false
      by (symmetry; apply andb_false_iff; rewrite !Z.ltb_ge; lia).
    replace (match type b with PBUF_RAM => _ | PBUF_ROM => _ | PBUF_REF => _ | PBUF_POOL => _ end) with true.
    { unfold move_payload, set_payload, set_tot_len, set_len. cbn.
      rewrite !u16_id by lia. reflexivity. }
    symmetry. destruct (type b); rewrite ?negb_true_iff, ?Z.ltb_ge, ?andb_true_iff, ?Z.ltb_lt, ?Z.leb_le; lia.
  - intros Hn _. case_bool; [done |].
    replace (match type b with PBUF_RAM => _ | PBUF_ROM => _ | PBUF_REF => _ | PBUF_POOL => _ end) with false; [done |].
    symmetry. destruct (type b); rewrite ?negb_false_iff, ?Z.ltb_lt, ?andb_false_iff, ?Z.ltb_ge, ?Z.leb_gt; lia.
Qed.

(** [pbuf_header] moves the payload pointer of a live pbuf by the requested
    amount and adjusts both lengths exactly when the header fits (the pbuf holds
    that many bytes to hide, or has that much room behind its [struct pbuf] to
    reveal); otherwise it returns 1 and changes nothing.  The payload stays
    inside the memory of the pbuf, and for a pbuf that owns its payload the
    opposite call restores the state. *)
Theorem pbuf_header_correct s L p b h :
  psys s L -> pst s !! p = Some b -> p <> 0 -> len b <= tot_len b -> tot_len b < 65536 ->
  -32767 <= h <= 32767 -> tot_len b + h < 65536 ->
  (header_fits p b h ->
     exists s', pbuf_header s p h = Some (s', 0) /\ psys s' L /\
       pst s' = <[p := move_payload b h]> (pst s) /\ pw s' = pw s /\
       (type b = PBUF_RAM \/ type b = PBUF_POOL -> pbuf_header s' p (- h) = Some (s, 0))) /\
  (~ header_fits p b h -> h <> 0 -> pbuf_header s p h = Some (s, 1)).
Proof.
  intros Hs Hb Hp Hl Ht Hh Hth. pose proof (ps_pbuf _ _ Hs p b Hb) as (Hc & Hr & Hl0 & Hk & n & Hn & H16 & Hty).
  destruct (header_spec s p b h Hb Hp ltac:(lia) ltac:(lia) Hth) as [Hyes Hno]. split; [| done].
  intros Hf. set (s' := set_pst s (<[p := move_payload b h]> (pst s))) in *. exists s'. split; [by apply Hyes |].
  destruct Hf as [Hf1 Hf2]. split; [| split; [done | split; [done |]]].
  - apply psys_update; [done |]. split; [done |]. cbn. split; [done |]. split; [lia |]. split; [done |].
    exists n. split; [done |]. split; [done |]. unfold SIZEOF_STRUCT_PBUF in Hf2. destruct (type b); lia || done.
  - intros Hown. destruct (header_spec s' p (move_payload b h) (- h)) as [Hback _];
      [apply lookup_insert_eq | done | cbn; lia | lia | cbn; lia |].
    rewrite Hback.
    + do 2 f_equal. unfold s', set_pst. destruct s as [w st o]. cbn in *. f_equal. rewrite insert_insert_eq.
      apply insert_id. rewrite Hb. f_equal. unfold move_payload. destruct b. cbn. f_equal; lia.
    + split; cbn; [lia |]. unfold SIZEOF_STRUCT_PBUF. destruct Hown as [E | E]; rewrite E in *; lia.
Qed.

(** ** pbuf_ref, pbuf_cat, pbuf_chain *)

Lemma cat_loop fuel s p l0 r br t bt :
  chain (pst s) p (l0 ++ [(r, br)]) -> pst s !! t = Some bt -> t ∉ l0.*1 -> (length l0 < fuel)%nat ->
  while fuel (cat_body t) (s, p) = Some (Some (set_pst s (ins (bump (tot_len bt) l0) (pst s)), r)).
Proof.
  revert fuel s p. induction l0 as [| [a b] l0 IH]; intros fuel s p Hc Ht Hni Hf;
    (destruct fuel as [| fuel]; [cbn in Hf; lia |]); rewrite while_S; cbn [app] in Hc;
    inversion Hc as [| ? ? ? Hp Hb Hc']; subst; unfold cat_body at 1; rewrite Hb, Ht.
  - inversion Hc'. cbn. by destruct s.
  - replace (next b =? 0) with false by (symmetry; apply Z.eqb_neq; intros E; rewrite E in Hc';
      destruct (chain_inv _ _ _ Hc') as [[_ E'] | [? _]]; [by destruct l0 | done]).
    cbn in Hni. rewrite elem_of_cons in Hni. pose proof (chain_NoDup _ _ _ Hc) as Hnd.
    cbn in Hnd. apply NoDup_cons in Hnd as [Ha _]. etrans.
    + apply IH; [by apply chain_insert_ne | cbn; rewrite lookup_insert_ne; [done | intros ->; tauto] | tauto |].
      cbn in Hf. lia.
    + done.
Qed.

Lemma cat_lengths l0 r br t lt d :
  lengths_ok (l0 ++ [(r, br)]) -> lengths_ok lt -> d = chain_len lt ->
  chain_len (l0 ++ [(r, br)]) + d < 65536 ->
  lengths_ok (bump d l0 ++ (r, set_next (bump1 d br) t) :: lt).
Proof.
  intros Hl Ht ->. pose proof (chain_len_nonneg lt Ht). induction l0 as [| [a b] l0 IH]; intros Hm.
  - cbn in *. rewrite u16_id by lia. repeat split; try lia. done.
  - destruct Hl as (H1 & H2 & H3 & H4). specialize (IH H4). cbn in Hm.
    pose proof (chain_len_nonneg _ H4) as Hnn.
    cbn. fold (bump (chain_len lt) l0). rewrite chain_len_app, chain_len_bump in *. cbn in *.
    rewrite u16_id by lia. split; [lia |]. split; [lia |]. split; [lia |]. apply IH. lia.
Qed.

Lemma psys_ins s L l :
  psys s L -> Forall (fun x => pbuf_ok L x.1 x.2) l -> psys (set_pst s (ins l (pst s))) L.
Proof.
  intros Hs H1. revert s Hs. induction H1 as [| [a b] l Hab H1 IH]; intros s Hs; [by destruct Hs |].
  cbn [ins]. refine (IH (set_pst s (<[a := b]> (pst s))) _). by apply psys_update.
Qed.

(** The links and total lengths of a pbuf are not part of what it owns. *)
Lemma pbuf_ok_relink L p b b' :
  pbuf_ok L p b -> payload b' = payload b -> len b' = len b -> type b' = type b ->
  flags b' = flags b -> ref b' = ref b -> pbuf_ok L p b'.
Proof. unfold pbuf_ok. by intros Hok -> -> -> -> ->. Qed.

Lemma psys_bump s L p l1 l2 d :
  psys s L -> chain (pst s) p (l1 ++ l2) -> psys (set_pst s (ins (bump d l1) (pst s))) L.
Proof.
  intros Hs Hc. apply psys_ins; [done |]. unfold bump. apply Forall_fmap, Forall_forall. intros [a b] Hin. cbn.
  apply (pbuf_ok_relink L a b); try done. apply (ps_pbuf _ _ Hs).
  apply (chain_lookup _ _ _ _ _ Hc). apply elem_of_app. by left.
Qed.

Lemma cat_spec s L h t l0 r br lt bt :
  psys s L -> chain (pst s) h (l0 ++ [(r, br)]) -> chain (pst s) t lt ->
  (forall a, a ∈ lt.*1 -> a ∉ (l0 ++ [(r, br)]).*1) ->
  lengths_ok (l0 ++ [(r, br)]) -> lengths_ok lt -> pst s !! t = Some bt -> t <> 0 ->
  chain_len (l0 ++ [(r, br)]) + chain_len lt < 65536 ->
  exists s', pbuf_cat s h t = Some s' /\
    pst s' = <[r := set_next (bump1 (tot_len bt) br) t]> (ins (bump (tot_len bt) l0) (pst s)) /\
    pw s' = pw s /\ ooseq_pending s' = ooseq_pending s /\ psys s' L /\
    chain (pst s') h (bump (tot_len bt) l0 ++ (r, set_next (bump1 (tot_len bt) br) t) :: lt) /\
    lengths_ok (bump (tot_len bt) l0 ++ (r, set_next (bump1 (tot_len bt) br) t) :: lt).
Proof.
  intros Hs Hc Hct Hdis Hl Hlt Hbt Ht Hsum. set (d := tot_len bt).
  assert (d = chain_len lt) as Hd.
  { inversion Hct as [| ? ? ? _ Hbt']; subst; [done |]. rewrite Hbt in Hbt'. injection Hbt' as <-. by destruct Hlt. }
  assert (t ∈ lt.*1) as Htin by (inversion Hct; subst; [done | by apply elem_of_cons; left]).
  assert ((t ∉ l0.*1) /\ r <> t) as [Ht0 Hrt].
  { pose proof (Hdis t Htin) as Hn. rewrite fmap_app, elem_of_app in Hn. cbn in Hn.
    rewrite list_elem_of_singleton in Hn. split; [tauto |]. intros ->. tauto. }
  pose proof (chain_NoDup _ _ _ Hc) as Hnd. rewrite fmap_app in Hnd. apply NoDup_app in Hnd as (_ & Hnd & _).
  assert (r ∉ l0.*1) as Hr0 by (intros Hx; apply (Hnd r Hx); by apply elem_of_cons; left).
  assert (pst s !! r = Some br) as Hr.
  { apply (chain_lookup _ _ _ _ _ Hc). apply elem_of_app. right. by apply elem_of_cons; left. }
  unfold pbuf_cat. replace ((h =? 0) || (t =? 0)) with false.
  2: { symmetry. apply orb_false_iff. rewrite !Z.eqb_neq. split; [| done]. intros ->.
       destruct (chain_inv _ _ _ Hc) as [[_ E] | [? _]]; [by destruct l0 | done]. }
  rewrite (cat_loop _ s h l0 r br t bt Hc Hbt Ht0)
    by (pose proof (chain_length_size _ _ _ Hc) as Hsz; rewrite length_app in Hsz; lia).
  cbn [mjoin option_join mbind option_bind pst set_pst].
  assert (forall a, a ∉ l0.*1 -> ins (bump d l0) (pst s) !! a = pst s !! a) as Hins
    by (intros a Ha; apply lookup_ins_ne; by rewrite bump_fst).
  unfold update. cbn [pst set_pst]. fold d. rewrite !Hins, Hbt by done. cbn [mbind option_bind].
  rewrite Hr. cbn [mbind option_bind pst set_pst]. rewrite lookup_insert_eq. cbn [mbind option_bind].
  rewrite insert_insert_eq. eexists. split; [reflexivity |]. split; [done |]. split; [done |]. split; [done |].
  split; [| split; [| apply cat_lengths; [done | done | done | by rewrite Hd]]].
  - refine (psys_update (set_pst s (ins (bump d l0) (pst s))) L r _ _ _); [by eapply psys_bump |].
    apply (pbuf_ok_relink L r br); try done. by apply (ps_pbuf _ _ Hs).
  - cbn. rewrite <- (insert_insert_eq _ r _ (bump1 d br)). apply chain_link.
    + pose proof (chain_bump d (pst s) h (l0 ++ [(r, br)]) [] ltac:(by rewrite app_nil_r)) as Hcb.
      by rewrite app_nil_r, bump_app, ins_app in Hcb.
    + apply (chain_ext (pst s)); [done |]. intros a Ha. pose proof (Hdis a Ha) as Hn.
      rewrite fmap_app, elem_of_app in Hn. cbn in Hn. rewrite list_elem_of_singleton in Hn.
      rewrite lookup_insert_ne by (intros ->; tauto). apply Hins. tauto.
    + intros a Ha. rewrite fmap_app, bump_fst. pose proof (Hdis a Ha) as Hn. by rewrite fmap_app in Hn.
Qed.

Lemma chain_last st h lh : chain st h lh -> h <> 0 -> exists l0 r br, lh = l0 ++ [(r, br)].
Proof.
  intros Hc Hh. destruct lh as [| x lh _] using rev_ind; [by inversion Hc |].
  destruct x as [r br]. by exists lh, r, br.
Qed.

(** [pbuf_chain] concatenates two packets: the chain of [h] becomes the pbufs
    of both in order, with consistent lengths (the sum fitting 16 bits) and the
    data of [h] followed by that of [t]; [t] gains one reference, no other pbuf
    and no memory changes, and the buffer system stays consistent. *)
Theorem pbuf_chain_concatenates s L h t lh lt bt :
  psys s L -> chain (pst s) h lh -> chain (pst s) t lt -> h <> 0 -> t <> 0 ->
  (forall a, a ∈ lt.*1 -> a ∉ lh.*1) -> lengths_ok lh -> lengths_ok lt ->
  chain_len lh + chain_len lt < 65536 -> pst s !! t = Some bt -> ref bt < 65535 ->
  exists s' l, pbuf_chain s h t = Some s' /\ chain (pst s') h l /\ l.*1 = lh.*1 ++ lt.*1 /\
    lengths_ok l /\ (forall m, chain_data m l = chain_data m lh ++ chain_data m lt) /\
    pst s' !! t = Some (set_ref bt (ref bt + 1)) /\
    (forall a, a ∉ lh.*1 -> a <> t -> pst s' !! a = pst s !! a) /\
    pw s' = pw s /\ psys s' L.
Proof.
  intros Hs Hc Hct Hh Ht Hdis Hl Hlt Hsum Hbt Href.
  destruct (chain_last _ _ _ Hc Hh) as (l0 & r & br & ->).
  destruct (cat_spec s L h t l0 r br lt bt Hs Hc Hct Hdis Hl Hlt Hbt Ht Hsum)
    as (s1 & Hcat & Hst & Hpw & _ & Hs1 & Hc1 & Hl1).
  inversion Hct as [| ? ? lt' _ Hbt' Hct']; subst; [done |]. rewrite Hbt in Hbt'. injection Hbt' as <-.
  set (d := tot_len bt) in *. set (l1 := bump d l0 ++ [(r, set_next (bump1 d br) t)]).
  change ((r, set_next (bump1 d br) t) :: (t, bt) :: lt') with ([(r, set_next (bump1 d br) t)] ++ (t, bt) :: lt') in Hc1, Hl1.
  rewrite app_assoc in Hc1, Hl1. fold l1 in Hc1, Hl1.
  assert (pst s1 !! t = Some bt) as Ht1.
  { apply (chain_lookup _ _ _ _ _ Hc1). apply elem_of_app. right. by apply elem_of_cons; left. }
  pose proof (ps_pbuf _ _ Hs1 t bt Ht1) as (Hcu & Hrf & Hok).
  unfold pbuf_chain, pbuf_ref, update. rewrite Hcat. cbn [mbind option_bind].
  rewrite (proj2 (Z.eqb_neq t 0)), Ht1 by done. cbn [negb mbind option_bind]. rewrite u16_id by lia.
  set (bt' := set_ref bt (ref bt + 1)). eexists _, (l1 ++ (t, bt') :: lt'). split; [reflexivity |]. cbn [pst set_pst].
  split; [by eapply chain_update |].
  split; [unfold l1; rewrite !fmap_app, bump_fst; cbn; by rewrite <- app_assoc |].
  split; [by eapply lengths_ok_update |]. split; [| split; [apply lookup_insert_eq | split; [| split; [done |]]]].
  - intros m. unfold l1. rewrite !chain_data_app, chain_data_bump. cbn. by rewrite <- app_assoc.
  - intros a Ha Hat. rewrite lookup_insert_ne, Hst by done. rewrite fmap_app, elem_of_app in Ha. cbn in Ha.
    rewrite list_elem_of_singleton in Ha. rewrite lookup_insert_ne by (intros ->; tauto).
    apply lookup_ins_ne. rewrite bump_fst. tauto.
  - apply psys_update; [done |]. split; [done |]. split; [cbn; lia |]. apply Hok.
Qed.

End links.

Section release.
Context {W : Type} `{LW : MemSystemLaws W}.
Context (custom_free : pstate W -> Z -> option (pstate W)).

Implicit Types (s : pstate W) (L : regions).

(** ** pbuf_dechain *)

Lemma dechain_spec s L p b q c l :
  psys s L -> chain (pst s) p ((p, b) :: (q, c) :: l) -> lengths_ok ((p, b) :: (q, c) :: l) ->
  exists l1 l2 s', (q, c) :: l = l1 ++ l2 /\ Forall (fun x => ref x.2 = 1) l1 /\ stops l2 /\
    pbuf_dechain custom_free s p = Some (s', if 0 <? u8 (Z.of_nat (length l1)) then 0 else q) /\
    pst s' = drop_ref l2 (del l1 (<[p := set_tot_len (set_next b 0) (len b)]> (pst s))) /\
    psys s' (del l1 L) /\ ooseq_pending s' = ooseq_pending s /\ preserves (mem_of s) (mem_of s') (del l1 L) /\
    (l1 = [] -> pw s' = pw s).
Proof.
  intros Hs Hc Hl. pose proof (chain_NoDup _ _ _ Hc) as Hnd. cbn [fmap list_fmap fst] in Hnd.
  apply NoDup_cons in Hnd as [Hp _]. inversion Hc as [| ? ? ? Hp0 Hb Hc1]; subst.
  pose proof Hc1 as Hc2. inversion Hc2 as [| ? ? ? Hq Hcq Hc3]; subst.
  destruct Hl as (H1 & H2 & H3 & H4 & H5 & H6 & H7). cbn in H1.
  pose proof (chain_len_nonneg _ H7) as Hnn.
  set (b' := set_tot_len (set_next b 0) (len b)). set (s1 := set_pst s (<[p := b']> (pst s))).
  assert (psys s1 L) as Hs1.
  { apply psys_update; [done |]. apply (pbuf_ok_relink L p b); try done. by apply (ps_pbuf _ _ Hs). }
  assert (chain (pst s1) (next b) ((next b, c) :: l)) as Hcs by by apply chain_insert_ne.
  destruct (free_split ((next b, c) :: l)) as (l1 & l2 & E & Hf1 & Hf2).
  { apply Forall_forall. intros [a x] Hin. apply (chain_lookup _ _ _ _ _ Hc1) in Hin as [Hx _].
    destruct (ps_pbuf _ _ Hs a x Hx) as (_ & Hr & _). cbn. lia. }
  rewrite E in Hcs. destruct (pbuf_free_spec custom_free l1 l2 s1 L (next b) Hs1 Hcs Hf1 Hf2) as (s' & Hr & Hst & Hs' & Ho & Hpr).
  exists l1, l2, s'. split; [done |]. split; [done |]. split; [done |]. split; [| done].
  unfold pbuf_dechain, update. rewrite Hb. cbn [mbind option_bind].
  rewrite (proj2 (Z.eqb_neq (next b) 0)) by done. cbn [negb]. rewrite Hcq. cbn [mbind option_bind pst set_pst].
  replace (set_tot_len c (u16 (tot_len b - len b))) with c
    by (rewrite u16_id by lia; destruct c; unfold set_tot_len; cbn in *; f_equal; lia).
  rewrite (insert_id (pst s) (next b) c) by done. rewrite Hb. cbn [mbind option_bind pst set_pst].
  rewrite lookup_insert_eq. cbn [mbind option_bind]. rewrite insert_insert_eq.
  change (set_pst _ _) with s1. rewrite Hr. done.
Qed.

(** [pbuf_dechain] cuts the first pbuf off a packet: it becomes a packet of
    its own whose total length is its length, and the rest loses the one
    reference the link held, so its pbufs are released up to the first that has
    other references.  The rest is returned when it survives and NULL when it
    was released or did not exist (a packet of at most 256 pbufs). *)
Theorem pbuf_dechain_splits s L p b l :
  psys s L -> chain (pst s) p ((p, b) :: l) -> lengths_ok ((p, b) :: l) -> (length l < 256)%nat ->
  exists l1 l2 s', l = l1 ++ l2 /\ Forall (fun x => ref x.2 = 1) l1 /\ stops l2 /\
    pbuf_dechain custom_free s p = Some (s', if bool_decide (l1 = []) then next b else 0) /\
    pst s' = drop_ref l2 (del l1 (<[p := set_tot_len (set_next b 0) (len b)]> (pst s))) /\
    psys s' (del l1 L) /\ preserves (mem_of s) (mem_of s') (del l1 L).
Proof.
  intros Hs Hc Hl Hlen. destruct l as [| [q c] l].
  - exists [], [], s. inversion Hc as [| ? ? ? Hp Hb Hn]; subst. inversion Hn as [E |]; subst.
    destruct Hl as (Ht & _). cbn in Ht. unfold pbuf_dechain. rewrite Hb. cbn [mbind option_bind]. rewrite <- E.
    split; [done |]. split; [constructor |]. split; [done |]. split; [done |]. split; [| by split].
    cbn. symmetry. apply insert_id. rewrite Hb. destruct b. cbn in *. unfold set_tot_len. cbn. subst. do 2 f_equal. lia.
  - destruct (dechain_spec s L p b q c l Hs Hc Hl) as (l1 & l2 & s' & E & H1 & H2 & Hr & Hst & Hs' & _ & Hpr & _).
    exists l1, l2, s'. repeat (split; [done |]). split; [| done]. rewrite Hr. do 2 f_equal.
    inversion Hc as [| ? ? ? _ _ Hn]; subst. inversion Hn; subst.
    assert (length l1 < 256)%nat as Hl1 by (apply (f_equal length) in E; rewrite length_app in E; cbn in *; lia).
    rewrite u8_id by lia. destruct l1 as [| x l1]; [done |]. rewrite bool_decide_false by done.
    by rewrite (proj2 (Z.ltb_lt 0 _)) by (cbn; lia).
Qed.

(** [pbuf_dechain] undoes [pbuf_chain]: chaining a packet to a single pbuf
    and cutting it off again gives back the state and the packet. *)
Theorem pbuf_chain_dechain s L h t b lt bt :
  psys s L -> chain (pst s) h [(h, b)] -> chain (pst s) t lt -> t <> 0 -> h ∉ lt.*1 ->
  lengths_ok [(h, b)] -> lengths_ok lt -> len b + chain_len lt < 65536 ->
  pst s !! t = Some bt -> ref bt < 65535 ->
  exists s1, pbuf_chain s h t = Some s1 /\ pbuf_dechain custom_free s1 h = Some (s, t).
Proof.
  intros Hs Hc Hct Ht Hdis Hl Hlt Hsum Hbt Href.
  destruct (cat_spec s L h t [] h b lt bt Hs Hc Hct) as (s1 & Hcat & Hst & Hpw & Ho & Hs1 & Hc1 & Hl1); try done.
  { intros a Ha Hin. apply list_elem_of_singleton in Hin as ->. done. }
  { cbn. lia. }
  inversion Hct as [| ? ? lt' _ Hbt' Hct']; subst; [done |]. rewrite Hbt in Hbt'. injection Hbt' as <-.
  set (b1 := set_next (bump1 (tot_len bt) b) t) in *. set (bt' := set_ref bt (ref bt + 1)).
  assert (pst s1 !! t = Some bt) as Ht1 by (apply (chain_lookup _ _ _ _ _ Hc1); cbn; rewrite !elem_of_cons; auto).
  pose proof (ps_pbuf _ _ Hs1 t bt Ht1) as (Hcu & Hrf & Hok).
  set (s2 := set_pst s1 (<[t := bt']> (pst s1))).
  assert (pbuf_chain s h t = Some s2) as Hch.
  { unfold pbuf_chain, pbuf_ref, update. rewrite Hcat. cbn [mbind option_bind].
    rewrite (proj2 (Z.eqb_neq t 0)), Ht1 by done. cbn [negb mbind option_bind]. by rewrite u16_id by lia. }
  exists s2. split; [done |].
  destruct (dechain_spec s2 L h b1 t bt' lt') as (l1 & l2 & s' & E & H1 & H2 & Hr & Hst' & _ & Ho' & _ & Hpw').
  { apply psys_update; [done |]. split; [done |]. split; [cbn; lia |]. apply Hok. }
  { by apply (chain_update _ h [(h, b1)] t bt bt' lt'). }
  { by apply (lengths_ok_update [(h, b1)] t bt bt' lt'). }
  destruct l1 as [| x l1]; [| cbn in E; injection E as <- _; inversion H1 as [| ? ? Hx]; subst; cbn in Hx; lia].
  rewrite Hr. cbn. do 2 f_equal. specialize (Hpw' eq_refl). cbn in E. subst l2.
  destruct s as [w st o], s' as [w' st' o']. cbn in *. subst. f_equal.
  assert (h <> t) as Hht by (intros ->; apply Hdis; by apply elem_of_cons; left).
  inversion Hc as [| ? ? ? _ Hb Hn]; subst. inversion Hn as [En |].
  apply map_eq. intros a. rewrite Hst. destruct (decide (a = t)) as [-> | Hat].
  - rewrite lookup_insert_eq, Hbt. f_equal. unfold bt', set_ref. destruct bt. cbn. f_equal. lia.
  - rewrite lookup_insert_ne by done. destruct (decide (a = h)) as [-> | Hah].
    + rewrite lookup_insert_eq, Hb. f_equal. destruct Hl as (Hlb & _). unfold b1, bump1. destruct b. cbn in *.
      unfold set_tot_len. cbn. subst. f_equal; lia.
    + by rewrite !lookup_insert_ne by done.
Qed.

(** ** pbuf_realloc *)

Lemma realloc_loop fuel s p l rem g :
  chain (pst s) p l -> p <> 0 -> lengths_ok l -> 0 <= rem <= chain_len l -> (length l < fuel)%nat ->
  exists l1 q b l2, l = l1 ++ (q, b) :: l2 /\ 0 <= rem - chain_len l1 <= len b /\
    while fuel (realloc_body g) (s, p, rem)
      = Some (Some (set_pst s (ins (bump (u16 g) l1) (pst s)), q, rem - chain_len l1)).
Proof.
  revert s p l rem. induction fuel as [| fuel IH]; intros s p l rem Hc Hp Hl Hrem Hf; [lia |].
  rewrite while_S. inversion Hc as [| ? b l' _ Hb Hc']; subst; [done |]. unfold realloc_body at 1. rewrite Hb.
  destruct Hl as (H1 & H2 & H3 & H4). cbn in Hrem, Hf.
  destruct (Z.ltb_spec (len b) rem) as [Hlt | Hge].
  - pose proof (chain_NoDup _ _ _ Hc) as Hnd. cbn in Hnd. apply NoDup_cons in Hnd as [Hx _].
    rewrite (u16_id (rem - len b)) by lia. cbn [next set_tot_len].
    destruct (IH (set_pst s (<[p := bump1 (u16 g) b]> (pst s))) (next b) l' (rem - len b))
      as (l1 & q & c & l2 & -> & Hq & Hr); [by apply chain_insert_ne | | done | lia | lia |].
    { intros E. rewrite E in Hc'. inversion Hc'; subst; [cbn in Hrem; lia | done]. }
    exists ((p, b) :: l1), q, c, l2. split; [done |]. cbn [chain_len]. split; [lia |].
    rewrite Z.sub_add_distr. exact Hr.
  - exists [], p, b, l'. cbn. rewrite Z.sub_0_r. split; [done |]. split; [lia |]. by destruct s.
Qed.

Lemma realloc_lengths l1 q b l2 b' rem g :
  lengths_ok (l1 ++ (q, b) :: l2) -> len b' = rem -> tot_len b' = rem -> 0 <= rem <= len b ->
  g = chain_len l1 + rem - chain_len (l1 ++ (q, b) :: l2) ->
  lengths_ok (bump (u16 g) l1 ++ [(q, b')]).
Proof.
  intros Hl Hb Ht Hr Hg. induction l1 as [| [a c] l1 IH]; cbn in *.
  { destruct Hl as (H1 & H2 & H3 & H4). pose proof (chain_len_nonneg _ H4). repeat split; lia. }
  destruct Hl as (H1 & H2 & H3 & H4). specialize (IH H4 ltac:(lia)). fold (bump (u16 g) l1).
  destruct (lengths_ok_app _ _ H4) as [(_ & Hb0 & _ & Hl2) _].
  pose proof (chain_len_nonneg _ Hl2) as Hnn. pose proof (chain_len_nonneg _ IH) as Hn2.
  rewrite chain_len_app, chain_len_bump in *. cbn in *. rewrite Hb in *.
  assert (u16 (tot_len c + u16 g) = tot_len c + g) as Hu.
  { unfold u16 at 1 2. rewrite Zplus_mod_idemp_r. apply Z.mod_small. lia. }
  split; [lia |]. split; [lia |]. split; [lia | done].
Qed.

(** The payload belongs to the pbuf. *)
Definition owned (b : pbuf) : Prop := type b = PBUF_RAM \/ type b = PBUF_POOL.

(** The new last pbuf, its memory trimmed when it came from the heap. *)
Lemma shrink_spec s L q b rem :
  psys s L -> pst s !! q = Some b -> 0 <= rem <= len b ->
  exists w k,
    (if bool_decide (type b = PBUF_RAM) && negb (rem =? len b) then
       let '(w, q) := ms_trim (pw s) q (u16 (u16 (payload b - q) + rem)) in (set_pw s w, q)
     else (s, q)) = (set_pw s w, q) /\
    psys (set_pst (set_pw s w) (<[q := set_tot_len (set_len b rem) rem]> (pst s))) (<[q := k]> L) /\
    (forall x, in_region (delete q L) x \/ (owned b /\ q <= x < payload b + rem) ->
       ld8 (ms_mem w) x = ld8 (mem_of s) x) /\
    (owned b -> q <= payload b /\ payload b + rem <= q + k).
Proof.
  intros Hs Hb Hr. pose proof (ps_pbuf _ _ Hs q b Hb) as (Hc & Hrf & Hl0 & Hk & n & Hn & H16 & Hty).
  destruct (ms_addr _ _ _ _ (ps_live _ _ Hs) Hn) as [_ Hn16].
  assert (forall w k, ms_live w (<[q := k]> L) -> 16 <= k -> (owned b -> q + 16 <= payload b /\ payload b + rem <= q + k) ->
    psys (set_pst (set_pw s w) (<[q := set_tot_len (set_len b rem) rem]> (pst s))) (<[q := k]> L)) as Hsys.
  { intros w k Hl Hk16 Hfit. split; [done |]. cbn. intros a c Ha. destruct (decide (a = q)) as [-> | Hne].
    - rewrite lookup_insert_eq in Ha. injection Ha as <-. split; [done |]. split; [done |]. split; [cbn; lia |].
      split; [done |]. exists k. rewrite lookup_insert_eq. split; [done |]. split; [done |]. cbn.
      unfold owned in Hfit. destruct (type b); auto.
    - rewrite lookup_insert_ne in Ha by done. destruct (ps_pbuf _ _ Hs a c Ha) as (A1 & A2 & A3 & A4 & k' & A5).
      repeat (split; [done |]). exists k'. by rewrite lookup_insert_ne. }
  destruct (decide (type b = PBUF_RAM /\ rem <> len b)) as [[Hram Hne] | Hno].
  - rewrite Hram in *. rewrite bool_decide_true, (proj2 (Z.eqb_neq _ _) Hne) by done. cbn [negb andb].
    rewrite !u16_id by (rewrite ?u16_id; lia).
    destruct (ms_trim_law (pw s) L q n (payload b - q + rem) (ps_live _ _ Hs) Hn Hk ltac:(lia))
      as (w & k & -> & Hk' & Hl & Hkeep).
    exists w, k. split; [done |]. split; [apply Hsys; [done | lia | lia] |]. split; [| lia].
    intros x [Hx | [_ Hx]]; apply Hkeep; [by left | right; lia].
  - exists (pw s), n. split; [| split; [| split]].
    + destruct (bool_decide_reflect (type b = PBUF_RAM)), (Z.eqb_spec rem (len b)); try tauto; by destruct s.
    + apply Hsys; [rewrite insert_id by done; apply Hs | done |].
      intros [E | E]; rewrite E in Hty; lia.
    + done.
    + intros [E | E]; rewrite E in Hty; lia.
Qed.

Lemma realloc_spec s L p l new_len :
  psys s L -> chain (pst s) p l -> p <> 0 -> lengths_ok l -> 0 <= new_len < chain_len l ->
  exists l1 q b f1 f2 s' k,
    let b1 := set_tot_len (set_len b (new_len - chain_len l1)) (new_len - chain_len l1) in
    let b' := set_next b1 0 in
    let d := u16 (new_len - chain_len l) in
    l = l1 ++ (q, b) :: f1 ++ f2 /\ 0 <= new_len - chain_len l1 <= len b /\
    pbuf_realloc custom_free s p new_len = Some s' /\
    pst s' = <[q := b']> (drop_ref f2 (del f1 (<[q := b1]> (ins (bump d l1) (pst s))))) /\
    psys s' (del f1 (<[q := k]> L)) /\ (owned b -> q <= payload b /\ payload b + len b' <= q + k) /\
    (forall x, in_region (del f1 (delete q L)) x \/ (owned b /\ q <= x < payload b + len b') ->
       ld8 (mem_of s') x = ld8 (mem_of s) x).
Proof.
  intros Hs Hc Hp Hl Hnew. pose proof (chain_length_size _ _ _ Hc) as Hsz.
  inversion Hc as [| ? hd l' _ Hhd _]; subst; [done |]. pose proof (chain_tot_len _ _ _ Hl) as Ht.
  set (l := (p, hd) :: l') in *. set (g := new_len - tot_len hd).
  destruct (realloc_loop (S (size (pst s))) s p l new_len g Hc Hp Hl ltac:(lia) ltac:(lia))
    as (l1 & q & b & l2 & E & Hrem & Hloop).
  set (rem := new_len - chain_len l1) in *. rewrite E in Hc.
  set (s1 := set_pst s (ins (bump (u16 g) l1) (pst s))) in *.
  assert (psys s1 L) as Hs1 by by eapply psys_bump.
  pose proof (chain_bump (u16 g) _ _ _ _ Hc) as Hc1. change (ins _ _) with (pst s1) in Hc1.
  destruct (chain_after _ _ _ _ _ _ Hc1) as (Hc2 & Hq2 & Hq1).
  assert (pst s1 !! q = Some b) as Hb.
  { apply (chain_lookup _ _ _ _ _ Hc1). apply elem_of_app. right. by apply elem_of_cons; left. }
  destruct (shrink_spec s1 L q b rem Hs1 Hb Hrem) as (w & k & Hshrink & Hs2 & Hkeep & Hfit).
  set (b1 := set_tot_len (set_len b rem) rem) in *. set (s2 := set_pst (set_pw s1 w) (<[q := b1]> (pst s1))) in *.
  assert (chain (pst s2) (next b) l2) as Hc3 by by apply chain_insert_ne.
  destruct (free_split l2) as (f1 & f2 & -> & Hf1 & Hf2).
  { apply Forall_forall. intros [a x] Hin. apply (chain_lookup _ _ _ _ _ Hc3) in Hin as [Hx _].
    destruct (ps_pbuf _ _ Hs2 a x Hx) as (_ & Hr & _). cbn. lia. }
  destruct (pbuf_free_spec custom_free f1 f2 s2 _ (next b) Hs2 Hc3 Hf1 Hf2) as (s3 & Hr & Hst & Hs3 & Ho & Hpr & _).
  rewrite fmap_app, elem_of_app in Hq2.
  assert (pst s3 !! q = Some b1) as Hq3.
  { rewrite Hst. transitivity (del f1 (pst s2) !! q).
    - destruct f2 as [| [x c] f2]; [done |]. cbn. apply lookup_insert_ne. intros ->.
      apply Hq2. right. by apply elem_of_cons; left.
    - rewrite lookup_del, decide_False by tauto. apply lookup_insert_eq. }
  exists l1, q, b, f1, f2, (set_pst s3 (<[q := set_next b1 0]> (pst s3))), k. cbn zeta. fold rem b1.
  split; [done |]. split; [done |]. split; [| split; [| split; [| split; [done |]]]].
  - unfold pbuf_realloc. rewrite Hhd. cbn [mbind option_bind]. rewrite (proj2 (Z.leb_gt _ _)) by lia.
    fold g. rewrite Hloop. cbn [mjoin option_join mbind option_bind]. rewrite Hb. cbn [mbind option_bind].
    rewrite Hshrink. cbn [pst set_pw set_pst]. change (ins _ _) with (pst s1). rewrite Hb. cbn [mbind option_bind].
    fold b1. change (set_pst (set_pw s1 w) (<[q := b1]> (pst s1))) with s2. change (next b1) with (next b).
    replace (if negb (next b =? 0) then _ else _) with (Some s3).
    { cbn [mbind option_bind]. unfold update. by rewrite Hq3. }
    destruct (Z.eqb_spec (next b) 0) as [E0 | _]; [| by rewrite Hr].
    rewrite E0 in Hr. cbn in Hr. injection Hr as <- _. done.
  - cbn [pst set_pst]. rewrite Hst. unfold s2, s1, g. by rewrite Ht.
  - apply psys_update; [done |]. apply (pbuf_ok_relink _ q b1); try done. by apply (ps_pbuf _ _ Hs3).
  - intros x Hx. cbn. rewrite Hpr.
    + apply Hkeep. destruct Hx as [(a & n & Ha & Hx) | Hx]; [left | by right].
      rewrite lookup_del in Ha. destruct (decide _); [done |]. by exists a, n.
    + destruct Hx as [(a & n & Ha & Hx) | [Hown Hx]].
      * exists a, n. split; [| done]. rewrite lookup_del in Ha |- *. destruct (decide _); [done |].
        apply lookup_delete_Some in Ha as [Hne Ha]. by rewrite lookup_insert_ne.
      * exists q, k. rewrite lookup_del, decide_False by tauto. rewrite lookup_insert_eq. split; [done |].
        specialize (Hfit Hown). cbn in Hx. lia.
Qed.

(** The store [pbuf_realloc] leaves. *)
Lemma realloc_store (st : pstore) p l1 q b f1 f2 d b1 b' st' :
  chain st p (l1 ++ (q, b) :: f1 ++ f2) -> next b' = 0 ->
  st' = <[q := b']> (drop_ref f2 (del f1 (<[q := b1]> (ins (bump d l1) st)))) ->
  chain st' p (bump d l1 ++ [(q, b')]) /\
  (forall a, a ∉ (l1 ++ (q, b) :: f1 ++ f2).*1 -> st' !! a = st !! a).
Proof.
  intros Hc Hn ->. set (st1 := ins (bump d l1) st).
  assert (forall a, a <> q -> a ∉ (f1 ++ f2).*1 ->
    <[q := b']> (drop_ref f2 (del f1 (<[q := b1]> st1))) !! a = st1 !! a) as Hlook.
  { intros a Ha Hf. rewrite fmap_app, elem_of_app in Hf. rewrite lookup_insert_ne by done.
    transitivity (del f1 (<[q := b1]> st1) !! a).
    - destruct f2 as [| [x c] f2]; [done |]. cbn. apply lookup_insert_ne. intros ->.
      apply Hf. right. by apply elem_of_cons; left.
    - rewrite lookup_del, decide_False by tauto. by apply lookup_insert_ne. }
  split.
  - apply (chain_ext (<[q := b']> st1)).
    + apply (chain_replace st1 p (bump d l1) q b b' (f1 ++ f2)); [by apply chain_bump |]. rewrite Hn. constructor.
    + intros a Ha. destruct (decide (a = q)) as [-> | Hne]; [by rewrite !lookup_insert_eq |].
      rewrite (lookup_insert_ne st1) by done. apply Hlook; [done |].
      rewrite fmap_app, bump_fst, elem_of_app in Ha. destruct Ha as [Ha | Ha]; [| by apply list_elem_of_singleton in Ha].
      intros Hin. pose proof (chain_NoDup _ _ _ Hc) as Hnd. rewrite fmap_app in Hnd.
      apply NoDup_app in Hnd as (_ & Hd & _). apply (Hd a Ha). by apply elem_of_cons; right.
  - intros a Ha. rewrite fmap_app, elem_of_app in Ha. cbn in Ha. rewrite elem_of_cons in Ha.
    rewrite Hlook by tauto. apply lookup_ins_ne. rewrite bump_fst. tauto.
Qed.

Lemma realloc_noop s p l new_len :
  chain (pst s) p l -> p <> 0 -> lengths_ok l -> chain_len l <= new_len ->
  pbuf_realloc custom_free s p new_len = Some s.
Proof.
  intros Hc Hp Hl Hge. inversion Hc as [| ? b l' _ Hb _]; subst; [done |].
  unfold pbuf_realloc. rewrite Hb. cbn [mbind option_bind]. rewrite (chain_tot_len _ _ _ Hl).
  by rewrite (proj2 (Z.leb_le _ _)) by done.
Qed.

(** The payload of a kept pbuf lies outside the released regions. *)
Lemma kept_region s L p l1 q b f1 f2 a c y :
  psys s L -> chain (pst s) p (l1 ++ (q, b) :: f1 ++ f2) -> Forall (fun x => owned x.2) (l1 ++ (q, b) :: f1 ++ f2) ->
  (a, c) ∈ l1 -> payload c <= y < payload c + len c -> in_region (del f1 (delete q L)) y.
Proof.
  intros Hs Hc Hown Hin Hy. assert ((a, c) ∈ l1 ++ (q, b) :: f1 ++ f2) as Hin' by (apply elem_of_app; by left).
  rewrite Forall_forall in Hown. specialize (Hown _ Hin'). cbn in Hown.
  destruct (chain_lookup _ _ _ _ _ Hc Hin') as [Hac _].
  destruct (ps_pbuf _ _ Hs a c Hac) as (_ & _ & _ & _ & n & Hn & _ & Hty).
  pose proof (chain_NoDup _ _ _ Hc) as Hnd. rewrite fmap_app in Hnd. cbn in Hnd. rewrite fmap_app in Hnd.
  apply NoDup_app in Hnd as (_ & Hd & _).
  specialize (Hd a (list_elem_of_fmap_2' fst l1 (a, c) a Hin eq_refl)). rewrite elem_of_cons, elem_of_app in Hd.
  exists a, n. rewrite lookup_del, decide_False by tauto. rewrite lookup_delete_ne by (intros ->; tauto).
  split; [done |]. destruct Hown as [E | E]; rewrite E in Hty; lia.
Qed.

(** What is in front of the payload of the first pbuf, too. *)
Lemma front_region s L p b0 l0 l1 q b f1 f2 rem x :
  psys s L -> chain (pst s) p ((p, b0) :: l0) -> (p, b0) :: l0 = l1 ++ (q, b) :: f1 ++ f2 -> owned b0 -> 0 <= rem ->
  p <= x < payload b0 -> in_region (del f1 (delete q L)) x \/ (owned b /\ q <= x < payload b + rem).
Proof.
  intros Hs Hc E Hown Hr Hx. destruct l1 as [| [a c] l1]; cbn in E; injection E as -> -> El; [right; split; [done | lia] |].
  left. destruct (chain_lookup _ _ _ _ _ Hc (list_elem_of_here _ _)) as [Hpc _].
  destruct (ps_pbuf _ _ Hs a c Hpc) as (_ & _ & Hl0 & _ & n & Hn & _ & Hty).
  pose proof (chain_NoDup _ _ _ Hc) as Hnd. rewrite El in Hnd. cbn in Hnd. apply NoDup_cons in Hnd as [Hd _].
  rewrite fmap_app in Hd. cbn in Hd. rewrite fmap_app, elem_of_app, elem_of_cons, elem_of_app in Hd.
  exists a, n. rewrite lookup_del, decide_False by tauto. rewrite lookup_delete_ne by (intros ->; tauto).
  split; [done |]. destruct Hown as [Ety | Ety]; rewrite Ety in Hty; lia.
Qed.

Lemma realloc_truncates s L p l new_len :
  psys s L -> chain (pst s) p l -> p <> 0 -> lengths_ok l -> 0 <= new_len ->
  exists s' L' l', pbuf_realloc custom_free s p new_len = Some s' /\ psys s' L' /\
    chain (pst s') p l' /\ lengths_ok l' /\ chain_len l' = Z.min new_len (chain_len l) /\
    l'.*1 `prefix_of` l.*1 /\
    (Forall (fun x => owned x.2) l ->
       chain_data (mem_of s') l' = take (Z.to_nat new_len) (chain_data (mem_of s) l)) /\
    (forall a, a ∉ l.*1 -> pst s' !! a = pst s !! a /\ L' !! a = L !! a) /\
    preserves (mem_of s) (mem_of s') (del l L) /\
    (forall a c, (a, c) ∈ l' -> exists c0, (a, c0) ∈ l /\ payload c = payload c0 /\ (len c = len c0 \/ next c = 0)) /\
    (forall b0 l0 x, l = (p, b0) :: l0 -> owned b0 -> p <= x < payload b0 -> ld8 (mem_of s') x = ld8 (mem_of s) x).
Proof.
  intros Hs Hc Hp Hl Hn. pose proof (chain_data_length (mem_of s) l Hl) as Hdl.
  destruct (Z.lt_ge_cases new_len (chain_len l)) as [Hlt | Hge].
  2: { exists s, L, l. split; [by eapply realloc_noop |]. split; [done |]. split; [done |]. split; [done |].
       split; [lia |]. split; [done |]. split; [by rewrite take_ge by lia |]. split; [by split |]. split; [done |]. split; [| done]. intros a c Hc'. exists c. auto. }
  destruct (realloc_spec s L p l new_len Hs Hc Hp Hl ltac:(lia))
    as (l1 & q & b & f1 & f2 & s' & k & El & Hrem & Hr & Hst & Hs' & Hfit & Hmem).
  cbn zeta in Hst, Hfit, Hmem. rewrite El in Hc, Hl.
  set (rem := new_len - chain_len l1) in *. set (d := u16 _) in *.
  set (b' := set_next (set_tot_len (set_len b rem) rem) 0) in *.
  destruct (realloc_store (pst s) p l1 q b f1 f2 d _ b' _ Hc eq_refl Hst) as [Hc' Hout].
  exists s', (del f1 (<[q := k]> L)), (bump d l1 ++ [(q, b')]). rewrite El.
  split; [done |]. split; [done |]. split; [done |].
  split; [by apply (realloc_lengths l1 q b (f1 ++ f2) b' rem); [done | done | done | done | rewrite El; lia] |].
  split; [rewrite chain_len_app, chain_len_bump; rewrite El in Hlt; cbn; lia |].
  split; [rewrite !fmap_app, bump_fst; cbn; apply prefix_app, prefix_cons, prefix_nil |].
  split; [| split; [| split; [| split]]].
  - intros Hown. rewrite <- El.
    transitivity (chain_data (mem_of s) (bump d l1 ++ [(q, b')])).
    + apply chain_data_ext, Forall_app. split; [| repeat constructor; intros y Hy; apply Hmem; right].
      2: { assert (owned b) as Hob by (apply Forall_app in Hown as [_ Hown]; by inversion Hown). split; [done |]. specialize (Hfit Hob). cbn in Hy |- *. lia. }
      unfold bump. apply Forall_fmap, Forall_forall. intros [a c] Hin y Hy. apply Hmem. left.
      by eapply kept_region.
    + rewrite El. replace new_len with (chain_len l1 + rem) by lia. by apply chain_data_take.
  - intros a Ha. split; [by apply Hout |]. rewrite fmap_app in Ha. cbn in Ha. rewrite fmap_app, elem_of_app, elem_of_cons, elem_of_app in Ha.
    rewrite lookup_del, decide_False by tauto. apply lookup_insert_ne. intros ->. tauto.
  - intros x (a & n & Ha & Hx). apply Hmem. left. rewrite lookup_del in Ha. destruct (decide _) as [| Hni]; [done |].
    rewrite fmap_app in Hni. cbn in Hni. rewrite fmap_app, elem_of_app, elem_of_cons, elem_of_app in Hni.
    exists a, n. rewrite lookup_del, decide_False by tauto. rewrite lookup_delete_ne by (intros ->; tauto). done.
  - intros a c [Hin | Hin%list_elem_of_singleton]%elem_of_app.
    + apply list_elem_of_fmap in Hin as ([a' c0] & [= -> ->] & Hin). exists c0. cbn. split; [apply elem_of_app; by left | auto].
    + injection Hin as -> ->. exists b. cbn. split; [| auto]. apply elem_of_app. right. apply elem_of_cons. by left.
  - intros b0 l0 x E0 Hown Hx. apply Hmem. rewrite E0 in Hc. apply (front_region s L p b0 l0 l1 q b f1 f2 _ x Hs Hc (eq_sym E0) Hown (proj1 Hrem) Hx).
Qed.

(** [pbuf_realloc] shrinks a packet to [new_len] bytes (a longer length is
    ignored): the result is the same pbufs up to the one that holds the last
    byte, with consistent lengths, the data being the first [new_len] bytes when
    the pbufs own their payload; the pbufs behind lose their link and are
    released, and no other pbuf and no data outside the packet changes. *)
Theorem pbuf_realloc_truncates s L p l new_len :
  psys s L -> chain (pst s) p l -> p <> 0 -> lengths_ok l -> 0 <= new_len ->
  exists s' L' l', pbuf_realloc custom_free s p new_len = Some s' /\ psys s' L' /\
    chain (pst s') p l' /\ lengths_ok l' /\ chain_len l' = Z.min new_len (chain_len l) /\
    l'.*1 `prefix_of` l.*1 /\
    (Forall (fun x => owned x.2) l ->
       chain_data (mem_of s') l' = take (Z.to_nat new_len) (chain_data (mem_of s) l)) /\
    (forall a, a ∉ l.*1 -> pst s' !! a = pst s !! a /\ L' !! a = L !! a) /\
    preserves (mem_of s) (mem_of s') (del l L).
Proof.
  intros Hs Hc Hp Hl Hn. destruct (realloc_truncates s L p l new_len Hs Hc Hp Hl Hn)
    as (s' & L' & l' & Hr & Hs' & Hc' & Hl' & Hlen & Hpre & Hd & Ho & Hm & _). by exists s', L', l'.
Qed.

End release.

(** ** A sample system *)

#[local] Existing Instance World.world_system.
#[local] Existing Instance World.sample_laws.

(** A packet in two pool pbufs and a pbuf of 40 bytes with room for headers. *)
Definition sample_pair : pstate World.world := sample_alloc sample_packet PBUF_IP 40 PBUF_RAM.

Lemma sample_pair_ok : exists L, psys sample_pair L.
Proof.
  destruct sample_packet_ok as [L HL].
  apply (sample_alloc_ok _ L); [exact HL | lia | intros _; unfold ram_length_ok; lia].
Qed.

Definition sample_head : pbuf := mkPbuf 0 4160 40 40 PBUF_RAM 0 1.

Lemma sample_pair_head : chain (pst sample_pair) 4108 [(4108, sample_head)].
Proof. repeat (constructor; [lia | vm_compute; reflexivity |]). constructor. Qed.

Lemma sample_pair_packet : chain (pst sample_pair) 19880 sample_chain.
Proof. repeat (constructor; [lia | vm_compute; reflexivity |]). constructor. Qed.

Lemma sample_chain_lengths : lengths_ok sample_chain.
Proof. cbn. lia. Qed.

Lemma pbuf_header_correct_witness :
  exists s', pbuf_header sample_pair 4108 20 = Some (s', 0) /\ pbuf_header s' 4108 (-20) = Some (sample_pair, 0).
Proof.
  destruct sample_pair_ok as [L HL].
  destruct (pbuf_header_correct sample_pair L 4108 sample_head 20 HL) as [Hyes _];
    [vm_compute; reflexivity | lia | cbn; lia | cbn; lia | lia | cbn; lia |].
  destruct Hyes as (s' & Hr & _ & _ & _ & Hback); [split; unfold SIZEOF_STRUCT_PBUF; cbn; lia |].
  exists s'. split; [exact Hr |]. apply Hback. by left.
Defined.

Lemma pbuf_chain_concatenates_witness :
  exists s' l, pbuf_chain sample_pair 4108 19880 = Some s' /\ chain (pst s') 4108 l /\ l.*1 = [4108; 19880; 18164].
Proof.
  destruct sample_pair_ok as [L HL].
  destruct (pbuf_chain_concatenates sample_pair L 4108 19880 [(4108, sample_head)] sample_chain
              (mkPbuf 18164 19896 2000 1700 PBUF_POOL 0 1) HL sample_pair_head sample_pair_packet)
    as (s' & l & Hr & Hc & Hf & _);
    [lia | lia | | cbn; lia | exact sample_chain_lengths | cbn; lia | vm_compute; reflexivity | cbn; lia |].
  - intros a Ha Hb. cbn in Ha, Hb. apply list_elem_of_singleton in Hb as ->.
    rewrite !elem_of_cons, elem_of_nil in Ha. lia.
  - exists s', l. split; [exact Hr |]. split; [exact Hc | exact Hf].
Defined.

Lemma pbuf_dechain_splits_witness :
  exists s', pbuf_dechain no_custom sample_packet 19880 = Some (s', 0).
Proof.
  destruct sample_packet_ok as [L HL].
  destruct (pbuf_dechain_splits no_custom sample_packet L 19880 (mkPbuf 18164 19896 2000 1700 PBUF_POOL 0 1)
              [(18164, mkPbuf 0 18180 300 300 PBUF_POOL 0 1)] HL sample_packet_chain sample_chain_lengths)
    as (l1 & l2 & s' & E & H1 & H2 & Hr & _); [cbn; lia |].
  destruct l1 as [| x l1]; [cbn in E; subst l2; cbn in H2; lia |].
  exists s'. exact Hr.
Defined.

Lemma pbuf_chain_dechain_witness :
  exists s1, pbuf_chain sample_pair 4108 19880 = Some s1 /\
    pbuf_dechain no_custom s1 4108 = Some (sample_pair, 19880).
Proof.
  destruct sample_pair_ok as [L HL].
  apply (pbuf_chain_dechain no_custom sample_pair L 4108 19880 sample_head sample_chain
           (mkPbuf 18164 19896 2000 1700 PBUF_POOL 0 1) HL sample_pair_head sample_pair_packet);
    [lia | | cbn; lia | exact sample_chain_lengths | cbn; lia | vm_compute; reflexivity | cbn; lia].
  intros Hb. cbn in Hb. rewrite !elem_of_cons, elem_of_nil in Hb. lia.
Defined.

Lemma pbuf_realloc_truncates_witness :
  exists s' l', pbuf_realloc no_custom sample_packet 19880 100 = Some s' /\
    chain (pst s') 19880 l' /\ chain_len l' = 100.
Proof.
  destruct sample_packet_ok as [L HL].
  destruct (pbuf_realloc_truncates no_custom sample_packet L 19880 sample_chain 100 HL sample_packet_chain)
    as (s' & L' & l' & Hr & _ & Hc & _ & Hlen & _); [lia | exact sample_chain_lengths | lia |].
  exists s', l'. split; [exact Hr |]. split; [exact Hc |]. rewrite Hlen. reflexivity.
Defined.

End PbufLinks.
