(* ===== verification/NetifDefs.v ===== *)
(** Network interfaces as data: [struct netif] and its flags
    (src/include/lwip/netif.h of lwIP 1.4.1).

    The fields are those the configuration compiles in; the driver's functions
    ([input], [output], [linkoutput]) are parameters of the operations that call
    them.  Addresses are in network byte order, a hardware address is a list of
    six bytes, and an interface is known by its place in [netif_list]. *)

From stdpp Require Import base tactics numbers list.
From Stdlib Require Import ZArith.
From S2P Require Import Prelude.

Local Open Scope Z_scope.

Definition NETIF_FLAG_UP : Z := 0x01.
Definition NETIF_FLAG_BROADCAST : Z := 0x02.
Definition NETIF_FLAG_POINTTOPOINT : Z := 0x04.
Definition NETIF_FLAG_DHCP : Z := 0x08.
Definition NETIF_FLAG_LINK_UP : Z := 0x10.
Definition NETIF_FLAG_ETHARP : Z := 0x20.
Definition NETIF_FLAG_ETHERNET : Z := 0x40.
Definition NETIF_FLAG_IGMP : Z := 0x80.

Record netif := mkNetif {
  nif_ip_addr : Z;
  nif_netmask : Z;
  nif_gw : Z;
  nif_mtu : Z;
  nif_hwaddr_len : Z;
  nif_hwaddr : list Z;
  nif_flags : Z;
  nif_name : Z * Z;
  nif_num : Z
}.

#[export] Instance netif_eq_dec : EqDecision netif.
Proof. solve_decision. Defined.

Definition netif_is_up (n : netif) : bool := negb (Z.land (nif_flags n) NETIF_FLAG_UP =? 0).
Definition netif_is_link_up (n : netif) : bool := negb (Z.land (nif_flags n) NETIF_FLAG_LINK_UP =? 0).
