(* ===== verification/IpAddr.v ===== *)
(** IPv4 addresses: src/core/ipv4/ip_addr.c of lwIP 1.4.1.

    An address is the 32-bit word stored in an [ip_addr_t], in network byte
    order.  Strings are bytes of memory; [char] is unsigned on the target. *)

From stdpp Require Import base tactics numbers list.
From Stdlib Require Import ZArith Lia.
From S2P Require Import Prelude ByteOrder NetifDefs.

Local Open Scope Z_scope.

Module IpAddr.
Import ByteOrder.

Definition IPADDR_NONE : Z := 0xffffffff.
Definition IPADDR_ANY : Z := 0.
Definition IPADDR_BROADCAST : Z := 0xffffffff.

Definition ip_addr_netcmp (addr1 addr2 mask : Z) : bool := Z.land addr1 mask =? Z.land addr2 mask.

Definition ip_addr_ismulticast (addr : Z) : bool :=
  Z.land addr (PP_HTONL 0xf0000000) =? PP_HTONL 0xe0000000.

Definition ip4_addr_isbroadcast (addr : Z) (n : netif) : Z :=
  if (not32 addr =? IPADDR_ANY) || (addr =? IPADDR_ANY) then 1
  else if Z.land (nif_flags n) NETIF_FLAG_BROADCAST =? 0 then 0
  else if addr =? nif_ip_addr n then 0
  else if ip_addr_netcmp addr (nif_ip_addr n) (nif_netmask n) &&
          (Z.land addr (not32 (nif_netmask n)) =? Z.land IPADDR_BROADCAST (not32 (nif_netmask n)))
  then 1
  else 0.

(** The two loops of [ip4_addr_netmask_valid] over [mask]. *)
Definition first_zero_body (nm mask : Z) : Z + Z :=
  if negb (mask =? 0) then
    if Z.land nm mask =? 0 then inr mask else inl (Z.shiftr mask 1)
  else inr mask.

Definition no_one_body (nm mask : Z) : Z + Z :=
  if negb (mask =? 0) then
    if negb (Z.land nm mask =? 0) then inr 0 else inl (Z.shiftr mask 1)
  else inr 1.

(** The mask is shifted out after 32 steps. *)
Definition ip4_addr_netmask_valid (netmask : Z) : option Z :=
  let nm_hostorder := lwip_htonl netmask in
  mask ← while 33 (first_zero_body nm_hostorder) (Z.shiftl 1 31);
  while 33 (no_one_body nm_hostorder) mask.

Definition in_range (c lo up : Z) : bool := (lo <=? u8 c) && (u8 c <=? up).
Definition isdigit (c : Z) : bool := in_range c 48 57.
Definition isxdigit (c : Z) : bool := isdigit c || in_range c 97 102 || in_range c 65 70.
Definition islower (c : Z) : bool := in_range c 97 122.
Definition isspace (c : Z) : bool :=
  (c =? 32) || (c =? 12) || (c =? 10) || (c =? 13) || (c =? 9) || (c =? 11).

(** The digits of one number: [val] and [cp]. *)
Definition number_body (m : memory) (base : Z) (x : Z * Z) : (Z * Z) + (Z * Z) :=
  let '(val, cp) := x in
  let c := ld8 m cp in
  if isdigit c then inl (u32 (u32 (val * base) + (c - 48)), cp + 1)
  else if (base =? 16) && isxdigit c then
    inl (Z.lor (u32 (Z.shiftl val 4)) (c + 10 - (if islower c then 97 else 65)), cp + 1)
  else inr (val, cp).

(** One number and the dot behind it: the parts so far and [cp].  The loop is
    left with [None] when the function returns 0, and else with the parts, the
    last number and where it ends. *)
Definition part_body (fuel : nat) (m : memory) (x : list Z * Z)
    : (list Z * Z) + option (option (list Z * Z * Z)) :=
  let '(parts, cp) := x in
  let c := ld8 m cp in
  if negb (isdigit c) then inr (Some None)
  else
    let '(base, cp) :=
      if c =? 48 then
        let cp := cp + 1 in
        let c := ld8 m cp in
        if (c =? 120) || (c =? 88) then (16, cp + 1) else (8, cp)
      else (10, cp) in
    match while fuel (number_body m base) (0, cp) with
    | None => inr None
    | Some (val, cp) =>
        if ld8 m cp =? 46 then
          if (3 <=? length parts)%nat then inr (Some None)
          else inl (parts ++ [val], cp + 1)
        else inr (Some (Some (parts, val, cp)))
    end.

(** The address from the parts, in host order. *)
Definition concoct (parts : list Z) (val : Z) : option Z :=
  match parts with
  | [] => Some val
  | [a] => if 0xffffff <? val then None else Some (Z.lor val (u32 (Z.shiftl a 24)))
  | [a; b] =>
      if 0xffff <? val then None
      else Some (Z.lor val (Z.lor (u32 (Z.shiftl a 24)) (u32 (Z.shiftl b 16))))
  | [a; b; c] =>
      if 0xff <? val then None
      else Some (Z.lor val (Z.lor (Z.lor (u32 (Z.shiftl a 24)) (u32 (Z.shiftl b 16))) (u32 (Z.shiftl c 8))))
  | _ => Some val
  end.

(** Outer [None]: the fuel (a bound on the length of the string) is exhausted;
    inner [None]: the function returns 0. *)
Definition ipaddr_aton (fuel : nat) (m : memory) (cp : Z) : option (option Z) :=
  r ← mjoin (while fuel (part_body fuel m) ([], cp));
  match r with
  | None => Some None
  | Some (parts, val, cp) =>
      let c := ld8 m cp in
      if negb (c =? 0) && negb (isspace c) then Some None
      else
        match concoct parts val with
        | None => Some None
        | Some val => Some (Some (PP_HTONL val))
        end
  end.

Definition ipaddr_addr (fuel : nat) (m : memory) (cp : Z) : option Z :=
  r ← ipaddr_aton fuel m cp;
  match r with Some val => Some val | None => Some IPADDR_NONE end.

(** The digits of a byte in [inv], least significant first; a byte has at most
    three. *)
Fixpoint inv_digits (fuel : nat) (ap : Z) : list Z :=
  match fuel with
  | O => []
  | S f => (48 + ap mod 10) :: (if ap / 10 =? 0 then [] else inv_digits f (ap / 10))
  end.

(** Storing one character, [None] when the buffer is full: the memory, [rp] and
    [len]. *)
Definition put_char (buflen : Z) (x : memory * Z * Z) (c : Z) : (memory * Z * Z) + memory :=
  let '(m, rp, len) := x in
  if buflen <=? len then inr m else inl (st8 m rp c, rp + 1, len + 1).

Fixpoint put_chars (buflen : Z) (x : memory * Z * Z) (cs : list Z) : (memory * Z * Z) + memory :=
  match cs with
  | [] => inl x
  | c :: cs => match put_char buflen x c with inl x => put_chars buflen x cs | inr m => inr m end
  end.

(** The loop over the bytes of the address, which lie in memory order. *)
Fixpoint put_bytes (buflen : Z) (x : memory * Z * Z) (bs : list Z) : (memory * Z * Z) + memory :=
  match bs with
  | [] => inl x
  | b :: bs =>
      match put_chars buflen x (reverse (inv_digits 3 b)) with
      | inr m => inr m
      | inl x => match put_char buflen x 46 with inl x => put_bytes buflen x bs | inr m => inr m end
      end
  end.

(** Returns the memory and the buffer, 0 for NULL. *)
Definition ipaddr_ntoa_r (m : memory) (addr buf buflen : Z) : memory * Z :=
  let bs := [addr mod 256; (addr / 256) mod 256; (addr / 65536) mod 256; (addr / 16777216) mod 256] in
  match put_bytes buflen (m, buf, 0) bs with
  | inr m => (m, 0)
  | inl (m, rp, _) => (st8 m (rp - 1) 0, buf)
  end.

Definition ipaddr_ntoa (m : memory) (addr str : Z) : memory * Z := ipaddr_ntoa_r m addr str 16.

(** * Broadcast addresses *)

Lemma not32_testbit x i : 0 <= x < 4294967296 -> 0 <= i < 32 -> Z.testbit (not32 x) i = negb (Z.testbit x i).
Proof.
  intros Hx Hi. unfold not32. rewrite u32_id by done. change 4294967295 with (Z.ones 32).
  rewrite Z.sub_nocarry_ldiff.
  - rewrite Z.ldiff_spec, Z.ones_spec_low by lia. done.
  - apply Z.bits_inj'. intros j Hj. rewrite Z.ldiff_spec, Z.bits_0.
    destruct (decide (j < 32)); [rewrite Z.ones_spec_low by lia; apply andb_false_r |].
    rewrite <- (Z.mod_small x (2 ^ 32)) by lia. by rewrite Z.mod_pow2_bits_high by lia.
Qed.

Lemma not32_range x : 0 <= not32 x < 4294967296.
Proof. unfold not32. pose proof (u32_range x). lia. Qed.

(** Equality of 32-bit words bit by bit. *)
Lemma word_bits x y :
  0 <= x < 4294967296 -> 0 <= y < 4294967296 ->
  (forall i, 0 <= i < 32 -> Z.testbit x i = Z.testbit y i) -> x = y.
Proof.
  intros Hx Hy Hb. apply Z.bits_inj'. intros i Hi. destruct (decide (i < 32)); [by apply Hb |].
  rewrite <- (Z.mod_small x (2 ^ 32)), <- (Z.mod_small y (2 ^ 32)) by lia.
  by rewrite !Z.mod_pow2_bits_high by lia.
Qed.

Lemma land_word x y : 0 <= x -> 0 <= y < 4294967296 -> 0 <= Z.land x y < 4294967296.
Proof.
  intros Hx Hy. split; [by apply Z.land_nonneg; left |].
  destruct (decide (Z.land x y = 0)) as [-> | Hne]; [lia |].
  assert (0 <= Z.land x y) by by apply Z.land_nonneg; left.
  apply (Z.log2_lt_pow2 _ 32); [lia |]. eapply Z.le_lt_trans; [apply Z.log2_land; lia |].
  destruct (decide (y = 0)) as [-> | Hy0]; [rewrite Z.land_0_r in Hne; done |].
  eapply Z.le_lt_trans; [apply Z.le_min_r |]. apply Z.log2_lt_pow2; lia.
Qed.

Lemma lor_word x y : 0 <= x < 4294967296 -> 0 <= y < 4294967296 -> 0 <= Z.lor x y < 4294967296.
Proof.
  intros Hx Hy. assert (0 <= Z.lor x y) by (apply Z.lor_nonneg; lia). split; [done |].
  destruct (decide (Z.lor x y = 0)) as [-> | Hne]; [lia |]. apply (Z.log2_lt_pow2 _ 32); [lia |].
  rewrite Z.log2_lor by lia. apply Z.max_lub_lt.
  - destruct (decide (x = 0)) as [-> | ]; [done |]. apply Z.log2_lt_pow2; lia.
  - destruct (decide (y = 0)) as [-> | ]; [done |]. apply Z.log2_lt_pow2; lia.
Qed.

(** Same network and all host bits set: the broadcast address of the network. *)
Lemma net_broadcast a ip mask :
  0 <= a < 4294967296 -> 0 <= ip < 4294967296 -> 0 <= mask < 4294967296 ->
  (Z.land a mask = Z.land ip mask /\ Z.land a (not32 mask) = Z.land IPADDR_BROADCAST (not32 mask)) <->
  a = Z.lor (Z.land ip mask) (not32 mask).
Proof.
  intros Ha Hip Hm. pose proof (not32_range mask) as Hn. unfold IPADDR_BROADCAST.
  change 0xffffffff with (Z.ones 32). split.
  - intros [H1 H2]. apply word_bits; [done | apply lor_word; [apply land_word; lia | done] |].
    intros i Hi. rewrite Z.lor_spec, Z.land_spec, not32_testbit by done.
    pose proof (f_equal (fun z => Z.testbit z i) H1) as B1. pose proof (f_equal (fun z => Z.testbit z i) H2) as B2.
    cbn beta in B1, B2. rewrite !Z.land_spec, not32_testbit in * by done. rewrite Z.ones_spec_low in B2 by lia.
    by destruct (Z.testbit a i), (Z.testbit ip i), (Z.testbit mask i).
  - intros E. split.
    + apply word_bits; [apply land_word; lia | apply land_word; lia |]. intros i Hi. rewrite E.
      rewrite !Z.land_spec, Z.lor_spec, Z.land_spec, not32_testbit by done.
      by destruct (Z.testbit ip i), (Z.testbit mask i).
    + apply word_bits; [apply land_word; lia | apply land_word; [done | lia] |]. intros i Hi. rewrite E.
      rewrite !Z.land_spec, Z.lor_spec, Z.land_spec, not32_testbit, Z.ones_spec_low by lia.
      by destruct (Z.testbit ip i), (Z.testbit mask i).
Qed.

(** [ip4_addr_isbroadcast] holds exactly for the all-ones and the all-zeros
    address and, on an interface that supports broadcast, for the broadcast
    address of its network: the interface's network with all host bits set,
    unless that is the interface's own address. *)
Theorem isbroadcast_iff a n :
  0 <= a < 4294967296 -> 0 <= nif_ip_addr n < 4294967296 -> 0 <= nif_netmask n < 4294967296 ->
  ip4_addr_isbroadcast a n = 1 <->
  a = IPADDR_BROADCAST \/ a = IPADDR_ANY \/
  (Z.land (nif_flags n) NETIF_FLAG_BROADCAST <> 0 /\ a <> nif_ip_addr n /\
   a = Z.lor (Z.land (nif_ip_addr n) (nif_netmask n)) (not32 (nif_netmask n))).
Proof.
  intros Ha Hip Hm. rewrite <- (net_broadcast a _ _ Ha Hip Hm).
  assert (not32 a = IPADDR_ANY <-> a = IPADDR_BROADCAST) as Hall
    by (unfold not32, IPADDR_ANY, IPADDR_BROADCAST; rewrite u32_id by done; lia).
  unfold ip4_addr_isbroadcast, ip_addr_netcmp.
  destruct (Z.eqb_spec (not32 a) IPADDR_ANY), (Z.eqb_spec a IPADDR_ANY); cbn [orb]; try tauto.
  destruct (Z.eqb_spec (Z.land (nif_flags n) NETIF_FLAG_BROADCAST) 0); [split; [lia | tauto] |].
  destruct (Z.eqb_spec a (nif_ip_addr n)); [split; [lia | tauto] |].
  destruct (Z.eqb_spec (Z.land a (nif_netmask n)) (Z.land (nif_ip_addr n) (nif_netmask n))),
    (Z.eqb_spec (Z.land a (not32 (nif_netmask n))) (Z.land IPADDR_BROADCAST (not32 (nif_netmask n))));
    cbn [andb]; split; try tauto; lia.
Qed.

(** 192.168.1.10/24 *)
Definition sample_netif : netif := mkNetif 0x0a01a8c0 0x00ffffff 0x0101a8c0 1500 6 [2; 0; 0; 0; 0; 1] 0x63 (101, 48) 0.

Lemma isbroadcast_iff_witness : ip4_addr_isbroadcast 0xff01a8c0 sample_netif = 1.
Proof.
  apply (isbroadcast_iff 0xff01a8c0 sample_netif); [lia | cbn; lia | cbn; lia |].
  right. right. split; [vm_compute; discriminate |]. split; [cbn; lia | vm_compute; reflexivity].
Defined.

(** * Netmasks *)

Lemma land_pow2 x k : 0 <= k -> (Z.land x (2 ^ k) =? 0) = negb (Z.testbit x k).
Proof.
  intros Hk. destruct (Z.testbit x k) eqn:E; cbn.
  - apply Z.eqb_neq. intros H. apply (f_equal (fun z => Z.testbit z k)) in H.
    rewrite Z.land_spec, E, Z.pow2_bits_true, Z.bits_0 in H by done. done.
  - apply Z.eqb_eq, Z.bits_inj'. intros i Hi. rewrite Z.land_spec, Z.bits_0.
    destruct (decide (i = k)) as [-> | Hne]; [by rewrite E |]. rewrite Z.pow2_bits_false by lia. apply andb_false_r.
Qed.

Lemma shiftr_pow2 k : Z.shiftr (2 ^ Z.of_nat (S k)) 1 = 2 ^ Z.of_nat k.
Proof.
  rewrite Nat2Z.inj_succ, Z.pow_succ_r, Z.shiftr_div_pow2 by lia. change (2 ^ 1) with 2.
  rewrite Z.mul_comm. apply Z.div_mul. lia.
Qed.

Lemma pow2_nonzero k : (2 ^ Z.of_nat k =? 0) = false.
Proof. apply Z.eqb_neq. pose proof (Z.pow_pos_nonneg 2 (Z.of_nat k)). lia. Qed.

(** The first loop stops at the highest bit that is not set. *)
Lemma first_zero_loop nm k fuel :
  (S k < fuel)%nat ->
  (exists j, (j <= k)%nat /\ Z.testbit nm (Z.of_nat j) = false /\
     (forall i, Z.of_nat j < i <= Z.of_nat k -> Z.testbit nm i = true) /\
     while fuel (first_zero_body nm) (2 ^ Z.of_nat k) = Some (2 ^ Z.of_nat j)) \/
  ((forall i, 0 <= i <= Z.of_nat k -> Z.testbit nm i = true) /\
   while fuel (first_zero_body nm) (2 ^ Z.of_nat k) = Some 0).
Proof.
  revert k. induction fuel as [| fuel IH]; intros k Hf; [lia |].
  rewrite while_S. unfold first_zero_body at 1 3. rewrite pow2_nonzero, land_pow2 by lia. cbn [negb].
  destruct (Z.testbit nm (Z.of_nat k)) eqn:E; cbn [negb].
  - destruct k as [| k].
    + right. split; [intros i Hi; by replace i with 0 by lia |]. destruct fuel; [lia | done].
    + rewrite shiftr_pow2. destruct (IH k) as [(j & Hj & Hz & Hones & ->) | [Hones ->]]; [lia | |].
      * left. exists j. split; [lia |]. split; [done |]. split; [| done]. intros i Hi.
        destruct (decide (i = Z.of_nat (S k))) as [-> |]; [done | apply Hones; lia].
      * right. split; [| done]. intros i Hi.
        destruct (decide (i = Z.of_nat (S k))) as [-> |]; [done | apply Hones; lia].
  - left. exists k. split; [lia |]. split; [done |]. split; [intros; lia | done].
Qed.

(** The second loop looks for a bit that is set. *)
Lemma no_one_loop nm k fuel :
  (S k < fuel)%nat ->
  exists r, while fuel (no_one_body nm) (2 ^ Z.of_nat k) = Some r /\ (r = 0 \/ r = 1) /\
    (r = 1 <-> forall i, 0 <= i <= Z.of_nat k -> Z.testbit nm i = false).
Proof.
  revert k. induction fuel as [| fuel IH]; intros k Hf; [lia |].
  rewrite while_S. unfold no_one_body at 1. rewrite pow2_nonzero, land_pow2, negb_involutive by lia. cbn [negb].
  destruct (Z.testbit nm (Z.of_nat k)) eqn:E.
  - exists 0. split; [done |]. split; [by left |]. split; [done |]. intros Hz. rewrite Hz in E by lia. done.
  - destruct k as [| k].
    + destruct fuel; [lia |]. exists 1. split; [done |]. split; [by right |]. split; [| done].
      intros _ i Hi. by replace i with 0 by lia.
    + rewrite shiftr_pow2. destruct (IH k) as (r & -> & Hr & Hiff); [lia |]. exists r. split; [done |].
      split; [done |]. rewrite Hiff. split; intros Hz i Hi; [| apply Hz; lia].
      destruct (decide (i = Z.of_nat (S k))) as [-> |]; [done | apply Hz; lia].
Qed.

(** The bits of [n] ones followed by zeros. *)
Lemma ones_bits n i :
  0 <= n <= 32 -> 0 <= i < 32 -> Z.testbit (Z.shiftl (Z.ones n) (32 - n)) i = (32 - n <=? i).
Proof.
  intros Hn Hi. rewrite Z.shiftl_spec by lia. destruct (Z.leb_spec (32 - n) i).
  - apply Z.ones_spec_low. lia.
  - apply Z.testbit_neg_r. lia.
Qed.

Lemma ones_range n : 0 <= n <= 32 -> 0 <= Z.shiftl (Z.ones n) (32 - n) < 4294967296.
Proof.
  intros Hn. rewrite Z.shiftl_mul_pow2, Z.ones_equiv by lia. unfold Z.pred.
  assert (2 ^ n * 2 ^ (32 - n) = 4294967296) as E by (rewrite <- Z.pow_add_r by lia; by replace (n + (32 - n)) with 32 by lia).
  pose proof (Z.pow_pos_nonneg 2 n). pose proof (Z.pow_pos_nonneg 2 (32 - n)). nia.
Qed.

(** [ip4_addr_netmask_valid] always returns 0 or 1, and 1 exactly for the
    masks that in host order are [n] ones followed by [32 - n] zeros. *)
Theorem netmask_valid_iff netmask :
  exists r, ip4_addr_netmask_valid netmask = Some r /\ (r = 0 \/ r = 1) /\
    (r = 1 <-> exists n, 0 <= n <= 32 /\ lwip_htonl netmask = Z.shiftl (Z.ones n) (32 - n)).
Proof.
  unfold ip4_addr_netmask_valid. set (nm := lwip_htonl netmask).
  assert (0 <= nm < 4294967296) as Hnm by apply u32_range. clearbody nm.
  change (Z.shiftl 1 31) with (2 ^ Z.of_nat 31).
  destruct (first_zero_loop nm 31 33) as [(j & Hj & Hz & Hones & ->) | [Hones ->]]; [lia | |].
  - destruct (no_one_loop nm j 33) as (r & Hr & H01 & Hiff); [lia |]. exists r. split; [exact Hr |]. split; [done |].
    rewrite Hiff. split.
    + intros Hlow. exists (31 - Z.of_nat j). split; [lia |]. apply word_bits; [done | apply ones_range; lia |].
      intros i Hi. rewrite ones_bits by lia. destruct (Z.leb_spec (32 - (31 - Z.of_nat j)) i); [apply Hones | apply Hlow]; lia.
    + intros (n & Hn & E) i Hi. rewrite E in Hz |- *. rewrite ones_bits in Hz |- * by lia.
      apply Z.leb_gt in Hz. apply Z.leb_gt. lia.
  - exists 1. split; [done |]. split; [by right |]. split; [intros _ | done]. exists 32. split; [lia |].
    apply word_bits; [done | apply ones_range; lia |]. intros i Hi. rewrite ones_bits by lia.
    rewrite (proj2 (Z.leb_le _ _)) by lia. apply Hones. lia.
Qed.

(** * Dotted notation *)

Definition digits (b : Z) : list Z := reverse (inv_digits 3 b).

(** What the loop stores for the bytes [bs]: every number with a dot. *)
Definition dotted (bs : list Z) : list Z := mjoin ((fun b => digits b ++ [46]) <$> bs).

Definition addr_bytes (addr : Z) : list Z :=
  [addr mod 256; (addr / 256) mod 256; (addr / 65536) mod 256; (addr / 16777216) mod 256].

Lemma digits_eq b :
  0 <= b < 256 ->
  digits b = if b <? 10 then [48 + b]
             else if b <? 100 then [48 + b / 10; 48 + b mod 10]
             else [48 + b / 100; 48 + (b / 10) mod 10; 48 + b mod 10].
Proof.
  intros Hb. unfold digits. cbn [inv_digits]. destruct (Z.ltb_spec b 10).
  - rewrite (proj2 (Z.eqb_eq (b / 10) 0)) by zlia. cbn. f_equal. zlia.
  - rewrite (proj2 (Z.eqb_neq (b / 10) 0)) by zlia. destruct (Z.ltb_spec b 100).
    + rewrite (proj2 (Z.eqb_eq (b / 10 / 10) 0)) by zlia. cbn. f_equal. zlia.
    + rewrite (proj2 (Z.eqb_neq (b / 10 / 10) 0)) by zlia.
      assert ((b / 10 / 10 / 10 =? 0) = true) as -> by (apply Z.eqb_eq; zlia).
      cbn. f_equal. zlia.
Qed.

Lemma digits_length b : 0 <= b < 256 -> (1 <= length (digits b) <= 3)%nat.
Proof. intros Hb. rewrite digits_eq by done. repeat case_bool; cbn; lia. Qed.

Lemma digits_digit b : 0 <= b < 256 -> Forall (fun c => 48 <= c <= 57) (digits b).
Proof.
  intros Hb. rewrite digits_eq by done. repeat case_bool; repeat constructor; zlia.
Qed.

Lemma dotted_cons b bs : dotted (b :: bs) = digits b ++ 46 :: dotted bs.
Proof. unfold dotted. cbn. by rewrite <- app_assoc. Qed.

Lemma put_chars_app buflen x cs ds :
  put_chars buflen x (cs ++ ds) =
  match put_chars buflen x cs with inl x => put_chars buflen x ds | inr m => inr m end.
Proof. revert x. induction cs as [| c cs IH]; intros x; cbn; [done |]. by destruct (put_char buflen x c). Qed.

Lemma put_bytes_eq buflen x bs : put_bytes buflen x bs = put_chars buflen x (dotted bs).
Proof.
  revert x. induction bs as [| b bs IH]; intros x; [done |]. rewrite dotted_cons, put_chars_app.
  cbn [put_bytes put_chars]. change (reverse _) with (digits b). destruct (put_chars buflen x (digits b)) as [y |]; [| done].
  destruct (put_char buflen y 46); [apply IH | done].
Qed.

Lemma put_chars_fits buflen m rp len cs :
  len + Z.of_nat (length cs) <= buflen ->
  put_chars buflen (m, rp, len) cs
  = inl (st_bytes m rp cs, rp + Z.of_nat (length cs), len + Z.of_nat (length cs)).
Proof.
  revert m rp len. induction cs as [| c cs IH]; intros m rp len Hl; cbn [put_chars].
  - cbn. by rewrite !Z.add_0_r.
  - cbn in Hl. unfold put_char. rewrite (proj2 (Z.leb_gt _ _)) by lia. rewrite IH by lia. cbn [length st_bytes].
    f_equal. f_equal; [f_equal |]; lia.
Qed.

(** A text that does not fit is stored as far as the buffer reaches. *)
Lemma put_chars_full buflen m rp len cs :
  buflen < len + Z.of_nat (length cs) -> len <= buflen ->
  exists m', put_chars buflen (m, rp, len) cs = inr m' /\
    forall x, ~ (rp <= x < rp + (buflen - len)) -> ld8 m' x = ld8 m x.
Proof.
  revert m rp len. induction cs as [| c cs IH]; intros m rp len Hl Hle; cbn in Hl; [lia |].
  cbn [put_chars]. unfold put_char. destruct (Z.leb_spec buflen len); [by exists m |].
  destruct (IH (st8 m rp c) (rp + 1) (len + 1)) as (m' & -> & Hfr); [lia | lia |].
  exists m'. split; [done |]. intros x Hx. rewrite Hfr by lia. apply ld8_st8_ne. lia.
Qed.

(** ** Reading numbers *)

Lemma isdigit_iff c : 0 <= c < 256 -> isdigit c = true <-> 48 <= c <= 57.
Proof.
  intros Hc. unfold isdigit, in_range. rewrite u8_id by done.
  rewrite andb_true_iff, !Z.leb_le. tauto.
Qed.

Definition add_digit (v c : Z) : Z := u32 (u32 (v * 10) + (c - 48)).

Lemma number_loop m ds val cp fuel :
  Forall (fun c => 48 <= c <= 57) ds -> bytes m cp (length ds) = ds ->
  isdigit (ld8 m (cp + Z.of_nat (length ds))) = false -> (length ds < fuel)%nat ->
  while fuel (number_body m 10) (val, cp) = Some (foldl add_digit val ds, cp + Z.of_nat (length ds)).
Proof.
  intros Hd. revert val cp fuel. induction Hd as [| c ds Hc Hd IH]; intros val cp fuel Hb Hend Hf;
    (destruct fuel as [| fuel]; [cbn in Hf; lia |]); rewrite while_S; unfold number_body at 1.
  - cbn in Hend |- *. rewrite Z.add_0_r in *. by rewrite Hend.
  - cbn in Hb. injection Hb as Hc0 Hb. rewrite Hc0, (proj2 (isdigit_iff c ltac:(lia)) Hc).
    cbn [length] in *. rewrite (IH _ (cp + 1)).
    + cbn [foldl]. f_equal. f_equal. lia.
    + exact Hb.
    + rewrite <- Hend. do 2 f_equal. lia.
    + lia.
Qed.

Lemma add_digit_eq v c : 0 <= v < 1000 -> 48 <= c <= 57 -> add_digit v c = v * 10 + (c - 48).
Proof. intros Hv Hc. unfold add_digit. rewrite !u32_id; rewrite ?u32_id; lia. Qed.

Lemma digits_value b : 0 <= b < 256 -> foldl add_digit 0 (digits b) = b.
Proof.
  intros Hb. rewrite digits_eq by done.
  repeat case_bool; cbn [foldl]; rewrite (add_digit_eq 0) by zlia;
    rewrite ?(add_digit_eq (0 * 10 + _)) by zlia; rewrite ?(add_digit_eq ((0 * 10 + _) * 10 + _)) by zlia; zlia.
Qed.

(** A number followed by a dot or by the end of the string. *)
Lemma part_spec m cp b t parts :
  0 <= b < 256 -> bytes m cp (length (digits b)) = digits b ->
  ld8 m (cp + Z.of_nat (length (digits b))) = t -> t = 46 \/ t = 0 ->
  part_body 16 m (parts, cp) =
    if t =? 46 then
      if (3 <=? length parts)%nat then inr (Some None)
      else inl (parts ++ [b], cp + Z.of_nat (length (digits b)) + 1)
    else inr (Some (Some (parts, b, cp + Z.of_nat (length (digits b))))).
Proof.
  intros Hb Hbytes Ht Htt. pose proof (digits_length b Hb) as Hlen. pose proof (digits_digit b Hb) as Hdig.
  assert (isdigit t = false) as Hnd by by destruct Htt as [-> | ->].
  unfold part_body. destruct (digits b) as [| c0 ds] eqn:Ed; [cbn in Hlen; lia |].
  cbn in Hbytes. injection Hbytes as Hc0 Hbs. inversion Hdig as [| ? ? Hd0 Hds]; subst c0.
  rewrite (proj2 (isdigit_iff (ld8 m cp) (ld8_range m cp)) Hd0). cbn [negb].
  destruct (Z.eqb_spec (ld8 m cp) 48) as [E48 | Hn48].
  - assert (b = 0) as -> by (rewrite digits_eq in Ed by done; rewrite E48 in Ed; revert Ed;
      repeat case_bool; intros [=]; zlia).
    cbn in Ed. injection Ed as _ <-. cbn [length] in *. change (Z.of_nat 1) with 1 in *. rewrite Ht.
    replace ((t =? 120) || (t =? 88)) with false by by destruct Htt as [-> | ->].
    replace (while 16 (number_body m 8) (0, cp + 1)) with (Some (0, cp + 1));
      [by rewrite Ht |]. rewrite while_S. unfold number_body at 1. rewrite Ht, Hnd. done.
  - rewrite (number_loop m (ld8 m cp :: ds) 0 cp 16).
    + rewrite <- Ed, digits_value by done. rewrite Ed, Ht. done.
    + done.
    + cbn [length bytes]. by rewrite Hbs.
    + by rewrite Ht.
    + cbn in Hlen |- *. lia.
Qed.

Lemma addr_bytes_split m a l1 l2 :
  bytes m a (length (l1 ++ l2)) = l1 ++ l2 ->
  bytes m a (length l1) = l1 /\ bytes m (a + Z.of_nat (length l1)) (length l2) = l2.
Proof.
  rewrite length_app, bytes_app. intros H. apply app_inj_1 in H; [done |]. apply bytes_length.
Qed.

(** Four numbers below 256 with dots between them. *)
Lemma aton_dotted m cp b0 b1 b2 b3 :
  0 <= b0 < 256 -> 0 <= b1 < 256 -> 0 <= b2 < 256 -> 0 <= b3 < 256 ->
  let text := digits b0 ++ 46 :: digits b1 ++ 46 :: digits b2 ++ 46 :: digits b3 ++ [0] in
  bytes m cp (length text) = text ->
  ipaddr_aton 16 m cp = Some (Some (b0 + 256 * b1 + 65536 * b2 + 16777216 * b3)).
Proof.
  intros H0 H1 H2 H3 text Hb. unfold text in Hb.
  apply addr_bytes_split in Hb as [Hd0 Hb]. cbn [length bytes] in Hb. injection Hb as Ht0 Hb.
  apply addr_bytes_split in Hb as [Hd1 Hb]. cbn [length bytes] in Hb. injection Hb as Ht1 Hb.
  apply addr_bytes_split in Hb as [Hd2 Hb]. cbn [length bytes] in Hb. injection Hb as Ht2 Hb.
  apply addr_bytes_split in Hb as [Hd3 Hb]. cbn [length bytes] in Hb. injection Hb as Ht3.
  unfold ipaddr_aton.
  rewrite while_S, (part_spec m _ b0 46) by (done || by left). cbn [Z.eqb Pos.eqb length Nat.leb app].
  rewrite while_S, (part_spec m _ b1 46) by (done || by left). cbn [Z.eqb Pos.eqb length Nat.leb app].
  rewrite while_S, (part_spec m _ b2 46) by (done || by left). cbn [Z.eqb Pos.eqb length Nat.leb app].
  rewrite while_S, (part_spec m _ b3 0) by (done || by right). cbn [Z.eqb Pos.eqb mjoin option_join mbind option_bind].
  rewrite Ht3. cbn [Z.eqb negb andb concoct]. rewrite (proj2 (Z.ltb_ge _ _)) by lia. do 2 f_equal.
  rewrite !Z.shiftl_mul_pow2, !u32_id by lia. change (2 ^ 24) with 16777216.
  rewrite (Z.lor_comm b3).
  replace (b0 * 16777216) with (b0 * 2 ^ 24) by done. rewrite (lor_shift_add 24 b0) by lia.
  replace (b0 * 2 ^ 24 + b1 * 2 ^ 16) with ((b0 * 2 ^ 8 + b1) * 2 ^ 16) by lia. rewrite (lor_shift_add 16) by lia.
  replace ((b0 * 2 ^ 8 + b1) * 2 ^ 16 + b2 * 2 ^ 8) with ((b0 * 2 ^ 16 + b1 * 2 ^ 8 + b2) * 2 ^ 8) by lia.
  rewrite (lor_shift_add 8), PP_HTONL_lwip by lia.
  replace ((b0 * 2 ^ 16 + b1 * 2 ^ 8 + b2) * 2 ^ 8 + b3) with (b3 + 256 * b2 + 65536 * b1 + 16777216 * b0) by lia.
  by apply lwip_htonl_bytes.
Qed.

(** The length of an address in dotted notation. *)
Definition text_length (addr : Z) : Z := Z.of_nat (length (dotted (addr_bytes addr))) - 1.

Lemma dotted_snoc bs b : dotted (bs ++ [b]) = dotted bs ++ digits b ++ [46].
Proof.
  induction bs as [| c bs IH]; [cbn; by rewrite app_nil_r |]. cbn [app].
  rewrite !dotted_cons, IH. by rewrite <- app_assoc.
Qed.

Lemma addr_bytes_range addr : Forall (fun b => 0 <= b < 256) (addr_bytes addr).
Proof. repeat constructor; zlia. Qed.

Lemma dotted_length bs :
  Forall (fun b => 0 <= b < 256) bs -> (2 * length bs <= length (dotted bs) <= 4 * length bs)%nat.
Proof.
  induction 1 as [| b bs Hb _ IH]; [cbn; lia |]. rewrite dotted_cons, length_app. cbn [length].
  pose proof (digits_length b Hb). lia.
Qed.

Lemma text_length_bounds addr : 7 <= text_length addr <= 15.
Proof.
  pose proof (dotted_length _ (addr_bytes_range addr)) as H.
  change (length (addr_bytes addr)) with 4%nat in H. unfold text_length. lia.
Qed.

(** The last dot becomes the terminator. *)
Lemma text_stored m buf body :
  Forall (fun c => 0 <= c < 256) body ->
  bytes (st8 (st_bytes m buf (body ++ [46])) (buf + Z.of_nat (length body)) 0) buf (length (body ++ [0])) = body ++ [0].
Proof.
  intros Hr. rewrite length_app, bytes_app. cbn [length bytes]. rewrite ld8_st8_eq. f_equal.
  assert (bytes (st_bytes m buf (body ++ [46])) buf (length (body ++ [46])) = body ++ [46]) as H
    by (apply bytes_st_bytes, Forall_app; by repeat constructor).
  apply addr_bytes_split in H as [H _]. rewrite <- H at 4. apply bytes_ext. intros x Hx. apply ld8_st8_ne. lia.
Qed.

Lemma dotted_range bs : Forall (fun b => 0 <= b < 256) bs -> Forall (fun c => 0 <= c < 256) (dotted bs).
Proof.
  induction 1 as [| b bs Hb _ IH]; [constructor |]. rewrite dotted_cons. apply Forall_app. split.
  - eapply Forall_impl; [by apply digits_digit |]. intros c Hc. cbn in Hc. lia.
  - constructor; [lia | done].
Qed.

(** C40: [ipaddr_ntoa_r] writes inside its buffer only; it succeeds exactly when
    the buffer holds the text and its terminator (16 bytes always suffice), and
    [ipaddr_aton] reads the address back from the text it wrote. *)
Theorem ipaddr_text_roundtrip m addr buf buflen m' p :
  0 <= addr < 4294967296 -> 0 < buf -> 0 <= buflen -> ipaddr_ntoa_r m addr buf buflen = (m', p) ->
  (forall x, ~ (buf <= x < buf + buflen) -> ld8 m' x = ld8 m x) /\
  text_length addr <= 15 /\
  (text_length addr < buflen -> p = buf /\ ipaddr_aton 16 m' buf = Some (Some addr)) /\
  (buflen <= text_length addr -> p = 0).
Proof.
  intros Ha Hbuf Hbl Hn. pose proof (text_length_bounds addr) as Htl. unfold ipaddr_ntoa_r in Hn.
  change [_; _; _; _] with (addr_bytes addr) in Hn. rewrite put_bytes_eq in Hn.
  set (T := dotted (addr_bytes addr)) in *.
  assert (text_length addr = Z.of_nat (length T) - 1) as Hlen by done.
  destruct (Z.lt_ge_cases (text_length addr) buflen) as [Hfit | Hfull].
  - rewrite put_chars_fits in Hn by lia. injection Hn as <- <-.
    split; [| split; [lia | split; [| lia]]].
    { intros x Hx. rewrite ld8_st8_ne by lia. apply ld8_st_bytes_ne. lia. }
    intros _. split; [done |].
    pose proof (dotted_range _ (addr_bytes_range addr)) as HrT. fold T in HrT.
    set (body := dotted [addr mod 256; addr / 256 mod 256; addr / 65536 mod 256] ++ digits (addr / 16777216 mod 256)).
    assert (T = body ++ [46]) as ET by (unfold T, body, addr_bytes; rewrite <- app_assoc; apply (dotted_snoc [_; _; _])).
    rewrite ET in HrT |- *. apply Forall_app in HrT as [HrB _]. rewrite length_app. cbn [length].
    replace (buf + Z.of_nat (length body + 1) - 1) with (buf + Z.of_nat (length body)) by lia.
    pose proof (text_stored m buf body HrB) as Hst. set (m1 := st8 _ _ _) in *.
    rewrite (aton_dotted m1 buf (addr mod 256) (addr / 256 mod 256) (addr / 65536 mod 256) (addr / 16777216 mod 256)).
    + do 2 f_equal. zlia.
    + zlia.
    + zlia.
    + zlia.
    + zlia.
    + unfold body in Hst. rewrite !dotted_cons in Hst. cbn [dotted mjoin fmap list_fmap list_join] in Hst.
      rewrite <- !app_assoc in Hst. cbn [app] in Hst. rewrite <- !app_assoc in Hst. cbn [app] in Hst.
      rewrite <- !app_assoc in Hst. exact Hst.
  - destruct (put_chars_full buflen m buf 0 T) as (m1 & E & Hfr); [lia | lia |]. rewrite E in Hn.
    injection Hn as <- <-. split; [| split; [lia | split; [lia | done]]].
    intros x Hx. apply Hfr. lia.
Qed.

(** The text of 192.168.1.10 in a buffer of 16 bytes. *)
Lemma ipaddr_text_roundtrip_witness :
  ipaddr_aton 16 (ipaddr_ntoa_r (fun _ => 0) 0x0a01a8c0 100 16).1 100 = Some (Some 0x0a01a8c0).
Proof.
  apply (ipaddr_text_roundtrip (fun _ => 0) 0x0a01a8c0 100 16 _ 100); [lia | lia | lia | vm_compute; reflexivity |].
  vm_compute. reflexivity.
Defined.

(** Only the last number of an address is checked: "256.0.0.1" is read as
    0.0.0.1, and an octal number may have the digits 8 and 9. *)
Lemma ipaddr_aton_unchecked :
  ipaddr_aton 16 (st_bytes (fun _ => 0) 100 [50; 53; 54; 46; 48; 46; 48; 46; 49]) 100 = Some (Some 0x01000000) /\
  ipaddr_aton 16 (st_bytes (fun _ => 0) 100 [48; 57; 46; 48; 46; 48; 46; 49]) 100 = Some (Some 0x01000009).
Proof. split; vm_compute; reflexivity. Qed.

End IpAddr.
