(* ===== verification/Pqueue.v ===== *)
(** The packet queue between the receive interrupt and the main loop:
    contrib/ports/riscv/netif/pqueue.c.

    A queue is a ring of eight pointers with an index each.  [pq_dequeue] reads
    the oldest pointer and leaves it in the queue; [pq_qindex] returns its index
    and removes it. *)

From stdpp Require Import base tactics numbers list.
From Stdlib Require Import ZArith Lia.
From S2P Require Import Prelude.

Local Open Scope Z_scope.

Module Pqueue.

Definition NUM_QUEUES : Z := 2.
Definition PQ_QUEUE_SIZE : Z := 8.

Record pq_queue_t := mkQueue {
  pq_data : list Z; pq_index : list Z; pq_head : Z; pq_tail : Z; pq_len : Z }.

(** The queues and the static counter of [pq_create_queue]. *)
Record pq_state := mkPq { pq_queue : list pq_queue_t; pq_count : Z }.

(** Returns the number of the new queue in [pq_queue], [None] for NULL. *)
Definition pq_create_queue (s : pq_state) : pq_state * option Z :=
  if NUM_QUEUES <=? pq_count s then (s, None)
  else
    let i := pq_count s in
    (mkPq (alter (fun q => mkQueue (pq_data q) (pq_index q) 0 0 0) (Z.to_nat i) (pq_queue s)) (i + 1),
     Some i).

Definition pq_enqueue (q : pq_queue_t) (p idx : Z) : pq_queue_t * Z :=
  if pq_len q =? PQ_QUEUE_SIZE then (q, -1)
  else
    (mkQueue (<[Z.to_nat (pq_head q) := p]> (pq_data q)) (<[Z.to_nat (pq_head q) := idx]> (pq_index q))
       ((pq_head q + 1) mod PQ_QUEUE_SIZE) (pq_tail q) (pq_len q + 1), 0).

Definition pq_dequeue (q : pq_queue_t) : Z :=
  if pq_len q =? 0 then 0 else nth (Z.to_nat (pq_tail q)) (pq_data q) 0.

Definition pq_qindex (q : pq_queue_t) : pq_queue_t * Z :=
  if pq_len q =? 0 then (q, 0)
  else
    (mkQueue (pq_data q) (pq_index q) (pq_head q) ((pq_tail q + 1) mod PQ_QUEUE_SIZE) (pq_len q - 1),
     nth (Z.to_nat (pq_tail q)) (pq_index q) 0).

Definition pq_qlength (q : pq_queue_t) : Z := pq_len q.

(** * The queue as a list *)

(** Calls on a queue and what they return. *)
Inductive pq_op := Enqueue (p idx : Z) | Dequeue | Qindex | Qlength.

Definition step (q : pq_queue_t) (o : pq_op) : pq_queue_t * Z :=
  match o with
  | Enqueue p idx => pq_enqueue q p idx
  | Dequeue => (q, pq_dequeue q)
  | Qindex => pq_qindex q
  | Qlength => (q, pq_qlength q)
  end.

(** A bounded queue, oldest entry first. *)
Definition spec_step (l : list (Z * Z)) (o : pq_op) : list (Z * Z) * Z :=
  match o with
  | Enqueue p idx => if (length l =? 8)%nat then (l, -1) else (l ++ [(p, idx)], 0)
  | Dequeue => (l, match l with [] => 0 | (p, _) :: _ => p end)
  | Qindex => match l with [] => ([], 0) | (_, i) :: l => (l, i) end
  | Qlength => (l, Z.of_nat (length l))
  end.

Fixpoint run {S : Type} (f : S -> pq_op -> S * Z) (s : S) (os : list pq_op) : S * list Z :=
  match os with
  | [] => (s, [])
  | o :: os => let '(s, r) := f s o in let '(s, rs) := run f s os in (s, r :: rs)
  end.

(** The ring holds the list from [tail] on. *)
Record rep (q : pq_queue_t) (l : list (Z * Z)) : Prop := {
  rp_data : length (pq_data q) = 8%nat;
  rp_index : length (pq_index q) = 8%nat;
  rp_tail : 0 <= pq_tail q < 8;
  rp_len : pq_len q = Z.of_nat (length l);
  rp_max : (length l <= 8)%nat;
  rp_head : pq_head q = (pq_tail q + pq_len q) mod 8;
  rp_entry : forall k p i, l !! k = Some (p, i) ->
    pq_data q !! Z.to_nat ((pq_tail q + Z.of_nat k) mod 8) = Some p /\
    pq_index q !! Z.to_nat ((pq_tail q + Z.of_nat k) mod 8) = Some i
}.

Lemma enqueue_rep q l p idx :
  rep q l -> (length l < 8)%nat ->
  exists q', pq_enqueue q p idx = (q', 0) /\ rep q' (l ++ [(p, idx)]).
Proof.
  intros [Hd Hi Ht Hl Hm Hh He] Hlt. unfold pq_enqueue, PQ_QUEUE_SIZE.
  rewrite (proj2 (Z.eqb_neq _ _)) by lia. eexists. split; [reflexivity |].
  split; cbn; rewrite ?length_insert; try done.
  - rewrite length_app. cbn. lia.
  - rewrite length_app. cbn. lia.
  - rewrite Hh, Zplus_mod_idemp_l. f_equal. lia.
  - intros k p' i Hk. destruct (decide (k = length l)) as [-> | Hne].
    + rewrite lookup_app_r, Nat.sub_diag in Hk by lia. injection Hk as <- <-. rewrite <- Hl, <- Hh.
      rewrite !list_lookup_insert_eq; [done | |]; rewrite ?Hd, ?Hi; zlia.
    + pose proof (lookup_lt_Some _ _ _ Hk) as Hkl. rewrite length_app in Hkl. cbn in Hkl.
      rewrite lookup_app_l in Hk by lia. rewrite !list_lookup_insert_ne; [by apply He | |]; rewrite Hh; zlia.
Qed.

Lemma qindex_rep q p i l :
  rep q ((p, i) :: l) -> exists q', pq_qindex q = (q', i) /\ rep q' l /\ pq_dequeue q = p.
Proof.
  intros [Hd Hi Ht Hl Hm Hh He]. cbn in Hl, Hm. unfold pq_qindex, pq_dequeue, PQ_QUEUE_SIZE.
  rewrite (proj2 (Z.eqb_neq _ _)) by lia. destruct (He 0%nat p i eq_refl) as [H1 H2].
  rewrite Z.add_0_r, Z.mod_small in H1, H2 by lia.
  rewrite (nth_lookup_Some _ _ 0 _ H1), (nth_lookup_Some _ _ 0 _ H2). eexists. split; [reflexivity |]. split; [| done].
  split; cbn; try done.
  - zlia.
  - lia.
  - lia.
  - rewrite Hh, Zplus_mod_idemp_l. f_equal. lia.
  - intros k p' i' Hk. rewrite Zplus_mod_idemp_l. replace (pq_tail q + 1 + Z.of_nat k) with (pq_tail q + Z.of_nat (S k)) by lia.
    by apply He.
Qed.

(** One call refines one step of the list. *)
Lemma step_refines q l o :
  rep q l -> rep (step q o).1 (spec_step l o).1 /\ (step q o).2 = (spec_step l o).2.
Proof.
  intros Hr. pose proof Hr as [Hd Hi Ht Hl Hm Hh He]. destruct o as [p idx | | |]; cbn.
  - destruct (Nat.eqb_spec (length l) 8) as [E | E].
    + unfold pq_enqueue, PQ_QUEUE_SIZE. rewrite (proj2 (Z.eqb_eq _ _)) by lia. done.
    + destruct (enqueue_rep q l p idx Hr) as (q' & -> & Hr'); [lia |]. done.
  - split; [done |]. destruct l as [| [p i] l].
    + unfold pq_dequeue. cbn in Hl. by rewrite Hl.
    + by destruct (qindex_rep _ _ _ _ Hr) as (q' & _ & _ & ->).
  - destruct l as [| [p i] l].
    + unfold pq_qindex. cbn in Hl. by rewrite Hl.
    + by destruct (qindex_rep _ _ _ _ Hr) as (q' & -> & Hr' & _).
  - done.
Qed.

Lemma run_refines q l os : rep q l -> (run step q os).2 = (run spec_step l os).2.
Proof.
  revert q l. induction os as [| o os IH]; intros q l Hr; [done |]. cbn.
  destruct (step_refines q l o Hr) as [Hr' Ho].
  destruct (step q o) as [q' r], (spec_step l o) as [l' r']. cbn in *. subst r'. specialize (IH q' l' Hr').
  destruct (run step q' os), (run spec_step l' os). cbn in *. by subst.
Qed.

(** C33: the packet queue is a FIFO of eight entries: whatever the ring held
    before [pq_create_queue], every sequence of calls on the queue it returns
    answers as the bounded list does ([pq_enqueue] fails exactly when it is
    full, [pq_dequeue] and [pq_qindex] see the oldest entry). *)
Theorem pqueue_fifo s s' i q os :
  Forall (fun q => length (pq_data q) = 8%nat /\ length (pq_index q) = 8%nat) (pq_queue s) ->
  pq_create_queue s = (s', Some i) -> pq_queue s' !! Z.to_nat i = Some q ->
  (run step q os).2 = (run spec_step [] os).2.
Proof.
  intros Hf Hc Hq. apply run_refines. unfold pq_create_queue in Hc. case_bool; [done |].
  injection Hc as <- <-. cbn in Hq. rewrite list_lookup_alter_eq in Hq.
  destruct (pq_queue s !! Z.to_nat (pq_count s)) as [q0 |] eqn:E; [| done]. cbn in Hq. injection Hq as <-.
  rewrite Forall_lookup in Hf. destruct (Hf _ _ E). split; cbn; try done; lia.
Qed.

Definition sample_queues : pq_state := mkPq (replicate 2 (mkQueue (replicate 8 7) (replicate 8 7) 3 4 5)) 0.

Lemma pqueue_fifo_witness :
  (run step (mkQueue (replicate 8 7) (replicate 8 7) 0 0 0) [Dequeue; Enqueue 10 1; Enqueue 20 2; Qindex; Dequeue; Qlength]).2
  = [0; 0; 0; 1; 20; 1].
Proof.
  exact (pqueue_fifo sample_queues (pq_create_queue sample_queues).1 0 _
           [Dequeue; Enqueue 10 1; Enqueue 20 2; Qindex; Dequeue; Qlength]
           ltac:(repeat constructor) eq_refl eq_refl).
Defined.

End Pqueue.
