(* ===== verification/Printf.v ===== *)
(** Formatted output: [printnum], [vprintfmt], [printf] and [sprintf] of
    firmware/mylib.c.

    The output goes through [putch], which changes a state [S] that [rd] reads as
    memory: the UART for [printf], the destination buffer for [sprintf].  The
    variable arguments are the words of the ILP32 argument area with the
    position of the next one; a 64-bit argument takes an aligned pair.  [None]
    stands for a call that reads an argument that is not there or runs out of
    fuel.  Floating point is not modelled: [print_double] is a parameter, as is
    the address [null_str] of the literal "(null)". *)

From stdpp Require Import base tactics numbers list.
From Stdlib Require Import ZArith Lia.
From S2P Require Import Prelude Mylib.

Local Open Scope Z_scope.

Module Printf.

(** * Variable arguments *)

Record va_list := mkVa { va_words : list Z; va_pos : nat }.

Definition va_arg32 (ap : va_list) : option (Z * va_list) :=
  w ← va_words ap !! va_pos ap; Some (u32 w, mkVa (va_words ap) (S (va_pos ap))).

Definition va_arg64 (ap : va_list) : option (Z * va_list) :=
  let pos := if Nat.even (va_pos ap) then va_pos ap else S (va_pos ap) in
  lo ← va_words ap !! pos; hi ← va_words ap !! S pos;
  Some (u32 lo + 4294967296 * u32 hi, mkVa (va_words ap) (S (S pos))).

(** The results are 64-bit: [unsigned int] is zero-extended, [int] is
    sign-extended and then seen as the unsigned [num] of the caller. *)
Definition getuint (ap : va_list) (lflag : Z) : option (Z * va_list) :=
  if negb (lflag =? 0) then va_arg64 ap else va_arg32 ap.

Definition getint (ap : va_list) (lflag : Z) : option (Z * va_list) :=
  if negb (lflag =? 0) then va_arg64 ap
  else '(w, ap) ← va_arg32 ap; Some (u64 (s32 w), ap).

Section output.
Context {S : Type} (putch : S -> Z -> S) (rd : S -> memory).
Context (print_double : S -> Z -> Z -> Z -> S) (null_str : Z).

Implicit Type s : S.

Definition putchs s (cs : list Z) : S := fold_left putch cs s.

(** * printnum *)

(** The digits in [digs], least significant first. *)
Fixpoint digs_loop (fuel : nat) (num base : Z) : list Z :=
  match fuel with
  | O => []
  | Datatypes.S f => num mod base :: (if num <? base then [] else digs_loop f (num / base) base)
  end.

Definition digit_char (d : Z) : Z := d + (if 10 <=? d then 97 - 10 else 48).

(** A 64-bit number has at most 64 digits. *)
Definition printnum s (num base width padc : Z) : S :=
  let digs := digs_loop 64 num base in
  let s := putchs s (replicate (Z.to_nat (width - Z.of_nat (length digs))) padc) in
  putchs s (digit_char <$> reverse digs).

(** * vprintfmt *)

(** The variables of one escape sequence. *)
Record conv := mkConv {
  c_fmt : Z; c_padc : Z; c_width : Z; c_precision : Z; c_lflag : Z; c_ap : va_list }.

(** The digits of a width field: [precision], [ch] and [fmt]. *)
Definition width_body (m : memory) (x : Z * Z * Z) : (Z * Z * Z) + (Z * Z) :=
  let '(precision, ch, fmt) := x in
  let precision := s32 (precision * 10 + ch - 48) in
  let ch := ld8 m fmt in
  if (ch <? 48) || (57 <? ch) then inr (precision, fmt) else inl (precision, ch, fmt + 1).

Definition process_precision (c : conv) (fmt precision : Z) (ap : va_list) : conv :=
  if c_width c <? 0 then mkConv fmt (c_padc c) precision (-1) (c_lflag c) ap
  else mkConv fmt (c_padc c) (c_width c) precision (c_lflag c) ap.

(** The characters of a string: [p], [width] and [precision]. *)
Definition string_body (x : S * Z * Z * Z) : (S * Z * Z * Z) + (S * Z) :=
  let '(s, p, width, precision) := x in
  let ch := ld8 (rd s) p in
  if ch =? 0 then inr (s, width)
  else if precision <? 0 then inl (putch s ch, p + 1, width - 1, precision)
  else if 0 <=? precision - 1 then inl (putch s ch, p + 1, width - 1, precision - 1)
  else inr (s, width).

Definition print_string (fuel : nat) s (p width precision padc : Z) : option S :=
  let p := if p =? 0 then null_str else p in
  '(s, width) ←
    (if (0 <? width) && negb (padc =? 45) then
       n ← Mylib.strnlen fuel (rd s) p (u32 precision);
       let width := s32 (width - n) in
       Some (putchs s (replicate (Z.to_nat width) padc), Z.min width 0)
     else Some (s, width));
  '(s, width) ← while fuel string_body (s, p, width, precision);
  Some (putchs s (replicate (Z.to_nat width) 32)).

(** One pass of the switch; [inr (Some (s, fmt, ap))] leaves it. *)
Definition escape_body (fuel : nat) (last_fmt : Z) (x : S * conv)
    : (S * conv) + option (S * Z * va_list) :=
  let '(s, c) := x in
  let ch := ld8 (rd s) (c_fmt c) in
  let fmt := c_fmt c + 1 in
  let ap := c_ap c in
  let bad := inr (Some (putch s 37, last_fmt, ap)) in
  let goto_number s num ap base :=
    inr (Some (printnum s num base (c_width c) (c_padc c), fmt, ap)) in
  let unsigned_number s lflag base :=
    match getuint ap lflag with None => inr None | Some (num, ap) => goto_number s num ap base end in
  if ch =? 45 (* '-' *) then inl (s, mkConv fmt 45 (c_width c) (c_precision c) (c_lflag c) ap)
  else if ch =? 48 (* '0' *) then inl (s, mkConv fmt 48 (c_width c) (c_precision c) (c_lflag c) ap)
  else if (49 <=? ch) && (ch <=? 57) then
    match while fuel (width_body (rd s)) (0, ch, fmt) with
    | None => inr None
    | Some (precision, fmt) => inl (s, process_precision c fmt precision ap)
    end
  else if ch =? 42 (* '*' *) then
    match va_arg32 ap with
    | None => inr None
    | Some (w, ap) => inl (s, process_precision c fmt (s32 w) ap)
    end
  else if ch =? 46 (* '.' *) then
    inl (s, mkConv fmt (c_padc c) (if c_width c <? 0 then 0 else c_width c) (c_precision c) (c_lflag c) ap)
  else if ch =? 35 (* '#' *) then inl (s, mkConv fmt (c_padc c) (c_width c) (c_precision c) (c_lflag c) ap)
  else if ch =? 108 (* 'l' *) then
    if negb (c_lflag c =? 0) then bad
    else inl (s, mkConv fmt (c_padc c) (c_width c) (c_precision c) (c_lflag c) ap)
  else if ch =? 99 (* 'c' *) then
    match va_arg32 ap with None => inr None | Some (w, ap) => inr (Some (putch s (s32 w), fmt, ap)) end
  else if ch =? 102 (* 'f' *) then
    match va_arg64 ap with
    | None => inr None
    | Some (d, ap) => inr (Some (print_double s d (c_width c) (c_precision c), fmt, ap))
    end
  else if ch =? 115 (* 's' *) then
    match va_arg32 ap with
    | None => inr None
    | Some (p, ap) =>
        match print_string fuel s p (c_width c) (c_precision c) (c_padc c) with
        | None => inr None
        | Some s => inr (Some (s, fmt, ap))
        end
    end
  else if ch =? 100 (* 'd' *) then
    match getint ap (c_lflag c) with
    | None => inr None
    | Some (num, ap) =>
        if s64 num <? 0 then goto_number (putch s 45) (u64 (- s64 num)) ap 10
        else goto_number s num ap 10
    end
  else if ch =? 117 (* 'u' *) then unsigned_number s (c_lflag c) 10
  else if ch =? 111 (* 'o' *) then unsigned_number s (c_lflag c) 8
  else if ch =? 112 (* 'p' *) then unsigned_number (putch (putch s 48) 120) 1 16
  else if ch =? 120 (* 'x' *) then unsigned_number s (c_lflag c) 16
  else if ch =? 37 (* '%' *) then inr (Some (putch s ch, fmt, ap))
  else bad.

(** One pass of the outer loop: a character copied or an escape sequence. *)
Definition fmt_body (fuel : nat) (x : S * Z * va_list) : (S * Z * va_list) + option S :=
  let '(s, fmt, ap) := x in
  let ch := ld8 (rd s) fmt in
  if negb (ch =? 37) then
    if ch =? 0 then inr (Some s) else inl (putch s ch, fmt + 1, ap)
  else
    let fmt := fmt + 1 in
    match while fuel (escape_body fuel fmt) (s, mkConv fmt 32 (-1) (-1) 0 ap) with
    | Some (Some r) => inl r
    | _ => inr None
    end.

Definition vprintfmt (fuel : nat) s (fmt : Z) (ap : va_list) : option S :=
  mjoin (while fuel (fmt_body fuel) (s, fmt, ap)).

End output.

(** * printf and sprintf *)

(** The UART: memory and the words written to it. *)
Definition uart : Type := memory * list Z.
Definition putchar (u : uart) (ch : Z) : uart := (u.1, u.2 ++ [u32 ch]).

(** The destination: memory and the pointer behind the last character. *)
Definition sbuf : Type := memory * Z.
Definition sprintf_putch (b : sbuf) (ch : Z) : sbuf := (st8 b.1 b.2 ch, b.2 + 1).

Section calls.
Context (double_uart : uart -> Z -> Z -> Z -> uart) (double_sbuf : sbuf -> Z -> Z -> Z -> sbuf).
Context (null_str : Z).

(** The named arguments take the first words of the argument area. *)
Definition printf (fuel : nat) (u : uart) (fmt : Z) (args : list Z) : option (uart * Z) :=
  u ← vprintfmt putchar fst double_uart null_str fuel u fmt (mkVa (fmt :: args) 1);
  Some (u, 0).

Definition sprintf (fuel : nat) (m : memory) (str fmt : Z) (args : list Z) : option (memory * Z) :=
  b ← vprintfmt sprintf_putch fst double_sbuf null_str fuel (m, str) fmt (mkVa (str :: fmt :: args) 2);
  Some (st8 b.1 b.2 0, s32 (b.2 - str)).

End calls.

(** * Numbers *)

(** The value of a text in a base, and of a decimal text with a sign. *)
Definition digit_val (c : Z) : Z := if 97 <=? c then c - 87 else c - 48.
Definition text_value (base : Z) (cs : list Z) : Z := fold_left (fun v c => v * base + digit_val c) cs 0.
Definition decimal_value (cs : list Z) : Z :=
  match cs with 45 :: cs => - text_value 10 cs | _ => text_value 10 cs end.

(** A number as [printnum] writes it. *)
Definition num_text (num base : Z) : list Z := digit_char <$> reverse (digs_loop 64 num base).

Lemma digs_range fuel num base :
  0 < base -> Forall (fun d => 0 <= d < base) (digs_loop fuel num base).
Proof.
  intros Hb. revert num. induction fuel as [| fuel IH]; intros num; cbn; [constructor |].
  constructor; [by apply Z.mod_pos_bound |]. case_bool; [constructor | apply IH].
Qed.

Lemma digs_value fuel num base :
  2 <= base -> 0 <= num < base ^ Z.of_nat fuel -> (0 < fuel)%nat ->
  foldr (fun d v => v * base + d) 0 (digs_loop fuel num base) = num.
Proof.
  intros Hb. revert num. induction fuel as [| fuel IH]; intros num Hn Hf; [lia |]. cbn.
  destruct (Z.ltb_spec num base) as [Hlt | Hge].
  - cbn. rewrite Z.mod_small by lia. lia.
  - rewrite Nat2Z.inj_succ, Z.pow_succ_r in Hn by lia.
    assert (0 < base ^ Z.of_nat fuel) as Hpos by (apply Z.pow_pos_nonneg; lia).
    destruct fuel as [| fuel].
    { cbn in Hn. lia. }
    rewrite IH; [| split; [by apply Z.div_pos; lia | apply Z.div_lt_upper_bound; lia] | lia].
    rewrite Z.mul_comm. symmetry. apply Z.div_mod. lia.
Qed.

(** The leading digit of a number is not zero. *)
Lemma digs_last fuel num base d :
  2 <= base -> 0 < num < base ^ Z.of_nat fuel -> last (digs_loop fuel num base) = Some d -> d <> 0.
Proof.
  intros Hb. revert num. induction fuel as [| fuel IH]; intros num Hn Hl; [done |]. cbn in Hl.
  destruct (Z.ltb_spec num base) as [Hlt | Hge].
  - cbn in Hl. injection Hl as <-. rewrite Z.mod_small by lia. lia.
  - rewrite Nat2Z.inj_succ, Z.pow_succ_r in Hn by lia. apply (IH (num / base)).
    + split; [apply Z.div_str_pos; lia | apply Z.div_lt_upper_bound; lia].
    + destruct (digs_loop fuel (num / base) base) as [| x l] eqn:E; [| by rewrite last_cons_cons in Hl].
      destruct fuel; [cbn in Hn; lia | done].
Qed.

Lemma digs_length fuel k num base :
  2 <= base -> 0 <= num < base ^ Z.of_nat k -> (0 < k)%nat -> (length (digs_loop fuel num base) <= k)%nat.
Proof.
  intros Hb. revert k num. induction fuel as [| fuel IH]; intros k num Hn Hk; cbn; [lia |].
  destruct (Z.ltb_spec num base); [cbn; lia |]. destruct k as [| k]; [lia |].
  rewrite Nat2Z.inj_succ, Z.pow_succ_r in Hn by lia. destruct k as [| k]; [cbn in Hn; lia |].
  apply le_n_S, IH; [| lia]. split; [by apply Z.div_pos; lia | apply Z.div_lt_upper_bound; lia].
Qed.

Lemma digit_val_char d : 0 <= d < 16 -> digit_val (digit_char d) = d.
Proof. intros Hd. unfold digit_val, digit_char. repeat case_bool; lia. Qed.

Lemma num_text_value num base :
  2 <= base <= 16 -> 0 <= num < 18446744073709551616 -> text_value base (num_text num base) = num.
Proof.
  intros Hb Hn. unfold text_value, num_text.
  assert (num < base ^ Z.of_nat 64) as Hlt.
  { eapply Z.lt_le_trans; [apply Hn |]. change 18446744073709551616 with (2 ^ 64). apply Z.pow_le_mono_l. lia. }
  rewrite <- (digs_value 64 num base) at 2 by lia.
  pose proof (digs_range 64 num base ltac:(lia)) as Hr. generalize dependent (digs_loop 64 num base). intros l Hr.
  induction Hr as [| d l Hd _ IH]; [done |]. rewrite reverse_cons, fmap_app, fold_left_app, IH. cbn.
  by rewrite digit_val_char by lia.
Qed.

(** What [printnum] sends out. *)
Lemma printnum_text {S} (putch : S -> Z -> S) s num base width padc :
  printnum putch s num base width padc
  = putchs putch s (replicate (Z.to_nat (width - Z.of_nat (length (num_text num base)))) padc ++ num_text num base).
Proof. unfold printnum, putchs, num_text. by rewrite length_fmap, length_reverse, fold_left_app. Qed.

(** [printnum] writes a 64-bit number in a base up to 16 as padding followed
    by its digits: the text reads back as the number, has no leading zero
    unless it is "0", consists of the digits of the base, and is padded on the
    left with [padc] to [width] characters. *)
Theorem printnum_correct {S} (putch : S -> Z -> S) s num base width padc :
  2 <= base <= 16 -> 0 <= num < 18446744073709551616 ->
  exists ds, printnum putch s num base width padc
      = putchs putch s (replicate (Z.to_nat (width - Z.of_nat (length ds))) padc ++ ds) /\
    text_value base ds = num /\ Forall (fun c => 0 <= digit_val c < base /\ (48 <= c <= 57 \/ 97 <= c <= 102)) ds /\
    (num = 0 -> ds = [48]) /\ (num <> 0 -> head ds <> Some 48).
Proof.
  intros Hb Hn. exists (num_text num base). split; [apply printnum_text |]. split; [by apply num_text_value |].
  pose proof (digs_range 64 num base ltac:(lia)) as Hr. split; [| split].
  - unfold num_text. apply Forall_fmap, Forall_reverse. eapply Forall_impl; [exact Hr |]. intros d Hd. cbn beta in Hd |- *.
    unfold compose. rewrite digit_val_char by lia. unfold digit_char. case_bool; lia.
  - intros ->. unfold num_text. cbn. rewrite Zmod_0_l. rewrite (proj2 (Z.ltb_lt 0 base)) by lia. done.
  - intros Hnz. unfold num_text.
    assert (forall l, head (digit_char <$> l) = digit_char <$> head l) as -> by by intros [].
    rewrite head_reverse. destruct (last (digs_loop 64 num base)) as [d |] eqn:El; [| done]. cbn. intros [= Hd].
    assert (num < base ^ Z.of_nat 64) as Hlt.
    { eapply Z.lt_le_trans; [apply Hn |]. change 18446744073709551616 with (2 ^ 64). apply Z.pow_le_mono_l. lia. }
    pose proof (digs_last 64 num base d ltac:(lia) ltac:(lia) El).
    assert (0 <= d < 16); [| unfold digit_char in Hd; case_bool; lia].
    rewrite Forall_forall in Hr. pose proof (last_Some_elem_of _ _ El) as Hin. specialize (Hr d Hin). lia.
Qed.

Lemma printnum_correct_witness :
  exists ds, printnum (fun s c => s ++ [c]) [] 0xbeef 16 8 48
      = putchs (fun s c => s ++ [c]) [] (replicate (Z.to_nat (8 - Z.of_nat (length ds))) 48 ++ ds) /\
    text_value 16 ds = 0xbeef /\
    printnum (fun s c => s ++ [c]) [] 0xbeef 16 8 48 = [48; 48; 48; 48; 98; 101; 101; 102].
Proof.
  destruct (printnum_correct (fun (s : list Z) c => s ++ [c]) [] 0xbeef 16 8 48) as (ds & H & Hv & _); [lia | lia |].
  exists ds. split; [exact H |]. split; [exact Hv | vm_compute; reflexivity].
Defined.

(** * A call of sprintf *)

Lemma putchs_sbuf m p cs : putchs sprintf_putch (m, p) cs = (st_bytes m p cs, p + Z.of_nat (length cs)).
Proof.
  revert m p. induction cs as [| c cs IH]; intros m p; [cbn; f_equal; lia |].
  change (putchs sprintf_putch (m, p) (c :: cs)) with (putchs sprintf_putch (st8 m p c, p + 1) cs).
  rewrite IH. cbn [st_bytes length]. f_equal. lia.
Qed.

(** The conversion "%d" of an [int]. *)
Lemma escape_d {S} (putch : S -> Z -> S) rd dbl null fuel last s fmt ap n ap' :
  ld8 (rd s) fmt = 100 -> va_arg32 ap = Some (u32 n, ap') -> -2147483648 <= n < 2147483648 -> (0 < fuel)%nat ->
  while fuel (escape_body putch rd dbl null fuel last) (s, mkConv fmt 32 (-1) (-1) 0 ap)
  = Some (Some (putchs putch s ((if n <? 0 then [45] else []) ++ num_text (Z.abs n) 10), fmt + 1, ap')).
Proof.
  intros Hc Ha Hn Hf. destruct fuel as [| fuel]; [lia |]. rewrite while_S. unfold escape_body at 1.
  cbn [c_fmt c_ap c_lflag c_width c_padc c_precision]. rewrite Hc. cbn [Z.eqb Pos.eqb Z.leb Z.compare Pos.compare Pos.compare_cont andb].
  unfold getint. cbn [Z.eqb negb]. rewrite Ha. cbn [mbind option_bind].
  assert (s64 (u64 (s32 (u32 n))) = n) as ->.
  { assert (s32 (u32 n) = n) as -> by (unfold s32, u32; zlia). unfold s64, u64. zlia. }
  rewrite !printnum_text. destruct (Z.ltb_spec n 0) as [Hneg | Hpos].
  - replace (u64 (- n)) with (Z.abs n) by (rewrite u64_id; lia). cbn.
    by rewrite Z2Nat.nonpos by (pose proof (Nat2Z.is_nonneg (length (num_text (Z.abs n) 10))); lia).
  - assert (u64 (s32 (u32 n)) = Z.abs n) as ->.
    { assert (s32 (u32 n) = n) as -> by (unfold s32, u32; zlia). rewrite u64_id; lia. }
    cbn. by rewrite Z2Nat.nonpos by (pose proof (Nat2Z.is_nonneg (length (num_text (Z.abs n) 10))); lia).
Qed.

(** The text of a signed number. *)
Definition int_text (n : Z) : list Z := (if n <? 0 then [45] else []) ++ num_text (Z.abs n) 10.

Lemma int_text_facts n :
  -2147483648 <= n < 2147483648 ->
  decimal_value (int_text n) = n /\ (length (int_text n) <= 11)%nat /\
  Forall (fun c => 45 <= c <= 57) (int_text n).
Proof.
  intros Hn. pose proof (num_text_value (Z.abs n) 10 ltac:(lia) ltac:(lia)) as Hv.
  assert (Forall (fun c => 48 <= c <= 57) (num_text (Z.abs n) 10)) as Hd.
  { apply Forall_fmap, Forall_reverse. eapply Forall_impl; [apply (digs_range 64 (Z.abs n) 10); lia |].
    intros d Hd. cbn beta in Hd. unfold compose, digit_char. case_bool; lia. }
  assert (length (num_text (Z.abs n) 10) <= 10)%nat as Hl.
  { unfold num_text. rewrite length_fmap, length_reverse. apply digs_length; [lia | cbn; lia | lia]. }
  assert (Forall (fun c => 45 <= c <= 57) (num_text (Z.abs n) 10)) as Hd'
    by (eapply Forall_impl; [exact Hd |]; intros c Hc; cbn beta in Hc; lia).
  unfold int_text. destruct (Z.ltb_spec n 0); cbn [app length].
  - cbn [decimal_value]. rewrite Hv. split; [lia |]. split; [lia |]. constructor; [lia | done].
  - split; [| split; [lia | done]]. transitivity (text_value 10 (num_text (Z.abs n) 10)); [| lia].
    destruct (num_text (Z.abs n) 10) as [| c cs]; [done |]. apply Forall_cons in Hd as [Hc _].
    unfold decimal_value. destruct c as [| c |]; [lia | | lia].
    do 6 (destruct c as [c | c |]; try reflexivity; try lia).
Qed.

(** [sprintf] with the format "%d" stores the decimal text of any [int] (at
    most eleven characters and a terminator) and returns its length: the text
    reads back as the number, and no other memory changes. *)
Theorem sprintf_decimal dbl null fuel m str fmt n :
  (3 <= fuel)%nat -> -2147483648 <= n < 2147483648 -> bytes m fmt 3 = [37; 100; 0] ->
  fmt + 3 <= str \/ str + 12 <= fmt ->
  exists m' text, sprintf dbl null fuel m str fmt [u32 n] = Some (m', Z.of_nat (length text)) /\
    cstr m' str text /\ decimal_value text = n /\ (length text <= 11)%nat /\
    forall x, ~ (str <= x < str + 12) -> ld8 m' x = ld8 m x.
Proof.
  intros Hf Hn Hb Hdis. destruct (int_text_facts n Hn) as (Hv & Hl & Hc).
  cbn in Hb. injection Hb as Hb0 Hb1 Hb2. replace (fmt + 1 + 1) with (fmt + 2) in Hb2 by lia.
  assert (va_arg32 (mkVa [str; fmt; u32 n] 2) = Some (u32 n, mkVa [str; fmt; u32 n] 3)) as Hva
    by (rewrite <- (u32_id (u32 n)) at 2 by apply u32_range; reflexivity).
  set (m1 := st_bytes m str (int_text n)).
  assert (forall x, ~ (str <= x < str + 12) -> ld8 m1 x = ld8 m x) as Hfr
    by (intros x Hx; apply ld8_st_bytes_ne; lia).
  exists (st8 m1 (str + Z.of_nat (length (int_text n))) 0), (int_text n). split; [| split; [| split; [done | split; [done |]]]].
  - unfold sprintf, vprintfmt. destruct fuel as [| [| fuel]]; [lia | lia |].
    rewrite while_S. unfold fmt_body at 1. cbn [fst]. rewrite Hb0. cbn [Z.eqb Pos.eqb negb].
    rewrite (escape_d sprintf_putch fst dbl null _ _ (m, str) (fmt + 1) _ n (mkVa [str; fmt; u32 n] 3)
      Hb1 Hva Hn) by lia.
    fold (int_text n). rewrite putchs_sbuf. fold m1. rewrite while_S. unfold fmt_body at 1. cbn [fst].
    replace (fmt + 1 + 1) with (fmt + 2) by lia. rewrite Hfr, Hb2 by lia. cbn.
    do 2 f_equal. rewrite s32_id; lia.
  - split; [| split].
    + rewrite <- (bytes_st_bytes m str (int_text n)) at 3
        by (eapply Forall_impl; [exact Hc |]; intros c Hc'; cbn beta in Hc'; lia).
      apply bytes_ext. intros x Hx. apply ld8_st8_ne. lia.
    + eapply Forall_impl; [exact Hc |]. intros c Hc'. cbn beta in Hc'. lia.
    + by rewrite ld8_st8_eq.
  - intros x Hx. rewrite ld8_st8_ne by lia. by apply Hfr.
Qed.

Lemma sprintf_decimal_witness :
  exists m' text, sprintf (fun b _ _ _ => b) 0 3 (st_bytes (fun _ => 0) 100 [37; 100]) 200 100 [u32 (-42)]
      = Some (m', Z.of_nat (length text)) /\
    cstr m' 200 text /\ decimal_value text = -42.
Proof.
  destruct (sprintf_decimal (fun b _ _ _ => b) 0 3 (st_bytes (fun _ => 0) 100 [37; 100]) 200 100 (-42))
    as (m' & text & Hr & Hc & Hv & _); [lia | lia | vm_compute; reflexivity | lia |].
  exists m', text. split; [exact Hr |]. split; [exact Hc | exact Hv].
Defined.

(** The flag that should pad on the right is used as the padding character:
    "%-5d" of 42 gives three minus signs and the number. *)
Lemma sprintf_minus_flag :
  match sprintf (fun b _ _ _ => b) 0 5 (st_bytes (fun _ => 0) 100 [37; 45; 53; 100]) 200 100 [42] with
  | Some (m', n) => n = 5 /\ bytes m' 200 5 = [45; 45; 45; 52; 50]
  | None => False
  end.
Proof. vm_compute. split; reflexivity. Qed.

End Printf.
