(* ===== verification/Driver.v ===== *)
(** The network driver of the port: contrib/ports/riscv/netif/riscvdma.c and
    riscvnetif.c.

    The state has the packet buffers, the receive queue, the table
    [dma_bd_pbuf] of the buffers the hardware fills, the rotating mask of the
    interrupt handler, and the words written to device registers in order.
    What a device register reads as is an argument; [input] stands for
    [netif->input].  [None] is a dereference of no live pbuf, or a write behind
    [dma_bd_pbuf]. *)

From stdpp Require Import base tactics numbers list gmap.
From Stdlib Require Import ZArith Lia.
From S2P Require Import Prelude ByteOrder PbufDefs NetifDefs Allocator Mem Memp PbufMem World Pbuf PbufData PbufChains PbufLinks Pqueue.

Local Open Scope Z_scope.

Module Driver.
Import ByteOrder Pbuf Pqueue.

Definition rx_BD_adr : Z := 0x80000040.
Definition rx_BD_len : Z := 0x80000060.
Definition tx_BD_adr_0 : Z := 0x80000080.
Definition tx_BD_len_0 : Z := 0x800000A0.
Definition ENABLE_DMA : Z := 0x800000C0.
Definition rx_BD_clr : Z := 0x800000C8.
Definition tx_BD_sta : Z := 0x800000CC.

Definition ETHTYPE_ARP : Z := 0x0806.
Definition ETHTYPE_IP : Z := 0x0800.

Record dstate (W : Type) := mkDstate {
  d_p : pstate W; d_q : pq_queue_t; d_bd : list Z; d_mask : Z; d_mask_idx : Z; d_writes : list (Z * Z) }.
Arguments mkDstate {W}. Arguments d_p {W}. Arguments d_q {W}. Arguments d_bd {W}.
Arguments d_mask {W}. Arguments d_mask_idx {W}. Arguments d_writes {W}.

Section driver.
Context {W : Type} `{MemSystem W}.
Context (stale : Z -> Z) (custom_free : pstate W -> Z -> option (pstate W)).
Context (input : dstate W -> Z -> option (dstate W * Z)).

Implicit Type d : dstate W.

Definition set_p d (s : pstate W) : dstate W :=
  mkDstate s (d_q d) (d_bd d) (d_mask d) (d_mask_idx d) (d_writes d).
Definition set_q d (q : pq_queue_t) : dstate W :=
  mkDstate (d_p d) q (d_bd d) (d_mask d) (d_mask_idx d) (d_writes d).
Definition set_mask d (mask idx : Z) : dstate W :=
  mkDstate (d_p d) (d_q d) (d_bd d) mask idx (d_writes d).
Definition write_reg d (a v : Z) : dstate W :=
  mkDstate (d_p d) (d_q d) (d_bd d) (d_mask d) (d_mask_idx d) (d_writes d ++ [(a, u32 v)]).

(** [dma_bd_pbuf[i] = p] and the payload to the hardware. *)
Definition give_buffer d (i p : Z) : option (dstate W) :=
  if i <? 8 then
    b ← pst (d_p d) !! p;
    Some (write_reg (mkDstate (d_p d) (d_q d) (<[Z.to_nat i := p]> (d_bd d)) (d_mask d) (d_mask_idx d) (d_writes d))
            (rx_BD_adr + Z.shiftl i 2) (payload b))
  else None.

(** ** riscvdma.c *)

Definition init_body (x : dstate W * Z) : (dstate W * Z) + option (dstate W) :=
  let '(d, i) := x in
  if i <? 8 then
    match pbuf_alloc stale custom_free (d_p d) PBUF_RAW 1500 PBUF_POOL with
    | None => inr None
    | Some (s, p) =>
        let d := set_p d s in
        if p =? 0 then inr (Some d)
        else match give_buffer d i p with None => inr None | Some d => inl (d, i + 1) end
    end
  else inr (Some d).

Definition dma_init d : option (dstate W * Z) :=
  d ← mjoin (while 9 init_body (d, 0));
  Some (write_reg d ENABLE_DMA 1, 1).

(** The length handed to [pbuf_realloc] is the address of the length register,
    cut to 16 bits. *)
Definition rx_length (mask_idx : Z) : Z := u16 (rx_BD_len + u32 (Z.shiftl mask_idx 2)).

(** One iteration: [bd_state] is what the status register read as. *)
Definition rx_body (bd_state n : Z) (x : dstate W * Z) : (dstate W * Z) + option (dstate W) :=
  let '(d, i) := x in
  if i <? n then
    let d' :=
      if Z.land bd_state (d_mask d) =? d_mask d then
        p ← d_bd d !! Z.to_nat i;
        s ← pbuf_realloc custom_free (d_p d) p (rx_length (d_mask_idx d));
        Some (set_q (set_p d s) (pq_enqueue (d_q d) p (d_mask d)).1)
      else Some d in
    match d' with
    | None => inr None
    | Some d =>
        let d := if d_mask d =? 0x80 then set_mask d 1 0
                 else set_mask d (u32 (Z.shiftl (d_mask d) 1)) (u32 (d_mask_idx d + 1)) in
        inl (d, i + 1)
    end
  else inr (Some d).

Definition dma_rx_irq d (rx_BD_sta : Z) : option (dstate W * Z) :=
  let j := pq_qlength (d_q d) in
  d ← mjoin (while 9 (rx_body rx_BD_sta (8 - j)) (d, 0));
  Some (d, 1).

(** ** riscvnetif.c *)

Definition low_level_input d : Z := if pq_qlength (d_q d) =? 0 then 0 else pq_dequeue (d_q d).

(** The lowest set bit of the index, 8 if there is none among eight. *)
Fixpoint bit_index (fuel : nat) (k : Z) : Z :=
  match fuel with
  | O => 0
  | S f => if Z.land k 1 =? 1 then 0 else 1 + bit_index f (Z.shiftr k 1)
  end.

(** The switch on the type field of the Ethernet header. *)
Definition dispatch d (p : Z) : option (dstate W) :=
  b ← pst (d_p d) !! p;
  let type := PP_HTONS (ld16 (mem_of (d_p d)) (payload b + 12)) in
  if (type =? ETHTYPE_IP) || (type =? ETHTYPE_ARP) then
    '(d, err) ← input d p;
    if negb (err =? ERR_OK) then '(s, _) ← pbuf_free custom_free (d_p d) p; Some (set_p d s) else Some d
  else '(s, _) ← pbuf_free custom_free (d_p d) p; Some (set_p d s).

Definition ethernetif_input d : option (dstate W * Z) :=
  let p := low_level_input d in
  if p =? 0 then Some (d, 0)
  else
    d ← dispatch d p;
    '(s, p) ← pbuf_alloc stale custom_free (d_p d) PBUF_RAW 1500 PBUF_POOL;
    let d := set_p d s in
    if p =? 0 then Some (d, 0)
    else
      let '(q, k) := pq_qindex (d_q d) in
      let d := set_q d q in
      let j := k in
      let i := bit_index 8 (u32 k) in
      d ← give_buffer d i p;
      Some (write_reg d rx_BD_clr j, 1).

(** [while(tx_BD_sta == 1);]: [reads] are the values the register reads as, one
    after the other; the rest is left for later reads.  [None]: the hardware is
    not done after the last of them. *)
Fixpoint wait_tx (reads : list Z) : option (list Z) :=
  match reads with
  | [] => None
  | r :: reads => if r =? 1 then wait_tx reads else Some reads
  end.

Definition output_body (x : dstate W * Z * list Z) : (dstate W * Z * list Z) + option (dstate W * Z) :=
  let '(d, q, reads) := x in
  if q =? 0 then inr (Some (d, ERR_OK))
  else
    match pst (d_p d) !! q with
    | None => inr None
    | Some b =>
        let d := write_reg d tx_BD_adr_0 (payload b) in
        let d := write_reg d tx_BD_len_0 (len b) in
        let d := write_reg d tx_BD_sta 1 in
        match wait_tx reads with None => inr None | Some reads => inl (d, next b, reads) end
    end.

Definition low_level_output d (p : Z) (reads : list Z) : option (dstate W * Z) :=
  mjoin (while (S (size (pst (d_p d)))) output_body (d, p, reads)).

(** A third queue would be NULL, which the state does not represent. *)
Definition low_level_init d (pq : pq_state) (n : netif) : option (dstate W * pq_state * netif) :=
  let n := mkNetif (nif_ip_addr n) (nif_netmask n) (nif_gw n) 536 6
             [0x00; 0x0a; 0x35; 0x00; 0x01; 0x02]
             (Z.lor (Z.lor NETIF_FLAG_BROADCAST NETIF_FLAG_ETHARP) NETIF_FLAG_LINK_UP)
             (nif_name n) (nif_num n) in
  let '(pq, i) := pq_create_queue pq in
  i ← i; q ← pq_queue pq !! Z.to_nat i;
  '(d, _) ← dma_init (set_q d q);
  Some (d, pq, n).

(** [sizeof(mymac)] is two pointers. *)
Definition ethernetif_init d (pq : pq_state) (n : netif) : option (dstate W * pq_state * netif * Z) :=
  '(w, mymac_s) ← ms_malloc (pw (d_p d)) 8;
  let d := set_p d (set_pw (d_p d) w) in
  if mymac_s =? 0 then Some (d, pq, n, ERR_MEM)
  else
    let n := mkNetif (nif_ip_addr n) (nif_netmask n) (nif_gw n) (nif_mtu n) (nif_hwaddr_len n)
               (nif_hwaddr n) (nif_flags n) (115, 116) (nif_num n) in
    '(d, pq, n) ← low_level_init d pq n;
    Some (d, pq, n, ERR_OK).

End driver.

(** * The receive interrupt *)

(** The descriptors an interrupt serves from iteration [i] on: the buffer taken
    and the number of the descriptor, [idx] being that of iteration [i]. *)
Fixpoint served (bd : list Z) (sta idx : Z) (i k : nat) : list (Z * Z) :=
  match k with
  | O => []
  | S k =>
      match bd !! i with
      | Some p => if Z.testbit sta idx then [(p, idx)] else []
      | None => []
      end ++ served bd sta ((idx + 1) mod 8) (S i) k
  end.

(** A packet of one pbuf cut to [n] bytes. *)
Definition trunc (n : Z) (b : pbuf) : pbuf :=
  if tot_len b <=? n then b else mkPbuf 0 (payload b) n n (type b) (flags b) (ref b).

Definition trunc_all (ps : list (Z * Z)) (st : pstore) : pstore :=
  foldl (fun st x => alter (trunc (96 + 4 * x.2)) x.1 st) st ps.

(** A buffer given to the hardware: one pbuf from the pool. *)
Definition rx_buffer (st : pstore) (p : Z) : Prop :=
  exists b, st !! p = Some b /\ next b = 0 /\ tot_len b = len b /\ 0 <= len b < 65536 /\ type b = PBUF_POOL.

Section rx.
Context {W : Type} `{MemSystem W}.
Context (custom_free : pstate W -> Z -> option (pstate W)).

Implicit Types (d : dstate W) (s : pstate W).

Lemma rx_length_eq k : 0 <= k < 8 -> rx_length k = 96 + 4 * k.
Proof.
  intros Hk. unfold rx_length, rx_BD_len. rewrite Z.shiftl_mul_pow2 by lia. change (2 ^ 2) with 4.
  rewrite u32_id by lia. unfold u16. zlia.
Qed.

Lemma alter_as_insert (f : pbuf -> pbuf) (p : Z) (st : pstore) b :
  st !! p = Some b -> alter f p st = <[p := f b]> st.
Proof.
  intros Hb. apply map_eq. intros x. destruct (decide (x = p)) as [-> | Hne].
  - by rewrite lookup_alter_eq, lookup_insert_eq, Hb.
  - by rewrite lookup_alter_ne, lookup_insert_ne.
Qed.

Lemma realloc_buffer s p n :
  rx_buffer (pst s) p -> 0 <= n ->
  pbuf_realloc custom_free s p n = Some (set_pst s (alter (trunc n) p (pst s))).
Proof.
  intros (b & Hb & Hnx & Ht & Hl & Hty) Hn. unfold pbuf_realloc. rewrite Hb. cbn [mbind option_bind].
  rewrite (alter_as_insert _ _ _ b) by done.
  unfold trunc. destruct (Z.leb_spec (tot_len b) n) as [Hle | Hgt].
  - rewrite insert_id by done. by destruct s.
  - rewrite while_S. unfold realloc_body at 1. rewrite Hb, (proj2 (Z.ltb_ge (len b) n)) by lia.
    cbn [mjoin option_join mbind option_bind]. rewrite Hb. cbn [mbind option_bind].
    rewrite Hty, bool_decide_false by done. cbn [andb]. rewrite Hb.
    cbn [mbind option_bind next set_tot_len set_len]. rewrite Hnx. cbn [Z.eqb negb mbind option_bind].
    unfold update. cbn [pst set_pst]. rewrite lookup_insert_eq. cbn [mbind option_bind]. rewrite insert_insert_eq.
    unfold set_next, set_tot_len, set_len. cbn. by rewrite Hty.
Qed.

Lemma mask_test sta k : 0 <= k -> (Z.land sta (2 ^ k) =? 2 ^ k) = Z.testbit sta k.
Proof.
  intros Hk. destruct (Z.testbit sta k) eqn:E.
  - apply Z.eqb_eq, Z.bits_inj'. intros i Hi. rewrite Z.land_spec.
    destruct (decide (i = k)) as [-> |]; [by rewrite E |]. rewrite Z.pow2_bits_false by lia. apply andb_false_r.
  - apply Z.eqb_neq. intros H'. apply (f_equal (fun z => Z.testbit z k)) in H'.
    rewrite Z.land_spec, E, Z.pow2_bits_true in H' by done. done.
Qed.

Lemma mask_next k :
  0 <= k < 8 ->
  (if 2 ^ k =? 0x80 then (1, 0) else (u32 (Z.shiftl (2 ^ k) 1), u32 (k + 1))) = (2 ^ ((k + 1) mod 8), (k + 1) mod 8).
Proof.
  intros Hk. assert (k = 0 \/ k = 1 \/ k = 2 \/ k = 3 \/ k = 4 \/ k = 5 \/ k = 6 \/ k = 7) as Hc by lia.
  by repeat (destruct Hc as [-> | Hc]; [reflexivity |]); subst.
Qed.

Lemma rx_buffer_trunc st p q n : rx_buffer st p -> p <> q -> rx_buffer (alter (trunc n) q st) p.
Proof. intros (b & Hb & Hr) Hne. exists b. by rewrite lookup_alter_ne. Qed.

(** What the loop needs of the state before iteration [i]. *)
Record rx_ready d (i : nat) (idx : Z) (lq : list (Z * Z)) : Prop := {
  rr_mask : d_mask d = 2 ^ idx;
  rr_idx : d_mask_idx d = idx;
  rr_range : 0 <= idx < 8;
  rr_queue : rep (d_q d) lq;
  rr_bd : length (d_bd d) = 8%nat;
  rr_nodup : NoDup (d_bd d);
  rr_buf : forall j p, (i <= j)%nat -> d_bd d !! j = Some p -> rx_buffer (pst (d_p d)) p
}.

Lemma rx_step d i idx lq sta n :
  rx_ready d i idx lq -> (i < n)%nat -> (n <= 8)%nat -> (length lq < 8)%nat ->
  exists d', rx_body custom_free sta (Z.of_nat n) (d, Z.of_nat i) = inl (d', Z.of_nat (S i)) /\
    let sv := served (d_bd d) sta idx i 1 in
    rx_ready d' (S i) ((idx + 1) mod 8) (lq ++ ((fun x => (x.1, 2 ^ x.2)) <$> sv)) /\
    pst (d_p d') = trunc_all sv (pst (d_p d)) /\ pw (d_p d') = pw (d_p d) /\ d_bd d' = d_bd d.
Proof.
  intros [Hm Hx Hr Hq Hl Hnd Hb] Hi Hn Hlq. unfold rx_body. rewrite (proj2 (Z.ltb_lt _ _)) by lia.
  destruct (lookup_lt_is_Some_2 (d_bd d) i) as [p Hp]; [lia |]. rewrite Nat2Z.id, Hp. cbn [served]. rewrite Hp.
  pose proof (mask_next idx Hr) as Hnext. rewrite Hm, mask_test by lia.
  assert (forall d1, d_mask d1 = 2 ^ idx -> d_mask_idx d1 = idx ->
    (if d_mask d1 =? 0x80 then set_mask d1 1 0 else set_mask d1 (u32 (Z.shiftl (d_mask d1) 1)) (u32 (d_mask_idx d1 + 1)))
    = set_mask d1 (2 ^ ((idx + 1) mod 8)) ((idx + 1) mod 8)) as Hset.
  { intros d1 -> ->. destruct (2 ^ idx =? 0x80); by injection Hnext as <- <-. }
  assert (0 <= (idx + 1) mod 8 < 8) as Hr' by (apply Z.mod_pos_bound; lia).
  destruct (Z.testbit sta idx).
  - cbn [mbind option_bind]. rewrite Hx, rx_length_eq by done.
    rewrite (realloc_buffer (d_p d) p) by (eauto || lia). cbn [mbind option_bind].
    destruct (enqueue_rep (d_q d) lq p (2 ^ idx) Hq Hlq) as (q' & Eq & Hq'). rewrite Eq. cbn [fst].
    rewrite Hset by done. eexists. split; [do 2 f_equal; lia |]. cbn.
    split; [| done]. split; cbn; try done. intros j p' Hj Hp'. apply rx_buffer_trunc; [apply (Hb j); [lia | done] |].
    intros ->. pose proof (NoDup_lookup _ _ _ _ Hnd Hp Hp'). lia.
  - rewrite Hset by done. eexists. split; [do 2 f_equal; lia |]. cbn. rewrite app_nil_r.
    split; [| done]. split; cbn; try done. intros j p' Hj Hp'. apply (Hb j); [lia | done].
Qed.

Lemma rx_loop k fuel d i idx lq sta n :
  rx_ready d i idx lq -> (i + k = n)%nat -> (n <= 8)%nat -> (length lq + k <= 8)%nat -> (k < fuel)%nat ->
  exists d', while fuel (rx_body custom_free sta (Z.of_nat n)) (d, Z.of_nat i) = Some (Some d') /\
    let sv := served (d_bd d) sta idx i k in
    rx_ready d' n ((idx + Z.of_nat k) mod 8) (lq ++ ((fun x => (x.1, 2 ^ x.2)) <$> sv)) /\
    pst (d_p d') = trunc_all sv (pst (d_p d)) /\ pw (d_p d') = pw (d_p d) /\ d_bd d' = d_bd d.
Proof.
  revert fuel d i idx lq. induction k as [| k IH]; intros fuel d i idx lq Hr Hik Hn Hl Hf;
    (destruct fuel as [| fuel]; [lia |]); rewrite while_S.
  - unfold rx_body at 1. rewrite (proj2 (Z.ltb_ge _ _)) by lia. exists d. cbn. rewrite Z.add_0_r, app_nil_r.
    rewrite Z.mod_small by apply (rr_range _ _ _ _ Hr). by replace n with i by lia.
  - destruct (rx_step d i idx lq sta n Hr) as (d1 & -> & Hr1 & Hst1 & Hpw1 & Hbd1); [lia | lia | lia |].
    assert (served (d_bd d) sta idx i (S k) =
            served (d_bd d) sta idx i 1 ++ served (d_bd d) sta ((idx + 1) mod 8) (S i) k) as Esv
      by (cbn; by rewrite app_nil_r).
    set (sv1 := served (d_bd d) sta idx i 1) in *.
    assert (length sv1 <= 1)%nat as Hsv1.
    { unfold sv1. cbn. rewrite app_nil_r. destruct (d_bd d !! i), (Z.testbit sta idx); cbn; lia. }
    destruct (IH fuel d1 (S i) ((idx + 1) mod 8) _ Hr1) as (d2 & Hw & Hr2 & Hst2 & Hpw2 & Hbd2);
      [lia | lia | rewrite length_app, length_fmap; lia | lia |].
    exists d2. split; [exact Hw |]. cbv zeta. rewrite Esv, Hbd1 in *. split; [| split; [| split; congruence]].
    + rewrite fmap_app, app_assoc. rewrite Zplus_mod_idemp_l in Hr2.
      by replace (idx + Z.of_nat (S k)) with (idx + 1 + Z.of_nat k) by lia.
    + rewrite Hst2, Hst1. unfold trunc_all. by rewrite foldl_app.
Qed.

(** C34: what the receive interrupt does: from descriptor [MASK_idx] on it looks
    at one descriptor per free entry of the queue, rotates through all eight,
    and never loses a packet to a full queue.  But for the descriptor of
    iteration [i] it takes the buffer [dma_bd_pbuf[i]] instead of the
    descriptor's own, and it cuts the packet to [96 + 4 * MASK_idx] bytes, the
    low half of the address of the length register, whatever the hardware
    received. *)
Theorem dma_rx_irq_serves d lq sta :
  rx_ready d 0 (d_mask_idx d) lq ->
  exists d', dma_rx_irq custom_free d sta = Some (d', 1) /\
    let n := (8 - length lq)%nat in
    let sv := served (d_bd d) sta (d_mask_idx d) 0 n in
    rep (d_q d') (lq ++ ((fun x => (x.1, 2 ^ x.2)) <$> sv)) /\
    d_mask_idx d' = (d_mask_idx d + Z.of_nat n) mod 8 /\ d_mask d' = 2 ^ d_mask_idx d' /\
    pst (d_p d') = trunc_all sv (pst (d_p d)) /\ pw (d_p d') = pw (d_p d) /\ d_bd d' = d_bd d.
Proof.
  intros Hr. pose proof (rr_queue _ _ _ _ Hr) as Hq. pose proof (rp_max _ _ Hq) as Hm.
  unfold dma_rx_irq, pq_qlength. rewrite (rp_len _ _ Hq).
  replace (8 - Z.of_nat (length lq)) with (Z.of_nat (8 - length lq)) by lia.
  destruct (rx_loop (8 - length lq) 9 d 0 (d_mask_idx d) lq sta (8 - length lq) Hr)
    as (d' & Hw & Hr' & Hst & Hpw & Hbd); [lia | lia | lia | lia |].
  exists d'. change (Z.of_nat 0) with 0 in Hw. rewrite Hw. split; [done |]. cbv zeta.
  destruct Hr' as [Hmask Hidx _ Hq' _ _ _]. split; [done |]. split; [done |]. split; [congruence | done].
Qed.

End rx.

(** * Taking a packet from the queue *)

Lemma bit_index_pow k : 0 <= k < 8 -> bit_index 8 (u32 (2 ^ k)) = k.
Proof.
  intros Hk. assert (k = 0 \/ k = 1 \/ k = 2 \/ k = 3 \/ k = 4 \/ k = 5 \/ k = 6 \/ k = 7) as Hc by lia.
  by repeat (destruct Hc as [-> | Hc]; [reflexivity |]); subst.
Qed.

Section rx_input.
Context {W : Type} `{MemSystem W}.
Context (stale : Z -> Z) (custom_free : pstate W -> Z -> option (pstate W)).
Context (input : dstate W -> Z -> option (dstate W * Z)).

Implicit Type d : dstate W.

Lemma low_level_input_oldest d p k lq : rep (d_q d) ((p, k) :: lq) -> low_level_input d = p.
Proof.
  intros Hr. unfold low_level_input, pq_qlength. rewrite (rp_len _ _ Hr), (proj2 (Z.eqb_neq _ _)) by (cbn; lia).
  by destruct (qindex_rep _ _ _ _ Hr) as (q' & _ & _ & ->).
Qed.

(** C36: when a new buffer is available, [ethernetif_input] dispatches the oldest
    packet once, removes its entry from the queue, puts the new buffer in the
    place of the entry's descriptor, tells the hardware the address and then
    releases exactly that descriptor. *)
Theorem ethernetif_input_recycles d d1 p k lq lq1 s q b :
  rep (d_q d) ((p, 2 ^ k) :: lq) -> p <> 0 -> 0 <= k < 8 ->
  dispatch custom_free input d p = Some d1 -> rep (d_q d1) ((p, 2 ^ k) :: lq1) ->
  pbuf_alloc stale custom_free (d_p d1) PBUF_RAW 1500 PBUF_POOL = Some (s, q) -> q <> 0 -> pst s !! q = Some b ->
  exists d', ethernetif_input stale custom_free input d = Some (d', 1) /\
    rep (d_q d') lq1 /\ d_bd d' = <[Z.to_nat k := q]> (d_bd d1) /\ d_p d' = s /\
    d_writes d' = d_writes d1 ++ [(rx_BD_adr + 4 * k, u32 (payload b)); (rx_BD_clr, 2 ^ k)].
Proof.
  intros Hr Hp Hk Hd Hr1 Ha Hq Hb. unfold ethernetif_input. rewrite (low_level_input_oldest d p _ lq Hr).
  rewrite (proj2 (Z.eqb_neq p 0)), Hd by done. cbn [mbind option_bind]. rewrite Ha. cbn [mbind option_bind].
  rewrite (proj2 (Z.eqb_neq q 0)) by done. cbn [d_q set_p].
  destruct (qindex_rep _ _ _ _ Hr1) as (q' & -> & Hr' & _). rewrite bit_index_pow by done.
  unfold give_buffer. rewrite (proj2 (Z.ltb_lt k 8)) by lia. cbn [d_p set_q set_p]. rewrite Hb. cbn [mbind option_bind].
  eexists. split; [reflexivity |]. cbn. split; [done |]. split; [done |]. split; [done |].
  rewrite <- app_assoc. cbn. rewrite Z.shiftl_mul_pow2 by lia. change (2 ^ 2) with 4.
  rewrite (u32_id (2 ^ k)) by (split; [lia |]; apply (Z.pow_lt_mono_r 2 k 32); lia).
  by replace (k * 4) with (4 * k) by lia.
Qed.

(** when no new buffer is available, [ethernetif_input] returns after the
    packet was dispatched and leaves its entry in the queue: the next call
    dispatches the same pbuf again, which the stack may have released. *)
Theorem ethernetif_input_redelivers d d1 p k lq lq1 s :
  rep (d_q d) ((p, k) :: lq) -> p <> 0 ->
  dispatch custom_free input d p = Some d1 -> rep (d_q d1) ((p, k) :: lq1) ->
  pbuf_alloc stale custom_free (d_p d1) PBUF_RAW 1500 PBUF_POOL = Some (s, 0) ->
  ethernetif_input stale custom_free input d = Some (set_p d1 s, 0) /\
  low_level_input (set_p d1 s) = p.
Proof.
  intros Hr Hp Hd Hr1 Ha. unfold ethernetif_input. rewrite (low_level_input_oldest d p _ lq Hr).
  rewrite (proj2 (Z.eqb_neq p 0)), Hd by done. cbn [mbind option_bind]. rewrite Ha. cbn [mbind option_bind Z.eqb].
  split; [done |]. by apply (low_level_input_oldest _ p k lq1).
Qed.

End rx_input.

(** * Samples *)

#[local] Existing Instance World.world_system.

Definition empty_queue : pq_queue_t := mkQueue (replicate 8 0) (replicate 8 0) 0 0 0.

Lemma empty_queue_rep : rep empty_queue [].
Proof. split; cbn; done || lia. Qed.

(** Eight buffers with the hardware, the next descriptor being number 2. *)
Definition sample_buffers : list Z := [1000; 3000; 5000; 7000; 9000; 11000; 13000; 15000].
Definition sample_store : pstore :=
  list_to_map ((fun p => (p, mkPbuf 0 (p + 16) 1500 1500 PBUF_POOL 0 1)) <$> sample_buffers).
Definition sample_driver : dstate World.world :=
  mkDstate (mkPstate World.sample_world sample_store 0) empty_queue sample_buffers 4 2 [].

Lemma sample_driver_ready : rx_ready sample_driver 0 2 [].
Proof.
  split; try done; [apply empty_queue_rep | apply (bool_decide_unpack _); vm_compute; done |].
  intros j p _ Hp. cbn in Hp. exists (mkPbuf 0 (p + 16) 1500 1500 PBUF_POOL 0 1).
  split; [| cbn; lia || done]. do 8 (destruct j as [| j]; [injection Hp as <-; vm_compute; reflexivity |]). done.
Qed.

(** A packet on descriptor 2 is taken from the buffer of descriptor 0 and cut to
    104 bytes. *)
Lemma dma_rx_irq_serves_witness :
  exists d', dma_rx_irq PbufChains.no_custom sample_driver 4 = Some (d', 1) /\
    rep (d_q d') [(1000, 4)] /\
    pst (d_p d') !! 1000 = Some (mkPbuf 0 1016 104 104 PBUF_POOL 0 1) /\ d_mask_idx d' = 2.
Proof.
  destruct (dma_rx_irq_serves PbufChains.no_custom sample_driver [] 4 sample_driver_ready)
    as (d' & Hr & Hq & Hi & _ & Hst & _).
  exists d'. split; [exact Hr |]. split; [exact Hq |]. split; [rewrite Hst; vm_compute; reflexivity | exact Hi].
Defined.

(** One packet in the queue, of no known type. *)
Definition queue_of (p k : Z) : pq_queue_t := (pq_enqueue empty_queue p k).1.

Lemma queue_of_rep p k : rep (queue_of p k) [(p, k)].
Proof.
  unfold queue_of. destruct (enqueue_rep empty_queue [] p k empty_queue_rep) as (q & -> & Hq); [cbn; lia | done].
Qed.

Definition sample_one : pstate World.world := PbufChains.sample_alloc PbufChains.sample_empty PBUF_RAW 1500 PBUF_POOL.

Definition drop_input (d : dstate World.world) (p : Z) : option (dstate World.world * Z) := None.
Definition keep_input (d : dstate World.world) (p : Z) : option (dstate World.world * Z) := Some (d, ERR_OK).

Definition sample_rx : dstate World.world :=
  mkDstate sample_one (queue_of 19880 8) (replicate 8 0) 1 0 [].

Definition or_else {A} (x : option A) (a : A) : A := match x with Some y => y | None => a end.

Lemma ethernetif_input_recycles_witness :
  exists d', ethernetif_input PbufChains.no_stale PbufChains.no_custom drop_input sample_rx = Some (d', 1) /\
    rep (d_q d') [] /\ d_bd d' = <[3%nat := 19880]> (replicate 8 0).
Proof.
  destruct (ethernetif_input_recycles PbufChains.no_stale PbufChains.no_custom drop_input sample_rx
    (or_else (dispatch PbufChains.no_custom drop_input sample_rx 19880) sample_rx) 19880 3 [] []
    (or_else (pbuf_alloc PbufChains.no_stale PbufChains.no_custom
       (d_p (or_else (dispatch PbufChains.no_custom drop_input sample_rx 19880) sample_rx)) PBUF_RAW 1500 PBUF_POOL)
       (sample_one, 0)).1 19880 (mkPbuf 0 19896 1500 1500 PBUF_POOL 0 1))
    as (d' & Hr & Hq & Hb & _);
    [apply queue_of_rep | lia | lia | vm_compute; reflexivity | apply queue_of_rep | vm_compute; reflexivity | lia
    | vm_compute; reflexivity |].
  exists d'. split; [exact Hr |]. split; [exact Hq | exact Hb].
Defined.

(** Three buffers in use, an IP packet in the first. *)
Definition sample_full : pstate World.world :=
  let s := PbufChains.sample_alloc (PbufChains.sample_alloc sample_one PBUF_RAW 1500 PBUF_POOL) PBUF_RAW 1500 PBUF_POOL in
  set_mem s (st16 (mem_of s) 19908 0x0008).

Definition sample_rx_full : dstate World.world :=
  mkDstate sample_full (queue_of 19880 8) (replicate 8 0) 1 0 [].

Lemma ethernetif_input_redelivers_witness :
  exists d', ethernetif_input PbufChains.no_stale PbufChains.no_custom keep_input sample_rx_full = Some (d', 0) /\
    low_level_input d' = 19880.
Proof.
  destruct (ethernetif_input_redelivers PbufChains.no_stale PbufChains.no_custom keep_input sample_rx_full
    sample_rx_full 19880 8 [] []
    (or_else (pbuf_alloc PbufChains.no_stale PbufChains.no_custom sample_full PBUF_RAW 1500 PBUF_POOL) (sample_full, 0)).1)
    as (Hr & Hl); [apply queue_of_rep | lia | vm_compute; reflexivity | apply queue_of_rep | vm_compute; reflexivity |].
  eexists. split; [exact Hr | exact Hl].
Defined.

(** * Transmission *)

(** The register writes that hand one pbuf to the hardware. *)
Definition descriptor (b : pbuf) : list (Z * Z) :=
  [(tx_BD_adr_0, u32 (payload b)); (tx_BD_len_0, u32 (len b)); (tx_BD_sta, 1)].
(** How often the hardware is seen to be done. *)
Definition done_reads (reads : list Z) : nat := length (filter (fun r => r <> 1) reads).

Lemma done_reads_cons r reads : done_reads (r :: reads) = if r =? 1 then done_reads reads else S (done_reads reads).
Proof. unfold done_reads. destruct (Z.eqb_spec r 1) as [->|N]; [rewrite filter_cons_False by auto | rewrite filter_cons_True by auto]; reflexivity. Qed.

(** Waiting takes the values up to the first that is not 1. *)
Lemma wait_tx_spec reads :
  match wait_tx reads with
  | Some rest => exists n r, reads = replicate n 1 ++ r :: rest /\ r <> 1 /\ done_reads reads = S (done_reads rest)
  | None => done_reads reads = O
  end.
Proof.
  induction reads as [|r reads IH]; [reflexivity|]. cbn [wait_tx]. rewrite done_reads_cons. destruct (Z.eqb_spec r 1) as [->|N].
  - destruct (wait_tx reads) as [rest|]; [| exact IH]. destruct IH as (n & r & -> & Nr & D). exists (S n), r. auto.
  - exists O, r. auto.
Qed.

(** [pre] is what is read in waiting [n] times, each time until the hardware is done. *)
Definition waited (n : nat) (pre : list Z) : Prop := done_reads pre = n /\ last pre <> Some 1.

Lemma waited_again n k r pre : r <> 1 -> waited n pre -> waited (S n) (replicate k 1 ++ r :: pre).
Proof.
  intros N [D La]. split.
  - induction k as [|k IH]; cbn [replicate app]; rewrite done_reads_cons; [rewrite (proj2 (Z.eqb_neq _ _) N), D; reflexivity | exact IH].
  - rewrite last_app_cons, last_cons. destruct (last pre); congruence.
Qed.

Section transmit.
Context {W : Type} `{MemSystem W}.

(** The descriptors of the pbufs of [l] were written. *)
Definition handed (d : dstate W) (l : list (Z * pbuf)) : dstate W :=
  mkDstate (d_p d) (d_q d) (d_bd d) (d_mask d) (d_mask_idx d) (d_writes d ++ concat (map (fun x => descriptor x.2) l)).

Definition first_pbuf (l : list (Z * pbuf)) : Z := match l with [] => 0 | x :: _ => x.1 end.

Lemma output_turn (d : dstate W) a b l reads :
  chain (pst (d_p d)) a ((a, b) :: l) -> output_body (d, a, reads) =
    match wait_tx reads with Some reads => inl (handed d [(a, b)], next b, reads) | None => inr None end.
Proof.
  intros C. inversion C as [|? ? ? Np Eb C']; subst. unfold output_body. rewrite (proj2 (Z.eqb_neq _ _) Np), Eb.
  destruct (wait_tx reads); [| reflexivity]. unfold handed. unfold write_reg. cbn. rewrite <- ?app_assoc. reflexivity.
Qed.

Lemma handed_again d x l : handed (handed d [x]) l = handed d (x :: l).
Proof. unfold handed. cbn [d_p d_q d_bd d_mask d_mask_idx d_writes map concat]. rewrite app_nil_r, <- app_assoc. reflexivity. Qed.

Lemma chain_first st p l : chain st p l -> p = first_pbuf l.
Proof. destruct 1; reflexivity. Qed.

Lemma output_turns (d : dstate W) p l reads i : chain (pst (d_p d)) p l -> (i <= length l)%nat ->
  if (i <=? done_reads reads)%nat then exists pre rest, reads = pre ++ rest /\ waited i pre /\
    turns i output_body (d, p, reads) = Some (handed d (take i l), first_pbuf (drop i l), rest)
  else turns i output_body (d, p, reads) = None.
Proof.
  revert d p l reads. induction i as [|i IH]; intros d p l reads C Hi.
  - exists [], reads. split; [reflexivity | split; [split; [reflexivity | discriminate] |]]. rewrite (chain_first _ _ _ C).
    cbn. unfold handed. cbn. rewrite app_nil_r. destruct d; reflexivity.
  - destruct l as [|[a b] l]; [cbn in Hi; lia|]. pose proof (chain_first _ _ _ C) as Ep. cbn in Ep. subst p.
    cbn [turns]. rewrite (output_turn d a b l reads C). inversion C as [|? ? ? Np Eb C']; subst.
    pose proof (wait_tx_spec reads) as Wt. destruct (wait_tx reads) as [rest|]; [| rewrite Wt; reflexivity].
    destruct Wt as (n & r & Er & Nr & D). rewrite D. specialize (IH (handed d [(a, b)]) (next b) l rest C' ltac:(cbn in Hi; lia)).
    cbn [Nat.leb]. destruct (i <=? done_reads rest)%nat; [| exact IH]. destruct IH as (pre & rest' & E' & Wa & T).
    exists (replicate n 1 ++ r :: pre), rest'. split; [rewrite Er, E', <- app_assoc; reflexivity|].
    split; [apply waited_again; assumption|]. rewrite T. cbn [take drop]. rewrite handed_again. reflexivity.
Qed.

(** The loop stays at a pbuf for which the hardware is not seen to be done. *)
Lemma output_stops (d : dstate W) p l reads fuel : chain (pst (d_p d)) p l ->
  turns (length l) output_body (d, p, reads) = None -> mjoin (while fuel output_body (d, p, reads)) = None.
Proof.
  intros C. revert d p reads fuel C. induction l as [|[a b] l IH]; intros d p reads fuel C T; [discriminate T|].
  pose proof (chain_first _ _ _ C) as Ep. cbn in Ep. subst p. cbn [length turns] in T. rewrite (output_turn d a b l reads C) in T.
  inversion C as [|? ? ? Np Eb C']; subst. destruct fuel as [|fuel]; [reflexivity|]. rewrite while_S, (output_turn d a b l reads C).
  destruct (wait_tx reads) as [rest|]; [apply (IH (handed d [(a, b)]) (next b) rest fuel C' T) | reflexivity].
Qed.

(** C35: [low_level_output] hands every pbuf of a packet to the hardware as a descriptor
    of its own (address, length and start), in the order of the chain, and waits for each
    one: after [i] turns of its loop exactly the descriptors of the first [i] pbufs were
    written, and the status register was read until it was seen not to be 1 for the [i]th
    time.  It returns ERR_OK when the register reads as done once for every pbuf, and does
    not return on the values read otherwise; it writes nothing else. *)
Theorem low_level_output_descriptors (d : dstate W) p l reads :
  chain (pst (d_p d)) p l ->
  (forall i, (i <= length l)%nat ->
    if (i <=? done_reads reads)%nat then exists pre rest, reads = pre ++ rest /\ waited i pre /\
      turns i output_body (d, p, reads) = Some (handed d (take i l), first_pbuf (drop i l), rest)
    else turns i output_body (d, p, reads) = None) /\
  low_level_output d p reads = if (length l <=? done_reads reads)%nat then Some (handed d l, ERR_OK) else None.
Proof.
  intros C. split; [intros i; apply output_turns, C|]. unfold low_level_output. pose proof (chain_length_size _ _ _ C) as Sz.
  pose proof (output_turns d p l reads (length l) C (le_n _)) as T. destruct (length l <=? done_reads reads)%nat.
  - destruct T as (pre & rest & _ & _ & T). rewrite take_ge, drop_ge in T by lia. replace (S _) with (length l + S (size (pst (d_p d)) - length l))%nat by lia.
    rewrite (turns_while _ _ _ _ _ T), while_S. reflexivity.
  - exact (output_stops d p l reads _ C T).
Qed.

End transmit.

(** A header in front of its data makes two descriptors. *)
Lemma low_level_output_descriptors_witness :
  let st := {[ 100 := mkPbuf 200 500 34 14 PBUF_RAM 0 1; 200 := mkPbuf 0 900 20 20 PBUF_ROM 0 1 ]} : pstore in
  let d := mkDstate (mkPstate PbufChains.sample_empty.(pw) st 0) empty_queue [] 1 0 [] in
  low_level_output d 100 [1; 1; 0; 0] =
    Some (mkDstate (d_p d) (d_q d) [] 1 0
      [(tx_BD_adr_0, 500); (tx_BD_len_0, 14); (tx_BD_sta, 1); (tx_BD_adr_0, 900); (tx_BD_len_0, 20); (tx_BD_sta, 1)], ERR_OK) /\
  low_level_output d 100 [1; 1; 0; 1] = None.
Proof.
  intros st d. pose proof (low_level_output_descriptors d 100 [(100, mkPbuf 200 500 34 14 PBUF_RAM 0 1); (200, mkPbuf 0 900 20 20 PBUF_ROM 0 1)]) as T.
  split; apply T; (constructor; [lia | reflexivity |]; constructor; [cbn; lia | reflexivity | constructor]).
Defined.

End Driver.
