(* ===== verification/PbufRefs.v ===== *)
(** Reference counting of packet buffers: who may use a pbuf.

    A pbuf is referenced by the pbufs that link to it and by its owners: the
    modules that keep a pointer to it, each entry of the list [own] being one
    reference.  [refs_ok] says that [ref] counts both and that no link and no
    owner's pointer dangles.  Releasing an owned pbuf then always succeeds and
    gives up exactly one reference. *)

From stdpp Require Import base tactics numbers list gmap.
From Stdlib Require Import ZArith Lia.
From S2P Require Import Prelude PbufDefs Mylib Allocator Mem Memp PbufMem World Pbuf PbufData PbufChains PbufLinks.

Local Open Scope Z_scope.

Module PbufRefs.
Import Mem Memp Pbuf PbufData PbufChains PbufLinks.

(** ** Counting references *)

Definition cnt (p : Z) (own : list Z) : nat := length (filter (fun x => x = p) own).

Definition indeg (st : pstore) (p : Z) : nat := size (filter (fun x : Z * pbuf => next x.2 = p) st).

Record refs_ok (own : list Z) (st : pstore) : Prop := {
  rf_count : forall p b, st !! p = Some b -> ref b = Z.of_nat (cnt p own + indeg st p);
  rf_own : forall p, p ∈ own -> is_Some (st !! p);
  rf_next : forall p b, st !! p = Some b -> next b = 0 \/ is_Some (st !! next b);
  rf_null : st !! 0 = None
}.

#[export] Instance cnt_perm p : Proper ((≡ₚ) ==> (=)) (cnt p).
Proof. intros l1 l2 H. unfold cnt. by rewrite H. Qed.

Lemma cnt_cons p x l : cnt p (x :: l) = ((if decide (x = p) then 1 else 0) + cnt p l)%nat.
Proof. unfold cnt. rewrite filter_cons. by destruct (decide (x = p)). Qed.

Lemma cnt_app p l1 l2 : cnt p (l1 ++ l2) = (cnt p l1 + cnt p l2)%nat.
Proof. unfold cnt. by rewrite filter_app, length_app. Qed.

Lemma cnt_pos p l : p ∈ l <-> (0 < cnt p l)%nat.
Proof.
  induction l as [| x l IH]; [split; [by intros ?%elem_of_nil | by unfold cnt; cbn; lia] |].
  rewrite elem_of_cons, cnt_cons, IH. destruct (decide (x = p)) as [-> | Hne]; [split; [lia | by left] |].
  split; [intros [-> | ?]; [done | lia] | right; lia].
Qed.

#[export] Instance refs_ok_perm : Proper ((≡ₚ) ==> (=) ==> iff) refs_ok.
Proof.
  intros l1 l2 Hl st ? <-. split; intros [H1 H2 H3 H4]; split; try done.
  - intros p b Hb. rewrite (H1 p b Hb). by rewrite Hl.
  - intros p Hp. apply H2. by rewrite Hl.
  - intros p b Hb. rewrite (H1 p b Hb). by rewrite <- Hl.
  - intros p Hp. apply H2. by rewrite <- Hl.
Qed.

(** Removing a pbuf removes its link. *)
Lemma indeg_delete st q b p :
  st !! q = Some b -> indeg (delete q st) p = (indeg st p - (if decide (next b = p) then 1 else 0))%nat.
Proof.
  intros Hq. unfold indeg. rewrite map_filter_delete, map_size_delete.
  destruct (decide (next b = p)) as [E | E].
  - rewrite (proj2 (map_lookup_filter_Some _ st q b)) by done. lia.
  - destruct (filter _ st !! q) as [c |] eqn:Ec; [| cbn; lia].
    apply map_lookup_filter_Some in Ec as [Hc Hn]. cbn in Hn. congruence.
Qed.

(** Fields other than the link do not count. *)
Lemma indeg_same st q b b' p : st !! q = Some b -> next b' = next b -> indeg (<[q := b']> st) p = indeg st p.
Proof.
  intros Hq Hn. unfold indeg. destruct (decide (next b = p)) as [E | E].
  - rewrite map_filter_insert_True by (cbn; congruence). rewrite map_size_insert.
    by rewrite (proj2 (map_lookup_filter_Some _ st q b)).
  - rewrite map_filter_insert_False by (cbn; congruence). rewrite map_filter_delete, map_size_delete.
    destruct (filter _ st !! q) as [c |] eqn:Ec; [| done].
    apply map_lookup_filter_Some in Ec as [Hc Hn']. cbn in Hn'. congruence.
Qed.

(** A new pbuf adds its link. *)
Lemma indeg_new st q b p :
  st !! q = None -> indeg (<[q := b]> st) p = ((if decide (next b = p) then 1 else 0) + indeg st p)%nat.
Proof.
  intros Hq. unfold indeg. destruct (decide (next b = p)) as [E | E].
  - rewrite map_filter_insert_True by done. rewrite map_size_insert.
    destruct (filter _ st !! q) as [c |] eqn:Ec; [| done].
    apply map_lookup_filter_Some in Ec as [Hc _]. congruence.
  - rewrite map_filter_insert_False by done. by rewrite delete_id.
Qed.

Lemma indeg_zero st p : indeg st p = 0%nat -> forall q b, st !! q = Some b -> next b <> p.
Proof.
  intros H q b Hq Hn. unfold indeg in H. apply map_size_empty_inv in H.
  assert (filter (fun x : Z * pbuf => next x.2 = p) st !! q = Some b) as E
    by (apply map_lookup_filter_Some; done).
  by rewrite H in E.
Qed.

(** Changing fields other than the link and the count. *)
Lemma refs_update own st p b b' :
  refs_ok own st -> st !! p = Some b -> next b' = next b -> ref b' = ref b -> refs_ok own (<[p := b']> st).
Proof.
  intros [H1 H2 H3 H4] Hp Hn Hr. split.
  - intros q c Hq. rewrite (indeg_same _ _ b) by done.
    apply lookup_insert_Some in Hq as [[<- <-] | [_ Hq]]; [rewrite Hr |]; by apply H1.
  - intros q Hq. apply lookup_insert_is_Some'. right. by apply H2.
  - intros q c Hq. rewrite lookup_insert_is_Some'.
    apply lookup_insert_Some in Hq as [[<- <-] | [_ Hq]]; [rewrite Hn; destruct (H3 _ _ Hp) |
      destruct (H3 _ _ Hq)]; tauto.
  - rewrite lookup_insert_ne; [done |]. intros ->. congruence.
Qed.

(** Giving up a reference that is not the last. *)
Lemma refs_drop own st p b :
  refs_ok (p :: own) st -> st !! p = Some b -> ref b <> 1 -> refs_ok own (<[p := set_ref b (ref b - 1)]> st).
Proof.
  intros [H1 H2 H3 H4] Hp Hr. split.
  - intros q c Hq. rewrite (indeg_same _ _ b) by done.
    apply lookup_insert_Some in Hq as [[<- <-] | [Hne Hq]].
    + pose proof (H1 _ _ Hp) as E. rewrite cnt_cons, decide_True in E by done. cbn. lia.
    + pose proof (H1 _ _ Hq) as E. by rewrite cnt_cons, decide_False in E.
  - intros q Hq. apply lookup_insert_is_Some'. right. apply H2, elem_of_cons. by right.
  - intros q c Hq. rewrite lookup_insert_is_Some'.
    apply lookup_insert_Some in Hq as [[<- <-] | [_ Hq]]; [destruct (H3 _ _ Hp) | destruct (H3 _ _ Hq)]; tauto.
  - rewrite lookup_insert_ne; [done |]. intros ->. congruence.
Qed.

(** The owners of what a released pbuf linked to: the release goes on there. *)
Definition inherit (q : Z) (own : list Z) : list Z := if decide (q = 0) then own else q :: own.

(** Giving up the last reference. *)
Lemma refs_dealloc own st p b :
  refs_ok (p :: own) st -> st !! p = Some b -> ref b = 1 -> refs_ok (inherit (next b) own) (delete p st).
Proof.
  intros [H1 H2 H3 H4] Hp Hr. pose proof (H1 _ _ Hp) as E. rewrite cnt_cons, decide_True in E by done.
  assert (cnt p own = 0%nat /\ indeg st p = 0%nat) as [Hc Hi] by lia.
  pose proof (indeg_zero _ _ Hi) as Hlink.
  assert (forall q, q ∈ own -> p <> q) as Hown.
  { intros q Hq <-. apply cnt_pos in Hq. lia. }
  split.
  - intros q c Hq. apply lookup_delete_Some in Hq as [Hne Hq]. rewrite (indeg_delete _ _ b) by done.
    pose proof (H1 _ _ Hq) as Eq. rewrite cnt_cons, decide_False in Eq by done. unfold inherit.
    destruct (decide (next b = 0)) as [E0 | E0].
    + rewrite decide_False; [rewrite Eq; f_equal; lia |]. intros <-. congruence.
    + rewrite cnt_cons. destruct (decide (next b = q)) as [Eb | Eb]; [| rewrite Eq; f_equal; lia].
      assert (0 < indeg st q)%nat; [| lia]. destruct (indeg st q) eqn:Ez; [| lia].
      by apply (indeg_zero _ _ Ez) in Hp.
  - intros q Hq. unfold inherit in Hq. destruct (decide (next b = 0)) as [E0 | E0].
    + rewrite lookup_delete_ne by (by apply Hown). apply H2, elem_of_cons. by right.
    + apply elem_of_cons in Hq as [-> | Hq].
      * rewrite lookup_delete_ne by (intros Hx; by apply (Hlink _ _ Hp)). by destruct (H3 _ _ Hp).
      * rewrite lookup_delete_ne by (by apply Hown). apply H2, elem_of_cons. by right.
  - intros q c Hq. apply lookup_delete_Some in Hq as [Hne Hq].
    rewrite lookup_delete_ne by (intros Hx; by apply (Hlink _ _ Hq)). by apply H3 in Hq.
  - by rewrite lookup_delete_ne by (intros ->; congruence).
Qed.

(** Taking a reference. *)
Lemma refs_take own st p b :
  refs_ok own st -> st !! p = Some b -> refs_ok (p :: own) (<[p := set_ref b (ref b + 1)]> st).
Proof.
  intros [H1 H2 H3 H4] Hp. split.
  - intros q c Hq. rewrite (indeg_same _ _ b) by done. rewrite cnt_cons.
    apply lookup_insert_Some in Hq as [[<- <-] | [Hne Hq]].
    + rewrite decide_True by done. cbn. rewrite (H1 _ _ Hp). lia.
    + rewrite decide_False by done. by apply H1.
  - intros q Hq. apply lookup_insert_is_Some'. apply elem_of_cons in Hq as [-> | Hq]; [by left | right].
    by apply H2.
  - intros q c Hq. rewrite lookup_insert_is_Some'.
    apply lookup_insert_Some in Hq as [[<- <-] | [_ Hq]]; [destruct (H3 _ _ Hp) | destruct (H3 _ _ Hq)]; tauto.
  - rewrite lookup_insert_ne; [done |]. intros ->. congruence.
Qed.

(** A pbuf without owners that is not live has no references: links to NULL do
    not count. *)
Lemma cnt_dead own st p :
  refs_ok own st -> st !! p = None -> p <> 0 -> cnt p own = 0%nat /\ indeg st p = 0%nat.
Proof.
  intros [_ H2 H3 _] Hp Hp0. split.
  - destruct (cnt p own) eqn:E; [done |]. assert (p ∈ own) as Hin by (apply cnt_pos; lia).
    apply H2 in Hin as [c Hc]. congruence.
  - destruct (indeg st p) eqn:E; [done | exfalso]. unfold indeg in E.
    destruct (map_choose (filter (fun x : Z * pbuf => next x.2 = p) st)) as (a & c & Hc).
    { intros Hx. rewrite Hx in E. by rewrite map_size_empty in E. }
    apply map_lookup_filter_Some in Hc as [Hc Hnx]. cbn in Hnx. subst p.
    destruct (H3 _ _ Hc) as [E0 | [d Hd]]; congruence.
Qed.

(** A new pbuf belongs to its creator; its link takes over a reference the
    creator had. *)
Lemma refs_new own st p b :
  refs_ok (inherit (next b) own) st -> st !! p = None -> p <> 0 -> ref b = 1 ->
  refs_ok (p :: own) (<[p := b]> st).
Proof.
  intros Hok Hp Hp0 Hr. destruct (cnt_dead _ _ _ Hok Hp Hp0) as [Hc0 Hi0]. destruct Hok as [H1 H2 H3 H4].
  unfold inherit in *. split.
  - intros q c Hq. rewrite cnt_cons, indeg_new by done.
    apply lookup_insert_Some in Hq as [[<- <-] | [Hne Hq]].
    + rewrite decide_True, Hi0 by done. destruct (decide (next b = 0)) as [E | E].
      * rewrite Hc0, decide_False by congruence. lia.
      * rewrite cnt_cons in Hc0. destruct (decide (next b = p)); lia.
    + rewrite decide_False, (H1 _ _ Hq) by done. destruct (decide (next b = 0)) as [E | E].
      * rewrite decide_False by (intros E'; rewrite E in E'; congruence). lia.
      * rewrite cnt_cons. lia.
  - intros q Hq. apply lookup_insert_is_Some'. apply elem_of_cons in Hq as [-> | Hq]; [by left | right].
    apply H2. destruct (decide (next b = 0)); [done |]. apply elem_of_cons. by right.
  - intros q c Hq. rewrite lookup_insert_is_Some'.
    apply lookup_insert_Some in Hq as [[<- <-] | [_ Hq]]; [| destruct (H3 _ _ Hq); tauto].
    destruct (decide (next b = 0)) as [E | E]; [by left |]. right. right.
    apply H2, elem_of_cons. by left.
  - by rewrite lookup_insert_ne.
Qed.

(** A chain of new pbufs, each referenced once, belongs to the creator by its
    head. *)
Lemma refs_chain own (st st' : pstore) p l :
  refs_ok own st -> chain st' p l -> Forall (fun x => ref x.2 = 1) l ->
  (forall a, a ∈ l.*1 -> st !! a = None) -> (forall a, a ∉ l.*1 -> st' !! a = st !! a) ->
  refs_ok (inherit p own) st'.
Proof.
  intros Hok. revert st' p. induction l as [| [p0 b] l IH]; intros st' p Hc Hr Hnew Hold.
  - inversion Hc; subst. assert (st' = st) as ->; [| done]. apply map_eq. intros a. apply Hold.
    by intros ?%elem_of_nil.
  - pose proof (chain_NoDup _ _ _ Hc) as Hnd. inversion Hc as [| ? ? ? Hp Hb Hcn]; subst.
    cbn in Hnd. inversion Hnd as [| ? ? Hni _]; subst. inversion Hr as [| ? ? Hr1 Hr2]; subst.
    unfold inherit at 1. rewrite decide_False by done.
    rewrite <- (insert_delete_id st' p0 b Hb). apply refs_new; [| by rewrite lookup_delete_eq | done | done].
    apply IH; [by apply chain_delete_ne | done | |].
    + intros a Ha. apply Hnew. cbn. apply elem_of_cons. by right.
    + intros a Ha. destruct (decide (a = p0)) as [-> | Hne].
      * rewrite lookup_delete_eq. symmetry. apply Hnew. cbn. apply elem_of_cons. by left.
      * rewrite lookup_delete_ne by done. apply Hold. cbn. rewrite elem_of_cons. tauto.
Qed.

(** ** Releasing an owned pbuf *)

(** Pbufs disappear or keep everything but their count. *)
Definition kept (st st' : pstore) : Prop :=
  forall q b', st' !! q = Some b' -> exists b, st !! q = Some b /\ b' = set_ref b (ref b').

Lemma kept_refl st : kept st st.
Proof. intros q b Hb. exists b. split; [done | by destruct b]. Qed.

Lemma kept_trans st1 st2 st3 : kept st1 st2 -> kept st2 st3 -> kept st1 st3.
Proof.
  intros H1 H2 q b3 Hb3. destruct (H2 q b3 Hb3) as (b2 & Hb2 & E2). destruct (H1 q b2 Hb2) as (b1 & Hb1 & E1).
  exists b1. split; [done |]. rewrite E2, E1. done.
Qed.

Lemma kept_ref st p b r : st !! p = Some b -> kept st (<[p := set_ref b r]> st).
Proof.
  intros Hp q c Hq. apply lookup_insert_Some in Hq as [[<- <-] | [_ Hq]]; [by exists b | by apply kept_refl].
Qed.

Lemma kept_delete st p : kept st (delete p st).
Proof. intros q c Hq. apply lookup_delete_Some in Hq as [_ Hq]. by apply kept_refl. Qed.

(** Links disappear, too. *)
Lemma indeg_kept st st' p : kept st st' -> (indeg st' p <= indeg st p)%nat.
Proof.
  intros Hk. unfold indeg. rewrite <- !size_dom. apply subseteq_size. intros a.
  rewrite !elem_of_dom. intros [b' Hb']. apply map_lookup_filter_Some in Hb' as [Hb' Hn].
  destruct (Hk _ _ Hb') as (b & Hb & E). exists b. apply map_lookup_filter_Some. split; [done |].
  cbn in Hn |- *. by rewrite E in Hn.
Qed.

(** The packet of an owner survives the releases of others. *)
Lemma kept_chain own st st' p l :
  chain st p l -> refs_ok own st' -> kept st st' -> p = 0 \/ is_Some (st' !! p) ->
  exists l', chain st' p l' /\ Forall2 (fun x x' => x'.1 = x.1 /\ x'.2 = set_ref x.2 (ref x'.2)) l l'.
Proof.
  intros Hc Hr Hk. induction Hc as [| p b l Hp Hb Hc IH]; intros Hl.
  - exists []. split; constructor.
  - destruct Hl as [-> | [b' Hb']]; [done |]. destruct (Hk _ _ Hb') as (b0 & Hb0 & E). simplify_eq.
    destruct IH as (l' & Hc' & HF).
    { destruct (rf_next _ _ Hr _ _ Hb') as [H0 | H0]; rewrite E in H0; [by left | by right]. }
    exists ((p, b') :: l'). split; [| by constructor].
    constructor; [done | done |]. rewrite E. exact Hc'.
Qed.

Section free.
Context {W : Type} `{LW : MemSystemLaws W}.
Context (custom_free : pstate W -> Z -> option (pstate W)).

Implicit Types (s : pstate W) (L : regions).

(** What a release leaves behind: nothing but pbufs of the store is given back,
    and the live bytes are untouched. *)
Record released s L own s' L' : Prop := {
  rl_sys : psys s' L';
  rl_refs : refs_ok own (pst s');
  rl_kept : kept (pst s) (pst s');
  rl_sub : L' ⊆ L;
  rl_other : forall a, pst s !! a = None -> L' !! a = L !! a;
  rl_gone : forall a, is_Some (pst s !! a) -> pst s' !! a = None -> L' !! a = None;
  rl_mem : preserves (mem_of s) (mem_of s') L'
}.

Lemma free_owned_loop fuel s L own p c :
  psys s L -> refs_ok (inherit p own) (pst s) -> (S (size (pst s)) < fuel)%nat ->
  exists s' n L', while fuel (free_body custom_free) (s, p, c) = Some (Some (s', n)) /\
    released s L own s' L'.
Proof.
  revert s L own p c. induction fuel as [| fuel IH]; intros s L own p c Hs Hr Hf; [lia |].
  rewrite while_S. unfold free_body at 1. unfold inherit in Hr.
  destruct (decide (p = 0)) as [-> | Hp].
  { cbn [Z.eqb]. exists s, c, L. split; [done |]. split; try done; [apply kept_refl |]. by intros a [d ->]. }
  rewrite (proj2 (Z.eqb_neq p 0)) by done.
  assert (p ∈ p :: own) as Hin by (apply elem_of_cons; by left).
  destruct (rf_own _ _ Hr p Hin) as [b Hb]. rewrite Hb.
  destruct (ps_pbuf _ _ Hs p b Hb) as (Hcu & Hrf & Hlen & Hk & n & Hn & H16 & Hty).
  rewrite u16_id by lia. destruct (Z.eqb_spec (ref b - 1) 0) as [Hr1 | Hr1].
  - destruct (dealloc_spec custom_free s L p (set_ref b (ref b - 1)) b Hs Hb eq_refl eq_refl)
      as (w & -> & Hs' & Hpr).
    assert (size (delete p (pst s)) = pred (size (pst s))) as Hsz by (by rewrite map_size_delete, Hb).
    assert (0 < size (pst s))%nat as Hpos.
    { destruct (size (pst s)) eqn:E; [| lia]. apply map_size_empty_inv in E. by rewrite E in Hb. }
    destruct (IH (set_pst (set_pw s w) (delete p (pst s))) (delete p L) own (next b) (u8 (c + 1)) Hs')
      as (s' & n' & L' & Hw & [R1 R2 R3 R4 R5 R7 R6]).
    { apply (refs_dealloc own (pst s) p b); [done | done | lia]. }
    { cbn. rewrite Hsz. lia. }
    exists s', n', L'. split; [exact Hw |]. split; [done | done | | | | |].
    + eapply kept_trans; [apply kept_delete | exact R3].
    + etrans; [exact R4 | apply delete_subseteq].
    + intros a Ha. rewrite R5 by (cbn; by rewrite lookup_delete_None; right).
      rewrite lookup_delete_ne; [done |]. intros ->. congruence.
    + intros a Ha Hn'. destruct (decide (a = p)) as [-> | Hne].
      * eapply lookup_weaken_None; [| exact R4]. apply lookup_delete_eq.
      * apply R7; [cbn; by rewrite lookup_delete_ne | done].
    + intros x Hx. rewrite R6 by done. cbn. apply Hpr.
      destruct Hx as (q & k & Hq & Hx). exists q, k. split; [by eapply lookup_weaken | done].
  - destruct fuel as [| fuel]; [lia |]. rewrite while_S. cbn [free_body Z.eqb].
    eexists _, _, L. split; [reflexivity |]. split; cbn.
    + apply psys_update; [done |]. split; [done |]. split; [cbn; lia |]. split; [done |]. split; [done |]. by exists n.
    + apply refs_drop; [done | done | lia].
    + by apply kept_ref.
    + done.
    + done.
    + intros a [d Hd] Hn'. rewrite lookup_insert_None in Hn'. by destruct Hn'; simplify_eq.
    + apply preserves_refl.
Qed.

(** An owner's [pbuf_free] returns; everything other owners can reach is as
    before. *)
Lemma pbuf_free_owned s L own p :
  psys s L -> refs_ok (p :: own) (pst s) ->
  exists s' n L', pbuf_free custom_free s p = Some (s', n) /\ released s L own s' L'.
Proof.
  intros Hs Hr. assert (p <> 0) as Hp.
  { intros ->. assert (0 ∈ 0 :: own) as Hin by (apply elem_of_cons; by left).
    apply (rf_own _ _ Hr) in Hin. rewrite (rf_null _ _ Hr) in Hin. by destruct Hin. }
  unfold pbuf_free. rewrite (proj2 (Z.eqb_neq p 0)) by done.
  destruct (free_owned_loop (S (S (size (pst s)))) s L own p 0 Hs) as (s' & n & L' & Hw & Hrel);
    [unfold inherit; by rewrite decide_False | lia |].
  exists s', n, L'. by rewrite Hw.
Qed.

Lemma released_trans s L own s1 L1 own1 s2 L2 :
  released s L own1 s1 L1 -> released s1 L1 own s2 L2 -> released s L own s2 L2.
Proof.
  intros [_ _ K1 S1 O1 G1 M1] [P R K2 S2 O2 G2 M2].
  split; [done | done | by eapply kept_trans | by etrans | | |].
  - intros a Ha. rewrite O2, O1; [done | done |]. destruct (pst s1 !! a) as [b |] eqn:E; [| done].
    destruct (K1 _ _ E) as (b0 & ? & _). congruence.
  - intros a Ha Hn. destruct (pst s1 !! a) as [b |] eqn:E; [by apply G2 |].
    eapply lookup_weaken_None; [by apply G1 | done].
  - intros x Hx. rewrite M2 by done. apply M1. destruct Hx as (q & k & Hq & Hx). exists q, k.
    split; [by eapply lookup_weaken | done].
Qed.

End free.

(** ** Allocation, references and release over histories *)

Section history.
Context {W : Type} `{LW : MemSystemLaws W}.
Context (stale : Z -> Z) (custom_free : pstate W -> Z -> option (pstate W)).
Context (stale_ok : forall p, Z.land (stale p) PBUF_FLAG_IS_CUSTOM = 0).

Implicit Types (s : pstate W) (L : regions).

(** What the users of pbufs did since the regions [L0] were live and no pbuf
    existed; [own] are the references they hold. *)
Inductive phistory (L0 : regions) : pstate W -> list Z -> Prop :=
| ph_start s : psys s L0 -> pst s = ∅ -> phistory L0 s []
| ph_alloc s own layer n ty s' p :
    phistory L0 s own -> 0 <= n < 65536 -> (ty = PBUF_RAM -> ram_length_ok n) ->
    pbuf_alloc stale custom_free s layer n ty = Some (s', p) -> phistory L0 s' (inherit p own)
| ph_ref s own p b s' :
    phistory L0 s own -> p ∈ own -> pst s !! p = Some b -> ref b < 65535 -> pbuf_ref s p = Some s' ->
    phistory L0 s' (p :: own)
| ph_free s own own' p s' n :
    phistory L0 s own -> own ≡ₚ p :: own' -> pbuf_free custom_free s p = Some (s', n) ->
    phistory L0 s' own'.

(** Every live pbuf starts a finite chain. *)
Definition finite_chains (st : pstore) : Prop := forall p, is_Some (st !! p) -> exists l, chain st p l.

Record tracked L0 s own : Prop := {
  tr_sys : exists L, psys s L /\ (forall a, pst s !! a = None -> L !! a = L0 !! a);
  tr_fresh : forall a, is_Some (pst s !! a) -> L0 !! a = None;
  tr_refs : refs_ok own (pst s);
  tr_chains : finite_chains (pst s)
}.

Lemma tracked_alloc L0 s own layer n ty s' p :
  tracked L0 s own -> 0 <= n < 65536 -> (ty = PBUF_RAM -> ram_length_ok n) ->
  pbuf_alloc stale custom_free s layer n ty = Some (s', p) -> tracked L0 s' (inherit p own).
Proof.
  intros [(L & Hs & HL) Hf Hr Hc] Hn Hram E.
  destruct (pbuf_alloc_spec stale custom_free stale_ok s L layer n ty Hs Hn Hram)
    as (s1 & p1 & E1 & Hres). rewrite E in E1. injection E1 as <- <-.
  destruct Hres as [(-> & Est & Hs' & _) | (Hp & L' & l & [Ac _ _ Af An Ao As _ _ _])].
  { split; rewrite ?Est; [| done | done | done]. by exists L. }
  assert (forall a, is_Some (pst s !! a) -> a ∉ l.*1) as Hold.
  { intros a [c Hb] Hin. apply An in Hin as [Hin _]. congruence. }
  split.
  - exists L'. split; [done |]. intros a Ha. destruct (decide (a ∈ l.*1)) as [Hin | Hin].
    + apply list_elem_of_fmap in Hin as ([a' b] & -> & Hin).
      apply (chain_lookup _ _ _ _ _ Ac) in Hin as [Hin _]. cbn in Ha. congruence.
    + destruct (Ao a Hin) as [E1 ->]. apply HL. by rewrite <- E1.
  - intros a Ha. destruct (decide (a ∈ l.*1)) as [Hin | Hin].
    + destruct (An a Hin) as [E1 E2]. by rewrite <- HL.
    + apply Hf. by rewrite <- (proj1 (Ao a Hin)).
  - apply (refs_chain own (pst s) (pst s') p l); [done | done | | by apply An | by apply Ao].
    eapply Forall_impl; [done |]. by intros x [? _].
  - intros a Ha. destruct (decide (a ∈ l.*1)) as [Hin | Hin].
    + destruct (chain_suffix _ _ _ _ Ac Hin) as (l' & Hl' & _). by exists l'.
    + rewrite (proj1 (Ao a Hin)) in Ha. destruct (Hc a Ha) as (la & Hla). exists la.
      apply (chain_ext (pst s)); [done |]. intros x Hx. apply Ao, Hold.
      apply list_elem_of_fmap in Hx as ([x' b] & -> & Hx).
      apply (chain_lookup _ _ _ _ _ Hla) in Hx as [Hx _]. by exists b.
Qed.

Lemma tracked_ref L0 s own p b s' :
  tracked L0 s own -> pst s !! p = Some b -> ref b < 65535 -> pbuf_ref s p = Some s' ->
  tracked L0 s' (p :: own).
Proof.
  intros [(L & Hs & HL) Hf Hr Hc] Hb Hlt E. unfold pbuf_ref in E.
  destruct (Z.eqb_spec p 0) as [-> | Hp]; [by rewrite (rf_null _ _ Hr) in Hb |]. cbn [negb] in E.
  unfold update in E. rewrite Hb in E. cbn in E. injection E as <-.
  destruct (ps_pbuf _ _ Hs p b Hb) as (Hcu & Hrf & Hlen & Hk & Hn). rewrite u16_id by lia. split.
  - exists L. split; [apply psys_update; [done |]; split; [done |]; split; [cbn; lia | done] |].
    cbn. intros a Ha. apply HL. apply lookup_insert_None in Ha. by destruct Ha.
  - cbn. intros a [c Hx]. apply Hf. apply lookup_insert_Some in Hx as [[<- _] | [_ Hx]]; by eexists.
  - by apply refs_take.
  - cbn. intros a [c Hx]. assert (is_Some (pst s !! a)) as Ha
      by (apply lookup_insert_Some in Hx as [[<- _] | [_ Hx]]; by eexists).
    destruct (Hc a Ha) as (l & Hl).
    destruct (kept_chain (p :: own) (pst s) (<[p := set_ref b (ref b + 1)]> (pst s)) a l Hl) as (l' & Hl' & _);
      [by apply refs_take | by apply kept_ref | right; by exists c |]. by exists l'.
Qed.

Lemma tracked_free L0 s own p s' n :
  tracked L0 s (p :: own) -> pbuf_free custom_free s p = Some (s', n) -> tracked L0 s' own.
Proof.
  intros [(L & Hs & HL) Hf Hr Hc] E.
  destruct (pbuf_free_owned custom_free s L own p Hs Hr) as (s1 & n1 & L' & E1 & [R1 R2 R3 R4 R5 R7 R6]).
  rewrite E in E1. injection E1 as <- <-.
  assert (forall a, is_Some (pst s' !! a) -> is_Some (pst s !! a)) as Hsub.
  { intros a [c Hx]. destruct (R3 _ _ Hx) as (c0 & ? & _). by exists c0. }
  split.
  - exists L'. split; [done |]. intros a Ha. destruct (pst s !! a) as [c |] eqn:Ec.
    + rewrite R7 by (done || by eexists). symmetry. apply Hf. by exists c.
    + rewrite R5 by done. by apply HL.
  - intros a Ha. by apply Hf, Hsub.
  - done.
  - intros a Ha. destruct (Hc a (Hsub a Ha)) as (l & Hl).
    destruct (kept_chain own _ _ _ _ Hl R2 R3) as (l' & Hl' & _); [by right |]. by exists l'.
Qed.

Lemma tracked_perm L0 s own own' : own ≡ₚ own' -> tracked L0 s own -> tracked L0 s own'.
Proof. intros Hp [H1 H2 H3 H4]. split; [done | done | by rewrite <- Hp | done]. Qed.

Lemma phistory_tracked L0 s own : phistory L0 s own -> tracked L0 s own.
Proof.
  induction 1 as [s Hs E | s own layer n ty s' p _ IH Hn Hram E | s own p b s' _ IH Hin Hb Hlt E
    | s own own' p s' n _ IH Hp E].
  - split; rewrite ?E.
    + by exists L0.
    + intros a [c Hc]. by rewrite lookup_empty in Hc.
    + split; [done | by intros p ?%elem_of_nil | done | done].
    + intros p [c Hc]. by rewrite lookup_empty in Hc.
  - by eapply tracked_alloc.
  - by eapply tracked_ref.
  - eapply tracked_free; [by eapply tracked_perm | done].
Qed.

(** Without owners a live pbuf would have ever longer chains in front of it. *)
Lemma no_owner_empty st : refs_ok [] st -> (forall p b, st !! p = Some b -> 1 <= ref b) ->
  finite_chains st -> st = ∅.
Proof.
  intros Hr Href Hc. apply map_empty. intros p. destruct (st !! p) as [b |] eqn:Hb; [exfalso | done].
  assert (forall n : nat, exists q l, chain st q l /\ (n <= length l)%nat /\ is_Some (st !! q)) as Hlong.
  { induction n as [| n (q & l & Hl & Hn & c & Hq)].
    - destruct (Hc p) as (l & Hl); [by eexists |]. exists p, l. split; [done |]. split; [lia | by eexists].
    - pose proof (rf_count _ _ Hr q c Hq) as E. pose proof (Href q c Hq) as H1. unfold cnt in E. cbn in E.
      destruct (map_choose (filter (fun x : Z * pbuf => next x.2 = q) st)) as (a & d & Hd).
      { intros Hx. unfold indeg in E. rewrite Hx, map_size_empty in E. lia. }
      apply map_lookup_filter_Some in Hd as [Hd Hnx]. cbn in Hnx.
      exists a, ((a, d) :: l). split; [| split; [cbn; lia | by eexists]].
      constructor; [| done | by rewrite Hnx]. intros ->. by rewrite (rf_null _ _ Hr) in Hd. }
  destruct (Hlong (S (size st))) as (q & l & Hl & Hn & _). pose proof (chain_length_size _ _ _ Hl). lia.
Qed.

(** C7: reference counting is sound over histories of [pbuf_alloc] (with lengths below
    65536, at most 65460 for PBUF_RAM), of [pbuf_ref] on a held reference to a pbuf whose
    16-bit count is below 65535, and of [pbuf_free] of references that are held, from a
    state with no pbufs, when memory from the pool never happens to hold the flag of
    custom pbufs: each reference held leads to a live finite chain, the count of every
    live pbuf is the number of references held plus the links to it, releasing
    any held reference succeeds, and when the last reference is released no pbuf
    is left and the memory that is live is what was live at the start. *)
Theorem pbuf_references_sound L0 s own :
  phistory L0 s own ->
  (forall p, p ∈ own -> p <> 0 /\ exists l, chain (pst s) p l /\ l <> []) /\
  (forall p b, pst s !! p = Some b -> ref b = Z.of_nat (cnt p own + indeg (pst s) p)) /\
  (forall p, p ∈ own -> exists s' n, pbuf_free custom_free s p = Some (s', n)) /\
  (own = [] -> pst s = ∅ /\ psys s L0).
Proof.
  intros Hh. pose proof (phistory_tracked _ _ _ Hh) as [(L & Hs & HL) _ Hr Hc]. split; [| split; [| split]].
  - intros p Hp. destruct (rf_own _ _ Hr p Hp) as [b Hb]. assert (p <> 0) as Hp0.
    { intros ->. by rewrite (rf_null _ _ Hr) in Hb. }
    split; [done |]. destruct (Hc p) as (l & Hl); [by eexists |]. exists l. split; [done |].
    intros ->. by inversion Hl.
  - apply Hr.
  - intros p Hp. apply elem_of_Permutation in Hp as (own' & Hp). rewrite Hp in Hr.
    destruct (pbuf_free_owned custom_free s L own' p Hs Hr) as (s' & n & L' & E & _). by exists s', n.
  - intros ->. assert (pst s = ∅) as E0.
    { apply no_owner_empty; [done | | done]. intros p b Hb. apply (ps_pbuf _ _ Hs) in Hb as (_ & ? & _). lia. }
    split; [done |]. assert (L = L0) as <-; [| done]. apply map_eq. intros a. apply HL. by rewrite E0.
Qed.

End history.

#[local] Existing Instance World.world_system.
#[local] Existing Instance World.sample_laws.

Lemma sample_packet_history : phistory no_stale no_custom ∅ sample_packet [19880].
Proof.
  assert (snd <$> pbuf_alloc no_stale no_custom sample_empty PBUF_RAW 2000 PBUF_POOL = Some 19880) as Hp
    by (vm_compute; reflexivity).
  assert (fst <$> pbuf_alloc no_stale no_custom sample_empty PBUF_RAW 2000 PBUF_POOL = Some sample_packet) as Hs.
  { unfold sample_packet, sample_alloc.
    destruct (pbuf_alloc no_stale no_custom sample_empty PBUF_RAW 2000 PBUF_POOL) as [[s p] |]; done. }
  destruct (pbuf_alloc no_stale no_custom sample_empty PBUF_RAW 2000 PBUF_POOL) as [[s p] |] eqn:E; [| done].
  cbn in Hp, Hs. injection Hp as ->. injection Hs as ->.
  apply (ph_alloc _ _ ∅ sample_empty [] PBUF_RAW 2000 PBUF_POOL sample_packet 19880); [| lia | done | exact E].
  apply ph_start; [exact sample_empty_ok | done].
Qed.

(** A packet is referenced twice and released twice. *)
Lemma pbuf_references_sound_witness :
  exists s1 s2 s3 n2 n3, pbuf_ref sample_packet 19880 = Some s1 /\
    pbuf_free no_custom s1 19880 = Some (s2, n2) /\ pbuf_free no_custom s2 19880 = Some (s3, n3) /\
    is_Some (pst s2 !! 18164) /\ pst s3 = ∅.
Proof.
  pose proof sample_packet_history as H0.
  destruct (pbuf_ref sample_packet 19880) as [s1 |] eqn:E1; [| exfalso; by vm_compute in E1].
  assert (pst sample_packet !! 19880 = Some (mkPbuf 18164 19896 2000 1700 PBUF_POOL 0 1)) as Hb
    by (vm_compute; reflexivity).
  pose proof (ph_ref _ _ _ _ _ _ _ _ H0 ltac:(apply elem_of_cons; by left) Hb ltac:(cbn; lia) E1) as H1.
  destruct (pbuf_references_sound no_stale no_custom (fun _ => eq_refl) ∅ s1 [19880; 19880] H1)
    as (_ & _ & Hf1 & _).
  destruct (Hf1 19880 ltac:(apply elem_of_cons; by left)) as (s2 & n2 & E2).
  pose proof (ph_free _ _ _ _ _ _ _ _ _ H1 (reflexivity _) E2) as H2.
  destruct (pbuf_references_sound no_stale no_custom (fun _ => eq_refl) ∅ s2 [19880] H2)
    as (Hl2 & _ & Hf2 & _).
  destruct (Hf2 19880 ltac:(apply elem_of_cons; by left)) as (s3 & n3 & E3).
  pose proof (ph_free _ _ _ _ _ _ _ _ _ H2 (reflexivity _) E3) as H3.
  destruct (pbuf_references_sound no_stale no_custom (fun _ => eq_refl) ∅ s3 [] H3) as (_ & _ & _ & Hend).
  exists s1, s2, s3, n2, n3. split; [reflexivity |]. split; [exact E2 |]. split; [exact E3 |]. split; [| by apply Hend].
  assert (is_Some (pst (default sample_packet (fst <$> (s ← pbuf_ref sample_packet 19880; pbuf_free no_custom s 19880)))
    !! 18164)) as Hx by (vm_compute; by eexists).
  rewrite E1 in Hx. cbn [mbind option_bind] in Hx. rewrite E2 in Hx. exact Hx.
Defined.

End PbufRefs.
