(* ===== verification/Stats.v ===== *)
(** The statistics of the protocols: src/include/lwip/stats.h of lwIP 1.4.1
    (LWIP_STATS 1, 16-bit counters). *)

From stdpp Require Import base tactics numbers.
From Stdlib Require Import ZArith.
From S2P Require Import Prelude.

Local Open Scope Z_scope.

(** The counters of a protocol; a [STAT_COUNTER] has 16 bits. *)
Record stats_proto := mkStatsProto {
  sp_xmit : Z; sp_recv : Z; sp_fw : Z; sp_drop : Z; sp_chkerr : Z; sp_lenerr : Z; sp_memerr : Z; sp_rterr : Z;
  sp_proterr : Z; sp_opterr : Z; sp_err : Z; sp_cachehit : Z }.

Inductive counter :=
  c_xmit | c_recv | c_fw | c_drop | c_chkerr | c_lenerr | c_memerr | c_rterr | c_proterr | c_opterr | c_err | c_cachehit.

#[export] Instance counter_eq_dec : EqDecision counter.
Proof. solve_decision. Defined.

Definition STATS_INC (c : counter) (s : stats_proto) : stats_proto :=
  let inc k v := if decide (c = k) then u16 (v + 1) else v in
  mkStatsProto (inc c_xmit (sp_xmit s)) (inc c_recv (sp_recv s)) (inc c_fw (sp_fw s)) (inc c_drop (sp_drop s))
    (inc c_chkerr (sp_chkerr s)) (inc c_lenerr (sp_lenerr s)) (inc c_memerr (sp_memerr s)) (inc c_rterr (sp_rterr s))
    (inc c_proterr (sp_proterr s)) (inc c_opterr (sp_opterr s)) (inc c_err (sp_err s)) (inc c_cachehit (sp_cachehit s)).
