(* ===== verification/Linked.v ===== *)
(** Linked lists of structures: the lists of UDP, TCP and raw control blocks and of
    TCP segments.  The structures are the entries of a finite map from addresses
    to records; [nxt] is the field that links them.

    [linked m p l]: the list that starts at the pointer [p] has the addresses and
    records [l].  [for_list] is C's loop over such a list. *)

From stdpp Require Import base tactics numbers list gmap.
From Stdlib Require Import ZArith Lia.
From S2P Require Import Prelude.

Local Open Scope Z_scope.

Module Linked.

Section linked.
Context {A : Type} (nxt : A -> Z).
Implicit Types (m : gmap Z A) (l : list (Z * A)).

Inductive linked m : Z -> list (Z * A) -> Prop :=
| linked_nil : linked m 0 []
| linked_cons p a l : p <> 0 -> m !! p = Some a -> linked m (nxt a) l -> linked m p ((p, a) :: l).

(** ** Loops over a list *)

(** [for (p = head; p != NULL; p = p->nxt)]: [step] is the body, which goes on or
    leaves the loop with a result; [fin] is the result at the end of the list. *)
Definition for_body {X R : Type} m (step : X -> Z -> A -> X + R) (fin : X -> R) (y : X * Z) : (X * Z) + option R :=
  let '(x, p) := y in
  if p =? 0 then inr (Some (fin x))
  else
    match m !! p with
    | None => inr None
    | Some a => match step x p a with inl x => inl (x, nxt a) | inr r => inr (Some r) end
    end.

Definition for_list {X R : Type} m (step : X -> Z -> A -> X + R) (fin : X -> R) (x : X) (head : Z) : option R :=
  mjoin (while (S (size m)) (for_body m step fin) (x, head)).

(** The same over the list of the structures. *)
Fixpoint fold_until {X R : Type} (step : X -> Z -> A -> X + R) (fin : X -> R) (x : X) l : R :=
  match l with
  | [] => fin x
  | (p, a) :: l => match step x p a with inl x => fold_until step fin x l | inr r => r end
  end.

(** ** Facts *)

Lemma linked_inv m p l :
  linked m p l ->
  (p = 0 /\ l = []) \/ (p <> 0 /\ exists a l', l = (p, a) :: l' /\ m !! p = Some a /\ linked m (nxt a) l').
Proof. destruct 1; [by left | right; split; [done |]; eauto]. Qed.

Lemma linked_det m p l1 l2 : linked m p l1 -> linked m p l2 -> l1 = l2.
Proof.
  intros H. revert l2. induction H as [| p a l Hp Ha H IH]; intros l2 H2.
  - by apply linked_inv in H2 as [[_ ?] | [? _]].
  - apply linked_inv in H2 as [[? _] | (_ & a' & l' & -> & Ha' & H')]; [done |].
    rewrite Ha in Ha'. injection Ha' as <-. f_equal. by apply IH.
Qed.

Lemma linked_lookup m p l q a : linked m p l -> (q, a) ∈ l -> m !! q = Some a /\ q <> 0.
Proof.
  induction 1 as [| p b l Hp Hb H IH]; intros Hin; [by apply not_elem_of_nil in Hin |].
  apply elem_of_cons in Hin as [[= -> ->] | Hin]; [done | by apply IH].
Qed.

Lemma linked_elem m p l q a : linked m p l -> q ∈ l.*1 -> m !! q = Some a -> (q, a) ∈ l.
Proof.
  intros H ([q' a'] & -> & Hin)%list_elem_of_fmap Hq. destruct (linked_lookup _ _ _ _ _ H Hin) as [Hq' _].
  cbn in Hq. rewrite Hq in Hq'. by injection Hq' as <-.
Qed.

Lemma linked_suffix m p l1 l2 : linked m p (l1 ++ l2) -> exists q, linked m q l2.
Proof.
  revert p. induction l1 as [| [q a] l1 IH]; intros p H; [by exists p |].
  apply linked_inv in H as [[_ ?] | (_ & b & ? & [= <- -> <-] & _ & H)]; [done | by apply (IH (nxt b))].
Qed.

Lemma linked_NoDup m p l : linked m p l -> NoDup l.*1.
Proof.
  induction 1 as [| p a l Hp Ha H IH]; cbn; constructor; [| done].
  intros ([q b] & E & Hin)%list_elem_of_fmap. cbn in E. subst q.
  apply list_elem_of_split in Hin as (l1 & l2 & ->).
  destruct (linked_suffix _ _ _ _ H) as [q H']. pose proof H' as H2.
  apply linked_inv in H2 as [[_ ?] | (_ & ? & ? & [= <- <- <-] & Hb & _)]; [done |].
  assert (linked m p ((p, a) :: l1 ++ (p, b) :: l2)) as H3 by by constructor.
  pose proof (f_equal length (linked_det _ _ _ _ H' H3)) as E. cbn in E. rewrite length_app in E. cbn in E. lia.
Qed.

Lemma linked_size m p l : linked m p l -> (length l <= size m)%nat.
Proof.
  intros H. rewrite <- size_dom.
  assert (list_to_set (C := gset Z) (l.*1) ⊆ dom m) as Hsub.
  { intros q. rewrite elem_of_list_to_set. intros ([q' a] & -> & Hin)%list_elem_of_fmap.
    apply elem_of_dom. exists a. by apply (linked_lookup m p l). }
  apply subseteq_size in Hsub. rewrite size_list_to_set in Hsub by by apply (linked_NoDup m p).
  by rewrite length_fmap in Hsub.
Qed.

(** Structures outside the list do not matter. *)
Lemma linked_ext m m' p l : linked m p l -> (forall q, q ∈ l.*1 -> m' !! q = m !! q) -> linked m' p l.
Proof.
  induction 1 as [| p a l Hp Ha H IH]; intros He; [constructor |]. constructor; [done | |].
  - rewrite He; [done | cbn; apply elem_of_cons; by left].
  - apply IH. intros q Hq. apply He. cbn. apply elem_of_cons. by right.
Qed.

Lemma linked_insert_ne m p l q a : linked m p l -> q ∉ l.*1 -> linked (<[q := a]> m) p l.
Proof. intros H Hq. apply (linked_ext m); [done |]. intros x Hx. apply lookup_insert_ne. by intros ->. Qed.

Lemma linked_delete_ne m p l q : linked m p l -> q ∉ l.*1 -> linked (delete q m) p l.
Proof. intros H Hq. apply (linked_ext m); [done |]. intros x Hx. apply lookup_delete_ne. by intros ->. Qed.

(** Putting a structure in front. *)
Lemma linked_push m p l q a :
  linked m p l -> q <> 0 -> q ∉ l.*1 -> nxt a = p -> linked (<[q := a]> m) q ((q, a) :: l).
Proof.
  intros H Hq Hni <-. constructor; [done | apply lookup_insert_eq | by apply linked_insert_ne].
Qed.

(** Changing fields other than the link. *)
Definition list_set (q : Z) (a : A) l : list (Z * A) := (fun x => if decide (x.1 = q) then (q, a) else x) <$> l.

Lemma list_set_fst q a l : (list_set q a l).*1 = l.*1.
Proof.
  unfold list_set. rewrite <- list_fmap_compose. apply list_fmap_ext. intros _ [x b] _. cbn.
  by case_decide; subst.
Qed.

Lemma list_set_notin q a l : q ∉ l.*1 -> list_set q a l = l.
Proof.
  intros Hq. unfold list_set. rewrite <- (list_fmap_id l) at 2. apply list_fmap_ext. intros i [x b] Hx. cbn.
  rewrite decide_False; [done |]. intros ->. apply Hq. apply list_elem_of_fmap. exists (q, b).
  split; [done | by eapply list_elem_of_lookup_2].
Qed.

Lemma list_set_app q a l1 l2 : list_set q a (l1 ++ l2) = list_set q a l1 ++ list_set q a l2.
Proof. apply fmap_app. Qed.

Lemma list_set_here q a b l : q ∉ l.*1 -> list_set q a ((q, b) :: l) = (q, a) :: l.
Proof.
  intros Hq. unfold list_set. cbn. rewrite decide_True by done. f_equal. by apply (list_set_notin q a).
Qed.

Lemma list_set_elem q a l x b : (x, b) ∈ list_set q a l <-> (x = q /\ b = a /\ q ∈ l.*1) \/ (x <> q /\ (x, b) ∈ l).
Proof.
  unfold list_set. rewrite list_elem_of_fmap. split.
  - intros ([y c] & E & Hin). cbn in E. case_decide as Hd.
    + injection E as -> ->. left. split; [done |]. split; [done |]. subst. apply list_elem_of_fmap. by exists (q, c).
    + injection E as -> ->. by right.
  - intros [(-> & -> & Hin) | [Hne Hin]].
    + apply list_elem_of_fmap in Hin as ([y c] & E & Hin). cbn in E. subst. exists (y, c). cbn.
      by rewrite decide_True by done.
    + exists (x, b). cbn. by rewrite decide_False by done.
Qed.

Lemma linked_set m p l q a b :
  linked m p l -> m !! q = Some b -> nxt a = nxt b -> linked (<[q := a]> m) p (list_set q a l).
Proof.
  intros H Hq Hn. induction H as [| p c l Hp Hc H IH]; [constructor |]. cbn. case_decide as Hd.
  - subst q. rewrite Hc in Hq. injection Hq as <-. constructor; [done | apply lookup_insert_eq | by rewrite Hn].
  - constructor; [done | by rewrite lookup_insert_ne | done].
Qed.

(** Taking a structure out: the one before it is linked to the one behind. *)
Lemma linked_cut m p l1 r b q a l2 b' :
  linked m p (l1 ++ (r, b) :: (q, a) :: l2) -> nxt b' = nxt a ->
  linked (<[r := b']> m) p (l1 ++ (r, b') :: l2).
Proof.
  revert p. induction l1 as [| [x c] l1 IH]; intros p H Hb'; pose proof (linked_NoDup _ _ _ H) as Hnd;
    apply linked_inv in H as [[_ ?] | (Hp & ? & ? & [= -> -> <-] & Hx & H)]; try done; cbn in Hnd |- *;
    apply NoDup_cons in Hnd as [Hni Hnd].
  - constructor; [done | apply lookup_insert_eq |]. rewrite Hb'.
    apply linked_inv in H as [[_ ?] | (_ & ? & ? & [= -> -> <-] & _ & H)]; [done |].
    apply linked_insert_ne; [done |]. intros Hin. apply Hni. cbn. apply elem_of_cons. by right.
  - constructor; [done | | by apply IH]. rewrite lookup_insert_ne; [done |]. intros ->. apply Hni.
    rewrite fmap_app. apply elem_of_app. right. cbn. apply elem_of_cons. by left.
Qed.

(** The loop is the fold. *)
Lemma for_list_spec {X R : Type} m (step : X -> Z -> A -> X + R) (fin : X -> R) x p l :
  linked m p l -> for_list m step fin x p = Some (fold_until step fin x l).
Proof.
  intros H. pose proof (linked_size _ _ _ H) as Hs. unfold for_list.
  assert (forall fuel, (length l < fuel)%nat ->
    while fuel (for_body m step fin) (x, p) = Some (Some (fold_until step fin x l))) as Hw.
  { clear Hs. revert x. induction H as [| p a l Hp Ha H IH]; intros x [| fuel] Hf; cbn in Hf |- *; try lia; [done |].
    rewrite (proj2 (Z.eqb_neq p 0)) by done. rewrite Ha. destruct (step x p a) as [x' | r]; [| done].
    apply IH. lia. }
  rewrite Hw by lia. done.
Qed.

End linked.

Arguments linked {A} nxt m _ _.
Arguments for_list {A} nxt {X R} m step fin x head.

#[export] Hint Constructors linked : fw.

End Linked.
