(* ===== verification/Etharp.v ===== *)
(** Address resolution: src/netif/etharp.c of lwIP 1.4.1, with the types of
    src/include/netif/etharp.h.

    The state has the packet buffers, [arp_table], the queue entries that are
    allocated, the index of the entry used last ([etharp_cached_entry]), the
    statistics of the ARP and link modules, and the device.  Configuration:
    ARP_TABLE_SIZE 10, ARP_QUEUEING 1, LWIP_DEBUG defined, no static entries, no
    VLAN, no AutoIP, no DHCP, no hardware address hints and
    ETHARP_TRUST_IP_MAC 0, so the code those options guard is not compiled.

    An interface is its address [np] with its fields [n].  [linkoutput] stands
    for [netif->linkoutput]: it sees the packet and changes the device only.
    [None] is a dereference of a pointer to no live object. *)

From stdpp Require Import base tactics numbers list gmap.
From Stdlib Require Import ZArith Lia.
From S2P Require Import Prelude ByteOrder Stats PbufDefs NetifDefs Mylib Allocator Mem Memp PbufMem Pbuf IpAddr.

Local Open Scope Z_scope.

Module Etharp.
Import ByteOrder Memp Pbuf IpAddr.

Definition ethbroadcast : list Z := [0xff; 0xff; 0xff; 0xff; 0xff; 0xff].
Definition ethzero : list Z := [0; 0; 0; 0; 0; 0].

Definition LL_MULTICAST_ADDR_0 : Z := 0x01.
Definition LL_MULTICAST_ADDR_1 : Z := 0x00.
Definition LL_MULTICAST_ADDR_2 : Z := 0x5e.

Definition ARP_TABLE_SIZE : Z := 10.
Definition ARP_MAXAGE : Z := 240.
Definition ARP_AGE_REREQUEST_USED : Z := ARP_MAXAGE - 12.
Definition ARP_MAXPENDING : Z := 2.
Definition HWTYPE_ETHERNET : Z := 1.
Definition ETHARP_HWADDR_LEN : Z := 6.
Definition SIZEOF_ETH_HDR : Z := 14.
Definition SIZEOF_ETHARP_PACKET : Z := SIZEOF_ETH_HDR + 28.
Definition ETHTYPE_ARP : Z := 0x0806.
Definition ETHTYPE_IP : Z := 0x0800.
Definition ARP_REQUEST : Z := 1.
Definition ARP_REPLY : Z := 2.
Definition ETHARP_FLAG_TRY_HARD : Z := 1.
Definition ETHARP_FLAG_FIND_ONLY : Z := 2.

Inductive etharp_state :=
| ETHARP_STATE_EMPTY | ETHARP_STATE_PENDING | ETHARP_STATE_STABLE | ETHARP_STATE_STABLE_REREQUESTING.

#[export] Instance etharp_state_eq_dec : EqDecision etharp_state.
Proof. solve_decision. Defined.

Abbreviation EMPTY := ETHARP_STATE_EMPTY (only parsing).
Abbreviation PENDING := ETHARP_STATE_PENDING (only parsing).
Abbreviation STABLE := ETHARP_STATE_STABLE (only parsing).
Abbreviation REREQUESTING := ETHARP_STATE_STABLE_REREQUESTING (only parsing).

(** [state >= ETHARP_STATE_STABLE] *)
Definition is_stable (st : etharp_state) : bool :=
  match st with STABLE | REREQUESTING => true | EMPTY | PENDING => false end.

Record etharp_entry := mkEntry {
  ae_q : Z; ae_ipaddr : Z; ae_netif : Z; ae_ethaddr : list Z; ae_state : etharp_state; ae_ctime : Z }.

#[export] Instance etharp_entry_eq_dec : EqDecision etharp_entry.
Proof. solve_decision. Defined.

Definition set_ae_q (en : etharp_entry) (q : Z) : etharp_entry :=
  mkEntry q (ae_ipaddr en) (ae_netif en) (ae_ethaddr en) (ae_state en) (ae_ctime en).
Definition set_ae_ipaddr (en : etharp_entry) (ip : Z) : etharp_entry :=
  mkEntry (ae_q en) ip (ae_netif en) (ae_ethaddr en) (ae_state en) (ae_ctime en).
Definition set_ae_netif (en : etharp_entry) (np : Z) : etharp_entry :=
  mkEntry (ae_q en) (ae_ipaddr en) np (ae_ethaddr en) (ae_state en) (ae_ctime en).
Definition set_ae_ethaddr (en : etharp_entry) (a : list Z) : etharp_entry :=
  mkEntry (ae_q en) (ae_ipaddr en) (ae_netif en) a (ae_state en) (ae_ctime en).
Definition set_ae_state (en : etharp_entry) (st : etharp_state) : etharp_entry :=
  mkEntry (ae_q en) (ae_ipaddr en) (ae_netif en) (ae_ethaddr en) st (ae_ctime en).
Definition set_ae_ctime (en : etharp_entry) (t : Z) : etharp_entry :=
  mkEntry (ae_q en) (ae_ipaddr en) (ae_netif en) (ae_ethaddr en) (ae_state en) t.

Record etharp_q_entry := mkQEntry { qe_next : Z; qe_p : Z }.

Record estate (W X : Type) := mkEstate {
  e_p : pstate W; e_tab : list etharp_entry; e_qst : gmap Z etharp_q_entry; e_cached : Z;
  e_arp_stats : stats_proto; e_link_stats : stats_proto; e_dev : X }.
Arguments mkEstate {W X}. Arguments e_p {W X}. Arguments e_tab {W X}. Arguments e_qst {W X}.
Arguments e_cached {W X}. Arguments e_arp_stats {W X}. Arguments e_link_stats {W X}. Arguments e_dev {W X}.

(** Offsets of the fields of the Ethernet header and the ARP header behind it. *)
Definition ETH_DEST : Z := 0.
Definition ETH_SRC : Z := 6.
Definition ETH_TYPE : Z := 12.
Definition ARP_HWTYPE : Z := 14.
Definition ARP_PROTO : Z := 16.
Definition ARP_HWLEN : Z := 18.
Definition ARP_PROTOLEN : Z := 19.
Definition ARP_OPCODE : Z := 20.
Definition ARP_SHWADDR : Z := 22.
Definition ARP_SIPADDR : Z := 28.
Definition ARP_DHWADDR : Z := 32.
Definition ARP_DIPADDR : Z := 38.

Definition ip_addr_islinklocal (addr : Z) : bool :=
  Z.land addr (PP_HTONL 0xffff0000) =? PP_HTONL 0xa9fe0000.
Definition ip4_addr2 (addr : Z) : Z := u8 (Z.shiftr addr 8).
Definition ip4_addr3 (addr : Z) : Z := u8 (Z.shiftr addr 16).
Definition ip4_addr4 (addr : Z) : Z := u8 (Z.shiftr addr 24).

Section etharp.
Context {W X : Type} `{MemSystem W}.
Context (stale : Z -> Z) (custom_free : pstate W -> Z -> option (pstate W)).
Context (linkoutput : X -> pstate W -> Z -> option (X * Z)).

Implicit Type e : estate W X.

Definition set_e_p e (s : pstate W) : estate W X :=
  mkEstate s (e_tab e) (e_qst e) (e_cached e) (e_arp_stats e) (e_link_stats e) (e_dev e).
Definition set_tab e (t : list etharp_entry) : estate W X :=
  mkEstate (e_p e) t (e_qst e) (e_cached e) (e_arp_stats e) (e_link_stats e) (e_dev e).
Definition set_qst e (q : gmap Z etharp_q_entry) : estate W X :=
  mkEstate (e_p e) (e_tab e) q (e_cached e) (e_arp_stats e) (e_link_stats e) (e_dev e).
Definition ETHARP_SET_HINT e (hint : Z) : estate W X :=
  mkEstate (e_p e) (e_tab e) (e_qst e) (u8 hint) (e_arp_stats e) (e_link_stats e) (e_dev e).
Definition ETHARP_STATS_INC (c : counter) e : estate W X :=
  mkEstate (e_p e) (e_tab e) (e_qst e) (e_cached e) (STATS_INC c (e_arp_stats e)) (e_link_stats e) (e_dev e).
Definition LINK_STATS_INC (c : counter) e : estate W X :=
  mkEstate (e_p e) (e_tab e) (e_qst e) (e_cached e) (e_arp_stats e) (STATS_INC c (e_link_stats e)) (e_dev e).
Definition set_dev e (x : X) : estate W X :=
  mkEstate (e_p e) (e_tab e) (e_qst e) (e_cached e) (e_arp_stats e) (e_link_stats e) x.

(** [arp_table[i]] and assignments to its fields. *)
Definition entry e (i : Z) : option etharp_entry := e_tab e !! Z.to_nat i.
Definition set_entry e (i : Z) (f : etharp_entry -> etharp_entry) : estate W X :=
  set_tab e (alter f (Z.to_nat i) (e_tab e)).

(** Calls to pbuf.c and memp.c. *)
Definition free_pbuf e (p : Z) : option (estate W X) :=
  '(s, _) ← pbuf_free custom_free (e_p e) p; Some (set_e_p e s).
Definition free_q_entry e (q : Z) : estate W X :=
  set_qst (set_e_p e (set_pw (e_p e) (ms_memp_free (pw (e_p e)) MEMP_ARP_QUEUE q))) (delete q (e_qst e)).
Definition write_mem e (m : memory) : estate W X := set_e_p e (set_mem (e_p e) m).
Definition e_mem e : memory := mem_of (e_p e).

(** [netif->linkoutput(netif, p)] *)
Definition link_output e (p : Z) : option (estate W X * Z) :=
  '(x, r) ← linkoutput (e_dev e) (e_p e) p; Some (set_dev e x, r).

(** ** The table *)

Definition free_q_body (x : estate W X * Z) : (estate W X * Z) + option (estate W X) :=
  let '(e, q) := x in
  if q =? 0 then inr (Some e)
  else
    match e_qst e !! q with
    | None => inr None
    | Some r =>
        match free_pbuf e (qe_p r) with
        | None => inr None
        | Some e => inl (free_q_entry e q, qe_next r)
        end
    end.

Definition free_etharp_q e (q : Z) : option (estate W X) :=
  mjoin (while (S (size (e_qst e))) free_q_body (e, q)).

(** An entry as [etharp_free_entry] leaves it (with LWIP_DEBUG). *)
Definition etharp_free_entry e (i : Z) : option (estate W X) :=
  en ← entry e i;
  e ← (if negb (ae_q en =? 0) then
         e ← free_etharp_q e (ae_q en);
         Some (set_entry e i (fun en => set_ae_q en 0))
       else Some e);
  let e := set_entry e i (fun en => set_ae_state en EMPTY) in
  let e := set_entry e i (fun en => set_ae_ctime en 0) in
  let e := set_entry e i (fun en => set_ae_netif en 0) in
  let e := set_entry e i (fun en => set_ae_ipaddr en 0) in
  Some (set_entry e i (fun en => set_ae_ethaddr en ethzero)).

(** One entry of the timer's loop. *)
Definition tmr_entry e (i : Z) : option (estate W X) :=
  en ← entry e i;
  if negb (bool_decide (ae_state en = EMPTY)) then
    let t := u8 (ae_ctime en + 1) in
    let e := set_entry e i (fun en => set_ae_ctime en t) in
    if (ARP_MAXAGE <=? t) || (bool_decide (ae_state en = PENDING) && (ARP_MAXPENDING <=? t))
    then etharp_free_entry e i
    else if bool_decide (ae_state en = REREQUESTING)
    then Some (set_entry e i (fun en => set_ae_state en STABLE))
    else Some e
  else Some e.

(** The loops over the table; the index takes the values 0 to 9. *)
Definition tmr_body (x : estate W X * Z) : (estate W X * Z) + option (estate W X) :=
  let '(e, i) := x in
  if i <? ARP_TABLE_SIZE then
    match tmr_entry e i with None => inr None | Some e => inl (e, u8 (i + 1)) end
  else inr (Some e).

Definition etharp_tmr e : option (estate W X) := mjoin (while 11 tmr_body (e, 0)).

(** ** Finding an entry *)

(** The candidates the search remembers. *)
Record candidates := mkCand {
  old_pending : Z; old_stable : Z; empty : Z; age_pending : Z; age_stable : Z; old_queue : Z; age_queue : Z }.

Definition no_candidates : candidates :=
  mkCand ARP_TABLE_SIZE ARP_TABLE_SIZE ARP_TABLE_SIZE 0 0 ARP_TABLE_SIZE 0.

(** What the search remembers of entry [i] when it is not empty and does not
    match. *)
Definition remember (c : candidates) (i : Z) (en : etharp_entry) : candidates :=
  match ae_state en with
  | PENDING =>
      if negb (ae_q en =? 0) then
        if age_queue c <=? ae_ctime en
        then mkCand (old_pending c) (old_stable c) (empty c) (age_pending c) (age_stable c) i (ae_ctime en)
        else c
      else
        if age_pending c <=? ae_ctime en
        then mkCand i (old_stable c) (empty c) (ae_ctime en) (age_stable c) (old_queue c) (age_queue c)
        else c
  | STABLE | REREQUESTING =>
      if age_stable c <=? ae_ctime en
      then mkCand (old_pending c) i (empty c) (age_pending c) (ae_ctime en) (old_queue c) (age_queue c)
      else c
  | EMPTY => c
  end.

(** One entry of the search: a match ends it. *)
Definition find_body (tab : list etharp_entry) (ipaddr : option Z) (x : candidates * Z)
    : (candidates * Z) + option (Z + candidates) :=
  let '(c, i) := x in
  if i <? ARP_TABLE_SIZE then
    match tab !! Z.to_nat i with
    | None => inr None
    | Some en =>
        if (empty c =? ARP_TABLE_SIZE) && bool_decide (ae_state en = EMPTY) then
          inl (mkCand (old_pending c) (old_stable c) i (age_pending c) (age_stable c) (old_queue c) (age_queue c),
               u8 (i + 1))
        else if negb (bool_decide (ae_state en = EMPTY)) then
          if match ipaddr with Some ip => ip =? ae_ipaddr en | None => false end
          then inr (Some (inl i))
          else inl (remember c i en, u8 (i + 1))
        else inl (c, u8 (i + 1))
    end
  else inr (Some (inr c)).

(** The least destructive entry to recycle, ARP_TABLE_SIZE if there is none. *)
Definition choose (c : candidates) : Z :=
  if old_stable c <? ARP_TABLE_SIZE then old_stable c
  else if old_pending c <? ARP_TABLE_SIZE then old_pending c
  else if old_queue c <? ARP_TABLE_SIZE then old_queue c
  else ARP_TABLE_SIZE.

(** [ipaddr] is [None] for NULL; the result is an index or ERR_MEM. *)
Definition etharp_find_entry e (ipaddr : option Z) (flags : Z) : option (estate W X * Z) :=
  r ← mjoin (while 11 (find_body (e_tab e) ipaddr) (no_candidates, 0));
  match r with
  | inl i => Some (e, i)
  | inr c =>
      if negb (Z.land flags ETHARP_FLAG_FIND_ONLY =? 0) ||
         ((empty c =? ARP_TABLE_SIZE) && (Z.land flags ETHARP_FLAG_TRY_HARD =? 0))
      then Some (e, ERR_MEM)
      else
        '(e, i) ← (if empty c <? ARP_TABLE_SIZE then Some (e, empty c)
                   else if choose c <? ARP_TABLE_SIZE
                   then e ← etharp_free_entry e (choose c); Some (e, choose c)
                   else Some (e, ERR_MEM));
        if i <? 0 then Some (e, i)
        else
          let e := match ipaddr with
                   | Some ip => set_entry e i (fun en => set_ae_ipaddr en ip)
                   | None => e
                   end in
          Some (set_entry e i (fun en => set_ae_ctime en 0), i)
  end.

(** ** Sending *)

(** [src] and [dst] are the bytes of the two addresses. *)
Definition etharp_send_ip e (p : Z) (src dst : list Z) : option (estate W X * Z) :=
  b ← pst (e_p e) !! p;
  let m := st_bytes (e_mem e) (payload b + ETH_DEST) dst in
  let m := st_bytes m (payload b + ETH_SRC) src in
  let m := st16 m (payload b + ETH_TYPE) (PP_HTONS ETHTYPE_IP) in
  link_output (write_mem e m) p.

(** The queued packets of entry [i], oldest first; [ethaddr] points to the
    hardware address. *)
Definition send_queue_body (n : netif) (ethaddr i : Z) e : estate W X + option (estate W X) :=
  match entry e i with
  | None => inr None
  | Some en =>
      if negb (ae_q en =? 0) then
        match e_qst e !! ae_q en with
        | None => inr None
        | Some q =>
            let e := set_entry e i (fun en => set_ae_q en (qe_next q)) in
            let p := qe_p q in
            let e := free_q_entry e (ae_q en) in
            match etharp_send_ip e p (nif_hwaddr n) (bytes (e_mem e) ethaddr 6) with
            | None => inr None
            | Some (e, _) => match free_pbuf e p with None => inr None | Some e => inl e end
            end
        end
      else inr (Some e)
  end.

Definition etharp_update_arp_entry e (np : Z) (n : netif) (ipaddr ethaddr flags : Z)
    : option (estate W X * Z) :=
  if (ipaddr =? IPADDR_ANY) || negb (ip4_addr_isbroadcast ipaddr n =? 0) || ip_addr_ismulticast ipaddr
  then Some (e, ERR_ARG)
  else
    '(e, i) ← etharp_find_entry e (Some ipaddr) flags;
    if i <? 0 then Some (e, i)
    else
      let e := set_entry e i (fun en => set_ae_state en STABLE) in
      let e := set_entry e i (fun en => set_ae_netif en np) in
      let e := set_entry e i (fun en => set_ae_ethaddr en (bytes (e_mem e) ethaddr 6)) in
      let e := set_entry e i (fun en => set_ae_ctime en 0) in
      e ← mjoin (while (S (size (e_qst e))) (send_queue_body n ethaddr i) e);
      Some (e, ERR_OK).

Definition cleanup_body (np : Z) (x : estate W X * Z) : (estate W X * Z) + option (estate W X) :=
  let '(e, i) := x in
  if i <? ARP_TABLE_SIZE then
    match entry e i with
    | None => inr None
    | Some en =>
        if negb (bool_decide (ae_state en = EMPTY)) && (ae_netif en =? np) then
          match etharp_free_entry e i with None => inr None | Some e => inl (e, u8 (i + 1)) end
        else inl (e, u8 (i + 1))
    end
  else inr (Some e).

Definition etharp_cleanup_netif e (np : Z) : option (estate W X) :=
  mjoin (while 11 (cleanup_body np) (e, 0)).

(** The index with the addresses stored there, or -1. *)
Definition etharp_find_addr e (ipaddr : Z) : option (estate W X * Z * option (list Z * Z)) :=
  '(e, i) ← etharp_find_entry e (Some ipaddr) ETHARP_FLAG_FIND_ONLY;
  if 0 <=? i then
    en ← entry e i;
    if is_stable (ae_state en) then Some (e, i, Some (ae_ethaddr en, ae_ipaddr en)) else Some (e, -1, None)
  else Some (e, -1, None).

(** ** Requests *)

Definition etharp_raw e (n : netif) (ethsrc_addr ethdst_addr hwsrc_addr : list Z) (ipsrc_addr : Z)
    (hwdst_addr : list Z) (ipdst_addr opcode : Z) : option (estate W X * Z) :=
  '(s, p) ← pbuf_alloc stale custom_free (e_p e) PBUF_RAW SIZEOF_ETHARP_PACKET PBUF_RAM;
  let e := set_e_p e s in
  if p =? 0 then Some (ETHARP_STATS_INC c_memerr e, ERR_MEM)
  else
    b ← pst (e_p e) !! p;
    let h := payload b in
    let m := st16 (e_mem e) (h + ARP_OPCODE) (lwip_htons opcode) in
    let m := st_bytes m (h + ARP_SHWADDR) hwsrc_addr in
    let m := st_bytes m (h + ARP_DHWADDR) hwdst_addr in
    let m := st_bytes m (h + ETH_DEST) ethdst_addr in
    let m := st_bytes m (h + ETH_SRC) ethsrc_addr in
    let m := st32 m (h + ARP_SIPADDR) ipsrc_addr in
    let m := st32 m (h + ARP_DIPADDR) ipdst_addr in
    let m := st16 m (h + ARP_HWTYPE) (PP_HTONS HWTYPE_ETHERNET) in
    let m := st16 m (h + ARP_PROTO) (PP_HTONS ETHTYPE_IP) in
    let m := st8 m (h + ARP_HWLEN) ETHARP_HWADDR_LEN in
    let m := st8 m (h + ARP_PROTOLEN) 4 in
    let m := st16 m (h + ETH_TYPE) (PP_HTONS ETHTYPE_ARP) in
    '(e, result) ← link_output (write_mem e m) p;
    e ← free_pbuf (ETHARP_STATS_INC c_xmit e) p;
    Some (e, result).

Definition etharp_request e (n : netif) (ipaddr : Z) : option (estate W X * Z) :=
  etharp_raw e n (nif_hwaddr n) ethbroadcast (nif_hwaddr n) (nif_ip_addr n) ethzero ipaddr ARP_REQUEST.

(** ** Packets out *)

(** The first pbuf that is not PBUF_ROM, 0 if there is none. *)
Definition not_rom_body (st : pstore) (p : Z) : Z + option Z :=
  if p =? 0 then inr (Some 0)
  else
    match st !! p with
    | None => inr None
    | Some b => if negb (bool_decide (type b = PBUF_ROM)) then inr (Some p) else inl (next b)
    end.

(** The packet to queue: a copy in RAM, or [q] itself with one more reference if
    it is all in ROM; 0 if there is no memory. *)
Definition take_over e (q : Z) : option (estate W X * Z) :=
  p ← mjoin (while (S (size (pst (e_p e)))) (not_rom_body (pst (e_p e))) q);
  if negb (p =? 0) then
    b ← pst (e_p e) !! p;
    '(s, p) ← pbuf_alloc stale custom_free (e_p e) PBUF_RAW (tot_len b) PBUF_RAM;
    let e := set_e_p e s in
    if negb (p =? 0) then
      '(m, r) ← pbuf_copy (e_mem e) (pst (e_p e)) p q;
      let e := write_mem e m in
      if negb (r =? ERR_OK) then e ← free_pbuf e p; Some (e, 0) else Some (e, p)
    else Some (e, 0)
  else
    s ← pbuf_ref (e_p e) q;
    Some (set_e_p e s, q).

(** The last entry of the queue that starts at [r]. *)
Definition last_body (qst : gmap Z etharp_q_entry) (r : Z) : Z + option Z :=
  match qst !! r with
  | None => inr None
  | Some q => if negb (qe_next q =? 0) then inl (qe_next q) else inr (Some r)
  end.

(** Queueing packet [p] on entry [i]. *)
Definition enqueue e (i p : Z) : option (estate W X * Z) :=
  let '(w, new_entry) := ms_memp_malloc (pw (e_p e)) MEMP_ARP_QUEUE in
  let e := set_e_p e (set_pw (e_p e) w) in
  if negb (new_entry =? 0) then
    let e := set_qst e (<[new_entry := mkQEntry 0 p]> (e_qst e)) in
    en ← entry e i;
    if negb (ae_q en =? 0) then
      r ← mjoin (while (S (size (e_qst e))) (last_body (e_qst e)) (ae_q en));
      l ← e_qst e !! r;
      Some (set_qst e (<[r := mkQEntry new_entry (qe_p l)]> (e_qst e)), ERR_OK)
    else Some (set_entry e i (fun en => set_ae_q en new_entry), ERR_OK)
  else
    e ← free_pbuf e p;
    Some (e, ERR_MEM).

(** [q] is 0 for NULL. *)
Definition etharp_query e (n : netif) (ipaddr q : Z) : option (estate W X * Z) :=
  if negb (ip4_addr_isbroadcast ipaddr n =? 0) || ip_addr_ismulticast ipaddr || (ipaddr =? IPADDR_ANY)
  then Some (e, ERR_ARG)
  else
    '(e, i) ← etharp_find_entry e (Some ipaddr) ETHARP_FLAG_TRY_HARD;
    if i <? 0 then
      Some (if negb (q =? 0) then ETHARP_STATS_INC c_memerr e else e, i)
    else
      en ← entry e i;
      let e := if bool_decide (ae_state en = EMPTY)
               then set_entry e i (fun en => set_ae_state en PENDING) else e in
      en ← entry e i;
      '(e, result) ← (if bool_decide (ae_state en = PENDING) || (q =? 0)
                      then etharp_request e n ipaddr else Some (e, ERR_MEM));
      if q =? 0 then Some (e, result)
      else
        en ← entry e i;
        if is_stable (ae_state en) then
          etharp_send_ip (ETHARP_SET_HINT e i) q (nif_hwaddr n) (ae_ethaddr en)
        else if bool_decide (ae_state en = PENDING) then
          '(e, p) ← take_over e q;
          if negb (p =? 0) then enqueue e i p
          else Some (ETHARP_STATS_INC c_memerr e, ERR_MEM)
        else Some (e, result).

Definition etharp_output_to_arp_index e (n : netif) (q arp_idx : Z) : option (estate W X * Z) :=
  en ← entry e arp_idx;
  e ← (if bool_decide (ae_state en = STABLE) && (ARP_AGE_REREQUEST_USED <=? ae_ctime en) then
         '(e, r) ← etharp_request e n (ae_ipaddr en);
         Some (if r =? ERR_OK then set_entry e arp_idx (fun en => set_ae_state en REREQUESTING) else e)
       else Some e);
  en ← entry e arp_idx;
  etharp_send_ip e q (nif_hwaddr n) (ae_ethaddr en).

(** The search for a stable entry. *)
Definition stable_body (tab : list etharp_entry) (dst i : Z) : Z + option Z :=
  if i <? ARP_TABLE_SIZE then
    match tab !! Z.to_nat i with
    | None => inr None
    | Some en => if is_stable (ae_state en) && (dst =? ae_ipaddr en) then inr (Some i) else inl (i + 1)
    end
  else inr (Some i).

(** A unicast packet to the host or gateway [dst]. *)
Definition output_unicast e (n : netif) (q dst : Z) : option (estate W X * Z) :=
  en ← entry e (e_cached e);
  if is_stable (ae_state en) && (dst =? ae_ipaddr en) then
    etharp_output_to_arp_index (ETHARP_STATS_INC c_cachehit e) n q (e_cached e)
  else
    i ← mjoin (while 11 (stable_body (e_tab e) dst) 0);
    if i <? ARP_TABLE_SIZE then etharp_output_to_arp_index (ETHARP_SET_HINT e i) n q i
    else etharp_query e n dst q.

Definition multicast_mac (ipaddr : Z) : list Z :=
  [LL_MULTICAST_ADDR_0; LL_MULTICAST_ADDR_1; LL_MULTICAST_ADDR_2;
   Z.land (ip4_addr2 ipaddr) 0x7f; ip4_addr3 ipaddr; ip4_addr4 ipaddr].

Definition etharp_output e (n : netif) (q ipaddr : Z) : option (estate W X * Z) :=
  '(s, r) ← pbuf_header (e_p e) q SIZEOF_ETH_HDR;
  let e := set_e_p e s in
  if negb (r =? 0) then Some (LINK_STATS_INC c_lenerr e, ERR_BUF)
  else if negb (ip4_addr_isbroadcast ipaddr n =? 0) then
    etharp_send_ip e q (nif_hwaddr n) ethbroadcast
  else if ip_addr_ismulticast ipaddr then
    etharp_send_ip e q (nif_hwaddr n) (multicast_mac ipaddr)
  else if negb (ip_addr_netcmp ipaddr (nif_ip_addr n) (nif_netmask n)) && negb (ip_addr_islinklocal ipaddr) then
    if negb (nif_gw n =? IPADDR_ANY) then output_unicast e n q (nif_gw n) else Some (e, ERR_RTE)
  else output_unicast e n q ipaddr.

(** ** Packets in *)

(** The reply to a request for our address, in the packet of the request. *)
Definition arp_reply e (n : netif) (ethaddr : list Z) (h : Z) : memory :=
  let m := st16 (e_mem e) (h + ARP_OPCODE) (lwip_htons ARP_REPLY) in
  let m := st32 m (h + ARP_DIPADDR) (ld32 m (h + ARP_SIPADDR)) in
  let m := st32 m (h + ARP_SIPADDR) (nif_ip_addr n) in
  let m := st_bytes m (h + ARP_DHWADDR) (bytes m (h + ARP_SHWADDR) 6) in
  let m := st_bytes m (h + ETH_DEST) (bytes m (h + ARP_SHWADDR) 6) in
  let m := st_bytes m (h + ARP_SHWADDR) ethaddr in
  st_bytes m (h + ETH_SRC) ethaddr.

Definition etharp_arp_input e (np : Z) (n : netif) (ethaddr : list Z) (p : Z) : option (estate W X) :=
  if np =? 0 then Some e
  else
    b ← pst (e_p e) !! p;
    if len b <? SIZEOF_ETHARP_PACKET then
      free_pbuf (ETHARP_STATS_INC c_drop (ETHARP_STATS_INC c_lenerr e)) p
    else
      let h := payload b in
      if negb (ld16 (e_mem e) (h + ARP_HWTYPE) =? PP_HTONS HWTYPE_ETHERNET) ||
         negb (ld8 (e_mem e) (h + ARP_HWLEN) =? ETHARP_HWADDR_LEN) ||
         negb (ld8 (e_mem e) (h + ARP_PROTOLEN) =? 4) ||
         negb (ld16 (e_mem e) (h + ARP_PROTO) =? PP_HTONS ETHTYPE_IP)
      then free_pbuf (ETHARP_STATS_INC c_drop (ETHARP_STATS_INC c_proterr e)) p
      else
        let e := ETHARP_STATS_INC c_recv e in
        let sipaddr := ld32 (e_mem e) (h + ARP_SIPADDR) in
        let dipaddr := ld32 (e_mem e) (h + ARP_DIPADDR) in
        let for_us := negb (nif_ip_addr n =? IPADDR_ANY) && (dipaddr =? nif_ip_addr n) in
        '(e, _) ← etharp_update_arp_entry e np n sipaddr (h + ARP_SHWADDR)
                    (if for_us then ETHARP_FLAG_TRY_HARD else ETHARP_FLAG_FIND_ONLY);
        let opcode := ld16 (e_mem e) (h + ARP_OPCODE) in
        e ← (if opcode =? PP_HTONS ARP_REQUEST then
               if for_us then
                 '(e, _) ← link_output (write_mem e (arp_reply e n ethaddr h)) p; Some e
               else Some e
             else if opcode =? PP_HTONS ARP_REPLY then Some e
             else Some (ETHARP_STATS_INC c_err e));
        free_pbuf e p.

(** The link-level flags of a received packet. *)
Definition mark_cast (m : memory) (h : Z) (fl : Z) : Z :=
  if negb (Z.land (ld8 m (h + ETH_DEST)) 1 =? 0) then
    if ld8 m (h + ETH_DEST) =? LL_MULTICAST_ADDR_0 then
      if (ld8 m (h + ETH_DEST + 1) =? LL_MULTICAST_ADDR_1) && (ld8 m (h + ETH_DEST + 2) =? LL_MULTICAST_ADDR_2)
      then Z.lor fl PBUF_FLAG_LLMCAST else fl
    else if bool_decide (bytes m (h + ETH_DEST) 6 = ethbroadcast) then Z.lor fl PBUF_FLAG_LLBCAST
    else fl
  else fl.

(** [ip_input] stands for the function of the same name in core/ipv4/ip.c. *)
Definition ethernet_input (ip_input : estate W X -> Z -> option (estate W X)) e (np : Z) (n : netif) (p : Z)
    : option (estate W X * Z) :=
  b ← pst (e_p e) !! p;
  if len b <=? SIZEOF_ETH_HDR then
    e ← free_pbuf (ETHARP_STATS_INC c_drop (ETHARP_STATS_INC c_proterr e)) p; Some (e, ERR_OK)
  else
    let h := payload b in
    let type := ld16 (e_mem e) (h + ETH_TYPE) in
    s ← update (e_p e) p (fun b => set_flags b (mark_cast (e_mem e) h (flags b)));
    let e := set_e_p e s in
    if type =? PP_HTONS ETHTYPE_IP then
      if Z.land (nif_flags n) NETIF_FLAG_ETHARP =? 0 then e ← free_pbuf e p; Some (e, ERR_OK)
      else
        '(s, r) ← pbuf_header (e_p e) p (- SIZEOF_ETH_HDR);
        let e := set_e_p e s in
        e ← (if negb (r =? 0) then free_pbuf e p else ip_input e p);
        Some (e, ERR_OK)
    else if type =? PP_HTONS ETHTYPE_ARP then
      if Z.land (nif_flags n) NETIF_FLAG_ETHARP =? 0 then e ← free_pbuf e p; Some (e, ERR_OK)
      else e ← etharp_arp_input e np n (nif_hwaddr n) p; Some (e, ERR_OK)
    else
      e ← free_pbuf (ETHARP_STATS_INC c_drop (ETHARP_STATS_INC c_proterr e)) p; Some (e, ERR_OK).

End etharp.

End Etharp.
