(* ===== verification/EtharpTable.v ===== *)
(** The ARP table as a resource: what its entries and queues own, and the
    operations that search, age and release entries. *)

From stdpp Require Import base tactics numbers list gmap.
From Stdlib Require Import ZArith Lia.
From S2P Require Import Prelude Stats PbufDefs NetifDefs Mylib Allocator Mem Memp PbufMem World Pbuf PbufData PbufChains PbufLinks PbufRefs IpAddr Etharp.

Local Open Scope Z_scope.

Module EtharpTable.
Import Memp Pbuf PbufData PbufChains PbufRefs Etharp.

(** ** Queues *)

(** The queue that starts at [q]: its entries with their packets. *)
Inductive qlist (qst : gmap Z etharp_q_entry) : Z -> list (Z * Z) -> Prop :=
| qlist_nil : qlist qst 0 []
| qlist_cons q r l : q <> 0 -> qst !! q = Some r -> qlist qst (qe_next r) l -> qlist qst q ((q, qe_p r) :: l).

(** The packets that wait in the queues [Q] of the table. *)
Definition queued (Q : list (list (Z * Z))) : list Z := (concat Q).*2.

Lemma qlist_ext qst qst' q l :
  qlist qst q l -> (forall a, a ∈ l.*1 -> qst' !! a = qst !! a) -> qlist qst' q l.
Proof.
  induction 1 as [| q r l Hq Hr Hl IH]; intros He; [constructor |]. constructor; [done | |].
  - rewrite He; [done |]. cbn. apply elem_of_cons. by left.
  - apply IH. intros a Ha. apply He. cbn. apply elem_of_cons. by right.
Qed.

Lemma qlist_lookup qst q l a : qlist qst q l -> a ∈ l.*1 -> is_Some (qst !! a) /\ a <> 0.
Proof.
  induction 1 as [| q r l Hq Hr Hl IH]; intros Ha; [by apply elem_of_nil in Ha |].
  cbn in Ha. apply elem_of_cons in Ha as [-> | Ha]; [split; [by eexists | done] | by apply IH].
Qed.

Lemma qlist_null qst q l : qlist qst q l -> q = 0 <-> l = [].
Proof. by destruct 1. Qed.

Lemma qlist_size qst q l : qlist qst q l -> NoDup l.*1 -> (length l <= size qst)%nat.
Proof.
  intros Hl Hn. rewrite <- size_dom.
  assert (list_to_set (C := gset Z) (l.*1) ⊆ dom qst) as Hsub.
  { intros a. rewrite elem_of_list_to_set. intros Ha. apply elem_of_dom. by apply (qlist_lookup _ _ _ _ Hl). }
  apply subseteq_size in Hsub. rewrite size_list_to_set in Hsub by done. by rewrite length_fmap in Hsub.
Qed.

(** Taking one queue out of all. *)
Lemma concat_take {A} (Q : list (list A)) i l :
  Q !! i = Some l -> concat Q ≡ₚ l ++ concat (<[i := []]> Q).
Proof.
  revert i. induction Q as [| l' Q IH]; intros [| i] E; [done | done | |].
  - cbn in E. injection E as ->. done.
  - cbn in E |- *. rewrite (IH _ E). by rewrite !app_assoc, (Permutation_app_comm l' l).
Qed.

Lemma queued_take Q i l : Q !! i = Some l -> queued Q ≡ₚ l.*2 ++ queued (<[i := []]> Q).
Proof. intros E. unfold queued. rewrite (concat_take Q i l E). by rewrite fmap_app. Qed.

Lemma concat_elem {A} (Q : list (list A)) x : x ∈ concat Q -> exists i l, Q !! i = Some l /\ x ∈ l.
Proof.
  induction Q as [| l Q IH]; cbn; [by intros ?%elem_of_nil |]. rewrite elem_of_app. intros [Hx | Hx].
  - by exists 0%nat, l.
  - destruct (IH Hx) as (i & l' & E & Hx'). by exists (S i), l'.
Qed.

Lemma elem_concat {A} (Q : list (list A)) i l x : Q !! i = Some l -> x ∈ l -> x ∈ concat Q.
Proof. intros E Hx. rewrite (concat_take Q i l E), elem_of_app. by left. Qed.

(** ** Resources *)

Section table.
Context {W X : Type} `{LW : MemSystemLaws W}.
Context (custom_free : pstate W -> Z -> option (pstate W)).

Implicit Types (e : estate W X) (L : regions) (own : list Z).

(** The pbufs, with the references [own] held by the queues and by others, and
    the memory of the queue entries. *)
Record esys e L own : Prop := {
  es_sys : psys (e_p e) L;
  es_refs : refs_ok own (pst (e_p e));
  es_chains : finite_chains (pst (e_p e));
  es_qst : forall q, is_Some (e_qst e !! q) -> is_Some (L !! q) /\ ms_pool q = Some MEMP_ARP_QUEUE
}.

(** What releases leave alone: no pbuf changes but for its count, and no live
    byte changes. *)
Record eframe e L e' L' : Prop := {
  ef_kept : kept (pst (e_p e)) (pst (e_p e'));
  ef_sub : L' ⊆ L;
  ef_mem : preserves (e_mem e) (e_mem e') L'
}.

Lemma in_region_sub L L' x : L' ⊆ L -> in_region L' x -> in_region L x.
Proof. intros Hs (q & k & Hq & Hx). exists q, k. split; [by eapply lookup_weaken | done]. Qed.

Lemma eframe_refl e L : eframe e L e L.
Proof. split; [apply kept_refl | done | apply preserves_refl]. Qed.

Lemma eframe_trans e1 L1 e2 L2 e3 L3 : eframe e1 L1 e2 L2 -> eframe e2 L2 e3 L3 -> eframe e1 L1 e3 L3.
Proof.
  intros [K1 S1 M1] [K2 S2 M2]. split; [by eapply kept_trans | by etrans |].
  intros x Hx. rewrite M2 by done. apply M1. by eapply in_region_sub.
Qed.

(** The memory of a queue entry is not that of a pbuf. *)
Lemma not_pbuf e L own q : esys e L own -> ms_pool q = Some MEMP_ARP_QUEUE -> pst (e_p e) !! q = None.
Proof.
  intros [Hs _ _ _] Hq. destruct (pst (e_p e) !! q) as [b |] eqn:Hb; [| done].
  destruct (ps_pbuf _ _ Hs q b Hb) as (_ & _ & _ & Hk & _). rewrite Hq in Hk. by destruct (type b).
Qed.

Lemma esys_perm e L own own' : own ≡ₚ own' -> esys e L own -> esys e L own'.
Proof. intros Hp [H1 H2 H3 H4]. split; [done | by rewrite <- Hp | done | done]. Qed.

Lemma esys_free_pbuf e L own p :
  esys e L (p :: own) ->
  exists s' L', free_pbuf custom_free e p = Some (set_e_p e s') /\ esys (set_e_p e s') L' own /\
    eframe e L (set_e_p e s') L' /\ released (e_p e) L own s' L'.
Proof.
  intros He. pose proof He as [Hs Hr Hc Hq].
  destruct (pbuf_free_owned custom_free (e_p e) L own p Hs Hr) as (s' & n & L' & E & [R1 R2 R3 R4 R5 R7 R6]).
  exists s', L'. unfold free_pbuf. rewrite E. cbn. split; [done |]. split; [| split; by split].
  split; cbn; [done | done | |].
  - intros a [b Hb]. destruct (R3 _ _ Hb) as (b0 & Hb0 & _). destruct (Hc a) as (l & Hl); [by eexists |].
    destruct (kept_chain own _ _ _ _ Hl R2 R3) as (l' & Hl' & _); [right; by eexists |]. by exists l'.
  - intros q Hx. destruct (Hq q Hx) as [HL Hp]. split; [| done]. rewrite R5; [done |].
    by eapply not_pbuf.
Qed.

(** The allocators changed, the regions of the pbufs did not. *)
Lemma psys_regions s w L L' :
  psys s L -> (forall p b, pst s !! p = Some b -> L' !! p = L !! p) -> ms_live w L' -> psys (set_pw s w) L'.
Proof.
  intros [_ Hb] HL Hl. split; [done |]. cbn. intros p b Hp.
  destruct (Hb p b Hp) as (H1 & H2 & H3 & H4 & n & Hn & H5).
  repeat (split; [done |]). exists n. rewrite (HL p b Hp). done.
Qed.

Lemma esys_free_q e L own q :
  esys e L own -> is_Some (e_qst e !! q) ->
  esys (free_q_entry e q) (delete q L) own /\ eframe e L (free_q_entry e q) (delete q L).
Proof.
  intros He Hx. pose proof He as [Hs Hr Hc Hq]. destruct (Hq q Hx) as [[n Hn] Hp].
  pose proof (not_pbuf _ _ _ _ He Hp) as Hnp.
  destruct (release_spec (Releases := ms_memp_free_law MEMP_ARP_QUEUE) (pw (e_p e)) L q n (ps_live _ _ Hs) Hn Hp)
    as [Hl Hpr]. split; split; cbn.
  - apply (psys_regions (e_p e) _ L); [done | | done]. intros p b Hb. rewrite lookup_delete_ne; [done |].
    intros ->. congruence.
  - done.
  - done.
  - intros a Ha. destruct (decide (a = q)) as [-> | Hne]; [by rewrite lookup_delete_eq in Ha; destruct Ha |].
    rewrite lookup_delete_ne in Ha by done. rewrite lookup_delete_ne by done. by apply Hq.
  - apply kept_refl.
  - apply delete_subseteq.
  - done.
Qed.

(** Removing queue entries. *)
Fixpoint qdel (l : list (Z * Z)) (qst : gmap Z etharp_q_entry) : gmap Z etharp_q_entry :=
  match l with [] => qst | (q, _) :: l => delete q (qdel l qst) end.

Lemma lookup_qdel l qst a : qdel l qst !! a = if decide (a ∈ l.*1) then None else qst !! a.
Proof.
  induction l as [| [q p] l IH]; [done |]. cbn. destruct (decide (a = q)) as [-> | Hne].
  - rewrite lookup_delete_eq, decide_True; [done |]. apply elem_of_cons. by left.
  - rewrite lookup_delete_ne, IH by done. destruct (decide (a ∈ l.*1)) as [Hin | Hin].
    + rewrite decide_True; [done |]. apply elem_of_cons. by right.
    + rewrite decide_False; [done |]. rewrite elem_of_cons. tauto.
Qed.

Lemma qdel_cons q p l qst : qdel ((q, p) :: l) qst = qdel l (delete q qst).
Proof.
  apply map_eq. intros a. cbn. destruct (decide (a = q)) as [-> | Hne].
  - rewrite lookup_delete_eq, lookup_qdel. by rewrite lookup_delete_eq; destruct (decide _).
  - rewrite lookup_delete_ne, !lookup_qdel by done. by rewrite lookup_delete_ne.
Qed.

(** The states that differ in pbufs, memory and queue entries only. *)
Definition with_resources e (s : pstate W) (qst : gmap Z etharp_q_entry) : estate W X :=
  set_qst (set_e_p e s) qst.

Lemma free_q_loop l fuel e L own q :
  esys e L (l.*2 ++ own) -> qlist (e_qst e) q l -> NoDup l.*1 -> (length l < fuel)%nat ->
  exists s' L', while fuel (free_q_body custom_free) (e, q)
      = Some (Some (with_resources e s' (qdel l (e_qst e)))) /\
    esys (with_resources e s' (qdel l (e_qst e))) L' own /\
    eframe e L (with_resources e s' (qdel l (e_qst e))) L'.
Proof.
  revert fuel e L q. induction l as [| [q0 p0] l IH]; intros fuel e L q He Hl Hn Hf;
    (destruct fuel as [| fuel]; [lia |]); rewrite while_S; unfold free_q_body at 1.
  - inversion Hl; subst. cbn [Z.eqb]. exists (e_p e), L. destruct e. split; [done |].
    split; [done | apply eframe_refl].
  - inversion Hl as [| ? r ? Hq Hr Hl']; subst. rewrite (proj2 (Z.eqb_neq q0 0)), Hr by done.
    cbn in He, Hn. inversion Hn as [| ? ? Hni Hn']; subst.
    destruct (esys_free_pbuf e L (l.*2 ++ own) (qe_p r) He) as (s1 & L1 & -> & He1 & Hf1 & _).
    destruct (esys_free_q (set_e_p e s1) L1 (l.*2 ++ own) q0 He1) as [He2 Hf2]; [by eexists |].
    destruct (IH fuel _ _ (qe_next r) He2) as (s3 & L3 & Hw & He3 & Hf3); [| done | cbn in Hf; lia |].
    { cbn. apply (qlist_ext (e_qst e)); [done |]. intros a Ha. rewrite lookup_delete_ne; [done |].
      by intros ->. }
    exists s3, L3. rewrite qdel_cons. split; [exact Hw |]. split; [exact He3 |].
    eapply eframe_trans; [exact Hf1 |]. eapply eframe_trans; [exact Hf2 | exact Hf3].
Qed.

(** ** The table *)

(** A packet that waits: one pbuf in the heap, with room for the Ethernet
    header. *)
Definition waiting (st : pstore) (p : Z) : Prop :=
  exists b, st !! p = Some b /\ type b = PBUF_RAM /\ next b = 0 /\ 14 <= len b < 65536 /\ tot_len b = len b.

Definition is_mac (a : list Z) : Prop := length a = 6%nat /\ Forall (fun x => 0 <= x < 256) a.

Record entry_ok (en : etharp_entry) : Prop := {
  eo_queue : ae_q en <> 0 -> ae_state en = PENDING;
  eo_age : 0 <= ae_ctime en < ARP_MAXAGE;
  eo_pending : ae_state en = PENDING -> ae_ctime en < ARP_MAXPENDING;
  eo_mac : is_mac (ae_ethaddr en)
}.

(** No other entry in use has the address [ip]. *)
Definition unclaimed (tab : list etharp_entry) (i : nat) (ip : Z) : Prop :=
  forall j en, j <> i -> tab !! j = Some en -> ae_state en <> EMPTY -> ae_ipaddr en <> ip.

(** The invariant of the module: [Q] are the queues of the ten entries, [ext]
    the references to pbufs held by other modules. *)
Record arp_sys e L (ext : list Z) (Q : list (list (Z * Z))) : Prop := {
  as_esys : esys e L (queued Q ++ ext);
  as_len : length (e_tab e) = 10%nat;
  as_queues : Forall2 (fun en l => qlist (e_qst e) (ae_q en) l) (e_tab e) Q;
  as_nodup : NoDup (concat Q).*1;
  as_dom : forall q, is_Some (e_qst e !! q) -> q ∈ (concat Q).*1;
  as_waiting : forall p, p ∈ queued Q -> waiting (pst (e_p e)) p;
  as_alone : forall p, p ∈ queued Q -> cnt p (queued Q ++ ext) = 1%nat /\ indeg (pst (e_p e)) p = 0%nat;
  as_entries : Forall entry_ok (e_tab e);
  as_unique : forall i en, e_tab e !! i = Some en -> ae_state en <> EMPTY -> unclaimed (e_tab e) i (ae_ipaddr en);
  as_cached : 0 <= e_cached e < ARP_TABLE_SIZE
}.

Definition blank : etharp_entry := mkEntry 0 0 0 ethzero EMPTY 0.

Lemma blank_ok : entry_ok blank.
Proof. split; try done. split; [done | repeat constructor; lia]. Qed.

Lemma alter_insert {A} (l : list A) i x f : l !! i = Some x -> alter f i l = <[i := f x]> l.
Proof.
  revert i. induction l as [| y l IH]; intros [| i] E; [done | done | by injection E as -> |].
  cbn in E |- *. f_equal. by apply IH.
Qed.

Lemma entry_insert e i en en' :
  entry e i = Some en -> entry (set_tab e (<[Z.to_nat i := en']> (e_tab e))) i = Some en'.
Proof. unfold entry. cbn. intros E. apply list_lookup_insert_eq. by apply lookup_lt_Some in E. Qed.

(** Assignments to the fields of one entry add up. *)
Lemma set_entry_insert e i en f :
  entry e i = Some en -> set_entry e i f = set_tab e (<[Z.to_nat i := f en]> (e_tab e)).
Proof. intros E. unfold set_entry. by rewrite (alter_insert _ _ _ _ E). Qed.

Lemma set_entry_again e i en en' f :
  entry e i = Some en ->
  set_entry (set_tab e (<[Z.to_nat i := en']> (e_tab e))) i f = set_tab e (<[Z.to_nat i := f en']> (e_tab e)).
Proof.
  intros E. rewrite (set_entry_insert _ i en') by by eapply entry_insert.
  unfold set_tab. cbn. by rewrite list_insert_insert_eq.
Qed.

Lemma arp_queue e L ext Q i en :
  arp_sys e L ext Q -> e_tab e !! i = Some en ->
  exists l, Q !! i = Some l /\ qlist (e_qst e) (ae_q en) l /\ NoDup l.*1.
Proof.
  intros H' E. destruct (Forall2_lookup_l _ _ _ _ _ (as_queues _ _ _ _ H') E) as (l & Hl & Hq).
  exists l. split; [done |]. split; [done |]. pose proof (as_nodup _ _ _ _ H') as Hn.
  rewrite (concat_take Q i l Hl), fmap_app in Hn. by apply NoDup_app in Hn as (? & _ & _).
Qed.

Lemma arp_queue_length e L ext Q : arp_sys e L ext Q -> length Q = 10%nat.
Proof. intros H'. rewrite <- (as_len _ _ _ _ H'). symmetry. by eapply Forall2_length, as_queues. Qed.

(** Uniqueness after entry [i] changed. *)
Lemma unique_insert (tab : list etharp_entry) i en' :
  (forall i en, tab !! i = Some en -> ae_state en <> EMPTY -> unclaimed tab i (ae_ipaddr en)) ->
  (ae_state en' <> EMPTY -> unclaimed tab i (ae_ipaddr en')) ->
  forall j en, <[i := en']> tab !! j = Some en -> ae_state en <> EMPTY -> unclaimed (<[i := en']> tab) j (ae_ipaddr en).
Proof.
  intros Hu Hn j en Hj Hs k en2 Hk Hen2 Hs2 Heq.
  apply list_lookup_insert_Some in Hj as [(-> & -> & _) | [Hji Hj]];
    apply list_lookup_insert_Some in Hen2 as [(-> & -> & _) | [Hki Hen2]]; [done | | |].
  - by apply (Hn Hs k en2).
  - by apply (Hn Hs2 j en).
  - by apply (Hu j en Hj Hs k en2).
Qed.

(** An entry changes but for its queue. *)
Lemma arp_set_entry e L ext Q i en en' :
  arp_sys e L ext Q -> entry e i = Some en -> ae_q en' = ae_q en -> entry_ok en' ->
  (ae_state en' <> EMPTY -> unclaimed (e_tab e) (Z.to_nat i) (ae_ipaddr en')) ->
  arp_sys (set_tab e (<[Z.to_nat i := en']> (e_tab e))) L ext Q.
Proof.
  intros [H1 H2 H3 H4 H5 H6 HA H7 H8 H9] E Eq Hok Hu. split; cbn; try done.
  - by destruct H1.
  - by rewrite length_insert.
  - destruct (Forall2_lookup_l _ _ _ _ _ H3 E) as (l & Hl & Hq).
    rewrite <- (list_insert_id Q (Z.to_nat i) l Hl). apply Forall2_insert; [done | by rewrite Eq].
  - by apply Forall_insert.
  - by apply unique_insert.
Qed.

(** A change of pbufs that keeps what waits. *)
Lemma waiting_kept own st st' p :
  waiting st p -> kept st st' -> refs_ok own st' -> p ∈ own -> waiting st' p.
Proof.
  intros (b & Hb & H1 & H2 & H3 & H4) Hk Hr Hp. destruct (rf_own _ _ Hr p Hp) as [b' Hb'].
  destruct (Hk _ _ Hb') as (b0 & Hb0 & E). simplify_eq. exists b'. split; [done |]. rewrite E. by cbn.
Qed.

(** Emptying the queue of entry [i]. *)
Lemma arp_drop_queue e L ext Q i en en' l s' L' :
  arp_sys e L ext Q -> entry e i = Some en -> Q !! Z.to_nat i = Some l -> ae_q en' = 0 -> entry_ok en' ->
  (ae_state en' <> EMPTY -> unclaimed (e_tab e) (Z.to_nat i) (ae_ipaddr en')) ->
  let e' := set_tab (with_resources e s' (qdel l (e_qst e))) (<[Z.to_nat i := en']> (e_tab e)) in
  esys e' L' (queued (<[Z.to_nat i := []]> Q) ++ ext) -> kept (pst (e_p e)) (pst s') ->
  arp_sys e' L' ext (<[Z.to_nat i := []]> Q).
Proof.
  intros [H1 H2 H3 H4 H5 H6 HA H7 H8 H9] E El Eq Hok Hu e' He' Hk.
  pose proof (concat_take Q (Z.to_nat i) l El) as Hp. rewrite Hp, fmap_app in H4.
  apply NoDup_app in H4 as (Hn1 & Hdis & Hn2).
  split; cbn; try done.
  - by rewrite length_insert.
  - apply Forall2_same_length_lookup. split.
    { rewrite !length_insert. by eapply Forall2_length. }
    intros j x y Hx Hy. destruct (decide (Z.to_nat i = j)) as [<- | Hj].
    + pose proof (lookup_lt_Some _ _ _ El). unfold entry in E. pose proof (lookup_lt_Some _ _ _ E).
      rewrite list_lookup_insert_eq in Hx by done. rewrite list_lookup_insert_eq in Hy by done. simplify_eq. rewrite Eq. constructor.
    + rewrite list_lookup_insert_ne in Hx by done. rewrite list_lookup_insert_ne in Hy by done.
      pose proof (Forall2_lookup_lr _ _ _ _ _ _ H3 Hx Hy) as Hq.
      apply (qlist_ext (e_qst e)); [done |]. intros a Ha. rewrite lookup_qdel, decide_False; [done |].
      intros Hin. apply (Hdis a Hin). apply list_elem_of_fmap in Ha as (z & -> & Hz).
      apply list_elem_of_fmap. exists z. split; [done |]. apply (elem_concat _ j y); [| done].
      by rewrite list_lookup_insert_ne.
  - intros q Hq. rewrite lookup_qdel in Hq. destruct (decide (q ∈ l.*1)) as [Hin | Hin]; [by destruct Hq |].
    apply H5 in Hq. rewrite Hp, fmap_app, elem_of_app in Hq. tauto.
  - intros p Hin. eapply waiting_kept; [| exact Hk | apply He' | by apply elem_of_app; left].
    apply H6. unfold queued. rewrite Hp, fmap_app, elem_of_app. by right.
  - intros p Hin. assert (p ∈ queued Q) as Hin' by (unfold queued; rewrite Hp, fmap_app, elem_of_app; by right).
    destruct (HA p Hin') as [Hc Hi]. unfold queued in Hc. rewrite Hp, fmap_app, <- app_assoc, cnt_app in Hc.
    pose proof (indeg_kept _ _ p Hk) as Hle.
    assert (0 < cnt p (queued (<[Z.to_nat i := []]> Q) ++ ext))%nat as Hpos by (apply cnt_pos, elem_of_app; by left).
    unfold queued in *. lia.
  - by apply Forall_insert.
  - by apply unique_insert.
Qed.

Lemma free_entry_spec e L ext Q i en en1 :
  arp_sys e L ext Q -> entry e i = Some en -> ae_q en1 = ae_q en ->
  exists s' L' l, Q !! Z.to_nat i = Some l /\
    let e' := set_tab (with_resources e s' (qdel l (e_qst e))) (<[Z.to_nat i := blank]> (e_tab e)) in
    etharp_free_entry custom_free (set_tab e (<[Z.to_nat i := en1]> (e_tab e))) i = Some e' /\
    arp_sys e' L' ext (<[Z.to_nat i := []]> Q) /\ eframe e L e' L'.
Proof.
  intros Ha E Eq. destruct (arp_queue _ _ _ _ _ _ Ha E) as (l & El & Hl & Hn).
  pose proof (entry_insert e i en en1 E) as E1. pose proof (queued_take Q _ _ El) as Hqt.
  set (e1 := set_tab e (<[Z.to_nat i := en1]> (e_tab e))) in *.
  assert (esys e1 L (l.*2 ++ (queued (<[Z.to_nat i := []]> Q) ++ ext))) as He1.
  { eapply esys_perm; [| by destruct (as_esys _ _ _ _ Ha)]. rewrite Hqt. by rewrite app_assoc. }
  destruct (free_q_loop l (S (size (e_qst e1))) e1 L _ (ae_q en1) He1) as (s' & L' & Hw & He' & Hf).
  { cbn. by rewrite Eq. } { done. } { pose proof (qlist_size _ _ _ Hl Hn). cbn. lia. }
  exists s', L', l. split; [done |]. set (e' := set_tab _ _).
  assert (etharp_free_entry custom_free e1 i = Some e') as Hr.
  { unfold etharp_free_entry. rewrite E1. cbn [mbind option_bind].
    set (e2 := if negb (ae_q en1 =? 0) then _ else _).
    assert (e2 = Some (set_tab (with_resources e s' (qdel l (e_qst e)))
              (<[Z.to_nat i := set_ae_q en1 0]> (e_tab e)))) as ->.
    { unfold e2. destruct (Z.eqb_spec (ae_q en1) 0) as [E0 | E0]; cbn [negb].
      - pose proof (proj1 (qlist_null _ _ _ Hl)) as E2. rewrite <- Eq in E2. specialize (E2 E0) as ->.
        rewrite while_S in Hw. unfold free_q_body in Hw at 1. rewrite E0 in Hw. cbn in Hw.
        apply (f_equal (fun x => e_p <$> mjoin x)) in Hw. cbn in Hw. injection Hw as <-.
        assert (set_ae_q en1 0 = en1) as -> by (destruct en1; cbn in E0; by subst). done.
      - unfold free_etharp_q. rewrite Hw. cbn [mjoin option_join mbind option_bind].
        rewrite (set_entry_insert _ i en1) by exact E1. unfold e1, with_resources, set_tab. cbn.
        by rewrite list_insert_insert_eq. }
    cbn [mbind option_bind]. assert (entry (with_resources e s' (qdel l (e_qst e))) i = Some en) as E3 by exact E.
    rewrite !(set_entry_again (with_resources e s' (qdel l (e_qst e))) i en) by exact E3. done. }
  split; [exact Hr |]. split.
  - refine (arp_drop_queue e L ext Q i en blank l s' L' Ha E El eq_refl blank_ok _ _ _); [done | |].
    + by destruct He'.
    + by destruct Hf.
  - by destruct Hf.
Qed.

(** The fields that operations on the table leave alone. *)
Definition same_rest e e' : Prop :=
  e_cached e' = e_cached e /\ e_arp_stats e' = e_arp_stats e /\ e_link_stats e' = e_link_stats e /\
  e_dev e' = e_dev e.

Lemma set_tab_same e t : same_rest e (set_tab e t).
Proof. done. Qed.

Lemma same_rest_trans e1 e2 e3 : same_rest e1 e2 -> same_rest e2 e3 -> same_rest e1 e3.
Proof. unfold same_rest. intros (? & ? & ? & ?) (? & ? & ? & ?). repeat split; congruence. Qed.

(** ** Ageing *)

(** An entry after a tick of the timer. *)
Definition aged (en : etharp_entry) : etharp_entry :=
  match ae_state en with
  | EMPTY => en
  | PENDING => if ARP_MAXPENDING <=? ae_ctime en + 1 then blank else set_ae_ctime en (ae_ctime en + 1)
  | STABLE | REREQUESTING =>
      if ARP_MAXAGE <=? ae_ctime en + 1 then blank
      else set_ae_state (set_ae_ctime en (ae_ctime en + 1)) STABLE
  end.

Lemma aged_ok en : entry_ok en -> entry_ok (aged en).
Proof.
  intros [H1 H2 H3 H4]. unfold aged, ARP_MAXAGE, ARP_MAXPENDING in *. destruct (ae_state en) eqn:E.
  - by split; rewrite ?E.
  - destruct (Z.leb_spec 2 (ae_ctime en + 1)); [apply blank_ok |].
    split; cbn; unfold ARP_MAXAGE, ARP_MAXPENDING; [done | lia | lia | done].
  - destruct (Z.leb_spec 240 (ae_ctime en + 1)); [apply blank_ok |].
    split; cbn; unfold ARP_MAXAGE; [intros H'; by apply H1 in H' | lia | done | done].
  - destruct (Z.leb_spec 240 (ae_ctime en + 1)); [apply blank_ok |].
    split; cbn; unfold ARP_MAXAGE; [intros H'; by apply H1 in H' | lia | done | done].
Qed.

(** A tick either empties the entry or keeps its queue and address. *)
Lemma aged_cases en : aged en = blank \/ (ae_q (aged en) = ae_q en /\ ae_ipaddr (aged en) = ae_ipaddr en).
Proof. unfold aged. destruct (ae_state en); [by right | | |]; case_bool; [by left | by right | by left | by right | by left | by right]. Qed.

Lemma tmr_entry_spec e L ext Q i en :
  arp_sys e L ext Q -> entry e i = Some en ->
  exists e' L' Q', tmr_entry custom_free e i = Some e' /\
    e_tab e' = <[Z.to_nat i := aged en]> (e_tab e) /\ arp_sys e' L' ext Q' /\ eframe e L e' L' /\ same_rest e e'.
Proof.
  intros Ha E. unfold tmr_entry. rewrite E. cbn [mbind option_bind].
  assert (entry_ok en) as Hok by (eapply Forall_lookup_1; [apply Ha | exact E]).
  pose proof (aged_ok en Hok) as Hok'. pose proof Hok as [Hq Ht Hp Hm]. unfold ARP_MAXAGE, ARP_MAXPENDING in *.
  destruct (bool_decide_reflect (ae_state en = EMPTY)) as [Es | Es]; cbn [negb].
  { exists e, L, Q. unfold aged. rewrite Es. split; [done |]. split; [symmetry; by apply list_insert_id |].
    split; [done |]. split; [apply eframe_refl | done]. }
  rewrite u8_id by lia. rewrite (set_entry_insert e i en) by done.
  destruct (decide (aged en = blank)) as [Eb | Eb].
  - destruct (free_entry_spec e L ext Q i en (set_ae_ctime en (ae_ctime en + 1)) Ha E eq_refl)
      as (s' & L' & l & El & Hr & Ha' & Hf).
    assert (((240 <=? ae_ctime en + 1) || (bool_decide (ae_state en = PENDING) && (2 <=? ae_ctime en + 1))) = true)
      as ->.
    { unfold aged, ARP_MAXAGE, ARP_MAXPENDING in Eb. destruct (ae_state en) eqn:E1; [done | | |].
      - destruct (2 <=? ae_ctime en + 1); [by rewrite orb_true_r | by apply (f_equal ae_state) in Eb; cbn in Eb; congruence].
      - destruct (240 <=? ae_ctime en + 1); [done | by apply (f_equal ae_state) in Eb].
      - destruct (240 <=? ae_ctime en + 1); [done | by apply (f_equal ae_state) in Eb]. }
    eexists _, L', _. split; [exact Hr |]. rewrite Eb. split; [done |]. split; [exact Ha' |]. split; [exact Hf | done].
  - destruct (aged_cases en) as [? | [Eq Ei]]; [done |].
    exists (set_tab e (<[Z.to_nat i := aged en]> (e_tab e))), L, Q.
    split; [| split; [done | split; [| split; [| done]]]].
    + unfold aged, ARP_MAXAGE, ARP_MAXPENDING in *. destruct (ae_state en) eqn:E1; [done | | |].
      * destruct (2 <=? ae_ctime en + 1); [done |]. specialize (Hp eq_refl).
        rewrite (proj2 (Z.leb_gt 240 (ae_ctime en + 1))) by lia. done.
      * destruct (240 <=? ae_ctime en + 1); [done |].
        assert (set_ae_state (set_ae_ctime en (ae_ctime en + 1)) STABLE = set_ae_ctime en (ae_ctime en + 1)) as ->
          by (destruct en; cbn in E1 |- *; by subst). done.
      * destruct (240 <=? ae_ctime en + 1); [done |]. cbn [orb andb bool_decide].
        rewrite (set_entry_again e i en) by done. done.
    + apply (arp_set_entry e L ext Q i en); [done | done | done | done |]. intros _. rewrite Ei.
      by apply (as_unique _ _ _ _ Ha).
    + by split; [apply kept_refl | done | apply preserves_refl].
Qed.

(** A loop over the table that treats each entry on its own. *)
Definition table_body (op : estate W X -> Z -> option (estate W X)) (x : estate W X * Z)
    : (estate W X * Z) + option (estate W X) :=
  let '(e, i) := x in
  if i <? ARP_TABLE_SIZE then
    match op e i with None => inr None | Some e => inl (e, u8 (i + 1)) end
  else inr (Some e).

Lemma table_loop_from (op : estate W X -> Z -> option (estate W X)) (f : etharp_entry -> etharp_entry) ext k :
  (forall e L Q i en, arp_sys e L ext Q -> entry e i = Some en ->
     exists e' L' Q', op e i = Some e' /\ e_tab e' = <[Z.to_nat i := f en]> (e_tab e) /\ arp_sys e' L' ext Q' /\
       eframe e L e' L' /\ same_rest e e') ->
  forall e L Q i, arp_sys e L ext Q -> i + Z.of_nat k = 10 -> 0 <= i ->
  exists e' L' Q', while (S k) (table_body op) (e, i) = Some (Some e') /\
    e_tab e' = take (Z.to_nat i) (e_tab e) ++ (f <$> drop (Z.to_nat i) (e_tab e)) /\
    arp_sys e' L' ext Q' /\ eframe e L e' L' /\ same_rest e e'.
Proof.
  intros Hop. induction k as [| k IH]; intros e L Q i Ha Hi Hi0; rewrite while_S; unfold table_body at 1, ARP_TABLE_SIZE.
  - rewrite (proj2 (Z.ltb_ge i 10)) by lia. exists e, L, Q. split; [done |].
    rewrite take_ge, drop_ge by (rewrite (as_len _ _ _ _ Ha); lia). cbn. rewrite app_nil_r.
    split; [done |]. split; [done |]. split; [apply eframe_refl | done].
  - rewrite (proj2 (Z.ltb_lt i 10)) by lia.
    destruct (lookup_lt_is_Some_2 (e_tab e) (Z.to_nat i)) as [en En]; [rewrite (as_len _ _ _ _ Ha); lia |].
    destruct (Hop e L Q i en Ha En) as (e1 & L1 & Q1 & -> & Et & Ha1 & Hf1 & Hs1).
    rewrite u8_id by lia.
    destruct (IH e1 L1 Q1 (i + 1) Ha1) as (e2 & L2 & Q2 & Hw & Et2 & Ha2 & Hf2 & Hs2); [lia | lia |].
    exists e2, L2, Q2. split; [done |]. split; [| split; [done | split; [by eapply eframe_trans |]]].
    + rewrite Et2, Et. replace (Z.to_nat (i + 1)) with (S (Z.to_nat i)) by lia.
      pose proof (lookup_lt_Some _ _ _ En) as Hlt.
      rewrite (take_S_r _ _ (f en)) by (by rewrite list_lookup_insert_eq).
      rewrite take_insert_ge, drop_insert_lt by lia. rewrite (drop_S _ _ _ En). by rewrite <- app_assoc.
    + by eapply same_rest_trans.
Qed.

Lemma table_loop (op : estate W X -> Z -> option (estate W X)) (f : etharp_entry -> etharp_entry) ext e L Q :
  (forall e L Q i en, arp_sys e L ext Q -> entry e i = Some en ->
     exists e' L' Q', op e i = Some e' /\ e_tab e' = <[Z.to_nat i := f en]> (e_tab e) /\ arp_sys e' L' ext Q' /\
       eframe e L e' L' /\ same_rest e e') ->
  arp_sys e L ext Q ->
  exists e' L' Q', while 11 (table_body op) (e, 0) = Some (Some e') /\ e_tab e' = f <$> e_tab e /\
    arp_sys e' L' ext Q' /\ eframe e L e' L' /\ same_rest e e'.
Proof. intros Hop Ha. exact (table_loop_from op f ext 10 Hop e L Q 0 Ha eq_refl ltac:(lia)). Qed.

Lemma tmr_spec e L ext Q :
  arp_sys e L ext Q ->
  exists e' L' Q', etharp_tmr custom_free e = Some e' /\ e_tab e' = aged <$> e_tab e /\
    arp_sys e' L' ext Q' /\ eframe e L e' L' /\ same_rest e e'.
Proof.
  intros Ha. destruct (table_loop (tmr_entry custom_free) aged ext e L Q) as (e' & L' & Q' & Hw & H'); [| done |].
  { intros. by apply tmr_entry_spec with (Q := Q0). }
  exists e', L', Q'. split; [| done]. unfold etharp_tmr.
  change (tmr_body custom_free) with (table_body (tmr_entry custom_free)). by rewrite Hw.
Qed.

(** [k] ticks of the timer. *)
Fixpoint ticks (k : nat) e : option (estate W X) :=
  match k with O => Some e | S k => e ← etharp_tmr custom_free e; ticks k e end.

(** How long an entry lives. *)
Definition lifetime (st : etharp_state) : Z :=
  match st with EMPTY => 0 | PENDING => ARP_MAXPENDING | STABLE | REREQUESTING => ARP_MAXAGE end.

(** An entry [k] ticks later. *)
Definition aged_by (k : nat) (en : etharp_entry) : etharp_entry :=
  if bool_decide (ae_state en = EMPTY) || (k =? 0)%nat then en
  else if ae_ctime en + Z.of_nat k <? lifetime (ae_state en)
  then set_ae_ctime (set_ae_state en (if is_stable (ae_state en) then STABLE else PENDING)) (ae_ctime en + Z.of_nat k)
  else blank.

Lemma aged_by_in_use k en :
  ae_state en <> EMPTY ->
  aged_by (S k) en =
    if ae_ctime en + Z.of_nat (S k) <? lifetime (ae_state en)
    then set_ae_ctime (set_ae_state en (if is_stable (ae_state en) then STABLE else PENDING))
           (ae_ctime en + Z.of_nat (S k))
    else blank.
Proof. intros H'. unfold aged_by. by rewrite bool_decide_false. Qed.

Lemma aged_by_S k en : aged_by k (aged en) = aged_by (S k) en.
Proof.
  destruct (decide (ae_state en = EMPTY)) as [E | E].
  { unfold aged_by, aged. rewrite E. by rewrite bool_decide_true. }
  assert (aged en = if ae_ctime en + 1 <? lifetime (ae_state en)
    then set_ae_ctime (set_ae_state en (if is_stable (ae_state en) then STABLE else PENDING)) (ae_ctime en + 1)
    else blank) as ->.
  { unfold aged, lifetime, ARP_MAXAGE, ARP_MAXPENDING. rewrite !Z.leb_antisym.
    destruct en as [q ip np mac st t]. cbn in E |- *. destruct st; [done | | |]; cbn; by destruct (_ <? _). }
  rewrite aged_by_in_use by done. destruct (Z.ltb_spec (ae_ctime en + 1) (lifetime (ae_state en))) as [Hl | Hl].
  - destruct k as [| k].
    + rewrite (proj2 (Z.ltb_lt _ _)) by done. unfold aged_by. by rewrite orb_true_r.
    + rewrite aged_by_in_use by (cbn; by destruct (is_stable _)). cbn [ae_ctime ae_state set_ae_ctime set_ae_state].
      replace (ae_ctime en + 1 + Z.of_nat (S k)) with (ae_ctime en + Z.of_nat (S (S k))) by lia.
      assert (lifetime (if is_stable (ae_state en) then STABLE else PENDING) = lifetime (ae_state en)) as ->
        by by destruct (ae_state en).
      assert (is_stable (if is_stable (ae_state en) then STABLE else PENDING) = is_stable (ae_state en)) as ->
        by by destruct (ae_state en).
      done.
  - rewrite (proj2 (Z.ltb_ge _ _)) by lia. done.
Qed.

Lemma ticks_spec k e L ext Q :
  arp_sys e L ext Q ->
  exists e' L' Q', ticks k e = Some e' /\ e_tab e' = aged_by k <$> e_tab e /\
    arp_sys e' L' ext Q' /\ eframe e L e' L' /\ same_rest e e'.
Proof.
  revert e L Q. induction k as [| k IH]; intros e L Q Ha.
  - exists e, L, Q. split; [done |]. split; [| split; [done | split; [apply eframe_refl | done]]].
    rewrite <- (list_fmap_id (e_tab e)) at 1. apply list_fmap_ext. intros i en _. unfold aged_by.
    by rewrite orb_true_r.
  - destruct (tmr_spec e L ext Q Ha) as (e1 & L1 & Q1 & E1 & Et1 & Ha1 & Hf1 & Hs1).
    destruct (IH e1 L1 Q1 Ha1) as (e2 & L2 & Q2 & E2 & Et2 & Ha2 & Hf2 & Hs2).
    exists e2, L2, Q2. cbn [ticks]. rewrite E1. split; [exact E2 |]. split; [| split; [done | split; [by eapply eframe_trans |]]].
    + rewrite Et2, Et1, <- list_fmap_compose. apply list_fmap_ext. intros i en _. apply aged_by_S.
    + by eapply same_rest_trans.
Qed.

(** ** Removing the entries of an interface *)

Definition cleaned (np : Z) (en : etharp_entry) : etharp_entry :=
  if negb (bool_decide (ae_state en = EMPTY)) && (ae_netif en =? np) then blank else en.

Lemma cleanup_spec e L ext Q np :
  arp_sys e L ext Q ->
  exists e' L' Q', etharp_cleanup_netif custom_free e np = Some e' /\ e_tab e' = cleaned np <$> e_tab e /\
    arp_sys e' L' ext Q' /\ eframe e L e' L' /\ same_rest e e'.
Proof.
  intros Ha. set (op := fun e i => en ← entry e i;
    if negb (bool_decide (ae_state en = EMPTY)) && (ae_netif en =? np) then etharp_free_entry custom_free e i else Some e).
  destruct (table_loop op (cleaned np) ext e L Q) as (e' & L' & Q' & Hw & H'); [| done |].
  { clear e L Q Ha. intros e L Q i en Ha E. unfold op, cleaned. rewrite E. cbn [mbind option_bind].
    destruct (negb _ && _).
    - destruct (free_entry_spec e L ext Q i en en Ha E eq_refl) as (s' & L' & l & El & Hr & Ha' & Hf).
      rewrite list_insert_id in Hr by exact E. assert (set_tab e (e_tab e) = e) as Ee by by destruct e.
      rewrite Ee in Hr. eexists _, L', _. split; [exact Hr |]. split; [done |]. split; [exact Ha' |].
      split; [exact Hf | done].
    - exists e, L, Q. split; [done |]. split; [symmetry; by apply list_insert_id |]. split; [done |].
      split; [apply eframe_refl | done]. }
  exists e', L', Q'. split; [| done]. unfold etharp_cleanup_netif.
  assert (forall x, cleanup_body custom_free np x = table_body op x) as Hb.
  { intros [x i]. unfold cleanup_body, table_body, op. destruct (i <? ARP_TABLE_SIZE); [| done].
    destruct (entry x i) as [en |]; [| done]. cbn [mbind option_bind]. by destruct (negb _ && _). }
  assert (forall k x, while k (cleanup_body custom_free np) x = while k (table_body op) x) as ->; [| by rewrite Hw].
  induction k as [| k IH]; intros x; [done |]. rewrite !while_S, Hb. by destruct (table_body op x).
Qed.

(** ** Searching *)

Definition pending_idle (en : etharp_entry) : Prop := ae_state en = PENDING /\ ae_q en = 0.
Definition pending_queue (en : etharp_entry) : Prop := ae_state en = PENDING /\ ae_q en <> 0.
Definition stable (en : etharp_entry) : Prop := is_stable (ae_state en) = true.
Definition vacant (en : etharp_entry) : Prop := ae_state en = EMPTY.
Definition resolves (ip : Z) (en : etharp_entry) : Prop := ae_state en <> EMPTY /\ ae_ipaddr en = ip.

(** No entry before [k] satisfies [P]. *)
Definition none (P : etharp_entry -> Prop) (tab : list etharp_entry) (k : nat) : Prop :=
  forall j en, (j < k)%nat -> tab !! j = Some en -> ~ P en.

(** Entry [i] is the oldest before [k] that satisfies [P], the last one if several
    have its age. *)
Definition oldest (P : etharp_entry -> Prop) (tab : list etharp_entry) (k i : nat) : Prop :=
  exists en, tab !! i = Some en /\ P en /\ (i < k)%nat /\
    forall j en', (j < k)%nat -> tab !! j = Some en' -> P en' ->
      ae_ctime en' < ae_ctime en \/ (ae_ctime en' = ae_ctime en /\ (j <= i)%nat).

(** The pair [old], [age] the search keeps for the entries that satisfy [P]. *)
Definition cand_ok (P : etharp_entry -> Prop) (tab : list etharp_entry) (k : nat) (old age : Z) : Prop :=
  (old = 10 /\ age = 0 /\ none P tab k) \/
  (exists i en, old = Z.of_nat i /\ tab !! i = Some en /\ age = ae_ctime en /\ oldest P tab k i).

Lemma none_S P tab k en : none P tab k -> tab !! k = Some en -> ~ P en -> none P tab (S k).
Proof.
  intros Hn Hk Hp j en' Hj Hen'. destruct (decide (j = k)) as [-> | Hne]; [congruence |].
  apply (Hn j en'); [lia | done].
Qed.

Lemma cand_skip P tab k old age en :
  cand_ok P tab k old age -> tab !! k = Some en -> ~ P en -> cand_ok P tab (S k) old age.
Proof.
  intros [(-> & -> & Hn) | (i & en0 & -> & Hi & -> & (en1 & Hi1 & HP & Hik & Hmax))] Hk Hp.
  - left. split; [done |]. split; [done |]. by eapply none_S.
  - right. exists i, en0. split; [done |]. split; [done |]. split; [done |]. exists en1.
    split; [done |]. split; [done |]. split; [lia |]. intros j en' Hj Hen' HP'.
    destruct (decide (j = k)) as [-> | Hne]; [congruence |]. apply (Hmax j); [lia | done | done].
Qed.

Lemma cand_step P tab k old age en :
  cand_ok P tab k old age -> tab !! k = Some en -> P en -> 0 <= ae_ctime en ->
  if age <=? ae_ctime en then cand_ok P tab (S k) (Z.of_nat k) (ae_ctime en) else cand_ok P tab (S k) old age.
Proof.
  intros Hc Hk HP Ht. destruct (Z.leb_spec age (ae_ctime en)) as [Hle | Hgt].
  - right. exists k, en. split; [done |]. split; [done |]. split; [done |]. exists en.
    split; [done |]. split; [done |]. split; [lia |]. intros j en' Hj Hen' HP'.
    destruct (decide (j = k)) as [-> | Hne]; [right; simplify_eq; split; [done | lia] |].
    destruct Hc as [(_ & _ & Hn) | (i & en0 & _ & Hi & -> & (en1 & Hi1 & _ & Hik & Hmax))].
    { by destruct (Hn j en' ltac:(lia) Hen'). }
    simplify_eq. destruct (Hmax j en' ltac:(lia) Hen' HP') as [? | [? ?]]; [left; lia |].
    destruct (decide (ae_ctime en' = ae_ctime en)); [right; lia | left; lia].
  - destruct Hc as [(-> & -> & Hn) | (i & en0 & -> & Hi & -> & (en1 & Hi1 & HP1 & Hik & Hmax))]; [lia |].
    right. exists i, en0. split; [done |]. split; [done |]. split; [done |]. exists en1.
    split; [done |]. split; [done |]. split; [lia |]. intros j en' Hj Hen' HP'. simplify_eq.
    destruct (decide (j = k)) as [-> | Hne]; [left; simplify_eq; lia |]. apply (Hmax j); [lia | done | done].
Qed.

(** The first vacant entry before [k], 10 if there is none. *)
Definition empty_ok (tab : list etharp_entry) (k : nat) (z : Z) : Prop :=
  (z = 10 /\ none vacant tab k) \/
  (exists i en, z = Z.of_nat i /\ (i < k)%nat /\ tab !! i = Some en /\ vacant en /\ none vacant tab i).

Lemma empty_skip tab k z en : empty_ok tab k z -> tab !! k = Some en -> z <> 10 \/ ~ vacant en -> empty_ok tab (S k) z.
Proof.
  intros [[-> Hn] | (i & en' & ? & ? & ?)] Hk Hne.
  - left. split; [done |]. eapply none_S; [done | done |]. by destruct Hne.
  - right. exists i, en'. split; [done |]. split; [lia | done].
Qed.

(** What the search knows before entry [k]. *)
Record searched (tab : list etharp_entry) (ip : Z) (k : nat) (c : candidates) : Prop := {
  se_match : none (resolves ip) tab k;
  se_stable : cand_ok stable tab k (old_stable c) (age_stable c);
  se_pending : cand_ok pending_idle tab k (old_pending c) (age_pending c);
  se_queue : cand_ok pending_queue tab k (old_queue c) (age_queue c);
  se_empty : empty_ok tab k (empty c)
}.

Lemma searched_0 tab ip : searched tab ip 0 no_candidates.
Proof.
  assert (forall P, none P tab 0) as Hn by (intros P j en Hj; lia).
  split; [done | by left | by left | by left | by left].
Qed.

(** An entry in use that does not match. *)
Lemma searched_remember tab ip k c en :
  searched tab ip k c -> tab !! k = Some en -> 0 <= ae_ctime en -> ae_state en <> EMPTY -> ae_ipaddr en <> ip ->
  searched tab ip (S k) (remember c (Z.of_nat k) en).
Proof.
  intros [S1 S2 S3 S4 S5] Hk Ht Es Ei. assert (~ resolves ip en) as N4 by (intros [_ ?]; congruence).
  assert (empty_ok tab (S k) (empty c)) as Hv by (by eapply empty_skip; [| | right]).
  assert (stable en \/ pending_idle en \/ pending_queue en) as Hcase.
  { unfold stable, pending_idle, pending_queue. destruct (ae_state en); [done | | by left | by left].
    destruct (decide (ae_q en = 0)); tauto. }
  assert (stable en -> ae_state en <> PENDING) as Hsp by (unfold stable; by destruct (ae_state en)).
  destruct Hcase as [HP | [HP | HP]]; pose proof HP as HP0.
  - pose proof (cand_step _ _ _ _ _ _ S2 Hk HP Ht) as Hs. unfold remember, stable in *.
    assert (~ pending_idle en /\ ~ pending_queue en) as [N2 N3] by (split; intros [? _]; by apply Hsp).
    destruct (ae_state en); [done | done | |]; (destruct (age_stable c <=? ae_ctime en);
      (split; [by eapply none_S | done | by eapply cand_skip | by eapply cand_skip | done])).
  - destruct HP0 as [E1 Eq]. pose proof (cand_step _ _ _ _ _ _ S3 Hk HP Ht) as Hs. unfold remember. rewrite E1, Eq.
    assert (~ stable en /\ ~ pending_queue en) as [N1 N3] by (split; [tauto | by intros [_ ?]]).
    cbn. destruct (age_pending c <=? ae_ctime en);
      (split; [by eapply none_S | by eapply cand_skip | done | by eapply cand_skip | done]).
  - destruct HP0 as [E1 Eq]. pose proof (cand_step _ _ _ _ _ _ S4 Hk HP Ht) as Hs. unfold remember. rewrite E1.
    rewrite (proj2 (Z.eqb_neq (ae_q en) 0)) by done.
    assert (~ stable en /\ ~ pending_idle en) as [N1 N3] by (split; [tauto | by intros [_ ?]]).
    cbn. destruct (age_queue c <=? ae_ctime en);
      (split; [by eapply none_S | by eapply cand_skip | by eapply cand_skip | done | done]).
Qed.

Lemma searched_vacant tab ip k c en :
  searched tab ip k c -> tab !! k = Some en -> vacant en -> (k < 10)%nat ->
  searched tab ip (S k)
    (if empty c =? 10
     then mkCand (old_pending c) (old_stable c) (Z.of_nat k) (age_pending c) (age_stable c) (old_queue c) (age_queue c)
     else c).
Proof.
  intros [S1 S2 S3 S4 S5] Hk Hv Hk10.
  assert (~ stable en /\ ~ pending_idle en /\ ~ pending_queue en /\ ~ resolves ip en) as (N1 & N2 & N3 & N4).
  { unfold stable, pending_idle, pending_queue, resolves, vacant in *. rewrite Hv. cbn. repeat split; try done; by intros [? _]. }
  destruct (Z.eqb_spec (empty c) 10) as [E0 | E0];
    (split; [by eapply none_S | by eapply cand_skip | by eapply cand_skip | by eapply cand_skip |]); cbn.
  - destruct S5 as [[_ Hn] | (i & en' & ? & ? & ?)].
    + right. exists k, en. split; [done |]. split; [lia | done].
    + lia.
  - by eapply empty_skip; [| | left].
Qed.

Lemma find_loop tab ip k j c :
  length tab = 10%nat -> Forall (fun en => 0 <= ae_ctime en) tab -> (k + j = 10)%nat -> searched tab ip k c ->
  exists r, while (S j) (find_body tab (Some ip)) (c, Z.of_nat k) = Some (Some r) /\
    match r with
    | inl i => exists n en, i = Z.of_nat n /\ tab !! n = Some en /\ resolves ip en
    | inr c => searched tab ip 10 c
    end.
Proof.
  intros Hlen Hage. revert k c. induction j as [| j IH]; intros k c Hk Hs; rewrite while_S; unfold find_body at 1, ARP_TABLE_SIZE.
  - rewrite (proj2 (Z.ltb_ge _ _)) by lia. replace k with 10%nat in * by lia. by eexists.
  - rewrite (proj2 (Z.ltb_lt _ _)), Nat2Z.id by lia.
    destruct (lookup_lt_is_Some_2 tab k) as [en En]; [lia |]. rewrite En. rewrite u8_id by lia.
    replace (Z.of_nat k + 1) with (Z.of_nat (S k)) by lia.
    destruct (bool_decide_reflect (ae_state en = EMPTY)) as [Es | Es]; cbn [negb].
    + pose proof (searched_vacant tab ip k c en Hs En Es ltac:(lia)) as Hs'. rewrite andb_true_r.
      destruct (empty c =? 10); by apply IH; [lia |].
    + rewrite andb_false_r. destruct (Z.eqb_spec ip (ae_ipaddr en)) as [Ei | Ei].
      * eexists. split; [done |]. exists k, en. split; [done |]. split; [done |]. split; [done | congruence].
      * apply IH; [lia |]. apply searched_remember; [done | done | | done | congruence].
        by apply (Forall_lookup_1 _ _ _ _ Hage En).
Qed.

(** The entry the search creates: the first vacant one or, when it may recycle,
    the least important one. *)
Definition selected (tab : list etharp_entry) (try_hard : bool) (i : nat) : Prop :=
  (exists en, tab !! i = Some en /\ vacant en /\ none vacant tab i) \/
  (try_hard = true /\ none vacant tab 10 /\
   (oldest stable tab 10 i \/
    (none stable tab 10 /\ oldest pending_idle tab 10 i) \/
    (none stable tab 10 /\ none pending_idle tab 10 /\ oldest pending_queue tab 10 i))).

(** With no vacant entry the choice always finds one. *)
Lemma choose_spec tab ip c :
  length tab = 10%nat -> searched tab ip 10 c -> none vacant tab 10 ->
  exists i, choose c = Z.of_nat i /\ (i < 10)%nat /\ selected tab true i.
Proof.
  intros Hlen [S1 S2 S3 S4 _] Hn. unfold choose, ARP_TABLE_SIZE.
  assert (forall P old age, cand_ok P tab 10 old age ->
    (old = 10 /\ none P tab 10) \/ exists i, old = Z.of_nat i /\ (i < 10)%nat /\ oldest P tab 10 i) as Hcase.
  { intros P old age [(-> & _ & ?) | (i & en & -> & Hi & _ & Ho)]; [by left | right].
    exists i. split; [done |]. split; [apply lookup_lt_Some in Hi; lia | done]. }
  destruct (Hcase _ _ _ S2) as [[-> N1] | (i & -> & Hi & Ho)].
  2: { rewrite (proj2 (Z.ltb_lt _ _)) by lia. exists i. split; [done |]. split; [done |]. right. tauto. }
  destruct (Hcase _ _ _ S3) as [[-> N2] | (i & -> & Hi & Ho)].
  2: { cbn. rewrite (proj2 (Z.ltb_lt _ _)) by lia. exists i. split; [done |]. split; [done |]. right. tauto. }
  destruct (Hcase _ _ _ S4) as [[-> N3] | (i & -> & Hi & Ho)].
  2: { cbn. rewrite (proj2 (Z.ltb_lt _ _)) by lia. exists i. split; [done |]. split; [done |]. right. tauto. }
  exfalso. destruct (lookup_lt_is_Some_2 tab 0) as [en En]; [lia |].
  pose proof (Hn 0%nat en ltac:(lia) En) as V. pose proof (N1 0%nat en ltac:(lia) En) as V1.
  pose proof (N2 0%nat en ltac:(lia) En) as V2. pose proof (N3 0%nat en ltac:(lia) En) as V3.
  unfold vacant, stable, pending_idle, pending_queue in *. destruct (ae_state en); try done.
  destruct (decide (ae_q en = 0)); tauto.
Qed.

(** Giving a vacant entry its address. *)
Definition fresh (ip : Z) (en : etharp_entry) : etharp_entry := set_ae_ctime (set_ae_ipaddr en ip) 0.

Lemma claim_entry e L ext Q i en ip :
  arp_sys e L ext Q -> entry e i = Some en -> vacant en -> none (resolves ip) (e_tab e) 10 ->
  let e' := set_tab e (<[Z.to_nat i := fresh ip en]> (e_tab e)) in
  set_entry (set_entry e i (fun en => set_ae_ipaddr en ip)) i (fun en => set_ae_ctime en 0) = e' /\
  arp_sys e' L ext Q /\ unclaimed (e_tab e') (Z.to_nat i) ip.
Proof.
  intros Ha E Hv Hn e'. split.
  - rewrite (set_entry_insert e i en) by done. by apply (set_entry_again e i en).
  - assert (entry_ok en) as Hok by (eapply Forall_lookup_1; [apply Ha | exact E]). split.
    + apply (arp_set_entry e L ext Q i en); [done | done | done | | done].
      destruct Hok as [H1 H2 H3 H4]. split; cbn; try done; unfold vacant in *; congruence.
    + intros j en' Hj Hen' Hs Hip. cbn in Hen'. rewrite list_lookup_insert_ne in Hen' by done.
      apply (Hn j en'); [| done | done]. apply lookup_lt_Some in Hen'. by rewrite (as_len _ _ _ _ Ha) in Hen'.
Qed.

Definition find_only (flags : Z) : bool := negb (Z.land flags ETHARP_FLAG_FIND_ONLY =? 0).
Definition try_hard (flags : Z) : bool := negb (Z.land flags ETHARP_FLAG_TRY_HARD =? 0).

(** The outcome of a search that creates entry [n]. *)
Record created e L ext (ip : Z) (n : nat) (hard : bool) e' : Prop := {
  cr_selected : selected (e_tab e) hard n;
  cr_lt : (n < 10)%nat;
  cr_entry : exists en, vacant en /\ ae_q en = 0 /\ is_mac (ae_ethaddr en) /\
             e_tab e' = <[n := fresh ip en]> (e_tab e);
  cr_rest : same_rest e e';
  cr_free : unclaimed (e_tab e') n ip;
  cr_sys : exists L' Q', arp_sys e' L' ext Q' /\ eframe e L e' L'
}.

Lemma create_vacant e L ext Q ip n en hard :
  arp_sys e L ext Q -> none (resolves ip) (e_tab e) 10 -> e_tab e !! n = Some en -> vacant en ->
  none vacant (e_tab e) n ->
  exists e', created e L ext ip n hard e' /\
    e' = set_entry (set_entry e (Z.of_nat n) (fun en => set_ae_ipaddr en ip)) (Z.of_nat n) (fun en => set_ae_ctime en 0).
Proof.
  intros Ha Hn E Hv Hf. pose proof (lookup_lt_Some _ _ _ E) as Hlt. rewrite (as_len _ _ _ _ Ha) in Hlt.
  assert (entry e (Z.of_nat n) = Some en) as E' by (unfold entry; by rewrite Nat2Z.id).
  assert (entry_ok en) as Hok by (eapply Forall_lookup_1; [apply Ha | exact E]).
  destruct (claim_entry e L ext Q _ en ip Ha E' Hv Hn) as (Hr & Ha' & Hu). rewrite Nat2Z.id in *.
  exists (set_tab e (<[n := fresh ip en]> (e_tab e))). split; [| by rewrite Hr].
  split; [left; by exists en | done | | done | done |].
  - exists en. split; [done |]. split; [| split; [by destruct Hok | done]].
    destruct (decide (ae_q en = 0)) as [| Hq]; [done |]. apply (eo_queue _ Hok) in Hq. unfold vacant in Hv. congruence.
  - exists L, Q. split; [exact Ha' |]. by split; [apply kept_refl | done | apply preserves_refl].
Qed.

Lemma create_recycled e L ext Q ip n :
  arp_sys e L ext Q -> none (resolves ip) (e_tab e) 10 -> (n < 10)%nat -> selected (e_tab e) true n ->
  exists e1 e', etharp_free_entry custom_free e (Z.of_nat n) = Some e1 /\ created e L ext ip n true e' /\
    e' = set_entry (set_entry e1 (Z.of_nat n) (fun en => set_ae_ipaddr en ip)) (Z.of_nat n) (fun en => set_ae_ctime en 0).
Proof.
  intros Ha Hn Hlt Hsel. destruct (lookup_lt_is_Some_2 (e_tab e) n) as [en E]; [rewrite (as_len _ _ _ _ Ha); lia |].
  assert (entry e (Z.of_nat n) = Some en) as E' by (unfold entry; by rewrite Nat2Z.id).
  destruct (free_entry_spec e L ext Q _ en en Ha E' eq_refl) as (s' & L1 & l & El & Hr & Ha1 & Hf1).
  rewrite Nat2Z.id in *. rewrite list_insert_id in Hr by exact E.
  assert (set_tab e (e_tab e) = e) as Ee by by destruct e. rewrite Ee in Hr.
  set (e1 := set_tab _ _) in *. exists e1.
  assert (entry e1 (Z.of_nat n) = Some blank) as E1.
  { unfold entry. cbn. rewrite Nat2Z.id. apply list_lookup_insert_eq. rewrite (as_len _ _ _ _ Ha). lia. }
  destruct (claim_entry e1 L1 ext _ _ blank ip Ha1 E1 eq_refl) as (Hr2 & Ha2 & Hu).
  { intros j en' Hj Hen' [Hs Hip]. cbn in Hen'. apply list_lookup_insert_Some in Hen' as [(-> & <- & _) | [_ Hen']].
    - done.
    - by apply (Hn j en' Hj Hen'). }
  rewrite Nat2Z.id in *. exists (set_tab e1 (<[n := fresh ip blank]> (e_tab e1))).
  split; [exact Hr |]. split; [| by rewrite Hr2]. split; [done | done | | done | done |].
  - exists blank. split; [done |]. split; [done |]. split; [apply blank_ok |]. cbn. by rewrite list_insert_insert_eq.
  - exists L1. eexists. split; [exact Ha2 |]. by destruct Hf1.
Qed.

Lemma find_spec e L ext Q ip flags :
  arp_sys e L ext Q ->
  exists e' r, etharp_find_entry custom_free e (Some ip) flags = Some (e', r) /\
    ((exists n en, r = Z.of_nat n /\ e_tab e !! n = Some en /\ resolves ip en /\ e' = e) \/
     (none (resolves ip) (e_tab e) 10 /\
      ((r = ERR_MEM /\ e' = e /\ (find_only flags = true \/ (none vacant (e_tab e) 10 /\ try_hard flags = false))) \/
       (find_only flags = false /\ exists n, r = Z.of_nat n /\ created e L ext ip n (try_hard flags) e')))).
Proof.
  intros Ha. pose proof (as_len _ _ _ _ Ha) as Hlen.
  destruct (find_loop (e_tab e) ip 0 10 no_candidates Hlen) as (r & Hw & Hr); [| done | apply searched_0 |].
  { eapply Forall_impl; [apply Ha |]. intros en [_ H2 _ _]. lia. }
  unfold etharp_find_entry. change (Z.of_nat 0) with 0 in Hw. rewrite Hw. cbn [mjoin option_join mbind option_bind].
  destruct r as [i | c].
  { destruct Hr as (n & en & -> & E & Hres). exists e, (Z.of_nat n). split; [done |]. left. by exists n, en. }
  unfold find_only, try_hard. destruct (Z.land flags ETHARP_FLAG_FIND_ONLY =? 0) eqn:Ef; cbn [negb orb].
  2: { exists e, ERR_MEM. split; [done |]. right. split; [apply Hr |]. left. tauto. }
  destruct (se_empty _ _ _ _ Hr) as [[E0 Hn] | (n & en & E0 & Hlt & E & Hv & Hf)].
  - unfold ARP_TABLE_SIZE. rewrite E0. cbn [Z.eqb Pos.eqb andb Z.ltb Z.compare Pos.compare Pos.compare_cont].
    destruct (Z.land flags ETHARP_FLAG_TRY_HARD =? 0) eqn:Et; cbn [negb].
    { exists e, ERR_MEM. split; [done |]. right. split; [apply Hr |]. left. tauto. }
    destruct (choose_spec _ _ _ Hlen Hr Hn) as (n & Ec & Hlt & Hsel).
    destruct (create_recycled e L ext Q ip n Ha (se_match _ _ _ _ Hr) Hlt Hsel) as (e1 & e' & Hfree & Hcr & ->).
    rewrite Ec, (proj2 (Z.ltb_lt _ _)), Hfree by lia. cbn [mbind option_bind].
    rewrite (proj2 (Z.ltb_ge _ _)) by lia. eexists _, _. split; [done |]. right. split; [apply Hr |]. right.
    split; [done |]. by exists n.
  - unfold ARP_TABLE_SIZE. rewrite E0, (proj2 (Z.eqb_neq _ _)), (proj2 (Z.ltb_lt _ _)) by lia.
    cbn [andb mbind option_bind]. rewrite (proj2 (Z.ltb_ge _ _)) by lia.
    destruct (create_vacant e L ext Q ip n en (negb (Z.land flags ETHARP_FLAG_TRY_HARD =? 0)) Ha (se_match _ _ _ _ Hr) E Hv Hf)
      as (e' & Hcr & ->).
    eexists _, _. split; [done |]. right. split; [apply Hr |]. right. split; [done |]. by exists n.
Qed.

(** [etharp_find_entry] is total on every reachable table and finds the
    right entry: the one that has the address if there is one; otherwise, with
    FIND_ONLY or when the table is full and it may not try hard, ERR_MEM and no
    change; otherwise the first vacant entry, and in a full table the oldest
    stable entry, else the oldest pending one without packets, else the oldest
    pending one, whose packets are released.  The new entry has the address, no
    other entry has it, and the invariant of table, queues and references
    holds. *)
Theorem etharp_find_entry_correct e L ext Q ip flags :
  arp_sys e L ext Q ->
  exists e' r, etharp_find_entry custom_free e (Some ip) flags = Some (e', r) /\
    ((exists n en, r = Z.of_nat n /\ e_tab e !! n = Some en /\ resolves ip en /\ e' = e) \/
     (none (resolves ip) (e_tab e) 10 /\
      ((r = ERR_MEM /\ e' = e /\ (find_only flags = true \/ (none vacant (e_tab e) 10 /\ try_hard flags = false))) \/
       (find_only flags = false /\ exists n, r = Z.of_nat n /\ created e L ext ip n (try_hard flags) e')))).
Proof. apply find_spec. Qed.

(** entries expire on time.  [k] calls of [etharp_tmr] turn every entry into
    the one [aged_by k] gives: a pending entry is gone after 2 ticks and a stable
    one after 240, counted from when it was last confirmed; before that its age
    is [k] more, and one whose address was asked for again is stable.  The
    packets of entries that expire are released, no other pbuf and no live byte
    changes. *)
Theorem etharp_tmr_ages k e L ext Q :
  arp_sys e L ext Q ->
  exists e' L' Q', ticks k e = Some e' /\ e_tab e' = aged_by k <$> e_tab e /\
    arp_sys e' L' ext Q' /\ eframe e L e' L' /\ same_rest e e'.
Proof. apply ticks_spec. Qed.

(** The table as it is at the start, with packets in use elsewhere. *)
Lemma arp_initial L0 (s : pstate W) own st1 st2 (x : X) :
  tracked L0 s own -> exists L, arp_sys (mkEstate s (replicate 10 blank) ∅ 0 st1 st2 x) L own (replicate 10 []).
Proof.
  intros [(L & Hs & _) _ Hr Hc]. exists L. split; try done.
  - split; try done. cbn. intros q [r Hq]. by rewrite lookup_empty in Hq.
  - cbn. repeat constructor.
  - constructor.
  - cbn. intros q [r Hq]. by rewrite lookup_empty in Hq.
  - by intros p ?%elem_of_nil.
  - by intros p ?%elem_of_nil.
  - cbn. repeat (constructor; [apply blank_ok |]). constructor.
  - cbn. intros i en E. assert (en ∈ replicate 10 blank) as Hin by (by eapply list_elem_of_lookup_2).
    apply elem_of_replicate in Hin as [-> _]. done.
Qed.

End table.

(** ** A sample table *)

#[local] Existing Instance World.world_system.
#[local] Existing Instance World.sample_laws.

Definition no_stats : stats_proto := mkStatsProto 0 0 0 0 0 0 0 0 0 0 0 0.

(** The initial table while another module holds the packet of
    [sample_packet]; the device keeps the frames it is given. *)
Definition sample_arp : estate World.world (list (list Z)) :=
  mkEstate sample_packet (replicate 10 blank) ∅ 0 no_stats no_stats [].

Lemma sample_arp_ok : exists L, arp_sys sample_arp L [19880] (replicate 10 []).
Proof.
  apply (arp_initial ∅). apply (phistory_tracked no_stale no_custom (fun _ => eq_refl)). exact sample_packet_history.
Qed.

(** 192.168.1.10 *)
Definition sample_ip : Z := 0x0a01a8c0.

Lemma etharp_find_entry_correct_witness :
  exists e', etharp_find_entry no_custom sample_arp (Some sample_ip) ETHARP_FLAG_TRY_HARD = Some (e', 0) /\
    exists L, created sample_arp L [19880] sample_ip 0 true e'.
Proof.
  destruct sample_arp_ok as [L HL].
  destruct (etharp_find_entry_correct no_custom sample_arp L [19880] (replicate 10 []) sample_ip ETHARP_FLAG_TRY_HARD HL)
    as (e' & r & E & Hr).
  assert (r = 0) as ->.
  { assert (snd <$> etharp_find_entry no_custom sample_arp (Some sample_ip) ETHARP_FLAG_TRY_HARD = Some 0) as E0
      by (vm_compute; reflexivity). rewrite E in E0. by injection E0. }
  exists e'. split; [exact E |]. exists L.
  destruct Hr as [(n & en & _ & En & [Hs _] & _) | (_ & [(? & _) | (_ & n & Hn & Hc)])]; [| done |].
  - exfalso. apply Hs. apply list_elem_of_lookup_2, elem_of_replicate in En as [-> _]. done.
  - assert (n = 0%nat) as -> by lia. exact Hc.
Defined.

(** The same with an address that is known. *)
Definition sample_known : estate World.world (list (list Z)) :=
  set_tab sample_arp (<[0%nat := mkEntry 0 sample_ip 1 [2; 0; 0; 0; 0; 1] STABLE 0]> (e_tab sample_arp)).

Lemma sample_known_ok : exists L, arp_sys sample_known L [19880] (replicate 10 []).
Proof.
  destruct sample_arp_ok as [L HL]. exists L.
  apply (arp_set_entry sample_arp L [19880] (replicate 10 []) 0 blank); [done | done | done | |].
  - split; cbn; unfold ARP_MAXAGE, ARP_MAXPENDING; [done | lia | done |]. split; [done | repeat constructor; lia].
  - intros _ j en _ Hj Hs. apply list_elem_of_lookup_2, elem_of_replicate in Hj as [-> _]. done.
Qed.

Lemma etharp_tmr_ages_witness :
  exists e1 e2, ticks no_custom 239 sample_known = Some e1 /\ ticks no_custom 240 sample_known = Some e2 /\
    e_tab e1 !! 0%nat = Some (mkEntry 0 sample_ip 1 [2; 0; 0; 0; 0; 1] STABLE 239) /\ e_tab e2 = replicate 10 blank.
Proof.
  destruct sample_known_ok as [L HL].
  destruct (etharp_tmr_ages no_custom 239 sample_known L [19880] (replicate 10 []) HL) as (e1 & L1 & Q1 & E1 & T1 & _).
  destruct (etharp_tmr_ages no_custom 240 sample_known L [19880] (replicate 10 []) HL) as (e2 & L2 & Q2 & E2 & T2 & _).
  exists e1, e2. split; [exact E1 |]. split; [exact E2 |]. rewrite T1, T2. split; reflexivity.
Defined.

End EtharpTable.
