(* ===== verification/EtharpFlow.v ===== *)
(** ARP at work: sending packets, resolving addresses, queueing packets for
    addresses that are not resolved, and answering requests. *)

From stdpp Require Import base tactics numbers list gmap.
From Stdlib Require Import ZArith Lia.
From S2P Require Import Prelude Stats ByteOrder Fields PbufDefs NetifDefs Mylib Allocator Mem Memp PbufMem World Pbuf PbufData PbufChains PbufLinks PbufRefs IpAddr Etharp EtharpTable.

Local Open Scope Z_scope.

Module EtharpFlow.
Import ByteOrder Fields Memp Pbuf PbufData PbufChains PbufRefs IpAddr Etharp EtharpTable.

Section flow.
Context {W X : Type} `{LW : MemSystemLaws W}.
Context (stale : Z -> Z) (custom_free : pstate W -> Z -> option (pstate W)).
Context (stale_ok : forall p, Z.land (stale p) PBUF_FLAG_IS_CUSTOM = 0).
Context (linkoutput : X -> pstate W -> Z -> option (X * Z)).
(** The driver accepts every packet. *)
Context (link_total : forall x s p l, chain (pst s) p l -> p <> 0 -> exists x' r, linkoutput x s p = Some (x', r)).

Implicit Types (e : estate W X) (L : regions) (own ext : list Z) (Q : list (list (Z * Z))).

(** ** Changes that the invariant does not see *)

Lemma arp_sys_ext e L ext Q e' :
  arp_sys e L ext Q -> e_p e' = e_p e -> e_tab e' = e_tab e -> e_qst e' = e_qst e ->
  0 <= e_cached e' < ARP_TABLE_SIZE -> arp_sys e' L ext Q.
Proof.
  intros [[E1 E2 E3 E4] H2 H3 H4 H5 H6 HA H7 H8 H9] Ep Et Eq Hc.
  split; rewrite ?Ep, ?Et, ?Eq; try done. by split; rewrite ?Ep, ?Eq.
Qed.

(** A pbuf that owns its payload. *)
Definition owns_payload (b : pbuf) : Prop := type b = PBUF_RAM \/ type b = PBUF_POOL.

Lemma payload_region e L own p b :
  esys e L own -> pst (e_p e) !! p = Some b -> owns_payload b ->
  exists n, L !! p = Some n /\ p + 16 <= payload b /\ payload b + len b <= p + n.
Proof.
  intros [Hs _ _ _] Hb Ho. destruct (ps_pbuf _ _ Hs p b Hb) as (_ & _ & _ & _ & n & Hn & _ & Hp).
  exists n. split; [done |]. by destruct Ho as [E | E]; rewrite E in Hp.
Qed.

(** Writing inside the payload of a live pbuf. *)
Lemma psys_write e L own p b m :
  esys e L own -> pst (e_p e) !! p = Some b -> owns_payload b ->
  (forall x, ~ (payload b <= x < payload b + len b) -> ld8 m x = ld8 (e_mem e) x) ->
  psys (set_mem (e_p e) m) L.
Proof.
  intros He Hb Ho Hm. destruct (payload_region _ _ _ _ _ He Hb Ho) as (n & Hn & H1 & H2).
  apply psys_set_pw; [apply He |]. apply ms_data_law; [apply (es_sys _ _ _ He) |].
  intros x Hx. apply Hm. intros Hin. apply Hx. exists p, n. split; [done | lia].
Qed.

Lemma e_mem_write e m : e_mem (write_mem e m) = m.
Proof. unfold e_mem, write_mem, mem_of, set_mem. cbn. apply ms_mem_set. Qed.

Lemma esys_write e L own p b m :
  esys e L own -> pst (e_p e) !! p = Some b -> owns_payload b ->
  (forall x, ~ (payload b <= x < payload b + len b) -> ld8 m x = ld8 (e_mem e) x) ->
  esys (write_mem e m) L own.
Proof.
  intros He Hb Ho Hm. split; [by eapply psys_write | | |]; by destruct He.
Qed.

Lemma arp_write e L ext Q p b m :
  arp_sys e L ext Q -> pst (e_p e) !! p = Some b -> owns_payload b ->
  (forall x, ~ (payload b <= x < payload b + len b) -> ld8 m x = ld8 (e_mem e) x) ->
  arp_sys (write_mem e m) L ext Q.
Proof.
  intros Ha Hb Ho Hm. destruct Ha as [He H2 H3 H4 H5 H6 HA H7 H8 H9].
  split; try done. by eapply esys_write.
Qed.

Lemma link_ok e L own p :
  esys e L own -> is_Some (pst (e_p e) !! p) ->
  exists x r, link_output linkoutput e p = Some (set_dev e x, r) /\ linkoutput (e_dev e) (e_p e) p = Some (x, r).
Proof.
  intros [Hs Hr Hc _] Hp. destruct (Hc p Hp) as (l & Hl). assert (p <> 0) as Hp0.
  { intros ->. rewrite (rf_null _ _ Hr) in Hp. by destruct Hp. }
  destruct (link_total (e_dev e) (e_p e) p l Hl Hp0) as (x & r & E). exists x, r.
  unfold link_output. by rewrite E.
Qed.

(** ** The Ethernet header *)

Definition eth_header (dst src : list Z) (ty : Z) : list Z := dst ++ src ++ [ty / 256; ty mod 256].

Lemma eth_header_bytes m a dst src :
  is_mac dst -> is_mac src ->
  let m' := st16 (st_bytes (st_bytes m (a + ETH_DEST) dst) (a + ETH_SRC) src) (a + ETH_TYPE) (PP_HTONS ETHTYPE_IP) in
  bytes m' a 14 = eth_header dst src ETHTYPE_IP /\ (forall x, ~ (a <= x < a + 14) -> ld8 m' x = ld8 m x).
Proof.
  intros [Ld Bd] [Ls Bs] m'. unfold ETH_DEST, ETH_SRC, ETH_TYPE in m'. split.
  - unfold eth_header. change 14%nat with (6 + (6 + 2))%nat. rewrite !bytes_app. f_equal; [| f_equal].
    + unfold m'. rewrite bytes_st16_ne, bytes_st_bytes_ne by lia. rewrite Z.add_0_r, <- Ld. by apply bytes_st_bytes.
    + change (a + Z.of_nat 6) with (a + 6). unfold m'. rewrite bytes_st16_ne by lia. rewrite <- Ls.
      by apply bytes_st_bytes.
    + unfold m'. replace (a + Z.of_nat 6 + Z.of_nat 6) with (a + 12) by lia. by rewrite bytes_st16.
  - intros x Hx. unfold m'. rewrite ld8_st16_ne, !ld8_st_bytes_ne by lia. done.
Qed.

Lemma send_ip_spec e L own p b src dst :
  esys e L own -> pst (e_p e) !! p = Some b -> owns_payload b -> 14 <= len b -> is_mac src -> is_mac dst ->
  exists m x r, etharp_send_ip linkoutput e p src dst = Some (set_dev (write_mem e m) x, r) /\
    esys (set_dev (write_mem e m) x) L own /\
    linkoutput (e_dev e) (e_p (write_mem e m)) p = Some (x, r) /\
    bytes m (payload b) 14 = eth_header dst src ETHTYPE_IP /\
    (forall y, ~ (payload b <= y < payload b + 14) -> ld8 m y = ld8 (e_mem e) y).
Proof.
  intros He Hb Ho Hlen Hsrc Hdst. unfold etharp_send_ip. rewrite Hb. cbn [mbind option_bind].
  destruct (eth_header_bytes (e_mem e) (payload b) dst src Hdst Hsrc) as [Hh Hf]. set (m := st16 _ _ _) in *.
  pose proof (esys_write e L own p b m He Hb Ho ltac:(intros y Hy; apply Hf; lia)) as He'.
  destruct (link_ok (write_mem e m) L own p He') as (x & r & E & El); [by exists b |].
  exists m, x, r. split; [exact E |]. split; [by destruct He' |]. done.
Qed.

(** ** Packets that are sent and released *)

(** The data of a pbuf that waits, behind its Ethernet header. *)
Definition packet_data (s : pstate W) (p : Z) : list Z :=
  match pst s !! p with Some b => bytes (mem_of s) (payload b + 14) (Z.to_nat (len b - 14)) | None => [] end.

(** The device was given the packets [ds], in this order, each in a frame from
    [src] to [dst]. *)
Inductive flushed (src dst : list Z) : X -> list (list Z) -> X -> Prop :=
| flushed_nil x : flushed src dst x [] x
| flushed_cons x s p b r x1 d ds x2 :
    pst s !! p = Some b -> next b = 0 -> bytes (mem_of s) (payload b) (Z.to_nat (len b)) = eth_header dst src ETHTYPE_IP ++ d ->
    linkoutput x s p = Some (x1, r) -> flushed src dst x1 ds x2 -> flushed src dst x (d :: ds) x2.

(** An unshared pbuf is gone with its memory when its owner releases it. *)
Lemma free_pbuf_alone e L own p :
  esys e L (p :: own) -> cnt p own = 0%nat -> indeg (pst (e_p e)) p = 0%nat ->
  exists s' L', free_pbuf custom_free e p = Some (set_e_p e s') /\ esys (set_e_p e s') L' own /\
    eframe e L (set_e_p e s') L' /\ L' !! p = None.
Proof.
  intros He Hc Hi. destruct (esys_free_pbuf custom_free e L own p He) as (s' & L' & E & He' & Hf & Hrel).
  exists s', L'. split; [done |]. split; [done |]. split; [done |]. apply (rl_gone _ _ _ _ _ Hrel).
  - apply (rf_own _ _ (es_refs _ _ _ He)). apply elem_of_cons. by left.
  - destruct (pst s' !! p) as [b |] eqn:Hb; [exfalso | done].
    pose proof (rf_count _ _ (rl_refs _ _ _ _ _ Hrel) p b Hb) as Ec.
    pose proof (indeg_kept _ _ p (rl_kept _ _ _ _ _ Hrel)) as Hle.
    destruct (ps_pbuf _ _ (rl_sys _ _ _ _ _ Hrel) p b Hb) as (_ & Hr & _). lia.
Qed.

(** Sending a waiting packet and releasing it. *)
Lemma send_one e L own p src dst :
  esys e L (p :: own) -> waiting (pst (e_p e)) p -> cnt p own = 0%nat -> indeg (pst (e_p e)) p = 0%nat ->
  is_mac src -> is_mac dst ->
  exists e1 r e2 L2, etharp_send_ip linkoutput e p src dst = Some (e1, r) /\ free_pbuf custom_free e1 p = Some e2 /\
    esys e2 L2 own /\ eframe e L e2 L2 /\ e_tab e2 = e_tab e /\ e_qst e2 = e_qst e /\ e_cached e2 = e_cached e /\
    e_arp_stats e2 = e_arp_stats e /\ e_link_stats e2 = e_link_stats e /\
    (forall ds x, flushed src dst (e_dev e2) ds x -> flushed src dst (e_dev e) (packet_data (e_p e) p :: ds) x).
Proof.
  intros He (b & Hb & Ht & Hn & Hlen & Htot) Hc Hi Hsrc Hdst. assert (owns_payload b) as Ho by by left.
  destruct (send_ip_spec e L _ p b src dst He Hb Ho ltac:(lia) Hsrc Hdst) as (m & x & r & E & He1 & El & Hh & Hm).
  set (e1 := set_dev (write_mem e m) x) in *.
  destruct (free_pbuf_alone e1 L own p He1 Hc Hi) as (s2 & L2 & E2 & He2 & [K2 S2 M2] & Hg).
  exists e1, r, (set_e_p e1 s2), L2. split; [done |]. split; [done |]. split; [done |].
  assert (e_mem e1 = m) as Em by apply e_mem_write.
  split; [split; [done | done |] | split; [done |]; split; [done |]; split; [done |]; split; [done |]; split; [done |]].
  - intros y Hy. rewrite M2, Em by done. apply Hm. intros Hin.
    destruct (payload_region _ _ _ _ _ He Hb Ho) as (n & HL & H1 & H2). destruct Hy as (q & k & Hq & Hy).
    assert (q <> p) as Hqp by (intros ->; congruence). pose proof (lookup_weaken _ _ _ _ Hq S2) as Hq'.
    pose proof (ro_disjoint _ (live_ok (LiveRegions := ms_regions) _ _ (ps_live _ _ (es_sys _ _ _ He)))
      q p k n Hq' HL Hqp). lia.
  - intros ds x2 Hfl. eapply (flushed_cons src dst (e_dev e) (e_p (write_mem e m)) p b r x); [done | done | | done | done].
    change (mem_of (e_p (write_mem e m))) with (e_mem (write_mem e m)). rewrite e_mem_write.
    replace (Z.to_nat (len b)) with (14 + Z.to_nat (len b - 14))%nat by lia. rewrite bytes_app, Hh. f_equal.
    unfold packet_data. rewrite Hb. apply bytes_ext. intros y Hy. apply Hm. lia.
Qed.

(** What an owner sees of its pbuf after releases elsewhere. *)
Lemma data_kept e L e' L' own p b :
  eframe e L e' L' -> esys e' L' own -> p ∈ own -> pst (e_p e) !! p = Some b -> owns_payload b ->
  exists b', pst (e_p e') !! p = Some b' /\ b' = set_ref b (ref b') /\
    (forall y, payload b <= y < payload b + len b -> ld8 (e_mem e') y = ld8 (e_mem e) y).
Proof.
  intros [K S M] He' Hin Hb Ho. destruct (rf_own _ _ (es_refs _ _ _ He') p Hin) as [b' Hb'].
  destruct (K _ _ Hb') as (b0 & Hb0 & E). simplify_eq. exists b'. split; [done |]. split; [done |].
  intros y Hy. apply M. assert (owns_payload b') as Ho' by by rewrite E.
  destruct (payload_region _ _ _ _ _ He' Hb' Ho') as (n & HL & H1 & H2). rewrite E in H1, H2. cbn in H1, H2.
  exists p, n. split; [done | lia].
Qed.

Lemma packet_data_kept e L e' L' own p :
  eframe e L e' L' -> esys e' L' own -> p ∈ own -> waiting (pst (e_p e)) p ->
  packet_data (e_p e') p = packet_data (e_p e) p.
Proof.
  intros Hf He' Hin (b & Hb & Ht & Hn & Hlen & _).
  destruct (data_kept _ _ _ _ _ _ _ Hf He' Hin Hb ltac:(by left)) as (b' & Hb' & E & Hd).
  unfold packet_data. rewrite Hb, Hb', E. cbn. apply bytes_ext. intros y Hy. apply Hd. lia.
Qed.

(** The bytes at [a] lie in the payload of the pbuf [pkt]. *)
Definition in_packet e (pkt a n : Z) : Prop :=
  exists b, pst (e_p e) !! pkt = Some b /\ owns_payload b /\ payload b <= a /\ a + n <= payload b + len b.

Lemma in_packet_kept e L e' L' own pkt a n :
  eframe e L e' L' -> esys e' L' own -> pkt ∈ own -> in_packet e pkt a n ->
  in_packet e' pkt a n /\ forall y, a <= y < a + n -> ld8 (e_mem e') y = ld8 (e_mem e) y.
Proof.
  intros Hf He' Hin (b & Hb & Ho & H1 & H2).
  destruct (data_kept _ _ _ _ _ _ _ Hf He' Hin Hb Ho) as (b' & Hb' & E & Hd). split.
  - exists b'. rewrite E. cbn. split; [by rewrite Hb', <- E | done].
  - intros y Hy. apply Hd. lia.
Qed.

(** What the loop over the queue [l] of entry [i] relies on; [mac] is at [ethaddr]
    in the packet [pkt] of another owner. *)
Record flushing e L own (i : Z) (en : etharp_entry) (l : list (Z * Z)) (pkt ethaddr : Z) (mac : list Z) : Prop := {
  fl_sys : esys e L (l.*2 ++ own);
  fl_entry : entry e i = Some en;
  fl_queue : qlist (e_qst e) (ae_q en) l;
  fl_nodup : NoDup l.*1;
  fl_alone : forall p, p ∈ l.*2 ->
    waiting (pst (e_p e)) p /\ cnt p (l.*2 ++ own) = 1%nat /\ indeg (pst (e_p e)) p = 0%nat;
  fl_pkt : pkt ∈ own;
  fl_in : in_packet e pkt ethaddr 6;
  fl_mac : bytes (e_mem e) ethaddr 6 = mac
}.

(** One packet of the queue. *)
Lemma flushing_step e L own i en q p l pkt ethaddr mac n :
  flushing e L own i en ((q, p) :: l) pkt ethaddr mac -> is_mac (nif_hwaddr n) -> is_mac mac ->
  exists e' L' q', send_queue_body custom_free linkoutput n ethaddr i e = inl e' /\
    flushing e' L' own i (set_ae_q en q') l pkt ethaddr mac /\ eframe e L e' L' /\
    e_tab e' = <[Z.to_nat i := set_ae_q en q']> (e_tab e) /\ e_qst e' = delete q (e_qst e) /\
    e_cached e' = e_cached e /\ e_arp_stats e' = e_arp_stats e /\ e_link_stats e' = e_link_stats e /\
    (forall ds x, flushed (nif_hwaddr n) mac (e_dev e') ds x ->
       flushed (nif_hwaddr n) mac (e_dev e) (packet_data (e_p e) p :: ds) x).
Proof.
  intros [He E Hl Hn Hw Hpkt Hin Hm] Hhw Hmac. unfold send_queue_body. rewrite E.
  inversion Hl as [| ? r ? Hq Hr Hl']; subst. rewrite (proj2 (Z.eqb_neq _ 0)) by done. cbn [negb]. rewrite Hr.
  rewrite (set_entry_insert e i en) by done. cbn in Hn. inversion Hn as [| ? ? Hni Hn']; subst.
  set (e1 := set_tab e (<[Z.to_nat i := set_ae_q en (qe_next r)]> (e_tab e))).
  assert (esys e1 L (qe_p r :: l.*2 ++ own)) as He1 by by destruct He.
  destruct (esys_free_q e1 L _ (ae_q en) He1) as [He2 Hf2]; [by exists r |].
  set (e2 := free_q_entry e1 (ae_q en)) in *.
  destruct (in_packet_kept _ _ _ _ _ pkt ethaddr 6 Hf2 He2) as [Hin2 Hm2];
    [apply elem_of_cons; right; apply elem_of_app; by right | exact Hin |].
  assert (bytes (e_mem e2) ethaddr 6 = bytes (e_mem e) ethaddr 6) as Hb2 by (apply bytes_ext; by apply Hm2).
  destruct (Hw (qe_p r)) as (Hw1 & Hc1 & Hi1); [apply elem_of_cons; by left |].
  change (((ae_q en, qe_p r) :: l).*2 ++ own) with (qe_p r :: l.*2 ++ own) in Hc1.
  rewrite cnt_cons, decide_True in Hc1 by done.
  destruct (send_one e2 (delete (ae_q en) L) (l.*2 ++ own) (qe_p r) (nif_hwaddr n) (bytes (e_mem e2) ethaddr 6))
    as (e3 & r3 & e4 & L4 & E3 & E4 & He4 & Hf4 & Et4 & Eq4 & Ec4 & Ea4 & El4 & Hfl);
    [done | done | cbn in *; lia | done | done | by rewrite Hb2 |].
  rewrite E3, E4. exists e4, L4, (qe_next r). split; [done |].
  assert (eframe e L e4 L4) as Hfe by (eapply eframe_trans; [split; apply Hf2 | done]).
  destruct (in_packet_kept _ _ _ _ _ pkt ethaddr 6 Hf4 He4) as [Hin4 Hm4]; [apply elem_of_app; by right | exact Hin2 |].
  split; [| split; [done | split; [by rewrite Et4 | split; [by rewrite Eq4 | repeat (split; [done |])]]]].
  2: { intros ds x Hx. rewrite <- Hb2 in Hx |- *. apply Hfl in Hx.
       erewrite (packet_data_kept _ _ _ _ _ _ Hf2 He2) in Hx; [exact Hx | apply elem_of_cons; by left | done]. }
  split; [done | | | done | | done | done |].
  - unfold entry. rewrite Et4. apply (entry_insert e i en _ E).
  - rewrite Eq4. apply (qlist_ext (e_qst e)); [done |]. intros a Ha. cbn. rewrite lookup_delete_ne; [done |].
    intros Hx. apply Hni. by rewrite Hx.
  - intros p Hp. destruct (Hw p) as (Hw2 & Hc2 & Hi2); [apply elem_of_cons; by right |]. split; [| split].
    + eapply waiting_kept; [exact Hw2 | apply Hfe | apply He4 | apply elem_of_app; by left].
    + change (((ae_q en, qe_p r) :: l).*2 ++ own) with (qe_p r :: l.*2 ++ own) in Hc2. rewrite cnt_cons in Hc2. destruct (decide (qe_p r = p)) as [<- | ?]; [| exact Hc2].
      assert (0 < cnt (qe_p r) (l.*2 ++ own))%nat by (apply cnt_pos, elem_of_app; by left). cbn in *. lia.
    + pose proof (indeg_kept _ _ p (ef_kept _ _ _ _ Hfe)). lia.
  - rewrite <- Hb2. apply bytes_ext. by apply Hm4.
Qed.

Lemma flushing_loop l fuel e L own i en n ethaddr mac pkt :
  flushing e L own i en l pkt ethaddr mac -> is_mac (nif_hwaddr n) -> is_mac mac -> (length l < fuel)%nat ->
  exists s' L' x', let e' := set_dev (set_tab (with_resources e s' (qdel l (e_qst e)))
                       (<[Z.to_nat i := set_ae_q en 0]> (e_tab e))) x' in
    while fuel (send_queue_body custom_free linkoutput n ethaddr i) e = Some (Some e') /\
    esys e' L' own /\ eframe e L e' L' /\
    flushed (nif_hwaddr n) mac (e_dev e) (packet_data (e_p e) <$> l.*2) x'.
Proof.
  revert fuel e L en. induction l as [| [q p] l IH]; intros fuel e L en Hfl Hhw Hmac Hf;
    (destruct fuel as [| fuel]; [lia |]); rewrite while_S.
  - destruct Hfl as [He E Hl _ _ _ _ _]. unfold send_queue_body at 1. rewrite E.
    pose proof (proj2 (qlist_null _ _ _ Hl) eq_refl) as Eq. rewrite Eq. cbn [Z.eqb negb].
    exists (e_p e), L, (e_dev e). assert (set_ae_q en 0 = en) as -> by (destruct en; cbn in Eq; by subst).
    cbn [qdel]. rewrite list_insert_id by exact E. destruct e. split; [done |]. split; [done |].
    split; [apply eframe_refl | constructor].
  - destruct (flushing_step e L own i en q p l pkt ethaddr mac n Hfl Hhw Hmac)
      as (e1 & L1 & q1 & -> & Hfl1 & Hf1 & Et & Eq & Ec & Ea & Elk & Hd).
    destruct (IH fuel e1 L1 _ Hfl1 Hhw Hmac) as (s' & L' & x' & Hw & He' & Hf' & Hx); [cbn in Hf; lia |].
    assert (set_dev (set_tab (with_resources e1 s' (qdel l (e_qst e1))) (<[Z.to_nat i := set_ae_q (set_ae_q en q1) 0]> (e_tab e1))) x'
      = set_dev (set_tab (with_resources e s' (qdel ((q, p) :: l) (e_qst e))) (<[Z.to_nat i := set_ae_q en 0]> (e_tab e))) x') as Ee.
    { unfold set_dev, set_tab, with_resources, set_qst, set_e_p. cbn -[qdel].
      rewrite Ec, Ea, Elk, Et, Eq, list_insert_insert_eq, qdel_cons. done. }
    exists s', L', x'. rewrite Ee in *. split; [done |]. split; [done |]. split; [by eapply eframe_trans |].
    cbn [fmap list_fmap]. apply Hd. erewrite list_fmap_ext; [exact Hx |]. intros k p' Hp'.
    apply list_elem_of_lookup_2 in Hp'. destruct (fl_alone _ _ _ _ _ _ _ _ _ Hfl p') as (Hw2 & _); [by apply elem_of_cons; right |].
    symmetry. eapply packet_data_kept; [done | apply Hfl1 | | done]. apply elem_of_app. by left.
Qed.

(** ** Resolving an address *)

Definition same_counters e e' : Prop :=
  e_cached e' = e_cached e /\ e_arp_stats e' = e_arp_stats e /\ e_link_stats e' = e_link_stats e.

Definition resolved (ip np : Z) (mac : list Z) : etharp_entry := mkEntry 0 ip np mac STABLE 0.

(** Entry [k], of the address [ip], becomes stable and its queue is sent. *)
Lemma settle_spec e L ext Q k en np n ip pkt ethaddr mac :
  arp_sys e L ext Q -> e_tab e !! k = Some en -> unclaimed (e_tab e) k ip -> pkt ∈ ext ->
  in_packet e pkt ethaddr 6 -> bytes (e_mem e) ethaddr 6 = mac -> is_mac (nif_hwaddr n) ->
  let e1 := set_tab e (<[k := set_ae_q (resolved ip np mac) (ae_q en)]> (e_tab e)) in
  exists e' L' l, Q !! k = Some l /\
    while (S (size (e_qst e1))) (send_queue_body custom_free linkoutput n ethaddr (Z.of_nat k)) e1 = Some (Some e') /\
    e_tab e' = <[k := resolved ip np mac]> (e_tab e) /\ arp_sys e' L' ext (<[k := []]> Q) /\ eframe e L e' L' /\
    same_counters e e' /\ flushed (nif_hwaddr n) mac (e_dev e) (packet_data (e_p e) <$> l.*2) (e_dev e').
Proof.
  intros Ha E Hu Hpkt Hin Hm Hhw e1. assert (is_mac mac) as Hmac.
  { rewrite <- Hm. split; [apply bytes_length | apply bytes_range]. }
  destruct (arp_queue _ _ _ _ _ _ Ha E) as (l & El & Hl & Hn). pose proof (queued_take Q _ _ El) as Hqt.
  assert (entry e (Z.of_nat k) = Some en) as E' by (unfold entry; by rewrite Nat2Z.id).
  pose proof (entry_insert e _ en (set_ae_q (resolved ip np mac) (ae_q en)) E') as E1. rewrite Nat2Z.id in E1.
  assert (flushing e1 L (queued (<[k := []]> Q) ++ ext) (Z.of_nat k) (set_ae_q (resolved ip np mac) (ae_q en)) l
    pkt ethaddr mac) as Hfl.
  { split; [| done | done | done | | by apply elem_of_app; right | done | done].
    - assert (queued Q ++ ext ≡ₚ l.*2 ++ queued (<[k := []]> Q) ++ ext) as Hp by (rewrite Hqt; by rewrite app_assoc).
      by destruct (esys_perm _ _ _ _ Hp (as_esys _ _ _ _ Ha)).
    - intros p Hp. assert (p ∈ queued Q) as Hpq by (rewrite Hqt, elem_of_app; by left).
      destruct (as_alone _ _ _ _ Ha p Hpq) as [Hc Hi]. split; [by apply (as_waiting _ _ _ _ Ha) |]. split; [| done].
      rewrite Hqt, <- app_assoc in Hc. exact Hc. }
  destruct (flushing_loop l (S (size (e_qst e1))) e1 L _ _ _ n ethaddr mac pkt Hfl Hhw Hmac)
    as (s' & L' & x' & Hw & He' & Hf & Hx).
  { pose proof (qlist_size _ _ _ Hl Hn). cbn. lia. }
  assert (e_tab (set_tab e1 (<[k := resolved ip np mac]> (e_tab e1))) = <[k := resolved ip np mac]> (e_tab e)) as Et
    by (cbn; by rewrite list_insert_insert_eq).
  rewrite Nat2Z.id in *. eexists. exists L', l. split; [done |]. split; [exact Hw |]. split; [exact Et |].
  split; [| split; [by destruct Hf | split; [done | exact Hx]]].
  assert (arp_sys (set_tab (with_resources e s' (qdel l (e_qst e))) (<[k := resolved ip np mac]> (e_tab e))) L' ext
    (<[k := []]> Q)) as Ha'.
  { pose proof (arp_drop_queue custom_free e L ext Q (Z.of_nat k) en (resolved ip np mac) l s' L' Ha E') as Hd.
    rewrite Nat2Z.id in Hd. apply Hd; [done | done | | done | by destruct He' | by destruct Hf].
    split; cbn; unfold ARP_MAXAGE; [done | lia | done | done]. }
  eapply arp_sys_ext; [exact Ha' | done | exact Et | done | apply (as_cached _ _ _ _ Ha)].
Qed.

End flow.

End EtharpFlow.
