(* ===== verification/EtharpInput.v ===== *)
(** ARP messages: what a received address does to the table and to the packets
    that wait for it, and the answer to a request. *)

From stdpp Require Import base tactics numbers list gmap.
From Stdlib Require Import ZArith Lia.
From S2P Require Import Prelude Stats ByteOrder Fields PbufDefs NetifDefs Mylib Allocator Mem Memp PbufMem World Pbuf PbufData PbufChains PbufLinks PbufRefs IpAddr Etharp EtharpTable EtharpFlow.

Local Open Scope Z_scope.

Module EtharpInput.
Import ByteOrder Fields Memp Pbuf PbufData PbufChains PbufRefs IpAddr Etharp EtharpTable EtharpFlow.

Section messages.
Context {W X : Type} `{LW : MemSystemLaws W}.
Context (custom_free : pstate W -> Z -> option (pstate W)).
Context (linkoutput : X -> pstate W -> Z -> option (X * Z)).
(** The driver accepts every packet. *)
Context (link_total : forall x s p l, chain (pst s) p l -> p <> 0 -> exists x' r, linkoutput x s p = Some (x', r)).

Implicit Types (e : estate W X) (L : regions) (ext : list Z) (Q : list (list (Z * Z))).

(** ** Updating an entry *)

(** Addresses that are never put in the table. *)
Definition unusable (n : netif) (ip : Z) : bool :=
  (ip =? IPADDR_ANY) || negb (ip4_addr_isbroadcast ip n =? 0) || ip_addr_ismulticast ip.

(** Entry [k] is the one for [ip]: the one that has it, with the packets [ds]
    waiting, or the one that is created for it. *)
Definition entry_for e Q (ip flags : Z) (k : nat) (ds : list (list Z)) : Prop :=
  (exists en l, e_tab e !! k = Some en /\ resolves ip en /\ Q !! k = Some l /\ ds = packet_data (e_p e) <$> l.*2) \/
  (none (resolves ip) (e_tab e) 10 /\ find_only flags = false /\ selected (e_tab e) (try_hard flags) k /\ ds = []).

(** The search finds no entry and may not create one. *)
Definition no_entry e (ip flags : Z) : Prop :=
  none (resolves ip) (e_tab e) 10 /\
  (find_only flags = true \/ (none vacant (e_tab e) 10 /\ try_hard flags = false)).

(** The state after [ip] was learned. *)
Record learned e L ext Q (n : netif) (np ip : Z) (mac : list Z) (k : nat) (ds : list (list Z)) e' : Prop := {
  ln_tab : e_tab e' = <[k := resolved ip np mac]> (e_tab e);
  ln_sys : exists L' Q', arp_sys e' L' ext Q' /\ eframe e L e' L' /\ Q' !! k = Some [];
  ln_counters : same_counters e e';
  ln_sent : flushed linkoutput (nif_hwaddr n) mac (e_dev e) ds (e_dev e')
}.

Lemma set_resolved e i en np mac :
  entry e i = Some en ->
  set_entry (set_entry (set_entry (set_entry e i (fun en => set_ae_state en STABLE)) i (fun en => set_ae_netif en np))
    i (fun en => set_ae_ethaddr en mac)) i (fun en => set_ae_ctime en 0) =
  set_tab e (<[Z.to_nat i := set_ae_q (resolved (ae_ipaddr en) np mac) (ae_q en)]> (e_tab e)).
Proof.
  intros E. rewrite (set_entry_insert e i en) by done. rewrite !(set_entry_again e i en) by done. by destruct en.
Qed.

(** The part of the update behind the search, on entry [k] of [ip]. *)
Lemma update_found e L ext Q k en np n ip pkt ethaddr mac :
  arp_sys e L ext Q -> e_tab e !! k = Some en -> ae_ipaddr en = ip -> unclaimed (e_tab e) k ip -> pkt ∈ ext ->
  in_packet e pkt ethaddr 6 -> bytes (e_mem e) ethaddr 6 = mac -> is_mac (nif_hwaddr n) ->
  exists e' l, Q !! k = Some l /\ qlist (e_qst e) (ae_q en) l /\
    learned e L ext Q n np ip mac k (packet_data (e_p e) <$> l.*2) e' /\
    (let i := Z.of_nat k in
     let e := set_entry e i (fun en => set_ae_state en STABLE) in
     let e := set_entry e i (fun en => set_ae_netif en np) in
     let e := set_entry e i (fun en => set_ae_ethaddr en (bytes (e_mem e) ethaddr 6)) in
     let e := set_entry e i (fun en => set_ae_ctime en 0) in
     mjoin (while (S (size (e_qst e))) (send_queue_body custom_free linkoutput n ethaddr i) e)) = Some e'.
Proof.
  intros Ha E Eip Hu Hp Hin Hm Hhw. cbv zeta.
  assert (entry e (Z.of_nat k) = Some en) as E' by (unfold entry; by rewrite Nat2Z.id).
  change (bytes (e_mem (set_entry _ _ _)) ethaddr 6) with (bytes (e_mem e) ethaddr 6).
  rewrite (set_resolved e _ en), Nat2Z.id, Eip, Hm by done.
  destruct (settle_spec custom_free linkoutput link_total e L ext Q k en np n ip pkt ethaddr mac
    Ha E Hu Hp Hin Hm Hhw) as (e' & L' & l & El & Hw & Et & Ha' & Hf & Hc & Hs).
  destruct (arp_queue _ _ _ _ _ _ Ha E) as (l0 & El0 & Hl & _). simplify_eq.
  exists e', l. split; [done |]. split; [done |]. rewrite Hw. split; [| done].
  split; [done | | done | done]. exists L', (<[k := []]> Q). split; [done |]. split; [done |].
  apply list_lookup_insert_eq. by apply lookup_lt_Some in El.
Qed.

Lemma update_spec e L ext Q np n ip pkt ethaddr mac flags :
  arp_sys e L ext Q -> pkt ∈ ext -> in_packet e pkt ethaddr 6 -> bytes (e_mem e) ethaddr 6 = mac ->
  is_mac (nif_hwaddr n) ->
  exists e' r, etharp_update_arp_entry custom_free linkoutput e np n ip ethaddr flags = Some (e', r) /\
    ((unusable n ip = true /\ e' = e /\ r = ERR_ARG) \/
     (unusable n ip = false /\ no_entry e ip flags /\ e' = e /\ r = ERR_MEM) \/
     (unusable n ip = false /\ r = ERR_OK /\
      exists k ds, entry_for e Q ip flags k ds /\ learned e L ext Q n np ip mac k ds e')).
Proof.
  intros Ha Hp Hin Hm Hhw. unfold etharp_update_arp_entry. fold (unusable n ip).
  destruct (unusable n ip); [exists e, ERR_ARG; split; [done | by left] |].
  destruct (find_spec custom_free e L ext Q ip flags Ha)
    as (e1 & r & -> & [(k & en & -> & E & [Hne Hr] & ->) | (Hn & [(-> & -> & Hc) | (Hfo & k & -> & Hcr)])]);
    cbn [mbind option_bind].
  - rewrite (proj2 (Z.ltb_ge _ _)) by lia.
    destruct (update_found e L ext Q k en np n ip pkt ethaddr mac Ha E Hr) as (e' & l & El & _ & Hl & Hw);
      [rewrite <- Hr; by apply (as_unique _ _ _ _ Ha) | done | done | done | done |].
    cbv zeta in Hw |- *. rewrite Hw. exists e', ERR_OK. split; [done |]. right; right. split; [done |]. split; [done |].
    exists k, (packet_data (e_p e) <$> l.*2). split; [| done]. left. by exists en, l.
  - exists e, ERR_MEM. split; [done |]. right; left. split; [done |]. by split.
  - destruct Hcr as [Hsel Hlt (en & Hv & Hq & Hmac & Et) Hs Hu (L1 & Q1 & Ha1 & Hf1)].
    rewrite (proj2 (Z.ltb_ge _ _)) by lia. pose proof (as_len _ _ _ _ Ha) as Hlen.
    assert (e_tab e1 !! k = Some (fresh ip en)) as E1 by (rewrite Et; apply list_lookup_insert_eq; lia).
    destruct (in_packet_kept e L e1 L1 (queued Q1 ++ ext) pkt ethaddr 6 Hf1) as [Hin1 Hb1];
      [apply Ha1 | apply elem_of_app; by right | done |].
    destruct (update_found e1 L1 ext Q1 k (fresh ip en) np n ip pkt ethaddr mac Ha1 E1 eq_refl)
      as (e' & l & El & Hl & [T1 (L2 & Q2 & Ha2 & Hf2 & Hk2) T3 T4] & Hw);
      [done | done | done | by rewrite <- Hm; apply bytes_ext | done |].
    cbv zeta in Hw |- *. rewrite Hw. exists e', ERR_OK. split; [done |]. right; right. split; [done |].
    split; [done |]. exists k, []. split; [right; done |].
    assert (l = []) as -> by (apply (qlist_null _ _ _ Hl); by cbn).
    destruct Hs as (S1 & S2 & S3 & S4). destruct T3 as (T31 & T32 & T33). split.
    + by rewrite T1, Et, list_insert_insert_eq.
    + exists L2, Q2. split; [done |]. split; [by eapply eframe_trans | done].
    + unfold same_counters. by rewrite T31, T32, T33.
    + by rewrite <- S4.
Qed.

(** ** Messages *)

(** An ARP message in its Ethernet frame: the addresses and the type of the
    frame, the operation, and the hardware and protocol addresses of the sender
    and of the target.  Protocol addresses are words in network order. *)
Record arp_msg := mkMsg {
  am_dst : list Z; am_src : list Z; am_type : list Z; am_op : Z;
  am_sha : list Z; am_spa : Z; am_tha : list Z; am_tpa : Z
}.

Definition encode (a : arp_msg) : list Z :=
  am_dst a ++ am_src a ++ am_type a ++ be16 HWTYPE_ETHERNET ++ be16 ETHTYPE_IP ++
  [ETHARP_HWADDR_LEN; 4] ++ be16 (am_op a) ++ am_sha a ++ word (am_spa a) ++ am_tha a ++ word (am_tpa a).

Definition arp_read (m : memory) (h : Z) : arp_msg :=
  mkMsg (bytes m h 6) (bytes m (h + 6) 6) (bytes m (h + 12) 2) (PP_HTONS (ld16 m (h + 20)))
    (bytes m (h + 22) 6) (ld32 m (h + 28)) (bytes m (h + 32) 6) (ld32 m (h + 38)).

(** The checks on the fixed fields. *)
Definition arp_valid (m : memory) (h : Z) : bool :=
  (ld16 m (h + ARP_HWTYPE) =? PP_HTONS HWTYPE_ETHERNET) && (ld8 m (h + ARP_HWLEN) =? ETHARP_HWADDR_LEN) &&
  (ld8 m (h + ARP_PROTOLEN) =? 4) && (ld16 m (h + ARP_PROTO) =? PP_HTONS ETHTYPE_IP).

(** The message of 42 bytes, field by field. *)
Lemma bytes_split m h :
  bytes m h 42 = bytes m h 6 ++ bytes m (h + 6) 6 ++ bytes m (h + 12) 2 ++ bytes m (h + 14) 2 ++ bytes m (h + 16) 2 ++
    bytes m (h + 18) 2 ++ bytes m (h + 20) 2 ++ bytes m (h + 22) 6 ++ bytes m (h + 28) 4 ++ bytes m (h + 32) 6 ++
    bytes m (h + 38) 4.
Proof.
  change 42%nat with (6 + (6 + (2 + (2 + (2 + (2 + (2 + (6 + (4 + (6 + 4))))))))))%nat. rewrite !bytes_app.
  rewrite <- !Z.add_assoc. done.
Qed.

Lemma arp_fixed m h :
  arp_valid m h = true ->
  bytes m (h + 14) 2 = be16 HWTYPE_ETHERNET /\ bytes m (h + 16) 2 = be16 ETHTYPE_IP /\
  bytes m (h + 18) 2 = [ETHARP_HWADDR_LEN; 4].
Proof.
  unfold arp_valid, ARP_HWTYPE, ARP_HWLEN, ARP_PROTOLEN, ARP_PROTO. intros Hv. bool_to_prop.
  split; [by apply ld16_htons |]. split; [by apply ld16_htons |].
  cbn [bytes]. replace (h + 18 + 1) with (h + 19) by lia. congruence.
Qed.

(** A packet that passes the checks is the encoding of its message. *)
Lemma arp_read_encode m h : arp_valid m h = true -> bytes m h 42 = encode (arp_read m h).
Proof.
  intros (H1 & H2 & H3)%arp_fixed. rewrite bytes_split, H1, H2, H3, !bytes_ld32. unfold encode, arp_read.
  cbn [am_dst am_src am_type am_op am_sha am_spa am_tha am_tpa]. do 6 f_equal. f_equal.
  apply ld16_htons; [apply PP_HTONS_range, ld16_range | by rewrite PP_HTONS_invol by apply ld16_range].
Qed.

(** The answer of RFC 826 to a message: the addresses swapped, ours put in as
    the sender's. *)
Definition answer (n : netif) (a : arp_msg) : arp_msg :=
  mkMsg (am_sha a) (nif_hwaddr n) (am_type a) ARP_REPLY (nif_hwaddr n) (nif_ip_addr n) (am_sha a) (am_spa a).

Lemma arp_reply_bytes e n h :
  arp_valid (e_mem e) h = true -> is_mac (nif_hwaddr n) -> 0 <= nif_ip_addr n < 4294967296 ->
  let m := arp_reply e n (nif_hwaddr n) h in
  bytes m h 42 = encode (answer n (arp_read (e_mem e) h)) /\ frame (e_mem e) m h 42.
Proof.
  intros (F1 & F2 & F3)%arp_fixed [Lhw Bhw] Hip m.
  unfold m, arp_reply, ARP_OPCODE, ARP_DIPADDR, ARP_SIPADDR, ARP_DHWADDR, ARP_SHWADDR, ETH_DEST, ETH_SRC.
  set (m1 := st16 _ _ _). set (m2 := st32 m1 _ _). set (m3 := st32 m2 _ _). set (m4 := st_bytes m3 _ _).
  assert (bytes m3 (h + 22) 6 = bytes (e_mem e) (h + 22) 6) as E3 by (unfold m3, m2, m1; by skip_writes).
  assert (bytes m4 (h + 22) 6 = bytes (e_mem e) (h + 22) 6) as E4 by (unfold m4; by skip_writes).
  assert (ld32 m1 (h + 28) = ld32 (e_mem e) (h + 28)) as E1
    by (apply ld32_ext; intros x Hx; unfold m1; by skip_writes8).
  rewrite E4. unfold m4. rewrite E3. unfold m3, m2. rewrite E1. unfold m1. rewrite Z.add_0_r. split.
  - rewrite bytes_split. unfold encode, answer, arp_read.
    cbn [am_dst am_src am_type am_op am_sha am_spa am_tha am_tpa].
    f_equal; [skip_writes; apply bytes_st_bytes_eq; [apply bytes_range | apply bytes_length] |].
    f_equal; [skip_writes; by apply bytes_st_bytes_eq |]. f_equal; [by skip_writes |].
    f_equal; [by skip_writes |]. f_equal; [by skip_writes |]. f_equal; [by skip_writes |].
    f_equal; [skip_writes; by rewrite <- PP_HTONS_lwip, bytes_st16_htons |].
    f_equal; [skip_writes; by apply bytes_st_bytes_eq |]. f_equal; [skip_writes; by apply bytes_st32 |].
    f_equal; [skip_writes; apply bytes_st_bytes_eq; [apply bytes_range | apply bytes_length] |].
    skip_writes. apply bytes_st32, ld32_range.
  - intros x Hx. by skip_writes8.
Qed.

(** ** Input *)

Lemma arp_read_ext m m' h :
  (forall x, h <= x < h + 42 -> ld8 m' x = ld8 m x) ->
  arp_read m' h = arp_read m h /\ arp_valid m' h = arp_valid m h.
Proof.
  intros Hx. unfold arp_read, arp_valid, ARP_HWTYPE, ARP_HWLEN, ARP_PROTOLEN, ARP_PROTO.
  rewrite !(bytes_ext m m'), !(ld16_ext m m'), !(ld32_ext m m'), !Hx; first done; try (intros y Hy; apply Hx); lia.
Qed.

(** Another module gives up a reference. *)
Lemma arp_free e L ext Q p :
  arp_sys e L (p :: ext) Q ->
  exists s' L', free_pbuf custom_free e p = Some (set_e_p e s') /\ arp_sys (set_e_p e s') L' ext Q /\
    eframe e L (set_e_p e s') L'.
Proof.
  intros [H1 H2 H3 H4 H5 H6 HA H7 H8 H9].
  assert (queued Q ++ p :: ext ≡ₚ p :: queued Q ++ ext) as Hp by by rewrite <- Permutation_middle.
  destruct (esys_free_pbuf custom_free e L (queued Q ++ ext) p (esys_perm _ _ _ _ Hp H1))
    as (s' & L' & E & He & [K S M] & _). exists s', L'. split; [done |]. split; [| done].
  split; try done.
  - intros q Hq. eapply waiting_kept; [by apply H6 | exact K | apply He | apply elem_of_app; by left].
  - intros q Hq. destruct (HA q Hq) as [Hc Hi]. pose proof (indeg_kept _ _ q K) as Hle. cbn.
    assert (0 < cnt q (queued Q ++ ext))%nat as Hpos by (apply cnt_pos, elem_of_app; by left).
    rewrite Hp, cnt_cons in Hc. cbn in Hle. destruct (decide (p = q)); lia.
Qed.

(** Whether a message asks for our address. *)
Definition for_us (n : netif) (ip : Z) : bool := negb (nif_ip_addr n =? IPADDR_ANY) && (ip =? nif_ip_addr n).

(** RFC 826: the sender's addresses are merged into an entry that is there, and
    added if the message is for us. *)
Definition heard e L ext Q (n : netif) (np : Z) (a : arp_msg) e' : Prop :=
  let flags := if for_us n (am_tpa a) then ETHARP_FLAG_TRY_HARD else ETHARP_FLAG_FIND_ONLY in
  (e' = e /\ (unusable n (am_spa a) = true \/ no_entry e (am_spa a) flags)) \/
  (unusable n (am_spa a) = false /\
   exists k ds, entry_for e Q (am_spa a) flags k ds /\ learned e L ext Q n np (am_spa a) (am_sha a) k ds e').

(** The device got the answer to [a], in the packet [p] of the request. *)
Definition answered e (n : netif) (p h : Z) (a : arp_msg) e' : Prop :=
  exists s r, linkoutput (e_dev e) s p = Some (e_dev e', r) /\ pst s = pst (e_p e) /\
    bytes (mem_of s) h 42 = encode (answer n a) /\ frame (e_mem e) (mem_of s) h 42.

(** The reply, if one is due, up to the release of the packet. *)
Lemma respond_spec e L ext Q n p b :
  arp_sys e L ext Q -> pst (e_p e) !! p = Some b -> owns_payload b -> 42 <= len b ->
  arp_valid (e_mem e) (payload b) = true -> is_mac (nif_hwaddr n) -> 0 <= nif_ip_addr n < 4294967296 ->
  exists e', ('(e', _) ← link_output linkoutput (write_mem e (arp_reply e n (nif_hwaddr n) (payload b))) p; Some e')
      = Some e' /\
    arp_sys e' L ext Q /\ e_tab e' = e_tab e /\ e_arp_stats e' = e_arp_stats e /\
    pst (e_p e') = pst (e_p e) /\ frame (e_mem e) (e_mem e') (payload b) 42 /\
    answered e n p (payload b) (arp_read (e_mem e) (payload b)) e'.
Proof.
  intros Ha Hb Ho Hlen Hv Hhw Hip.
  destruct (arp_reply_bytes e n (payload b) Hv Hhw Hip) as [Hbytes Hf]. set (m := arp_reply _ _ _ _) in *.
  pose proof (arp_write e L ext Q p b m Ha Hb Ho ltac:(intros x Hx; apply Hf; lia)) as Ha1.
  destruct (link_ok linkoutput link_total (write_mem e m) L _ p (as_esys _ _ _ _ Ha1)) as (x & r & E & El);
    [by exists b |].
  rewrite E. cbn [mbind option_bind]. eexists. split; [done |].
  assert (e_mem (write_mem e m) = m) as Em by apply e_mem_write.
  split; [by eapply arp_sys_ext; [exact Ha1 | done | done | done | apply Ha1] |].
  split; [done |]. split; [done |]. split; [done |]. split; [by change (frame (e_mem e) (e_mem (write_mem e m)) (payload b) 42); rewrite Em |].
  exists (e_p (write_mem e m)), r. change (mem_of (e_p (write_mem e m))) with (e_mem (write_mem e m)). rewrite Em. done.
Qed.

(** A packet that is counted and dropped. *)
Definition dropped e (st : stats_proto) e' : Prop :=
  e_tab e' = e_tab e /\ e_dev e' = e_dev e /\ e_arp_stats e' = st.

(** What a well-formed message does: the table learns, a request for us is
    answered. *)
Definition handled e L ext Q (n : netif) (np p h : Z) e' : Prop :=
  let a := arp_read (e_mem e) h in
  let e0 := ETHARP_STATS_INC c_recv e in
  exists e1, heard e0 L ext Q n np a e1 /\ e_tab e' = e_tab e1 /\
    (if (am_op a =? ARP_REQUEST) && for_us n (am_tpa a) then answered e1 n p h a e' else e_dev e' = e_dev e1) /\
    e_arp_stats e' = (if (am_op a =? ARP_REQUEST) || (am_op a =? ARP_REPLY) then e_arp_stats e0
                      else STATS_INC c_err (e_arp_stats e0)).

Lemma drop_spec e L ext Q p st :
  arp_sys e L (p :: ext) Q ->
  exists e' L', free_pbuf custom_free (mkEstate (e_p e) (e_tab e) (e_qst e) (e_cached e) st (e_link_stats e) (e_dev e)) p
      = Some e' /\ arp_sys e' L' ext Q /\ dropped e st e'.
Proof.
  intros Ha. set (e0 := mkEstate _ _ _ _ _ _ _).
  destruct (arp_free e0 L ext Q p) as (s' & L' & E & Ha' & _).
  { eapply arp_sys_ext; [exact Ha | done | done | done | apply Ha]. }
  eexists _, L'. split; [exact E |]. done.
Qed.

Lemma heard_sys e L ext Q n np a e' :
  arp_sys e L ext Q -> heard e L ext Q n np a e' ->
  exists L' Q', arp_sys e' L' ext Q' /\ eframe e L e' L' /\ e_arp_stats e' = e_arp_stats e.
Proof.
  intros Ha [(-> & _) | (_ & k & ds & _ & [_ (L' & Q' & Ha' & Hf & _) (_ & Hc & _) _])].
  - exists L, Q. split; [done |]. split; [apply eframe_refl | done].
  - by exists L', Q'.
Qed.

Lemma htons_eqb v w : 0 <= v < 65536 -> 0 <= w < 65536 -> (v =? PP_HTONS w) = (PP_HTONS v =? w).
Proof.
  intros Hv Hw. apply eq_true_iff_eq. rewrite !Z.eqb_eq. split; [intros ->; by apply PP_HTONS_invol |].
  intros <-. by rewrite PP_HTONS_invol.
Qed.

Lemma arp_checks m h :
  (negb (ld16 m (h + ARP_HWTYPE) =? PP_HTONS HWTYPE_ETHERNET) || negb (ld8 m (h + ARP_HWLEN) =? ETHARP_HWADDR_LEN) ||
   negb (ld8 m (h + ARP_PROTOLEN) =? 4) || negb (ld16 m (h + ARP_PROTO) =? PP_HTONS ETHTYPE_IP)) = negb (arp_valid m h).
Proof. unfold arp_valid. by rewrite !negb_andb. Qed.

(** The part of the input behind the update, for the message [a] in [p]. *)
Lemma react_spec e L ext Q n p b :
  arp_sys e L ext Q -> pst (e_p e) !! p = Some b -> owns_payload b -> 42 <= len b ->
  arp_valid (e_mem e) (payload b) = true -> is_mac (nif_hwaddr n) -> 0 <= nif_ip_addr n < 4294967296 ->
  let a := arp_read (e_mem e) (payload b) in
  let opcode := ld16 (e_mem e) (payload b + ARP_OPCODE) in
  exists e', (if opcode =? PP_HTONS ARP_REQUEST then
       if for_us n (am_tpa a) then
         '(e, _) ← link_output linkoutput (write_mem e (arp_reply e n (nif_hwaddr n) (payload b))) p; Some e
       else Some e
     else if opcode =? PP_HTONS ARP_REPLY then Some e
     else Some (ETHARP_STATS_INC c_err e)) = Some e' /\
    arp_sys e' L ext Q /\ e_tab e' = e_tab e /\
    (if (am_op a =? ARP_REQUEST) && for_us n (am_tpa a) then answered e n p (payload b) a e' else e_dev e' = e_dev e) /\
    e_arp_stats e' = (if (am_op a =? ARP_REQUEST) || (am_op a =? ARP_REPLY) then e_arp_stats e
                      else STATS_INC c_err (e_arp_stats e)).
Proof.
  intros Ha Hb Ho Hlen Hv Hhw Hip a opcode. assert (PP_HTONS opcode = am_op a) as Eop by done.
  rewrite !htons_eqb, Eop by (try apply ld16_range; done).
  destruct (am_op a =? ARP_REQUEST); cbn [andb orb].
  - destruct (for_us n (am_tpa a)); [| by exists e].
    destruct (respond_spec e L ext Q n p b Ha Hb Ho Hlen Hv Hhw Hip) as (e2 & E2 & Ha2 & Et & Es & _ & _ & Han).
    exists e2. by split.
  - destruct (am_op a =? ARP_REPLY); [by exists e |]. eexists. split; [done |]. split; [| done].
    eapply arp_sys_ext; [exact Ha | done | done | done | apply Ha].
Qed.

(** The well-formed case. *)
Lemma handle_spec e L ext Q np n p b :
  arp_sys e L (p :: ext) Q -> pst (e_p e) !! p = Some b -> owns_payload b -> 42 <= len b ->
  arp_valid (e_mem e) (payload b) = true -> is_mac (nif_hwaddr n) -> 0 <= nif_ip_addr n < 4294967296 -> np <> 0 ->
  exists e' L' Q', etharp_arp_input custom_free linkoutput e np n (nif_hwaddr n) p = Some e' /\
    arp_sys e' L' ext Q' /\ handled e L (p :: ext) Q n np p (payload b) e'.
Proof.
  intros Ha Hb Ho Hlen Hv Hhw Hip Hnp. unfold etharp_arp_input.
  rewrite (proj2 (Z.eqb_neq np 0)), Hb by done. cbn [mbind option_bind]. change SIZEOF_ETHARP_PACKET with 42.
  rewrite (proj2 (Z.ltb_ge (len b) 42)) by done. cbv zeta. rewrite arp_checks, Hv. cbn [negb].
  set (e0 := ETHARP_STATS_INC c_recv e). set (a := arp_read (e_mem e) (payload b)).
  assert (arp_sys e0 L (p :: ext) Q) as Ha0 by (eapply arp_sys_ext; [exact Ha | done | done | done | apply Ha]).
  change (e_mem e0) with (e_mem e).
  change (ld32 (e_mem e) (payload b + ARP_SIPADDR)) with (am_spa a).
  change (ld32 (e_mem e) (payload b + ARP_DIPADDR)) with (am_tpa a). fold (for_us n (am_tpa a)).
  assert (in_packet e0 p (payload b + ARP_SHWADDR) 6) as Hin by (exists b; unfold ARP_SHWADDR; split; [done |]; split; [done | lia]).
  destruct (update_spec e0 L (p :: ext) Q np n (am_spa a) p (payload b + ARP_SHWADDR) (am_sha a)
    (if for_us n (am_tpa a) then ETHARP_FLAG_TRY_HARD else ETHARP_FLAG_FIND_ONLY)) as (e1 & r & -> & Hup);
    [done | apply elem_of_cons; by left | done | done | done |].
  assert (heard e0 L (p :: ext) Q n np a e1) as Hh.
  { unfold heard. destruct Hup as [(? & -> & _) | [(? & ? & -> & _) | (? & _ & ?)]]; [left; tauto | left; tauto | right; tauto]. }
  destruct (heard_sys _ _ _ _ _ _ _ _ Ha0 Hh) as (L1 & Q1 & Ha1 & Hf1 & Hst). cbn [mbind option_bind].
  destruct (data_kept _ _ _ _ _ p b Hf1 (as_esys _ _ _ _ Ha1)) as (b1 & Hb1 & Eb & Hd);
    [apply elem_of_app; right; apply elem_of_cons; by left | done | done |].
  destruct (arp_read_ext (e_mem e0) (e_mem e1) (payload b)) as [Er Ev]; [intros x Hx; apply Hd; lia |].
  assert (payload b1 = payload b /\ len b1 = len b /\ owns_payload b1) as (Epl & Eln & Ho1) by by rewrite Eb.
  destruct (react_spec e1 L1 (p :: ext) Q1 n p b1 Ha1 Hb1 Ho1) as (e2 & E2 & Ha2 & Et & Hre & Hs2);
    [lia | by rewrite Epl, Ev | done | done |].
  rewrite Epl, Er in E2, Hre, Hs2. change (arp_read (e_mem e0) (payload b)) with a in E2, Hre, Hs2.
  rewrite Hst in Hs2. rewrite E2.
  cbn [mbind option_bind]. destruct (arp_free e2 L1 ext Q1 p Ha2) as (s' & L3 & E3 & Ha3 & _).
  exists (set_e_p e2 s'), L3, Q1. split; [exact E3 |]. split; [done |]. exists e1. split; [done |].
  split; [done |]. by split.
Qed.

(** C25: [etharp_update_arp_entry] learns an address.  An unusable address
    (0.0.0.0, broadcast, multicast) is refused with ERR_ARG, and one without an
    entry with ERR_MEM when none may be made, both without a change.  Otherwise
    the entry for the address, found or created, becomes stable with the hardware
    address, the packets that waited for it are handed to the device in the order
    in which they were queued, each with its data unchanged behind an Ethernet
    header to that hardware address, and released; the queue is empty, and every
    other entry, pbuf and live byte is as before. *)
Theorem etharp_update_resolves e L ext Q np n ip pkt ethaddr mac flags :
  arp_sys e L ext Q -> pkt ∈ ext -> in_packet e pkt ethaddr 6 -> bytes (e_mem e) ethaddr 6 = mac ->
  is_mac (nif_hwaddr n) ->
  exists e' r, etharp_update_arp_entry custom_free linkoutput e np n ip ethaddr flags = Some (e', r) /\
    ((unusable n ip = true /\ e' = e /\ r = ERR_ARG) \/
     (unusable n ip = false /\ no_entry e ip flags /\ e' = e /\ r = ERR_MEM) \/
     (unusable n ip = false /\ r = ERR_OK /\
      exists k ds, entry_for e Q ip flags k ds /\ learned e L ext Q n np ip mac k ds e')).
Proof. apply update_spec. Qed.

(** C24: [etharp_arp_input] follows RFC 826 on every packet.  One that is too short
    or not an Ethernet/IPv4 message is counted, dropped and changes nothing else.
    Any other is the encoding of a message: its sender is merged into the table
    (added if the message is for our address), and if it is a request for our
    address, and only then, the device gets, in the buffer of the request, the
    reply with the sender's and target's addresses swapped and ours filled in.
    In every case the packet is released once and the invariant holds. *)
Theorem etharp_arp_input_replies e L ext Q np n p b :
  arp_sys e L (p :: ext) Q -> pst (e_p e) !! p = Some b -> owns_payload b ->
  is_mac (nif_hwaddr n) -> 0 <= nif_ip_addr n < 4294967296 -> np <> 0 ->
  exists e' L' Q', etharp_arp_input custom_free linkoutput e np n (nif_hwaddr n) p = Some e' /\ arp_sys e' L' ext Q' /\
    (if len b <? 42 then dropped e (STATS_INC c_drop (STATS_INC c_lenerr (e_arp_stats e))) e'
     else if negb (arp_valid (e_mem e) (payload b))
     then dropped e (STATS_INC c_drop (STATS_INC c_proterr (e_arp_stats e))) e'
     else bytes (e_mem e) (payload b) 42 = encode (arp_read (e_mem e) (payload b)) /\
          handled e L (p :: ext) Q n np p (payload b) e').
Proof.
  intros Ha Hb Ho Hhw Hip Hnp. destruct (Z.ltb_spec (len b) 42) as [Hl | Hl];
    [| destruct (arp_valid (e_mem e) (payload b)) eqn:Hv]; cbn [negb].
  2: { destruct (handle_spec e L ext Q np n p b Ha Hb Ho Hl Hv Hhw Hip Hnp) as (e' & L' & Q' & E & Ha' & Hh).
       exists e', L', Q'. split; [done |]. split; [done |]. split; [by apply arp_read_encode | done]. }
  all: unfold etharp_arp_input; rewrite (proj2 (Z.eqb_neq np 0)), Hb by done; cbn [mbind option_bind];
    change SIZEOF_ETHARP_PACKET with 42.
  - rewrite (proj2 (Z.ltb_lt (len b) 42)) by done.
    destruct (drop_spec e L ext Q p (STATS_INC c_drop (STATS_INC c_lenerr (e_arp_stats e))) Ha) as (e' & L' & E & Ha' & Hd).
    exists e', L', Q. split; [exact E |]. done.
  - rewrite (proj2 (Z.ltb_ge (len b) 42)) by done. cbv zeta. rewrite arp_checks, Hv. cbn [negb].
    destruct (drop_spec e L ext Q p (STATS_INC c_drop (STATS_INC c_proterr (e_arp_stats e))) Ha) as (e' & L' & E & Ha' & Hd).
    exists e', L', Q. split; [exact E |]. done.
Qed.

End messages.

(** ** A sample request *)

#[local] Existing Instance World.world_system.
#[local] Existing Instance World.sample_laws.

(** A device that keeps the first pbuf of every frame. *)
Definition recorder (x : list (list Z)) (s : pstate World.world) (p : Z) : option (list (list Z) * Z) :=
  match pst s !! p with
  | Some b => Some (x ++ [bytes (mem_of s) (payload b) (Z.to_nat (len b))], ERR_OK)
  | None => None
  end.

Lemma recorder_total x s p l : chain (pst s) p l -> p <> 0 -> exists x' r, recorder x s p = Some (x', r).
Proof. intros Hl Hp. unfold recorder. inversion Hl as [| ? b ? ? Hb]; subst; [done |]. rewrite Hb. by eexists _, _. Qed.

Definition sample_netif : netif :=
  mkNetif 0x0a01a8c0 0x00ffffff 0x0101a8c0 1500 6 [0x0a; 0; 0x35; 0; 1; 2] (NETIF_FLAG_UP + NETIF_FLAG_BROADCAST + NETIF_FLAG_ETHARP)
    (101, 48) 0.

(** Host 192.168.1.20 asks for 192.168.1.10. *)
Definition sample_request : arp_msg :=
  mkMsg ethbroadcast [2; 0; 0; 0; 0; 20] (be16 ETHTYPE_ARP) ARP_REQUEST [2; 0; 0; 0; 0; 20] 0x1401a8c0 ethzero 0x0a01a8c0.

Definition sample_asked : estate World.world (list (list Z)) :=
  write_mem sample_arp (st_bytes (e_mem sample_arp) 19896 (encode sample_request)).

Lemma sample_arp_pbuf : pst (e_p sample_arp) !! 19880 = Some (mkPbuf 18164 19896 2000 1700 PBUF_POOL 0 1).
Proof. vm_compute. reflexivity. Qed.

Lemma sample_asked_pbuf : pst (e_p sample_asked) !! 19880 = Some (mkPbuf 18164 19896 2000 1700 PBUF_POOL 0 1).
Proof. vm_compute. reflexivity. Qed.

Lemma sample_asked_ok : exists L, arp_sys sample_asked L [19880] (replicate 10 []).
Proof.
  destruct sample_arp_ok as [L HL]. exists L.
  apply (arp_write sample_arp L _ _ 19880 _ _ HL sample_arp_pbuf); [by right |].
  intros x Hx. cbn [payload len] in Hx. apply ld8_st_bytes_ne.
  change (Z.of_nat (length (encode sample_request))) with 42. lia.
Qed.

Lemma etharp_update_resolves_witness :
  exists e', etharp_update_arp_entry no_custom recorder sample_asked 1 sample_netif 0x1401a8c0 (19896 + 22)
    ETHARP_FLAG_TRY_HARD = Some (e', ERR_OK).
Proof.
  destruct sample_asked_ok as [L HL].
  destruct (etharp_update_resolves no_custom recorder recorder_total sample_asked L [19880] (replicate 10 []) 1
    sample_netif 0x1401a8c0 19880 (19896 + 22) [2; 0; 0; 0; 0; 20] ETHARP_FLAG_TRY_HARD HL) as (e' & r & E & Hr).
  - apply elem_of_cons; by left.
  - exists (mkPbuf 18164 19896 2000 1700 PBUF_POOL 0 1). split; [exact sample_asked_pbuf |]. split; [by right |]. cbn. lia.
  - vm_compute. reflexivity.
  - split; [done |]. repeat constructor; lia.
  - exists e'. rewrite E. do 2 f_equal.
    destruct Hr as [(Hu & _) | [(_ & [_ [? | [Hn _]]] & _) | (_ & -> & _)]]; [done | done | | done].
    exfalso. by apply (Hn 0%nat blank ltac:(lia)).
Defined.

Lemma etharp_arp_input_replies_witness :
  exists e', etharp_arp_input no_custom recorder sample_asked 1 sample_netif (nif_hwaddr sample_netif) 19880 = Some e' /\
    exists x s r, recorder x s 19880 = Some (e_dev e', r) /\
      bytes (mem_of s) 19896 42 = encode (answer sample_netif sample_request).
Proof.
  destruct sample_asked_ok as [L HL].
  destruct (etharp_arp_input_replies no_custom recorder recorder_total sample_asked L [] (replicate 10 []) 1
    sample_netif 19880 _ HL sample_asked_pbuf) as (e' & L' & Q' & E & _ & H');
    [by right | split; [done |]; repeat constructor; lia | cbn; lia | done |].
  exists e'. split; [exact E |].
  assert (arp_read (e_mem sample_asked) 19896 = sample_request) as Er by (vm_compute; reflexivity).
  assert (arp_valid (e_mem sample_asked) 19896 = true) as Ev by (vm_compute; reflexivity).
  cbn [len payload] in H'. rewrite Ev in H'. cbn [negb] in H'. destruct H' as (_ & e1 & _ & _ & Han & _).
  rewrite Er in Han. cbn [payload] in Han. destruct Han as (s & r & El & _ & Hb & _). exists (e_dev e1), s, r. by split.
Defined.

End EtharpInput.
