(* ===== verification/IpDefs.v ===== *)
(** The data of the IP layer: the header of src/include/ipv4/lwip/ip.h, the
    reassembly entries of src/include/ipv4/lwip/ip_frag.h, the constants of
    src/include/ipv4/lwip/icmp.h, and the state the functions of ip.c,
    ip_frag.c and icmp.c share.

    A header is at an address in the bytes of a packet; its fields are accessed
    at their offsets (the struct is packed).  The state is parameterized by the
    state [X] of the layers below (ARP and the driver) and [U] of those above
    (UDP, TCP and raw connections), which IP passes on unchanged. *)

From stdpp Require Import base tactics numbers list gmap.
From Stdlib Require Import ZArith Lia.
From S2P Require Import Prelude ByteOrder Stats PbufDefs NetifDefs Allocator Mem Memp PbufMem Pbuf.

Local Open Scope Z_scope.

Module IpDefs.
Import ByteOrder Memp Pbuf.

(** ** The header *)

Definition IP_HLEN : Z := 20.
Definition IP_PROTO_ICMP : Z := 1.
Definition IP_PROTO_UDP : Z := 17.
Definition IP_PROTO_TCP : Z := 6.
Definition IP_MF : Z := 0x2000.
Definition IP_OFFMASK : Z := 0x1fff.

(** Offsets of the fields of [struct ip_hdr]. *)
Definition IPH_v_hl : Z := 0.
Definition IPH_tos : Z := 1.
Definition IPH_len : Z := 2.
Definition IPH_id : Z := 4.
Definition IPH_offset : Z := 6.
Definition IPH_ttl : Z := 8.
Definition IPH_proto : Z := 9.
Definition IPH_chksum : Z := 10.
Definition IPH_src : Z := 12.
Definition IPH_dest : Z := 16.

Definition IPH_V (m : memory) (h : Z) : Z := Z.shiftr (ld8 m (h + IPH_v_hl)) 4.
Definition IPH_HL (m : memory) (h : Z) : Z := Z.land (ld8 m (h + IPH_v_hl)) 0x0f.
Definition IPH_LEN (m : memory) (h : Z) : Z := ld16 m (h + IPH_len).
Definition IPH_ID (m : memory) (h : Z) : Z := ld16 m (h + IPH_id).
Definition IPH_OFFSET (m : memory) (h : Z) : Z := ld16 m (h + IPH_offset).
Definition IPH_PROTO (m : memory) (h : Z) : Z := ld8 m (h + IPH_proto).
Definition IPH_SRC (m : memory) (h : Z) : Z := ld32 m (h + IPH_src).
Definition IPH_DEST (m : memory) (h : Z) : Z := ld32 m (h + IPH_dest).

Definition IPH_VHL_SET (m : memory) (h v hl : Z) : memory := st8 m (h + IPH_v_hl) (Z.lor (Z.shiftl v 4) hl).
Definition IPH_TOS_SET (m : memory) (h tos : Z) : memory := st8 m (h + IPH_tos) tos.
Definition IPH_LEN_SET (m : memory) (h x : Z) : memory := st16 m (h + IPH_len) x.
Definition IPH_ID_SET (m : memory) (h x : Z) : memory := st16 m (h + IPH_id) x.
Definition IPH_OFFSET_SET (m : memory) (h x : Z) : memory := st16 m (h + IPH_offset) x.
Definition IPH_TTL_SET (m : memory) (h x : Z) : memory := st8 m (h + IPH_ttl) (u8 x).
Definition IPH_PROTO_SET (m : memory) (h x : Z) : memory := st8 m (h + IPH_proto) (u8 x).
Definition IPH_CHKSUM_SET (m : memory) (h x : Z) : memory := st16 m (h + IPH_chksum) x.

(** [LWIP_MAKE_U16] on a little-endian target. *)
Definition LWIP_MAKE_U16 (a b : Z) : Z := Z.lor (Z.shiftl a 8) b.

(** ** Reassembly *)

(** [iphdr] is the 20 bytes of a header. *)
Record ip_reassdata := mkReass {
  rd_next : Z; rd_p : Z; rd_iphdr : list Z; rd_datagram_len : Z; rd_flags : Z; rd_timer : Z }.

Definition IP_REASS_MAXAGE : Z := 3.
Definition IP_REASS_MAX_PBUFS : Z := 128.
Definition IP_REASS_FLAG_LASTFRAG : Z := 0x01.

(** ** ICMP *)

Definition ICMP_ER : Z := 0.
Definition ICMP_DUR : Z := 3.
Definition ICMP_ECHO : Z := 8.
Definition ICMP_TE : Z := 11.
Definition ICMP_DUR_PROTO : Z := 2.
Definition ICMP_DUR_PORT : Z := 3.
Definition ICMP_TE_FRAG : Z := 1.
Definition ICMP_TTL : Z := 255.

(** ** The state *)

(** [current_netif], [current_header], [current_iphdr_src] and
    [current_iphdr_dest]. *)
Record current := mkCurrent { cur_netif : Z; cur_header : Z; cur_src : Z; cur_dest : Z }.

Record istate (W X U : Type) := mkIstate {
  i_p : pstate W;
  i_low : X;
  i_netifs : list (Z * netif);
  i_default : Z;
  i_id : Z;
  i_cur : current;
  i_reass : gmap Z ip_reassdata;
  i_reass_head : Z;
  i_reass_count : Z;
  i_ip_stats : stats_proto;
  i_frag_stats : stats_proto;
  i_icmp_stats : stats_proto;
  i_up : U }.
Arguments mkIstate {W X U}. Arguments i_p {W X U}. Arguments i_low {W X U}. Arguments i_netifs {W X U}.
Arguments i_default {W X U}. Arguments i_id {W X U}. Arguments i_cur {W X U}. Arguments i_reass {W X U}.
Arguments i_reass_head {W X U}. Arguments i_reass_count {W X U}. Arguments i_ip_stats {W X U}.
Arguments i_frag_stats {W X U}. Arguments i_icmp_stats {W X U}. Arguments i_up {W X U}.

Section state.
Context {W X U : Type} `{MemSystem W}.
Context (custom_free : pstate W -> Z -> option (pstate W)).

Implicit Type s : istate W X U.

Definition set_i_p s (p : pstate W) : istate W X U :=
  mkIstate p (i_low s) (i_netifs s) (i_default s) (i_id s) (i_cur s) (i_reass s) (i_reass_head s) (i_reass_count s)
    (i_ip_stats s) (i_frag_stats s) (i_icmp_stats s) (i_up s).
Definition set_low s (x : X) : istate W X U :=
  mkIstate (i_p s) x (i_netifs s) (i_default s) (i_id s) (i_cur s) (i_reass s) (i_reass_head s) (i_reass_count s)
    (i_ip_stats s) (i_frag_stats s) (i_icmp_stats s) (i_up s).
Definition set_ip_id s (id : Z) : istate W X U :=
  mkIstate (i_p s) (i_low s) (i_netifs s) (i_default s) id (i_cur s) (i_reass s) (i_reass_head s) (i_reass_count s)
    (i_ip_stats s) (i_frag_stats s) (i_icmp_stats s) (i_up s).
Definition set_cur s (c : current) : istate W X U :=
  mkIstate (i_p s) (i_low s) (i_netifs s) (i_default s) (i_id s) c (i_reass s) (i_reass_head s) (i_reass_count s)
    (i_ip_stats s) (i_frag_stats s) (i_icmp_stats s) (i_up s).
Definition set_reass s (r : gmap Z ip_reassdata) : istate W X U :=
  mkIstate (i_p s) (i_low s) (i_netifs s) (i_default s) (i_id s) (i_cur s) r (i_reass_head s) (i_reass_count s)
    (i_ip_stats s) (i_frag_stats s) (i_icmp_stats s) (i_up s).
Definition set_reass_head s (h : Z) : istate W X U :=
  mkIstate (i_p s) (i_low s) (i_netifs s) (i_default s) (i_id s) (i_cur s) (i_reass s) h (i_reass_count s)
    (i_ip_stats s) (i_frag_stats s) (i_icmp_stats s) (i_up s).
Definition set_reass_count s (n : Z) : istate W X U :=
  mkIstate (i_p s) (i_low s) (i_netifs s) (i_default s) (i_id s) (i_cur s) (i_reass s) (i_reass_head s) n
    (i_ip_stats s) (i_frag_stats s) (i_icmp_stats s) (i_up s).
Definition IP_STATS_INC (c : counter) s : istate W X U :=
  mkIstate (i_p s) (i_low s) (i_netifs s) (i_default s) (i_id s) (i_cur s) (i_reass s) (i_reass_head s) (i_reass_count s)
    (STATS_INC c (i_ip_stats s)) (i_frag_stats s) (i_icmp_stats s) (i_up s).
Definition IPFRAG_STATS_INC (c : counter) s : istate W X U :=
  mkIstate (i_p s) (i_low s) (i_netifs s) (i_default s) (i_id s) (i_cur s) (i_reass s) (i_reass_head s) (i_reass_count s)
    (i_ip_stats s) (STATS_INC c (i_frag_stats s)) (i_icmp_stats s) (i_up s).
Definition ICMP_STATS_INC (c : counter) s : istate W X U :=
  mkIstate (i_p s) (i_low s) (i_netifs s) (i_default s) (i_id s) (i_cur s) (i_reass s) (i_reass_head s) (i_reass_count s)
    (i_ip_stats s) (i_frag_stats s) (STATS_INC c (i_icmp_stats s)) (i_up s).
Definition set_up s {V : Type} (u : V) : istate W X V :=
  mkIstate (i_p s) (i_low s) (i_netifs s) (i_default s) (i_id s) (i_cur s) (i_reass s) (i_reass_head s) (i_reass_count s)
    (i_ip_stats s) (i_frag_stats s) (i_icmp_stats s) u.

Definition i_mem s : memory := mem_of (i_p s).
Definition i_write s (m : memory) : istate W X U := set_i_p s (set_mem (i_p s) m).

(** Calls to pbuf.c. *)
Definition i_pbuf s (p : Z) : option pbuf := pst (i_p s) !! p.
Definition i_free s (p : Z) : option (istate W X U) :=
  '(x, _) ← pbuf_free custom_free (i_p s) p; Some (set_i_p s x).
Definition i_header s (p increment : Z) : option (istate W X U * Z) :=
  '(x, r) ← pbuf_header (i_p s) p increment; Some (set_i_p s x, r).

(** The fields of the interface at [np], which is on [netif_list]. *)
Fixpoint netif_in (l : list (Z * netif)) (np : Z) : option netif :=
  match l with
  | [] => None
  | (a, n) :: l => if a =? np then Some n else netif_in l np
  end.
Definition netif_at s (np : Z) : option netif := netif_in (i_netifs s) np.

End state.

End IpDefs.
