(* ===== verification/IpOutput.v ===== *)
(** Sending IP packets: [ip_route], [ip_output_if] and [ip_output] of
    src/core/ipv4/ip.c and the fragmentation of src/core/ipv4/ip_frag.c of
    lwIP 1.4.1 (CHECKSUM_GEN_IP_INLINE 1, IP_OPTIONS_SEND 0, no loopback,
    IP_FRAG_USES_STATIC_BUF 0).

    [netif_output] stands for [netif->output] (etharp_output for an Ethernet
    interface): it gets the interface, the packet and the address of the next
    hop. *)

From stdpp Require Import base tactics numbers list gmap.
From Stdlib Require Import ZArith Lia.
From S2P Require Import Prelude ByteOrder Stats PbufDefs NetifDefs InetChksum Allocator Mem Memp PbufMem Pbuf IpAddr IpDefs.

Local Open Scope Z_scope.

Module IpOutput.
Import ByteOrder InetChksum Memp Pbuf IpAddr IpDefs.

(** [struct pbuf_custom_ref]: the pbuf, the function that frees it, and
    [original], 20 bytes into the struct. *)
Definition PCR_original : Z := 20.

Section free_custom.
Context {W : Type} `{MemSystem W}.

(** The custom free function of fragments.  The packet it refers to may itself be
    a custom pbuf; [depth] bounds how deep that goes. *)
Fixpoint ipfrag_free_pbuf_custom (depth : nat) (s : pstate W) (p : Z) : option (pstate W) :=
  match depth with
  | O => None
  | S depth =>
      let original := ld32 (mem_of s) (p + PCR_original) in
      '(s, _) ← (if negb (original =? 0) then pbuf_free (ipfrag_free_pbuf_custom depth) s original else Some (s, 0));
      Some (set_pst (set_pw s (ms_memp_free (pw s) MEMP_FRAG_PBUF p)) (delete p (pst s)))
  end.
End free_custom.

Section output.
Context {W X U : Type} `{MemSystem W}.
Context (stale : Z -> Z) (custom_free : pstate W -> Z -> option (pstate W)).
Context (netif_output : X -> pstate W -> Z -> netif -> Z -> Z -> option (X * pstate W * Z)).

Implicit Type s : istate W X U.

(** [netif->output(netif, p, dest)] *)
Definition call_output s (np : Z) (n : netif) (p dest : Z) : option (istate W X U * Z) :=
  '(x, ps, r) ← netif_output (i_low s) (i_p s) np n p dest; Some (set_i_p (set_low s x) ps, r).

(** ** Routing *)

(** The first interface that is up and on the network of [dest], 0 if there is
    none. *)
Fixpoint route_in (l : list (Z * netif)) (dest : Z) : Z :=
  match l with
  | [] => 0
  | (np, n) :: l =>
      if netif_is_up n && ip_addr_netcmp dest (nif_ip_addr n) (nif_netmask n) then np else route_in l dest
  end.

Definition ip_route s (dest : Z) : option (istate W X U * Z) :=
  let np := route_in (i_netifs s) dest in
  if negb (np =? 0) then Some (s, np)
  else if i_default s =? 0 then Some (IP_STATS_INC c_rterr s, 0)
  else
    n ← netif_at s (i_default s);
    if negb (netif_is_up n) then Some (IP_STATS_INC c_rterr s, 0) else Some (s, i_default s).

(** ** Fragmentation *)

(** The rest of a fragment, as references into the chain at [p]: the state, [p],
    [left_to_copy] and [newpbuflen].  The result is an error or the state with
    [p] and [newpbuflen]. *)
Definition ref_body (rambuf : Z) (y : istate W X U * Z * Z * Z)
    : (istate W X U * Z * Z * Z) + option (istate W X U * option (Z * Z)) :=
  let '(s, p, left_to_copy, newpbuflen) := y in
  if negb (left_to_copy =? 0) then
    match i_pbuf s p with
    | None => inr None
    | Some b =>
        let newpbuflen := if left_to_copy <? len b then left_to_copy else len b in
        if newpbuflen =? 0 then inl (s, next b, left_to_copy, newpbuflen)
        else
          let '(w, pcr) := ms_memp_malloc (pw (i_p s)) MEMP_FRAG_PBUF in
          let s := set_i_p s (set_pw (i_p s) w) in
          if pcr =? 0 then inr (s ← i_free custom_free s rambuf; Some (s, None))
          else
            let '(ps, newpbuf) := pbuf_alloced_custom (i_p s) PBUF_RAW newpbuflen PBUF_REF pcr (payload b) newpbuflen in
            let s := set_i_p s ps in
            if newpbuf =? 0 then
              let s := set_i_p s (set_pw (i_p s) (ms_memp_free (pw (i_p s)) MEMP_FRAG_PBUF pcr)) in
              inr (s ← i_free custom_free s rambuf; Some (s, None))
            else
              match (ps ← pbuf_ref (i_p s) p;
                     let ps := set_mem ps (st32 (mem_of ps) (pcr + PCR_original) p) in
                     pbuf_cat ps rambuf newpbuf) with
              | None => inr None
              | Some ps =>
                  let left_to_copy := u16 (left_to_copy - newpbuflen) in
                  inl (set_i_p s ps, (if negb (left_to_copy =? 0) then next b else p), left_to_copy, newpbuflen)
              end
    end
  else inr (Some (s, Some (p, newpbuflen))).

(** The header of a fragment, at [iphdr]. *)
Definition frag_header (m : memory) (iphdr tmp cop : Z) : option memory :=
  let m := IPH_OFFSET_SET m iphdr (PP_HTONS tmp) in
  let m := IPH_LEN_SET m iphdr (PP_HTONS (u16 (cop + IP_HLEN))) in
  let m := IPH_CHKSUM_SET m iphdr 0 in
  c ← inet_chksum m iphdr IP_HLEN;
  Some (IPH_CHKSUM_SET m iphdr c).

(** One fragment: the state, [p], [poff], [left] and [ofo]. *)
Definition frag_body (np : Z) (n : netif) (dest original_iphdr omf nfb : Z) (y : istate W X U * Z * Z * Z * Z)
    : (istate W X U * Z * Z * Z * Z) + option (istate W X U * Z) :=
  let '(s, p, poff, left_, ofo) := y in
  if negb (left_ =? 0) then
    let last := left_ <=? nif_mtu n - IP_HLEN in
    let tmp := Z.lor omf (Z.land IP_OFFMASK ofo) in
    let tmp := if negb last then Z.lor tmp IP_MF else tmp in
    let cop := if last then left_ else u16 (nfb * 8) in
    match pbuf_alloc stale custom_free (i_p s) PBUF_LINK IP_HLEN PBUF_RAM with
    | None => inr None
    | Some (ps, rambuf) =>
        let s := set_i_p s ps in
        if rambuf =? 0 then inr (Some (s, ERR_MEM))
        else
          match i_pbuf s rambuf with
          | None => inr None
          | Some rb =>
              let iphdr := payload rb in
              let s := i_write s (st_bytes (i_mem s) iphdr (bytes (i_mem s) original_iphdr 20)) in
              match update (i_p s) p (fun b => set_len (set_payload b (payload b + poff)) (u16 (len b - poff))) with
              | None => inr None
              | Some ps =>
                  let s := set_i_p s ps in
                  match mjoin (while (S (Z.to_nat cop + size (pst (i_p s)))) (ref_body rambuf) (s, p, cop, 0)) with
                  | None => inr None
                  | Some (s, None) => inr (Some (s, ERR_MEM))
                  | Some (s, Some (p, newpbuflen)) =>
                      match (m ← frag_header (i_mem s) iphdr tmp cop;
                             '(s, _) ← call_output (i_write s m) np n rambuf dest;
                             i_free custom_free (IPFRAG_STATS_INC c_xmit s) rambuf) with
                      | None => inr None
                      | Some s => inl (s, p, newpbuflen, u16 (left_ - cop), u16 (ofo + nfb))
                      end
                  end
              end
          end
    end
  else inr (Some (s, ERR_OK)).

Definition ip_frag s (p np : Z) (n : netif) (dest : Z) : option (istate W X U * Z) :=
  b ← i_pbuf s p;
  let original_iphdr := payload b in
  let tmp := PP_HTONS (IPH_OFFSET (i_mem s) original_iphdr) in
  let ofo := Z.land tmp IP_OFFMASK in
  let omf := Z.land tmp IP_MF in
  let left_ := u16 (tot_len b - IP_HLEN) in
  let nfb := u16 (Z.quot (nif_mtu n - IP_HLEN) 8) in
  mjoin (while (S (Z.to_nat left_)) (frag_body np n dest original_iphdr omf nfb) (s, p, IP_HLEN, left_, ofo)).

(** ** Output *)

(** The header with its checksum, for a packet of [tot] bytes. *)
Definition make_header (m : memory) (iphdr tot src dest ttl tos proto id : Z) : memory :=
  let m := IPH_TTL_SET m iphdr ttl in
  let m := IPH_PROTO_SET m iphdr proto in
  let chk_sum := LWIP_MAKE_U16 proto ttl in
  let m := st32 m (iphdr + IPH_dest) dest in
  let chk_sum := u32 (chk_sum + Z.land (IPH_DEST m iphdr) 0xffff) in
  let chk_sum := u32 (chk_sum + Z.shiftr (IPH_DEST m iphdr) 16) in
  let m := IPH_VHL_SET m iphdr 4 (IP_HLEN / 4) in
  let m := IPH_TOS_SET m iphdr tos in
  let chk_sum := u32 (chk_sum + LWIP_MAKE_U16 tos (ld8 m (iphdr + IPH_v_hl))) in
  let m := IPH_LEN_SET m iphdr (PP_HTONS tot) in
  let chk_sum := u32 (chk_sum + IPH_LEN m iphdr) in
  let m := IPH_OFFSET_SET m iphdr 0 in
  let m := IPH_ID_SET m iphdr (PP_HTONS id) in
  let chk_sum := u32 (chk_sum + IPH_ID m iphdr) in
  let m := st32 m (iphdr + IPH_src) src in
  let chk_sum := u32 (chk_sum + Z.land (IPH_SRC m iphdr) 0xffff) in
  let chk_sum := u32 (chk_sum + Z.shiftr (IPH_SRC m iphdr) 16) in
  let chk_sum := u32 (Z.shiftr chk_sum 16 + Z.land chk_sum 0xffff) in
  let chk_sum := u32 (Z.shiftr chk_sum 16 + chk_sum) in
  let chk_sum := u32 (Z.lnot chk_sum) in
  st16 m (iphdr + IPH_chksum) (u16 chk_sum).

(** [dest] is [None] for IP_HDRINCL, [src] is 0 for NULL and for IP_ADDR_ANY. *)
Definition ip_output_if s (p src : Z) (dest : option Z) (ttl tos proto np : Z) : option (istate W X U * Z) :=
  n ← netif_at s np;
  '(s, d) ← (match dest with
    | Some dest =>
        '(s, r) ← i_header s p IP_HLEN;
        if negb (r =? 0) then Some (IP_STATS_INC c_err s, None)
        else
          b ← i_pbuf s p;
          let src := if src =? IPADDR_ANY then nif_ip_addr n else src in
          let s := i_write s (make_header (i_mem s) (payload b) (tot_len b) src dest ttl tos proto (i_id s)) in
          Some (set_ip_id s (u16 (i_id s + 1)), Some dest)
    | None => b ← i_pbuf s p; Some (s, Some (IPH_DEST (i_mem s) (payload b)))
    end);
  match d with
  | None => Some (s, ERR_BUF)
  | Some dest =>
      let s := IP_STATS_INC c_xmit s in
      b ← i_pbuf s p;
      if negb (nif_mtu n =? 0) && (nif_mtu n <? tot_len b) then ip_frag s p np n dest
      else call_output s np n p dest
  end.

Definition ip_output s (p src dest ttl tos proto : Z) : option (istate W X U * Z) :=
  '(s, np) ← ip_route s dest;
  if np =? 0 then Some (IP_STATS_INC c_rterr s, ERR_RTE)
  else ip_output_if s p src (Some dest) ttl tos proto np.

End output.

End IpOutput.
