(* ===== verification/IpHeader.v ===== *)
(** The IP header on the wire: what [make_header] of [ip_output_if] writes is the
    encoding of a header whose checksum verifies. *)

From stdpp Require Import base tactics numbers list gmap.
From Stdlib Require Import ZArith Lia.
From S2P Require Import Prelude ByteOrder Fields Stats PbufDefs NetifDefs InetChksum Allocator Mem Memp PbufMem Pbuf IpAddr IpDefs IpOutput.

Local Open Scope Z_scope.

Module IpHeader.
Import ByteOrder Fields InetChksum IpDefs IpOutput.

(** A header without options; [h_frag] has the flags and the fragment offset,
    [h_chk] is the checksum as it is stored. *)
Record ip_header := mkHeader {
  h_tos : Z; h_len : Z; h_id : Z; h_frag : Z; h_ttl : Z; h_proto : Z; h_chk : Z; h_src : Z; h_dst : Z }.

Definition encode (h : ip_header) : list Z :=
  [0x45; h_tos h] ++ be16 (h_len h) ++ be16 (h_id h) ++ be16 (h_frag h) ++ [h_ttl h; h_proto h] ++
  [h_chk h mod 256; h_chk h / 256] ++ word (h_src h) ++ word (h_dst h).

(** The fields are in their widths. *)
Record header_ok (h : ip_header) : Prop := {
  ho_tos : 0 <= h_tos h < 256;
  ho_len : 0 <= h_len h < 65536;
  ho_id : 0 <= h_id h < 65536;
  ho_frag : 0 <= h_frag h < 65536;
  ho_ttl : 0 <= h_ttl h < 256;
  ho_proto : 0 <= h_proto h < 256;
  ho_chk : 0 <= h_chk h < 65536;
  ho_src : 0 <= h_src h < 4294967296;
  ho_dst : 0 <= h_dst h < 4294967296
}.

(** Data that carries its checksum: the one's complement sum is all ones. *)
Definition sums_to_ones (l : list Z) : Prop := inet_sum l = 65535.

Lemma chksum_zero m a n : 0 <= n ->
  inet_chksum m a n = Some 0 <-> sums_to_ones (bytes m a (Z.to_nat n)).
Proof.
  intros Hn. unfold inet_chksum, sums_to_ones. rewrite chksum_bytes by done. cbn [mbind option_bind].
  assert (forall x, 0 <= x < 65536 -> not16 x = 65535 - x) as Hnot.
  { intros x Hx. unfold not16, u16. rewrite Z.mod_small; unfold Z.lnot; zlia. }
  pose proof (oc_fold_range (word_sum (bytes m a (Z.to_nat n)))) as Hr. unfold inet_sum in *.
  rewrite Hnot by lia. split; [intros [= ?]; lia | intros ->; done].
Qed.

(** The sum of the words of a header but for the checksum. *)
Definition header_sum (h : ip_header) : Z :=
  LWIP_MAKE_U16 (h_proto h) (h_ttl h) + h_dst h mod 65536 + h_dst h / 65536 + LWIP_MAKE_U16 (h_tos h) 0x45 +
  PP_HTONS (h_len h) + PP_HTONS (h_id h) + PP_HTONS (h_frag h) + h_src h mod 65536 + h_src h / 65536.

Lemma make_u16 a b : 0 <= a < 256 -> 0 <= b < 256 -> LWIP_MAKE_U16 a b = b + 256 * a.
Proof.
  intros Ha Hb. unfold LWIP_MAKE_U16. rewrite Z.shiftl_mul_pow2, lor_shift_add by lia. lia.
Qed.

Lemma word_sum_word v : 0 <= v < 4294967296 -> word_sum (word v) = v mod 65536 + v / 65536.
Proof. intros Hv. unfold word. cbn [word_sum]. zlia. Qed.

Lemma word_sum_be16 v l : 0 <= v < 65536 -> word_sum (be16 v ++ l) = PP_HTONS v + word_sum l.
Proof. intros Hv. rewrite htons_bytes by done. done. Qed.

Lemma encode_sum h : header_ok h -> word_sum (encode h) = header_sum h + h_chk h.
Proof.
  intros [H1 H2 H3 H4 H5 H6 H7 H8 H9]. unfold encode, header_sum. rewrite !make_u16 by lia.
  cbn [app]. cbn [word_sum]. rewrite !word_sum_be16 by done. cbn [app]. cbn [word_sum].
  rewrite (word_sum_app_even (word (h_src h)) (word (h_dst h))) by done. rewrite !word_sum_word by done. zlia.
Qed.

Lemma header_sum_range h : header_ok h -> 0x45 <= header_sum h < 9 * 65536.
Proof.
  intros [H1 H2 H3 H4 H5 H6 H7 H8 H9]. unfold header_sum. rewrite !make_u16 by lia.
  pose proof (PP_HTONS_range _ H2). pose proof (PP_HTONS_range _ H3). pose proof (PP_HTONS_range _ H4). zlia.
Qed.

(** The end of the computation in the code: two folds, the second without a mask,
    and the complement. *)
Definition close_sum (c : Z) : Z :=
  let c := u32 (Z.shiftr c 16 + Z.land c 0xffff) in
  let c := u32 (Z.shiftr c 16 + c) in
  u16 (u32 (Z.lnot c)).

Lemma close_sum_spec c : 0 < c < 9 * 65536 -> 0 <= close_sum c < 65535 /\ (c + close_sum c) mod 65535 = 0.
Proof.
  intros Hc. unfold close_sum. rewrite !shiftr_16, land_65535. set (d := c / 65536 + c mod 65536).
  assert (0 < d <= 65535 + 8 /\ c mod 65535 = d mod 65535) as [Hd Hm] by (unfold d; zlia).
  rewrite (u32_id d) by lia. rewrite (u32_id (d / 65536 + d)) by zlia.
  assert (u16 (u32 (Z.lnot (d / 65536 + d))) = 65535 - (d / 65536 + d) mod 65536) as ->
    by (unfold u16, u32, Z.lnot; zlia).
  split; [zlia |]. rewrite Zplus_mod, Hm, <- Zplus_mod. zlia.
Qed.

(** A header whose checksum is what the code computes verifies. *)
Lemma closed_header_verifies h :
  header_ok h -> h_chk h = close_sum (header_sum h) -> sums_to_ones (encode h).
Proof.
  intros Hok Hc. pose proof (header_sum_range h Hok) as Hr. destruct (close_sum_spec (header_sum h)) as [H1 H2]; [lia |].
  unfold sums_to_ones, inet_sum. rewrite encode_sum, Hc by done. unfold oc_fold.
  rewrite (proj2 (Z.eqb_neq _ 0)) by lia. zlia.
Qed.

(** The bytes of a header, field by field. *)
Lemma bytes20 m h :
  bytes m h 20 = bytes m h 1 ++ bytes m (h + 1) 1 ++ bytes m (h + 2) 2 ++ bytes m (h + 4) 2 ++ bytes m (h + 6) 2 ++
    bytes m (h + 8) 1 ++ bytes m (h + 9) 1 ++ bytes m (h + 10) 2 ++ bytes m (h + 12) 4 ++ bytes m (h + 16) 4.
Proof.
  change 20%nat with (1 + (1 + (2 + (2 + (2 + (1 + (1 + (2 + (4 + 4)))))))))%nat. rewrite !bytes_app.
  rewrite <- !Z.add_assoc. done.
Qed.

(** The header [ip_output_if] generates. *)
Definition out_header (tot src dest ttl tos proto id : Z) : ip_header :=
  let h := mkHeader tos tot id 0 ttl proto 0 src dest in
  mkHeader tos tot id 0 ttl proto (close_sum (header_sum h)) src dest.

Lemma out_header_ok tot src dest ttl tos proto id :
  0 <= tot < 65536 -> 0 <= src < 4294967296 -> 0 <= dest < 4294967296 -> 0 <= ttl < 256 -> 0 <= tos < 256 ->
  0 <= proto < 256 -> 0 <= id < 65536 ->
  header_ok (out_header tot src dest ttl tos proto id) /\ sums_to_ones (encode (out_header tot src dest ttl tos proto id)).
Proof.
  intros. assert (header_ok (mkHeader tos tot id 0 ttl proto 0 src dest)) as Hh by (split; cbn; lia).
  pose proof (header_sum_range _ Hh). destruct (close_sum_spec (header_sum (mkHeader tos tot id 0 ttl proto 0 src dest))); [lia |].
  assert (header_ok (out_header tot src dest ttl tos proto id)) as Hok by (split; cbn; lia).
  split; [done |]. by apply closed_header_verifies.
Qed.

(** What [make_header] computes, with the reads of what it has written resolved. *)
Lemma make_header_eq m h tot src dest ttl tos proto id :
  0 <= tot < 65536 -> 0 <= src < 4294967296 -> 0 <= dest < 4294967296 -> 0 <= ttl < 256 -> 0 <= tos < 256 ->
  0 <= proto < 256 -> 0 <= id < 65536 ->
  make_header m h tot src dest ttl tos proto id =
    st16 (st32 (st16 (st16 (st16 (st8 (st8 (st32 (st8 (st8 m (h + 8) (u8 ttl)) (h + 9) (u8 proto))
      (h + 16) dest) (h + 0) 0x45) (h + 1) tos) (h + 2) (PP_HTONS tot)) (h + 6) 0) (h + 4) (PP_HTONS id)) (h + 12) src)
      (h + 10) (close_sum (header_sum (mkHeader tos tot id 0 ttl proto 0 src dest))).
Proof.
  intros Ht Hs Hd Hl Ho Hp Hi. pose proof (PP_HTONS_range _ Ht). pose proof (PP_HTONS_range _ Hi).
  unfold make_header, IPH_TTL_SET, IPH_PROTO_SET, IPH_VHL_SET, IPH_TOS_SET, IPH_LEN_SET, IPH_OFFSET_SET, IPH_ID_SET,
    IPH_DEST, IPH_LEN, IPH_ID, IPH_SRC, IPH_ttl, IPH_proto, IPH_dest, IPH_v_hl, IPH_tos, IPH_len, IPH_offset, IPH_id,
    IPH_src, IPH_chksum.
  cbv zeta. change (Z.lor (Z.shiftl 4 4) (IP_HLEN / 4)) with 0x45.
  rewrite !ld32_st32, !ld16_st16 by done. rewrite ld8_st8_ne, ld8_st8_eq by lia. change (u8 0x45) with 0x45.
  f_equal. fold (close_sum (header_sum (mkHeader tos tot id 0 ttl proto 0 src dest))).
  unfold header_sum. cbn [h_proto h_ttl h_dst h_tos h_len h_id h_frag h_src].
  rewrite !make_u16, !shiftr_16, !land_65535 by lia. change (PP_HTONS 0) with 0.
  assert (0 <= dest mod 65536 < 65536 /\ 0 <= dest / 65536 < 65536) as [D1 D2] by zlia.
  assert (0 <= src mod 65536 < 65536 /\ 0 <= src / 65536 < 65536) as [S1 S2] by zlia.
  generalize dependent (dest mod 65536). intros d1 D1. generalize dependent (dest / 65536). intros d2 D2.
  generalize dependent (src mod 65536). intros s1 S1. generalize dependent (src / 65536). intros s2 S2.
  generalize dependent (PP_HTONS tot). intros pt Hpt. generalize dependent (PP_HTONS id). intros pi Hpi.
  rewrite (u32_id (ttl + 256 * proto + d1)) by lia. rewrite (u32_id (ttl + 256 * proto + d1 + d2)) by lia.
  rewrite (u32_id (ttl + 256 * proto + d1 + d2 + (69 + 256 * tos))) by lia.
  rewrite !(u32_id (ttl + _ + _ + _ + _ + _)) by lia.
  rewrite !(u32_id (ttl + _ + _ + _ + _ + _ + _)) by lia. rewrite !(u32_id (ttl + _ + _ + _ + _ + _ + _ + _)) by lia.
  rewrite Z.add_0_r. rewrite !(u32_id (ttl + _ + _ + _ + _ + _ + _ + _ + _)) by lia. unfold close_sum.
  rewrite !shiftr_16, !land_65535. done.
Qed.

Lemma write_header m h tot src dest ttl tos proto id c :
  header_ok (mkHeader tos tot id 0 ttl proto c src dest) ->
  let m' := st16 (st32 (st16 (st16 (st16 (st8 (st8 (st32 (st8 (st8 m (h + 8) (u8 ttl)) (h + 9) (u8 proto))
      (h + 16) dest) (h + 0) 0x45) (h + 1) tos) (h + 2) (PP_HTONS tot)) (h + 6) 0) (h + 4) (PP_HTONS id)) (h + 12) src)
      (h + 10) c in
  bytes m' h 20 = encode (mkHeader tos tot id 0 ttl proto c src dest) /\ frame m m' h 20.
Proof.
  intros [Ho Ht Hi _ Hl Hp Hc Hs Hd] m'.
  cbn [h_tos h_len h_id h_frag h_ttl h_proto h_chk h_src h_dst] in Ho, Ht, Hi, Hl, Hp, Hc, Hs, Hd. unfold m'. rewrite Z.add_0_r. split.
  - rewrite bytes20. unfold encode. cbn [h_tos h_len h_id h_frag h_ttl h_proto h_chk h_src h_dst].
    change ([0x45; tos] ++ ?l) with ([0x45] ++ [tos] ++ l). change ([ttl; proto] ++ ?l) with ([ttl] ++ [proto] ++ l).
    assert (forall x, 0 <= x < 256 -> u8 x = x) as Hu by (intros x Hx; unfold u8; by rewrite Z.mod_small).
    f_equal; [skip_writes; by rewrite bytes_st8 |]. f_equal; [skip_writes; by rewrite bytes_st8, Hu |].
    f_equal; [skip_writes; by apply bytes_st16_htons |]. f_equal; [skip_writes; by apply bytes_st16_htons |].
    f_equal; [skip_writes; by rewrite bytes_st16 |].
    f_equal; [skip_writes; by rewrite bytes_st8, (Hu ttl), (Hu ttl) by done |].
    f_equal; [skip_writes; by rewrite bytes_st8, (Hu proto), (Hu proto) by done |].
    f_equal; [by apply bytes_st16 |]. f_equal; [skip_writes; by apply bytes_st32 |]. skip_writes. by apply bytes_st32.
  - intros x Hx. by skip_writes8.
Qed.

Lemma make_header_spec m h tot src dest ttl tos proto id :
  0 <= tot < 65536 -> 0 <= src < 4294967296 -> 0 <= dest < 4294967296 -> 0 <= ttl < 256 -> 0 <= tos < 256 ->
  0 <= proto < 256 -> 0 <= id < 65536 ->
  let m' := make_header m h tot src dest ttl tos proto id in
  bytes m' h 20 = encode (out_header tot src dest ttl tos proto id) /\ frame m m' h 20.
Proof.
  intros Ht Hs Hd Hl Ho Hp Hi m'. destruct (out_header_ok tot src dest ttl tos proto id) as [Hok _]; try done.
  unfold m'. rewrite make_header_eq by done. apply write_header. exact Hok.
Qed.

(** Data in front of which 16 bits at an even offset hold the checksum.  The
    checksum 0 may also be stored as all ones. *)
Lemma sum_closed d1 d2 c :
  even_len d1 = true -> Forall (fun x => 0 <= x < 256) d1 -> Forall (fun x => 0 <= x < 256) d2 ->
  c = 65535 - inet_sum (d1 ++ [0; 0] ++ d2) \/ (c = 65535 /\ inet_sum (d1 ++ [0; 0] ++ d2) = 65535) ->
  sums_to_ones (d1 ++ [c mod 256; c / 256] ++ d2).
Proof.
  intros He H1 H2 Hc. apply word_sum_nonneg in H1, H2.
  assert (forall x y, word_sum (d1 ++ [x; y] ++ d2) = word_sum d1 + (x + 256 * y) + word_sum d2) as Hw.
  { intros x y. rewrite word_sum_app_even by done. cbn [app word_sum]. lia. }
  unfold sums_to_ones, inet_sum in *. rewrite Hw in Hc |- *. replace (c mod 256 + 256 * (c / 256)) with c by zlia.
  replace (word_sum d1 + (0 + 256 * 0) + word_sum d2) with (word_sum d1 + word_sum d2) in Hc by lia.
  replace (word_sum d1 + c + word_sum d2) with (word_sum d1 + word_sum d2 + c) by lia.
  set (w := word_sum d1 + word_sum d2) in *. assert (0 <= w) as Hw0 by lia. clearbody w. clear Hw H1 H2 He.
  unfold oc_fold in *. destruct (Z.eqb_spec w 0) as [E | H0].
  - rewrite E. by destruct Hc as [-> | [-> _]].
  - assert (0 <= (w - 1) mod 65535 < 65535) by (apply Z.mod_pos_bound; lia).
    rewrite (proj2 (Z.eqb_neq (w + c) 0)) by lia. zlia.
Qed.

End IpHeader.
