(* ===== verification/IpSend.v ===== *)
(** Routing and sending: [ip_route], [ip_output_if] and [ip_output]. *)

From stdpp Require Import base tactics numbers list gmap.
From Stdlib Require Import ZArith Lia.
From S2P Require Import Prelude ByteOrder Fields Stats PbufDefs NetifDefs Mylib InetChksum Allocator Mem Memp PbufMem World Pbuf PbufData PbufChains PbufLinks IpAddr IpDefs IpOutput IpHeader.

Local Open Scope Z_scope.

Module IpSend.
Import ByteOrder Fields InetChksum Memp Pbuf PbufData PbufChains PbufLinks IpAddr IpDefs IpOutput IpHeader.

(** ** Interfaces *)

(** An address of the network of interface [n]. *)
Definition on_link (n : netif) (dest : Z) : bool :=
  netif_is_up n && ip_addr_netcmp dest (nif_ip_addr n) (nif_netmask n).

(** The list of interfaces: distinct objects, [netif_default] one of them. *)
Record netifs_ok (l : list (Z * netif)) (def : Z) : Prop := {
  no_nodup : NoDup l.*1;
  no_null : 0 ∉ l.*1;
  no_default : def <> 0 -> def ∈ l.*1;
  no_addr : forall np n, (np, n) ∈ l -> 0 <= nif_ip_addr n < 4294967296
}.

Lemma netif_in_elem l np n : NoDup l.*1 -> (np, n) ∈ l <-> netif_in l np = Some n.
Proof.
  induction l as [| [a x] l IH]; intros Hn; cbn; [split; [by intros ?%elem_of_nil | done] |].
  cbn in Hn. apply NoDup_cons in Hn as [Ha Hn]. specialize (IH Hn). rewrite elem_of_cons.
  destruct (Z.eqb_spec a np) as [-> | Hne].
  - split; [intros [[= <-] | Hin]; [done |] | intros [= <-]; by left].
    destruct Ha. apply list_elem_of_fmap. by exists (np, n).
  - rewrite <- IH. split; [intros [[= <- <-] | ?]; done | by right].
Qed.

Lemma netif_in_addr l np : np ∈ l.*1 -> exists n, netif_in l np = Some n.
Proof.
  induction l as [| [a x] l IH]; cbn; [by intros ?%elem_of_nil |]. rewrite elem_of_cons. intros [-> | Hin].
  - rewrite Z.eqb_refl. by eexists.
  - destruct (a =? np); [by eexists | by apply IH].
Qed.

(** [route_in] is the first interface of the network. *)
Lemma route_in_spec l dest :
  0 ∉ l.*1 ->
  (route_in l dest = 0 /\ forall np n, (np, n) ∈ l -> on_link n dest = false) \/
  (exists l1 np n l2, l = l1 ++ (np, n) :: l2 /\ route_in l dest = np /\ np <> 0 /\ on_link n dest = true /\
     forall np n, (np, n) ∈ l1 -> on_link n dest = false).
Proof.
  induction l as [| [a x] l IH]; intros H0; cbn.
  { left. split; [done |]. by intros np n ?%elem_of_nil. }
  cbn in H0. rewrite elem_of_cons in H0. fold (on_link x dest). destruct (on_link x dest) eqn:Ex.
  - right. exists [], a, x, l. split; [done |]. split; [done |]. split; [intros ->; tauto |]. split; [done |].
    by intros np n ?%elem_of_nil.
  - destruct IH as [[-> Hn] | (l1 & np & n & l2 & -> & -> & Hp & Hl & Hf)]; [tauto | left | right].
    + split; [done |]. intros np n Hin. apply elem_of_cons in Hin as [[= -> ->] | Hin]; [done | by eapply Hn].
    + exists ((a, x) :: l1), np, n, l2. split; [done |]. split; [done |]. split; [done |]. split; [done |].
      intros np' n' Hin. apply elem_of_cons in Hin as [[= -> ->] | Hin]; [done | by eapply Hf].
Qed.

Section send.
Context {W X U : Type} `{LW : MemSystemLaws W}.
Context (stale : Z -> Z) (custom_free : pstate W -> Z -> option (pstate W)).
Context (netif_output : X -> pstate W -> Z -> netif -> Z -> Z -> option (X * pstate W * Z)).

Implicit Type s : istate W X U.

(** Interface [np] is the route to [dest]: the first of its network, or else the
    default interface. *)
Definition routed s (dest np : Z) (n : netif) : Prop :=
  np <> 0 /\ netif_at s np = Some n /\ netif_is_up n = true /\
  ((exists l1 l2, i_netifs s = l1 ++ (np, n) :: l2 /\ on_link n dest = true /\
      forall np n, (np, n) ∈ l1 -> on_link n dest = false) \/
   (np = i_default s /\ forall np n, (np, n) ∈ i_netifs s -> on_link n dest = false)).

(** There is no route. *)
Definition unroutable s (dest : Z) : Prop :=
  (forall np n, (np, n) ∈ i_netifs s -> on_link n dest = false) /\
  (i_default s = 0 \/ exists n, netif_at s (i_default s) = Some n /\ netif_is_up n = false).

Lemma route_spec s dest :
  netifs_ok (i_netifs s) (i_default s) ->
  (exists np n, ip_route s dest = Some (s, np) /\ routed s dest np n) \/
  (ip_route s dest = Some (IP_STATS_INC c_rterr s, 0) /\ unroutable s dest).
Proof.
  intros [Hnd H0 Hd _]. unfold ip_route.
  destruct (route_in_spec (i_netifs s) dest H0) as [[-> Hn] | (l1 & np & n & l2 & El & -> & Hp & Hl & Hf)].
  - cbn [Z.eqb negb]. destruct (Z.eqb_spec (i_default s) 0) as [E0 | E0].
    { right. split; [done |]. split; [done | by left]. }
    destruct (netif_in_addr _ _ (Hd E0)) as [n Hin]. unfold netif_at. rewrite Hin. cbn [mbind option_bind].
    destruct (netif_is_up n) eqn:Eu; cbn [negb].
    + left. exists (i_default s), n. split; [done |]. split; [done |]. split; [done |]. split; [done |]. by right.
    + right. split; [done |]. split; [done |]. right. by exists n.
  - rewrite (proj2 (Z.eqb_neq np 0)) by done. cbn [negb]. left. exists np, n. split; [done |]. split; [done |].
    split; [apply netif_in_elem; [done |]; rewrite El; apply elem_of_app; right; apply elem_of_cons; by left |].
    split; [unfold on_link in Hl; by apply andb_true_iff in Hl as [? _] |]. left. by exists l1, l2.
Qed.

(** ** Sending *)

(** A packet IP can send: a live pbuf with its lengths in range. *)
Definition sendable s (p : Z) (b : pbuf) : Prop :=
  i_pbuf s p = Some b /\ p <> 0 /\ len b <= tot_len b < 65536 - 20 /\ (type b = PBUF_RAM \/ type b = PBUF_POOL).

(** The pbufs given to the interface: the packet with the header [h] in front. *)
Definition with_header s (p : Z) (b : pbuf) (h : ip_header) (ps : pstate W) : Prop :=
  pst ps = <[p := move_payload b 20]> (pst (i_p s)) /\ ooseq_pending ps = ooseq_pending (i_p s) /\
  bytes (mem_of ps) (payload b - 20) 20 = encode h /\ frame (i_mem s) (mem_of ps) (payload b - 20) 20.

Record send_args (src dest ttl tos proto : Z) : Prop := {
  sa_src : 0 <= src < 4294967296;
  sa_dest : 0 <= dest < 4294967296;
  sa_ttl : 0 <= ttl < 256;
  sa_tos : 0 <= tos < 256;
  sa_proto : 0 <= proto < 256
}.

(** The state after a packet was handed over. *)
Definition sent s (x : X) (ps : pstate W) : istate W X U :=
  set_i_p (set_low (IP_STATS_INC c_xmit (set_ip_id s (u16 (i_id s + 1)))) x) ps.

Lemma psys_header_write (ps : pstate W) L p b m :
  psys ps L -> pst ps !! p = Some b -> type b = PBUF_RAM \/ type b = PBUF_POOL -> len b <= tot_len b ->
  p + 16 <= payload b - 20 -> frame (mem_of ps) m (payload b - 20) 20 ->
  psys (set_mem (set_pst ps (<[p := move_payload b 20]> (pst ps))) m) L.
Proof.
  intros Hs Hb Ht Hl Hr Hf. pose proof (ps_pbuf _ _ Hs p b Hb) as (H1 & H2 & H3 & H4 & k & Hk & H6 & H7).
  assert (p + 16 <= payload b /\ payload b + len b <= p + k) as [H8 H9] by by destruct Ht as [E | E]; rewrite E in H7.
  apply psys_set_pw.
  - apply psys_update; [done |]. split; [done |]. cbn. split; [done |]. split; [lia |]. split; [done |].
    exists k. split; [done |]. split; [done |]. destruct Ht as [-> | ->]; lia.
  - apply ms_data_law; [apply Hs |]. intros x Hx. apply Hf. intros Hin. apply Hx. exists p, k. split; [done | lia].
Qed.

Lemma i_pbuf_moved s (ps : pstate W) p b :
  i_pbuf (set_i_p s (set_pst ps (<[p := b]> (pst ps)))) p = Some b.
Proof. apply lookup_insert_eq. Qed.

Lemma output_if_spec s L p b src dest ttl tos proto np n :
  psys (i_p s) L -> sendable s p b -> netif_at s np = Some n -> 0 <= nif_ip_addr n < 4294967296 ->
  send_args src dest ttl tos proto -> 0 <= i_id s < 65536 -> nif_mtu n = 0 \/ tot_len b + 20 <= nif_mtu n ->
  let h := out_header (tot_len b + 20) (if src =? 0 then nif_ip_addr n else src) dest ttl tos proto (i_id s) in
  if payload b - 20 <? p + 16
  then ip_output_if stale custom_free netif_output s p src (Some dest) ttl tos proto np = Some (IP_STATS_INC c_err s, ERR_BUF)
  else exists ps, with_header s p b h ps /\ psys ps L /\ header_ok h /\ sums_to_ones (encode h) /\
    ip_output_if stale custom_free netif_output s p src (Some dest) ttl tos proto np =
      ('(x, ps', r) ← netif_output (i_low s) ps np n p dest; Some (sent s x ps', r)).
Proof.
  intros Hs (Hb & Hp & Hl & Ht) Hn Hip [A1 A2 A3 A4 A5] Hid Hmtu h. unfold i_pbuf in Hb.
  unfold ip_output_if. rewrite Hn. cbn [mbind option_bind]. unfold i_header, IP_HLEN.
  pose proof (ps_pbuf _ _ Hs p b Hb) as (_ & _ & Hl0 & _).
  destruct (header_spec (i_p s) p b 20 Hb Hp ltac:(lia) ltac:(lia) ltac:(lia)) as [Hyes Hno].
  destruct (Z.ltb_spec (payload b - 20) (p + 16)) as [Hroom | Hroom].
  - rewrite Hno; [| unfold header_fits, SIZEOF_STRUCT_PBUF; destruct Ht as [-> | ->]; lia | lia].
    cbn [mbind option_bind]. by destruct s.
  - rewrite Hyes by (unfold header_fits, SIZEOF_STRUCT_PBUF; destruct Ht as [-> | ->]; lia).
    cbn [mbind option_bind]. cbn [Z.eqb negb]. rewrite i_pbuf_moved. cbn [mbind option_bind]. change IPADDR_ANY with 0.
    set (a := if src =? 0 then nif_ip_addr n else src) in *.
    assert (0 <= a < 4294967296) as Ha by (unfold a; by case_bool).
    set (s1 := set_i_p s (set_pst (i_p s) (<[p := move_payload b 20]> (pst (i_p s))))).
    change (tot_len (move_payload b 20)) with (tot_len b + 20). change (payload (move_payload b 20)) with (payload b - 20).
    change (i_id s1) with (i_id s). change (i_mem s1) with (i_mem s).
    destruct (make_header_spec (i_mem s) (payload b - 20) (tot_len b + 20) a dest ttl tos proto (i_id s))
      as [Hbytes Hf]; try done; [lia |].
    set (m := make_header _ _ _ _ _ _ _ _ _) in *. set (ps := set_mem (i_p s1) m). exists ps.
    assert (mem_of ps = m) as Em by apply ms_mem_set.
    destruct (out_header_ok (tot_len b + 20) a dest ttl tos proto (i_id s)) as [Hok Hsum]; try done; [lia |].
    split; [split; [done | split; [done | rewrite Em; by split]] |].
    split; [exact (psys_header_write (i_p s) L p b m Hs Hb Ht ltac:(lia) ltac:(lia) Hf) |]. split; [done |]. split; [done |].
    set (s2 := IP_STATS_INC c_xmit (set_ip_id (i_write s1 m) _)). assert (i_pbuf s2 p = Some (move_payload b 20)) as ->
      by apply lookup_insert_eq.
    cbn [mbind option_bind]. change (tot_len (move_payload b 20)) with (tot_len b + 20).
    replace (negb (nif_mtu n =? 0) && (nif_mtu n <? tot_len b + 20)) with false; [done |].
    symmetry. apply andb_false_iff. destruct Hmtu as [-> | ?]; [by left | right; apply Z.ltb_ge; lia].
Qed.

(** C27: [ip_output] routes and sends a packet in a PBUF_RAM or PBUF_POOL buffer that needs no
    fragments: with the header of 20 bytes it fits the MTU of every interface that has
    one, and 16 bits.  With no interface up on the
    network of the destination and no default interface that is up, it returns
    ERR_RTE and only counts.  Otherwise, on the first interface of the network or
    else the default one: if the pbuf has no room for the header, ERR_BUF and no
    change to the packet; if it has, the interface is given, exactly once, the
    packet with a 20-byte header in front that encodes its length, the addresses
    (the interface's own if none was given), the protocol and the next
    identification, whose checksum verifies; no other byte and no other pbuf
    changes. *)
Theorem ip_output_correct s L p b src dest ttl tos proto :
  psys (i_p s) L -> netifs_ok (i_netifs s) (i_default s) -> sendable s p b -> send_args src dest ttl tos proto ->
  0 <= i_id s < 65536 -> (forall np n, (np, n) ∈ i_netifs s -> nif_mtu n = 0 \/ tot_len b + 20 <= nif_mtu n) ->
  (unroutable s dest /\
     ip_output stale custom_free netif_output s p src dest ttl tos proto =
       Some (IP_STATS_INC c_rterr (IP_STATS_INC c_rterr s), ERR_RTE)) \/
  (exists np n, routed s dest np n /\
     let h := out_header (tot_len b + 20) (if src =? 0 then nif_ip_addr n else src) dest ttl tos proto (i_id s) in
     if payload b - 20 <? p + 16
     then ip_output stale custom_free netif_output s p src dest ttl tos proto = Some (IP_STATS_INC c_err s, ERR_BUF)
     else exists ps, with_header s p b h ps /\ psys ps L /\ header_ok h /\ sums_to_ones (encode h) /\
       ip_output stale custom_free netif_output s p src dest ttl tos proto =
         ('(x, ps', r) ← netif_output (i_low s) ps np n p dest; Some (sent s x ps', r))).
Proof.
  intros Hs Hn Hp Ha Hid Hmtu. unfold ip_output.
  destruct (route_spec s dest Hn) as [(np & n & -> & Hr) | [-> Hu]]; cbn [mbind option_bind].
  - right. exists np, n. split; [done |]. destruct Hr as (Hnp & Hat & _). rewrite (proj2 (Z.eqb_neq np 0)) by done.
    assert ((np, n) ∈ i_netifs s) as Hin by (apply netif_in_elem; [apply Hn | done]).
    apply (output_if_spec s L p b src dest ttl tos proto np n); try done; [by apply (no_addr _ _ Hn np) | by apply (Hmtu np)].
  - left. by split.
Qed.

End send.

(** ** A sample stack *)

#[local] Existing Instance World.world_system.
#[local] Existing Instance World.sample_laws.

(** 192.168.1.10/24 with the gateway 192.168.1.1. *)
Definition sample_lan : netif :=
  mkNetif 0x0a01a8c0 0x00ffffff 0x0101a8c0 1500 6 [0x0a; 0; 0x35; 0; 1; 2] (NETIF_FLAG_UP + NETIF_FLAG_BROADCAST + NETIF_FLAG_ETHARP)
    (101, 48) 0.

Definition sample_stats : stats_proto := mkStatsProto 0 0 0 0 0 0 0 0 0 0 0 0.

(** One interface, a packet of 100 bytes, and a link that keeps what it is
    given. *)
Definition sample_stack : istate World.world (list (Z * Z)) unit :=
  mkIstate (sample_alloc sample_empty PBUF_TRANSPORT 100 PBUF_RAM) [] [(1, sample_lan)] 1 7 (mkCurrent 0 0 0 0) ∅ 0 0
    sample_stats sample_stats sample_stats tt.

Definition sample_link (x : list (Z * Z)) (ps : pstate World.world) (np : Z) (n : netif) (p dest : Z)
    : option (list (Z * Z) * pstate World.world * Z) := Some (x ++ [(p, dest)], ps, ERR_OK).

Lemma sample_netifs_ok : netifs_ok [(1, sample_lan)] 1.
Proof.
  split; cbn.
  - repeat constructor. by intros ?%elem_of_nil.
  - intros ?%list_elem_of_singleton. done.
  - intros _. by apply list_elem_of_singleton.
  - intros np n [= -> ->]%list_elem_of_singleton. cbn. lia.
Qed.

Lemma ip_output_correct_witness :
  exists s' p b, pst (i_p sample_stack) !! p = Some b /\ tot_len b = 100 /\
    ip_output no_stale no_custom sample_link sample_stack p 0 0x1401a8c0 255 0 IP_PROTO_UDP = Some (s', ERR_OK) /\
    i_low s' = [(p, 0x1401a8c0)] /\ i_id s' = 8.
Proof.
  destruct (sample_alloc_ok sample_empty ∅ PBUF_TRANSPORT 100 PBUF_RAM sample_empty_ok ltac:(lia)
    ltac:(intros _; unfold ram_length_ok; lia)) as [L HL].
  assert (pst (i_p sample_stack) !! 4108 = Some (mkPbuf 0 4180 100 100 PBUF_RAM 0 1)) as Hb by (vm_compute; reflexivity).
  destruct (ip_output_correct no_stale no_custom sample_link sample_stack L 4108 (mkPbuf 0 4180 100 100 PBUF_RAM 0 1)
    0 0x1401a8c0 255 0 IP_PROTO_UDP
    HL sample_netifs_ok) as [[[Hn _] _] | (np & n & Hr & Hsend)];
    [split; [exact Hb |]; cbn; split; [lia |]; split; [lia |]; by left | split; unfold IP_PROTO_UDP; lia | cbn; lia
    | intros np n [= -> ->]%list_elem_of_singleton; right; cbn; lia | |].
  - exfalso. specialize (Hn 1 sample_lan ltac:(by apply list_elem_of_singleton)). done.
  - cbn [payload Z.ltb] in Hsend. destruct Hsend as (ps & _ & _ & _ & _ & E).
    eexists _, 4108, _. split; [exact Hb |]. split; [reflexivity |]. split; [exact E |]. split; reflexivity.
Defined.

End IpSend.
