(* ===== verification/Icmp.v ===== *)
(** ICMP: src/core/ipv4/icmp.c of lwIP 1.4.1 (no answers to broadcast or
    multicast pings, LWIP_ICMP_ECHO_CHECK_INPUT_PBUF_LEN 1). *)

From stdpp Require Import base tactics numbers list gmap.
From Stdlib Require Import ZArith Lia.
From S2P Require Import Prelude ByteOrder Stats PbufDefs NetifDefs InetChksum Allocator Mem Memp PbufMem Pbuf IpAddr IpDefs IpOutput.

Local Open Scope Z_scope.

Module Icmp.
Import ByteOrder InetChksum Memp Pbuf IpAddr IpDefs IpOutput.

(** Offsets of the fields of [struct icmp_echo_hdr], and its size. *)
Definition ICMPH_type : Z := 0.
Definition ICMPH_code : Z := 1.
Definition ICMPH_chksum : Z := 2.
Definition ICMPH_id : Z := 4.
Definition ICMPH_seqno : Z := 6.
Definition SIZEOF_ICMP_ECHO_HDR : Z := 8.
Definition ICMP_DEST_UNREACH_DATASIZE : Z := 8.

(** The checksum of the reply from that of the request. *)
Definition adjust_chksum (c : Z) : Z :=
  if PP_HTONS (0xffff - Z.shiftl ICMP_ECHO 8) <=? c then u16 (c + (PP_HTONS (Z.shiftl ICMP_ECHO 8) + 1))
  else u16 (c + PP_HTONS (Z.shiftl ICMP_ECHO 8)).

Section icmp.
Context {W X U : Type} `{MemSystem W}.
Context (stale : Z -> Z) (custom_free : pstate W -> Z -> option (pstate W)).
Context (netif_output : X -> pstate W -> Z -> netif -> Z -> Z -> option (X * pstate W * Z)).

Implicit Type s : istate W X U.

(** ** Error messages *)

Definition icmp_send_response s (p type code : Z) : option (istate W X U) :=
  '(ps, q) ← pbuf_alloc stale custom_free (i_p s) PBUF_IP (SIZEOF_ICMP_ECHO_HDR + IP_HLEN + ICMP_DEST_UNREACH_DATASIZE) PBUF_RAM;
  let s := set_i_p s ps in
  if q =? 0 then Some s
  else
    b ← i_pbuf s p;
    qb ← i_pbuf s q;
    let iphdr := payload b in
    let icmphdr := payload qb in
    let m := st8 (i_mem s) (icmphdr + ICMPH_type) type in
    let m := st8 m (icmphdr + ICMPH_code) code in
    let m := st16 m (icmphdr + ICMPH_id) 0 in
    let m := st16 m (icmphdr + ICMPH_seqno) 0 in
    let m := st_bytes m (icmphdr + SIZEOF_ICMP_ECHO_HDR)
               (bytes m iphdr (Z.to_nat (IP_HLEN + ICMP_DEST_UNREACH_DATASIZE))) in
    let m := st16 m (icmphdr + ICMPH_chksum) 0 in
    c ← inet_chksum m icmphdr (len qb);
    let m := st16 m (icmphdr + ICMPH_chksum) c in
    let s := ICMP_STATS_INC c_xmit (i_write s m) in
    '(s, _) ← ip_output stale custom_free netif_output s q 0 (IPH_SRC m iphdr) ICMP_TTL 0 IP_PROTO_ICMP;
    i_free custom_free s q.

Definition icmp_dest_unreach s (p t : Z) : option (istate W X U) := icmp_send_response s p ICMP_DUR t.
Definition icmp_time_exceeded s (p t : Z) : option (istate W X U) := icmp_send_response s p ICMP_TE t.

(** ** Input *)

(** The labels [lenerr] and [memerr]. *)
Definition icmp_lenerr s (p : Z) : option (istate W X U) :=
  s ← i_free custom_free s p; Some (ICMP_STATS_INC c_lenerr s).
Definition icmp_memerr s (p : Z) : option (istate W X U) :=
  s ← i_free custom_free s p; Some (ICMP_STATS_INC c_err s).

(** The packet to answer in, with its IP header: [p] itself, or a copy with room
    for the link header when [p] has none; [None] inside for [memerr]. *)
Definition echo_buffer s (p iphdr hlen : Z) : option (istate W X U * option (Z * Z)) :=
  '(s, r) ← i_header s p (PBUF_IP_HLEN + PBUF_LINK_HLEN);
  if negb (r =? 0) then
    '(s, r) ← i_header s p hlen;
    if negb (r =? 0) then Some (s, None)
    else
      b ← i_pbuf s p;
      '(ps, q) ← pbuf_alloc stale custom_free (i_p s) PBUF_LINK (tot_len b) PBUF_RAM;
      let s := set_i_p s ps in
      if q =? 0 then Some (s, None)
      else
        '(m, r) ← pbuf_copy (i_mem s) (pst (i_p s)) q p;
        let s := i_write s m in
        if negb (r =? ERR_OK) then Some (s, None)
        else
          qb ← i_pbuf s q;
          let iphdr := payload qb in
          '(s, r) ← i_header s q (- hlen);
          if negb (r =? 0) then Some (s, None)
          else s ← i_free custom_free s p; Some (s, Some (q, iphdr))
  else
    '(s, r) ← i_header s p (- (PBUF_IP_HLEN + PBUF_LINK_HLEN));
    if negb (r =? 0) then Some (s, None) else Some (s, Some (p, iphdr)).

(** The request turned into the reply, in place. *)
Definition echo_reply (m : memory) (iphdr iecho src dest : Z) : option memory :=
  let m := st32 m (iphdr + IPH_src) src in
  let m := st32 m (iphdr + IPH_dest) dest in
  let m := st8 m (iecho + ICMPH_type) ICMP_ER in
  let m := st16 m (iecho + ICMPH_chksum) (adjust_chksum (ld16 m (iecho + ICMPH_chksum))) in
  let m := IPH_TTL_SET m iphdr ICMP_TTL in
  let m := IPH_CHKSUM_SET m iphdr 0 in
  c ← inet_chksum m iphdr IP_HLEN;
  Some (IPH_CHKSUM_SET m iphdr c).

(** The answer to an echo request, behind its checks. *)
Definition echo_answer s (p iphdr hlen np : Z) : option (istate W X U) :=
  '(s, t) ← echo_buffer s p iphdr hlen;
  match t with
  | None => icmp_memerr s p
  | Some (p, iphdr) =>
      b ← i_pbuf s p;
      m ← echo_reply (i_mem s) iphdr (payload b) (cur_dest (i_cur s)) (cur_src (i_cur s));
      let s := ICMP_STATS_INC c_xmit (i_write s m) in
      '(s, r) ← i_header s p hlen;
      s ← (if negb (r =? 0) then Some s
           else '(s, _) ← ip_output_if stale custom_free netif_output s p (cur_dest (i_cur s)) None ICMP_TTL 0 IP_PROTO_ICMP np;
                Some s);
      i_free custom_free s p
  end.

Definition icmp_input s (p np : Z) : option (istate W X U) :=
  let s := ICMP_STATS_INC c_recv s in
  n ← netif_at s np;
  b ← i_pbuf s p;
  let iphdr := payload b in
  let hlen := IPH_HL (i_mem s) iphdr * 4 in
  '(s, r) ← i_header s p (- hlen);
  b ← i_pbuf s p;
  if negb (r =? 0) || (tot_len b <? 4) then icmp_lenerr s p
  else
    let type := ld8 (i_mem s) (payload b) in
    if type =? ICMP_ER then i_free custom_free s p
    else if type =? ICMP_ECHO then
      if ip_addr_ismulticast (cur_dest (i_cur s)) || negb (ip4_addr_isbroadcast (cur_dest (i_cur s)) n =? 0) then
        i_free custom_free (ICMP_STATS_INC c_err s) p
      else if tot_len b <? SIZEOF_ICMP_ECHO_HDR then icmp_lenerr s p
      else
        c ← inet_chksum_pbuf (i_mem s) (pst (i_p s)) p;
        if negb (c =? 0) then s ← i_free custom_free s p; Some (ICMP_STATS_INC c_chkerr s)
        else echo_answer s p iphdr hlen np
    else i_free custom_free (ICMP_STATS_INC c_drop (ICMP_STATS_INC c_proterr s)) p.

End icmp.

End Icmp.
