(* ===== verification/IcmpEcho.v ===== *)
(** Answering a ping: [icmp_input] on echo requests. *)

From stdpp Require Import base tactics numbers list gmap.
From Stdlib Require Import ZArith Lia.
From S2P Require Import Prelude ByteOrder Fields Stats PbufDefs NetifDefs Mylib InetChksum Allocator Mem Memp PbufMem World Pbuf PbufData PbufChains PbufLinks IpAddr IpDefs IpOutput IpHeader IpSend Icmp.

Local Open Scope Z_scope.

Module IcmpEcho.
Import ByteOrder Fields InetChksum Memp Pbuf PbufData PbufChains PbufLinks IpAddr IpDefs IpOutput IpHeader IpSend Icmp.

(** ** The reply as a message *)

(** The reply to a request: the type cleared, the checksum adjusted, everything
    else as it was. *)
Definition reply_of (msg : list Z) : list Z :=
  match msg with
  | _ :: code :: k0 :: k1 :: rest =>
      let c := adjust_chksum (k0 + 256 * k1) in ICMP_ER :: code :: c mod 256 :: c / 256 :: rest
  | _ => msg
  end.

Lemma adjust_chksum_eq c : 0 <= c < 65536 -> adjust_chksum c = if 0xfff7 <=? c then c + 9 - 65536 else c + 8.
Proof.
  intros Hc. unfold adjust_chksum. change (PP_HTONS (0xffff - Z.shiftl ICMP_ECHO 8)) with 0xfff7.
  change (PP_HTONS (Z.shiftl ICMP_ECHO 8)) with 8. case_bool; bool_to_prop; unfold u16; zlia.
Qed.

Lemma adjust_range c : 0 <= c < 65536 -> 0 <= adjust_chksum c < 65536.
Proof. intros Hc. rewrite adjust_chksum_eq by done. case_bool; bool_to_prop; lia. Qed.

Lemma word_sum_zero l : Forall (fun x => 0 <= x < 256) l -> word_sum l = 0 -> Forall (fun x => x = 0) l.
Proof.
  revert l. fix IH 1. intros [| a [| b l]] Hl Hs; cbn [word_sum] in Hs; [constructor | by constructor |].
  apply Forall_cons in Hl as [Ha Hl]. apply Forall_cons in Hl as [Hb Hl].
  pose proof (word_sum_nonneg l Hl). constructor; [lia |]. constructor; [lia |]. apply IH; [done | lia].
Qed.

(** The reply to a valid request carries a valid checksum, unless it is all
    zeros. *)
Lemma reply_verifies code k0 k1 rest :
  let msg := ICMP_ECHO :: code :: k0 :: k1 :: rest in
  Forall (fun x => 0 <= x < 256) msg -> sums_to_ones msg ->
  sums_to_ones (reply_of msg) \/ Forall (fun x => x = 0) (reply_of msg).
Proof.
  intros msg Hm Hs. unfold msg in *. apply Forall_cons in Hm as [_ Hm]. apply Forall_cons in Hm as [Hc Hm].
  apply Forall_cons in Hm as [H0 Hm]. apply Forall_cons in Hm as [H1 Hr]. pose proof (word_sum_nonneg rest Hr) as Hnn.
  assert (0 <= k0 + 256 * k1 < 65536) as Hk by lia. pose proof (adjust_range _ Hk) as Ha.
  pose proof (adjust_chksum_eq _ Hk) as Hadj.
  unfold sums_to_ones, inet_sum, reply_of in *. cbn [word_sum] in *. unfold ICMP_ECHO, ICMP_ER in *.
  set (c := adjust_chksum (k0 + 256 * k1)) in *. set (r := word_sum rest) in *.
  destruct (Z.eq_dec (0 + 256 * code + (c mod 256 + 256 * (c / 256) + r)) 0) as [E | E].
  - right. assert (code = 0 /\ c mod 256 = 0 /\ c / 256 = 0 /\ r = 0) as (-> & -> & -> & Er) by zlia.
    repeat (constructor; [done |]). by apply word_sum_zero.
  - left. unfold oc_fold in *. rewrite (proj2 (Z.eqb_neq _ 0)) by done.
    match type of Hs with context [?x =? 0] => destruct (Z.eqb_spec x 0); [lia |] end.
    replace (c mod 256 + 256 * (c / 256)) with c in * by zlia.
    destruct (0xfff7 <=? k0 + 256 * k1); rewrite Hadj in *; zlia.
Qed.

(** The header of the reply: addresses and time to live replaced, the checksum
    [c] as it is stored. *)
Definition reply_header (hd : list Z) (c src dest : Z) : list Z :=
  take 8 hd ++ [ICMP_TTL] ++ take 1 (drop 9 hd) ++ [c mod 256; c / 256] ++ word src ++ word dest.

Lemma inet_chksum_total m a n : 0 <= n -> exists c, inet_chksum m a n = Some c /\ 0 <= c < 65536.
Proof.
  intros Hn. unfold inet_chksum. rewrite chksum_bytes by done. eexists. split; [done |].
  pose proof (oc_fold_range (word_sum (bytes m a (Z.to_nat n)))) as Hr. unfold inet_sum.
  unfold not16. rewrite u16_id by lia. lia.
Qed.

Lemma echo_reply_spec m h src dest :
  0 <= src < 4294967296 -> 0 <= dest < 4294967296 ->
  exists m' c, echo_reply m h (h + 20) src dest = Some m' /\
    bytes m' h 20 = reply_header (bytes m h 20) c src dest /\ sums_to_ones (bytes m' h 20) /\
    bytes m' (h + 20) 4 = reply_of (bytes m (h + 20) 4) /\ frame m m' h 24.
Proof.
  intros Hs Hd. unfold echo_reply, IPH_TTL_SET, IPH_CHKSUM_SET, IPH_src, IPH_dest, IPH_ttl, IPH_chksum, ICMPH_type, ICMPH_chksum.
  rewrite Z.add_0_r, <- !Z.add_assoc. set (m1 := st8 (st32 _ _ _) _ _).
  assert (ld16 m1 (h + (20 + 2)) = ld16 m (h + (20 + 2))) as E1
    by (apply ld16_ext; intros x Hx; unfold m1; by skip_writes8).
  rewrite E1. set (k := ld16 m (h + (20 + 2))). pose proof (adjust_range k (ld16_range _ _)) as Hk.
  set (m2 := st8 (st16 m1 _ _) _ _). set (m3 := st16 m2 _ _).
  destruct (inet_chksum_total m3 h IP_HLEN) as (c & Ec & Hc); [done |]. rewrite Ec. cbn [mbind option_bind].
  exists (st16 m3 (h + 10) c), c. split; [done |].
  assert (inet_chksum (st16 m3 (h + Z.of_nat 10) c) h (Z.of_nat 20) = Some 0) as Hz
    by (apply chksum_stored; [done | lia | unfold m3; by rewrite ld16_st16 | done]).
  split; [| split; [by apply (chksum_zero _ h 20) in Hz | split]].
  - rewrite bytes20. unfold reply_header. rewrite take_bytes, drop_bytes, take_bytes by lia.
    change 8%nat with (1 + (1 + (2 + (2 + 2))))%nat. rewrite !bytes_app, <- !app_assoc.
    replace (h + Z.of_nat 1) with (h + 1) by lia. replace (h + 1 + Z.of_nat 1) with (h + 2) by lia.
    replace (h + 2 + Z.of_nat 2) with (h + 4) by lia. replace (h + 4 + Z.of_nat 2) with (h + 6) by lia.
    change (h + Z.of_nat 9) with (h + 9). unfold m3, m2, m1.
    f_equal; [by skip_writes |]. f_equal; [by skip_writes |]. f_equal; [by skip_writes |]. f_equal; [by skip_writes |].
    f_equal; [by skip_writes |]. f_equal; [skip_writes; by rewrite bytes_st8 |]. f_equal; [by skip_writes |].
    f_equal; [by apply bytes_st16 |]. f_equal; [skip_writes; by apply bytes_st32 |]. skip_writes. by apply bytes_st32.
  - change 4%nat with (1 + (1 + 2))%nat. rewrite !bytes_app. replace (h + 20 + Z.of_nat 1) with (h + 21) by lia.
    replace (h + 21 + Z.of_nat 1) with (h + (20 + 2)) by lia. change (bytes m (h + (20 + 2)) 2) with
      [ld8 m (h + (20 + 2)); ld8 m (h + (20 + 2) + 1)]. cbn [bytes app reply_of].
    change (ld8 m (h + (20 + 2)) + 256 * ld8 m (h + (20 + 2) + 1)) with k. set (a := adjust_chksum k) in *.
    assert (bytes (st16 m3 (h + 10) c) (h + (20 + 2)) 2 = [a mod 256; a / 256]) as E2
      by (unfold m3, m2; skip_writes; by apply bytes_st16).
    cbn [bytes] in E2. injection E2 as -> ->. f_equal; [unfold m3, m2, m1; skip_writes8; by rewrite ld8_st8_eq |].
    f_equal. unfold m3, m2, m1. by skip_writes8.
  - intros x Hx. unfold m3, m2, m1. by skip_writes8.
Qed.

(** ** Packets whose payload moves *)

Section echo.
Context {W X U : Type} `{LW : MemSystemLaws W}.
Context (stale : Z -> Z) (custom_free : pstate W -> Z -> option (pstate W)).
Context (netif_output : X -> pstate W -> Z -> netif -> Z -> Z -> option (X * pstate W * Z)).

Implicit Type s : istate W X U.

(** The state with the fields of pbuf [p] set to [b]. *)
Definition put_pbuf s (p : Z) (b : pbuf) : istate W X U :=
  set_i_p s (set_pst (i_p s) (<[p := b]> (pst (i_p s)))).

Lemma put_pbuf_id s p b : i_pbuf s p = Some b -> put_pbuf s p b = s.
Proof.
  intros Hb. unfold put_pbuf. unfold i_pbuf in Hb. rewrite (insert_id _ _ _ Hb).
  destruct s as [[w st o]]. done.
Qed.

Lemma i_pbuf_put s p b : i_pbuf (put_pbuf s p b) p = Some b.
Proof. apply lookup_insert_eq. Qed.

Lemma move_twice b h k : move_payload (move_payload b h) k = move_payload b (h + k).
Proof. unfold move_payload. destruct b. cbn. f_equal; lia. Qed.

Lemma move_none b : move_payload b 0 = b.
Proof. unfold move_payload. destruct b. cbn. f_equal; lia. Qed.

(** Moving a payload inside the memory of its pbuf. *)
Lemma header_put s p b h k :
  p <> 0 -> 0 <= len b + h <= tot_len b + h -> tot_len b + h < 65536 -> -32768 <= k <= 32767 -> tot_len b + h + k < 65536 ->
  header_fits p (move_payload b h) k ->
  i_header (put_pbuf s p (move_payload b h)) p k = Some (put_pbuf s p (move_payload b (h + k)), 0).
Proof.
  intros Hp Hl Ht Hk Htk Hf. unfold i_header.
  assert (pst (i_p (put_pbuf s p (move_payload b h))) !! p = Some (move_payload b h)) as Hb by apply lookup_insert_eq.
  destruct (header_spec _ p _ k Hb Hp) as [-> _]; [cbn; lia | lia | cbn; lia | | done]. cbn [mbind option_bind].
  rewrite move_twice. unfold put_pbuf, set_i_p, set_pst. cbn. by rewrite insert_insert_eq.
Qed.

(** Writing into the payload of a pbuf that owns it. *)
Lemma psys_payload_write (ps : pstate W) L p b m :
  psys ps L -> pst ps !! p = Some b -> type b = PBUF_RAM \/ type b = PBUF_POOL ->
  frame (mem_of ps) m (payload b) (len b) -> psys (set_mem ps m) L.
Proof.
  intros Hs Hb Ht Hf. pose proof (ps_pbuf _ _ Hs p b Hb) as (_ & _ & _ & _ & k & Hk & _ & H7).
  assert (p + 16 <= payload b /\ payload b + len b <= p + k) as [H8 H9] by by destruct Ht as [E | E]; rewrite E in H7.
  apply psys_set_pw; [done |]. apply ms_data_law; [apply Hs |]. intros x Hx. apply Hf. intros Hin. apply Hx.
  exists p, k. split; [done | lia].
Qed.

(** ** A ping *)

(** An echo request as [ip_input] passes it on, in pbufs with room for the link
    header in front: a header without options, a message that verifies, and a
    unicast destination. *)
Record ping s L (p : Z) (b : pbuf) (l : list (Z * pbuf)) (np : Z) (n : netif) : Prop := {
  pg_sys : psys (i_p s) L;
  pg_chain : chain (pst (i_p s)) p ((p, b) :: l);
  pg_lens : lengths_ok ((p, b) :: l);
  pg_sep : separate ((p, b) :: l);
  pg_own : type b = PBUF_RAM \/ type b = PBUF_POOL;
  pg_room : p + 30 <= payload b;
  pg_len : 28 <= len b;
  pg_tot : tot_len b <= 65521;
  pg_netif : netif_at s np = Some n;
  pg_mtu : nif_mtu n = 0 \/ tot_len b <= nif_mtu n;
  pg_hl : IPH_HL (i_mem s) (payload b) = 5;
  pg_type : ld8 (i_mem s) (payload b + 20) = ICMP_ECHO;
  pg_sum : sums_to_ones (drop 20 (chain_data (i_mem s) ((p, b) :: l)));
  pg_unicast : ip_addr_ismulticast (cur_dest (i_cur s)) = false /\ ip4_addr_isbroadcast (cur_dest (i_cur s)) n = 0;
  pg_src : 0 <= cur_src (i_cur s) < 4294967296;
  pg_dst : 0 <= cur_dest (i_cur s) < 4294967296
}.

(** The packet with its payload moved is the chain with its first bytes hidden. *)
Lemma chain_moved st p b l k m :
  chain st p ((p, b) :: l) -> lengths_ok ((p, b) :: l) -> 0 <= k <= len b ->
  let b' := move_payload b (- k) in
  chain (<[p := b']> st) p ((p, b') :: l) /\ lengths_ok ((p, b') :: l) /\
  chain_data m ((p, b') :: l) = drop (Z.to_nat k) (chain_data m ((p, b) :: l)).
Proof.
  intros Hc Hl Hk b'. pose proof (chain_NoDup _ _ _ Hc) as Hnd. inversion Hc as [| ? ? ? Hp Hb Hc']; subst.
  cbn in Hnd. apply NoDup_cons in Hnd as [Hni _]. cbn [lengths_ok] in Hl. destruct Hl as (H1 & H2 & H3 & H4). split; [| split].
  - constructor; [done | apply lookup_insert_eq |]. by apply chain_insert_ne.
  - cbn [lengths_ok]. unfold b'. cbn. split; [lia |]. split; [lia |]. split; [lia | done].
  - cbn [chain_data]. unfold b'. cbn [payload len move_payload]. rewrite drop_app_le by (rewrite bytes_length; lia).
    rewrite drop_bytes by lia. f_equal. f_equal; lia.
Qed.

(** The message after the first four bytes behind the header were replaced. *)
Lemma reply_data m m' p b l :
  lengths_ok ((p, b) :: l) -> separate ((p, b) :: l) -> 28 <= len b ->
  bytes m' (payload b + 20) 4 = reply_of (bytes m (payload b + 20) 4) -> frame m m' (payload b) 24 ->
  drop 20 (chain_data m' ((p, b) :: l)) = reply_of (drop 20 (chain_data m ((p, b) :: l))).
Proof.
  intros Hl [Hap _] Hlen Hb Hf. cbn [lengths_ok] in Hl. destruct Hl as (_ & _ & _ & Hl).
  assert (chain_data m' l = chain_data m l) as El.
  { apply (chain_data_frame m m' l (payload b) (len b) 24 0 Hl Hap); [lia | lia |]. by rewrite Z.add_0_r. }
  cbn [chain_data]. rewrite !drop_app_le, !drop_bytes, El by (rewrite ?bytes_length; lia).
  replace (Z.to_nat (len b) - 20)%nat with (4 + (Z.to_nat (len b) - 24))%nat by lia. rewrite !bytes_app.
  change (payload b + Z.of_nat 20) with (payload b + 20). rewrite Hb, <- !app_assoc. cbn [bytes app reply_of].
  do 4 f_equal. f_equal. apply bytes_ext. intros x Hx. apply Hf. lia.
Qed.

Lemma ping_move s s' L p b l np n h k :
  ping s' L p b l np n -> -20 <= h <= 14 -> -20 <= h + k <= 14 ->
  i_header (put_pbuf s p (move_payload b h)) p k = Some (put_pbuf s p (move_payload b (h + k)), 0).
Proof.
  intros [Hs Hc Hl Hsep Hown Hroom Hlen Htt Hn Hmtu _ _ _ _ _ _] Hh Hk. inversion Hc as [| ? ? ? Hp Hb _]; subst.
  pose proof Hl as (Ht & Hln & Htot & Hl').
  assert (0 <= chain_len l) as Hcl by by destruct (lengths_ok_app l []); rewrite ?app_nil_r.
  apply header_put; [done | lia | lia | lia | lia |].
  unfold header_fits, SIZEOF_STRUCT_PBUF. cbn. destruct Hown as [-> | ->]; lia.
Qed.

(** The checks pass and the request is left with its payload at the message. *)
Lemma ping_checks s L p b l np n :
  ping s L p b l np n ->
  icmp_input stale custom_free netif_output s p np =
    echo_answer stale custom_free netif_output (put_pbuf (ICMP_STATS_INC c_recv s) p (move_payload b (-20))) p (payload b) 20 np.
Proof.
  intros Hp0. pose proof Hp0 as [Hs Hc Hl Hsep Hown Hroom Hlen Htt Hn Hmtu Hhl Hty Hsum [Hmc Hbc] Hsrc Hdst]. unfold icmp_input.
  set (s0 := ICMP_STATS_INC c_recv s). change (netif_at s0 np) with (netif_at s np). rewrite Hn. cbn [mbind option_bind].
  inversion Hc as [| ? ? ? Hp Hb _]; subst. assert (i_pbuf s0 p = Some b) as Hb0 by exact Hb. rewrite Hb0.
  cbn [mbind option_bind]. change (i_mem s0) with (i_mem s). rewrite Hhl. change (- (5 * 4)) with (-20).
  pose proof Hl as (Ht & Hln & Htot & Hl'). assert (0 <= chain_len l) as Hcl by by destruct (lengths_ok_app l []); rewrite ?app_nil_r.
  pose proof (ping_move s0 s L p b l np n 0 (-20) Hp0 ltac:(lia) ltac:(lia)) as Hh.
  rewrite move_none, (put_pbuf_id s0 p b Hb0) in Hh. rewrite Hh. cbn [mbind option_bind]. change (0 + -20) with (-20).
  rewrite i_pbuf_put. cbn [mbind option_bind]. change (negb (0 =? 0)) with false.
  change (tot_len (move_payload b (-20))) with (tot_len b + -20). rewrite (proj2 (Z.ltb_ge (tot_len b + -20) 4)) by lia.
  cbn [orb]. change (i_mem (put_pbuf s0 p (move_payload b (-20)))) with (i_mem s).
  replace (payload (move_payload b (-20))) with (payload b + 20) by (cbn; lia). rewrite Hty.
  change (ICMP_ECHO =? ICMP_ER) with false. cbn [Z.eqb ICMP_ECHO Pos.eqb].
  change (cur_dest (i_cur (put_pbuf s0 p (move_payload b (-20))))) with (cur_dest (i_cur s)). rewrite Hmc, Hbc. cbn [negb orb Z.eqb].
  unfold SIZEOF_ICMP_ECHO_HDR. rewrite (proj2 (Z.ltb_ge (tot_len b + -20) 8)) by lia.
  destruct (chain_moved _ p b l 20 (i_mem s) Hc Hl ltac:(lia)) as (Hc2 & Hl2 & Hd2).
  destruct (packet_chksum_spec (i_mem s) _ p _ 0 0 0 0 0 Hc2 (lengths_ok_nonneg _ Hl2)) as [Hck _];
    [repeat split; lia | lia |].
  change (pst (i_p (put_pbuf s0 p (move_payload b (-20))))) with (<[p := move_payload b (-20)]> (pst (i_p s))).
  change (Z.opp 20) with (-20) in Hck, Hd2. rewrite Hck, Hd2. unfold sums_to_ones in Hsum. change (Z.to_nat 20) with 20%nat. rewrite Hsum. done.
Qed.

(** What the interface is given: the request with its first bytes replaced. *)
Record echoed s L (p : Z) (b : pbuf) (l : list (Z * pbuf)) (ps : pstate W) : Prop := {
  ec_pst : pst ps = pst (i_p s);
  ec_sys : psys ps L;
  ec_frame : frame (i_mem s) (mem_of ps) (payload b) 24;
  ec_header : exists c, bytes (mem_of ps) (payload b) 20 =
    reply_header (bytes (i_mem s) (payload b) 20) c (cur_dest (i_cur s)) (cur_src (i_cur s));
  ec_header_sum : sums_to_ones (bytes (mem_of ps) (payload b) 20);
  ec_message : drop 20 (chain_data (mem_of ps) ((p, b) :: l)) = reply_of (drop 20 (chain_data (i_mem s) ((p, b) :: l)));
  ec_message_sum : sums_to_ones (drop 20 (chain_data (mem_of ps) ((p, b) :: l))) \/
    Forall (fun x => x = 0) (drop 20 (chain_data (mem_of ps) ((p, b) :: l)))
}.

Lemma echoed_intro s L p b l np n m :
  ping s L p b l np n ->
  (exists c, bytes m (payload b) 20 =
     reply_header (bytes (i_mem s) (payload b) 20) c (cur_dest (i_cur s)) (cur_src (i_cur s))) ->
  sums_to_ones (bytes m (payload b) 20) ->
  bytes m (payload b + 20) 4 = reply_of (bytes (i_mem s) (payload b + 20) 4) -> frame (i_mem s) m (payload b) 24 ->
  echoed s L p b l (set_mem (i_p s) m).
Proof.
  intros [Hs Hc Hl Hsep Hown Hroom Hlen Htt Hn Hmtu Hhl Hty Hsum _ _ _] Hh Hhs Hm Hf.
  inversion Hc as [| ? ? ? Hp Hb _]; subst. assert (mem_of (set_mem (i_p s) m) = m) as Em by apply ms_mem_set.
  pose proof (reply_data (i_mem s) m p b l Hl Hsep Hlen Hm Hf) as Hd. split; rewrite ?Em; try done.
  - apply (psys_payload_write (i_p s) L p b m Hs Hb Hown). intros x Hx. apply Hf. lia.
  - rewrite Hd. pose proof (chain_data_range (i_mem s) ((p, b) :: l)) as Hr. apply (Forall_drop _ 20) in Hr.
    assert (exists c k0 k1 r, drop 20 (chain_data (i_mem s) ((p, b) :: l)) = ICMP_ECHO :: c :: k0 :: k1 :: r)
      as (c & k0 & k1 & r & E).
    { cbn [chain_data]. rewrite drop_app_le, drop_bytes by (rewrite ?bytes_length; lia).
      replace (Z.to_nat (len b) - 20)%nat with (4 + (Z.to_nat (len b) - 24))%nat by lia. rewrite bytes_app.
      change (payload b + Z.of_nat 20) with (payload b + 20). cbn [bytes app]. rewrite Hty. by eexists _, _, _, _. }
    rewrite E in Hr, Hsum |- *. by apply reply_verifies.
Qed.

(** C28: [icmp_input] answers a ping to a unicast address.  For every echo request that
    verifies, whose IP header has no options, whose two headers lie in the first pbuf (of at least 28
    bytes, PBUF_RAM or PBUF_POOL, with room for the link header), whose pbufs do not
    overlap, and which fits the MTU of the interface and 65521 bytes, that interface is given exactly once, in
    the buffer of the request and addressed to its sender, the packet with the
    addresses swapped, the time to live 255 and a header checksum that verifies,
    and with the message turned into an echo reply: its type is 0, identifier,
    sequence number and data are those of the request, and its checksum verifies
    unless the reply is all zeros.  Then the packet is released. *)
Theorem icmp_echo_replies s L p b l np n :
  ping s L p b l np n ->
  exists ps, echoed s L p b l ps /\
    icmp_input stale custom_free netif_output s p np =
      ('(x, ps', _) ← netif_output (i_low s) ps np n p (cur_src (i_cur s));
       i_free custom_free
         (set_i_p (set_low (IP_STATS_INC c_xmit (ICMP_STATS_INC c_xmit (ICMP_STATS_INC c_recv s))) x) ps') p).
Proof.
  intros Hp0. rewrite (ping_checks _ _ _ _ _ _ _ Hp0).
  pose proof Hp0 as [Hs Hc Hl Hsep Hown Hroom Hlen Htt Hn Hmtu Hhl Hty Hsum _ Hsrc Hdst].
  inversion Hc as [| ? ? ? Hp Hb _]; subst. pose proof Hl as (Ht & Hln & Htot & Hl').
  assert (0 <= chain_len l) as Hcl by by destruct (lengths_ok_app l []); rewrite ?app_nil_r.
  set (s0 := ICMP_STATS_INC c_recv s).
  unfold echo_answer, echo_buffer, PBUF_IP_HLEN, PBUF_LINK_HLEN. change (20 + 14) with 34.
  rewrite (ping_move s0 s L p b l np n (-20) 34 Hp0) by lia.
  cbn [mbind option_bind]. change (negb (0 =? 0)) with false. cbn iota. change (-20 + 34) with 14.
  rewrite (ping_move s0 s L p b l np n 14 (- (34)) Hp0) by lia.
  cbn [mbind option_bind]. change (negb (0 =? 0)) with false. cbn iota. change (14 + - (34)) with (-20).
  cbn [mbind option_bind]. rewrite i_pbuf_put. cbn [mbind option_bind]. set (s1 := put_pbuf s0 p (move_payload b (-20))).
  change (i_mem s1) with (i_mem s). change (i_cur s1) with (i_cur s).
  replace (payload (move_payload b (-20))) with (payload b + 20) by (cbn; lia).
  destruct (echo_reply_spec (i_mem s) (payload b) (cur_dest (i_cur s)) (cur_src (i_cur s)) Hdst Hsrc)
    as (m & c & -> & Hh & Hhs & Hm & Hf).
  cbn [mbind option_bind]. set (s2 := ICMP_STATS_INC c_xmit (i_write s0 m)).
  change (ICMP_STATS_INC c_xmit (i_write s1 m)) with (put_pbuf s2 p (move_payload b (-20))).
  rewrite (ping_move s2 s L p b l np n (-20) 20 Hp0) by lia.
  cbn [mbind option_bind]. change (negb (0 =? 0)) with false. cbn iota. change (-20 + 20) with 0.
  rewrite move_none, (put_pbuf_id s2 p b) by exact Hb. exists (set_mem (i_p s) m).
  split; [apply (echoed_intro s L p b l np n m); [done | by exists c | done | done | done] |].
  unfold ip_output_if. change (netif_at s2 np) with (netif_at s np). rewrite Hn. cbn [mbind option_bind].
  change (i_pbuf (IP_STATS_INC c_xmit s2) p) with (i_pbuf s2 p). assert (i_pbuf s2 p = Some b) as -> by exact Hb. cbn [mbind option_bind].
  assert (IPH_DEST (i_mem s2) (payload b) = cur_src (i_cur s)) as ->.
  { unfold IPH_DEST, IPH_dest. apply ld32_word; [done |]. assert (i_mem s2 = m) as -> by apply ms_mem_set.
    replace (bytes m (payload b + 16) 4) with (drop 16 (bytes m (payload b) 20)) by (by rewrite drop_bytes by lia).
    rewrite Hh. unfold reply_header. rewrite take_bytes, drop_bytes, take_bytes by lia. done. }
  change (i_pbuf (IP_STATS_INC c_xmit s2) p) with (i_pbuf s2 p). assert (i_pbuf s2 p = Some b) as -> by exact Hb.
  cbn [mbind option_bind]. replace (negb (nif_mtu n =? 0) && (nif_mtu n <? tot_len b)) with false.
  - unfold call_output. change (i_low (IP_STATS_INC c_xmit s2)) with (i_low s).
    change (i_p (IP_STATS_INC c_xmit s2)) with (set_mem (i_p s) m).
    destruct (netif_output (i_low s) (set_mem (i_p s) m) np n p (cur_src (i_cur s))) as [[[x ps'] r] |]; done.
  - symmetry. apply andb_false_iff. destruct Hmtu as [-> | ?]; [by left | right; apply Z.ltb_ge; lia].
Qed.

End echo.

(** A request whose reply does not verify: identifier, sequence number and data
    all zero. *)
Lemma zero_ping_reply :
  let msg := [ICMP_ECHO; 0; 0xf7; 0xff; 0; 0; 0; 0] in
  sums_to_ones msg /\ reply_of msg = replicate 8 0 /\ ~ sums_to_ones (reply_of msg).
Proof. repeat split. vm_compute. done. Qed.

(** ** A sample ping *)

#[local] Existing Instance World.world_system.
#[local] Existing Instance World.sample_laws.

Definition sample_msg : list Z := [8; 0; 51; 55; 0; 1; 0; 1; 97; 98; 99; 100].
Definition sample_header : ip_header := out_header 32 0x1401a8c0 0x0a01a8c0 64 0 IP_PROTO_ICMP 7.

(** The packet as received, with the Ethernet header hidden. *)
Definition sample_received : pstate World.world := sample_alloc sample_empty PBUF_RAW 46 PBUF_POOL.
Definition sample_head : pbuf := mkPbuf 0 19910 32 32 PBUF_POOL 0 1.
Definition sample_unwrapped : pstate World.world :=
  set_pst sample_received (<[19880 := sample_head]> (pst sample_received)).
Definition sample_ping_pbufs : pstate World.world :=
  set_mem sample_unwrapped (st_bytes (mem_of sample_unwrapped) 19910 (encode sample_header ++ sample_msg)).

Definition sample_ping_state : istate World.world (list (Z * Z)) unit :=
  mkIstate sample_ping_pbufs [] [(1, sample_lan)] 1 7 (mkCurrent 1 19910 0x1401a8c0 0x0a01a8c0) ∅ 0 0
    sample_stats sample_stats sample_stats tt.

Lemma sample_ping_sys : exists L, psys sample_ping_pbufs L.
Proof.
  destruct (sample_alloc_ok sample_empty ∅ PBUF_RAW 46 PBUF_POOL sample_empty_ok ltac:(lia) ltac:(done)) as [L HL].
  exists L. assert (pst sample_received !! 19880 = Some (mkPbuf 0 19896 46 46 PBUF_POOL 0 1)) as Hb by (vm_compute; reflexivity).
  pose proof (ps_pbuf _ _ HL 19880 _ Hb) as (H1 & H2 & H3 & H4 & n & Hn & H6 & H7). cbn in H7.
  assert (psys sample_unwrapped L) as Hu.
  { apply psys_update; [done |]. split; [done |]. cbn. split; [lia |]. split; [lia |]. split; [done |].
    exists n. split; [done |]. split; [done |]. lia. }
  apply (psys_payload_write sample_unwrapped L 19880 sample_head); [done | by apply lookup_insert_eq | by right |].
  intros x Hx. cbn [payload len sample_head] in Hx. apply ld8_st_bytes_ne.
  change (Z.of_nat (length (encode sample_header ++ sample_msg))) with 32. lia.
Qed.

Lemma sample_ping_ok : exists L, ping sample_ping_state L 19880 sample_head [] 1 sample_lan.
Proof.
  destruct sample_ping_sys as [L HL]. exists L.
  split; [done | constructor; [done | by apply lookup_insert_eq | constructor] | cbn; lia | split; [constructor | done]
    | by right | cbn; lia | cbn; lia | cbn; lia | done | right; cbn; lia | vm_compute; reflexivity
    | vm_compute; reflexivity | vm_compute; reflexivity | split; vm_compute; reflexivity | cbn; lia | cbn; lia].
Qed.

Lemma icmp_echo_replies_witness :
  exists L ps, echoed sample_ping_state L 19880 sample_head [] ps /\
    icmp_input no_stale no_custom sample_link sample_ping_state 19880 1 =
      ('(x, ps', _) ← sample_link [] ps 1 sample_lan 19880 0x1401a8c0;
       i_free no_custom
         (set_i_p (set_low (IP_STATS_INC c_xmit (ICMP_STATS_INC c_xmit (ICMP_STATS_INC c_recv sample_ping_state))) x) ps') 19880).
Proof.
  destruct sample_ping_ok as [L HL].
  destruct (icmp_echo_replies no_stale no_custom sample_link sample_ping_state L 19880 sample_head [] 1 sample_lan HL)
    as (ps & He & E). exists L, ps. split; [exact He | exact E].
Defined.

End IcmpEcho.
