(* ===== verification/IpReass.v ===== *)
(** Reassembly of fragments: the first half of src/core/ipv4/ip_frag.c of lwIP
    1.4.1 (IP_REASS_CHECK_OVERLAP 1, IP_REASS_FREE_OLDEST 1).

    The [struct ip_reassdata] in use are entries of the map [i_reass], linked
    through their [next] from [i_reass_head].  The fragments of a datagram are
    linked through a [struct ip_reass_helper] that replaces the first eight bytes
    of their IP headers in the packets.  [None] is a dereference of a pointer to
    no live object. *)

From stdpp Require Import base tactics numbers list gmap.
From Stdlib Require Import ZArith Lia.
From S2P Require Import Prelude ByteOrder Stats PbufDefs NetifDefs InetChksum Allocator Mem Memp PbufMem Pbuf IpAddr IpDefs IpOutput Icmp.

Local Open Scope Z_scope.

Module IpReass.
Import ByteOrder InetChksum Memp Pbuf IpAddr IpDefs IpOutput Icmp.

(** [struct ip_reass_helper] at [h]. *)
Definition rh_next_pbuf (m : memory) (h : Z) : Z := ld32 m h.
Definition rh_start (m : memory) (h : Z) : Z := ld16 m (h + 4).
Definition rh_end (m : memory) (h : Z) : Z := ld16 m (h + 6).
Definition set_next_pbuf (m : memory) (h x : Z) : memory := st32 m h x.

(** The fields of two headers, as their bytes. *)
Definition hdr_field (h : list Z) (off n : nat) : list Z := take n (drop off h).
Definition IP_ADDRESSES_AND_ID_MATCH (a b : list Z) : bool :=
  bool_decide (hdr_field a 12 4 = hdr_field b 12 4) && bool_decide (hdr_field a 16 4 = hdr_field b 16 4) &&
  bool_decide (hdr_field a 4 2 = hdr_field b 4 2).

(** [ntohs(IPH_OFFSET(hdr))] of a header given by its bytes. *)
Definition hdr_offset (h : list Z) : Z :=
  match hdr_field h 6 2 with [a; b] => 256 * a + b | _ => 0 end.

Section reass.
Context {W X U : Type} `{MemSystem W}.
Context (stale : Z -> Z) (custom_free : pstate W -> Z -> option (pstate W)).
Context (netif_output : X -> pstate W -> Z -> netif -> Z -> Z -> option (X * pstate W * Z)).

Implicit Type s : istate W X U.

Definition set_rd s (ipr : Z) (f : ip_reassdata -> ip_reassdata) : istate W X U :=
  set_reass s (alter f ipr (i_reass s)).
Definition set_rd_next (d : ip_reassdata) (x : Z) : ip_reassdata :=
  mkReass x (rd_p d) (rd_iphdr d) (rd_datagram_len d) (rd_flags d) (rd_timer d).
Definition set_rd_p (d : ip_reassdata) (x : Z) : ip_reassdata :=
  mkReass (rd_next d) x (rd_iphdr d) (rd_datagram_len d) (rd_flags d) (rd_timer d).
Definition set_rd_iphdr (d : ip_reassdata) (x : list Z) : ip_reassdata :=
  mkReass (rd_next d) (rd_p d) x (rd_datagram_len d) (rd_flags d) (rd_timer d).
Definition set_rd_datagram_len (d : ip_reassdata) (x : Z) : ip_reassdata :=
  mkReass (rd_next d) (rd_p d) (rd_iphdr d) x (rd_flags d) (rd_timer d).
Definition set_rd_flags (d : ip_reassdata) (x : Z) : ip_reassdata :=
  mkReass (rd_next d) (rd_p d) (rd_iphdr d) (rd_datagram_len d) x (rd_timer d).
Definition set_rd_timer (d : ip_reassdata) (x : Z) : ip_reassdata :=
  mkReass (rd_next d) (rd_p d) (rd_iphdr d) (rd_datagram_len d) (rd_flags d) x.

(** ** Releasing datagrams *)

Definition ip_reass_dequeue_datagram s (ipr prev : Z) : option (istate W X U) :=
  d ← i_reass s !! ipr;
  s ← (if i_reass_head s =? ipr then Some (set_reass_head s (rd_next d))
       else _ ← i_reass s !! prev; Some (set_rd s prev (fun d' => set_rd_next d' (rd_next d))));
  Some (set_reass (set_i_p s (set_pw (i_p s) (ms_memp_free (pw (i_p s)) MEMP_REASSDATA ipr)))
          (delete ipr (i_reass s))).

(** The loop that frees the fragments from [p] on, counting pbufs. *)
Definition free_frags_body (y : istate W X U * Z * Z) : (istate W X U * Z * Z) + option (istate W X U * Z) :=
  let '(s, p, pbufs_freed) := y in
  if p =? 0 then inr (Some (s, pbufs_freed))
  else
    match i_pbuf s p with
    | None => inr None
    | Some b =>
        let nx := rh_next_pbuf (i_mem s) (payload b) in
        match (clen ← pbuf_clen (i_p s) p; s ← i_free custom_free s p; Some (s, u16 (pbufs_freed + clen))) with
        | None => inr None
        | Some (s, n) => inl (s, nx, n)
        end
    end.

Definition ip_reass_free_complete_datagram s (ipr prev : Z) : option (istate W X U * Z) :=
  d ← i_reass s !! ipr;
  b ← i_pbuf s (rd_p d);
  '(s, pbufs_freed) ← (if rh_start (i_mem s) (payload b) =? 0 then
      let p := rd_p d in
      let s := set_rd s ipr (fun d => set_rd_p d (rh_next_pbuf (i_mem s) (payload b))) in
      let s := i_write s (st_bytes (i_mem s) (payload b) (rd_iphdr d)) in
      s ← icmp_time_exceeded stale custom_free netif_output s p ICMP_TE_FRAG;
      clen ← pbuf_clen (i_p s) p;
      s ← i_free custom_free s p;
      Some (s, u16 (0 + clen))
    else Some (s, 0));
  d ← i_reass s !! ipr;
  '(s, pbufs_freed) ← mjoin (while (S (size (pst (i_p s)))) free_frags_body (s, rd_p d, pbufs_freed));
  s ← ip_reass_dequeue_datagram s ipr prev;
  Some (set_reass_count s (u16 (i_reass_count s - pbufs_freed)), pbufs_freed).

(** [ip_reass_tmr]: the state, [r] and [prev]. *)
Definition reass_tmr_body (y : istate W X U * Z * Z) : (istate W X U * Z * Z) + option (istate W X U) :=
  let '(s, r, prev) := y in
  if r =? 0 then inr (Some s)
  else
    match i_reass s !! r with
    | None => inr None
    | Some d =>
        if 0 <? rd_timer d then inl (set_rd s r (fun d => set_rd_timer d (u8 (rd_timer d - 1))), rd_next d, r)
        else
          match ip_reass_free_complete_datagram s r prev with
          | None => inr None
          | Some (s, _) => inl (s, rd_next d, prev)
          end
    end.

Definition ip_reass_tmr s : option (istate W X U) :=
  mjoin (while (S (size (i_reass s))) reass_tmr_body (s, i_reass_head s, 0)).

(** ** Making room *)

(** The search of [ip_reass_remove_oldest_datagram]: [r], [oldest], [prev] and
    [other_datagrams]. *)
Definition oldest_body (reass : gmap Z ip_reassdata) (fraghdr : list Z) (y : Z * Z * Z * Z)
    : (Z * Z * Z * Z) + option (Z * Z * Z) :=
  let '(r, oldest, prev, other_datagrams) := y in
  if r =? 0 then inr (Some (oldest, prev, other_datagrams))
  else
    match reass !! r with
    | None => inr None
    | Some d =>
        let '(oldest, other_datagrams, ok) :=
          if negb (IP_ADDRESSES_AND_ID_MATCH (rd_iphdr d) fraghdr) then
            if oldest =? 0 then (r, other_datagrams + 1, true)
            else
              match reass !! oldest with
              | None => (oldest, other_datagrams + 1, false)
              | Some o => if rd_timer d <=? rd_timer o then (r, other_datagrams + 1, true)
                          else (oldest, other_datagrams + 1, true)
              end
          else (oldest, other_datagrams, true) in
        if negb ok then inr None
        else inl (rd_next d, oldest, (if negb (rd_next d =? 0) then r else prev), other_datagrams)
    end.

(** One round: the state and [pbufs_freed]. *)
Definition remove_body (fraghdr : list Z) (pbufs_needed : Z) (y : istate W X U * Z)
    : (istate W X U * Z) + option (istate W X U * Z) :=
  let '(s, pbufs_freed) := y in
  match (t ← mjoin (while (S (size (i_reass s))) (oldest_body (i_reass s) fraghdr) (i_reass_head s, 0, 0, 0));
         let '(oldest, prev, other) := t in
         '(s, k) ← (if negb (oldest =? 0) then ip_reass_free_complete_datagram s oldest prev else Some (s, 0));
         Some (s, other, pbufs_freed + k)) with
  | None => inr None
  | Some (s, other, pbufs_freed) =>
      if (pbufs_freed <? pbufs_needed) && (1 <? other) then inl (s, pbufs_freed) else inr (Some (s, pbufs_freed))
  end.

Definition ip_reass_remove_oldest_datagram s (fraghdr : list Z) (pbufs_needed : Z) : option (istate W X U * Z) :=
  mjoin (while (S (size (i_reass s))) (remove_body fraghdr pbufs_needed) (s, 0)).

(** [fraghdr] is the bytes of the header; the result is 0 for NULL. *)
Definition ip_reass_enqueue_new_datagram s (fraghdr : list Z) (clen : Z) : option (istate W X U * Z) :=
  let alloc s := let '(w, ipr) := ms_memp_malloc (pw (i_p s)) MEMP_REASSDATA in (set_i_p s (set_pw (i_p s) w), ipr) in
  let '(s, ipr) := alloc s in
  '(s, ipr) ← (if ipr =? 0 then
      '(s, freed) ← ip_reass_remove_oldest_datagram s fraghdr clen;
      Some (if clen <=? freed then alloc s else (s, ipr))
    else Some (s, ipr));
  if ipr =? 0 then Some (IPFRAG_STATS_INC c_memerr s, 0)
  else
    let d := mkReass (i_reass_head s) 0 fraghdr 0 0 IP_REASS_MAXAGE in
    Some (set_reass_head (set_reass s (<[ipr := d]> (i_reass s))) ipr, ipr).

(** ** Inserting a fragment *)

(** Where the search ended: the fragment is thrown away, was inserted before [q],
    or belongs behind the last fragment. *)
Inductive placed := Free | Inserted | Behind (iprh_prev : Z) (valid : bool).

(** The loop over the fragments: the state, [q], [iprh_prev] (0 for NULL) and
    [valid]; the new fragment [new_p] has its helper at [iprh]. *)
Definition place_body (ipr new_p iprh : Z) (y : istate W X U * Z * Z * bool)
    : (istate W X U * Z * Z * bool) + option (istate W X U * placed * bool) :=
  let '(s, q, iprh_prev, valid) := y in
  if q =? 0 then inr (Some (s, Behind iprh_prev valid, valid))
  else
    match i_pbuf s q with
    | None => inr None
    | Some b =>
        let m := i_mem s in
        let tmp := payload b in
        if rh_start m iprh <? rh_start m tmp then
          let m := set_next_pbuf m iprh q in
          if negb (iprh_prev =? 0) then
            if (rh_start m iprh <? rh_end m iprh_prev) || (rh_start m tmp <? rh_end m iprh)
            then inr (Some (i_write s m, Free, valid))
            else inr (Some (i_write s (set_next_pbuf m iprh_prev new_p), Inserted, valid))
          else inr (Some (set_rd (i_write s m) ipr (fun d => set_rd_p d new_p), Inserted, valid))
        else if rh_start m iprh =? rh_start m tmp then inr (Some (s, Free, valid))
        else if rh_start m iprh <? rh_end m tmp then inr (Some (s, Free, valid))
        else
          let valid := if negb (iprh_prev =? 0) && negb (rh_end m iprh_prev =? rh_start m tmp) then false else valid in
          inl (s, rh_next_pbuf m tmp, tmp, valid)
    end.

(** The check that there are no holes behind [iprh_prev]. *)
Definition holes_body (m : memory) (st : pstore) (y : Z * Z) : (Z * Z) + option bool :=
  let '(iprh_prev, q) := y in
  if q =? 0 then inr (Some true)
  else
    match st !! q with
    | None => inr None
    | Some b =>
        let iprh := payload b in
        if negb (rh_end m iprh_prev =? rh_start m iprh) then inr (Some false)
        else inl (iprh, rh_next_pbuf m iprh)
    end.

(** The result says whether the datagram is complete. *)
Definition ip_reass_chain_frag_into_datagram_and_validate s (ipr new_p : Z) : option (istate W X U * bool) :=
  nb ← i_pbuf s new_p;
  let fraghdr := payload nb in
  let len_ := u16 (PP_HTONS (IPH_LEN (i_mem s) fraghdr) - IPH_HL (i_mem s) fraghdr * 4) in
  let offset := u16 (Z.land (PP_HTONS (IPH_OFFSET (i_mem s) fraghdr)) IP_OFFMASK * 8) in
  let iprh := payload nb in
  let m := set_next_pbuf (i_mem s) iprh 0 in
  let m := st16 m (iprh + 4) offset in
  let m := st16 m (iprh + 6) (u16 (offset + len_)) in
  let s := i_write s m in
  d ← i_reass s !! ipr;
  '(s, pl, valid) ← mjoin (while (S (size (pst (i_p s)))) (place_body ipr new_p iprh) (s, rd_p d, 0, true));
  match pl with
  | Free =>
      clen ← pbuf_clen (i_p s) new_p;
      s ← i_free custom_free (set_reass_count s (u16 (i_reass_count s - clen))) new_p;
      Some (s, false)
  | _ =>
      let '(s, valid) :=
        match pl with
        | Behind prev v =>
            if negb (prev =? 0) then
              (i_write s (set_next_pbuf (i_mem s) prev new_p),
               if negb (rh_end (i_mem s) prev =? rh_start (i_mem s) iprh) then false else v)
            else (set_rd s ipr (fun d => set_rd_p d new_p), v)
        | _ => (s, valid)
        end in
      d ← i_reass s !! ipr;
      if negb (Z.land (rd_flags d) IP_REASS_FLAG_LASTFRAG =? 0) then
        if valid then
          b ← i_pbuf s (rd_p d);
          if negb (rh_start (i_mem s) (payload b) =? 0) then Some (s, false)
          else
            v ← mjoin (while (S (size (pst (i_p s)))) (holes_body (i_mem s) (pst (i_p s)))
                  (iprh, rh_next_pbuf (i_mem s) iprh));
            Some (s, v)
        else Some (s, false)
      else Some (s, false)
  end.

(** ** Reassembly *)

(** The entry of the datagram of [fraghdr] and the one before it on the list, 0
    for none. *)
Definition lookup_body (reass : gmap Z ip_reassdata) (fraghdr : list Z) (y : Z * Z) : (Z * Z) + option (Z * Z) :=
  let '(ipr, prev) := y in
  if ipr =? 0 then inr (Some (0, prev))
  else
    match reass !! ipr with
    | None => inr None
    | Some d => if IP_ADDRESSES_AND_ID_MATCH (rd_iphdr d) fraghdr then inr (Some (ipr, prev)) else inl (rd_next d, ipr)
    end.

(** Chaining the fragments from [r] on to the packet [p]. *)
Definition join_body (p : Z) (y : istate W X U * Z) : (istate W X U * Z) + option (istate W X U) :=
  let '(s, r) := y in
  if r =? 0 then inr (Some s)
  else
    match i_pbuf s r with
    | None => inr None
    | Some b =>
        match ('(s, _) ← i_header s r (- IP_HLEN); ps ← pbuf_cat (i_p s) p r; Some (set_i_p s ps)) with
        | None => inr None
        | Some s => inl (s, rh_next_pbuf (i_mem s) (payload b))
        end
    end.

(** The complete datagram [ipr] as one packet. *)
Definition finish s (ipr prev : Z) : option (istate W X U * Z) :=
  let s := set_rd s ipr (fun d => set_rd_datagram_len d (u16 (rd_datagram_len d + IP_HLEN))) in
  d ← i_reass s !! ipr;
  b ← i_pbuf s (rd_p d);
  let r := rh_next_pbuf (i_mem s) (payload b) in
  let fraghdr := payload b in
  let m := st_bytes (i_mem s) fraghdr (rd_iphdr d) in
  let m := IPH_LEN_SET m fraghdr (PP_HTONS (rd_datagram_len d)) in
  let m := IPH_OFFSET_SET m fraghdr 0 in
  let m := IPH_CHKSUM_SET m fraghdr 0 in
  c ← inet_chksum m fraghdr IP_HLEN;
  let s := i_write s (IPH_CHKSUM_SET m fraghdr c) in
  let p := rd_p d in
  s ← mjoin (while (S (size (pst (i_p s)))) (join_body p) (s, r));
  s ← ip_reass_dequeue_datagram s ipr prev;
  clen ← pbuf_clen (i_p s) p;
  Some (set_reass_count s (u16 (i_reass_count s - clen)), p).

(** The label [nullreturn]. *)
Definition nullreturn s (p : Z) : option (istate W X U * Z) :=
  s ← i_free custom_free (IPFRAG_STATS_INC c_drop s) p; Some (s, 0).

(** The packet when the datagram is complete, else 0. *)
Definition ip_reass s (p : Z) : option (istate W X U * Z) :=
  let s := IPFRAG_STATS_INC c_recv s in
  b ← i_pbuf s p;
  let h := payload b in
  if negb (IPH_HL (i_mem s) h * 4 =? IP_HLEN) then nullreturn (IPFRAG_STATS_INC c_err s) p
  else
    let fraghdr := bytes (i_mem s) h 20 in
    let offset := u16 (Z.land (PP_HTONS (IPH_OFFSET (i_mem s) h)) IP_OFFMASK * 8) in
    let len_ := u16 (PP_HTONS (IPH_LEN (i_mem s) h) - IPH_HL (i_mem s) h * 4) in
    clen ← pbuf_clen (i_p s) p;
    '(s, ok) ← (if IP_REASS_MAX_PBUFS <? i_reass_count s + clen then
        '(s, freed) ← ip_reass_remove_oldest_datagram s fraghdr clen;
        Some (s, negb ((freed =? 0) || (IP_REASS_MAX_PBUFS <? i_reass_count s + clen)))
      else Some (s, true));
    if negb ok then nullreturn (IPFRAG_STATS_INC c_memerr s) p
    else
      found ← mjoin (while (S (size (i_reass s))) (lookup_body (i_reass s) fraghdr) (i_reass_head s, 0));
      let ipr := found.1 in
      let prev := found.2 in
      '(s, ipr) ← (if ipr =? 0 then ip_reass_enqueue_new_datagram s fraghdr clen
        else
          let s := IPFRAG_STATS_INC c_cachehit s in
          d ← i_reass s !! ipr;
          if (Z.land (PP_HTONS (IPH_OFFSET (i_mem s) h)) IP_OFFMASK =? 0) && negb (Z.land (hdr_offset (rd_iphdr d)) IP_OFFMASK =? 0)
          then Some (set_rd s ipr (fun d => set_rd_iphdr d fraghdr), ipr) else Some (s, ipr));
      if ipr =? 0 then nullreturn s p
      else
        let s := set_reass_count s (u16 (i_reass_count s + clen)) in
        let s := if Z.land (IPH_OFFSET (i_mem s) h) (PP_HTONS IP_MF) =? 0 then
            set_rd s ipr (fun d => set_rd_datagram_len (set_rd_flags d (Z.lor (rd_flags d) IP_REASS_FLAG_LASTFRAG)) (u16 (offset + len_)))
          else s in
        '(s, complete) ← ip_reass_chain_frag_into_datagram_and_validate s ipr p;
        if (complete : bool) then finish s ipr prev else Some (s, 0).

End reass.

End IpReass.
