(* ===== verification/IpReassFacts.v ===== *)
(** Facts about reassembly. *)

From stdpp Require Import base tactics numbers list gmap.
From Stdlib Require Import ZArith Lia.
From S2P Require Import Prelude ByteOrder Fields Stats PbufDefs NetifDefs Mylib InetChksum Allocator Mem Memp PbufMem World Pbuf PbufData PbufChains PbufLinks IpAddr IpDefs IpOutput IpHeader IpSend Icmp IpReass.

Local Open Scope Z_scope.

Module IpReassFacts.
Import ByteOrder Fields InetChksum Memp Pbuf PbufData PbufChains PbufLinks IpAddr IpDefs IpOutput IpHeader IpSend Icmp IpReass.

#[local] Existing Instance World.world_system.
#[local] Existing Instance World.sample_laws.

(** ** Fragments in sample packets *)

(** A packet with the fragment [frag] (flags and offset in units of eight bytes)
    of a datagram, with eight bytes of data. *)
Definition frag_packet (frag : Z) (data : list Z) : list Z :=
  encode (mkHeader 0 28 7 frag 64 IP_PROTO_UDP 0 0x1401a8c0 0x0a01a8c0) ++ data.

(** Allocates a packet with the contents [d]. *)
Definition receive (ps : pstate World.world) (d : list Z) : pstate World.world * Z :=
  match pbuf_alloc no_stale no_custom ps PBUF_RAW (Z.of_nat (length d)) PBUF_POOL with
  | Some (ps, p) =>
      match pst ps !! p with
      | Some b => (set_mem ps (st_bytes (mem_of ps) (payload b) d), p)
      | None => (ps, 0)
      end
  | None => (ps, 0)
  end.

Definition idle (ps : pstate World.world) : istate World.world (list (Z * Z)) unit :=
  mkIstate ps [] [(1, sample_lan)] 1 7 (mkCurrent 0 0 0 0) ∅ 0 0 sample_stats sample_stats sample_stats tt.

Definition reass := ip_reass (W := World.world) (X := list (Z * Z)) (U := unit) no_stale no_custom sample_link.

(** Fragments of a datagram of 32 bytes: bytes 0 to 7, 24 to 31 (the last) and 16
    to 23; bytes 8 to 15 are never received. *)
Definition first_frag : list Z := frag_packet IP_MF [0; 1; 2; 3; 4; 5; 6; 7].
Definition last_frag : list Z := frag_packet 3 [24; 25; 26; 27; 28; 29; 30; 31].
Definition third_frag : list Z := frag_packet (IP_MF + 2) [16; 17; 18; 19; 20; 21; 22; 23].

Definition run_frags (ds : list (list Z)) : option (istate World.world (list (Z * Z)) unit * list Z) :=
  let '(ps, ps_) := foldl (fun '(ps, l) d => let '(ps, p) := receive ps d in (ps, l ++ [p])) (sample_empty, []) ds in
  foldl (fun acc p => '(s, l) ← acc; '(s, r) ← reass s p; Some (s, l ++ [r])) (Some (idle ps, [])) ps_.

(** The length in the header of a packet, that of its chain, and its data. *)
Definition packet_view (s : istate World.world (list (Z * Z)) unit) (p : Z) : option (Z * Z * list Z) :=
  b ← i_pbuf s p;
  b2 ← i_pbuf s (next b);
  b3 ← i_pbuf s (next b2);
  Some (PP_HTONS (IPH_LEN (i_mem s) (payload b)), tot_len b,
    drop 20 (chain_data (i_mem s) [(p, b); (next b, b2); (next b2, b3)])).

(** A fragment that is inserted between two others is not compared with the
    one before it, so that a datagram with a hole there can count as complete: of a
    32-byte datagram the bytes 0-7, 24-31 and 16-23 arrive in this order, and the
    third call of [ip_reass] returns a packet whose header says 52 bytes while
    the packet has 44 and its data skips the bytes 8-15. *)
Example ip_reass_accepts_hole :
  exists s p, run_frags [first_frag; last_frag; third_frag] = Some (s, [0; 0; p]) /\ p <> 0 /\
    packet_view s p = Some (52, 44, [0; 1; 2; 3; 4; 5; 6; 7; 16; 17; 18; 19; 20; 21; 22; 23; 24; 25; 26; 27; 28; 29; 30; 31]).
Proof.
  assert (match run_frags [first_frag; last_frag; third_frag] with
    | Some (s, [0; 0; p]) => p <> 0 /\ packet_view s p = Some (52, 44, [0; 1; 2; 3; 4; 5; 6; 7; 16; 17; 18; 19; 20; 21; 22; 23; 24; 25; 26; 27; 28; 29; 30; 31])
    | _ => False end) as Hr by (vm_compute; done).
  destruct (run_frags [first_frag; last_frag; third_frag]) as [[s l] |]; [| done].
  destruct l as [| [| |] [| [| |] [| p [| ]]]]; try done. by exists s, p.
Qed.

End IpReassFacts.
