(* ===== verification/IpInput.v ===== *)
(** Receiving IP packets: [ip_input] of src/core/ipv4/ip.c of lwIP 1.4.1
    (CHECKSUM_CHECK_IP 1, IP_FORWARD 0, IP_REASSEMBLY 1, IP_OPTIONS_ALLOWED 1,
    LWIP_RAW 1, no IGMP, DHCP or AutoIP).

    [raw_input], [udp_input] and [tcp_input] are the functions of those names,
    which later files define; [raw_input] says whether it took the packet. *)

From stdpp Require Import base tactics numbers list gmap.
From Stdlib Require Import ZArith Lia.
From S2P Require Import Prelude ByteOrder Stats PbufDefs NetifDefs InetChksum Allocator Mem Memp PbufMem Pbuf IpAddr IpDefs IpOutput Icmp IpReass.

Local Open Scope Z_scope.

Module IpInput.
Import ByteOrder InetChksum Memp Pbuf IpAddr IpDefs IpOutput Icmp IpReass.

(** An interface takes packets to [dest]: it is up, configured, and [dest] is its
    address or a broadcast address on its network. *)
Definition accepts (n : netif) (dest : Z) : bool :=
  netif_is_up n && negb (nif_ip_addr n =? IPADDR_ANY) &&
  ((dest =? nif_ip_addr n) || negb (ip4_addr_isbroadcast dest n =? 0)).

(** The walk over [netif_list], leaving out [inp]; 0 for NULL. *)
Fixpoint accept_walk (l : list (Z * netif)) (inp dest : Z) : Z :=
  match l with
  | [] => 0
  | (np, n) :: l =>
      if np =? inp then accept_walk l inp dest
      else if accepts n dest then np
      else accept_walk l inp dest
  end.

Section input.
Context {W X U : Type} `{MemSystem W}.
Context (stale : Z -> Z) (custom_free : pstate W -> Z -> option (pstate W)).
Context (netif_output : X -> pstate W -> Z -> netif -> Z -> Z -> option (X * pstate W * Z)).
Context (raw_input : istate W X U -> Z -> Z -> option (istate W X U * bool)).
Context (udp_input tcp_input : istate W X U -> Z -> Z -> option (istate W X U)).

Implicit Type s : istate W X U.

(** The protocol [proto] of a packet that was accepted; [iphdr] is its header. *)
Definition deliver s (p inp iphdr : Z) : option (istate W X U) :=
  n ← netif_at s inp;
  let proto := IPH_PROTO (i_mem s) iphdr in
  if proto =? IP_PROTO_UDP then udp_input s p inp
  else if proto =? IP_PROTO_TCP then tcp_input s p inp
  else if proto =? IP_PROTO_ICMP then icmp_input stale custom_free netif_output s p inp
  else
    let dest := cur_dest (i_cur s) in
    s ← (if (ip4_addr_isbroadcast dest n =? 0) && negb (ip_addr_ismulticast dest) then
           ps ← update (i_p s) p (fun b => set_payload b iphdr);
           icmp_dest_unreach stale custom_free netif_output (set_i_p s ps) p ICMP_DUR_PROTO
         else Some s);
    s ← i_free custom_free s p;
    Some (IP_STATS_INC c_drop (IP_STATS_INC c_proterr s)).

(** The part behind the checks of the header: [netif] is the interface that takes
    the packet, 0 for none. *)
Definition accepted s (p inp iphdr netif : Z) : option (istate W X U) :=
  if netif =? 0 then i_free custom_free s p
  else
    '(s, p) ← (if negb (Z.land (IPH_OFFSET (i_mem s) iphdr) (PP_HTONS (Z.lor IP_OFFMASK IP_MF)) =? 0)
               then ip_reass stale custom_free netif_output s p else Some (s, p));
    if p =? 0 then Some s
    else
      b ← i_pbuf s p;
      let iphdr := payload b in
      let s := set_cur s (mkCurrent inp iphdr (cur_src (i_cur s)) (cur_dest (i_cur s))) in
      '(s, eaten) ← raw_input s p inp;
      s ← (if (eaten : bool) then Some s else deliver s p inp iphdr);
      Some (set_cur s (mkCurrent 0 0 IPADDR_ANY IPADDR_ANY)).

(** The result [ERR_OK] is left out: it is always the same. *)
Definition ip_input s (p inp : Z) : option (istate W X U) :=
  let s := IP_STATS_INC c_recv s in
  b ← i_pbuf s p;
  let iphdr := payload b in
  if negb (IPH_V (i_mem s) iphdr =? 4) then
    s ← i_free custom_free s p; Some (IP_STATS_INC c_drop (IP_STATS_INC c_err s))
  else
    let iphdr_hlen := u16 (IPH_HL (i_mem s) iphdr * 4) in
    let iphdr_len := PP_HTONS (IPH_LEN (i_mem s) iphdr) in
    if (len b <? iphdr_hlen) || (tot_len b <? iphdr_len) then
      s ← i_free custom_free s p; Some (IP_STATS_INC c_drop (IP_STATS_INC c_lenerr s))
    else
      c ← inet_chksum (i_mem s) iphdr iphdr_hlen;
      if negb (c =? 0) then
        s ← i_free custom_free s p; Some (IP_STATS_INC c_drop (IP_STATS_INC c_chkerr s))
      else
        ps ← pbuf_realloc custom_free (i_p s) p iphdr_len;
        let s := set_i_p s ps in
        let dest := IPH_DEST (i_mem s) iphdr in
        let src := IPH_SRC (i_mem s) iphdr in
        let s := set_cur s (mkCurrent (cur_netif (i_cur s)) (cur_header (i_cur s)) src dest) in
        n ← netif_at s inp;
        let netif := if accepts n dest then inp else accept_walk (i_netifs s) inp dest in
        if negb (ip4_addr_isbroadcast src n =? 0) || ip_addr_ismulticast src then
          s ← i_free custom_free s p; Some (IP_STATS_INC c_drop s)
        else accepted s p inp iphdr netif.

End input.

End IpInput.
