(* ===== verification/IpInputFacts.v ===== *)
(** What [ip_input] lets through. *)

From stdpp Require Import base tactics numbers list gmap.
From Stdlib Require Import ZArith Lia.
From S2P Require Import Prelude ByteOrder Fields Stats PbufDefs NetifDefs Mylib InetChksum Allocator Mem Memp PbufMem World Pbuf PbufData PbufChains PbufLinks IpAddr IpDefs IpOutput IpHeader IpSend Icmp IcmpEcho IpReass IpInput.

Local Open Scope Z_scope.

Module IpInputFacts.
Import ByteOrder Fields InetChksum Memp Pbuf PbufData PbufChains PbufLinks IpAddr IpDefs IpOutput IpHeader IpSend Icmp IcmpEcho IpReass IpInput.

(** ** Interfaces that take a packet *)

Lemma accept_walk_spec l inp dest :
  0 ∉ l.*1 ->
  accept_walk l inp dest = 0 <-> (forall np n, (np, n) ∈ l -> np <> inp -> accepts n dest = false).
Proof.
  induction l as [| [a x] l IH]; intros H0; cbn.
  { split; [by intros _ np n ?%elem_of_nil | done]. }
  cbn in H0. rewrite elem_of_cons in H0. specialize (IH ltac:(tauto)).
  destruct (Z.eqb_spec a inp) as [-> | Hne].
  - rewrite IH. split; intros Hx np n Hin Hnp.
    + apply elem_of_cons in Hin as [[= -> ->] | Hin]; [done | by apply (Hx np)].
    + apply (Hx np n); [by apply elem_of_cons; right | done].
  - destruct (accepts x dest) eqn:Ex.
    + split; [intros ->; tauto |]. intros Hx. specialize (Hx a x ltac:(apply elem_of_cons; by left) Hne). congruence.
    + rewrite IH. split; intros Hx np n Hin Hnp.
      * apply elem_of_cons in Hin as [[= -> ->] | Hin]; [done | by apply (Hx np)].
      * apply (Hx np n); [by apply elem_of_cons; right | done].
Qed.

(** Some interface takes packets to [dest]. *)
Definition for_host (l : list (Z * netif)) (dest : Z) : bool := existsb (fun x => accepts x.2 dest) l.

Lemma for_host_walk l def inp n dest :
  netifs_ok l def -> netif_in l inp = Some n ->
  ((if accepts n dest then inp else accept_walk l inp dest) =? 0) = negb (for_host l dest).
Proof.
  intros [Hnd H0 _ _] Hin. apply netif_in_elem in Hin; [| done].
  assert (for_host l dest = true <-> exists np x, (np, x) ∈ l /\ accepts x dest = true) as Hex.
  { unfold for_host. rewrite existsb_exists. split.
    - intros ([np x] & Hx & Ha). apply list_elem_of_In in Hx. by exists np, x.
    - intros (np & x & Hx & Ha). exists (np, x). split; [by apply list_elem_of_In | done]. }
  destruct (accepts n dest) eqn:Ea.
  - rewrite (proj2 Hex) by (by exists inp, n). apply Z.eqb_neq. intros ->. apply H0.
    apply list_elem_of_fmap. by exists (0, n).
  - destruct (for_host l dest).
    + destruct (proj1 Hex eq_refl) as (np & x & Hx & Ha). apply Z.eqb_neq. intros E.
      rewrite accept_walk_spec in E by done. specialize (E np x Hx).
      destruct (decide (np = inp)) as [-> | Hne]; [| rewrite E in Ha; done].
      assert (x = n) as -> by (apply netif_in_elem in Hx, Hin; [congruence | done | done]). congruence.
    + apply Z.eqb_eq. apply accept_walk_spec; [done |]. intros np x Hx _.
      destruct (accepts x dest) eqn:Ex; [| done]. destruct (proj2 Hex); [by exists np, x |]. done.
Qed.

(** The lengths a header claims. *)
Definition hlen_of (m : memory) (h : Z) : Z := IPH_HL m h * 4.
Definition iplen_of (m : memory) (h : Z) : Z := PP_HTONS (IPH_LEN m h).

Lemma hlen_range m h : 0 <= hlen_of m h <= 60.
Proof.
  unfold hlen_of, IPH_HL. change 0x0f with (Z.ones 4). rewrite Z.land_ones by lia. change (2 ^ 4) with 16. zlia.
Qed.

Section input.
Context {W X U : Type} `{LW : MemSystemLaws W}.
Context (stale : Z -> Z) (custom_free : pstate W -> Z -> option (pstate W)).
Context (netif_output : X -> pstate W -> Z -> netif -> Z -> Z -> option (X * pstate W * Z)).
Context (raw_input : istate W X U -> Z -> Z -> option (istate W X U * bool)).
Context (udp_input tcp_input : istate W X U -> Z -> Z -> option (istate W X U)).

Implicit Type s : istate W X U.

Abbreviation ip_input := (ip_input stale custom_free netif_output raw_input udp_input tcp_input).

(** Why a packet is dropped by the checks of its header. *)
Definition header_error (m : memory) (b : pbuf) : option counter :=
  let h := payload b in
  if negb (IPH_V m h =? 4) then Some c_err
  else if (len b <? hlen_of m h) || (tot_len b <? iplen_of m h) then Some c_lenerr
  else if negb (bool_decide (sums_to_ones (bytes m h (Z.to_nat (hlen_of m h))))) then Some c_chkerr
  else None.

(** Dropping a packet with the counters [cs]. *)
Definition drop_packet s (p : Z) (cs : list counter) : option (istate W X U) :=
  s ← i_free custom_free s p; Some (foldl (fun s c => IP_STATS_INC c s) s cs).

Lemma inet_chksum_eqb m a n c :
  0 <= n -> inet_chksum m a n = Some c -> negb (c =? 0) = negb (bool_decide (sums_to_ones (bytes m a (Z.to_nat n)))).
Proof.
  intros Hn E. f_equal. pose proof (chksum_zero m a n Hn) as Hz. rewrite E in Hz.
  destruct (Z.eqb_spec c 0) as [-> | Hne].
  - symmetry. apply bool_decide_true. by apply Hz.
  - symmetry. apply bool_decide_false. intros Hs. apply Hz in Hs. by injection Hs.
Qed.

(** The addresses of a packet. *)
Definition with_addresses s (ps : pstate W) (src dest : Z) : istate W X U :=
  set_cur (set_i_p (IP_STATS_INC c_recv s) ps) (mkCurrent (cur_netif (i_cur s)) (cur_header (i_cur s)) src dest).

(** A received packet: a chain of pbufs that own their payload, the head with at
    least a header's worth of bytes. *)
Record received s L (p : Z) (b : pbuf) (l : list (Z * pbuf)) : Prop := {
  rc_sys : psys (i_p s) L;
  rc_chain : chain (pst (i_p s)) p ((p, b) :: l);
  rc_lens : lengths_ok ((p, b) :: l);
  rc_own : Forall (fun x => owned x.2) ((p, b) :: l)
}.

(** The packet cut to the length of its header. *)
Definition trimmed s (p : Z) (b : pbuf) (l : list (Z * pbuf)) (ps : pstate W) (l' : list (Z * pbuf)) : Prop :=
  chain (pst ps) p l' /\ lengths_ok l' /\
  chain_data (mem_of ps) l' = take (Z.to_nat (iplen_of (i_mem s) (payload b))) (chain_data (i_mem s) ((p, b) :: l)) /\
  exists L', psys ps L'.

Lemma bytes_part m m' a n i k :
  bytes m a n = bytes m' a n -> 0 <= i -> (Z.to_nat i + k <= n)%nat -> bytes m (a + i) k = bytes m' (a + i) k.
Proof.
  intros E Hi Hk. apply (f_equal (fun l => take k (drop (Z.to_nat i) l))) in E.
  by rewrite !drop_bytes, !take_bytes, Z2Nat.id in E by lia.
Qed.

(** Cutting a packet keeps the beginning of its first pbuf. *)
Lemma trim_head s L p b l n :
  received s L p b l -> 0 <= n ->
  exists ps L' l', pbuf_realloc custom_free (i_p s) p n = Some ps /\ psys ps L' /\
    chain (pst ps) p l' /\ lengths_ok l' /\
    chain_data (mem_of ps) l' = take (Z.to_nat n) (chain_data (i_mem s) ((p, b) :: l)) /\
    forall k : nat, Z.of_nat k <= n -> Z.of_nat k <= len b -> bytes (mem_of ps) (payload b) k = bytes (i_mem s) (payload b) k.
Proof.
  intros [Hs Hc Hl Hown] Hn. assert (p <> 0) as Hp by by inversion Hc.
  destruct (realloc_truncates custom_free (i_p s) L p _ n Hs Hc Hp Hl Hn)
    as (ps & L' & l' & Hr & Hs' & Hc' & Hl' & Hlen & _ & Hd & _ & _ & Hkeep & _).
  specialize (Hd Hown). exists ps, L', l'. do 5 (split; [done |]). intros k Hkn Hkb.
  apply chain_inv in Hc' as [[? _] | (_ & b' & t & -> & Hb' & Ht)]; [done |].
  destruct (Hkeep p b') as (c0 & Hin & Hpay & Hlb); [by apply elem_of_cons; left |].
  destruct (chain_lookup _ _ _ _ _ Hc Hin) as [Hb0 _]. inversion Hc as [| ? ? ? _ Hb _]; subst.
  rewrite Hb in Hb0. injection Hb0 as <-. cbn in Hl, Hl', Hlen.
  pose proof (chain_len_nonneg l ltac:(tauto)).
  assert (Z.of_nat k <= len b') as Hk.
  { destruct Hlb as [-> | E]; [done |]. rewrite E in Ht. inversion Ht; [subst; cbn in Hlen; lia | done]. }
  apply (f_equal (take k)) in Hd. cbn [chain_data] in Hd.
  rewrite take_take, Nat.min_l, !take_app_le, !take_bytes, Hpay in Hd by (rewrite ?bytes_length; lia). done.
Qed.

(** A source no packet may have. *)
Definition bad_source (n : netif) (src : Z) : bool := negb (ip4_addr_isbroadcast src n =? 0) || ip_addr_ismulticast src.

(** C26: [ip_input] decides by the header.  A packet of another version, one whose
    header or length does not fit it, and one whose header checksum does not
    verify is released and counted under that error, and nothing else happens.
    Any other packet is cut to the length in its header; then it is dropped if its
    source is a broadcast or multicast address, released if no interface that is
    up and configured takes its destination, and otherwise goes on to reassembly
    or delivery with the addresses of its header as the current ones. *)
Theorem ip_input_decides s L p b l inp n :
  received s L p b l -> netifs_ok (i_netifs s) (i_default s) -> netif_at s inp = Some n ->
  let m := i_mem s in
  match header_error m b with
  | Some c => ip_input s p inp = drop_packet (IP_STATS_INC c_recv s) p [c; c_drop]
  | None =>
      exists ps l', pbuf_realloc custom_free (i_p s) p (iplen_of m (payload b)) = Some ps /\ trimmed s p b l ps l' /\
      let src := IPH_SRC (mem_of ps) (payload b) in
      let dest := IPH_DEST (mem_of ps) (payload b) in
      let s' := with_addresses s ps src dest in
      (20 <= iplen_of m (payload b) -> 20 <= len b -> src = IPH_SRC m (payload b) /\ dest = IPH_DEST m (payload b)) /\
      ip_input s p inp =
        if bad_source n src then drop_packet s' p [c_drop]
        else if negb (for_host (i_netifs s) dest) then i_free custom_free s' p
        else accepted stale custom_free netif_output raw_input udp_input tcp_input s' p inp (payload b)
               (if accepts n dest then inp else accept_walk (i_netifs s) inp dest)
  end.
Proof.
  intros Hrc Hnet Hn m. pose proof Hrc as [Hs Hc Hl Hown]. inversion Hc as [| ? ? ? _ Hb _]; subst.
  unfold ip_input, header_error. cbn zeta. fold m.
  replace (i_pbuf (IP_STATS_INC c_recv s) p) with (Some b) by (symmetry; exact Hb). cbn [mbind option_bind].
  change (i_mem (IP_STATS_INC c_recv s)) with m. set (h := payload b).
  destruct (negb (IPH_V m h =? 4)); [done |].
  pose proof (hlen_range m h) as Hh. fold (hlen_of m h) (iplen_of m h). rewrite (u16_id (hlen_of m h)) by lia.
  destruct ((len b <? hlen_of m h) || (tot_len b <? iplen_of m h)); [done |].
  destruct (inet_chksum_total m h (hlen_of m h) ltac:(lia)) as (c & Ec & _). rewrite Ec. cbn [mbind option_bind].
  rewrite (inet_chksum_eqb m h (hlen_of m h) c ltac:(lia) Ec). destruct (negb (bool_decide _)); [done |].
  assert (0 <= iplen_of m h) as Hi by apply PP_HTONS_range, ld16_range.
  destruct (trim_head s L p b l _ Hrc Hi) as (ps & L' & l' & Hr & Hs' & Hc' & Hl' & Hd & Hk).
  exists ps, l'. split; [exact Hr |]. split; [split; [done | split; [done | split; [done | by exists L']]] |]. split.
  { intros Hn20 Hb20. specialize (Hk 20%nat Hn20 Hb20). fold h in Hk.
    split; unfold IPH_SRC, IPH_DEST; apply ld32_word; try apply ld32_range; rewrite <- bytes_ld32; (apply (bytes_part _ _ h 20); [exact Hk | done | apply Nat.leb_le; reflexivity]). }
  change (i_p (IP_STATS_INC c_recv s)) with (i_p s). rewrite Hr. cbn [mbind option_bind].
  change (netif_at _ inp) with (netif_at s inp). rewrite Hn. cbn [mbind option_bind].
  change (i_mem (set_i_p (IP_STATS_INC c_recv s) ps)) with (mem_of ps).
  set (src := IPH_SRC (mem_of ps) h). set (dest := IPH_DEST (mem_of ps) h).
  change (set_cur _ _) with (with_addresses s ps src dest). change (i_netifs (with_addresses s ps src dest)) with (i_netifs s).
  change (negb _ || ip_addr_ismulticast _) with (bad_source n src). destruct (bad_source n src); [done |].
  unfold accepted. rewrite (for_host_walk _ _ inp n dest Hnet Hn). by destruct (negb (for_host _ _)).
Qed.

End input.

(** ** A sample packet *)

#[local] Existing Instance World.world_system.
#[local] Existing Instance World.sample_laws.

Definition no_raw (s : istate World.world (list (Z * Z)) unit) (p inp : Z) : option (istate World.world (list (Z * Z)) unit * bool) :=
  Some (s, false).
Definition no_proto (s : istate World.world (list (Z * Z)) unit) (p inp : Z) : option (istate World.world (list (Z * Z)) unit) :=
  Some s.

Lemma sample_ping_received : exists L, received sample_ping_state L 19880 sample_head [].
Proof.
  destruct sample_ping_ok as [L HL]. exists L.
  split; [apply HL | apply HL | apply HL | repeat constructor; by right].
Qed.

Lemma ip_input_decides_witness :
  header_error (i_mem sample_ping_state) sample_head = None /\
  exists ps l', trimmed sample_ping_state 19880 sample_head [] ps l' /\
    ip_input no_stale no_custom sample_link no_raw no_proto no_proto sample_ping_state 19880 1 =
      accepted no_stale no_custom sample_link no_raw no_proto no_proto
        (with_addresses sample_ping_state ps 0x1401a8c0 0x0a01a8c0) 19880 1 19910 1.
Proof.
  destruct sample_ping_received as [L HL].
  pose proof (ip_input_decides no_stale no_custom sample_link no_raw no_proto no_proto sample_ping_state L 19880
    sample_head [] 1 sample_lan HL sample_netifs_ok eq_refl) as H.
  cbn zeta in H. assert (header_error (i_mem sample_ping_state) sample_head = None) as E by (vm_compute; reflexivity).
  split; [exact E |]. rewrite E in H. destruct H as (ps & l' & _ & Ht & Ha & H). exists ps, l'. split; [exact Ht |].
  assert (IPH_SRC (mem_of ps) (payload sample_head) = 0x1401a8c0 /\ IPH_DEST (mem_of ps) (payload sample_head) = 0x0a01a8c0) as [Es Ed].
  { destruct Ha as [-> ->]; [vm_compute; discriminate | vm_compute; discriminate | split; vm_compute; reflexivity]. }
  rewrite Es, Ed in H. exact H.
Defined.

End IpInputFacts.
