(* ===== verification/Raw.v ===== *)
(** Raw connections: src/core/raw.c and src/include/lwip/raw.h of lwIP 1.4.1
    (IP_SOF_BROADCAST 0).  The state is a part of the upper state of the IP layer,
    reached through [HasRaw]; the receive callbacks are the parameter
    [raw_recv_call], whose result says whether the packet was eaten. *)

From stdpp Require Import base tactics numbers list gmap.
From Stdlib Require Import ZArith Lia.
From S2P Require Import Prelude Stats Linked PbufDefs NetifDefs Allocator Mem Memp PbufMem Pbuf IpAddr IpDefs IpOutput.

Local Open Scope Z_scope.

Module Raw.
Import Linked Memp Pbuf IpAddr IpDefs IpOutput.

(** ** Data *)

Definition RAW_TTL : Z := 255.

Record raw_pcb := mkRawPcb {
  rp_local_ip : Z; rp_remote_ip : Z; rp_so_options : Z; rp_tos : Z; rp_ttl : Z;
  rp_next : Z; rp_protocol : Z; rp_recv : Z; rp_recv_arg : Z }.

Definition set_rp_next (b : raw_pcb) (x : Z) : raw_pcb :=
  mkRawPcb (rp_local_ip b) (rp_remote_ip b) (rp_so_options b) (rp_tos b) (rp_ttl b) x (rp_protocol b) (rp_recv b) (rp_recv_arg b).
Definition set_rp_ips (b : raw_pcb) (local remote : Z) : raw_pcb :=
  mkRawPcb local remote (rp_so_options b) (rp_tos b) (rp_ttl b) (rp_next b) (rp_protocol b) (rp_recv b) (rp_recv_arg b).
Definition set_rp_recv (b : raw_pcb) (recv arg : Z) : raw_pcb :=
  mkRawPcb (rp_local_ip b) (rp_remote_ip b) (rp_so_options b) (rp_tos b) (rp_ttl b) (rp_next b) (rp_protocol b) recv arg.

(** The control blocks and [raw_pcbs]. *)
Record raw_state := mkRaw { w_pcbs : gmap Z raw_pcb; w_head : Z }.

Class HasRaw (U : Type) := {
  get_raw : U -> raw_state;
  put_raw : U -> raw_state -> U;
  get_put_raw : forall x u, get_raw (put_raw x u) = u;
  put_get_raw : forall x, put_raw x (get_raw x) = x;
  put_put_raw : forall x u v, put_raw (put_raw x u) v = put_raw x v
}.

Definition set_w_pcb (u : raw_state) (pcb : Z) (b : raw_pcb) : raw_state := mkRaw (<[pcb := b]> (w_pcbs u)) (w_head u).

(** ** Control blocks *)

Definition raw_bind (u : raw_state) (pcb ipaddr : Z) : option raw_state :=
  b ← w_pcbs u !! pcb; Some (set_w_pcb u pcb (set_rp_ips b ipaddr (rp_remote_ip b))).
Definition raw_connect (u : raw_state) (pcb ipaddr : Z) : option raw_state :=
  b ← w_pcbs u !! pcb; Some (set_w_pcb u pcb (set_rp_ips b (rp_local_ip b) ipaddr)).
Definition raw_recv (u : raw_state) (pcb recv recv_arg : Z) : option raw_state :=
  b ← w_pcbs u !! pcb; Some (set_w_pcb u pcb (set_rp_recv b recv recv_arg)).

(** The loop of [raw_remove]. *)
Definition raw_unlink_body (pcb : Z) (y : gmap Z raw_pcb * Z) : (gmap Z raw_pcb * Z) + option (gmap Z raw_pcb) :=
  let '(m, pcb2) := y in
  if pcb2 =? 0 then inr (Some m)
  else
    match m !! pcb2 with
    | None => inr None
    | Some b2 =>
        if negb (rp_next b2 =? 0) && (rp_next b2 =? pcb) then
          match m !! pcb with
          | None => inr None
          | Some b => inl (<[pcb2 := set_rp_next b2 (rp_next b)]> m, rp_next b)
          end
        else inl (m, rp_next b2)
    end.

Section raw.
Context {W X U : Type} `{MemSystem W} `{HasRaw U}.
Context (stale : Z -> Z) (custom_free : pstate W -> Z -> option (pstate W)).
Context (netif_output : X -> pstate W -> Z -> netif -> Z -> Z -> option (X * pstate W * Z)).
Context (raw_recv_call : istate W X U -> Z -> Z -> Z -> Z -> Z -> option (istate W X U * Z)).

Implicit Type s : istate W X U.

Definition raw_of s : raw_state := get_raw (i_up s).
Definition set_raw s (u : raw_state) : istate W X U := set_up s (put_raw (i_up s) u).

Definition raw_new s (proto : Z) : istate W X U * Z :=
  let '(w, pcb) := ms_memp_malloc (pw (i_p s)) MEMP_RAW_PCB in
  let s := set_i_p s (set_pw (i_p s) w) in
  let u := raw_of s in
  if negb (pcb =? 0) then
    (set_raw s (mkRaw (<[pcb := mkRawPcb 0 0 0 0 RAW_TTL (w_head u) proto 0 0]> (w_pcbs u)) pcb), pcb)
  else (s, pcb).

Definition raw_remove s (pcb : Z) : option (istate W X U) :=
  let u := raw_of s in
  u ← (if w_head u =? pcb then b ← w_pcbs u !! pcb; Some (mkRaw (w_pcbs u) (rp_next b))
       else m ← mjoin (while (S (size (w_pcbs u))) (raw_unlink_body pcb) (w_pcbs u, w_head u)); Some (mkRaw m (w_head u)));
  let s := set_i_p s (set_pw (i_p s) (ms_memp_free (pw (i_p s)) MEMP_RAW_PCB pcb)) in
  Some (set_raw s (mkRaw (delete pcb (w_pcbs u)) (w_head u))).

(** ** Input *)

(** The control block is for packets of protocol [proto] to [dest]. *)
Definition raw_match (proto dest : Z) (b : raw_pcb) : bool :=
  (rp_protocol b =? proto) && ((rp_local_ip b =? IPADDR_ANY) || (rp_local_ip b =? dest)).

(** One pass of the loop: the state, [prev] and [pcb].  The block that eats the
    packet moves to the front of the list. *)
Definition raw_body (p proto : Z) (y : istate W X U * Z * Z) : (istate W X U * Z * Z) + option (istate W X U * bool) :=
  let '(s, prev, pcb) := y in
  if pcb =? 0 then inr (Some (s, false))
  else
    match w_pcbs (raw_of s) !! pcb with
    | None => inr None
    | Some b =>
        if raw_match proto (cur_dest (i_cur s)) b && negb (rp_recv b =? 0) then
          match raw_recv_call s (rp_recv b) (rp_recv_arg b) pcb p (cur_src (i_cur s)) with
          | None => inr None
          | Some (s, r) =>
              let u := raw_of s in
              match w_pcbs u !! pcb with
              | None => inr None
              | Some b =>
                  if negb (r =? 0) then
                    if negb (prev =? 0) then
                      match w_pcbs u !! prev with
                      | None => inr None
                      | Some pb =>
                          let m := <[prev := set_rp_next pb (rp_next b)]> (w_pcbs u) in
                          inr (Some (set_raw s (mkRaw (<[pcb := set_rp_next b (w_head u)]> m) pcb), true))
                      end
                    else inr (Some (s, true))
                  else inl (s, pcb, rp_next b)
              end
          end
        else inl (s, pcb, rp_next b)
    end.

Definition raw_input s (p inp : Z) : option (istate W X U * bool) :=
  b ← i_pbuf s p;
  let proto := IPH_PROTO (i_mem s) (payload b) in
  mjoin (while (S (size (w_pcbs (raw_of s)))) (raw_body p proto) (s, 0, w_head (raw_of s))).

(** ** Output *)

Definition raw_free_header s (q p : Z) : option (istate W X U) :=
  if negb (q =? p) then i_free custom_free s q else Some s.

(** The packet with room for an IP header, 0 if there is none; the flag is set
    when the payload of [p] cannot be restored. *)
Definition raw_room s (p : Z) : option (istate W X U * Z) :=
  '(s, r) ← i_header s p IP_HLEN;
  if negb (r =? 0) then
    '(ps, q) ← pbuf_alloc stale custom_free (i_p s) PBUF_IP 0 PBUF_RAM;
    let s := set_i_p s ps in
    if q =? 0 then Some (s, 0)
    else
      b ← i_pbuf s p;
      s ← (if negb (tot_len b =? 0) then ps ← pbuf_chain (i_p s) q p; Some (set_i_p s ps) else Some s);
      Some (s, q)
  else
    '(s, r) ← i_header s p (- IP_HLEN);
    Some (s, if negb (r =? 0) then 0 else p).

Definition raw_sendto s (pcb p ipaddr : Z) : option (istate W X U * Z) :=
  b ← w_pcbs (raw_of s) !! pcb;
  '(s, q) ← raw_room s p;
  if q =? 0 then Some (s, ERR_MEM)
  else
    '(s, np) ← ip_route s ipaddr;
    if np =? 0 then s ← raw_free_header s q p; Some (s, ERR_RTE)
    else
      n ← netif_at s np;
      let src_ip := if rp_local_ip b =? IPADDR_ANY then nif_ip_addr n else rp_local_ip b in
      '(s, err) ← ip_output_if stale custom_free netif_output s q src_ip (Some ipaddr) (rp_ttl b) (rp_tos b) (rp_protocol b) np;
      s ← raw_free_header s q p;
      Some (s, err).

Definition raw_send s (pcb p : Z) : option (istate W X U * Z) :=
  b ← w_pcbs (raw_of s) !! pcb; raw_sendto s pcb p (rp_remote_ip b).

(** ** Offering a packet *)

(** Callbacks that return and leave the control blocks alone. *)
Context (call_ok : forall s f a pcb p src, exists s' r, raw_recv_call s f a pcb p src = Some (s', r) /\ raw_of s' = raw_of s).

(** The blocks are asked in order until one eats the packet: the state, whether it
    was eaten, and the blocks before and at that one. *)
Fixpoint offer s (p proto : Z) (l : list (Z * raw_pcb)) : istate W X U * option (list (Z * raw_pcb)) :=
  match l with
  | [] => (s, None)
  | (pcb, b) :: l =>
      let next s := let '(s, r) := offer s p proto l in (s, (fun k => (pcb, b) :: k) <$> r) in
      if raw_match proto (cur_dest (i_cur s)) b && negb (rp_recv b =? 0) then
        match raw_recv_call s (rp_recv b) (rp_recv_arg b) pcb p (cur_src (i_cur s)) with
        | Some (s, r) => if negb (r =? 0) then (s, Some [(pcb, b)]) else next s
        | None => (s, None)
        end
      else next s
  end.

Lemma raw_loop l : forall s p proto prev pcb fuel,
  linked rp_next (w_pcbs (raw_of s)) pcb l -> (length l < fuel)%nat -> (prev = 0 \/ is_Some (w_pcbs (raw_of s) !! prev)) ->
  let '(s', r) := offer s p proto l in
  raw_of s' = raw_of s /\
  exists u, while fuel (raw_body p proto) (s, prev, pcb) = Some (Some (u, bool_decide (is_Some r))) /\
    (r = None -> u = s') /\ (exists v, u = set_raw s' v).
Proof.
  induction l as [| [q b] l IH]; intros s p proto prev pcb [| fuel] Hl Hf Hprev; cbn in Hf; try lia.
  - apply linked_inv in Hl as [[-> _] | (_ & ? & ? & ? & _)]; [| done]. cbn. split; [done |]. exists s. split; [done |]. split; [done |].
    exists (raw_of s). unfold set_raw, raw_of. rewrite put_get_raw. by destruct s.
  - apply linked_inv in Hl as [[_ ?] | (Hq & ? & ? & [= <- -> <-] & Hb & Hl)]; [done |].
    cbn [while raw_body offer]. rewrite (proj2 (Z.eqb_neq q 0)) by done. rewrite Hb.
    destruct (raw_match proto (cur_dest (i_cur s)) x && negb (rp_recv x =? 0)).
    + destruct (call_ok s (rp_recv x) (rp_recv_arg x) q p (cur_src (i_cur s))) as (s1 & r & -> & Eu). rewrite Eu, Hb.
      destruct (negb (r =? 0)).
      * split; [done |]. destruct (Z.eqb_spec prev 0) as [-> | Hp0]; cbn [negb].
        -- exists s1. split; [done |]. split; [done |]. exists (raw_of s1). unfold set_raw, raw_of. rewrite put_get_raw. by destruct s1.
        -- destruct Hprev as [? | [pb Hpb]]; [done |]. rewrite Hpb. eexists. split; [done |]. split; [done | by eexists].
      * rewrite <- Eu in Hl. specialize (IH s1 p proto q (rp_next x) fuel Hl ltac:(lia) ltac:(right; rewrite Eu; by eexists)).
        destruct (offer s1 p proto l) as [s' o]. destruct IH as (E & u & Hw & H1 & H2). split; [by rewrite E |].
        exists u. split; [rewrite Hw; by destruct o |]. split; [destruct o; [done | intros _; by apply H1] | done].
    + specialize (IH s p proto q (rp_next x) fuel Hl ltac:(lia) ltac:(right; by eexists)).
      destruct (offer s p proto l) as [s' o]. destruct IH as (E & u & Hw & H1 & H2). split; [done |].
      exists u. split; [rewrite Hw; by destruct o |]. split; [destruct o; [done | intros _; by apply H1] | done].
Qed.

(** [raw_input] asks the matching control blocks in the order of the list until one
    eats the packet, and says whether one did; it changes nothing else but the
    order of the list. *)
Lemma raw_input_offers s p b l inp :
  i_pbuf s p = Some b -> linked rp_next (w_pcbs (raw_of s)) (w_head (raw_of s)) l ->
  let '(s', r) := offer s p (IPH_PROTO (i_mem s) (payload b)) l in
  exists u, raw_input s p inp = Some (u, bool_decide (is_Some r)) /\ (r = None -> u = s') /\ (exists v, u = set_raw s' v).
Proof.
  intros Hb Hl. pose proof (linked_size _ _ _ _ Hl) as Hsz. unfold raw_input. rewrite Hb. cbn [mbind option_bind].
  pose proof (raw_loop l s p (IPH_PROTO (i_mem s) (payload b)) 0 _ (S (size (w_pcbs (raw_of s)))) Hl ltac:(lia) ltac:(by left)) as Hr.
  destruct (offer s p _ l) as [s' r]. destruct Hr as (_ & u & Hw & H1 & H2). rewrite Hw. by exists u.
Qed.

End raw.

End Raw.
