(* ===== verification/Udp.v ===== *)
(** UDP: src/core/udp.c and src/include/lwip/udp.h of lwIP 1.4.1 (no UDP-Lite, no
    IGMP, no DHCP, SO_REUSE 0, IP_SOF_BROADCAST 0, LWIP_CHECKSUM_ON_COPY 0,
    CHECKSUM_GEN_UDP 1 and CHECKSUM_CHECK_UDP 1).

    The control blocks are the entries of a finite map from addresses; those that
    are bound are linked into [udp_pcbs].  The state of UDP is a part of the upper
    state [U] of the IP layer, reached through the interface [HasUdp].  The receive
    callbacks are the parameter [udp_recv_call]: a function pointer and its
    argument are numbers, 0 for NULL. *)

From stdpp Require Import base tactics numbers list gmap.
From Stdlib Require Import ZArith Lia.
From S2P Require Import Prelude ByteOrder Stats Linked PbufDefs NetifDefs InetChksum Allocator Mem Memp PbufMem Pbuf IpAddr IpDefs IpOutput Icmp.

Local Open Scope Z_scope.

Module Udp.
Import ByteOrder Linked InetChksum Memp Pbuf IpAddr IpDefs IpOutput Icmp.

(** ** Data *)

Definition UDP_HLEN : Z := 8.
Definition UDPH_src : Z := 0.
Definition UDPH_dest : Z := 2.
Definition UDPH_len : Z := 4.
Definition UDPH_chksum : Z := 6.

Definition UDP_FLAGS_NOCHKSUM : Z := 0x01.
Definition UDP_FLAGS_CONNECTED : Z := 0x04.
Definition UDP_TTL : Z := 255.

Definition UDP_LOCAL_PORT_RANGE_START : Z := 0xc000.
Definition UDP_LOCAL_PORT_RANGE_END : Z := 0xffff.

Record udp_pcb := mkUdpPcb {
  up_local_ip : Z; up_remote_ip : Z; up_so_options : Z; up_tos : Z; up_ttl : Z;
  up_next : Z; up_flags : Z; up_local_port : Z; up_remote_port : Z; up_recv : Z; up_recv_arg : Z }.

#[export] Instance udp_pcb_eq_dec : EqDecision udp_pcb.
Proof. solve_decision. Defined.

Definition set_up_next (b : udp_pcb) (x : Z) : udp_pcb :=
  mkUdpPcb (up_local_ip b) (up_remote_ip b) (up_so_options b) (up_tos b) (up_ttl b) x (up_flags b)
    (up_local_port b) (up_remote_port b) (up_recv b) (up_recv_arg b).
Definition set_up_local (b : udp_pcb) (ip port : Z) : udp_pcb :=
  mkUdpPcb ip (up_remote_ip b) (up_so_options b) (up_tos b) (up_ttl b) (up_next b) (up_flags b)
    port (up_remote_port b) (up_recv b) (up_recv_arg b).
Definition set_up_remote (b : udp_pcb) (ip port flags : Z) : udp_pcb :=
  mkUdpPcb (up_local_ip b) ip (up_so_options b) (up_tos b) (up_ttl b) (up_next b) flags
    (up_local_port b) port (up_recv b) (up_recv_arg b).
Definition set_up_recv (b : udp_pcb) (recv recv_arg : Z) : udp_pcb :=
  mkUdpPcb (up_local_ip b) (up_remote_ip b) (up_so_options b) (up_tos b) (up_ttl b) (up_next b) (up_flags b)
    (up_local_port b) (up_remote_port b) recv recv_arg.

(** The control blocks, [udp_pcbs], [udp_port] and the statistics. *)
Record udp_state := mkUdp { u_pcbs : gmap Z udp_pcb; u_head : Z; u_port : Z; u_stats : stats_proto }.

Definition set_u_pcbs (u : udp_state) (m : gmap Z udp_pcb) : udp_state := mkUdp m (u_head u) (u_port u) (u_stats u).
Definition set_u_head (u : udp_state) (h : Z) : udp_state := mkUdp (u_pcbs u) h (u_port u) (u_stats u).
Definition set_u_port (u : udp_state) (x : Z) : udp_state := mkUdp (u_pcbs u) (u_head u) x (u_stats u).
Definition set_u_pcb (u : udp_state) (pcb : Z) (b : udp_pcb) : udp_state := set_u_pcbs u (<[pcb := b]> (u_pcbs u)).

(** The state of UDP within the state of all the upper layers. *)
Class HasUdp (U : Type) := {
  get_udp : U -> udp_state;
  put_udp : U -> udp_state -> U;
  get_put_udp : forall x u, get_udp (put_udp x u) = u;
  put_get_udp : forall x, put_udp x (get_udp x) = x;
  put_put_udp : forall x u v, put_udp (put_udp x u) v = put_udp x v
}.

(** ** Ports *)

(** A port is in use by a control block of the list. *)
Definition port_taken (u : udp_state) (port : Z) : option bool :=
  for_list up_next (u_pcbs u) (fun _ _ b => if up_local_port b =? port then inr true else inl tt) (fun _ => false) tt (u_head u).

(** The code from the label [again]: the port and the number of ports tried. *)
Definition again_body (u : udp_state) (y : Z * Z) : (Z * Z) + option (Z * Z) :=
  let '(port, n) := y in
  let port := if port =? UDP_LOCAL_PORT_RANGE_END then UDP_LOCAL_PORT_RANGE_START else u16 (port + 1) in
  match port_taken u port with
  | None => inr None
  | Some true =>
      let n := u16 (n + 1) in
      if UDP_LOCAL_PORT_RANGE_END - UDP_LOCAL_PORT_RANGE_START <? n then inr (Some (port, 0)) else inl (port, n)
  | Some false => inr (Some (port, port))
  end.

(** The number of ports in the range; no more are tried. *)
Definition UDP_PORTS : Z := UDP_LOCAL_PORT_RANGE_END - UDP_LOCAL_PORT_RANGE_START + 1.

Definition udp_new_port (u : udp_state) : option (udp_state * Z) :=
  '(port, r) ← mjoin (while (S (Z.to_nat UDP_PORTS)) (again_body u) (u_port u, 0));
  Some (set_u_port u port, r).

(** ** Binding and connecting *)

(** The check for another control block with this address and port; the result is
    [rebind], or [None] if there is one. *)
Definition bind_step (pcb ipaddr port : Z) (rebind : bool) (q : Z) (b : udp_pcb) : bool + option bool :=
  if pcb =? q then inl true
  else if (up_local_port b =? port) &&
          ((up_local_ip b =? IPADDR_ANY) || (ipaddr =? IPADDR_ANY) || (up_local_ip b =? ipaddr))
  then inr None
  else inl rebind.

Definition udp_bind (u : udp_state) (pcb ipaddr port : Z) : option (udp_state * Z) :=
  r ← for_list up_next (u_pcbs u) (bind_step pcb ipaddr port) Some false (u_head u);
  match r with
  | None => Some (u, ERR_USE)
  | Some rebind =>
      b ← u_pcbs u !! pcb;
      let u := set_u_pcb u pcb (set_up_local b ipaddr (up_local_port b)) in
      '(u, port) ← (if port =? 0 then udp_new_port u else Some (u, port));
      if port =? 0 then Some (u, ERR_USE)
      else
        b ← u_pcbs u !! pcb;
        let b := set_up_local b (up_local_ip b) port in
        if (rebind : bool) then Some (set_u_pcb u pcb b, ERR_OK)
        else Some (set_u_head (set_u_pcb u pcb (set_up_next b (u_head u))) pcb, ERR_OK)
  end.

Definition udp_connect (u : udp_state) (pcb ipaddr port : Z) : option (udp_state * Z) :=
  b ← u_pcbs u !! pcb;
  '(u, err) ← (if up_local_port b =? 0 then udp_bind u pcb (up_local_ip b) (up_local_port b) else Some (u, ERR_OK));
  if negb (err =? ERR_OK) then Some (u, err)
  else
    b ← u_pcbs u !! pcb;
    let u := set_u_pcb u pcb (set_up_remote b ipaddr port (Z.lor (up_flags b) UDP_FLAGS_CONNECTED)) in
    found ← for_list up_next (u_pcbs u) (fun _ q _ => if pcb =? q then inr true else inl tt) (fun _ => false) tt (u_head u);
    if (found : bool) then Some (u, ERR_OK)
    else
      b ← u_pcbs u !! pcb;
      Some (set_u_head (set_u_pcb u pcb (set_up_next b (u_head u))) pcb, ERR_OK).

Definition udp_disconnect (u : udp_state) (pcb : Z) : option udp_state :=
  b ← u_pcbs u !! pcb;
  Some (set_u_pcb u pcb (set_up_remote b IPADDR_ANY 0 (Z.land (up_flags b) (u8 (Z.lnot UDP_FLAGS_CONNECTED))))).

Definition udp_recv (u : udp_state) (pcb recv recv_arg : Z) : option udp_state :=
  b ← u_pcbs u !! pcb; Some (set_u_pcb u pcb (set_up_recv b recv recv_arg)).

(** The loop of [udp_remove], which changes the list it follows. *)
Definition unlink_body (pcb : Z) (y : gmap Z udp_pcb * Z) : (gmap Z udp_pcb * Z) + option (gmap Z udp_pcb) :=
  let '(m, pcb2) := y in
  if pcb2 =? 0 then inr (Some m)
  else
    match m !! pcb2 with
    | None => inr None
    | Some b2 =>
        if negb (up_next b2 =? 0) && (up_next b2 =? pcb) then
          match m !! pcb with
          | None => inr None
          | Some b => inl (<[pcb2 := set_up_next b2 (up_next b)]> m, up_next b)
          end
        else inl (m, up_next b2)
    end.

Section udp.
Context {W X U : Type} `{MemSystem W} `{HasUdp U}.
Context (stale : Z -> Z) (custom_free : pstate W -> Z -> option (pstate W)).
Context (netif_output : X -> pstate W -> Z -> netif -> Z -> Z -> option (X * pstate W * Z)).
Context (udp_recv_call : istate W X U -> Z -> Z -> Z -> Z -> Z -> Z -> option (istate W X U)).

Implicit Type s : istate W X U.

Definition udp_of s : udp_state := get_udp (i_up s).
Definition set_udp s (u : udp_state) : istate W X U := set_up s (put_udp (i_up s) u).
Definition UDP_STATS_INC (c : counter) s : istate W X U :=
  let u := udp_of s in set_udp s (mkUdp (u_pcbs u) (u_head u) (u_port u) (STATS_INC c (u_stats u))).

(** ** Creation and removal *)

Definition set_i_w s (w : W) : istate W X U := set_i_p s (set_pw (i_p s) w).

Definition udp_new s : istate W X U * Z :=
  let '(w, pcb) := ms_memp_malloc (pw (i_p s)) MEMP_UDP_PCB in
  let s := set_i_w s w in
  if negb (pcb =? 0) then (set_udp s (set_u_pcb (udp_of s) pcb (mkUdpPcb 0 0 0 0 UDP_TTL 0 0 0 0 0 0)), pcb)
  else (s, pcb).

Definition udp_remove s (pcb : Z) : option (istate W X U) :=
  let u := udp_of s in
  u ← (if u_head u =? pcb then b ← u_pcbs u !! pcb; Some (set_u_head u (up_next b))
       else m ← mjoin (while (S (size (u_pcbs u))) (unlink_body pcb) (u_pcbs u, u_head u)); Some (set_u_pcbs u m));
  let s := set_i_w s (ms_memp_free (pw (i_p s)) MEMP_UDP_PCB pcb) in
  Some (set_udp s (set_u_pcbs u (delete pcb (u_pcbs u)))).

(** ** Input *)

(** A control block takes datagrams to [dest] and [dest_port]; [broadcast] says
    whether [dest] is a broadcast address on the interface. *)
Definition local_match (mask : Z) (broadcast : bool) (dest dest_port : Z) (b : udp_pcb) : bool :=
  (up_local_port b =? dest_port) &&
  ((negb broadcast && (up_local_ip b =? IPADDR_ANY)) || (up_local_ip b =? dest) ||
   (broadcast && ((up_local_ip b =? IPADDR_ANY) || ip_addr_netcmp (up_local_ip b) dest mask))).

(** Its remote end is the sender. *)
Definition remote_match (src src_port : Z) (b : udp_pcb) : bool :=
  (up_remote_port b =? src_port) && ((up_remote_ip b =? IPADDR_ANY) || (up_remote_ip b =? src)).

Definition not_connected (b : udp_pcb) : bool := Z.land (up_flags b) UDP_FLAGS_CONNECTED =? 0.

(** The loop over the list: [prev] and [uncon_pcb], 0 for NULL.  The result is
    [pcb], [prev] and [uncon_pcb]. *)
Definition demux_step (lm rm : udp_pcb -> bool) (x : Z * Z) (pcb : Z) (b : udp_pcb) : (Z * Z) + (Z * Z * Z) :=
  let '(prev, uncon_pcb) := x in
  let uncon_pcb := if lm b && (uncon_pcb =? 0) && not_connected b then pcb else uncon_pcb in
  if lm b && rm b then inr (pcb, prev, uncon_pcb) else inl (pcb, uncon_pcb).

(** The control block that is found moves to the front of the list. *)
Definition demux s (lm rm : udp_pcb -> bool) : option (istate W X U * Z) :=
  let u := udp_of s in
  '(pcb, prev, uncon_pcb) ← for_list up_next (u_pcbs u) (demux_step lm rm) (fun x => (0, x.1, x.2)) (0, 0) (u_head u);
  s ← (if pcb =? 0 then Some s
       else if negb (prev =? 0) then
         pb ← u_pcbs u !! prev; b ← u_pcbs u !! pcb;
         let m := <[prev := set_up_next pb (up_next b)]> (u_pcbs u) in
         Some (set_udp s (set_u_head (set_u_pcbs u (<[pcb := set_up_next b (u_head u)]> m)) pcb))
       else Some (UDP_STATS_INC c_cachehit s));
  Some (s, if pcb =? 0 then uncon_pcb else pcb).

(** A datagram that is dropped with the counter [c]. *)
Definition udp_drop s (p : Z) (c : counter) : option (istate W X U) :=
  i_free custom_free (UDP_STATS_INC c_drop (UDP_STATS_INC c s)) p.

(** What happens to a datagram whose checksum is right: [pcb] takes it, or there
    is none. *)
Definition udp_deliver s (p iphdr pcb src_port : Z) (broadcast : bool) : option (istate W X U) :=
  if negb (pcb =? 0) then
    b ← u_pcbs (udp_of s) !! pcb;
    if negb (up_recv b =? 0) then udp_recv_call s (up_recv b) (up_recv_arg b) pcb p (cur_src (i_cur s)) src_port
    else i_free custom_free s p
  else
    s ← (if negb broadcast && negb (ip_addr_ismulticast (cur_dest (i_cur s))) then
           '(s, _) ← i_header s p (IPH_HL (i_mem s) iphdr * 4 + UDP_HLEN);
           icmp_dest_unreach stale custom_free netif_output s p ICMP_DUR_PORT
         else Some s);
    i_free custom_free (UDP_STATS_INC c_drop (UDP_STATS_INC c_proterr s)) p.

Definition udp_input s (p inp : Z) : option (istate W X U) :=
  let s := UDP_STATS_INC c_recv s in
  b ← i_pbuf s p;
  let iphdr := payload b in
  '(s, short) ← (if tot_len b <? IPH_HL (i_mem s) iphdr * 4 + UDP_HLEN then Some (s, true)
                 else '(s, r) ← i_header s p (- (IPH_HL (i_mem s) iphdr * 4)); Some (s, negb (r =? 0)));
  if (short : bool) then udp_drop s p c_lenerr
  else
    b ← i_pbuf s p;
    n ← netif_at s inp;
    let udphdr := payload b in
    let dest := cur_dest (i_cur s) in
    let broadcast := negb (ip4_addr_isbroadcast dest n =? 0) in
    let src_port := PP_HTONS (ld16 (i_mem s) (udphdr + UDPH_src)) in
    let dest_port := PP_HTONS (ld16 (i_mem s) (udphdr + UDPH_dest)) in
    '(s, pcb) ← demux s (local_match (nif_netmask n) broadcast dest dest_port) (remote_match (cur_src (i_cur s)) src_port);
    if negb (pcb =? 0) || (nif_ip_addr n =? dest) then
      bad ← (if negb (ld16 (i_mem s) (udphdr + UDPH_chksum) =? 0) then
               c ← inet_chksum_pseudo (i_mem s) (pst (i_p s)) p (cur_src (i_cur s)) dest IP_PROTO_UDP (tot_len b);
               Some (negb (c =? 0))
             else Some false);
      if (bad : bool) then udp_drop s p c_chkerr
      else
        '(s, r) ← i_header s p (- UDP_HLEN);
        if negb (r =? 0) then i_free custom_free (UDP_STATS_INC c_drop s) p
        else udp_deliver s p iphdr pcb src_port broadcast
    else i_free custom_free s p.

(** ** Output *)

(** The packet with room for a UDP header: [p] itself, or a new pbuf chained in
    front of it; 0 if there is none. *)
Definition udp_room s (p : Z) : option (istate W X U * Z) :=
  '(s, r) ← i_header s p UDP_HLEN;
  if negb (r =? 0) then
    '(ps, q) ← pbuf_alloc stale custom_free (i_p s) PBUF_IP UDP_HLEN PBUF_RAM;
    let s := set_i_p s ps in
    if q =? 0 then Some (s, 0)
    else
      b ← i_pbuf s p;
      s ← (if negb (tot_len b =? 0) then ps ← pbuf_chain (i_p s) q p; Some (set_i_p s ps) else Some s);
      Some (s, q)
  else Some (s, p).

(** The header pbuf is released if one was added. *)
Definition free_header s (q p : Z) : option (istate W X U) :=
  if negb (q =? p) then i_free custom_free s q else Some s.

Definition udp_sendto_if s (pcb p dst_ip dst_port np : Z) : option (istate W X U * Z) :=
  n ← netif_at s np;
  b ← u_pcbs (udp_of s) !! pcb;
  '(s, err) ← (if up_local_port b =? 0 then
                 '(u, err) ← udp_bind (udp_of s) pcb (up_local_ip b) (up_local_port b); Some (set_udp s u, err)
               else Some (s, ERR_OK));
  if negb (err =? ERR_OK) then Some (s, err)
  else
    '(s, q) ← udp_room s p;
    if q =? 0 then Some (s, ERR_MEM)
    else
      b ← u_pcbs (udp_of s) !! pcb;
      qb ← i_pbuf s q;
      let udphdr := payload qb in
      let m := st16 (i_mem s) (udphdr + UDPH_src) (PP_HTONS (up_local_port b)) in
      let m := st16 m (udphdr + UDPH_dest) (PP_HTONS dst_port) in
      let m := st16 m (udphdr + UDPH_chksum) 0 in
      let s := i_write s m in
      let src_ip := if up_local_ip b =? IPADDR_ANY then nif_ip_addr n else up_local_ip b in
      if negb (up_local_ip b =? IPADDR_ANY) && negb (up_local_ip b =? nif_ip_addr n) then
        s ← free_header s q p; Some (s, ERR_VAL)
      else
        let m := st16 (i_mem s) (udphdr + UDPH_len) (PP_HTONS (tot_len qb)) in
        let s := i_write s m in
        s ← (if Z.land (up_flags b) UDP_FLAGS_NOCHKSUM =? 0 then
               c ← inet_chksum_pseudo (i_mem s) (pst (i_p s)) q src_ip dst_ip IP_PROTO_UDP (tot_len qb);
               Some (i_write s (st16 (i_mem s) (udphdr + UDPH_chksum) (if c =? 0 then 0xffff else c)))
             else Some s);
        '(s, err) ← ip_output_if stale custom_free netif_output s q src_ip (Some dst_ip) (up_ttl b) (up_tos b) IP_PROTO_UDP np;
        s ← free_header s q p;
        Some (UDP_STATS_INC c_xmit s, err).

Definition udp_sendto s (pcb p dst_ip dst_port : Z) : option (istate W X U * Z) :=
  '(s, np) ← ip_route s dst_ip;
  if np =? 0 then Some (UDP_STATS_INC c_rterr s, ERR_RTE)
  else udp_sendto_if s pcb p dst_ip dst_port np.

Definition udp_send s (pcb p : Z) : option (istate W X U * Z) :=
  b ← u_pcbs (udp_of s) !! pcb;
  udp_sendto s pcb p (up_remote_ip b) (up_remote_port b).

End udp.

End Udp.
