(* ===== verification/UdpPorts.v ===== *)
(** The ports of UDP: what [udp_new_port] picks, and that no two control blocks are
    ever bound to the same address and port. *)

From stdpp Require Import base tactics numbers list gmap.
From Stdlib Require Import ZArith Lia.
From S2P Require Import Prelude ByteOrder Stats Linked PbufDefs NetifDefs InetChksum Allocator Mem Memp PbufMem World Pbuf PbufChains PbufRefs Etharp EtharpTable IpAddr IpDefs IpSend IcmpEcho Udp.

Local Open Scope Z_scope.

Module UdpPorts.
Import Linked Memp Pbuf PbufChains EtharpTable IpAddr IpDefs IpSend IcmpEcho Udp.

(** ** Picking a port *)

(** Some control block of [l] has the port. *)
Definition used (l : list (Z * udp_pcb)) (port : Z) : bool := existsb (fun x => up_local_port x.2 =? port) l.

(** The [k]-th port behind [start] in the dynamic range, cyclically. *)
Definition nth_port (start k : Z) : Z := 0xc000 + (start - 0xc000 + k) mod 16384.

Definition in_range (port : Z) : Prop := 0xc000 <= port <= 0xffff.

Lemma nth_port_range start k : in_range (nth_port start k).
Proof. unfold nth_port, in_range. pose proof (Z.mod_pos_bound (start - 0xc000 + k) 16384 ltac:(lia)). lia. Qed.

Lemma nth_port_0 start : in_range start -> nth_port start 0 = start.
Proof. unfold in_range, nth_port. intros H. rewrite Z.mod_small; lia. Qed.

Lemma nth_port_succ start k :
  (if nth_port start k =? UDP_LOCAL_PORT_RANGE_END then UDP_LOCAL_PORT_RANGE_START else u16 (nth_port start k + 1))
  = nth_port start (k + 1).
Proof.
  pose proof (nth_port_range start k) as Hr. unfold in_range in Hr.
  unfold UDP_LOCAL_PORT_RANGE_END, UDP_LOCAL_PORT_RANGE_START. unfold nth_port in *.
  destruct (Z.eqb_spec (0xc000 + (start - 0xc000 + k) mod 16384) 0xffff) as [E | E].
  - zlia.
  - rewrite u16_id by lia. zlia.
Qed.

(** All the ports are reached. *)
Lemma nth_port_covers start port :
  in_range start -> in_range port -> exists k, 1 <= k <= 16384 /\ nth_port start k = port.
Proof.
  unfold in_range, nth_port. intros Hs Hp.
  exists (if port <=? start then port - start + 16384 else port - start).
  destruct (Z.leb_spec port start); split; try lia.
  - replace (start - 0xc000 + (port - start + 16384)) with (port - 0xc000 + 1 * 16384) by lia.
    rewrite Z.mod_add, Z.mod_small by lia. lia.
  - replace (start - 0xc000 + (port - start)) with (port - 0xc000) by lia. rewrite Z.mod_small by lia. lia.
Qed.

Lemma port_taken_spec u l port : linked up_next (u_pcbs u) (u_head u) l -> port_taken u port = Some (used l port).
Proof.
  intros H. unfold port_taken. rewrite (for_list_spec _ _ _ _ _ _ _ H). f_equal. clear H.
  induction l as [| [q b] l IH]; [done |]. cbn. by destruct (up_local_port b =? port).
Qed.

(** The next port that is free. *)
Definition next_free (l : list (Z * udp_pcb)) (start port : Z) : Prop :=
  exists k, 1 <= k <= 16384 /\ port = nth_port start k /\ used l port = false /\
    forall j, 1 <= j < k -> used l (nth_port start j) = true.

Lemma again_loop u l start d : forall k fuel,
  linked up_next (u_pcbs u) (u_head u) l -> 0 <= k -> k + Z.of_nat d = 16384 -> k < 16384 -> (d < fuel)%nat ->
  (forall j, 1 <= j <= k -> used l (nth_port start j) = true) ->
  exists port r, while fuel (again_body u) (nth_port start k, k) = Some (Some (port, r)) /\ in_range port /\
    ((r = port /\ next_free l start port) \/ (r = 0 /\ forall j, 1 <= j <= 16384 -> used l (nth_port start j) = true)).
Proof.
  induction d as [| d IH]; intros k [| fuel] Hl Hk Hd Hlt Hf Hu; try lia.
  cbn [while again_body]. rewrite nth_port_succ, (port_taken_spec u l _ Hl).
  destruct (used l (nth_port start (k + 1))) eqn:Eu.
  - assert (forall j, 1 <= j <= k + 1 -> used l (nth_port start j) = true) as Hu'.
    { intros j Hj. destruct (Z.eq_dec j (k + 1)) as [-> | ?]; [done | apply Hu; lia]. }
    rewrite u16_id by lia. change (UDP_LOCAL_PORT_RANGE_END - UDP_LOCAL_PORT_RANGE_START) with 16383.
    destruct (Z.ltb_spec 16383 (k + 1)) as [Hend | Hgo].
    + eexists _, 0. split; [done |]. split; [apply nth_port_range |]. right. split; [done |].
      intros j Hj. apply Hu'. lia.
    + destruct d as [| d]; [lia |]. apply IH; [done | lia | lia | lia | lia | done].
  - eexists _, _. split; [done |]. split; [apply nth_port_range |]. left. split; [done |].
    exists (k + 1). split; [lia |]. split; [done |]. split; [done |]. intros j Hj. apply Hu. lia.
Qed.

Lemma new_port_spec u l :
  linked up_next (u_pcbs u) (u_head u) l -> in_range (u_port u) ->
  exists port r, udp_new_port u = Some (set_u_port u port, r) /\ in_range port /\
    ((r = port /\ next_free l (u_port u) port) \/ (r = 0 /\ forall x, in_range x -> used l x = true)).
Proof.
  intros Hl Hp. unfold udp_new_port.
  destruct (again_loop u l (u_port u) (Z.to_nat 16384) 0 (S (Z.to_nat UDP_PORTS)) Hl) as (port & r & Hw & Hr & Hc).
  { lia. } { lia. } { lia. } { change UDP_PORTS with 16384. lia. } { lia. }
  rewrite (nth_port_0 _ Hp) in Hw. rewrite Hw. cbn [mjoin option_join mbind option_bind].
  exists port, r. split; [done |]. split; [done |]. destruct Hc as [Hc | [-> Hall]]; [by left |]. right. split; [done |].
  intros x Hx. destruct (nth_port_covers _ x Hp Hx) as (k & Hk & <-). by apply Hall.
Qed.

(** [udp_new_port] returns, and its result is the first port behind the last
    one picked, going around the dynamic range, that no bound control block uses;
    it is 0 only if every port of the range is in use. *)
Theorem udp_new_port_correct u l :
  linked up_next (u_pcbs u) (u_head u) l -> in_range (u_port u) ->
  exists port r, udp_new_port u = Some (set_u_port u port, r) /\ in_range port /\
    ((r = port /\ next_free l (u_port u) port) \/ (r = 0 /\ forall x, in_range x -> used l x = true)).
Proof. apply new_port_spec. Qed.

(** With fewer control blocks than ports there is a free one. *)
Lemma used_few l : Z.of_nat (length l) < 16384 -> ~ forall x, in_range x -> used l x = true.
Proof.
  intros Hl Hall. set (ports := (fun i => 0xc000 + Z.of_nat i) <$> seq 0 (Z.to_nat 16384)).
  assert (NoDup ports) as Hnd.
  { apply NoDup_fmap_2; [intros x y E; lia | apply NoDup_seq]. }
  assert (ports ⊆ up_local_port <$> l.*2) as Hsub.
  { intros x (i & -> & Hi)%list_elem_of_fmap. apply elem_of_seq in Hi.
    specialize (Hall (0xc000 + Z.of_nat i)). unfold in_range in Hall. specialize (Hall ltac:(lia)).
    unfold used in Hall. apply existsb_exists in Hall as ([q b] & Hin & E). apply Z.eqb_eq in E. cbn in E.
    apply list_elem_of_fmap. exists b. split; [done |]. apply list_elem_of_fmap. exists (q, b).
    split; [done | by apply list_elem_of_In]. }
  pose proof (submseteq_length _ _ (NoDup_submseteq _ _ Hnd Hsub)) as Hle.
  unfold ports in Hle. rewrite !length_fmap, length_seq in Hle. lia.
Qed.

(** ** Bindings *)

(** Two bindings that exclude each other: the same port, and the same address or
    one that stands for all. *)
Definition clash (b c : udp_pcb) : bool :=
  (up_local_port b =? up_local_port c) &&
  ((up_local_ip b =? IPADDR_ANY) || (up_local_ip c =? IPADDR_ANY) || (up_local_ip b =? up_local_ip c)).

(** The state of UDP is sound, with the list [l]: the bound control blocks are on
    the list, each with a port, and no two of them clash. *)
Record udp_ok (u : udp_state) (l : list (Z * udp_pcb)) : Prop := {
  uo_list : linked up_next (u_pcbs u) (u_head u) l;
  uo_port : in_range (u_port u);
  uo_bound : forall q b, (q, b) ∈ l -> 0 < up_local_port b < 65536;
  uo_apart : forall q b q' b', (q, b) ∈ l -> (q', b') ∈ l -> q <> q' -> clash b b' = false;
  uo_rest : forall q b, u_pcbs u !! q = Some b -> q ∉ l.*1 -> up_local_port b = 0
}.

Lemma clash_sym b c : clash b c = clash c b.
Proof.
  unfold clash. rewrite (Z.eqb_sym (up_local_port b)), (Z.eqb_sym (up_local_ip b) (up_local_ip c)).
  f_equal. f_equal. apply orb_comm.
Qed.

(** Another control block clashes with a binding of [pcb]. *)
Definition clashing (l : list (Z * udp_pcb)) (pcb ip port : Z) : bool :=
  existsb (fun x => negb (pcb =? x.1) && ((up_local_port x.2 =? port) &&
    ((up_local_ip x.2 =? IPADDR_ANY) || (ip =? IPADDR_ANY) || (up_local_ip x.2 =? ip)))) l.

Lemma bind_loop pcb ip port l rb :
  fold_until (bind_step pcb ip port) Some rb l =
    if clashing l pcb ip port then None else Some (rb || bool_decide (pcb ∈ l.*1)).
Proof.
  revert rb. induction l as [| [q b] l IH]; intros rb; cbn [fold_until]; [cbn; by rewrite orb_false_r |].
  change (clashing ((q, b) :: l) pcb ip port) with (negb (pcb =? q) && ((up_local_port b =? port) &&
    ((up_local_ip b =? IPADDR_ANY) || (ip =? IPADDR_ANY) || (up_local_ip b =? ip))) || clashing l pcb ip port).
  unfold bind_step. destruct (Z.eqb_spec pcb q) as [<- | Hne]; cbn [negb andb orb].
  - rewrite IH. destruct (clashing l pcb ip port); [done |]. f_equal. cbn [fmap list_fmap].
    rewrite (bool_decide_true (pcb ∈ pcb :: _)) by (apply elem_of_cons; by left). by rewrite orb_true_r.
  - destruct ((up_local_port b =? port) && _); [done |]. rewrite IH. cbn [orb]. destruct (clashing l pcb ip port); [done |].
    do 2 f_equal. apply bool_decide_ext. cbn. rewrite elem_of_cons. tauto.
Qed.

Lemma clashing_free l pcb ip port c :
  clashing l pcb ip port = false -> up_local_ip c = ip -> up_local_port c = port ->
  forall q b, (q, b) ∈ l -> q <> pcb -> clash b c = false.
Proof.
  intros Hc <- <- q b Hin Hne. destruct (clash b c) eqn:E; [| done].
  assert (clashing l pcb (up_local_ip c) (up_local_port c) = true) as Ht; [| congruence].
  apply existsb_exists. exists (q, b). split; [by apply list_elem_of_In |]. cbn.
  rewrite (proj2 (Z.eqb_neq pcb q)) by congruence. exact E.
Qed.

Lemma clashing_unbound u l pcb ip : udp_ok u l -> clashing l pcb ip 0 = false.
Proof.
  intros Hok. unfold clashing. apply not_true_iff_false. intros ([q b] & Hin & E)%existsb_exists.
  apply list_elem_of_In in Hin. pose proof (uo_bound _ _ Hok q b Hin) as Hb. cbn in E.
  rewrite (proj2 (Z.eqb_neq (up_local_port b) 0)), andb_false_r in E by lia. done.
Qed.

(** The control block [b] in its place on the list, in front if it was not on it. *)
Definition place (u : udp_state) (l : list (Z * udp_pcb)) (pcb : Z) (b : udp_pcb) : udp_state :=
  if bool_decide (pcb ∈ l.*1) then set_u_pcb u pcb b
  else set_u_head (set_u_pcb u pcb (set_up_next b (u_head u))) pcb.
Definition place_l (u : udp_state) (l : list (Z * udp_pcb)) (pcb : Z) (b : udp_pcb) : list (Z * udp_pcb) :=
  if bool_decide (pcb ∈ l.*1) then list_set pcb b l else (pcb, set_up_next b (u_head u)) :: l.

Lemma place_ok u l pcb b0 b :
  udp_ok u l -> u_pcbs u !! pcb = Some b0 -> pcb <> 0 -> up_next b = up_next b0 -> 0 < up_local_port b < 65536 ->
  clashing l pcb (up_local_ip b) (up_local_port b) = false -> udp_ok (place u l pcb b) (place_l u l pcb b).
Proof.
  intros Hok Hb0 Hp Hn Hport Hcl. pose proof Hok as [Hl Hr Hbd Hap Hrest].
  pose proof (fun c Hi Ho => clashing_free l pcb _ _ c Hcl Hi Ho) as Hfree. unfold place, place_l.
  case_bool_decide as Hin; split; cbn.
  - by eapply linked_set.
  - done.
  - intros q c [(-> & -> & _) | [_ Hq]]%list_set_elem; [done | by eapply Hbd].
  - intros q c q' c' [(-> & -> & _) | [Hne Hq]]%list_set_elem [(-> & -> & _) | [Hne' Hq']]%list_set_elem Hd; [done | | |].
    + rewrite clash_sym. by apply (Hfree b eq_refl eq_refl q').
    + by apply (Hfree b eq_refl eq_refl q).
    + by apply (Hap q c q' c').
  - intros q c Hq Hni. rewrite list_set_fst in Hni. apply lookup_insert_Some in Hq as [[<- _] | [_ Hq]]; [done |].
    by apply (Hrest q).
  - by apply linked_push with (p := u_head u).
  - done.
  - intros q c [[= -> ->] | Hq]%elem_of_cons; [done | by eapply Hbd].
  - intros q c q' c' [[= -> ->] | Hq]%elem_of_cons [[= -> ->] | Hq']%elem_of_cons Hd; [done | | |].
    + rewrite clash_sym. by apply (Hfree (set_up_next b (u_head u)) eq_refl eq_refl q').
    + by apply (Hfree (set_up_next b (u_head u)) eq_refl eq_refl q).
    + by apply (Hap q c q' c').
  - intros q c Hq Hni. apply not_elem_of_cons in Hni as [Hne Hni]. rewrite lookup_insert_ne in Hq by done.
    by apply (Hrest q).
Qed.

(** Changes that touch neither the link nor the binding. *)
Lemma touch_ok u l pcb b0 b :
  udp_ok u l -> u_pcbs u !! pcb = Some b0 -> up_next b = up_next b0 -> up_local_ip b = up_local_ip b0 ->
  up_local_port b = up_local_port b0 -> udp_ok (set_u_pcb u pcb b) (list_set pcb b l).
Proof.
  intros [Hl Hr Hbd Hap Hrest] Hb0 Hn Hip Hpt.
  assert (forall q c, (q, c) ∈ list_set pcb b l -> exists c0, (q, c0) ∈ l /\ up_local_ip c = up_local_ip c0 /\
    up_local_port c = up_local_port c0) as Hback.
  { intros q c [(-> & -> & Hin) | [_ Hin]]%list_set_elem; [| by exists c]. exists b0.
    split; [by eapply linked_elem | done]. }
  split; cbn; [by eapply linked_set | done | | |].
  - intros q c (c0 & Hin & _ & ->)%Hback. by eapply Hbd.
  - intros q c q' c' (c0 & Hin & E1 & E2)%Hback (c0' & Hin' & E1' & E2')%Hback Hne.
    unfold clash. rewrite E1, E2, E1', E2'. by apply (Hap q c0 q' c0').
  - intros q c Hq Hni. rewrite list_set_fst in Hni. apply lookup_insert_Some in Hq as [[<- <-] | [_ Hq]]; [| by apply (Hrest q)].
    rewrite Hpt. by apply (Hrest pcb).
Qed.

Lemma used_set l q b b0 : (q, b0) ∈ l -> NoDup l.*1 -> up_local_port b = up_local_port b0 ->
  forall port, used (list_set q b l) port = used l port.
Proof.
  intros Hin Hnd Hp port. unfold used, list_set. induction l as [| [x c] l IH]; [done |]. cbn.
  cbn in Hnd. apply NoDup_cons in Hnd as [Hni Hnd]. apply elem_of_cons in Hin as [[= <- <-] | Hin].
  - rewrite decide_True by done. cbn. rewrite Hp. f_equal. f_equal. by apply (list_set_notin q b).
  - rewrite decide_False; [by rewrite IH |]. intros ->. apply Hni. apply list_elem_of_fmap. by exists (q, b0).
Qed.

Lemma bind_check u l pcb ip port :
  linked up_next (u_pcbs u) (u_head u) l ->
  for_list up_next (u_pcbs u) (bind_step pcb ip port) Some false (u_head u) =
    Some (if clashing l pcb ip port then None else Some (bool_decide (pcb ∈ l.*1))).
Proof. intros Hl. by rewrite (for_list_spec _ _ _ _ _ _ _ Hl), bind_loop. Qed.

(** [udp_bind]: refused when it would clash, else done. *)
Lemma bind_spec u l pcb b ip port :
  udp_ok u l -> u_pcbs u !! pcb = Some b -> Z.of_nat (length l) < 16384 ->
  if clashing l pcb ip port then udp_bind u pcb ip port = Some (u, ERR_USE)
  else exists x port', udp_bind u pcb ip port = Some (place (set_u_port u x) l pcb (set_up_local b ip port'), ERR_OK) /\
    in_range x /\ (if port =? 0 then x = port' /\ next_free l (u_port u) port' else x = u_port u /\ port' = port).
Proof.
  intros Hok Hb Hfew. pose proof Hok as [Hl Hr _ _ _]. unfold udp_bind. rewrite (bind_check _ _ _ _ _ Hl).
  cbn [mbind option_bind]. destruct (clashing l pcb ip port); [done |]. rewrite Hb. cbn [mbind option_bind].
  set (b1 := set_up_local b ip (up_local_port b)). set (u1 := set_u_pcb u pcb b1).
  assert (forall x port', port' <> 0 ->
    (if port' =? 0 then Some (set_u_port u1 x, ERR_USE)
     else u_pcbs (set_u_port u1 x) !! pcb ≫= (fun b =>
        let b := set_up_local b (up_local_ip b) port' in
        if bool_decide (pcb ∈ l.*1) then Some (set_u_pcb (set_u_port u1 x) pcb b, ERR_OK)
        else Some (set_u_head (set_u_pcb (set_u_port u1 x) pcb (set_up_next b (u_head (set_u_port u1 x)))) pcb, ERR_OK)))
    = Some (place (set_u_port u x) l pcb (set_up_local b ip port'), ERR_OK)) as Hfin.
  { intros x port' Hp. rewrite (proj2 (Z.eqb_neq port' 0)) by done. cbn [u_pcbs set_u_port u1 set_u_pcb set_u_pcbs].
    rewrite lookup_insert_eq. cbn [mbind option_bind]. unfold place.
    destruct (bool_decide (pcb ∈ l.*1)); unfold set_u_pcb, set_u_pcbs, set_u_head, set_u_port; cbn; by rewrite insert_insert_eq. }
  destruct (Z.eqb_spec port 0) as [-> | Hp].
  - assert (linked up_next (u_pcbs u1) (u_head u1) (list_set pcb b1 l)) as Hl1 by by eapply linked_set.
    destruct (new_port_spec u1 _ Hl1 Hr) as (x & r & -> & Hx & Hc). cbn [mbind option_bind].
    assert (forall y, used (list_set pcb b1 l) y = used l y) as Hu.
    { destruct (decide (pcb ∈ l.*1)) as [Hin | Hni]; [| intros y; by rewrite list_set_notin].
      apply (used_set l pcb b1 b); [by eapply linked_elem | by eapply linked_NoDup | done]. }
    destruct Hc as [[-> (k & Hk & Ek & Hfree & Hbefore)] | [_ Hall]].
    + exists x, x. split; [apply Hfin; unfold in_range in Hx; lia |]. split; [done |]. split; [done |].
      exists k. split; [done |]. split; [done |]. rewrite Hu in Hfree. split; [done |].
      intros j Hj. rewrite <- Hu. by apply Hbefore.
    + exfalso. apply (used_few l Hfew). intros y Hy. rewrite <- Hu. by apply Hall.
  - cbn [mbind option_bind]. exists (u_port u), port. split; [| done]. by apply (Hfin (u_port u)).
Qed.

Lemma bound_ok u l pcb b ip port x port' :
  udp_ok u l -> u_pcbs u !! pcb = Some b -> pcb <> 0 -> 0 <= port < 65536 -> clashing l pcb ip port = false ->
  in_range x -> (if port =? 0 then x = port' /\ next_free l (u_port u) port' else x = u_port u /\ port' = port) ->
  udp_ok (place (set_u_port u x) l pcb (set_up_local b ip port')) (place_l u l pcb (set_up_local b ip port')).
Proof.
  intros Hok Hb Hp Hport Hcl Hx Hc.
  assert (udp_ok (set_u_port u x) l) as Hok' by by destruct Hok.
  change (place_l u) with (place_l (set_u_port u x)). apply (place_ok _ _ _ b); [done | done | done | done | |].
  - cbn. destruct (Z.eqb_spec port 0); destruct Hc as [-> Hc]; unfold in_range in Hx; lia.
  - cbn. destruct (Z.eqb_spec port 0) as [-> | Hne]; destruct Hc as [-> Hc]; [| by subst].
    destruct Hc as (k & _ & _ & Hfree & _). apply not_true_iff_false. intros ([q c] & Hin & E)%existsb_exists.
    cbn in E. apply andb_true_iff in E as [_ E]. apply andb_true_iff in E as [E _].
    assert (used l port' = true); [| congruence]. apply existsb_exists. exists (q, c). done.
Qed.

Lemma in_list_loop (l : list (Z * udp_pcb)) pcb :
  fold_until (fun (_ : ()) q _ => if pcb =? q then inr true else inl tt) (fun _ => false) tt l = bool_decide (pcb ∈ l.*1).
Proof.
  induction l as [| [q b] l IH]; [done |]. cbn [fold_until]. destruct (Z.eqb_spec pcb q) as [<- | Hne].
  - symmetry. apply bool_decide_true. cbn. apply elem_of_cons. by left.
  - rewrite IH. apply bool_decide_ext. cbn. rewrite elem_of_cons. tauto.
Qed.

(** What connecting changes besides the binding. *)
Definition connected (b : udp_pcb) (ip port : Z) : udp_pcb := set_up_remote b ip port (Z.lor (up_flags b) UDP_FLAGS_CONNECTED).

Lemma connect_bound u l pcb b ip port :
  udp_ok u l -> u_pcbs u !! pcb = Some b -> up_local_port b <> 0 ->
  udp_connect u pcb ip port = Some (set_u_pcb u pcb (connected b ip port), ERR_OK) /\
  udp_ok (set_u_pcb u pcb (connected b ip port)) (list_set pcb (connected b ip port) l).
Proof.
  intros Hok Hb Hp. assert (udp_ok (set_u_pcb u pcb (connected b ip port)) (list_set pcb (connected b ip port) l)) as Hok'
    by by eapply touch_ok. split; [| done].
  assert (pcb ∈ l.*1) as Hin by (destruct (decide (pcb ∈ l.*1)); [done | by destruct Hp; eapply (uo_rest _ _ Hok)]).
  unfold udp_connect. rewrite Hb. cbn [mbind option_bind]. rewrite (proj2 (Z.eqb_neq _ 0)) by done.
  cbn [mbind option_bind]. cbn [Z.eqb negb ERR_OK]. rewrite Hb. cbn [mbind option_bind]. fold (connected b ip port).
  rewrite (for_list_spec _ _ _ _ _ _ _ (uo_list _ _ Hok')), in_list_loop, list_set_fst, bool_decide_true by done. done.
Qed.

Lemma connect_spec u l pcb b ip port :
  udp_ok u l -> u_pcbs u !! pcb = Some b -> pcb <> 0 -> Z.of_nat (length l) < 16384 ->
  exists u' l', udp_connect u pcb ip port = Some (u', ERR_OK) /\ udp_ok u' l' /\
    exists b', u_pcbs u' = <[pcb := b']> (u_pcbs u) /\ up_remote_ip b' = ip /\ up_remote_port b' = port.
Proof.
  intros Hok Hb Hp Hfew. destruct (Z.eq_dec (up_local_port b) 0) as [E0 | Hne].
  2: { destruct (connect_bound u l pcb b ip port Hok Hb Hne) as [Hc Hok']. eexists _, _. split; [exact Hc |].
       split; [exact Hok' |]. by exists (connected b ip port). }
  pose proof (bind_spec u l pcb b (up_local_ip b) 0 Hok Hb Hfew) as Hs.
  rewrite (clashing_unbound u l pcb _ Hok) in Hs. destruct Hs as (x & port' & Hbind & Hx & Hc).
  pose proof (bound_ok u l pcb b (up_local_ip b) 0 x port' Hok Hb Hp ltac:(lia) (clashing_unbound u l pcb _ Hok) Hx Hc) as Hok1.
  set (b1 := set_up_local b (up_local_ip b) port') in *. set (u1 := place (set_u_port u x) l pcb b1) in *.
  assert (exists b2, u_pcbs u1 = <[pcb := b2]> (u_pcbs u) /\ up_local_port b2 = port') as (b2 & Hu1 & Ep2).
  { unfold u1, place. case_bool_decide; [by exists b1 |]. by exists (set_up_next b1 (u_head (set_u_port u x))). }
  assert (u_pcbs u1 !! pcb = Some b2) as Hb2 by by rewrite Hu1, lookup_insert_eq.
  assert (up_local_port b2 <> 0) as Hp2 by (rewrite Ep2; cbn in Hc; destruct Hc as [-> _]; unfold in_range in Hx; lia).
  destruct (connect_bound u1 _ pcb b2 ip port Hok1 Hb2 Hp2) as [Hconn Hok2].
  eexists _, _. split; [| split; [exact Hok2 |]].
  - unfold udp_connect in Hconn |- *. rewrite Hb. cbn [mbind option_bind]. rewrite E0. cbn [Z.eqb].
    rewrite Hbind. cbn [mbind option_bind]. rewrite Hb2 in Hconn. cbn [mbind option_bind] in Hconn.
    rewrite (proj2 (Z.eqb_neq _ 0)) in Hconn by done. exact Hconn.
  - exists (connected b2 ip port). split; [| done]. cbn. by rewrite Hu1, insert_insert_eq.
Qed.

(** ** Removing *)

Lemma unlink_none m pcb p l : linked up_next m p l -> pcb ∉ l.*1 ->
  forall fuel, (length l < fuel)%nat -> while fuel (unlink_body pcb) (m, p) = Some (Some m).
Proof.
  induction 1 as [| p b l Hp Hb H IH]; intros Hni [| fuel] Hf; cbn in Hf; try lia; [done |].
  cbn [while unlink_body]. rewrite (proj2 (Z.eqb_neq p 0)) by done. rewrite Hb.
  cbn in Hni. apply not_elem_of_cons in Hni as [Hne Hni].
  replace (negb (up_next b =? 0) && (up_next b =? pcb)) with false; [apply IH; [done | lia] |].
  symmetry. apply not_true_iff_false. intros [E1 E2%Z.eqb_eq]%andb_true_iff.
  rewrite E2 in H, E1. apply linked_inv in H as [[E _] | (_ & c & l' & -> & _ & _)].
  - rewrite E in E1. done.
  - apply Hni. cbn. apply elem_of_cons. by left.
Qed.

Lemma unlink_cut m pcb b l2 l1 : forall p r c fuel,
  linked up_next m p (l1 ++ (r, c) :: (pcb, b) :: l2) -> (length l1 + length l2 + 2 < fuel)%nat ->
  while fuel (unlink_body pcb) (m, p) = Some (Some (<[r := set_up_next c (up_next b)]> m)).
Proof.
  induction l1 as [| [q d] l1 IH]; intros p r c [| fuel] H Hf; cbn in Hf; try lia;
    pose proof (linked_NoDup _ _ _ _ H) as Hnd; pose proof H as H0; cbn [app] in H;
    apply linked_inv in H as [[_ ?] | (Hp & a & ? & [= <- -> <-] & Ha & H)]; try done;
    cbn [while unlink_body]; rewrite (proj2 (Z.eqb_neq _ 0)) by done; rewrite Ha.
  - pose proof H as H1. apply linked_inv in H1 as [[_ ?] | (Hq & ? & ? & [= E -> <-] & Hb & H1)]; [done |].
    rewrite <- E in *. rewrite (proj2 (Z.eqb_neq pcb 0)) by done. rewrite Z.eqb_refl, Hb. cbn [negb andb].
    cbn in Hnd. apply NoDup_cons in Hnd as [Hr [Hq2 Hnd]%NoDup_cons].
    apply (unlink_none _ _ _ l2); [| done | lia]. apply linked_insert_ne; [done |].
    intros Hin. apply Hr. apply elem_of_cons. by right.
  - replace (negb (up_next a =? 0) && (up_next a =? pcb)) with false; [apply IH; [done | lia] |].
    symmetry. apply not_true_iff_false. intros [_ E%Z.eqb_eq]%andb_true_iff.
    pose proof (linked_NoDup _ _ _ _ H) as Hnd2. rewrite E in H.
    destruct l1 as [| [y e] l1]; cbn [app] in *; apply linked_inv in H as [[_ ?] | (_ & ? & ? & [= <- _] & _ & _)]; try done;
      rewrite ?fmap_app in Hnd2; cbn in Hnd2; apply NoDup_cons in Hnd2 as [Hx _]; apply Hx.
    + apply elem_of_cons. by left.
    + rewrite fmap_app. apply elem_of_app. right. cbn. apply elem_of_cons. right. apply elem_of_cons. by left.
Qed.

(** The state after [udp_remove] took [pcb] off the list and released it. *)
Definition unlinked (u : udp_state) (pcb : Z) : option udp_state :=
  u' ← (if u_head u =? pcb then b ← u_pcbs u !! pcb; Some (set_u_head u (up_next b))
        else m ← mjoin (while (S (size (u_pcbs u))) (unlink_body pcb) (u_pcbs u, u_head u)); Some (set_u_pcbs u m));
  Some (set_u_pcbs u' (delete pcb (u_pcbs u'))).

(** What is left of the bindings when control blocks go or change their links. *)
Lemma remaining_ok u l u' l' :
  udp_ok u l -> linked up_next (u_pcbs u') (u_head u') l' -> u_port u' = u_port u ->
  (forall q c, (q, c) ∈ l' -> exists d, (q, d) ∈ l /\ up_local_ip c = up_local_ip d /\ up_local_port c = up_local_port d) ->
  (forall q c, u_pcbs u' !! q = Some c -> q ∉ l'.*1 -> u_pcbs u !! q = Some c /\ q ∉ l.*1) -> udp_ok u' l'.
Proof.
  intros [_ Hr Hbd Hap Hrest] Hl' Hp Hback Hout. split; [done | by rewrite Hp | | |].
  - intros q c (d & Hin & _ & ->)%Hback. by eapply Hbd.
  - intros q c q' c' (d & Hin & E1 & E2)%Hback (d' & Hin' & E1' & E2')%Hback Hne.
    unfold clash. rewrite E1, E2, E1', E2'. by apply (Hap q d q' d').
  - intros q c Hq Hni. destruct (Hout q c Hq Hni) as [Hq' Hni']. by apply (Hrest q).
Qed.

Lemma unlink_first u l pcb b :
  udp_ok u l -> u_pcbs u !! pcb = Some b -> pcb <> 0 -> u_head u = pcb ->
  exists l', udp_ok (set_u_pcbs (set_u_head u (up_next b)) (delete pcb (u_pcbs u))) l'.
Proof.
  intros Hok Hb Hp <-. pose proof Hok as [Hl _ _ _ _]. pose proof (linked_NoDup _ _ _ _ Hl) as Hnd.
  apply linked_inv in Hl as [[? _] | (_ & a & l' & -> & Ha & Hl)]; [done |]. rewrite Hb in Ha. injection Ha as <-.
  cbn in Hnd. apply NoDup_cons in Hnd as [Hni Hnd]. exists l'. apply (remaining_ok u _ _ _ Hok); cbn.
  - by apply linked_delete_ne.
  - done.
  - intros q c Hin. exists c. split; [by apply elem_of_cons; right | done].
  - intros q c [Hne Hq]%lookup_delete_Some Hq'. split; [done |]. apply not_elem_of_cons. by split.
Qed.

Lemma unlink_inner u l1 r c pcb b l2 :
  udp_ok u (l1 ++ (r, c) :: (pcb, b) :: l2) ->
  exists l', udp_ok (set_u_pcbs u (delete pcb (<[r := set_up_next c (up_next b)]> (u_pcbs u)))) l'.
Proof.
  intros Hok. pose proof Hok as [Hl _ _ _ _]. pose proof (linked_NoDup _ _ _ _ Hl) as Hnd.
  pose proof (linked_cut _ _ _ _ _ _ _ _ _ (set_up_next c (up_next b)) Hl eq_refl) as Hl'.
  rewrite fmap_app in Hnd. cbn in Hnd. apply NoDup_app in Hnd as (_ & Hd & Hnd).
  apply NoDup_cons in Hnd as [Hr [Hp _]%NoDup_cons].
  exists (l1 ++ (r, set_up_next c (up_next b)) :: l2). apply (remaining_ok u _ _ _ Hok); cbn.
  - apply linked_delete_ne; [done |]. rewrite fmap_app. cbn. rewrite elem_of_app, elem_of_cons.
    intros [H | [-> | H]]; [| apply Hr, elem_of_cons; by left | done].
    apply (Hd _ H). apply elem_of_cons. right. apply elem_of_cons. by left.
  - done.
  - intros q d. rewrite elem_of_app, elem_of_cons. intros [H | [[= -> ->] | H]].
    + exists d. split; [apply elem_of_app; by left | done].
    + exists c. split; [apply elem_of_app; right; apply elem_of_cons; by left | done].
    + exists d. split; [apply elem_of_app; right; apply elem_of_cons; right; apply elem_of_cons; by right | done].
  - intros q d [Hne Hq]%lookup_delete_Some Hq'. rewrite fmap_app in Hq' |- *. cbn in Hq' |- *.
    rewrite elem_of_app, elem_of_cons in Hq'. rewrite elem_of_app, !elem_of_cons.
    rewrite lookup_insert_ne in Hq by (intros ->; tauto). split; [done |]. intros [H | [H | [H | H]]]; [tauto | tauto | | tauto].
    by rewrite H in Hne.
Qed.

Lemma unlink_spec u l pcb b :
  udp_ok u l -> u_pcbs u !! pcb = Some b -> pcb <> 0 ->
  exists u' l', unlinked u pcb = Some u' /\ udp_ok u' l' /\ dom (u_pcbs u') = dom (u_pcbs u) ∖ {[pcb]}.
Proof.
  intros Hok Hb Hp. pose proof Hok as [Hl _ _ _ _]. pose proof (linked_size _ _ _ _ Hl) as Hsz. unfold unlinked.
  destruct (Z.eqb_spec (u_head u) pcb) as [E | Hne].
  { rewrite Hb. cbn [mbind option_bind]. destruct (unlink_first u l pcb b Hok Hb Hp E) as [l' Hok'].
    eexists _, l'. split; [done |]. split; [exact Hok' |]. apply dom_delete_L. }
  destruct (decide (pcb ∈ l.*1)) as [Hin | Hni].
  - pose proof (linked_elem _ _ _ _ _ _ Hl Hin Hb) as (k & l2 & ->)%list_elem_of_split.
    destruct k as [| [r c] l1 IHk] using rev_ind; [| clear IHk].
    { apply linked_inv in Hl as [[_ ?] | (_ & ? & ? & [= E _ _] & _)]; [done | congruence]. }
    rewrite <- app_assoc in Hok, Hl, Hsz. cbn [app] in Hok, Hl, Hsz.
    rewrite (unlink_cut _ pcb b l2 l1 _ r c _ Hl) by (rewrite length_app in Hsz; cbn in Hsz; lia).
    cbn [mjoin option_join mbind option_bind]. destruct (unlink_inner u l1 r c pcb b l2 Hok) as [l' Hok'].
    eexists _, l'. split; [done |]. split; [exact Hok' |]. cbn. rewrite dom_delete_L, dom_insert_lookup_L; [done |]. exists c.
    apply (linked_lookup _ _ _ _ _ _ Hl). apply elem_of_app. right. apply elem_of_cons. by left.
  - rewrite (unlink_none _ pcb _ l Hl Hni) by lia. cbn [mjoin option_join mbind option_bind].
    eexists _, l. split; [done |]. split; [| cbn; apply dom_delete_L]. apply (remaining_ok u _ _ _ Hok); cbn.
    + by apply linked_delete_ne.
    + done.
    + intros q c Hq. by exists c.
    + by intros q c [_ Hq]%lookup_delete_Some Hq'.
Qed.

(** ** Histories *)

Section history.
Context {W X U : Type} `{LW : MemSystemLaws W} `{HU : HasUdp U}.

Implicit Type s : istate W X U.

(** The calls of an application. *)
Inductive udp_op :=
| Op_new | Op_bind (pcb ipaddr port : Z) | Op_connect (pcb ipaddr port : Z) | Op_disconnect (pcb : Z)
| Op_recv (pcb recv recv_arg : Z) | Op_remove (pcb : Z).

Definition run_op s (op : udp_op) : option (istate W X U) :=
  match op with
  | Op_new => Some (udp_new s).1
  | Op_bind pcb ip port => '(u, _) ← udp_bind (udp_of s) pcb ip port; Some (set_udp s u)
  | Op_connect pcb ip port => '(u, _) ← udp_connect (udp_of s) pcb ip port; Some (set_udp s u)
  | Op_disconnect pcb => u ← udp_disconnect (udp_of s) pcb; Some (set_udp s u)
  | Op_recv pcb f a => u ← udp_recv (udp_of s) pcb f a; Some (set_udp s u)
  | Op_remove pcb => udp_remove s pcb
  end.

Definition run_ops s (ops : list udp_op) : option (istate W X U) := foldl (fun o op => o ≫= fun s' => run_op s' op) (Some s) ops.

(** The arguments are live control blocks and ports of 16 bits. *)
Definition op_ok (u : udp_state) (op : udp_op) : Prop :=
  match op with
  | Op_new => True
  | Op_bind pcb _ port => is_Some (u_pcbs u !! pcb) /\ 0 <= port < 65536
  | Op_connect pcb _ _ | Op_disconnect pcb | Op_recv pcb _ _ | Op_remove pcb => is_Some (u_pcbs u !! pcb)
  end.

Inductive allowed : istate W X U -> list udp_op -> Prop :=
| allowed_nil s : allowed s []
| allowed_cons s op ops : op_ok (udp_of s) op -> (forall s', run_op s op = Some s' -> allowed s' ops) -> allowed s (op :: ops).

(** The same as a function. *)
Definition op_okb (u : udp_state) (op : udp_op) : bool :=
  match op with
  | Op_new => true
  | Op_bind pcb _ port => bool_decide (is_Some (u_pcbs u !! pcb)) && (0 <=? port) && (port <? 65536)
  | Op_connect pcb _ _ | Op_disconnect pcb | Op_recv pcb _ _ | Op_remove pcb => bool_decide (is_Some (u_pcbs u !! pcb))
  end.

Fixpoint allowed_b s (ops : list udp_op) : bool :=
  match ops with
  | [] => true
  | op :: ops => op_okb (udp_of s) op && match run_op s op with Some s' => allowed_b s' ops | None => true end
  end.

Lemma allowed_b_sound ops : forall s, allowed_b s ops = true -> allowed s ops.
Proof.
  induction ops as [| op ops IH]; intros s Ha; [constructor |]. cbn [allowed_b] in Ha. apply andb_true_iff in Ha as [Hop Ha].
  constructor.
  - destruct op; cbn [op_okb op_ok] in *; try done; try by apply bool_decide_eq_true in Hop.
    apply andb_true_iff in Hop as [Hop ?%Z.ltb_lt]. apply andb_true_iff in Hop as [Hop ?%Z.leb_le].
    by apply bool_decide_eq_true in Hop.
  - intros s' E. rewrite E in Ha. by apply IH.
Qed.

(** Control blocks are live elements of their pool. *)
Record usys s L : Prop := {
  us_sys : psys (i_p s) L;
  us_pcb : forall q, is_Some (u_pcbs (udp_of s) !! q) -> is_Some (L !! q) /\ ms_pool q = Some MEMP_UDP_PCB
}.

Lemma udp_of_set s u : udp_of (set_udp s u) = u.
Proof. apply get_put_udp. Qed.

Lemma usys_live s L q b : usys s L -> u_pcbs (udp_of s) !! q = Some b -> q <> 0.
Proof.
  intros [Hs Hq] Hb. destruct (Hq q ltac:(by exists b)) as [[n Hn] _].
  pose proof (ro_region _ (live_ok (LiveRegions := ms_regions) _ _ (ps_live _ _ Hs)) q n Hn). lia.
Qed.

Lemma usys_pcbs s L u : usys s L -> dom (u_pcbs u) = dom (u_pcbs (udp_of s)) -> usys (set_udp s u) L.
Proof.
  intros [Hs Hq] Hd. split; [done |]. rewrite udp_of_set. intros q Hx. apply Hq.
  apply elem_of_dom. rewrite <- Hd. by apply elem_of_dom.
Qed.

(** One call: it returns, the bindings stay sound, and at most one control block is
    added. *)
Definition good s L l n : Prop := usys s L /\ udp_ok (udp_of s) l /\ (size (u_pcbs (udp_of s)) <= n)%nat.

Lemma good_few s L l n : good s L l n -> Z.of_nat n < 16384 -> Z.of_nat (length l) < 16384.
Proof. intros (_ & Hok & Hn) Hlt. pose proof (linked_size _ _ _ _ (uo_list _ _ Hok)). lia. Qed.

Lemma good_update s L l n u l' :
  good s L l n -> dom (u_pcbs u) = dom (u_pcbs (udp_of s)) -> udp_ok u l' -> good (set_udp s u) L l' n.
Proof.
  intros (Hs & _ & Hn) Hd Hok. split; [by apply usys_pcbs |]. rewrite udp_of_set. split; [done |].
  by rewrite <- size_dom, Hd, size_dom.
Qed.

Lemma new_good s L l n : good s L l n -> exists L' l', good (udp_new s).1 L' l' (S n).
Proof.
  intros (Hs & Hok & Hn). pose proof Hs as [Hps Hq]. unfold udp_new.
  destruct (memp_spec (i_p s) L MEMP_UDP_PCB Hps) as (w & pcb & -> & _ & [[-> Hl] | (Hp & Hpool & HL & _ & _ & k & _ & _ & Hl)]).
  - cbn [Z.eqb negb fst]. exists L, l. split; [by split | split; [done | etrans; [exact Hn | lia]]].
  - rewrite (proj2 (Z.eqb_neq pcb 0)) by done. cbn [negb fst]. exists (<[pcb := k]> L), l.
    assert (u_pcbs (udp_of s) !! pcb = None) as Hfresh.
    { destruct (u_pcbs (udp_of s) !! pcb) eqn:E; [| done]. destruct (Hq pcb ltac:(by eexists)) as [[? ?] _]. congruence. }
    assert (pcb ∉ l.*1) as Hni.
    { intros ([q b] & -> & Hin)%list_elem_of_fmap. destruct (linked_lookup _ _ _ _ _ _ (uo_list _ _ Hok) Hin). cbn in *. congruence. }
    split; [split |].
    + apply (psys_regions (i_p s) w L); [done | | done]. intros q b Hb. apply lookup_insert_ne. intros <-.
      destruct (ps_pbuf _ _ Hps pcb b Hb) as (_ & _ & _ & _ & ? & ? & _). congruence.
    + rewrite udp_of_set. cbn. intros q [b [[<- _] | [Hne Hb]]%lookup_insert_Some].
      * split; [rewrite lookup_insert_eq; by eexists | done].
      * destruct (Hq q ltac:(by exists b)) as [? ?]. by rewrite lookup_insert_ne.
    + rewrite udp_of_set. split; [| cbn; rewrite map_size_insert_None by done; apply le_n_S; exact Hn].
      destruct Hok as [Hll Hr Hbd Hap Hrest]. split; [by apply linked_insert_ne | done | done | done |].
      intros q b Hb Hn'. cbn in Hb. apply lookup_insert_Some in Hb as [[<- <-] | [_ Hb]]; [done | by apply (Hrest q)].
Qed.

Lemma remove_good s L l n pcb b :
  good s L l n -> u_pcbs (udp_of s) !! pcb = Some b -> exists s' L' l', udp_remove s pcb = Some s' /\ good s' L' l' n.
Proof.
  intros (Hs & Hok & Hn) Hb. pose proof Hs as [Hps Hq]. pose proof (usys_live _ _ _ _ Hs Hb) as Hp.
  destruct (Hq pcb ltac:(by exists b)) as [[k Hk] Hpool].
  destruct (release_spec (Releases := ms_memp_free_law MEMP_UDP_PCB) (pw (i_p s)) L pcb k (ps_live _ _ Hps) Hk Hpool) as [Hl _].
  destruct (unlink_spec _ l pcb b Hok Hb Hp) as (u' & l' & Hu & Hok' & Hd).
  set (s' := set_i_w s (ms_memp_free (pw (i_p s)) MEMP_UDP_PCB pcb)).
  exists (set_udp s' u'), (delete pcb L), l'. split.
  - unfold unlinked in Hu. unfold udp_remove. destruct (if u_head (udp_of s) =? pcb then _ else _) as [u1 |]; [| done].
    cbn [mbind option_bind] in Hu |- *. by injection Hu as <-.
  - split; [split |].
    + apply (psys_regions (i_p s) _ L); [done | | done]. intros q c Hc. apply lookup_delete_ne. intros <-.
      destruct (ps_pbuf _ _ Hps pcb c Hc) as (_ & _ & _ & Hh & _). rewrite Hpool in Hh. by destruct (type c).
    + rewrite udp_of_set. intros q Hx. apply elem_of_dom in Hx. rewrite Hd in Hx. apply elem_of_difference in Hx as [Hx Hne].
      apply elem_of_dom in Hx. destruct (Hq q Hx) as [? ?]. rewrite lookup_delete_ne; [done |]. intros ->. by apply Hne, elem_of_singleton.
    + rewrite udp_of_set. split; [done |]. rewrite <- size_dom, Hd. rewrite <- size_dom in Hn.
      pose proof (subseteq_size (dom (u_pcbs (udp_of s)) ∖ {[pcb]}) (dom (u_pcbs (udp_of s))) (subseteq_difference_l _ _ _ (reflexivity _))). lia.
Qed.

Lemma step_good s L l n op :
  good s L l n -> Z.of_nat n < 16384 -> op_ok (udp_of s) op ->
  exists s' L' l', run_op s op = Some s' /\ good s' L' l' (S n).
Proof.
  intros Hg Hn Hop. pose proof (good_few _ _ _ _ Hg Hn) as Hfew. pose proof Hg as (Hs & Hok & Hsz).
  assert (forall s' L' l', good s' L' l' n -> good s' L' l' (S n)) as Hmore.
  { intros s' L' l' (? & ? & ?). split; [done | split; [done | lia]]. }
  destruct op as [| pcb ip port | pcb ip port | pcb | pcb f a | pcb]; cbn [op_ok] in Hop; cbn [run_op].
  - destruct (new_good s L l n Hg) as (L' & l' & Hg'). by eexists _, L', l'.
  - destruct Hop as [[b Hb] Hp]. pose proof (bind_spec _ l pcb b ip port Hok Hb Hfew) as Hbs.
    destruct (clashing l pcb ip port) eqn:Ec.
    + rewrite Hbs. cbn [mbind option_bind]. eexists _, L, l. split; [done |]. by apply Hmore, good_update with (l := l).
    + destruct Hbs as (x & port' & -> & Hx & Hc). cbn [mbind option_bind]. eexists _, L, _. split; [done |].
      apply Hmore, good_update with (l := l); [done | | apply (bound_ok _ l pcb b ip port x port'); try done; by eapply usys_live].
      unfold place. case_bool_decide; cbn; by apply dom_insert_lookup_L; exists b.
  - destruct Hop as [b Hb].
    destruct (connect_spec _ l pcb b ip port Hok Hb (usys_live _ _ _ _ Hs Hb) Hfew) as (u' & l' & -> & Hok' & b' & Hd & _).
    cbn [mbind option_bind]. eexists _, L, l'. split; [done |]. apply Hmore, good_update with (l := l); [done | | done].
    rewrite Hd. by apply dom_insert_lookup_L; exists b.
  - destruct Hop as [b Hb]. unfold udp_disconnect. rewrite Hb. cbn [mbind option_bind]. eexists _, L, _. split; [done |].
    apply Hmore, good_update with (l := l); [done | cbn; by apply dom_insert_lookup_L; exists b |].
    by apply (touch_ok _ l pcb b).
  - destruct Hop as [b Hb]. unfold udp_recv. rewrite Hb. cbn [mbind option_bind]. eexists _, L, _. split; [done |].
    apply Hmore, good_update with (l := l); [done | cbn; by apply dom_insert_lookup_L; exists b |].
    by apply (touch_ok _ l pcb b).
  - destruct Hop as [b Hb]. destruct (remove_good s L l n pcb b Hg Hb) as (s' & L' & l' & Hr & Hg').
    eexists s', L', l'. split; [done | by apply Hmore].
Qed.

Lemma run_ops_cons s op ops : run_ops s (op :: ops) = s' ← run_op s op; run_ops s' ops.
Proof.
  unfold run_ops. cbn. destruct (run_op s op) as [s' |]; cbn; [done |]. by induction ops.
Qed.

Lemma history_good ops : forall s L l n,
  good s L l n -> Z.of_nat n + Z.of_nat (length ops) < 16384 -> allowed s ops ->
  exists s' L' l', run_ops s ops = Some s' /\ good s' L' l' (n + length ops).
Proof.
  induction ops as [| op ops IH]; intros s L l n Hg Hlen Ha; cbn in Hlen.
  - exists s, L, l. split; [done |]. by rewrite Nat.add_0_r.
  - inversion Ha as [| ? ? ? Hop Hnext]; subst.
    destruct (step_good s L l n op Hg ltac:(lia) Hop) as (s1 & L1 & l1 & Hr & Hg1). rewrite run_ops_cons, Hr.
    cbn [mbind option_bind]. destruct (IH s1 L1 l1 (S n) Hg1 ltac:(lia) (Hnext _ Hr)) as (s' & L' & l' & Hr' & Hg').
    exists s', L', l'. split; [done |]. cbn. by rewrite Nat.add_succ_r.
Qed.

(** C29: over every history of [udp_new], [udp_bind], [udp_connect],
    [udp_disconnect], [udp_recv] and [udp_remove] on live control blocks (fewer
    calls than there are dynamic ports), every call returns, the list of bound
    control blocks stays a list without repetitions in live pool elements, every
    block on it has a port, every block off it has none, and no two blocks on it
    share a port with equal addresses or with an address that stands for all. *)
Theorem udp_bindings_sound s L ops :
  usys s L -> u_pcbs (udp_of s) = ∅ -> u_head (udp_of s) = 0 -> in_range (u_port (udp_of s)) ->
  Z.of_nat (length ops) < 16384 -> allowed s ops ->
  exists s' L' l, run_ops s ops = Some s' /\ usys s' L' /\ udp_ok (udp_of s') l.
Proof.
  intros Hs He Hh Hp Hlen Ha.
  assert (good s L [] 0) as Hg.
  { split; [done |]. split; [| by rewrite He, map_size_empty]. split; [rewrite Hh; constructor | done | | |].
    - by intros q b ?%elem_of_nil.
    - by intros q b q' b' ?%elem_of_nil.
    - intros q b. by rewrite He, lookup_empty. }
  destruct (history_good ops s L [] 0 Hg ltac:(lia) Ha) as (s' & L' & l' & Hr & Hs' & Hok & _). by exists s', L', l'.
Qed.

End history.

(** ** A sample history *)

#[export] Instance udp_itself : HasUdp udp_state :=
  {| get_udp u := u; put_udp _ u := u; get_put_udp _ _ := eq_refl; put_get_udp _ := eq_refl; put_put_udp _ _ _ := eq_refl |}.

#[local] Existing Instance World.world_system.
#[local] Existing Instance World.sample_laws.

Definition sample_udp : istate World.world (list (Z * Z)) udp_state :=
  set_up sample_stack (mkUdp ∅ 0 0xc000 sample_stats).

(** The control block that is created first. *)
Definition pcb1 : Z := (udp_new sample_udp).2.

Definition sample_ops : list udp_op :=
  [Op_new; Op_bind pcb1 0 7; Op_disconnect pcb1; Op_bind pcb1 0 0; Op_remove pcb1; Op_new; Op_connect pcb1 0x1401a8c0 53].

(** The bindings at the end of a history. *)
Definition bindings (o : option (istate World.world (list (Z * Z)) udp_state)) : option (list (Z * Z * Z)) :=
  s ← o; Some ((fun x => (x.1, up_local_port x.2, up_remote_port x.2)) <$> map_to_list (u_pcbs (udp_of s))).

Lemma sample_udp_sys : exists L, usys sample_udp L.
Proof.
  destruct (sample_alloc_ok sample_empty ∅ PBUF_TRANSPORT 100 PBUF_RAM sample_empty_ok ltac:(lia)
    ltac:(intros _; unfold ram_length_ok; lia)) as [L HL].
  exists L. split; [exact HL |]. intros q [b Hb]. cbn in Hb. by rewrite lookup_empty in Hb.
Qed.

Lemma udp_bindings_sound_witness :
  exists s' L' l, run_ops sample_udp sample_ops = Some s' /\ usys s' L' /\ udp_ok (udp_of s') l /\
    bindings (Some s') = Some [(pcb1, 0xc002, 53)].
Proof.
  destruct sample_udp_sys as [L HL].
  assert (allowed sample_udp sample_ops) as Ha by (apply allowed_b_sound; vm_compute; reflexivity).
  destruct (udp_bindings_sound sample_udp L sample_ops HL eq_refl eq_refl ltac:(split; cbn; lia) ltac:(cbn; lia) Ha)
    as (s' & L' & l & Hr & Hs & Hok).
  exists s', L', l. split; [exact Hr |]. split; [exact Hs |]. split; [exact Hok |].
  rewrite <- Hr. vm_compute. reflexivity.
Defined.

Lemma udp_new_port_correct_witness :
  let b := mkUdpPcb 0 0 0 0 255 0 0 0xc001 0 0 0 in
  udp_new_port (mkUdp {[ 16 := b ]} 16 0xc000 sample_stats) = Some (mkUdp {[ 16 := b ]} 16 0xc002 sample_stats, 0xc002).
Proof.
  intros b. set (u := mkUdp _ _ _ _).
  destruct (udp_new_port_correct u [(16, b)]) as (port & r & E & _); [| split; cbn; lia |].
  - constructor; [done | by vm_compute | constructor].
  - rewrite E. assert (udp_new_port u = Some (mkUdp {[ 16 := b ]} 16 0xc002 sample_stats, 0xc002)) as E2 by (vm_compute; reflexivity).
    rewrite <- E. exact E2.
Defined.

End UdpPorts.
