(* ===== verification/UdpFlow.v ===== *)
(** Datagrams: which control block [udp_input] gives a datagram to, and what
    [udp_sendto] sends. *)

From stdpp Require Import base tactics numbers list gmap.
From Stdlib Require Import ZArith Lia.
From S2P Require Import Prelude ByteOrder Fields Stats Linked PbufDefs NetifDefs InetChksum Allocator Mem Memp PbufMem World Pbuf PbufData PbufChains PbufLinks PbufRefs Etharp EtharpTable IpAddr IpDefs IpOutput IpHeader IpSend Icmp IcmpEcho IpReass IpInput IpInputFacts Udp UdpPorts.

Local Open Scope Z_scope.

Module UdpFlow.
Import ByteOrder Fields Linked InetChksum Memp Pbuf PbufData PbufChains PbufLinks IpAddr IpDefs IpOutput IpHeader IpSend Icmp IcmpEcho IpInputFacts Udp UdpPorts.

(** ** Choosing a control block *)

Section choose.
Context (lm rm : udp_pcb -> bool).
Implicit Type l : list (Z * udp_pcb).

(** The first block connected to the sender, or else the first one that is not
    connected. *)
Definition full (x : Z * udp_pcb) : bool := lm x.2 && rm x.2.
Definition open (x : Z * udp_pcb) : bool := lm x.2 && not_connected x.2.

Definition choose l : option (Z * udp_pcb) :=
  match find full l with
  | Some x => Some x
  | None => find open l
  end.

(** The block with the full match in front. *)
Fixpoint to_front l : list (Z * udp_pcb) :=
  match l with
  | [] => []
  | x :: l => if full x then x :: l else match to_front l with y :: k => if full y then y :: x :: k else x :: y :: k | [] => [x] end
  end.

Lemma find_split (P : Z * udp_pcb -> bool) l :
  (find P l = None /\ Forall (fun x => P x = false) l) \/
  (exists l1 x l2, find P l = Some x /\ l = l1 ++ x :: l2 /\ P x = true /\ Forall (fun x => P x = false) l1).
Proof.
  induction l as [| x l [[E H] | (l1 & y & l2 & E & -> & Hy & H)]]; cbn; [by left | |];
    destruct (P x) eqn:Ex.
  - right. by exists [], x, l.
  - left. by repeat constructor.
  - right. exists [], x. eexists. by repeat constructor.
  - right. exists (x :: l1), y, l2. by repeat constructor.
Qed.

Lemma to_front_split l1 x l2 : Forall (fun x => full x = false) l1 -> full x = true -> to_front (l1 ++ x :: l2) = x :: l1 ++ l2.
Proof.
  intros H Hx. induction H as [| y l1 Hy H IH]; cbn; [by rewrite Hx |]. rewrite Hy, IH. by rewrite Hx.
Qed.

Lemma to_front_none l : Forall (fun x => full x = false) l -> to_front l = l.
Proof.
  induction 1 as [| x l Hx H IH]; [done |]. cbn. rewrite Hx, IH. destruct l as [| y l]; [done |].
  inversion H as [| ? ? Hy]; subst. by rewrite Hy.
Qed.

Definition addr (o : option (Z * udp_pcb)) : Z := from_option fst 0 o.

Lemma demux_none l prev uncon :
  Forall (fun x => full x = false) l -> Forall (fun x => x.1 <> 0) l ->
  exists prev', fold_until (demux_step lm rm) (fun x => (0, x.1, x.2)) (prev, uncon) l =
    (0, prev', if uncon =? 0 then addr (find open l) else uncon).
Proof.
  intros H. revert prev uncon. induction H as [| [q b] l Hf H IH]; intros prev uncon Hn; cbn.
  - exists prev. destruct (Z.eqb_spec uncon 0) as [-> |]; done.
  - inversion Hn as [| ? ? Hq Hn']; subst. unfold full in Hf. cbn in Hf. rewrite Hf.
    destruct (IH q (if lm b && (uncon =? 0) && not_connected b then q else uncon) Hn') as [prev' ->]. exists prev'.
    f_equal. unfold open at 2. cbn. destruct (Z.eqb_spec uncon 0) as [-> | Hu]; cbn; rewrite ?andb_true_r, ?andb_false_r; cbn.
    + destruct (lm b && not_connected b); [| done]. cbn. by rewrite (proj2 (Z.eqb_neq q 0)).
    + by rewrite (proj2 (Z.eqb_neq uncon 0)).
Qed.

Lemma demux_full l1 q b l2 prev uncon :
  Forall (fun x => full x = false) l1 -> full (q, b) = true ->
  exists uncon', fold_until (demux_step lm rm) (fun x => (0, x.1, x.2)) (prev, uncon) (l1 ++ (q, b) :: l2) =
    (q, default prev (fst <$> last l1), uncon').
Proof.
  intros H Hq. revert prev uncon. induction H as [| [r c] l1 Hf H IH]; intros prev uncon; cbn [app fold_until].
  - unfold demux_step. unfold full in Hq. cbn in Hq. rewrite Hq. by eexists.
  - unfold demux_step at 1. unfold full in Hf. cbn in Hf. rewrite Hf.
    destruct (IH r (if lm c && (uncon =? 0) && not_connected c then r else uncon)) as [uncon' ->]. exists uncon'.
    f_equal. f_equal. rewrite last_cons. by destruct (last l1).
Qed.

End choose.

(** A control block without its link. *)
Definition erase (x : Z * udp_pcb) : Z * udp_pcb := (x.1, set_up_next x.2 0).

(** The list [l'] of [u'] has the blocks of [l], which differ in their links only,
    in the order of [k]. *)
Record reordered (u : udp_state) (l k : list (Z * udp_pcb)) (u' : udp_state) (l' : list (Z * udp_pcb)) : Prop := {
  ro_ok : udp_ok u' l';
  ro_list : erase <$> l' = erase <$> k;
  ro_port : u_port u' = u_port u;
  ro_rest : forall q, q ∉ l.*1 -> u_pcbs u' !! q = u_pcbs u !! q
}.

Lemma reordered_refl u l : udp_ok u l -> reordered u l l u l.
Proof. by split. Qed.

Lemma move_front u l1 r c q b l2 :
  udp_ok u (l1 ++ (r, c) :: (q, b) :: l2) ->
  let u' := set_u_head (set_u_pcbs u (<[q := set_up_next b (u_head u)]> (<[r := set_up_next c (up_next b)]> (u_pcbs u)))) q in
  let l' := (q, set_up_next b (u_head u)) :: l1 ++ (r, set_up_next c (up_next b)) :: l2 in
  reordered u (l1 ++ (r, c) :: (q, b) :: l2) ((q, b) :: l1 ++ (r, c) :: l2) u' l'.
Proof.
  intros Hok u' l'. pose proof Hok as [Hl _ _ _ _]. pose proof (linked_NoDup _ _ _ _ Hl) as Hnd.
  pose proof (linked_cut _ _ _ _ _ _ _ _ _ (set_up_next c (up_next b)) Hl eq_refl) as Hcut.
  destruct (linked_lookup _ _ _ _ q b Hl) as [_ Hq0].
  { apply elem_of_app. right. apply elem_of_cons. right. apply elem_of_cons. by left. }
  rewrite fmap_app in Hnd. cbn in Hnd. apply NoDup_app in Hnd as (_ & Hd & Hnd). apply NoDup_cons in Hnd as [Hr [Hq _]%NoDup_cons].
  assert (q ∉ (l1 ++ (r, set_up_next c (up_next b)) :: l2).*1) as Hni.
  { rewrite fmap_app. cbn. rewrite elem_of_app, elem_of_cons. intros [H | [-> | H]]; [| apply Hr, elem_of_cons; by left | done].
    apply (Hd _ H). apply elem_of_cons. right. apply elem_of_cons. by left. }
  split.
  - apply (remaining_ok u _ _ _ Hok); cbn.
    + by apply linked_push with (p := u_head u).
    + done.
    + intros x d. unfold l'. rewrite elem_of_cons, elem_of_app, elem_of_cons. intros [[= -> ->] | [H | [[= -> ->] | H]]].
      * exists b. split; [apply elem_of_app; right; apply elem_of_cons; right; apply elem_of_cons; by left | done].
      * exists d. split; [apply elem_of_app; by left | done].
      * exists c. split; [apply elem_of_app; right; apply elem_of_cons; by left | done].
      * exists d. split; [apply elem_of_app; right; apply elem_of_cons; right; apply elem_of_cons; by right | done].
    + intros x d Hx Hni'. unfold l' in Hni'. cbn in Hni'. rewrite fmap_app in Hni' |- *. cbn in Hni' |- *.
      rewrite elem_of_cons, elem_of_app, elem_of_cons in Hni'. rewrite elem_of_app, !elem_of_cons.
      rewrite !lookup_insert_ne in Hx by (intros ->; tauto). split; [done | tauto].
  - unfold l'. cbn. rewrite !fmap_app. done.
  - done.
  - intros x Hx. rewrite fmap_app, elem_of_app in Hx. cbn in Hx. rewrite !elem_of_cons in Hx. cbn.
    by rewrite !lookup_insert_ne by (intros ->; tauto).
Qed.

Section flow.
Context {W X U : Type} `{LW : MemSystemLaws W} `{HU : HasUdp U}.
Context (stale : Z -> Z) (custom_free : pstate W -> Z -> option (pstate W)).
Context (netif_output : X -> pstate W -> Z -> netif -> Z -> Z -> option (X * pstate W * Z)).
Context (udp_recv_call : istate W X U -> Z -> Z -> Z -> Z -> Z -> Z -> option (istate W X U)).

Implicit Type s : istate W X U.

Lemma set_udp_same s : set_udp s (udp_of s) = s.
Proof. unfold set_udp, udp_of. rewrite put_get_udp. by destruct s. Qed.

Lemma linked_nonzero m p (l : list (Z * udp_pcb)) : linked up_next m p l -> Forall (fun x => x.1 <> 0) l.
Proof. intros Hlk. apply Forall_forall. intros [q b] Hin. by destruct (linked_lookup _ _ _ _ _ _ Hlk Hin). Qed.

(** The statistics are counted apart. *)
Definition same_but_stats (u v : udp_state) : Prop :=
  u_pcbs u = u_pcbs v /\ u_head u = u_head v /\ u_port u = u_port v.

Lemma reordered_stats u l k u' l' v' : reordered u l k u' l' -> same_but_stats v' u' -> reordered u l k v' l'.
Proof.
  intros [[A1 A2 A3 A4 A5] Hl Hp Hr] (E1 & E2 & E3). split.
  - split; rewrite ?E1, ?E2, ?E3; done.
  - done.
  - by rewrite E3.
  - intros q Hq. rewrite E1. by apply Hr.
Qed.

Lemma demux_spec s l lm rm :
  udp_ok (udp_of s) l ->
  exists u' l', demux s lm rm = Some (set_udp s u', addr (choose lm rm l)) /\
    reordered (udp_of s) l (to_front lm rm l) u' l'.
Proof.
  intros Hok. pose proof Hok as [Hl _ _ _ _]. unfold demux, choose. rewrite (for_list_spec _ _ _ _ _ _ _ Hl).
  pose proof (linked_nonzero _ _ _ Hl) as Hnz.
  destruct (find_split (full lm rm) l) as [[-> Hn] | (l1 & [q b] & l2 & -> & -> & Hq & Hn)].
  - destruct (demux_none lm rm l 0 0 Hn Hnz) as [prev ->]. cbn [mbind option_bind Z.eqb].
    exists (udp_of s), l. rewrite set_udp_same. split; [done |]. rewrite to_front_none by done. by apply reordered_refl.
  - destruct (demux_full lm rm l1 q b l2 0 0 Hn Hq) as [uncon ->]. cbn [mbind option_bind].
    rewrite to_front_split by done. rewrite Forall_app, Forall_cons in Hnz. destruct Hnz as (_ & Hq0 & _). cbn in Hq0.
    rewrite !(proj2 (Z.eqb_neq q 0)) by done. cbn [addr from_option fst].
    destruct l1 as [| [r c] k IHk] using rev_ind; [| clear IHk].
    + cbn [last default fmap option_fmap option_map from_option Z.eqb negb mbind option_bind].
      eexists _, _. split; [done |]. cbn [app]. apply (reordered_stats (udp_of s) ((q, b) :: l2) ((q, b) :: l2) (udp_of s)); [| done].
      by apply reordered_refl.
    + rewrite last_snoc. cbn [fmap option_fmap option_map default from_option fst id].
      rewrite <- app_assoc in Hok, Hl |- *. cbn [app] in Hok, Hl |- *.
      destruct (linked_lookup _ _ _ _ r c Hl) as [Hr Hr0]; [apply elem_of_app; right; apply elem_of_cons; by left |].
      destruct (linked_lookup _ _ _ _ q b Hl) as [Hqb _];
        [apply elem_of_app; right; apply elem_of_cons; right; apply elem_of_cons; by left |].
      rewrite (proj2 (Z.eqb_neq r 0)) by done. cbn [negb]. rewrite Hr. cbn [mbind option_bind]. rewrite Hqb.
      cbn [mbind option_bind]. eexists _, _. split; [done |]. rewrite <- app_assoc. by apply move_front.
Qed.

(** ** Input *)

(** A datagram as [ip_input] passes it on: the payload starts with the IP header,
    and both headers are in the first pbuf. *)
Record datagram s L (p : Z) (b : pbuf) (l : list (Z * pbuf)) (np : Z) (n : netif) : Prop := {
  dg_sys : psys (i_p s) L;
  dg_chain : chain (pst (i_p s)) p ((p, b) :: l);
  dg_lens : lengths_ok ((p, b) :: l);
  dg_own : owned b;
  dg_len : hlen_of (i_mem s) (payload b) + 8 <= len b;
  dg_netif : netif_at s np = Some n;
  dg_src : 0 <= cur_src (i_cur s) < 4294967296;
  dg_dst : 0 <= cur_dest (i_cur s) < 4294967296
}.

(** The checksum is there and wrong. *)
Definition bad_chksum s (p : Z) (b : pbuf) (l : list (Z * pbuf)) : bool :=
  let m := i_mem s in
  let h := hlen_of m (payload b) in
  negb (ld16 m (payload b + h + 6) =? 0) &&
  negb (bool_decide (sums_to_ones (pseudo_header (cur_src (i_cur s)) (cur_dest (i_cur s)) IP_PROTO_UDP (tot_len b - h) ++
                                   drop (Z.to_nat h) (chain_data m ((p, b) :: l))))).

(** The answer to a datagram nobody takes: ICMP port unreachable, with the payload
    back at the IP header, unless it was sent to many. *)
Definition unreachable s (p : Z) (b : pbuf) (broadcast : bool) : option (istate W X U) :=
  s' ← (if negb broadcast && negb (ip_addr_ismulticast (cur_dest (i_cur s)))
        then icmp_dest_unreach stale custom_free netif_output (put_pbuf s p b) p ICMP_DUR_PORT
        else Some (put_pbuf s p (move_payload b (- (hlen_of (i_mem s) (payload b) + 8)))));
  i_free custom_free (UDP_STATS_INC c_drop (UDP_STATS_INC c_proterr s')) p.

Lemma set_udp_twice s u v : set_udp (set_udp s u) v = set_udp s v.
Proof. unfold set_udp. cbn. by rewrite put_put_udp. Qed.

Lemma udp_of_set_udp s u : udp_of (set_udp s u) = u.
Proof. apply get_put_udp. Qed.

Lemma datagram_move s s' L p b l np n h k :
  datagram s' L p b l np n -> - (hlen_of (i_mem s') (payload b) + 8) <= h <= 0 ->
  - (hlen_of (i_mem s') (payload b) + 8) <= h + k <= 0 ->
  i_header (put_pbuf s p (move_payload b h)) p k = Some (put_pbuf s p (move_payload b (h + k)), 0).
Proof.
  intros [Hs Hc Hl Hown Hlen _ _ _] Hh Hk. inversion Hc as [| ? ? ? Hp Hb _]; subst.
  pose proof Hl as (Ht & Hln & Htot & Hl'). pose proof (chain_len_nonneg l Hl') as Hcl. pose proof (hlen_range (i_mem s') (payload b)).
  pose proof (ps_pbuf _ _ Hs p b Hb) as (_ & _ & _ & _ & j & Hj & _ & Hfit).
  apply header_put; [done | lia | lia | lia | lia |].
  unfold header_fits, SIZEOF_STRUCT_PBUF. cbn. destruct Hown as [E | E]; rewrite E in Hfit |- *; lia.
Qed.

Lemma chosen_in lm rm l x : choose lm rm l = Some x -> x ∈ l.
Proof.
  unfold choose. intros E. apply list_elem_of_In. destruct (find (full lm rm) l) as [y |] eqn:Ef.
  - injection E as ->. by apply find_some in Ef as [? _].
  - by apply find_some in E as [? _].
Qed.

Lemma to_front_perm lm rm l : to_front lm rm l ≡ₚ l.
Proof.
  destruct (find_split (full lm rm) l) as [[_ Hn] | (l1 & x & l2 & _ & -> & Hq & Hn)].
  - by rewrite to_front_none.
  - rewrite to_front_split by done. apply Permutation_middle.
Qed.

(** A block of the list after the reordering. *)
Lemma reordered_block u l lm rm u' l' q c :
  reordered u l (to_front lm rm l) u' l' -> (q, c) ∈ l -> exists c', u_pcbs u' !! q = Some c' /\ up_recv c' = up_recv c /\ up_recv_arg c' = up_recv_arg c.
Proof.
  intros [Hok Hl _ _] Hin. assert (erase (q, c) ∈ erase <$> l') as Hin'.
  { rewrite Hl. apply list_elem_of_fmap. exists (q, c). split; [done |]. by rewrite to_front_perm. }
  apply list_elem_of_fmap in Hin' as ([q' c'] & E & Hc'). unfold erase in E. cbn in E. injection E as -> E1.
  destruct (linked_lookup _ _ _ _ _ _ (uo_list _ _ Hok) Hc') as [Hq _]. exists c'. split; [done |].
  destruct c, c'. unfold set_up_next in E1. cbn in *. by simplify_eq.
Qed.

Lemma udp_checksum s s' L p b l np n a :
  datagram s L p b l np n -> a = payload b + hlen_of (i_mem s) (payload b) ->
  i_mem s' = i_mem s -> pst (i_p s') = <[p := move_payload b (- hlen_of (i_mem s) (payload b))]> (pst (i_p s)) ->
  (if negb (ld16 (i_mem s') (a + UDPH_chksum) =? 0) then
     c ← inet_chksum_pseudo (i_mem s') (pst (i_p s')) p (cur_src (i_cur s)) (cur_dest (i_cur s)) IP_PROTO_UDP
           (tot_len (move_payload b (- hlen_of (i_mem s) (payload b))));
     Some (negb (c =? 0))
   else Some false) = Some (bad_chksum s p b l).
Proof.
  intros [Hs Hc Hl Hown Hlen _ Hsrc Hdst] -> -> ->. unfold bad_chksum, UDPH_chksum. set (h := hlen_of (i_mem s) (payload b)) in *.
  destruct (negb (ld16 (i_mem s) (payload b + h + 6) =? 0)); [| done]. cbn [andb].
  pose proof (hlen_range (i_mem s) (payload b)) as Hh. fold h in Hh. pose proof Hl as (Ht & Hln & Htot & Hl').
  pose proof (chain_len_nonneg l Hl') as Hcl.
  destruct (chain_moved _ p b l h (i_mem s) Hc Hl ltac:(lia)) as (Hc2 & Hl2 & Hd2).
  destruct (packet_chksum_spec (i_mem s) _ p _ (cur_src (i_cur s)) (cur_dest (i_cur s)) IP_PROTO_UDP (tot_len b + - h) 0 Hc2 (lengths_ok_nonneg _ Hl2))
    as (_ & Hck & _); [repeat split; unfold IP_PROTO_UDP; lia | lia |].
  change (tot_len (move_payload b (- h))) with (tot_len b + - h). rewrite Hck, Hd2. cbn [mbind option_bind].
  change (tot_len b + - h) with (tot_len b - h). f_equal. f_equal. unfold sums_to_ones.
  set (x := inet_sum _). destruct (Z.eqb_spec (65535 - x) 0); [rewrite bool_decide_true by lia | rewrite bool_decide_false by lia]; done.
Qed.

(** The state up to the choice of the control block. *)
Lemma udp_input_head s L p b l np n ul :
  datagram s L p b l np n -> udp_ok (udp_of s) ul ->
  let m := i_mem s in
  let h := hlen_of m (payload b) in
  let a := payload b + h in
  let dest := cur_dest (i_cur s) in
  let src_port := PP_HTONS (ld16 m a) in
  let broadcast := negb (ip4_addr_isbroadcast dest n =? 0) in
  let lm := local_match (nif_netmask n) broadcast dest (PP_HTONS (ld16 m (a + 2))) in
  let rm := remote_match (cur_src (i_cur s)) src_port in
  exists u' l', reordered (udp_of s) ul (to_front lm rm ul) u' l' /\
    let s1 := set_udp s u' in
    udp_input stale custom_free netif_output udp_recv_call s p np =
      if negb (addr (choose lm rm ul) =? 0) || (nif_ip_addr n =? dest) then
        if bad_chksum s p b l then udp_drop custom_free (put_pbuf s1 p (move_payload b (- h))) p c_chkerr
        else udp_deliver stale custom_free netif_output udp_recv_call (put_pbuf s1 p (move_payload b (- (h + 8)))) p (payload b)
               (addr (choose lm rm ul)) src_port broadcast
      else i_free custom_free (put_pbuf s1 p (move_payload b (- h))) p.
Proof.
  intros Hd Hok m h a dest src_port broadcast lm rm. pose proof Hd as [Hs Hc Hl Hown Hlen Hn Hsrc Hdst].
  inversion Hc as [| ? ? ? Hp Hb _]; subst. pose proof Hl as (Ht & Hln & Htot & Hl'). pose proof (chain_len_nonneg l Hl') as Hcl.
  pose proof (hlen_range m (payload b)) as Hh. fold h in Hh. fold m h in Hlen.
  set (u0 := mkUdp (u_pcbs (udp_of s)) (u_head (udp_of s)) (u_port (udp_of s)) (STATS_INC c_recv (u_stats (udp_of s)))).
  assert (udp_ok u0 ul) as Hok0 by by destruct Hok.
  set (s0 := set_udp s u0). assert (i_pbuf s0 p = Some b) as Hb0 by exact Hb.
  set (s1 := put_pbuf s0 p (move_payload b (- h))). assert (udp_of s1 = u0) as Hu1 by apply get_put_udp.
  rewrite <- Hu1 in Hok0. destruct (demux_spec s1 ul lm rm Hok0) as (u' & l' & Hdx & Hre). rewrite Hu1 in Hre.
  exists u', l'. split; [by destruct Hre |]. intros s2.
  assert (set_udp s1 u' = put_pbuf s2 p (move_payload b (- h))) as E1.
  { unfold s1, s0. change (put_pbuf (set_udp s u0) p (move_payload b (- h))) with (set_udp (put_pbuf s p (move_payload b (- h))) u0).
    by rewrite set_udp_twice. }
  rewrite E1 in Hdx. unfold udp_input. change (UDP_STATS_INC c_recv s) with s0. rewrite Hb0. cbn [mbind option_bind].
  change (i_mem s0) with m. fold (hlen_of m (payload b)). fold h. unfold UDP_HLEN. rewrite (proj2 (Z.ltb_ge _ _)) by lia.
  pose proof (datagram_move s0 s L p b l np n 0 (- h) Hd ltac:(fold m h; lia) ltac:(fold m h; lia)) as Hmv.
  rewrite move_none, (put_pbuf_id s0 p b Hb0), Z.add_0_l in Hmv. rewrite Hmv. cbn [mbind option_bind]. fold s1.
  cbn [Z.eqb negb]. assert (i_pbuf s1 p = Some (move_payload b (- h))) as -> by apply i_pbuf_put.
  cbn [mbind option_bind]. change (netif_at s1 np) with (netif_at s np). rewrite Hn.
  cbn [mbind option_bind]. unfold UDPH_src, UDPH_dest. change (i_mem s1) with m. change (i_cur s1) with (i_cur s).
  replace (payload (move_payload b (- h))) with a by (unfold a; cbn; lia). rewrite Z.add_0_r. fold dest broadcast src_port. fold lm rm.
  rewrite Hdx. cbn [mbind option_bind]. destruct (negb (addr (choose lm rm ul) =? 0) || (nif_ip_addr n =? dest)); [| done].
  change (i_cur (put_pbuf s2 p (move_payload b (- h)))) with (i_cur s). fold dest.
  pose proof (udp_checksum s (put_pbuf s2 p (move_payload b (- h))) L p b l np n a Hd eq_refl eq_refl eq_refl) as Hck.
  fold m h dest in Hck. rewrite Hck. cbn [mbind option_bind].
  destruct (bad_chksum s p b l); [done |].
  rewrite (datagram_move s2 s L p b l np n (- h) (- (8)) Hd) by (fold m h; lia). cbn [mbind option_bind Z.eqb negb].
  replace (- h + - (8)) with (- (h + 8)) by lia. done.
Qed.

(** C30: [udp_input] gives a datagram to the right control block.  Among the bound
    blocks whose address and port it matches, the first that is connected to the
    sender takes it and moves to the front of the list; if there is none, the
    first that is not connected.  A datagram that matches none and is not sent to
    the interface's own address is released; otherwise one with a wrong checksum
    (a zero checksum counts as right) is dropped, a matching one goes to the
    block's callback with the payload behind the headers (or is released if there
    is no callback), and one that nobody takes is answered with ICMP port
    unreachable.  The bindings stay as they are. *)
Theorem udp_input_delivers s L p b l np n ul :
  datagram s L p b l np n -> udp_ok (udp_of s) ul ->
  let m := i_mem s in
  let h := hlen_of m (payload b) in
  let a := payload b + h in
  let dest := cur_dest (i_cur s) in
  let src_port := PP_HTONS (ld16 m a) in
  let broadcast := negb (ip4_addr_isbroadcast dest n =? 0) in
  let lm := local_match (nif_netmask n) broadcast dest (PP_HTONS (ld16 m (a + 2))) in
  let rm := remote_match (cur_src (i_cur s)) src_port in
  exists u' l', reordered (udp_of s) ul (to_front lm rm ul) u' l' /\
    let s1 := set_udp s u' in
    let s2 := put_pbuf s1 p (move_payload b (- (h + 8))) in
    udp_input stale custom_free netif_output udp_recv_call s p np =
      match choose lm rm ul with
      | None =>
          if negb (nif_ip_addr n =? dest) then i_free custom_free (put_pbuf s1 p (move_payload b (- h))) p
          else if bad_chksum s p b l then udp_drop custom_free (put_pbuf s1 p (move_payload b (- h))) p c_chkerr
          else unreachable s1 p b broadcast
      | Some (pcb, c) =>
          if bad_chksum s p b l then udp_drop custom_free (put_pbuf s1 p (move_payload b (- h))) p c_chkerr
          else if up_recv c =? 0 then i_free custom_free s2 p
          else udp_recv_call s2 (up_recv c) (up_recv_arg c) pcb p (cur_src (i_cur s)) src_port
      end.
Proof.
  intros Hd Hok m h a dest src_port broadcast lm rm.
  destruct (udp_input_head s L p b l np n ul Hd Hok) as (u' & l' & Hre & E). cbn zeta in E.
  change (payload b + hlen_of (i_mem s) (payload b)) with a in E. fold m h dest src_port broadcast in E. fold lm rm in E.
  exists u', l'. split; [exact Hre |]. intros s1 s2. fold s1 in E. fold s2 in E. rewrite E.
  pose proof (linked_nonzero _ _ _ (uo_list _ _ Hok)) as Hnz.
  destruct (choose lm rm ul) as [[pcb c] |] eqn:Ec; cbn [addr from_option fst].
  - pose proof (chosen_in _ _ _ _ Ec) as Hin. rewrite Forall_forall in Hnz. pose proof (Hnz _ Hin) as Hpcb. cbn in Hpcb.
    rewrite (proj2 (Z.eqb_neq pcb 0)) by done. cbn [negb orb]. destruct (bad_chksum s p b l); [done |].
    destruct (reordered_block _ _ _ _ _ _ _ _ Hre Hin) as (c' & Hc' & Er & Ea). unfold udp_deliver.
    rewrite (proj2 (Z.eqb_neq pcb 0)) by done. cbn [negb]. assert (udp_of s2 = u') as -> by apply get_put_udp. rewrite Hc'.
    cbn [mbind option_bind]. rewrite Er, Ea. by destruct (up_recv c =? 0).
  - cbn [Z.eqb negb orb]. destruct (nif_ip_addr n =? dest); [cbn [negb] | done]. destruct (bad_chksum s p b l); [done |].
    unfold udp_deliver, unreachable. cbn [Z.eqb negb]. change (i_cur s2) with (i_cur s). change (i_cur s1) with (i_cur s).
    change (i_mem s2) with m. change (i_mem s1) with m. fold (hlen_of m (payload b)). fold h dest. unfold UDP_HLEN.
    destruct (negb broadcast && negb (ip_addr_ismulticast dest)); [| done].
    unfold s2. rewrite (datagram_move s1 s L p b l np n (- (h + 8)) (h + 8) Hd)
      by (fold m h; pose proof (hlen_range m (payload b)); fold h; lia).
    cbn [mbind option_bind]. replace (- (h + 8) + (h + 8)) with 0 by lia. by rewrite move_none.
Qed.

End flow.

End UdpFlow.
