(* ===== verification/UdpSend.v ===== *)
(** What [udp_sendto] sends: the datagram on the wire. *)

From stdpp Require Import base tactics numbers list gmap.
From Stdlib Require Import ZArith Lia.
From S2P Require Import Prelude ByteOrder Fields Stats Linked PbufDefs NetifDefs InetChksum Allocator Mem Memp PbufMem World Pbuf PbufData PbufChains PbufLinks IpAddr IpDefs IpOutput IpHeader IpSend Icmp IcmpEcho IpReass IpInput IpInputFacts Udp UdpPorts UdpFlow.

Local Open Scope Z_scope.

Module UdpSend.
Import ByteOrder Fields Linked InetChksum Memp Pbuf PbufData PbufChains PbufLinks IpAddr IpDefs IpOutput IpHeader IpSend Icmp IcmpEcho Udp UdpPorts UdpFlow.

(** The bytes of a UDP header; the checksum is stored as it was computed. *)
Definition udp_header (src dest len chk : Z) : list Z :=
  be16 src ++ be16 dest ++ be16 len ++ [chk mod 256; chk / 256].

(** The header as the code writes it. *)
Definition header_writes (m : memory) (a src dest : Z) : memory :=
  st16 (st16 (st16 m (a + UDPH_src) (PP_HTONS src)) (a + UDPH_dest) (PP_HTONS dest)) (a + UDPH_chksum) 0.

Lemma bytes8 m a : bytes m a 8 = bytes m a 2 ++ bytes m (a + 2) 2 ++ bytes m (a + 4) 2 ++ bytes m (a + 6) 2.
Proof. change 8%nat with (2 + (2 + (2 + 2)))%nat. rewrite !bytes_app, <- !Z.add_assoc. done. Qed.

Lemma header_writes_spec m a src dest len chk :
  0 <= src < 65536 -> 0 <= dest < 65536 -> 0 <= len < 65536 -> 0 <= chk < 65536 ->
  let m1 := st16 (header_writes m a src dest) (a + UDPH_len) (PP_HTONS len) in
  bytes m1 a 8 = udp_header src dest len 0 /\ frame m m1 a 8 /\
  bytes (st16 m1 (a + UDPH_chksum) chk) a 8 = udp_header src dest len chk /\ frame m (st16 m1 (a + UDPH_chksum) chk) a 8.
Proof.
  intros Hs Hd Hl Hc m1. unfold m1, header_writes, UDPH_src, UDPH_dest, UDPH_len, UDPH_chksum. rewrite Z.add_0_r.
  rewrite !bytes8. unfold udp_header. split; [| split; [| split]].
  - f_equal; [skip_writes; by apply bytes_st16_htons |]. f_equal; [skip_writes; by apply bytes_st16_htons |].
    f_equal; [by apply bytes_st16_htons |]. skip_writes. by apply bytes_st16.
  - intros x Hx. by skip_writes8.
  - f_equal; [skip_writes; by apply bytes_st16_htons |]. f_equal; [skip_writes; by apply bytes_st16_htons |].
    f_equal; [skip_writes; by apply bytes_st16_htons |]. by apply bytes_st16.
  - intros x Hx. by skip_writes8.
Qed.

(** Bytes written in front of a packet. *)
Lemma data_front m m' p b l k h :
  lengths_ok ((p, b) :: l) -> apart l (payload b - k) k -> 0 <= k ->
  bytes m' (payload b - k) (Z.to_nat k) = h -> frame m m' (payload b - k) k ->
  chain_data m' ((p, move_payload b k) :: l) = h ++ chain_data m ((p, b) :: l).
Proof.
  intros Hl Hap Hk Hb Hf. cbn [lengths_ok] in Hl. destruct Hl as (_ & Hlen & _ & Hl).
  assert (chain_data m' l = chain_data m l) as El.
  { apply (chain_data_frame m m' l (payload b - k) k k 0 Hl Hap); [lia | lia |]. by rewrite Z.add_0_r. }
  cbn [chain_data]. rewrite El. cbn [payload len move_payload]. rewrite app_assoc. f_equal.
  replace (Z.to_nat (len b + k)) with (Z.to_nat k + Z.to_nat (len b))%nat by lia. rewrite bytes_app, Hb. f_equal.
  replace (payload b - k + Z.of_nat (Z.to_nat k)) with (payload b) by lia. apply bytes_ext. intros x Hx. apply Hf. lia.
Qed.

Lemma chain_front (st : pstore) p b l k :
  chain st p ((p, b) :: l) -> lengths_ok ((p, b) :: l) -> 0 <= k -> tot_len b + k < 65536 ->
  chain (<[p := move_payload b k]> st) p ((p, move_payload b k) :: l) /\ lengths_ok ((p, move_payload b k) :: l).
Proof.
  intros Hc Hl Hk Ht. pose proof (chain_NoDup _ _ _ Hc) as Hnd. inversion Hc as [| ? ? ? Hp Hb Hc']; subst.
  cbn in Hnd. apply NoDup_cons in Hnd as [Hni _]. cbn [lengths_ok] in Hl |- *. destruct Hl as (H1 & H2 & H3 & H4). split.
  - constructor; [done | apply lookup_insert_eq |]. by apply chain_insert_ne.
  - cbn. split; [lia |]. split; [lia |]. split; [lia | done].
Qed.

(** The checksum as the code computes and stores it. *)
Lemma stored_chksum src dst proto n sp dp d c :
  pseudo_args src dst proto n -> 0 <= sp < 65536 -> 0 <= dp < 65536 -> Forall (fun x => 0 <= x < 256) d ->
  c = 65535 - inet_sum (pseudo_header src dst proto n ++ udp_header sp dp n 0 ++ d) ->
  let chk := if c =? 0 then 0xffff else c in
  0 < chk < 65536 /\ sums_to_ones (pseudo_header src dst proto n ++ udp_header sp dp n chk ++ d).
Proof.
  intros (Hs & Hd & Hp & Hn) Hsp Hdp Hr Hc chk.
  set (d1 := pseudo_header src dst proto n ++ be16 sp ++ be16 dp ++ be16 n).
  assert (forall x y, pseudo_header src dst proto n ++ (be16 sp ++ be16 dp ++ be16 n ++ [x; y]) ++ d = d1 ++ [x; y] ++ d) as Ed.
  { intros x y. unfold d1. by rewrite <- !app_assoc. }
  pose proof (oc_fold_range (word_sum (d1 ++ [0; 0] ++ d))) as Hrange. unfold udp_header in *. rewrite Ed in Hc |- *.
  change (oc_fold (word_sum (d1 ++ [0; 0] ++ d))) with (inet_sum (d1 ++ [0; 0] ++ d)) in Hrange. change (0 mod 256) with 0 in Hc. change (0 / 256) with 0 in Hc.
  split; [unfold chk; destruct (Z.eqb_spec c 0); lia |].
  apply sum_closed; [done | | done | unfold chk; destruct (Z.eqb_spec c 0); [right; lia | by left]].
  unfold d1, pseudo_header, be16. repeat (constructor; [zlia |]). constructor.
Qed.

Section send.
Context {W X U : Type} `{LW : MemSystemLaws W} `{HU : HasUdp U}.
Context (stale : Z -> Z) (custom_free : pstate W -> Z -> option (pstate W)).
Context (netif_output : X -> pstate W -> Z -> netif -> Z -> Z -> option (X * pstate W * Z)).

Implicit Type s : istate W X U.

(** Data to be sent with the control block [pcb]: pbufs with room for the headers
    in front of them. *)
Record udp_data s L (p : Z) (b : pbuf) (l : list (Z * pbuf)) (pcb : Z) (c : udp_pcb) : Prop := {
  ud_sys : psys (i_p s) L;
  ud_chain : chain (pst (i_p s)) p ((p, b) :: l);
  ud_lens : lengths_ok ((p, b) :: l);
  ud_apart : apart l (payload b - 28) 28;
  ud_own : owned b;
  ud_room : p + 16 <= payload b - 28;
  ud_tot : tot_len b + 28 < 65536;
  ud_pcb : u_pcbs (udp_of s) !! pcb = Some c;
  ud_port : 0 < up_local_port c < 65536;
  ud_ttl : 0 <= up_ttl c < 256;
  ud_tos : 0 <= up_tos c < 256
}.

(** The address a datagram is sent from. *)
Definition source (c : udp_pcb) (n : netif) : Z := if up_local_ip c =? IPADDR_ANY then nif_ip_addr n else up_local_ip c.

(** What the interface is given: the packet with the two headers in front. *)
Definition datagram_sent s L (p : Z) (b : pbuf) (l : list (Z * pbuf)) (c : udp_pcb) (n : netif) (dst_ip dst_port : Z)
    (ps : pstate W) : Prop :=
  let d := chain_data (i_mem s) ((p, b) :: l) in
  let iph := out_header (tot_len b + 28) (source c n) dst_ip (up_ttl c) (up_tos c) IP_PROTO_UDP (i_id s) in
  pst ps = <[p := move_payload b 28]> (pst (i_p s)) /\ psys ps L /\ frame (i_mem s) (mem_of ps) (payload b - 28) 28 /\
  exists chk, chain_data (mem_of ps) ((p, move_payload b 28) :: l) =
      encode iph ++ udp_header (up_local_port c) dst_port (tot_len b + 8) chk ++ d /\
    sums_to_ones (encode iph) /\
    if Z.land (up_flags c) UDP_FLAGS_NOCHKSUM =? 0 then
      chk <> 0 /\ sums_to_ones (pseudo_header (source c n) dst_ip IP_PROTO_UDP (tot_len b + 8) ++
                                udp_header (up_local_port c) dst_port (tot_len b + 8) chk ++ d)
    else chk = 0.

Lemma psys_front (ps : pstate W) L p b k :
  psys ps L -> pst ps !! p = Some b -> owned b -> 0 <= k -> p + 16 <= payload b - k ->
  psys (set_pst ps (<[p := move_payload b k]> (pst ps))) L.
Proof.
  intros Hs Hb Hown Hk Hr. pose proof (ps_pbuf _ _ Hs p b Hb) as (H1 & H2 & H3 & H4 & j & Hj & H6 & H7).
  apply psys_update; [done |]. split; [done |]. cbn. split; [done |]. split; [lia |]. split; [done |].
  exists j. split; [done |]. split; [done |]. destruct Hown as [E | E]; rewrite E in H7 |- *; lia.
Qed.

(** The state after the UDP header was written; [chk] is the checksum in it. *)
Record wrapped s L (p : Z) (b : pbuf) (l : list (Z * pbuf)) (c : udp_pcb) (n : netif) (dst_ip dst_port : Z) (s' : istate W X U)
    (chk : Z) : Prop := {
  wr_rest : exists ps, s' = set_i_p s ps;
  wr_pst : pst (i_p s') = <[p := move_payload b 8]> (pst (i_p s));
  wr_sys : psys (i_p s') L;
  wr_bytes : bytes (i_mem s') (payload b - 8) 8 = udp_header (up_local_port c) dst_port (tot_len b + 8) chk;
  wr_frame : frame (i_mem s) (i_mem s') (payload b - 8) 8;
  wr_chk : if Z.land (up_flags c) UDP_FLAGS_NOCHKSUM =? 0 then
      chk <> 0 /\ sums_to_ones (pseudo_header (source c n) dst_ip IP_PROTO_UDP (tot_len b + 8) ++
                                udp_header (up_local_port c) dst_port (tot_len b + 8) chk ++ chain_data (i_mem s) ((p, b) :: l))
    else chk = 0
}.

Lemma header_written s L p b l pcb c n dst_ip dst_port :
  udp_data s L p b l pcb c -> 0 <= source c n < 4294967296 -> 0 <= dst_ip < 4294967296 -> 0 <= dst_port < 65536 ->
  let a := payload b - 8 in
  let s1 := put_pbuf s p (move_payload b 8) in
  let s2 := i_write s1 (header_writes (i_mem s1) a (up_local_port c) dst_port) in
  let s3 := i_write s2 (st16 (i_mem s2) (a + UDPH_len) (PP_HTONS (tot_len b + 8))) in
  exists s' chk, wrapped s L p b l c n dst_ip dst_port s' chk /\
    (if Z.land (up_flags c) UDP_FLAGS_NOCHKSUM =? 0 then
       c ← inet_chksum_pseudo (i_mem s3) (pst (i_p s3)) p (source c n) dst_ip IP_PROTO_UDP (tot_len b + 8);
       Some (i_write s3 (st16 (i_mem s3) (a + UDPH_chksum) (if c =? 0 then 0xffff else c)))
     else Some s3) = Some s'.
Proof.
  intros [Hs Hc Hl Hap Hown Hroom Htot Hpcb Hport _ _] Hsrc Hdst Hdp a s1 s2 s3.
  inversion Hc as [| ? ? ? Hp Hb _]; subst. pose proof Hl as (Ht & Hln & _ & Hl'). pose proof (chain_len_nonneg l Hl') as Hcl.
  pose proof (psys_front (i_p s) L p b 8 Hs Hb Hown ltac:(lia) ltac:(lia)) as Hs1.
  set (m1 := st16 (header_writes (i_mem s) a (up_local_port c) dst_port) (a + UDPH_len) (PP_HTONS (tot_len b + 8))).
  assert (i_mem s2 = header_writes (i_mem s) a (up_local_port c) dst_port) as E2 by apply ms_mem_set.
  assert (i_mem s3 = m1) as E3 by (unfold m1; rewrite <- E2; apply ms_mem_set).
  assert (forall x, 0 <= x < 65536 -> let m2 := st16 m1 (a + UDPH_chksum) x in
    bytes m1 a 8 = udp_header (up_local_port c) dst_port (tot_len b + 8) 0 /\ frame (i_mem s) m1 a 8 /\
    bytes m2 a 8 = udp_header (up_local_port c) dst_port (tot_len b + 8) x /\ frame (i_mem s) m2 a 8) as Hw.
  { intros x Hx. apply header_writes_spec; lia. }
  assert (forall ps, psys ps L -> pst ps = <[p := move_payload b 8]> (pst (i_p s)) -> forall m, frame (mem_of ps) m a 8 -> psys (set_mem ps m) L) as Hwr.
  { intros ps Hps Est m Hf. apply (psys_payload_write ps L p (move_payload b 8)); [done | rewrite Est; apply lookup_insert_eq | done |].
    cbn. fold a. intros x Hx. apply Hf. lia. }
  destruct (Hw 0 ltac:(lia)) as (Hb1 & Hf1 & _).
  assert (psys (i_p s2) L) as Hs2.
  { apply Hwr; [exact Hs1 | done |]. intros x Hx. unfold header_writes, UDPH_src, UDPH_dest, UDPH_chksum. by skip_writes8. }
  assert (psys (i_p s3) L) as Hs3.
  { apply Hwr; [exact Hs2 | done |]. intros x Hx. unfold UDPH_len. by skip_writes8. }
  destruct (Z.land (up_flags c) UDP_FLAGS_NOCHKSUM =? 0) eqn:En.
  2: { exists s3, 0. split; [| done]. split; [by eexists | done | done | by rewrite E3 | by rewrite E3 | by rewrite En]. }
  destruct (chain_front _ p b l 8 Hc Hl ltac:(lia) ltac:(lia)) as [Hc8 Hl8].
  destruct (packet_chksum_spec m1 _ p _ (source c n) dst_ip IP_PROTO_UDP (tot_len b + 8) 0 Hc8 (lengths_ok_nonneg _ Hl8))
    as (_ & Hck & _); [repeat split; unfold IP_PROTO_UDP; lia | lia |].
  change (pst (i_p s3)) with (<[p := move_payload b 8]> (pst (i_p s))). rewrite E3, Hck. cbn [mbind option_bind].
  assert (apart l (payload b - 8) 8) as Hap8 by (eapply Forall_impl; [exact Hap |]; cbn; lia).
  rewrite (data_front (i_mem s) m1 p b l 8 _ Hl Hap8 ltac:(lia) Hb1 Hf1).
  set (c0 := 65535 - _).
  destruct (stored_chksum (source c n) dst_ip IP_PROTO_UDP (tot_len b + 8) (up_local_port c) dst_port (chain_data (i_mem s) ((p, b) :: l)) c0)
    as [Hx Hsum]; [repeat split; unfold IP_PROTO_UDP; lia | lia | lia | apply chain_data_range | done |].
  cbn zeta in Hx, Hsum. set (chk := if c0 =? 0 then 0xffff else c0) in *. clearbody chk. clear c0.
  destruct (Hw chk ltac:(lia)) as (_ & _ & Hb4 & Hf4). eexists _, chk. split; [| done].
  set (m2 := st16 m1 (a + UDPH_chksum) chk) in *. assert (i_mem (i_write s3 m2) = m2) as E4 by apply ms_mem_set.
  split; [by eexists | done | | by rewrite E4 | by rewrite E4 | rewrite En; split; [lia | done]].
  apply Hwr; [exact Hs3 | done |]. intros x Hx'. change (mem_of (i_p s3)) with (i_mem s3). rewrite E3. unfold m2, UDPH_chksum. by skip_writes8.
Qed.

(** The IP header in front of the UDP header. *)
Lemma wrapped_sent s L p b l pcb c n dst_ip dst_port s' chk ps :
  udp_data s L p b l pcb c -> wrapped s L p b l c n dst_ip dst_port s' chk -> psys ps L ->
  let iph := out_header (tot_len b + 28) (source c n) dst_ip (up_ttl c) (up_tos c) IP_PROTO_UDP (i_id s) in
  with_header s' p (move_payload b 8) iph ps -> sums_to_ones (encode iph) -> datagram_sent s L p b l c n dst_ip dst_port ps.
Proof.
  intros [Hs Hc Hl Hap Hown Hroom Htot Hpcb Hport Httl Htos] [_ Hpst Hsys Hby Hfr Hchk] Hpsys iph (Hps1 & _ & Hps2 & Hps3) Hsum.
  rewrite move_twice, Hpst, insert_insert_eq in Hps1. change (8 + 20) with 28 in Hps1. cbn [payload move_payload] in Hps2, Hps3.
  replace (payload b - 8 - 20) with (payload b - 28) in Hps2, Hps3 by lia.
  assert (frame (i_mem s) (mem_of ps) (payload b - 28) 28) as Hf28.
  { intros x Hx. rewrite Hps3 by lia. apply Hfr. lia. }
  assert (bytes (mem_of ps) (payload b - 28) (Z.to_nat 28) = encode iph ++ udp_header (up_local_port c) dst_port (tot_len b + 8) chk) as Hb28.
  { change (Z.to_nat 28) with (20 + 8)%nat. rewrite bytes_app. f_equal; [exact Hps2 |]. rewrite <- Hby.
    replace (payload b - 28 + Z.of_nat 20) with (payload b - 8) by lia. apply bytes_ext. intros x Hx. apply Hps3. lia. }
  split; [done |]. split; [done |]. split; [done |]. exists chk. split; [| by split].
  by rewrite (data_front (i_mem s) (mem_of ps) p b l 28 _ Hl Hap ltac:(lia) Hb28 Hf28), <- app_assoc.
Qed.

(** The steps of the code up to [ip_output_if]. *)
Lemma sendto_if_steps s L p b l pcb c np n dst_ip dst_port s' chk :
  udp_data s L p b l pcb c -> netif_at s np = Some n -> up_local_ip c = IPADDR_ANY \/ up_local_ip c = nif_ip_addr n ->
  wrapped s L p b l c n dst_ip dst_port s' chk ->
  (let a := payload b - 8 in
   let s1 := put_pbuf s p (move_payload b 8) in
   let s2 := i_write s1 (header_writes (i_mem s1) a (up_local_port c) dst_port) in
   let s3 := i_write s2 (st16 (i_mem s2) (a + UDPH_len) (PP_HTONS (tot_len b + 8))) in
   (if Z.land (up_flags c) UDP_FLAGS_NOCHKSUM =? 0 then
      c ← inet_chksum_pseudo (i_mem s3) (pst (i_p s3)) p (source c n) dst_ip IP_PROTO_UDP (tot_len b + 8);
      Some (i_write s3 (st16 (i_mem s3) (a + UDPH_chksum) (if c =? 0 then 0xffff else c)))
    else Some s3) = Some s') ->
  udp_sendto_if stale custom_free netif_output s pcb p dst_ip dst_port np =
    ('(s, err) ← ip_output_if stale custom_free netif_output s' p (source c n) (Some dst_ip) (up_ttl c) (up_tos c) IP_PROTO_UDP np;
     Some (UDP_STATS_INC c_xmit s, err)).
Proof.
  intros [Hs Hc Hl Hap Hown Hroom Htot Hpcb Hport Httl Htos] Hn Hsrc _ Hck. cbn zeta in Hck.
  inversion Hc as [| ? ? ? Hp Hb _]; subst. pose proof Hl as (Ht & Hln & _ & Hl'). pose proof (chain_len_nonneg l Hl') as Hcl.
  unfold udp_sendto_if. rewrite Hn. cbn [mbind option_bind]. rewrite Hpcb. cbn [mbind option_bind].
  rewrite (proj2 (Z.eqb_neq (up_local_port c) 0)) by lia. cbn [mbind option_bind]. change (negb (ERR_OK =? ERR_OK)) with false. cbn iota.
  unfold udp_room, UDP_HLEN. assert (i_pbuf s p = Some b) as Hb' by exact Hb.
  pose proof (header_put s p b 0 8 Hp ltac:(lia) ltac:(lia) ltac:(lia) ltac:(lia)) as Hh.
  rewrite move_none, (put_pbuf_id s p b Hb'), Z.add_0_l in Hh. rewrite Hh.
  2: { unfold header_fits, SIZEOF_STRUCT_PBUF. destruct Hown as [-> | ->]; lia. }
  cbn [mbind option_bind]. change (negb (0 =? 0)) with false. cbn iota. cbn [mbind option_bind].
  rewrite (proj2 (Z.eqb_neq p 0)) by done.
  change (udp_of (put_pbuf s p (move_payload b 8))) with (udp_of s). rewrite Hpcb. cbn [mbind option_bind].
  rewrite i_pbuf_put. cbn [mbind option_bind]. replace (negb (up_local_ip c =? IPADDR_ANY) && negb (up_local_ip c =? nif_ip_addr n)) with false.
  2: { symmetry. apply andb_false_iff. rewrite !negb_false_iff, !Z.eqb_eq. done. }
  fold (source c n). change (payload (move_payload b 8)) with (payload b - 8). change (tot_len (move_payload b 8)) with (tot_len b + 8).
  fold (header_writes (i_mem (put_pbuf s p (move_payload b 8))) (payload b - 8) (up_local_port c) dst_port).
  rewrite Hck. cbn [mbind option_bind].
  destruct (ip_output_if stale custom_free netif_output s' p (source c n) (Some dst_ip) (up_ttl c) (up_tos c) IP_PROTO_UDP np)
    as [[s4 err] |]; [| done]. cbn [mbind option_bind]. unfold free_header. by rewrite Z.eqb_refl.
Qed.

Lemma source_ok c n :
  0 <= nif_ip_addr n < 4294967296 -> up_local_ip c = IPADDR_ANY \/ up_local_ip c = nif_ip_addr n ->
  0 <= source c n < 4294967296 /\ (if source c n =? 0 then nif_ip_addr n else source c n) = source c n.
Proof.
  intros Hip Hsrc. unfold source. change IPADDR_ANY with 0 in *. destruct (Z.eqb_spec (up_local_ip c) 0) as [E | E].
  - split; [done |]. destruct (Z.eqb_spec (nif_ip_addr n) 0); lia.
  - destruct Hsrc as [? | ->]; [done |]. split; [done |]. destruct (Z.eqb_spec (nif_ip_addr n) 0); lia.
Qed.

Lemma sendto_if_spec s L p b l pcb c np n dst_ip dst_port :
  udp_data s L p b l pcb c -> netif_at s np = Some n -> 0 <= nif_ip_addr n < 4294967296 -> 0 <= dst_ip < 4294967296 ->
  0 <= dst_port < 65536 -> 0 <= i_id s < 65536 -> nif_mtu n = 0 \/ tot_len b + 28 <= nif_mtu n ->
  up_local_ip c = IPADDR_ANY \/ up_local_ip c = nif_ip_addr n ->
  exists ps, datagram_sent s L p b l c n dst_ip dst_port ps /\
    udp_sendto_if stale custom_free netif_output s pcb p dst_ip dst_port np =
      ('(x, ps', r) ← netif_output (i_low s) ps np n p dst_ip; Some (UDP_STATS_INC c_xmit (sent s x ps'), r)).
Proof.
  intros Hu Hn Hip Hdst Hdp Hid Hmtu Hsrc. pose proof Hu as [Hs Hc Hl Hap Hown Hroom Htot Hpcb Hport Httl Htos].
  inversion Hc as [| ? ? ? Hp Hb _]; subst. pose proof Hl as (Ht & Hln & _ & Hl'). pose proof (chain_len_nonneg l Hl') as Hcl.
  destruct (source_ok c n Hip Hsrc) as [Hsr Esrc].
  destruct (header_written s L p b l pcb c n dst_ip dst_port Hu Hsr Hdst Hdp) as (s' & chk & Hwr & Hck).
  rewrite (sendto_if_steps s L p b l pcb c np n dst_ip dst_port s' chk Hu Hn Hsrc Hwr Hck).
  pose proof Hwr as [[ps0 ->] Hpst Hsys _ _ _].
  assert (sendable (set_i_p s ps0) p (move_payload b 8)) as Hsend.
  { unfold sendable, i_pbuf. rewrite Hpst, lookup_insert_eq. cbn. split; [done |]. split; [done |]. split; [lia | done]. }
  pose proof (output_if_spec stale custom_free netif_output (set_i_p s ps0) L p (move_payload b 8) (source c n) dst_ip (up_ttl c) (up_tos c)
    IP_PROTO_UDP np n Hsys Hsend Hn Hip ltac:(split; unfold IP_PROTO_UDP; lia) Hid ltac:(cbn; lia)) as Hout.
  cbn [payload tot_len move_payload] in Hout. rewrite Esrc in Hout. rewrite (proj2 (Z.ltb_ge _ _)) in Hout by lia.
  replace (tot_len b + 8 + 20) with (tot_len b + 28) in Hout by lia. destruct Hout as (ps & Hwh & Hpsys & _ & Hsum & ->).
  exists ps. split; [exact (wrapped_sent s L p b l pcb c n dst_ip dst_port _ chk ps Hu Hwr Hpsys Hwh Hsum) |].
  change (i_low (set_i_p s ps0)) with (i_low s). by destruct (netif_output (i_low s) ps np n p dst_ip) as [[[x ps'] r] |].
Qed.

(** C31: [udp_sendto] sends a datagram that needs no fragments: with the headers of 28 bytes it
    fits the MTU of every interface that has one, and 16 bits.  With no route it returns
    ERR_RTE and only
    counts.  Otherwise, for data in pbufs with room for the headers and a bound
    control block whose address is that of every interface or stands for all, the
    interface on the route is given, exactly once, the data with 28 bytes in
    front: an IP header that verifies and a UDP header with the two ports, the
    length and, unless the block has it switched off, a non-zero checksum such
    that pseudo header, header and data verify, which is what the receiver
    tests.  No other byte and no other pbuf changes. *)
Theorem udp_sendto_correct s L p b l pcb c dst_ip dst_port :
  udp_data s L p b l pcb c -> netifs_ok (i_netifs s) (i_default s) -> 0 <= dst_ip < 4294967296 -> 0 <= dst_port < 65536 ->
  0 <= i_id s < 65536 ->
  (forall np n, (np, n) ∈ i_netifs s -> (nif_mtu n = 0 \/ tot_len b + 28 <= nif_mtu n) /\
     (up_local_ip c = IPADDR_ANY \/ up_local_ip c = nif_ip_addr n)) ->
  (unroutable s dst_ip /\
     udp_sendto stale custom_free netif_output s pcb p dst_ip dst_port =
       Some (UDP_STATS_INC c_rterr (IP_STATS_INC c_rterr s), ERR_RTE)) \/
  (exists np n ps, routed s dst_ip np n /\ datagram_sent s L p b l c n dst_ip dst_port ps /\
     udp_sendto stale custom_free netif_output s pcb p dst_ip dst_port =
       ('(x, ps', r) ← netif_output (i_low s) ps np n p dst_ip; Some (UDP_STATS_INC c_xmit (sent s x ps'), r))).
Proof.
  intros Hu Hn Hdst Hdp Hid Hif. unfold udp_sendto.
  destruct (route_spec s dst_ip Hn) as [(np & n & -> & Hr) | [-> Hun]]; cbn [mbind option_bind].
  - right. pose proof Hr as (Hnp & Hat & _). rewrite (proj2 (Z.eqb_neq np 0)) by done.
    assert ((np, n) ∈ i_netifs s) as Hin by (apply netif_in_elem; [apply Hn | done]). destruct (Hif np n Hin) as [Hmtu Hsrc].
    destruct (sendto_if_spec s L p b l pcb c np n dst_ip dst_port Hu Hat (no_addr _ _ Hn np n Hin) Hdst Hdp Hid Hmtu Hsrc) as (ps & Hs & E).
    by exists np, n, ps.
  - left. by split.
Qed.

End send.

(** ** A sample datagram *)

#[local] Existing Instance World.world_system.
#[local] Existing Instance World.sample_laws.

(** A control block bound to port 7, its callback and argument. *)
Definition sample_pcb : udp_pcb := mkUdpPcb 0 0 0 0 255 0 0 7 0 1 99.
Definition sample_bound : udp_state := mkUdp {[ 64 := sample_pcb ]} 64 0xc000 sample_stats.

Definition sample_sender : istate World.world (list (Z * Z)) udp_state := set_up sample_stack sample_bound.

Lemma udp_sendto_correct_witness :
  exists s', udp_sendto no_stale no_custom sample_link sample_sender 64 4108 0x1401a8c0 53 = Some (s', ERR_OK) /\
    i_low s' = [(4108, 0x1401a8c0)] /\ i_id s' = 8.
Proof.
  destruct (sample_alloc_ok sample_empty ∅ PBUF_TRANSPORT 100 PBUF_RAM sample_empty_ok ltac:(lia)
    ltac:(intros _; unfold ram_length_ok; lia)) as [L HL].
  assert (udp_data sample_sender L 4108 (mkPbuf 0 4180 100 100 PBUF_RAM 0 1) [] 64 sample_pcb) as Hu.
  { split; [exact HL | constructor; [done | by vm_compute | constructor] | cbn; lia | constructor | by left | cbn; lia | cbn; lia
      | by vm_compute | cbn; lia | cbn; lia | cbn; lia]. }
  destruct (udp_sendto_correct no_stale no_custom sample_link sample_sender L 4108 _ [] 64 sample_pcb 0x1401a8c0 53 Hu sample_netifs_ok)
    as [[[Hn _] _] | (np & n & ps & _ & _ & E)]; [lia | lia | cbn; lia
    | intros np n [= -> ->]%list_elem_of_singleton; split; [right; cbn; lia | by left] | |].
  - exfalso. specialize (Hn 1 sample_lan ltac:(by apply list_elem_of_singleton)). done.
  - eexists. split; [exact E |]. split; reflexivity.
Defined.

(** A datagram from port 53 to port 7, without a checksum. *)
Definition sample_datagram_pbufs : pstate World.world :=
  set_mem sample_unwrapped (st_bytes (mem_of sample_unwrapped) 19910
    (encode (out_header 32 0x1401a8c0 0x0a01a8c0 64 0 IP_PROTO_UDP 7) ++ udp_header 53 7 12 0 ++ [97; 98; 99; 100])).
Definition sample_receiver : istate World.world (list (Z * Z)) udp_state :=
  set_up (set_i_p sample_ping_state sample_datagram_pbufs) sample_bound.

Definition sample_recv (s : istate World.world (list (Z * Z)) udp_state) (f arg pcb p addr port : Z)
    : option (istate World.world (list (Z * Z)) udp_state) := Some (set_low s (i_low s ++ [(p, port)])).

Lemma sample_datagram_ok : exists L, datagram sample_receiver L 19880 sample_head [] 1 sample_lan.
Proof.
  destruct (sample_alloc_ok sample_empty ∅ PBUF_RAW 46 PBUF_POOL sample_empty_ok ltac:(lia) ltac:(done)) as [L HL].
  exists L. assert (pst sample_received !! 19880 = Some (mkPbuf 0 19896 46 46 PBUF_POOL 0 1)) as Hb by (vm_compute; reflexivity).
  pose proof (ps_pbuf _ _ HL 19880 _ Hb) as (H1 & H2 & H3 & H4 & n & Hn & H6 & H7). cbn in H7.
  assert (psys sample_unwrapped L) as Hu.
  { apply psys_update; [done |]. split; [done |]. cbn. split; [lia |]. split; [lia |]. split; [done |].
    exists n. split; [done |]. split; [done |]. lia. }
  split; [| constructor; [done | by apply lookup_insert_eq | constructor] | cbn; lia | by right | by vm_compute | done | cbn; lia | cbn; lia].
  apply (psys_payload_write sample_unwrapped L 19880 sample_head); [done | by apply lookup_insert_eq | by right |].
  intros x Hx. cbn [payload len sample_head] in Hx. apply ld8_st_bytes_ne.
  change (Z.of_nat (length (encode _ ++ udp_header 53 7 12 0 ++ [97; 98; 99; 100]))) with 32. lia.
Qed.

Lemma sample_bound_ok : udp_ok sample_bound [(64, sample_pcb)].
Proof.
  split; [constructor; [done | by vm_compute | constructor] | split; cbn; lia | | |].
  - intros q b [= -> ->]%list_elem_of_singleton. cbn. lia.
  - intros q b q' b' [= -> ->]%list_elem_of_singleton [= -> ->]%list_elem_of_singleton. done.
  - intros q b Hq Hni. cbn in Hq. apply lookup_singleton_Some in Hq as [<- _]. destruct Hni. by apply list_elem_of_singleton.
Qed.

Lemma udp_input_delivers_witness :
  exists u' l', reordered sample_bound [(64, sample_pcb)] [(64, sample_pcb)] u' l' /\
    udp_input no_stale no_custom sample_link sample_recv sample_receiver 19880 1 =
      sample_recv (put_pbuf (set_udp sample_receiver u') 19880 (move_payload sample_head (-28))) 1 99 64 19880 0x1401a8c0 53.
Proof.
  destruct sample_datagram_ok as [L HL].
  destruct (udp_input_delivers (HU := udp_itself) no_stale no_custom sample_link sample_recv sample_receiver L 19880 sample_head [] 1 sample_lan
    [(64, sample_pcb)] HL sample_bound_ok) as (u' & l' & Hre & E).
  exists u', l'. split; [exact Hre |]. refine (eq_trans E _). clear E.
  assert (IpInputFacts.hlen_of (i_mem sample_receiver) (payload sample_head) = 20) as -> by (vm_compute; reflexivity).
  assert (PP_HTONS (ld16 (i_mem sample_receiver) (payload sample_head + 20)) = 53) as -> by (vm_compute; reflexivity).
  reflexivity.
Defined.

End UdpSend.
