(* ===== verification/TcpDefs.v ===== *)
(** The data of TCP: src/include/lwip/tcp.h, src/include/lwip/tcp_impl.h and the
    variables of src/core/tcp.c and tcp_in.c of lwIP 1.4.1 in the configuration of
    the firmware (no timestamps, LWIP_TCP_KEEPALIVE 0, TCP_OVERSIZE TCP_MSS,
    TCP_QUEUE_OOSEQ 1, TCP_LISTEN_BACKLOG 1, LWIP_CALLBACK_API 1, LWIP_DEBUG, SO_REUSE 0).

    Control blocks, listening control blocks and segments are the entries of
    finite maps from addresses; the header of a segment is in the bytes of its
    packet, at the address [sg_tcphdr].  The variables of TCP are a part of the
    upper state of the IP layer, reached through the interface [HasTcp]. *)

From stdpp Require Import base tactics numbers list gmap.
From Stdlib Require Import ZArith Lia.
From S2P Require Import Prelude ByteOrder Stats Linked PbufDefs NetifDefs Allocator Mem Memp PbufMem Pbuf IpDefs.

Local Open Scope Z_scope.

(** Assignments to fields, in the order of the code: [b |> set_f x |> set_g y]. *)
Declare Scope update_scope.
Delimit Scope update_scope with upd.
Notation "b |> f" := (f b) (at level 69, left associativity, only parsing) : update_scope.
#[global] Open Scope update_scope.

(** The term [e], which mentions the field [y], with [x] in its place. *)
Ltac replace_field e y x :=
  let p := eval pattern y in e in
  match p with ?g _ => let r := eval cbv beta in (g x) in exact r end.

Module TcpDefs.
Import ByteOrder Linked Memp Pbuf IpDefs.

(** ** Constants *)

Definition TCP_MSS : Z := 536.
Definition TCP_WND : Z := 4 * TCP_MSS.
Definition TCP_SND_BUF : Z := 8 * TCP_MSS.
Definition TCP_SND_QUEUELEN : Z := 4 * TCP_SND_BUF / TCP_MSS.
Definition TCP_SNDQUEUELEN_OVERFLOW : Z := 0xffff - 3.
Definition TCP_OVERSIZE : Z := TCP_MSS.
Definition TCP_WND_UPDATE_THRESHOLD : Z := TCP_WND / 4.
Definition TCP_MAXRTX : Z := 12.
Definition TCP_SYNMAXRTX : Z := 4.
Definition TCP_TTL : Z := 255.

Definition TCP_LOCAL_PORT_RANGE_START : Z := 0xc000.
Definition TCP_LOCAL_PORT_RANGE_END : Z := 0xffff.

(** Times in milliseconds, and the time between two slow timers. *)
Definition TCP_SLOW_INTERVAL : Z := 500.
Definition TCP_FIN_WAIT_TIMEOUT : Z := 20000.
Definition TCP_SYN_RCVD_TIMEOUT : Z := 20000.
Definition TCP_OOSEQ_TIMEOUT : Z := 6.
Definition TCP_MSL : Z := 60000.
Definition TCP_KEEPIDLE_DEFAULT : Z := 7200000.
Definition TCP_KEEPINTVL_DEFAULT : Z := 75000.
Definition TCP_KEEPCNT_DEFAULT : Z := 9.
Definition TCP_MAXIDLE : Z := TCP_KEEPCNT_DEFAULT * TCP_KEEPINTVL_DEFAULT.

Definition tcp_backoff : list Z := [1; 2; 3; 4; 5; 6; 7; 7; 7; 7; 7; 7; 7].
Definition tcp_persist_backoff : list Z := [3; 6; 12; 24; 48; 96; 120].

Definition TCP_PRIO_NORMAL : Z := 64.
Definition TCP_PRIO_MAX : Z := 127.

Definition SOF_ACCEPTCONN : Z := 0x02.
Definition SOF_KEEPALIVE : Z := 0x08.
Definition SOF_INHERITED : Z := 0x8c.

Definition TCP_WRITE_FLAG_COPY : Z := 0x01.
Definition TCP_WRITE_FLAG_MORE : Z := 0x02.

(** Flags of a header. *)
Definition TCP_FIN : Z := 0x01.
Definition TCP_SYN : Z := 0x02.
Definition TCP_RST : Z := 0x04.
Definition TCP_PSH : Z := 0x08.
Definition TCP_ACK : Z := 0x10.
Definition TCP_FLAGS : Z := 0x3f.

(** Flags of a control block. *)
Definition TF_ACK_DELAY : Z := 0x01.
Definition TF_ACK_NOW : Z := 0x02.
Definition TF_INFR : Z := 0x04.
Definition TF_RXCLOSED : Z := 0x10.
Definition TF_FIN : Z := 0x20.
Definition TF_NODELAY : Z := 0x40.
Definition TF_NAGLEMEMERR : Z := 0x80.

(** Flags of the input processing. *)
Definition TF_RESET : Z := 0x08.
Definition TF_CLOSED : Z := 0x10.
Definition TF_GOT_FIN : Z := 0x20.

(** Flags of a segment. *)
Definition TF_SEG_OPTS_MSS : Z := 0x01.

(** [x & f] as a condition, [x |= f] and [x &= ~f] on 8 bits. *)
Definition has (x f : Z) : bool := negb (Z.land x f =? 0).
Definition or_flag (x f : Z) : Z := Z.lor x f.
Definition clear_flag (x f : Z) : Z := Z.land x (Z.lnot f).

(** [LWIP_MIN] *)
Definition LWIP_MIN (x y : Z) : Z := if x <? y then x else y.

(** ** Sequence numbers *)

Definition TCP_SEQ_LT (a b : Z) : bool := s32 (u32 (a - b)) <? 0.
Definition TCP_SEQ_LEQ (a b : Z) : bool := s32 (u32 (a - b)) <=? 0.
Definition TCP_SEQ_GT (a b : Z) : bool := 0 <? s32 (u32 (a - b)).
Definition TCP_SEQ_GEQ (a b : Z) : bool := 0 <=? s32 (u32 (a - b)).
Definition TCP_SEQ_BETWEEN (a b c : Z) : bool := TCP_SEQ_GEQ a b && TCP_SEQ_LEQ a c.

(** ** Headers *)

Definition TCP_HLEN : Z := 20.

(** Offsets of the fields of [struct tcp_hdr]. *)
Definition TCPH_src : Z := 0.
Definition TCPH_dest : Z := 2.
Definition TCPH_seqno : Z := 4.
Definition TCPH_ackno : Z := 8.
Definition TCPH_hdrlen_rsvd_flags : Z := 12.
Definition TCPH_wnd : Z := 14.
Definition TCPH_chksum : Z := 16.
Definition TCPH_urgp : Z := 18.

Definition TCPH_HDRLEN (m : memory) (h : Z) : Z := Z.shiftr (PP_HTONS (ld16 m (h + TCPH_hdrlen_rsvd_flags))) 12.
Definition TCPH_FLAGS (m : memory) (h : Z) : Z := Z.land (PP_HTONS (ld16 m (h + TCPH_hdrlen_rsvd_flags))) TCP_FLAGS.
Definition TCPH_FLAGS_SET (m : memory) (h flags : Z) : memory :=
  st16 m (h + TCPH_hdrlen_rsvd_flags)
    (Z.lor (Z.land (ld16 m (h + TCPH_hdrlen_rsvd_flags)) (PP_HTONS (not16 TCP_FLAGS))) (PP_HTONS (u16 flags))).
Definition TCPH_HDRLEN_FLAGS_SET (m : memory) (h len flags : Z) : memory :=
  st16 m (h + TCPH_hdrlen_rsvd_flags) (PP_HTONS (u16 (Z.lor (Z.shiftl len 12) flags))).
Definition TCPH_SET_FLAG (m : memory) (h flags : Z) : memory :=
  st16 m (h + TCPH_hdrlen_rsvd_flags) (Z.lor (ld16 m (h + TCPH_hdrlen_rsvd_flags)) (PP_HTONS (u16 flags))).

(** [LWIP_TCP_OPT_LENGTH] and [TCP_BUILD_MSS_OPTION] *)
Definition LWIP_TCP_OPT_LENGTH (flags : Z) : Z := if has flags TF_SEG_OPTS_MSS then 4 else 0.
Definition TCP_BUILD_MSS_OPTION (mss : Z) : Z := lwip_htonl (Z.lor 0x02040000 (Z.land mss 0xFFFF)).

(** ** Segments and control blocks *)

Record tcp_seg := mkTcpSeg {
  sg_next : Z; sg_p : Z; sg_len : Z; sg_oversize_left : Z; sg_flags : Z; sg_tcphdr : Z }.
Ltac set_seg_field f x g :=
  let e := constr:(
    mkTcpSeg (sg_next g) (sg_p g) (sg_len g) (sg_oversize_left g) (sg_flags g) (sg_tcphdr g)) in
  replace_field e (f g) x.
Definition set_sg_next (x : Z) (g : tcp_seg) : tcp_seg := ltac:(set_seg_field sg_next x g).
Definition set_sg_p (x : Z) (g : tcp_seg) : tcp_seg := ltac:(set_seg_field sg_p x g).
Definition set_sg_len (x : Z) (g : tcp_seg) : tcp_seg := ltac:(set_seg_field sg_len x g).
Definition set_sg_oversize_left (x : Z) (g : tcp_seg) : tcp_seg := ltac:(set_seg_field sg_oversize_left x g).
Definition set_sg_flags (x : Z) (g : tcp_seg) : tcp_seg := ltac:(set_seg_field sg_flags x g).
Definition set_sg_tcphdr (x : Z) (g : tcp_seg) : tcp_seg := ltac:(set_seg_field sg_tcphdr x g).

(** The number of sequence numbers a segment takes. *)
Definition TCP_TCPLEN (m : memory) (g : tcp_seg) : Z :=
  sg_len g + (if has (TCPH_FLAGS m (sg_tcphdr g)) (Z.lor TCP_FIN TCP_SYN) then 1 else 0).

Inductive tcp_state :=
  CLOSED | LISTEN | SYN_SENT | SYN_RCVD | ESTABLISHED | FIN_WAIT_1 | FIN_WAIT_2 | CLOSE_WAIT | CLOSING | LAST_ACK | TIME_WAIT.

#[export] Instance tcp_state_eq_dec : EqDecision tcp_state.
Proof. solve_decision. Defined.

(** The values of the enumeration, which the code compares with [<] and [>=]. *)
Definition state_num (x : tcp_state) : Z :=
  match x with
  | CLOSED => 0 | LISTEN => 1 | SYN_SENT => 2 | SYN_RCVD => 3 | ESTABLISHED => 4 | FIN_WAIT_1 => 5 | FIN_WAIT_2 => 6
  | CLOSE_WAIT => 7 | CLOSING => 8 | LAST_ACK => 9 | TIME_WAIT => 10
  end.
Definition is_state (x y : tcp_state) : bool := bool_decide (x = y).

(** A pointer to a callback: NULL, the default function of tcp.c for this event
    ([tcp_recv_null], [tcp_accept_null]), or a function of the application. *)
Inductive fptr := FN_NULL | FN_DEFAULT | FN_APP (f : Z).

#[export] Instance fptr_eq_dec : EqDecision fptr.
Proof. solve_decision. Defined.

Record tcp_pcb := mkTcpPcb {
  tp_local_ip : Z; tp_remote_ip : Z; tp_so_options : Z; tp_tos : Z; tp_ttl : Z; tp_next : Z; tp_callback_arg : Z;
  tp_accept : fptr; tp_state : tcp_state; tp_prio : Z; tp_local_port : Z; tp_remote_port : Z; tp_flags : Z;
  tp_polltmr : Z; tp_pollinterval : Z; tp_last_timer : Z; tp_tmr : Z; tp_rcv_nxt : Z; tp_rcv_wnd : Z;
  tp_rcv_ann_wnd : Z; tp_rcv_ann_right_edge : Z; tp_rtime : Z; tp_mss : Z; tp_rttest : Z; tp_rtseq : Z; tp_sa : Z;
  tp_sv : Z; tp_rto : Z; tp_nrtx : Z; tp_dupacks : Z; tp_lastack : Z; tp_cwnd : Z; tp_ssthresh : Z; tp_snd_nxt : Z;
  tp_snd_wl1 : Z; tp_snd_wl2 : Z; tp_snd_lbb : Z; tp_snd_wnd : Z; tp_snd_wnd_max : Z; tp_acked : Z; tp_snd_buf : Z;
  tp_snd_queuelen : Z; tp_unsent_oversize : Z; tp_unsent : Z; tp_unacked : Z; tp_ooseq : Z; tp_refused_data : Z;
  tp_sent : fptr; tp_recv : fptr; tp_connected : fptr; tp_poll : fptr; tp_errf : fptr; tp_keep_idle : Z;
  tp_persist_cnt : Z; tp_persist_backoff : Z; tp_keep_cnt_sent : Z }.
Ltac set_pcb_field f x b :=
  let e := constr:(
    mkTcpPcb (tp_local_ip b) (tp_remote_ip b) (tp_so_options b) (tp_tos b) (tp_ttl b) (tp_next b) (tp_callback_arg b)
    (tp_accept b) (tp_state b) (tp_prio b) (tp_local_port b) (tp_remote_port b) (tp_flags b) (tp_polltmr b)
    (tp_pollinterval b) (tp_last_timer b) (tp_tmr b) (tp_rcv_nxt b) (tp_rcv_wnd b) (tp_rcv_ann_wnd b)
    (tp_rcv_ann_right_edge b) (tp_rtime b) (tp_mss b) (tp_rttest b) (tp_rtseq b) (tp_sa b) (tp_sv b) (tp_rto b)
    (tp_nrtx b) (tp_dupacks b) (tp_lastack b) (tp_cwnd b) (tp_ssthresh b) (tp_snd_nxt b) (tp_snd_wl1 b)
    (tp_snd_wl2 b) (tp_snd_lbb b) (tp_snd_wnd b) (tp_snd_wnd_max b) (tp_acked b) (tp_snd_buf b) (tp_snd_queuelen b)
    (tp_unsent_oversize b) (tp_unsent b) (tp_unacked b) (tp_ooseq b) (tp_refused_data b) (tp_sent b) (tp_recv b)
    (tp_connected b) (tp_poll b) (tp_errf b) (tp_keep_idle b) (tp_persist_cnt b) (tp_persist_backoff b)
    (tp_keep_cnt_sent b)) in
  replace_field e (f b) x.
Definition set_tp_local_ip (x : Z) (b : tcp_pcb) : tcp_pcb := ltac:(set_pcb_field tp_local_ip x b).
Definition set_tp_remote_ip (x : Z) (b : tcp_pcb) : tcp_pcb := ltac:(set_pcb_field tp_remote_ip x b).
Definition set_tp_so_options (x : Z) (b : tcp_pcb) : tcp_pcb := ltac:(set_pcb_field tp_so_options x b).
Definition set_tp_tos (x : Z) (b : tcp_pcb) : tcp_pcb := ltac:(set_pcb_field tp_tos x b).
Definition set_tp_ttl (x : Z) (b : tcp_pcb) : tcp_pcb := ltac:(set_pcb_field tp_ttl x b).
Definition set_tp_next (x : Z) (b : tcp_pcb) : tcp_pcb := ltac:(set_pcb_field tp_next x b).
Definition set_tp_callback_arg (x : Z) (b : tcp_pcb) : tcp_pcb := ltac:(set_pcb_field tp_callback_arg x b).
Definition set_tp_accept (x : fptr) (b : tcp_pcb) : tcp_pcb := ltac:(set_pcb_field tp_accept x b).
Definition set_tp_state (x : tcp_state) (b : tcp_pcb) : tcp_pcb := ltac:(set_pcb_field tp_state x b).
Definition set_tp_prio (x : Z) (b : tcp_pcb) : tcp_pcb := ltac:(set_pcb_field tp_prio x b).
Definition set_tp_local_port (x : Z) (b : tcp_pcb) : tcp_pcb := ltac:(set_pcb_field tp_local_port x b).
Definition set_tp_remote_port (x : Z) (b : tcp_pcb) : tcp_pcb := ltac:(set_pcb_field tp_remote_port x b).
Definition set_tp_flags (x : Z) (b : tcp_pcb) : tcp_pcb := ltac:(set_pcb_field tp_flags x b).
Definition set_tp_polltmr (x : Z) (b : tcp_pcb) : tcp_pcb := ltac:(set_pcb_field tp_polltmr x b).
Definition set_tp_pollinterval (x : Z) (b : tcp_pcb) : tcp_pcb := ltac:(set_pcb_field tp_pollinterval x b).
Definition set_tp_last_timer (x : Z) (b : tcp_pcb) : tcp_pcb := ltac:(set_pcb_field tp_last_timer x b).
Definition set_tp_tmr (x : Z) (b : tcp_pcb) : tcp_pcb := ltac:(set_pcb_field tp_tmr x b).
Definition set_tp_rcv_nxt (x : Z) (b : tcp_pcb) : tcp_pcb := ltac:(set_pcb_field tp_rcv_nxt x b).
Definition set_tp_rcv_wnd (x : Z) (b : tcp_pcb) : tcp_pcb := ltac:(set_pcb_field tp_rcv_wnd x b).
Definition set_tp_rcv_ann_wnd (x : Z) (b : tcp_pcb) : tcp_pcb := ltac:(set_pcb_field tp_rcv_ann_wnd x b).
Definition set_tp_rcv_ann_right_edge (x : Z) (b : tcp_pcb) : tcp_pcb := ltac:(set_pcb_field tp_rcv_ann_right_edge x b).
Definition set_tp_rtime (x : Z) (b : tcp_pcb) : tcp_pcb := ltac:(set_pcb_field tp_rtime x b).
Definition set_tp_mss (x : Z) (b : tcp_pcb) : tcp_pcb := ltac:(set_pcb_field tp_mss x b).
Definition set_tp_rttest (x : Z) (b : tcp_pcb) : tcp_pcb := ltac:(set_pcb_field tp_rttest x b).
Definition set_tp_rtseq (x : Z) (b : tcp_pcb) : tcp_pcb := ltac:(set_pcb_field tp_rtseq x b).
Definition set_tp_sa (x : Z) (b : tcp_pcb) : tcp_pcb := ltac:(set_pcb_field tp_sa x b).
Definition set_tp_sv (x : Z) (b : tcp_pcb) : tcp_pcb := ltac:(set_pcb_field tp_sv x b).
Definition set_tp_rto (x : Z) (b : tcp_pcb) : tcp_pcb := ltac:(set_pcb_field tp_rto x b).
Definition set_tp_nrtx (x : Z) (b : tcp_pcb) : tcp_pcb := ltac:(set_pcb_field tp_nrtx x b).
Definition set_tp_dupacks (x : Z) (b : tcp_pcb) : tcp_pcb := ltac:(set_pcb_field tp_dupacks x b).
Definition set_tp_lastack (x : Z) (b : tcp_pcb) : tcp_pcb := ltac:(set_pcb_field tp_lastack x b).
Definition set_tp_cwnd (x : Z) (b : tcp_pcb) : tcp_pcb := ltac:(set_pcb_field tp_cwnd x b).
Definition set_tp_ssthresh (x : Z) (b : tcp_pcb) : tcp_pcb := ltac:(set_pcb_field tp_ssthresh x b).
Definition set_tp_snd_nxt (x : Z) (b : tcp_pcb) : tcp_pcb := ltac:(set_pcb_field tp_snd_nxt x b).
Definition set_tp_snd_wl1 (x : Z) (b : tcp_pcb) : tcp_pcb := ltac:(set_pcb_field tp_snd_wl1 x b).
Definition set_tp_snd_wl2 (x : Z) (b : tcp_pcb) : tcp_pcb := ltac:(set_pcb_field tp_snd_wl2 x b).
Definition set_tp_snd_lbb (x : Z) (b : tcp_pcb) : tcp_pcb := ltac:(set_pcb_field tp_snd_lbb x b).
Definition set_tp_snd_wnd (x : Z) (b : tcp_pcb) : tcp_pcb := ltac:(set_pcb_field tp_snd_wnd x b).
Definition set_tp_snd_wnd_max (x : Z) (b : tcp_pcb) : tcp_pcb := ltac:(set_pcb_field tp_snd_wnd_max x b).
Definition set_tp_acked (x : Z) (b : tcp_pcb) : tcp_pcb := ltac:(set_pcb_field tp_acked x b).
Definition set_tp_snd_buf (x : Z) (b : tcp_pcb) : tcp_pcb := ltac:(set_pcb_field tp_snd_buf x b).
Definition set_tp_snd_queuelen (x : Z) (b : tcp_pcb) : tcp_pcb := ltac:(set_pcb_field tp_snd_queuelen x b).
Definition set_tp_unsent_oversize (x : Z) (b : tcp_pcb) : tcp_pcb := ltac:(set_pcb_field tp_unsent_oversize x b).
Definition set_tp_unsent (x : Z) (b : tcp_pcb) : tcp_pcb := ltac:(set_pcb_field tp_unsent x b).
Definition set_tp_unacked (x : Z) (b : tcp_pcb) : tcp_pcb := ltac:(set_pcb_field tp_unacked x b).
Definition set_tp_ooseq (x : Z) (b : tcp_pcb) : tcp_pcb := ltac:(set_pcb_field tp_ooseq x b).
Definition set_tp_refused_data (x : Z) (b : tcp_pcb) : tcp_pcb := ltac:(set_pcb_field tp_refused_data x b).
Definition set_tp_sent (x : fptr) (b : tcp_pcb) : tcp_pcb := ltac:(set_pcb_field tp_sent x b).
Definition set_tp_recv (x : fptr) (b : tcp_pcb) : tcp_pcb := ltac:(set_pcb_field tp_recv x b).
Definition set_tp_connected (x : fptr) (b : tcp_pcb) : tcp_pcb := ltac:(set_pcb_field tp_connected x b).
Definition set_tp_poll (x : fptr) (b : tcp_pcb) : tcp_pcb := ltac:(set_pcb_field tp_poll x b).
Definition set_tp_errf (x : fptr) (b : tcp_pcb) : tcp_pcb := ltac:(set_pcb_field tp_errf x b).
Definition set_tp_keep_idle (x : Z) (b : tcp_pcb) : tcp_pcb := ltac:(set_pcb_field tp_keep_idle x b).
Definition set_tp_persist_cnt (x : Z) (b : tcp_pcb) : tcp_pcb := ltac:(set_pcb_field tp_persist_cnt x b).
Definition set_tp_persist_backoff (x : Z) (b : tcp_pcb) : tcp_pcb := ltac:(set_pcb_field tp_persist_backoff x b).
Definition set_tp_keep_cnt_sent (x : Z) (b : tcp_pcb) : tcp_pcb := ltac:(set_pcb_field tp_keep_cnt_sent x b).

Record tcp_pcb_listen := mkTcpListen {
  lp_local_ip : Z; lp_remote_ip : Z; lp_so_options : Z; lp_tos : Z; lp_ttl : Z; lp_next : Z; lp_callback_arg : Z;
  lp_accept : fptr; lp_state : tcp_state; lp_prio : Z; lp_local_port : Z; lp_backlog : Z; lp_accepts_pending : Z }.
Ltac set_lpcb_field f x b :=
  let e := constr:(
    mkTcpListen (lp_local_ip b) (lp_remote_ip b) (lp_so_options b) (lp_tos b) (lp_ttl b) (lp_next b)
    (lp_callback_arg b) (lp_accept b) (lp_state b) (lp_prio b) (lp_local_port b) (lp_backlog b)
    (lp_accepts_pending b)) in
  replace_field e (f b) x.
Definition set_lp_local_ip (x : Z) (b : tcp_pcb_listen) : tcp_pcb_listen := ltac:(set_lpcb_field lp_local_ip x b).
Definition set_lp_remote_ip (x : Z) (b : tcp_pcb_listen) : tcp_pcb_listen := ltac:(set_lpcb_field lp_remote_ip x b).
Definition set_lp_so_options (x : Z) (b : tcp_pcb_listen) : tcp_pcb_listen := ltac:(set_lpcb_field lp_so_options x b).
Definition set_lp_tos (x : Z) (b : tcp_pcb_listen) : tcp_pcb_listen := ltac:(set_lpcb_field lp_tos x b).
Definition set_lp_ttl (x : Z) (b : tcp_pcb_listen) : tcp_pcb_listen := ltac:(set_lpcb_field lp_ttl x b).
Definition set_lp_next (x : Z) (b : tcp_pcb_listen) : tcp_pcb_listen := ltac:(set_lpcb_field lp_next x b).
Definition set_lp_callback_arg (x : Z) (b : tcp_pcb_listen) : tcp_pcb_listen := ltac:(set_lpcb_field lp_callback_arg x b).
Definition set_lp_accept (x : fptr) (b : tcp_pcb_listen) : tcp_pcb_listen := ltac:(set_lpcb_field lp_accept x b).
Definition set_lp_state (x : tcp_state) (b : tcp_pcb_listen) : tcp_pcb_listen := ltac:(set_lpcb_field lp_state x b).
Definition set_lp_prio (x : Z) (b : tcp_pcb_listen) : tcp_pcb_listen := ltac:(set_lpcb_field lp_prio x b).
Definition set_lp_local_port (x : Z) (b : tcp_pcb_listen) : tcp_pcb_listen := ltac:(set_lpcb_field lp_local_port x b).
Definition set_lp_backlog (x : Z) (b : tcp_pcb_listen) : tcp_pcb_listen := ltac:(set_lpcb_field lp_backlog x b).
Definition set_lp_accepts_pending (x : Z) (b : tcp_pcb_listen) : tcp_pcb_listen := ltac:(set_lpcb_field lp_accepts_pending x b).

(** ** The variables *)

(** The variables of tcp_in.c that describe the segment being received. *)
Record tcp_in := mkTcpIn {
  ti_inseg : tcp_seg; ti_tcphdr : Z; ti_iphdr : Z; ti_seqno : Z; ti_ackno : Z; ti_flags : Z; ti_tcplen : Z;
  ti_recv_flags : Z; ti_recv_data : Z }.
Ltac set_in_field f x i :=
  let e := constr:(
    mkTcpIn (ti_inseg i) (ti_tcphdr i) (ti_iphdr i) (ti_seqno i) (ti_ackno i) (ti_flags i) (ti_tcplen i)
    (ti_recv_flags i) (ti_recv_data i)) in
  replace_field e (f i) x.
Definition set_ti_inseg (x : tcp_seg) (i : tcp_in) : tcp_in := ltac:(set_in_field ti_inseg x i).
Definition set_ti_tcphdr (x : Z) (i : tcp_in) : tcp_in := ltac:(set_in_field ti_tcphdr x i).
Definition set_ti_iphdr (x : Z) (i : tcp_in) : tcp_in := ltac:(set_in_field ti_iphdr x i).
Definition set_ti_seqno (x : Z) (i : tcp_in) : tcp_in := ltac:(set_in_field ti_seqno x i).
Definition set_ti_ackno (x : Z) (i : tcp_in) : tcp_in := ltac:(set_in_field ti_ackno x i).
Definition set_ti_flags (x : Z) (i : tcp_in) : tcp_in := ltac:(set_in_field ti_flags x i).
Definition set_ti_tcplen (x : Z) (i : tcp_in) : tcp_in := ltac:(set_in_field ti_tcplen x i).
Definition set_ti_recv_flags (x : Z) (i : tcp_in) : tcp_in := ltac:(set_in_field ti_recv_flags x i).
Definition set_ti_recv_data (x : Z) (i : tcp_in) : tcp_in := ltac:(set_in_field ti_recv_data x i).

(** The variables of tcp.c (the four lists, [tcp_port], [tcp_ticks], the counters
    of the timers, [tcp_active_pcbs_changed], [iss]), [tcp_input_pcb] and the rest of
    the variables of tcp_in.c, and the statistics. *)
Record tcp_vars := mkTcpVars {
  tv_pcbs : gmap Z tcp_pcb; tv_lpcbs : gmap Z tcp_pcb_listen; tv_segs : gmap Z tcp_seg; tv_bound : Z; tv_listen : Z;
  tv_active : Z; tv_tw : Z; tv_port : Z; tv_ticks : Z; tv_timer : Z; tv_timer_ctr : Z; tv_changed : Z; tv_iss : Z;
  tv_input_pcb : Z; tv_in : tcp_in; tv_stats : stats_proto }.
Ltac set_vars_field f x t :=
  let e := constr:(
    mkTcpVars (tv_pcbs t) (tv_lpcbs t) (tv_segs t) (tv_bound t) (tv_listen t) (tv_active t) (tv_tw t) (tv_port t)
    (tv_ticks t) (tv_timer t) (tv_timer_ctr t) (tv_changed t) (tv_iss t) (tv_input_pcb t) (tv_in t) (tv_stats t)) in
  replace_field e (f t) x.
Definition set_tv_pcbs (x : gmap Z tcp_pcb) (t : tcp_vars) : tcp_vars := ltac:(set_vars_field tv_pcbs x t).
Definition set_tv_lpcbs (x : gmap Z tcp_pcb_listen) (t : tcp_vars) : tcp_vars := ltac:(set_vars_field tv_lpcbs x t).
Definition set_tv_segs (x : gmap Z tcp_seg) (t : tcp_vars) : tcp_vars := ltac:(set_vars_field tv_segs x t).
Definition set_tv_bound (x : Z) (t : tcp_vars) : tcp_vars := ltac:(set_vars_field tv_bound x t).
Definition set_tv_listen (x : Z) (t : tcp_vars) : tcp_vars := ltac:(set_vars_field tv_listen x t).
Definition set_tv_active (x : Z) (t : tcp_vars) : tcp_vars := ltac:(set_vars_field tv_active x t).
Definition set_tv_tw (x : Z) (t : tcp_vars) : tcp_vars := ltac:(set_vars_field tv_tw x t).
Definition set_tv_port (x : Z) (t : tcp_vars) : tcp_vars := ltac:(set_vars_field tv_port x t).
Definition set_tv_ticks (x : Z) (t : tcp_vars) : tcp_vars := ltac:(set_vars_field tv_ticks x t).
Definition set_tv_timer (x : Z) (t : tcp_vars) : tcp_vars := ltac:(set_vars_field tv_timer x t).
Definition set_tv_timer_ctr (x : Z) (t : tcp_vars) : tcp_vars := ltac:(set_vars_field tv_timer_ctr x t).
Definition set_tv_changed (x : Z) (t : tcp_vars) : tcp_vars := ltac:(set_vars_field tv_changed x t).
Definition set_tv_iss (x : Z) (t : tcp_vars) : tcp_vars := ltac:(set_vars_field tv_iss x t).
Definition set_tv_input_pcb (x : Z) (t : tcp_vars) : tcp_vars := ltac:(set_vars_field tv_input_pcb x t).
Definition set_tv_in (x : tcp_in) (t : tcp_vars) : tcp_vars := ltac:(set_vars_field tv_in x t).
Definition set_tv_stats (x : stats_proto) (t : tcp_vars) : tcp_vars := ltac:(set_vars_field tv_stats x t).

Class HasTcp (U : Type) := {
  get_tcp : U -> tcp_vars;
  put_tcp : U -> tcp_vars -> U;
  get_put_tcp : forall x t, get_tcp (put_tcp x t) = t;
  put_get_tcp : forall x, put_tcp x (get_tcp x) = x;
  put_put_tcp : forall x t v, put_tcp (put_tcp x t) v = put_tcp x v
}.

(** The correction of the error counter of a pool, [MEMP_STATS_DEC(err, type)]. *)
Class MempStats (W : Type) := { memp_err_dec : W -> memp_t -> W }.

Section access.
Context {W X U : Type} `{HasTcp U}.
Implicit Type s : istate W X U.

Definition tcp_of s : tcp_vars := get_tcp (i_up s).
Definition set_tcp s (t : tcp_vars) : istate W X U := set_up s (put_tcp (i_up s) t).
Definition TCP_STATS_INC (c : counter) s : istate W X U :=
  set_tcp s (set_tv_stats (STATS_INC c (tv_stats (tcp_of s))) (tcp_of s)).

(** Control blocks: [pcb->f] and assignments to the fields of [*pcb]. *)
Definition pcb_at s (pcb : Z) : option tcp_pcb := tv_pcbs (tcp_of s) !! pcb.
Definition put_pcb s (pcb : Z) (b : tcp_pcb) : istate W X U :=
  set_tcp s (set_tv_pcbs (<[pcb := b]> (tv_pcbs (tcp_of s))) (tcp_of s)).
Definition upd s (pcb : Z) (f : tcp_pcb -> tcp_pcb) : option (istate W X U) :=
  b ← pcb_at s pcb; Some (put_pcb s pcb (f b)).

Definition lpcb_at s (pcb : Z) : option tcp_pcb_listen := tv_lpcbs (tcp_of s) !! pcb.
Definition put_lpcb s (pcb : Z) (b : tcp_pcb_listen) : istate W X U :=
  set_tcp s (set_tv_lpcbs (<[pcb := b]> (tv_lpcbs (tcp_of s))) (tcp_of s)).

Definition seg_at s (seg : Z) : option tcp_seg := tv_segs (tcp_of s) !! seg.
Definition put_seg s (seg : Z) (g : tcp_seg) : istate W X U :=
  set_tcp s (set_tv_segs (<[seg := g]> (tv_segs (tcp_of s))) (tcp_of s)).
Definition upd_seg s (seg : Z) (f : tcp_seg -> tcp_seg) : option (istate W X U) :=
  g ← seg_at s seg; Some (put_seg s seg (f g)).

(** [ntohl(seg->tcphdr->seqno)] *)
Definition seg_seqno s `{MemSystem W} (g : tcp_seg) : Z := lwip_htonl (ld32 (i_mem s) (sg_tcphdr g + TCPH_seqno)).

End access.

End TcpDefs.
