(* ===== verification/TcpSeg.v ===== *)
(** The helpers of TCP that the other functions share: segments
    ([tcp_seg_free], [tcp_segs_free], [tcp_seg_copy]), the lists of control blocks
    ([TCP_REG] and [TCP_RMV] of tcp_impl.h), the announced window, acknowledgements
    and initial sequence numbers, all of src/core/tcp.c and
    src/include/lwip/tcp_impl.h of lwIP 1.4.1. *)

From stdpp Require Import base tactics numbers list gmap.
From Stdlib Require Import ZArith Lia.
From S2P Require Import Prelude ByteOrder Stats Linked PbufDefs NetifDefs Allocator Mem Memp PbufMem Pbuf IpDefs IpOutput TcpDefs.

Local Open Scope Z_scope.

Module TcpSeg.
Import ByteOrder Linked Memp Pbuf IpDefs IpOutput TcpDefs.

(** ** The window and acknowledgements *)

(** The control block and how much the right edge of the window would move. *)
Definition tcp_update_rcv_ann_wnd (b : tcp_pcb) : tcp_pcb * Z :=
  let new_right_edge := u32 (tp_rcv_nxt b + tp_rcv_wnd b) in
  if TCP_SEQ_GEQ new_right_edge (u32 (tp_rcv_ann_right_edge b + LWIP_MIN (TCP_WND / 2) (tp_mss b))) then
    (b |> set_tp_rcv_ann_wnd (tp_rcv_wnd b), u32 (new_right_edge - tp_rcv_ann_right_edge b))
  else if TCP_SEQ_GT (tp_rcv_nxt b) (tp_rcv_ann_right_edge b) then (b |> set_tp_rcv_ann_wnd 0, 0)
  else (b |> set_tp_rcv_ann_wnd (u16 (u32 (tp_rcv_ann_right_edge b - tp_rcv_nxt b))), 0).

Definition tcp_ack (b : tcp_pcb) : tcp_pcb :=
  if has (tp_flags b) TF_ACK_DELAY then b |> set_tp_flags (or_flag (clear_flag (tp_flags b) TF_ACK_DELAY) TF_ACK_NOW)
  else b |> set_tp_flags (or_flag (tp_flags b) TF_ACK_DELAY).

Definition tcp_ack_now (b : tcp_pcb) : tcp_pcb := b |> set_tp_flags (or_flag (tp_flags b) TF_ACK_NOW).

(** ** Lists of control blocks *)

(** The lists of [tcp_pcb]; that of the listening control blocks is apart. *)
Inductive pcb_list := BOUND | ACTIVE | TW.

Definition list_head (t : tcp_vars) (l : pcb_list) : Z :=
  match l with BOUND => tv_bound t | ACTIVE => tv_active t | TW => tv_tw t end.
Definition set_list_head (l : pcb_list) (x : Z) (t : tcp_vars) : tcp_vars :=
  match l with BOUND => set_tv_bound x t | ACTIVE => set_tv_active x t | TW => set_tv_tw x t end.

(** The element in front of [npcb] in a list, 0 if there is none. *)
Definition pred_of {A : Type} (nxt : A -> Z) (m : gmap Z A) (npcb head : Z) : option Z :=
  for_list nxt m (fun (_ : unit) q b => if nxt b =? npcb then inr q else inl tt) (fun _ => 0) tt head.

Section seg.
Context {W X U : Type} `{MemSystem W} `{HasTcp U}.
Context (custom_free : pstate W -> Z -> option (pstate W)).
Implicit Type s : istate W X U.

Definition TCP_REG s (l : pcb_list) (npcb : Z) : option (istate W X U) :=
  s ← upd s npcb (set_tp_next (list_head (tcp_of s) l));
  Some (set_tcp s (set_list_head l npcb (tcp_of s))).

Definition TCP_RMV s (l : pcb_list) (npcb : Z) : option (istate W X U) :=
  let t := tcp_of s in
  s ← (if list_head t l =? npcb then
         b ← pcb_at s npcb; Some (set_tcp s (set_list_head l (tp_next b) t))
       else
         tmp ← pred_of tp_next (tv_pcbs t) npcb (list_head t l);
         if tmp =? 0 then Some s else b ← pcb_at s npcb; upd s tmp (set_tp_next (tp_next b)));
  upd s npcb (set_tp_next 0).

(** The same macros on [tcp_listen_pcbs]. *)
Definition TCP_REG_LISTEN s (npcb : Z) : option (istate W X U) :=
  b ← lpcb_at s npcb;
  let s := put_lpcb s npcb (set_lp_next (tv_listen (tcp_of s)) b) in
  Some (set_tcp s (set_tv_listen npcb (tcp_of s))).

Definition TCP_RMV_LISTEN s (npcb : Z) : option (istate W X U) :=
  let t := tcp_of s in
  s ← (if tv_listen t =? npcb then
         b ← lpcb_at s npcb; Some (set_tcp s (set_tv_listen (lp_next b) t))
       else
         tmp ← pred_of lp_next (tv_lpcbs t) npcb (tv_listen t);
         if tmp =? 0 then Some s
         else b ← lpcb_at s npcb; tb ← lpcb_at s tmp; Some (put_lpcb s tmp (set_lp_next (lp_next b) tb)));
  b ← lpcb_at s npcb; Some (put_lpcb s npcb (set_lp_next 0 b)).

Definition set_changed s (x : Z) : istate W X U := set_tcp s (set_tv_changed x (tcp_of s)).
Definition TCP_REG_ACTIVE s (npcb : Z) : option (istate W X U) :=
  s ← TCP_REG s ACTIVE npcb; Some (set_changed s 1).
Definition TCP_RMV_ACTIVE s (npcb : Z) : option (istate W X U) :=
  s ← TCP_RMV s ACTIVE npcb; Some (set_changed s 1).

(** ** Memory *)

Definition set_w s (w : W) : istate W X U := set_i_p s (set_pw (i_p s) w).
Definition free_pcb s (pcb : Z) : istate W X U :=
  let s := set_w s (ms_memp_free (pw (i_p s)) MEMP_TCP_PCB pcb) in
  set_tcp s (set_tv_pcbs (delete pcb (tv_pcbs (tcp_of s))) (tcp_of s)).
Definition free_lpcb s (pcb : Z) : istate W X U :=
  let s := set_w s (ms_memp_free (pw (i_p s)) MEMP_TCP_PCB_LISTEN pcb) in
  set_tcp s (set_tv_lpcbs (delete pcb (tv_lpcbs (tcp_of s))) (tcp_of s)).

(** ** Segments *)

Definition tcp_seg_free s (seg : Z) : option (istate W X U) :=
  if negb (seg =? 0) then
    g ← seg_at s seg;
    s ← (if negb (sg_p g =? 0) then i_free custom_free s (sg_p g) else Some s);
    let s := set_w s (ms_memp_free (pw (i_p s)) MEMP_TCP_SEG seg) in
    Some (set_tcp s (set_tv_segs (delete seg (tv_segs (tcp_of s))) (tcp_of s)))
  else Some s.

Definition segs_free_body (y : istate W X U * Z) : (istate W X U * Z) + option (istate W X U) :=
  let '(s, seg) := y in
  if negb (seg =? 0) then
    match (g ← seg_at s seg; s ← tcp_seg_free s seg; Some (s, sg_next g)) with
    | None => inr None
    | Some y => inl y
    end
  else inr (Some s).

Definition tcp_segs_free s (seg : Z) : option (istate W X U) :=
  mjoin (while (S (size (tv_segs (tcp_of s)))) segs_free_body (s, seg)).

(** A copy of the segment [g] that shares its packet; 0 if there is no memory. *)
Definition tcp_seg_copy s (g : tcp_seg) : option (istate W X U * Z) :=
  let '(w, cseg) := ms_memp_malloc (pw (i_p s)) MEMP_TCP_SEG in
  let s := set_w s w in
  if cseg =? 0 then Some (s, 0)
  else
    ps ← pbuf_ref (i_p s) (sg_p g);
    Some (put_seg (set_i_p s ps) cseg g, cseg).

(** The last segment of the list at [seg], which is not empty. *)
Definition last_seg s (seg : Z) : option Z :=
  for_list sg_next (tv_segs (tcp_of s)) (fun (_ : unit) q g => if sg_next g =? 0 then inr q else inl tt) (fun _ => 0) tt seg.

(** ** Sequence numbers and segment sizes *)

Definition tcp_next_iss s : istate W X U * Z :=
  let iss := u32 (tv_iss (tcp_of s) + tv_ticks (tcp_of s)) in
  (set_tcp s (set_tv_iss iss (tcp_of s)), iss).

Definition tcp_eff_send_mss s (sendmss addr : Z) : option (istate W X U * Z) :=
  '(s, outif) ← ip_route s addr;
  if negb (outif =? 0) then
    n ← netif_at s outif;
    if negb (nif_mtu n =? 0) then
      let mss_s := u16 (nif_mtu n - IP_HLEN - TCP_HLEN) in
      Some (s, LWIP_MIN sendmss mss_s)
    else Some (s, sendmss)
  else Some (s, sendmss).

End seg.

End TcpSeg.
