(* ===== verification/TcpOut.v ===== *)
(** Sending TCP segments: src/core/tcp_out.c of lwIP 1.4.1 (no timestamps, no
    checksum on copy, LWIP_NETIF_TX_SINGLE_PBUF 0, TCP_OVERSIZE_DBGCHECK 1).

    A function that returns NULL returns the address 0.  [tcp_write] reads the data
    at the address [arg]. *)

From stdpp Require Import base tactics numbers list gmap.
From Stdlib Require Import ZArith Lia.
From S2P Require Import Prelude Mylib ByteOrder Stats Linked PbufDefs NetifDefs InetChksum Allocator Mem Memp PbufMem Pbuf IpAddr IpDefs IpOutput TcpDefs TcpSeg.

Local Open Scope Z_scope.

Module TcpOut.
Import ByteOrder Linked InetChksum Memp Pbuf IpAddr IpDefs IpOutput TcpDefs TcpSeg.

Section out.
Context {W X U : Type} `{MemSystem W} `{HasTcp U}.
Context (stale : Z -> Z) (custom_free : pstate W -> Z -> option (pstate W)).
Context (netif_output : X -> pstate W -> Z -> netif -> Z -> Z -> option (X * pstate W * Z)).
Implicit Type s : istate W X U.

Local Abbreviation seg_free := (tcp_seg_free custom_free).
Local Abbreviation segs_free := (tcp_segs_free custom_free).
Local Abbreviation out := (ip_output stale custom_free netif_output).

Definition t_alloc s (layer : pbuf_layer) (length : Z) (ty : pbuf_type) : option (istate W X U * Z) :=
  '(ps, p) ← pbuf_alloc stale custom_free (i_p s) layer length ty; Some (set_i_p s ps, p).

(** ** Headers *)

(** The right edge of the window is announced. *)
Definition announce (b : tcp_pcb) : tcp_pcb := b |> set_tp_rcv_ann_right_edge (u32 (tp_rcv_nxt b + tp_rcv_ann_wnd b)).

(** The fixed fields of a header at [h]. *)
Definition put_header (m : memory) (h src dest seqno_be ackno hdrlen flags wnd : Z) : memory :=
  let m := st16 m (h + TCPH_src) (PP_HTONS src) in
  let m := st16 m (h + TCPH_dest) (PP_HTONS dest) in
  let m := st32 m (h + TCPH_seqno) seqno_be in
  let m := st32 m (h + TCPH_ackno) (lwip_htonl ackno) in
  let m := TCPH_HDRLEN_FLAGS_SET m h hdrlen flags in
  let m := st16 m (h + TCPH_wnd) (PP_HTONS wnd) in
  let m := st16 m (h + TCPH_chksum) 0 in
  st16 m (h + TCPH_urgp) 0.

Definition tcp_output_alloc_header s (pcb optlen datalen seqno_be : Z) : option (istate W X U * Z) :=
  '(s, p) ← t_alloc s PBUF_IP (u16 (TCP_HLEN + optlen + datalen)) PBUF_RAM;
  if negb (p =? 0) then
    b ← pcb_at s pcb;
    pb ← i_pbuf s p;
    let s := i_write s (put_header (i_mem s) (payload pb) (tp_local_port b) (tp_remote_port b) seqno_be (tp_rcv_nxt b)
                          (5 + optlen / 4) TCP_ACK (tp_rcv_ann_wnd b)) in
    s ← upd s pcb announce;
    Some (s, p)
  else Some (s, 0).

(** The checksum of the packet [p] in its header at [h], and [ip_output]. *)
Definition chksum_and_send s (p h src dest ttl tos : Z) : option (istate W X U) :=
  pb ← i_pbuf s p;
  c ← inet_chksum_pseudo (i_mem s) (pst (i_p s)) p src dest IP_PROTO_TCP (tot_len pb);
  let s := i_write s (st16 (i_mem s) (h + TCPH_chksum) c) in
  '(s, _) ← out s p src dest ttl tos IP_PROTO_TCP;
  Some s.

(** ** Queueing segments *)

(** A new segment with its header in [p]; [p] is released if that fails.  The
    address of the header is set when there is room for it. *)
Definition tcp_create_segment s (pcb p flags seqno optflags : Z) : option (istate W X U * Z) :=
  let optlen := LWIP_TCP_OPT_LENGTH optflags in
  let '(w, seg) := ms_memp_malloc (pw (i_p s)) MEMP_TCP_SEG in
  let s := set_w s w in
  if seg =? 0 then s ← i_free custom_free s p; Some (s, 0)
  else
    pb ← i_pbuf s p;
    let s := put_seg s seg (mkTcpSeg 0 p (u16 (tot_len pb - optlen)) 0 optflags 0) in
    '(s, r) ← i_header s p TCP_HLEN;
    if negb (r =? 0) then s ← seg_free (TCP_STATS_INC c_err s) seg; Some (s, 0)
    else
      b ← pcb_at s pcb;
      pb ← i_pbuf s p;
      let h := payload pb in
      s ← upd_seg s seg (set_sg_tcphdr h);
      let m := st16 (i_mem s) (h + TCPH_src) (PP_HTONS (tp_local_port b)) in
      let m := st16 m (h + TCPH_dest) (PP_HTONS (tp_remote_port b)) in
      let m := st32 m (h + TCPH_seqno) (lwip_htonl (u32 seqno)) in
      let m := TCPH_HDRLEN_FLAGS_SET m h (5 + optlen / 4) flags in
      let m := st16 m (h + TCPH_urgp) 0 in
      Some (i_write s m, seg).

Definition memerr s (pcb : Z) : option (istate W X U) :=
  s ← upd s pcb (fun b => b |> set_tp_flags (or_flag (tp_flags b) TF_NAGLEMEMERR));
  Some (TCP_STATS_INC c_memerr s).

Definition queue_full (queuelen : Z) : bool :=
  (TCP_SND_QUEUELEN <=? queuelen) || (TCP_SNDQUEUELEN_OVERFLOW <? queuelen).

Definition tcp_enqueue_flags s (pcb flags : Z) : option (istate W X U * Z) :=
  b ← pcb_at s pcb;
  if queue_full (tp_snd_queuelen b) then s ← memerr s pcb; Some (s, ERR_MEM)
  else
    let optflags := if has flags TCP_SYN then TF_SEG_OPTS_MSS else 0 in
    let optlen := LWIP_TCP_OPT_LENGTH optflags in
    if tp_snd_buf b =? 0 then Some (TCP_STATS_INC c_memerr s, ERR_MEM)
    else
      '(s, p) ← t_alloc s PBUF_TRANSPORT optlen PBUF_RAM;
      if p =? 0 then s ← memerr s pcb; Some (s, ERR_MEM)
      else
        '(s, seg) ← tcp_create_segment s pcb p flags (tp_snd_lbb b) optflags;
        if seg =? 0 then s ← memerr s pcb; Some (s, ERR_MEM)
        else
          s ← (if tp_unsent b =? 0 then upd s pcb (set_tp_unsent seg)
               else useg ← last_seg s (tp_unsent b); upd_seg s useg (set_sg_next seg));
          g ← seg_at s seg;
          n ← pbuf_clen (i_p s) (sg_p g);
          s ← upd s pcb (fun b =>
            let b := b |> set_tp_unsent_oversize 0 in
            let b := if has flags TCP_SYN || has flags TCP_FIN
                     then b |> set_tp_snd_lbb (u32 (tp_snd_lbb b + 1)) |> set_tp_snd_buf (u16 (tp_snd_buf b - 1))
                     else b in
            let b := if has flags TCP_FIN then b |> set_tp_flags (or_flag (tp_flags b) TF_FIN) else b in
            b |> set_tp_snd_queuelen (u16 (tp_snd_queuelen b + n)));
          Some (s, ERR_OK).

Definition tcp_send_fin s (pcb : Z) : option (istate W X U * Z) :=
  b ← pcb_at s pcb;
  if negb (tp_unsent b =? 0) then
    last_unsent ← last_seg s (tp_unsent b);
    g ← seg_at s last_unsent;
    if has (TCPH_FLAGS (i_mem s) (sg_tcphdr g)) (Z.lor (Z.lor TCP_SYN TCP_FIN) TCP_RST) then tcp_enqueue_flags s pcb TCP_FIN
    else
      let s := i_write s (TCPH_SET_FLAG (i_mem s) (sg_tcphdr g) TCP_FIN) in
      s ← upd s pcb (fun b => b |> set_tp_flags (or_flag (tp_flags b) TF_FIN));
      Some (s, ERR_OK)
  else tcp_enqueue_flags s pcb TCP_FIN.

(** ** Writing data *)

(** The new pbuf, with [length] bytes in use, and the bytes it has behind them. *)
Definition tcp_pbuf_prealloc s (layer : pbuf_layer) (length max_length pcb apiflags : Z) (first_seg : bool)
    : option (istate W X U * Z * Z) :=
  b ← pcb_at s pcb;
  let alloc :=
    if (length <? max_length) &&
       (has apiflags TCP_WRITE_FLAG_MORE ||
        (negb (has (tp_flags b) TF_NODELAY) && (negb first_seg || negb (tp_unsent b =? 0) || negb (tp_unacked b =? 0))))
    then u16 (LWIP_MIN max_length (align_int (length + TCP_OVERSIZE))) else length in
  '(s, p) ← t_alloc s layer alloc PBUF_RAM;
  if p =? 0 then Some (s, 0, 0)
  else
    pb ← i_pbuf s p;
    ps ← update (i_p s) p (fun pb => set_len (set_tot_len pb length) length);
    Some (set_i_p s ps, p, u16 (len pb - length)).

Definition tcp_write_checks s (pcb len : Z) : option (istate W X U * Z) :=
  b ← pcb_at s pcb;
  if negb (is_state (tp_state b) ESTABLISHED || is_state (tp_state b) CLOSE_WAIT ||
           is_state (tp_state b) SYN_SENT || is_state (tp_state b) SYN_RCVD) then Some (s, ERR_CONN)
  else if len =? 0 then Some (s, ERR_OK)
  else if tp_snd_buf b <? len then
    s ← upd s pcb (fun b => b |> set_tp_flags (or_flag (tp_flags b) TF_NAGLEMEMERR)); Some (s, ERR_MEM)
  else if queue_full (tp_snd_queuelen b) then s ← memerr s pcb; Some (s, ERR_MEM)
  else Some (s, ERR_OK).

(** [memcpy] on the memory of the state. *)
Definition t_copy s (dst src n : Z) : option (istate W X U) :=
  '(m, _) ← Mylib.memcpy (i_mem s) dst src n; Some (i_write s m).

(** The label [memerr] of [tcp_write]. *)
Definition write_memerr s (pcb concat_p queue : Z) : option (istate W X U * Z) :=
  s ← memerr s pcb;
  s ← (if negb (concat_p =? 0) then i_free custom_free s concat_p else Some s);
  s ← (if negb (queue =? 0) then segs_free s queue else Some s);
  Some (s, ERR_MEM).

(** What the first two phases find out and allocate. *)
Record write_tail := mkTail {
  wt_last : Z; wt_seg : Z; wt_used : Z; wt_oversize : Z; wt_concat : Z; wt_pos : Z; wt_queuelen : Z }.

(** Phases 1 and 2: the room at the end of the last unsent segment, and a pbuf to
    be chained to it; [None] in the result is the jump to [memerr]. *)
Definition write_extend s (pcb : Z) (b : tcp_pcb) (arg len apiflags mss_local : Z)
    : option (istate W X U * option write_tail) :=
  if tp_unsent b =? 0 then Some (s, Some (mkTail 0 0 0 0 0 0 (tp_snd_queuelen b)))
  else
    last_unsent ← last_seg s (tp_unsent b);
    g ← seg_at s last_unsent;
    let space := u16 (mss_local - (sg_len g + LWIP_TCP_OPT_LENGTH (sg_flags g))) in
    let oversize := tp_unsent_oversize b in
    let used := if 0 <? oversize then (if oversize <? len then oversize else len) else 0 in
    let seg := if 0 <? oversize then last_unsent else 0 in
    let pos := used in
    let oversize := u16 (oversize - used) in
    let space := u16 (space - used) in
    if (pos <? len) && (0 <? space) && (0 <? sg_len g) then
      let seglen := if space <? len - pos then space else len - pos in
      '(s, concat_p, oversize) ←
        (if has apiflags TCP_WRITE_FLAG_COPY then
           '(s, p, over) ← tcp_pbuf_prealloc s PBUF_RAW seglen space pcb apiflags true;
           if p =? 0 then Some (s, 0, oversize)
           else
             s ← upd_seg s last_unsent (fun g => g |> set_sg_oversize_left (u16 (sg_oversize_left g + over)));
             pb ← i_pbuf s p;
             s ← t_copy s (payload pb) (arg + pos) seglen;
             Some (s, p, over)
         else
           '(s, p) ← t_alloc s PBUF_RAW seglen PBUF_ROM;
           if p =? 0 then Some (s, 0, oversize)
           else ps ← update (i_p s) p (fun pb => set_payload pb (arg + pos)); Some (set_i_p s ps, p, oversize));
      if concat_p =? 0 then Some (s, None)
      else
        n ← pbuf_clen (i_p s) concat_p;
        Some (s, Some (mkTail last_unsent last_unsent used oversize concat_p (pos + seglen) (u16 (tp_snd_queuelen b + n))))
    else Some (s, Some (mkTail last_unsent seg used oversize 0 pos (tp_snd_queuelen b))).

(** The packet of a new segment with [seglen] bytes of data; 0 if there is no
    memory. *)
Definition write_packet s (pcb src seglen apiflags mss_local oversize : Z) (first_seg : bool)
    : option (istate W X U * Z * Z) :=
  if has apiflags TCP_WRITE_FLAG_COPY then
    '(s, p, over) ← tcp_pbuf_prealloc s PBUF_TRANSPORT seglen mss_local pcb apiflags first_seg;
    if p =? 0 then Some (s, 0, oversize)
    else pb ← i_pbuf s p; s ← t_copy s (payload pb) src seglen; Some (s, p, over)
  else
    '(s, p2) ← t_alloc s PBUF_TRANSPORT seglen PBUF_ROM;
    if p2 =? 0 then Some (s, 0, oversize)
    else
      ps ← update (i_p s) p2 (fun pb => set_payload pb src);
      let s := set_i_p s ps in
      '(s, p) ← t_alloc s PBUF_TRANSPORT 0 PBUF_RAM;
      if p =? 0 then s ← i_free custom_free s p2; Some (s, 0, oversize)
      else ps ← pbuf_cat (i_p s) p p2; Some (set_i_p s ps, p, oversize).

(** The local variables of phase 3. *)
Record write_queue := mkQueue {
  wq_seg : Z; wq_queue : Z; wq_prev : Z; wq_pos : Z; wq_queuelen : Z; wq_oversize : Z }.

(** Phase 3, one segment; [inr (s, queue, None)] is the jump to [memerr]. *)
Definition write_body (pcb arg len apiflags mss_local snd_lbb : Z) (y : istate W X U * write_queue)
    : (istate W X U * write_queue) + option (istate W X U * Z * option write_queue) :=
  let '(s, q) := y in
  if wq_pos q <? len then
    let left_ := len - wq_pos q in
    let max_len := mss_local in
    let seglen := if max_len <? left_ then max_len else left_ in
    match write_packet s pcb (arg + wq_pos q) seglen apiflags mss_local (wq_oversize q) (wq_queue q =? 0) with
    | None => inr None
    | Some (s, p, oversize) =>
        if p =? 0 then inr (Some (s, wq_queue q, None))
        else
          match pbuf_clen (i_p s) p with
          | None => inr None
          | Some n =>
              let queuelen := u16 (wq_queuelen q + n) in
              if (TCP_SND_QUEUELEN <? queuelen) || (TCP_SNDQUEUELEN_OVERFLOW <? queuelen) then
                inr (s ← i_free custom_free s p; Some (s, wq_queue q, None))
              else
                match tcp_create_segment s pcb p 0 (snd_lbb + wq_pos q) 0 with
                | None => inr None
                | Some (s, seg) =>
                    if seg =? 0 then inr (Some (s, wq_queue q, None))
                    else
                      match (s ← upd_seg s seg (set_sg_oversize_left oversize);
                             if wq_queue q =? 0 then Some (s, seg)
                             else s ← upd_seg s (wq_prev q) (set_sg_next seg); Some (s, wq_queue q)) with
                      | None => inr None
                      | Some (s, queue) =>
                          inl (s, mkQueue seg queue seg (u16 (wq_pos q + seglen)) queuelen oversize)
                      end
                end
          end
    end
  else inr (Some (s, wq_queue q, Some q)).

(** The lengths along the packet of the last unsent segment and the bytes added
    to its end. *)
Definition bump_body (arg used : Z) (y : istate W X U * Z) : (istate W X U * Z) + option (istate W X U) :=
  let '(s, p) := y in
  if p =? 0 then inr (Some s)
  else
    match (ps ← update (i_p s) p (fun pb => set_tot_len pb (u16 (tot_len pb + used)));
           let s := set_i_p s ps in
           pb ← i_pbuf s p;
           s ← (if next pb =? 0 then
                  s ← t_copy s (payload pb + len pb) arg used;
                  ps ← update (i_p s) p (fun pb => set_len pb (u16 (len pb + used)));
                  Some (set_i_p s ps)
                else Some s);
           Some (s, next pb)) with
    | None => inr None
    | Some y => inl y
    end.

(** All phases succeeded: the changes are made. *)
Definition write_commit s (pcb arg len apiflags : Z) (t : write_tail) (q : write_queue) : option (istate W X U * Z) :=
  s ← (if 0 <? wt_used t then
         g ← seg_at s (wt_last t);
         s ← mjoin (while (S (size (pst (i_p s)))) (bump_body arg (wt_used t)) (s, sg_p g));
         upd_seg s (wt_last t) (fun g =>
           g |> set_sg_len (u16 (sg_len g + wt_used t)) |> set_sg_oversize_left (u16 (sg_oversize_left g - wt_used t)))
       else Some s);
  s ← upd s pcb (set_tp_unsent_oversize (wq_oversize q));
  s ← (if negb (wt_concat t =? 0) then
         g ← seg_at s (wt_last t);
         ps ← pbuf_cat (i_p s) (sg_p g) (wt_concat t);
         let s := set_i_p s ps in
         cb ← i_pbuf s (wt_concat t);
         upd_seg s (wt_last t) (fun g => g |> set_sg_len (u16 (sg_len g + tot_len cb)))
       else Some s);
  s ← (if wt_last t =? 0 then upd s pcb (set_tp_unsent (wq_queue q))
       else upd_seg s (wt_last t) (set_sg_next (wq_queue q)));
  s ← upd s pcb (fun b =>
    b |> set_tp_snd_lbb (u32 (tp_snd_lbb b + len)) |> set_tp_snd_buf (u16 (tp_snd_buf b - len))
      |> set_tp_snd_queuelen (wq_queuelen q));
  s ← (if negb (wq_seg q =? 0) then
         g ← seg_at s (wq_seg q);
         if negb (sg_tcphdr g =? 0) && negb (has apiflags TCP_WRITE_FLAG_MORE)
         then Some (i_write s (TCPH_SET_FLAG (i_mem s) (sg_tcphdr g) TCP_PSH)) else Some s
       else Some s);
  Some (s, ERR_OK).

(** Every segment of phase 3 adds a pbuf to the queue, so there are at most
    [TCP_SND_QUEUELEN] and one more that is refused. *)
Definition write_fuel : nat := S (S (Z.to_nat TCP_SND_QUEUELEN)).

Definition tcp_write s (pcb arg len apiflags : Z) : option (istate W X U * Z) :=
  b ← pcb_at s pcb;
  let mss_local := LWIP_MIN (tp_mss b) (tp_snd_wnd_max b / 2) in
  if arg =? 0 then Some (s, ERR_ARG)
  else
    '(s, err) ← tcp_write_checks s pcb len;
    if negb (err =? ERR_OK) then Some (s, err)
    else
      '(s, r) ← write_extend s pcb b arg len apiflags mss_local;
      match r with
      | None => write_memerr s pcb 0 0
      | Some t =>
          '(s, queue, q) ← mjoin (while write_fuel (write_body pcb arg len apiflags mss_local (tp_snd_lbb b))
            (s, mkQueue (wt_seg t) 0 0 (wt_pos t) (wt_queuelen t) (wt_oversize t)));
          match q with
          | None => write_memerr s pcb (wt_concat t) queue
          | Some q => write_commit s pcb arg len apiflags t q
          end
      end.

(** ** Sending *)

Definition tcp_send_empty_ack s (pcb : Z) : option (istate W X U * Z) :=
  b ← pcb_at s pcb;
  '(s, p) ← tcp_output_alloc_header s pcb 0 0 (lwip_htonl (tp_snd_nxt b));
  if p =? 0 then Some (s, ERR_BUF)
  else
    s ← upd s pcb (fun b => b |> set_tp_flags (clear_flag (tp_flags b) (Z.lor TF_ACK_DELAY TF_ACK_NOW)));
    pb ← i_pbuf s p;
    s ← chksum_and_send s p (payload pb) (tp_local_ip b) (tp_remote_ip b) (tp_ttl b) (tp_tos b);
    s ← i_free custom_free s p;
    Some (s, ERR_OK).

Definition tcp_output_segment s (seg pcb : Z) : option (istate W X U) :=
  g ← seg_at s seg;
  b ← pcb_at s pcb;
  let h := sg_tcphdr g in
  let m := st32 (i_mem s) (h + TCPH_ackno) (lwip_htonl (tp_rcv_nxt b)) in
  let m := st16 m (h + TCPH_wnd) (PP_HTONS (tp_rcv_ann_wnd b)) in
  let s := i_write s m in
  s ← upd s pcb announce;
  s ← (if has (sg_flags g) TF_SEG_OPTS_MSS then
         '(s, mss) ← tcp_eff_send_mss s TCP_MSS (tp_remote_ip b);
         Some (i_write s (st32 (i_mem s) (h + TCP_HLEN) (TCP_BUILD_MSS_OPTION mss)))
       else Some s);
  s ← (if tp_rtime b =? -1 then upd s pcb (set_tp_rtime 0) else Some s);
  '(s, routed) ← (if tp_local_ip b =? IPADDR_ANY then
    '(s, np) ← ip_route s (tp_remote_ip b);
    if np =? 0 then Some (s, false)
    else n ← netif_at s np; s ← upd s pcb (set_tp_local_ip (nif_ip_addr n)); Some (s, true)
  else Some (s, true));
  if negb (routed : bool) then Some s
  else
    s ← (if tp_rttest b =? 0
         then upd s pcb (fun b => b |> set_tp_rttest (tv_ticks (tcp_of s)) |> set_tp_rtseq (seg_seqno s g))
         else Some s);
    pb ← i_pbuf s (sg_p g);
    let n := u16 (h - payload pb) in
    ps ← update (i_p s) (sg_p g) (fun pb =>
      set_payload (set_tot_len (set_len pb (u16 (len pb - n))) (u16 (tot_len pb - n))) h);
    let s := set_i_p s ps in
    let s := i_write s (st16 (i_mem s) (h + TCPH_chksum) 0) in
    b ← pcb_at s pcb;
    let s := TCP_STATS_INC c_xmit s in
    chksum_and_send s (sg_p g) h (tp_local_ip b) (tp_remote_ip b) (tp_ttl b) (tp_tos b).

(** The place of a segment in a list ordered by sequence numbers: the segments
    before and behind it, 0 for none. *)
Definition seg_place s (head seqno : Z) : option (Z * Z) :=
  for_list sg_next (tv_segs (tcp_of s))
    (fun prev q g => if TCP_SEQ_LT (seg_seqno s g) seqno then inl q else inr (prev, q)) (fun prev => (prev, 0)) 0 head.

(** [tcp_do_output_nagle] *)
Definition tcp_do_output_nagle s (b : tcp_pcb) : option bool :=
  if (tp_unacked b =? 0) || has (tp_flags b) (Z.lor TF_NODELAY TF_INFR) then Some true
  else
    more ← (if tp_unsent b =? 0 then Some false
            else g ← seg_at s (tp_unsent b); Some (negb (sg_next g =? 0) || (tp_mss b <=? sg_len g)));
    Some (more || (tp_snd_buf b =? 0) || (TCP_SND_QUEUELEN <=? tp_snd_queuelen b)).

(** The distance of the end of a segment from the last acknowledged byte. *)
Definition seg_end s (b : tcp_pcb) (g : tcp_seg) : Z := u32 (u32 (seg_seqno s g - tp_lastack b) + sg_len g).

(** A segment that was sent goes to the unacknowledged ones, or is released if it
    takes no sequence number; the result is [useg]. *)
Definition output_queue s (pcb seg useg : Z) : option (istate W X U * Z) :=
  g ← seg_at s seg;
  if 0 <? TCP_TCPLEN (i_mem s) g then
    s ← upd_seg s seg (set_sg_next 0);
    b ← pcb_at s pcb;
    if tp_unacked b =? 0 then s ← upd s pcb (set_tp_unacked seg); Some (s, seg)
    else
      ug ← seg_at s useg;
      if TCP_SEQ_LT (seg_seqno s g) (seg_seqno s ug) then
        '(prev, cur) ← seg_place s (tp_unacked b) (seg_seqno s g);
        s ← upd_seg s seg (set_sg_next cur);
        s ← (if prev =? 0 then upd s pcb (set_tp_unacked seg) else upd_seg s prev (set_sg_next seg));
        Some (s, useg)
      else s ← upd_seg s useg (set_sg_next seg); Some (s, seg)
  else s ← seg_free s seg; Some (s, useg).

(** One segment of [tcp_output]: the state and [useg]. *)
Definition output_body (pcb wnd : Z) (y : istate W X U * Z) : (istate W X U * Z) + option (istate W X U) :=
  let '(s, useg) := y in
  match pcb_at s pcb with
  | None => inr None
  | Some b =>
      if tp_unsent b =? 0 then inr (Some s)
      else
        match seg_at s (tp_unsent b) with
        | None => inr None
        | Some g =>
            if seg_end s b g <=? wnd then
              match tcp_do_output_nagle s b with
              | None => inr None
              | Some nagle =>
                  if negb nagle && negb (has (tp_flags b) (Z.lor TF_NAGLEMEMERR TF_FIN)) then inr (Some s)
                  else
                    let seg := tp_unsent b in
                    match (s ← upd s pcb (set_tp_unsent (sg_next g));
                           s ← (if is_state (tp_state b) SYN_SENT then Some s
                                else
                                  let s := i_write s (TCPH_SET_FLAG (i_mem s) (sg_tcphdr g) TCP_ACK) in
                                  upd s pcb (fun b =>
                                    b |> set_tp_flags (clear_flag (tp_flags b) (Z.lor TF_ACK_DELAY TF_ACK_NOW))));
                           s ← tcp_output_segment s seg pcb;
                           let snd_nxt := u32 (seg_seqno s g + TCP_TCPLEN (i_mem s) g) in
                           b ← pcb_at s pcb;
                           s ← (if TCP_SEQ_LT (tp_snd_nxt b) snd_nxt then upd s pcb (set_tp_snd_nxt snd_nxt) else Some s);
                           output_queue s pcb seg useg) with
                    | None => inr None
                    | Some y => inl y
                    end
              end
            else inr (Some s)
        end
  end.

Definition tcp_output s (pcb : Z) : option (istate W X U * Z) :=
  if tv_input_pcb (tcp_of s) =? pcb then Some (s, ERR_OK)
  else
    b ← pcb_at s pcb;
    let wnd := LWIP_MIN (tp_snd_wnd b) (tp_cwnd b) in
    no_data ← (if tp_unsent b =? 0 then Some true
               else g ← seg_at s (tp_unsent b); Some (wnd <? seg_end s b g));
    if has (tp_flags b) TF_ACK_NOW && (no_data : bool) then tcp_send_empty_ack s pcb
    else
      useg ← (if tp_unacked b =? 0 then Some 0 else last_seg s (tp_unacked b));
      s ← mjoin (while (S (size (tv_segs (tcp_of s)))) (output_body pcb wnd) (s, useg));
      s ← upd s pcb (fun b =>
        let b := if tp_unsent b =? 0 then b |> set_tp_unsent_oversize 0 else b in
        b |> set_tp_flags (clear_flag (tp_flags b) TF_NAGLEMEMERR));
      Some (s, ERR_OK).

Definition tcp_rst s (seqno ackno local_ip remote_ip local_port remote_port : Z) : option (istate W X U) :=
  '(s, p) ← t_alloc s PBUF_IP TCP_HLEN PBUF_RAM;
  if p =? 0 then Some s
  else
    pb ← i_pbuf s p;
    let s := i_write s (put_header (i_mem s) (payload pb) local_port remote_port (lwip_htonl seqno) ackno
                          (TCP_HLEN / 4) (Z.lor TCP_RST TCP_ACK) TCP_WND) in
    let s := TCP_STATS_INC c_xmit s in
    s ← chksum_and_send s p (payload pb) local_ip remote_ip TCP_TTL 0;
    i_free custom_free s p.

(** ** Retransmission *)

Definition tcp_rexmit_rto s (pcb : Z) : option (istate W X U) :=
  b ← pcb_at s pcb;
  if tp_unacked b =? 0 then Some s
  else
    seg ← last_seg s (tp_unacked b);
    s ← upd_seg s seg (set_sg_next (tp_unsent b));
    s ← upd s pcb (fun b =>
      b |> set_tp_unsent (tp_unacked b) |> set_tp_unacked 0 |> set_tp_nrtx (u8 (tp_nrtx b + 1)) |> set_tp_rttest 0);
    '(s, _) ← tcp_output s pcb;
    Some s.

Definition tcp_rexmit s (pcb : Z) : option (istate W X U) :=
  b ← pcb_at s pcb;
  if tp_unacked b =? 0 then Some s
  else
    let seg := tp_unacked b in
    g ← seg_at s seg;
    s ← upd s pcb (set_tp_unacked (sg_next g));
    '(prev, cur) ← seg_place s (tp_unsent b) (seg_seqno s g);
    s ← upd_seg s seg (set_sg_next cur);
    s ← (if prev =? 0 then upd s pcb (set_tp_unsent seg) else upd_seg s prev (set_sg_next seg));
    s ← (if cur =? 0 then upd s pcb (set_tp_unsent_oversize 0) else Some s);
    upd s pcb (fun b => b |> set_tp_nrtx (u8 (tp_nrtx b + 1)) |> set_tp_rttest 0).

Definition tcp_rexmit_fast s (pcb : Z) : option (istate W X U) :=
  b ← pcb_at s pcb;
  if negb (tp_unacked b =? 0) && negb (has (tp_flags b) TF_INFR) then
    s ← tcp_rexmit s pcb;
    upd s pcb (fun b =>
      let b := if tp_snd_wnd b <? tp_cwnd b then b |> set_tp_ssthresh (tp_snd_wnd b / 2)
               else b |> set_tp_ssthresh (tp_cwnd b / 2) in
      let b := if tp_ssthresh b <? 2 * tp_mss b then b |> set_tp_ssthresh (u16 (2 * tp_mss b)) else b in
      b |> set_tp_cwnd (u16 (tp_ssthresh b + 3 * tp_mss b)) |> set_tp_flags (or_flag (tp_flags b) TF_INFR))
  else Some s.

(** ** Probes *)

Definition tcp_keepalive s (pcb : Z) : option (istate W X U) :=
  b ← pcb_at s pcb;
  '(s, p) ← tcp_output_alloc_header s pcb 0 0 (lwip_htonl (u32 (tp_snd_nxt b - 1)));
  if p =? 0 then Some s
  else
    pb ← i_pbuf s p;
    let s := TCP_STATS_INC c_xmit s in
    s ← chksum_and_send s p (payload pb) (tp_local_ip b) (tp_remote_ip b) (tp_ttl b) 0;
    i_free custom_free s p.

Definition tcp_zero_window_probe s (pcb : Z) : option (istate W X U) :=
  b ← pcb_at s pcb;
  let seg := if tp_unacked b =? 0 then tp_unsent b else tp_unacked b in
  if seg =? 0 then Some s
  else
    g ← seg_at s seg;
    let is_fin := has (TCPH_FLAGS (i_mem s) (sg_tcphdr g)) TCP_FIN && (sg_len g =? 0) in
    '(s, p) ← tcp_output_alloc_header s pcb 0 (if is_fin then 0 else 1) (ld32 (i_mem s) (sg_tcphdr g + TCPH_seqno));
    if p =? 0 then Some s
    else
      pb ← i_pbuf s p;
      s ← (if is_fin then Some (i_write s (TCPH_FLAGS_SET (i_mem s) (payload pb) (Z.lor TCP_ACK TCP_FIN)))
           else
             sb ← i_pbuf s (sg_p g);
             '(m, _) ← pbuf_copy_partial (i_mem s) (pst (i_p s)) (sg_p g) (payload pb + TCP_HLEN) 1 (u16 (tot_len sb - sg_len g));
             Some (i_write s m));
      let s := TCP_STATS_INC c_xmit s in
      s ← chksum_and_send s p (payload pb) (tp_local_ip b) (tp_remote_ip b) (tp_ttl b) 0;
      i_free custom_free s p.

End out.

End TcpOut.
