(* ===== verification/Tcp.v ===== *)
(** The control blocks of TCP: src/core/tcp.c of lwIP 1.4.1 (callback API, no
    SO_REUSE, LWIP_TCP_KEEPALIVE 0).

    The functions the application registers are the record [tcp_app] of callbacks:
    each gets the state, the function and its arguments.  A callback that is not
    registered is not called.  Loops over the active control blocks call the
    application, which may change the lists; they take the number of steps they may
    make as an argument. *)

From stdpp Require Import base tactics numbers list gmap.
From Stdlib Require Import ZArith Lia.
From S2P Require Import Prelude ByteOrder Stats Linked PbufDefs NetifDefs Allocator Mem Memp PbufMem Pbuf IpAddr IpDefs IpOutput TcpDefs TcpSeg TcpOut.

Local Open Scope Z_scope.

Module Tcp.
Import ByteOrder Linked Memp Pbuf IpAddr IpDefs IpOutput TcpDefs TcpSeg TcpOut.

(** ** The application *)

Record tcp_app (St : Type) := mkApp {
  cb_accept : St -> Z -> Z -> Z -> Z -> option (St * Z);
  cb_recv : St -> Z -> Z -> Z -> Z -> Z -> option (St * Z);
  cb_sent : St -> Z -> Z -> Z -> Z -> option (St * Z);
  cb_poll : St -> Z -> Z -> Z -> option (St * Z);
  cb_connected : St -> Z -> Z -> Z -> Z -> option (St * Z);
  cb_err : St -> Z -> Z -> Z -> option St }.
Arguments mkApp {St}. Arguments cb_accept {St}. Arguments cb_recv {St}. Arguments cb_sent {St}. Arguments cb_poll {St}.
Arguments cb_connected {St}. Arguments cb_err {St}.

(** A control block as [tcp_alloc] sets it up. *)
Definition new_pcb (prio iss ticks timer_ctr : Z) : tcp_pcb := {|
  tp_local_ip := 0; tp_remote_ip := 0; tp_so_options := 0; tp_tos := 0; tp_ttl := TCP_TTL; tp_next := 0;
  tp_callback_arg := 0; tp_accept := FN_NULL; tp_state := CLOSED; tp_prio := prio; tp_local_port := 0;
  tp_remote_port := 0; tp_flags := 0; tp_polltmr := 0; tp_pollinterval := 0; tp_last_timer := timer_ctr; tp_tmr := ticks;
  tp_rcv_nxt := 0; tp_rcv_wnd := TCP_WND; tp_rcv_ann_wnd := TCP_WND; tp_rcv_ann_right_edge := 0; tp_rtime := -1;
  tp_mss := (if 536 <? TCP_MSS then 536 else TCP_MSS); tp_rttest := 0; tp_rtseq := 0; tp_sa := 0;
  tp_sv := 3000 / TCP_SLOW_INTERVAL; tp_rto := 3000 / TCP_SLOW_INTERVAL; tp_nrtx := 0; tp_dupacks := 0; tp_lastack := iss;
  tp_cwnd := 1; tp_ssthresh := 0; tp_snd_nxt := iss; tp_snd_wl1 := 0; tp_snd_wl2 := iss; tp_snd_lbb := iss; tp_snd_wnd := 0;
  tp_snd_wnd_max := 0; tp_acked := 0; tp_snd_buf := TCP_SND_BUF; tp_snd_queuelen := 0; tp_unsent_oversize := 0;
  tp_unsent := 0; tp_unacked := 0; tp_ooseq := 0; tp_refused_data := 0; tp_sent := FN_NULL; tp_recv := FN_DEFAULT;
  tp_connected := FN_NULL; tp_poll := FN_NULL; tp_errf := FN_NULL; tp_keep_idle := TCP_KEEPIDLE_DEFAULT;
  tp_persist_cnt := 0; tp_persist_backoff := 0; tp_keep_cnt_sent := 0 |}.

(** ** Ports *)

(** [f] finds something in one of the lists: the listening control blocks, then
    those that are bound, active and in TIME-WAIT. *)
Definition in_lists (t : tcp_vars) (f : Z -> Z -> bool) : option bool :=
  let lookup h := for_list tp_next (tv_pcbs t)
    (fun (_ : unit) _ b => if f (tp_local_ip b) (tp_local_port b) then inr true else inl tt) (fun _ => false) tt h in
  l ← for_list lp_next (tv_lpcbs t)
    (fun (_ : unit) _ b => if f (lp_local_ip b) (lp_local_port b) then inr true else inl tt) (fun _ => false) tt (tv_listen t);
  if (l : bool) then Some true
  else
    b ← lookup (tv_bound t);
    if (b : bool) then Some true
    else a ← lookup (tv_active t); if (a : bool) then Some true else lookup (tv_tw t).

(** The code from the label [again]: the port and the number of ports tried. *)
Definition tcp_again_body (t : tcp_vars) (y : Z * Z) : (Z * Z) + option (Z * Z) :=
  let '(port, n) := y in
  let port := if port =? TCP_LOCAL_PORT_RANGE_END then TCP_LOCAL_PORT_RANGE_START else u16 (port + 1) in
  match in_lists t (fun _ p => p =? port) with
  | None => inr None
  | Some true =>
      let n := u16 (n + 1) in
      if TCP_LOCAL_PORT_RANGE_END - TCP_LOCAL_PORT_RANGE_START <? n then inr (Some (port, 0)) else inl (port, n)
  | Some false => inr (Some (port, port))
  end.

Definition TCP_PORTS : Z := TCP_LOCAL_PORT_RANGE_END - TCP_LOCAL_PORT_RANGE_START + 1.

Definition tcp_new_port (t : tcp_vars) : option (tcp_vars * Z) :=
  '(port, r) ← mjoin (while (S (Z.to_nat TCP_PORTS)) (tcp_again_body t) (tv_port t, 0));
  Some (set_tv_port port t, r).

Section tcp.
Context {W X U : Type} `{MemSystem W} `{HasTcp U} `{MempStats W}.
Context (stale : Z -> Z) (custom_free : pstate W -> Z -> option (pstate W)).
Context (netif_output : X -> pstate W -> Z -> netif -> Z -> Z -> option (X * pstate W * Z)).
Context (app : tcp_app (istate W X U)).
Implicit Type s : istate W X U.

Local Abbreviation segs_free := (tcp_segs_free custom_free).
Local Abbreviation output := (tcp_output stale custom_free netif_output).
Local Abbreviation rst := (tcp_rst stale custom_free netif_output).

(** The state of a control block of either kind. *)
Definition state_of s (pcb : Z) : option tcp_state :=
  match pcb_at s pcb with
  | Some b => Some (tp_state b)
  | None => b ← lpcb_at s pcb; Some (lp_state b)
  end.

(** ** Releasing control blocks *)

(** The listening control block an unfinished connection belongs to has one
    connection less to accept. *)
Definition unpend s (b : tcp_pcb) : option (istate W X U) :=
  lpcb ← for_list lp_next (tv_lpcbs (tcp_of s))
    (fun (_ : unit) q lb =>
       if (lp_local_port lb =? tp_local_port b) && ((lp_local_ip lb =? IPADDR_ANY) || (tp_local_ip b =? lp_local_ip lb))
       then inr q else inl tt) (fun _ => 0) tt (tv_listen (tcp_of s));
  if lpcb =? 0 then Some s
  else lb ← lpcb_at s lpcb; Some (put_lpcb s lpcb (set_lp_accepts_pending (u8 (lp_accepts_pending lb - 1)) lb)).

Definition tcp_pcb_purge s (pcb : Z) : option (istate W X U) :=
  b ← pcb_at s pcb;
  if is_state (tp_state b) CLOSED || is_state (tp_state b) TIME_WAIT || is_state (tp_state b) LISTEN then Some s
  else
    s ← (if is_state (tp_state b) SYN_RCVD then unpend s b else Some s);
    s ← (if negb (tp_refused_data b =? 0) then
           s ← i_free custom_free s (tp_refused_data b); upd s pcb (set_tp_refused_data 0)
         else Some s);
    s ← segs_free s (tp_ooseq b);
    s ← upd s pcb (fun b => b |> set_tp_ooseq 0 |> set_tp_rtime (-1));
    s ← segs_free s (tp_unsent b);
    s ← segs_free s (tp_unacked b);
    upd s pcb (fun b => b |> set_tp_unsent 0 |> set_tp_unacked 0 |> set_tp_unsent_oversize 0).

Definition tcp_pcb_remove s (l : pcb_list) (pcb : Z) : option (istate W X U) :=
  s ← TCP_RMV s l pcb;
  s ← tcp_pcb_purge s pcb;
  b ← pcb_at s pcb;
  s ← (if negb (is_state (tp_state b) TIME_WAIT) && negb (is_state (tp_state b) LISTEN) && has (tp_flags b) TF_ACK_DELAY then
         s ← upd s pcb (fun b => b |> set_tp_flags (or_flag (tp_flags b) TF_ACK_NOW));
         '(s, _) ← output s pcb; Some s
       else Some s);
  upd s pcb (set_tp_state CLOSED).

(** The same for a listening control block, which has nothing to purge. *)
Definition tcp_pcb_remove_listen s (pcb : Z) : option (istate W X U) :=
  s ← TCP_RMV_LISTEN s pcb;
  b ← lpcb_at s pcb; Some (put_lpcb s pcb (set_lp_state CLOSED b)).

Definition TCP_PCB_REMOVE_ACTIVE s (pcb : Z) : option (istate W X U) :=
  s ← tcp_pcb_remove s ACTIVE pcb; Some (set_changed s 1).

Definition TCP_EVENT_ERR s (errf : fptr) (arg err : Z) : option (istate W X U) :=
  match errf with FN_NULL => Some s | FN_DEFAULT => None | FN_APP f => cb_err app s f arg err end.

Definition tcp_abandon s (pcb : Z) (reset : bool) : option (istate W X U) :=
  b ← pcb_at s pcb;
  if is_state (tp_state b) TIME_WAIT then s ← tcp_pcb_remove s TW pcb; Some (free_pcb s pcb)
  else
    let seqno := tp_snd_nxt b in
    let ackno := tp_rcv_nxt b in
    let errf := tp_errf b in
    let errf_arg := tp_callback_arg b in
    s ← TCP_PCB_REMOVE_ACTIVE s pcb;
    b ← pcb_at s pcb;
    s ← (if negb (tp_unacked b =? 0) then segs_free s (tp_unacked b) else Some s);
    s ← (if negb (tp_unsent b =? 0) then segs_free s (tp_unsent b) else Some s);
    s ← (if negb (tp_ooseq b =? 0) then segs_free s (tp_ooseq b) else Some s);
    s ← (if reset then rst s seqno ackno (tp_local_ip b) (tp_remote_ip b) (tp_local_port b) (tp_remote_port b) else Some s);
    TCP_EVENT_ERR (free_pcb s pcb) errf errf_arg ERR_ABRT.

Definition tcp_abort s (pcb : Z) : option (istate W X U) := tcp_abandon s pcb true.

(** ** Closing *)

(** A FIN is sent and the state changes, if there is memory. *)
Definition close_fin s (pcb : Z) (new_state : tcp_state) : option (istate W X U * Z) :=
  '(s, err) ← tcp_send_fin stale custom_free s pcb;
  if err =? ERR_OK then
    s ← upd s pcb (set_tp_state new_state);
    '(s, _) ← output s pcb;
    Some (s, err)
  else Some (s, err).

Definition tcp_close_shutdown s (pcb : Z) (rst_on_unacked_data : bool) : option (istate W X U * Z) :=
  match pcb_at s pcb with
  | None =>
      b ← lpcb_at s pcb;
      s ← tcp_pcb_remove_listen s pcb; Some (free_lpcb s pcb, ERR_OK)
  | Some b =>
      if rst_on_unacked_data && (is_state (tp_state b) ESTABLISHED || is_state (tp_state b) CLOSE_WAIT) &&
         (negb (tp_refused_data b =? 0) || negb (tp_rcv_wnd b =? TCP_WND)) then
        s ← rst s (tp_snd_nxt b) (tp_rcv_nxt b) (tp_local_ip b) (tp_remote_ip b) (tp_local_port b) (tp_remote_port b);
        s ← tcp_pcb_purge s pcb;
        s ← TCP_RMV_ACTIVE s pcb;
        b ← pcb_at s pcb;
        if is_state (tp_state b) ESTABLISHED then
          s ← upd s pcb (set_tp_state TIME_WAIT); s ← TCP_REG s TW pcb; Some (s, ERR_OK)
        else Some (free_pcb s pcb, ERR_OK)
      else
        match tp_state b with
        | CLOSED =>
            s ← (if negb (tp_local_port b =? 0) then TCP_RMV s BOUND pcb else Some s);
            Some (free_pcb s pcb, ERR_OK)
        | SYN_SENT => s ← TCP_PCB_REMOVE_ACTIVE s pcb; Some (free_pcb s pcb, ERR_OK)
        | SYN_RCVD | ESTABLISHED => close_fin s pcb FIN_WAIT_1
        | CLOSE_WAIT => close_fin s pcb LAST_ACK
        | _ => Some (s, ERR_OK)
        end
  end.

Definition tcp_close s (pcb : Z) : option (istate W X U * Z) :=
  st ← state_of s pcb;
  s ← (if is_state st LISTEN then Some s
       else upd s pcb (fun b => b |> set_tp_flags (or_flag (tp_flags b) TF_RXCLOSED)));
  tcp_close_shutdown s pcb true.

Definition tcp_shutdown s (pcb : Z) (shut_rx shut_tx : bool) : option (istate W X U * Z) :=
  st ← state_of s pcb;
  if is_state st LISTEN then Some (s, ERR_CONN)
  else
    s ← (if shut_rx then upd s pcb (fun b => b |> set_tp_flags (or_flag (tp_flags b) TF_RXCLOSED)) else Some s);
    if shut_rx && shut_tx then tcp_close_shutdown s pcb true
    else
      b ← pcb_at s pcb;
      s ← (if shut_rx && negb (tp_refused_data b =? 0) then
             s ← i_free custom_free s (tp_refused_data b); upd s pcb (set_tp_refused_data 0)
           else Some s);
      if shut_tx then
        match st with
        | SYN_RCVD | ESTABLISHED | CLOSE_WAIT => tcp_close_shutdown s pcb shut_rx
        | _ => Some (s, ERR_CONN)
        end
      else Some (s, ERR_OK).

(** ** Binding, listening and connecting *)

Definition tcp_bind s (pcb ipaddr port : Z) : option (istate W X U * Z) :=
  st ← state_of s pcb;
  if negb (is_state st CLOSED) then Some (s, ERR_VAL)
  else
    '(s, port) ← (if port =? 0 then '(t, port) ← tcp_new_port (tcp_of s); Some (set_tcp s t, port) else Some (s, port));
    if port =? 0 then Some (s, ERR_BUF)
    else
      used ← in_lists (tcp_of s)
        (fun ip p => (p =? port) && ((ip =? IPADDR_ANY) || (ipaddr =? IPADDR_ANY) || (ip =? ipaddr)));
      if (used : bool) then Some (s, ERR_USE)
      else
        s ← (if ipaddr =? IPADDR_ANY then Some s else upd s pcb (set_tp_local_ip ipaddr));
        s ← upd s pcb (set_tp_local_port port);
        s ← TCP_REG s BOUND pcb;
        Some (s, ERR_OK).

(** The listening control block, 0 for NULL. *)
Definition tcp_listen_with_backlog s (pcb backlog : Z) : option (istate W X U * Z) :=
  st ← state_of s pcb;
  if negb (is_state st CLOSED) then Some (s, 0)
  else
    let '(w, lpcb) := ms_memp_malloc (pw (i_p s)) MEMP_TCP_PCB_LISTEN in
    let s := set_w s w in
    if lpcb =? 0 then Some (s, 0)
    else
      b ← pcb_at s pcb;
      let s := put_lpcb s lpcb (mkTcpListen (tp_local_ip b) 0 (Z.lor (tp_so_options b) SOF_ACCEPTCONN) (tp_tos b) (tp_ttl b)
                 0 (tp_callback_arg b) FN_DEFAULT LISTEN (tp_prio b) (tp_local_port b)
                 (if backlog =? 0 then 1 else backlog) 0) in
      s ← (if negb (tp_local_port b =? 0) then TCP_RMV s BOUND pcb else Some s);
      let s := free_pcb s pcb in
      s ← TCP_REG_LISTEN s lpcb;
      Some (s, lpcb).

Definition tcp_connect s (pcb : Z) (ipaddr : option Z) (port : Z) (connected : fptr) : option (istate W X U * Z) :=
  st ← state_of s pcb;
  if negb (is_state st CLOSED) then Some (s, ERR_ISCONN)
  else
    match ipaddr with
    | None => Some (s, ERR_VAL)
    | Some ip =>
        s ← upd s pcb (fun b => b |> set_tp_remote_ip ip |> set_tp_remote_port port);
        b ← pcb_at s pcb;
        '(s, routed) ← (if tp_local_ip b =? IPADDR_ANY then
          '(s, np) ← ip_route s ip;
          if np =? 0 then Some (s, false)
          else n ← netif_at s np; s ← upd s pcb (set_tp_local_ip (nif_ip_addr n)); Some (s, true)
        else Some (s, true));
        if negb (routed : bool) then Some (s, ERR_RTE)
        else
          let old_local_port := tp_local_port b in
          '(s, lport) ← (if old_local_port =? 0 then
            '(t, lport) ← tcp_new_port (tcp_of s);
            s ← upd (set_tcp s t) pcb (set_tp_local_port lport); Some (s, lport)
          else Some (s, old_local_port));
          if lport =? 0 then Some (s, ERR_BUF)
          else
            let '(s, iss) := tcp_next_iss s in
            s ← upd s pcb (fun b =>
              b |> set_tp_rcv_nxt 0 |> set_tp_snd_nxt iss |> set_tp_lastack (u32 (iss - 1)) |> set_tp_snd_lbb (u32 (iss - 1))
                |> set_tp_rcv_wnd TCP_WND |> set_tp_rcv_ann_wnd TCP_WND |> set_tp_rcv_ann_right_edge 0 |> set_tp_snd_wnd TCP_WND
                |> set_tp_mss (if 536 <? TCP_MSS then 536 else TCP_MSS));
            b ← pcb_at s pcb;
            '(s, mss) ← tcp_eff_send_mss s (tp_mss b) ip;
            s ← upd s pcb (fun b =>
              b |> set_tp_mss mss |> set_tp_cwnd 1 |> set_tp_ssthresh (u16 (mss * 10)) |> set_tp_connected connected);
            '(s, ret) ← tcp_enqueue_flags stale custom_free s pcb TCP_SYN;
            if ret =? ERR_OK then
              s ← upd s pcb (set_tp_state SYN_SENT);
              s ← (if negb (old_local_port =? 0) then TCP_RMV s BOUND pcb else Some s);
              s ← TCP_REG_ACTIVE s pcb;
              '(s, _) ← output s pcb;
              Some (s, ret)
            else Some (s, ret)
    end.

(** ** Receiving *)

(** The window grows by [len] bytes, up to its maximum. *)
Definition open_wnd (len : Z) (b : tcp_pcb) : tcp_pcb :=
  let wnd := u16 (tp_rcv_wnd b + len) in
  b |> set_tp_rcv_wnd (if TCP_WND <? wnd then TCP_WND else wnd).

Definition tcp_recved s (pcb len : Z) : option (istate W X U) :=
  b ← pcb_at s pcb;
  let '(b, inflation) := tcp_update_rcv_ann_wnd (open_wnd len b) in
  let s := put_pcb s pcb b in
  if TCP_WND_UPDATE_THRESHOLD <=? s32 inflation then
    s ← upd s pcb tcp_ack_now; '(s, _) ← output s pcb; Some s
  else Some s.

Definition tcp_recv_null s (pcb p err : Z) : option (istate W X U * Z) :=
  if negb (p =? 0) then
    pb ← i_pbuf s p;
    s ← tcp_recved s pcb (tot_len pb);
    s ← i_free custom_free s p;
    Some (s, ERR_OK)
  else if err =? ERR_OK then tcp_close s pcb
  else Some (s, ERR_OK).

Definition tcp_accept_null s : option (istate W X U * Z) := Some (s, ERR_ABRT).

(** ** Events *)

Definition TCP_EVENT_ACCEPT s (pcb err : Z) : option (istate W X U * Z) :=
  b ← pcb_at s pcb;
  match tp_accept b with
  | FN_NULL => Some (s, ERR_ARG)
  | FN_DEFAULT => tcp_accept_null s
  | FN_APP f => cb_accept app s f (tp_callback_arg b) pcb err
  end.

Definition TCP_EVENT_SENT s (pcb space : Z) : option (istate W X U * Z) :=
  b ← pcb_at s pcb;
  match tp_sent b with
  | FN_NULL => Some (s, ERR_OK) | FN_DEFAULT => None | FN_APP f => cb_sent app s f (tp_callback_arg b) pcb space
  end.

Definition TCP_EVENT_RECV s (pcb p err : Z) : option (istate W X U * Z) :=
  b ← pcb_at s pcb;
  match tp_recv b with
  | FN_NULL | FN_DEFAULT => tcp_recv_null s pcb p err
  | FN_APP f => cb_recv app s f (tp_callback_arg b) pcb p err
  end.

Definition TCP_EVENT_CLOSED s (pcb : Z) : option (istate W X U * Z) :=
  b ← pcb_at s pcb;
  match tp_recv b with
  | FN_NULL => Some (s, ERR_OK)
  | FN_DEFAULT => tcp_recv_null s pcb 0 ERR_OK
  | FN_APP f => cb_recv app s f (tp_callback_arg b) pcb 0 ERR_OK
  end.

Definition TCP_EVENT_CONNECTED s (pcb err : Z) : option (istate W X U * Z) :=
  b ← pcb_at s pcb;
  match tp_connected b with
  | FN_NULL => Some (s, ERR_OK) | FN_DEFAULT => None | FN_APP f => cb_connected app s f (tp_callback_arg b) pcb err
  end.

Definition TCP_EVENT_POLL s (pcb : Z) : option (istate W X U * Z) :=
  b ← pcb_at s pcb;
  match tp_poll b with
  | FN_NULL => Some (s, ERR_OK) | FN_DEFAULT => None | FN_APP f => cb_poll app s f (tp_callback_arg b) pcb
  end.

(** The window grows by the sequence number of a FIN, which [tcp_recved] is not
    called for. *)
Definition grow_wnd (b : tcp_pcb) : tcp_pcb :=
  if tp_rcv_wnd b =? TCP_WND then b else b |> set_tp_rcv_wnd (u16 (tp_rcv_wnd b + 1)).

Definition tcp_process_refused_data s (pcb : Z) : option (istate W X U * Z) :=
  b ← pcb_at s pcb;
  let refused_data := tp_refused_data b in
  pb ← i_pbuf s refused_data;
  let refused_flags := flags pb in
  s ← upd s pcb (set_tp_refused_data 0);
  '(s, err) ← TCP_EVENT_RECV s pcb refused_data ERR_OK;
  if err =? ERR_OK then
    if has refused_flags PBUF_FLAG_TCP_FIN then
      s ← upd s pcb grow_wnd;
      '(s, err) ← TCP_EVENT_CLOSED s pcb;
      Some (s, if err =? ERR_ABRT then ERR_ABRT else ERR_OK)
    else Some (s, ERR_OK)
  else if err =? ERR_ABRT then Some (s, ERR_ABRT)
  else s ← upd s pcb (set_tp_refused_data refused_data); Some (s, ERR_OK).

(** ** Creating control blocks *)

(** The oldest active control block whose priority is at most [prio] and is not
    higher than those found before it, 0 for none: [inactivity], [inactive] and
    [mprio]. *)
Definition kill_prio_step (ticks prio : Z) (x : Z * Z * Z) (pcb : Z) (b : tcp_pcb) : (Z * Z * Z) + Z :=
  let '(inactivity, inactive, mprio) := x in
  if (tp_prio b <=? prio) && (tp_prio b <=? mprio) && (inactivity <=? u32 (ticks - tp_tmr b))
  then inl (u32 (ticks - tp_tmr b), pcb, tp_prio b) else inl x.

Definition tcp_kill_prio s (prio : Z) : option (istate W X U) :=
  let t := tcp_of s in
  inactive ← for_list tp_next (tv_pcbs t) (kill_prio_step (tv_ticks t) prio) (fun x => x.1.2) (0, 0, TCP_PRIO_MAX) (tv_active t);
  if inactive =? 0 then Some s else tcp_abort s inactive.

Definition kill_tw_step (ticks : Z) (x : Z * Z) (pcb : Z) (b : tcp_pcb) : (Z * Z) + Z :=
  let '(inactivity, inactive) := x in
  if inactivity <=? u32 (ticks - tp_tmr b) then inl (u32 (ticks - tp_tmr b), pcb) else inl x.

Definition tcp_kill_timewait s : option (istate W X U) :=
  let t := tcp_of s in
  inactive ← for_list tp_next (tv_pcbs t) (kill_tw_step (tv_ticks t)) (fun x => x.2) (0, 0) (tv_tw t);
  if inactive =? 0 then Some s else tcp_abort s inactive.

Definition memp_pcb s : istate W X U * Z :=
  let '(w, pcb) := ms_memp_malloc (pw (i_p s)) MEMP_TCP_PCB in (set_w s w, pcb).
Definition err_dec s : istate W X U := set_w s (memp_err_dec (pw (i_p s)) MEMP_TCP_PCB).

Definition tcp_alloc s (prio : Z) : option (istate W X U * Z) :=
  let '(s, pcb) := memp_pcb s in
  '(s, pcb) ←
    (if pcb =? 0 then
       s ← tcp_kill_timewait s;
       let '(s, pcb) := memp_pcb s in
       '(s, pcb) ←
         (if pcb =? 0 then
            s ← tcp_kill_prio s prio;
            let '(s, pcb) := memp_pcb s in
            Some ((if negb (pcb =? 0) then err_dec s else s), pcb)
          else Some (s, pcb));
       Some ((if negb (pcb =? 0) then err_dec s else s), pcb)
     else Some (s, pcb));
  if negb (pcb =? 0) then
    let '(s, iss) := tcp_next_iss s in
    Some (put_pcb s pcb (new_pcb prio iss (tv_ticks (tcp_of s)) (tv_timer_ctr (tcp_of s))), pcb)
  else Some (s, 0).

Definition tcp_new s : option (istate W X U * Z) := tcp_alloc s TCP_PRIO_NORMAL.

(** ** Settings *)

Definition tcp_setprio s (pcb prio : Z) : option (istate W X U) := upd s pcb (set_tp_prio prio).
Definition tcp_arg s (pcb arg : Z) : option (istate W X U) :=
  match lpcb_at s pcb with
  | Some b => Some (put_lpcb s pcb (set_lp_callback_arg arg b))
  | None => upd s pcb (set_tp_callback_arg arg)
  end.
Definition tcp_accept s (pcb : Z) (f : fptr) : option (istate W X U) :=
  match lpcb_at s pcb with
  | Some b => Some (put_lpcb s pcb (set_lp_accept f b))
  | None => upd s pcb (set_tp_accept f)
  end.
Definition tcp_recv s (pcb : Z) (f : fptr) : option (istate W X U) := upd s pcb (set_tp_recv f).
Definition tcp_sent s (pcb : Z) (f : fptr) : option (istate W X U) := upd s pcb (set_tp_sent f).
Definition tcp_err s (pcb : Z) (f : fptr) : option (istate W X U) := upd s pcb (set_tp_errf f).
Definition tcp_poll s (pcb : Z) (f : fptr) (interval : Z) : option (istate W X U) :=
  upd s pcb (fun b => b |> set_tp_poll f |> set_tp_pollinterval interval).
Definition tcp_nagle_disable s (pcb : Z) : option (istate W X U) :=
  upd s pcb (fun b => b |> set_tp_flags (or_flag (tp_flags b) TF_NODELAY)).
Definition tcp_accepted s (pcb : Z) : option (istate W X U) :=
  b ← lpcb_at s pcb; Some (put_lpcb s pcb (set_lp_accepts_pending (u8 (lp_accepts_pending b - 1)) b)).

(** ** Timers *)

(** How long a control block has been inactive, in ticks. *)
Definition idle_ticks s (b : tcp_pcb) : Z := u32 (tv_ticks (tcp_of s) - tp_tmr b).

(** The persist timer or the retransmission timer. *)
Definition slow_persist s (pcb : Z) (b : tcp_pcb) : option (istate W X U) :=
  let cnt := u8 (tp_persist_cnt b + 1) in
  lim ← tcp_persist_backoff !! Z.to_nat (tp_persist_backoff b - 1);
  if lim <=? cnt then
    s ← upd s pcb (fun b =>
      let b := b |> set_tp_persist_cnt 0 in
      if tp_persist_backoff b <? 7 then b |> set_tp_persist_backoff (u8 (tp_persist_backoff b + 1)) else b);
    tcp_zero_window_probe stale custom_free netif_output s pcb
  else upd s pcb (set_tp_persist_cnt cnt).

Definition slow_rexmit s (pcb : Z) (b : tcp_pcb) : option (istate W X U) :=
  let rtime := if 0 <=? tp_rtime b then s16 (tp_rtime b + 1) else tp_rtime b in
  s ← upd s pcb (set_tp_rtime rtime);
  if negb (tp_unacked b =? 0) && (tp_rto b <=? rtime) then
    rto ← (if is_state (tp_state b) SYN_SENT then Some (tp_rto b)
           else sh ← tcp_backoff !! Z.to_nat (tp_nrtx b); Some (s16 (Z.shiftl (Z.shiftr (tp_sa b) 3 + tp_sv b) sh)));
    let eff_wnd := LWIP_MIN (tp_cwnd b) (tp_snd_wnd b) in
    let ssthresh := Z.shiftr eff_wnd 1 in
    let ssthresh := if ssthresh <? Z.shiftl (tp_mss b) 1 then u16 (Z.shiftl (tp_mss b) 1) else ssthresh in
    s ← upd s pcb (fun b => b |> set_tp_rto rto |> set_tp_rtime 0 |> set_tp_ssthresh ssthresh |> set_tp_cwnd (tp_mss b));
    tcp_rexmit_rto stale custom_free netif_output s pcb
  else Some s.

Definition slow_retransmit s (pcb : Z) : option (istate W X U * bool) :=
  b ← pcb_at s pcb;
  if is_state (tp_state b) SYN_SENT && (tp_nrtx b =? TCP_SYNMAXRTX) then Some (s, true)
  else if tp_nrtx b =? TCP_MAXRTX then Some (s, true)
  else s ← (if 0 <? tp_persist_backoff b then slow_persist s pcb b else slow_rexmit s pcb b); Some (s, false).

(** Keepalive: whether the connection is removed. *)
Definition slow_keepalive s (pcb : Z) : option (istate W X U * bool) :=
  b ← pcb_at s pcb;
  if has (tp_so_options b) SOF_KEEPALIVE && (is_state (tp_state b) ESTABLISHED || is_state (tp_state b) CLOSE_WAIT) then
    if u32 (tp_keep_idle b + TCP_MAXIDLE) / TCP_SLOW_INTERVAL <? idle_ticks s b then Some (s, true)
    else if u32 (tp_keep_idle b + tp_keep_cnt_sent b * TCP_KEEPINTVL_DEFAULT) / TCP_SLOW_INTERVAL <? idle_ticks s b then
      s ← tcp_keepalive stale custom_free netif_output s pcb;
      s ← upd s pcb (fun b => b |> set_tp_keep_cnt_sent (u8 (tp_keep_cnt_sent b + 1)));
      Some (s, false)
    else Some (s, false)
  else Some (s, false).

(** The checks of one active control block; the result is [pcb_remove] and
    [pcb_reset]. *)
Definition slow_check s (pcb : Z) : option (istate W X U * bool * bool) :=
  '(s, remove) ← slow_retransmit s pcb;
  b ← pcb_at s pcb;
  let remove := remove || (is_state (tp_state b) FIN_WAIT_2 && has (tp_flags b) TF_RXCLOSED &&
                           (TCP_FIN_WAIT_TIMEOUT / TCP_SLOW_INTERVAL <? idle_ticks s b)) in
  '(s, reset) ← slow_keepalive s pcb;
  b ← pcb_at s pcb;
  s ← (if negb (tp_ooseq b =? 0) && (u32 (tp_rto b * TCP_OOSEQ_TIMEOUT) <=? idle_ticks s b) then
         s ← segs_free s (tp_ooseq b); upd s pcb (set_tp_ooseq 0)
       else Some s);
  let remove := remove || reset ||
    (is_state (tp_state b) SYN_RCVD && (TCP_SYN_RCVD_TIMEOUT / TCP_SLOW_INTERVAL <? idle_ticks s b)) ||
    (is_state (tp_state b) LAST_ACK && (2 * TCP_MSL / TCP_SLOW_INTERVAL <? idle_ticks s b)) in
  Some (s, remove, reset).

(** [prev->next = pcb->next], or the head of the list if [prev] is NULL. *)
Definition unlink_after s (l : pcb_list) (prev nxt : Z) : option (istate W X U) :=
  if negb (prev =? 0) then upd s prev (set_tp_next nxt) else Some (set_tcp s (set_list_head l nxt (tcp_of s))).

(** A control block is removed from the active ones: the state and the rest of
    the list. *)
Definition slow_remove s (prev pcb : Z) (reset : bool) : option (istate W X U * Z) :=
  s ← tcp_pcb_purge s pcb;
  b ← pcb_at s pcb;
  s ← unlink_after s ACTIVE prev (tp_next b);
  s ← (if reset then rst s (tp_snd_nxt b) (tp_rcv_nxt b) (tp_local_ip b) (tp_remote_ip b) (tp_local_port b) (tp_remote_port b)
       else Some s);
  let s := set_changed (free_pcb s pcb) 0 in
  s ← TCP_EVENT_ERR s (tp_errf b) (tp_callback_arg b) ERR_ABRT;
  Some (s, tp_next b).

(** A control block stays: it is polled.  The result says whether the application
    changed the list. *)
Definition slow_poll s (pcb : Z) : option (istate W X U * bool) :=
  b ← pcb_at s pcb;
  let polltmr := u8 (tp_polltmr b + 1) in
  if tp_pollinterval b <=? polltmr then
    s ← upd s pcb (set_tp_polltmr 0);
    '(s, err) ← TCP_EVENT_POLL (set_changed s 0) pcb;
    if negb (tv_changed (tcp_of s) =? 0) then Some (s, true)
    else if err =? ERR_OK then '(s, _) ← output s pcb; Some (s, false)
    else Some (s, false)
  else s ← upd s pcb (set_tp_polltmr polltmr); Some (s, false).

(** One turn of the loop over the active control blocks: the state, [prev] and
    [pcb]. *)
Definition slow_body (y : istate W X U * Z * Z) : (istate W X U * Z * Z) + option (istate W X U) :=
  let '(s, prev, pcb) := y in
  if pcb =? 0 then inr (Some s)
  else
    match pcb_at s pcb with
    | None => inr None
    | Some b =>
        if tp_last_timer b =? tv_timer_ctr (tcp_of s) then inl (s, prev, tp_next b)
        else
          match (s ← upd s pcb (set_tp_last_timer (tv_timer_ctr (tcp_of s)));
                 '(s, remove, reset) ← slow_check s pcb;
                 if (remove : bool) then
                   '(s, nxt) ← slow_remove s prev pcb reset;
                   Some (if negb (tv_changed (tcp_of s) =? 0) then (s, 0, tv_active (tcp_of s)) else (s, prev, nxt))
                 else
                   b ← pcb_at s pcb;
                   '(s, changed) ← slow_poll s pcb;
                   Some (if (changed : bool) then (s, 0, tv_active (tcp_of s)) else (s, pcb, tp_next b))) with
          | None => inr None
          | Some y => inl y
          end
    end.

(** The loop over the control blocks in TIME-WAIT. *)
Definition slow_tw_body (y : istate W X U * Z * Z) : (istate W X U * Z * Z) + option (istate W X U) :=
  let '(s, prev, pcb) := y in
  if pcb =? 0 then inr (Some s)
  else
    match pcb_at s pcb with
    | None => inr None
    | Some b =>
        if 2 * TCP_MSL / TCP_SLOW_INTERVAL <? idle_ticks s b then
          match (s ← tcp_pcb_purge s pcb; s ← unlink_after s TW prev (tp_next b); Some (free_pcb s pcb)) with
          | None => inr None
          | Some s => inl (s, prev, tp_next b)
          end
        else inl (s, pcb, tp_next b)
    end.

Definition tcp_slowtmr (fuel : nat) s : option (istate W X U) :=
  let t := tcp_of s in
  let s := set_tcp s (t |> set_tv_ticks (u32 (tv_ticks t + 1)) |> set_tv_timer_ctr (u8 (tv_timer_ctr t + 1))) in
  s ← mjoin (while fuel slow_body (s, 0, tv_active (tcp_of s)));
  mjoin (while (S (size (tv_pcbs (tcp_of s)))) slow_tw_body (s, 0, tv_tw (tcp_of s))).

(** One turn of the loop of [tcp_fasttmr]: the state and [pcb]. *)
Definition fast_body (y : istate W X U * Z) : (istate W X U * Z) + option (istate W X U) :=
  let '(s, pcb) := y in
  if pcb =? 0 then inr (Some s)
  else
    match pcb_at s pcb with
    | None => inr None
    | Some b =>
        if negb (tp_last_timer b =? tv_timer_ctr (tcp_of s)) then
          match (s ← upd s pcb (set_tp_last_timer (tv_timer_ctr (tcp_of s)));
                 s ← (if has (tp_flags b) TF_ACK_DELAY then
                        s ← upd s pcb tcp_ack_now;
                        '(s, _) ← output s pcb;
                        upd s pcb (fun b => b |> set_tp_flags (clear_flag (tp_flags b) (Z.lor TF_ACK_DELAY TF_ACK_NOW)))
                      else Some s);
                 b ← pcb_at s pcb;
                 if negb (tp_refused_data b =? 0) then
                   '(s, _) ← tcp_process_refused_data (set_changed s 0) pcb;
                   Some (s, if negb (tv_changed (tcp_of s) =? 0) then tv_active (tcp_of s) else tp_next b)
                 else Some (s, tp_next b)) with
          | None => inr None
          | Some y => inl y
          end
        else inl (s, pcb)
    end.

Definition tcp_fasttmr (fuel : nat) s : option (istate W X U) :=
  let t := tcp_of s in
  let s := set_tcp s (t |> set_tv_timer_ctr (u8 (tv_timer_ctr t + 1))) in
  mjoin (while fuel fast_body (s, tv_active (tcp_of s))).

Definition tcp_tmr (fuel : nat) s : option (istate W X U) :=
  s ← tcp_fasttmr fuel s;
  let t := tcp_of s in
  let s := set_tcp s (set_tv_timer (u8 (tv_timer t + 1)) t) in
  if has (tv_timer (tcp_of s)) 1 then tcp_slowtmr fuel s else Some s.

End tcp.

End Tcp.
