(* ===== verification/TcpIn.v ===== *)
(** Receiving TCP segments: src/core/tcp_in.c of lwIP 1.4.1 (no timestamps, SO_REUSE 0,
    TCP_OOSEQ_MAX_BYTES and TCP_OOSEQ_MAX_PBUFS 0).

    The variables that describe the segment being received are [tv_in]; the fields of
    its header are converted to host byte order in place by [tcp_input], so
    [hdr_seqno] and [hdr_wnd] read them as they are.  A segment that is queued out of
    sequence keeps such a header. *)

From stdpp Require Import base tactics numbers list gmap.
From Stdlib Require Import ZArith Lia.
From S2P Require Import Prelude ByteOrder Stats Linked PbufDefs NetifDefs InetChksum Allocator Mem Memp PbufMem Pbuf IpAddr IpDefs IpOutput TcpDefs TcpSeg TcpOut Tcp.

Local Open Scope Z_scope.

Module TcpIn.
Import ByteOrder Linked InetChksum Memp Pbuf IpAddr IpDefs IpOutput TcpDefs TcpSeg TcpOut Tcp.

(** ** Options *)

(** The options of the header at [h], at the offset [c]: the maximum segment size
    is the state of the loop. *)
Definition parseopt_body (m : memory) (opts max_c : Z) (y : Z * Z) : (Z * Z) + Z :=
  let '(mss, c) := y in
  if c <? max_c then
    let opt := ld8 m (opts + c) in
    if opt =? 0x00 then inr mss
    else if opt =? 0x01 then inl (mss, u16 (c + 1))
    else if opt =? 0x02 then
      if negb (ld8 m (opts + c + 1) =? 0x04) || (max_c <? c + 0x04) then inr mss
      else
        let x := Z.lor (Z.shiftl (ld8 m (opts + c + 2)) 8) (ld8 m (opts + c + 3)) in
        inl ((if (TCP_MSS <? x) || (x =? 0) then TCP_MSS else x), u16 (c + 0x04))
    else if ld8 m (opts + c + 1) =? 0 then inr mss
    else inl (mss, u16 (c + ld8 m (opts + c + 1)))
  else inr mss.

(** At most 40 bytes of options, and every step takes one. *)
Definition parseopt (m : memory) (h mss : Z) : option Z :=
  if 5 <? TCPH_HDRLEN m h then
    while 41 (parseopt_body m (h + TCP_HLEN) (Z.shiftl (TCPH_HDRLEN m h - 5) 2)) (mss, 0)
  else Some mss.

Section input.
Context {W X U : Type} `{MemSystem W} `{HasTcp U} `{MempStats W}.
Context (stale : Z -> Z) (custom_free : pstate W -> Z -> option (pstate W)).
Context (netif_output : X -> pstate W -> Z -> netif -> Z -> Z -> option (X * pstate W * Z)).
Context (app : tcp_app (istate W X U)).
Implicit Type s : istate W X U.

Local Abbreviation seg_free := (tcp_seg_free custom_free).
Local Abbreviation segs_free := (tcp_segs_free custom_free).
Local Abbreviation output := (tcp_output stale custom_free netif_output).
Local Abbreviation rst := (tcp_rst stale custom_free netif_output).
Local Abbreviation purge := (tcp_pcb_purge custom_free).

(** ** The segment being received *)

Definition inp s : tcp_in := tv_in (tcp_of s).
Definition set_inp s (i : tcp_in) : istate W X U := set_tcp s (set_tv_in i (tcp_of s)).
Definition upd_in s (f : tcp_in -> tcp_in) : istate W X U := set_inp s (f (inp s)).
Definition set_input_pcb s (pcb : Z) : istate W X U := set_tcp s (set_tv_input_pcb pcb (tcp_of s)).

(** Fields in host byte order, at the header [h]. *)
Definition hdr_seqno s (h : Z) : Z := ld32 (i_mem s) (h + TCPH_seqno).
Definition hdr_wnd s : Z := ld16 (i_mem s) (ti_tcphdr (inp s) + TCPH_wnd).
Definition hdr_src s : Z := ld16 (i_mem s) (ti_tcphdr (inp s) + TCPH_src).
Definition hdr_dest s : Z := ld16 (i_mem s) (ti_tcphdr (inp s) + TCPH_dest).

Definition in_realloc s (p len : Z) : option (istate W X U) :=
  ps ← pbuf_realloc custom_free (i_p s) p len; Some (set_i_p s ps).

(** A reset in reply to the segment. *)
Definition reply_rst s : option (istate W X U) :=
  rst s (ti_ackno (inp s)) (u32 (ti_seqno (inp s) + ti_tcplen (inp s))) (cur_dest (i_cur s)) (cur_src (i_cur s))
    (hdr_dest s) (hdr_src s).

Definition tcp_parseopt s (pcb : Z) : option (istate W X U) :=
  b ← pcb_at s pcb;
  mss ← parseopt (i_mem s) (ti_tcphdr (inp s)) (tp_mss b);
  upd s pcb (set_tp_mss mss).

(** ** Out-of-sequence segments *)

(** The segments behind the new one that it covers are released. *)
Definition oos_covered_body (cseg : Z) (y : istate W X U * Z) : (istate W X U * Z) + option (istate W X U * Z) :=
  let '(s, nxt) := y in
  if nxt =? 0 then inr (Some (s, 0))
  else
    match seg_at s cseg, seg_at s nxt with
    | Some c, Some g =>
        if TCP_SEQ_GEQ (u32 (ti_seqno (inp s) + sg_len c)) (u32 (hdr_seqno s (sg_tcphdr g) + sg_len g)) then
          let s := if has (TCPH_FLAGS (i_mem s) (sg_tcphdr g)) TCP_FIN
                   then i_write s (TCPH_SET_FLAG (i_mem s) (sg_tcphdr c) TCP_FIN) else s in
          match seg_free s nxt with
          | None => inr None
          | Some s => inl (s, sg_next g)
          end
        else inr (Some (s, nxt))
    | _, _ => inr None
    end.

Definition tcp_oos_insert_segment s (cseg nxt : Z) : option (istate W X U) :=
  c ← seg_at s cseg;
  '(s, nxt) ←
    (if has (TCPH_FLAGS (i_mem s) (sg_tcphdr c)) TCP_FIN then s ← segs_free s nxt; Some (s, 0)
     else
       '(s, nxt) ← mjoin (while (S (size (tv_segs (tcp_of s)))) (oos_covered_body cseg) (s, nxt));
       if nxt =? 0 then Some (s, 0)
       else
         g ← seg_at s nxt;
         c ← seg_at s cseg;
         let seqno := ti_seqno (inp s) in
         if TCP_SEQ_GT (u32 (seqno + sg_len c)) (hdr_seqno s (sg_tcphdr g)) then
           let n := u16 (u32 (hdr_seqno s (sg_tcphdr g) - seqno)) in
           s ← upd_seg s cseg (set_sg_len n);
           s ← in_realloc s (sg_p c) n;
           Some (s, nxt)
         else Some (s, nxt));
  upd_seg s cseg (set_sg_next nxt).

(** The previous segment is trimmed where the new one begins. *)
Definition oos_trim s (seg : Z) : option (istate W X U) :=
  g ← seg_at s seg;
  let seqno := ti_seqno (inp s) in
  if TCP_SEQ_GT (u32 (hdr_seqno s (sg_tcphdr g) + sg_len g)) seqno then
    let n := u16 (u32 (seqno - hdr_seqno s (sg_tcphdr g))) in
    s ← upd_seg s seg (set_sg_len n);
    in_realloc s (sg_p g) n
  else Some s.

(** The new segment at the end of the queue, cut to the window. *)
Definition oos_window s (pcb cseg : Z) : option (istate W X U) :=
  b ← pcb_at s pcb;
  let seqno := ti_seqno (inp s) in
  if u32 (tp_rcv_nxt b + tp_rcv_wnd b) <? u32 (ti_tcplen (inp s) + seqno) then
    c ← seg_at s cseg;
    let fl := TCPH_FLAGS (i_mem s) (sg_tcphdr c) in
    let s := if has fl TCP_FIN then i_write s (TCPH_FLAGS_SET (i_mem s) (sg_tcphdr c) (clear_flag fl TCP_FIN)) else s in
    let n := u16 (tp_rcv_nxt b + tp_rcv_wnd b - seqno) in
    s ← upd_seg s cseg (set_sg_len n);
    s ← in_realloc s (sg_p c) n;
    c ← seg_at s cseg;
    Some (upd_in s (set_ti_tcplen (u16 (TCP_TCPLEN (i_mem s) c))))
  else Some s.

(** A copy of the segment becomes [*link], where [link] is the [next] field of
    [prev] or the head of the queue. *)
Definition oos_put s (pcb prev nxt : Z) (trim : bool) : option (istate W X U) :=
  '(s, cseg) ← tcp_seg_copy s (ti_inseg (inp s));
  if cseg =? 0 then Some s
  else
    s ← (if trim then oos_trim s prev else Some s);
    s ← (if prev =? 0 then upd s pcb (set_tp_ooseq cseg) else upd_seg s prev (set_sg_next cseg));
    tcp_oos_insert_segment s cseg nxt.

(** Where the segment goes in a queue that is not empty. *)
Inductive oos_action :=
| OOS_DISCARD
| OOS_PUT (prev nxt : Z) (trim : bool)
| OOS_APPEND (last : Z).

(** The loop over the queue: [prev] and its sequence number. *)
Definition oos_step s (x : Z * Z) (nxt : Z) (g : tcp_seg) : (Z * Z) + oos_action :=
  let '(prev, prev_seqno) := x in
  let seqno := ti_seqno (inp s) in
  let nseq := hdr_seqno s (sg_tcphdr g) in
  if seqno =? nseq then
    if sg_len g <? sg_len (ti_inseg (inp s)) then inr (OOS_PUT prev nxt false) else inr OOS_DISCARD
  else if (prev =? 0) && TCP_SEQ_LT seqno nseq then inr (OOS_PUT 0 nxt false)
  else if negb (prev =? 0) && TCP_SEQ_BETWEEN seqno (u32 (prev_seqno + 1)) (u32 (nseq - 1)) then inr (OOS_PUT prev nxt true)
  else if (sg_next g =? 0) && TCP_SEQ_GT seqno nseq then
    if has (TCPH_FLAGS (i_mem s) (sg_tcphdr g)) TCP_FIN then inr OOS_DISCARD else inr (OOS_APPEND nxt)
  else inl (nxt, nseq).

(** The segment is put on the queue of those out of sequence. *)
Definition oos_queue s (pcb : Z) : option (istate W X U) :=
  b ← pcb_at s pcb;
  if tp_ooseq b =? 0 then
    '(s, cseg) ← tcp_seg_copy s (ti_inseg (inp s)); upd s pcb (set_tp_ooseq cseg)
  else
    a ← for_list sg_next (tv_segs (tcp_of s)) (oos_step s) (fun _ => OOS_DISCARD) (0, 0) (tp_ooseq b);
    match a with
    | OOS_DISCARD => Some s
    | OOS_PUT prev nxt trim => oos_put s pcb prev nxt trim
    | OOS_APPEND last =>
        '(s, cseg) ← tcp_seg_copy s (ti_inseg (inp s));
        s ← upd_seg s last (set_sg_next cseg);
        if cseg =? 0 then Some s else s ← oos_trim s last; oos_window s pcb cseg
    end.

(** ** Acknowledgements *)

(** The window the remote end announces. *)
Definition update_snd_wnd (seqno ackno wnd : Z) (b : tcp_pcb) : tcp_pcb :=
  if TCP_SEQ_LT (tp_snd_wl1 b) seqno || ((tp_snd_wl1 b =? seqno) && TCP_SEQ_LT (tp_snd_wl2 b) ackno) ||
     ((tp_snd_wl2 b =? ackno) && (tp_snd_wnd b <? wnd)) then
    let b := b |> set_tp_snd_wnd wnd in
    let b := if tp_snd_wnd_max b <? wnd then b |> set_tp_snd_wnd_max wnd else b in
    let b := b |> set_tp_snd_wl1 seqno |> set_tp_snd_wl2 ackno in
    if tp_snd_wnd b =? 0 then
      if tp_persist_backoff b =? 0 then b |> set_tp_persist_cnt 0 |> set_tp_persist_backoff 1 else b
    else if 0 <? tp_persist_backoff b then b |> set_tp_persist_backoff 0 else b
  else b.

(** An acknowledgement of nothing new; [right_wnd_edge] is the edge of the window
    before it was updated. *)
Definition dup_ack s (pcb right_wnd_edge : Z) : option (istate W X U) :=
  s ← upd s pcb (set_tp_acked 0);
  b ← pcb_at s pcb;
  if (ti_tcplen (inp s) =? 0) && (u32 (tp_snd_wl2 b + tp_snd_wnd b) =? right_wnd_edge) && (0 <=? tp_rtime b) &&
     (tp_lastack b =? ti_ackno (inp s)) then
    let dupacks := if tp_dupacks b <? u8 (tp_dupacks b + 1) then tp_dupacks b + 1 else tp_dupacks b in
    s ← upd s pcb (set_tp_dupacks dupacks);
    if 3 <? dupacks then
      upd s pcb (fun b => if tp_cwnd b <? u16 (tp_cwnd b + tp_mss b) then b |> set_tp_cwnd (u16 (tp_cwnd b + tp_mss b)) else b)
    else if dupacks =? 3 then tcp_rexmit_fast s pcb
    else Some s
  else upd s pcb (set_tp_dupacks 0).

(** New data is acknowledged: the congestion control. *)
Definition new_ack (ackno : Z) (b : tcp_pcb) : tcp_pcb :=
  let b := if has (tp_flags b) TF_INFR
           then b |> set_tp_flags (clear_flag (tp_flags b) TF_INFR) |> set_tp_cwnd (tp_ssthresh b) else b in
  let acked := u16 (u32 (ackno - tp_lastack b)) in
  let b := b |> set_tp_nrtx 0 |> set_tp_rto (s16 (Z.shiftr (tp_sa b) 3 + tp_sv b)) |> set_tp_acked acked
             |> set_tp_snd_buf (u16 (tp_snd_buf b + acked)) |> set_tp_dupacks 0 |> set_tp_lastack ackno in
  if state_num ESTABLISHED <=? state_num (tp_state b) then
    if tp_cwnd b <? tp_ssthresh b then
      if tp_cwnd b <? u16 (tp_cwnd b + tp_mss b) then b |> set_tp_cwnd (u16 (tp_cwnd b + tp_mss b)) else b
    else
      let new_cwnd := u16 (tp_cwnd b + tp_mss b * tp_mss b / tp_cwnd b) in
      if tp_cwnd b <? new_cwnd then b |> set_tp_cwnd new_cwnd else b
  else b.

(** A segment that is acknowledged leaves its queue, whose head [set_head] sets. *)
Definition drop_acked s (pcb seg : Z) (g : tcp_seg) (set_head : Z -> tcp_pcb -> tcp_pcb) : option (istate W X U) :=
  n ← pbuf_clen (i_p s) (sg_p g);
  let fin := has (TCPH_FLAGS (i_mem s) (sg_tcphdr g)) TCP_FIN in
  s ← upd s pcb (fun b =>
    let b := b |> set_head (sg_next g) in
    let b := if negb (tp_acked b =? 0) && fin then b |> set_tp_acked (u16 (tp_acked b - 1)) else b in
    b |> set_tp_snd_queuelen (u16 (tp_snd_queuelen b - n)));
  seg_free s seg.

Definition acked_body (pcb ackno : Z) (s : istate W X U) : istate W X U + option (istate W X U) :=
  match pcb_at s pcb with
  | None => inr None
  | Some b =>
      if tp_unacked b =? 0 then inr (Some s)
      else
        match seg_at s (tp_unacked b) with
        | None => inr None
        | Some g =>
            if TCP_SEQ_LEQ (u32 (seg_seqno s g + TCP_TCPLEN (i_mem s) g)) ackno then
              match drop_acked s pcb (tp_unacked b) g set_tp_unacked with None => inr None | Some s => inl s end
            else inr (Some s)
        end
  end.

Definition set_unsent_head (x : Z) (b : tcp_pcb) : tcp_pcb :=
  let b := b |> set_tp_unsent x in if x =? 0 then b |> set_tp_unsent_oversize 0 else b.

Definition unsent_acked_body (pcb ackno : Z) (s : istate W X U) : istate W X U + option (istate W X U) :=
  match pcb_at s pcb with
  | None => inr None
  | Some b =>
      if tp_unsent b =? 0 then inr (Some s)
      else
        match seg_at s (tp_unsent b) with
        | None => inr None
        | Some g =>
            if TCP_SEQ_BETWEEN ackno (u32 (seg_seqno s g + TCP_TCPLEN (i_mem s) g)) (tp_snd_nxt b) then
              match drop_acked s pcb (tp_unsent b) g set_unsent_head with None => inr None | Some s => inl s end
            else inr (Some s)
        end
  end.

(** The round-trip time. *)
Definition estimate_rtt (ticks ackno : Z) (b : tcp_pcb) : tcp_pcb :=
  if negb (tp_rttest b =? 0) && TCP_SEQ_LT (tp_rtseq b) ackno then
    let m := s16 (u32 (ticks - tp_rttest b)) in
    let m := s16 (m - Z.shiftr (tp_sa b) 3) in
    let sa := s16 (tp_sa b + m) in
    let m := if m <? 0 then s16 (- m) else m in
    let m := s16 (m - Z.shiftr (tp_sv b) 2) in
    let sv := s16 (tp_sv b + m) in
    b |> set_tp_sa sa |> set_tp_sv sv |> set_tp_rto (s16 (Z.shiftr sa 3 + sv)) |> set_tp_rttest 0
  else b.

(** The part of [tcp_receive] for segments with an acknowledgement. *)
Definition receive_ack s (pcb : Z) : option (istate W X U) :=
  b ← pcb_at s pcb;
  let ackno := ti_ackno (inp s) in
  let right_wnd_edge := u32 (tp_snd_wnd b + tp_snd_wl2 b) in
  s ← upd s pcb (update_snd_wnd (ti_seqno (inp s)) ackno (hdr_wnd s));
  b ← pcb_at s pcb;
  s ← (if TCP_SEQ_LEQ ackno (tp_lastack b) then dup_ack s pcb right_wnd_edge
       else if TCP_SEQ_BETWEEN ackno (u32 (tp_lastack b + 1)) (tp_snd_nxt b) then
         s ← upd s pcb (new_ack ackno);
         s ← mjoin (while (S (size (tv_segs (tcp_of s)))) (acked_body pcb ackno) s);
         upd s pcb (fun b => b |> set_tp_rtime (if tp_unacked b =? 0 then -1 else 0) |> set_tp_polltmr 0)
       else upd s pcb (set_tp_acked 0));
  s ← mjoin (while (S (size (tv_segs (tcp_of s)))) (unsent_acked_body pcb ackno) s);
  upd s pcb (estimate_rtt (tv_ticks (tcp_of s)) ackno).

(** ** Data *)

(** The pbufs in front of [off] bytes are emptied; the result is the pbuf with the
    rest and the bytes to remove from it. *)
Definition trim_body (new_tot_len : Z) (y : istate W X U * Z * Z) : (istate W X U * Z * Z) + option (istate W X U * Z * Z) :=
  let '(s, p, off) := y in
  match i_pbuf s p with
  | None => inr None
  | Some pb =>
      if len pb <? off then
        match update (i_p s) p (fun pb => set_len (set_tot_len pb new_tot_len) 0) with
        | None => inr None
        | Some ps => inl (set_i_p s ps, next pb, off - len pb)
        end
      else inr (Some (s, p, off))
  end.

(** The first edge of the segment is trimmed to [rcv_nxt]. *)
Definition trim_front s (rcv_nxt : Z) : option (istate W X U) :=
  let i := inp s in
  let off := s32 (u32 (rcv_nxt - ti_seqno i)) in
  let p := sg_p (ti_inseg i) in
  pb ← i_pbuf s p;
  '(s, q, off) ←
    (if len pb <? off then
       mjoin (while (S (size (pst (i_p s)))) (trim_body (u16 (tot_len pb - off))) (s, p, off))
     else Some (s, p, off));
  '(s, _) ← i_header s q (s16 (- off));
  let s := i_write s (st32 (i_mem s) (sg_tcphdr (ti_inseg i) + TCPH_seqno) rcv_nxt) in
  Some (upd_in s (fun i =>
    i |> set_ti_inseg (ti_inseg i |> set_sg_len (u16 (sg_len (ti_inseg i) - u16 (u32 (rcv_nxt - ti_seqno i)))))
      |> set_ti_seqno rcv_nxt)).

(** [inseg.len] and the packet are cut to [n] sequence numbers. *)
Definition cut_inseg s (n : Z) : option (istate W X U) :=
  let g := ti_inseg (inp s) in
  let n := u16 (if has (TCPH_FLAGS (i_mem s) (sg_tcphdr g)) TCP_SYN then n - 1 else n) in
  s ← in_realloc s (sg_p g) n;
  Some (upd_in s (fun i =>
    let g := ti_inseg i |> set_sg_len n in i |> set_ti_inseg g |> set_ti_tcplen (u16 (TCP_TCPLEN (i_mem s) g)))).

(** The segments out of sequence that the new one covers are released. *)
Definition ooseq_covered_body (y : istate W X U * Z) : (istate W X U * Z) + option (istate W X U * Z) :=
  let '(s, nxt) := y in
  if nxt =? 0 then inr (Some (s, 0))
  else
    match seg_at s nxt with
    | None => inr None
    | Some g =>
        let i := inp s in
        if TCP_SEQ_GEQ (u32 (ti_seqno i + ti_tcplen i)) (u32 (hdr_seqno s (sg_tcphdr g) + sg_len g)) then
          let h := sg_tcphdr (ti_inseg i) in
          let s := if has (TCPH_FLAGS (i_mem s) (sg_tcphdr g)) TCP_FIN && negb (has (TCPH_FLAGS (i_mem s) h) TCP_SYN) then
                     let s := i_write s (TCPH_SET_FLAG (i_mem s) h TCP_FIN) in
                     upd_in s (set_ti_tcplen (u16 (TCP_TCPLEN (i_mem s) (ti_inseg i))))
                   else s in
          match seg_free s nxt with None => inr None | Some s => inl (s, sg_next g) end
        else inr (Some (s, nxt))
    end.

Definition adjust_ooseq s (pcb : Z) : option (istate W X U) :=
  b ← pcb_at s pcb;
  if tp_ooseq b =? 0 then Some s
  else if has (TCPH_FLAGS (i_mem s) (sg_tcphdr (ti_inseg (inp s)))) TCP_FIN then
    s ← segs_free s (tp_ooseq b); upd s pcb (set_tp_ooseq 0)
  else
    '(s, nxt) ← mjoin (while (S (size (tv_segs (tcp_of s)))) ooseq_covered_body (s, tp_ooseq b));
    s ← (if nxt =? 0 then Some s
         else
           g ← seg_at s nxt;
           let i := inp s in
           if TCP_SEQ_GT (u32 (ti_seqno i + ti_tcplen i)) (hdr_seqno s (sg_tcphdr g))
           then cut_inseg s (u16 (u32 (hdr_seqno s (sg_tcphdr g) - ti_seqno i)))
           else Some s);
    upd s pcb (set_tp_ooseq nxt).

(** [n] sequence numbers were received and [nxt] is the next one: the window is used
    up by them. *)
Definition take_wnd (nxt n : Z) (b : tcp_pcb) : tcp_pcb :=
  (tcp_update_rcv_ann_wnd (b |> set_tp_rcv_nxt nxt |> set_tp_rcv_wnd (u16 (tp_rcv_wnd b - n)))).1.

(** The segments out of sequence that have come into sequence. *)
Definition ooseq_ready_body (pcb : Z) (s : istate W X U) : istate W X U + option (istate W X U) :=
  match pcb_at s pcb with
  | None => inr None
  | Some b =>
      if tp_ooseq b =? 0 then inr (Some s)
      else
        match seg_at s (tp_ooseq b) with
        | None => inr None
        | Some g =>
            if hdr_seqno s (sg_tcphdr g) =? tp_rcv_nxt b then
              match
                (let cseg := tp_ooseq b in
                 let n := TCP_TCPLEN (i_mem s) g in
                 let s := upd_in s (set_ti_seqno (hdr_seqno s (sg_tcphdr g))) in
                 s ← upd s pcb (fun b => take_wnd (u32 (tp_rcv_nxt b + n)) n b);
                 cb ← i_pbuf s (sg_p g);
                 s ← (if 0 <? tot_len cb then
                        s ← (if negb (ti_recv_data (inp s) =? 0) then
                               ps ← pbuf_cat (i_p s) (ti_recv_data (inp s)) (sg_p g); Some (set_i_p s ps)
                             else Some (upd_in s (set_ti_recv_data (sg_p g))));
                        upd_seg s cseg (set_sg_p 0)
                      else Some s);
                 s ← (if has (TCPH_FLAGS (i_mem s) (sg_tcphdr g)) TCP_FIN then
                        let s := upd_in s (fun i => i |> set_ti_recv_flags (or_flag (ti_recv_flags i) TF_GOT_FIN)) in
                        upd s pcb (fun b => if is_state (tp_state b) ESTABLISHED then b |> set_tp_state CLOSE_WAIT else b)
                      else Some s);
                 s ← upd s pcb (set_tp_ooseq (sg_next g));
                 seg_free s cseg) with
              | None => inr None
              | Some s => inl s
              end
            else inr (Some s)
        end
  end.

(** The next segment in sequence. *)
Definition receive_next s (pcb : Z) : option (istate W X U) :=
  b ← pcb_at s pcb;
  let s := upd_in s (fun i => i |> set_ti_tcplen (u16 (TCP_TCPLEN (i_mem s) (ti_inseg i)))) in
  s ← (if tp_rcv_wnd b <? ti_tcplen (inp s) then
         let h := sg_tcphdr (ti_inseg (inp s)) in
         let fl := TCPH_FLAGS (i_mem s) h in
         let s := if has fl TCP_FIN then i_write s (TCPH_FLAGS_SET (i_mem s) h (clear_flag fl TCP_FIN)) else s in
         cut_inseg s (tp_rcv_wnd b)
       else Some s);
  s ← adjust_ooseq s pcb;
  let i := inp s in
  s ← upd s pcb (take_wnd (u32 (ti_seqno i + ti_tcplen i)) (ti_tcplen i));
  pb ← i_pbuf s (sg_p (ti_inseg i));
  let s := if 0 <? tot_len pb then
             upd_in s (fun i => i |> set_ti_recv_data (sg_p (ti_inseg i)) |> set_ti_inseg (ti_inseg i |> set_sg_p 0))
           else s in
  let s := if has (TCPH_FLAGS (i_mem s) (sg_tcphdr (ti_inseg i))) TCP_FIN then
             upd_in s (fun i => i |> set_ti_recv_flags (or_flag (ti_recv_flags i) TF_GOT_FIN))
           else s in
  s ← mjoin (while (S (size (tv_segs (tcp_of s)))) (ooseq_ready_body pcb) s);
  upd s pcb tcp_ack.

(** The part of [tcp_receive] for segments with data. *)
Definition receive_data s (pcb : Z) : option (istate W X U) :=
  b ← pcb_at s pcb;
  let i := inp s in
  s ← (if TCP_SEQ_BETWEEN (tp_rcv_nxt b) (u32 (ti_seqno i + 1)) (u32 (ti_seqno i + ti_tcplen i - 1)) then
         trim_front s (tp_rcv_nxt b)
       else if TCP_SEQ_LT (ti_seqno i) (tp_rcv_nxt b) then upd s pcb tcp_ack_now
       else Some s);
  if TCP_SEQ_BETWEEN (ti_seqno (inp s)) (tp_rcv_nxt b) (u32 (tp_rcv_nxt b + tp_rcv_wnd b - 1)) then
    if tp_rcv_nxt b =? ti_seqno (inp s) then receive_next s pcb
    else '(s, _) ← tcp_send_empty_ack stale custom_free netif_output s pcb; oos_queue s pcb
  else '(s, _) ← tcp_send_empty_ack stale custom_free netif_output s pcb; Some s.

Definition tcp_receive s (pcb : Z) : option (istate W X U) :=
  s ← (if has (ti_flags (inp s)) TCP_ACK then receive_ack s pcb else Some s);
  b ← pcb_at s pcb;
  let i := inp s in
  if (0 <? ti_tcplen i) && (state_num (tp_state b) <? state_num CLOSE_WAIT) then receive_data s pcb
  else if negb (TCP_SEQ_BETWEEN (ti_seqno i) (tp_rcv_nxt b) (u32 (tp_rcv_nxt b + tp_rcv_wnd b - 1))) then upd s pcb tcp_ack_now
  else Some s.

(** ** The state machine *)

Definition got_fin s : bool := has (ti_recv_flags (inp s)) TF_GOT_FIN.

(** The segment acknowledges everything that was sent. *)
Definition acks_all s (b : tcp_pcb) : bool := has (ti_flags (inp s)) TCP_ACK && (ti_ackno (inp s) =? tp_snd_nxt b).

Definition to_time_wait s (pcb : Z) : option (istate W X U) :=
  s ← purge s pcb;
  s ← TCP_RMV_ACTIVE s pcb;
  s ← upd s pcb (set_tp_state TIME_WAIT);
  TCP_REG s TW pcb.

Definition process_syn_sent s (pcb : Z) : option (istate W X U * Z) :=
  let i := inp s in
  b ← pcb_at s pcb;
  synack ← (if has (ti_flags i) TCP_ACK && has (ti_flags i) TCP_SYN then
              g ← seg_at s (tp_unacked b); Some (ti_ackno i =? u32 (seg_seqno s g + 1))
            else Some false);
  if (synack : bool) then
    s ← upd s pcb (fun b =>
      b |> set_tp_snd_buf (u16 (tp_snd_buf b + 1)) |> set_tp_rcv_nxt (u32 (ti_seqno i + 1))
        |> set_tp_rcv_ann_right_edge (u32 (ti_seqno i + 1)) |> set_tp_lastack (ti_ackno i) |> set_tp_snd_wnd (hdr_wnd s)
        |> set_tp_snd_wnd_max (hdr_wnd s) |> set_tp_snd_wl1 (u32 (ti_seqno i - 1)) |> set_tp_state ESTABLISHED);
    b ← pcb_at s pcb;
    '(s, mss) ← tcp_eff_send_mss s (tp_mss b) (tp_remote_ip b);
    s ← upd s pcb (fun b =>
      b |> set_tp_mss mss |> set_tp_ssthresh (u16 (mss * 10)) |> set_tp_cwnd (if tp_cwnd b =? 1 then u16 (mss * 2) else mss)
        |> set_tp_snd_queuelen (u16 (tp_snd_queuelen b - 1)));
    let rseg := tp_unacked b in
    g ← seg_at s rseg;
    s ← upd s pcb (set_tp_unacked (sg_next g));
    s ← seg_free s rseg;
    s ← upd s pcb (fun b => if tp_unacked b =? 0 then b |> set_tp_rtime (-1) else b |> set_tp_rtime 0 |> set_tp_nrtx 0);
    '(s, err) ← TCP_EVENT_CONNECTED app s pcb ERR_OK;
    if err =? ERR_ABRT then Some (s, ERR_ABRT)
    else s ← upd s pcb tcp_ack_now; Some (s, ERR_OK)
  else if has (ti_flags i) TCP_ACK then s ← reply_rst s; Some (s, ERR_OK)
  else Some (s, ERR_OK).

Definition process_syn_rcvd s (pcb : Z) : option (istate W X U * Z) :=
  let i := inp s in
  b ← pcb_at s pcb;
  if has (ti_flags i) TCP_ACK then
    if TCP_SEQ_BETWEEN (ti_ackno i) (u32 (tp_lastack b + 1)) (tp_snd_nxt b) then
      s ← upd s pcb (set_tp_state ESTABLISHED);
      '(s, err) ← TCP_EVENT_ACCEPT app s pcb ERR_OK;
      if negb (err =? ERR_OK) then
        s ← (if negb (err =? ERR_ABRT) then tcp_abort stale custom_free netif_output app s pcb else Some s);
        Some (s, ERR_ABRT)
      else
        b ← pcb_at s pcb;
        let old_cwnd := tp_cwnd b in
        s ← tcp_receive s pcb;
        s ← upd s pcb (fun b =>
          let b := if negb (tp_acked b =? 0) then b |> set_tp_acked (u16 (tp_acked b - 1)) else b in
          b |> set_tp_cwnd (if old_cwnd =? 1 then u16 (tp_mss b * 2) else tp_mss b));
        s ← (if got_fin s then upd s pcb (fun b => tcp_ack_now b |> set_tp_state CLOSE_WAIT) else Some s);
        Some (s, ERR_OK)
    else s ← reply_rst s; Some (s, ERR_OK)
  else if has (ti_flags i) TCP_SYN && (ti_seqno i =? u32 (tp_rcv_nxt b - 1)) then s ← tcp_rexmit s pcb; Some (s, ERR_OK)
  else Some (s, ERR_OK).

(** The states of a connection in which segments are received; [st] is the state
    before. *)
Definition process_synchronized s (pcb : Z) (st : tcp_state) : option (istate W X U) :=
  s ← tcp_receive s pcb;
  b ← pcb_at s pcb;
  match st with
  | ESTABLISHED | CLOSE_WAIT =>
      if got_fin s then upd s pcb (fun b => tcp_ack_now b |> set_tp_state CLOSE_WAIT) else Some s
  | FIN_WAIT_1 =>
      if got_fin s then
        s ← upd s pcb tcp_ack_now;
        if acks_all s b then to_time_wait s pcb else upd s pcb (set_tp_state CLOSING)
      else if acks_all s b then upd s pcb (set_tp_state FIN_WAIT_2) else Some s
  | FIN_WAIT_2 => if got_fin s then s ← upd s pcb tcp_ack_now; to_time_wait s pcb else Some s
  | CLOSING => if acks_all s b then to_time_wait s pcb else Some s
  | LAST_ACK =>
      if acks_all s b then Some (upd_in s (fun i => i |> set_ti_recv_flags (or_flag (ti_recv_flags i) TF_CLOSED))) else Some s
  | _ => Some s
  end.

Definition tcp_process s (pcb : Z) : option (istate W X U * Z) :=
  let i := inp s in
  b ← pcb_at s pcb;
  if has (ti_flags i) TCP_RST then
    let acceptable :=
      if is_state (tp_state b) SYN_SENT then ti_ackno i =? tp_snd_nxt b
      else TCP_SEQ_BETWEEN (ti_seqno i) (tp_rcv_nxt b) (u32 (tp_rcv_nxt b + tp_rcv_wnd b)) in
    if acceptable then
      let s := upd_in s (fun i => i |> set_ti_recv_flags (or_flag (ti_recv_flags i) TF_RESET)) in
      s ← upd s pcb (fun b => b |> set_tp_flags (clear_flag (tp_flags b) TF_ACK_DELAY));
      Some (s, ERR_RST)
    else Some (s, ERR_OK)
  else if has (ti_flags i) TCP_SYN && negb (is_state (tp_state b) SYN_SENT) && negb (is_state (tp_state b) SYN_RCVD) then
    s ← upd s pcb tcp_ack_now; Some (s, ERR_OK)
  else
    s ← upd s pcb (fun b =>
      let b := if has (tp_flags b) TF_RXCLOSED then b else b |> set_tp_tmr (tv_ticks (tcp_of s)) in
      b |> set_tp_keep_cnt_sent 0);
    s ← tcp_parseopt s pcb;
    match tp_state b with
    | SYN_SENT => process_syn_sent s pcb
    | SYN_RCVD => process_syn_rcvd s pcb
    | CLOSE_WAIT | ESTABLISHED | FIN_WAIT_1 | FIN_WAIT_2 | CLOSING | LAST_ACK =>
        s ← process_synchronized s pcb (tp_state b); Some (s, ERR_OK)
    | _ => Some (s, ERR_OK)
    end.

(** ** New connections and TIME-WAIT *)

Definition tcp_listen_input s (lpcb : Z) : option (istate W X U * Z) :=
  let i := inp s in
  lb ← lpcb_at s lpcb;
  if has (ti_flags i) TCP_RST then Some (s, ERR_OK)
  else if has (ti_flags i) TCP_ACK then s ← reply_rst s; Some (s, ERR_OK)
  else if has (ti_flags i) TCP_SYN then
    if lp_backlog lb <=? lp_accepts_pending lb then Some (s, ERR_ABRT)
    else
      '(s, npcb) ← tcp_alloc stale custom_free netif_output app s (lp_prio lb);
      if npcb =? 0 then Some (TCP_STATS_INC c_memerr s, ERR_MEM)
      else
        lb ← lpcb_at s lpcb;
        let s := put_lpcb s lpcb (set_lp_accepts_pending (u8 (lp_accepts_pending lb + 1)) lb) in
        s ← upd s npcb (fun b =>
          b |> set_tp_local_ip (cur_dest (i_cur s)) |> set_tp_local_port (lp_local_port lb) |> set_tp_remote_ip (cur_src (i_cur s))
            |> set_tp_remote_port (hdr_src s) |> set_tp_state SYN_RCVD |> set_tp_rcv_nxt (u32 (ti_seqno i + 1))
            |> set_tp_rcv_ann_right_edge (u32 (ti_seqno i + 1)) |> set_tp_snd_wnd (hdr_wnd s) |> set_tp_snd_wnd_max (hdr_wnd s)
            |> set_tp_ssthresh (hdr_wnd s) |> set_tp_snd_wl1 (u32 (ti_seqno i - 1)) |> set_tp_callback_arg (lp_callback_arg lb)
            |> set_tp_accept (lp_accept lb) |> set_tp_so_options (Z.land (lp_so_options lb) SOF_INHERITED));
        s ← TCP_REG_ACTIVE s npcb;
        s ← tcp_parseopt s npcb;
        b ← pcb_at s npcb;
        '(s, mss) ← tcp_eff_send_mss s (tp_mss b) (tp_remote_ip b);
        s ← upd s npcb (set_tp_mss mss);
        '(s, rc) ← tcp_enqueue_flags stale custom_free s npcb (Z.lor TCP_SYN TCP_ACK);
        if negb (rc =? ERR_OK) then
          s ← tcp_abandon stale custom_free netif_output app s npcb false; Some (s, rc)
        else output s npcb
  else Some (s, ERR_OK).

Definition tcp_timewait_input s (pcb : Z) : option (istate W X U * Z) :=
  let i := inp s in
  b ← pcb_at s pcb;
  if has (ti_flags i) TCP_RST then Some (s, ERR_OK)
  else if has (ti_flags i) TCP_SYN && TCP_SEQ_BETWEEN (ti_seqno i) (tp_rcv_nxt b) (u32 (tp_rcv_nxt b + tp_rcv_wnd b)) then
    s ← reply_rst s; Some (s, ERR_OK)
  else
    s ← (if negb (has (ti_flags i) TCP_SYN) && has (ti_flags i) TCP_FIN
         then upd s pcb (set_tp_tmr (tv_ticks (tcp_of s))) else Some s);
    if 0 <? ti_tcplen i then s ← upd s pcb tcp_ack_now; output s pcb
    else Some (s, ERR_OK).

(** ** Input *)

(** A control block is the connection of the segment. *)
Definition conn_match s (b : tcp_pcb) : bool :=
  (tp_remote_port b =? hdr_src s) && (tp_local_port b =? hdr_dest s) &&
  (tp_remote_ip b =? cur_src (i_cur s)) && (tp_local_ip b =? cur_dest (i_cur s)).

Definition listen_match s (b : tcp_pcb_listen) : bool :=
  (lp_local_port b =? hdr_dest s) && ((lp_local_ip b =? cur_dest (i_cur s)) || (lp_local_ip b =? IPADDR_ANY)).

(** The first element that matches and the one in front of it, 0 for none. *)
Definition find_pcb {A : Type} (nxt : A -> Z) (m : gmap Z A) (f : A -> bool) (head : Z) : option (Z * Z) :=
  for_list nxt m (fun prev q b => if f b then inr (q, prev) else inl q) (fun _ => (0, 0)) 0 head.

(** A control block that was found moves to the front of its list. *)
Definition active_front s (pcb prev : Z) : option (istate W X U) :=
  if prev =? 0 then Some s
  else
    b ← pcb_at s pcb;
    s ← upd s prev (set_tp_next (tp_next b));
    s ← upd s pcb (set_tp_next (tv_active (tcp_of s)));
    Some (set_tcp s (set_tv_active pcb (tcp_of s))).

Definition listen_front s (lpcb prev : Z) : option (istate W X U) :=
  if prev =? 0 then Some s
  else
    b ← lpcb_at s lpcb; pb ← lpcb_at s prev;
    let s := put_lpcb s prev (set_lp_next (lp_next b) pb) in
    b ← lpcb_at s lpcb;
    let s := put_lpcb s lpcb (set_lp_next (tv_listen (tcp_of s)) b) in
    Some (set_tcp s (set_tv_listen lpcb (tcp_of s))).

(** Deallocating a connection that ended. *)
Definition end_connection s (pcb : Z) : option (istate W X U) :=
  s ← tcp_pcb_remove stale custom_free netif_output s ACTIVE pcb; Some (free_pcb s pcb).

(** What the application is told after the segment was processed; the result is
    [false] if the connection was aborted. *)
Definition input_events s (pcb : Z) : option (istate W X U * bool) :=
  b ← pcb_at s pcb;
  '(s, err) ← (if 0 <? tp_acked b then TCP_EVENT_SENT app s pcb (tp_acked b) else Some (s, ERR_OK));
  if err =? ERR_ABRT then Some (s, false)
  else
    let recv_data := ti_recv_data (inp s) in
    '(s, aborted) ←
      (if negb (recv_data =? 0) then
         b ← pcb_at s pcb;
         if has (tp_flags b) TF_RXCLOSED then
           s ← i_free custom_free s recv_data;
           s ← tcp_abort stale custom_free netif_output app s pcb;
           Some (s, true)
         else
           '(s, err) ← TCP_EVENT_RECV stale custom_free netif_output app s pcb recv_data ERR_OK;
           if err =? ERR_ABRT then Some (s, true)
           else if negb (err =? ERR_OK) then s ← upd s pcb (set_tp_refused_data recv_data); Some (s, false)
           else Some (s, false)
       else Some (s, false));
    if (aborted : bool) then Some (s, false)
    else if got_fin s then
      b ← pcb_at s pcb;
      if negb (tp_refused_data b =? 0) then
        ps ← update (i_p s) (tp_refused_data b) (fun pb => set_flags pb (Z.lor (flags pb) PBUF_FLAG_TCP_FIN));
        Some (set_i_p s ps, true)
      else
        s ← upd s pcb grow_wnd;
        '(s, err) ← TCP_EVENT_CLOSED stale custom_free netif_output app s pcb;
        Some (s, negb (err =? ERR_ABRT))
    else Some (s, true).

(** A segment of the connection [pcb], up to the label [aborted]. *)
Definition input_connection s (pcb : Z) : option (istate W X U) :=
  let s := set_input_pcb s pcb in
  '(s, err) ← tcp_process s pcb;
  if err =? ERR_ABRT then Some s
  else if has (ti_recv_flags (inp s)) TF_RESET then
    b ← pcb_at s pcb;
    s ← TCP_EVENT_ERR app s (tp_errf b) (tp_callback_arg b) ERR_RST;
    end_connection s pcb
  else if has (ti_recv_flags (inp s)) TF_CLOSED then
    b ← pcb_at s pcb;
    s ← (if has (tp_flags b) TF_RXCLOSED then Some s
         else TCP_EVENT_ERR app s (tp_errf b) (tp_callback_arg b) ERR_CLSD);
    end_connection s pcb
  else
    '(s, go_on) ← input_events s pcb;
    if (go_on : bool) then '(s, _) ← output (set_input_pcb s 0) pcb; Some s else Some s.

(** The code from the label [aborted]. *)
Definition input_aborted s : option (istate W X U) :=
  let s := upd_in (set_input_pcb s 0) (set_ti_recv_data 0) in
  let p := sg_p (ti_inseg (inp s)) in
  if negb (p =? 0) then
    s ← i_free custom_free s p; Some (upd_in s (fun i => i |> set_ti_inseg (ti_inseg i |> set_sg_p 0)))
  else Some s.

Definition input_active s (pcb p : Z) : option (istate W X U) :=
  pb ← i_pbuf s p;
  let s := upd_in s (fun i =>
    i |> set_ti_inseg (ti_inseg i |> set_sg_next 0 |> set_sg_len (tot_len pb) |> set_sg_p p |> set_sg_tcphdr (ti_tcphdr i))
      |> set_ti_recv_data 0 |> set_ti_recv_flags 0) in
  s ← (if has (ti_flags (inp s)) TCP_PSH then
         ps ← update (i_p s) p (fun pb => set_flags pb (Z.lor (flags pb) PBUF_FLAG_PUSH)); Some (set_i_p s ps)
       else Some s);
  b ← pcb_at s pcb;
  '(s, drop) ←
    (if negb (tp_refused_data b =? 0) then
       '(s, err) ← tcp_process_refused_data stale custom_free netif_output app s pcb;
       if err =? ERR_ABRT then Some (s, true)
       else b ← pcb_at s pcb; Some (s, negb (tp_refused_data b =? 0) && (0 <? ti_tcplen (inp s)))
     else Some (s, false));
  s ← (if (drop : bool) then Some (TCP_STATS_INC c_drop s) else input_connection s pcb);
  input_aborted s.

Definition input_dropped s (p : Z) (c : counter) : option (istate W X U) :=
  i_free custom_free (TCP_STATS_INC c_drop (TCP_STATS_INC c s)) p.

(** The fields of the header at [h] in host byte order. *)
Definition host_order (m : memory) (h : Z) : memory :=
  let m := st16 m (h + TCPH_src) (PP_HTONS (ld16 m (h + TCPH_src))) in
  let m := st16 m (h + TCPH_dest) (PP_HTONS (ld16 m (h + TCPH_dest))) in
  let m := st32 m (h + TCPH_seqno) (lwip_htonl (ld32 m (h + TCPH_seqno))) in
  let m := st32 m (h + TCPH_ackno) (lwip_htonl (ld32 m (h + TCPH_ackno))) in
  st16 m (h + TCPH_wnd) (PP_HTONS (ld16 m (h + TCPH_wnd))).

(** The checks of a segment and the variables it sets, with the payload of [p] at its
    data; the result is the counter of the error if it is dropped. *)
Definition input_check s (p np : Z) : option (istate W X U * option counter) :=
  b ← i_pbuf s p;
  let iphdr := payload b in
  let hl := IPH_HL (i_mem s) iphdr * 4 in
  let s := upd_in s (fun i => i |> set_ti_iphdr iphdr |> set_ti_tcphdr (iphdr + hl)) in
  '(s, r) ← i_header s p (- hl);
  b ← i_pbuf s p;
  if negb (r =? 0) || (tot_len b <? TCP_HLEN) then Some (s, Some c_lenerr)
  else
    n ← netif_at s np;
    let dest := cur_dest (i_cur s) in
    if negb (ip4_addr_isbroadcast dest n =? 0) || ip_addr_ismulticast dest then Some (s, Some c_proterr)
    else
      c ← inet_chksum_pseudo (i_mem s) (pst (i_p s)) p (cur_src (i_cur s)) dest IP_PROTO_TCP (tot_len b);
      if negb (c =? 0) then Some (s, Some c_chkerr)
      else
        let h := ti_tcphdr (inp s) in
        '(s, r) ← i_header s p (- (TCPH_HDRLEN (i_mem s) h * 4));
        if negb (r =? 0) then Some (s, Some c_lenerr)
        else
          let s := i_write s (host_order (i_mem s) h) in
          b ← i_pbuf s p;
          let fl := TCPH_FLAGS (i_mem s) h in
          let s := upd_in s (fun i =>
            i |> set_ti_seqno (hdr_seqno s h) |> set_ti_ackno (ld32 (i_mem s) (h + TCPH_ackno)) |> set_ti_flags fl
              |> set_ti_tcplen (u16 (tot_len b + if has fl (Z.lor TCP_FIN TCP_SYN) then 1 else 0))) in
          Some (s, None).

(** The segment goes to an active connection, to one in TIME-WAIT, to a listening
    control block, or is answered with a reset. *)
Definition input_demux s (p : Z) : option (istate W X U) :=
  '(pcb, prev) ← find_pcb tp_next (tv_pcbs (tcp_of s)) (conn_match s) (tv_active (tcp_of s));
  if negb (pcb =? 0) then s ← active_front s pcb prev; input_active s pcb p
  else
    '(pcb, _) ← find_pcb tp_next (tv_pcbs (tcp_of s)) (conn_match s) (tv_tw (tcp_of s));
    if negb (pcb =? 0) then '(s, _) ← tcp_timewait_input s pcb; i_free custom_free s p
    else
      '(lpcb, prev) ← find_pcb lp_next (tv_lpcbs (tcp_of s)) (listen_match s) (tv_listen (tcp_of s));
      if negb (lpcb =? 0) then
        s ← listen_front s lpcb prev;
        '(s, _) ← tcp_listen_input s lpcb;
        i_free custom_free s p
      else
        s ← (if has (TCPH_FLAGS (i_mem s) (ti_tcphdr (inp s))) TCP_RST then Some s
             else reply_rst (TCP_STATS_INC c_drop (TCP_STATS_INC c_proterr s)));
        i_free custom_free s p.

Definition tcp_input s (p np : Z) : option (istate W X U) :=
  '(s, err) ← input_check (TCP_STATS_INC c_recv s) p np;
  match err with
  | Some c => input_dropped s p c
  | None => input_demux s p
  end.

End input.

End TcpIn.
