(* ===== verification/Echo.v ===== *)
(** The echo server: src/firmware/lwip141/contrib/apps/tcpecho_raw/echo.c.

    [struct echo_state] is in the heap; its fields are accessed at their offsets.
    The functions that are registered with TCP are numbered; [echo_app] is the
    record of callbacks they make up. *)

From stdpp Require Import base tactics numbers list gmap.
From Stdlib Require Import ZArith Lia.
From S2P Require Import Prelude PbufDefs NetifDefs Allocator Mem Memp PbufMem Pbuf IpAddr IpDefs TcpDefs TcpSeg TcpOut Tcp.

Local Open Scope Z_scope.

Module Echo.
Import Pbuf IpAddr IpDefs TcpDefs TcpSeg TcpOut Tcp.

Definition ES_NONE : Z := 0.
Definition ES_ACCEPTED : Z := 1.
Definition ES_RECEIVED : Z := 2.
Definition ES_CLOSING : Z := 3.

(** Offsets of the fields and the size of [struct echo_state]. *)
Definition ES_state : Z := 0.
Definition ES_retries : Z := 1.
Definition ES_pcb : Z := 4.
Definition ES_p : Z := 8.
Definition SIZEOF_ECHO_STATE : Z := 12.

Definition TCP_PRIO_MIN : Z := 1.
Definition TCP_DEFAULT_LISTEN_BACKLOG : Z := 0xff.

(** The functions that are registered. *)
Definition ECHO_ACCEPT : Z := 1.
Definition ECHO_RECV : Z := 2.
Definition ECHO_ERROR : Z := 3.
Definition ECHO_POLL : Z := 4.
Definition ECHO_SENT : Z := 5.

Section echo.
Context {W X U : Type} `{MemSystem W} `{HasTcp U} `{MempStats W}.
Context (stale : Z -> Z) (custom_free : pstate W -> Z -> option (pstate W)).
Context (netif_output : X -> pstate W -> Z -> netif -> Z -> Z -> option (X * pstate W * Z)).
Implicit Type s : istate W X U.

Local Abbreviation recved := (tcp_recved stale custom_free netif_output).

Definition es_p s (es : Z) : Z := ld32 (i_mem s) (es + ES_p).
Definition es_state s (es : Z) : Z := ld8 (i_mem s) (es + ES_state).
Definition set_es_p s (es p : Z) : istate W X U := i_write s (st32 (i_mem s) (es + ES_p) p).
Definition set_es_state s (es x : Z) : istate W X U := i_write s (st8 (i_mem s) (es + ES_state) x).
Definition mem_release s (p : Z) : istate W X U := set_w s (ms_free (pw (i_p s)) p).

Definition echo_error s (arg : Z) : option (istate W X U) :=
  Some (if negb (arg =? 0) then mem_release s arg else s).

Definition echo_accept s (newpcb : Z) : option (istate W X U * Z) :=
  s ← tcp_setprio s newpcb TCP_PRIO_MIN;
  '(w, es) ← ms_malloc (pw (i_p s)) SIZEOF_ECHO_STATE;
  let s := set_w s w in
  if negb (es =? 0) then
    let m := st8 (i_mem s) (es + ES_state) ES_ACCEPTED in
    let m := st32 m (es + ES_pcb) newpcb in
    let m := st8 m (es + ES_retries) 0 in
    let m := st32 m (es + ES_p) 0 in
    let s := i_write s m in
    s ← tcp_arg s newpcb es;
    s ← tcp_recv s newpcb (FN_APP ECHO_RECV);
    s ← tcp_err s newpcb (FN_APP ECHO_ERROR);
    s ← tcp_poll s newpcb (FN_APP ECHO_POLL) 0;
    Some (s, ERR_OK)
  else Some (s, ERR_MEM).

(** [do freed = pbuf_free(ptr); while (freed == 0);] *)
Definition free_hard_body (ptr : Z) (s : istate W X U) : istate W X U + option (istate W X U) :=
  match pbuf_free custom_free (i_p s) ptr with
  | None => inr None
  | Some (ps, freed) => if freed =? 0 then inl (set_i_p s ps) else inr (Some (set_i_p s ps))
  end.

Definition free_hard s (ptr : Z) : option (istate W X U) :=
  b ← i_pbuf s ptr; mjoin (while (S (Z.to_nat (ref b))) (free_hard_body ptr) s).

(** One pbuf of [echo_send]: the state and [wr_err]. *)
Definition send_body (tpcb es : Z) (y : istate W X U * Z) : (istate W X U * Z) + option (istate W X U) :=
  let '(s, wr_err) := y in
  if (wr_err =? ERR_OK) && negb (es_p s es =? 0) then
    match
      (let ptr := es_p s es in
       pb ← i_pbuf s ptr;
       b ← pcb_at s tpcb;
       if len pb <=? tp_snd_buf b then
         '(s, wr_err) ← tcp_write stale custom_free s tpcb (payload pb) (len pb) 1;
         if wr_err =? ERR_OK then
           pb ← i_pbuf s ptr;
           let plen := len pb in
           let s := set_es_p s es (next pb) in
           s ← (if negb (next pb =? 0) then ps ← pbuf_ref (i_p s) (next pb); Some (set_i_p s ps) else Some s);
           s ← free_hard s ptr;
           s ← recved s tpcb plen;
           Some (Some (s, wr_err))
         else if wr_err =? ERR_MEM then Some (Some (set_es_p s es ptr, wr_err))
         else Some (Some (s, wr_err))
       else Some None) with
    | None => inr None
    | Some None => inr (Some s)
    | Some (Some y) => inl y
    end
  else inr (Some s).

(** Every turn but the last takes a pbuf. *)
Definition echo_send s (tpcb es : Z) : option (istate W X U) :=
  mjoin (while (S (S (size (pst (i_p s))))) (send_body tpcb es) (s, ERR_OK)).

Definition echo_close s (tpcb es : Z) : option (istate W X U) :=
  s ← tcp_arg s tpcb 0;
  s ← tcp_sent s tpcb FN_NULL;
  s ← tcp_recv s tpcb FN_NULL;
  s ← tcp_err s tpcb FN_NULL;
  s ← tcp_poll s tpcb FN_NULL 0;
  let s := if negb (es =? 0) then mem_release s es else s in
  '(s, _) ← tcp_close stale custom_free netif_output s tpcb;
  Some s.

(** [tcp_sent(tpcb, echo_sent); echo_send(tpcb, es);] *)
Definition notify_and_send s (tpcb es : Z) : option (istate W X U) :=
  s ← tcp_sent s tpcb (FN_APP ECHO_SENT); echo_send s tpcb es.

Definition trash s (tpcb es p : Z) : option (istate W X U) :=
  pb ← i_pbuf s p;
  s ← recved s tpcb (tot_len pb);
  i_free custom_free (set_es_p s es 0) p.

Definition echo_recv s (es tpcb p err : Z) : option (istate W X U * Z) :=
  if p =? 0 then
    let s := set_es_state s es ES_CLOSING in
    s ← (if es_p s es =? 0 then echo_close s tpcb es else notify_and_send s tpcb es);
    Some (s, ERR_OK)
  else if negb (err =? ERR_OK) then s ← i_free custom_free (set_es_p s es 0) p; Some (s, err)
  else if es_state s es =? ES_ACCEPTED then
    s ← notify_and_send (set_es_p (set_es_state s es ES_RECEIVED) es p) tpcb es; Some (s, ERR_OK)
  else if es_state s es =? ES_RECEIVED then
    s ← (if es_p s es =? 0 then notify_and_send (set_es_p s es p) tpcb es
         else ps ← pbuf_chain (i_p s) (es_p s es) p; Some (set_i_p s ps));
    Some (s, ERR_OK)
  else s ← trash s tpcb es p; Some (s, ERR_OK).

Definition echo_sent s (es tpcb : Z) : option (istate W X U * Z) :=
  let s := i_write s (st8 (i_mem s) (es + ES_retries) 0) in
  s ← (if negb (es_p s es =? 0) then notify_and_send s tpcb es
       else if es_state s es =? ES_CLOSING then echo_close s tpcb es
       else Some s);
  Some (s, ERR_OK).

(** What [tcp_abort] calls. *)
Definition error_app : tcp_app (istate W X U) :=
  mkApp (fun _ _ _ _ _ => None) (fun _ _ _ _ _ _ => None) (fun _ _ _ _ _ => None) (fun _ _ _ _ => None) (fun _ _ _ _ _ => None)
    (fun s f arg _ => if f =? ECHO_ERROR then echo_error s arg else None).

Definition echo_poll s (es tpcb : Z) : option (istate W X U * Z) :=
  if negb (es =? 0) then
    s ← (if negb (es_p s es =? 0) then notify_and_send s tpcb es
         else if es_state s es =? ES_CLOSING then echo_close s tpcb es
         else Some s);
    Some (s, ERR_OK)
  else s ← tcp_abort stale custom_free netif_output error_app s tpcb; Some (s, ERR_ABRT).

Definition echo_app : tcp_app (istate W X U) :=
  mkApp (fun s f _ pcb _ => if f =? ECHO_ACCEPT then echo_accept s pcb else None)
    (fun s f arg pcb p err => if f =? ECHO_RECV then echo_recv s arg pcb p err else None)
    (fun s f arg pcb _ => if f =? ECHO_SENT then echo_sent s arg pcb else None)
    (fun s f arg pcb => if f =? ECHO_POLL then echo_poll s arg pcb else None)
    (fun _ _ _ _ _ => None)
    (cb_err error_app).

(** The state and [echo_pcb]. *)
Definition echo_init s : option (istate W X U * Z) :=
  '(s, echo_pcb) ← tcp_new stale custom_free netif_output echo_app s;
  if negb (echo_pcb =? 0) then
    '(s, err) ← tcp_bind s echo_pcb IPADDR_ANY 7;
    if err =? ERR_OK then
      '(s, echo_pcb) ← tcp_listen_with_backlog s echo_pcb TCP_DEFAULT_LISTEN_BACKLOG;
      s ← tcp_accept s echo_pcb (FN_APP ECHO_ACCEPT);
      Some (s, echo_pcb)
    else Some (s, echo_pcb)
  else Some (s, echo_pcb).

End echo.

End Echo.
