(* ===== verification/TcpSample.v ===== *)
(** A concrete end point for the witnesses: the memory of the port, one interface whose
    link keeps what is sent, the echo server on port 7, and segments from another host
    that are put into a packet buffer with a valid checksum and given to [tcp_input]. *)

From stdpp Require Import base tactics numbers list gmap.
From Stdlib Require Import ZArith Lia.
From S2P Require Import Prelude ByteOrder Fields Stats Linked PbufDefs NetifDefs InetChksum Allocator Mem Memp PbufMem World Pbuf PbufData PbufChains IpAddr IpDefs IpOutput IpHeader IpSend TcpDefs TcpSeg TcpOut Tcp TcpIn Echo.

Local Open Scope Z_scope.

Module TcpSample.
Import Fields ByteOrder InetChksum Memp Pbuf PbufChains IpAddr IpDefs IpOutput IpHeader IpSend TcpDefs TcpSeg TcpOut Tcp TcpIn Echo.
#[export] Existing Instance World.world_system.

#[export] Instance tcp_itself : HasTcp tcp_vars :=
  {| get_tcp t := t; put_tcp _ t := t; get_put_tcp _ _ := eq_refl; put_get_tcp _ := eq_refl; put_put_tcp _ _ _ := eq_refl |}.
#[export] Instance no_memp_stats : MempStats World.world := {| memp_err_dec w t := w |}.

Definition state : Type := istate World.world (list (list Z)) tcp_vars.

(** Ten pools: elements and their sizes. *)
Definition pools : list (nat * Z) :=
  [(1%nat, 32); (1%nat, 32); (5%nat, 164); (2%nat, 36); (12%nat, 20); (1%nat, 32); (1%nat, 32); (1%nat, 8); (4%nat, 16); (4%nat, 1716)].
Definition memory : World.world := World.lwip_init_memory (fun _ => 0) Mem.zero_stats 4098 16384 pools (replicate 10 0).

(** The link keeps the contents of the first buffer of every packet. *)
Definition link (x : list (list Z)) (ps : pstate World.world) (np : Z) (n : netif) (p dest : Z)
    : option (list (list Z) * pstate World.world * Z) :=
  b ← pst ps !! p; Some (x ++ [bytes (mem_of ps) (payload b) (Z.to_nat (len b))], ps, ERR_OK).

Definition no_input : tcp_in := mkTcpIn (mkTcpSeg 0 0 0 0 0 0) 0 0 0 0 0 0 0 0.
Definition no_pcbs : tcp_vars := mkTcpVars ∅ ∅ ∅ 0 0 0 0 0xc000 0 0 0 0 6510 0 no_input sample_stats.
Definition initial : state :=
  mkIstate (mkPstate memory ∅ 0) [] [(1, sample_lan)] 1 7 (mkCurrent 0 0 0 0) ∅ 0 0 sample_stats sample_stats sample_stats no_pcbs.
Definition undefined : Z -> Z := fun _ => 0.
Definition no_custom : pstate World.world -> Z -> option (pstate World.world) := fun _ _ => None.
Definition server : tcp_app state := echo_app undefined no_custom link.

(** Segments of the host 192.168.1.20 to the interface, 192.168.1.10. *)
Definition remote : Z := 0x1401a8c0.
Definition here : Z := 0x0a01a8c0.

Definition segment (sport dport seqno ackno flags wnd : Z) (opts data : list Z) : list Z :=
  be16 sport ++ be16 dport ++ be32 seqno ++ be32 ackno ++ [(5 + Z.of_nat (length opts) / 4) * 16; flags] ++ be16 wnd ++
  [0; 0; 0; 0] ++ opts ++ data.

Definition ip_bytes : list Z := [69; 0; 0; 0; 0; 0; 0; 0; 64; 6; 0; 0] ++ replicate 8 0.

(** The segment in a new packet buffer, with its checksum, the IP layer's variables set. *)
Definition arrived (s : state) (l : list Z) : option (state * Z) :=
  let n := Z.of_nat (length l) + 20 in
  '(ps, p) ← pbuf_alloc undefined no_custom (i_p s) PBUF_RAW n PBUF_POOL;
  let s := set_i_p s ps in
  pb ← i_pbuf s p;
  let s := i_write s (st_bytes (i_mem s) (payload pb) (ip_bytes ++ l)) in
  let s := set_cur s (mkCurrent 1 (payload pb) remote here) in
  '(s1, _) ← i_header s p (-20);
  c ← inet_chksum_pseudo (i_mem s1) (pst (i_p s1)) p remote here 6 (n - 20);
  Some (i_write s (st16 (i_mem s) (payload pb + 20 + 16) c), p).

Definition feed (s : state) (l : list Z) : option state :=
  '(s, p) ← arrived s l; tcp_input undefined no_custom link server s p 1.

(** The server is started; a client connects from port 1000, and sends five bytes. *)
Definition listening : option state := '(s, _) ← echo_init undefined no_custom link initial; Some s.
Definition syn_seen : option state := s ← listening; feed s (segment 1000 7 5000 0 2 8192 [2; 4; 5; 180] []).
Definition connected : option state := s ← syn_seen; feed s (segment 1000 7 5001 6511 16 8192 [] []).
Definition hello : list Z := [104; 101; 108; 108; 111].
Definition echoed : option state := s ← connected; feed s (segment 1000 7 5001 6511 24 8192 [] hello).

(** Another client connects from port 1001. *)
Definition two_clients : option state := s ← connected; feed s (segment 1001 7 9000 0 2 8192 [2; 4; 5; 180] []).

(** A state that is known to be one. *)
Definition the (o : option state) : state := default initial o.

(** What was sent after the IP headers, the checksum left out. *)
Definition sent (o : option state) : option (list (list Z)) :=
  s ← o; Some (map (fun l => take 16 (drop 20 l) ++ [0; 0] ++ drop 38 l) (i_low s)).

(** The server answers the SYN with its own, the maximum segment size in an option, and
    then sends the five bytes back with an acknowledgement of them. *)
Example echo_answers : sent echoed =
  Some [segment 7 1000 6510 5001 18 2144 [2; 4; 2; 24] []; segment 7 1000 6511 5006 24 2139 [] hello].
Proof. vm_compute. reflexivity. Qed.

End TcpSample.
