(* ===== verification/Netif.v ===== *)
(** Network interfaces: core/netif.c of lwIP 1.4.1.

    [netif_list] is the list [i_netifs] of the IP layer's state: the address of every
    interface on it with its structure.  [netif_add] gets the contents of the structure
    that is added, which is not on the list yet; the other functions work on an
    interface of the list and have no result for another address.  A NULL address is
    [None].  [gratuitous] and [cleanup] stand for [etharp_gratuitous] and
    [etharp_cleanup_netif] on the state below IP, [init] for the function of the driver
    that is passed to [netif_add]. *)

From stdpp Require Import base tactics numbers list gmap.
From Stdlib Require Import ZArith Lia.
From S2P Require Import Prelude ByteOrder Stats Linked PbufDefs NetifDefs Allocator Mem Memp PbufMem Pbuf IpAddr IpDefs IpOutput TcpDefs TcpSeg TcpOut Tcp.

Local Open Scope Z_scope.

Module Netif.
Import ByteOrder Linked Memp Pbuf IpAddr IpDefs IpOutput TcpDefs TcpSeg TcpOut Tcp.

(** ** Fields *)

Definition set_nif_ip_addr (a : Z) (n : netif) : netif :=
  mkNetif a (nif_netmask n) (nif_gw n) (nif_mtu n) (nif_hwaddr_len n) (nif_hwaddr n) (nif_flags n) (nif_name n) (nif_num n).
Definition set_nif_netmask (a : Z) (n : netif) : netif :=
  mkNetif (nif_ip_addr n) a (nif_gw n) (nif_mtu n) (nif_hwaddr_len n) (nif_hwaddr n) (nif_flags n) (nif_name n) (nif_num n).
Definition set_nif_gw (a : Z) (n : netif) : netif :=
  mkNetif (nif_ip_addr n) (nif_netmask n) a (nif_mtu n) (nif_hwaddr_len n) (nif_hwaddr n) (nif_flags n) (nif_name n) (nif_num n).
Definition set_nif_flags (f : Z) (n : netif) : netif :=
  mkNetif (nif_ip_addr n) (nif_netmask n) (nif_gw n) (nif_mtu n) (nif_hwaddr_len n) (nif_hwaddr n) f (nif_name n) (nif_num n).

Definition flagged (n : netif) (f : Z) : bool := has (nif_flags n) f.

(** [ip_addr_set], where NULL is the address of no host. *)
Definition addr_or_any (a : option Z) : Z := default 0 a.

(** ** The list *)

Definition alter_netif (a : Z) (f : netif -> netif) (l : list (Z * netif)) : list (Z * netif) :=
  map (fun e => if e.1 =? a then (e.1, f e.2) else e) l.
Definition unlink_netif (a : Z) (l : list (Z * netif)) : list (Z * netif) := List.filter (fun e => negb (e.1 =? a)) l.

Section netif.
Context {W X U : Type} `{MemSystem W} `{HasTcp U} `{MempStats W}.
Context (stale : Z -> Z) (custom_free : pstate W -> Z -> option (pstate W)).
Context (netif_output : X -> pstate W -> Z -> netif -> Z -> Z -> option (X * pstate W * Z)).
Context (app : tcp_app (istate W X U)).
Context (gratuitous : X -> pstate W -> Z -> netif -> option (X * pstate W)).
Context (cleanup : X -> pstate W -> Z -> option (X * pstate W)).
Implicit Type s : istate W X U.

Definition set_netifs s (l : list (Z * netif)) : istate W X U :=
  mkIstate (i_p s) (i_low s) l (i_default s) (i_id s) (i_cur s) (i_reass s) (i_reass_head s) (i_reass_count s)
    (i_ip_stats s) (i_frag_stats s) (i_icmp_stats s) (i_up s).
Definition netif_set_default s (a : Z) : istate W X U :=
  mkIstate (i_p s) (i_low s) (i_netifs s) a (i_id s) (i_cur s) (i_reass s) (i_reass_head s) (i_reass_count s)
    (i_ip_stats s) (i_frag_stats s) (i_icmp_stats s) (i_up s).
Definition upd_netif s (a : Z) (f : netif -> netif) : istate W X U := set_netifs s (alter_netif a f (i_netifs s)).

(** ** Addresses *)

(** A turn of the loop that aborts the connections of the address [old]. *)
Definition abort_body (old : Z) (y : istate W X U * Z) : (istate W X U * Z) + option (istate W X U) :=
  let '(s, pcb) := y in
  if pcb =? 0 then inr (Some s)
  else
    match pcb_at s pcb with
    | None => inr None
    | Some b =>
        if tp_local_ip b =? old then
          match tcp_abort stale custom_free netif_output app s pcb with
          | None => inr None
          | Some s => inl (s, tp_next b)
          end
        else inl (s, tp_next b)
    end.

(** A turn of the loop that moves the listening control blocks to the new address. *)
Definition relisten_body (old new : Z) (y : istate W X U * Z) : (istate W X U * Z) + option (istate W X U) :=
  let '(s, lpcb) := y in
  if lpcb =? 0 then inr (Some s)
  else
    match lpcb_at s lpcb with
    | None => inr None
    | Some b =>
        let s := if negb (lp_local_ip b =? IPADDR_ANY) && (lp_local_ip b =? old)
                 then put_lpcb s lpcb (set_lp_local_ip new b) else s in
        inl (s, lp_next b)
    end.

(** The connections of an interface whose address [old] changes. *)
Definition address_changes s (old : Z) (ipaddr : option Z) : option (istate W X U) :=
  match ipaddr with
  | Some new =>
      if negb (new =? old) then
        s ← mjoin (while (S (size (tv_pcbs (tcp_of s)))) (abort_body old) (s, tv_active (tcp_of s)));
        mjoin (while (S (size (tv_lpcbs (tcp_of s)))) (relisten_body old new) (s, tv_listen (tcp_of s)))
      else Some s
  | None => Some s
  end.

Definition netif_set_ipaddr s (a : Z) (ipaddr : option Z) : option (istate W X U) :=
  n ← netif_at s a;
  s ← address_changes s (nif_ip_addr n) ipaddr;
  Some (upd_netif s a (set_nif_ip_addr (addr_or_any ipaddr))).
Definition netif_set_gw s (a : Z) (gw : option Z) : option (istate W X U) :=
  _ ← netif_at s a; Some (upd_netif s a (set_nif_gw (addr_or_any gw))).
Definition netif_set_netmask s (a : Z) (netmask : option Z) : option (istate W X U) :=
  _ ← netif_at s a; Some (upd_netif s a (set_nif_netmask (addr_or_any netmask))).
Definition netif_set_addr s (a : Z) (ipaddr netmask gw : option Z) : option (istate W X U) :=
  s ← netif_set_ipaddr s a ipaddr; s ← netif_set_netmask s a netmask; netif_set_gw s a gw.

(** ** Up and down *)

Definition call_gratuitous s (a : Z) (n : netif) : option (istate W X U) :=
  '(x, ps) ← gratuitous (i_low s) (i_p s) a n; Some (set_low (set_i_p s ps) x).
Definition call_cleanup s (a : Z) : option (istate W X U) :=
  '(x, ps) ← cleanup (i_low s) (i_p s) a; Some (set_low (set_i_p s ps) x).

Definition netif_set_up s (a : Z) : option (istate W X U) :=
  n ← netif_at s a;
  if flagged n NETIF_FLAG_UP then Some s
  else
    let n := set_nif_flags (Z.lor (nif_flags n) NETIF_FLAG_UP) n in
    let s := upd_netif s a (set_nif_flags (nif_flags n)) in
    if flagged n NETIF_FLAG_LINK_UP && flagged n NETIF_FLAG_ETHARP then call_gratuitous s a n else Some s.

Definition netif_set_down s (a : Z) : option (istate W X U) :=
  n ← netif_at s a;
  if flagged n NETIF_FLAG_UP then
    let s := upd_netif s a (set_nif_flags (clear_flag (nif_flags n) NETIF_FLAG_UP)) in
    if flagged n NETIF_FLAG_ETHARP then call_cleanup s a else Some s
  else Some s.

Definition netif_set_link_up s (a : Z) : option (istate W X U) :=
  n ← netif_at s a;
  if flagged n NETIF_FLAG_LINK_UP then Some s
  else
    let n := set_nif_flags (Z.lor (nif_flags n) NETIF_FLAG_LINK_UP) n in
    let s := upd_netif s a (set_nif_flags (nif_flags n)) in
    if flagged n NETIF_FLAG_UP && flagged n NETIF_FLAG_ETHARP then call_gratuitous s a n else Some s.

Definition netif_set_link_down s (a : Z) : option (istate W X U) :=
  n ← netif_at s a;
  Some (if flagged n NETIF_FLAG_LINK_UP then upd_netif s a (set_nif_flags (clear_flag (nif_flags n) NETIF_FLAG_LINK_UP)) else s).

(** ** Adding and removing *)

(** The new interface is not on the list while its address is set and the driver is
    initialised.  Adding an interface twice would make the list cyclic. *)
Definition netif_add s (num a : Z) (n : netif) (ipaddr netmask gw : option Z)
    (init : istate W X U -> netif -> option (istate W X U * netif * Z)) : option (istate W X U * Z * netif * Z) :=
  match netif_at s a with
  | Some _ => None
  | None =>
      let n := mkNetif 0 0 0 (nif_mtu n) (nif_hwaddr_len n) (nif_hwaddr n) 0 (nif_name n) num in
      s ← address_changes s (nif_ip_addr n) ipaddr;
      let n := set_nif_gw (addr_or_any gw) (set_nif_netmask (addr_or_any netmask) (set_nif_ip_addr (addr_or_any ipaddr) n)) in
      '(s, n, err) ← init s n;
      if negb (err =? ERR_OK) then Some (s, u8 (num + 1), n, 0)
      else Some (set_netifs s ((a, n) :: i_netifs s), u8 (num + 1), n, a)
  end.

Definition netif_remove s (a : Z) : option (istate W X U) :=
  if a =? 0 then Some s
  else
    n ← netif_at s a;
    s ← (if netif_is_up n then netif_set_down s a else Some s);
    let s := set_netifs s (unlink_netif a (i_netifs s)) in
    Some (if i_default s =? a then netif_set_default s 0 else s).

(** [name] is the address of at least three characters. *)
Definition netif_find s (name : Z) : Z :=
  if name =? 0 then 0
  else
    let num := u8 (ld8 (i_mem s) (name + 2) - 48) in
    let named (e : Z * netif) := (num =? nif_num e.2) && (ld8 (i_mem s) name =? (nif_name e.2).1) &&
                                 (ld8 (i_mem s) (name + 1) =? (nif_name e.2).2) in
    match List.find named (i_netifs s) with Some e => e.1 | None => 0 end.

End netif.

End Netif.
