(* ===== verification/Stack.v ===== *)
(** The layers put together: the driver below ARP, ARP below IP, and raw, UDP and TCP
    connections above it.

    Each layer was modelled with the state of the others as a parameter.  Here the state
    of the system is the IP layer's, with [below] for ARP and the device and [above] for
    the transport protocols.  A layer is run on its view of that state and the result is
    put back.  A frame that arrives goes up from the driver: [ethernetif_input] calls
    [ethernet_input], which calls [ip_input], which calls the protocols; what they send
    goes down through [etharp_output] to [low_level_output]. *)

From stdpp Require Import base tactics numbers list gmap.
From Stdlib Require Import ZArith Lia.
From S2P Require Import Prelude ByteOrder Stats Linked PbufDefs NetifDefs Allocator Mem Memp PbufMem World Pbuf Pqueue Driver Etharp IpAddr IpDefs IpOutput IpInput Raw Udp TcpDefs TcpSeg TcpOut Tcp TcpIn Netif.

Local Open Scope Z_scope.

Module Stack.
Import ByteOrder Memp Pbuf Pqueue Driver Etharp IpAddr IpDefs IpOutput IpInput Raw Udp TcpDefs TcpSeg TcpOut Tcp TcpIn Netif.

(** ** A memory system that carries something along *)

(** The driver's functions are polymorphic in the memory system; when they call the
    stack above, its state is carried beside the memory. *)
#[export] Instance carrying {W A : Type} `{MemSystem W} : MemSystem (W * A) := {|
  ms_mem w := ms_mem w.1;
  ms_set_mem w m := (ms_set_mem w.1 m, w.2);
  ms_malloc w n := '(w1, p) ← ms_malloc w.1 n; Some (w1, w.2, p);
  ms_free w p := (ms_free w.1 p, w.2);
  ms_trim w p n := let '(w1, q) := ms_trim w.1 p n in (w1, w.2, q);
  ms_memp_malloc w t := let '(w1, p) := ms_memp_malloc w.1 t in (w1, w.2, p);
  ms_memp_free w t p := (ms_memp_free w.1 t p, w.2) |}.

Definition carry {W A} (ps : pstate W) (x : A) : pstate (W * A) := mkPstate (pw ps, x) (pst ps) (ooseq_pending ps).
Definition put_down {W A} (ps : pstate (W * A)) : pstate W := mkPstate (pw ps).1 (pst ps) (ooseq_pending ps).
Definition carried {W A} (ps : pstate (W * A)) : A := (pw ps).2.

(** ** The state *)

(** The driver's variables and registers; [dv_reads] has, for every packet that will be
    sent, the values [tx_BD_sta] reads as while the driver waits. *)
Record device := mkDevice {
  dv_q : pq_queue_t; dv_bd : list Z; dv_mask : Z; dv_mask_idx : Z; dv_writes : list (Z * Z); dv_reads : list (list Z) }.

Record below := mkBelow {
  bl_tab : list etharp_entry; bl_qst : gmap Z etharp_q_entry; bl_cached : Z;
  bl_arp_stats : stats_proto; bl_link_stats : stats_proto; bl_dev : device }.

Record above := mkAbove { ab_raw : raw_state; ab_udp : udp_state; ab_tcp : tcp_vars }.

#[export] Instance above_raw : HasRaw above.
Proof.
  refine {| get_raw := ab_raw; put_raw x u := mkAbove u (ab_udp x) (ab_tcp x) |}; [reflexivity | by intros [] | reflexivity].
Defined.
#[export] Instance above_udp : HasUdp above.
Proof.
  refine {| get_udp := ab_udp; put_udp x u := mkAbove (ab_raw x) u (ab_tcp x) |}; [reflexivity | by intros [] | reflexivity].
Defined.
#[export] Instance above_tcp : HasTcp above.
Proof.
  refine {| get_tcp := ab_tcp; put_tcp x u := mkAbove (ab_raw x) (ab_udp x) u |}; [reflexivity | by intros [] | reflexivity].
Defined.

Definition driver {W} (ps : pstate W) (v : device) : dstate W :=
  mkDstate ps (dv_q v) (dv_bd v) (dv_mask v) (dv_mask_idx v) (dv_writes v).
Definition device_of {W} (d : dstate W) (reads : list (list Z)) : device :=
  mkDevice (d_q d) (d_bd d) (d_mask d) (d_mask_idx d) (d_writes d) reads.
Definition set_bl_dev (v : device) (x : below) : below :=
  mkBelow (bl_tab x) (bl_qst x) (bl_cached x) (bl_arp_stats x) (bl_link_stats x) v.

Section stack.
Context {W : Type} `{MemSystem W} `{MempStats W}.
Context (stale : Z -> Z) (custom_free : pstate W -> Z -> option (pstate W)).

Definition sys : Type := istate W below above.

Context (raw_recv_call : sys -> Z -> Z -> Z -> Z -> Z -> option (sys * Z)).
Context (udp_recv_call : sys -> Z -> Z -> Z -> Z -> Z -> Z -> option sys).
Context (app : tcp_app sys).
Implicit Type s : sys.

(** ** Down *)

(** [netif->linkoutput] *)
Definition linkoutput (v : device) (ps : pstate W) (p : Z) : option (device * Z) :=
  match dv_reads v with
  | [] => None
  | reads :: more => '(d, r) ← low_level_output (driver ps v) p reads; Some (device_of d more, r)
  end.

Definition arp (ps : pstate W) (x : below) : estate W device :=
  mkEstate ps (bl_tab x) (bl_qst x) (bl_cached x) (bl_arp_stats x) (bl_link_stats x) (bl_dev x).
Definition below_of (e : estate W device) : below :=
  mkBelow (e_tab e) (e_qst e) (e_cached e) (e_arp_stats e) (e_link_stats e) (e_dev e).

(** [netif->output] *)
Definition output (x : below) (ps : pstate W) (np : Z) (n : netif) (p dest : Z) : option (below * pstate W * Z) :=
  '(e, r) ← etharp_output stale custom_free linkoutput (arp ps x) n p dest; Some (below_of e, e_p e, r).

Definition etharp_gratuitous (x : below) (ps : pstate W) (np : Z) (n : netif) : option (below * pstate W) :=
  '(e, _) ← etharp_request stale custom_free linkoutput (arp ps x) n (nif_ip_addr n); Some (below_of e, e_p e).
Definition cleanup_netif (x : below) (ps : pstate W) (np : Z) : option (below * pstate W) :=
  e ← etharp_cleanup_netif custom_free (arp ps x) np; Some (below_of e, e_p e).

(** ** Up *)

Definition ip s (p inp : Z) : option sys :=
  ip_input stale custom_free output (raw_input raw_recv_call) (udp_input stale custom_free output udp_recv_call)
    (tcp_input stale custom_free output app) s p inp.

(** The view of ARP when a frame arrives: everything else is its device. *)
Definition frame_view s : estate W sys :=
  let x := i_low s in mkEstate (i_p s) (bl_tab x) (bl_qst x) (bl_cached x) (bl_arp_stats x) (bl_link_stats x) s.
Definition of_frame_view (e : estate W sys) : sys :=
  set_low (set_i_p (e_dev e) (e_p e))
    (mkBelow (e_tab e) (e_qst e) (e_cached e) (e_arp_stats e) (e_link_stats e) (bl_dev (i_low (e_dev e)))).
Definition frame_output s (ps : pstate W) (p : Z) : option (sys * Z) :=
  '(v, r) ← linkoutput (bl_dev (i_low s)) ps p; Some (set_low s (set_bl_dev v (i_low s)), r).

(** [netif->input] of the interface at [np]. *)
Definition input (np : Z) s (p : Z) : option (sys * Z) :=
  n ← netif_at s np;
  '(e, r) ← ethernet_input custom_free frame_output (fun e p => s ← ip (of_frame_view e) p np; Some (frame_view s))
              (frame_view s) np n p;
  Some (of_frame_view e, r).

(** The view of the driver, which carries the whole state. *)
Definition driver_view s : dstate (W * sys) := driver (carry (i_p s) s) (bl_dev (i_low s)).
Definition of_driver_view (d : dstate (W * sys)) : sys :=
  let s := carried (d_p d) in
  set_low (set_i_p s (put_down (d_p d))) (set_bl_dev (device_of d (dv_reads (bl_dev (i_low s)))) (i_low s)).
Definition driver_free (ps : pstate (W * sys)) (p : Z) : option (pstate (W * sys)) :=
  x ← custom_free (put_down ps) p; Some (carry x (carried ps)).

(** The driver polls its queue. *)
Definition poll (np : Z) s : option (sys * Z) :=
  '(d, r) ← ethernetif_input stale driver_free
              (fun d p => '(s, r) ← input np (of_driver_view d) p; Some (driver_view s, r)) (driver_view s);
  Some (of_driver_view d, r).

(** The receive interrupt; [rx_BD_sta] is what the status register reads as. *)
Definition rx_irq s (rx_BD_sta : Z) : option sys :=
  '(d, _) ← dma_rx_irq custom_free (driver (i_p s) (bl_dev (i_low s))) rx_BD_sta;
  Some (set_low (set_i_p s (d_p d)) (set_bl_dev (device_of d (dv_reads (bl_dev (i_low s)))) (i_low s))).

(** [ethernetif_init] of the driver for [netif_add]; [pq] are the queues of pqueue.c,
    of which it takes one. *)
Definition init_driver (pq : pq_state) s (n : netif) : option (sys * netif * Z) :=
  '(d, _, n, r) ← ethernetif_init stale custom_free (driver (i_p s) (bl_dev (i_low s))) pq n;
  Some (set_low (set_i_p s (d_p d)) (set_bl_dev (device_of d (dv_reads (bl_dev (i_low s)))) (i_low s)), n, r).

End stack.

End Stack.
