(* ===== verification/Main.v ===== *)
(** The firmware: main.c and its interrupt handler, with the echo server as the
    application.

    [boot] is [main] up to the loop, [turn] one turn of the loop and [irq] the handler.
    The structure [server_netif] is at an address that is a parameter, as are the
    configuration of the pools and the place of the memory arrays.  Interrupts are taken
    between turns; writing frames into the buffers of the receive descriptors is the
    hardware's part ([dma]).  What is printed is left out. *)

From stdpp Require Import base tactics numbers list gmap.
From Stdlib Require Import ZArith Lia.
From S2P Require Import Prelude ByteOrder Stats Linked PbufDefs NetifDefs Allocator Mem Memp PbufMem World Pbuf Pqueue Driver Etharp IpAddr IpDefs IpOutput IpInput Raw Udp TcpDefs TcpSeg TcpOut Tcp TcpIn Echo Netif Stack.

Local Open Scope Z_scope.

Module Main.
Import ByteOrder Memp Pbuf Pqueue Driver Etharp IpAddr IpDefs Raw Udp TcpDefs Tcp TcpIn Echo Netif Stack.

(** [IP4_ADDR] on a little-endian target. *)
Definition IP4_ADDR (a b c d : Z) : Z :=
  Z.lor (Z.lor (Z.lor (Z.shiftl (Z.land d 0xff) 24) (Z.shiftl (Z.land c 0xff) 16)) (Z.shiftl (Z.land b 0xff) 8)) (Z.land a 0xff).

Definition ipaddr : Z := IP4_ADDR 192 168 1 10.
Definition netmask : Z := IP4_ADDR 255 255 255 0.
Definition gw : Z := IP4_ADDR 192 168 1 1.

(** ** Variables before [main] *)

Definition zero_proto : stats_proto := mkStatsProto 0 0 0 0 0 0 0 0 0 0 0 0.
Definition zero_entry : etharp_entry := mkEntry 0 0 0 ethzero EMPTY 0.
Definition zero_queue : pq_queue_t := mkQueue (replicate 8 0) (replicate 8 0) 0 0 0.
Definition zero_netif : netif := mkNetif 0 0 0 0 0 [0; 0; 0; 0; 0; 0] 0 (0, 0) 0.
Definition zero_device (reads : list (list Z)) : device := mkDevice zero_queue (replicate 8 0) 1 0 [] reads.
Definition zero_below (reads : list (list Z)) : below :=
  mkBelow (replicate 10 zero_entry) ∅ 0 zero_proto zero_proto (zero_device reads).
Definition zero_input : tcp_in := mkTcpIn (mkTcpSeg 0 0 0 0 0 0) 0 0 0 0 0 0 0 0.
Definition zero_tcp : tcp_vars := mkTcpVars ∅ ∅ ∅ 0 0 0 0 TCP_LOCAL_PORT_RANGE_START 0 0 0 0 6510 0 zero_input zero_proto.
Definition zero_above : above := mkAbove (mkRaw ∅ 0) (mkUdp ∅ 0 UDP_LOCAL_PORT_RANGE_START zero_proto) zero_tcp.

Record firmware (W : Type) := mkFirmware { fw_sys : istate W below above; fw_timer_irq_count : Z }.
Arguments mkFirmware {W}. Arguments fw_sys {W}. Arguments fw_timer_irq_count {W}.

Section main.
Context {W : Type} `{MemSystem W} `{MempStats W}.
Context (stale : Z -> Z) (custom_free : pstate W -> Z -> option (pstate W)).
Context (server_netif : Z).

Local Abbreviation out := (Stack.output stale custom_free).
Definition echo : tcp_app (istate W below above) := echo_app stale custom_free out.

(** No raw and no UDP connection is made, so no such callback is ever registered. *)
Definition no_raw (s : istate W below above) (f arg pcb p src : Z) : option (istate W below above * Z) := None.
Definition no_udp (s : istate W below above) (f arg pcb p src port : Z) : option (istate W below above) := None.

(** ** Start *)

(** The variables when [lwip_init] has set up the memory [w]. *)
Definition started (w : W) (reads : list (list Z)) : istate W below above :=
  mkIstate (mkPstate w ∅ 0) (zero_below reads) [] 0 0 (mkCurrent 0 0 0 0) ∅ 0 0 zero_proto zero_proto zero_proto zero_above.

(** [inl]: "init error", [main] returns. *)
Definition boot (s : istate W below above) (pq : pq_state) : option (istate W below above + firmware W) :=
  '(s, _, _, r) ← netif_add stale custom_free out echo s 0 server_netif zero_netif (Some ipaddr) (Some netmask) (Some gw)
                    (init_driver stale custom_free pq);
  if r =? 0 then Some (inl s)
  else
    let s := netif_set_default s server_netif in
    s ← netif_set_up (etharp_gratuitous stale custom_free) s server_netif;
    '(s, _) ← echo_init stale custom_free out s;
    Some (inr (mkFirmware s 0)).

(** ** The loop *)

Definition turn (fuel : nat) (f : firmware W) : option (firmware W) :=
  s ← (if 1 <=? fw_timer_irq_count f then tcp_tmr stale custom_free out echo fuel (fw_sys f) else Some (fw_sys f));
  '(s, _) ← poll stale custom_free no_raw no_udp echo server_netif s;
  Some (mkFirmware s (if 1 <=? fw_timer_irq_count f then 0 else fw_timer_irq_count f)).

Definition irq (f : firmware W) (irqs rx_BD_sta : Z) : option (firmware W) :=
  s ← (if has irqs 32 then rx_irq custom_free (fw_sys f) rx_BD_sta else Some (fw_sys f));
  Some (mkFirmware s (if has irqs 1 then u32 (fw_timer_irq_count f + 1) else fw_timer_irq_count f)).

(** The hardware writes a frame into the buffer of a receive descriptor. *)
Definition dma (f : firmware W) (i : nat) (frame : list Z) : option (firmware W) :=
  let s := fw_sys f in
  p ← dv_bd (bl_dev (i_low s)) !! i;
  b ← i_pbuf s p;
  Some (mkFirmware (i_write s (st_bytes (i_mem s) (payload b) frame)) (fw_timer_irq_count f)).

End main.

End Main.
