(* ===== verification/MainSample.v ===== *)
(** A run of the whole firmware: it boots, another host asks for its hardware address,
    pings it, opens a connection to the echo server and sends five bytes.  The frames
    that are sent are read from the descriptors the driver hands to the hardware. *)

From stdpp Require Import base tactics numbers list gmap.
From Stdlib Require Import ZArith Lia.
From S2P Require Import Prelude ByteOrder Fields Stats Linked PbufDefs NetifDefs InetChksum Allocator Mem Memp PbufMem World Pbuf PbufData PbufChains Pqueue Driver Etharp IpAddr IpDefs IpOutput IpHeader IpSend Raw Udp TcpDefs TcpSeg TcpOut Tcp TcpIn Echo TcpSample Netif Stack Main.

Local Open Scope Z_scope.

Module MainSample.
Import Fields ByteOrder InetChksum Memp Pbuf Pqueue Driver Etharp IpDefs TcpDefs Stack Main.
#[local] Existing Instance World.world_system.
#[local] Existing Instance TcpSample.no_memp_stats.

Definition pools : list (nat * Z) :=
  [(1%nat, 32); (1%nat, 32); (5%nat, 164); (2%nat, 36); (32%nat, 20); (1%nat, 32); (1%nat, 32); (30%nat, 8); (32%nat, 16); (16%nat, 1716)].
Definition memory : World.world := World.lwip_init_memory (fun _ => 0) Mem.zero_stats 4098 16384 pools (replicate 10 0).
Definition undefined : Z -> Z := fun _ => 0.
Definition no_custom : pstate World.world -> Z -> option (pstate World.world) := fun _ _ => None.
Definition queues : pq_state := mkPq [zero_queue; zero_queue] 0.
Definition fw : Type := firmware World.world.
Definition netif_place : Z := 1000.

Definition booted : option fw :=
  match boot undefined no_custom netif_place (started memory (replicate 20 [1; 0])) queues with
  | Some (inr f) => Some f
  | _ => None
  end.

(** A frame is written by the hardware, the interrupt is taken, and the loop makes a turn. *)
Definition receive (i : nat) (frame : list Z) (f : fw) : option fw :=
  f ← dma f i frame;
  f ← irq no_custom f 32 (2 ^ Z.of_nat i);
  turn undefined no_custom netif_place 10 f.

(** ** Frames of the other host *)

Definition my_mac : list Z := [0x00; 0x0a; 0x35; 0x00; 0x01; 0x02].
Definition his_mac : list Z := [0x02; 0; 0; 0; 0; 0x14].
Definition my_ip : list Z := [192; 168; 1; 10].
Definition his_ip : list Z := [192; 168; 1; 20].

Definition chksum (l : list Z) : list Z := let c := 65535 - inet_sum l in [u8 c; Z.shiftr c 8].
(** [l] with its checksum in the two bytes at [i]. *)
Definition with_chksum (pseudo l : list Z) (i : nat) : list Z := take i l ++ chksum (pseudo ++ l) ++ drop (i + 2) l.

Definition eth (type : Z) (l : list Z) : list Z := my_mac ++ his_mac ++ be16 type ++ l.
Definition ip_packet (proto : Z) (l : list Z) : list Z :=
  eth 0x0800 (with_chksum [] ([0x45; 0] ++ be16 (20 + Z.of_nat (length l)) ++ [0; 1; 0; 0; 64; proto; 0; 0] ++ his_ip ++ my_ip) 10 ++ l).

Definition arp_request : list Z := eth 0x0806 ([0; 1; 8; 0; 6; 4; 0; 1] ++ his_mac ++ his_ip ++ ethzero ++ my_ip).
Definition ping : list Z := ip_packet 1 (with_chksum [] [8; 0; 0; 0; 0; 7; 0; 1; 97; 98; 99; 100] 2).
Definition tcp_frame (seqno ackno flags : Z) (opts data : list Z) : list Z :=
  let l := TcpSample.segment 1000 7 seqno ackno flags 8192 opts data in
  ip_packet 6 (with_chksum (his_ip ++ my_ip ++ [0; 6] ++ be16 (Z.of_nat (length l))) l 16).

(** ** Frames that are sent *)

(** The descriptors handed over since there were [k] register writes, and the frames they
    show. *)
Fixpoint descriptors (l : list (Z * Z)) : list (Z * Z) :=
  match l with
  | (a, x) :: ((b, n) :: (_, _) :: l') as l0 => if a =? tx_BD_adr_0 then (x, n) :: descriptors l' else descriptors l0
  | _ :: l => descriptors l
  | [] => []
  end.
Definition writes (f : fw) : list (Z * Z) := dv_writes (bl_dev (i_low (fw_sys f))).
Definition frames (k : nat) (f : fw) : list (list Z) :=
  map (fun d => bytes (i_mem (fw_sys f)) d.1 (Z.to_nat d.2)) (descriptors (drop k (writes f))).

(** The frames that follow the reception of each frame, from descriptor [i] on. *)
Fixpoint run (i : nat) (l : list (list Z)) (f : fw) : option (list (list (list Z))) :=
  match l with
  | [] => Some []
  | x :: l =>
      f' ← receive i x f;
      r ← run (S i) l f';
      Some (frames (length (writes f)) f' :: r)
  end.

Definition session : option (list (list (list Z))) :=
  f ← booted;
  r ← run 0 [arp_request; ping; tcp_frame 5000 0 2 [2; 4; 5; 180] []; tcp_frame 5001 6511 16 [] []; tcp_frame 5001 6511 24 [] TcpSample.hello] f;
  Some (frames 0 f :: r).

(** ** What is to be expected *)

Definition reply (type : Z) (l : list Z) : list Z := his_mac ++ my_mac ++ be16 type ++ l.
Definition ip_reply (id proto : Z) (l : list Z) : list Z :=
  reply 0x0800 (with_chksum [] ([0x45; 0] ++ be16 (20 + Z.of_nat (length l)) ++ be16 id ++ [0; 0; 255; proto; 0; 0] ++ my_ip ++ his_ip) 10 ++ l).
Definition tcp_reply (id seqno ackno flags wnd : Z) (opts data : list Z) : list Z :=
  let l := TcpSample.segment 7 1000 seqno ackno flags wnd opts data in
  ip_reply id 6 (with_chksum (my_ip ++ his_ip ++ [0; 6] ++ be16 (Z.of_nat (length l))) l 16).

(** The firmware announces its address when it boots, answers the request for it (the
    reply is as long as the driver's fixed receive length, 96 bytes), answers the ping,
    accepts the connection and sends the bytes back; the acknowledgement that completes
    the handshake is not answered. *)
Example firmware_session : session = Some
  [[ethbroadcast ++ my_mac ++ be16 0x0806 ++ [0; 1; 8; 0; 6; 4; 0; 1] ++ my_mac ++ my_ip ++ ethzero ++ my_ip];
   [reply 0x0806 ([0; 1; 8; 0; 6; 4; 0; 2] ++ my_mac ++ my_ip ++ his_mac ++ his_ip ++ replicate 54 0)];
   [ip_reply 1 1 (with_chksum [] [0; 0; 0; 0; 0; 7; 0; 1; 97; 98; 99; 100] 2)];
   [tcp_reply 0 6510 5001 18 2144 [2; 4; 1; 240] []];
   [];
   [tcp_reply 1 6511 5006 24 2139 [] TcpSample.hello]].
Proof. vm_compute. reflexivity. Qed.

End MainSample.
