(* ===== verification/Pres.v ===== *)
(** Properties of the state that a computation keeps.

    The functions of the model return [option] of a state, alone or with a result.
    [pres P r] says that whatever [r] returns has a state with the property [P];
    the rules follow the structure of the functions, and [pres_go] applies them with
    the lemmas of the database [pres]. *)

From stdpp Require Import base tactics numbers list gmap.
From Stdlib Require Import ZArith Lia.
From S2P Require Import Prelude.

(** Where the state is in a result. *)
Class HasState (T A : Type) := state_in : A -> T.
#[global] Hint Mode HasState - + : typeclass_instances.
#[export] Instance has_self {T} : HasState T T | 10 := fun x => x.
#[export] Instance has_prod {T A B} `{HasState T A} : HasState T (A * B) | 5 := fun x => state_in x.1.

Section pres.
Context {T : Type}.
Implicit Type P : T -> Prop.

Definition pres {A} `{HasState T A} P (r : option A) : Prop := forall x, r = Some x -> P (state_in x).

(** The same for one turn of a loop. *)
Definition pres_turn {A B} `{HasState T A} `{HasState T B} P (t : A + option B) : Prop :=
  match t with inl x => P (state_in x) | inr r => pres P r end.

Lemma pres_some {A} `{HasState T A} P (x : A) : P (state_in x) -> pres P (Some x).
Proof. intros ? y [= <-]. assumption. Qed.

Lemma pres_none {A} `{HasState T A} P : pres P (@None A).
Proof. intros y [=]. Qed.

Lemma pres_bind {A B} `{HasState T A} `{HasState T B} P (r : option A) (f : A -> option B) :
  pres P r -> (forall x, P (state_in x) -> pres P (f x)) -> pres P (r ≫= f).
Proof. intros R F y E. destruct r as [x|]; [| discriminate]. apply (F x); [apply R; reflexivity | exact E]. Qed.

(** A part of the function that returns no state. *)
Lemma pres_let {A B} `{HasState T B} P (r : option A) (f : A -> option B) :
  (forall x, r = Some x -> pres P (f x)) -> pres P (r ≫= f).
Proof. intros F y E. destruct r as [x|]; [| discriminate]. apply (F x); [reflexivity | exact E]. Qed.

Lemma pres_weaken {A} `{HasState T A} P (Q : T -> Prop) (r : option A) :
  (forall x, P x -> Q x) -> pres P r -> pres Q r.
Proof. intros I R x E. apply I, R, E. Qed.

(** Loops. *)
Lemma pres_while {A B} `{HasState T A} `{HasState T B} P (body : A -> A + option B) :
  (forall x, P (state_in x) -> pres_turn P (body x)) ->
  forall n x, P (state_in x) -> pres P (mjoin (while n body x)).
Proof.
  intros Bd n. induction n as [|n IH]; intros x I y E; [discriminate|]. rewrite while_S in E.
  specialize (Bd x I). destruct (body x) as [x'|r]; cbn in Bd; [apply (IH x' Bd y E)|]. apply Bd. exact E.
Qed.

Lemma pres_turn_match {A B C} `{HasState T A} `{HasState T B} `{HasState T C} P (r : option A) (f : A -> B + option C) :
  pres P r -> (forall x, P (state_in x) -> pres_turn P (f x)) ->
  pres_turn P (match r with None => inr None | Some x => f x end).
Proof. intros R F. destruct r as [x|]; [apply F, R; reflexivity | apply pres_none]. Qed.

Lemma pres_match {A B} `{HasState T A} `{HasState T B} P (r : option A) (f : A -> option B) :
  pres P r -> (forall x, P (state_in x) -> pres P (f x)) -> pres P (match r with None => None | Some x => f x end).
Proof. intros R F. destruct r as [x|]; [apply F, R; reflexivity | apply pres_none]. Qed.

(** A part of the function about whose result, state included, more is known. *)
Definition post {A} (Q : A -> Prop) (r : option A) : Prop := forall x, r = Some x -> Q x.

Lemma pres_post {A B} `{HasState T B} P (Q : A -> Prop) (r : option A) (f : A -> option B) :
  post Q r -> (forall x, Q x -> pres P (f x)) -> pres P (r ≫= f).
Proof. intros R F y E. destruct r as [x|]; [| discriminate]. apply (F x); [apply R; reflexivity | exact E]. Qed.

Lemma post_some {A} (Q : A -> Prop) x : Q x -> post Q (Some x).
Proof. intros ? y [= <-]. assumption. Qed.
Lemma post_none {A} (Q : A -> Prop) : post Q None.
Proof. intros y [=]. Qed.
Lemma post_bind {A B} (R : A -> Prop) (Q : B -> Prop) (r : option A) (f : A -> option B) :
  post R r -> (forall x, R x -> post Q (f x)) -> post Q (r ≫= f).
Proof. intros E F y G. destruct r as [x|]; [| discriminate]. apply (F x); [apply E; reflexivity | exact G]. Qed.
Lemma post_pres {A B} `{HasState T A} P (Q : B -> Prop) (r : option A) (f : A -> option B) :
  pres P r -> (forall x, P (state_in x) -> post Q (f x)) -> post Q (r ≫= f).
Proof. apply post_bind. Qed.
Lemma post_let {A B} (Q : B -> Prop) (r : option A) (f : A -> option B) :
  (forall x, r = Some x -> post Q (f x)) -> post Q (r ≫= f).
Proof. intros F y G. destruct r as [x|]; [| discriminate]. apply (F x); [reflexivity | exact G]. Qed.

(** The result of a loop whose turns keep [I]. *)
Lemma post_while {A B} (I : A -> Prop) (Q : B -> Prop) (body : A -> A + B) :
  (forall x, I x -> match body x with inl y => I y | inr r => Q r end) ->
  forall n x, I x -> post Q (while n body x).
Proof.
  intros Bd n. induction n as [|n IH]; intros x Ix y E; [discriminate|]. rewrite while_S in E.
  specialize (Bd x Ix). destruct (body x) as [x'|r]; [apply (IH x' Bd y E)|]. injection E as <-. exact Bd.
Qed.

End pres.

Create HintDb pres discriminated.
#[export] Hint Constants Opaque : pres.

Ltac pres_clean :=
  repeat match goal with
  | H : context [state_in _] |- _ => progress cbv beta iota delta [state_in has_prod has_self fst snd] in H
  | |- context [state_in _] => progress cbv beta iota delta [state_in has_prod has_self fst snd]
  end.

(** One rule. *)
Ltac pres_step :=
  lazymatch goal with
  | |- forall _, _ => intro
  | |- pres _ (Some _) => apply pres_some
  | |- pres _ None => apply pres_none
  | |- pres _ (mbind _ _) => first [apply pres_bind; [| intros ? ?] | apply pres_let; intros ? ?]
  | |- pres _ (mjoin (while _ _ _)) => apply pres_while; [intros ? ?; pres_clean |]
  | |- pres _ (let '(_, _) := ?x in _) => destruct x eqn:?
  | |- pres _ (match ?x with _ => _ end) => first [is_var x; destruct x | apply pres_match; [| intros ? ?] | destruct x eqn:?]
  | |- pres_turn _ (let '(_, _) := ?x in _) => destruct x eqn:?
  | |- pres_turn _ (match ?x with _ => _ end) => first [is_var x; destruct x | apply pres_turn_match; [| intros ? ?] | destruct x eqn:?]
  | |- pres_turn _ (inl _) => cbn [pres_turn]
  | |- pres_turn _ (inr _) => cbn [pres_turn]
  end.

(** The lemmas are tried where the computation is a call. *)
Ltac pres_rule :=
  lazymatch goal with
  | |- pres _ (mbind _ _) => pres_step
  | |- pres _ (mjoin (while _ _ _)) => pres_step
  | |- pres _ (match _ with _ => _ end) => pres_step
  | |- pres _ (Some _) => pres_step
  | |- pres _ None => pres_step
  | |- pres_turn _ (match _ with _ => _ end) => pres_step
  | |- _ => first [solve [eauto 12 with pres] | assumption | pres_step]
  end.
Ltac pres_go := repeat (pres_clean; first [progress cbn beta iota zeta | pres_rule]); pres_clean.
