(* ===== verification/TcpFrame.v ===== *)
(** What the functions of TCP leave alone.

    The functions below TCP leave the variables of TCP alone; the functions that
    send segments and those that work on the queues of a control block leave alone its state, its
    place in the lists, its addresses and its callbacks, and the lists themselves. *)

From stdpp Require Import base tactics numbers list gmap.
From Stdlib Require Import ZArith Lia.
From S2P Require Import Prelude ByteOrder Stats Linked PbufDefs NetifDefs InetChksum Allocator Mem Memp PbufMem Pbuf IpAddr IpDefs IpOutput TcpDefs TcpSeg TcpOut Tcp TcpIn Pres.

Local Open Scope Z_scope.

Module TcpFrame.
Import ByteOrder Linked InetChksum Memp Pbuf IpAddr IpDefs IpOutput TcpDefs TcpSeg TcpOut Tcp TcpIn.

(** ** Below TCP *)

Section up.
Context {W X U : Type} `{MemSystem W}.
Context (stale : Z -> Z) (custom_free : pstate W -> Z -> option (pstate W)).
Context (netif_output : X -> pstate W -> Z -> netif -> Z -> Z -> option (X * pstate W * Z)).
Implicit Type s : istate W X U.

(** The state above IP, the interfaces and the packet being received are [s0]'s. *)
Definition above (s0 s : istate W X U) : Prop :=
  i_up s = i_up s0 /\ i_netifs s = i_netifs s0 /\ i_default s = i_default s0 /\ i_cur s = i_cur s0.

Lemma above_refl s : above s s.
Proof. repeat split. Qed.
Lemma above_set_i_p s0 s ps : above s0 s -> above s0 (set_i_p s ps).
Proof. exact id. Qed.
Lemma above_set_low s0 s x : above s0 s -> above s0 (set_low s x).
Proof. exact id. Qed.
Lemma above_write s0 s m : above s0 s -> above s0 (i_write s m).
Proof. exact id. Qed.
Lemma above_id s0 s i : above s0 s -> above s0 (set_ip_id s i).
Proof. exact id. Qed.
Lemma above_ip_stats s0 s c : above s0 s -> above s0 (IP_STATS_INC c s).
Proof. exact id. Qed.
Lemma above_frag_stats s0 s c : above s0 s -> above s0 (IPFRAG_STATS_INC c s).
Proof. exact id. Qed.

#[local] Hint Resolve above_refl above_set_i_p above_set_low above_write above_id above_ip_stats above_frag_stats : pres.

Lemma i_free_above s0 s p : above s0 s -> pres (above s0) (i_free custom_free s p).
Proof. unfold i_free. intros. pres_go. Qed.
Lemma i_header_above s0 s p n : above s0 s -> pres (above s0) (i_header s p n).
Proof. unfold i_header. intros. pres_go. Qed.
Lemma t_alloc_above s0 s l n ty : above s0 s -> pres (above s0) (t_alloc stale custom_free s l n ty).
Proof. unfold t_alloc. intros. pres_go. Qed.
Lemma call_output_above s0 s np n p d : above s0 s -> pres (above s0) (call_output netif_output s np n p d).
Proof. unfold call_output. intros. pres_go. Qed.
Lemma ip_route_above s0 s d : above s0 s -> pres (above s0) (ip_route s d).
Proof. unfold ip_route. intros. pres_go. Qed.

#[local] Hint Resolve i_free_above i_header_above t_alloc_above call_output_above ip_route_above : pres.

Lemma ref_body_above s0 r (y : istate W X U * Z * Z * Z) : above s0 (state_in y) -> pres_turn (above s0) (ref_body custom_free r y).
Proof. intros. unfold ref_body. destruct y as [[[s p] l] n]. pres_go. Qed.

#[local] Hint Resolve ref_body_above : pres.

Lemma frag_body_above s0 np n d h omf nfb (y : istate W X U * Z * Z * Z * Z) :
  above s0 (state_in y) -> pres_turn (above s0) (frag_body stale custom_free netif_output np n d h omf nfb y).
Proof. intros. unfold frag_body. destruct y as [[[[s p] o] l] ofo]. pres_go. Qed.

#[local] Hint Resolve frag_body_above : pres.

Lemma ip_frag_above s0 s p np n d : above s0 s -> pres (above s0) (ip_frag stale custom_free netif_output s p np n d).
Proof. intros. unfold ip_frag. pres_go. Qed.

#[local] Hint Resolve ip_frag_above : pres.

Lemma ip_output_above s0 s p src d ttl tos proto :
  above s0 s -> pres (above s0) (ip_output stale custom_free netif_output s p src d ttl tos proto).
Proof. intros. unfold ip_output, ip_output_if. pres_go. Qed.

End up.

(** ** The skeleton of TCP *)

(** The fields of a control block that sending and receiving segments leaves alone:
    its state, its place in the lists, its addresses, its callbacks and when the timers
    last saw it. *)
Definition bone (b : tcp_pcb) : tcp_pcb :=
  new_pcb (tp_prio b) 0 0 0
  |> set_tp_state (tp_state b) |> set_tp_next (tp_next b) |> set_tp_local_port (tp_local_port b)
  |> set_tp_remote_ip (tp_remote_ip b) |> set_tp_remote_port (tp_remote_port b) |> set_tp_so_options (tp_so_options b)
  |> set_tp_callback_arg (tp_callback_arg b) |> set_tp_accept (tp_accept b) |> set_tp_sent (tp_sent b)
  |> set_tp_recv (tp_recv b) |> set_tp_connected (tp_connected b) |> set_tp_poll (tp_poll b) |> set_tp_errf (tp_errf b)
  |> set_tp_last_timer (tp_last_timer b).

Definition no_seg : tcp_seg := mkTcpSeg 0 0 0 0 0 0.
Definition no_input : tcp_in := mkTcpIn no_seg 0 0 0 0 0 0 0 0.
Definition no_stats : stats_proto := mkStatsProto 0 0 0 0 0 0 0 0 0 0 0 0.

(** Of the segment being received: its flags and acknowledgement number, and what
    was found out about it. *)
Definition in_bone (i : tcp_in) : tcp_in :=
  no_input |> set_ti_flags (ti_flags i) |> set_ti_ackno (ti_ackno i) |> set_ti_recv_flags (ti_recv_flags i).

(** The variables but for what work on the connection [pcb] changes: of its control
    block the skeleton only, and neither the segments, the numbers of connections waiting
    to be accepted nor the statistics.  All other control blocks are there in full. *)
Definition skel (pcb : Z) (t : tcp_vars) : tcp_vars :=
  t |> set_tv_pcbs (alter bone pcb (tv_pcbs t)) |> set_tv_lpcbs (set_lp_accepts_pending 0 <$> tv_lpcbs t) |> set_tv_segs ∅
    |> set_tv_in (in_bone (tv_in t)) |> set_tv_stats no_stats.

Section skeleton.
Context {W X U : Type} `{MemSystem W} `{HasTcp U}.
Context (stale : Z -> Z) (custom_free : pstate W -> Z -> option (pstate W)).
Context (netif_output : X -> pstate W -> Z -> netif -> Z -> Z -> option (X * pstate W * Z)).
Implicit Type s : istate W X U.

Definition sk (pcb : Z) (k : tcp_vars) s : Prop := skel pcb (tcp_of s) = k.

Lemma tcp_of_set_tcp s t : tcp_of (set_tcp s t) = t.
Proof. unfold tcp_of, set_tcp. cbn. apply get_put_tcp. Qed.

Lemma set_tcp_id s : set_tcp s (tcp_of s) = s.
Proof. unfold set_tcp, tcp_of, set_up. rewrite put_get_tcp. destruct s; reflexivity. Qed.
Lemma set_tcp_again s t t' : set_tcp (set_tcp s t) t' = set_tcp s t'.
Proof. unfold set_tcp, set_up. cbn. rewrite put_put_tcp. reflexivity. Qed.

(** Assigning to a control block. *)
Lemma put_pcb_at s pcb c : pcb_at (put_pcb s pcb c) pcb = Some c.
Proof. unfold pcb_at, put_pcb. rewrite tcp_of_set_tcp. apply lookup_insert_eq. Qed.
Lemma put_pcb_again s pcb c c' : put_pcb (put_pcb s pcb c) pcb c' = put_pcb s pcb c'.
Proof. unfold put_pcb. rewrite tcp_of_set_tcp, set_tcp_again. cbn. rewrite insert_insert_eq. reflexivity. Qed.

Lemma sk_set_tcp con k s t : skel con t = k -> sk con k (set_tcp s t).
Proof. intros E. unfold sk. rewrite tcp_of_set_tcp. exact E. Qed.

Lemma above_tcp s0 s : above s0 s -> tcp_of s = tcp_of s0.
Proof. intros (E & _). unfold tcp_of. rewrite E. reflexivity. Qed.

Lemma above_sk {A} `{HasState (istate W X U) A} con k s (r : option A) : sk con k s -> pres (above s) r -> pres (sk con k) r.
Proof. intros K. apply pres_weaken. intros x Ab. unfold sk. rewrite (above_tcp s x Ab). exact K. Qed.

Lemma sk_set_i_p con k s ps : sk con k s -> sk con k (set_i_p s ps).
Proof. exact id. Qed.
Lemma sk_write con k s m : sk con k s -> sk con k (i_write s m).
Proof. exact id. Qed.
Lemma sk_set_w con k s w : sk con k s -> sk con k (set_w s w).
Proof. exact id. Qed.
Lemma sk_stats con k s c : sk con k s -> sk con k (TCP_STATS_INC c s).
Proof. intros K. apply sk_set_tcp. exact K. Qed.
Lemma sk_segs con k s g : sk con k s -> sk con k (set_tcp s (set_tv_segs g (tcp_of s))).
Proof. intros K. apply sk_set_tcp. exact K. Qed.
Lemma sk_put_seg con k s a g : sk con k s -> sk con k (put_seg s a g).
Proof. apply sk_segs. Qed.
Lemma sk_if con k (c : bool) s s' : sk con k s -> sk con k s' -> sk con k (if c then s else s').
Proof. destruct c; auto. Qed.
Lemma sk_upd_in con k s f : (forall i, in_bone (f i) = in_bone i) -> sk con k s -> sk con k (upd_in s f).
Proof.
  intros B K. apply sk_set_tcp. rewrite <- K. unfold skel. change (tv_in (set_tv_in ?i ?t)) with i. rewrite B. reflexivity.
Qed.
Lemma sk_upd_seg con k s a f : sk con k s -> pres (sk con k) (upd_seg s a f).
Proof. intros K. unfold upd_seg. apply pres_let. intros. apply pres_some, sk_put_seg, K. Qed.

(** An assignment to fields that are not part of the skeleton. *)
Lemma sk_upd k s pcb f : (forall b, bone (f b) = bone b) -> sk pcb k s -> pres (sk pcb k) (upd s pcb f).
Proof.
  intros B K. unfold upd, pcb_at. apply pres_let. intros b E. apply pres_some, sk_set_tcp. rewrite <- K.
  assert (Q : alter bone pcb (<[pcb := f b]> (tv_pcbs (tcp_of s))) = alter bone pcb (tv_pcbs (tcp_of s))).
  { apply map_eq. intros i. destruct (decide (i = pcb)) as [->|N].
    - rewrite !lookup_alter_eq, lookup_insert_eq, E. cbn. rewrite B. reflexivity.
    - rewrite !lookup_alter_ne, lookup_insert_ne by congruence. reflexivity. }
  unfold skel. change (tv_pcbs (set_tv_pcbs ?m ?t)) with m. rewrite Q. reflexivity.
Qed.

#[local] Hint Resolve sk_set_i_p sk_write sk_set_w sk_stats sk_segs sk_put_seg sk_upd_seg sk_if : pres.
#[local] Hint Extern 1 (sk _ _ (upd_in _ _)) => apply sk_upd_in; [reflexivity |] : pres.
#[local] Hint Extern 1 (pres (sk _ _) (upd _ _ _)) => apply sk_upd; [reflexivity |] : pres.
#[local] Hint Extern 1 (pres (sk _ _) (i_free _ _ _)) => eapply above_sk; [| apply i_free_above, above_refl] : pres.
#[local] Hint Extern 1 (pres (sk _ _) (i_header _ _ _)) => eapply above_sk; [| apply i_header_above, above_refl] : pres.
#[local] Hint Extern 1 (pres (sk _ _) (t_alloc _ _ _ _ _ _)) => eapply above_sk; [| apply t_alloc_above, above_refl] : pres.
#[local] Hint Extern 1 (pres (sk _ _) (ip_route _ _)) => eapply above_sk; [| apply ip_route_above, above_refl] : pres.
#[local] Hint Extern 1 (pres (sk _ _) (ip_output _ _ _ _ _ _ _ _ _ _)) => eapply above_sk; [| apply ip_output_above, above_refl] : pres.

Local Abbreviation kept pcb k r := (pres (sk pcb k) r).

Lemma seg_free_sk con k s seg : sk con k s -> kept con k (tcp_seg_free custom_free s seg).
Proof. intros. unfold tcp_seg_free. pres_go. Qed.
#[local] Hint Resolve seg_free_sk : pres.

Lemma segs_free_sk con k s seg : sk con k s -> kept con k (tcp_segs_free custom_free s seg).
Proof. intros. unfold tcp_segs_free, segs_free_body. pres_go. Qed.
#[local] Hint Resolve segs_free_sk : pres.

Lemma seg_copy_sk con k s g : sk con k s -> kept con k (tcp_seg_copy s g).
Proof. intros. unfold tcp_seg_copy. pres_go. Qed.

Lemma eff_send_mss_sk con k s mss a : sk con k s -> kept con k (tcp_eff_send_mss s mss a).
Proof. intros. unfold tcp_eff_send_mss. pres_go. Qed.
#[local] Hint Resolve seg_copy_sk eff_send_mss_sk : pres.

Lemma alloc_header_sk k s pcb o d q : sk pcb k s -> kept pcb k (tcp_output_alloc_header stale custom_free s pcb o d q).
Proof. intros. unfold tcp_output_alloc_header. pres_go. Qed.

Lemma send_sk con k s p h src d ttl tos : sk con k s -> kept con k (chksum_and_send stale custom_free netif_output s p h src d ttl tos).
Proof. intros. unfold chksum_and_send. pres_go. Qed.
#[local] Hint Resolve alloc_header_sk send_sk : pres.

Lemma create_segment_sk k s pcb p fl q o : sk pcb k s -> kept pcb k (tcp_create_segment custom_free s pcb p fl q o).
Proof. intros. unfold tcp_create_segment. pres_go. Qed.

Lemma memerr_sk k s pcb : sk pcb k s -> kept pcb k (memerr s pcb).
Proof. intros. unfold memerr. pres_go. Qed.
#[local] Hint Resolve create_segment_sk memerr_sk : pres.

Lemma enqueue_flags_sk k s pcb fl : sk pcb k s -> kept pcb k (tcp_enqueue_flags stale custom_free s pcb fl).
Proof. intros. unfold tcp_enqueue_flags. pres_go. apply sk_upd; [| assumption]. intros. repeat case_match; reflexivity. Qed.
#[local] Hint Resolve enqueue_flags_sk : pres.

Lemma send_fin_sk k s pcb : sk pcb k s -> kept pcb k (tcp_send_fin stale custom_free s pcb).
Proof. intros. unfold tcp_send_fin. pres_go. Qed.

Lemma prealloc_sk k s l n m pcb fl b : sk pcb k s -> kept pcb k (tcp_pbuf_prealloc stale custom_free s l n m pcb fl b).
Proof. intros. unfold tcp_pbuf_prealloc. pres_go. Qed.

Lemma t_copy_sk con k s d src n : sk con k s -> kept con k (t_copy s d src n).
Proof. intros. unfold t_copy. pres_go. Qed.
#[local] Hint Resolve send_fin_sk prealloc_sk t_copy_sk : pres.

Lemma write_memerr_sk k s pcb c q : sk pcb k s -> kept pcb k (write_memerr custom_free s pcb c q).
Proof. intros. unfold write_memerr. pres_go. Qed.

Lemma write_extend_sk k s pcb b arg n fl mss : sk pcb k s -> kept pcb k (write_extend stale custom_free s pcb b arg n fl mss).
Proof. intros. unfold write_extend. pres_go. Qed.

Lemma write_packet_sk k s pcb src n fl mss o f : sk pcb k s -> kept pcb k (write_packet stale custom_free s pcb src n fl mss o f).
Proof. intros. unfold write_packet. pres_go. Qed.
#[local] Hint Resolve write_memerr_sk write_extend_sk write_packet_sk : pres.

Lemma write_body_sk k pcb arg n fl mss lbb (y : istate W X U * write_queue) :
  sk pcb k (state_in y) -> pres_turn (sk pcb k) (write_body stale custom_free pcb arg n fl mss lbb y).
Proof. intros. unfold write_body. destruct y as [s q]. pres_go. Qed.

Lemma bump_body_sk con k arg n (y : istate W X U * Z) : sk con k (state_in y) -> pres_turn (sk con k) (bump_body arg n y).
Proof. intros. unfold bump_body. destruct y as [s p]. pres_go. Qed.
#[local] Hint Resolve write_body_sk bump_body_sk : pres.

Lemma write_commit_sk k s pcb arg n fl t q : sk pcb k s -> kept pcb k (write_commit s pcb arg n fl t q).
Proof. intros. unfold write_commit. pres_go. Qed.
#[local] Hint Resolve write_commit_sk : pres.

Lemma write_sk k s pcb arg n fl : sk pcb k s -> kept pcb k (tcp_write stale custom_free s pcb arg n fl).
Proof. intros. unfold tcp_write, tcp_write_checks. pres_go. Qed.

Lemma empty_ack_sk k s pcb : sk pcb k s -> kept pcb k (tcp_send_empty_ack stale custom_free netif_output s pcb).
Proof. intros. unfold tcp_send_empty_ack. pres_go. Qed.

Lemma output_segment_sk k s seg pcb : sk pcb k s -> kept pcb k (tcp_output_segment stale custom_free netif_output s seg pcb).
Proof. intros. unfold tcp_output_segment. pres_go. Qed.

Lemma output_queue_sk k s pcb seg useg : sk pcb k s -> kept pcb k (output_queue custom_free s pcb seg useg).
Proof. intros. unfold output_queue. pres_go. Qed.
#[local] Hint Resolve empty_ack_sk output_segment_sk output_queue_sk : pres.

Lemma output_body_sk k pcb wnd (y : istate W X U * Z) :
  sk pcb k (state_in y) -> pres_turn (sk pcb k) (output_body stale custom_free netif_output pcb wnd y).
Proof. intros. unfold output_body. destruct y as [s u]. pres_go. Qed.
#[local] Hint Resolve output_body_sk : pres.

Lemma output_sk k s pcb : sk pcb k s -> kept pcb k (tcp_output stale custom_free netif_output s pcb).
Proof.
  intros. unfold tcp_output. pres_go. apply sk_upd; [| assumption]. intros. repeat case_match; reflexivity.
Qed.
#[local] Hint Resolve output_sk : pres.

Lemma rst_sk con k s q a lip rip lp rp : sk con k s -> kept con k (tcp_rst stale custom_free netif_output s q a lip rip lp rp).
Proof. intros. unfold tcp_rst. pres_go. Qed.

Lemma rexmit_rto_sk k s pcb : sk pcb k s -> kept pcb k (tcp_rexmit_rto stale custom_free netif_output s pcb).
Proof. intros. unfold tcp_rexmit_rto. pres_go. Qed.

Lemma rexmit_sk k s pcb : sk pcb k s -> kept pcb k (tcp_rexmit s pcb).
Proof. intros. unfold tcp_rexmit. pres_go. Qed.
#[local] Hint Resolve rexmit_sk : pres.

Lemma rexmit_fast_sk k s pcb : sk pcb k s -> kept pcb k (tcp_rexmit_fast s pcb).
Proof.
  intros. unfold tcp_rexmit_fast. pres_go. apply sk_upd; [| assumption]. intros. repeat case_match; reflexivity.
Qed.

Lemma keepalive_sk k s pcb : sk pcb k s -> kept pcb k (tcp_keepalive stale custom_free netif_output s pcb).
Proof. intros. unfold tcp_keepalive. pres_go. Qed.

Lemma zero_window_probe_sk k s pcb : sk pcb k s -> kept pcb k (tcp_zero_window_probe stale custom_free netif_output s pcb).
Proof. intros. unfold tcp_zero_window_probe. pres_go. Qed.

(** ** Receiving *)

Lemma unpend_sk con k s b : sk con k s -> kept con k (unpend s b).
Proof.
  intros K. unfold unpend. pres_go. unfold put_lpcb. apply sk_set_tcp. rewrite <- K. unfold skel, lpcb_at in *.
  assert (Q : set_lp_accepts_pending 0 <$> <[x := set_lp_accepts_pending (u8 (lp_accepts_pending x0 - 1)) x0]> (tv_lpcbs (tcp_of s))
    = set_lp_accepts_pending 0 <$> tv_lpcbs (tcp_of s)).
  { rewrite fmap_insert. apply insert_id. rewrite lookup_fmap. match goal with E : tv_lpcbs _ !! _ = _ |- _ => rewrite E end. reflexivity. }
  change (tv_lpcbs (set_tv_lpcbs ?m ?t)) with m. rewrite Q. reflexivity.
Qed.
#[local] Hint Resolve unpend_sk : pres.

Lemma purge_sk k s pcb : sk pcb k s -> kept pcb k (tcp_pcb_purge custom_free s pcb).
Proof. intros. unfold tcp_pcb_purge. pres_go. Qed.

Lemma in_realloc_sk con k s p n : sk con k s -> kept con k (in_realloc custom_free s p n).
Proof. intros. unfold in_realloc. pres_go. Qed.

Lemma reply_rst_sk con k s : sk con k s -> kept con k (reply_rst stale custom_free netif_output s).
Proof. intros. apply rst_sk. assumption. Qed.

Lemma parseopt_sk k s pcb : sk pcb k s -> kept pcb k (tcp_parseopt s pcb).
Proof. intros. unfold tcp_parseopt. pres_go. Qed.
#[local] Hint Resolve purge_sk in_realloc_sk reply_rst_sk parseopt_sk : pres.

Lemma oos_covered_sk con k c (y : istate W X U * Z) : sk con k (state_in y) -> pres_turn (sk con k) (oos_covered_body custom_free c y).
Proof. intros. unfold oos_covered_body. destruct y as [s n]. pres_go. Qed.
#[local] Hint Resolve oos_covered_sk : pres.

Lemma oos_insert_sk con k s c n : sk con k s -> kept con k (tcp_oos_insert_segment custom_free s c n).
Proof. intros. unfold tcp_oos_insert_segment. pres_go. Qed.

Lemma oos_trim_sk con k s g : sk con k s -> kept con k (oos_trim custom_free s g).
Proof. intros. unfold oos_trim. pres_go. Qed.

Lemma oos_window_sk k s pcb c : sk pcb k s -> kept pcb k (oos_window custom_free s pcb c).
Proof. intros. unfold oos_window. pres_go. Qed.
#[local] Hint Resolve oos_insert_sk oos_trim_sk oos_window_sk : pres.

Lemma oos_put_sk k s pcb p n t : sk pcb k s -> kept pcb k (oos_put custom_free s pcb p n t).
Proof. intros. unfold oos_put. pres_go. Qed.
#[local] Hint Resolve oos_put_sk : pres.

Lemma oos_queue_sk k s pcb : sk pcb k s -> kept pcb k (oos_queue custom_free s pcb).
Proof. intros. unfold oos_queue. pres_go. Qed.

Lemma update_snd_wnd_bone q a w b : bone (update_snd_wnd q a w b) = bone b.
Proof. unfold update_snd_wnd. repeat case_match; reflexivity. Qed.
Lemma new_ack_bone a b : bone (new_ack a b) = bone b.
Proof. unfold new_ack. repeat case_match; reflexivity. Qed.
Lemma estimate_rtt_bone t a b : bone (estimate_rtt t a b) = bone b.
Proof. unfold estimate_rtt. repeat case_match; reflexivity. Qed.
Lemma take_wnd_bone x n b : bone (take_wnd x n b) = bone b.
Proof. unfold take_wnd, tcp_update_rcv_ann_wnd. repeat case_match; reflexivity. Qed.
Lemma tcp_ack_bone b : bone (tcp_ack b) = bone b.
Proof. unfold tcp_ack. case_match; reflexivity. Qed.
#[local] Hint Extern 1 (pres (sk _ _) (upd _ _ (update_snd_wnd _ _ _))) => apply sk_upd; [intro; apply update_snd_wnd_bone |] : pres.
#[local] Hint Extern 1 (pres (sk _ _) (upd _ _ (new_ack _))) => apply sk_upd; [intro; apply new_ack_bone |] : pres.
#[local] Hint Extern 1 (pres (sk _ _) (upd _ _ (estimate_rtt _ _))) => apply sk_upd; [intro; apply estimate_rtt_bone |] : pres.
#[local] Hint Extern 1 (pres (sk _ _) (upd _ _ (take_wnd _ _))) => apply sk_upd; [intro; apply take_wnd_bone |] : pres.
#[local] Hint Extern 1 (pres (sk _ _) (upd _ _ (fun _ => take_wnd _ _ _))) => apply sk_upd; [intro; apply take_wnd_bone |] : pres.
#[local] Hint Extern 1 (pres (sk _ _) (upd _ _ tcp_ack)) => apply sk_upd; [intro; apply tcp_ack_bone |] : pres.

Lemma dup_ack_sk k s pcb e : sk pcb k s -> kept pcb k (dup_ack s pcb e).
Proof.
  intros. unfold dup_ack. pres_go.
  - apply sk_upd; [| assumption]. intros. repeat case_match; reflexivity.
  - apply rexmit_fast_sk. assumption.
Qed.

Lemma drop_acked_sk k s pcb seg g f : (forall x b, bone (f x b) = bone b) -> sk pcb k s -> kept pcb k (drop_acked custom_free s pcb seg g f).
Proof.
  intros B K. unfold drop_acked. pres_go. apply sk_upd; [| assumption]. intros. repeat case_match; cbn; apply B.
Qed.
#[local] Hint Resolve dup_ack_sk : pres.

Lemma set_unsent_head_bone x b : bone (set_unsent_head x b) = bone b.
Proof. unfold set_unsent_head. case_match; reflexivity. Qed.

Lemma acked_body_sk k pcb a (s : istate W X U) : sk pcb k (state_in s) -> pres_turn (sk pcb k) (acked_body custom_free pcb a s).
Proof. intros. unfold acked_body. pres_go. apply drop_acked_sk; [reflexivity | assumption]. Qed.

Lemma unsent_acked_body_sk k pcb a (s : istate W X U) :
  sk pcb k (state_in s) -> pres_turn (sk pcb k) (unsent_acked_body custom_free pcb a s).
Proof. intros. unfold unsent_acked_body. pres_go. apply drop_acked_sk; [apply set_unsent_head_bone | assumption]. Qed.
#[local] Hint Resolve acked_body_sk unsent_acked_body_sk : pres.

Lemma receive_ack_sk k s pcb : sk pcb k s -> kept pcb k (receive_ack custom_free s pcb).
Proof. intros. unfold receive_ack. pres_go. Qed.

Lemma trim_body_sk con k n (y : istate W X U * Z * Z) : sk con k (state_in y) -> pres_turn (sk con k) (trim_body n y).
Proof. intros. unfold trim_body. destruct y as [[s p] o]. pres_go. Qed.
#[local] Hint Resolve trim_body_sk : pres.

Lemma trim_front_sk con k s n : sk con k s -> kept con k (trim_front s n).
Proof. intros. unfold trim_front. pres_go. Qed.

Lemma cut_inseg_sk con k s n : sk con k s -> kept con k (cut_inseg custom_free s n).
Proof. intros. unfold cut_inseg. pres_go. Qed.
#[local] Hint Resolve trim_front_sk cut_inseg_sk : pres.

Lemma ooseq_covered_sk con k (y : istate W X U * Z) : sk con k (state_in y) -> pres_turn (sk con k) (ooseq_covered_body custom_free y).
Proof. intros. unfold ooseq_covered_body. destruct y as [s n]. pres_go. Qed.
#[local] Hint Resolve ooseq_covered_sk : pres.

Lemma adjust_ooseq_sk k s pcb : sk pcb k s -> kept pcb k (adjust_ooseq custom_free s pcb).
Proof. intros. unfold adjust_ooseq. pres_go. Qed.

End skeleton.

(** The lemmas for the functions that are built from these. *)
#[export] Hint Resolve sk_set_i_p sk_write sk_set_w sk_stats sk_segs sk_put_seg sk_upd_seg sk_if seg_free_sk segs_free_sk
   seg_copy_sk eff_send_mss_sk alloc_header_sk send_sk create_segment_sk memerr_sk enqueue_flags_sk send_fin_sk
   prealloc_sk t_copy_sk write_memerr_sk write_extend_sk write_packet_sk write_body_sk bump_body_sk write_commit_sk
   empty_ack_sk output_segment_sk output_queue_sk output_body_sk output_sk rexmit_sk unpend_sk purge_sk in_realloc_sk
   reply_rst_sk parseopt_sk oos_covered_sk oos_insert_sk oos_trim_sk oos_window_sk oos_put_sk dup_ack_sk acked_body_sk
   unsent_acked_body_sk trim_body_sk trim_front_sk cut_inseg_sk ooseq_covered_sk write_sk rst_sk rexmit_rto_sk
   rexmit_fast_sk keepalive_sk zero_window_probe_sk oos_queue_sk receive_ack_sk adjust_ooseq_sk : pres.
#[export] Hint Extern 1 (sk _ _ (upd_in _ _)) => apply sk_upd_in; [reflexivity |] : pres.
#[export] Hint Extern 1 (pres (sk _ _) (upd _ _ _)) => apply sk_upd; [reflexivity |] : pres.
#[export] Hint Extern 1 (pres (sk _ _) (i_free _ _ _)) => eapply above_sk; [| apply i_free_above, above_refl] : pres.
#[export] Hint Extern 1 (pres (sk _ _) (i_header _ _ _)) => eapply above_sk; [| apply i_header_above, above_refl] : pres.
#[export] Hint Extern 1 (pres (sk _ _) (t_alloc _ _ _ _ _ _)) => eapply above_sk; [| apply t_alloc_above, above_refl] : pres.
#[export] Hint Extern 1 (pres (sk _ _) (ip_route _ _)) => eapply above_sk; [| apply ip_route_above, above_refl] : pres.
#[export] Hint Extern 1 (pres (sk _ _) (ip_output _ _ _ _ _ _ _ _ _ _)) => eapply above_sk; [| apply ip_output_above, above_refl] : pres.
#[export] Hint Extern 1 (pres (sk _ _) (upd _ _ (update_snd_wnd _ _ _))) => apply sk_upd; [intro; apply update_snd_wnd_bone |] : pres.
#[export] Hint Extern 1 (pres (sk _ _) (upd _ _ (new_ack _))) => apply sk_upd; [intro; apply new_ack_bone |] : pres.
#[export] Hint Extern 1 (pres (sk _ _) (upd _ _ (estimate_rtt _ _))) => apply sk_upd; [intro; apply estimate_rtt_bone |] : pres.
#[export] Hint Extern 1 (pres (sk _ _) (upd _ _ (take_wnd _ _))) => apply sk_upd; [intro; apply take_wnd_bone |] : pres.
#[export] Hint Extern 1 (pres (sk _ _) (upd _ _ (fun _ => take_wnd _ _ _))) => apply sk_upd; [intro; apply take_wnd_bone |] : pres.
#[export] Hint Extern 1 (pres (sk _ _) (upd _ _ tcp_ack)) => apply sk_upd; [intro; apply tcp_ack_bone |] : pres.

End TcpFrame.
