(* ===== verification/TcpLists.v ===== *)
(** The lists of control blocks: [TCP_REG] and [TCP_RMV] of tcp_impl.h on lists of
    addresses. *)

From stdpp Require Import base tactics numbers list gmap.
From Stdlib Require Import ZArith Lia.
From S2P Require Import Prelude ByteOrder Stats Linked PbufDefs NetifDefs Allocator Mem Memp PbufMem Pbuf IpDefs IpOutput TcpDefs TcpSeg TcpOut Tcp TcpIn Pres TcpFrame.

Local Open Scope Z_scope.

Module TcpLists.
Import Linked Memp Pbuf IpDefs TcpDefs TcpSeg TcpOut Tcp TcpIn TcpFrame.

(** ** Paths *)

(** The list that starts at [p] in a map of links has the addresses [l]. *)
Inductive path (f : gmap Z Z) : Z -> list Z -> Prop :=
| path_nil : path f 0 []
| path_cons p q l : p <> 0 -> f !! p = Some q -> path f q l -> path f p (p :: l).

Lemma path_inv f p l : path f p l ->
  (p = 0 /\ l = []) \/ (p <> 0 /\ exists q l', l = p :: l' /\ f !! p = Some q /\ path f q l').
Proof. destruct 1; [left; auto | right; eauto 10]. Qed.

Lemma path_det f p l1 l2 : path f p l1 -> path f p l2 -> l1 = l2.
Proof.
  intros P1. revert l2. induction P1 as [|p q l Hp Hq P1 IH]; intros l2 P2.
  - apply path_inv in P2 as [[_ ?] | [? _]]; congruence.
  - apply path_inv in P2 as [[? _] | (_ & q' & l' & -> & Hq' & P2)]; [congruence|].
    rewrite Hq in Hq'. injection Hq' as <-. f_equal. auto.
Qed.

Lemma path_elem f p l x : path f p l -> x ∈ l -> x <> 0 /\ is_Some (f !! x).
Proof.
  induction 1 as [|p q l Hp Hq P IH]; intros I; [by apply not_elem_of_nil in I|].
  apply elem_of_cons in I as [-> | I]; [eauto | auto].
Qed.

Lemma path_suffix f p l1 x l2 : path f p (l1 ++ x :: l2) -> path f x (x :: l2).
Proof.
  revert p. induction l1 as [|y l1 IH]; intros p P.
  - apply path_inv in P as [[_ ?] | (Hp & q & l' & E & Hq & P)]; [discriminate|]. injection E as <- <-. econstructor; eassumption.
  - apply path_inv in P as [[_ ?] | (Hp & q & l' & E & Hq & P)]; [discriminate|]. injection E as <- <-. eapply IH, P.
Qed.

Lemma path_NoDup f p l : path f p l -> NoDup l.
Proof.
  induction 1 as [|p q l Hp Hq P IH]; constructor; [| assumption].
  intros (l1 & l2 & ->)%list_elem_of_split. pose proof (path_suffix f q l1 p l2 P) as S2.
  assert (P3 : path f p (p :: l1 ++ p :: l2)) by (econstructor; eassumption).
  pose proof (f_equal length (path_det f p _ _ S2 P3)) as E. cbn in E. rewrite length_app in E. cbn in E. lia.
Qed.

Lemma path_ext f g p l : path f p l -> (forall x, x ∈ l -> g !! x = f !! x) -> path g p l.
Proof.
  induction 1 as [|p q l Hp Hq P IH]; intros E; [constructor|]. econstructor; [assumption | | apply IH].
  - rewrite E by (apply elem_of_cons; auto). exact Hq.
  - intros x I. apply E. apply elem_of_cons. auto.
Qed.

Lemma path_insert_ne f p l x y : path f p l -> x ∉ l -> path (<[x := y]> f) p l.
Proof. intros P N. apply (path_ext f); [assumption|]. intros z I. apply lookup_insert_ne. congruence. Qed.

Lemma path_push f p l x : path f p l -> x <> 0 -> x ∉ l -> path (<[x := p]> f) x (x :: l).
Proof. intros P Hx N. econstructor; [assumption | apply lookup_insert_eq | apply path_insert_ne; assumption]. Qed.

(** The element before [x] is linked to the one behind. *)
Lemma path_cut f p l1 r x y l2 : path f p (l1 ++ r :: x :: l2) -> f !! x = Some y -> path (<[r := y]> f) p (l1 ++ r :: l2).
Proof.
  revert p. induction l1 as [|z l1 IH]; intros p P Hy; pose proof (path_NoDup _ _ _ P) as Nd;
    apply path_inv in P as [[_ ?] | (Hp & q & l' & E & Hq & P)]; try discriminate; injection E as <- <-;
    apply NoDup_cons in Nd as [Ni Nd].
  - apply path_inv in P as [[_ ?] | (Hx & q2 & l3 & E & Hq2 & P)]; [discriminate|]. injection E as <- <-.
    rewrite Hy in Hq2. injection Hq2 as <-. cbn. econstructor; [assumption | apply lookup_insert_eq|].
    apply path_insert_ne; [assumption|]. intros I. apply Ni, elem_of_cons. auto.
  - cbn. econstructor; [assumption | | apply IH; eassumption]. rewrite lookup_insert_ne; [eassumption|].
    intros ->. apply Ni, elem_of_app. right. apply elem_of_cons. auto.
Qed.

(** ** The elements of a list but one *)

Definition without (x : Z) (l : list Z) : list Z := filter (fun y => y <> x) l.

Lemma without_notin x l : x ∉ l -> without x l = l.
Proof.
  intros N. unfold without. induction l as [|y l IH]; [reflexivity|]. apply not_elem_of_cons in N as [N1 N2].
  rewrite filter_cons_True by congruence. f_equal. auto.
Qed.

Lemma elem_without x y l : y ∈ without x l <-> y ∈ l /\ y <> x.
Proof. unfold without. rewrite list_elem_of_filter. tauto. Qed.

Lemma without_mid x l1 l2 : NoDup (l1 ++ x :: l2) -> without x (l1 ++ x :: l2) = l1 ++ l2.
Proof.
  intros (N1 & D & (N2 & N3)%NoDup_cons)%NoDup_app. unfold without. rewrite filter_app, filter_cons_False by auto.
  change (without x l1 ++ without x l2 = l1 ++ l2). rewrite !without_notin; [reflexivity | assumption |].
  intros I. apply (D x I), elem_of_cons. auto.
Qed.

Lemma NoDup_without x l : NoDup l -> NoDup (without x l).
Proof. apply NoDup_filter. Qed.

Lemma without_head f p l : path f p l -> p <> 0 -> exists q l', l = p :: l' /\ f !! p = Some q /\ path f q l' /\ without p l = l'.
Proof.
  intros P N. pose proof (path_NoDup _ _ _ P) as Nd. apply path_inv in P as [[? _] | (_ & q & l' & -> & Hq & P)]; [contradiction|].
  exists q, l'. repeat split; try assumption. exact (without_mid p [] l' Nd).
Qed.

(** ** Links of the control blocks *)

Definition nexts (t : tcp_vars) : gmap Z Z := tp_next <$> tv_pcbs t.

Lemma nexts_lookup t p b : tv_pcbs t !! p = Some b -> nexts t !! p = Some (tp_next b).
Proof. intros E. unfold nexts. rewrite lookup_fmap, E. reflexivity. Qed.

(** Changing one structure in what a view does not show. *)
Lemma fmap_insert_same {A B} (g : A -> B) (m : gmap Z A) x a a' : m !! x = Some a -> g a' = g a -> g <$> <[x := a']> m = g <$> m.
Proof. intros E G. rewrite fmap_insert, G. apply insert_id. rewrite lookup_fmap, E. reflexivity. Qed.

Lemma fmap_alter_same {A B} (g : A -> B) (f : A -> A) pcb (m : gmap Z A) : (forall b, g (f b) = g b) -> g <$> alter f pcb m = g <$> m.
Proof.
  intros E. apply map_eq. intros i. rewrite !lookup_fmap. destruct (decide (i = pcb)) as [->|N].
  - rewrite lookup_alter_eq. destruct (m !! pcb); cbn; [rewrite E |]; reflexivity.
  - rewrite lookup_alter_ne by congruence. reflexivity.
Qed.

Lemma nexts_skel pcb t : nexts (skel pcb t) = nexts t.
Proof. apply (fmap_alter_same tp_next bone pcb (tv_pcbs t)). reflexivity. Qed.

(** A path in the links is a linked list of structures. *)
Lemma path_linked {A} (nxt : A -> Z) (m : gmap Z A) p l :
  path (nxt <$> m) p l -> exists l', linked nxt m p l' /\ l'.*1 = l.
Proof.
  intros P. remember (nxt <$> m) as f. induction P as [|p q l Hp Hq P (l' & L & E)]; [exists []; split; [constructor | reflexivity]|].
  subst f. rewrite lookup_fmap in Hq. destruct (m !! p) as [a|] eqn:Ea; [| discriminate]. injection Hq as <-.
  exists ((p, a) :: l'). split; [constructor; assumption | cbn; congruence].
Qed.

(** [pred_of] finds the element before [x]. *)
Lemma pred_of_spec {A} (nxt : A -> Z) (m : gmap Z A) x p l : path (nxt <$> m) p l -> x <> 0 ->
  (x ∉ l -> pred_of nxt m x p = Some 0) /\
  (forall l1 r l2, l = l1 ++ r :: x :: l2 -> pred_of nxt m x p = Some r).
Proof.
  intros P Hx. destruct (path_linked nxt m p l P) as (l' & L & E). unfold pred_of. rewrite (for_list_spec nxt _ _ _ _ _ _ L). clear P.
  split.
  - intros N. f_equal. revert l E N. induction L as [|p a l' Hp Ha L IH]; intros l E N; [reflexivity|]. cbn [fold_until].
    rewrite (proj2 (Z.eqb_neq _ _)); [apply (IH l'.*1); [reflexivity|] |].
    + intros I. apply N. rewrite <- E. cbn. apply elem_of_cons. auto.
    + intros Q. apply linked_inv in L as [[Z0 _] | (_ & b & l3 & -> & _)]; [congruence|]. apply N. rewrite <- E, Q. cbn.
      apply elem_of_cons. right. apply elem_of_cons. auto.
  - intros l1 r l2 ->. f_equal. pose proof (linked_NoDup _ _ _ _ L) as Nd. rewrite E in Nd. revert l1 E Nd.
    induction L as [|p a l' Hp Ha L IH]; intros l1 E Nd; [destruct l1; discriminate|]. cbn [fold_until]. destruct l1 as [|z l1].
    + injection E as -> E. apply linked_inv in L as [[_ ->] | (_ & b & l3 & -> & _ & _)]; [discriminate|]. cbn in E. injection E as E _.
      rewrite E, Z.eqb_refl. reflexivity.
    + injection E as -> E. rewrite (proj2 (Z.eqb_neq _ _)); [apply (IH l1 E); inversion Nd; assumption|].
      intros Q. apply linked_inv in L as [[Z0 _] | (_ & b & l3 & -> & _)]; [congruence|]. destruct l1 as [|y l1].
      * injection E as E1 _. assert (r = x) as -> by congruence. cbn in Nd.
        apply NoDup_cons in Nd as [_ Nd]. apply NoDup_cons in Nd as [N3 _]. apply N3, elem_of_cons. auto.
      * injection E as E1 _. assert (y = x) as -> by congruence. cbn in Nd.
        apply NoDup_cons in Nd as [_ Nd]. apply NoDup_cons in Nd as [N3 _].
        apply N3, elem_of_app. right. apply elem_of_cons. right. apply elem_of_cons. auto.
Qed.

#[export] Instance pcb_list_eq_dec : EqDecision pcb_list.
Proof. solve_decision. Defined.

(** The variables but for the links of the lists of [tcp_pcb]. *)
Definition rest (t : tcp_vars) : tcp_vars :=
  t |> set_tv_pcbs (set_tp_next 0 <$> tv_pcbs t) |> set_tv_bound 0 |> set_tv_active 0 |> set_tv_tw 0.

Lemma rest_next t pcb b n : tv_pcbs t !! pcb = Some b ->
  rest (set_tv_pcbs (<[pcb := set_tp_next n b]> (tv_pcbs t)) t) = rest t.
Proof.
  intros E. unfold rest. assert (Q : set_tp_next 0 <$> <[pcb := set_tp_next n b]> (tv_pcbs t) = set_tp_next 0 <$> tv_pcbs t).
  { rewrite fmap_insert. apply insert_id. rewrite lookup_fmap, E. reflexivity. }
  change (tv_pcbs (set_tv_pcbs ?m ?u)) with m. rewrite Q. reflexivity.
Qed.

Lemma rest_head t l x : rest (set_list_head l x t) = rest t.
Proof. destruct l; reflexivity. Qed.

Lemma nexts_next t pcb b n : nexts (set_tv_pcbs (<[pcb := set_tp_next n b]> (tv_pcbs t)) t) = <[pcb := n]> (nexts t).
Proof. unfold nexts. change (tv_pcbs (set_tv_pcbs ?m ?u)) with m. rewrite fmap_insert. reflexivity. Qed.

Lemma list_head_set t l l' x : list_head (set_list_head l x t) l' = if decide (l = l') then x else list_head t l'.
Proof. destruct l, l'; reflexivity. Qed.

Lemma list_head_pcbs t m l : list_head (set_tv_pcbs m t) l = list_head t l.
Proof. destruct l; reflexivity. Qed.

Lemma nexts_head t l x : nexts (set_list_head l x t) = nexts t.
Proof. destruct l; reflexivity. Qed.

Lemma pcbs_head t l x : tv_pcbs (set_list_head l x t) = tv_pcbs t.
Proof. destruct l; reflexivity. Qed.

Section lists.
Context {W X U : Type} `{MemSystem W} `{HasTcp U}.
Implicit Type s : istate W X U.

(** What taking [pcb] off the list [l], which has the addresses [L], does. *)
Record removed (t t' : tcp_vars) (l : pcb_list) (pcb : Z) (L : list Z) : Prop := {
  rm_list : path (nexts t') (list_head t' l) (without pcb L);
  rm_other : forall h L', path (nexts t) h L' -> pcb ∉ L' -> (forall q, q ∈ L -> q ∉ L') -> path (nexts t') h L';
  rm_heads : forall l', l' <> l -> list_head t' l' = list_head t l';
  rm_rest : rest t' = rest t
}.

Lemma upd_next s pcb b n : pcb_at s pcb = Some b ->
  upd s pcb (set_tp_next n) = Some (set_tcp s (set_tv_pcbs (<[pcb := set_tp_next n b]> (tv_pcbs (tcp_of s))) (tcp_of s))).
Proof. intros E. unfold upd. rewrite E. reflexivity. Qed.

(** The last step of [TCP_RMV], which clears the link of [pcb]. *)
Lemma removed_clear t l pcb b L : tv_pcbs t !! pcb = Some b -> path (nexts t) (list_head t l) L -> pcb ∉ L ->
  removed t (set_tv_pcbs (<[pcb := set_tp_next 0 b]> (tv_pcbs t)) t) l pcb L.
Proof.
  intros E P N. split.
  - rewrite nexts_next, list_head_pcbs, without_notin by assumption. apply path_insert_ne; assumption.
  - intros h L' P' N' _. rewrite nexts_next. apply path_insert_ne; assumption.
  - intros. apply list_head_pcbs.
  - apply rest_next, E.
Qed.

Lemma removed_trans t1 t2 t3 l pcb L : removed t1 t2 l pcb L -> removed t2 t3 l pcb (without pcb L) -> removed t1 t3 l pcb L.
Proof.
  intros [A1 B1 C1 D1] [A2 B2 C2 D2]. split.
  - rewrite (without_notin pcb (without pcb L)) in A2; [exact A2|]. rewrite elem_without. tauto.
  - intros h L' P N D. apply B2; [apply B1; assumption | assumption |]. intros q I. apply elem_without in I as [I _]. auto.
  - intros l' N. rewrite C2, C1; auto.
  - congruence.
Qed.

Lemma rmv_spec s l pcb b L :
  pcb_at s pcb = Some b -> pcb <> 0 -> path (nexts (tcp_of s)) (list_head (tcp_of s) l) L ->
  exists s', TCP_RMV s l pcb = Some s' /\ removed (tcp_of s) (tcp_of s') l pcb L /\ pcb ∉ without pcb L.
Proof.
  intros E Hp P. unfold TCP_RMV. set (t := tcp_of s) in *.
  assert (NW : pcb ∉ without pcb L) by (rewrite elem_without; tauto).
  destruct (Z.eqb_spec (list_head t l) pcb) as [Hd|Hd].
  - rewrite E. cbn [mbind option_bind]. set (s1 := set_tcp s _).
    assert (T1 : tcp_of s1 = set_list_head l (tp_next b) t) by apply tcp_of_set_tcp.
    assert (E1 : pcb_at s1 pcb = Some b) by (unfold pcb_at; rewrite T1, pcbs_head; exact E).
    rewrite (upd_next s1 pcb b 0 E1). eexists. split; [reflexivity | split; [| exact NW]].
    rewrite tcp_of_set_tcp. destruct (without_head _ _ _ P) as (q & L2 & -> & Hq & P2 & Wo); [congruence|].
    rewrite Hd in *. rewrite (nexts_lookup t pcb b E) in Hq. injection Hq as <-.
    assert (R1 : removed t (tcp_of s1) l pcb (pcb :: L2)).
    { rewrite T1. split; [| intros h L' P' _ _; rewrite nexts_head; exact P' | | apply rest_head].
      - rewrite list_head_set, decide_True, nexts_head, Wo by reflexivity. exact P2.
      - intros l' N. rewrite list_head_set, decide_False by congruence. reflexivity. }
    apply (removed_trans _ _ _ _ _ _ R1). apply removed_clear; [exact E1 | apply R1 | exact NW].
  - destruct (pred_of_spec tp_next (tv_pcbs t) pcb _ _ P Hp) as [Pn Py]. destruct (decide (pcb ∈ L)) as [I|N].
    + apply list_elem_of_split in I as (l1 & l2 & EL). destruct (decide (l1 = [])) as [-> | Nl].
      { subst L. apply path_inv in P as [[_ ?] | (_ & ? & ? & Q & _)]; [discriminate | injection Q as Q _; congruence]. }
      destruct (exists_last Nl) as (l0 & r & ->). rewrite <- app_assoc in EL. cbn in EL. subst L. rewrite (Py _ _ _ eq_refl).
      cbn [mbind option_bind]. assert (Ir : r ∈ l0 ++ r :: pcb :: l2) by (apply elem_of_app; right; apply elem_of_cons; auto).
      destruct (path_elem _ _ _ _ P Ir) as [Hr [qr Hqr]]. rewrite (proj2 (Z.eqb_neq _ _)), E by assumption. cbn [mbind option_bind].
      unfold nexts in Hqr. rewrite lookup_fmap in Hqr. destruct (tv_pcbs t !! r) as [br|] eqn:Er; [| discriminate].
      rewrite (upd_next s r br) by exact Er. cbn [mbind option_bind]. set (s1 := set_tcp s _).
      assert (T1 : tcp_of s1 = set_tv_pcbs (<[r := set_tp_next (tp_next b) br]> (tv_pcbs t)) t) by apply tcp_of_set_tcp.
      assert (Nr : r <> pcb).
      { pose proof (path_NoDup _ _ _ P) as Nd. apply NoDup_app in Nd as (_ & _ & Nd). apply NoDup_cons in Nd as [Nd _].
        intros ->. apply Nd, elem_of_cons. auto. }
      assert (E1 : pcb_at s1 pcb = Some b) by (unfold pcb_at; rewrite T1; cbn; rewrite lookup_insert_ne by assumption; exact E).
      rewrite (upd_next s1 pcb b 0 E1). eexists. split; [reflexivity | split; [| exact NW]]. rewrite tcp_of_set_tcp.
      assert (R1 : removed t (tcp_of s1) l pcb (l0 ++ r :: pcb :: l2)).
      { rewrite T1. split.
        - rewrite nexts_next, list_head_pcbs. replace (without pcb _) with (l0 ++ r :: l2); [apply path_cut with (x := pcb); [exact P | apply nexts_lookup, E]|].
          pose proof (path_NoDup _ _ _ P) as Nd. change (r :: pcb :: l2) with ([r] ++ pcb :: l2) in *. rewrite app_assoc in *.
          rewrite without_mid by assumption. rewrite <- app_assoc. reflexivity.
        - intros h L' P' _ D. rewrite nexts_next. apply path_insert_ne; [exact P' | apply D, Ir].
        - intros. apply list_head_pcbs.
        - apply rest_next, Er. }
      apply (removed_trans _ _ _ _ _ _ R1). apply removed_clear; [exact E1 | apply R1 | exact NW].
    + rewrite (Pn N). cbn [mbind option_bind Z.eqb]. rewrite (upd_next s pcb b 0 E). eexists. split; [reflexivity | split; [| exact NW]].
      rewrite tcp_of_set_tcp. apply removed_clear; assumption.
Qed.

(** Putting [pcb] in front of a list. *)
Lemma reg_spec s l pcb b :
  pcb_at s pcb = Some b ->
  exists s', TCP_REG s l pcb = Some s' /\
    tcp_of s' = set_list_head l pcb (set_tv_pcbs (<[pcb := set_tp_next (list_head (tcp_of s) l) b]> (tv_pcbs (tcp_of s))) (tcp_of s)).
Proof.
  intros E. unfold TCP_REG. rewrite (upd_next s pcb b _ E). cbn [mbind option_bind]. eexists. split; [reflexivity|].
  rewrite !tcp_of_set_tcp. reflexivity.
Qed.

End lists.

End TcpLists.
