(* ===== verification/TcpOptions.v ===== *)
(** The options of a TCP header: [tcp_parseopt] of src/core/tcp_in.c ends on every
    input, reads the options only, and finds the maximum segment size in options
    that are well formed. *)

From stdpp Require Import base tactics numbers list gmap.
From Stdlib Require Import ZArith Lia.
From S2P Require Import Prelude ByteOrder PbufDefs TcpDefs TcpIn.

Local Open Scope Z_scope.

Module TcpOptions.
Import ByteOrder TcpDefs TcpIn.

(** The bytes of the options of the header at [h]. *)
Definition option_bytes (m : memory) (h : Z) : list Z :=
  bytes m (h + TCP_HLEN) (Z.to_nat (Z.shiftl (TCPH_HDRLEN m h - 5) 2)).

Lemma hdrlen_range m h : 0 <= TCPH_HDRLEN m h < 16.
Proof.
  unfold TCPH_HDRLEN. rewrite Z.shiftr_div_pow2 by lia. change (2 ^ 12) with 4096.
  pose proof (PP_HTONS_range _ (ld16_range m (h + TCPH_hdrlen_rsvd_flags))). zlia.
Qed.

(** ** Every input *)

(** The number of bytes of options. *)
Lemma options_length m h : 5 < TCPH_HDRLEN m h ->
  exists n, Z.shiftl (TCPH_HDRLEN m h - 5) 2 = Z.of_nat n /\ (n <= 40)%nat /\ length (option_bytes m h) = n.
Proof.
  intros A. pose proof (hdrlen_range m h). exists (Z.to_nat (4 * (TCPH_HDRLEN m h - 5))).
  unfold option_bytes. rewrite Z.shiftl_mul_pow2, bytes_length by lia. change (2 ^ 2) with 4. split; [lia | split; [lia |]].
  rewrite (Z.mul_comm 4). reflexivity.
Qed.

(** One step of the loop takes an option or ends it. *)
Lemma parseopt_step m o n mss c : 0 <= c -> n <= 40 ->
  match parseopt_body m o n (mss, c) with
  | inl (mss', c') => c < n /\ c < c' <= c + 255 /\ (mss' = mss \/ 1 <= mss' <= TCP_MSS)
  | inr mss' => mss' = mss
  end.
Proof.
  intros C N. unfold parseopt_body. pose proof (ld8_range m (o + c + 1)).
  pose proof (ld8_range m (o + c + 2)). pose proof (ld8_range m (o + c + 3)).
  assert (0 <= Z.lor (Z.shiftl (ld8 m (o + c + 2)) 8) (ld8 m (o + c + 3)))
    by (apply Z.lor_nonneg; rewrite Z.shiftl_nonneg; lia).
  repeat case_match; simplify_eq; bool_to_prop; try reflexivity; rewrite ?u16_id in * by lia; try lia.
  all: match goal with E : (_ || _) = true |- _ => apply orb_true_iff in E as [?|?] | _ => idtac end; bool_to_prop;
    change TCP_MSS with 536 in *; lia.
Qed.

Lemma parseopt_loop m o n : n <= 40 -> forall fuel mss c, 0 <= c -> n - c < Z.of_nat fuel -> (0 < fuel)%nat ->
  exists mss', while fuel (parseopt_body m o n) (mss, c) = Some mss' /\ (mss' = mss \/ 1 <= mss' <= TCP_MSS).
Proof.
  intros N. induction fuel as [|fuel IH]; intros mss c C F P; [lia|]. rewrite while_S.
  pose proof (parseopt_step m o n mss c C N) as St. destruct (parseopt_body m o n (mss, c)) as [[mss' c']|r].
  - destruct St as (L & D & M). destruct (IH mss' c') as (r & R & B); [lia | lia | lia |].
    exists r. split; [exact R | lia].
  - exists r. auto.
Qed.

(** Memories with the same options. *)
Definition same_options (m m' : memory) (o n : Z) : Prop := forall x, o <= x < o + n -> ld8 m' x = ld8 m x.

Lemma parseopt_same m m' o n : n <= 40 -> same_options m m' o n ->
  forall fuel mss c, 0 <= c -> n - c < Z.of_nat fuel -> (0 < fuel)%nat ->
  while fuel (parseopt_body m' o n) (mss, c) = while fuel (parseopt_body m o n) (mss, c).
Proof.
  intros N A. induction fuel as [|fuel IH]; intros mss c C F P; [lia|]. rewrite !while_S.
  pose proof (parseopt_step m o n mss c C N) as St. pose proof (parseopt_step m' o n mss c C N) as St'.
  destruct (Z.ltb_spec c n) as [L|L].
  2: { unfold parseopt_body. rewrite (proj2 (Z.ltb_ge c n)) by lia. reflexivity. }
  destruct (Z.ltb_spec (c + 1) n) as [L1|L1].
  - assert (E : parseopt_body m' o n (mss, c) = parseopt_body m o n (mss, c)).
    { unfold parseopt_body. rewrite (A (o + c)), (A (o + c + 1)) by lia. destruct (n <? c + 4) eqn:Q; [rewrite !orb_true_r|].
      - repeat case_match; congruence.
      - bool_to_prop. rewrite (A (o + c + 2)), (A (o + c + 3)) by lia. reflexivity. }
    rewrite E. destruct (parseopt_body m o n (mss, c)) as [[mss' c']|r]; [apply IH; lia | reflexivity].
  - assert (D : forall k, parseopt_body k o n (mss, c) = inl (mss, c + 1) \/ parseopt_body k o n (mss, c) = inr mss \/
      exists j, parseopt_body k o n (mss, c) = inl (mss, j) /\ n <= j).
    { intros k. pose proof (parseopt_step k o n mss c C N) as K. unfold parseopt_body in *.
      assert (Q : (n <? c + 4) = true) by (apply Z.ltb_lt; lia). rewrite Q, orb_true_r in *.
      repeat case_match; simplify_eq; bool_to_prop; auto; right; right; eexists; split; try reflexivity; lia. }
    assert (Z1 : forall k j, n <= j -> while fuel (parseopt_body k o n) (mss, j) = Some mss).
    { intros k j J. destruct fuel as [|f]; [lia|]. rewrite while_S. unfold parseopt_body.
      rewrite (proj2 (Z.ltb_ge j n)) by lia. reflexivity. }
    destruct (D m) as [-> | [-> | (j & -> & J)]], (D m') as [-> | [-> | (j' & -> & J')]]; rewrite ?Z1 by lia; reflexivity.
Qed.

(** The segment size that results. *)
Lemma parseopt_returns (m : memory) (h mss : Z) : is_Some (parseopt m h mss).
Proof.
  unfold parseopt. destruct (5 <? TCPH_HDRLEN m h) eqn:L; [| eauto]. bool_to_prop. destruct (options_length m h L) as (n & En & N & _). rewrite En.
  destruct (parseopt_loop m (h + TCP_HLEN) (Z.of_nat n) ltac:(lia) 41 mss 0) as (r & R & _); [lia | lia | lia | eauto].
Qed.

(** C15: tcp_parseopt ends on the bytes of any header, whatever they are: it leaves the
    maximum segment size as it is or sets it to between 1 and TCP_MSS, and the
    result depends on the header length and on the bytes of the options only. *)
Theorem tcp_parseopt_total (m : memory) (h mss : Z) :
  exists mss', parseopt m h mss = Some mss' /\ (mss' = mss \/ 1 <= mss' <= TCP_MSS) /\
  forall m', TCPH_HDRLEN m' h = TCPH_HDRLEN m h -> option_bytes m' h = option_bytes m h -> parseopt m' h mss = Some mss'.
Proof.
  unfold parseopt. destruct (5 <? TCPH_HDRLEN m h) eqn:L.
  2: { exists mss. repeat split; auto. intros m' -> _. rewrite L. reflexivity. }
  bool_to_prop. destruct (options_length m h L) as (n & En & N & _). rewrite En.
  destruct (parseopt_loop m (h + TCP_HLEN) (Z.of_nat n) ltac:(lia) 41 mss 0) as (r & R & B); [lia | lia | lia |].
  exists r. repeat split; [exact R | exact B |]. intros m' Eh Eb. rewrite Eh, (proj2 (Z.ltb_lt _ _) L), En, <- R.
  apply parseopt_same; try lia. intros x X. unfold option_bytes in Eb. rewrite Eh, En, Nat2Z.id in Eb.
  assert (E : bytes m' (h + TCP_HLEN) n !! Z.to_nat (x - (h + TCP_HLEN)) = bytes m (h + TCP_HLEN) n !! Z.to_nat (x - (h + TCP_HLEN)))
    by (rewrite Eb; reflexivity).
  rewrite !bytes_lookup in E by lia. rewrite Z2Nat.id in E by lia. injection E as E.
  replace (h + TCP_HLEN + (x - (h + TCP_HLEN))) with x in E by lia. exact E.
Qed.

(** ** Well-formed options *)

Inductive tcp_option := O_NOP | O_MSS (x : Z) | O_OTHER (kind : Z) (data : list Z).

Definition encode_option (x : tcp_option) : list Z :=
  match x with
  | O_NOP => [1]
  | O_MSS x => [2; 4; x / 256; x mod 256]
  | O_OTHER k data => k :: 2 + Z.of_nat (length data) :: data
  end.
Definition encode_options (l : list tcp_option) : list Z := concat (map encode_option l).

Definition option_ok (x : tcp_option) : Prop :=
  match x with O_NOP => True | O_MSS x => 0 <= x < 65536 | O_OTHER k _ => 2 < k end.

(** The size the last of the options says, which is limited to [TCP_MSS]. *)
Definition limit_mss (x : Z) : Z := if (TCP_MSS <? x) || (x =? 0) then TCP_MSS else x.
Definition options_mss (l : list tcp_option) (mss : Z) : Z :=
  fold_left (fun mss x => match x with O_MSS x => limit_mss x | _ => mss end) l mss.

(** Nothing, or the end of the options and what follows it. *)
Definition padding (l : list Z) : Prop := match l with [] => True | x :: _ => x = 0 end.

Lemma bytes_cons m a n x l : bytes m a n = x :: l -> exists k, n = S k /\ ld8 m a = x /\ bytes m (a + 1) k = l.
Proof. destruct n as [|k]; cbn; [discriminate|]. intros E. injection E as E1 E2. eauto. Qed.

Lemma bytes_behind m a n l1 l2 : bytes m a n = l1 ++ l2 ->
  (length l1 <= n)%nat /\ bytes m (a + Z.of_nat (length l1)) (n - length l1) = l2.
Proof.
  intros E. assert (L : n = (length l1 + length l2)%nat) by (rewrite <- length_app, <- E, bytes_length; reflexivity).
  split; [lia|]. rewrite <- drop_bytes, E, drop_app_length by lia. reflexivity.
Qed.

(** One option. *)
Lemma parseopt_one m o n x mss c rest : 0 <= c -> n <= 40 -> option_ok x ->
  bytes m (o + c) (Z.to_nat (n - c)) = encode_option x ++ rest ->
  parseopt_body m o n (mss, c) = inl (options_mss [x] mss, c + Z.of_nat (length (encode_option x))).
Proof.
  intros C N Ok E. destruct (bytes_behind _ _ _ _ _ E) as [Len _]. unfold parseopt_body.
  destruct x as [|x|k data]; cbn [encode_option app length] in *.
  - apply bytes_cons in E as (j & Ej & E1 & _). rewrite E1. rewrite (proj2 (Z.ltb_lt c n)) by lia. cbn [Z.eqb]. 
    rewrite u16_id by lia. reflexivity.
  - apply bytes_cons in E as (j & Ej & E1 & E). apply bytes_cons in E as (j2 & -> & E2 & E).
    apply bytes_cons in E as (j3 & -> & E3 & E). apply bytes_cons in E as (j4 & -> & E4 & _).
    replace (o + c + 1 + 1) with (o + c + 2) in E3 by lia. replace (o + c + 1 + 1 + 1) with (o + c + 3) in E4 by lia.
    rewrite E1, E2, E3, E4. rewrite (proj2 (Z.ltb_lt c n)), (proj2 (Z.ltb_ge n (c + 4))) by lia. cbn [Z.eqb Pos.eqb negb orb].
    assert (V : Z.lor (Z.shiftl (x / 256) 8) (x mod 256) = x).
    { cbn in Ok. rewrite Z.shiftl_mul_pow2, lor_shift_add; change (2 ^ 8) with 256; zlia. }
    rewrite V, u16_id by lia. reflexivity.
  - cbn in Ok. apply bytes_cons in E as (j & Ej & E1 & E). apply bytes_cons in E as (j2 & -> & E2 & _).
    rewrite E1, E2. rewrite (proj2 (Z.ltb_lt c n)) by lia.
    rewrite (proj2 (Z.eqb_neq k 0)), (proj2 (Z.eqb_neq k 1)), (proj2 (Z.eqb_neq k 2)) by lia.
    rewrite (proj2 (Z.eqb_neq (2 + _) 0)) by lia. rewrite u16_id by lia. cbn. do 3 f_equal. lia.
Qed.

Lemma parseopt_options m o n pad : n <= 40 -> padding pad -> forall l c mss fuel, Forall option_ok l -> 0 <= c -> n - c < Z.of_nat fuel ->
  (0 < fuel)%nat -> c <= n -> bytes m (o + c) (Z.to_nat (n - c)) = encode_options l ++ pad ->
  while fuel (parseopt_body m o n) (mss, c) = Some (options_mss l mss).
Proof.
  intros N Pad. induction l as [|x l IH]; intros c mss fuel Ok C F P Le E.
  - destruct fuel as [|f]; [lia|]. rewrite while_S. unfold parseopt_body. cbn in E. destruct pad as [|y pad].
    + assert (c = n) by (destruct (Z.to_nat (n - c)) eqn:Q; [lia | discriminate]). rewrite (proj2 (Z.ltb_ge c n)) by lia. reflexivity.
    + apply bytes_cons in E as (j & Ej & E1 & _). cbn in Pad. subst y. rewrite (proj2 (Z.ltb_lt c n)), E1 by lia. reflexivity.
  - inversion Ok as [|? ? O1 O2]; subst. unfold encode_options in E. cbn [map concat] in E. rewrite <- app_assoc in E.
    destruct fuel as [|f]; [lia|]. rewrite while_S, (parseopt_one m o n x mss c _ C N O1 E).
    destruct (bytes_behind _ _ _ _ _ E) as [Len B]. assert (0 < length (encode_option x))%nat by (destruct x; cbn; lia).
    rewrite (IH (c + Z.of_nat (length (encode_option x))) (options_mss [x] mss) f O2); [reflexivity | lia | lia | lia | lia |].
    rewrite Z.add_assoc. rewrite <- B at 1. f_equal; lia.
Qed.

(** When the options of a header are well formed (any sequence of NOPs, maximum
    segment size options and options of other kinds, up to the end of the header or
    an end-of-options byte), tcp_parseopt finds the size of the last maximum segment
    size option, limited to TCP_MSS, and keeps the size it had if there is none. *)
Theorem tcp_options_parsed (m : memory) (h mss : Z) (l : list tcp_option) (pad : list Z) :
  5 < TCPH_HDRLEN m h -> Forall option_ok l -> padding pad -> option_bytes m h = encode_options l ++ pad ->
  parseopt m h mss = Some (options_mss l mss).
Proof.
  intros L Ok Pad E. unfold parseopt. rewrite (proj2 (Z.ltb_lt _ _) L).
  destruct (options_length m h L) as (n & En & N & _). unfold option_bytes in E. rewrite En, Nat2Z.id in E. rewrite En.
  apply (parseopt_options m _ (Z.of_nat n) pad); auto; try lia.
  rewrite Z.add_0_r, Z.sub_0_r, Nat2Z.id. exact E.
Qed.

(** A SYN with a maximum segment size of 400, a NOP and a window scale. *)
Definition sample_options : list tcp_option := [O_MSS 400; O_NOP; O_OTHER 3 [7]].
Definition sample_header : memory :=
  st_bytes (fun _ => 0) 1000 ([4; 210; 0; 7; 0; 0; 0; 1; 0; 0; 0; 0; 112; 2; 32; 0; 0; 0; 0; 0] ++ encode_options sample_options).

Lemma tcp_options_parsed_witness :
  option_bytes sample_header 1000 = encode_options sample_options ++ [] /\ parseopt sample_header 1000 536 = Some 400.
Proof.
  assert (A : option_bytes sample_header 1000 = encode_options sample_options ++ []) by (vm_compute; reflexivity).
  split; [exact A|].
  rewrite (tcp_options_parsed sample_header 1000 536 sample_options []); [reflexivity | vm_compute; reflexivity | | exact I | exact A].
  repeat constructor; cbn; lia.
Defined.

End TcpOptions.
