(* ===== verification/TcpStates.v ===== *)
(** The state machine of [tcp_process] (src/core/tcp_in.c) in the states of a
    synchronized connection. *)

From stdpp Require Import base tactics numbers list gmap.
From Stdlib Require Import ZArith Lia.
From S2P Require Import Prelude ByteOrder Stats Linked PbufDefs NetifDefs InetChksum Allocator Mem Memp PbufMem Pbuf IpAddr IpDefs IpOutput TcpDefs TcpSeg TcpOut Tcp TcpIn TcpSample Pres TcpFrame TcpLists TcpOptions.

Local Open Scope Z_scope.

Module TcpStates.
Import ByteOrder Linked Memp Pbuf IpDefs TcpDefs TcpSeg TcpOut Tcp TcpIn TcpFrame TcpLists TcpOptions.

(** ** The diagram *)

(** The next state of a connection when a segment was received: [fin] if the FIN of the
    other end was received in sequence, [acked] if it acknowledges all that was sent,
    the own FIN included. *)
Definition next_state (fin acked : bool) (st : tcp_state) : tcp_state :=
  match st with
  | ESTABLISHED => if fin then CLOSE_WAIT else ESTABLISHED
  | FIN_WAIT_1 => if fin then (if acked then TIME_WAIT else CLOSING) else if acked then FIN_WAIT_2 else FIN_WAIT_1
  | FIN_WAIT_2 => if fin then TIME_WAIT else FIN_WAIT_2
  | CLOSING => if acked then TIME_WAIT else CLOSING
  | st => st
  end.

Definition synchronized (st : tcp_state) : Prop :=
  match st with ESTABLISHED | FIN_WAIT_1 | FIN_WAIT_2 | CLOSE_WAIT | CLOSING | LAST_ACK => True | _ => False end.

(** ** Changes of the skeleton *)

Definition set_state (pcb : Z) (st : tcp_state) (k : tcp_vars) : tcp_vars :=
  set_tv_pcbs (alter (set_tp_state st) pcb (tv_pcbs k)) k.
Definition set_rflags (f : Z) (k : tcp_vars) : tcp_vars := set_tv_in (set_ti_recv_flags f (tv_in k)) k.

Lemma set_state_again pcb st st' k : set_state pcb st (set_state pcb st' k) = set_state pcb st k.
Proof.
  unfold set_state. change (tv_pcbs (set_tv_pcbs ?m ?t)) with m. change (set_tv_pcbs ?m (set_tv_pcbs _ ?t)) with (set_tv_pcbs m t).
  f_equal. apply map_eq. intros i. destruct (decide (i = pcb)) as [->|N].
  - rewrite !lookup_alter_eq. destruct (tv_pcbs k !! pcb); reflexivity.
  - rewrite !lookup_alter_ne by congruence. reflexivity.
Qed.

Lemma set_state_same pcb st k b : tv_pcbs k !! pcb = Some b -> tp_state b = st -> set_state pcb st k = k.
Proof.
  intros E S1. unfold set_state. rewrite alter_id; [destruct k; reflexivity|]. intros x Ex. rewrite E in Ex. injection Ex as <-.
  destruct b. cbn in *. subst. reflexivity.
Qed.

(** ** Views of the lists *)

Definition state_at (t : tcp_vars) (pcb : Z) : option tcp_state := tp_state <$> tv_pcbs t !! pcb.

(** The control blocks but [pcb] and the links. *)
Definition others (pcb : Z) (t : tcp_vars) : gmap Z tcp_pcb := delete pcb (tv_pcbs (rest t)).

(** The lists of active control blocks and of those in TIME-WAIT. *)
Definition listed (t : tcp_vars) (la lt : list Z) : Prop :=
  path (nexts t) (tv_active t) la /\ path (nexts t) (tv_tw t) lt /\ NoDup (la ++ lt).

(** What changing the control block of [pcb] only does to the views. *)
Lemma others_alter f pcb (m : gmap Z tcp_pcb) t : others pcb (set_tv_pcbs (alter f pcb m) t) = others pcb (set_tv_pcbs m t).
Proof.
  unfold others, rest. cbn. apply map_eq. intros i. destruct (decide (i = pcb)) as [->|N].
  - rewrite !lookup_delete_eq. reflexivity.
  - rewrite !lookup_delete_ne, !lookup_fmap, lookup_alter_ne by congruence. reflexivity.
Qed.

Lemma others_skel pcb t : others pcb (skel pcb t) = others pcb t.
Proof. unfold skel. transitivity (others pcb (set_tv_pcbs (alter bone pcb (tv_pcbs t)) t)); [reflexivity | apply others_alter]. Qed.
Lemma state_skel pcb t : state_at (skel pcb t) pcb = state_at t pcb.
Proof. unfold state_at, skel. cbn. rewrite lookup_alter_eq. destruct (tv_pcbs t !! pcb); reflexivity. Qed.
Lemma listed_skel pcb t la lt : listed (skel pcb t) la lt <-> listed t la lt.
Proof. unfold listed. rewrite nexts_skel. reflexivity. Qed.

Lemma others_set_state pcb st k : others pcb (set_state pcb st k) = others pcb k.
Proof. apply (others_alter (set_tp_state st) pcb (tv_pcbs k) k). Qed.
Lemma state_set_state pcb st k b : tv_pcbs k !! pcb = Some b -> state_at (set_state pcb st k) pcb = Some st.
Proof. intros E. unfold state_at, set_state. cbn. rewrite lookup_alter_eq, E. reflexivity. Qed.

Lemma nexts_set_state pcb st k : nexts (set_state pcb st k) = nexts k.
Proof. unfold nexts, set_state. cbn. apply fmap_alter_same. reflexivity. Qed.

Lemma listed_set_state pcb st k la lt : listed (set_state pcb st k) la lt <-> listed k la lt.
Proof. unfold listed. rewrite nexts_set_state. reflexivity. Qed.

Section states.
Context {W X U : Type} `{MemSystem W} `{HasTcp U} `{MempStats W}.
Context (stale : Z -> Z) (custom_free : pstate W -> Z -> option (pstate W)).
Context (netif_output : X -> pstate W -> Z -> netif -> Z -> Z -> option (X * pstate W * Z)).
Context (app : tcp_app (istate W X U)).
Implicit Type s : istate W X U.

Lemma sk_upd_state k s pcb st f :
  (forall b, bone (f b) = set_tp_state st (bone b)) -> sk pcb k s -> pres (sk pcb (set_state pcb st k)) (upd s pcb f).
Proof.
  intros B K. unfold upd, pcb_at. apply pres_let. intros b E. apply pres_some, sk_set_tcp. rewrite <- K. unfold set_state.
  assert (Q : alter bone pcb (<[pcb := f b]> (tv_pcbs (tcp_of s))) = alter (set_tp_state st) pcb (alter bone pcb (tv_pcbs (tcp_of s)))).
  { apply map_eq. intros i. destruct (decide (i = pcb)) as [->|N].
    - rewrite !lookup_alter_eq, lookup_insert_eq, E. cbn. rewrite B. reflexivity.
    - rewrite !lookup_alter_ne, lookup_insert_ne by congruence. reflexivity. }
  unfold skel. change (tv_pcbs (set_tv_pcbs ?m ?t)) with m. rewrite Q. reflexivity.
Qed.

(** ** Receiving *)

(** The skeleton when a segment was received for [pcb] in the state [st], where it was
    [k] before: a FIN may have been found, and an established connection may have been
    closed by it. *)
Definition received (k : tcp_vars) (pcb : Z) (st : tcp_state) s : Prop :=
  exists f st', sk pcb (set_rflags f (set_state pcb st' k)) s /\
    (f = ti_recv_flags (tv_in k) \/ has f TF_GOT_FIN = true) /\
    (st' = st \/ (st = ESTABLISHED /\ st' = CLOSE_WAIT /\ has f TF_GOT_FIN = true)).

Lemma received_keep {A} `{HasState (istate W X U) A} k pcb st s (r : option A) :
  (forall k', sk pcb k' s -> pres (sk pcb k') r) -> received k pcb st s -> pres (received k pcb st) r.
Proof. intros R (f & st' & K & F & S1) x E. exists f, st'. split; [exact (R _ K x E) | auto]. Qed.

Lemma received_pure k pcb st s s' : (forall k', sk pcb k' s -> sk pcb k' s') -> received k pcb st s -> received k pcb st s'.
Proof. intros R (f & st' & K & F & S1). exists f, st'. auto. Qed.

Lemma has_or_flag x f : 0 < f -> has (or_flag x f) f = true.
Proof.
  intros F. unfold has, or_flag. apply negb_true_iff, Z.eqb_neq. intros E.
  assert (Z.land (Z.lor x f) f = f) as E2; [| lia].
  apply Z.bits_inj'. intros n N. rewrite Z.land_spec, Z.lor_spec. destruct (Z.testbit f n); rewrite ?orb_true_r, ?andb_false_r; reflexivity.
Qed.

(** A FIN was found. *)
Definition flag_fin (i : tcp_in) : tcp_in := i |> set_ti_recv_flags (or_flag (ti_recv_flags i) TF_GOT_FIN).

Lemma sk_flag_fin pcb k f s : sk pcb (set_rflags f k) s -> sk pcb (set_rflags (or_flag f TF_GOT_FIN) k) (upd_in s flag_fin).
Proof.
  unfold sk, upd_in, set_inp. intros K. rewrite tcp_of_set_tcp.
  assert (E : f = ti_recv_flags (tv_in (tcp_of s))) by (apply (f_equal (fun t => ti_recv_flags (tv_in t))) in K; exact (eq_sym K)).
  unfold set_rflags in *. apply (f_equal (set_rflags (or_flag f TF_GOT_FIN))) in K. rewrite E in *. exact K.
Qed.

Lemma received_fin k pcb st s : received k pcb st s -> received k pcb st (upd_in s flag_fin).
Proof.
  intros (f & st' & K & F & S1). exists (or_flag f TF_GOT_FIN), st'. split; [apply sk_flag_fin, K|].
  assert (Hf : has (or_flag f TF_GOT_FIN) TF_GOT_FIN = true) by (apply has_or_flag; reflexivity).
  split; [auto|]. destruct S1 as [-> | (-> & -> & _)]; auto.
Qed.

(** The FIN of a segment that was out of sequence closes an established connection. *)
Definition force_close (b : tcp_pcb) : tcp_pcb := if is_state (tp_state b) ESTABLISHED then b |> set_tp_state CLOSE_WAIT else b.

Lemma received_force k pcb st s :
  (exists b, tv_pcbs k !! pcb = Some b) -> received k pcb st s -> pres (received k pcb st) (upd (upd_in s flag_fin) pcb force_close).
Proof.
  intros [b0 E0] R. destruct R as (f & st' & K & _ & S1). apply sk_flag_fin in K.
  assert (Hf : has (or_flag f TF_GOT_FIN) TF_GOT_FIN = true) by (apply has_or_flag; reflexivity).
  set (s1 := upd_in s flag_fin) in *. unfold upd. apply pres_let. intros b E. apply pres_some.
  assert (St : tp_state b = st').
  { apply (f_equal (fun t => tp_state <$> tv_pcbs t !! pcb)) in K. cbn in K.
    unfold pcb_at in E. rewrite !lookup_alter_eq, E, E0 in K. injection K as K. exact K. }
  change (received k pcb st (put_pcb s1 pcb (force_close b))).
  assert (U1 : upd s1 pcb force_close = Some (put_pcb s1 pcb (force_close b))) by (unfold upd; rewrite E; reflexivity).
  unfold force_close, is_state in *. case_bool_decide as D.
  - assert (pres (sk pcb (set_state pcb CLOSE_WAIT (set_rflags (or_flag f TF_GOT_FIN) (set_state pcb st' k)))) (upd s1 pcb (set_tp_state CLOSE_WAIT))) as P
      by (apply sk_upd_state; [reflexivity | exact K]).
    exists (or_flag f TF_GOT_FIN), CLOSE_WAIT. split; [| split; [auto|]].
    + unfold upd in P. rewrite E in P. specialize (P _ eq_refl). cbv [state_in has_self] in P.
      replace (set_rflags (or_flag f TF_GOT_FIN) (set_state pcb CLOSE_WAIT k)) with
        (set_state pcb CLOSE_WAIT (set_rflags (or_flag f TF_GOT_FIN) (set_state pcb st' k))); [exact P|].
      change (set_rflags (or_flag f TF_GOT_FIN) (set_state pcb CLOSE_WAIT (set_state pcb st' k)) =
              set_rflags (or_flag f TF_GOT_FIN) (set_state pcb CLOSE_WAIT k)).
      rewrite set_state_again. reflexivity.
    + right. destruct S1 as [-> | (-> & -> & _)]; [| discriminate (eq_trans (eq_sym St) D)]. split; [congruence | auto].
  - exists (or_flag f TF_GOT_FIN), st'. split; [| split; [auto | destruct S1 as [-> | (-> & -> & _)]; auto]].
    assert (pres (sk pcb (set_rflags (or_flag f TF_GOT_FIN) (set_state pcb st' k))) (upd s1 pcb (fun b => b))) as P
      by (apply sk_upd; [reflexivity | exact K]).
    unfold upd in P. rewrite E in P. exact (P _ eq_refl).
Qed.

#[local] Hint Transparent flag_fin force_close : pres.
#[local] Hint Resolve received_fin received_force : pres.
#[local] Hint Extern 5 (pres (received _ _ _) _) =>
  match goal with R : received ?k ?pcb ?st ?x |- _ =>
    apply (received_keep k pcb st x); [intros; solve [eauto 8 with pres] | exact R] end : pres.
#[local] Hint Extern 5 (received _ _ _ _) =>
  match goal with R : received ?k ?pcb ?st ?x |- _ =>
    apply (received_pure k pcb st x); [intros; solve [eauto 8 with pres] | exact R] end : pres.

Lemma ooseq_ready_received k pcb st (s : istate W X U) : (exists b, tv_pcbs k !! pcb = Some b) ->
  received k pcb st (state_in s) -> pres_turn (received k pcb st) (ooseq_ready_body custom_free pcb s).
Proof. intros B R. unfold ooseq_ready_body. pres_go. Qed.

Lemma received_if k pcb st (c : bool) s s' : received k pcb st s -> received k pcb st s' -> received k pcb st (if c then s else s').
Proof. destruct c; auto. Qed.
#[local] Hint Resolve received_if ooseq_ready_received : pres.

Lemma receive_next_received k pcb st s : (exists b, tv_pcbs k !! pcb = Some b) ->
  received k pcb st s -> pres (received k pcb st) (receive_next custom_free s pcb).
Proof. intros B R. unfold receive_next. pres_go. Qed.
#[local] Hint Resolve receive_next_received : pres.

Lemma receive_received k pcb st s : (exists b, tv_pcbs k !! pcb = Some b) ->
  received k pcb st s -> pres (received k pcb st) (tcp_receive stale custom_free netif_output s pcb).
Proof. intros B R. unfold tcp_receive, receive_data. pres_go. Qed.

(** ** TIME-WAIT *)

Lemma to_time_wait_spec k s pcb la lt : sk pcb k s -> listed k la lt -> pcb ∈ la ->
  pres (fun s' => others pcb (tcp_of s') = others pcb k /\ state_at (tcp_of s') pcb = Some TIME_WAIT /\ listed (tcp_of s') (without pcb la) (pcb :: lt))
    (to_time_wait custom_free s pcb).
Proof.
  intros K L I s' E. change (state_in s') with s'. unfold to_time_wait in E. apply bind_Some in E as (s1 & E1 & E).
  pose proof (purge_sk custom_free k s pcb K s1 E1) as K1. change (sk pcb k s1) in K1. clear s E1 K.
  rewrite <- K1 in L. apply (proj1 (listed_skel _ _ _ _)) in L as (Pa & Pt & Nd). rewrite <- K1, others_skel. clear k K1.
  destruct (path_elem _ _ _ _ Pa I) as [Hp [q Hq]]. unfold nexts in Hq. rewrite lookup_fmap in Hq.
  destruct (tv_pcbs (tcp_of s1) !! pcb) as [b|] eqn:Eb; [| discriminate].
  destruct (rmv_spec s1 ACTIVE pcb b la Eb Hp Pa) as (s2 & E2 & [R1 R2 R3 R4] & _).
  unfold TCP_RMV_ACTIVE in E. rewrite E2 in E. cbn [mbind option_bind] in E. clear E2.
  set (s3 := set_changed s2 1) in *. assert (T3 : tcp_of s3 = set_tv_changed 1 (tcp_of s2)) by apply tcp_of_set_tcp.
  apply bind_Some in E as (s4 & E4 & E). unfold upd in E4. apply bind_Some in E4 as (b3 & Eb3 & E4). injection E4 as <-.
  unfold pcb_at in Eb3. set (s4 := put_pcb _ _ _) in *.
  assert (T4 : tcp_of s4 = set_tv_pcbs (<[pcb := set_tp_state TIME_WAIT b3]> (tv_pcbs (tcp_of s2))) (tcp_of s3)).
  { unfold s4, put_pcb. rewrite tcp_of_set_tcp, T3. reflexivity. }
  assert (E5 : pcb_at s4 pcb = Some (set_tp_state TIME_WAIT b3)).
  { unfold pcb_at. rewrite T4. cbn. apply lookup_insert_eq. }
  destruct (reg_spec s4 TW pcb _ E5) as (s5 & E6 & T5). rewrite E6 in E. injection E as <-. rewrite T5, T4, T3. rewrite T3 in Eb3. cbn in Eb3.
  assert (NL : pcb ∉ lt) by (apply NoDup_app in Nd as (_ & D & _); apply D, I).
  assert (Wt : path (nexts (tcp_of s2)) (tv_tw (tcp_of s2)) lt).
  { change (tv_tw (tcp_of s2)) with (list_head (tcp_of s2) TW). rewrite R3 by discriminate. apply R2; [exact Pt | exact NL |].
    apply NoDup_app in Nd as (_ & D & _). intros x Ix. apply D, Ix. }
  split; [| split].
  - unfold others. rewrite <- R4. unfold rest. cbn. rewrite insert_insert_eq, fmap_insert, delete_insert_eq. reflexivity.
  - unfold state_at. cbn. rewrite lookup_insert_eq. reflexivity.
  - assert (Nx : nexts (set_list_head TW pcb (set_tv_pcbs (<[pcb := set_tp_next (tv_tw (tcp_of s2)) (set_tp_state TIME_WAIT b3)]>
        (<[pcb := set_tp_state TIME_WAIT b3]> (tv_pcbs (tcp_of s2)))) (set_tv_changed 1 (tcp_of s2))))
      = <[pcb := tv_tw (tcp_of s2)]> (nexts (tcp_of s2))).
    { unfold nexts. cbn. rewrite insert_insert_eq, fmap_insert. reflexivity. }
    unfold listed. cbn in Nx |- *. rewrite Nx. split; [apply path_insert_ne; [exact R1 | rewrite elem_without; tauto] | split].
    + apply path_push; assumption.
    + apply NoDup_app in Nd as (N1 & D & N2). apply NoDup_app. split; [apply NoDup_without, N1 | split].
      * intros x [Ix Nx']%elem_without. apply not_elem_of_cons. split; [exact Nx' | apply D, Ix].
      * constructor; assumption.
Qed.

(** ** The transitions *)

(** [pcb] is in the state [st] and the other control blocks are those of [k] but for
    their links; it is on the list for its state, and the lists are the same otherwise. *)
Definition outcome (k : tcp_vars) (pcb : Z) (st : tcp_state) (la lt : list Z) s : Prop :=
  others pcb (tcp_of s) = others pcb k /\ state_at (tcp_of s) pcb = Some st /\
  (if decide (st = TIME_WAIT) then listed (tcp_of s) (without pcb la) (pcb :: lt) else listed (tcp_of s) la lt).

Lemma outcome_sk k f pcb st la lt b s :
  tv_pcbs k !! pcb = Some b -> listed k la lt -> st <> TIME_WAIT ->
  sk pcb (set_rflags f (set_state pcb st k)) s -> outcome k pcb st la lt s.
Proof.
  intros E L N K. unfold outcome. rewrite decide_False by assumption.
  rewrite <- (others_skel pcb (tcp_of s)), <- (state_skel pcb (tcp_of s)), <- (listed_skel pcb (tcp_of s)), K.
  split; [apply others_set_state | split; [apply (state_set_state pcb st k b E) | apply (listed_set_state pcb st k la lt), L]].
Qed.

Lemma set_state_rflags pcb st f st' k : set_state pcb st (set_rflags f (set_state pcb st' k)) = set_rflags f (set_state pcb st k).
Proof. rewrite <- (set_state_again pcb st st' k). reflexivity. Qed.

Lemma got_fin_sk pcb k f s : sk pcb (set_rflags f k) s -> got_fin s = has f TF_GOT_FIN.
Proof. intros K. apply (f_equal (fun t => has (ti_recv_flags (tv_in t)) TF_GOT_FIN)) in K. exact K. Qed.

(** The parts of the state machine. *)
Lemma set_state_outcome k f st1 pcb st la lt b s g :
  tv_pcbs k !! pcb = Some b -> listed k la lt -> st <> TIME_WAIT -> (forall x, bone (g x) = set_tp_state st (bone x)) ->
  sk pcb (set_rflags f (set_state pcb st1 k)) s -> pres (outcome k pcb st la lt) (upd s pcb g).
Proof.
  intros E L N B K. eapply pres_weaken; [| apply (sk_upd_state _ s pcb st g B K)]. intros x Kx. rewrite set_state_rflags in Kx.
  eapply outcome_sk; eassumption.
Qed.

Lemma time_wait_outcome k f st1 pcb la lt b s :
  tv_pcbs k !! pcb = Some b -> listed k la lt -> pcb ∈ la ->
  sk pcb (set_rflags f (set_state pcb st1 k)) s -> pres (outcome k pcb TIME_WAIT la lt) (to_time_wait custom_free s pcb).
Proof.
  intros E L I K. eapply pres_weaken; [| apply (to_time_wait_spec _ s pcb la lt K); [apply (listed_set_state pcb st1 k la lt), L | exact I]].
  intros x (O1 & S1 & L1). split; [| split; assumption]. rewrite O1. change (others pcb (set_rflags ?f ?k)) with (others pcb k).
  apply others_set_state.
Qed.

Lemma ack_now_sk k s pcb : sk pcb k s -> pres (sk pcb k) (upd s pcb tcp_ack_now).
Proof. apply sk_upd. reflexivity. Qed.

Lemma receive_skeleton k s pcb b st s1 :
  sk pcb k s -> tv_pcbs k !! pcb = Some b -> tp_state b = st -> tcp_receive stale custom_free netif_output s pcb = Some s1 -> received k pcb st s1.
Proof.
  intros K E St R1. assert (Rc : received k pcb st s).
  { exists (ti_recv_flags (tv_in k)), st. split; [| auto]. rewrite (set_state_same pcb st k b E St). unfold set_rflags.
    replace (set_ti_recv_flags _ _) with (tv_in k) by (destruct (tv_in k); reflexivity). destruct k; exact K. }
  exact (receive_received k pcb st s (ex_intro _ b E) Rc s1 R1).
Qed.

Lemma process_synchronized_spec k s pcb b st la lt s' :
  sk pcb k s -> tv_pcbs k !! pcb = Some b -> tp_state b = st -> synchronized st -> listed k la lt -> pcb ∈ la ->
  process_synchronized stale custom_free netif_output s pcb st = Some s' ->
  exists s1 b1, tcp_receive stale custom_free netif_output s pcb = Some s1 /\ pcb_at s1 pcb = Some b1 /\
    outcome k pcb (next_state (got_fin s1) (acks_all s1 b1) st) la lt s'.
Proof.
  intros K E St Sy L I R. unfold process_synchronized in R. apply bind_Some in R as (s1 & R1 & R). apply bind_Some in R as (b1 & R2 & R).
  exists s1, b1. split; [exact R1 | split; [exact R2 |]].
  destruct (receive_skeleton k s pcb b st s1 K E St R1) as (f & st1 & K1 & F & S1).
  pose proof (got_fin_sk _ _ _ _ K1) as G. change (state_in s1) with s1 in *. rewrite G in *.
  pose proof (fun g x B => set_state_outcome k f st1 pcb x la lt b s1 g E L B) as Set1.
  pose proof (time_wait_outcome k f st1 pcb la lt b s1 E L I K1) as Tw1.
  assert (Stay : has f TF_GOT_FIN = false -> st <> TIME_WAIT -> outcome k pcb st la lt s1).
  { intros G0 N. destruct S1 as [-> | (_ & _ & G1)]; [| congruence]. apply (outcome_sk k f pcb st la lt b s1 E L N K1). }
  assert (Stay' : st <> ESTABLISHED -> st <> TIME_WAIT -> outcome k pcb st la lt s1).
  { intros N0 N. destruct S1 as [-> | (-> & _ & _)]; [| congruence]. apply (outcome_sk k f pcb st la lt b s1 E L N K1). }
  assert (Ack : forall s2, upd s1 pcb tcp_ack_now = Some s2 -> sk pcb (set_rflags f (set_state pcb st1 k)) s2)
    by (intros s2 Es2; exact (ack_now_sk _ s1 pcb K1 s2 Es2)).
  set (fin := has f TF_GOT_FIN) in *. clearbody fin. remember (acks_all s1 b1) as ak eqn:Eak.
  destruct st; try contradiction; cbn [next_state] in *.
  - destruct fin; [refine (Set1 _ CLOSE_WAIT _ _ K1 s' R); [discriminate | reflexivity] | injection R as <-; apply Stay; [reflexivity | discriminate]].
  - destruct fin.
    + apply bind_Some in R as (s2 & Es2 & R). specialize (Ack s2 Es2).
      assert (A2 : acks_all s2 b1 = ak).
      { rewrite Eak. unfold acks_all, inp. transitivity (has (ti_flags (tv_in (skel pcb (tcp_of s2)))) TCP_ACK && (ti_ackno (tv_in (skel pcb (tcp_of s2))) =? tp_snd_nxt b1)); [reflexivity|].
        rewrite Ack, <- K1. reflexivity. }
      rewrite A2 in R. destruct ak.
      * exact (time_wait_outcome k f st1 pcb la lt b s2 E L I Ack s' R).
      * refine (set_state_outcome k f st1 pcb CLOSING la lt b s2 _ E L _ _ Ack s' R); [discriminate | reflexivity].
    + destruct ak; [refine (Set1 _ FIN_WAIT_2 _ _ K1 s' R); [discriminate | reflexivity] | injection R as <-; apply Stay; [reflexivity | discriminate]].
  - destruct fin; [| injection R as <-; apply Stay; [reflexivity | discriminate]].
    apply bind_Some in R as (s2 & Es2 & R). exact (time_wait_outcome k f st1 pcb la lt b s2 E L I (Ack s2 Es2) s' R).
  - destruct fin; [refine (Set1 _ CLOSE_WAIT _ _ K1 s' R); [discriminate | reflexivity] | injection R as <-; apply Stay; [reflexivity | discriminate]].
  - destruct ak; [exact (Tw1 s' R) | injection R as <-; apply Stay'; discriminate].
  - assert (O : outcome k pcb LAST_ACK la lt s1) by (apply Stay'; discriminate).
    destruct ak; injection R as <-; [| exact O]. unfold outcome, upd_in, set_inp in *. rewrite tcp_of_set_tcp. exact O.
Qed.

(** A reset is accepted when its number is in the window. *)
Definition in_window (s : istate W X U) (b : tcp_pcb) : bool :=
  TCP_SEQ_BETWEEN (ti_seqno (inp s)) (tp_rcv_nxt b) (u32 (tp_rcv_nxt b + tp_rcv_wnd b)).

Lemma stay_outcome pcb s s' b la lt : sk pcb (skel pcb (tcp_of s)) s' -> pcb_at s pcb = Some b -> tp_state b <> TIME_WAIT ->
  listed (tcp_of s) la lt -> outcome (tcp_of s) pcb (tp_state b) la lt s'.
Proof.
  intros K E N L. unfold outcome. rewrite decide_False by assumption.
  rewrite <- (others_skel pcb (tcp_of s')), <- (state_skel pcb (tcp_of s')), <- (listed_skel pcb (tcp_of s')), K.
  rewrite others_skel, state_skel, listed_skel. unfold state_at, pcb_at in *. rewrite E. auto.
Qed.

Lemma touch_sk s pcb : pres (sk pcb (skel pcb (tcp_of s))) (upd s pcb (fun b =>
  let b := if has (tp_flags b) TF_RXCLOSED then b else b |> set_tp_tmr (tv_ticks (tcp_of s)) in b |> set_tp_keep_cnt_sent 0)).
Proof. apply sk_upd; [| reflexivity]. intros b. destruct (has (tp_flags b) TF_RXCLOSED); reflexivity. Qed.

Lemma outcome_skel t pcb st la lt s : outcome (skel pcb t) pcb st la lt s <-> outcome t pcb st la lt s.
Proof. unfold outcome. rewrite others_skel. reflexivity. Qed.

(** ** When the code returns *)

(** What is done for a connection that enters TIME-WAIT before it is moved: the FIN is
    to be acknowledged at once, unless it was acknowledged before, and the queues are
    released. *)
Definition purged s pcb st : option (istate W X U) :=
  s ← (if is_state st CLOSING then Some s else upd s pcb tcp_ack_now); tcp_pcb_purge custom_free s pcb.

Lemma to_time_wait_returns k s pcb la lt : sk pcb k s -> listed k la lt -> pcb ∈ la ->
  is_Some (to_time_wait custom_free s pcb) <-> is_Some (tcp_pcb_purge custom_free s pcb).
Proof.
  intros K L I. unfold to_time_wait. destruct (tcp_pcb_purge custom_free s pcb) as [s1|] eqn:E1; [| split; intros [? Q]; discriminate Q].
  split; [eauto | intros _]. pose proof (purge_sk custom_free k s pcb K s1 E1) as K1. change (sk pcb k s1) in K1.
  rewrite <- K1 in L. apply (proj1 (listed_skel _ _ _ _)) in L as (Pa & _ & _).
  destruct (path_elem _ _ _ _ Pa I) as [Hp [q Hq]]. unfold nexts in Hq. rewrite lookup_fmap in Hq.
  destruct (tv_pcbs (tcp_of s1) !! pcb) as [b|] eqn:Eb; [| discriminate].
  destruct (rmv_spec s1 ACTIVE pcb b la Eb Hp Pa) as (s2 & E2 & [_ _ _ R4] & _).
  cbn [mbind option_bind]. unfold TCP_RMV_ACTIVE. rewrite E2. cbn [mbind option_bind].
  assert (is_Some (pcb_at (set_changed s2 1) pcb)) as [b2 Eb2].
  { unfold pcb_at, set_changed. rewrite tcp_of_set_tcp. apply (f_equal (fun t => tv_pcbs t !! pcb)) in R4. unfold rest in R4. cbn in R4 |- *.
    rewrite !lookup_fmap, Eb in R4. destruct (tv_pcbs (tcp_of s2) !! pcb); [eauto | discriminate R4]. }
  unfold upd at 1. rewrite Eb2. cbn [mbind option_bind]. set (s4 := put_pcb _ _ _).
  assert (E5 : pcb_at s4 pcb = Some (set_tp_state TIME_WAIT b2)).
  { unfold pcb_at, s4, put_pcb. rewrite tcp_of_set_tcp. apply lookup_insert_eq. }
  destruct (reg_spec s4 TW pcb _ E5) as (s5 & E6 & _). rewrite E6. eauto.
Qed.

Lemma acks_all_put s pcb b b1 : acks_all (put_pcb s pcb b) b1 = acks_all s b1.
Proof. unfold acks_all, inp, put_pcb. rewrite tcp_of_set_tcp. reflexivity. Qed.

Lemma process_synchronized_returns k s pcb st la lt s1 b1 :
  sk pcb k s1 -> listed k la lt -> pcb ∈ la -> synchronized st ->
  tcp_receive stale custom_free netif_output s pcb = Some s1 -> pcb_at s1 pcb = Some b1 ->
  is_Some (process_synchronized stale custom_free netif_output s pcb st) <->
  is_Some (if decide (next_state (got_fin s1) (acks_all s1 b1) st = TIME_WAIT) then purged s1 pcb st else Some s1).
Proof.
  intros K L I Sy R1 E1. unfold process_synchronized, purged. rewrite R1. cbn [mbind option_bind]. rewrite E1. cbn [mbind option_bind].
  pose proof (to_time_wait_returns k s1 pcb la lt K L I) as T1.
  assert (U1 : upd s1 pcb tcp_ack_now = Some (put_pcb s1 pcb (tcp_ack_now b1))) by (unfold upd; rewrite E1; reflexivity).
  pose proof (ack_now_sk k s1 pcb K _ U1) as K2. change (sk pcb k (put_pcb s1 pcb (tcp_ack_now b1))) in K2.
  pose proof (to_time_wait_returns k _ pcb la lt K2 L I) as T2.
  destruct st; try contradiction; cbn [next_state]; unfold is_state; destruct (got_fin s1); rewrite ?U1; cbn [mbind option_bind];
    rewrite ?acks_all_put; destruct (acks_all s1 b1); case_decide; try congruence; try case_bool_decide; try congruence;
    cbn [mbind option_bind]; try assumption; unfold upd; rewrite ?put_pcb_at, ?E1; split; eauto.
Qed.

(** The control block when a segment was heard: a sign of life, and the segment size that
    its options give. *)
Definition heard s (b : tcp_pcb) (mss : Z) : tcp_pcb :=
  (if has (tp_flags b) TF_RXCLOSED then b else b |> set_tp_tmr (tv_ticks (tcp_of s))) |> set_tp_keep_cnt_sent 0 |> set_tp_mss mss.

Lemma process_heard s pcb b mss :
  pcb_at s pcb = Some b -> synchronized (tp_state b) -> has (ti_flags (inp s)) TCP_RST = false -> has (ti_flags (inp s)) TCP_SYN = false ->
  parseopt (i_mem s) (ti_tcphdr (inp s)) (tp_mss b) = Some mss ->
  tcp_process stale custom_free netif_output app s pcb =
  (s ← process_synchronized stale custom_free netif_output (put_pcb s pcb (heard s b mss)) pcb (tp_state b); Some (s, ERR_OK)).
Proof.
  intros E Sy F1 F2 M. unfold tcp_process. rewrite E. cbn [mbind option_bind]. rewrite F1, F2. cbn [andb].
  unfold upd at 1. rewrite E. cbn [mbind option_bind]. unfold tcp_parseopt. rewrite put_pcb_at. cbn [mbind option_bind].
  assert (Q : forall c, i_mem (put_pcb s pcb c) = i_mem s /\ inp (put_pcb s pcb c) = inp s)
    by (intros c; unfold inp, put_pcb; rewrite tcp_of_set_tcp; auto).
  match goal with |- context [parseopt (i_mem (put_pcb s pcb ?c))] => destruct (Q c) as [Qm Qi]; rewrite Qm, Qi; assert (tp_mss c = tp_mss b) as -> by (destruct (has (tp_flags b) TF_RXCLOSED); reflexivity) end.
  rewrite M. cbn [mbind option_bind]. unfold upd. rewrite put_pcb_at. cbn [mbind option_bind]. rewrite put_pcb_again. fold (heard s b mss).
  destruct (tp_state b); try contradiction; reflexivity.
Qed.

Lemma heard_sk s pcb b mss : pcb_at s pcb = Some b -> sk pcb (skel pcb (tcp_of s)) (put_pcb s pcb (heard s b mss)).
Proof.
  intros E. assert (R : upd s pcb (fun b => heard s b mss) = Some (put_pcb s pcb (heard s b mss))) by (unfold upd; rewrite E; reflexivity).
  refine (sk_upd (skel pcb (tcp_of s)) s pcb (fun b => heard s b mss) _ eq_refl _ R).
  intros c. unfold heard. destruct (has (tp_flags c) TF_RXCLOSED); reflexivity.
Qed.

(** The connection in a synchronized state, on every way through the code. *)
Lemma process_cases k s pcb b st la lt :
  sk pcb k s -> tv_pcbs k !! pcb = Some b -> tp_state b = st -> synchronized st -> listed k la lt -> pcb ∈ la ->
  let r := s ← process_synchronized stale custom_free netif_output s pcb st; Some (s, ERR_OK) in
  match tcp_receive stale custom_free netif_output s pcb with
  | None => r = None
  | Some s1 => exists b1, pcb_at s1 pcb = Some b1 /\
      let st := next_state (got_fin s1) (acks_all s1 b1) (tp_state b) in
      match (if decide (st = TIME_WAIT) then purged s1 pcb (tp_state b) else Some s1) with
      | None => r = None
      | Some _ => exists s', r = Some (s', ERR_OK) /\ outcome k pcb st la lt s'
      end
  end.
Proof.
  intros K E St Sy L I r. destruct (tcp_receive _ _ _ s pcb) as [s1|] eqn:R1; [| unfold r, process_synchronized; rewrite R1; reflexivity].
  destruct (receive_skeleton k s pcb b st s1 K E St R1) as (f & st1 & K1 & _).
  assert (is_Some (pcb_at s1 pcb)) as [b1 E1].
  { apply (f_equal (fun t => tv_pcbs t !! pcb)) in K1. cbn in K1. rewrite !lookup_alter_eq, E in K1. unfold pcb_at.
    destruct (tv_pcbs (tcp_of s1) !! pcb); [eauto | discriminate K1]. }
  exists b1. split; [exact E1|]. cbv zeta. rewrite St.
  pose proof (process_synchronized_returns _ s pcb st la lt s1 b1 K1 (proj2 (listed_set_state pcb st1 k la lt) L) I Sy R1 E1) as Rt.
  destruct (if decide _ then purged s1 pcb st else Some s1) as [s2|].
  - destruct (proj2 Rt (ex_intro _ s2 eq_refl)) as [s' R]. exists s'. unfold r. rewrite R. split; [reflexivity|].
    destruct (process_synchronized_spec k s pcb b st la lt s' K E St Sy L I R) as (s3 & b3 & R3 & E3 & O).
    rewrite R1 in R3. injection R3 as <-. rewrite E1 in E3. injection E3 as <-. exact O.
  - unfold r. destruct (process_synchronized _ _ _ s pcb st); [| reflexivity]. destruct (proj1 Rt) as [? Q]; [eauto | discriminate Q].
Qed.

(** C12: [tcp_process] follows the state diagram of RFC 793 on a control block in a
    synchronized state that is in the list of active ones.  A reset changes neither its
    state nor the lists, and is reported exactly when its sequence number is in the
    receive window; a SYN changes none either; in both cases [tcp_process] returns.
    Otherwise [tcp_receive] is given the segment in a state that differs from the one before in
    this control block only: its timer is set, unless receiving was shut down, its count
    of keepalives is cleared and its segment size is the one that the options of the
    header give.  When that returns, the control block enters the state that the diagram
    gives for "[tcp_receive] found the FIN of the other end in sequence" (TF_GOT_FIN) and
    "the segment acknowledges all that was sent": [tcp_process] returns ERR_OK, provided
    that, when it enters TIME-WAIT, its queues could be released.  It is moved to the
    front of the list of those in TIME-WAIT exactly when it enters that state.  In every
    case no other control block is changed but for its link, and the lists hold the same
    control blocks otherwise. *)
Theorem tcp_process_transitions s pcb b la lt :
  pcb_at s pcb = Some b -> synchronized (tp_state b) -> listed (tcp_of s) la lt -> pcb ∈ la ->
  let r := tcp_process stale custom_free netif_output app s pcb in
  if has (ti_flags (inp s)) TCP_RST then exists s',
    r = Some (s', if in_window s b then ERR_RST else ERR_OK) /\ outcome (tcp_of s) pcb (tp_state b) la lt s'
  else if has (ti_flags (inp s)) TCP_SYN then exists s',
    r = Some (s', ERR_OK) /\ outcome (tcp_of s) pcb (tp_state b) la lt s'
  else exists mss,
    parseopt (i_mem s) (ti_tcphdr (inp s)) (tp_mss b) = Some mss /\
    match tcp_receive stale custom_free netif_output (put_pcb s pcb (heard s b mss)) pcb with
    | None => r = None
    | Some s1 => exists b1, pcb_at s1 pcb = Some b1 /\
        let st := next_state (got_fin s1) (acks_all s1 b1) (tp_state b) in
        match (if decide (st = TIME_WAIT) then purged s1 pcb (tp_state b) else Some s1) with
        | None => r = None
        | Some _ => exists s', r = Some (s', ERR_OK) /\ outcome (tcp_of s) pcb st la lt s'
        end
    end.
Proof.
  intros E Sy L I r. assert (NT : tp_state b <> TIME_WAIT) by (intros Q; rewrite Q in Sy; exact Sy).
  assert (is_state (tp_state b) SYN_SENT = false /\ is_state (tp_state b) SYN_RCVD = false) as [NS NR]
    by (destruct (tp_state b); try contradiction; auto).
  assert (K0 : sk pcb (skel pcb (tcp_of s)) s) by reflexivity. pose proof (stay_outcome pcb s s b la lt K0 E NT L) as St0.
  destruct (has (ti_flags (inp s)) TCP_RST) eqn:F1.
  { unfold r, tcp_process. rewrite E. cbn [mbind option_bind]. rewrite F1, NS. fold (in_window s b). destruct (in_window s b); [| eauto].
    set (s1 := upd_in s _). assert (E1 : pcb_at s1 pcb = Some b) by (unfold s1, upd_in, set_inp, pcb_at; rewrite tcp_of_set_tcp; exact E).
    destruct (upd s1 pcb _) as [s2|] eqn:R2; [| unfold upd in R2; rewrite E1 in R2; discriminate R2].
    assert (K2 : sk pcb (skel pcb (tcp_of s1)) s2) by (refine (sk_upd (skel pcb (tcp_of s1)) s1 pcb _ _ _ s2 R2); reflexivity).
    pose proof (stay_outcome pcb s1 s2 b la lt K2) as Q. unfold s1, upd_in, set_inp, pcb_at in Q. rewrite tcp_of_set_tcp in Q.
    exists s2. split; [reflexivity | exact (Q E NT L)]. }
  destruct (has (ti_flags (inp s)) TCP_SYN) eqn:F2.
  { unfold r, tcp_process. rewrite E. cbn [mbind option_bind]. rewrite F1, F2, NS, NR. cbn [negb andb].
    destruct (upd s pcb tcp_ack_now) as [s2|] eqn:R2; [| unfold upd in R2; rewrite E in R2; discriminate R2].
    exists s2. split; [reflexivity|]. pose proof (ack_now_sk _ s pcb K0 s2 R2) as K2. auto using stay_outcome. }
  destruct (parseopt_returns (i_mem s) (ti_tcphdr (inp s)) (tp_mss b)) as [mss M]. exists mss. split; [exact M|].
  unfold r. rewrite (process_heard s pcb b mss E Sy F1 F2 M). set (s0 := put_pcb s pcb (heard s b mss)).
  assert (Ks : sk pcb (skel pcb (tcp_of s)) s0) by (exact (heard_sk s pcb b mss E)).
  assert (Eb : tv_pcbs (skel pcb (tcp_of s)) !! pcb = Some (bone b)) by (unfold pcb_at in E; cbn; rewrite lookup_alter_eq, E; reflexivity).
  apply (proj2 (listed_skel pcb _ _ _)) in L. pose proof (process_cases _ s0 pcb (bone b) (tp_state b) la lt Ks Eb eq_refl Sy L I) as Q.
  unfold outcome in *. rewrite others_skel in Q. exact Q.
Qed.

End states.

Import TcpSample.

(** The client of the sample acknowledges all in the state FIN-WAIT-1. *)
Definition closed_sample : state :=
  the (s ← connected; '(s, _) ← tcp_close undefined no_custom link s (tv_active (tcp_of s)); Some s).
Definition acked_sample : state :=
  upd_in closed_sample (fun i => i |> set_ti_flags TCP_ACK |> set_ti_seqno 5001 |> set_ti_ackno 6512 |> set_ti_tcplen 0).

(** What is received: no FIN, all is acknowledged. *)
Definition heard_of (s : state) (p : Z) : option (bool * bool) :=
  b ← pcb_at s p; mss ← parseopt (i_mem s) (ti_tcphdr (inp s)) (tp_mss b);
  s1 ← tcp_receive undefined no_custom link (put_pcb s p (heard s b mss)) p;
  b1 ← pcb_at s1 p; Some (got_fin s1, acks_all s1 b1).

Lemma tcp_process_transitions_witness :
  exists s', tcp_process undefined no_custom link server acked_sample (tv_active (tcp_of acked_sample)) = Some (s', ERR_OK) /\
    outcome (tcp_of acked_sample) (tv_active (tcp_of acked_sample)) FIN_WAIT_2 [tv_active (tcp_of acked_sample)] [] s'.
Proof.
  assert (T : forall (s : state) p, tp_state <$> pcb_at s p = Some FIN_WAIT_1 -> listed (tcp_of s) [p] [] ->
    has (ti_flags (inp s)) TCP_RST = false -> has (ti_flags (inp s)) TCP_SYN = false -> heard_of s p = Some (false, true) ->
    exists s', tcp_process undefined no_custom link server s p = Some (s', ERR_OK) /\ outcome (tcp_of s) p FIN_WAIT_2 [p] [] s').
  { intros s p St L F1 F2 V. destruct (pcb_at s p) as [b|] eqn:E; [| discriminate St]. cbn in St. injection St as St.
    assert (Sy : synchronized (tp_state b)) by (rewrite St; exact Logic.I).
    pose proof (tcp_process_transitions undefined no_custom link server s p b [p] [] E Sy L (list_elem_of_here p [])) as T.
    cbv zeta in T. rewrite F1, F2, St in T. destruct T as (mss & M & T). unfold heard_of in V. rewrite E in V. cbn [mbind option_bind] in V.
    rewrite M in V. cbn [mbind option_bind] in V.
    destruct (tcp_receive undefined no_custom link (put_pcb s p (heard s b mss)) p) as [s1|]; [| discriminate V].
    destruct T as (b1 & E1 & T). cbn [mbind option_bind] in V. rewrite E1 in V. cbn [mbind option_bind] in V.
    assert (got_fin s1 = false /\ acks_all s1 b1 = true) as [G A] by (split; congruence). rewrite G, A in T. exact T. }
  apply T; try (vm_compute; reflexivity). split; [| split; [constructor | apply NoDup_singleton]].
  apply (path_cons _ _ 0); [vm_compute; discriminate | vm_compute; reflexivity | constructor].
Defined.


End TcpStates.
