(* ===== verification/TcpWindow.v ===== *)
(** Sequence numbers and the receive window of TCP.

    The comparisons of sequence numbers (tcp_impl.h) are those of unbounded
    positions in the stream while these are less than 2^31 apart.  The fields of a
    control block that describe the receive window, with the functions of tcp.c,
    tcp_in.c and tcp_out.c that change them, refine a window over unbounded
    positions. *)

From stdpp Require Import base tactics numbers list gmap.
From Stdlib Require Import ZArith Lia.
From S2P Require Import Prelude ByteOrder Stats Linked PbufDefs NetifDefs Allocator Mem Memp PbufMem Pbuf IpDefs IpOutput TcpDefs TcpSeg TcpOut Tcp TcpIn.

Local Open Scope Z_scope.

Module TcpWindow.
Import TcpDefs TcpSeg TcpOut Tcp TcpIn.

(** ** Sequence numbers *)

Definition HALF : Z := 2147483648.

(** [x] and [y] are positions that can be compared. *)
Definition near (x y : Z) : Prop := - HALF <= x - y < HALF.

Lemma u32_sub x y : u32 (u32 x - u32 y) = u32 (x - y).
Proof. unfold u32. rewrite <- Zminus_mod. reflexivity. Qed.

Lemma u32_add x y : u32 (u32 x + y) = u32 (x + y).
Proof. unfold u32. apply Zplus_mod_idemp_l. Qed.

Lemma s32_u32 x : - HALF <= x < HALF -> s32 (u32 x) = x.
Proof. unfold s32, u32, HALF. intros. repeat case_match; bool_to_prop; zlia. Qed.

Lemma seq_diff x y : near x y -> s32 (u32 (u32 x - u32 y)) = x - y.
Proof. intros. rewrite u32_sub. apply s32_u32. assumption. Qed.

Lemma seq_compare x y : near x y ->
  TCP_SEQ_LT (u32 x) (u32 y) = (x <? y) /\ TCP_SEQ_LEQ (u32 x) (u32 y) = (x <=? y) /\
  TCP_SEQ_GT (u32 x) (u32 y) = (y <? x) /\ TCP_SEQ_GEQ (u32 x) (u32 y) = (y <=? x).
Proof.
  intros N. unfold TCP_SEQ_LT, TCP_SEQ_LEQ, TCP_SEQ_GT, TCP_SEQ_GEQ. rewrite (seq_diff _ _ N).
  repeat split; apply Bool.eq_true_iff_eq; rewrite ?Z.ltb_lt, ?Z.leb_le; lia.
Qed.

Lemma seq_gt x y : near x y -> TCP_SEQ_GT (u32 x) (u32 y) = (y <? x).
Proof. intros N. apply (seq_compare x y N). Qed.

Lemma seq_geq x y : near x y -> TCP_SEQ_GEQ (u32 x) (u32 y) = (y <=? x).
Proof. intros N. apply (seq_compare x y N). Qed.

(** C14: The sequence number comparisons TCP_SEQ_LT, LEQ, GT, GEQ and BETWEEN of the
    32-bit numbers of positions in the stream agree with the order of the
    positions, also where the numbers wrap around, as long as the positions are less
    than 2^31 apart. *)
Theorem seq_order_correct (x y z : Z) : near x y -> near x z ->
  TCP_SEQ_LT (u32 x) (u32 y) = (x <? y) /\ TCP_SEQ_LEQ (u32 x) (u32 y) = (x <=? y) /\
  TCP_SEQ_GT (u32 x) (u32 y) = (y <? x) /\ TCP_SEQ_GEQ (u32 x) (u32 y) = (y <=? x) /\
  TCP_SEQ_BETWEEN (u32 x) (u32 y) (u32 z) = ((y <=? x) && (x <=? z)).
Proof.
  intros Ny Nz. destruct (seq_compare x y Ny) as (A & B & C & D), (seq_compare x z Nz) as (_ & E & _).
  unfold TCP_SEQ_BETWEEN. rewrite A, B, C, D, E. auto.
Qed.

Lemma seq_order_correct_witness :
  near 4294967300 4294967290 /\ near 4294967300 4294967310 /\
  TCP_SEQ_LT (u32 4294967290) (u32 4294967300) = true /\
  TCP_SEQ_BETWEEN (u32 4294967300) (u32 4294967290) (u32 4294967310) = true.
Proof.
  assert (A : near 4294967300 4294967290) by (unfold near, HALF; lia).
  assert (B : near 4294967300 4294967310) by (unfold near, HALF; lia).
  split; [exact A | split; [exact B | split; [reflexivity |]]].
  rewrite (proj2 (proj2 (proj2 (proj2 (seq_order_correct 4294967300 4294967290 4294967310 A B))))). reflexivity.
Defined.

(** ** The window of unbounded positions *)

(** The next position expected, the room for data behind it, the room to announce
    and the right edge that was announced last. *)
Record window := mkWindow { w_nxt : Z; w_size : Z; w_ann : Z; w_edge : Z }.

(** The room to announce: all of it if the right edge moves far enough, else what is
    left of the room announced before. *)
Definition w_update (mss : Z) (w : window) : window :=
  let ann := if w_edge w + Z.min (TCP_WND / 2) mss <=? w_nxt w + w_size w then w_size w
             else Z.max 0 (w_edge w - w_nxt w) in
  mkWindow (w_nxt w) (w_size w) ann (w_edge w).

(** What happens to a window: data is received in sequence, the application takes
    data, a segment is sent, the FIN is passed to the application. *)
Inductive wstep := W_TAKE (n : Z) | W_OPEN (n : Z) | W_ANNOUNCE | W_FIN.

Definition w_step (mss : Z) (w : window) (x : wstep) : window :=
  match x with
  | W_TAKE n => w_update mss (mkWindow (w_nxt w + n) (w_size w - n) (w_ann w) (w_edge w))
  | W_OPEN n => w_update mss (mkWindow (w_nxt w) (Z.min TCP_WND (w_size w + n)) (w_ann w) (w_edge w))
  | W_ANNOUNCE => mkWindow (w_nxt w) (w_size w) (w_ann w) (w_nxt w + w_ann w)
  | W_FIN => mkWindow (w_nxt w) (Z.min TCP_WND (w_size w + 1)) (w_ann w) (w_edge w)
  end.

(** The same steps in the fields of a control block. *)
Definition pcb_step (b : tcp_pcb) (x : wstep) : tcp_pcb :=
  match x with
  | W_TAKE n => take_wnd (u32 (tp_rcv_nxt b + n)) n b
  | W_OPEN n => (tcp_update_rcv_ann_wnd (open_wnd n b)).1
  | W_ANNOUNCE => announce b
  | W_FIN => grow_wnd b
  end.

(** Data fits the window, the application takes at most 16 bits of data that do not
    overflow the field, and the right edge is less than 2^31 from the announced one. *)
Definition admissible (w : window) (x : wstep) : Prop :=
  match x with W_TAKE n => 0 <= n <= w_size w | W_OPEN n => 0 <= n <= 65535 - TCP_WND | _ => True end.

Fixpoint fits (mss : Z) (w : window) (h : list wstep) : Prop :=
  match h with
  | [] => True
  | x :: h =>
      admissible w x /\ w_nxt (w_step mss w x) + w_size (w_step mss w x) - w_edge w < HALF /\ fits mss (w_step mss w x) h
  end.

Definition shows (b : tcp_pcb) (w : window) : Prop :=
  tp_rcv_nxt b = u32 (w_nxt w) /\ tp_rcv_wnd b = w_size w /\ tp_rcv_ann_wnd b = w_ann w /\
  tp_rcv_ann_right_edge b = u32 (w_edge w).

(** What is announced is what there is at most, and does not take anything back. *)
Definition w_ok (w : window) : Prop :=
  0 <= w_ann w <= w_size w /\ w_size w <= TCP_WND /\ w_edge w <= w_nxt w + w_ann w.

(** No edge moves to the left. *)
Definition w_grows (w v : window) : Prop :=
  w_edge w <= w_edge v /\ w_nxt w <= w_nxt v /\ w_nxt w + w_size w <= w_nxt v + w_size v /\
  w_edge w <= w_nxt v + w_ann v.

Lemma w_step_ok mss w x : 0 <= mss -> w_ok w -> admissible w x -> w_ok (w_step mss w x) /\ w_grows w (w_step mss w x).
Proof.
  unfold w_ok, w_grows, admissible. change TCP_WND with 2144. intros M (A & S1 & E) G.
  destruct w as [nxt sz ann edge], x; cbn in *; repeat case_match; bool_to_prop;
    change TCP_WND with 2144 in *; change (2144 / 2) with 1072 in *; lia.
Qed.

Lemma LWIP_MIN_min x y : LWIP_MIN x y = Z.min x y.
Proof. unfold LWIP_MIN. case_match; bool_to_prop; lia. Qed.

(** [tcp_update_rcv_ann_wnd] computes the room to announce. *)
Lemma update_shows mss b nxt sz ann edge :
  tp_mss b = mss -> 0 <= mss -> tp_rcv_nxt b = u32 nxt -> tp_rcv_wnd b = sz -> tp_rcv_ann_right_edge b = u32 edge ->
  0 <= sz <= TCP_WND -> 0 <= nxt + sz - edge < HALF ->
  shows (tcp_update_rcv_ann_wnd b).1 (w_update mss (mkWindow nxt sz ann edge)).
Proof.
  change TCP_WND with 2144. intros Em M En Es Ee S1 G. unfold tcp_update_rcv_ann_wnd, w_update, shows. cbn [w_nxt w_size w_ann w_edge].
  change TCP_WND with 2144. change (2144 / 2) with 1072. rewrite LWIP_MIN_min, Em, En, Es, Ee, !u32_add. unfold HALF in *.
  rewrite seq_geq by (unfold near, HALF; lia). rewrite seq_gt by (unfold near, HALF; lia).
  repeat case_match; bool_to_prop; cbn; repeat split; try assumption; try lia.
  rewrite u32_sub, u32_id, u16_id; lia.
Qed.

Lemma update_mss b : tp_mss (tcp_update_rcv_ann_wnd b).1 = tp_mss b.
Proof. unfold tcp_update_rcv_ann_wnd. repeat case_match; reflexivity. Qed.

Lemma pcb_step_mss b x : tp_mss (pcb_step b x) = tp_mss b.
Proof. destruct x; cbn; unfold take_wnd, grow_wnd; rewrite ?update_mss; repeat case_match; reflexivity. Qed.

Lemma pcb_step_shows b w x :
  0 <= tp_mss b -> shows b w -> w_ok w -> admissible w x ->
  w_nxt (w_step (tp_mss b) w x) + w_size (w_step (tp_mss b) w x) - w_edge w < HALF ->
  shows (pcb_step b x) (w_step (tp_mss b) w x).
Proof.
  intros M (En & Es & Ea & Ee) (A & S1 & E) G D.
  destruct w as [nxt sz ann edge], x; cbn [pcb_step w_step w_nxt w_size w_ann w_edge admissible w_update] in *.
  - unfold take_wnd.
    apply (update_shows (tp_mss b) _ (nxt + n) (sz - n) ann edge); cbn; try assumption; try reflexivity; try lia.
    + rewrite En. apply u32_add.
    + rewrite Es. apply u16_id. change TCP_WND with 2144 in *. lia.
  - change TCP_WND with 2144 in *.
    apply (update_shows (tp_mss b) _ nxt (Z.min 2144 (sz + n)) ann edge); cbn; try assumption; try reflexivity; try lia.
    + rewrite Es, u16_id by lia. change TCP_WND with 2144. case_match; bool_to_prop; lia.
    + change TCP_WND with 2144. lia.
  - unfold shows, announce. cbn. rewrite En, Ea, u32_add. auto.
  - unfold shows, grow_wnd. change TCP_WND with 2144 in *. rewrite Es. cbn.
    case_match; bool_to_prop; cbn; repeat split; try assumption; try lia. rewrite u16_id; lia.
Qed.

(** C13: The receive window of a control block is a window over unbounded positions, over
    every sequence of what tcp_recved, tcp_receive, the sending functions and the delivery
    of a FIN do to it in which data that is received in sequence fits the window,
    the application gives back at most 65535 - TCP_WND bytes at a time, and the right edge
    of the window stays within 2^31 of the one announced last.  (The code cuts a segment
    that arrives in sequence to the window, but not one that was queued.)  The announced
    room is never more than the room there is, which is at most TCP_WND, and neither the
    announced right edge nor the right edge of the window ever moves to the left. *)
Theorem receive_window_refines (h : list wstep) (b : tcp_pcb) (w : window) :
  0 <= tp_mss b -> shows b w -> w_ok w -> fits (tp_mss b) w h ->
  let b' := fold_left pcb_step h b in
  let w' := fold_left (w_step (tp_mss b)) h w in
  shows b' w' /\ w_ok w' /\ w_edge w <= w_edge w' /\ w_nxt w + w_size w <= w_nxt w' + w_size w'.
Proof.
  revert b w. induction h as [|x h IH]; intros b w M Sh Ok F; cbn [fold_left].
  - repeat split; try apply Sh; try apply Ok; lia.
  - destruct F as (G & D & F). destruct (w_step_ok (tp_mss b) w x M Ok G) as [Ok' (E1 & E2 & E3 & _)].
    pose proof (pcb_step_shows b w x M Sh Ok G D) as Sh'.
    specialize (IH (pcb_step b x) (w_step (tp_mss b) w x)). rewrite pcb_step_mss in IH.
    destruct (IH M Sh' Ok' F) as (S2 & O2 & I1 & I2). repeat split; try apply S2; try apply O2; lia.
Qed.

(** A control block as [tcp_listen_input] sets it up, near the end of the sequence
    numbers. *)
Definition sample_pcb : tcp_pcb :=
  new_pcb 1 6510 0 0 |> set_tp_rcv_nxt 4294967000 |> set_tp_rcv_ann_right_edge 4294967000.
Definition sample_history : list wstep :=
  [W_ANNOUNCE; W_TAKE 500; W_ANNOUNCE; W_TAKE 536; W_OPEN 1036; W_ANNOUNCE; W_TAKE 1; W_FIN].

Lemma receive_window_refines_witness :
  let w := mkWindow 4294967000 TCP_WND TCP_WND 4294967000 in
  shows sample_pcb w /\ fits (tp_mss sample_pcb) w sample_history /\
  tp_rcv_nxt (fold_left pcb_step sample_history sample_pcb) = 741 /\
  shows (fold_left pcb_step sample_history sample_pcb) (fold_left (w_step (tp_mss sample_pcb)) sample_history w).
Proof.
  intros w. assert (A : shows sample_pcb w) by (repeat split; reflexivity).
  assert (B : fits (tp_mss sample_pcb) w sample_history) by (vm_compute; repeat split; congruence).
  split; [exact A | split; [exact B | split; [vm_compute; reflexivity |]]].
  apply (receive_window_refines sample_history sample_pcb w); [vm_compute; congruence | exact A | | exact B].
  vm_compute. repeat split; congruence.
Defined.

End TcpWindow.
