(* ===== verification/TcpDemux.v ===== *)
(** Which control block a segment reaches: the searches of [tcp_input]
    (src/core/tcp_in.c) on the lists of addresses, and moving what was found to the front. *)

From stdpp Require Import base tactics numbers list gmap.
From Stdlib Require Import ZArith Lia.
From S2P Require Import Prelude ByteOrder Stats Linked PbufDefs NetifDefs InetChksum Allocator Mem Memp PbufMem Pbuf IpAddr IpDefs IpOutput TcpDefs TcpSeg TcpOut Tcp TcpIn TcpSample Pres TcpFrame TcpLists.

Local Open Scope Z_scope.

Module TcpDemux.
Import ByteOrder Linked Memp Pbuf IpDefs TcpDefs TcpSeg TcpOut Tcp TcpIn TcpFrame TcpLists.

(** The first address of a list whose structure has a property. *)
Definition first {A} (m : gmap Z A) (f : A -> bool) (l : list Z) : option Z :=
  List.find (fun a => match m !! a with Some b => f b | None => false end) l.

(** The element in front of [x], 0 if it is the first. *)
Fixpoint before (x : Z) (prev : Z) (l : list Z) : Z :=
  match l with [] => 0 | y :: l => if y =? x then prev else before x y l end.

Lemma find_pcb_spec {A} (nxt : A -> Z) (m : gmap Z A) f h l : path (nxt <$> m) h l ->
  find_pcb nxt m f h = Some (match first m f l with Some x => (x, before x 0 l) | None => (0, 0) end).
Proof.
  intros P. destruct (path_linked nxt m h l P) as (l' & L & <-). unfold find_pcb. rewrite (for_list_spec nxt _ _ _ _ _ _ L). f_equal.
  pose proof (linked_NoDup _ _ _ _ L) as Nd. clear P.
  cut (forall prev, fold_until (fun prev q b => if f b then inr (q, prev) else inl q) (fun _ => (0, 0)) prev l' =
    match first m f l'.*1 with Some x => (x, before x prev l'.*1) | None => (0, 0) end); [intros C; apply C|].
  induction L as [|p a l' Hp Ha L IH]; intros prev; [reflexivity|]. cbn in Nd. apply NoDup_cons in Nd as [Ni Nd]. specialize (IH Nd p).
  cbn [fold_until fmap list_fmap fst first List.find before]. rewrite Ha. destruct (f a); [rewrite Z.eqb_refl; reflexivity|].
  rewrite IH. fold (first m f l'.*1). destruct (first m f l'.*1) as [x|] eqn:F; [| reflexivity].
  apply find_some in F as [I _]. apply list_elem_of_In in I. rewrite (proj2 (Z.eqb_neq p x)) by congruence. reflexivity.
Qed.

(** ** Moving to the front *)

Lemma before_split x prev l : x ∈ l -> NoDup l ->
  (exists l', l = x :: l' /\ before x prev l = prev) \/ (exists l1 r l2, l = l1 ++ r :: x :: l2 /\ before x prev l = r).
Proof.
  revert prev. induction l as [|y l IH]; intros prev I Nd; [by apply not_elem_of_nil in I|]. cbn [before].
  apply NoDup_cons in Nd as [Ni Nd]. destruct (Z.eqb_spec y x) as [->|N]; [left; eauto|].
  apply elem_of_cons in I as [->|I]; [congruence|]. right. destruct (IH y I Nd) as [(l' & -> & ->) | (l1 & r & l2 & -> & ->)].
  - exists [], y, l'. auto.
  - exists (y :: l1), r, l2. auto.
Qed.

Lemma path_front f h l1 r x y l2 : path f h (l1 ++ r :: x :: l2) -> f !! x = Some y ->
  path (<[x := h]> (<[r := y]> f)) x (x :: l1 ++ r :: l2).
Proof.
  intros P E. pose proof (path_NoDup _ _ _ P) as Nd.
  assert (Ix : x ∈ l1 ++ r :: x :: l2) by (apply elem_of_app; right; apply elem_of_cons; right; apply elem_of_cons; auto).
  apply path_push; [eapply path_cut; eassumption | apply (path_elem _ _ _ _ P Ix) |].
  change (r :: x :: l2) with ([r] ++ x :: l2) in Nd. rewrite app_assoc in Nd. apply NoDup_app in Nd as (_ & D & N2).
  apply NoDup_cons in N2 as [N2 _]. intros I. apply elem_of_app in I as [I|I].
  - apply (D x); [apply elem_of_app; auto | apply elem_of_cons; auto].
  - apply elem_of_cons in I as [->|I]; [| exact (N2 I)]. apply (D r); [apply elem_of_app; right | ]; apply elem_of_cons; auto.
Qed.

Lemma without_front x l1 r l2 : NoDup (l1 ++ r :: x :: l2) -> without x (l1 ++ r :: x :: l2) = l1 ++ r :: l2.
Proof. intros Nd. change (r :: x :: l2) with ([r] ++ x :: l2) in *. rewrite app_assoc in *. rewrite without_mid by assumption. rewrite <- app_assoc. reflexivity. Qed.

Lemma without_first x l : NoDup (x :: l) -> without x (x :: l) = l.
Proof. exact (without_mid x [] l). Qed.

(** [pcb] of the active list [L] is in front. *)
Record fronted (t t' : tcp_vars) (pcb : Z) (L : list Z) : Prop := {
  fr_list : path (nexts t') (tv_active t') (pcb :: without pcb L);
  fr_other : forall h L', path (nexts t) h L' -> (forall q, q ∈ L -> q ∉ L') -> path (nexts t') h L';
  fr_heads : tv_tw t' = tv_tw t /\ tv_bound t' = tv_bound t;
  fr_rest : rest t' = rest t
}.

(** The variables but for the links of the listening control blocks. *)
Definition listen_nexts (t : tcp_vars) : gmap Z Z := lp_next <$> tv_lpcbs t.
Definition listen_rest (t : tcp_vars) : tcp_vars := t |> set_tv_lpcbs (set_lp_next 0 <$> tv_lpcbs t) |> set_tv_listen 0.

Record listen_fronted (t t' : tcp_vars) (lpcb : Z) (L : list Z) : Prop := {
  lf_list : path (listen_nexts t') (tv_listen t') (lpcb :: without lpcb L);
  lf_rest : listen_rest t' = listen_rest t
}.

Lemma fronted_head t pcb L : path (nexts t) (tv_active t) (pcb :: L) -> fronted t t pcb (pcb :: L).
Proof. intros P. split; auto. rewrite (without_first pcb L (path_NoDup _ _ _ P)). exact P. Qed.

Lemma listen_fronted_head t lpcb L : path (listen_nexts t) (tv_listen t) (lpcb :: L) -> listen_fronted t t lpcb (lpcb :: L).
Proof. intros P. split; auto. rewrite (without_first lpcb L (path_NoDup _ _ _ P)). exact P. Qed.

(** Two links are changed and the head is. *)
Lemma fronted_mid t pcb b r br l1 l2 :
  path (nexts t) (tv_active t) (l1 ++ r :: pcb :: l2) -> tv_pcbs t !! pcb = Some b -> tv_pcbs t !! r = Some br -> r <> pcb ->
  fronted t (t |> set_tv_pcbs (<[pcb := set_tp_next (tv_active t) b]> (<[r := set_tp_next (tp_next b) br]> (tv_pcbs t)))
               |> set_tv_active pcb) pcb (l1 ++ r :: pcb :: l2).
Proof.
  intros P E Er N. set (t' := set_tv_active _ _).
  assert (X : nexts t' = <[pcb := tv_active t]> (<[r := tp_next b]> (nexts t))) by (unfold nexts; cbn; rewrite !fmap_insert; reflexivity).
  split.
  - rewrite X, (without_front pcb l1 r l2 (path_NoDup _ _ _ P)). apply path_front; [exact P | apply nexts_lookup, E].
  - intros h L' P' D. rewrite X.
    apply path_insert_ne; [apply path_insert_ne; [exact P'|] |]; apply D, elem_of_app; right; repeat (apply elem_of_cons; auto; right).
  - auto.
  - assert (Q : set_tp_next 0 <$> tv_pcbs t' = set_tp_next 0 <$> tv_pcbs t).
    { cbn. rewrite (fmap_insert_same (set_tp_next 0) _ pcb b); [apply (fmap_insert_same (set_tp_next 0) _ r br); auto | | reflexivity].
      rewrite lookup_insert_ne by congruence. exact E. }
    unfold rest. rewrite Q. reflexivity.
Qed.

Lemma listen_fronted_mid t lpcb b r br l1 l2 :
  path (listen_nexts t) (tv_listen t) (l1 ++ r :: lpcb :: l2) -> tv_lpcbs t !! lpcb = Some b -> tv_lpcbs t !! r = Some br -> r <> lpcb ->
  listen_fronted t (t |> set_tv_lpcbs (<[lpcb := set_lp_next (tv_listen t) b]> (<[r := set_lp_next (lp_next b) br]> (tv_lpcbs t)))
               |> set_tv_listen lpcb) lpcb (l1 ++ r :: lpcb :: l2).
Proof.
  intros P E Er N. set (t' := set_tv_listen _ _).
  assert (X : listen_nexts t' = <[lpcb := tv_listen t]> (<[r := lp_next b]> (listen_nexts t))) by (unfold listen_nexts; cbn; rewrite !fmap_insert; reflexivity).
  split.
  - rewrite X, (without_front lpcb l1 r l2 (path_NoDup _ _ _ P)). apply path_front; [exact P |].
    unfold listen_nexts. rewrite lookup_fmap, E. reflexivity.
  - assert (Q : set_lp_next 0 <$> tv_lpcbs t' = set_lp_next 0 <$> tv_lpcbs t).
    { cbn. rewrite (fmap_insert_same (set_lp_next 0) _ lpcb b); [apply (fmap_insert_same (set_lp_next 0) _ r br); auto | | reflexivity].
      rewrite lookup_insert_ne by congruence. exact E. }
    unfold listen_rest. rewrite Q. reflexivity.
Qed.

Lemma mid_distinct {A} (l1 : list A) r x l2 : NoDup (l1 ++ r :: x :: l2) -> r <> x.
Proof. intros (_ & _ & Nd)%NoDup_app. apply NoDup_cons in Nd as [Nd _]. intros ->. apply Nd, elem_of_cons. auto. Qed.

Lemma path_at {A} (nxt : A -> Z) (m : gmap Z A) h l x : path (nxt <$> m) h l -> x ∈ l -> x <> 0 /\ exists b, m !! x = Some b.
Proof.
  intros P I. destruct (path_elem _ _ _ _ P I) as [N [q Q]]. split; [exact N|]. rewrite lookup_fmap in Q.
  destruct (m !! x) as [b|]; [eauto | discriminate].
Qed.

Section demux.
Context {W X U : Type} `{MemSystem W} `{HasTcp U} `{MempStats W}.
Context (stale : Z -> Z) (custom_free : pstate W -> Z -> option (pstate W)).
Context (netif_output : X -> pstate W -> Z -> netif -> Z -> Z -> option (X * pstate W * Z)).
Context (app : tcp_app (istate W X U)).
Implicit Type s : istate W X U.

Lemma active_front_spec s pcb L : path (nexts (tcp_of s)) (tv_active (tcp_of s)) L -> pcb ∈ L ->
  exists t, active_front s pcb (before pcb 0 L) = Some (set_tcp s t) /\ fronted (tcp_of s) t pcb L.
Proof.
  intros P I. pose proof (path_NoDup _ _ _ P) as Nd. unfold active_front.
  destruct (before_split pcb 0 L I Nd) as [(L' & -> & ->) | (l1 & r & l2 & -> & ->)].
  { exists (tcp_of s). rewrite set_tcp_id. split; [reflexivity | apply fronted_head, P]. }
  destruct (path_at tp_next _ _ _ pcb P I) as [_ [b E]].
  destruct (path_at tp_next _ _ _ r P) as [Nr [br Er]]; [apply elem_of_app; right; apply elem_of_cons; auto|].
  pose proof (mid_distinct _ _ _ _ Nd) as N.
  rewrite (proj2 (Z.eqb_neq _ _) Nr). unfold upd, pcb_at. rewrite E. cbn [mbind option_bind]. rewrite Er. cbn [mbind option_bind].
  unfold put_pcb. rewrite !tcp_of_set_tcp. cbn. rewrite lookup_insert_ne, E by congruence. cbn. rewrite !tcp_of_set_tcp, !set_tcp_again.
  eexists. split; [reflexivity|]. exact (fronted_mid _ pcb b r br l1 l2 P E Er N).
Qed.

Lemma listen_front_spec s lpcb L : path (listen_nexts (tcp_of s)) (tv_listen (tcp_of s)) L -> lpcb ∈ L ->
  exists t, listen_front s lpcb (before lpcb 0 L) = Some (set_tcp s t) /\ listen_fronted (tcp_of s) t lpcb L.
Proof.
  intros P I. pose proof (path_NoDup _ _ _ P) as Nd. unfold listen_front.
  destruct (before_split lpcb 0 L I Nd) as [(L' & -> & ->) | (l1 & r & l2 & -> & ->)].
  { exists (tcp_of s). rewrite set_tcp_id. split; [reflexivity | apply listen_fronted_head, P]. }
  destruct (path_at lp_next _ _ _ lpcb P I) as [_ [b E]].
  destruct (path_at lp_next _ _ _ r P) as [Nr [br Er]]; [apply elem_of_app; right; apply elem_of_cons; auto|].
  pose proof (mid_distinct _ _ _ _ Nd) as N.
  rewrite (proj2 (Z.eqb_neq _ _) Nr). unfold lpcb_at. rewrite E. cbn [mbind option_bind]. rewrite Er. cbn [mbind option_bind].
  unfold put_lpcb. rewrite !tcp_of_set_tcp. cbn. rewrite lookup_insert_ne, E by congruence. cbn. rewrite !tcp_of_set_tcp, !set_tcp_again.
  eexists. split; [reflexivity|]. exact (listen_fronted_mid _ lpcb b r br l1 l2 P E Er N).
Qed.

(** C16: a segment that passed the checks of [tcp_input] reaches the first active
    connection with its four addresses, which is moved to the front of the active list;
    else the first one in TIME-WAIT with them; else the first listening control block of
    its port and address, which is moved to the front of its list; and is answered with a
    reset if there is none of these, unless it is one.  Moving keeps every list and
    everything but the links. *)
Theorem tcp_input_demultiplexes s p la lt ll :
  path (nexts (tcp_of s)) (tv_active (tcp_of s)) la -> path (nexts (tcp_of s)) (tv_tw (tcp_of s)) lt ->
  path (listen_nexts (tcp_of s)) (tv_listen (tcp_of s)) ll ->
  match first (tv_pcbs (tcp_of s)) (conn_match s) la with
  | Some pcb => exists t, fronted (tcp_of s) t pcb la /\
      input_demux stale custom_free netif_output app s p = input_active stale custom_free netif_output app (set_tcp s t) pcb p
  | None =>
      match first (tv_pcbs (tcp_of s)) (conn_match s) lt with
      | Some pcb => input_demux stale custom_free netif_output app s p =
          ('(s, _) ← tcp_timewait_input stale custom_free netif_output s pcb; i_free custom_free s p)
      | None =>
          match first (tv_lpcbs (tcp_of s)) (listen_match s) ll with
          | Some lpcb => exists t, listen_fronted (tcp_of s) t lpcb ll /\
              input_demux stale custom_free netif_output app s p =
                ('(s, _) ← tcp_listen_input stale custom_free netif_output app (set_tcp s t) lpcb; i_free custom_free s p)
          | None => input_demux stale custom_free netif_output app s p =
              (s ← (if has (TCPH_FLAGS (i_mem s) (ti_tcphdr (inp s))) TCP_RST then Some s
                    else reply_rst stale custom_free netif_output (TCP_STATS_INC c_drop (TCP_STATS_INC c_proterr s)));
               i_free custom_free s p)
          end
      end
  end.
Proof.
  intros Pa Pt Pl. unfold input_demux. rewrite (find_pcb_spec tp_next _ _ _ _ Pa), (find_pcb_spec tp_next _ _ _ _ Pt), (find_pcb_spec lp_next _ _ _ _ Pl).
  cbn [mbind option_bind]. destruct (first _ _ la) as [pcb|] eqn:Fa.
  { apply find_some in Fa as [I _]. apply list_elem_of_In in I. destruct (path_at tp_next _ _ _ pcb Pa I) as [N _].
    rewrite (proj2 (Z.eqb_neq _ _) N). destruct (active_front_spec s pcb la Pa I) as (t & Et & F). cbn [negb]. rewrite Et. exists t. auto. }
  destruct (first _ _ lt) as [pcb|] eqn:Ft.
  { apply find_some in Ft as [I _]. apply list_elem_of_In in I. destruct (path_at tp_next _ _ _ pcb Pt I) as [N _].
    rewrite (proj2 (Z.eqb_neq _ _) N). reflexivity. }
  destruct (first _ _ ll) as [lpcb|] eqn:Fl; [| reflexivity].
  apply find_some in Fl as [I _]. apply list_elem_of_In in I. destruct (path_at lp_next _ _ _ lpcb Pl I) as [N _].
  rewrite (proj2 (Z.eqb_neq _ _) N). destruct (listen_front_spec s lpcb ll Pl I) as (t & Et & F). cbn [negb Z.eqb]. rewrite Et. exists t. auto.
Qed.

End demux.

(** Two clients of the sample server are connected, and the first one sends a segment. *)
Import TcpSample.

Definition arriving : state * Z :=
  default (initial, 0) (s ← two_clients; '(s, p) ← arrived s (segment 1000 7 5001 6511 24 8192 [] hello);
                        '(s, _) ← input_check s p 1; Some (s, p)).

Lemma tcp_input_demultiplexes_witness :
  let s := arriving.1 in
  let p := arriving.2 in
  let t := tcp_of s in
  let second := tv_active t in
  exists client t', first (tv_pcbs t) (conn_match s) [second; client] = Some client /\ client <> second /\
    fronted t t' client [second; client] /\
    input_demux undefined no_custom link server s p = input_active undefined no_custom link server (set_tcp s t') client p.
Proof.
  intros s p t second. destruct (nexts t !! second) as [client|] eqn:E; [| exfalso; revert E; vm_compute; discriminate].
  assert (Ec : client = default 0 (nexts t !! second)) by (rewrite E; reflexivity). clear E.
  assert (F : first (tv_pcbs t) (conn_match s) [second; client] = Some client) by (rewrite Ec; vm_compute; reflexivity).
  assert (N : client <> second) by (rewrite Ec; vm_compute; discriminate).
  assert (Pa : path (nexts t) (tv_active t) [second; client]).
  { rewrite Ec. apply (path_cons _ _ (default 0 (nexts t !! second))); [vm_compute; discriminate | vm_compute; reflexivity |].
    apply (path_cons _ _ 0); [vm_compute; discriminate | vm_compute; reflexivity | constructor]. }
  assert (Pt : path (nexts t) (tv_tw t) []) by (replace (tv_tw t) with 0 by (vm_compute; reflexivity); constructor).
  assert (Pl : path (listen_nexts t) (tv_listen t) [tv_listen t])
    by (apply (path_cons _ _ 0); [vm_compute; discriminate | vm_compute; reflexivity | constructor]).
  clearbody s p. exists client.
  pose proof (tcp_input_demultiplexes undefined no_custom link server s p _ _ _ Pa Pt Pl) as T. fold t in T. rewrite F in T.
  destruct T as (t' & Fr & D). exists t'. auto.
Defined.

End TcpDemux.
