(* ===== verification/TcpTimers.v ===== *)
(** The timers of TCP: when the loops of [tcp_fasttmr] and [tcp_slowtmr]
    (src/core/tcp.c) end. *)

From stdpp Require Import base tactics numbers list gmap.
From Stdlib Require Import ZArith Lia.
From S2P Require Import Prelude ByteOrder Stats Linked PbufDefs NetifDefs InetChksum Allocator Mem Memp PbufMem Pbuf IpAddr IpDefs IpOutput TcpDefs TcpSeg TcpOut Tcp TcpIn TcpSample Pres TcpFrame TcpLists.

Local Open Scope Z_scope.

Module TcpTimers.
Import ByteOrder Linked Memp Pbuf IpDefs TcpDefs TcpSeg TcpOut Tcp TcpIn TcpFrame TcpLists.

(** When the timers last saw the control blocks. *)
Definition seen (t : tcp_vars) : gmap Z Z := tp_last_timer <$> tv_pcbs t.

(** The application takes the data of the control block, and its end. *)
Definition takes_data (t : tcp_vars) (pcb : Z) : Prop := exists b f, tv_pcbs t !! pcb = Some b /\ tp_recv b = FN_APP f.

(** What the skeleton of a control block tells. *)
Lemma seen_skel pcb t : seen (skel pcb t) = seen t.
Proof. apply (fmap_alter_same tp_last_timer bone pcb (tv_pcbs t)). reflexivity. Qed.

Lemma takes_data_skel pcb t q : takes_data (skel pcb t) q <-> takes_data t q.
Proof.
  unfold takes_data, skel. cbn. destruct (decide (q = pcb)) as [->|N].
  - rewrite lookup_alter_eq. destruct (tv_pcbs t !! pcb) as [b|]; split; intros (c & f & E & R); try discriminate.
    + exists b, f. cbn in E. injection E as <-. auto.
    + injection E as <-. exists (bone b), f. auto.
  - rewrite lookup_alter_ne by congruence. reflexivity.
Qed.

Section timers.
Context {W X U : Type} `{MemSystem W} `{HasTcp U} `{MempStats W}.
Context (stale : Z -> Z) (custom_free : pstate W -> Z -> option (pstate W)).
Context (netif_output : X -> pstate W -> Z -> netif -> Z -> Z -> option (X * pstate W * Z)).
Context (app : tcp_app (istate W X U)).
Implicit Type s : istate W X U.

(** An application whose receive callback works on its own connection only, and does
    not close or abort it. *)
Definition calm : Prop := forall k s f arg pcb p err, sk pcb k s -> pres (sk pcb k) (cb_recv app s f arg pcb p err).

Lemma event_recv_sk k s pcb p err : calm -> takes_data k pcb -> sk pcb k s ->
  pres (sk pcb k) (TCP_EVENT_RECV stale custom_free netif_output app s pcb p err).
Proof.
  intros C T K. unfold TCP_EVENT_RECV. apply pres_let. intros b E. rewrite <- K in T. apply takes_data_skel in T as (b' & f & E' & R).
  unfold pcb_at in E. rewrite E in E'. injection E' as <-. rewrite R. apply C, K.
Qed.

Lemma event_closed_sk k s pcb : calm -> takes_data k pcb -> sk pcb k s ->
  pres (sk pcb k) (TCP_EVENT_CLOSED stale custom_free netif_output app s pcb).
Proof.
  intros C T K. unfold TCP_EVENT_CLOSED. apply pres_let. intros b E. rewrite <- K in T. apply takes_data_skel in T as (b' & f & E' & R).
  unfold pcb_at in E. rewrite E in E'. injection E' as <-. rewrite R. apply C, K.
Qed.
#[local] Hint Resolve event_recv_sk event_closed_sk : pres.

Lemma grow_wnd_bone b : bone (grow_wnd b) = bone b.
Proof. unfold grow_wnd. case_match; reflexivity. Qed.
#[local] Hint Extern 1 (pres (sk _ _) (upd _ _ grow_wnd)) => apply sk_upd; [intro; apply grow_wnd_bone |] : pres.

Lemma refused_sk k s pcb : calm -> takes_data k pcb -> sk pcb k s ->
  pres (sk pcb k) (tcp_process_refused_data stale custom_free netif_output app s pcb).
Proof. intros C T K. unfold tcp_process_refused_data. pres_go. Qed.

(** What a turn of the fast timer on [pcb] keeps. *)
Record visited s s' (pcb : Z) : Prop := {
  vi_nexts : nexts (tcp_of s') = nexts (tcp_of s);
  vi_active : tv_active (tcp_of s') = tv_active (tcp_of s);
  vi_ctr : tv_timer_ctr (tcp_of s') = tv_timer_ctr (tcp_of s);
  vi_seen : seen (tcp_of s') = <[pcb := tv_timer_ctr (tcp_of s)]> (seen (tcp_of s));
  vi_takes : forall q, takes_data (tcp_of s') q <-> takes_data (tcp_of s) q
}.

Lemma visited_sk s s1 s' pcb b :
  pcb_at s pcb = Some b -> s1 = put_pcb s pcb (set_tp_last_timer (tv_timer_ctr (tcp_of s)) b) ->
  (exists c, sk pcb (skel pcb (set_tv_changed c (tcp_of s1))) s') -> visited s s' pcb.
Proof.
  intros E -> [c K]. unfold put_pcb in K. rewrite tcp_of_set_tcp in K. set (t1 := set_tv_pcbs _ _) in K. unfold sk in K.
  assert (V : forall A (f : tcp_vars -> A), (forall t, f (skel pcb t) = f t) -> f (tcp_of s') = f (set_tv_changed c t1)).
  { intros A f F. rewrite <- (F (tcp_of s')), K. apply F. }
  unfold pcb_at in E. split.
  - rewrite (V _ nexts (nexts_skel pcb)). unfold nexts. cbn. rewrite fmap_insert. apply insert_id. rewrite lookup_fmap, E. reflexivity.
  - rewrite (V _ tv_active) by reflexivity. reflexivity.
  - rewrite (V _ tv_timer_ctr) by reflexivity. reflexivity.
  - rewrite (V _ seen (seen_skel pcb)). unfold seen. cbn. rewrite fmap_insert. reflexivity.
  - intros q. rewrite <- (takes_data_skel pcb (tcp_of s')), K, takes_data_skel. unfold takes_data. cbn.
    destruct (decide (q = pcb)) as [->|N]; [rewrite lookup_insert_eq | rewrite lookup_insert_ne by congruence; reflexivity].
    split; intros (b' & f & E' & R); [injection E' as <- | rewrite E in E'; injection E' as <-]; eauto.
Qed.

Lemma sk_bone k s pcb b : sk pcb k s -> pcb_at s pcb = Some b -> tv_pcbs k !! pcb = Some (bone b).
Proof. intros <- E. unfold pcb_at in E. cbn. rewrite lookup_alter_eq, E. reflexivity. Qed.

Lemma sk_changed k s pcb c : sk pcb k s -> sk pcb (set_tv_changed c k) (set_changed s c).
Proof. intros <-. unfold set_changed. apply sk_set_tcp. reflexivity. Qed.

(** The end of a turn: refused data is offered again. *)
Lemma fast_refused k s pcb b : calm -> takes_data k pcb -> tv_pcbs k !! pcb = Some b -> sk pcb k s -> forall y,
  (b ← pcb_at s pcb;
   if negb (tp_refused_data b =? 0) then
     '(s, _) ← tcp_process_refused_data stale custom_free netif_output app (set_changed s 0) pcb;
     Some (s, if negb (tv_changed (tcp_of s) =? 0) then tv_active (tcp_of s) else tp_next b)
   else Some (s, tp_next b)) = Some y ->
  y.2 = tp_next b /\ exists c, sk pcb (set_tv_changed c k) y.1.
Proof.
  intros C T Ek K y R. apply bind_Some in R as (b2 & E2 & R).
  pose proof (sk_bone k s pcb b2 K E2) as B. rewrite Ek in B. injection B as ->. destruct (negb (tp_refused_data b2 =? 0)).
  - apply bind_Some in R as ([s3 e] & R3 & R). injection R as <-. cbn [fst snd].
    pose proof (refused_sk (set_tv_changed 0 k) _ pcb C T (sk_changed k s pcb 0 K) _ R3) as K3. change (state_in (s3, e)) with s3 in K3.
    assert (tv_changed (tcp_of s3) = 0) as -> by exact (f_equal tv_changed K3). split; [reflexivity | exists 0; exact K3].
  - injection R as <-. split; [reflexivity | exists (tv_changed k); cbn]. destruct k; exact K.
Qed.

(** One turn on a control block that was not seen yet goes on with the next one. *)
Lemma fast_body_spec s pcb b :
  calm -> pcb <> 0 -> pcb_at s pcb = Some b -> tp_last_timer b <> tv_timer_ctr (tcp_of s) -> takes_data (tcp_of s) pcb ->
  match fast_body stale custom_free netif_output app (s, pcb) with
  | inl (s', q) => q = tp_next b /\ visited s s' pcb
  | inr r => r = None
  end.
Proof.
  intros C Np E Nl T. unfold fast_body. rewrite (proj2 (Z.eqb_neq _ _) Np), E, (proj2 (Z.eqb_neq _ _) Nl). cbn [negb].
  set (s1 := put_pcb s pcb (set_tp_last_timer (tv_timer_ctr (tcp_of s)) b)).
  assert (U1 : upd s pcb (set_tp_last_timer (tv_timer_ctr (tcp_of s))) = Some s1) by (unfold upd; rewrite E; reflexivity).
  rewrite U1. cbn [mbind option_bind].
  set (k := skel pcb (tcp_of s1)). assert (K1 : sk pcb k s1) by reflexivity.
  assert (T1 : tv_pcbs (tcp_of s1) !! pcb = Some (set_tp_last_timer (tv_timer_ctr (tcp_of s)) b)).
  { unfold s1, put_pcb. rewrite tcp_of_set_tcp. apply lookup_insert_eq. }
  match goal with |- context [if has (tp_flags b) TF_ACK_DELAY then ?x else _] =>
    assert (A : pres (sk pcb k) (if has (tp_flags b) TF_ACK_DELAY then x else Some s1)) by pres_go;
    destruct (if has (tp_flags b) TF_ACK_DELAY then x else Some s1) as [s2|]; [| reflexivity] end.
  specialize (A s2 eq_refl). change (sk pcb k s2) in A. cbn [mbind option_bind].
  assert (Tk : takes_data k pcb).
  { apply takes_data_skel. destruct T as (b' & f & E' & R). unfold pcb_at in E. rewrite E in E'. injection E' as <-.
    exists (set_tp_last_timer (tv_timer_ctr (tcp_of s)) b), f. auto. }
  pose proof (fast_refused k s2 pcb _ C Tk (sk_bone k s1 pcb _ K1 T1) A) as F.
  match goal with |- context [match ?r with Some y => inl y | None => inr None end] => destruct r as [[s' q]|]; [| reflexivity] end.
  destruct (F (s', q) eq_refl) as [Q [c K']]. split; [exact Q|]. apply (visited_sk s s1 s' pcb b E eq_refl). exists c. exact K'.
Qed.

(** ** The fast timer *)

(** The counter of the timers goes on. *)
Definition tick s : istate W X U := set_tcp s (set_tv_timer_ctr (u8 (tv_timer_ctr (tcp_of s) + 1)) (tcp_of s)).

(** The loop is at [pcb], behind those of [done]; the list is the one of [t0]. *)
Record fast_at (t0 : tcp_vars) (L : list Z) s (pcb : Z) (todo : list Z) : Prop := {
  fa_nexts : nexts (tcp_of s) = nexts t0;
  fa_active : tv_active (tcp_of s) = tv_active t0;
  fa_todo : path (nexts t0) pcb todo;
  fa_part : exists done, L = done ++ todo /\ (forall q, q ∈ done -> seen (tcp_of s) !! q = Some (tv_timer_ctr (tcp_of s)));
  fa_new : forall q, q ∈ todo -> takes_data (tcp_of s) q /\ seen (tcp_of s) !! q <> Some (tv_timer_ctr (tcp_of s))
}.

(** The list is the same at the end, and every control block was seen. *)
Definition all_seen (t0 : tcp_vars) (L : list Z) (r : option (istate W X U)) : Prop := forall s', r = Some s' ->
  nexts (tcp_of s') = nexts t0 /\ tv_active (tcp_of s') = tv_active t0 /\
  forall q, q ∈ L -> seen (tcp_of s') !! q = Some (tv_timer_ctr (tcp_of s')).

Lemma fast_turn t0 L s pcb todo : calm -> NoDup L -> fast_at t0 L s pcb todo ->
  match fast_body stale custom_free netif_output app (s, pcb) with
  | inl (s', q) => exists p, todo = pcb :: p /\ fast_at t0 L s' q p
  | inr r => all_seen t0 L r
  end.
Proof.
  intros C Nd [N1 A1 P (done & EL & D) New]. destruct (path_inv _ _ _ P) as [[-> ->] | (Np & nx & todo' & -> & Q & P')].
  - rewrite app_nil_r in EL. subst L. cbn. intros s' [= <-]. auto.
  - rewrite <- N1 in Q. unfold nexts in Q. rewrite lookup_fmap in Q. destruct (tv_pcbs (tcp_of s) !! pcb) as [b|] eqn:E; [| discriminate].
    injection Q as <-. destruct (New pcb) as [T Ns]; [apply elem_of_cons; auto|].
    assert (Nl : tp_last_timer b <> tv_timer_ctr (tcp_of s)) by (intros Q; apply Ns; unfold seen; rewrite lookup_fmap, E, <- Q; reflexivity).
    pose proof (fast_body_spec s pcb b C Np E Nl T) as B.
    destruct (fast_body stale custom_free netif_output app (s, pcb)) as [[s' q]|r]; [| subst r; intros ? [=]].
    destruct B as [-> [V1 V2 V3 V4 V5]]. exists todo'. split; [reflexivity|].
    rewrite EL in Nd. apply NoDup_app in Nd as (_ & Dj & Nt). apply NoDup_cons in Nt as [Nt _].
    split; try congruence.
    + exists (done ++ [pcb]). rewrite <- app_assoc. split; [exact EL|]. intros q I. rewrite V3, V4.
      destruct (decide (q = pcb)) as [->|N]; [apply lookup_insert_eq|]. rewrite lookup_insert_ne by congruence.
      apply D. apply elem_of_app in I as [I|I]; [exact I|]. apply list_elem_of_singleton in I. contradiction.
    + intros q I. rewrite V3, V4, V5. rewrite lookup_insert_ne by congruence. apply New, elem_of_cons. auto.
Qed.

Lemma fast_loop t0 L todo : calm -> NoDup L -> forall s pcb, fast_at t0 L s pcb todo ->
  exists r, while (S (length todo)) (fast_body stale custom_free netif_output app) (s, pcb) = Some r /\ all_seen t0 L r.
Proof.
  intros C Nd. induction todo as [|x todo IH]; intros s pcb F; rewrite while_S; pose proof (fast_turn t0 L s pcb _ C Nd F) as T;
    destruct (fast_body stale custom_free netif_output app (s, pcb)) as [[s' q]|r]; try (exists r; auto).
  - destruct T as (p & [=] & _).
  - destruct T as (p & [= <- <-] & F'). apply (IH s' q F').
Qed.

(** C20: The loop of [tcp_fasttmr] ends, with at most one turn more than there are active
    control blocks, under three conditions: every active control block has a receive callback of the
    application; such a callback works on its own connection only, and neither closes nor
    aborts it nor changes its links, so that it leaves the lists of control blocks, their states and
    the other control blocks alone; and no active control block carries the new value of
    the counter yet.  The loop has the same result for every larger number of turns.  That
    result is either an invalid access, made while an acknowledgement is sent or refused data is
    offered, or a state; in which the active list is as before and every control block on it
    carries the counter (so that the next timer finds the last condition again). *)
Theorem tcp_fasttmr_terminates s L :
  calm -> path (nexts (tcp_of s)) (tv_active (tcp_of s)) L ->
  (forall q, q ∈ L -> takes_data (tcp_of s) q /\ seen (tcp_of s) !! q <> Some (u8 (tv_timer_ctr (tcp_of s) + 1))) ->
  exists r, (forall fuel, (length L < fuel)%nat ->
      while fuel (fast_body stale custom_free netif_output app) (tick s, tv_active (tcp_of s)) = Some r /\
      tcp_fasttmr stale custom_free netif_output app fuel s = r) /\
    all_seen (tcp_of s) L r.
Proof.
  intros C P New.
  assert (I0 : fast_at (tcp_of s) L (tick s) (tv_active (tcp_of s)) L).
  { unfold tick. split; rewrite ?tcp_of_set_tcp; try reflexivity; try assumption. exists []. split; [reflexivity|].
    intros q I. apply not_elem_of_nil in I. contradiction. }
  destruct (fast_loop _ L L C (path_NoDup _ _ _ P) _ _ I0) as (r & R & Q). exists r. split; [| exact Q].
  intros fuel F. assert (Hf : (S (length L) <= fuel)%nat) by lia. pose proof (while_fuel_mono _ _ _ fuel r Hf R) as R2. split; [exact R2|].
  unfold tcp_fasttmr. change (set_tcp s _) with (tick s).
  replace (tv_active (tcp_of (tick s))) with (tv_active (tcp_of s)) by (unfold tick; rewrite tcp_of_set_tcp; reflexivity).
  rewrite R2. reflexivity.
Qed.

(** The loop is at a control block that was seen already. *)
Definition seen_before (y : istate W X U * Z) : bool :=
  negb (y.2 =? 0) && match pcb_at y.1 y.2 with Some b => tp_last_timer b =? tv_timer_ctr (tcp_of y.1) | None => false end.

Lemma fast_stuck y : seen_before y = true -> fast_body stale custom_free netif_output app y = inl y.
Proof.
  destruct y as [s pcb]. intros B. unfold seen_before in B. cbn [fst snd] in B. apply andb_true_iff in B as [Np B].
  destruct (pcb_at s pcb) as [b|] eqn:E; [| discriminate B].
  unfold fast_body. apply negb_true_iff in Np. rewrite Np, E, B. reflexivity.
Qed.

(** The control block [pcb] is new to the timer: it is marked, and a delayed
    acknowledgement is sent. *)
Definition acknowledged s (pcb : Z) (b : tcp_pcb) : option (istate W X U) :=
  s ← upd s pcb (set_tp_last_timer (tv_timer_ctr (tcp_of s)));
  if has (tp_flags b) TF_ACK_DELAY then
    s ← upd s pcb tcp_ack_now;
    '(s, _) ← tcp_output stale custom_free netif_output s pcb;
    upd s pcb (fun b => b |> set_tp_flags (clear_flag (tp_flags b) (Z.lor TF_ACK_DELAY TF_ACK_NOW)))
  else Some s.

(** The timer comes to [pcb] in [s] for the first time, the data that its application
    refused is offered to it again, and the list of active control blocks is changed by
    that, to the one of [s']. *)
Inductive changes_list s (pcb : Z) s' : Prop :=
  | offered b s1 b1 e :
      pcb <> 0 -> pcb_at s pcb = Some b -> tp_last_timer b <> tv_timer_ctr (tcp_of s) ->
      acknowledged s pcb b = Some s1 -> pcb_at s1 pcb = Some b1 -> tp_refused_data b1 <> 0 ->
      tcp_process_refused_data stale custom_free netif_output app (set_changed s1 0) pcb = Some (s', e) ->
      tv_changed (tcp_of s') <> 0 -> changes_list s pcb s'.

Lemma changes_list_turn s pcb s' : changes_list s pcb s' ->
  fast_body stale custom_free netif_output app (s, pcb) = inl (s', tv_active (tcp_of s')).
Proof.
  intros [b s1 b1 e Np E Nl A E1 Rd R Ch]. unfold acknowledged in A. apply bind_Some in A as (s0 & U0 & A).
  unfold fast_body. rewrite (proj2 (Z.eqb_neq _ _) Np), E, (proj2 (Z.eqb_neq _ _) Nl). cbn [negb]. rewrite U0. cbn [mbind option_bind].
  rewrite A. cbn [mbind option_bind]. rewrite E1. cbn [mbind option_bind]. rewrite (proj2 (Z.eqb_neq _ _) Rd), R. cbn [negb mbind option_bind]. rewrite (proj2 (Z.eqb_neq _ _) Ch). reflexivity.
Qed.

(** C21: [tcp_fasttmr] runs for ever when, at any control block that its loop comes to
    after some number of turns, offering the refused data again changes the list of
    active control blocks, and the first one on the list then was seen by this timer
    before: the loop starts again there, and every further turn leaves it in the same
    state at the same control block, without an error.  So there is no number of turns
    after which the timer returns. *)
Theorem tcp_fasttmr_hangs s k s1 pcb s2 :
  turns k (fast_body stale custom_free netif_output app) (tick s, tv_active (tcp_of s)) = Some (s1, pcb) ->
  changes_list s1 pcb s2 -> seen_before (s2, tv_active (tcp_of s2)) = true ->
  (forall n, (k < n)%nat ->
    turns n (fast_body stale custom_free netif_output app) (tick s, tv_active (tcp_of s)) = Some (s2, tv_active (tcp_of s2))) /\
  forall fuel, tcp_fasttmr stale custom_free netif_output app fuel s = None.
Proof.
  intros T Ch B. pose proof (turns_S _ k _ _ _ T (changes_list_turn s1 pcb s2 Ch)) as T1.
  assert (Tn : forall n, (k < n)%nat ->
    turns n (fast_body stale custom_free netif_output app) (tick s, tv_active (tcp_of s)) = Some (s2, tv_active (tcp_of s2))).
  { intros n N. replace n with (S k + (n - S k))%nat by lia. rewrite turns_add, T1. apply (turns_stuck _ _ (fast_stuck _ B)). }
  split; [exact Tn|]. intros fuel. unfold tcp_fasttmr. change (set_tcp s _) with (tick s).
  replace (tv_active (tcp_of (tick s))) with (tv_active (tcp_of s)) by (unfold tick; rewrite tcp_of_set_tcp; reflexivity).
  rewrite turns_forever; [reflexivity|]. intros n. destruct (decide (k < n)%nat) as [N|N]; [rewrite (Tn n N); eauto|].
  replace k with (n + (k - n))%nat in T by lia. rewrite turns_add in T. apply bind_Some in T as (y & Ty & _). eauto.
Qed.

End timers.

(** ** Samples *)

Import TcpSample.

(** An application that takes the data, and one that aborts another connection then. *)
Definition sink : tcp_app state := mkApp (fun s _ _ _ _ => Some (s, ERR_OK))
  (fun s _ _ _ p _ => if p =? 0 then Some (s, ERR_OK) else s ← i_free no_custom s p; Some (s, ERR_OK))
  (fun s _ _ _ _ => Some (s, ERR_OK)) (fun s _ _ _ => Some (s, ERR_OK)) (fun s _ _ _ _ => Some (s, ERR_OK)) (fun s _ _ _ => Some s).
Definition aborter (other : Z) : tcp_app state := mkApp (cb_accept sink)
  (fun s f arg pcb p err => '(s, _) ← cb_recv sink s f arg pcb p err;
     s ← tcp_abort undefined no_custom link sink s other; Some (s, ERR_OK))
  (cb_sent sink) (cb_poll sink) (cb_connected sink) (cb_err sink).

Lemma sink_calm : calm sink.
Proof. intros k s f arg pcb p err K. cbn. pres_go. Qed.

Lemma tcp_fasttmr_terminates_witness :
  let s := the connected in
  exists r, (forall fuel, (1 < fuel)%nat ->
      while fuel (fast_body undefined no_custom link sink) (tick s, tv_active (tcp_of s)) = Some r /\
      tcp_fasttmr undefined no_custom link sink fuel s = r) /\ all_seen (tcp_of s) [tv_active (tcp_of s)] r /\ is_Some r.
Proof.
  intros s. assert (P : path (nexts (tcp_of s)) (tv_active (tcp_of s)) [tv_active (tcp_of s)])
    by (apply (path_cons _ _ 0); [vm_compute; discriminate | vm_compute; reflexivity | constructor]).
  destruct (tcp_fasttmr_terminates undefined no_custom link sink s [tv_active (tcp_of s)] sink_calm P) as (r & R & Q).
  { intros q I. apply list_elem_of_singleton in I. subst q. split; [| vm_compute; discriminate].
    assert (B : bool_decide ((tp_recv <$> tv_pcbs (tcp_of s) !! tv_active (tcp_of s)) = Some (FN_APP 2)) = true) by (vm_compute; reflexivity).
    apply bool_decide_eq_true in B. unfold takes_data. destruct (tv_pcbs (tcp_of s) !! tv_active (tcp_of s)) as [b|]; [| discriminate].
    injection B as B. exists b, 2. auto. }
  exists r. split; [exact R | split; [exact Q |]]. destruct (R 2%nat (le_n 2)) as [_ <-]. vm_compute. eauto.
Defined.

(** The first client of two has refused data. *)
Definition refusing : state :=
  the (s ← two_clients; s ← feed s (segment 1000 7 5001 6511 16 8192 [] []);
       '(s, p) ← arrived s (segment 1000 7 5001 6511 16 8192 [] hello);
       upd s (tv_active (tcp_of s)) (set_tp_refused_data p)).
Definition second_client : Z := default 0 (nexts (tcp_of refusing) !! tv_active (tcp_of refusing)).

(** The first turn on [pcb], when refused data is offered in it. *)
Definition offers (app : tcp_app state) (s : state) (pcb : Z) : option (Z * bool * state) :=
  b ← pcb_at s pcb; s1 ← acknowledged undefined no_custom link s pcb b; b1 ← pcb_at s1 pcb;
  '(s', _) ← tcp_process_refused_data undefined no_custom link app (set_changed s1 0) pcb;
  Some (tp_refused_data b1, tp_last_timer b =? tv_timer_ctr (tcp_of s), s').

Lemma tcp_fasttmr_hangs_witness :
  (exists y, forall n, (0 < n)%nat -> turns n (fast_body undefined no_custom link (aborter second_client)) (tick refusing, tv_active (tcp_of refusing)) = Some y) /\
  forall fuel, tcp_fasttmr undefined no_custom link (aborter second_client) fuel refusing = None.
Proof.
  assert (G : forall (app : tcp_app state) (s : state),
    (tv_active (tcp_of s) =? 0) = false ->
    match offers app (tick s) (tv_active (tcp_of s)) with
    | Some (d, l, s') => negb (d =? 0) && negb l && negb (tv_changed (tcp_of s') =? 0) && seen_before (s', tv_active (tcp_of s'))
    | None => false end = true ->
    (exists y, forall n, (0 < n)%nat -> turns n (fast_body undefined no_custom link app) (tick s, tv_active (tcp_of s)) = Some y) /\
    forall fuel, tcp_fasttmr undefined no_custom link app fuel s = None).
  { intros app s Np O. destruct (offers app (tick s) (tv_active (tcp_of s))) as [[[d l] s']|] eqn:E; [| discriminate O].
    apply andb_true_iff in O as [O Se]. apply andb_true_iff in O as [O Ch]. apply andb_true_iff in O as [Rd Nl].
    apply negb_true_iff in Rd, Nl, Ch. apply Z.eqb_neq in Rd, Ch, Np.
    unfold offers in E. apply bind_Some in E as (b & Eb & E). apply bind_Some in E as (s1 & E1 & E). apply bind_Some in E as (b1 & Eb1 & E).
    apply bind_Some in E as ([s2 e] & E2 & E). injection E as <- <- <-. apply Z.eqb_neq in Nl.
    destruct (tcp_fasttmr_hangs undefined no_custom link app s 0 (tick s) (tv_active (tcp_of s)) s2 eq_refl) as [T F]; [econstructor; eassumption | exact Se |].
    split; [eauto | exact F]. }
  apply G; vm_compute; reflexivity.
Defined.

(** Three clients, in the order of their ports on the list; the third has used up its
    retransmissions. *)
Definition client (s : state) (port seqno : Z) : option state :=
  s ← feed s (segment port 7 seqno 0 2 8192 [2; 4; 5; 180] []);
  iss ← (b ← pcb_at s (tv_active (tcp_of s)); Some (tp_snd_nxt b));
  feed s (segment port 7 (seqno + 1) iss 16 8192 [] []).
Definition three_clients : state :=
  the (s ← listening; s ← client s 1002 9000; s ← client s 1001 7000; s ← client s 1000 5000;
       upd s (default 0 (b ← nexts (tcp_of s) !! tv_active (tcp_of s); nexts (tcp_of s) !! b)) (set_tp_nrtx TCP_MAXRTX)).
Definition first_one : Z := tv_active (tcp_of three_clients).
Definition second_one : Z := default 0 (nexts (tcp_of three_clients) !! first_one).

(** Polling the first connection aborts the second. *)
Definition poller : tcp_app state := mkApp (cb_accept sink) (cb_recv sink) (cb_sent sink)
  (fun s _ _ pcb => if pcb =? first_one then s ← tcp_abort undefined no_custom link sink s second_one; Some (s, ERR_OK) else Some (s, ERR_OK))
  (cb_connected sink) (cb_err sink).

(** The loop of [tcp_slowtmr] starts again, skips the first connection, which it has seen,
    without remembering it in [prev], and removes the third as if it were the first of the
    list: the list is empty then, and the first connection, still established, is on no
    list any more. *)
Example tcp_slowtmr_loses :
  match tcp_slowtmr undefined no_custom link poller 10 three_clients with
  | Some s => tv_active (tcp_of s) = 0 /\ tv_tw (tcp_of s) = 0 /\ (tp_state <$> tv_pcbs (tcp_of s)) = {[ first_one := ESTABLISHED ]}
  | None => False
  end.
Proof. vm_compute. auto. Qed.

Fixpoint times {A : Type} (n : nat) (f : A -> option A) (x : A) : option A :=
  match n with O => Some x | S n => y ← f x; times n f y end.

(** The client repeats its SYN. *)
Definition syn_again (s : state) : option state := feed s (segment 1000 7 5000 0 2 8192 [2; 4; 5; 180] []).
Definition rexmits (o : option state) : option (tcp_state * Z) :=
  s ← o; b ← pcb_at s (tv_active (tcp_of s)); Some (tp_state b, tp_nrtx b).

(** The slow timer reads behind the end of its table of back-off shifts: every
    repetition of a SYN that the other end sends makes [tcp_process] retransmit and count,
    so that thirteen of them between two timer ticks take [nrtx] past [TCP_MAXRTX], with
    which it is compared for equality only; five ticks later the timer still runs, the
    sixth has no defined result. *)
Theorem tcp_slowtmr_out_of_bounds :
  let attacked := s ← syn_seen; times 13 syn_again s in
  let ticks n := s ← attacked; times n (tcp_slowtmr undefined no_custom link server 10) s in
  rexmits attacked = Some (SYN_RCVD, 13) /\ rexmits (ticks 5%nat) = Some (SYN_RCVD, 13) /\
  tcp_backoff !! 13%nat = None /\ ticks 6%nat = None.
Proof. vm_compute. auto. Qed.

End TcpTimers.
