(* ===== verification/TcpCongestion.v ===== *)
(** The timing of TCP and its congestion window: the round-trip estimator, the
    retransmission timeout and the growth of the window (tcp_in.c, tcp.c). *)

From stdpp Require Import base tactics numbers list gmap.
From Stdlib Require Import ZArith Lia.
From S2P Require Import Prelude ByteOrder Stats Linked PbufDefs NetifDefs Allocator Mem Memp PbufMem Pbuf IpDefs IpOutput TcpDefs TcpSeg TcpOut Tcp TcpIn.

Local Open Scope Z_scope.

Module TcpCongestion.
Import TcpDefs TcpSeg TcpOut Tcp TcpIn.

(** ** The retransmission timeout *)

(** [sa] is eight times the smoothed round-trip time and [sv] four times its deviation,
    for round trips of at most [M] ticks. *)
Definition estimator_ok (M : Z) (b : tcp_pcb) : Prop := 0 <= tp_sa b <= 8 * M /\ 3 <= tp_sv b <= 4 * M + 6.

(** The estimator of Jacobson on the scaled averages, without machine words. *)
Definition jacobson (m sa sv : Z) : Z * Z :=
  let err := m - sa / 8 in (sa + err, sv + (Z.abs err - sv / 4)).

Lemma s16_id x : -32768 <= x < 32768 -> s16 x = x.
Proof. intros R. unfold s16. zlia. Qed.

Lemma jacobson_bounds M m sa sv : 0 <= M -> 0 <= m <= M -> 0 <= sa <= 8 * M -> 3 <= sv <= 4 * M + 6 ->
  let '(sa', sv') := jacobson m sa sv in 0 <= sa' <= 8 * M /\ 3 <= sv' <= 4 * M + 6.
Proof. intros H0 Hm Ha Hv. unfold jacobson. zlia. Qed.

(** The timeout after retransmissions, as [tcp_slowtmr] computes it. *)
Definition backed_off (b : tcp_pcb) (sh : Z) : Z := s16 (Z.shiftl (Z.shiftr (tp_sa b) 3 + tp_sv b) sh).

Lemma backoff_range n sh : tcp_backoff !! n = Some sh -> 1 <= sh <= 7.
Proof. intros E. apply list_elem_of_lookup_2 in E. unfold tcp_backoff in E. set_unfold in E. lia. Qed.

Lemma backed_off_exact M b n sh : 0 <= M <= 49 -> estimator_ok M b -> tcp_backoff !! n = Some sh ->
  backed_off b sh = (tp_sa b / 8 + tp_sv b) * 2 ^ sh /\ 3 < backed_off b sh < 32768.
Proof.
  intros HM [Ha Hv] E. apply backoff_range in E. unfold backed_off. rewrite Z.shiftr_div_pow2, Z.shiftl_mul_pow2 by lia.
  change (2 ^ 3) with 8. assert (3 <= tp_sa b / 8 + tp_sv b <= 255) as R by zlia.
  assert (2 <= 2 ^ sh <= 128) as P by (split; [apply (Z.pow_le_mono_r 2 1) | apply (Z.pow_le_mono_r 2 sh 7)]; lia).
  rewrite s16_id by nia. nia.
Qed.

(** the round-trip estimator of [tcp_receive] is Jacobson's, computed without
    overflow, when no round trip takes more than [M] ticks (up to 49, half a minute): the
    averages stay in their ranges, the timeout is the smoothed time plus four deviations,
    and the exponential backoff of [tcp_slowtmr] shifts it by its table without leaving
    the 16 bits, so that the timeout is never below three ticks and never negative. *)
Theorem rtt_estimator_correct M ticks ackno b :
  0 <= M <= 49 -> estimator_ok M b -> (tp_rttest b <> 0 -> u32 (ticks - tp_rttest b) <= M) ->
  let b' := estimate_rtt ticks ackno b in
  estimator_ok M b' /\
  (if negb (tp_rttest b =? 0) && TCP_SEQ_LT (tp_rtseq b) ackno then
     (tp_sa b', tp_sv b') = jacobson (u32 (ticks - tp_rttest b)) (tp_sa b) (tp_sv b) /\
     tp_rto b' = tp_sa b' / 8 + tp_sv b' /\ 3 <= tp_rto b' /\ tp_rttest b' = 0
   else b' = b) /\
  (forall n sh, tcp_backoff !! n = Some sh ->
     backed_off b' sh = (tp_sa b' / 8 + tp_sv b') * 2 ^ sh /\ 3 < backed_off b' sh < 32768).
Proof.
  intros HM Ok Hm b'. assert (Main : estimator_ok M b' /\ (if negb (tp_rttest b =? 0) && TCP_SEQ_LT (tp_rtseq b) ackno then
     (tp_sa b', tp_sv b') = jacobson (u32 (ticks - tp_rttest b)) (tp_sa b) (tp_sv b) /\
     tp_rto b' = tp_sa b' / 8 + tp_sv b' /\ 3 <= tp_rto b' /\ tp_rttest b' = 0 else b' = b)).
  { unfold b', estimate_rtt. destruct (Z.eqb_spec (tp_rttest b) 0) as [E0|N0]; cbn [negb andb]; [auto|].
    destruct (TCP_SEQ_LT (tp_rtseq b) ackno); [| auto]. specialize (Hm N0).
    set (m := u32 (ticks - tp_rttest b)) in *. assert (0 <= m) by (unfold m, u32; zlia). destruct Ok as [Ha Hv].
    pose proof (jacobson_bounds M m (tp_sa b) (tp_sv b) ltac:(lia) ltac:(lia) Ha Hv) as J. unfold jacobson in J.
    rewrite !Z.shiftr_div_pow2 by lia. change (2 ^ 3) with 8. change (2 ^ 2) with 4.
    rewrite (s16_id m) by lia. rewrite (s16_id (m - tp_sa b / 8)) by zlia. rewrite (s16_id (tp_sa b + _)) by lia.
    replace (if m - tp_sa b / 8 <? 0 then s16 (- (m - tp_sa b / 8)) else m - tp_sa b / 8) with (Z.abs (m - tp_sa b / 8))
      by (destruct (Z.ltb_spec (m - tp_sa b / 8) 0); [rewrite s16_id by zlia|]; zlia).
    rewrite (s16_id (Z.abs _ - _)) by zlia. rewrite (s16_id (tp_sv b + _)) by lia.
    cbn [tp_sa tp_sv tp_rto tp_rttest set_tp_sa set_tp_sv set_tp_rto set_tp_rttest]. unfold estimator_ok.
    cbn [tp_sa tp_sv tp_rto tp_rttest set_tp_sa set_tp_sv set_tp_rto set_tp_rttest].
    rewrite s16_id by zlia. unfold jacobson. split; [exact J|]. repeat split; zlia. }
  destruct Main as [Ok' Cs]. split; [exact Ok' | split; [exact Cs|]]. intros n sh E. exact (backed_off_exact M b' n sh HM Ok' E).
Qed.

(** A new control block has the estimator of the initial timeout; a first round trip of
    four ticks. *)
Definition timed : tcp_pcb := new_pcb 64 6510 100 0 |> set_tp_rttest 100 |> set_tp_rtseq 6510.

Lemma rtt_estimator_correct_witness :
  estimator_ok 49 timed /\ tp_sa (estimate_rtt 104 6511 timed) = 4 /\ tp_sv (estimate_rtt 104 6511 timed) = 9 /\
  tp_rto (estimate_rtt 104 6511 timed) = 9.
Proof.
  assert (Ok : estimator_ok 49 timed) by (cbv; split; split; discriminate).
  pose proof (rtt_estimator_correct 49 104 6511 timed ltac:(lia) Ok ltac:(vm_compute; discriminate)) as (_ & C & _).
  assert (E : negb (tp_rttest timed =? 0) && TCP_SEQ_LT (tp_rtseq timed) 6511 = true) by reflexivity. rewrite E in C.
  destruct C as (J & R & _). split; [exact Ok|].
  split; [exact (f_equal fst J) | split; [exact (f_equal snd J) | exact R]].
Defined.

(** ** The congestion window *)

(** C19: Let the congestion window, or after a fast retransmission the threshold, be at
    least one segment (0 < mss <= cwnd, in 16 bits).  Then an acknowledgement of new data
    on an established connection never shrinks the window and never makes it wrap: below
    the threshold it grows by a segment, from the threshold on by the fraction mss*mss/cwnd
    of a segment, and it stays where it is when the sum would not fit 16 bits.  After a
    fast retransmission it restarts at the threshold. *)
Theorem congestion_window_grows ackno b :
  let c := if has (tp_flags b) TF_INFR then tp_ssthresh b else tp_cwnd b in
  let grow := if c <? tp_ssthresh b then tp_mss b else tp_mss b * tp_mss b / c in
  state_num ESTABLISHED <= state_num (tp_state b) -> 0 < tp_mss b -> tp_mss b <= c < 65536 ->
  tp_cwnd (new_ack ackno b) = (if c + grow <? 65536 then c + grow else c) /\ c <= tp_cwnd (new_ack ackno b) <= Z.min 65535 (c + tp_mss b).
Proof.
  intros c grow Est Hm Hc. assert (Hg : 0 <= grow <= tp_mss b).
  { unfold grow. destruct (c <? tp_ssthresh b); [lia|]. split; [apply Z.div_pos; nia|]. apply Z.div_le_upper_bound; nia. }
  cut (tp_cwnd (new_ack ackno b) = (if c + grow <? 65536 then c + grow else c)).
  { intros E. split; [exact E|]. rewrite E. destruct (Z.ltb_spec (c + grow) 65536); lia. }
  assert (Grow : (if c <? u16 (c + grow) then u16 (c + grow) else c) = (if c + grow <? 65536 then c + grow else c)).
  { unfold u16. destruct (Z.ltb_spec (c + grow) 65536).
    - rewrite Z.mod_small by lia. destruct (Z.ltb_spec c (c + grow)); lia.
    - assert ((c + grow) mod 65536 = c + grow - 65536) as -> by zlia. destruct (Z.ltb_spec c (c + grow - 65536)); lia. }
  rewrite <- Grow. unfold new_ack. destruct (has (tp_flags b) TF_INFR); unfold grow, c;
    cbn [tp_state tp_cwnd tp_ssthresh tp_mss set_tp_flags set_tp_cwnd set_tp_nrtx set_tp_rto set_tp_acked set_tp_snd_buf set_tp_dupacks set_tp_lastack];
    rewrite (proj2 (Z.leb_le _ _) Est);
    (match goal with |- context [if ?x <? tp_ssthresh b then _ else _] => destruct (x <? tp_ssthresh b) end);
    (match goal with |- context [if ?x <? u16 ?y then _ else _] => destruct (x <? u16 y) end); reflexivity.
Qed.

Lemma congestion_window_grows_witness :
  let b := new_pcb 64 6510 100 0 |> set_tp_state ESTABLISHED |> set_tp_mss 536 |> set_tp_cwnd 1072 |> set_tp_ssthresh 800 in
  tp_cwnd (new_ack 6600 b) = 1072 + 268 /\ 1072 <= tp_cwnd (new_ack 6600 b) <= 1608.
Proof.
  intros b. exact (congestion_window_grows 6600 b ltac:(vm_compute; discriminate) ltac:(vm_compute; reflexivity)
    ltac:(vm_compute; split; [discriminate | reflexivity])).
Defined.

End TcpCongestion.
