(* ===== verification/TcpRexmit.v ===== *)
(** Retransmission: what [tcp_rexmit] and [tcp_rexmit_rto] (src/core/tcp_out.c) do to
    the queues of segments. *)

From stdpp Require Import base tactics numbers list gmap sorting.
From Stdlib Require Import ZArith Lia.
From S2P Require Import Prelude ByteOrder Stats Linked PbufDefs NetifDefs InetChksum Allocator Mem Memp PbufMem Pbuf IpAddr IpDefs IpOutput TcpDefs TcpSeg TcpOut Tcp TcpIn TcpSample Pres TcpFrame TcpLists TcpWindow.

Local Open Scope Z_scope.

Module TcpRexmit.
Import ByteOrder Linked Memp Pbuf IpDefs TcpDefs TcpSeg TcpOut Tcp TcpIn TcpFrame TcpLists TcpWindow.

(** ** Lists of addresses *)

(** The longest prefix with a property, and the rest. *)
Fixpoint span (f : Z -> bool) (l : list Z) : list Z * list Z :=
  match l with
  | [] => ([], [])
  | x :: l => if f x then let '(a, b) := span f l in (x :: a, b) else ([], x :: l)
  end.

Lemma span_app f l : let '(a, b) := span f l in l = a ++ b.
Proof. induction l as [|x l IH]; [reflexivity|]. cbn. destruct (f x); [| reflexivity]. destruct (span f l). cbn. congruence. Qed.

Lemma span_holds f l : let '(a, b) := span f l in Forall (fun x => f x = true) a /\ forall x, head b = Some x -> f x = false.
Proof.
  induction l as [|x l IH]; [split; [constructor | discriminate]|]. cbn. destruct (f x) eqn:E; [| split; [constructor | injection 1 as <-; exact E]].
  destruct (span f l) as [a b]. destruct IH as [F G]. split; [constructor; assumption | exact G].
Qed.

Definition first_of (l : list Z) : Z := match l with [] => 0 | x :: _ => x end.
Definition last_of (l : list Z) : Z := List.last l 0.

Lemma path_first f h l : path f h l -> h = first_of l.
Proof. destruct 1; reflexivity. Qed.

(** [x] is put behind [r]. *)
Lemma path_put f h l1 r x l2 : path f h (l1 ++ r :: l2) -> x <> 0 -> x ∉ l1 ++ r :: l2 ->
  path (<[r := x]> (<[x := first_of l2]> f)) h (l1 ++ r :: x :: l2).
Proof.
  revert h. induction l1 as [|y l1 IH]; intros h P Nx Ni; pose proof (path_NoDup _ _ _ P) as Nd;
    apply path_inv in P as [[_ ?] | (Nh & q & l' & E & Q & P)]; try discriminate; injection E as <- <-;
    cbn in Ni; apply not_elem_of_cons in Ni as [N1 N2]; cbn in Nd; apply NoDup_cons in Nd as [Nr Nd].
  - econstructor; [assumption | apply lookup_insert_eq |]. econstructor; [assumption | rewrite lookup_insert_ne by congruence; apply lookup_insert_eq |].
    rewrite (path_first _ _ _ P) in P. apply path_insert_ne; [apply path_insert_ne; assumption | assumption].
  - apply (path_cons _ _ q); [assumption | | apply IH; assumption]. rewrite lookup_insert_ne, lookup_insert_ne; [eassumption | congruence |].
    intros ->. apply Nr, elem_of_app. right. apply elem_of_cons. auto.
Qed.

(** The first of a list in front of another. *)
Lemma path_head f h l x : path f h l -> x <> 0 -> x ∉ l -> path (<[x := first_of l]> f) x (x :: l).
Proof. intros P N Ni. rewrite <- (path_first _ _ _ P). apply path_push; assumption. Qed.

(** Two lists are joined by linking the last of the first one. *)
Lemma path_join f h l1 l2 h2 : l1 <> [] -> path f h l1 -> path f h2 l2 -> (forall x, x ∈ l1 -> x ∉ l2) ->
  path (<[last_of l1 := h2]> f) h (l1 ++ l2).
Proof.
  intros Ne P1 P2. revert h P1. induction l1 as [|x l1 IH]; intros h P1 D; [contradiction|]. pose proof (path_NoDup _ _ _ P1) as Nd.
  apply path_inv in P1 as [[_ ?] | (Nh & q & l' & E & Q & P1)]; [discriminate|]. injection E as <- <-.
  destruct l1 as [|y l1].
  - cbn. econstructor; [assumption | apply lookup_insert_eq |]. apply path_insert_ne; [assumption |]. apply D, elem_of_cons. auto.
  - change (last_of (x :: y :: l1)) with (last_of (y :: l1)). cbn [app]. apply (path_cons _ _ q); [assumption | | apply IH; [discriminate | assumption |]].
    + rewrite lookup_insert_ne; [exact Q|]. intros E. apply NoDup_cons in Nd as [Nd _]. apply Nd. rewrite <- E.
      unfold last_of. apply list_elem_of_In. assert (Z0 : y :: l1 <> []) by discriminate. rewrite (app_removelast_last 0 Z0) at 2.
      apply in_or_app. right. left. reflexivity.
    + intros z I. apply D, elem_of_cons. auto.
Qed.

(** ** Queues *)

Definition seg_nexts (t : tcp_vars) : gmap Z Z := sg_next <$> tv_segs t.

(** The segments but for their links. *)
Definition seg_rest (t : tcp_vars) : gmap Z tcp_seg := set_sg_next 0 <$> tv_segs t.

Section rexmit.
Context {W X U : Type} `{MemSystem W} `{HasTcp U}.
Context (stale : Z -> Z) (custom_free : pstate W -> Z -> option (pstate W)).
Context (netif_output : X -> pstate W -> Z -> netif -> Z -> Z -> option (X * pstate W * Z)).
Implicit Type s : istate W X U.

(** The sequence number of the segment at an address, 0 for none. *)
Definition number (m : memory) (segs : gmap Z tcp_seg) (a : Z) : Z :=
  match segs !! a with Some g => lwip_htonl (ld32 m (sg_tcphdr g + TCPH_seqno)) | None => 0 end.

(** The segments of a queue before a sequence number, and the others. *)
Definition place (m : memory) (segs : gmap Z tcp_seg) (seqno : Z) (l : list Z) : list Z * list Z :=
  span (fun a => TCP_SEQ_LT (number m segs a) seqno) l.

Lemma seg_place_spec s h seqno l : path (seg_nexts (tcp_of s)) h l ->
  seg_place s h seqno = Some (last_of (place (i_mem s) (tv_segs (tcp_of s)) seqno l).1, first_of (place (i_mem s) (tv_segs (tcp_of s)) seqno l).2).
Proof.
  intros P. destruct (path_linked sg_next _ h l P) as (l' & L & <-). unfold seg_place. rewrite (for_list_spec sg_next _ _ _ _ _ _ L). f_equal.
  cut (forall prev, fold_until (fun prev q g => if TCP_SEQ_LT (seg_seqno s g) seqno then inl q else inr (prev, q)) (fun prev => (prev, 0)) prev l' =
    (List.last (place (i_mem s) (tv_segs (tcp_of s)) seqno l'.*1).1 prev, first_of (place (i_mem s) (tv_segs (tcp_of s)) seqno l'.*1).2)); [intros C; apply C|].
  clear P. induction L as [|p a l' Hp Ha L IH]; intros prev; [reflexivity|]. cbn [fold_until fmap list_fmap fst]. unfold place in *. cbn [span].
  assert (number (i_mem s) (tv_segs (tcp_of s)) p = seg_seqno s a) as -> by (unfold number; rewrite Ha; reflexivity).
  destruct (TCP_SEQ_LT (seg_seqno s a) seqno); [| reflexivity]. rewrite (IH p).
  destruct (span _ l'.*1) as [[|y ya] yb]; [reflexivity|]. cbn [fst snd]. f_equal.
  change (List.last (y :: ya) p = List.last (p :: y :: ya) prev). cbn [List.last]. clear. revert y. induction ya; [reflexivity|]. intros y. apply IHya.
Qed.

Lemma last_seg_spec s h l : l <> [] -> path (seg_nexts (tcp_of s)) h l -> last_seg s h = Some (last_of l).
Proof.
  intros Ne P. destruct (path_linked sg_next _ h l P) as (l' & L & <-). unfold last_seg. rewrite (for_list_spec sg_next _ _ _ _ _ _ L). f_equal.
  clear P. induction L as [|p a l' Hp Ha L IH]; [contradiction|]. cbn [fold_until fmap list_fmap fst].
  destruct (linked_inv _ _ _ _ L) as [[-> ->] | (Nn & b & l3 & -> & _)]; [reflexivity|].
  rewrite (proj2 (Z.eqb_neq _ _) Nn). cbn [fmap list_fmap fst] in *. apply IH. discriminate.
Qed.

(** The variables after an assignment to a segment and to a control block. *)
Lemma upd_seg_spec s a g f : seg_at s a = Some g ->
  upd_seg s a f = Some (set_tcp s (set_tv_segs (<[a := f g]> (tv_segs (tcp_of s))) (tcp_of s))).
Proof. intros E. unfold upd_seg. rewrite E. reflexivity. Qed.
Lemma upd_spec s pcb b f : pcb_at s pcb = Some b ->
  upd s pcb f = Some (set_tcp s (set_tv_pcbs (<[pcb := f b]> (tv_pcbs (tcp_of s))) (tcp_of s))).
Proof. intros E. unfold upd. rewrite E. reflexivity. Qed.

Definition disjoint_queues (l1 l2 : list Z) : Prop := forall x, x ∈ l1 -> x ∉ l2.

(** A control block and its queues; [s'] differs from [s] in the links of segments and in
    this control block only. *)
Record requeued s s' (pcb : Z) (b' : tcp_pcb) (unacked unsent : list Z) : Prop := {
  rq_pcb : pcb_at s' pcb = Some b';
  rq_unacked : path (seg_nexts (tcp_of s')) (tp_unacked b') unacked;
  rq_unsent : path (seg_nexts (tcp_of s')) (tp_unsent b') unsent;
  rq_rest : seg_rest (tcp_of s') = seg_rest (tcp_of s);
  rq_others : delete pcb (tv_pcbs (tcp_of s')) = delete pcb (tv_pcbs (tcp_of s));
  rq_memory : i_p s' = i_p s
}.

(** Facts about the first segment of a queue. *)
Lemma queue_head s h x l : path (seg_nexts (tcp_of s)) h (x :: l) ->
  h = x /\ x <> 0 /\ exists g, seg_at s x = Some g /\ path (seg_nexts (tcp_of s)) (sg_next g) l.
Proof.
  intros P. apply path_inv in P as [[_ ?] | (N & q & l' & [= -> ->] & Q & P)]; [discriminate|]. split; [reflexivity | split; [exact N|]].
  unfold seg_nexts in Q. rewrite lookup_fmap in Q. unfold seg_at. destruct (tv_segs (tcp_of s) !! h) as [g|]; [| discriminate].
  injection Q as <-. eauto.
Qed.

(** [x] is linked into a queue: the steps of the code on the map of segments. *)
Lemma put_first (m : gmap Z tcp_seg) x g l h : m !! x = Some g -> path (sg_next <$> m) h l -> x <> 0 -> x ∉ l ->
  let m' := <[x := set_sg_next (first_of l) g]> m in
  path (sg_next <$> m') x (x :: l) /\ set_sg_next 0 <$> m' = set_sg_next 0 <$> m /\ sg_next <$> m' = <[x := first_of l]> (sg_next <$> m).
Proof.
  intros E P N Ni m'. assert (V : sg_next <$> m' = <[x := first_of l]> (sg_next <$> m)) by (unfold m'; rewrite fmap_insert; reflexivity).
  split; [rewrite V; apply (path_head _ h); assumption | split; [| exact V]]. apply (fmap_insert_same _ _ x g); auto.
Qed.

Lemma put_behind (m : gmap Z tcp_seg) x g r gr l1 l2 h : m !! x = Some g -> m !! r = Some gr -> x <> r ->
  path (sg_next <$> m) h (l1 ++ r :: l2) -> x <> 0 -> x ∉ l1 ++ r :: l2 ->
  let m' := <[r := set_sg_next x gr]> (<[x := set_sg_next (first_of l2) g]> m) in
  path (sg_next <$> m') h (l1 ++ r :: x :: l2) /\ set_sg_next 0 <$> m' = set_sg_next 0 <$> m /\
  sg_next <$> m' = <[r := x]> (<[x := first_of l2]> (sg_next <$> m)).
Proof.
  intros E Er Nr P N Ni m'.
  assert (V : sg_next <$> m' = <[r := x]> (<[x := first_of l2]> (sg_next <$> m))) by (unfold m'; rewrite !fmap_insert; reflexivity).
  split; [rewrite V; apply path_put; assumption | split; [| exact V]]. unfold m'.
  rewrite (fmap_insert_same (set_sg_next 0) _ r gr); [apply (fmap_insert_same _ _ x g); auto | | reflexivity].
  rewrite lookup_insert_ne by congruence. exact Er.
Qed.

(** The control block that [tcp_rexmit] leaves. *)
Definition rexmit_pcb (b : tcp_pcb) (unacked unsent cur : Z) : tcp_pcb :=
  let b := b |> set_tp_unacked unacked |> set_tp_unsent unsent in
  let b := if cur =? 0 then b |> set_tp_unsent_oversize 0 else b in
  b |> set_tp_nrtx (u8 (tp_nrtx b + 1)) |> set_tp_rttest 0.

Lemma set_unsent_id b : set_tp_unsent (tp_unsent b) b = b.
Proof. destruct b; reflexivity. Qed.

(** What is left when the segment was linked into the queue. *)
Lemma rexmit_finish s pcb b cur : pcb_at s pcb = Some b ->
  (s ← (if cur =? 0 then upd s pcb (set_tp_unsent_oversize 0) else Some s);
   upd s pcb (fun b => b |> set_tp_nrtx (u8 (tp_nrtx b + 1)) |> set_tp_rttest 0)) =
  Some (set_tcp s (set_tv_pcbs (<[pcb := rexmit_pcb b (tp_unacked b) (tp_unsent b) cur]> (tv_pcbs (tcp_of s))) (tcp_of s))).
Proof.
  intros E. assert (Eq : forall b0, set_tp_unsent (tp_unsent b0) (set_tp_unacked (tp_unacked b0) b0) = b0) by (intros []; reflexivity).
  unfold rexmit_pcb. rewrite Eq. destruct (cur =? 0); cbn [mbind option_bind].
  - rewrite (upd_spec s pcb b _ E). cbn [mbind option_bind]. erewrite upd_spec by (unfold pcb_at; rewrite tcp_of_set_tcp; apply lookup_insert_eq).
    rewrite tcp_of_set_tcp, set_tcp_again. cbn. rewrite insert_insert_eq. reflexivity.
  - rewrite (upd_spec s pcb b _ E). reflexivity.
Qed.

Lemma rexmit_done s pcb n m b2 cur ua us :
  n !! pcb = Some b2 -> delete pcb n = delete pcb (tv_pcbs (tcp_of s)) -> set_sg_next 0 <$> m = seg_rest (tcp_of s) ->
  path (sg_next <$> m) (tp_unacked b2) ua -> path (sg_next <$> m) (tp_unsent b2) us ->
  let s2 := set_tcp s (set_tv_pcbs n (set_tv_segs m (tcp_of s))) in
  exists s', (s ← (if cur =? 0 then upd s2 pcb (set_tp_unsent_oversize 0) else Some s2);
     upd s pcb (fun b => b |> set_tp_nrtx (u8 (tp_nrtx b + 1)) |> set_tp_rttest 0)) = Some s' /\
    requeued s s' pcb (rexmit_pcb b2 (first_of ua) (first_of us) cur) ua us /\ tv_segs (tcp_of s') = m.
Proof.
  intros E Dn R Pa Pu s2. rewrite (rexmit_finish s2 pcb b2 cur) by (unfold pcb_at, s2; rewrite tcp_of_set_tcp; exact E).
  unfold s2. rewrite tcp_of_set_tcp, set_tcp_again, <- (path_first _ _ _ Pa), <- (path_first _ _ _ Pu). set (b' := rexmit_pcb _ _ _ _).
  assert (B : tp_unacked b' = tp_unacked b2 /\ tp_unsent b' = tp_unsent b2) by (unfold b', rexmit_pcb; destruct (cur =? 0); auto).
  destruct B as (B1 & B2). eexists _. split; [reflexivity | split; [split |]]; rewrite ?tcp_of_set_tcp, ?B1, ?B2; try assumption; try reflexivity.
  - unfold pcb_at. rewrite tcp_of_set_tcp. apply lookup_insert_eq.
  - cbn. rewrite delete_insert_eq. exact Dn.
Qed.

(** The first unacknowledged segment is taken off and linked in front of those of [us2]. *)
Lemma rexmit_spec s pcb b seg ua us1 us2 :
  pcb_at s pcb = Some b -> path (seg_nexts (tcp_of s)) (tp_unacked b) (seg :: ua) -> path (seg_nexts (tcp_of s)) (tp_unsent b) (us1 ++ us2) ->
  disjoint_queues (seg :: ua) (us1 ++ us2) ->
  place (i_mem s) (tv_segs (tcp_of s)) (number (i_mem s) (tv_segs (tcp_of s)) seg) (us1 ++ us2) = (us1, us2) ->
  exists s', tcp_rexmit s pcb = Some s' /\
    requeued s s' pcb (rexmit_pcb b (first_of ua) (first_of (us1 ++ seg :: us2)) (first_of us2)) ua (us1 ++ seg :: us2) /\
    forall a, a <> seg -> last us1 <> Some a -> tv_segs (tcp_of s') !! a = tv_segs (tcp_of s) !! a.
Proof.
  intros E Pa Pu D Pl. destruct (queue_head s _ seg ua Pa) as (Hu & Ns & g & Eg & Pa'). pose proof (path_NoDup _ _ _ Pa) as Nd.
  apply NoDup_cons in Nd as [Nd _]. assert (Ni : seg ∉ us1 ++ us2) by (apply D, elem_of_cons; auto).
  unfold tcp_rexmit. rewrite E. cbn [mbind option_bind]. rewrite Hu, (proj2 (Z.eqb_neq _ _) Ns), Eg. cbn [mbind option_bind].
  rewrite (upd_spec s pcb b _ E). cbn [mbind option_bind]. set (s1 := set_tcp s _).
  assert (T1 : tcp_of s1 = set_tv_pcbs (<[pcb := set_tp_unacked (sg_next g) b]> (tv_pcbs (tcp_of s))) (tcp_of s)) by apply tcp_of_set_tcp.
  assert (Es : seg_seqno s1 g = number (i_mem s) (tv_segs (tcp_of s)) seg) by (unfold number, seg_at in *; rewrite Eg; reflexivity).
  rewrite Es, (seg_place_spec s1 (tp_unsent b) _ (us1 ++ us2)) by (rewrite T1; exact Pu). rewrite T1.
  change (tv_segs (set_tv_pcbs ?m ?t)) with (tv_segs t). change (i_mem s1) with (i_mem s). rewrite Pl. cbn [fst snd mbind option_bind].
  set (cur := first_of us2). rewrite (upd_seg_spec s1 seg g) by (unfold seg_at; rewrite T1; exact Eg). cbn [mbind option_bind].
  rewrite T1. unfold s1. rewrite set_tcp_again. clear s1 T1 Es. change (set_tv_segs ?m (set_tv_pcbs ?n ?t)) with (set_tv_pcbs n (set_tv_segs m t)).
  unfold seg_at in Eg. change (seg_nexts ?t) with (sg_next <$> tv_segs t) in *. set (m := tv_segs (tcp_of s)) in *. set (n := tv_pcbs (tcp_of s)) in *.
  destruct (decide (us1 = [])) as [->|Ne].
  - cbn [last_of List.last Z.eqb]. erewrite upd_spec by (unfold pcb_at; rewrite tcp_of_set_tcp; apply lookup_insert_eq).
    rewrite tcp_of_set_tcp, set_tcp_again. cbn [mbind option_bind]. cbn [app] in Pu, Ni |- *.
    destruct (put_first m seg g us2 _ Eg Pu Ns Ni) as (P1 & P2 & P3).
    edestruct (rexmit_done s pcb) with (b2 := set_tp_unsent seg (set_tp_unacked (sg_next g) b)) as (s' & R & Q & Sg);
      [.. | exists s'; split; [exact R | split; [exact Q |]]; intros a Na _; rewrite Sg; apply lookup_insert_ne; congruence].
    + apply lookup_insert_eq.
    + cbn. rewrite !delete_insert_eq. reflexivity.
    + exact P2.
    + change (path (sg_next <$> <[seg := set_sg_next cur g]> m) (sg_next g) ua). unfold cur. rewrite P3. apply path_insert_ne; assumption.
    + exact P1.
  - destruct (exists_last Ne) as (us0 & r & ->). assert (last_of (us0 ++ [r]) = r) as -> by apply last_last.
    rewrite <- app_assoc in Pu, Ni, D |- *. cbn [app] in Pu, Ni, D |- *.
    assert (Ir : r ∈ us0 ++ r :: us2) by (apply elem_of_app; right; apply elem_of_cons; auto).
    destruct (path_elem _ _ _ _ Pu Ir) as [Nr [q Er]]. rewrite lookup_fmap in Er. destruct (m !! r) as [gr|] eqn:Em; [| discriminate].
    assert (Nsr : seg <> r) by congruence. rewrite (proj2 (Z.eqb_neq _ _) Nr).
    erewrite upd_seg_spec by (unfold seg_at; rewrite tcp_of_set_tcp; cbn; rewrite lookup_insert_ne by congruence; exact Em).
    rewrite tcp_of_set_tcp, set_tcp_again. cbn [mbind option_bind].
    destruct (put_behind m seg g r gr us0 us2 _ Eg Em Nsr Pu Ns Ni) as (P1 & P2 & P3).
    change (set_tv_segs ?x (set_tv_pcbs ?y (set_tv_segs ?z ?t))) with (set_tv_pcbs y (set_tv_segs x t)).
    edestruct (rexmit_done s pcb) with (b2 := set_tp_unacked (sg_next g) b) as (s' & R & Q & Sg);
      [.. | exists s'; split; [exact R | split; [exact Q |]]; intros a Na Nl; rewrite last_snoc in Nl; rewrite Sg, lookup_insert_ne by congruence; apply lookup_insert_ne; congruence].
    + apply lookup_insert_eq.
    + rewrite delete_insert_eq. reflexivity.
    + exact P2.
    + change (path (sg_next <$> <[r := set_sg_next seg gr]> (<[seg := set_sg_next cur g]> m)) (sg_next g) ua). unfold cur. rewrite P3.
      apply path_insert_ne; [apply path_insert_ne; assumption|]. intros I. apply (D r); [apply elem_of_cons; auto | exact Ir].
    + exact P1.
Qed.

(** The place keeps a queue in order: [pos] are the positions in the stream. *)
Lemma place_sorted (m : memory) segs seg us (pos : Z -> Z) :
  (forall a, a ∈ seg :: us -> number m segs a = u32 (pos a)) -> (forall a, a ∈ us -> near (pos a) (pos seg)) ->
  StronglySorted Z.le (map pos us) ->
  let '(us1, us2) := place m segs (number m segs seg) us in StronglySorted Z.le (map pos (us1 ++ seg :: us2)).
Proof.
  intros Nu Ne So. rewrite (Nu seg) by (apply elem_of_cons; auto). unfold place.
  induction us as [|a us IH]; [repeat constructor|]. cbn [map] in So. apply StronglySorted_inv in So as [So Fa]. cbn [span].
  assert (Nu' : forall x, x ∈ seg :: us -> number m segs x = u32 (pos x)).
  { intros x I. apply Nu. apply elem_of_cons in I as [->|I]; [apply elem_of_cons; auto|]. do 2 (apply elem_of_cons; right). exact I. }
  specialize (IH Nu' (fun x I => Ne x (proj2 (elem_of_cons _ _ _) (or_intror I))) So).
  assert (Na : near (pos a) (pos seg)) by (apply Ne, elem_of_cons; auto).
  rewrite (Nu a) by (apply elem_of_cons; right; apply elem_of_cons; auto). rewrite (proj1 (seq_compare _ _ Na)).
  destruct (Z.ltb_spec (pos a) (pos seg)) as [Lt|Ge].
  - pose proof (span_app (fun x => TCP_SEQ_LT (number m segs x) (u32 (pos seg))) us) as Sp.
    destruct (span _ us) as [u1 u2]. cbn [app map] in *. constructor; [exact IH|]. subst us. rewrite map_app in *. cbn [map].
    apply Forall_app in Fa as [F1 F2]. apply Forall_app. split; [exact F1|]. constructor; [lia | exact F2].
  - cbn [app map]. constructor; [constructor; assumption|]. constructor; [exact Ge|].
    eapply Forall_impl; [exact Fa|]. cbn. intros. lia.
Qed.

(** C18: [tcp_rexmit] returns; it takes the first unacknowledged segment of the
    connection and puts it into the queue of unsent segments in front of the first one
    whose sequence number is not before its own, that is behind all those in front that are before
    it.  The retransmission is counted, the measurement of the round trip is stopped, and
    no room is left in the last segment when this one becomes the last; the rest of the
    control block stays.  The links of all other segments stay, but that of the segment
    in front of it, and with them the other queues; so do the
    segments but for their links, the other control blocks and the packets.  A queue in
    the order of the stream is in order afterwards, also where sequence numbers wrap
    around, when its segments are less than 2^31 bytes from this one. *)
Theorem tcp_rexmit_in_order s pcb b seg ua us :
  pcb_at s pcb = Some b -> path (seg_nexts (tcp_of s)) (tp_unacked b) (seg :: ua) ->
  path (seg_nexts (tcp_of s)) (tp_unsent b) us -> disjoint_queues (seg :: ua) us ->
  let n := number (i_mem s) (tv_segs (tcp_of s)) in
  exists us1 us2 s', us = us1 ++ us2 /\
    Forall (fun a => TCP_SEQ_LT (n a) (n seg) = true) us1 /\ (forall a, head us2 = Some a -> TCP_SEQ_LT (n a) (n seg) = false) /\
    tcp_rexmit s pcb = Some s' /\
    requeued s s' pcb (rexmit_pcb b (first_of ua) (first_of (us1 ++ seg :: us2)) (first_of us2)) ua (us1 ++ seg :: us2) /\
    (forall a, a <> seg -> last us1 <> Some a -> tv_segs (tcp_of s') !! a = tv_segs (tcp_of s) !! a) /\
    forall pos, (forall a, a ∈ seg :: us -> n a = u32 (pos a)) ->
      (forall a, a ∈ us -> near (pos a) (pos seg)) -> StronglySorted Z.le (map pos us) ->
      StronglySorted Z.le (map pos (us1 ++ seg :: us2)).
Proof.
  intros E Pa Pu D n. destruct (place (i_mem s) (tv_segs (tcp_of s)) (n seg) us) as [us1 us2] eqn:Pl.
  pose proof (span_app (fun a => TCP_SEQ_LT (n a) (n seg)) us) as Sp. pose proof (span_holds (fun a => TCP_SEQ_LT (n a) (n seg)) us) as Sh.
  change (span (fun a => TCP_SEQ_LT (n a) (n seg)) us) with (place (i_mem s) (tv_segs (tcp_of s)) (n seg) us) in Sp, Sh. rewrite Pl in Sp, Sh.
  rewrite Sp in Pu, D, Pl. destruct (rexmit_spec s pcb b seg ua us1 us2 E Pa Pu D Pl) as (s' & R & Q & Fr). destruct Sh as [S1 S2].
  exists us1, us2, s'. do 6 (split; [assumption|]).
  intros pos Nu Ne So. rewrite <- Sp in Pl. pose proof (place_sorted _ _ seg us pos Nu Ne So) as P. fold n in P. rewrite Pl in P. exact P.
Qed.

(** C17: [tcp_rexmit_rto] puts all unacknowledged segments in front of the unsent ones,
    keeping both orders, counts the retransmission, stops the measurement of the round
    trip, and sends from that queue. *)
Theorem tcp_rexmit_rto_requeues s pcb b ua us :
  pcb_at s pcb = Some b -> ua <> [] -> path (seg_nexts (tcp_of s)) (tp_unacked b) ua ->
  path (seg_nexts (tcp_of s)) (tp_unsent b) us -> disjoint_queues ua us ->
  exists s1 b1, requeued s s1 pcb b1 [] (ua ++ us) /\ tp_nrtx b1 = u8 (tp_nrtx b + 1) /\ tp_rttest b1 = 0 /\
    tcp_rexmit_rto stale custom_free netif_output s pcb = ('(s, _) ← tcp_output stale custom_free netif_output s1 pcb; Some s).
Proof.
  intros E Ne Pa Pu D. unfold tcp_rexmit_rto. rewrite E. cbn [mbind option_bind].
  assert (Nu : tp_unacked b <> 0). { destruct ua as [|x ua]; [contradiction|]. destruct (queue_head s _ x ua Pa) as (-> & N & _). exact N. }
  rewrite (proj2 (Z.eqb_neq _ _) Nu), (last_seg_spec s _ ua Ne Pa). cbn [mbind option_bind]. destruct (exists_last Ne) as (l0 & x & EL).
  assert (Lx : last_of ua = x) by (rewrite EL; apply last_last). rewrite Lx.
  assert (Ix : x ∈ ua) by (rewrite EL; apply elem_of_app; right; apply elem_of_cons; auto).
  destruct (path_elem _ _ _ _ Pa Ix) as [Nx [q Q]]. unfold seg_nexts in Q. rewrite lookup_fmap in Q.
  destruct (tv_segs (tcp_of s) !! x) as [g|] eqn:Eg; [| discriminate].
  rewrite (upd_seg_spec s x g _ Eg). cbn [mbind option_bind]. erewrite upd_spec by (unfold pcb_at; rewrite tcp_of_set_tcp; exact E).
  rewrite tcp_of_set_tcp, set_tcp_again. cbn [mbind option_bind].
  eexists _, _. split; [split | split; [| split; [| reflexivity]]]; rewrite ?tcp_of_set_tcp; try reflexivity.
  - unfold pcb_at. rewrite tcp_of_set_tcp. apply lookup_insert_eq.
  - constructor.
  - unfold seg_nexts. cbn. rewrite fmap_insert. cbn. rewrite <- Lx. apply path_join; assumption.
  - unfold seg_rest. cbn. apply (fmap_insert_same _ _ x g); auto.
  - cbn. apply delete_insert_eq.
  - reflexivity.
  - reflexivity.
Qed.

End rexmit.

(** The sample server has sent five bytes and queued five more, which wait for the
    acknowledgement. *)
Import TcpSample.

Definition waiting : state := the (s ← echoed; feed s (segment 1000 7 5006 6511 24 8192 [] hello)).
Definition conn : Z := tv_active (tcp_of waiting).
Definition conn_pcb : tcp_pcb := default (new_pcb 0 0 0 0) (pcb_at waiting conn).

Lemma waiting_queues : pcb_at waiting conn = Some conn_pcb /\
  path (seg_nexts (tcp_of waiting)) (tp_unacked conn_pcb) [tp_unacked conn_pcb] /\
  path (seg_nexts (tcp_of waiting)) (tp_unsent conn_pcb) [tp_unsent conn_pcb] /\
  disjoint_queues [tp_unacked conn_pcb] [tp_unsent conn_pcb].
Proof.
  split; [vm_compute; reflexivity | split; [| split]]; try (apply (path_cons _ _ 0); [vm_compute; discriminate | vm_compute; reflexivity | constructor]).
  intros x I J. apply list_elem_of_singleton in I, J. rewrite I in J. revert J. vm_compute. discriminate.
Qed.

Lemma single_split (x : Z) l1 l2 : [x] = l1 ++ l2 -> (l1 = [] /\ l2 = [x]) \/ (l1 = [x] /\ l2 = []).
Proof. destruct l1 as [|y [|z l1]]; [auto | | discriminate]. injection 1 as <- <-. auto. Qed.

Lemma tcp_rexmit_in_order_witness :
  exists s' b', tcp_rexmit waiting conn = Some s' /\ requeued waiting s' conn b' [] [tp_unacked conn_pcb; tp_unsent conn_pcb].
Proof.
  destruct waiting_queues as (E & Pa & Pu & D).
  destruct (tcp_rexmit_in_order waiting conn conn_pcb _ _ _ E Pa Pu D) as (us1 & us2 & s' & Es & F1 & _ & R & Q & _ & _).
  destruct (single_split _ _ _ Es) as [[-> ->] | [-> ->]]; [eauto|]. exfalso. apply Forall_inv in F1. revert F1. vm_compute. discriminate.
Defined.

Lemma tcp_rexmit_rto_requeues_witness :
  exists s1 b1, requeued waiting s1 conn b1 [] [tp_unacked conn_pcb; tp_unsent conn_pcb] /\ tp_nrtx b1 = 1 /\
    tcp_rexmit_rto undefined no_custom link waiting conn = ('(s, _) ← tcp_output undefined no_custom link s1 conn; Some s).
Proof.
  destruct waiting_queues as (E & Pa & Pu & D).
  destruct (tcp_rexmit_rto_requeues undefined no_custom link waiting conn conn_pcb _ _ E (not_eq_sym (@nil_cons Z _ _)) Pa Pu D) as (s1 & b1 & Q & N & _ & R).
  exists s1, b1. split; [exact Q | split; [| exact R]]. rewrite N. vm_compute. reflexivity.
Defined.

End TcpRexmit.
