(* ===== verification/TcpTypes.v ===== *)
(** The types of TCP's variables.

    Control blocks are records of integers, so nothing in the model forces a field into
    the range of its C type.  [typed] says that every field is in that range, that a
    segment size is at least 1 and at most [TCP_MSS], that the congestion window is never
    0, which it divides by, and that the index into the table of the persist timer is
    within it.  Every function of TCP keeps this, if the callbacks of the application do;
    so do those of the echo server. *)

From stdpp Require Import base tactics numbers list gmap.
From Stdlib Require Import ZArith Lia.
From S2P Require Import Prelude ByteOrder Stats Linked PbufDefs NetifDefs InetChksum Allocator Mem Memp PbufMem Pbuf IpAddr IpDefs IpOutput TcpDefs TcpSeg TcpOut Tcp TcpIn Echo Pres TcpFrame.

Local Open Scope Z_scope.

Module TcpTypes.
Import ByteOrder Linked InetChksum Memp Pbuf IpAddr IpDefs IpOutput TcpDefs TcpSeg TcpOut Tcp TcpIn Echo TcpFrame.

(** ** Ranges *)

Definition u8_t (x : Z) : Prop := 0 <= x < 256.
Definition u16_t (x : Z) : Prop := 0 <= x < 65536.
Definition u32_t (x : Z) : Prop := 0 <= x < 4294967296.
Definition s16_t (x : Z) : Prop := -32768 <= x < 32768.
Definition mss_t (x : Z) : Prop := 1 <= x <= TCP_MSS.
Definition cwnd_t (x : Z) : Prop := 1 <= x < 65536.
Definition backoff_t (x : Z) : Prop := 0 <= x <= 7.

Create HintDb typed.

Lemma u8_t_u8 x : u8_t (u8 x).
Proof. apply u8_range. Qed.
Lemma u16_t_u16 x : u16_t (u16 x).
Proof. apply u16_range. Qed.
Lemma u32_t_u32 x : u32_t (u32 x).
Proof. apply u32_range. Qed.
Lemma s16_t_s16 x : s16_t (s16 x).
Proof. unfold s16_t, s16. zlia. Qed.
Lemma u16_t_ld16 m a : u16_t (ld16 m a).
Proof. apply ld16_range. Qed.
Lemma u32_t_ld32 m a : u32_t (ld32 m a).
Proof. apply ld32_range. Qed.
Lemma u32_t_htonl x : u32_t (lwip_htonl x).
Proof. apply u32_range. Qed.
Lemma u8_t_if (c : bool) x y : u8_t x -> u8_t y -> u8_t (if c then x else y).
Proof. destruct c; auto. Qed.
Lemma u16_t_if (c : bool) x y : u16_t x -> u16_t y -> u16_t (if c then x else y).
Proof. destruct c; auto. Qed.
Lemma s16_t_if (c : bool) x y : s16_t x -> s16_t y -> s16_t (if c then x else y).
Proof. destruct c; auto. Qed.

Lemma or_flag_u8 x f : u8_t x -> u8_t f -> u8_t (or_flag x f).
Proof.
  unfold u8_t, or_flag. intros X F. split; [apply Z.lor_nonneg; lia|].
  destruct (Z.eq_dec (Z.lor x f) 0) as [E|N]; [lia|]. assert (0 <= Z.lor x f) by (apply Z.lor_nonneg; lia).
  change 256 with (2 ^ 8). apply Z.log2_lt_pow2; [lia|]. rewrite Z.log2_lor by lia.
  apply Z.max_lub_lt; [destruct (Z.eq_dec x 0) as [->|] | destruct (Z.eq_dec f 0) as [->|]]; cbn; try lia; apply Z.log2_lt_pow2; lia.
Qed.
Lemma clear_flag_u8 x f : u8_t x -> u8_t (clear_flag x f).
Proof.
  unfold u8_t, clear_flag. intros X. split; [apply Z.land_nonneg; lia|].
  replace x with (Z.land x 255) by (rewrite land_255; apply u8_id; lia).
  rewrite <- Z.land_assoc, (Z.land_comm 255), Z.land_assoc, land_255. apply u8_range.
Qed.

Lemma has_or x f g : Z.land f g = 0 -> has (or_flag x f) g = has x g.
Proof. intros E. unfold has, or_flag. rewrite Z.land_lor_distr_l, E, Z.lor_0_r. reflexivity. Qed.
Lemma has_clear x f g : has (clear_flag x f) g = true -> has x g = true.
Proof.
  unfold has, clear_flag. intros E. destruct (Z.land x g =? 0) eqn:Z0; [| reflexivity]. apply Z.eqb_eq in Z0.
  rewrite <- Z.land_assoc, (Z.land_comm _ g), Z.land_assoc, Z0 in E. exact E.
Qed.

#[export] Hint Resolve u8_t_u8 u16_t_u16 u32_t_u32 s16_t_s16 u16_t_ld16 u32_t_ld32 u32_t_htonl u8_t_if u16_t_if s16_t_if
   or_flag_u8 clear_flag_u8 : typed.
#[export] Hint Extern 20 (u8_t _) => solve [unfold u8_t; vm_compute; intuition discriminate] : typed.
#[export] Hint Extern 20 (u16_t _) => solve [unfold u16_t; vm_compute; intuition discriminate] : typed.
#[export] Hint Extern 20 (u32_t _) => solve [unfold u32_t; vm_compute; intuition discriminate] : typed.
#[export] Hint Extern 20 (s16_t _) => solve [unfold s16_t; vm_compute; intuition discriminate] : typed.
#[export] Hint Extern 20 (mss_t _) => solve [unfold mss_t; vm_compute; intuition discriminate] : typed.
#[export] Hint Extern 20 (cwnd_t _) => solve [unfold cwnd_t; vm_compute; intuition discriminate] : typed.
#[export] Hint Extern 20 (backoff_t _) => solve [unfold backoff_t; vm_compute; intuition discriminate] : typed.

(** ** Control blocks *)

(** The window to fall back to after a fast retransmission is not 0 while one is under
    way. *)
Record typed_pcb (b : tcp_pcb) : Prop := mkTypedPcb {
  ty_flags : u8_t (tp_flags b); ty_polltmr : u8_t (tp_polltmr b); ty_pollinterval : u8_t (tp_pollinterval b);
  ty_last_timer : u8_t (tp_last_timer b); ty_nrtx : u8_t (tp_nrtx b); ty_dupacks : u8_t (tp_dupacks b);
  ty_persist_cnt : u8_t (tp_persist_cnt b); ty_keep_cnt_sent : u8_t (tp_keep_cnt_sent b);
  ty_local_port : u16_t (tp_local_port b); ty_remote_port : u16_t (tp_remote_port b);
  ty_rcv_wnd : u16_t (tp_rcv_wnd b); ty_rcv_ann_wnd : u16_t (tp_rcv_ann_wnd b); ty_ssthresh : u16_t (tp_ssthresh b);
  ty_snd_wnd : u16_t (tp_snd_wnd b); ty_snd_wnd_max : u16_t (tp_snd_wnd_max b); ty_acked : u16_t (tp_acked b);
  ty_snd_buf : u16_t (tp_snd_buf b); ty_snd_queuelen : u16_t (tp_snd_queuelen b);
  ty_unsent_oversize : u16_t (tp_unsent_oversize b); ty_tmr : u32_t (tp_tmr b); ty_rcv_nxt : u32_t (tp_rcv_nxt b);
  ty_rcv_ann_right_edge : u32_t (tp_rcv_ann_right_edge b); ty_rttest : u32_t (tp_rttest b);
  ty_rtseq : u32_t (tp_rtseq b); ty_lastack : u32_t (tp_lastack b); ty_snd_nxt : u32_t (tp_snd_nxt b);
  ty_snd_wl1 : u32_t (tp_snd_wl1 b); ty_snd_wl2 : u32_t (tp_snd_wl2 b); ty_snd_lbb : u32_t (tp_snd_lbb b);
  ty_keep_idle : u32_t (tp_keep_idle b); ty_rtime : s16_t (tp_rtime b); ty_sa : s16_t (tp_sa b);
  ty_sv : s16_t (tp_sv b); ty_rto : s16_t (tp_rto b); ty_mss : mss_t (tp_mss b); ty_cwnd : cwnd_t (tp_cwnd b);
  ty_persist_backoff : backoff_t (tp_persist_backoff b);
  ty_recovery : has (tp_flags b) TF_INFR = true -> 1 <= tp_ssthresh b }.

Ltac typed_set := intros; match goal with H : typed_pcb _ |- _ => destruct H end; constructor; assumption.

Lemma ty_set_polltmr x b : u8_t x -> typed_pcb b -> typed_pcb (set_tp_polltmr x b).
Proof. typed_set. Qed.
Lemma ty_set_pollinterval x b : u8_t x -> typed_pcb b -> typed_pcb (set_tp_pollinterval x b).
Proof. typed_set. Qed.
Lemma ty_set_last_timer x b : u8_t x -> typed_pcb b -> typed_pcb (set_tp_last_timer x b).
Proof. typed_set. Qed.
Lemma ty_set_nrtx x b : u8_t x -> typed_pcb b -> typed_pcb (set_tp_nrtx x b).
Proof. typed_set. Qed.
Lemma ty_set_dupacks x b : u8_t x -> typed_pcb b -> typed_pcb (set_tp_dupacks x b).
Proof. typed_set. Qed.
Lemma ty_set_persist_cnt x b : u8_t x -> typed_pcb b -> typed_pcb (set_tp_persist_cnt x b).
Proof. typed_set. Qed.
Lemma ty_set_keep_cnt_sent x b : u8_t x -> typed_pcb b -> typed_pcb (set_tp_keep_cnt_sent x b).
Proof. typed_set. Qed.
Lemma ty_set_local_port x b : u16_t x -> typed_pcb b -> typed_pcb (set_tp_local_port x b).
Proof. typed_set. Qed.
Lemma ty_set_remote_port x b : u16_t x -> typed_pcb b -> typed_pcb (set_tp_remote_port x b).
Proof. typed_set. Qed.
Lemma ty_set_rcv_wnd x b : u16_t x -> typed_pcb b -> typed_pcb (set_tp_rcv_wnd x b).
Proof. typed_set. Qed.
Lemma ty_set_rcv_ann_wnd x b : u16_t x -> typed_pcb b -> typed_pcb (set_tp_rcv_ann_wnd x b).
Proof. typed_set. Qed.
Lemma ty_set_snd_wnd x b : u16_t x -> typed_pcb b -> typed_pcb (set_tp_snd_wnd x b).
Proof. typed_set. Qed.
Lemma ty_set_snd_wnd_max x b : u16_t x -> typed_pcb b -> typed_pcb (set_tp_snd_wnd_max x b).
Proof. typed_set. Qed.
Lemma ty_set_acked x b : u16_t x -> typed_pcb b -> typed_pcb (set_tp_acked x b).
Proof. typed_set. Qed.
Lemma ty_set_snd_buf x b : u16_t x -> typed_pcb b -> typed_pcb (set_tp_snd_buf x b).
Proof. typed_set. Qed.
Lemma ty_set_snd_queuelen x b : u16_t x -> typed_pcb b -> typed_pcb (set_tp_snd_queuelen x b).
Proof. typed_set. Qed.
Lemma ty_set_unsent_oversize x b : u16_t x -> typed_pcb b -> typed_pcb (set_tp_unsent_oversize x b).
Proof. typed_set. Qed.
Lemma ty_set_tmr x b : u32_t x -> typed_pcb b -> typed_pcb (set_tp_tmr x b).
Proof. typed_set. Qed.
Lemma ty_set_rcv_nxt x b : u32_t x -> typed_pcb b -> typed_pcb (set_tp_rcv_nxt x b).
Proof. typed_set. Qed.
Lemma ty_set_rcv_ann_right_edge x b : u32_t x -> typed_pcb b -> typed_pcb (set_tp_rcv_ann_right_edge x b).
Proof. typed_set. Qed.
Lemma ty_set_rttest x b : u32_t x -> typed_pcb b -> typed_pcb (set_tp_rttest x b).
Proof. typed_set. Qed.
Lemma ty_set_rtseq x b : u32_t x -> typed_pcb b -> typed_pcb (set_tp_rtseq x b).
Proof. typed_set. Qed.
Lemma ty_set_lastack x b : u32_t x -> typed_pcb b -> typed_pcb (set_tp_lastack x b).
Proof. typed_set. Qed.
Lemma ty_set_snd_nxt x b : u32_t x -> typed_pcb b -> typed_pcb (set_tp_snd_nxt x b).
Proof. typed_set. Qed.
Lemma ty_set_snd_wl1 x b : u32_t x -> typed_pcb b -> typed_pcb (set_tp_snd_wl1 x b).
Proof. typed_set. Qed.
Lemma ty_set_snd_wl2 x b : u32_t x -> typed_pcb b -> typed_pcb (set_tp_snd_wl2 x b).
Proof. typed_set. Qed.
Lemma ty_set_snd_lbb x b : u32_t x -> typed_pcb b -> typed_pcb (set_tp_snd_lbb x b).
Proof. typed_set. Qed.
Lemma ty_set_keep_idle x b : u32_t x -> typed_pcb b -> typed_pcb (set_tp_keep_idle x b).
Proof. typed_set. Qed.
Lemma ty_set_rtime x b : s16_t x -> typed_pcb b -> typed_pcb (set_tp_rtime x b).
Proof. typed_set. Qed.
Lemma ty_set_sa x b : s16_t x -> typed_pcb b -> typed_pcb (set_tp_sa x b).
Proof. typed_set. Qed.
Lemma ty_set_sv x b : s16_t x -> typed_pcb b -> typed_pcb (set_tp_sv x b).
Proof. typed_set. Qed.
Lemma ty_set_rto x b : s16_t x -> typed_pcb b -> typed_pcb (set_tp_rto x b).
Proof. typed_set. Qed.
Lemma ty_set_mss x b : mss_t x -> typed_pcb b -> typed_pcb (set_tp_mss x b).
Proof. typed_set. Qed.
Lemma ty_set_cwnd x b : cwnd_t x -> typed_pcb b -> typed_pcb (set_tp_cwnd x b).
Proof. typed_set. Qed.
Lemma ty_set_persist_backoff x b : backoff_t x -> typed_pcb b -> typed_pcb (set_tp_persist_backoff x b).
Proof. typed_set. Qed.
Lemma ty_set_local_ip x b : typed_pcb b -> typed_pcb (set_tp_local_ip x b).
Proof. typed_set. Qed.
Lemma ty_set_remote_ip x b : typed_pcb b -> typed_pcb (set_tp_remote_ip x b).
Proof. typed_set. Qed.
Lemma ty_set_so_options x b : typed_pcb b -> typed_pcb (set_tp_so_options x b).
Proof. typed_set. Qed.
Lemma ty_set_tos x b : typed_pcb b -> typed_pcb (set_tp_tos x b).
Proof. typed_set. Qed.
Lemma ty_set_ttl x b : typed_pcb b -> typed_pcb (set_tp_ttl x b).
Proof. typed_set. Qed.
Lemma ty_set_next x b : typed_pcb b -> typed_pcb (set_tp_next x b).
Proof. typed_set. Qed.
Lemma ty_set_callback_arg x b : typed_pcb b -> typed_pcb (set_tp_callback_arg x b).
Proof. typed_set. Qed.
Lemma ty_set_accept x b : typed_pcb b -> typed_pcb (set_tp_accept x b).
Proof. typed_set. Qed.
Lemma ty_set_state x b : typed_pcb b -> typed_pcb (set_tp_state x b).
Proof. typed_set. Qed.
Lemma ty_set_prio x b : typed_pcb b -> typed_pcb (set_tp_prio x b).
Proof. typed_set. Qed.
Lemma ty_set_unsent x b : typed_pcb b -> typed_pcb (set_tp_unsent x b).
Proof. typed_set. Qed.
Lemma ty_set_unacked x b : typed_pcb b -> typed_pcb (set_tp_unacked x b).
Proof. typed_set. Qed.
Lemma ty_set_ooseq x b : typed_pcb b -> typed_pcb (set_tp_ooseq x b).
Proof. typed_set. Qed.
Lemma ty_set_refused_data x b : typed_pcb b -> typed_pcb (set_tp_refused_data x b).
Proof. typed_set. Qed.
Lemma ty_set_sent x b : typed_pcb b -> typed_pcb (set_tp_sent x b).
Proof. typed_set. Qed.
Lemma ty_set_recv x b : typed_pcb b -> typed_pcb (set_tp_recv x b).
Proof. typed_set. Qed.
Lemma ty_set_connected x b : typed_pcb b -> typed_pcb (set_tp_connected x b).
Proof. typed_set. Qed.
Lemma ty_set_poll x b : typed_pcb b -> typed_pcb (set_tp_poll x b).
Proof. typed_set. Qed.
Lemma ty_set_errf x b : typed_pcb b -> typed_pcb (set_tp_errf x b).
Proof. typed_set. Qed.

Lemma ty_set_flags x b : u8_t x -> (has x TF_INFR = true -> has (tp_flags b) TF_INFR = true \/ 1 <= tp_ssthresh b) ->
  typed_pcb b -> typed_pcb (set_tp_flags x b).
Proof.
  intros X I H. destruct H. constructor; try assumption. intros F. destruct (I F) as [G|G]; [apply ty_recovery0, G | exact G].
Qed.
Lemma ty_or_flag f b : u8_t f -> Z.land f TF_INFR = 0 -> typed_pcb b -> typed_pcb (set_tp_flags (or_flag (tp_flags b) f) b).
Proof. intros F N H. apply ty_set_flags; [apply or_flag_u8; [apply H | exact F] | | exact H]. rewrite has_or; auto. Qed.
Lemma ty_clear_flag f b : typed_pcb b -> typed_pcb (set_tp_flags (clear_flag (tp_flags b) f) b).
Proof.
  intros H. apply ty_set_flags; [apply clear_flag_u8, H | | exact H]. intros G. left. eapply has_clear, G.
Qed.
Lemma ty_set_ssthresh x b : u16_t x -> 1 <= x -> typed_pcb b -> typed_pcb (set_tp_ssthresh x b).
Proof. intros X G H. destruct H. constructor; try assumption. intros _. exact G. Qed.
Lemma ty_set_ssthresh_idle x b : u16_t x -> has (tp_flags b) TF_INFR = false -> typed_pcb b -> typed_pcb (set_tp_ssthresh x b).
Proof. intros X G H. destruct H. constructor; try assumption. intros F. change (has (tp_flags b) TF_INFR = true) in F. congruence. Qed.

#[export] Hint Resolve ty_set_polltmr ty_set_pollinterval ty_set_last_timer ty_set_nrtx ty_set_dupacks ty_set_persist_cnt
   ty_set_keep_cnt_sent ty_set_local_port ty_set_remote_port ty_set_rcv_wnd ty_set_rcv_ann_wnd ty_set_snd_wnd
   ty_set_snd_wnd_max ty_set_acked ty_set_snd_buf ty_set_snd_queuelen ty_set_unsent_oversize ty_set_tmr
   ty_set_rcv_nxt ty_set_rcv_ann_right_edge ty_set_rttest ty_set_rtseq ty_set_lastack ty_set_snd_nxt
   ty_set_snd_wl1 ty_set_snd_wl2 ty_set_snd_lbb ty_set_keep_idle ty_set_rtime ty_set_sa ty_set_sv ty_set_rto
   ty_set_mss ty_set_cwnd ty_set_persist_backoff ty_set_local_ip ty_set_remote_ip ty_set_so_options ty_set_tos
   ty_set_ttl ty_set_next ty_set_callback_arg ty_set_accept ty_set_state ty_set_prio ty_set_unsent
   ty_set_unacked ty_set_ooseq ty_set_refused_data ty_set_sent ty_set_recv ty_set_connected ty_set_poll
   ty_set_errf : typed.
#[export] Hint Extern 1 (typed_pcb (set_tp_flags (clear_flag _ _) _)) => apply ty_clear_flag : typed.
#[export] Hint Extern 1 (typed_pcb (set_tp_flags (or_flag _ _) _)) => apply ty_or_flag; [| reflexivity |] : typed.
#[export] Hint Resolve ty_flags ty_polltmr ty_pollinterval ty_last_timer ty_nrtx ty_dupacks ty_persist_cnt ty_keep_cnt_sent
   ty_local_port ty_remote_port ty_rcv_wnd ty_rcv_ann_wnd ty_ssthresh ty_snd_wnd ty_snd_wnd_max ty_acked ty_snd_buf
   ty_snd_queuelen ty_unsent_oversize ty_tmr ty_rcv_nxt ty_rcv_ann_right_edge ty_rttest ty_rtseq ty_lastack ty_snd_nxt
   ty_snd_wl1 ty_snd_wl2 ty_snd_lbb ty_keep_idle ty_rtime ty_sa ty_sv ty_rto ty_mss ty_cwnd ty_persist_backoff : typed.

(** A composition of assignments, with the conditions in it. *)
Ltac typed_go := cbv zeta beta; repeat case_match; bool_to_prop; eauto 12 with typed.

Lemma cwnd_of_mss x : mss_t x -> cwnd_t x.
Proof. unfold mss_t, cwnd_t, TCP_MSS. lia. Qed.
Lemma cwnd_grown x y : cwnd_t x -> x < u16 y -> cwnd_t (u16 y).
Proof. unfold cwnd_t. pose proof (u16_range y). lia. Qed.
Lemma twice_mss x : mss_t x -> cwnd_t (u16 (x * 2)).
Proof. unfold mss_t, cwnd_t, TCP_MSS, u16. intros. zlia. Qed.
#[export] Hint Resolve cwnd_of_mss twice_mss : typed.
#[export] Hint Extern 1 (cwnd_t (u16 _)) => eapply cwnd_grown; [| eassumption] : typed.

Lemma new_pcb_typed prio iss ticks ctr : u32_t iss -> u32_t ticks -> u8_t ctr -> typed_pcb (new_pcb prio iss ticks ctr).
Proof. intros. constructor; cbn -[TCP_WND TCP_SND_BUF TCP_MSS]; eauto with typed. discriminate. Qed.

Lemma update_rcv_ann_wnd_typed b : typed_pcb b -> typed_pcb (tcp_update_rcv_ann_wnd b).1.
Proof. intros. unfold tcp_update_rcv_ann_wnd. typed_go. Qed.
Lemma tcp_ack_now_typed b : typed_pcb b -> typed_pcb (tcp_ack_now b).
Proof. intros. unfold tcp_ack_now. typed_go. Qed.
Lemma tcp_ack_typed b : typed_pcb b -> typed_pcb (tcp_ack b).
Proof.
  intros T. unfold tcp_ack. case_match; [| typed_go]. apply (ty_or_flag TF_ACK_NOW (set_tp_flags (clear_flag (tp_flags b) TF_ACK_DELAY) b)); typed_go.
Qed.
Lemma announce_typed b : typed_pcb b -> typed_pcb (announce b).
Proof. intros. unfold announce. typed_go. Qed.
Lemma open_wnd_typed n b : typed_pcb b -> typed_pcb (open_wnd n b).
Proof. intros. unfold open_wnd. typed_go. Qed.
Lemma grow_wnd_typed b : typed_pcb b -> typed_pcb (grow_wnd b).
Proof. intros. unfold grow_wnd. typed_go. Qed.
Lemma set_unsent_head_typed x b : typed_pcb b -> typed_pcb (set_unsent_head x b).
Proof. intros. unfold set_unsent_head. typed_go. Qed.
Lemma update_snd_wnd_typed q a w b : u32_t q -> u32_t a -> u16_t w -> typed_pcb b -> typed_pcb (update_snd_wnd q a w b).
Proof. intros. unfold update_snd_wnd. typed_go. Qed.
Lemma new_ack_typed a b : u32_t a -> typed_pcb b -> typed_pcb (new_ack a b).
Proof.
  intros A T. unfold new_ack.
  set (c := if has (tp_flags b) TF_INFR then _ else b). assert (C : typed_pcb c).
  { unfold c. case_match; [| exact T]. pose proof (ty_recovery b T ltac:(assumption)) as R. destruct (ty_ssthresh b T) as [_ S].
    apply ty_set_cwnd; [exact (conj R S) | typed_go]. }
  clearbody c. cbv zeta. match goal with |- context [tp_state ?d] => set (e := d) end.
  assert (E : typed_pcb e) by (unfold e; eauto 12 with typed). clearbody e. typed_go.
Qed.
Lemma estimate_rtt_typed t a b : typed_pcb b -> typed_pcb (estimate_rtt t a b).
Proof. intros. unfold estimate_rtt. typed_go. Qed.
Lemma take_wnd_typed x n b : u32_t x -> typed_pcb b -> typed_pcb (take_wnd x n b).
Proof. intros. unfold take_wnd. apply update_rcv_ann_wnd_typed. typed_go. Qed.

#[export] Hint Resolve new_pcb_typed tcp_ack_now_typed tcp_ack_typed announce_typed open_wnd_typed grow_wnd_typed set_unsent_head_typed
   update_snd_wnd_typed new_ack_typed estimate_rtt_typed take_wnd_typed : typed.

(** ** The variables *)

Definition typed_listen (b : tcp_pcb_listen) : Prop :=
  u16_t (lp_local_port b) /\ u8_t (lp_backlog b) /\ u8_t (lp_accepts_pending b).

Record typed_in (i : tcp_in) : Prop := mkTypedIn {
  ty_in_seqno : u32_t (ti_seqno i); ty_in_ackno : u32_t (ti_ackno i); ty_in_tcplen : u16_t (ti_tcplen i) }.

Record typed_vars (t : tcp_vars) : Prop := mkTypedVars {
  ty_pcbs : map_Forall (fun _ => typed_pcb) (tv_pcbs t); ty_lpcbs : map_Forall (fun _ => typed_listen) (tv_lpcbs t);
  ty_in : typed_in (tv_in t); ty_port : u16_t (tv_port t); ty_ticks : u32_t (tv_ticks t); ty_timer : u8_t (tv_timer t);
  ty_timer_ctr : u8_t (tv_timer_ctr t); ty_iss : u32_t (tv_iss t) }.

(** An interface has no limit or room for more than the headers. *)
Definition mtu_ok (n : netif) : Prop := nif_mtu n = 0 \/ 40 < nif_mtu n < 65536.

Section state.
Context {W X U : Type} `{MemSystem W} `{HasTcp U} `{MempStats W}.
Context (stale : Z -> Z) (custom_free : pstate W -> Z -> option (pstate W)).
Context (netif_output : X -> pstate W -> Z -> netif -> Z -> Z -> option (X * pstate W * Z)).
Implicit Type s : istate W X U.

Definition typed s : Prop := typed_vars (tcp_of s) /\ Forall (fun e => mtu_ok e.2) (i_netifs s).

Lemma typed_at s pcb b : typed s -> pcb_at s pcb = Some b -> typed_pcb b.
Proof. intros (T & _) E. exact (ty_pcbs _ T _ _ E). Qed.
Lemma typed_lat s pcb b : typed s -> lpcb_at s pcb = Some b -> typed_listen b.
Proof. intros (T & _) E. exact (ty_lpcbs _ T _ _ E). Qed.
Lemma typed_inp s : typed s -> typed_in (inp s).
Proof. intros (T & _). apply T. Qed.
Lemma typed_seqno s : typed s -> u32_t (ti_seqno (inp s)).
Proof. intros (T & _). apply T. Qed.
Lemma typed_ackno s : typed s -> u32_t (ti_ackno (inp s)).
Proof. intros (T & _). apply T. Qed.
Lemma typed_ticks s : typed s -> u32_t (tv_ticks (tcp_of s)).
Proof. intros (T & _). apply T. Qed.
Lemma typed_timer_ctr s : typed s -> u8_t (tv_timer_ctr (tcp_of s)).
Proof. intros (T & _). apply T. Qed.

Lemma typed_netif s np n : typed s -> netif_at s np = Some n -> mtu_ok n.
Proof.
  intros (_ & F) E. unfold netif_at in E. induction F as [|[a m] l M F IH]; [discriminate|]. cbn in E.
  destruct (a =? np); [injection E as <-; exact M | exact (IH E)].
Qed.

Lemma typed_set_tcp s t : typed s -> typed_vars t -> typed (set_tcp s t).
Proof. intros (_ & F) T. split; [rewrite tcp_of_set_tcp; exact T | exact F]. Qed.

Lemma typed_above s0 s : typed s0 -> above s0 s -> typed s.
Proof. intros (T & F) (E & N & _). split; [unfold tcp_of; rewrite E; exact T | rewrite N; exact F]. Qed.
Lemma above_typed {A} `{HasState (istate W X U) A} s (r : option A) : typed s -> pres (above s) r -> pres typed r.
Proof. intros T. apply pres_weaken. intros x. apply typed_above, T. Qed.

Lemma typed_set_i_p s ps : typed s -> typed (set_i_p s ps).
Proof. exact id. Qed.
Lemma typed_write s m : typed s -> typed (i_write s m).
Proof. exact id. Qed.
Lemma typed_set_w s w : typed s -> typed (set_w s w).
Proof. exact id. Qed.
Lemma typed_if (c : bool) s s' : typed s -> typed s' -> typed (if c then s else s').
Proof. destruct c; auto. Qed.

(** An assignment to a variable that has no type here. *)
Lemma typed_vars_ext t t' : typed_vars t -> tv_pcbs t' = tv_pcbs t -> tv_lpcbs t' = tv_lpcbs t -> tv_in t' = tv_in t ->
  tv_port t' = tv_port t -> tv_ticks t' = tv_ticks t -> tv_timer t' = tv_timer t -> tv_timer_ctr t' = tv_timer_ctr t ->
  tv_iss t' = tv_iss t -> typed_vars t'.
Proof. intros [] E1 E2 E3 E4 E5 E6 E7 E8. constructor; rewrite ?E1, ?E2, ?E3, ?E4, ?E5, ?E6, ?E7, ?E8; assumption. Qed.
Lemma typed_stats s c : typed s -> typed (TCP_STATS_INC c s).
Proof. intros T. apply typed_set_tcp; [exact T|]. apply (typed_vars_ext (tcp_of s)); [apply T | reflexivity ..]. Qed.
Lemma typed_segs s g : typed s -> typed (set_tcp s (set_tv_segs g (tcp_of s))).
Proof. intros T. apply typed_set_tcp; [exact T|]. apply (typed_vars_ext (tcp_of s)); [apply T | reflexivity ..]. Qed.
Lemma typed_put_seg s a g : typed s -> typed (put_seg s a g).
Proof. apply typed_segs. Qed.
Lemma typed_upd_seg s a f : typed s -> pres typed (upd_seg s a f).
Proof. intros T. unfold upd_seg. apply pres_let. intros. apply pres_some, typed_put_seg, T. Qed.
Lemma typed_list_head s l x : typed s -> typed (set_tcp s (set_list_head l x (tcp_of s))).
Proof. intros T. apply typed_set_tcp; [exact T|]. apply (typed_vars_ext (tcp_of s)); [apply T | destruct l; reflexivity ..]. Qed.
Lemma typed_listen_head s x : typed s -> typed (set_tcp s (set_tv_listen x (tcp_of s))).
Proof. intros T. apply typed_set_tcp; [exact T|]. apply (typed_vars_ext (tcp_of s)); [apply T | reflexivity ..]. Qed.
Lemma typed_active_head s x : typed s -> typed (set_tcp s (set_tv_active x (tcp_of s))).
Proof. apply (typed_list_head s ACTIVE). Qed.
Lemma typed_changed s x : typed s -> typed (set_changed s x).
Proof. intros T. apply typed_set_tcp; [exact T|]. apply (typed_vars_ext (tcp_of s)); [apply T | reflexivity ..]. Qed.
Lemma typed_input_pcb s x : typed s -> typed (set_input_pcb s x).
Proof. intros T. apply typed_set_tcp; [exact T|]. apply (typed_vars_ext (tcp_of s)); [apply T | reflexivity ..]. Qed.

Lemma typed_pcbs s m : typed s -> map_Forall (fun _ => typed_pcb) m -> typed (set_tcp s (set_tv_pcbs m (tcp_of s))).
Proof. intros T M. apply typed_set_tcp; [exact T|]. destruct T as ([] & _). constructor; assumption. Qed.
Lemma typed_lpcbs s m : typed s -> map_Forall (fun _ => typed_listen) m -> typed (set_tcp s (set_tv_lpcbs m (tcp_of s))).
Proof. intros T M. apply typed_set_tcp; [exact T|]. destruct T as ([] & _). constructor; assumption. Qed.
Lemma typed_put_pcb s pcb b : typed s -> typed_pcb b -> typed (put_pcb s pcb b).
Proof. intros T B. apply typed_pcbs; [exact T|]. apply map_Forall_insert_2; [exact B | apply T]. Qed.
Lemma typed_put_lpcb s pcb b : typed s -> typed_listen b -> typed (put_lpcb s pcb b).
Proof. intros T B. apply typed_lpcbs; [exact T|]. apply map_Forall_insert_2; [exact B | apply T]. Qed.
Lemma typed_free_pcb s pcb : typed s -> typed (free_pcb s pcb).
Proof. intros T. apply (typed_pcbs (set_w s _)); [exact T|]. apply map_Forall_delete, T. Qed.
Lemma typed_free_lpcb s pcb : typed s -> typed (free_lpcb s pcb).
Proof. intros T. apply (typed_lpcbs (set_w s _)); [exact T|]. apply map_Forall_delete, T. Qed.
Lemma typed_upd_in s f : typed s -> (typed_in (inp s) -> typed_in (f (inp s))) -> typed (upd_in s f).
Proof. intros T F. apply typed_set_tcp; [exact T|]. destruct T as ([] & _). constructor; try assumption. apply F. assumption. Qed.

(** Assignments to fields of a control block. *)
Lemma typed_upd s pcb f : typed s -> (forall b, pcb_at s pcb = Some b -> typed_pcb b -> typed_pcb (f b)) -> pres typed (upd s pcb f).
Proof.
  intros T F. unfold upd. apply pres_let. intros b E. apply pres_some, typed_put_pcb; [exact T|]. exact (F b E (typed_at s pcb b T E)).
Qed.

End state.

#[export] Hint Resolve typed_set_i_p typed_write typed_set_w typed_if typed_stats typed_segs typed_put_seg typed_upd_seg
   typed_list_head typed_active_head typed_listen_head typed_changed typed_input_pcb typed_put_pcb typed_put_lpcb typed_free_pcb
   typed_free_lpcb : pres.

Lemma listen_next_typed x b : typed_listen b -> typed_listen (set_lp_next x b).
Proof. exact id. Qed.
Lemma listen_state_typed x b : typed_listen b -> typed_listen (set_lp_state x b).
Proof. exact id. Qed.
Lemma listen_arg_typed x b : typed_listen b -> typed_listen (set_lp_callback_arg x b).
Proof. exact id. Qed.
Lemma listen_accept_typed x b : typed_listen b -> typed_listen (set_lp_accept x b).
Proof. exact id. Qed.
Lemma listen_ip_typed x b : typed_listen b -> typed_listen (set_lp_local_ip x b).
Proof. exact id. Qed.
Lemma listen_pending_typed x b : typed_listen b -> typed_listen (set_lp_accepts_pending (u8 x) b).
Proof. intros (P & B & _). split; [exact P|]. split; [exact B | apply u8_t_u8]. Qed.
#[export] Hint Resolve listen_next_typed listen_state_typed listen_arg_typed listen_accept_typed listen_ip_typed
   listen_pending_typed : pres.
#[export] Hint Resolve typed_seqno typed_ackno typed_ticks typed_timer_ctr : typed.

#[export] Hint Extern 1 (u32_t _) => solve [eauto 3 with typed] : pres.

Create HintDb post discriminated.
#[export] Hint Constants Opaque : post.

(** What is known about the control blocks that were looked up. *)
Ltac ty_learn :=
  repeat match goal with
  | T : typed ?s, E : pcb_at ?s _ = Some ?b |- _ =>
      lazymatch goal with _ : typed_pcb b |- _ => fail | _ => pose proof (typed_at _ _ _ T E) end
  | T : typed ?s, E : lpcb_at ?s _ = Some ?b |- _ =>
      lazymatch goal with _ : typed_listen b |- _ => fail | _ => pose proof (typed_lat _ _ _ T E) end
  end.

Ltac ty_norm := repeat match goal with x : prod _ _ |- _ => destruct x end; pres_clean; cbn [fst snd] in *; ty_learn.
Ltac ty_upd := lazymatch goal with |- pres typed (upd _ _ _) => idtac end; apply typed_upd; [solve [eauto 5 with pres] | intros ? ? ?; ty_learn; typed_go].
Ltac ty_one :=
  lazymatch goal with
  | |- pres _ (mbind _ _) =>
      first [eapply pres_post; [solve [eauto 4 with post] | intros ? ?; ty_norm; intuition idtac]
            | apply pres_bind; [| intros ? ?; ty_norm] | apply pres_let; intros ? ?; ty_norm]
  | |- _ => pres_step
  end.

Ltac ty_rule :=
  lazymatch goal with
  | |- pres _ (mbind _ _) => ty_one
  | |- pres _ (mjoin (while _ _ _)) => ty_one
  | |- pres _ (match _ with _ => _ end) => ty_one
  | |- pres _ (Some _) => ty_one
  | |- pres _ None => ty_one
  | |- pres_turn _ (match _ with _ => _ end) => ty_one
  | |- pres _ (upd _ _ _) => ty_upd
  | |- _ => first [solve [eauto 8 with pres] | assumption | ty_one]
  end.
Ltac ty_go := repeat (pres_clean; first [progress cbn beta iota zeta | ty_rule]); pres_clean.

(** The same for [post]. *)
Ltac ty_post :=
  lazymatch goal with
  | |- post _ (Some _) => apply post_some
  | |- post _ None => apply post_none
  | |- post _ (mbind _ _) =>
      first [eapply post_bind; [solve [eauto 4 with post] | intros ? ?; ty_norm; intuition idtac]
            | eapply (post_pres typed); [solve [eauto 8 with pres | ty_upd | ty_go] | intros ? ?; ty_norm] | apply post_let; intros ? ?; ty_norm]
  | |- post _ (let '(_, _) := ?x in _) => destruct x eqn:?
  | |- post _ (match ?x with _ => _ end) => destruct x eqn:?
  end.

#[export] Hint Extern 1 (pres typed (i_free _ _ _)) => eapply above_typed; [| apply i_free_above, above_refl] : pres.
#[export] Hint Extern 1 (pres typed (i_header _ _ _)) => eapply above_typed; [| apply i_header_above, above_refl] : pres.
#[export] Hint Extern 1 (pres typed (t_alloc _ _ _ _ _ _)) => eapply above_typed; [| apply t_alloc_above, above_refl] : pres.
#[export] Hint Extern 1 (pres typed (ip_route _ _)) => eapply above_typed; [| apply ip_route_above, above_refl] : pres.
#[export] Hint Extern 1 (pres typed (ip_output _ _ _ _ _ _ _ _ _ _)) => eapply above_typed; [| apply ip_output_above, above_refl] : pres.

Section functions.
Context {W X U : Type} `{MemSystem W} `{HasTcp U} `{MempStats W}.
Context (stale : Z -> Z) (custom_free : pstate W -> Z -> option (pstate W)).
Context (netif_output : X -> pstate W -> Z -> netif -> Z -> Z -> option (X * pstate W * Z)).
Implicit Type s : istate W X U.

Local Abbreviation keeps r := (pres typed r).

(** ** Lists and segments *)

Lemma reg_typed s l pcb : typed s -> keeps (TCP_REG s l pcb).
Proof. intros. unfold TCP_REG. ty_go. Qed.
Lemma rmv_typed s l pcb : typed s -> keeps (TCP_RMV s l pcb).
Proof. intros. unfold TCP_RMV. ty_go. Qed.
Lemma reg_listen_typed s pcb : typed s -> keeps (TCP_REG_LISTEN s pcb).
Proof. intros. unfold TCP_REG_LISTEN. ty_go. Qed.
Lemma seg_free_typed s seg : typed s -> keeps (tcp_seg_free custom_free s seg).
Proof. intros. unfold tcp_seg_free. ty_go. Qed.
#[local] Hint Resolve reg_typed rmv_typed seg_free_typed : pres.
Lemma segs_free_typed s seg : typed s -> keeps (tcp_segs_free custom_free s seg).
Proof. intros. unfold tcp_segs_free, segs_free_body. ty_go. Qed.
Lemma seg_copy_typed s g : typed s -> keeps (tcp_seg_copy s g).
Proof. intros. unfold tcp_seg_copy. ty_go. Qed.
Lemma rmv_listen_typed s pcb : typed s -> keeps (TCP_RMV_LISTEN s pcb).
Proof. intros. unfold TCP_RMV_LISTEN. ty_go. Qed.
Lemma reg_active_typed s pcb : typed s -> keeps (TCP_REG_ACTIVE s pcb).
Proof. intros. unfold TCP_REG_ACTIVE. ty_go. Qed.
Lemma rmv_active_typed s pcb : typed s -> keeps (TCP_RMV_ACTIVE s pcb).
Proof. intros. unfold TCP_RMV_ACTIVE. ty_go. Qed.
#[local] Hint Resolve segs_free_typed seg_copy_typed reg_listen_typed rmv_listen_typed reg_active_typed rmv_active_typed : pres.

(** The result is a segment size, too. *)
Lemma eff_send_mss_typed s mss a : typed s -> mss_t mss -> post (fun y : istate W X U * Z => typed y.1 /\ mss_t y.2) (tcp_eff_send_mss s mss a).
Proof.
  intros T M [s' r] E. unfold tcp_eff_send_mss in E. apply bind_Some in E as ([s1 np] & R & E).
  pose proof (above_typed s _ T (ip_route_above s s a (above_refl s)) _ R) as T1. pres_clean.
  destruct (negb (np =? 0)); [| injection E as <- <-; exact (conj T1 M)].
  apply bind_Some in E as (n & N & E). destruct (typed_netif s1 np n T1 N) as [Z0|L].
  - rewrite Z0 in E. injection E as <- <-. exact (conj T1 M).
  - destruct (negb (nif_mtu n =? 0)); injection E as <- <-; [| exact (conj T1 M)]. split; [exact T1|].
    unfold LWIP_MIN, mss_t in *. cbn [snd]. destruct (_ <? _) eqn:C; [exact M|]. unfold IP_HLEN, TCP_HLEN in *.
    unfold u16 in *. rewrite Z.mod_small in * by lia. lia.
Qed.

Definition typed_iss (y : istate W X U * Z) : Prop := typed y.1 /\ u32_t y.2.
Lemma next_iss_typed s : typed s -> typed_iss (tcp_next_iss s).
Proof.
  intros T. split; [| apply u32_t_u32]. apply typed_set_tcp; [exact T|]. destruct T as ([] & _). constructor; try assumption.
  apply u32_t_u32.
Qed.

(** ** Output *)

#[local] Hint Resolve eff_send_mss_typed ty_mss : post.

Lemma eff_send_mss_keeps s mss a : typed s -> mss_t mss -> keeps (tcp_eff_send_mss s mss a).
Proof. intros T M y E. exact (proj1 (eff_send_mss_typed s mss a T M y E)). Qed.
Lemma alloc_header_typed s pcb o d q : typed s -> keeps (tcp_output_alloc_header stale custom_free s pcb o d q).
Proof. intros. unfold tcp_output_alloc_header. ty_go. Qed.
Lemma send_typed s p h src d ttl tos : typed s -> keeps (chksum_and_send stale custom_free netif_output s p h src d ttl tos).
Proof. intros. unfold chksum_and_send. ty_go. Qed.
Lemma create_segment_typed s pcb p fl q o : typed s -> keeps (tcp_create_segment custom_free s pcb p fl q o).
Proof. intros. unfold tcp_create_segment. ty_go. Qed.
Lemma memerr_typed s pcb : typed s -> keeps (memerr s pcb).
Proof. intros. unfold memerr. ty_go. Qed.
#[local] Hint Resolve alloc_header_typed send_typed create_segment_typed memerr_typed : pres.
Lemma enqueue_flags_typed s pcb fl : typed s -> keeps (tcp_enqueue_flags stale custom_free s pcb fl).
Proof. intros. unfold tcp_enqueue_flags. ty_go. Qed.
#[local] Hint Resolve enqueue_flags_typed : pres.
Lemma send_fin_typed s pcb : typed s -> keeps (tcp_send_fin stale custom_free s pcb).
Proof. intros. unfold tcp_send_fin. ty_go. Qed.

(** The bytes behind the data are counted in 16 bits. *)
Lemma prealloc_typed s l n m pcb fl b :
  typed s -> post (fun y : istate W X U * Z * Z => typed y.1.1 /\ u16_t y.2) (tcp_pbuf_prealloc stale custom_free s l n m pcb fl b).
Proof. intros. unfold tcp_pbuf_prealloc. cbv zeta. repeat ty_post; cbn [fst snd]; eauto with typed pres. Qed.
Lemma t_copy_typed s d src n : typed s -> keeps (t_copy s d src n).
Proof. intros. unfold t_copy. ty_go. Qed.
#[local] Hint Resolve prealloc_typed : post.
#[local] Hint Resolve send_fin_typed t_copy_typed : pres.
Lemma write_memerr_typed s pcb c q : typed s -> keeps (write_memerr custom_free s pcb c q).
Proof. intros. unfold write_memerr. ty_go. Qed.
#[local] Hint Resolve write_memerr_typed : pres.

Definition typed_tail (y : istate W X U * option write_tail) : Prop :=
  typed y.1 /\ match y.2 with Some t => u16_t (wt_oversize t) /\ u16_t (wt_queuelen t) | None => True end.
Lemma typed_tail_some s t : typed s -> u16_t (wt_oversize t) -> u16_t (wt_queuelen t) -> typed_tail (s, Some t).
Proof. intros T O Q. exact (conj T (conj O Q)). Qed.
Lemma write_extend_typed s pcb b arg n fl mss :
  typed s -> typed_pcb b -> post typed_tail (write_extend stale custom_free s pcb b arg n fl mss).
Proof.
  intros T B. unfold write_extend. cbv zeta.
  destruct (tp_unsent b =? 0); [apply post_some, typed_tail_some; cbn; eauto with typed|].
  repeat (apply post_let; intros ? ?). destruct (_ && _); [| apply post_some, typed_tail_some; cbn; eauto with typed].
  apply (post_bind (fun y : istate W X U * Z * Z => typed y.1.1 /\ u16_t y.2)).
  - repeat ty_post; cbn [fst snd]; eauto with typed pres.
  - intros [[s1 p] over] [T1 O]. cbn [fst snd] in *. case_match; [apply post_some; split; [exact T1 | exact I]|].
    apply post_let. intros k _. apply post_some, typed_tail_some; cbn; eauto with typed.
Qed.

Lemma write_packet_typed s pcb src n fl mss o f : typed s -> u16_t o ->
  post (fun y : istate W X U * Z * Z => typed y.1.1 /\ u16_t y.2) (write_packet stale custom_free s pcb src n fl mss o f).
Proof. intros. unfold write_packet. cbv zeta. repeat ty_post; cbn [fst snd]; eauto with typed pres. Qed.

Definition typed_queue (y : istate W X U * write_queue) : Prop :=
  typed y.1 /\ u16_t (wq_oversize y.2) /\ u16_t (wq_queuelen y.2).
Definition typed_written (r : option (istate W X U * Z * option write_queue)) : Prop :=
  post (fun y => typed y.1.1 /\ match y.2 with Some q => u16_t (wq_oversize q) /\ u16_t (wq_queuelen q) | None => True end) r.

Lemma write_body_typed pcb arg n fl mss lbb (y : istate W X U * write_queue) :
  typed_queue y ->
  match write_body stale custom_free pcb arg n fl mss lbb y with inl y => typed_queue y | inr r => typed_written r end.
Proof.
  destruct y as [s q]. intros (T & O & Q). unfold write_body. cbn [fst snd] in *. cbv zeta.
  destruct (_ <? _); [| apply post_some; exact (conj T (conj O Q))].
  destruct (write_packet _ _ _ _ _ _ _ _ _ _) as [[[s1 p] over]|] eqn:E; [| apply post_none].
  destruct (write_packet_typed _ _ _ _ _ _ _ _ T O _ E) as [T1 O1]. cbn [fst snd] in *.
  destruct (p =? 0); [apply post_some; exact (conj T1 I)|].
  destruct (pbuf_clen _ _) as [k|]; [| apply post_none].
  destruct (_ || _).
  { eapply (post_pres typed); [eauto 3 with pres|]. intros s2 T2. apply post_some. exact (conj T2 I). }
  destruct (tcp_create_segment _ _ _ _ _ _ _) as [[s2 seg]|] eqn:E2; [| apply post_none].
  pose proof (create_segment_typed _ _ _ _ _ _ T1 _ E2) as T2. pres_clean.
  destruct (seg =? 0); [apply post_some; exact (conj T2 I)|].
  match goal with |- context [match ?r with Some _ => _ | None => _ end] => destruct r as [[s3 u]|] eqn:E3 end; [| apply post_none].
  assert (T3 : typed s3); [| exact (conj T3 (conj O1 (u16_t_u16 _)))].
  revert E3. change (typed s3) with (typed (state_in (s3, u))). generalize (s3, u). clear s3 u.
  change (keeps (s4 ← upd_seg s2 seg (set_sg_oversize_left over);
    if wq_queue q =? 0 then Some (s4, seg) else s5 ← upd_seg s4 (wq_prev q) (set_sg_next seg); Some (s5, wq_queue q))). ty_go.
Qed.

Lemma bump_body_typed arg n (y : istate W X U * Z) : typed (state_in y) -> pres_turn typed (bump_body arg n y).
Proof. intros. unfold bump_body. destruct y as [s p]. ty_go. Qed.
#[local] Hint Resolve bump_body_typed : pres.

Lemma write_commit_typed s pcb arg n fl t q :
  typed s -> u16_t (wq_oversize q) -> u16_t (wq_queuelen q) -> keeps (write_commit s pcb arg n fl t q).
Proof. intros. unfold write_commit. ty_go. Qed.

Lemma write_checks_typed s pcb n : typed s -> keeps (tcp_write_checks s pcb n).
Proof. intros. unfold tcp_write_checks. ty_go. Qed.
#[local] Hint Resolve write_checks_typed : pres.

Lemma post_mjoin {A B} (Q : B -> Prop) n (body : A -> A + option B) x : post (post Q) (while n body x) -> post Q (mjoin (while n body x)).
Proof. intros P y E. destruct (while n body x) as [r|]; [| discriminate]. exact (P r eq_refl y E). Qed.

Lemma write_typed s pcb arg n fl : typed s -> keeps (tcp_write stale custom_free s pcb arg n fl).
Proof.
  intros T. unfold tcp_write. apply pres_let. intros b B. pose proof (typed_at s pcb b T B) as TB. cbv zeta.
  destruct (arg =? 0); [ty_go|]. apply pres_bind; [ty_go|]. intros [s1 err] T1. pres_clean.
  destruct (negb _); [ty_go|].
  eapply pres_post; [apply write_extend_typed; [exact T1 | exact TB]|]. intros [s2 [t|]] [T2 Q]; cbn [fst snd] in *; [| ty_go].
  eapply pres_post.
  { apply post_mjoin, (post_while typed_queue typed_written); [apply write_body_typed | exact (conj T2 Q)]. }
  intros [[s3 queue] [q|]] [T3 Q3]; cbn [fst snd] in *; [| ty_go]. apply write_commit_typed; [exact T3 | apply Q3 ..].
Qed.
#[local] Hint Resolve write_typed : pres.

(** ** Sending *)

Lemma empty_ack_typed s pcb : typed s -> keeps (tcp_send_empty_ack stale custom_free netif_output s pcb).
Proof. intros. unfold tcp_send_empty_ack. ty_go. Qed.
Lemma mss_const : mss_t TCP_MSS.
Proof. vm_compute. intuition discriminate. Qed.
#[local] Hint Resolve eff_send_mss_keeps mss_const : pres.
Lemma output_segment_typed s seg pcb : typed s -> keeps (tcp_output_segment stale custom_free netif_output s seg pcb).
Proof. intros. unfold tcp_output_segment. ty_go. Qed.
Lemma output_queue_typed s pcb seg useg : typed s -> keeps (output_queue custom_free s pcb seg useg).
Proof. intros. unfold output_queue. ty_go. Qed.
#[local] Hint Resolve empty_ack_typed output_segment_typed output_queue_typed : pres.
Lemma output_body_typed pcb wnd (y : istate W X U * Z) :
  typed (state_in y) -> pres_turn typed (output_body stale custom_free netif_output pcb wnd y).
Proof. intros. unfold output_body. destruct y as [s u]. ty_go. Qed.
#[local] Hint Resolve output_body_typed : pres.
Lemma output_typed s pcb : typed s -> keeps (tcp_output stale custom_free netif_output s pcb).
Proof. intros. unfold tcp_output. ty_go. Qed.
Lemma rst_typed s q a lip rip lp rp : typed s -> keeps (tcp_rst stale custom_free netif_output s q a lip rip lp rp).
Proof. intros. unfold tcp_rst. ty_go. Qed.
#[local] Hint Resolve output_typed rst_typed : pres.
Lemma rexmit_rto_typed s pcb : typed s -> keeps (tcp_rexmit_rto stale custom_free netif_output s pcb).
Proof. intros. unfold tcp_rexmit_rto. ty_go. Qed.
Lemma rexmit_typed s pcb : typed s -> keeps (tcp_rexmit s pcb).
Proof. intros. unfold tcp_rexmit. ty_go. Qed.
#[local] Hint Resolve rexmit_rto_typed rexmit_typed : pres.

(** Half the window, but at least two segments: what [tcp_rexmit_fast] and the
    retransmission timer set [ssthresh] to. *)
Lemma half_window x b : 0 <= x < 65536 -> typed_pcb b ->
  let c := set_tp_ssthresh (x / 2) b in
  let d := if tp_ssthresh c <? 2 * tp_mss c then set_tp_ssthresh (u16 (2 * tp_mss c)) c else c in
  typed_pcb d /\ 1 <= tp_ssthresh d <= 32767.
Proof.
  intros Hx T c d. pose proof (ty_mss b T) as M. unfold mss_t, TCP_MSS in M.
  assert (S : tp_ssthresh d = if x / 2 <? 2 * tp_mss b then 2 * tp_mss b else x / 2).
  { unfold d, c. cbn. destruct (_ <? _); cbn; [apply u16_id; lia | reflexivity]. }
  assert (R : 1 <= tp_ssthresh d <= 32767) by (rewrite S; clear S; clearbody d c; destruct (Z.ltb_spec (x / 2) (2 * tp_mss b)); zlia).
  split; [| exact R]. replace d with (set_tp_ssthresh (tp_ssthresh d) b).
  - apply ty_set_ssthresh; [unfold u16_t; lia | apply R | exact T].
  - unfold d, c. destruct (_ <? _); reflexivity.
Qed.

Lemma rexmit_fast_typed s pcb : typed s -> keeps (tcp_rexmit_fast s pcb).
Proof.
  intros T. unfold tcp_rexmit_fast. apply pres_let. intros b0 _. case_match; [| ty_go].
  apply pres_bind; [ty_go|]. intros s1 T1. pres_clean. apply typed_upd; [exact T1|]. intros b _ B.
  assert (Hd : forall d, typed_pcb d /\ 1 <= tp_ssthresh d <= 32767 -> typed_pcb
    (set_tp_flags (or_flag (tp_flags d) TF_INFR) (set_tp_cwnd (u16 (tp_ssthresh d + 3 * tp_mss d)) d))).
  { intros d [D R]. pose proof (ty_mss d D) as M. unfold mss_t, TCP_MSS in M. apply ty_set_flags.
    - apply or_flag_u8; [apply D | vm_compute; intuition discriminate].
    - intros _. right. apply R.
    - apply ty_set_cwnd; [| exact D]. unfold cwnd_t. rewrite u16_id by lia. lia. }
  cbv zeta. apply (Hd (if tp_ssthresh _ <? _ then _ else _)).
  pose proof (ty_snd_wnd b B). pose proof (ty_cwnd b B) as [C1 C2].
  destruct (tp_snd_wnd b <? tp_cwnd b); apply half_window; assumption || lia.
Qed.

Lemma keepalive_typed s pcb : typed s -> keeps (tcp_keepalive stale custom_free netif_output s pcb).
Proof. intros. unfold tcp_keepalive. ty_go. Qed.
Lemma zero_window_probe_typed s pcb : typed s -> keeps (tcp_zero_window_probe stale custom_free netif_output s pcb).
Proof. intros. unfold tcp_zero_window_probe. ty_go. Qed.
#[local] Hint Resolve rexmit_fast_typed keepalive_typed zero_window_probe_typed : pres.

(** ** Control blocks *)

Context (app : tcp_app (istate W X U)).

(** The callbacks keep the types. *)
Record typed_app : Prop := mkTypedApp {
  accept_typed : forall s f a pcb e, typed s -> keeps (cb_accept app s f a pcb e);
  recv_typed : forall s f a pcb p e, typed s -> keeps (cb_recv app s f a pcb p e);
  sent_typed : forall s f a pcb n, typed s -> keeps (cb_sent app s f a pcb n);
  poll_typed : forall s f a pcb, typed s -> keeps (cb_poll app s f a pcb);
  connected_typed : forall s f a pcb e, typed s -> keeps (cb_connected app s f a pcb e);
  err_typed : forall s f a e, typed s -> keeps (cb_err app s f a e) }.
Context (Happ : typed_app).
#[local] Hint Resolve accept_typed recv_typed sent_typed poll_typed connected_typed err_typed : pres.

Lemma unpend_typed s b : typed s -> keeps (unpend s b).
Proof. intros. unfold unpend. ty_go. Qed.
#[local] Hint Resolve unpend_typed : pres.
Lemma purge_typed s pcb : typed s -> keeps (tcp_pcb_purge custom_free s pcb).
Proof. intros. unfold tcp_pcb_purge. ty_go. Qed.
#[local] Hint Resolve purge_typed : pres.
Lemma pcb_remove_typed s l pcb : typed s -> keeps (tcp_pcb_remove stale custom_free netif_output s l pcb).
Proof. intros. unfold tcp_pcb_remove. ty_go. Qed.
Lemma remove_listen_typed s pcb : typed s -> keeps (tcp_pcb_remove_listen s pcb).
Proof. intros. unfold tcp_pcb_remove_listen. ty_go. Qed.
#[local] Hint Resolve pcb_remove_typed remove_listen_typed : pres.
Lemma remove_active_typed s pcb : typed s -> keeps (TCP_PCB_REMOVE_ACTIVE stale custom_free netif_output s pcb).
Proof. intros. unfold TCP_PCB_REMOVE_ACTIVE. ty_go. Qed.
Lemma event_err_typed s f a e : typed s -> keeps (TCP_EVENT_ERR app s f a e).
Proof. intros. unfold TCP_EVENT_ERR. ty_go. Qed.
#[local] Hint Resolve remove_active_typed event_err_typed : pres.
Lemma abandon_typed s pcb r : typed s -> keeps (tcp_abandon stale custom_free netif_output app s pcb r).
Proof. intros. unfold tcp_abandon. ty_go. Qed.
Lemma abort_typed s pcb : typed s -> keeps (tcp_abort stale custom_free netif_output app s pcb).
Proof. apply abandon_typed. Qed.
Lemma close_fin_typed s pcb st : typed s -> keeps (close_fin stale custom_free netif_output s pcb st).
Proof. intros. unfold close_fin. ty_go. Qed.
#[local] Hint Resolve abandon_typed abort_typed close_fin_typed : pres.
Lemma close_shutdown_typed s pcb r : typed s -> keeps (tcp_close_shutdown stale custom_free netif_output s pcb r).
Proof. intros. unfold tcp_close_shutdown. ty_go. Qed.
#[local] Hint Resolve close_shutdown_typed : pres.
Lemma close_typed s pcb : typed s -> keeps (tcp_close stale custom_free netif_output s pcb).
Proof. intros. unfold tcp_close. ty_go. Qed.
Lemma shutdown_typed s pcb rx tx : typed s -> keeps (tcp_shutdown stale custom_free netif_output s pcb rx tx).
Proof. intros. unfold tcp_shutdown. ty_go. Qed.
#[local] Hint Resolve close_typed shutdown_typed : pres.

(** *** Ports *)

Lemma new_port_typed (t : tcp_vars) : typed_vars t -> post (fun y => typed_vars y.1 /\ u16_t y.2) (tcp_new_port t).
Proof.
  intros T. unfold tcp_new_port. apply (post_bind (fun y => u16_t y.1 /\ u16_t y.2)).
  - apply post_mjoin, (post_while (fun y => u16_t y.1) (post (fun y => u16_t y.1 /\ u16_t y.2))); [| apply T].
    intros [port n] P. unfold tcp_again_body. cbv zeta.
    set (q := if port =? _ then _ else _). assert (Q : u16_t q) by (apply u16_t_if; eauto with typed). clearbody q.
    destruct (in_lists _ _) as [[|]|]; [| apply post_some; cbn; eauto with typed | apply post_none].
    destruct (_ <? _); [apply post_some; cbn; eauto with typed | exact Q].
  - intros [p r] [P R]. apply post_some. split; [| exact R]. destruct T. constructor; assumption.
Qed.

Lemma bind_typed s pcb ip port : typed s -> u16_t port -> keeps (tcp_bind s pcb ip port).
Proof.
  intros T P. unfold tcp_bind. apply pres_let. intros st _. destruct (negb _); [ty_go|].
  apply (pres_post _ (fun y : istate W X U * Z => typed y.1 /\ u16_t y.2)).
  - destruct (port =? 0); [| apply post_some; split; assumption].
    eapply post_bind; [apply new_port_typed, T|]. intros [t q] [T1 Q]. apply post_some. split; [apply typed_set_tcp; assumption | exact Q].
  - intros [s1 q] [T1 Q]. cbn [fst snd] in *. ty_go.
Qed.

Lemma listen_typed s pcb backlog : typed s -> u8_t backlog -> keeps (tcp_listen_with_backlog s pcb backlog).
Proof.
  intros T B. unfold tcp_listen_with_backlog. apply pres_let. intros st _. destruct (negb _); [ty_go|].
  destruct (ms_memp_malloc _ _) as [w lpcb]. cbv zeta. destruct (lpcb =? 0); [ty_go|]. apply pres_let. intros b E.
  pose proof (typed_at (set_w s w) pcb b T E) as Tb.
  assert (L : typed_listen (mkTcpListen (tp_local_ip b) 0 (Z.lor (tp_so_options b) SOF_ACCEPTCONN) (tp_tos b) (tp_ttl b)
                 0 (tp_callback_arg b) FN_DEFAULT LISTEN (tp_prio b) (tp_local_port b) (if backlog =? 0 then 1 else backlog) 0)).
  { split; [apply Tb|]. split; [apply u8_t_if; eauto with typed | cbn; eauto with typed]. }
  ty_go.
Qed.

Lemma connect_typed s pcb ip port f : typed s -> u16_t port -> keeps (tcp_connect stale custom_free netif_output s pcb ip port f).
Proof.
  intros T P. unfold tcp_connect. apply pres_let. intros st _. destruct (negb _); [ty_go|]. destruct ip as [ip|]; [| ty_go].
  apply pres_bind; [ty_go|]. intros s1 T1. pres_clean. apply pres_let. intros b B. pose proof (typed_at s1 pcb b T1 B) as Tb.
  apply pres_bind; [ty_go|]. intros [s2 routed] T2. pres_clean. destruct (negb routed); [ty_go|]. cbv zeta.
  apply pres_bind.
  { destruct (tp_local_port b =? 0); [| ty_go]. eapply pres_post; [apply new_port_typed, T2|]. intros [t q] [Tt Q]. cbn [fst snd] in *.
    pose proof (typed_set_tcp s2 t T2 Tt). ty_go. }
  intros [s3 lport] T3. pres_clean. destruct (lport =? 0); [ty_go|].
  pose proof (next_iss_typed s3 T3) as [T4 I]. destruct (tcp_next_iss s3) as [s4 iss]. cbn [fst snd] in *.
  apply pres_bind; [ty_go|]. intros s5 T5. pres_clean. apply pres_let. intros b5 B5. pose proof (typed_at s5 pcb b5 T5 B5) as Tb5.
  eapply pres_post; [apply eff_send_mss_typed; [exact T5 | apply Tb5]|]. intros [s6 mss] [T6 M]. cbn [fst snd] in *.
  apply pres_bind; [| intros s7 T7; pres_clean; ty_go]. apply typed_upd; [exact T6|]. intros b6 _ Tb6.
  apply ty_set_connected, ty_set_ssthresh; [apply u16_t_u16 | | eauto with typed].
  unfold mss_t, TCP_MSS in M. rewrite u16_id; lia.
Qed.

Lemma recved_typed s pcb n : typed s -> keeps (tcp_recved stale custom_free netif_output s pcb n).
Proof.
  intros T. unfold tcp_recved. apply pres_let. intros b B.
  pose proof (update_rcv_ann_wnd_typed _ (open_wnd_typed n b (typed_at s pcb b T B))) as Tb.
  destruct (tcp_update_rcv_ann_wnd _) as [c k]. cbn [fst] in Tb. pose proof (typed_put_pcb s pcb c T Tb). ty_go.
Qed.
#[local] Hint Resolve recved_typed : pres.
Lemma recv_null_typed s pcb p e : typed s -> keeps (tcp_recv_null stale custom_free netif_output s pcb p e).
Proof. intros. unfold tcp_recv_null. ty_go. Qed.
#[local] Hint Resolve recv_null_typed : pres.

(** ** Events *)

Lemma event_accept_typed s pcb e : typed s -> keeps (TCP_EVENT_ACCEPT app s pcb e).
Proof. intros. unfold TCP_EVENT_ACCEPT, tcp_accept_null. ty_go. Qed.
Lemma event_sent_typed s pcb n : typed s -> keeps (TCP_EVENT_SENT app s pcb n).
Proof. intros. unfold TCP_EVENT_SENT. ty_go. Qed.
Lemma event_recv_typed s pcb p e : typed s -> keeps (TCP_EVENT_RECV stale custom_free netif_output app s pcb p e).
Proof. intros. unfold TCP_EVENT_RECV. ty_go. Qed.
Lemma event_closed_typed s pcb : typed s -> keeps (TCP_EVENT_CLOSED stale custom_free netif_output app s pcb).
Proof. intros. unfold TCP_EVENT_CLOSED. ty_go. Qed.
Lemma event_connected_typed s pcb e : typed s -> keeps (TCP_EVENT_CONNECTED app s pcb e).
Proof. intros. unfold TCP_EVENT_CONNECTED. ty_go. Qed.
Lemma event_poll_typed s pcb : typed s -> keeps (TCP_EVENT_POLL app s pcb).
Proof. intros. unfold TCP_EVENT_POLL. ty_go. Qed.
#[local] Hint Resolve event_accept_typed event_sent_typed event_recv_typed event_closed_typed event_connected_typed event_poll_typed : pres.
Lemma refused_typed s pcb : typed s -> keeps (tcp_process_refused_data stale custom_free netif_output app s pcb).
Proof. intros. unfold tcp_process_refused_data. ty_go. Qed.

(** ** New control blocks *)

Lemma kill_prio_typed s prio : typed s -> keeps (tcp_kill_prio stale custom_free netif_output app s prio).
Proof. intros. unfold tcp_kill_prio. ty_go. Qed.
Lemma kill_timewait_typed s : typed s -> keeps (tcp_kill_timewait stale custom_free netif_output app s).
Proof. intros. unfold tcp_kill_timewait. ty_go. Qed.
#[local] Hint Resolve refused_typed kill_prio_typed kill_timewait_typed : pres.

Lemma memp_pcb_typed s : typed s -> exists s1 p, memp_pcb s = (s1, p) /\ typed s1.
Proof. intros T. unfold memp_pcb. destruct (ms_memp_malloc _ _) as [w p]. exists (set_w s w), p. split; [reflexivity | exact T]. Qed.
Lemma err_dec_typed s : typed s -> typed (err_dec s).
Proof. exact id. Qed.
#[local] Hint Resolve err_dec_typed : pres.

Lemma alloc_typed s prio : typed s -> keeps (tcp_alloc stale custom_free netif_output app s prio).
Proof.
  intros T. unfold tcp_alloc. destruct (memp_pcb_typed s T) as (s0 & p0 & -> & T0). apply pres_bind.
  { destruct (p0 =? 0); [| ty_go]. apply pres_bind; [ty_go|]. intros k1 K1. pres_clean.
    destruct (memp_pcb_typed k1 K1) as (k2 & p2 & -> & K2). apply pres_bind; [| intros [k p] K; ty_go].
    destruct (p2 =? 0); [| ty_go]. apply pres_bind; [ty_go|]. intros k3 K3. pres_clean.
    destruct (memp_pcb_typed k3 K3) as (k4 & p4 & -> & K4). ty_go. }
  intros [s1 pcb] T1. pres_clean. destruct (negb _); [| ty_go].
  pose proof (next_iss_typed s1 T1) as [T2 I]. destruct (tcp_next_iss s1) as [s2 iss]. cbn [fst snd] in *.
  apply pres_some, typed_put_pcb; [exact T2|]. apply new_pcb_typed; eauto with typed.
Qed.

(** A new control block has no flags. *)
Lemma alloc_flags s prio : post (fun y => y.2 <> 0 -> exists b, pcb_at y.1 y.2 = Some b /\ tp_flags b = 0)
  (tcp_alloc stale custom_free netif_output app s prio).
Proof.
  unfold tcp_alloc. destruct (memp_pcb s) as [s0 p0]. apply post_let. intros [s1 pcb] _.
  destruct (negb _); [| apply post_some; intros N; contradiction N; reflexivity].
  destruct (tcp_next_iss s1) as [s2 iss]. apply post_some. intros _. cbn [fst snd]. unfold pcb_at, put_pcb. rewrite tcp_of_set_tcp.
  change (tv_pcbs (set_tv_pcbs ?m ?t)) with m. rewrite lookup_insert_eq. eexists. split; reflexivity.
Qed.
Lemma new_typed s : typed s -> keeps (tcp_new stale custom_free netif_output app s).
Proof. apply alloc_typed. Qed.
#[local] Hint Resolve alloc_typed new_typed : pres.

Lemma setprio_typed s pcb x : typed s -> keeps (tcp_setprio s pcb x).
Proof. intros. unfold tcp_setprio. ty_go. Qed.
Lemma arg_typed s pcb x : typed s -> keeps (tcp_arg s pcb x).
Proof. intros. unfold tcp_arg. destruct (lpcb_at s pcb) eqn:E; ty_learn; ty_go. Qed.
Lemma accept_set_typed s pcb f : typed s -> keeps (tcp_accept s pcb f).
Proof. intros. unfold tcp_accept. destruct (lpcb_at s pcb) eqn:E; ty_learn; ty_go. Qed.
Lemma recv_set_typed s pcb f : typed s -> keeps (tcp_recv s pcb f).
Proof. intros. unfold tcp_recv. ty_go. Qed.
Lemma sent_set_typed s pcb f : typed s -> keeps (tcp_sent s pcb f).
Proof. intros. unfold tcp_sent. ty_go. Qed.
Lemma err_set_typed s pcb f : typed s -> keeps (tcp_err s pcb f).
Proof. intros. unfold tcp_err. ty_go. Qed.
Lemma poll_set_typed s pcb f n : typed s -> u8_t n -> keeps (tcp_poll s pcb f n).
Proof. intros. unfold tcp_poll. ty_go. Qed.
Lemma nagle_typed s pcb : typed s -> keeps (tcp_nagle_disable s pcb).
Proof. intros. unfold tcp_nagle_disable. ty_go. Qed.
Lemma accepted_typed s pcb : typed s -> keeps (tcp_accepted s pcb).
Proof. intros. unfold tcp_accepted. ty_go. Qed.

(** ** Timers *)

(** The index into the table is below its length, so the persist timer always finds its
    limit. *)
Lemma slow_persist_typed s pcb b : typed s -> typed_pcb b -> keeps (slow_persist stale custom_free netif_output s pcb b).
Proof.
  intros T B. unfold slow_persist. cbv zeta. apply pres_let. intros lim _. destruct (_ <=? _); [| ty_go].
  apply pres_bind; [| intros; pres_clean; ty_go]. apply typed_upd; [exact T|]. intros c _ C.
  assert (P : typed_pcb (set_tp_persist_cnt 0 c)) by eauto with typed. cbv zeta. destruct (_ <? 7) eqn:L; [| exact P].
  apply ty_set_persist_backoff; [| exact P]. pose proof (ty_persist_backoff _ C) as K. unfold backoff_t in *.
  change (tp_persist_backoff (set_tp_persist_cnt 0 c)) with (tp_persist_backoff c) in *. bool_to_prop. unfold u8. zlia.
Qed.

Lemma rexmit_ssthresh b : typed_pcb b ->
  let x := Z.shiftr (LWIP_MIN (tp_cwnd b) (tp_snd_wnd b)) 1 in
  let y := if x <? Z.shiftl (tp_mss b) 1 then u16 (Z.shiftl (tp_mss b) 1) else x in u16_t y /\ 1 <= y.
Proof.
  intros B x y. pose proof (ty_mss b B) as M. unfold mss_t, TCP_MSS in M.
  destruct (ty_cwnd b B) as [C1 C2]. destruct (ty_snd_wnd b B) as [S1 S2].
  assert (R : 0 <= x < 65536).
  { unfold x, LWIP_MIN. clear y x. rewrite Z.shiftr_div_pow2 by lia. change (2 ^ 1) with 2.
    set (w := if _ <? _ then _ else _). assert (0 <= w < 65536) by (unfold w; destruct (_ <? _); lia). clearbody w. zlia. }
  unfold y. clearbody x. clear y. rewrite Z.shiftl_mul_pow2 by lia. change (2 ^ 1) with 2. rewrite u16_id by lia. unfold u16_t.
  destruct (Z.ltb_spec x (tp_mss b * 2)); lia.
Qed.

Lemma slow_rexmit_typed s pcb b : typed s -> typed_pcb b -> keeps (slow_rexmit stale custom_free netif_output s pcb b).
Proof.
  intros T B. unfold slow_rexmit. cbv zeta. apply pres_bind.
  { apply typed_upd; [exact T|]. intros c _ C. apply ty_set_rtime; [apply s16_t_if; eauto with typed | exact C]. }
  intros s1 T1. pres_clean. destruct (_ && _); [| ty_go].
  apply (pres_post _ s16_t). { destruct (is_state _ _); [apply post_some; eauto with typed|]. apply post_let. intros sh _. apply post_some; eauto with typed. }
  intros rto R. apply pres_bind; [| intros; pres_clean; ty_go]. apply typed_upd; [exact T1|]. intros c _ C.
  apply ty_set_cwnd; [eauto with typed|]. pose proof (rexmit_ssthresh b B) as [S1 S2]. apply ty_set_ssthresh; eauto with typed.
Qed.
#[local] Hint Resolve slow_persist_typed slow_rexmit_typed : pres.

Lemma slow_retransmit_typed s pcb : typed s -> keeps (slow_retransmit stale custom_free netif_output s pcb).
Proof. intros. unfold slow_retransmit. ty_go. Qed.
Lemma slow_keepalive_typed s pcb : typed s -> keeps (slow_keepalive stale custom_free netif_output s pcb).
Proof. intros. unfold slow_keepalive. ty_go. Qed.
#[local] Hint Resolve slow_retransmit_typed slow_keepalive_typed : pres.
Lemma slow_check_typed s pcb : typed s -> keeps (slow_check stale custom_free netif_output s pcb).
Proof. intros. unfold slow_check. ty_go. Qed.
Lemma unlink_after_typed s l prev nxt : typed s -> keeps (unlink_after s l prev nxt).
Proof. intros. unfold unlink_after. ty_go. Qed.
#[local] Hint Resolve slow_check_typed unlink_after_typed : pres.
Lemma slow_remove_typed s prev pcb r : typed s -> keeps (slow_remove stale custom_free netif_output app s prev pcb r).
Proof. intros. unfold slow_remove. ty_go. Qed.
Lemma slow_poll_typed s pcb : typed s -> keeps (slow_poll stale custom_free netif_output app s pcb).
Proof. intros. unfold slow_poll. ty_go. Qed.
#[local] Hint Resolve slow_remove_typed slow_poll_typed : pres.
Lemma slow_body_typed (y : istate W X U * Z * Z) :
  typed (state_in y) -> pres_turn typed (slow_body stale custom_free netif_output app y).
Proof. intros. unfold slow_body. destruct y as [[s prev] pcb]. ty_go. all: match goal with |- context [if ?c then _ else _] => destruct c end; assumption. Qed.
Lemma slow_tw_body_typed (y : istate W X U * Z * Z) : typed (state_in y) -> pres_turn typed (slow_tw_body custom_free y).
Proof. intros. unfold slow_tw_body. destruct y as [[s prev] pcb]. ty_go. Qed.
Lemma fast_body_typed (y : istate W X U * Z) : typed (state_in y) -> pres_turn typed (fast_body stale custom_free netif_output app y).
Proof. intros. unfold fast_body. destruct y as [s pcb]. ty_go. Qed.
#[local] Hint Resolve slow_body_typed slow_tw_body_typed fast_body_typed : pres.

Lemma tick_typed s : typed s ->
  typed (set_tcp s (tcp_of s |> set_tv_ticks (u32 (tv_ticks (tcp_of s) + 1)) |> set_tv_timer_ctr (u8 (tv_timer_ctr (tcp_of s) + 1)))).
Proof. intros T. apply typed_set_tcp; [exact T|]. destruct T as ([] & _). constructor; try assumption; [apply u32_t_u32 | apply u8_t_u8]. Qed.
Lemma fast_tick_typed s : typed s -> typed (set_tcp s (tcp_of s |> set_tv_timer_ctr (u8 (tv_timer_ctr (tcp_of s) + 1)))).
Proof. intros T. apply typed_set_tcp; [exact T|]. destruct T as ([] & _). constructor; try assumption. apply u8_t_u8. Qed.
Lemma timer_typed s : typed s -> typed (set_tcp s (set_tv_timer (u8 (tv_timer (tcp_of s) + 1)) (tcp_of s))).
Proof. intros T. apply typed_set_tcp; [exact T|]. destruct T as ([] & _). constructor; try assumption. apply u8_t_u8. Qed.
#[local] Hint Resolve tick_typed fast_tick_typed timer_typed : pres.

Lemma slowtmr_typed n s : typed s -> keeps (tcp_slowtmr stale custom_free netif_output app n s).
Proof. intros. unfold tcp_slowtmr. ty_go. Qed.
Lemma fasttmr_typed n s : typed s -> keeps (tcp_fasttmr stale custom_free netif_output app n s).
Proof. intros. unfold tcp_fasttmr. ty_go. Qed.
#[local] Hint Resolve slowtmr_typed fasttmr_typed : pres.
Lemma tmr_typed n s : typed s -> keeps (tcp_tmr stale custom_free netif_output app n s).
Proof. intros. unfold tcp_tmr. ty_go. Qed.

(** ** Receiving *)

Lemma in_realloc_typed s p n : typed s -> keeps (in_realloc custom_free s p n).
Proof. intros. unfold in_realloc. ty_go. Qed.
Lemma reply_rst_typed s : typed s -> keeps (reply_rst stale custom_free netif_output s).
Proof. intros. apply rst_typed. assumption. Qed.

Lemma parseopt_typed m h mss : mss_t mss -> post mss_t (parseopt m h mss).
Proof.
  intros M. unfold parseopt. destruct (5 <? _); [| apply post_some, M].
  apply (post_while (fun y => mss_t y.1)); [| exact M]. intros [x c] X1. cbn [fst] in X1. unfold parseopt_body. cbv zeta.
  set (z := Z.lor _ _). assert (Zz : 0 <= z) by (apply Z.lor_nonneg; split; [apply Z.shiftl_nonneg|]; apply ld8_range).
  clearbody z. assert (Zm : mss_t (if (TCP_MSS <? z) || (z =? 0) then TCP_MSS else z)).
  { unfold mss_t. pose proof mss_const as [? ?]. destruct (Z.ltb_spec TCP_MSS z), (Z.eqb_spec z 0); cbn; lia. }
  repeat match goal with |- context [if ?b then inr _ else _] => destruct b | |- context [if ?b then _ else inr _] => destruct b
    | |- context [if ?b then inl _ else _] => destruct b | |- context [if ?b then (if _ then _ else _) else _] => destruct b end;
    assumption.
Qed.
Lemma tcp_parseopt_typed s pcb : typed s -> keeps (tcp_parseopt s pcb).
Proof.
  intros T. unfold tcp_parseopt. apply pres_let. intros b B. pose proof (typed_at s pcb b T B) as Tb.
  eapply pres_post; [apply parseopt_typed, Tb|]. intros mss M. ty_go.
Qed.
#[local] Hint Resolve in_realloc_typed reply_rst_typed tcp_parseopt_typed : pres.

(** Assignments to the variables of the segment. *)
Lemma in_tcplen_typed n i : typed_in i -> typed_in (set_ti_tcplen (u16 n) i).
Proof. intros []. constructor; try assumption. apply u16_t_u16. Qed.
Lemma in_seqno_typed x i : u32_t x -> typed_in i -> typed_in (set_ti_seqno x i).
Proof. intros X1 []. constructor; assumption. Qed.
Lemma in_inseg_typed g i : typed_in i -> typed_in (set_ti_inseg g i).
Proof. intros []. constructor; assumption. Qed.
Lemma in_recv_flags_typed x i : typed_in i -> typed_in (set_ti_recv_flags x i).
Proof. intros []. constructor; assumption. Qed.
Lemma in_recv_data_typed x i : typed_in i -> typed_in (set_ti_recv_data x i).
Proof. intros []. constructor; assumption. Qed.
#[local] Hint Resolve in_tcplen_typed in_seqno_typed in_inseg_typed in_recv_flags_typed in_recv_data_typed : typed.
#[local] Hint Extern 1 (typed (upd_in _ _)) => apply typed_upd_in; [| intros; cbv beta zeta; solve [eauto 6 with typed]] : pres.

Lemma oos_covered_typed c (y : istate W X U * Z) : typed (state_in y) -> pres_turn typed (oos_covered_body custom_free c y).
Proof. intros. unfold oos_covered_body. destruct y as [s n]. ty_go. Qed.
#[local] Hint Resolve oos_covered_typed : pres.
Lemma oos_insert_typed s c n : typed s -> keeps (tcp_oos_insert_segment custom_free s c n).
Proof. intros. unfold tcp_oos_insert_segment. ty_go. Qed.
Lemma oos_trim_typed s g : typed s -> keeps (oos_trim custom_free s g).
Proof. intros. unfold oos_trim. ty_go. Qed.
Lemma oos_window_typed s pcb c : typed s -> keeps (oos_window custom_free s pcb c).
Proof. intros. unfold oos_window. ty_go. Qed.
#[local] Hint Resolve oos_insert_typed oos_trim_typed oos_window_typed : pres.
Lemma oos_put_typed s pcb p n t : typed s -> keeps (oos_put custom_free s pcb p n t).
Proof. intros. unfold oos_put. ty_go. Qed.
#[local] Hint Resolve oos_put_typed : pres.
Lemma oos_queue_typed s pcb : typed s -> keeps (oos_queue custom_free s pcb).
Proof. intros. unfold oos_queue. ty_go. Qed.
#[local] Hint Resolve oos_queue_typed : pres.

Lemma hdr_wnd_typed s : u16_t (hdr_wnd s).
Proof. apply ld16_range. Qed.
Lemma hdr_src_typed s : u16_t (hdr_src s).
Proof. apply ld16_range. Qed.
Lemma hdr_seqno_typed s h : u32_t (hdr_seqno s h).
Proof. apply ld32_range. Qed.
#[local] Hint Resolve hdr_wnd_typed hdr_src_typed hdr_seqno_typed : typed.

Lemma dup_ack_typed s pcb e : typed s -> keeps (dup_ack s pcb e).
Proof.
  intros T. unfold dup_ack. apply pres_bind; [ty_go|]. intros s1 T1. pres_clean. apply pres_let. intros b B.
  pose proof (typed_at s1 pcb b T1 B) as Tb. destruct (_ && _); [| ty_go]. cbv zeta.
  set (d := if _ <? u8 _ then _ else _). assert (D : u8_t d).
  { pose proof (ty_dupacks b Tb) as K. unfold u8_t, d, u8 in *. destruct (Z.ltb_spec (tp_dupacks b) ((tp_dupacks b + 1) mod 256)); zlia. }
  clearbody d. ty_go.
Qed.
Lemma drop_acked_typed s pcb seg g f :
  (forall x b, typed_pcb b -> typed_pcb (f x b)) -> typed s -> keeps (drop_acked custom_free s pcb seg g f).
Proof. intros F T. unfold drop_acked. ty_go. Qed.
#[local] Hint Resolve dup_ack_typed : pres.
Lemma acked_body_typed pcb a s : typed (state_in s) -> pres_turn typed (acked_body custom_free pcb a s).
Proof. intros. unfold acked_body. ty_go. apply drop_acked_typed; eauto with typed. Qed.
Lemma unsent_acked_body_typed pcb a s : typed (state_in s) -> pres_turn typed (unsent_acked_body custom_free pcb a s).
Proof. intros. unfold unsent_acked_body. ty_go. apply drop_acked_typed; eauto with typed. Qed.
#[local] Hint Resolve acked_body_typed unsent_acked_body_typed : pres.
Lemma receive_ack_typed s pcb : typed s -> keeps (receive_ack custom_free s pcb).
Proof. intros. unfold receive_ack. ty_go. Qed.

Lemma trim_body_typed n (y : istate W X U * Z * Z) : typed (state_in y) -> pres_turn typed (trim_body n y).
Proof. intros. unfold trim_body. destruct y as [[s p] o]. ty_go. Qed.
#[local] Hint Resolve receive_ack_typed trim_body_typed : pres.
Lemma trim_front_typed s n : typed s -> u32_t n -> keeps (trim_front s n).
Proof. intros. unfold trim_front. ty_go. Qed.
Lemma cut_inseg_typed s n : typed s -> keeps (cut_inseg custom_free s n).
Proof. intros. unfold cut_inseg. ty_go. Qed.
#[local] Hint Resolve trim_front_typed cut_inseg_typed : pres.
Lemma ooseq_covered_typed (y : istate W X U * Z) : typed (state_in y) -> pres_turn typed (ooseq_covered_body custom_free y).
Proof. intros. unfold ooseq_covered_body. destruct y as [s n]. ty_go. Qed.
#[local] Hint Resolve ooseq_covered_typed : pres.
Lemma adjust_ooseq_typed s pcb : typed s -> keeps (adjust_ooseq custom_free s pcb).
Proof. intros. unfold adjust_ooseq. ty_go. Qed.
#[local] Hint Resolve adjust_ooseq_typed : pres.
Lemma ooseq_ready_typed pcb s : typed (state_in s) -> pres_turn typed (ooseq_ready_body custom_free pcb s).
Proof. intros. unfold ooseq_ready_body. ty_go. Qed.
#[local] Hint Resolve ooseq_ready_typed : pres.
Lemma receive_next_typed s pcb : typed s -> keeps (receive_next custom_free s pcb).
Proof. intros. unfold receive_next. ty_go. Qed.
#[local] Hint Resolve receive_next_typed : pres.
Lemma receive_data_typed s pcb : typed s -> keeps (receive_data stale custom_free netif_output s pcb).
Proof. intros. unfold receive_data. ty_go. Qed.
#[local] Hint Resolve receive_data_typed : pres.
Lemma receive_typed s pcb : typed s -> keeps (tcp_receive stale custom_free netif_output s pcb).
Proof. intros. unfold tcp_receive. ty_go. Qed.
#[local] Hint Resolve receive_typed : pres.

Lemma to_time_wait_typed s pcb : typed s -> keeps (to_time_wait custom_free s pcb).
Proof. intros. unfold to_time_wait. ty_go. Qed.
#[local] Hint Resolve to_time_wait_typed : pres.

Lemma syn_sent_typed s pcb : typed s -> keeps (process_syn_sent stale custom_free netif_output app s pcb).
Proof.
  intros T. unfold process_syn_sent. cbv zeta. apply pres_let. intros b B. pose proof (typed_at s pcb b T B) as Tb.
  apply pres_let. intros synack _. destruct synack; [| ty_go].
  apply pres_bind; [ty_go|]. intros s1 T1. pres_clean. apply pres_let. intros b1 B1. pose proof (typed_at s1 pcb b1 T1 B1) as Tb1.
  eapply pres_post; [apply eff_send_mss_typed; [exact T1 | apply Tb1]|]. intros [s2 mss] [T2 M]. cbn [fst snd] in *.
  apply pres_bind; [| intros s3 T3; pres_clean; ty_go]. apply typed_upd; [exact T2|]. intros c _ C.
  apply ty_set_snd_queuelen; [apply u16_t_u16|]. apply ty_set_cwnd; [destruct (_ =? 1); eauto with typed|].
  apply ty_set_ssthresh; [apply u16_t_u16 | unfold mss_t, TCP_MSS in M; rewrite u16_id; lia | eauto with typed].
Qed.

Lemma syn_rcvd_typed s pcb : typed s -> keeps (process_syn_rcvd stale custom_free netif_output app s pcb).
Proof. intros. unfold process_syn_rcvd. ty_go. Qed.
Lemma synchronized_typed s pcb st : typed s -> keeps (process_synchronized stale custom_free netif_output s pcb st).
Proof. intros. unfold process_synchronized. ty_go. Qed.
#[local] Hint Resolve syn_sent_typed syn_rcvd_typed synchronized_typed : pres.
Lemma process_typed s pcb : typed s -> keeps (tcp_process stale custom_free netif_output app s pcb).
Proof. intros. unfold tcp_process. ty_go. Qed.
#[local] Hint Resolve process_typed : pres.

Lemma listen_input_typed s lpcb : typed s -> keeps (tcp_listen_input stale custom_free netif_output app s lpcb).
Proof.
  intros T. unfold tcp_listen_input. cbv zeta. apply pres_let. intros lb Lb. do 2 (destruct (has _ _); [ty_go|]).
  destruct (has _ _); [| ty_go]. destruct (_ <=? _); [ty_go|].
  eapply (pres_post _ (fun y => typed y.1 /\ (y.2 <> 0 -> exists b, pcb_at y.1 y.2 = Some b /\ tp_flags b = 0))).
  { intros y E. exact (conj (alloc_typed s _ T y E) (alloc_flags s _ y E)). }
  intros [s1 npcb] [T1 Fl]. cbn [fst snd] in *. destruct (Z.eqb_spec npcb 0) as [_|N]; [ty_go|]. specialize (Fl N).
  apply pres_let. intros lb1 Lb1. pose proof (typed_lat s1 lpcb lb1 T1 Lb1) as Tl.
  pose proof (typed_put_lpcb s1 lpcb _ T1 (listen_pending_typed (lp_accepts_pending lb1 + 1) lb1 Tl)) as T2.
  assert (F2 : pcb_at (put_lpcb s1 lpcb (set_lp_accepts_pending (u8 (lp_accepts_pending lb1 + 1)) lb1)) npcb = pcb_at s1 npcb)
    by (unfold pcb_at, put_lpcb; rewrite tcp_of_set_tcp; reflexivity).
  set (s2 := put_lpcb _ _ _) in *. clearbody s2. destruct Fl as (b & E & Fb). rewrite E in F2.
  apply pres_bind; [| intros s3 T3; pres_clean; ty_go].
  apply typed_upd; [exact T2|]. intros c Ec C. rewrite F2 in Ec. injection Ec as <-. destruct Tl as [Lp _].
  apply ty_set_so_options, ty_set_accept, ty_set_callback_arg, ty_set_snd_wl1; [apply u32_t_u32|].
  apply ty_set_ssthresh_idle; [apply hdr_wnd_typed | | eauto 12 with typed].
  change (has (tp_flags b) TF_INFR = false). rewrite Fb. reflexivity.
Qed.

Lemma timewait_input_typed s pcb : typed s -> keeps (tcp_timewait_input stale custom_free netif_output s pcb).
Proof. intros. unfold tcp_timewait_input. ty_go. Qed.
Lemma active_front_typed s pcb prev : typed s -> keeps (active_front s pcb prev).
Proof. intros. unfold active_front. ty_go. Qed.
Lemma listen_front_typed s pcb prev : typed s -> keeps (listen_front s pcb prev).
Proof.
  intros T. unfold listen_front. destruct (prev =? 0); [ty_go|]. apply pres_let. intros b B. apply pres_let. intros pb Pb. cbv zeta.
  pose proof (typed_put_lpcb s prev _ T (listen_next_typed (lp_next b) pb (typed_lat s prev pb T Pb))) as T1.
  set (s1 := put_lpcb _ _ _) in *. clearbody s1. ty_go.
Qed.
#[local] Hint Resolve listen_input_typed timewait_input_typed active_front_typed listen_front_typed : pres.
Lemma end_connection_typed s pcb : typed s -> keeps (end_connection stale custom_free netif_output s pcb).
Proof. intros. unfold end_connection. ty_go. Qed.
Lemma input_events_typed s pcb : typed s -> keeps (input_events stale custom_free netif_output app s pcb).
Proof. intros. unfold input_events. ty_go. Qed.
#[local] Hint Resolve end_connection_typed input_events_typed : pres.
Lemma input_connection_typed s pcb : typed s -> keeps (input_connection stale custom_free netif_output app s pcb).
Proof. intros. unfold input_connection. ty_go. Qed.
Lemma input_aborted_typed s : typed s -> keeps (input_aborted custom_free s).
Proof. intros. unfold input_aborted. ty_go. Qed.
#[local] Hint Resolve input_connection_typed input_aborted_typed : pres.
Lemma input_active_typed s pcb p : typed s -> keeps (input_active stale custom_free netif_output app s pcb p).
Proof. intros. unfold input_active. ty_go. Qed.
#[local] Hint Resolve input_active_typed : pres.

Lemma input_dropped_typed s p c : typed s -> keeps (input_dropped custom_free s p c).
Proof. intros. unfold input_dropped. ty_go. Qed.

Lemma in_header_typed q a fl n i : u32_t q -> u32_t a ->
  typed_in (i |> set_ti_seqno q |> set_ti_ackno a |> set_ti_flags fl |> set_ti_tcplen (u16 n)).
Proof. intros. constructor; [assumption | assumption | apply u16_t_u16]. Qed.
Lemma in_where_typed a h i : typed_in i -> typed_in (i |> set_ti_iphdr a |> set_ti_tcphdr h).
Proof. intros []. constructor; assumption. Qed.
#[local] Hint Resolve in_header_typed in_where_typed : typed.

Lemma input_check_typed s p np : typed s -> keeps (input_check s p np).
Proof. intros. unfold input_check. ty_go. Qed.
Lemma input_demux_typed s p : typed s -> keeps (input_demux stale custom_free netif_output app s p).
Proof. intros. unfold input_demux. ty_go. Qed.
#[local] Hint Resolve input_dropped_typed input_check_typed input_demux_typed : pres.
Lemma input_typed s p np : typed s -> keeps (tcp_input stale custom_free netif_output app s p np).
Proof. intros. unfold tcp_input. ty_go. Qed.

End functions.

#[export] Hint Resolve write_typed recved_typed close_typed abort_typed new_typed bind_typed listen_typed setprio_typed arg_typed
   accept_set_typed recv_set_typed sent_set_typed err_set_typed poll_set_typed tmr_typed input_typed : pres.
#[export] Hint Extern 1 (u8_t _) => solve [eauto 3 with typed] : pres.
#[export] Hint Extern 1 (u16_t _) => solve [eauto 3 with typed] : pres.

(** ** The echo server *)

Section server.
Context {W X U : Type} `{MemSystem W} `{HasTcp U} `{MempStats W}.
Context (stale : Z -> Z) (custom_free : pstate W -> Z -> option (pstate W)).
Context (netif_output : X -> pstate W -> Z -> netif -> Z -> Z -> option (X * pstate W * Z)).
Implicit Type s : istate W X U.

Local Abbreviation keeps r := (pres typed r).

Lemma es_p_typed s es p : typed s -> typed (set_es_p s es p).
Proof. exact id. Qed.
Lemma es_state_typed s es x : typed s -> typed (set_es_state s es x).
Proof. exact id. Qed.
Lemma mem_release_typed s p : typed s -> typed (mem_release s p).
Proof. exact id. Qed.
#[local] Hint Resolve es_p_typed es_state_typed mem_release_typed : pres.

Lemma echo_error_typed s arg : typed s -> keeps (echo_error s arg).
Proof. intros. unfold echo_error. ty_go. Qed.
Lemma echo_accept_typed s pcb : typed s -> keeps (echo_accept s pcb).
Proof. intros. unfold echo_accept. ty_go. Qed.
Lemma free_hard_body_typed p s : typed (state_in s) -> pres_turn typed (free_hard_body custom_free p s).
Proof. intros. unfold free_hard_body. ty_go. Qed.
#[local] Hint Resolve echo_error_typed echo_accept_typed free_hard_body_typed : pres.
Lemma free_hard_typed s p : typed s -> keeps (free_hard custom_free s p).
Proof. intros. unfold free_hard. ty_go. Qed.
#[local] Hint Resolve free_hard_typed : pres.
Lemma send_body_typed pcb es (y : istate W X U * Z) : typed (state_in y) -> pres_turn typed (send_body stale custom_free netif_output pcb es y).
Proof.
  destruct y as [s e]. intros T. pres_clean. unfold send_body. destruct (_ && _); [| exact (pres_some _ _ T)]. cbv zeta.
  match goal with |- pres_turn _ (match ?r with _ => _ end) =>
    assert (R : post (fun o : option (istate W X U * Z) => match o with Some y => typed y.1 | None => True end) r) end.
  { repeat ty_post; cbn [fst snd]; eauto with pres. }
  match type of R with post _ ?r => destruct r as [[y|]|] end; [exact (R _ eq_refl) | exact (pres_some _ _ T) | apply pres_none].
Qed.
#[local] Hint Resolve send_body_typed : pres.
Lemma echo_send_typed s pcb es : typed s -> keeps (echo_send stale custom_free netif_output s pcb es).
Proof. intros. unfold echo_send. ty_go. Qed.
Lemma echo_close_typed s pcb es : typed s -> keeps (echo_close stale custom_free netif_output s pcb es).
Proof. intros. unfold echo_close. ty_go. Qed.
#[local] Hint Resolve echo_send_typed echo_close_typed : pres.
Lemma notify_typed s pcb es : typed s -> keeps (notify_and_send stale custom_free netif_output s pcb es).
Proof. intros. unfold notify_and_send. ty_go. Qed.
Lemma trash_typed s pcb es p : typed s -> keeps (trash stale custom_free netif_output s pcb es p).
Proof. intros. unfold trash. ty_go. Qed.
#[local] Hint Resolve notify_typed trash_typed : pres.
Lemma echo_recv_typed s es pcb p e : typed s -> keeps (echo_recv stale custom_free netif_output s es pcb p e).
Proof. intros. unfold echo_recv. ty_go. Qed.
Lemma echo_sent_typed s es pcb : typed s -> keeps (echo_sent stale custom_free netif_output s es pcb).
Proof. intros. unfold echo_sent. ty_go. Qed.

Lemma error_app_typed : typed_app (@error_app W X U _).
Proof. constructor; intros; cbn; try apply pres_none. destruct (_ =? _); [apply echo_error_typed; assumption | apply pres_none]. Qed.
#[local] Hint Resolve error_app_typed : pres.
Lemma echo_poll_typed s es pcb : typed s -> keeps (echo_poll stale custom_free netif_output s es pcb).
Proof. intros. unfold echo_poll. ty_go. Qed.
#[local] Hint Resolve echo_recv_typed echo_sent_typed echo_poll_typed : pres.

Lemma echo_app_typed : typed_app (echo_app stale custom_free netif_output).
Proof.
  constructor; intros; cbn [echo_app cb_accept cb_recv cb_sent cb_poll cb_connected cb_err]; try apply pres_none;
    try (destruct (_ =? _); [| apply pres_none]); eauto with pres. apply error_app_typed. assumption.
Qed.
#[local] Hint Resolve echo_app_typed : pres.

Lemma echo_init_typed s : typed s -> keeps (echo_init stale custom_free netif_output s).
Proof. intros. unfold echo_init. ty_go. Qed.

End server.

End TcpTypes.
