(* ===== verification/Reach.v ===== *)
(** Invariants of the whole firmware.

    A property of the transport protocols' variables and of the interfaces that TCP keeps
    is kept by everything around it: by the IP layer and the raw and UDP connections, by
    ARP, by the driver, which carries the state of the stack beside its memory, and by the
    main loop and the interrupt handler.  With the types of TCP's variables as the property
    this is a theorem about every state the firmware can reach. *)

From stdpp Require Import base tactics numbers list gmap.
From Stdlib Require Import ZArith Lia.
From S2P Require Import Prelude ByteOrder Stats Linked PbufDefs NetifDefs InetChksum Allocator Mem Memp PbufMem World Pbuf Pqueue Driver Etharp IpAddr IpDefs IpOutput Icmp IpReass IpInput Raw Udp TcpDefs TcpSeg TcpOut Tcp TcpIn Echo TcpSample Netif Stack Main MainSample Pres TcpFrame TcpTypes.

Local Open Scope Z_scope.

Module Reach.
Import ByteOrder Linked InetChksum Memp Pbuf Pqueue Driver Etharp IpAddr IpDefs IpOutput Icmp IpReass IpInput Raw Udp TcpDefs TcpSeg TcpOut Tcp TcpIn Echo Netif Stack Main TcpFrame TcpTypes.

(** ** The memory system of packet buffers *)

Section memory.
Context {W : Type} `{MemSystem W} (R : W -> Prop).

(** The functions of the memory system keep [R]. *)
Record mem_keeps : Prop := mkMemKeeps {
  keep_set_mem : forall w m, R w -> R (ms_set_mem w m);
  keep_malloc : forall w n w' p, R w -> ms_malloc w n = Some (w', p) -> R w';
  keep_free : forall w p, R w -> R (ms_free w p);
  keep_trim : forall w p n, R w -> R (ms_trim w p n).1;
  keep_memp_malloc : forall w t, R w -> R (ms_memp_malloc w t).1;
  keep_memp_free : forall w t p, R w -> R (ms_memp_free w t p) }.

Context (K : mem_keeps).
Context (stale : Z -> Z) (custom_free : pstate W -> Z -> option (pstate W)).
Definition pinv (ps : pstate W) : Prop := R (pw ps).
Context (K_custom : forall ps p, pinv ps -> pres pinv (custom_free ps p)).

Lemma update_pinv ps p f : pinv ps -> pres pinv (update ps p f).
Proof. intros. unfold update. pres_go. Qed.
Lemma set_pst_pinv ps st : pinv ps -> pinv (set_pst ps st).
Proof. exact id. Qed.
Lemma dealloc_pinv ps p b : pinv ps -> pres pinv (pbuf_dealloc custom_free ps p b).
Proof.
  intros I. unfold pbuf_dealloc. destruct (negb _); [apply K_custom, I|]. apply pres_some. unfold pinv. cbn.
  destruct (type b); [apply (keep_free K) | apply (keep_memp_free K) ..]; exact I.
Qed.
#[local] Hint Resolve update_pinv set_pst_pinv dealloc_pinv : pres.
Lemma free_body_pinv (y : pstate W * Z * Z) : pinv (state_in y) -> pres_turn pinv (free_body custom_free y).
Proof. intros. unfold free_body. destruct y as [[ps p] n]. pres_go. Qed.
#[local] Hint Resolve free_body_pinv : pres.
Lemma free_pinv ps p : pinv ps -> pres pinv (pbuf_free custom_free ps p).
Proof. intros. unfold pbuf_free. pres_go. Qed.
#[local] Hint Resolve free_pinv : pres.

Lemma memp_malloc_pinv ps t : pinv ps -> pinv (set_pw ps (ms_memp_malloc (pw ps) t).1).
Proof. apply (keep_memp_malloc K). Qed.

Lemma pool_body_pinv p (y : pstate W * Z * Z) : pinv (state_in y) -> pres_turn pinv (pool_body custom_free p y).
Proof.
  destruct y as [[ps r] n]. intros I. pres_clean. unfold pool_body. destruct (0 <? n); [| exact (pres_some _ _ I)].
  pose proof (memp_malloc_pinv ps MEMP_PBUF_POOL I) as I1. destruct (ms_memp_malloc _ _) as [w q]. cbn [fst] in I1.
  set (ps1 := set_pw ps w) in *. clearbody ps1. assert (I2 : pinv (pbuf_pool_is_empty ps1)) by exact I1. pres_go.
Qed.
#[local] Hint Resolve pool_body_pinv : pres.
Lemma alloc_pool_pinv ps o n : pinv ps -> pres pinv (alloc_pool stale custom_free ps o n).
Proof.
  intros I. unfold alloc_pool. pose proof (memp_malloc_pinv ps MEMP_PBUF_POOL I) as I1.
  destruct (ms_memp_malloc _ _) as [w q]. cbn [fst] in I1. set (ps1 := set_pw ps w) in *. clearbody ps1.
  assert (I2 : pinv (pbuf_pool_is_empty ps1)) by exact I1. pres_go.
Qed.
Lemma alloc_ram_pinv ps o n : pinv ps -> pres pinv (alloc_ram stale ps o n).
Proof.
  intros I. unfold alloc_ram. apply pres_let. intros [w p] E. pose proof (keep_malloc K _ _ _ _ I E) as I1.
  assert (I2 : pinv (set_pw ps w)) by exact I1. pres_go.
Qed.
Lemma alloc_ref_pinv ps n ty : pinv ps -> pres pinv (alloc_ref stale ps n ty).
Proof.
  intros I. unfold alloc_ref. pose proof (memp_malloc_pinv ps MEMP_PBUF I) as I1.
  destruct (ms_memp_malloc _ _) as [w q]. cbn [fst] in I1. set (ps1 := set_pw ps w) in *. clearbody ps1. pres_go.
Qed.
#[local] Hint Resolve alloc_pool_pinv alloc_ram_pinv alloc_ref_pinv : pres.
Lemma alloc_pinv ps l n ty : pinv ps -> pres pinv (pbuf_alloc stale custom_free ps l n ty).
Proof. intros. unfold pbuf_alloc. pres_go. Qed.
#[local] Hint Resolve alloc_pinv : pres.

(** *** The driver *)

Context (input : dstate W -> Z -> option (dstate W * Z)).
Definition dinv (d : dstate W) : Prop := R (pw (d_p d)).
Context (K_input : forall d p, dinv d -> pres dinv (input d p)).

Lemma set_p_dinv d ps : pinv ps -> dinv (set_p d ps).
Proof. exact id. Qed.

Lemma dispatch_dinv d p : dinv d -> pres dinv (dispatch custom_free input d p).
Proof.
  intros I. unfold dispatch. apply pres_let. intros b _. cbv zeta. destruct (_ || _).
  - apply pres_bind; [apply K_input, I|]. intros [d1 e] I1. pres_clean. destruct (negb _); [| apply pres_some; exact I1].
    apply pres_let. intros [ps r] E. apply pres_some. exact (free_pinv (d_p d1) p I1 _ E).
  - apply pres_let. intros [ps r] E. apply pres_some. exact (free_pinv (d_p d) p I _ E).
Qed.

Lemma ethernetif_input_dinv d : dinv d -> pres dinv (ethernetif_input stale custom_free input d).
Proof.
  intros I. unfold ethernetif_input. cbv zeta. destruct (_ =? 0); [apply pres_some; exact I|].
  apply pres_bind; [apply dispatch_dinv, I|]. intros d1 I1. pres_clean. apply pres_let. intros [ps p] E.
  pose proof (alloc_pinv (d_p d1) PBUF_RAW 1500 PBUF_POOL I1 _ E) as I2. pres_clean.
  destruct (p =? 0); [apply pres_some; exact I2|]. destruct (pq_qindex _) as [q k].
  unfold give_buffer. destruct (_ <? 8); [| apply pres_none]. apply pres_bind.
  - apply pres_let. intros b _. apply pres_some. exact I2.
  - intros d3 I3. pres_clean. apply pres_some. exact I3.
Qed.

End memory.

(** ** The IP layer *)

Section ip.
Context {W X U : Type} `{MemSystem W}.
Context (stale : Z -> Z) (custom_free : pstate W -> Z -> option (pstate W)).
Context (netif_output : X -> pstate W -> Z -> netif -> Z -> Z -> option (X * pstate W * Z)).
Context (Q : U -> list (Z * netif) -> Prop).
Implicit Type s : istate W X U.

(** The property, of the variables above IP and the interfaces. *)
Definition inv s : Prop := Q (i_up s) (i_netifs s).

(** The assignments of the IP layer to its own variables leave it as it is. *)
Lemma inv_if (c : bool) s s' : inv s -> inv s' -> inv (if c then s else s').
Proof. destruct c; auto. Qed.
#[local] Hint Extern 0 (inv _) => assumption : pres.
#[local] Hint Extern 1 (inv (if _ then _ else _)) => apply inv_if : pres.

Lemma above_inv {A} `{HasState (istate W X U) A} s (r : option A) : inv s -> pres (above s) r -> pres inv r.
Proof. intros I. apply pres_weaken. intros x (E & N & _). unfold inv. rewrite E, N. exact I. Qed.
Lemma i_free_inv s p : inv s -> pres inv (i_free custom_free s p).
Proof. intros I. apply (above_inv s); [exact I | apply i_free_above, above_refl]. Qed.
Lemma i_header_inv s p n : inv s -> pres inv (i_header s p n).
Proof. intros I. apply (above_inv s); [exact I | apply i_header_above, above_refl]. Qed.
Lemma ip_output_inv s p src d ttl tos proto : inv s -> pres inv (ip_output stale custom_free netif_output s p src d ttl tos proto).
Proof. intros I. apply (above_inv s); [exact I | apply ip_output_above, above_refl]. Qed.
#[local] Hint Resolve i_free_inv i_header_inv ip_output_inv : pres.
Lemma call_output_inv s np n p d : inv s -> pres inv (call_output netif_output s np n p d).
Proof. intros I. apply (above_inv s); [exact I | apply call_output_above, above_refl]. Qed.
Lemma ip_frag_inv s p np n d : inv s -> pres inv (ip_frag stale custom_free netif_output s p np n d).
Proof. intros I. apply (above_inv s); [exact I | apply ip_frag_above, above_refl]. Qed.
#[local] Hint Resolve call_output_inv ip_frag_inv : pres.
Lemma ip_output_if_inv s p src d ttl tos proto np : inv s -> pres inv (ip_output_if stale custom_free netif_output s p src d ttl tos proto np).
Proof. intros. unfold ip_output_if. pres_go. Qed.
#[local] Hint Resolve ip_output_if_inv : pres.

(** *** ICMP *)

Lemma send_response_inv s p ty c : inv s -> pres inv (icmp_send_response stale custom_free netif_output s p ty c).
Proof. intros. unfold icmp_send_response. pres_go. Qed.
Lemma dest_unreach_inv s p c : inv s -> pres inv (icmp_dest_unreach stale custom_free netif_output s p c).
Proof. apply send_response_inv. Qed.
Lemma time_exceeded_inv s p c : inv s -> pres inv (icmp_time_exceeded stale custom_free netif_output s p c).
Proof. apply send_response_inv. Qed.
Lemma echo_buffer_inv s p h n : inv s -> pres inv (echo_buffer stale custom_free s p h n).
Proof. intros. unfold echo_buffer. pres_go. Qed.
#[local] Hint Resolve dest_unreach_inv time_exceeded_inv echo_buffer_inv : pres.
Lemma echo_answer_inv s p h n np : inv s -> pres inv (echo_answer stale custom_free netif_output s p h n np).
Proof. intros. unfold echo_answer, icmp_memerr. pres_go. Qed.
#[local] Hint Resolve echo_answer_inv : pres.
Lemma icmp_input_inv s p np : inv s -> pres inv (icmp_input stale custom_free netif_output s p np).
Proof. intros. unfold icmp_input, icmp_lenerr. pres_go. Qed.
#[local] Hint Resolve icmp_input_inv : pres.

(** *** Reassembly *)

Lemma dequeue_inv s r p : inv s -> pres inv (ip_reass_dequeue_datagram s r p).
Proof. intros. unfold ip_reass_dequeue_datagram. pres_go. Qed.
Lemma free_frags_inv (y : istate W X U * Z * Z) : inv (state_in y) -> pres_turn inv (free_frags_body custom_free y).
Proof. intros. unfold free_frags_body. destruct y as [[s p] n]. pres_go. Qed.
#[local] Hint Resolve dequeue_inv free_frags_inv : pres.
Lemma free_datagram_inv s r p : inv s -> pres inv (ip_reass_free_complete_datagram stale custom_free netif_output s r p).
Proof. intros. unfold ip_reass_free_complete_datagram. pres_go. Qed.
#[local] Hint Resolve free_datagram_inv : pres.
Lemma remove_body_inv h n (y : istate W X U * Z) : inv (state_in y) -> pres_turn inv (remove_body stale custom_free netif_output h n y).
Proof. intros. unfold remove_body. destruct y as [s k]. pres_go. Qed.
#[local] Hint Resolve remove_body_inv : pres.
Lemma remove_oldest_inv s h n : inv s -> pres inv (ip_reass_remove_oldest_datagram stale custom_free netif_output s h n).
Proof. intros. unfold ip_reass_remove_oldest_datagram. pres_go. Qed.
#[local] Hint Resolve remove_oldest_inv : pres.

Lemma enqueue_inv s h n : inv s -> pres inv (ip_reass_enqueue_new_datagram stale custom_free netif_output s h n).
Proof.
  intros I. unfold ip_reass_enqueue_new_datagram. cbv zeta. destruct (ms_memp_malloc _ _) as [w a].
  assert (I1 : inv (set_i_p s (set_pw (i_p s) w))) by exact I. set (s1 := set_i_p s _) in *. clearbody s1.
  apply pres_bind; [| intros [s2 b] I2; pres_clean; pres_go].
  destruct (a =? 0); [| pres_go]. apply pres_bind; [pres_go|]. intros [s2 freed] I2. pres_clean. apply pres_some.
  destruct (_ <=? _); [| exact I2]. destruct (ms_memp_malloc _ _) as [w2 a2]. exact I2.
Qed.
Lemma place_body_inv r p h (y : istate W X U * Z * Z * bool) : inv (state_in y) -> pres_turn inv (place_body r p h y).
Proof. intros. unfold place_body. destruct y as [[[s q] prev] v]. pres_go. Qed.
#[local] Hint Resolve enqueue_inv place_body_inv : pres.
Lemma chain_frag_inv s r p : inv s -> pres inv (ip_reass_chain_frag_into_datagram_and_validate custom_free s r p).
Proof.
  intros I. unfold ip_reass_chain_frag_into_datagram_and_validate. cbv zeta. apply pres_let. intros nb _. apply pres_let. intros d _.
  apply pres_bind; [pres_go|]. intros [[s1 pl] v] I1. pres_clean. destruct pl as [| | prev u]; [pres_go | pres_go |].
  destruct (negb _); pres_go.
Qed.
Lemma join_body_inv p (y : istate W X U * Z) : inv (state_in y) -> pres_turn inv (join_body p y).
Proof. intros. unfold join_body. destruct y as [s r]. pres_go. Qed.
#[local] Hint Resolve chain_frag_inv join_body_inv : pres.
Lemma finish_inv s r p : inv s -> pres inv (finish s r p).
Proof. intros. unfold finish. pres_go. Qed.
Lemma nullreturn_inv s p : inv s -> pres inv (nullreturn custom_free s p).
Proof. intros. unfold nullreturn. pres_go. Qed.
#[local] Hint Resolve finish_inv nullreturn_inv : pres.
Lemma ip_reass_inv s p : inv s -> pres inv (ip_reass stale custom_free netif_output s p).
Proof. intros. unfold ip_reass. pres_go. Qed.
#[local] Hint Resolve ip_reass_inv : pres.

(** *** Input *)

Context (raw_input : istate W X U -> Z -> Z -> option (istate W X U * bool)).
Context (udp_input tcp_input : istate W X U -> Z -> Z -> option (istate W X U)).
Context (K_raw : forall s p np, inv s -> pres inv (raw_input s p np)).
Context (K_udp : forall s p np, inv s -> pres inv (udp_input s p np)).
Context (K_tcp : forall s p np, inv s -> pres inv (tcp_input s p np)).
#[local] Hint Resolve K_raw K_udp K_tcp : pres.

Lemma deliver_inv s p np h : inv s -> pres inv (deliver stale custom_free netif_output udp_input tcp_input s p np h).
Proof. intros. unfold deliver. pres_go. Qed.
#[local] Hint Resolve deliver_inv : pres.
Lemma accepted_inv s p np h n : inv s -> pres inv (accepted stale custom_free netif_output raw_input udp_input tcp_input s p np h n).
Proof. intros. unfold accepted. pres_go. Qed.
#[local] Hint Resolve accepted_inv : pres.
Lemma ip_input_inv s p np : inv s -> pres inv (ip_input stale custom_free netif_output raw_input udp_input tcp_input s p np).
Proof. intros. unfold ip_input. pres_go. Qed.

End ip.

#[export] Hint Extern 0 (inv _ _) => assumption : pres.
#[export] Hint Resolve i_free_inv i_header_inv dest_unreach_inv : pres.

(** ** Raw and UDP connections *)

Section transport.
Context {W X U : Type} `{MemSystem W} `{HasRaw U} `{HasUdp U}.
Context (stale : Z -> Z) (custom_free : pstate W -> Z -> option (pstate W)).
Context (netif_output : X -> pstate W -> Z -> netif -> Z -> Z -> option (X * pstate W * Z)).
Context (Q : U -> list (Z * netif) -> Prop).
Context (Q_raw : forall u r l, Q u l -> Q (put_raw u r) l).
Context (Q_udp : forall u r l, Q u l -> Q (put_udp u r) l).
Implicit Type s : istate W X U.
Local Abbreviation inv := (inv (W:=W) (X:=X) Q).

Lemma set_raw_inv s u : inv s -> inv (set_raw s u).
Proof. apply Q_raw. Qed.
Lemma set_udp_inv s u : inv s -> inv (set_udp s u).
Proof. apply Q_udp. Qed.
Lemma udp_stats_inv s c : inv s -> inv (UDP_STATS_INC c s).
Proof. apply Q_udp. Qed.
#[local] Hint Resolve set_raw_inv set_udp_inv udp_stats_inv : pres.

Context (raw_recv_call : istate W X U -> Z -> Z -> Z -> Z -> Z -> option (istate W X U * Z)).
Context (udp_recv_call : istate W X U -> Z -> Z -> Z -> Z -> Z -> Z -> option (istate W X U)).
Context (K_raw_call : forall s f a b p src, inv s -> pres inv (raw_recv_call s f a b p src)).
Context (K_udp_call : forall s f a b p src port, inv s -> pres inv (udp_recv_call s f a b p src port)).
#[local] Hint Resolve K_raw_call K_udp_call : pres.

Lemma raw_body_inv p proto (y : istate W X U * Z * Z) : inv (state_in y) -> pres_turn inv (raw_body raw_recv_call p proto y).
Proof. intros. unfold raw_body. destruct y as [[s prev] pcb]. pres_go. Qed.
#[local] Hint Resolve raw_body_inv : pres.
Lemma raw_input_inv s p np : inv s -> pres inv (raw_input raw_recv_call s p np).
Proof. intros. unfold raw_input. pres_go. Qed.
Lemma demux_inv s lm rm : inv s -> pres inv (demux s lm rm).
Proof. intros. unfold demux. pres_go. Qed.
Lemma udp_deliver_inv s p h pcb port b : inv s -> pres inv (udp_deliver stale custom_free netif_output udp_recv_call s p h pcb port b).
Proof. intros. unfold udp_deliver. pres_go. Qed.
#[local] Hint Resolve demux_inv udp_deliver_inv : pres.
Lemma udp_input_inv s p np : inv s -> pres inv (udp_input stale custom_free netif_output udp_recv_call s p np).
Proof. intros. unfold udp_input, udp_drop. pres_go. Qed.

End transport.

(** ** ARP *)

Section arp.
Context {W X : Type} `{MemSystem W}.
Context (stale : Z -> Z) (custom_free : pstate W -> Z -> option (pstate W)).
Context (linkoutput : X -> pstate W -> Z -> option (X * Z)).
Context (D : X -> Prop).
Context (K_link : forall x ps p x' r, D x -> linkoutput x ps p = Some (x', r) -> D x').
Implicit Type e : estate W X.

(** The property of what is below; the functions assign to nothing else of it. *)
Definition einv e : Prop := D (e_dev e).
#[local] Hint Extern 0 (einv _) => assumption : pres.

Lemma link_output_einv e p : einv e -> pres einv (link_output linkoutput e p).
Proof. intros I. unfold link_output. apply pres_let. intros [x r] E. apply pres_some. exact (K_link _ _ _ _ _ I E). Qed.
Lemma free_pbuf_einv e p : einv e -> pres einv (free_pbuf custom_free e p).
Proof. intros. unfold free_pbuf. pres_go. Qed.
#[local] Hint Resolve link_output_einv free_pbuf_einv : pres.
Lemma free_q_body_einv (y : estate W X * Z) : einv (state_in y) -> pres_turn einv (free_q_body custom_free y).
Proof. intros. unfold free_q_body. destruct y as [e q]. pres_go. Qed.
#[local] Hint Resolve free_q_body_einv : pres.
Lemma free_etharp_q_einv e q : einv e -> pres einv (free_etharp_q custom_free e q).
Proof. intros. unfold free_etharp_q. pres_go. Qed.
#[local] Hint Resolve free_etharp_q_einv : pres.
Lemma free_entry_einv e i : einv e -> pres einv (etharp_free_entry custom_free e i).
Proof. intros. unfold etharp_free_entry. pres_go. Qed.
#[local] Hint Resolve free_entry_einv : pres.
Lemma find_entry_einv e ip fl : einv e -> pres einv (etharp_find_entry custom_free e ip fl).
Proof. intros. destruct ip; unfold etharp_find_entry; pres_go. Qed.
Lemma send_ip_einv e p src dst : einv e -> pres einv (etharp_send_ip linkoutput e p src dst).
Proof. intros. unfold etharp_send_ip. pres_go. Qed.
#[local] Hint Resolve find_entry_einv send_ip_einv : pres.
Lemma send_queue_einv n a i e : einv (state_in e) -> pres_turn einv (send_queue_body custom_free linkoutput n a i e).
Proof. intros. unfold send_queue_body. pres_go. Qed.
#[local] Hint Resolve send_queue_einv : pres.
Lemma update_einv e np n ip a fl : einv e -> pres einv (etharp_update_arp_entry custom_free linkoutput e np n ip a fl).
Proof. intros. unfold etharp_update_arp_entry. pres_go. Qed.
#[local] Hint Resolve update_einv : pres.
Lemma arp_input_einv e np n a p : einv e -> pres einv (etharp_arp_input custom_free linkoutput e np n a p).
Proof. intros. unfold etharp_arp_input. pres_go. Qed.
#[local] Hint Resolve arp_input_einv : pres.

Context (input : estate W X -> Z -> option (estate W X)).
Context (K_input : forall e p, einv e -> pres einv (input e p)).
#[local] Hint Resolve K_input : pres.
Lemma ethernet_input_einv e np n p : einv e -> pres einv (ethernet_input custom_free linkoutput input e np n p).
Proof. intros. unfold ethernet_input. pres_go. Qed.

End arp.

(** ** The stack *)

Section stack.
Context {W : Type} `{MemSystem W} `{MempStats W}.
Context (stale : Z -> Z) (custom_free : pstate W -> Z -> option (pstate W)).
Context (Q : Stack.above -> list (Z * netif) -> Prop).
Context (Q_raw : forall u r l, Q u l -> Q (put_raw u r) l).
Context (Q_udp : forall u r l, Q u l -> Q (put_udp u r) l).
Context (raw_recv_call : istate W below Stack.above -> Z -> Z -> Z -> Z -> Z -> option (istate W below Stack.above * Z)).
Context (udp_recv_call : istate W below Stack.above -> Z -> Z -> Z -> Z -> Z -> Z -> option (istate W below Stack.above)).
Context (app : tcp_app (istate W below Stack.above)).
Implicit Type s : istate W below Stack.above.
Local Abbreviation inv := (inv (W:=W) (X:=below) Q).
Context (K_raw_call : forall s f a b p src, inv s -> pres inv (raw_recv_call s f a b p src)).
Context (K_udp_call : forall s f a b p src port, inv s -> pres inv (udp_recv_call s f a b p src port)).
Context (K_tcp : forall s p np, inv s -> pres inv (tcp_input stale custom_free (Stack.output stale custom_free) app s p np)).

Lemma ip_inv s p np : inv s -> pres inv (Stack.ip stale custom_free raw_recv_call udp_recv_call app s p np).
Proof.
  intros I. unfold Stack.ip. apply ip_input_inv; [| | exact K_tcp | exact I]; intros s1 p1 np1 I1.
  - apply raw_input_inv; assumption.
  - apply udp_input_inv; assumption.
Qed.

(** A frame: the state is what ARP works above. *)
Lemma input_inv np s p : inv s -> pres inv (Stack.input stale custom_free raw_recv_call udp_recv_call app np s p).
Proof.
  intros I. unfold Stack.input. apply pres_let. intros n _.
  apply (pres_post _ (fun y : estate W sys * Z => einv inv y.1)); [| intros [e r] E; apply pres_some; exact E].
  apply (ethernet_input_einv custom_free frame_output inv).
  - intros x ps q x' r Ix E. unfold frame_output in E. apply bind_Some in E as ([v k] & _ & E). injection E as <- _. exact Ix.
  - intros e q Ie. apply pres_let. intros s1 E. apply pres_some. exact (ip_inv (of_frame_view e) q np Ie s1 E).
  - exact I.
Qed.

(** The driver: the state is carried beside the memory. *)
Lemma carrying_keeps : mem_keeps (W := W * sys) (fun w => inv w.2).
Proof.
  constructor; intros.
  - assumption.
  - cbn in *. match goal with E : _ = Some _ |- _ => apply bind_Some in E as ([w1 q] & _ & E); injection E as <- _ end. assumption.
  - assumption.
  - cbn. destruct (ms_trim _ _ _). assumption.
  - cbn. destruct (ms_memp_malloc _ _). assumption.
  - assumption.
Qed.

Lemma poll_inv np s : inv s -> pres inv (Stack.poll stale custom_free raw_recv_call udp_recv_call app np s).
Proof.
  intros I. unfold Stack.poll.
  apply (pres_post _ (fun y : dstate (W * sys) * Z => dinv (fun w => inv w.2) y.1)); [| intros [d r] E; apply pres_some; exact E].
  apply (ethernetif_input_dinv (fun w => inv w.2) carrying_keeps).
  - intros ps p Ip. unfold driver_free. apply pres_let. intros x _. apply pres_some. exact Ip.
  - intros d p Id. apply pres_let. intros [s1 r] E. apply pres_some. exact (input_inv np (of_driver_view d) p Id _ E).
  - exact I.
Qed.

Lemma rx_irq_inv s sta : inv s -> pres inv (Stack.rx_irq custom_free s sta).
Proof. intros I. unfold Stack.rx_irq. apply pres_let. intros [d r] _. apply pres_some. exact I. Qed.
Lemma init_driver_inv pq s n : inv s -> pres inv (init_driver stale custom_free pq s n).
Proof. intros I. unfold init_driver. apply pres_let. intros [[[d q] n1] r] _. apply pres_some. exact I. Qed.

End stack.

(** ** The firmware *)

(** The variables of TCP and the sizes of the interfaces are of their types: [typed] of
    the state, as a property of what the other layers leave alone. *)
Definition Types (u : Stack.above) (l : list (Z * netif)) : Prop := typed_vars (get_tcp u) /\ Forall (fun e => mtu_ok e.2) l.

Section firmware.
Context {W : Type} `{MemSystem W} `{MempStats W}.
Context (stale : Z -> Z) (custom_free : pstate W -> Z -> option (pstate W)) (server_netif : Z).
Implicit Type s : istate W below Stack.above.
Local Abbreviation keeps r := (pres typed r).
Local Abbreviation out := (Stack.output stale custom_free).
Local Abbreviation echo := (Main.echo stale custom_free).

Lemma echo_typed : typed_app echo.
Proof. apply echo_app_typed. Qed.
#[local] Hint Resolve echo_typed : pres.

(** *** Interfaces *)

Lemma abort_body_typed old (y : istate W below Stack.above * Z) :
  typed (state_in y) -> pres_turn typed (abort_body stale custom_free out echo old y).
Proof. intros. unfold abort_body. destruct y as [s pcb]. ty_go. Qed.
Lemma relisten_body_typed old new (y : istate W below Stack.above * Z) : typed (state_in y) -> pres_turn typed (relisten_body old new y).
Proof.
  intros. unfold relisten_body. destruct y as [s pcb]. ty_go.
  destruct (_ && _); [| assumption]. apply typed_put_lpcb; [assumption|]. apply listen_ip_typed. eauto using typed_lat.
Qed.
#[local] Hint Resolve abort_body_typed relisten_body_typed : pres.
Lemma address_changes_typed s old a : typed s -> keeps (address_changes stale custom_free out echo s old a).
Proof. intros. unfold address_changes. ty_go. Qed.

Lemma alter_mtu a f l : (forall n, nif_mtu (f n) = nif_mtu n) -> Forall (fun e : Z * netif => mtu_ok e.2) l ->
  Forall (fun e => mtu_ok e.2) (alter_netif a f l).
Proof.
  intros F L. apply Forall_map, (Forall_impl _ _ _ L). intros [k n] M. cbn. destruct (k =? a); [| exact M].
  unfold mtu_ok. cbn. rewrite F. exact M.
Qed.
Lemma netif_set_up_typed s a : typed s -> keeps (netif_set_up (Stack.etharp_gratuitous stale custom_free) s a).
Proof.
  intros T. unfold netif_set_up. apply pres_let. intros n _. destruct (flagged _ _); [exact (pres_some _ _ T)|]. cbv zeta.
  assert (T1 : typed (upd_netif s a (set_nif_flags (Z.lor (nif_flags n) NETIF_FLAG_UP)))).
  { destruct T as [V M]. split; [exact V|]. apply alter_mtu; [reflexivity | exact M]. }
  destruct (_ && _); [| apply pres_some; exact T1]. apply pres_let. intros [x ps] _. apply pres_some. exact T1.
Qed.

(** The driver sets the size of the interface when it starts without an error. *)
Lemma init_driver_typed pq s n : typed s ->
  post (fun y => typed y.1.1 /\ (y.2 = ERR_OK -> mtu_ok y.1.2)) (init_driver stale custom_free pq s n).
Proof.
  intros T [[s1 n1] r] E. split; [exact (init_driver_inv stale custom_free Types pq s n T _ E)|]. cbn [fst snd].
  unfold init_driver in E. apply bind_Some in E as ([[[d q] n2] r2] & E & R). injection R as _ <- <-. intros ->.
  unfold ethernetif_init in E. apply bind_Some in E as ([w m] & _ & E). destruct (m =? 0); [discriminate E|]. cbv zeta in E.
  apply bind_Some in E as ([[d3 q3] n3] & E & R). injection R as _ _ <-.
  unfold low_level_init in E. cbv zeta in E. destruct (pq_create_queue pq) as [q4 i].
  apply bind_Some in E as (i1 & _ & E). apply bind_Some in E as (q5 & _ & E). apply bind_Some in E as ([d5 u] & _ & E).
  injection E as _ _ <-. right. cbn [nif_mtu]. lia.
Qed.

Lemma netif_add_typed s num a n ip mask gate pq : typed s ->
  keeps (netif_add stale custom_free out echo s num a n ip mask gate (init_driver stale custom_free pq)).
Proof.
  intros T. unfold netif_add. destruct (netif_at s a); [apply pres_none|]. cbv zeta.
  apply pres_bind; [exact (address_changes_typed s _ _ T)|]. intros s1 T1. pres_clean.
  eapply pres_post; [exact (init_driver_typed pq s1 _ T1)|]. intros [[s2 n2] r] [T2 M]. cbn [fst snd] in *.
  destruct (Z.eqb_spec r ERR_OK) as [R|_]; cbn [negb]; [| exact (pres_some _ _ T2)].
  apply pres_some. destruct T2 as [V L]. split; [exact V|]. constructor; [exact (M R) | exact L].
Qed.

(** *** The program *)

Lemma started_typed (w : W) reads : typed (started w reads).
Proof.
  split; [| constructor]. constructor; cbn; try apply map_Forall_empty; try (cbv; intuition congruence).
  constructor; cbv; intuition congruence.
Qed.

Lemma boot_typed s pq f : typed s -> boot stale custom_free server_netif s pq = Some (inr f) -> typed (fw_sys f).
Proof.
  intros T E. unfold boot in E. apply bind_Some in E as ([[[s1 k] n] r] & E1 & E).
  pose proof (netif_add_typed _ _ _ _ _ _ _ _ T _ E1) as T1. pres_clean. destruct (r =? 0); [discriminate E|]. cbv zeta in E.
  apply bind_Some in E as (s2 & E2 & E). apply bind_Some in E as ([s3 u] & E3 & E). injection E as <-.
  exact (echo_init_typed stale custom_free out s2 (netif_set_up_typed (netif_set_default s1 server_netif) _ T1 _ E2) _ E3).
Qed.

Lemma turn_typed n f f' : typed (fw_sys f) -> turn stale custom_free server_netif n f = Some f' -> typed (fw_sys f').
Proof.
  intros T E. unfold turn in E. apply bind_Some in E as (s1 & E1 & E). apply bind_Some in E as ([s2 r] & E2 & E). injection E as <-.
  assert (T1 : typed s1).
  { destruct (1 <=? _); [| injection E1 as <-; exact T]. exact (tmr_typed stale custom_free out echo echo_typed n _ T _ E1). }
  refine (poll_inv stale custom_free Types _ _ (no_raw (W := W)) (no_udp (W := W)) echo _ _ _ server_netif s1 T1 _ E2).
  - intros u x l V. exact V.
  - intros u x l V. exact V.
  - intros. apply pres_none.
  - intros. apply pres_none.
  - intros s p np Ts. exact (input_typed stale custom_free out echo echo_typed s p np Ts).
Qed.

Lemma irq_typed f irqs sta f' : typed (fw_sys f) -> irq custom_free f irqs sta = Some f' -> typed (fw_sys f').
Proof.
  intros T E. unfold irq in E. apply bind_Some in E as (s1 & E1 & E). injection E as <-.
  destruct (has irqs 32); [| injection E1 as <-; exact T]. exact (rx_irq_inv custom_free Types _ sta T _ E1).
Qed.

Lemma dma_typed f i frame f' : typed (fw_sys f) -> dma f i frame = Some f' -> typed (fw_sys f').
Proof.
  intros T E. unfold dma in E. cbv zeta in E. apply bind_Some in E as (p & _ & E). apply bind_Some in E as (b & _ & E).
  injection E as <-. exact T.
Qed.

(** The states of the firmware: what [main] has made of the memory [w], then turns of the
    loop, interrupts and frames written by the hardware in any order.  [reads] is what the
    transmit status register will read as. *)
Inductive reachable (w : W) (reads : list (list Z)) (pq : pq_state) : firmware W -> Prop :=
| reach_boot f : boot stale custom_free server_netif (started w reads) pq = Some (inr f) -> reachable w reads pq f
| reach_turn n f f' : reachable w reads pq f -> turn stale custom_free server_netif n f = Some f' -> reachable w reads pq f'
| reach_irq irqs sta f f' : reachable w reads pq f -> irq custom_free f irqs sta = Some f' -> reachable w reads pq f'
| reach_dma i frame f f' : reachable w reads pq f -> dma f i frame = Some f' -> reachable w reads pq f'.

(** C2: Every variable of TCP keeps the range of its C type in every state the firmware can
    reach, from the start through any order of loop turns, interrupts and received frames,
    whatever bytes they hold: the sequence numbers and timers of every control block, the
    windows and the send buffer, the segment size, which stays between 1 and [TCP_MSS], the
    congestion window, which is never zero when it divides, and the index into the table of
    the persist timer. *)
Theorem firmware_typed w reads pq f : reachable w reads pq f -> typed (fw_sys f).
Proof.
  induction 1 as [f E|n f f' _ T E|irqs sta f f' _ T E|i frame f f' _ T E].
  - exact (boot_typed _ _ _ (started_typed w reads) E).
  - exact (turn_typed _ _ _ T E).
  - exact (irq_typed _ _ _ _ T E).
  - exact (dma_typed _ _ _ _ T E).
Qed.

End firmware.

(** ** A state that is reached *)

Section sample.
Import MainSample.
#[local] Existing Instance World.world_system.
#[local] Existing Instance TcpSample.no_memp_stats.

Local Abbreviation reached := (reachable undefined no_custom netif_place memory (replicate 20 [1; 0]) queues).

Lemma receive_reached i frame f f' : reached f -> receive i frame f = Some f' -> reached f'.
Proof.
  intros R E. unfold receive in E. apply bind_Some in E as (f1 & E1 & E). apply bind_Some in E as (f2 & E2 & E).
  exact (reach_turn _ _ _ _ _ _ _ _ _ (reach_irq _ _ _ _ _ _ _ _ _ _ (reach_dma _ _ _ _ _ _ _ _ _ _ R E1) E2) E).
Qed.
Lemma booted_reached f : booted = Some f -> reached f.
Proof.
  unfold booted. intros E. apply reach_boot. destruct (boot _ _ _ _ _) as [[s|f1]|]; [discriminate E | | discriminate E].
  injection E as ->. reflexivity.
Qed.

(** The firmware when another host has asked for its hardware address and has opened a
    connection. *)
Definition opened : option fw :=
  f ← booted; f ← receive 0 arp_request f; receive 1 (tcp_frame 5000 0 2 [2; 4; 5; 180] []) f.
Definition connections (f : fw) : nat := size (tv_pcbs (tcp_of (fw_sys f))).

Lemma opened_reached f : opened = Some f -> reached f.
Proof.
  unfold opened. intros E. apply bind_Some in E as (f1 & E1 & E). apply bind_Some in E as (f2 & E2 & E).
  exact (receive_reached _ _ _ _ (receive_reached _ _ _ _ (booted_reached _ E1) E2) E).
Qed.

Lemma firmware_typed_witness : exists f, opened = Some f /\ connections f = 1%nat /\ typed (fw_sys f).
Proof.
  assert (C : connections <$> opened = Some 1%nat) by (vm_compute; reflexivity).
  apply fmap_Some in C as (f & E & C). exists f. split; [exact E|]. split; [symmetry; exact C|].
  exact (firmware_typed _ _ _ _ _ _ f (opened_reached f E)).
Defined.

End sample.

End Reach.
