(* ===== verification/TcpWrite.v ===== *)
(** Queueing data: the segments that [tcp_write] (src/core/tcp_out.c) makes.

    [tcp_write] collects what it allocates and commits it at the end.  Here: the new
    segments of its third phase, and their release when something cannot be allocated.
    The data is copied (TCP_WRITE_FLAG_COPY), as it is by the echo server. *)

From stdpp Require Import base tactics numbers list gmap.
From Stdlib Require Import ZArith Lia.
From S2P Require Import Prelude Mylib ByteOrder Fields Stats Linked PbufDefs NetifDefs InetChksum Allocator Mem Memp PbufMem Pbuf PbufData PbufChains PbufLinks IpAddr IpDefs IpOutput TcpDefs TcpSeg TcpOut TcpFrame TcpLists TcpRexmit.

Local Open Scope Z_scope.

Module TcpWrite.
Import Fields ByteOrder Linked Memp Pbuf PbufData PbufChains PbufLinks IpDefs TcpDefs TcpSeg TcpOut TcpFrame TcpLists TcpRexmit.

(** A new segment: its address, that of its pbuf, its data, and the bytes the pbuf has
    behind them. *)
Record nseg := mkNseg { n_seg : Z; n_p : Z; n_data : list Z; n_over : Z }.
Definition n_len (x : nseg) : Z := Z.of_nat (length (n_data x)).

(** [d] cut into pieces of [n] bytes, the last one shorter perhaps. *)
Inductive segmented (n : nat) : list Z -> list (list Z) -> Prop :=
| segmented_nil : segmented n [] []
| segmented_cons d l : d <> [] -> segmented n (drop n d) l -> segmented n d (take n d :: l).

Lemma segmented_concat n d l : segmented n d l -> concat l = d.
Proof. induction 1 as [|d l _ _ IH]; [reflexivity|]. cbn. rewrite IH. apply take_drop. Qed.
(** The header that a segment is made with; the acknowledgement, the window and the
    checksum are written when it is sent. *)
Definition new_header (m : memory) (h src dest seqno flags : Z) : Prop :=
  bytes m h 2 = be16 src /\ bytes m (h + 2) 2 = be16 dest /\ bytes m (h + 4) 4 = be32 seqno /\
  bytes m (h + 12) 2 = be16 (Z.lor 0x5000 flags) /\ bytes m (h + 18) 2 = be16 0.

Section write.
Context {W X U : Type} `{LW : MemSystemLaws W} `{HT : HasTcp U}.
Context (stale : Z -> Z) (custom_free : pstate W -> Z -> option (pstate W)).
Context (stale_ok : forall p, Z.land (stale p) PBUF_FLAG_IS_CUSTOM = 0).

(** The state when the function is called, and the connection. *)
Context (s : istate W X U) (pcb : Z) (c : tcp_pcb) (Ec : pcb_at s pcb = Some c).
Context (Cports : 0 <= tp_local_port c < 65536 /\ 0 <= tp_remote_port c < 65536).
Implicit Types (ps : pstate W) (m : gmap Z tcp_seg) (L : regions).

(** ** While nothing is committed only pbufs and segments change *)

Definition run ps m : istate W X U := set_tcp (set_i_p s ps) (set_tv_segs m (tcp_of s)).

Lemma run_start : run (i_p s) (tv_segs (tcp_of s)) = s.
Proof.
  unfold run. assert (E1 : forall t, set_tv_segs (tv_segs t) t = t) by (intros []; reflexivity).
  assert (E2 : forall x : istate W X U, set_i_p x (i_p x) = x) by (intros []; reflexivity). rewrite E1, E2. apply set_tcp_id.
Qed.
Lemma run_tcp ps m : tcp_of (run ps m) = set_tv_segs m (tcp_of s).
Proof. apply tcp_of_set_tcp. Qed.
Lemma run_seg ps m a : seg_at (run ps m) a = m !! a.
Proof. unfold seg_at. rewrite run_tcp. reflexivity. Qed.
Lemma run_pcb ps m : pcb_at (run ps m) pcb = Some c.
Proof. unfold pcb_at. rewrite run_tcp. exact Ec. Qed.
Lemma run_put ps m a g : put_seg (run ps m) a g = run ps (<[a := g]> m).
Proof. unfold put_seg. rewrite run_tcp. unfold run. rewrite set_tcp_again. reflexivity. Qed.
Lemma run_upd ps m a g f : m !! a = Some g -> upd_seg (run ps m) a f = Some (run ps (<[a := f g]> m)).
Proof. intros E. unfold upd_seg. rewrite run_seg, E. cbn [mbind option_bind]. rewrite run_put. reflexivity. Qed.
Lemma run_del ps m a : set_tcp (run ps m) (set_tv_segs (delete a (tv_segs (tcp_of (run ps m)))) (tcp_of (run ps m))) = run ps (delete a m).
Proof. rewrite run_tcp. unfold run. rewrite set_tcp_again. reflexivity. Qed.

(** ** Memory *)

(** Every segment is an element of its pool. *)
Definition segs_ok L m : Prop := forall a g, m !! a = Some g -> a <> 0 /\ ms_pool a = Some MEMP_TCP_SEG /\ is_Some (L !! a).

Lemma segs_ok_insert L m a g : segs_ok L m -> a <> 0 -> ms_pool a = Some MEMP_TCP_SEG -> is_Some (L !! a) -> segs_ok L (<[a := g]> m).
Proof. intros So N P I b h E. apply lookup_insert_Some in E as [[<- _] | [_ E]]; [auto | exact (So b h E)]. Qed.
Lemma segs_ok_grow L m a k : segs_ok L m -> segs_ok (<[a := k]> L) m.
Proof. intros So b h E. destruct (So b h E) as (N & P & I). repeat split; auto. destruct (decide (a = b)) as [->|Ne];
  [rewrite lookup_insert_eq; eauto | rewrite lookup_insert_ne by exact Ne; exact I]. Qed.

(** Writing inside one live region. *)
Lemma psys_data ps L x p k a n : psys ps L -> L !! p = Some k -> p <= a -> a + n <= p + k -> frame (mem_of ps) x a n -> psys (set_mem ps x) L.
Proof.
  intros S Hp Ha Hn F. apply psys_set_pw; [exact S|]. apply ms_data_law; [apply S|]. intros y Hy. apply F. intros I. apply Hy.
  exists p, k. split; [exact Hp | lia].
Qed.
(** A region that holds no pbuf. *)
Lemma psys_grow ps L w a j : psys ps L -> L !! a = None -> ms_live w (<[a := j]> L) -> psys (set_pw ps w) (<[a := j]> L).
Proof. intros S Fa Lw. split; [exact Lw|]. intros q b E. apply pbuf_ok_insert; [exact Fa|]. exact (ps_pbuf _ _ S q b E). Qed.
Lemma mem_set ps x : mem_of (set_mem ps x) = x.
Proof. apply ms_mem_set. Qed.
Lemma frame_preserves L x y p k a n : regions_ok L -> L !! p = Some k -> p <= a -> a + n <= p + k -> frame x y a n -> preserves x y (delete p L).
Proof.
  intros R Hp Ha Hn F z (q & j & Hq & Hz). apply lookup_delete_Some in Hq as [Ne Hq]. apply F.
  destruct (ro_disjoint L R p q k j Hp Hq Ne); lia.
Qed.
Lemma regions_of ps L : psys ps L -> regions_ok L.
Proof. intros S. apply (live_ok (LiveRegions := ms_regions) _ _ (ps_live _ _ S)). Qed.

(** A new pbuf of the heap with [n] bytes in use and [over] behind them. *)
Record got ps L ps' L' (p : Z) (b : pbuf) (k n off over : Z) : Prop := {
  got_p : p <> 0;
  got_fresh : L !! p = None /\ pst ps !! p = None;
  got_b : b = mkPbuf 0 (payload b) n n PBUF_RAM 0 1;
  got_store : pst ps' = <[p := b]> (pst ps);
  got_live : L' = <[p := k]> L;
  got_sys : psys ps' L';
  got_room : p + 16 + off <= payload b /\ payload b + n + over <= p + k;
  got_keep : preserves (mem_of ps) (mem_of ps') L }.

Lemma ram_alloc ps L layer n : psys ps L -> 0 <= n <= 65460 ->
  exists ps' p, pbuf_alloc stale custom_free ps layer n PBUF_RAM = Some (ps', p) /\
    ((p = 0 /\ unchanged ps L ps') \/ exists b k L', got ps L ps' L' p b k n (layer_offset layer) 0).
Proof.
  intros S Hn. destruct (pbuf_alloc_spec stale custom_free stale_ok ps L layer n PBUF_RAM S ltac:(lia) (fun _ => Hn))
    as (ps' & p & E & R). exists ps', p. split; [exact E|]. destruct R as [R | (Np & L' & l & A)]; [left; exact R | right].
  destruct A as [Hc Hl Hlen Hf Hfresh Hold Hsys (b0 & Eb0 & _ & Hroom) Hone Hkeep].
  destruct l as [|[q b] [|? ?]]; try (specialize (Hone ltac:(discriminate)); discriminate Hone).
  inversion Hc as [|? ? ? _ Eb Hnil]; subst. inversion Hnil as [Hnx|]; subst. apply Forall_inv in Hf as (Rf & Ty & Fl). cbn in *.
  rewrite Eb in Eb0. injection Eb0 as <-. destruct (Hfresh q ltac:(apply elem_of_cons; auto)) as [F1 F2].
  destruct (ps_pbuf _ _ Hsys q b Eb) as (_ & _ & _ & _ & k & Hk & _ & Hb). rewrite Ty in Hb.
  exists b, k, L'. split; auto.
  - destruct b. cbn in *. f_equal; lia || congruence.
  - apply map_eq. intros a. destruct (decide (a = q)) as [->|Ne]; [rewrite lookup_insert_eq; exact Eb |].
    rewrite lookup_insert_ne by congruence. apply Hold. rewrite list_elem_of_singleton. exact Ne.
  - apply map_eq. intros a. destruct (decide (a = q)) as [->|Ne]; [rewrite lookup_insert_eq; exact Hk |].
    rewrite lookup_insert_ne by congruence. apply Hold. rewrite list_elem_of_singleton. exact Ne.
  - unfold SIZEOF_STRUCT_PBUF in Hroom. lia.
Qed.

(** A new pbuf that is not used after all. *)
Lemma free_new ps L ps' p b k : psys ps' (<[p := k]> L) -> L !! p = None -> pst ps !! p = None -> p <> 0 ->
  pst ps' = <[p := b]> (pst ps) -> next b = 0 -> ref b = 1 -> preserves (mem_of ps) (mem_of ps') L ->
  exists ps3 (r : Z), Pbuf.pbuf_free custom_free ps' p = Some (ps3, r) /\ unchanged ps L ps3.
Proof.
  intros S F1 F2 Np Es Nx Rf K. destruct (pbuf_free_spec custom_free [(p, b)] [] ps' _ p S) as (ps3 & E & St & S3 & _ & K3 & _).
  - constructor; [exact Np | rewrite Es; apply lookup_insert_eq | rewrite Nx; constructor].
  - repeat constructor. exact Rf.
  - exact I.
  - exists ps3, (u8 1). split; [exact E|]. cbn [del drop_ref] in *. rewrite delete_insert_id in S3, K3 by exact F1.
    rewrite Es, delete_insert_id in St by exact F2. split; [exact St | split; [exact S3|]]. exact (preserves_trans _ _ _ _ K K3).
Qed.

Lemma prealloc_spec ps m L layer n mx api first : psys ps L -> 0 <= n <= mx -> mx <= 65460 ->
  exists ps' p over, tcp_pbuf_prealloc stale custom_free (run ps m) layer n mx pcb api first = Some (run ps' m, p, over) /\
    ((p = 0 /\ unchanged ps L ps') \/
     0 <= over <= mx - n /\ exists b k L', got ps L ps' L' p b k n (layer_offset layer) over).
Proof.
  intros S Hn Hm. unfold tcp_pbuf_prealloc. rewrite run_pcb. cbn [mbind option_bind].
  cbv zeta. match goal with |- context [t_alloc _ _ _ _ ?a _] => set (alloc := a) end.
  assert (Ha : n <= alloc <= mx).
  { unfold alloc. destruct (Z.ltb_spec n mx) as [Lt|]; cbn [andb]; [| lia]. destruct (_ || _); [| lia].
    rewrite align_int_eq, u16_id; unfold LWIP_MIN, TCP_OVERSIZE, TCP_MSS; case_bool; zlia. }
  clearbody alloc. unfold t_alloc. change (i_p (run ps m)) with ps.
  destruct (ram_alloc ps L layer alloc S ltac:(lia)) as (ps1 & p & -> & [[-> Un] | (b & k & L1 & G)]); cbn [mbind option_bind].
  - exists ps1, 0, 0. split; [reflexivity | left; split; [reflexivity | exact Un]].
  - destruct G as [Np Fr Gb Gs Gl Sy Rm Kp]. rewrite (proj2 (Z.eqb_neq p 0)) by exact Np.
    assert (Eb : pst ps1 !! p = Some b) by (rewrite Gs; apply lookup_insert_eq). unfold i_pbuf, update. cbn [i_p set_i_p].
    rewrite Eb. cbn [mbind option_bind]. assert (Lb : len b = alloc) by (rewrite Gb; reflexivity). rewrite Lb, u16_id by lia.
    eexists _, p, (alloc - n). split; [reflexivity | right; split; [lia|]]. exists (set_len (set_tot_len b n) n), k, L1.
    split; [exact Np | exact Fr | rewrite Gb; reflexivity | cbn; rewrite Gs, insert_insert_eq; reflexivity | exact Gl | | cbn; lia | exact Kp].
    apply psys_update; [exact Sy|]. destruct (ps_pbuf _ _ Sy p b Eb) as (H1 & H2 & H3 & H4 & j & H5 & H6 & H7).
    split; [exact H1|]. split; [exact H2|]. split; [cbn; lia|]. split; [exact H4|]. exists j. split; [exact H5 | split; [exact H6|]].
    rewrite Gb in H7 |- *. cbn in *. lia.
Qed.

(** Copying from one live region to another. *)
Lemma copy_spec ps m L p k r j dst src n : psys ps L -> 0 <= n -> L !! p = Some k -> p <= dst -> dst + n <= p + k ->
  L !! r = Some j -> r <> p -> r <= src -> src + n <= r + j ->
  exists x, t_copy (run ps m) dst src n = Some (run (set_mem ps x) m) /\ bytes x dst (Z.to_nat n) = bytes (mem_of ps) src (Z.to_nat n) /\
    frame (mem_of ps) x dst n /\ psys (set_mem ps x) L /\ preserves (mem_of ps) x (delete p L).
Proof.
  intros S Hn Hp H1 H2 Hr Ne H3 H4. pose proof (regions_of _ _ S) as R.
  destruct (Mylib.memcpy_spec (mem_of ps) dst src n Hn) as (x & E & Cp & F).
  { destruct (ro_disjoint L R r p j k Hr Hp Ne) as [D|D]; [right | left]; lia. }
  exists x. unfold t_copy. change (i_mem (run ps m)) with (mem_of ps). rewrite E. split; [reflexivity|].
  split; [| split; [exact F | split; [exact (psys_data ps L x p k dst n S Hp H1 H2 F) | exact (frame_preserves L _ _ p k dst n R Hp H1 H2 F)]]].
  apply list_eq. intros i. destruct (decide (i < Z.to_nat n)%nat) as [Hi|Hi].
  - rewrite !bytes_lookup by exact Hi. f_equal. apply Cp. lia.
  - rewrite !lookup_ge_None_2 by (rewrite bytes_length; lia). reflexivity.
Qed.

(** ** A new segment *)

(** The segment [x] as it is in the state: a pbuf of its own with the header in front of
    the data. *)
Definition seg_is ps L m (x : nseg) (seqno flags : Z) : Prop :=
  exists g b k, m !! n_seg x = Some g /\ pst ps !! n_p x = Some b /\ L !! n_p x = Some k /\
    g = mkTcpSeg (sg_next g) (n_p x) (n_len x) (n_over x) 0 (payload b) /\
    b = mkPbuf 0 (payload b) (20 + n_len x) (20 + n_len x) PBUF_RAM 0 1 /\
    n_p x + 16 + 34 <= payload b /\ payload b + 20 + n_len x + n_over x <= n_p x + k /\
    bytes (mem_of ps) (payload b + 20) (length (n_data x)) = n_data x /\
    new_header (mem_of ps) (payload b) (tp_local_port c) (tp_remote_port c) seqno flags.

Lemma bytes_kept L x y a n p k : preserves x y L -> L !! p = Some k -> p <= a -> a + Z.of_nat n <= p + k -> bytes y a n = bytes x a n.
Proof. intros K Hp H1 H2. apply bytes_ext. intros z Hz. apply K. exists p, k. split; [exact Hp | lia]. Qed.

(** It stays as it is while its memory does. *)
Lemma seg_is_kept ps L m ps' L' m' R x q fl g g' : seg_is ps L m x q fl -> 0 <= n_over x ->
  m !! n_seg x = Some g -> m' !! n_seg x = Some g' -> set_sg_next 0 g' = set_sg_next 0 g ->
  pst ps' !! n_p x = pst ps !! n_p x -> L' !! n_p x = L !! n_p x -> R !! n_p x = L !! n_p x -> preserves (mem_of ps) (mem_of ps') R -> seg_is ps' L' m' x q fl.
Proof.
  intros (g0 & b & k & E1 & E2 & E3 & Eg & Eb & H1 & H2 & D & (h1 & h2 & h3 & h4 & h5)) Ho E0 E4 E5 E6 E7 E8 K. rewrite <- E8 in E3.
  rewrite E1 in E0. injection E0 as ->. exists g', b, k. rewrite E6, E7, <- E8. repeat (split; [assumption|]).
  split; [destruct g, g'; unfold set_sg_next in E5; cbn in *; congruence|]. repeat (split; [assumption|]). unfold n_len in *.
  rewrite (bytes_kept R _ _ _ _ _ k K E3) by lia. split; [exact D|]. unfold new_header.
  rewrite !(bytes_kept R _ _ _ _ _ k K E3) by lia. auto.
Qed.

(** [x] was added to what there was. *)
Record added ps0 L0 m0 ps L m (x : nseg) (seqno flags : Z) : Prop := {
  ad_live : exists k j, L = <[n_seg x := j]> (<[n_p x := k]> L0);
  ad_fresh : L0 !! n_p x = None /\ L0 !! n_seg x = None /\ n_p x <> n_seg x /\ n_p x <> 0 /\ n_seg x <> 0;
  ad_store : exists b, pst ps = <[n_p x := b]> (pst ps0);
  ad_map : exists g, m = <[n_seg x := g]> m0 /\ sg_next g = 0;
  ad_sys : psys ps L;
  ad_segs : segs_ok L m;
  ad_over : 0 <= n_over x;
  ad_keep : preserves (mem_of ps0) (mem_of ps) L0;
  ad_is : seg_is ps L m x seqno flags }.

(** The header as it is written. *)
Lemma seg_header_written x h src dest seqno flags : 0 <= src < 65536 -> 0 <= dest < 65536 -> 0 <= flags < 64 ->
  let y := st16 (TCPH_HDRLEN_FLAGS_SET (st32 (st16 (st16 x (h + TCPH_src) (PP_HTONS src)) (h + TCPH_dest) (PP_HTONS dest))
             (h + TCPH_seqno) (lwip_htonl (u32 seqno))) h 5 flags) (h + TCPH_urgp) 0 in
  new_header y h src dest (u32 seqno) flags /\ frame x y h 20.
Proof.
  intros Hs Hd Hf y. unfold y, TCPH_HDRLEN_FLAGS_SET, TCPH_src, TCPH_dest, TCPH_seqno, TCPH_urgp, TCPH_hdrlen_rsvd_flags.
  rewrite Z.add_0_r. change (Z.shiftl 5 12) with 0x5000.
  assert (Hl : 0 <= Z.lor 0x5000 flags < 65536).
  { split; [apply Z.lor_nonneg; lia|]. apply Z.log2_lt_cancel. rewrite Z.log2_lor by lia. change (Z.log2 65536) with 16.
    assert (Z.log2 flags <= 5) by (apply Z.log2_le_mono with (b := 63); lia). change (Z.log2 0x5000) with 14. lia. }
  rewrite (u16_id (Z.lor _ _)) by exact Hl. split; [split; [| split; [| split; [| split]]] |].
  - skip_writes. by apply bytes_st16_htons.
  - skip_writes. by apply bytes_st16_htons.
  - skip_writes. apply bytes_st32_htonl. apply u32_range.
  - skip_writes. by apply bytes_st16_htons.
  - change (be16 0) with [0 mod 256; 0 / 256]. by apply bytes_st16.
  - intros z Hz. by skip_writes8.
Qed.

Lemma run_free ps m p : i_free custom_free (run ps m) p = ('(q, _) ← Pbuf.pbuf_free custom_free ps p; Some (run q m)).
Proof. reflexivity. Qed.
Lemma run_header ps m p n : i_header (run ps m) p n = ('(q, r) ← pbuf_header ps p n; Some (run q m, r)).
Proof. reflexivity. Qed.
Lemma run_w ps m w : set_w (run ps m) w = run (set_pw ps w) m.
Proof. reflexivity. Qed.
Lemma run_pbuf ps m p : i_pbuf (run ps m) p = pst ps !! p.
Proof. reflexivity. Qed.
Lemma run_write ps m x : i_write (run ps m) x = run (set_mem ps x) m.
Proof. reflexivity. Qed.

(** [p] is a new pbuf with the data [d]. *)
Record packet ps0 L0 ps (p : Z) (b : pbuf) (k : Z) (d : list Z) (off over : Z) : Prop := {
  pk_p : p <> 0;
  pk_fresh : L0 !! p = None /\ pst ps0 !! p = None;
  pk_b : b = mkPbuf 0 (payload b) (Z.of_nat (length d)) (Z.of_nat (length d)) PBUF_RAM 0 1;
  pk_store : pst ps = <[p := b]> (pst ps0);
  pk_sys : psys ps (<[p := k]> L0);
  pk_room : p + 16 + off <= payload b /\ payload b + Z.of_nat (length d) + over <= p + k;
  pk_len : Z.of_nat (length d) <= 65460;
  pk_over : 0 <= over;
  pk_data : bytes (mem_of ps) (payload b) (length d) = d;
  pk_keep : preserves (mem_of ps0) (mem_of ps) L0 }.

Lemma packet_free ps0 L0 ps p b k d off over w : packet ps0 L0 ps p b k d off over -> ms_live w (<[p := k]> L0) ->
  preserves (mem_of ps) (ms_mem w) (<[p := k]> L0) -> exists ps3 (r : Z), Pbuf.pbuf_free custom_free (set_pw ps w) p = Some (ps3, r) /\ unchanged ps0 L0 ps3.
Proof.
  intros P Lw K. destruct P as [Np [F1 F2] Pb Ps Sy Rm Pl Po D Kp]. apply (free_new ps0 L0 (set_pw ps w) p b k); try assumption.
  - apply psys_set_pw; assumption.
  - rewrite Pb. reflexivity.
  - rewrite Pb. reflexivity.
  - intros x Hx. transitivity (ld8 (mem_of ps) x); [| apply Kp, Hx]. apply K, in_region_insert; assumption.
Qed.

(** The state with the segment, when the header is written. *)
Lemma packet_added ps0 L0 m ps p b k d over seqno flags w seg j x :
  packet ps0 L0 ps p b k d 54 over -> segs_ok L0 m -> 0 <= flags < 64 ->
  preserves (mem_of ps) (ms_mem w) (<[p := k]> L0) -> seg <> 0 -> ms_pool seg = Some MEMP_TCP_SEG -> (<[p := k]> L0) !! seg = None ->
  ms_live w (<[seg := j]> (<[p := k]> L0)) -> new_header x (payload b - 20) (tp_local_port c) (tp_remote_port c) (u32 seqno) flags ->
  frame (ms_mem w) x (payload b - 20) 20 ->
  let b1 := move_payload b 20 in let g := mkTcpSeg 0 p (Z.of_nat (length d)) over 0 (payload b - 20) in
  added ps0 L0 m (set_mem (set_pst (set_pw ps w) (<[p := b1]> (pst ps))) x) (<[seg := j]> (<[p := k]> L0)) (<[seg := g]> m)
    (mkNseg seg p d over) (u32 seqno) flags.
Proof.
  intros P So Hf K Ns Pl Fs Lw Hx Fr b1 g. destruct P as [Np [F1 F2] Pb Ps Sy Rm Pl' Po D Kp].
  assert (Nsp : seg <> p) by (intros ->; rewrite lookup_insert_eq in Fs; discriminate). rewrite lookup_insert_ne in Fs by congruence.
  assert (Kx : preserves (mem_of ps) x L0).
  { intros y Hy. transitivity (ld8 (ms_mem w) y); [| apply K, in_region_insert; assumption]. apply Fr. intros I. destruct Hy as (q & i & Hq & Hy).
    destruct (ro_disjoint _ (regions_of _ _ Sy) p q k i) as [?|?]; [apply lookup_insert_eq | | | lia | lia].
    - rewrite lookup_insert_ne; [exact Hq | congruence].
    - congruence. }
  assert (Eb : pst ps !! p = Some b) by (rewrite Ps; apply lookup_insert_eq). set (L := <[seg := j]> (<[p := k]> L0)) in *.
  assert (Lp : L !! p = Some k) by (unfold L; rewrite lookup_insert_ne by exact Nsp; apply lookup_insert_eq).
  assert (S1 : psys (set_pst (set_pw ps w) (<[p := b1]> (pst ps))) L).
  { apply (psys_update (set_pw ps w) L p b1); [apply psys_grow; [exact Sy | rewrite lookup_insert_ne by congruence; exact Fs | exact Lw]|].
    destruct (ps_pbuf _ _ Sy p b Eb) as (H1 & H2 & H3 & H4 & _). split; [exact H1|]. split; [exact H2|]. split; [cbn; lia|].
    split; [exact H4|]. exists k. split; [exact Lp|]. unfold b1. rewrite Pb. cbn. lia. }
  split; cbn [n_seg n_p n_over].
  - eauto.
  - auto.
  - exists b1. cbn. rewrite Ps, insert_insert_eq. reflexivity.
  - exists g. auto.
  - apply (psys_data _ L x p k (payload b - 20) 20 S1 Lp); [lia | lia | exact Fr].
  - apply segs_ok_insert; [apply segs_ok_grow, segs_ok_grow; exact So | exact Ns | exact Pl |]. unfold L. rewrite lookup_insert_eq. eauto.
  - exact Po.
  - intros y Hy. rewrite mem_set, Kx by exact Hy. apply Kp, Hy.
  - exists g, b1, k. cbn [n_seg n_p n_over n_data]. unfold n_len. cbn [n_data].
    split; [apply lookup_insert_eq|]. split; [apply lookup_insert_eq|]. split; [exact Lp|]. split; [reflexivity|].
    split; [unfold b1, move_payload; rewrite Pb; cbn [next payload tot_len len type PbufDefs.flags ref]; f_equal; lia|]. cbn [payload b1 move_payload]. split; [lia|]. split; [lia|].
    rewrite mem_set. split; [| exact Hx]. rewrite <- D at 2. replace (payload b - 20 + 20) with (payload b) by lia.
    apply bytes_ext. intros y Hy. rewrite Fr by lia. apply K. exists p, k. split; [apply lookup_insert_eq | lia].
Qed.

Lemma create_spec ps0 L0 m ps p b k d over seqno flags : packet ps0 L0 ps p b k d 54 over -> segs_ok L0 m -> 0 <= flags < 64 ->
  exists ps' m' seg, tcp_create_segment custom_free (run ps m) pcb p flags seqno 0 = Some (run ps' m', seg) /\
    ((seg = 0 /\ m' = m /\ unchanged ps0 L0 ps') \/
     (seg <> 0 /\ exists g, m' !! seg = Some g /\ exists L',
        added ps0 L0 m ps' L' (<[seg := set_sg_oversize_left over g]> m') (mkNseg seg p d over) (u32 seqno) flags)).
Proof.
  intros P So Hf. destruct (memp_spec ps (<[p := k]> L0) MEMP_TCP_SEG (pk_sys _ _ _ _ _ _ _ _ _ P)) as (w & seg & Ew & K & R).
  unfold tcp_create_segment. change (LWIP_TCP_OPT_LENGTH 0) with 0. change (5 + 0 / 4) with 5. cbv zeta. change (i_p (run ps m)) with ps. rewrite Ew, run_w.
  destruct R as [[-> S1] | (Ns & Pl & Fs & _ & _ & j & _ & _ & Lw)].
  - cbn [Z.eqb]. rewrite run_free. destruct (packet_free ps0 L0 ps p b k d 54 over w P (ps_live _ _ S1) K) as (ps3 & r & -> & Un). cbn [mbind option_bind].
    exists ps3, m, 0. split; [reflexivity | left; auto].
  - rewrite (proj2 (Z.eqb_neq seg 0)) by exact Ns. pose proof P as [Np [F1 F2] Pb Ps Sy Rm Pl' Po D Kp].
    assert (Eb : pst (set_pw ps w) !! p = Some b) by (cbn; rewrite Ps; apply lookup_insert_eq).
    assert (Lb : len b = Z.of_nat (length d) /\ tot_len b = Z.of_nat (length d)) by (rewrite Pb; auto). destruct Lb as [Lb Tb].
    rewrite run_pbuf, Eb. cbn [mbind option_bind]. rewrite Tb, Z.sub_0_r, u16_id by lia.
    rewrite run_put, run_header. destruct (header_spec (set_pw ps w) p b TCP_HLEN Eb Np ltac:(lia) ltac:(unfold TCP_HLEN; lia) ltac:(unfold TCP_HLEN; lia)) as [Hh _].
    rewrite Hh by (split; [unfold TCP_HLEN; lia | rewrite Pb; unfold TCP_HLEN, SIZEOF_STRUCT_PBUF; cbn; lia]). cbn [mbind option_bind]. change (negb (0 =? 0)) with false. cbn match.
    rewrite run_pcb. cbn [mbind option_bind]. rewrite run_pbuf. cbn [pst set_pst]. rewrite lookup_insert_eq. cbn [mbind option_bind].
    rewrite (run_upd _ _ seg _ _ (lookup_insert_eq _ _ _)). cbn [mbind option_bind]. rewrite run_write, insert_insert_eq.
    change (payload (move_payload b TCP_HLEN)) with (payload b - 20). change (i_mem (run _ _)) with (ms_mem w).
    destruct (seg_header_written (ms_mem w) (payload b - 20) (tp_local_port c) (tp_remote_port c) seqno flags (proj1 Cports) (proj2 Cports) Hf) as [Hx Fx].
    eexists _, _, seg. split; [reflexivity | right; split; [exact Ns|]]. eexists. split; [apply lookup_insert_eq|].
    exists (<[seg := j]> (<[p := k]> L0)). rewrite insert_insert_eq.
    exact (packet_added ps0 L0 m ps p b k d over seqno flags w seg j _ P So Hf K Ns Pl Fs Lw Hx Fx).
Qed.

(** ** The packet of a new segment *)

Lemma clen_one ps p b : pst ps !! p = Some b -> next b = 0 -> p <> 0 -> pbuf_clen ps p = Some 1.
Proof.
  intros E Nx Np. unfold pbuf_clen. assert (exists k, size (pst ps) = S k) as [k ->].
  { destruct (size (pst ps)) as [|k] eqn:Z0; [| eauto]. apply map_size_empty_inv in Z0. rewrite Z0 in E. discriminate. }
  rewrite while_S. cbn [fst snd]. rewrite (proj2 (Z.eqb_neq p 0)) by exact Np. rewrite E, while_S, Nx. reflexivity.
Qed.

(** A pbuf with a copy of [n] bytes. *)
Lemma copied_packet ps m L layer mx api first r j src n : psys ps L -> 0 <= n <= mx -> mx <= 65460 -> L !! r = Some j -> r <= src -> src + n <= r + j ->
  exists ps1 p over, tcp_pbuf_prealloc stale custom_free (run ps m) layer n mx pcb api first = Some (run ps1 m, p, over) /\
    ((p = 0 /\ unchanged ps L ps1) \/
     p <> 0 /\ 0 <= over <= mx - n /\ exists b, pst ps1 !! p = Some b /\ forall m1, exists ps2,
       t_copy (run ps1 m1) (payload b) src n = Some (run ps2 m1) /\
       exists k, packet ps L ps2 p b k (bytes (mem_of ps) src (Z.to_nat n)) (layer_offset layer) over).
Proof.
  intros S Hn Hm Hr H1 H2.
  destruct (prealloc_spec ps m L layer n mx api first S Hn Hm) as (ps1 & p & ov & -> & [[-> Un] | (Ho & b & k & L1 & G)]).
  - exists ps1, 0, ov. split; [reflexivity | left; auto].
  - exists ps1, p, ov. split; [reflexivity | right]. destruct G as [Np Fr Gb Gs Gl Sy Rm Kp]. split; [exact Np | split; [exact Ho|]].
    exists b. split; [rewrite Gs; apply lookup_insert_eq|]. intros m1. subst L1.
    assert (Nr : r <> p) by (intros ->; destruct Fr; congruence).
    destruct (copy_spec ps1 m1 (<[p := k]> L) p k r j (payload b) src n Sy ltac:(lia) (lookup_insert_eq _ _ _)) as (x & E & D & Fx & Sx & Kx);
      [pose proof (layer_offset_range layer); lia | lia | rewrite lookup_insert_ne by congruence; exact Hr | exact Nr | exact H1 | exact H2 |].
    rewrite delete_insert_id in Kx by apply Fr. exists (set_mem ps1 x). split; [exact E|]. exists k.
    split; rewrite ?bytes_length, ?mem_set, ?Z2Nat.id by lia; try assumption; try lia.
    + rewrite D. apply (bytes_kept L _ _ _ _ r j Kp Hr); lia.
    + exact (preserves_trans _ _ _ _ Kp Kx).
Qed.

Lemma packet_spec ps m L api mss over first r j src n : psys ps L -> has api TCP_WRITE_FLAG_COPY = true -> 0 <= n <= mss -> mss <= 65460 ->
  L !! r = Some j -> r <= src -> src + n <= r + j ->
  exists ps' p over', write_packet stale custom_free (run ps m) pcb src n api mss over first = Some (run ps' m, p, over') /\
    ((p = 0 /\ unchanged ps L ps') \/ over' <= mss - n /\ exists b k, packet ps L ps' p b k (bytes (mem_of ps) src (Z.to_nat n)) 54 over').
Proof.
  intros S Hc Hn Hm Hr H1 H2. unfold write_packet. rewrite Hc.
  destruct (copied_packet ps m L PBUF_TRANSPORT mss api first r j src n S Hn Hm Hr H1 H2) as (ps1 & p & ov & -> & [[-> Un] | (Np & Ho & b & Eb & Cp)]);
    cbn [mbind option_bind].
  - exists ps1, 0, over. split; [reflexivity | left; auto].
  - rewrite (proj2 (Z.eqb_neq p 0)) by exact Np. rewrite run_pbuf, Eb. cbn [mbind option_bind].
    destruct (Cp m) as (ps2 & -> & k & P). cbn [mbind option_bind]. exists ps2, p, ov. split; [reflexivity | right; split; [lia|]]. eauto.
Qed.

(** ** The queue of new segments *)

Definition total (xs : list nseg) : Z := foldr (fun x n => n_len x + n) 0 xs.

(** The segments as they are in the state, with the sequence numbers from [pos] on. *)
Fixpoint placed ps L m (pos : Z) (xs : list nseg) : Prop :=
  match xs with
  | [] => True
  | x :: xs => seg_is ps L m x (u32 (tp_snd_lbb c + pos)) 0 /\ 0 <= n_over x /\ placed ps L m (pos + n_len x) xs
  end.

Lemma placed_app ps L m pos xs ys : placed ps L m pos (xs ++ ys) <-> placed ps L m pos xs /\ placed ps L m (pos + total xs) ys.
Proof.
  clear. revert pos. induction xs as [|x xs IH]; intros pos; cbn [app placed total foldr]; [rewrite Z.add_0_r; tauto|].
  rewrite IH. fold (total xs). rewrite Z.add_assoc. tauto.
Qed.
Lemma placed_kept ps L m ps' L' m' R pos xs : placed ps L m pos xs ->
  (forall x, x ∈ xs -> pst ps' !! n_p x = pst ps !! n_p x /\ L' !! n_p x = L !! n_p x /\ R !! n_p x = L !! n_p x /\
     forall g, m !! n_seg x = Some g -> exists g', m' !! n_seg x = Some g' /\ set_sg_next 0 g' = set_sg_next 0 g) ->
  preserves (mem_of ps) (mem_of ps') R -> placed ps' L' m' pos xs.
Proof.
  revert pos. induction xs as [|x xs IH]; intros pos P F K; [exact P|]. destruct P as (Sx & O & P).
  split; [| split; [exact O | apply IH; [exact P | intros y I; apply F, elem_of_cons; auto | exact K]]].
  destruct (F x ltac:(apply elem_of_cons; auto)) as (F1 & F2 & F4 & F3). pose proof Sx as (g & b & k & Eg & _). destruct (F3 g Eg) as (g' & Eg' & E).
  exact (seg_is_kept ps L m ps' L' m' R x _ 0 g g' Sx O Eg Eg' E F1 F2 F4 K).
Qed.

(** The state with the new segments [xs], which are linked from [h] and have the sequence
    numbers from [pos] on; nothing else was changed or released. *)
Record held ps0 L0 m0 ps L m (h pos : Z) (xs : list nseg) : Prop := {
  hd_sys : psys ps L;
  hd_segs : segs_ok L m;
  hd_fresh : forall a, a ∈ (n_p <$> xs) ++ (n_seg <$> xs) -> L0 !! a = None;
  hd_nodup : NoDup ((n_p <$> xs) ++ (n_seg <$> xs));
  hd_live : forall a, a ∉ (n_p <$> xs) ++ (n_seg <$> xs) -> L !! a = L0 !! a;
  hd_store : forall a, a ∉ n_p <$> xs -> pst ps !! a = pst ps0 !! a;
  hd_map : forall a, a ∉ n_seg <$> xs -> m !! a = m0 !! a;
  hd_keep : preserves (mem_of ps0) (mem_of ps) L0;
  hd_path : path (sg_next <$> m) h (n_seg <$> xs);
  hd_placed : placed ps L m pos xs }.

(** The same with the local variables of the loop; [seg0], [pos0], [qlen0] and [over0] are
    what they were before. *)
Record queued ps0 L0 m0 (seg0 pos0 qlen0 over0 : Z) ps L m (q : write_queue) (xs : list nseg) : Prop := {
  qd_held : held ps0 L0 m0 ps L m (wq_queue q) pos0 xs;
  qd_prev : xs <> [] -> wq_prev q = last_of (n_seg <$> xs);
  qd_last : wq_seg q = List.last (n_seg <$> xs) seg0;
  qd_pos : wq_pos q = pos0 + total xs;
  qd_queuelen : wq_queuelen q = qlen0 + Z.of_nat (length xs);
  qd_oversize : wq_oversize q = List.last (n_over <$> xs) over0 }.

Lemma last_snoc {A} (l : list A) x d : List.last (l ++ [x]) d = x.
Proof. apply last_last. Qed.

Lemma placed_in ps L m pos xs x : placed ps L m pos xs -> x ∈ xs -> exists q, seg_is ps L m x q 0.
Proof.
  revert pos. induction xs as [|y xs IH]; intros pos P I; [apply elem_of_nil in I; contradiction|]. destruct P as (Sx & _ & P).
  apply elem_of_cons in I as [->|I]; eauto.
Qed.

(** Facts about one more segment. *)
Lemma added_apart ps0 L0 m0 seg0 pos0 qlen0 over0 ps L m q xs ps' L' m' x n fl :
  queued ps0 L0 m0 seg0 pos0 qlen0 over0 ps L m q xs -> added ps L m ps' L' m' x n fl ->
  (n_p x ∉ (n_p <$> xs) ++ (n_seg <$> xs)) /\ (n_seg x ∉ (n_p <$> xs) ++ (n_seg <$> xs)) /\ L0 !! n_p x = None /\ L0 !! n_seg x = None.
Proof.
  intros Q A. destruct (ad_fresh _ _ _ _ _ _ _ _ _ A) as (F1 & F2 & _).
  assert (In : forall a, L !! a = None -> a ∉ (n_p <$> xs) ++ (n_seg <$> xs)).
  { intros a Fa I. apply elem_of_app in I as [I|I]; apply list_elem_of_fmap in I as (y & -> & I);
      destruct (placed_in _ _ _ _ _ _ (hd_placed _ _ _ _ _ _ _ _ _ (qd_held _ _ _ _ _ _ _ _ _ _ _ _ Q)) I) as (r & g & b & k & Eg & _ & Ek & _); [congruence|].
    destruct (hd_segs _ _ _ _ _ _ _ _ _ (qd_held _ _ _ _ _ _ _ _ _ _ _ _ Q) _ _ Eg) as (_ & _ & [v Ev]). congruence. }
  pose proof (In _ F1) as N1. pose proof (In _ F2) as N2. split; [exact N1 | split; [exact N2|]].
  rewrite <- (hd_live _ _ _ _ _ _ _ _ _ (qd_held _ _ _ _ _ _ _ _ _ _ _ _ Q) _ N1), <- (hd_live _ _ _ _ _ _ _ _ _ (qd_held _ _ _ _ _ _ _ _ _ _ _ _ Q) _ N2). auto.
Qed.

(** The new segment is linked behind the last one. *)
Definition link_behind (xs : list nseg) (a : Z) m : gmap Z tcp_seg :=
  match xs with [] => m | _ => alter (set_sg_next a) (last_of (n_seg <$> xs)) m end.

Lemma link_behind_next xs a m x g : m !! x = Some g -> exists g', link_behind xs a m !! x = Some g' /\ set_sg_next 0 g' = set_sg_next 0 g.
Proof.
  intros E. unfold link_behind. destruct xs as [|y xs]; [eauto|]. destruct (decide (last_of (n_seg <$> y :: xs) = x)) as [->|Ne].
  - rewrite lookup_alter_eq, E. cbn. eauto.
  - rewrite lookup_alter_ne by exact Ne. eauto.
Qed.
Lemma last_in (l : list Z) d : l <> [] -> List.last l d ∈ l.
Proof. intros N. destruct (exists_last N) as (l' & x & ->). rewrite last_last. apply elem_of_app. right. apply elem_of_cons. auto. Qed.
Lemma last_any (l : list Z) d d' : l <> [] -> List.last l d = List.last l d'.
Proof. intros N. destruct (exists_last N) as (l' & x & ->). rewrite !last_last. reflexivity. Qed.

Lemma link_path xs a m g h : path (sg_next <$> m) h (n_seg <$> xs) -> a ∉ n_seg <$> xs -> a <> 0 -> sg_next g = 0 ->
  path (sg_next <$> link_behind xs a (<[a := g]> m)) (if h =? 0 then a else h) ((n_seg <$> xs) ++ [a]).
Proof.
  intros P Ni Na Eg. assert (P1 : path (sg_next <$> <[a := g]> m) a [a]).
  { apply (path_cons _ _ 0); [exact Na | | constructor]. rewrite fmap_insert, lookup_insert_eq, Eg. reflexivity. }
  destruct xs as [|x xs].
  - apply path_inv in P as [[-> _] | (_ & q & l & E & _)]; [exact P1 | discriminate E].
  - assert (Nh : h <> 0) by (apply path_inv in P as [[_ E] | (N & _)]; [discriminate E | exact N]). rewrite (proj2 (Z.eqb_neq h 0)) by exact Nh.
    unfold link_behind. set (l := n_seg <$> x :: xs) in *. assert (Nl : l <> []) by discriminate.
    assert (La : last_of l <> a) by (intros <-; apply Ni, last_in, Nl).
    destruct (path_elem _ _ _ _ P (last_in l 0 Nl)) as [_ [v Ev]]. change (List.last l 0) with (last_of l) in Ev. rewrite lookup_fmap in Ev.
    destruct (m !! last_of l) as [gl|] eqn:El; [| discriminate Ev].
    assert (sg_next <$> alter (set_sg_next a) (last_of l) (<[a := g]> m) = <[last_of l := a]> (sg_next <$> <[a := g]> m)) as ->.
    { apply map_eq. intros y. rewrite lookup_fmap. destruct (decide (y = last_of l)) as [->|Ny].
      - rewrite lookup_alter_eq, lookup_insert_eq, lookup_insert_ne, El by congruence. reflexivity.
      - rewrite lookup_alter_ne, (lookup_insert_ne (sg_next <$> _)), lookup_fmap by congruence. reflexivity. }
    apply path_join; [exact Nl | | exact P1 |].
    + rewrite fmap_insert. apply path_insert_ne; assumption.
    + intros y I J. apply list_elem_of_singleton in J as ->. contradiction.
Qed.

Lemma queued_step ps0 L0 m0 seg0 pos0 qlen0 over0 ps L m q xs ps' L' m' x :
  queued ps0 L0 m0 seg0 pos0 qlen0 over0 ps L m q xs -> added ps L m ps' L' m' x (u32 (tp_snd_lbb c + wq_pos q)) 0 ->
  queued ps0 L0 m0 seg0 pos0 qlen0 over0 ps' L' (link_behind xs (n_seg x) m')
    (mkQueue (n_seg x) (if wq_queue q =? 0 then n_seg x else wq_queue q) (n_seg x) (wq_pos q + n_len x) (wq_queuelen q + 1) (n_over x)) (xs ++ [x]).
Proof.
  intros Q A. destruct (added_apart _ _ _ _ _ _ _ _ _ _ _ _ _ _ _ _ _ _ Q A) as (N1 & N2 & F1 & F2).
  destruct Q as [[Qs Qg Qf Qn Ql Qp Qm Qk Qpa Qpl] Qpr Qla Qpo Qqu Qov].
  destruct A as [(k & j & AL) (_ & _ & Nps & Np & Ns) (b & Ast) (g & Am & Ag) Asy Ase Ao Ak Ais].
  assert (Ka : preserves (mem_of ps0) (mem_of ps') L0).
  { intros y Hy. rewrite Ak; [apply Qk, Hy|]. destruct Hy as (a & n & Ha & Hy). exists a, n. split; [| exact Hy].
    rewrite Ql; [exact Ha|]. intros I. rewrite (Qf a I) in Ha. discriminate. }
  assert (In1 : forall a, a ∈ (n_p <$> xs ++ [x]) ++ (n_seg <$> xs ++ [x]) <-> a ∈ (n_p <$> xs) ++ (n_seg <$> xs) \/ a = n_p x \/ a = n_seg x).
  { intros a. rewrite !fmap_app, !elem_of_app. cbn. rewrite !list_elem_of_singleton. tauto. }
  assert (Nx : forall y, y ∈ xs -> n_p y <> n_p x /\ n_seg y <> n_seg x /\ n_p y <> n_seg x /\ n_seg y <> n_p x).
  { intros y I. pose proof (list_elem_of_fmap_2 n_p _ _ I) as Ip. pose proof (list_elem_of_fmap_2 n_seg _ _ I) as Is.
    rewrite elem_of_app in N1, N2. repeat split; intros E; rewrite E in *; tauto. }
  rewrite elem_of_app in N1, N2. split; [split|..]; cbn [wq_seg wq_queue wq_prev wq_pos wq_queuelen wq_oversize]; try assumption.
  - intros a v E. destruct (m' !! a) as [w|] eqn:Ew; [exact (Ase a w Ew)|]. exfalso.
    unfold link_behind in E. destruct xs; [congruence|]. apply lookup_alter_Some in E as [(Ea & w & E & _) | (_ & E)]; [subst a|]; congruence.
  - intros a I. apply In1 in I as [I | [-> | ->]]; auto.
  - rewrite !fmap_app. cbn. rewrite NoDup_app in Qn |- *. destruct Qn as (Q1 & Q2 & Q3). split; [| split].
    + apply NoDup_app. split; [exact Q1 | split; [| apply NoDup_singleton]]. intros a I J. apply list_elem_of_singleton in J. subst a. tauto.
    + intros a I J. rewrite elem_of_app, list_elem_of_singleton in I, J. destruct I as [I | I], J as [J | J]; try subst a; [exact (Q2 _ I J) | tauto | tauto | congruence].
    + apply NoDup_app. split; [exact Q3 | split; [| apply NoDup_singleton]]. intros a I J. apply list_elem_of_singleton in J. subst a. tauto.
  - intros a I. rewrite In1 in I. rewrite AL, !lookup_insert_ne by (intros ?; subst a; tauto). apply Ql. tauto.
  - intros a I. rewrite fmap_app, elem_of_app in I. cbn in I. rewrite list_elem_of_singleton in I.
    rewrite Ast, lookup_insert_ne by (intros ?; subst a; tauto). apply Qp. tauto.
  - intros a I. rewrite fmap_app, elem_of_app in I. cbn in I. rewrite list_elem_of_singleton in I.
    transitivity (m' !! a); [| rewrite Am, lookup_insert_ne by (intros ?; subst a; tauto); apply Qm; tauto].
    unfold link_behind. destruct xs as [|y xs]; [reflexivity|]. apply lookup_alter_ne. intros <-. apply I. left. apply last_in. discriminate.
  - rewrite fmap_app, Am. apply link_path; [exact Qpa | tauto | exact Ns | exact Ag].
  - apply placed_app. cbn [placed]. rewrite <- Qpo. split; [| split; [| split; [exact Ao | exact Logic.I]]].
    + apply (placed_kept ps L m _ _ _ L); [exact Qpl | | exact Ak]. intros y I. destruct (Nx y I) as (X1 & X2 & X3 & X4).
      rewrite Ast, AL, !lookup_insert_ne by congruence. do 3 (split; [reflexivity|]). intros v Ev. apply link_behind_next.
      rewrite Am, lookup_insert_ne by congruence. exact Ev.
    + pose proof Ais as (v & _ & _ & Ev & _). destruct (link_behind_next xs (n_seg x) m' _ _ Ev) as (v' & Ev' & E).
      exact (seg_is_kept ps' L' m' ps' L' _ L' x _ 0 v v' Ais Ao Ev Ev' E eq_refl eq_refl eq_refl (preserves_refl _ _)).
  - intros _. rewrite fmap_app. symmetry. apply last_snoc.
  - rewrite fmap_app. symmetry. apply last_snoc.
  - rewrite Qpo. unfold total. rewrite foldr_app. cbn [foldr]. rewrite Z.add_0_r. fold (total xs).
    assert (forall z, foldr (fun y n => n_len y + n) z xs = total xs + z) as ->; [| lia].
    intros z. unfold total. clear. induction xs as [|y xs IH]; cbn [foldr]; lia.
  - rewrite Qqu, length_app. cbn. lia.
  - rewrite fmap_app. symmetry. apply last_snoc.
Qed.

Lemma alter_seg (f : tcp_seg -> tcp_seg) (a : Z) m g : m !! a = Some g -> alter f a m = <[a := f g]> m.
Proof.
  intros E. apply map_eq. intros x. destruct (decide (x = a)) as [->|N].
  - rewrite lookup_alter_eq, lookup_insert_eq, E. reflexivity.
  - rewrite lookup_alter_ne, lookup_insert_ne by congruence. reflexivity.
Qed.

(** Nothing of the queue is touched by an allocation that failed. *)
Lemma queued_unchanged ps0 L0 m0 seg0 pos0 qlen0 over0 ps L m q xs ps' :
  queued ps0 L0 m0 seg0 pos0 qlen0 over0 ps L m q xs -> unchanged ps L ps' -> queued ps0 L0 m0 seg0 pos0 qlen0 over0 ps' L m q xs.
Proof.
  intros [[Qs Qg Qf Qn Ql Qp Qm Qk Qpa Qpl] Qpr Qla Qpo Qqu Qov] (Es & S & K). split; [split|..]; try assumption.
  - intros a I. rewrite Es. exact (Qp a I).
  - intros y Hy. rewrite K; [apply Qk, Hy|]. destruct Hy as (a & n & Ha & Hy). exists a, n. split; [| exact Hy].
    rewrite Ql; [exact Ha|]. intros I. rewrite (Qf a I) in Ha. discriminate.
  - apply (placed_kept ps L m _ _ _ L); [exact Qpl | | exact K]. intros x I. rewrite Es. do 3 (split; [reflexivity|]). eauto.
Qed.

Section loop.
(** The data is in a live region. *)
Context (arg n : Z) (api mss : Z).
Context (Hn : 0 <= n < 65536) (Hmss : 0 <= mss <= 65460) (Copy : has api TCP_WRITE_FLAG_COPY = true).
Context (ps0 : pstate W) (L0 : regions) (m0 : gmap Z tcp_seg) (r j : Z).
Context (Src : L0 !! r = Some j /\ r <= arg /\ arg + n <= r + j).
Context (seg0 pos0 qlen0 over0 : Z).
Local Abbreviation queued := (queued ps0 L0 m0 seg0 pos0 qlen0 over0).

Lemma arg_kept ps L m q xs a k : queued ps L m q xs -> arg <= a -> a + Z.of_nat k <= arg + n ->
  L !! r = Some j /\ bytes (mem_of ps) a k = bytes (mem_of ps0) a k.
Proof.
  intros Q H1 H2. destruct Src as (Hr & H3 & H4). split.
  - rewrite (hd_live _ _ _ _ _ _ _ _ _ (qd_held _ _ _ _ _ _ _ _ _ _ _ _ Q)); [exact Hr|]. intros I. rewrite (hd_fresh _ _ _ _ _ _ _ _ _ (qd_held _ _ _ _ _ _ _ _ _ _ _ _ Q) r I) in Hr. discriminate.
  - apply (bytes_kept L0 _ _ _ _ r j (hd_keep _ _ _ _ _ _ _ _ _ (qd_held _ _ _ _ _ _ _ _ _ _ _ _ Q)) Hr); lia.
Qed.

(** A segment that was made is put behind the others. *)
Lemma link_spec ps0' L0' m0' ps L m q xs ps' L' m' x k fl g : queued ps L m q xs ->
  added ps0' L0' m0' ps' L' (<[n_seg x := set_sg_oversize_left (n_over x) g]> m') x k fl -> ps0' = ps -> L0' = L -> m0' = m ->
  m' !! n_seg x = Some g ->
  (s1 ← upd_seg (run ps' m') (n_seg x) (set_sg_oversize_left (n_over x));
   if wq_queue q =? 0 then Some (s1, n_seg x) else s2 ← upd_seg s1 (wq_prev q) (set_sg_next (n_seg x)); Some (s2, wq_queue q)) =
  Some (run ps' (link_behind xs (n_seg x) (<[n_seg x := set_sg_oversize_left (n_over x) g]> m')), if wq_queue q =? 0 then n_seg x else wq_queue q).
Proof.
  intros Q A -> -> -> Eg. rewrite (run_upd _ _ _ _ _ Eg). cbn [mbind option_bind]. set (m1 := <[_ := _]> m') in *.
  pose proof (hd_path _ _ _ _ _ _ _ _ _ (qd_held _ _ _ _ _ _ _ _ _ _ _ _ Q)) as P. destruct xs as [|y xs].
  - apply path_inv in P as [[-> _] | (_ & ? & ? & E & _)]; [reflexivity | discriminate E].
  - assert (Nh : wq_queue q <> 0) by (apply path_inv in P as [[_ E] | (N & _)]; [discriminate E | exact N]).
    rewrite (proj2 (Z.eqb_neq _ 0)) by exact Nh. rewrite (qd_prev _ _ _ _ _ _ _ _ _ _ _ _ Q) by discriminate.
    assert (Nl : n_seg <$> y :: xs <> []) by discriminate. destruct (path_elem _ _ _ _ P (last_in (n_seg <$> y :: xs) 0 Nl)) as [_ [v Ev]].
    change (List.last ?l 0) with (last_of l) in Ev. set (la := last_of (n_seg <$> y :: xs)) in *. rewrite lookup_fmap in Ev.
    destruct (m !! la) as [gl|] eqn:El; [| discriminate Ev].
    assert (E1 : m1 !! la = Some gl).
    { destruct (ad_map _ _ _ _ _ _ _ _ _ A) as (g1 & Em & _). rewrite Em. rewrite lookup_insert_ne; [exact El|]. intros E.
      destruct (ad_fresh _ _ _ _ _ _ _ _ _ A) as (_ & F & _). rewrite E in F. destruct (hd_segs _ _ _ _ _ _ _ _ _ (qd_held _ _ _ _ _ _ _ _ _ _ _ _ Q) _ _ El) as (_ & _ & [z Ez]). congruence. }
    rewrite (run_upd _ _ _ _ _ E1). cbn [mbind option_bind link_behind]. fold la. rewrite (alter_seg _ _ _ _ E1). reflexivity.
Qed.

Lemma body_spec ps L m q xs : queued ps L m q xs -> segs_ok L0 m0 -> 0 <= wq_pos q < n -> 0 <= wq_queuelen q <= TCP_SND_QUEUELEN ->
  let w := Z.min mss (n - wq_pos q) in
  (exists ps', write_body stale custom_free pcb arg n api mss (tp_snd_lbb c) (run ps m, q) = inr (Some (run ps' m, wq_queue q, None)) /\ unchanged ps L ps') \/
  (exists ps' L' m' x, write_body stale custom_free pcb arg n api mss (tp_snd_lbb c) (run ps m, q) =
       inl (run ps' (link_behind xs (n_seg x) m'),
         mkQueue (n_seg x) (if wq_queue q =? 0 then n_seg x else wq_queue q) (n_seg x) (wq_pos q + n_len x) (wq_queuelen q + 1) (n_over x)) /\
     added ps L m ps' L' m' x (u32 (tp_snd_lbb c + wq_pos q)) 0 /\ n_data x = bytes (mem_of ps0) (arg + wq_pos q) (Z.to_nat w) /\
     n_over x <= mss - n_len x /\ wq_queuelen q + 1 <= TCP_SND_QUEUELEN).
Proof.
  intros Q So0 Hp Hq w. destruct Src as (Hr & H3 & H4). unfold write_body. rewrite (proj2 (Z.ltb_lt _ _)) by lia. cbv zeta.
  assert ((if mss <? n - wq_pos q then mss else n - wq_pos q) = w) as -> by (unfold w; case_bool; lia).
  assert (Hw : 0 <= w <= mss /\ w <= n - wq_pos q) by (unfold w; lia). clearbody w.
  destruct (arg_kept ps L m q xs (arg + wq_pos q) (Z.to_nat w) Q ltac:(lia) ltac:(lia)) as [Lr Eb].
  destruct (packet_spec ps m L api mss (wq_oversize q) (wq_queue q =? 0) r j (arg + wq_pos q) w (hd_sys _ _ _ _ _ _ _ _ _ (qd_held _ _ _ _ _ _ _ _ _ _ _ _ Q)) Copy ltac:(lia) ltac:(lia) Lr ltac:(lia) ltac:(lia))
    as (ps1 & p & over & -> & [[-> Un] | (Ho & b & k & Pk)]).
  { left. exists ps1. split; [reflexivity | exact Un]. }
  pose proof Pk as [Np [F1 F2] Pb Ps Sy Rm Pl Po D Kp]. rewrite (proj2 (Z.eqb_neq p 0)) by exact Np. rewrite bytes_length, Z2Nat.id in * by lia.
  assert (Ec1 : pbuf_clen ps1 p = Some 1) by (apply (clen_one ps1 p b); [rewrite Ps; apply lookup_insert_eq | rewrite Pb; reflexivity | exact Np]).
  change (i_p (run ps1 m)) with ps1. rewrite Ec1. change TCP_SND_QUEUELEN with 32 in *. rewrite u16_id by lia.
  change TCP_SNDQUEUELEN_OVERFLOW with 65532 in *. rewrite (proj2 (Z.ltb_ge 65532 _)) by lia. rewrite orb_false_r.
  destruct (Z.ltb_spec 32 (wq_queuelen q + 1)) as [Lt|Ge].
  { left. rewrite run_free. destruct (packet_free ps L ps1 p b k _ 54 over (pw ps1) Pk (ps_live _ _ Sy) (preserves_refl _ _)) as (ps3 & z & E & Un).
    assert (set_pw ps1 (pw ps1) = ps1) as Ew by (destruct ps1; reflexivity). rewrite Ew in E. rewrite E. exists ps3. split; [reflexivity | exact Un]. }
  destruct (create_spec ps L m ps1 p b k _ over (tp_snd_lbb c + wq_pos q) 0 Pk (hd_segs _ _ _ _ _ _ _ _ _ (qd_held _ _ _ _ _ _ _ _ _ _ _ _ Q)) ltac:(lia))
    as (ps2 & m2 & seg & -> & [(-> & -> & Un) | (Ns & g & Eg & L' & A)]).
  { left. exists ps2. split; [reflexivity | exact Un]. }
  rewrite (proj2 (Z.eqb_neq seg 0)) by exact Ns. right. rewrite Eb in A. set (x := mkNseg seg p _ over) in A.
  pose proof (link_spec ps L m ps L m q xs ps2 L' m2 x _ 0 g Q A eq_refl eq_refl eq_refl Eg) as Lk. cbn [n_seg n_over x] in Lk. rewrite Lk.
  assert (Lx : n_len x = w) by (unfold n_len, x; cbn [n_data]; rewrite bytes_length; lia).
  exists ps2, L', (<[seg := set_sg_oversize_left over g]> m2), x. cbn [n_seg n_over x]. split; [rewrite Lx, u16_id by lia; reflexivity|].
  split; [exact A | split; [reflexivity | split; [rewrite Lx; exact Ho | lia]]].
Qed.

(** The loop ends with an error, or with the rest of the data cut into segments. *)
Lemma loop_spec fuel ps L m q xs : queued ps L m q xs -> segs_ok L0 m0 -> 0 <= wq_pos q <= n -> 0 <= wq_queuelen q <= TCP_SND_QUEUELEN ->
  (Z.to_nat (TCP_SND_QUEUELEN - wq_queuelen q) < fuel)%nat ->
  exists ps' L' m' q' ys o, while fuel (write_body stale custom_free pcb arg n api mss (tp_snd_lbb c)) (run ps m, q) = Some (Some (run ps' m', wq_queue q', o)) /\
    queued ps' L' m' q' (xs ++ ys) /\ wq_queuelen q' <= TCP_SND_QUEUELEN /\
    ((o = None /\ wq_pos q < n) \/ (o = Some q' /\ wq_pos q' = n /\ Forall (fun x => n_over x <= mss - n_len x) ys /\
       segmented (Z.to_nat mss) (bytes (mem_of ps0) (arg + wq_pos q) (Z.to_nat (n - wq_pos q))) (n_data <$> ys))).
Proof.
  revert ps L m q xs. induction fuel as [|fuel IH]; intros ps L m q xs Q So Hp Hq Hf; [lia|]. rewrite while_S.
  destruct (decide (wq_pos q = n)) as [E|Ne].
  { exists ps, L, m, q, [], (Some q). rewrite app_nil_r. split; [| split; [exact Q | split; [lia | right]]].
    - unfold write_body. rewrite E, (proj2 (Z.ltb_ge n n)) by lia. reflexivity.
    - split; [reflexivity | split; [exact E | split; [constructor|]]]. rewrite E, Z.sub_diag. constructor. }
  destruct (body_spec ps L m q xs Q So ltac:(lia) Hq) as [(ps' & -> & Un) | (ps' & L' & m' & x & -> & A & D & Ov & Lq)].
  { exists ps', L, m, q, [], None. rewrite app_nil_r. split; [reflexivity | split; [exact (queued_unchanged _ _ _ _ _ _ _ _ _ _ _ _ _ Q Un) | split; [lia | left; split; [reflexivity | lia]]]]. }
  pose proof (queued_step _ _ _ _ _ _ _ _ _ _ _ _ _ _ _ _ Q A) as Q1. set (q1 := mkQueue _ _ _ _ _ _) in *.
  assert (Lx : n_len x = Z.min mss (n - wq_pos q)) by (unfold n_len; rewrite D, bytes_length; lia).
  destruct (IH ps' L' _ q1 (xs ++ [x]) Q1 So) as (ps2 & L2 & m2 & q2 & ys & o & -> & Q2 & Hq2 & R); [cbn; lia | cbn; lia | cbn; lia |].
  exists ps2, L2, m2, q2, (x :: ys), o. rewrite <- app_assoc in Q2. split; [reflexivity | split; [exact Q2 | split; [exact Hq2|]]].
  destruct R as [[R _] | (Eo & Ep & Fo & Sg)]; [left; split; [exact R | lia] | right]. split; [exact Eo | split; [exact Ep | split; [constructor; assumption|]]].
  cbn [wq_pos q1] in Sg. set (d := bytes (mem_of ps0) (arg + wq_pos q) (Z.to_nat (n - wq_pos q))).
  assert (Ex : n_data x = take (Z.to_nat mss) d).
  { rewrite D. unfold d. destruct (Z.le_ge_cases mss (n - wq_pos q)).
    - rewrite take_bytes by lia. f_equal. lia.
    - rewrite take_ge by (rewrite bytes_length; lia). f_equal. lia. }
  cbn [fmap list_fmap]. rewrite Ex. constructor.
  - intros E. apply (f_equal length) in E. unfold d in E. rewrite bytes_length in E. cbn in E. lia.
  - destruct (Z.le_ge_cases mss (n - wq_pos q)).
    + unfold d. rewrite drop_bytes by lia.
      replace (arg + wq_pos q + Z.of_nat (Z.to_nat mss)) with (arg + (wq_pos q + n_len x)) by lia.
      replace (Z.to_nat (n - wq_pos q) - Z.to_nat mss)%nat with (Z.to_nat (n - (wq_pos q + n_len x))) by lia. exact Sg.
    + rewrite drop_ge by (unfold d; rewrite bytes_length; lia). replace (n - (wq_pos q + n_len x)) with 0 in Sg by lia. exact Sg.
Qed.

End loop.

(** ** Releasing the queue *)

Lemma pool_apart ps L m a g p b : psys ps L -> segs_ok L m -> m !! a = Some g -> pst ps !! p = Some b -> a <> p.
Proof.
  intros S So Ea Ep ->. destruct (So _ _ Ea) as (_ & P & _). destruct (ps_pbuf _ _ S p b Ep) as (_ & _ & _ & Q & _).
  rewrite P in Q. destruct (type b); discriminate Q.
Qed.

Lemma seg_free_spec ps L m x q fl : psys ps L -> segs_ok L m -> seg_is ps L m x q fl -> n_p x <> 0 ->
  let L' := delete (n_seg x) (delete (n_p x) L) in
  exists ps', tcp_seg_free custom_free (run ps m) (n_seg x) = Some (run ps' (delete (n_seg x) m)) /\
    psys ps' L' /\ segs_ok L' (delete (n_seg x) m) /\ pst ps' = delete (n_p x) (pst ps) /\ preserves (mem_of ps) (mem_of ps') L'.
Proof.
  intros S So (g & b & k & Eg & Eb & _ & Gg & Gb & _) Np L'. destruct (So _ _ Eg) as (Ns & Ps & [v Ev]).
  pose proof (pool_apart ps L m _ _ _ _ S So Eg Eb) as Nsp.
  unfold tcp_seg_free. rewrite (proj2 (Z.eqb_neq _ 0)) by exact Ns. cbn [negb]. rewrite run_seg, Eg. cbn [mbind option_bind].
  assert (Ep : sg_p g = n_p x) by (rewrite Gg; reflexivity). rewrite Ep, (proj2 (Z.eqb_neq _ 0)) by exact Np. cbn [negb].
  destruct (pbuf_free_spec custom_free [(n_p x, b)] [] ps L (n_p x) S) as (ps1 & E1 & St & S1 & _ & K1 & _).
  { constructor; [exact Np | exact Eb |]. rewrite Gb. constructor. }
  { repeat constructor. rewrite Gb. reflexivity. }
  { exact Logic.I. }
  rewrite run_free, E1. cbn [mbind option_bind del drop_ref] in *. change (i_p (run ps1 m)) with ps1. rewrite run_w, run_del.
  destruct (release_spec (Releases := ms_memp_free_law MEMP_TCP_SEG) (pw ps1) (delete (n_p x) L) (n_seg x) v (ps_live _ _ S1)) as [Lw Kw];
    [rewrite lookup_delete_ne by congruence; exact Ev | exact Ps |].
  eexists. split; [reflexivity|]. split; [| split; [| split; [exact St|]]].
  - split; [exact Lw|]. intros a d Ea. destruct (ps_pbuf _ _ S1 a d Ea) as (H1 & H2 & H3 & H4 & i & H5 & H6).
    split; [exact H1|]. split; [exact H2|]. split; [exact H3|]. split; [exact H4|]. exists i. split; [| exact H6].
    unfold L'. rewrite lookup_delete_ne; [exact H5|]. intros E. rewrite <- E, Ps in H4. destruct (type d); discriminate H4.
  - intros a d Ea. apply lookup_delete_Some in Ea as [Na Ea]. destruct (So _ _ Ea) as (N & P & I). split; [exact N | split; [exact P|]].
    unfold L'. rewrite !lookup_delete_ne; [exact I | | exact Na]. intros E. apply (pool_apart ps L m a d (n_p x) b S So Ea Eb). congruence.
  - intros y Hy. transitivity (ld8 (mem_of ps1) y); [apply Kw, Hy | apply K1, (in_region_delete _ (n_seg x)), Hy].
Qed.

(** The first segment is released. *)
Lemma held_pop ps0 L0 m0 ps L m h pos x xs : held ps0 L0 m0 ps L m h pos (x :: xs) -> psys ps0 L0 -> segs_ok L0 m0 ->
  exists g ps1, h = n_seg x /\ h <> 0 /\ m !! h = Some g /\ tcp_seg_free custom_free (run ps m) h = Some (run ps1 (delete h m)) /\
    held ps0 L0 m0 ps1 (delete h (delete (n_p x) L)) (delete h m) (sg_next g) (pos + n_len x) xs.
Proof.
  intros [S So Fr Nd Lv St Mp Kp Pa Pl] S0 So0. cbn [fmap list_fmap app] in *.
  apply path_inv in Pa as [[_ E] | (Nh & v & l & E & Ev & Pa)]; [discriminate E|]. injection E as <- <-.
  destruct Pl as (Sx & Ox & Pl). pose proof Sx as (g & b & k & Eg & Eb & Ek & Gg & Gb & Hr & _). rewrite lookup_fmap, Eg in Ev. injection Ev as <-.
  assert (Np : n_p x <> 0). { pose proof (ro_region _ (regions_of _ _ S) _ _ Ek). lia. }
  destruct (seg_free_spec ps L m x _ 0 S So Sx Np) as (ps1 & E1 & S1 & So1 & St1 & K1).
  exists g, ps1. do 4 (split; [auto|]). set (All := (n_p <$> xs) ++ n_seg x :: (n_seg <$> xs)) in *. apply NoDup_cons in Nd as [Nd1 Nd].
  assert (F : forall a, a ∈ n_p x :: All <-> a = n_p x \/ a = n_seg x \/ a ∈ (n_p <$> xs) ++ (n_seg <$> xs)).
  { intros a. unfold All. rewrite elem_of_cons, !elem_of_app, elem_of_cons. tauto. }
  apply NoDup_app in Nd as (D1 & D2 & D3). apply NoDup_cons in D3 as [D3 D4].
  assert (N1 : forall a, a ∈ (n_p <$> xs) ++ (n_seg <$> xs) -> a <> n_p x /\ a <> n_seg x).
  { intros a I. split; intros ->.
    - apply Nd1. unfold All. rewrite elem_of_app, elem_of_cons. apply elem_of_app in I. tauto.
    - apply elem_of_app in I as [I|I]; [apply (D2 _ I), elem_of_cons; auto | contradiction]. }
  split; try assumption.
  - intros a I. apply Fr, F. auto.
  - apply NoDup_app. split; [exact D1 | split; [| exact D4]]. intros a I J. apply (D2 a I), elem_of_cons. auto.
  - intros a I. destruct (decide (a = n_seg x)) as [->|A1]; [rewrite lookup_delete_eq; symmetry; apply Fr, F; auto|].
    rewrite lookup_delete_ne by congruence. destruct (decide (a = n_p x)) as [->|A2]; [rewrite lookup_delete_eq; symmetry; apply Fr, F; auto|].
    rewrite lookup_delete_ne by congruence. apply Lv. rewrite F. tauto.
  - intros a I. rewrite St1. destruct (decide (a = n_p x)) as [->|A1].
    + rewrite lookup_delete_eq. destruct (pst ps0 !! n_p x) as [d|] eqn:Ed; [| reflexivity].
      destruct (ps_pbuf _ _ S0 _ d Ed) as (_ & _ & _ & _ & i & Hi & _). rewrite Fr in Hi; [discriminate | apply F; auto].
    + rewrite lookup_delete_ne by congruence. apply St. rewrite elem_of_cons. tauto.
  - intros a I. destruct (decide (a = n_seg x)) as [->|A1].
    + rewrite lookup_delete_eq. destruct (m0 !! n_seg x) as [d|] eqn:Ed; [| reflexivity]. destruct (So0 _ d Ed) as (_ & _ & [i Hi]).
      rewrite Fr in Hi; [discriminate | apply F; auto].
    + rewrite lookup_delete_ne by congruence. apply Mp. rewrite elem_of_cons. tauto.
  - intros y (a & i & Ha & Hy). rewrite K1; [apply Kp; exists a, i; auto|]. exists a, i. split; [| exact Hy].
    assert (Na : a ∉ n_p x :: All) by (intros I; rewrite (Fr a I) in Ha; discriminate).
    pose proof (Lv a Na) as La. rewrite F in Na. rewrite !lookup_delete_ne by (intros ?; subst a; tauto). congruence.
  - rewrite fmap_delete. apply (path_ext (sg_next <$> m)); [exact Pa|]. intros a I. apply lookup_delete_ne.
    destruct (N1 a ltac:(apply elem_of_app; auto)). congruence.
  - apply (placed_kept ps L m _ _ _ (delete (n_seg x) (delete (n_p x) L))); [exact Pl | | exact K1]. intros y I.
    destruct (N1 (n_p y)) as [A1 A2]; [apply elem_of_app; left; apply list_elem_of_fmap_2, I|].
    destruct (N1 (n_seg y)) as [B1 B2]; [apply elem_of_app; right; apply list_elem_of_fmap_2, I|].
    rewrite St1, !lookup_delete_ne by congruence. do 3 (split; [reflexivity|]). eauto.
Qed.

Lemma release_loop ps0 L0 m0 xs : psys ps0 L0 -> segs_ok L0 m0 -> forall fuel ps L m h pos, held ps0 L0 m0 ps L m h pos xs -> (length xs < fuel)%nat ->
  exists ps', while fuel (segs_free_body custom_free) (run ps m, h) = Some (Some (run ps' m0)) /\ unchanged ps0 L0 ps'.
Proof.
  intros S0 So0. induction xs as [|x xs IH]; intros fuel ps L m h pos Hh Hf; (destruct fuel as [|fuel]; [cbn in Hf; lia|]);
    rewrite while_S; unfold segs_free_body at 1.
  - destruct Hh as [S So _ _ Lv St Mp Kp Pa _]. apply path_inv in Pa as [[-> _] | (_ & ? & ? & E & _)]; [| discriminate E]. cbn [Z.eqb negb].
    assert (m = m0) as -> by (apply map_eq; intros a; apply Mp, not_elem_of_nil).
    assert (L = L0) as -> by (apply map_eq; intros a; apply Lv, not_elem_of_nil).
    exists ps. split; [reflexivity|]. split; [apply map_eq; intros a; apply St, not_elem_of_nil | split; [exact S | exact Kp]].
  - destruct (held_pop _ _ _ _ _ _ _ _ _ _ Hh S0 So0) as (g & ps1 & -> & Nh & Eg & E1 & H1).
    rewrite (proj2 (Z.eqb_neq _ 0)) by exact Nh. cbn [negb]. rewrite run_seg, Eg. cbn [mbind option_bind]. rewrite E1. cbn [mbind option_bind].
    apply (IH fuel _ _ _ _ _ H1). cbn in Hf. lia.
Qed.

Lemma path_size f p l : path f p l -> (length l <= size f)%nat.
Proof.
  intros P. rewrite <- size_dom, <- (size_list_to_set (C := gset Z) l) by exact (path_NoDup _ _ _ P). apply subseteq_size. intros a.
  rewrite elem_of_list_to_set. intros I. apply elem_of_dom. exact (proj2 (path_elem _ _ _ _ P I)).
Qed.

(** All of the queue is released. *)
Lemma queue_released ps0 L0 m0 ps L m h pos xs : psys ps0 L0 -> segs_ok L0 m0 -> held ps0 L0 m0 ps L m h pos xs ->
  exists ps', tcp_segs_free custom_free (run ps m) h = Some (run ps' m0) /\ unchanged ps0 L0 ps'.
Proof.
  intros S0 So0 Hh. unfold tcp_segs_free. rewrite run_tcp. change (tv_segs (set_tv_segs m (tcp_of s))) with m.
  destruct (release_loop ps0 L0 m0 xs S0 So0 (S (size m)) ps L m h pos Hh) as (ps' & E & Un).
  - pose proof (path_size _ _ _ (hd_path _ _ _ _ _ _ _ _ _ Hh)) as Sz. rewrite length_fmap, map_size_fmap in Sz. lia.
  - exists ps'. rewrite E. split; [reflexivity | exact Un].
Qed.

End write.

End TcpWrite.
