(* ===== verification/TcpAppend.v ===== *)
(** Queueing data: [tcp_write] (src/core/tcp_out.c) as a whole.

    The last unsent segment takes what fits behind it, in the spare bytes of its last pbuf
    and in a pbuf that is chained to it; the rest goes into new segments.  When memory is
    missing everything is as before. *)

From stdpp Require Import base tactics numbers list gmap.
From Stdlib Require Import ZArith Lia.
From S2P Require Import Prelude Mylib ByteOrder Fields Stats Linked PbufDefs NetifDefs InetChksum Allocator Mem Memp PbufMem Pbuf PbufData PbufChains PbufLinks IpAddr IpDefs IpOutput TcpDefs TcpSeg TcpOut TcpFrame TcpLists TcpRexmit TcpWrite.

Local Open Scope Z_scope.

Module TcpAppend.
Import Fields ByteOrder Linked Memp Pbuf PbufData PbufChains PbufLinks IpDefs TcpDefs TcpSeg TcpOut TcpFrame TcpLists TcpRexmit TcpWrite.

Section tail.
Context {W X U : Type} `{LW : MemSystemLaws W} `{HT : HasTcp U}.
Context (stale : Z -> Z) (custom_free : pstate W -> Z -> option (pstate W)).
Context (stale_ok : forall p, Z.land (stale p) PBUF_FLAG_IS_CUSTOM = 0).
Implicit Types (s : istate W X U) (ps : pstate W) (m : gmap Z tcp_seg) (L : regions) (l : list (Z * pbuf)).

(** ** The last unsent segment *)

Definition optlen (g : tcp_seg) : Z := LWIP_TCP_OPT_LENGTH (sg_flags g).

(** The segment [g] at [a] with the pbufs [l], which are its own: the header is in the
    first one and the data [d] follows it; the last one has [over] bytes to spare. *)
Record tail_ok ps L m (a : Z) (g : tcp_seg) l (over : Z) (d : list Z) : Prop := {
  tl_seg : m !! a = Some g;
  tl_chain : chain (pst ps) (sg_p g) l;
  tl_lengths : lengths_ok l;
  tl_own : Forall (fun x => type x.2 = PBUF_RAM) l;
  tl_head : exists p b l', l = (p, b) :: l' /\ payload b <= sg_tcphdr g /\ sg_tcphdr g + 20 + optlen g <= payload b + len b /\
    chain_len l = sg_tcphdr g - payload b + 20 + optlen g + sg_len g /\
    d = drop (Z.to_nat (sg_tcphdr g - payload b + 20 + optlen g)) (chain_data (mem_of ps) l);
  tl_spare : exists l0 q b k, l = l0 ++ [(q, b)] /\ L !! q = Some k /\ payload b + len b + over <= q + k }.

Lemma optlen_nonneg g : 0 <= optlen g <= 4.
Proof. unfold optlen, LWIP_TCP_OPT_LENGTH. destruct (has _ _); lia. Qed.

(** The memory of a pbuf of the heap. *)
Lemma ram_region ps L p b : psys ps L -> pst ps !! p = Some b -> type b = PBUF_RAM ->
  exists k, L !! p = Some k /\ p + 16 <= payload b /\ payload b + len b <= p + k /\ 0 <= len b.
Proof.
  intros S E Ty. destruct (ps_pbuf _ _ S p b E) as (_ & _ & H1 & _ & k & Hk & _ & H2). rewrite Ty in H2. exists k. repeat split; tauto.
Qed.
Lemma chain_kept ps L R x p l : psys ps L -> chain (pst ps) p l -> Forall (fun x => type x.2 = PBUF_RAM) l ->
  (forall a, a ∈ l.*1 -> R !! a = L !! a) -> preserves (mem_of ps) x R -> chain_data x l = chain_data (mem_of ps) l.
Proof.
  intros S C Ow Hr K. apply chain_data_ext, Forall_forall. intros [a b] I y Hy. cbn [fst snd] in *.
  destruct (chain_lookup _ _ _ _ _ C I) as [E _]. pose proof (proj1 (Forall_forall _ _) Ow _ I) as Ty. cbn in Ty.
  destruct (ram_region ps L a b S E Ty) as (k & Hk & H1 & H2 & _). apply K. exists a, k. rewrite Hr; [split; [exact Hk | lia]|].
  apply (list_elem_of_fmap_2 fst _ _ I).
Qed.

(** It stays as it is while its memory does. *)
Lemma tail_kept ps L m ps' L' m' R a g l over d : psys ps L -> tail_ok ps L m a g l over d -> m' !! a = Some g ->
  (forall x, x ∈ l.*1 -> pst ps' !! x = pst ps !! x /\ L' !! x = L !! x /\ R !! x = L !! x) ->
  preserves (mem_of ps) (mem_of ps') R -> tail_ok ps' L' m' a g l over d.
Proof.
  intros S [Sg Ch Le Ow (p & b & l' & El & H1 & H2 & H3 & D) (l0 & q & bq & k & Eq & Hk & H4)] Em F K.
  split; try assumption.
  - apply (chain_ext _ _ _ _ Ch). intros x I. apply (F x I).
  - exists p, b, l'. rewrite (chain_kept ps L R _ _ l S Ch Ow); [auto 6 | intros x I; apply (F x I) | exact K].
  - exists l0, q, bq, k. split; [exact Eq | split; [| exact H4]]. rewrite (proj1 (proj2 (F q ltac:(rewrite Eq, fmap_app, elem_of_app; right; apply elem_of_cons; auto)))). exact Hk.
Qed.

(** ** The spare bytes *)

(** The pbufs when [u] bytes were put into the spare bytes. *)
Definition bumped (u : Z) l0 (q : Z) (b : pbuf) : list (Z * pbuf) := bump u l0 ++ [(q, set_len (bump1 u b) (u16 (len b + u)))].

Lemma bump_loop s m arg u r j l0 q b : forall fuel ps L p k, psys ps L -> chain (pst ps) p (l0 ++ [(q, b)]) ->
  Forall (fun x => type x.2 = PBUF_RAM) (l0 ++ [(q, b)]) -> L !! q = Some k -> payload b + len b + u <= q + k -> 0 <= u ->
  L !! r = Some j -> r <> q -> r <= arg -> arg + u <= r + j -> (S (length l0) < fuel)%nat ->
  exists x, while fuel (bump_body arg u) (run s ps m, p) = Some (Some (run s (set_pst (set_mem ps x) (ins (bumped u l0 q b) (pst ps))) m)) /\
    bytes x (payload b + len b) (Z.to_nat u) = bytes (mem_of ps) arg (Z.to_nat u) /\ frame (mem_of ps) x (payload b + len b) u.
Proof.
  induction l0 as [|[a c] l0 IH]; intros fuel ps L p k S C Ow Hk Hu Hu0 Hr Nr H1 H2 Hf; (destruct fuel as [|fuel]; [cbn in Hf; lia|]); rewrite while_S;
    cbn [app] in C, Ow; inversion C as [|? ? ? Hp Hb C']; subst; unfold bump_body at 1; rewrite (proj2 (Z.eqb_neq _ 0)) by exact Hp;
    change (i_p (run s ps m)) with ps; unfold update; rewrite Hb; cbn [mbind option_bind].
  - inversion C' as [Nx|]; subst. change (set_i_p (run s ps m) ?y) with (run s y m). rewrite run_pbuf. cbn [pst set_pst]. rewrite lookup_insert_eq. cbn [mbind option_bind next set_tot_len payload len].
    rewrite <- Nx. cbn [Z.eqb]. apply Forall_inv in Ow. cbn in Ow. destruct (ram_region ps L q b S Hb Ow) as (k' & Hk' & H3 & _ & H4).
    rewrite Hk in Hk'. injection Hk' as <-. set (ps1 := set_pst ps _).
    destruct (copy_spec s ps1 m L q k r j (payload b + len b) arg u) as (x & -> & D & Fx & _); try assumption; try lia.
    { apply psys_update; [exact S|]. apply (pbuf_ok_relink L q b); try reflexivity. exact (ps_pbuf _ _ S q b Hb). }
    cbn [mbind option_bind]. change (i_p (run s ?y m)) with y. cbn [pst set_mem set_pw ps1 set_pst]. rewrite lookup_insert_eq. cbn [mbind option_bind].
    destruct fuel as [|fuel]; [cbn in Hf; lia|]. rewrite while_S. cbn [bump_body Z.eqb]. exists x. rewrite insert_insert_eq. split; [reflexivity | split; assumption].
  - change (set_i_p (run s ps m) ?y) with (run s y m). rewrite run_pbuf. cbn [pst set_pst]. rewrite lookup_insert_eq. cbn [mbind option_bind next set_tot_len payload len].
    assert (Nx : next c <> 0) by (intros E; rewrite E in C'; destruct (chain_inv _ _ _ C') as [[_ E'] | [N _]]; [destruct l0; discriminate E' | contradiction]).
    rewrite (proj2 (Z.eqb_neq _ 0)) by exact Nx. cbn [mbind option_bind]. pose proof (chain_NoDup _ _ _ C) as Nd. cbn in Nd. apply NoDup_cons in Nd as [Na _].
    set (ps1 := set_pst ps (<[a := set_tot_len c (u16 (tot_len c + u))]> (pst ps))).
    apply (IH fuel ps1 L (next c) k); try assumption.
    + apply psys_update; [exact S|]. apply (pbuf_ok_relink L a c); try reflexivity. exact (ps_pbuf _ _ S a c Hb).
    + apply chain_insert_ne; assumption.
    + inversion Ow; assumption.
    + cbn in Hf. lia.
Qed.

Lemma bumped_lengths u l0 q b : lengths_ok (l0 ++ [(q, b)]) -> 0 <= u -> chain_len (l0 ++ [(q, b)]) + u < 65536 ->
  lengths_ok (bumped u l0 q b) /\ chain_len (bumped u l0 q b) = chain_len (l0 ++ [(q, b)]) + u /\ 0 <= chain_len l0.
Proof.
  intros Hl Hu Hm. induction l0 as [|[a c] l0 IH].
  - cbn in *. rewrite !u16_id by lia. repeat split; lia.
  - change (bumped u ((a, c) :: l0) q b) with ((a, bump1 u c) :: bumped u l0 q b). cbn [app lengths_ok chain_len] in *.
    destruct Hl as (H1 & H2 & H3 & H4). pose proof (chain_len_nonneg _ H4). destruct (IH H4) as (A & B & C); [lia|].
    cbn [tot_len len bump1 set_tot_len]. rewrite B, u16_id by lia. repeat split; try assumption; lia.
Qed.

Lemma bumped_chain u st p l0 q b : chain st p (l0 ++ [(q, b)]) -> chain (ins (bumped u l0 q b) st) p (bumped u l0 q b).
Proof.
  intros C. pose proof (chain_bump u st p (l0 ++ [(q, b)]) []) as Cb. rewrite app_nil_r in Cb. specialize (Cb C).
  rewrite bump_app, ins_app in Cb. rewrite app_nil_r in Cb. unfold bumped. rewrite ins_app. cbn [bump fmap list_fmap ins fst snd] in *.
  rewrite <- (insert_insert_eq _ q _ (bump1 u b)). apply (chain_update _ p _ q (bump1 u b) _ []); [exact Cb | reflexivity].
Qed.

Lemma bumped_fst u l0 q b : (bumped u l0 q b).*1 = (l0 ++ [(q, b)]).*1.
Proof. unfold bumped. rewrite !fmap_app, bump_fst. reflexivity. Qed.

(** The last segment with [u] more bytes of data. *)
Definition longer (u over : Z) (g : tcp_seg) : tcp_seg := g |> set_sg_len (u16 (sg_len g + u)) |> set_sg_oversize_left over.

Lemma drop_more (x : list Z) n A B d : d = drop n A -> (n <= length A)%nat -> x = A ++ B -> d ++ B = drop n x.
Proof. intros -> Hn ->. rewrite drop_app_le by exact Hn. reflexivity. Qed.

Lemma tail_len l' p b g l : l = (p, b) :: l' -> lengths_ok l -> sg_tcphdr g + 20 + optlen g <= payload b + len b ->
  chain_len l = sg_tcphdr g - payload b + 20 + optlen g + sg_len g -> 0 <= sg_len g.
Proof. intros -> Hl H1 H2. cbn in *. destruct Hl as (_ & _ & _ & Hl). pose proof (chain_len_nonneg _ Hl). lia. Qed.

Lemma spare_used ps L m a g l0 q b over d u x left_ D : psys ps L -> tail_ok ps L m a g (l0 ++ [(q, b)]) over d -> 0 <= u <= over ->
  chain_len (l0 ++ [(q, b)]) + u < 65536 -> length D = Z.to_nat u -> bytes x (payload b + len b) (Z.to_nat u) = D -> frame (mem_of ps) x (payload b + len b) u ->
  let ps' := set_pst (set_mem ps x) (ins (bumped u l0 q b) (pst ps)) in
  psys ps' L /\ tail_ok ps' L (<[a := longer u left_ g]> m) a (longer u left_ g) (bumped u l0 q b) (over - u) (d ++ D) /\
  (forall y, y ∉ (l0 ++ [(q, b)]).*1 -> pst ps' !! y = pst ps !! y) /\ preserves (mem_of ps) (mem_of ps') (delete q L).
Proof.
  intros S [Sg Ch Le Ow (p & b0 & l' & El & H1 & H2 & H3 & Dd) (l1 & q1 & b1 & k & Eq & Hk & H4)] Hu Hm HD Db Fx ps'.
  apply app_inj_2 in Eq as [<- Eq]; [| reflexivity]. injection Eq as <- <-.
  assert (Eb : pst ps !! q = Some b) by (apply (chain_lookup _ _ _ q b Ch), elem_of_app; right; apply elem_of_cons; auto).
  assert (Tb : type b = PBUF_RAM) by (apply Forall_app in Ow as [_ Ow]; exact (Forall_inv Ow)).
  destruct (ram_region ps L q b S Eb Tb) as (k' & Hk' & Hq & _ & Hl). rewrite Hk in Hk'. injection Hk' as <-.
  destruct (bumped_lengths u l0 q b Le ltac:(lia) Hm) as (Lb & Lc & Ln). rewrite chain_len_app in Hm, Lc. cbn in Hm, Lc.
  assert (Pr : preserves (mem_of ps) x (delete q L)) by (apply (frame_preserves L _ _ q k (payload b + len b) u (regions_of _ _ S) Hk); [lia | lia | exact Fx]).
  assert (Sx : psys (set_mem ps x) L) by (apply (psys_data ps L x q k (payload b + len b) u S Hk); [lia | lia | exact Fx]).
  assert (S1 : psys ps' L).
  { apply (psys_ins (set_mem ps x)); [exact Sx|]. unfold bumped. apply Forall_app. split.
    - unfold bump. apply Forall_fmap, Forall_forall. intros [y c] I. cbn. apply (pbuf_ok_relink L y c); try reflexivity.
      apply (ps_pbuf _ _ S). apply (chain_lookup _ _ _ y c Ch). apply elem_of_app. auto.
    - constructor; [cbn [fst snd] | constructor]. destruct (ps_pbuf _ _ S q b Eb) as (P1 & P2 & P3 & P4 & i & P5 & P6 & _). rewrite Hk in P5. injection P5 as <-.
      split; [exact P1|]. split; [exact P2|]. split; [cbn; apply u16_range|]. split; [exact P4|]. exists k. split; [exact Hk | split; [exact P6|]]. cbn. rewrite Tb, u16_id; lia. }
  assert (Dl : chain_data x (bumped u l0 q b) = chain_data (mem_of ps) (l0 ++ [(q, b)]) ++ D).
  { unfold bumped. rewrite !chain_data_app, chain_data_bump. cbn. rewrite !app_nil_r, u16_id, <- app_assoc by lia. f_equal.
    - pose proof (chain_NoDup _ _ _ Ch) as Nd. apply Forall_app in Ow as [Ow _]. apply chain_data_ext, Forall_forall. intros [y c] I z Hz. cbn [fst snd] in *.
      destruct (chain_lookup _ _ _ y c Ch ltac:(apply elem_of_app; auto)) as [Ey _]. pose proof (proj1 (Forall_forall _ _) Ow _ I) as Ty.
      destruct (ram_region ps L y c S Ey Ty) as (i & Hi & P1 & P2 & _). apply Pr. exists y, i. split; [| lia]. rewrite lookup_delete_ne; [exact Hi|]. intros <-.
      rewrite fmap_app in Nd. apply NoDup_app in Nd as (_ & Nd & _). apply (Nd q (list_elem_of_fmap_2 fst _ _ I)). apply elem_of_cons. auto.
    - replace (Z.to_nat (len b + u)) with (Z.to_nat (len b) + Z.to_nat u)%nat by lia. rewrite bytes_app. f_equal; [apply bytes_ext; intros z Hz; apply Fx; lia|].
      rewrite Z2Nat.id by lia. exact Db. }
  split; [exact S1|]. split; [| split].
  - split.
    + apply lookup_insert_eq.
    + apply bumped_chain. exact Ch.
    + exact Lb.
    + unfold bumped. apply Forall_app in Ow as [O1 O2]. apply Forall_app. split; [| constructor; [exact Tb | constructor]].
      unfold bump. apply Forall_fmap. exact O1.
    + assert (Hb : exists b' l'', bumped u l0 q b = (p, b') :: l'' /\ payload b' = payload b0 /\ len b0 <= len b').
      { destruct l0 as [|[y c] l0]; injection El as -> -> _; eexists _, _; split; try reflexivity; split; try reflexivity; cbn; rewrite ?u16_id; lia. }
      destruct Hb as (b' & l'' & Eb' & Pb' & Lb'). exists p, b', l''. rewrite Pb'. change (optlen (longer u left_ g)) with (optlen g). cbn [longer sg_tcphdr sg_len set_sg_len set_sg_oversize_left].
      pose proof (tail_len l' p b0 g (l0 ++ [(q, b)]) El Le H2 H3) as Hg. rewrite chain_len_app in H3. cbn [chain_len] in H3. pose proof (optlen_nonneg g).
      rewrite Lc, u16_id by lia. split; [exact Eb'|]. split; [exact H1|]. split; [lia|]. split; [lia|].
      apply (drop_more _ _ (chain_data (mem_of ps) (l0 ++ [(q, b)]))); [exact Dd | | unfold ps'; change (mem_of (set_pst ?y ?z)) with (mem_of y); rewrite mem_set; exact Dl].
      pose proof (chain_data_length (mem_of ps) _ Le) as Hd. rewrite chain_len_app in Hd. cbn in Hd. lia.
    + exists (bump u l0), q, (set_len (bump1 u b) (u16 (len b + u))), k. split; [reflexivity | split; [exact Hk|]]. cbn. rewrite u16_id by lia. lia.
  - intros y I. unfold ps'. cbn [pst set_pst]. apply lookup_ins_ne. rewrite bumped_fst. exact I.
  - intros z Hz. unfold ps'. change (mem_of (set_pst ?y ?w)) with (mem_of y). rewrite mem_set. exact (Pr z Hz).
Qed.

(** ** A pbuf that is chained to the segment *)

Lemma chained ps L m a g l over d p bp k n over2 left_ : psys ps L -> tail_ok ps L m a g l over d -> pst ps !! p = Some bp ->
  bp = mkPbuf 0 (payload bp) n n PBUF_RAM 0 1 -> L !! p = Some k -> payload bp + n + over2 <= p + k -> p ∉ l.*1 -> p <> 0 -> chain_len l + n < 65536 ->
  exists ps' l', pbuf_cat ps (sg_p g) p = Some ps' /\ psys ps' L /\ pw ps' = pw ps /\
    tail_ok ps' L (<[a := longer n left_ g]> m) a (longer n left_ g) l' over2 (d ++ bytes (mem_of ps) (payload bp) (Z.to_nat n)) /\
    l'.*1 = l.*1 ++ [p] /\ forall y, y ∉ l.*1 -> pst ps' !! y = pst ps !! y.
Proof.
  intros S [Sg Ch Le Ow (p0 & b0 & l1 & El & H1 & H2 & H3 & Dd) (l0 & q & b & kq & Eq & Hkq & H4)] Ep Gp Hk Hs Ni Np Hm.
  assert (Hn : 0 <= n) by (destruct (ps_pbuf _ _ S p bp Ep) as (_ & _ & P & _); rewrite Gp in P; exact P).
  pose proof (tail_len l1 p0 b0 g l El Le H2 H3) as Hg. pose proof (optlen_nonneg g) as Ho.
  rewrite Eq in Ch, Le, Ow, Ni, Hm, H3, Dd, El |- *. clear l Eq.
  assert (Ct : chain (pst ps) p [(p, bp)]) by (constructor; [exact Np | exact Ep | rewrite Gp; constructor]).
  assert (Lt : lengths_ok [(p, bp)]) by (rewrite Gp; cbn; lia).
  assert (Lp : chain_len [(p, bp)] = n) by (rewrite Gp; cbn; lia).
  assert (Tp : tot_len bp = n) by (rewrite Gp; reflexivity).
  destruct (cat_spec ps L (sg_p g) p l0 q b [(p, bp)] bp S Ch Ct) as (ps' & E & St & Pw & _ & S' & Ch' & Le'); try assumption; try lia.
  { intros y I. apply list_elem_of_singleton in I as ->. exact Ni. }
  rewrite Tp in *. set (l' := bump n l0 ++ _) in *.
  assert (Fl : l'.*1 = (l0 ++ [(q, b)]).*1 ++ [p]) by (unfold l'; rewrite !fmap_app, bump_fst, <- app_assoc; reflexivity).
  exists ps', l'. split; [exact E|]. split; [exact S'|]. split; [exact Pw|]. split; [| split; [exact Fl|]].
  - split.
    + apply lookup_insert_eq.
    + exact Ch'.
    + exact Le'.
    + unfold l'. apply Forall_app in Ow as [O1 O2]. apply Forall_app. split; [unfold bump; apply Forall_fmap; exact O1|].
      constructor; [exact (Forall_inv O2) | constructor; [rewrite Gp; reflexivity | constructor]].
    + assert (Hb : exists b' l'', l' = (p0, b') :: l'' /\ payload b' = payload b0 /\ len b' = len b0).
      { unfold l'. destruct l0 as [|[y c] l0]; injection El as -> -> _; eexists _, _; split; try reflexivity; split; reflexivity. }
      destruct Hb as (b' & l'' & Eb' & Pb' & Lb'). exists p0, b', l''. rewrite Pb', Lb'.
      change (optlen (longer n left_ g)) with (optlen g). cbn [longer sg_tcphdr sg_len set_sg_len set_sg_oversize_left].
      assert (Lc : chain_len l' = chain_len (l0 ++ [(q, b)]) + n) by (unfold l'; rewrite !chain_len_app, chain_len_bump; cbn [chain_len]; rewrite Gp; cbn; lia).
      rewrite Lc, u16_id by lia. split; [exact Eb'|]. split; [exact H1|]. split; [lia|]. split; [lia|].
      apply (drop_more _ _ (chain_data (mem_of ps) (l0 ++ [(q, b)]))); [exact Dd | pose proof (chain_data_length (mem_of ps) _ Le); lia |].
      unfold mem_of at 1. rewrite Pw. fold (mem_of ps). unfold l'. rewrite !chain_data_app, chain_data_bump, <- app_assoc. f_equal. cbn [chain_data app].
      change (payload (set_next ?z _)) with (payload z). change (len (set_next ?z _)) with (len z). rewrite app_nil_r. cbn [app bump1 payload len set_tot_len].
      assert (len bp = n) as -> by (rewrite Gp; reflexivity). rewrite app_nil_r. reflexivity.
    + exists (bump n l0 ++ [(q, set_next (bump1 n b) p)]), p, bp, k. unfold l'. rewrite <- app_assoc. split; [reflexivity | split; [exact Hk|]].
      assert (len bp = n) as -> by (rewrite Gp; reflexivity). exact Hs.
  - intros y I. rewrite St. rewrite fmap_app, elem_of_app in I. cbn in I. rewrite list_elem_of_singleton in I.
    rewrite lookup_insert_ne by (intros ->; tauto). apply lookup_ins_ne. rewrite bump_fst. tauto.
Qed.

(** ** When memory is missing *)

(** The state with the error noted. *)
Definition refused s (pcb : Z) (c : tcp_pcb) : istate W X U :=
  TCP_STATS_INC c_memerr (put_pcb s pcb (set_tp_flags (or_flag (tp_flags c) TF_NAGLEMEMERR) c)).

Lemma memerr_run s pcb c ps m : pcb_at s pcb = Some c -> memerr (run s ps m) pcb = Some (run (refused s pcb c) ps m).
Proof.
  intros E. unfold memerr, upd. rewrite (run_pcb s pcb c E ps m). cbn [mbind option_bind]. f_equal. unfold TCP_STATS_INC, put_pcb, refused, run.
  rewrite !tcp_of_set_tcp, !set_tcp_again. unfold TCP_STATS_INC, put_pcb. rewrite !tcp_of_set_tcp, !set_tcp_again. unfold set_tcp. cbn [i_up set_i_p set_up].
  rewrite !put_put_tcp. reflexivity.
Qed.

(** The chained pbuf is released; the queue is not touched. *)
Lemma held_drop s c ps0 L0 ps1 p b k d off over2 m1 ps L m h pos xs : packet ps0 L0 ps1 p b k d off over2 ->
  held c ps1 (<[p := k]> L0) m1 ps L m h pos xs ->
  exists ps3, i_free custom_free (run s ps m) p = Some (run s ps3 m) /\ held c ps0 L0 m1 ps3 (delete p L) m h pos xs.
Proof.
  intros [Np [F1 F2] Pb Ps Sy Rm Pl Po D Kp] [S So Fr Nd Lv St Mp Kk Pa Pd].
  assert (Ni : p ∉ (n_p <$> xs) ++ (n_seg <$> xs)) by (intros I; apply Fr in I; rewrite lookup_insert_eq in I; discriminate).
  assert (Ep : pst ps !! p = Some b) by (rewrite St by (intros I; apply Ni, elem_of_app; auto); rewrite Ps; apply lookup_insert_eq).
  destruct (pbuf_free_spec custom_free [(p, b)] [] ps L p S) as (ps3 & E & St3 & S3 & _ & K3 & _).
  { constructor; [exact Np | exact Ep |]. rewrite Pb. constructor. }
  { repeat constructor. rewrite Pb. reflexivity. }
  { exact Logic.I. }
  cbn [del drop_ref] in *. exists ps3. split; [unfold i_free; change (i_p (run s ps m)) with ps; rewrite E; reflexivity|].
  assert (Nx : forall x, x ∈ xs -> n_p x <> p) by (intros x I <-; apply Ni, elem_of_app; left; apply list_elem_of_fmap_2, I).
  split; try assumption.
  - intros a g Ea. destruct (So a g Ea) as (N & P & I). split; [exact N | split; [exact P|]]. rewrite lookup_delete_ne; [exact I|].
    intros <-. exact (pool_apart ps L m p g p b S So Ea Ep eq_refl).
  - intros a I. specialize (Fr a I). destruct (decide (a = p)) as [->|N]; [exact F1 | rewrite lookup_insert_ne in Fr by congruence; exact Fr].
  - intros a I. destruct (decide (a = p)) as [->|N]; [rewrite lookup_delete_eq; symmetry; exact F1|].
    rewrite lookup_delete_ne, Lv, lookup_insert_ne by congruence || exact I. reflexivity.
  - intros a I. rewrite St3. destruct (decide (a = p)) as [->|N]; [rewrite lookup_delete_eq; symmetry; exact F2|].
    rewrite lookup_delete_ne, St, Ps, lookup_insert_ne by congruence || exact I. reflexivity.
  - intros y Hy. pose proof Hy as (a & i & Ha & Hy'). assert (Na : a <> p) by congruence.
    assert (Ha1 : (<[p := k]> L0) !! a = Some i) by (rewrite lookup_insert_ne by congruence; exact Ha).
    rewrite K3, Kk, Kp; [reflexivity | exact Hy | exists a, i; auto |]. exists a, i. split; [| exact Hy']. rewrite lookup_delete_ne by congruence.
    rewrite Lv; [exact Ha1|]. intros I. rewrite (Fr a I) in Ha1. discriminate.
  - apply (placed_kept c ps L m _ _ _ (delete p L)); [exact Pd | | exact K3]. intros x I. specialize (Nx x I).
    rewrite St3, !lookup_delete_ne by congruence. do 3 (split; [reflexivity|]). eauto.
Qed.

(** Nothing is left of a queue when it was released. *)
Lemma queue_given_back s c ps0 L0 m1 ps L m h pos xs : 0 <= tp_local_port c < 65536 /\ 0 <= tp_remote_port c < 65536 -> psys ps0 L0 -> segs_ok L0 m1 -> held c ps0 L0 m1 ps L m h pos xs ->
  exists ps', (if negb (h =? 0) then tcp_segs_free custom_free (run s ps m) h else Some (run s ps m)) = Some (run s ps' m1) /\ unchanged ps0 L0 ps'.
Proof.
  intros Cp S0 So Hh. destruct (Z.eqb_spec h 0) as [->|N]; cbn [negb].
  - destruct Hh as [S _ _ _ Lv St Mp Kp Pa _]. apply path_inv in Pa as [[_ E] | (N & _)]; [| contradiction].
    apply fmap_nil_inv in E as ->. exists ps. assert (m = m1) as -> by (apply map_eq; intros a; apply Mp, not_elem_of_nil).
    assert (L = L0) as -> by (apply map_eq; intros a; apply Lv, not_elem_of_nil).
    split; [reflexivity|]. split; [apply map_eq; intros a; apply St, not_elem_of_nil | split; [exact S | exact Kp]].
  - exact (queue_released custom_free s c Cp ps0 L0 m1 ps L m h pos xs S0 So Hh).
Qed.

(** ** Committing *)

Lemma run_upd_pcb s pcb c f ps m : pcb_at s pcb = Some c -> upd (run s ps m) pcb f = Some (run (put_pcb s pcb (f c)) ps m).
Proof.
  intros E. unfold upd. rewrite (run_pcb s pcb c E ps m). cbn [mbind option_bind]. f_equal. unfold put_pcb, run.
  rewrite !tcp_of_set_tcp, !set_tcp_again. unfold set_tcp. cbn [i_up set_i_p set_up]. rewrite put_put_tcp. reflexivity.
Qed.
Lemma put_pcb_segs s pcb c : tv_segs (tcp_of (put_pcb s pcb c)) = tv_segs (tcp_of s).
Proof. unfold put_pcb. rewrite tcp_of_set_tcp. reflexivity. Qed.

(** What there was before, except for the segment [a] and its pbufs [K], is as it was. *)
Record others (K : list Z) (a : Z) ps0 L0 m0 ps L m : Prop := {
  ot_live : forall y k, L0 !! y = Some k -> L !! y = Some k;
  ot_store : forall y, is_Some (L0 !! y) -> y ∉ K -> pst ps !! y = pst ps0 !! y;
  ot_mem : forall z y k, L0 !! y = Some k -> y ∉ K -> y <= z < y + k -> ld8 (mem_of ps) z = ld8 (mem_of ps0) z;
  ot_map : forall y g, m0 !! y = Some g -> y <> a -> m !! y = Some g }.

Lemma others_trans K a ps0 L0 m0 ps1 L1 m1 ps L m :
  others K a ps0 L0 m0 ps1 L1 m1 -> others K a ps1 L1 m1 ps L m -> others K a ps0 L0 m0 ps L m.
Proof.
  intros [A1 A2 A3 A4] [B1 B2 B3 B4]. split; intros.
  - auto.
  - rewrite B2, A2 by (assumption || (destruct H0 as [k Hk]; rewrite (A1 _ _ Hk); eauto)). reflexivity.
  - rewrite (B3 z y k), (A3 z y k) by auto. reflexivity.
  - auto.
Qed.

(** A queue was made. *)
Lemma held_others K a c ps0 L0 m0 ps L m h pos xs : segs_ok L0 m0 -> held c ps0 L0 m0 ps L m h pos xs -> others K a ps0 L0 m0 ps L m.
Proof.
  intros So0 [S So Fr Nd Lv St Mp Kp Pa Pl].
  assert (Ni : forall y, is_Some (L0 !! y) -> y ∉ (n_p <$> xs) ++ (n_seg <$> xs)) by (intros y [k Hk] I; rewrite (Fr y I) in Hk; discriminate).
  split.
  - intros y k Hk. rewrite Lv by (apply Ni; eauto). exact Hk.
  - intros y I _. apply St. intros J. apply (Ni y I), elem_of_app. auto.
  - intros z y k Hk _ Hz. apply Kp. exists y, k. auto.
  - intros y g E _. rewrite Mp; [exact E|]. intros J. destruct (So0 y g E) as (_ & _ & I). apply (Ni y I), elem_of_app. auto.
Qed.

(** A pbuf was made for the end of the segment. *)
Lemma packet_others K a ps0 L0 m0 ps1 p b k d off over2 g : packet ps0 L0 ps1 p b k d off over2 ->
  others K a ps0 L0 m0 ps1 (<[p := k]> L0) (<[a := g]> m0).
Proof.
  intros [Np [F1 F2] Pb Ps Sy Rm Pl Po D Kp]. split.
  - intros y j Hj. rewrite lookup_insert_ne by congruence. exact Hj.
  - intros y [j Hj] _. rewrite Ps, lookup_insert_ne by congruence. reflexivity.
  - intros z y j Hj _ Hz. apply Kp. exists y, j. auto.
  - intros y g' E N. rewrite lookup_insert_ne by congruence. exact E.
Qed.

(** The state while it is committed: the last segment and the queue that goes behind it. *)
Record ready (c : tcp_pcb) ps L m (a : Z) (g : tcp_seg) l (over : Z) (d : list Z) (h pos : Z) (xs : list nseg) : Prop := {
  rd_sys : psys ps L;
  rd_segs : segs_ok L m;
  rd_tail : tail_ok ps L m a g l over d;
  rd_path : path (sg_next <$> m) h (n_seg <$> xs);
  rd_placed : placed c ps L m pos xs;
  rd_apart : forall y, y ∈ n_p <$> xs -> y ∉ l.*1;
  rd_new : a ∉ n_seg <$> xs;
  rd_nodup : NoDup (n_p <$> xs) }.

(** An assignment to the last segment that does not move it. *)
Lemma placed_tail c ps L m ps' m' R a g l pos xs :
  (forall y, y ∈ n_p <$> xs -> y ∉ l.*1) -> a ∉ n_seg <$> xs -> placed c ps L m pos xs ->
  (forall y, y ∉ l.*1 -> pst ps' !! y = pst ps !! y) -> (forall y, y ∉ l.*1 -> R !! y = L !! y) -> m' = <[a := g]> m ->
  preserves (mem_of ps) (mem_of ps') R -> placed c ps' L m' pos xs.
Proof.
  intros Ap Na Pl St Hr -> K. apply (placed_kept c ps L m _ _ _ R); [exact Pl | | exact K]. intros x I.
  pose proof (Ap _ (list_elem_of_fmap_2 n_p _ _ I)) as Nx. split; [exact (St _ Nx) | split; [reflexivity | split; [exact (Hr _ Nx)|]]].
  intros g' E. exists g'. rewrite lookup_insert_ne; [auto|]. intros Ea. apply Na. rewrite Ea. apply list_elem_of_fmap_2, I.
Qed.

Lemma nexts_same m a g g' : m !! a = Some g -> sg_next g' = sg_next g -> sg_next <$> <[a := g']> m = sg_next <$> m.
Proof. intros E N. apply (fmap_insert_same _ _ a g); assumption. Qed.

(** The segment got longer by [n] bytes and is otherwise what it was. *)
Definition grown (n : Z) (g g' : tcp_seg) : Prop :=
  sg_len g' = sg_len g + n /\ sg_next g' = sg_next g /\ sg_tcphdr g' = sg_tcphdr g /\ sg_flags g' = sg_flags g /\ sg_p g' = sg_p g.

Lemma grown_longer n left_ g : 0 <= sg_len g + n < 65536 -> grown n g (longer n left_ g).
Proof. intros Hn. unfold grown, longer. cbn. rewrite u16_id by exact Hn. auto. Qed.

(** The length of the segment is less than that of its pbufs. *)
Lemma tail_sizes ps L m a g l over d : tail_ok ps L m a g l over d -> 0 <= sg_len g /\ sg_len g + 20 <= chain_len l.
Proof.
  intros [_ _ Le _ (p & b & l' & El & H1 & H2 & H3 & _) _]. pose proof (tail_len l' p b g l El Le H2 H3). pose proof (optlen_nonneg g). lia.
Qed.

(** Phase 1: the spare bytes are filled. *)
Lemma commit_spare s c ps L m a g l over d h pos xs arg u r j : ready c ps L m a g l over d h pos xs -> 0 <= u <= over -> chain_len l + u < 65536 ->
  L !! r = Some j -> r ∉ l.*1 -> r <= arg -> arg + u <= r + j ->
  exists ps' g' l', (if 0 <? u then
      g ← seg_at (run s ps m) a;
      s1 ← mjoin (while (S (size (pst (i_p (run s ps m))))) (bump_body arg u) (run s ps m, sg_p g));
      upd_seg s1 a (fun g => g |> set_sg_len (u16 (sg_len g + u)) |> set_sg_oversize_left (u16 (sg_oversize_left g - u)))
    else Some (run s ps m)) = Some (run s ps' (<[a := g']> m)) /\
    ready c ps' L (<[a := g']> m) a g' l' (over - u) (d ++ bytes (mem_of ps) arg (Z.to_nat u)) h pos xs /\ l'.*1 = l.*1 /\ chain_len l' = chain_len l + u /\
    grown u g g' /\ others l.*1 a ps L m ps' L (<[a := g']> m).
Proof.
  intros [S So T Pa Pl Ap Na Nd] Hu Hm Hr Nr H1 H2. pose proof (tail_sizes _ _ _ _ _ _ _ _ T) as Hg. pose proof (tl_seg _ _ _ _ _ _ _ _ T) as Ea.
  destruct (Z.ltb_spec 0 u) as [Lt|Ge].
  2: { assert (u = 0) as -> by lia. exists ps, g, l. rewrite insert_id by exact Ea. cbn [bytes Z.to_nat]. rewrite app_nil_r, Z.sub_0_r, Z.add_0_r.
       split; [reflexivity|]. split; [split; assumption|]. split; [reflexivity|]. split; [reflexivity|].
       split; [unfold grown; rewrite Z.add_0_r; auto | split; auto]. }
  pose proof T as [_ Ch Le Ow _ (l0 & q & b & k & -> & Hk & Hs)].
  assert (Nq : r <> q) by (intros ->; apply Nr; rewrite fmap_app, elem_of_app; right; apply elem_of_cons; auto).
  pose proof (chain_length_size _ _ _ Ch) as Sz. rewrite length_app in Sz. cbn in Sz.
  destruct (bump_loop s m arg u r j l0 q b (Datatypes.S (size (pst ps))) ps L (sg_p g) k S Ch Ow Hk ltac:(lia) ltac:(lia) Hr Nq H1 H2 ltac:(lia)) as (x & E & D & Fx).
  rewrite run_seg, Ea. cbn [mbind option_bind]. change (i_p (run s ps m)) with ps. rewrite E. cbn [mjoin option_join mbind option_bind].
  rewrite (run_upd s _ m a g _ Ea). set (g' := g |> _ |> _). set (ps' := set_pst _ _).
  destruct (spare_used ps L m a g l0 q b over d u x (u16 (sg_oversize_left g - u)) (bytes (mem_of ps) arg (Z.to_nat u)) S T Hu Hm ltac:(apply bytes_length) D Fx) as (S1 & T1 & St1 & K1).
  change (longer u (u16 (sg_oversize_left g - u)) g) with g' in T1. fold ps' in S1, T1, St1, K1.
  exists ps', g', (bumped u l0 q b). destruct (bumped_lengths u l0 q b Le ltac:(lia) Hm) as (_ & Lc & _).
  assert (Iq : q ∈ (l0 ++ [(q, b)]).*1) by (rewrite fmap_app, elem_of_app; right; apply elem_of_cons; auto).
  split; [reflexivity|]. split; [| split; [apply bumped_fst | split; [exact Lc | split; [apply (grown_longer u (u16 (sg_oversize_left g - u)) g); lia|]]]].
  - split; try assumption.
    + apply segs_ok_insert; [exact So | apply (So a g Ea) ..].
    + rewrite (nexts_same m a g g' Ea eq_refl). exact Pa.
    + apply (placed_tail c ps L m ps' _ (delete q L) a g' (l0 ++ [(q, b)])); try assumption; [| reflexivity].
      intros y Ny. apply lookup_delete_ne. intros <-. contradiction.
    + intros y I. rewrite bumped_fst. exact (Ap y I).
  - split; auto.
    + intros z y i Hi Ny Hz. apply K1. exists y, i. split; [| exact Hz]. rewrite lookup_delete_ne; [exact Hi|]. intros <-. contradiction.
    + intros y g0 E0 N. rewrite lookup_insert_ne by congruence. exact E0.
Qed.

(** Phase 2: the pbuf [p] is chained to the segment. *)
Lemma commit_concat s c ps L m a g l over d h pos xs p bp k n over2 : ready c ps L m a g l over d h pos xs -> pst ps !! p = Some bp ->
  bp = mkPbuf 0 (payload bp) n n PBUF_RAM 0 1 -> L !! p = Some k -> payload bp + n + over2 <= p + k -> p ∉ l.*1 -> p ∉ n_p <$> xs -> p <> 0 ->
  chain_len l + n < 65536 ->
  exists ps' g' l', (if negb (p =? 0) then
      g ← seg_at (run s ps m) a;
      ps1 ← pbuf_cat (i_p (run s ps m)) (sg_p g) p;
      cb ← i_pbuf (set_i_p (run s ps m) ps1) p;
      upd_seg (set_i_p (run s ps m) ps1) a (fun g => g |> set_sg_len (u16 (sg_len g + tot_len cb)))
    else Some (run s ps m)) = Some (run s ps' (<[a := g']> m)) /\
    ready c ps' L (<[a := g']> m) a g' l' over2 (d ++ bytes (mem_of ps) (payload bp) (Z.to_nat n)) h pos xs /\
    l'.*1 = l.*1 ++ [p] /\ grown n g g' /\ others l.*1 a ps L m ps' L (<[a := g']> m).
Proof.
  intros [S So T Pa Pl Ap Na Nd] Ep Gp Hk Hs Ni Nx Np Hm. pose proof (tail_sizes _ _ _ _ _ _ _ _ T) as Hg. pose proof (tl_seg _ _ _ _ _ _ _ _ T) as Ea.
  rewrite (proj2 (Z.eqb_neq p 0)) by exact Np. cbn [negb]. rewrite run_seg, Ea. cbn [mbind option_bind]. change (i_p (run s ps m)) with ps.
  destruct (chained ps L m a g l over d p bp k n over2 (sg_oversize_left g) S T Ep Gp Hk Hs Ni Np Hm) as (ps' & l' & -> & S1 & Pw & T1 & Fl & St1).
  cbn [mbind option_bind]. change (set_i_p (run s ps m) ps') with (run s ps' m). rewrite run_pbuf, (St1 p Ni), Ep. cbn [mbind option_bind].
  assert (tot_len bp = n) as -> by (rewrite Gp; reflexivity). rewrite (run_upd s ps' m a g _ Ea).
  assert (Hn : 0 <= n) by (destruct (ps_pbuf _ _ S p bp Ep) as (_ & _ & P & _); rewrite Gp in P; exact P).
  assert (Eg : g |> set_sg_len (u16 (sg_len g + n)) = longer n (sg_oversize_left g) g) by (destruct g; reflexivity). rewrite Eg. set (g' := longer _ _ g) in *.
  assert (Km : mem_of ps' = mem_of ps) by (unfold mem_of; rewrite Pw; reflexivity).
  exists ps', g', l'. split; [reflexivity|]. split; [| split; [exact Fl | split; [apply grown_longer; lia|]]].
  - split; try assumption.
    + apply segs_ok_insert; [exact So | apply (So a g Ea) ..].
    + rewrite (nexts_same m a g g' Ea eq_refl). exact Pa.
    + apply (placed_tail c ps L m ps' _ L a g' l); try assumption; [reflexivity | reflexivity | rewrite Km; apply preserves_refl].
    + intros y I. rewrite Fl, elem_of_app, list_elem_of_singleton. intros [J | ->]; [exact (Ap y I J) | contradiction].
  - split; auto.
    + intros z y i _ _ _. rewrite Km. reflexivity.
    + intros y g0 E0 N. rewrite lookup_insert_ne by congruence. exact E0.
Qed.

(** The new segments, the last one with the flags [fl]. *)
Fixpoint enqueued (c : tcp_pcb) ps L m (pos : Z) (xs : list nseg) (fl : Z) : Prop :=
  match xs with
  | [] => True
  | x :: xs => seg_is c ps L m x (u32 (tp_snd_lbb c + pos)) (match xs with [] => fl | _ => 0 end) /\ 0 <= n_over x /\ enqueued c ps L m (pos + n_len x) xs fl
  end.

Lemma placed_enqueued c ps L m pos xs : placed c ps L m pos xs -> enqueued c ps L m pos xs 0.
Proof. revert pos. induction xs as [|x xs IH]; intros pos P; [exact P|]. destruct P as (P1 & P2 & P3). destruct xs; split; auto. Qed.
Lemma enqueued_snoc c ps L m pos ys x fl : placed c ps L m pos ys -> seg_is c ps L m x (u32 (tp_snd_lbb c + (pos + total ys))) fl -> 0 <= n_over x ->
  enqueued c ps L m pos (ys ++ [x]) fl.
Proof.
  revert pos. induction ys as [|y ys IH]; intros pos P Sx Ho; cbn [app enqueued].
  - cbn in Sx. rewrite Z.add_0_r in Sx. auto.
  - destruct P as (P1 & P2 & P3). split; [destruct ys; exact P1 | split; [exact P2|]]. apply IH; [exact P3 | | exact Ho].
    cbn [total foldr] in Sx. fold (total ys) in Sx. rewrite (Z.add_assoc pos) in Sx. exact Sx.
Qed.

(** ** The push flag *)

Lemma set_flag_frame x h fl : frame x (TCPH_SET_FLAG x h fl) (h + 12) 2.
Proof. intros z Hz. unfold TCPH_SET_FLAG, TCPH_hdrlen_rsvd_flags. by skip_writes8. Qed.
Lemma set_push x h : bytes x (h + 12) 2 = be16 (Z.lor 0x5000 0) -> bytes (TCPH_SET_FLAG x h TCP_PSH) (h + 12) 2 = be16 (Z.lor 0x5000 TCP_PSH).
Proof.
  intros E. apply ld16_htons in E; [| split; [discriminate | reflexivity]]. unfold TCPH_SET_FLAG, TCPH_hdrlen_rsvd_flags. rewrite E.
  assert (Z.lor (PP_HTONS (Z.lor 0x5000 0)) (PP_HTONS (u16 TCP_PSH)) = PP_HTONS (Z.lor 0x5000 TCP_PSH)) as -> by (vm_compute; reflexivity).
  apply bytes_st16_htons. split; [discriminate | reflexivity].
Qed.

Lemma push_seg c ps L m x q : psys ps L -> seg_is c ps L m x q 0 -> 0 <= n_over x ->
  exists g, m !! n_seg x = Some g /\ sg_tcphdr g <> 0 /\
    let ps' := set_mem ps (TCPH_SET_FLAG (mem_of ps) (sg_tcphdr g) TCP_PSH) in
    psys ps' L /\ seg_is c ps' L m x q TCP_PSH /\ preserves (mem_of ps) (mem_of ps') (delete (n_p x) L).
Proof.
  intros S (g & b & k & Eg & Eb & Ek & Gg & Gb & H1 & H2 & D & (h1 & h2 & h3 & h4 & h5)) Ho. exists g.
  assert (Hh : sg_tcphdr g = payload b) by (rewrite Gg; reflexivity). rewrite Hh. unfold n_len in *. split; [exact Eg|].
  pose proof (ro_region _ (regions_of _ _ S) _ _ Ek) as (Hp & _). pose proof (set_flag_frame (mem_of ps) (payload b) TCP_PSH) as F. split; [lia|].
  split; [apply (psys_data ps L _ (n_p x) k (payload b + 12) 2 S Ek); [lia | lia | exact F]|].
  rewrite mem_set. split; [| apply (frame_preserves L _ _ (n_p x) k (payload b + 12) 2 (regions_of _ _ S) Ek); [lia | lia | exact F]].
  assert (Kb : forall z i, z + Z.of_nat i <= payload b + 12 \/ payload b + 14 <= z -> bytes (TCPH_SET_FLAG (mem_of ps) (payload b) TCP_PSH) z i = bytes (mem_of ps) z i).
  { intros z i Hz. apply bytes_ext. intros y Hy. apply F. lia. }
  exists g, b, k. unfold n_len. rewrite mem_set. do 7 (split; [assumption|]). split; [rewrite Kb by lia; exact D|].
  split; [rewrite Kb by lia; exact h1|]. split; [rewrite Kb by lia; exact h2|]. split; [rewrite Kb by lia; exact h3|].
  split; [exact (set_push _ _ h4) | rewrite Kb by lia; exact h5].
Qed.

(** On the last of the new segments. *)
Lemma push_queue c ps L m pos ys x : psys ps L -> placed c ps L m pos (ys ++ [x]) -> NoDup (n_p <$> ys ++ [x]) ->
  exists g, m !! n_seg x = Some g /\ sg_tcphdr g <> 0 /\
    let ps' := set_mem ps (TCPH_SET_FLAG (mem_of ps) (sg_tcphdr g) TCP_PSH) in
    psys ps' L /\ enqueued c ps' L m pos (ys ++ [x]) TCP_PSH /\ preserves (mem_of ps) (mem_of ps') (delete (n_p x) L).
Proof.
  intros S P Nd. apply placed_app in P as [P (Sx & Ho & _)]. destruct (push_seg c ps L m x _ S Sx Ho) as (g & Eg & Nh & S' & Sx' & K).
  exists g. split; [exact Eg | split; [exact Nh | split; [exact S' | split; [| exact K]]]]. apply enqueued_snoc; [| exact Sx' | exact Ho].
  apply (placed_kept c ps L m _ _ _ (delete (n_p x) L)); [exact P | | exact K]. intros y I. do 2 (split; [reflexivity|]). split; [| eauto].
  apply lookup_delete_ne. intros E. rewrite fmap_app in Nd. apply NoDup_app in Nd as (_ & Nd & _). apply (Nd (n_p y) (list_elem_of_fmap_2 n_p _ _ I)).
  rewrite <- E. apply elem_of_cons. auto.
Qed.

(** On the last segment there was. *)
Lemma push_tail ps L m a g l over d : psys ps L -> tail_ok ps L m a g l over d ->
  let ps' := set_mem ps (TCPH_SET_FLAG (mem_of ps) (sg_tcphdr g) TCP_PSH) in
  sg_tcphdr g <> 0 /\ psys ps' L /\ tail_ok ps' L m a g l over d /\ exists p, p ∈ l.*1 /\ preserves (mem_of ps) (mem_of ps') (delete p L).
Proof.
  intros S T ps'. pose proof T as [Sg Ch Le Ow (p & b & l' & -> & H1 & H2 & H3 & D) Sp].
  pose proof (optlen_nonneg g) as Ho. pose proof (set_flag_frame (mem_of ps) (sg_tcphdr g) TCP_PSH) as F.
  assert (Eb : pst ps !! p = Some b) by (apply (chain_lookup _ _ _ p b Ch), elem_of_cons; auto).
  destruct (ram_region ps L p b S Eb (Forall_inv Ow)) as (k & Hk & H5 & H6 & H7). pose proof (ro_region _ (regions_of _ _ S) _ _ Hk) as (Hp & _).
  assert (K : preserves (mem_of ps) (TCPH_SET_FLAG (mem_of ps) (sg_tcphdr g) TCP_PSH) (delete p L))
    by (apply (frame_preserves L _ _ p k (sg_tcphdr g + 12) 2 (regions_of _ _ S) Hk); [lia | lia | exact F]).
  split; [lia|]. split; [apply (psys_data ps L _ p k (sg_tcphdr g + 12) 2 S Hk); [lia | lia | exact F]|].
  split; [| exists p; unfold ps'; rewrite mem_set; split; [apply elem_of_cons; auto | exact K]]. split; try assumption.
  exists p, b, l'. split; [reflexivity|]. do 3 (split; [assumption|]). rewrite D. unfold ps'. rewrite mem_set. cbn [chain_data].
  rewrite !drop_app_le by (rewrite bytes_length; lia). rewrite !drop_bytes by lia. f_equal; [symmetry; apply bytes_ext; intros z Hz; apply F; lia|].
  pose proof (chain_NoDup _ _ _ Ch) as Nd. apply NoDup_cons in Nd as [Nd _].
  destruct (chain_inv _ _ _ Ch) as [[_ E] | (_ & b1 & l1 & E & _ & Ch')]; [discriminate E|]. injection E as _ <- <-.
  symmetry. apply (chain_kept ps L (delete p L) _ _ l' S Ch'); [exact (Forall_inv_tail Ow) | | exact K]. intros y I. apply lookup_delete_ne. intros ->. contradiction.
Qed.

(** ** All changes *)

Definition psh (api : Z) : Z := if has api TCP_WRITE_FLAG_MORE then 0 else TCP_PSH.
Definition pushed (api : Z) ps (h : Z) : pstate W := if has api TCP_WRITE_FLAG_MORE then ps else set_mem ps (TCPH_SET_FLAG (mem_of ps) h TCP_PSH).

(** The last statement of [tcp_write], for the segment [seg]. *)
Definition push_last (api seg : Z) s : option (istate W X U) :=
  if negb (seg =? 0) then
    g ← seg_at s seg;
    if negb (sg_tcphdr g =? 0) && negb (has api TCP_WRITE_FLAG_MORE)
    then Some (i_write s (TCPH_SET_FLAG (i_mem s) (sg_tcphdr g) TCP_PSH)) else Some s
  else Some s.

Lemma push_run api seg s ps m g : seg <> 0 -> m !! seg = Some g -> sg_tcphdr g <> 0 -> push_last api seg (run s ps m) = Some (run s (pushed api ps (sg_tcphdr g)) m).
Proof.
  intros N E Nh. unfold push_last. rewrite (proj2 (Z.eqb_neq seg 0)), run_seg, E by exact N. cbn [negb mbind option_bind].
  rewrite (proj2 (Z.eqb_neq _ 0)) by exact Nh. unfold pushed. destruct (has _ _); reflexivity.
Qed.

Lemma others_push K a ps0 L0 m0 ps L m x y : others K a ps0 L0 m0 ps L m -> preserves (mem_of ps) x (delete y L) -> L0 !! y = None \/ y ∈ K ->
  others K a ps0 L0 m0 (set_mem ps x) L m.
Proof.
  intros [A1 A2 A3 A4] Kp Hy. split; try assumption. intros z w k Hw Nw Hz. rewrite mem_set, <- (A3 z w k Hw Nw Hz). apply Kp. exists w, k. split; [| exact Hz].
  rewrite lookup_delete_ne; [exact (A1 w k Hw)|]. intros ->. destruct Hy; [congruence | contradiction].
Qed.

(** The flag goes to the last of the new segments or, without one, to the last segment. *)
Lemma push_spec s c api K ps0 L0 m0 ps L m a g l over d pos xs seg0 : psys ps L -> segs_ok L m -> tail_ok ps L m a g l over d -> placed c ps L m pos xs ->
  NoDup (n_p <$> xs) -> (forall x, x ∈ xs -> n_seg x <> 0 /\ L0 !! n_p x = None /\ n_p x ∉ l.*1) -> others K a ps0 L0 m0 ps L m -> seg0 = a \/ seg0 = 0 ->
  (forall y, y ∈ l.*1 -> y ∈ K \/ L0 !! y = None) ->
  exists ps', push_last api (List.last (n_seg <$> xs) seg0) (run s ps m) = Some (run s ps' m) /\ psys ps' L /\
    tail_ok ps' L m a g l over d /\ enqueued c ps' L m pos xs (psh api) /\ others K a ps0 L0 m0 ps' L m.
Proof.
  intros S So T P Nd Fx Ot Hs Hl. destruct (decide (xs = [])) as [->|Ne].
  - cbn [fmap list_fmap List.last]. destruct Hs as [-> | ->]; [| exists ps; auto].
    destruct (push_tail ps L m a g l over d S T) as (Nh & S1 & T1 & y & Iy & K1). pose proof (tl_seg _ _ _ _ _ _ _ _ T) as Ea.
    rewrite (push_run api a s ps m g (proj1 (So a g Ea)) Ea Nh). eexists. split; [reflexivity|]. unfold pushed. destruct (has _ _); [auto|].
    split; [exact S1 | split; [exact T1 | split; [exact Logic.I|]]]. rewrite mem_set in K1. destruct (Hl y Iy); eauto using others_push.
  - destruct (exists_last Ne) as (ys & x & ->). rewrite fmap_app. cbn [fmap list_fmap]. rewrite last_last.
    destruct (Fx x ltac:(apply elem_of_app; right; apply elem_of_cons; auto)) as (Nx & F0 & Nl).
    destruct (push_queue c ps L m pos ys x S P Nd) as (gx & Ex & Nh & S1 & Q1 & K1). rewrite (push_run api _ s ps m gx Nx Ex Nh).
    eexists. split; [reflexivity|]. unfold pushed, psh. destruct (has _ _).
    + split; [exact S | split; [exact T | split; [apply placed_enqueued; exact P | exact Ot]]].
    + split; [exact S1 | split; [| split; [exact Q1 | rewrite mem_set in K1; eauto using others_push]]].
      apply (tail_kept ps L m _ L m (delete (n_p x) L)); [exact S | exact T | exact (tl_seg _ _ _ _ _ _ _ _ T) | | exact K1].
      intros y Iy. do 2 (split; [reflexivity|]). apply lookup_delete_ne. intros <-. contradiction.
Qed.

(** The queue is linked behind the last segment. *)
Lemma link_tail c ps L m a g l over d h pos xs us hd : ready c ps L m a g l over d h pos xs -> path (sg_next <$> m) hd (us ++ [a]) ->
  (forall y, y ∈ us ++ [a] -> y ∉ n_seg <$> xs) ->
  let m' := <[a := set_sg_next h g]> m in
  ready c ps L m' a (set_sg_next h g) l over d h pos xs /\ path (sg_next <$> m') hd ((us ++ [a]) ++ (n_seg <$> xs)).
Proof.
  intros [S So T Pa Pl Ap Na Nd] Pu Dj m'. pose proof (tl_seg _ _ _ _ _ _ _ _ T) as Ea.
  assert (E : sg_next <$> m' = <[a := h]> (sg_next <$> m)) by (unfold m'; rewrite fmap_insert; reflexivity). split.
  - split; try assumption.
    + apply segs_ok_insert; [exact So | apply (So a g Ea) ..].
    + destruct T as [_ T2 T3 T4 T5 T6]. split; try assumption. apply lookup_insert_eq.
    + rewrite E. apply path_insert_ne; assumption.
    + apply (placed_tail c ps L m ps _ L a (set_sg_next h g) l); try assumption; [reflexivity | reflexivity | reflexivity | apply preserves_refl].
  - rewrite E. assert (Ne : us ++ [a] <> []) by (destruct us; discriminate). pose proof (path_join _ _ _ _ _ Ne Pu Pa Dj) as J.
    assert (El : last_of (us ++ [a]) = a) by apply last_last. rewrite El in J. exact J.
Qed.

(** ** The first two phases *)

Section append.
Context (s : istate W X U) (pcb : Z) (c : tcp_pcb) (Ec : pcb_at s pcb = Some c).
Context (L : regions) (arg n api mss r j : Z).
Context (S0 : psys (i_p s) L) (So0 : segs_ok L (tv_segs (tcp_of s))).
Context (Src : L !! r = Some j /\ r <= arg /\ arg + n <= r + j).
Context (Hn : 0 <= n < 65536) (Hmss : 0 <= mss <= 65460) (Copy : has api TCP_WRITE_FLAG_COPY = true).
Context (Hq : 0 <= tp_snd_queuelen c < TCP_SND_QUEUELEN).
Local Abbreviation m0 := (tv_segs (tcp_of s)).
Local Abbreviation qlen := (tp_snd_queuelen c).
Local Abbreviation over := (tp_unsent_oversize c).
Local Abbreviation mem0 := (mem_of (i_p s)).

(** The last unsent segment [a] and what there is room for behind it. *)
Record at_tail (a : Z) (g : tcp_seg) l (d : list Z) : Prop := {
  at_ok : tail_ok (i_p s) L m0 a g l over d;
  at_over : 0 <= over;
  at_left : sg_oversize_left g = over;
  at_room : sg_len g + optlen g + over <= mss;
  at_apart : r ∉ l.*1 }.

Definition used : Z := Z.min over n.
Definition space (g : tcp_seg) : Z := mss - sg_len g - optlen g - used.

Lemma tail_nonneg a g l d : at_tail a g l d -> 0 <= sg_len g /\ 0 <= used <= over /\ used <= n /\ 0 <= space g <= mss.
Proof.
  intros [T Ho _ Hr _]. destruct T as [_ _ Le _ (p & b & l' & El & _ & H2 & H3 & _) _].
  pose proof (tail_len l' p b g l El Le H2 H3). pose proof (optlen_nonneg g). unfold used, space, used. lia.
Qed.

(** What is found out about the end of the queue: there is no memory for a pbuf; or a
    pbuf [p] is to be chained; or only the spare bytes are used. *)
Lemma extend_spec us a g l d : path (sg_next <$> m0) (tp_unsent c) (us ++ [a]) -> at_tail a g l d ->
  (exists ps', write_extend stale custom_free s pcb c arg n api mss = Some (run s ps' m0, None) /\ unchanged (i_p s) L ps') \/
  (used < n /\ exists ps1 p b k over2, let w := Z.min (space g) (n - used) in
     write_extend stale custom_free s pcb c arg n api mss =
       Some (run s ps1 (<[a := set_sg_oversize_left (over + over2) g]> m0), Some (mkTail a a used over2 p (used + w) (qlen + 1))) /\
     packet (i_p s) L ps1 p b k (bytes mem0 (arg + used) (Z.to_nat w)) 0 over2 /\ over2 <= space g - w /\ 0 < w) \/
  ((used = n \/ space g = 0 \/ sg_len g = 0) /\
     write_extend stale custom_free s pcb c arg n api mss = Some (s, Some (mkTail a (if 0 <? over then a else 0) used (over - used) 0 used qlen))).
Proof.
  intros P T. pose proof (tail_nonneg a g l d T) as (Hg & Hu & Hun & Hs). pose proof T as [Tk Ho Hl Hr _]. destruct Src as (Hr0 & Hr1 & Hr2).
  pose proof (optlen_nonneg g) as Hopt. unfold write_extend.
  assert (Nu : tp_unsent c <> 0) by (apply path_inv in P as [[_ E] | (N & _)]; [destruct us; discriminate E | exact N]).
  rewrite (proj2 (Z.eqb_neq _ 0)) by exact Nu. rewrite (last_seg_spec s _ (us ++ [a])) by (destruct us; discriminate || exact P). cbn [mbind option_bind].
  assert (last_of (us ++ [a]) = a) as -> by apply last_last. unfold seg_at. rewrite (tl_seg _ _ _ _ _ _ _ _ Tk). cbn [mbind option_bind]. cbv zeta. fold (optlen g).
  assert ((if 0 <? over then if over <? n then over else n else 0) = used) as -> by (unfold used; repeat case_bool; lia).
  assert (Es : u16 (u16 (mss - (sg_len g + optlen g)) - used) = space g) by (unfold space in *; rewrite (u16_id (mss - _)), u16_id; lia).
  rewrite Es. assert (u16 (over - used) = over - used) as -> by (apply u16_id; lia).
  destruct (Z.ltb_spec used n) as [Lt|Ge]; cbn [andb]; [| right; right; split; [left; lia | reflexivity]].
  destruct (Z.ltb_spec 0 (space g)) as [Ls|Gs]; cbn [andb]; [| right; right; split; [right; left; lia | reflexivity]].
  destruct (Z.ltb_spec 0 (sg_len g)) as [Lg|Gg]; [| right; right; split; [right; right; lia | reflexivity]].
  assert ((if space g <? n - used then space g else n - used) = Z.min (space g) (n - used)) as -> by (case_bool; lia). set (w := Z.min _ _).
  assert (Hw : 0 < w <= space g /\ w <= n - used) by (unfold w; lia). rewrite Copy.
  pose proof (copied_packet stale custom_free stale_ok s pcb c Ec (i_p s) m0 L PBUF_RAW (space g) api true r j (arg + used) w S0 ltac:(lia) ltac:(lia) Hr0 ltac:(lia) ltac:(lia)) as Cp.
  rewrite (run_start s) in Cp. destruct Cp as (ps1 & p & over2 & -> & [[-> Un] | (Np & Hov & b & Eb & Cp)]); cbn [mbind option_bind].
  - left. exists ps1. split; [reflexivity | exact Un].
  - right. left. split; [exact Lt|]. rewrite (proj2 (Z.eqb_neq p 0)) by exact Np.
    rewrite (run_upd s ps1 m0 a g _ (tl_seg _ _ _ _ _ _ _ _ Tk)). cbn [mbind option_bind]. rewrite run_pbuf, Eb. cbn [mbind option_bind].
    match goal with |- context [run s ps1 ?y] => destruct (Cp y) as (ps2 & -> & k & Pk) end. cbn [mbind option_bind].
    rewrite (proj2 (Z.eqb_neq p 0)) by exact Np. change (i_p (run s ps2 ?y)) with ps2.
    rewrite (clen_one ps2 p b); [| destruct Pk as [_ _ _ -> _ _ _ _ _ _]; apply lookup_insert_eq | destruct Pk as [_ _ -> _ _ _ _ _ _ _]; reflexivity | exact Np].
    cbn [mbind option_bind]. change TCP_SND_QUEUELEN with 32 in Hq. assert (Eu : used = over) by (unfold used in *; lia). rewrite Hl, !u16_id by (unfold space in *; lia).
    exists ps2, p, b, k, over2. split; [reflexivity | split; [exact Pk | split; [lia | unfold w in *; lia]]].
Qed.

End append.

End tail.

End TcpAppend.
