(* ===== verification/TcpStream.v ===== *)
(** Queueing data: [tcp_write] (src/core/tcp_out.c) appends to the stream of unsent bytes,
    or leaves everything as it was. *)

From stdpp Require Import base tactics numbers list gmap.
From Stdlib Require Import ZArith Lia.
From S2P Require Import Prelude Mylib ByteOrder Fields Stats Linked PbufDefs NetifDefs InetChksum Allocator Mem Memp PbufMem World Pbuf PbufData PbufChains PbufLinks IpAddr IpDefs IpOutput TcpDefs TcpSeg TcpOut Tcp TcpIn TcpSample TcpFrame TcpLists TcpRexmit TcpWrite TcpAppend.

Local Open Scope Z_scope.

Module TcpStream.
Import Fields ByteOrder Linked Memp Pbuf PbufData PbufChains PbufLinks IpDefs TcpDefs TcpSeg TcpOut TcpFrame TcpLists TcpRexmit TcpWrite TcpAppend.

Section stream.
Context {W X U : Type} `{LW : MemSystemLaws W} `{HT : HasTcp U}.
Context (stale : Z -> Z) (custom_free : pstate W -> Z -> option (pstate W)).
Context (stale_ok : forall p, Z.land (stale p) PBUF_FLAG_IS_CUSTOM = 0).
Implicit Types (s : istate W X U) (ps : pstate W) (m : gmap Z tcp_seg) (L : regions) (l : list (Z * pbuf)).

(** The control block when [n] bytes were queued. *)
Definition committed (c : tcp_pcb) (n : Z) (q : write_queue) : tcp_pcb :=
  c |> set_tp_unsent_oversize (wq_oversize q) |> set_tp_snd_lbb (u32 (tp_snd_lbb c + n))
    |> set_tp_snd_buf (u16 (tp_snd_buf c - n)) |> set_tp_snd_queuelen (wq_queuelen q).

(** The pbuf that is to be chained holds [D], or there is none. *)
Definition to_chain ps L l (xs : list nseg) (p over2 : Z) (D : list Z) : Prop :=
  (p = 0 /\ D = []) \/
  (p <> 0 /\ exists bp k, pst ps !! p = Some bp /\ bp = mkPbuf 0 (payload bp) (Z.of_nat (length D)) (Z.of_nat (length D)) PBUF_RAM 0 1 /\
     L !! p = Some k /\ p <= payload bp /\ payload bp + Z.of_nat (length D) + over2 <= p + k /\ 0 <= over2 /\
     bytes (mem_of ps) (payload bp) (length D) = D /\ (p ∉ l.*1) /\ p ∉ n_p <$> xs).

Lemma to_chain_kept K a ps L m ps' m' l l' xs p over2 D : to_chain ps L l xs p over2 D -> others K a ps L m ps' L m' -> K = l.*1 -> l'.*1 = l.*1 ->
  to_chain ps' L l' xs p over2 D.
Proof.
  intros [?|(Np & bp & k & Ep & Gp & Hk & H0 & H1 & Ho & Db & Ni & Nx)] [A1 A2 A3 A4] -> El; [left; assumption | right]. split; [exact Np|]. exists bp, k.
  rewrite A2 by eauto. rewrite El. do 6 (split; [assumption|]). split; [| auto]. rewrite <- Db at 2. apply bytes_ext. intros z Hz. apply (A3 z p k Hk Ni). lia.
Qed.

(** Phase 2, whether there is a pbuf to be chained or not. *)
Lemma chain_step s c ps L m a g l over d h pos xs p over2 D : ready c ps L m a g l over d h pos xs -> to_chain ps L l xs p over2 D ->
  chain_len l + Z.of_nat (length D) < 65536 ->
  exists ps' g' l' over', (if negb (p =? 0) then
      g ← seg_at (run s ps m) a;
      ps1 ← pbuf_cat (i_p (run s ps m)) (sg_p g) p;
      cb ← i_pbuf (set_i_p (run s ps m) ps1) p;
      upd_seg (set_i_p (run s ps m) ps1) a (fun g => g |> set_sg_len (u16 (sg_len g + tot_len cb)))
    else Some (run s ps m)) = Some (run s ps' (<[a := g']> m)) /\
    ready c ps' L (<[a := g']> m) a g' l' over' (d ++ D) h pos xs /\
    (forall y, y ∈ l'.*1 -> y ∈ l.*1 \/ y = p) /\ grown (Z.of_nat (length D)) g g' /\ others l.*1 a ps L m ps' L (<[a := g']> m).
Proof.
  intros R [[-> ->] | (Np & bp & k & Ep & Gp & Hk & H0 & H1 & Ho & Db & Ni & Nx)] Hm.
  - exists ps, g, l, over. pose proof (tl_seg _ _ _ _ _ _ _ _ (rd_tail _ _ _ _ _ _ _ _ _ _ _ _ R)) as Ea. rewrite insert_id by exact Ea. rewrite app_nil_r.
    split; [reflexivity | split; [exact R | split; [auto | split; [unfold grown; cbn; rewrite Z.add_0_r; auto | split; auto]]]].
  - destruct (commit_concat custom_free s c ps L m a g l over d h pos xs p bp k (Z.of_nat (length D)) over2 R Ep Gp Hk H1 Ni Nx Np Hm) as (ps' & g' & l' & E & R' & El & Gr & Ot).
    rewrite Nat2Z.id, Db in R'. exists ps', g', l', over2. split; [exact E | split; [exact R' | split; [| auto]]].
    intros y I. rewrite El, elem_of_app, list_elem_of_singleton in I. exact I.
Qed.

Lemma ready_path c ps L m a g l over d h pos xs hd us g' m' : ready c ps L m a g l over d h pos xs -> m' = <[a := g']> m -> sg_next g' = sg_next g ->
  path (sg_next <$> m) hd us -> path (sg_next <$> m') hd us.
Proof. intros R -> E P. rewrite (nexts_same m a g g'); [exact P | apply (rd_tail _ _ _ _ _ _ _ _ _ _ _ _ R) | exact E]. Qed.

(** All phases succeeded and there is a last segment: it gets [D1] and [D], the queue
    goes behind it. *)
Lemma commit_spec s pcb c ps0 L0 m0 ps L m a g l over d q xs us arg n api u r j seg0 over1 p over2 D pos ql : pcb_at s pcb = Some c ->
  ready c ps L m a g l over d (wq_queue q) pos xs -> others l.*1 a ps0 L0 m0 ps L m -> path (sg_next <$> m) (tp_unsent c) (us ++ [a]) ->
  (forall y, y ∈ us ++ [a] -> y ∉ n_seg <$> xs) -> 0 <= u <= over -> chain_len l + u + Z.of_nat (length D) < 65536 ->
  L !! r = Some j -> r ∉ l.*1 -> r <= arg -> arg + u <= r + j -> to_chain ps L l xs p over2 D -> (p <> 0 -> L0 !! p = None) ->
  (forall x, x ∈ xs -> n_seg x <> 0 /\ L0 !! n_p x = None) -> wq_seg q = List.last (n_seg <$> xs) seg0 -> seg0 = a \/ seg0 = 0 -> a <> 0 ->
  exists ps' m' g' l' over', write_commit (run s ps m) pcb arg n api (mkTail a seg0 u over1 p pos ql) q = Some (run (put_pcb s pcb (committed c n q)) ps' m', ERR_OK) /\
    psys ps' L /\ segs_ok L m' /\ tail_ok ps' L m' a g' l' over' (d ++ bytes (mem_of ps) arg (Z.to_nat u) ++ D) /\
    path (sg_next <$> m') (tp_unsent c) ((us ++ [a]) ++ (n_seg <$> xs)) /\ enqueued c ps' L m' pos xs (psh api) /\ others l.*1 a ps0 L0 m0 ps' L m'.
Proof.
  intros Ec R Ot Pu Dj Hu Hm Hr Nr H1 H2 Tc Fp Fx Es Hs Na. unfold write_commit. cbn [wt_used wt_last wt_concat].
  destruct (commit_spare custom_free s c ps L m a g l over d _ pos xs arg u r j R Hu ltac:(lia) Hr Nr H1 H2) as (ps1 & g1 & l1 & -> & R1 & El1 & Lc1 & Gr1 & Ot1).
  cbn [mbind option_bind]. rewrite (run_upd_pcb s pcb c _ _ _ Ec). cbn [mbind option_bind]. set (s1 := put_pcb s pcb _).
  destruct (chain_step s1 c ps1 L _ a g1 l1 _ _ _ pos xs p over2 D R1 (to_chain_kept _ _ _ _ _ _ _ _ _ _ _ _ _ Tc Ot1 eq_refl El1) ltac:(lia))
    as (ps2 & g2 & l2 & ov2 & -> & R2 & El2 & Gr2 & Ot2). cbn [mbind option_bind].
  rewrite insert_insert_eq in R2, Ot2 |- *. rewrite (proj2 (Z.eqb_neq a 0)) by exact Na.
  assert (Pu2 : path (sg_next <$> <[a := g2]> m) (tp_unsent c) (us ++ [a])).
  { rewrite (nexts_same m a g g2); [exact Pu | apply (rd_tail _ _ _ _ _ _ _ _ _ _ _ _ R) |]. destruct Gr1 as (_ & N1 & _), Gr2 as (_ & N2 & _). congruence. }
  destruct (link_tail c ps2 L _ a g2 l2 ov2 _ (wq_queue q) pos xs us (tp_unsent c) R2 Pu2 Dj) as [R3 Pu3]. rewrite insert_insert_eq in R3, Pu3.
  rewrite (run_upd s1 ps2 _ a g2 _ (lookup_insert_eq _ _ _)), insert_insert_eq. cbn [mbind option_bind]. set (m3 := <[a := set_sg_next (wq_queue q) g2]> m) in *.
  rewrite (run_upd_pcb s1 pcb _ _ ps2 m3 (put_pcb_at s pcb _)). cbn [mbind option_bind]. unfold s1. rewrite put_pcb_again.
  match goal with |- context [run (put_pcb s pcb ?y)] => change y with (committed c n q) end. set (s2 := put_pcb s pcb (committed c n q)).
  destruct R3 as [S3 So3 T3 _ Pl3 Ap3 _ Nd3]. rewrite app_assoc.
  assert (Ot3 : others l.*1 a ps0 L0 m0 ps2 L m3).
  { apply (others_trans l.*1 a _ _ _ ps L m); [exact Ot|]. rewrite El1 in Ot2. apply (others_trans l.*1 a _ _ _ ps1 L _ _ _ _ Ot1).
    destruct Ot2 as [B1 B2 B3 B4]. split; try assumption. intros y g0 E0 N0. unfold m3. rewrite lookup_insert_ne by congruence.
    rewrite lookup_insert_ne in E0 by congruence. exact E0. }
  destruct (push_spec custom_free s2 c api l.*1 ps0 L0 m0 ps2 L m3 a _ l2 ov2 _ pos xs seg0 S3 So3 T3 Pl3 Nd3) as (ps4 & E4 & S4 & T4 & Q4 & Ot4); [| exact Ot3 | exact Hs | |].
  { intros x I. destruct (Fx x I) as [X1 X2]. split; [exact X1 | split; [exact X2 | apply Ap3, list_elem_of_fmap_2, I]]. }
  { intros y I. destruct (El2 y I) as [J | ->]; [left; rewrite <- El1; exact J|]. destruct Tc as [[-> _] | [Np _]]; [| right; exact (Fp Np)].
    exfalso. apply list_elem_of_fmap in I as ([z bz] & E & I). cbn in E. destruct (chain_lookup _ _ _ _ _ (tl_chain _ _ _ _ _ _ _ _ T3) I) as [_ Nz]. congruence. }
  unfold push_last in E4. rewrite <- Es in E4. rewrite E4. cbn [mbind option_bind]. exists ps4, m3, (set_sg_next (wq_queue q) g2), l2, ov2. auto 8.
Qed.

(** ** From the queue to the commit *)

Lemma held_nil c ps L m pos : psys ps L -> segs_ok L m -> held c ps L m ps L m 0 pos [].
Proof. intros S So. split; cbn; auto; [intros a I; apply elem_of_nil in I; contradiction | constructor | apply preserves_refl | constructor]. Qed.

(** What is live before is not among what was made. *)
Lemma held_apart c ps0 L0 m0 ps L m h pos xs y : held c ps0 L0 m0 ps L m h pos xs -> is_Some (L0 !! y) -> (y ∉ n_p <$> xs) /\ (y ∉ n_seg <$> xs).
Proof. intros Hh [k Hk]. split; intros I; rewrite (hd_fresh _ _ _ _ _ _ _ _ _ _ Hh) in Hk by (apply elem_of_app; auto); discriminate. Qed.

Lemma tail_live ps L m a g l over d y : psys ps L -> tail_ok ps L m a g l over d -> y ∈ l.*1 -> is_Some (L !! y).
Proof.
  intros S T I. apply list_elem_of_fmap in I as ([p b] & -> & I). destruct (chain_lookup _ _ _ _ _ (tl_chain _ _ _ _ _ _ _ _ T) I) as [E _].
  destruct (ps_pbuf _ _ S p b E) as (_ & _ & _ & _ & k & Hk & _). eauto.
Qed.

Lemma ready_held c ps0 L0 m0 ps L m h pos xs a g l over d : psys ps0 L0 -> segs_ok L0 m0 -> tail_ok ps0 L0 m0 a g l over d ->
  held c ps0 L0 m0 ps L m h pos xs -> ready c ps L m a g l over d h pos xs.
Proof.
  intros S0 So0 T Hh. pose proof (tl_seg _ _ _ _ _ _ _ _ T) as Ea. pose proof Hh as [S So Fr Nd Lv St Mp Kp Pa Pl].
  destruct (held_apart _ _ _ _ _ _ _ _ _ _ a Hh (proj2 (proj2 (So0 a g Ea)))) as [_ Na].
  assert (Al : forall y, y ∈ l.*1 -> y ∉ (n_p <$> xs) ++ (n_seg <$> xs)).
  { intros y I. destruct (held_apart _ _ _ _ _ _ _ _ _ _ y Hh (tail_live _ _ _ _ _ _ _ _ y S0 T I)). rewrite elem_of_app. tauto. }
  split; try assumption.
  - apply (tail_kept custom_free ps0 L0 m0 ps L m L0 a g l over d S0 T); [rewrite Mp by exact Na; exact Ea | | exact Kp].
    intros y I. specialize (Al y I). split; [apply St; rewrite elem_of_app in Al; tauto | split; [exact (Lv y Al) | reflexivity]].
  - intros y I J. apply (Al y J), elem_of_app. auto.
  - apply NoDup_app in Nd as (Nd & _). exact Nd.
Qed.

Lemma held_path c ps0 L0 m0 ps L m h pos xs hd us : segs_ok L0 m0 -> held c ps0 L0 m0 ps L m h pos xs -> path (sg_next <$> m0) hd us ->
  path (sg_next <$> m) hd us /\ forall y, y ∈ us -> y ∉ n_seg <$> xs.
Proof.
  intros So0 Hh P. assert (F : forall y, y ∈ us -> y ∉ n_seg <$> xs).
  { intros y I. destruct (path_elem _ _ _ _ P I) as [_ [v Ev]]. rewrite lookup_fmap in Ev. destruct (m0 !! y) as [g|] eqn:E; [| discriminate Ev].
    apply (held_apart _ _ _ _ _ _ _ _ _ _ y Hh (proj2 (proj2 (So0 y g E)))). }
  split; [| exact F]. apply (path_ext _ _ _ _ P). intros y I. rewrite !lookup_fmap, (hd_map _ _ _ _ _ _ _ _ _ _ Hh y (F y I)). reflexivity.
Qed.

(** The new segments, with their addresses. *)
Lemma held_new c ps0 L0 m0 ps L m h pos xs x : held c ps0 L0 m0 ps L m h pos xs -> x ∈ xs -> n_seg x <> 0 /\ L0 !! n_p x = None.
Proof.
  intros Hh I. split; [exact (proj1 (path_elem _ _ _ _ (hd_path _ _ _ _ _ _ _ _ _ _ Hh) (list_elem_of_fmap_2 n_seg _ _ I)))|].
  apply (hd_fresh _ _ _ _ _ _ _ _ _ _ Hh), elem_of_app. left. apply list_elem_of_fmap_2, I.
Qed.

(** ** A connection without unsent segments *)

Lemma commit_first s pcb c ps L m L0 ql n api arg q xs : pcb_at s pcb = Some c ->
  held c (i_p s) L0 (tv_segs (tcp_of s)) ps L m (wq_queue q) 0 xs -> segs_ok L0 (tv_segs (tcp_of s)) -> wq_seg q = List.last (n_seg <$> xs) 0 ->
  exists ps', write_commit (run s ps m) pcb arg n api (mkTail 0 0 0 0 0 0 ql) q =
      Some (run (put_pcb s pcb (set_tp_unsent (wq_queue q) (committed c n q))) ps' m, ERR_OK) /\
    psys ps' L /\ enqueued c ps' L m 0 xs (psh api) /\ others [] 0 (i_p s) L0 (tv_segs (tcp_of s)) ps' L m.
Proof.
  intros Ec Hh So0 Es. pose proof (held_others [] 0 _ _ _ _ _ _ _ _ _ _ So0 Hh) as Ot. unfold write_commit. cbn [wt_used wt_last wt_concat Z.ltb Z.compare].
  cbn [mbind option_bind]. rewrite (run_upd_pcb s pcb c _ _ _ Ec). cbn [mbind option_bind Z.eqb negb].
  rewrite (run_upd_pcb _ pcb _ _ ps m (put_pcb_at s pcb _)), put_pcb_again. cbn [mbind option_bind].
  rewrite (run_upd_pcb _ pcb _ _ ps m (put_pcb_at s pcb _)), put_pcb_again. cbn [mbind option_bind].
  match goal with |- context [run (put_pcb s pcb ?y)] => change y with (set_tp_unsent (wq_queue q) (committed c n q)) end. set (s2 := put_pcb s pcb _).
  rewrite Es. fold (push_last (W := W) (X := X) (U := U) api (List.last (n_seg <$> xs) 0) (run s2 ps m)).
  destruct (decide (xs = [])) as [->|Ne].
  - exists ps. split; [reflexivity|]. split; [apply Hh | split; [exact Logic.I | exact Ot]].
  - destruct (exists_last Ne) as (ys & x & ->). rewrite fmap_app. cbn [fmap list_fmap]. rewrite last_last.
    destruct (held_new _ _ _ _ _ _ _ _ _ _ x Hh ltac:(apply elem_of_app; right; apply elem_of_cons; auto)) as [Nx Fx].
    pose proof Hh as [S So _ Nd _ _ _ _ _ P]. apply NoDup_app in Nd as (Nd & _).
    destruct (push_queue c ps L m 0 ys x S P Nd) as (gx & Ex & Nh & S1 & Q1 & K1). rewrite (push_run api _ s2 ps m gx Nx Ex Nh). cbn [mbind option_bind].
    eexists. split; [reflexivity|]. unfold pushed, psh. destruct (has _ _).
    + split; [exact S | split; [apply placed_enqueued; exact P | exact Ot]].
    + split; [exact S1 | split; [exact Q1|]]. rewrite mem_set in K1. apply (others_push _ _ _ _ _ _ _ _ _ (n_p x) Ot K1). left. exact Fx.
Qed.

(** ** The whole function *)

Definition can_send (c : tcp_pcb) : bool :=
  is_state (tp_state c) ESTABLISHED || is_state (tp_state c) CLOSE_WAIT || is_state (tp_state c) SYN_SENT || is_state (tp_state c) SYN_RCVD.
(** The size of new segments. *)
Definition seg_size (c : tcp_pcb) : Z := LWIP_MIN (tp_mss c) (tp_snd_wnd_max c / 2).
Definition memerr_pcb (c : tcp_pcb) : tcp_pcb := set_tp_flags (or_flag (tp_flags c) TF_NAGLEMEMERR) c.

Lemma checks_spec s pcb c n : pcb_at s pcb = Some c -> 0 < n ->
  tcp_write_checks s pcb n =
    if negb (can_send c) then Some (s, ERR_CONN)
    else if tp_snd_buf c <? n then Some (put_pcb s pcb (memerr_pcb c), ERR_MEM)
    else if queue_full (tp_snd_queuelen c) then Some (refused s pcb c, ERR_MEM) else Some (s, ERR_OK).
Proof.
  intros Ec Hn. unfold tcp_write_checks. rewrite Ec. cbn [mbind option_bind]. fold (can_send c). destruct (can_send c); cbn [negb]; [| reflexivity].
  rewrite (proj2 (Z.eqb_neq n 0)) by lia. unfold memerr, upd. rewrite Ec. reflexivity.
Qed.

(** The error of [tcp_write] when something was allocated. *)
Lemma failed_spec s pcb c ps L m L0 m0 h pos xs : pcb_at s pcb = Some c -> 0 <= tp_local_port c < 65536 /\ 0 <= tp_remote_port c < 65536 ->
  psys (i_p s) L0 -> segs_ok L0 m0 -> held c (i_p s) L0 m0 ps L m h pos xs ->
  exists ps', write_memerr custom_free (run s ps m) pcb 0 h = Some (run (refused s pcb c) ps' m0, ERR_MEM) /\ unchanged (i_p s) L0 ps'.
Proof.
  intros Ec Cp S0 So0 Hh. unfold write_memerr. rewrite (memerr_run s pcb c ps m Ec). cbn [mbind option_bind Z.eqb negb].
  destruct (queue_given_back custom_free (refused s pcb c) c (i_p s) L0 m0 ps L m h pos xs Cp S0 So0 Hh) as (ps' & -> & Un). exists ps'. auto.
Qed.
Lemma failed_chain_spec s pcb c ps L m L0 m0 h pos xs ps1 p b k d off over2 : pcb_at s pcb = Some c -> 0 <= tp_local_port c < 65536 /\ 0 <= tp_remote_port c < 65536 ->
  psys (i_p s) L0 -> segs_ok L0 m0 -> packet (i_p s) L0 ps1 p b k d off over2 -> held c ps1 (<[p := k]> L0) m0 ps L m h pos xs ->
  exists ps', write_memerr custom_free (run s ps m) pcb p h = Some (run (refused s pcb c) ps' m0, ERR_MEM) /\ unchanged (i_p s) L0 ps'.
Proof.
  intros Ec Cp S0 So0 Pk Hh. unfold write_memerr. rewrite (memerr_run s pcb c ps m Ec). cbn [mbind option_bind].
  rewrite (proj2 (Z.eqb_neq p 0)) by apply Pk. cbn [negb].
  destruct (held_drop custom_free (refused s pcb c) c _ _ _ _ _ _ _ _ _ _ _ _ _ _ _ _ Pk Hh) as (ps3 & -> & H3). cbn [mbind option_bind].
  destruct (queue_given_back custom_free (refused s pcb c) c _ _ _ _ _ _ _ _ _ Cp S0 So0 H3) as (ps' & -> & Un). exists ps'. auto.
Qed.

(** What [tcp_write] is called with: the data is in a live region. *)
Record can_queue s L (pcb : Z) (c : tcp_pcb) (us : list Z) (r j arg n api : Z) : Prop := {
  cq_sys : psys (i_p s) L;
  cq_segs : segs_ok L (tv_segs (tcp_of s));
  cq_pcb : pcb_at s pcb = Some c;
  cq_ports : 0 <= tp_local_port c < 65536 /\ 0 <= tp_remote_port c < 65536;
  cq_size : 0 <= seg_size c <= TCP_MSS;
  cq_qlen : 0 <= tp_snd_queuelen c;
  cq_buf : tp_snd_buf c < 65536;
  cq_unsent : path (sg_next <$> tv_segs (tcp_of s)) (tp_unsent c) us;
  cq_source : L !! r = Some j /\ r <= arg /\ arg + n <= r + j;
  cq_arg : arg <> 0;
  cq_len : 0 < n < 65536;
  cq_copy : has api TCP_WRITE_FLAG_COPY = true }.

(** The end of the queue of unsent segments: there is none, or the last one is [a] with
    the data [d] in the pbufs [K]. *)
Inductive queue_end s L (c : tcp_pcb) (r : Z) : list Z -> list Z -> Z -> list Z -> Prop :=
| end_empty : queue_end s L c r [] [] 0 []
| end_tail us a g l d : at_tail s c L (seg_size c) r a g l d -> chain_len l + TCP_MSS < 65536 -> queue_end s L c r (us ++ [a]) l.*1 a d.

(** The same afterwards. *)
Definition end_holds ps L m (us : list Z) (d : list Z) : Prop :=
  (us = [] /\ d = []) \/ exists us0 a g l over, us = us0 ++ [a] /\ tail_ok ps L m a g l over d.

(** The data was queued: [k] bytes of it at the end of the last segment, the rest in the
    new segments [xs]. *)
Record written s L (c : tcp_pcb) (us K : list Z) (a : Z) (d data : list Z) (n api : Z) ps' L' m' (c' : tcp_pcb) (xs : list nseg) (k : nat) : Prop := {
  wr_sys : psys ps' L';
  wr_segs : segs_ok L' m';
  wr_unsent : path (sg_next <$> m') (tp_unsent c') (us ++ (n_seg <$> xs));
  wr_end : end_holds ps' L' m' us (d ++ take k data);
  wr_new : enqueued c ps' L' m' (Z.of_nat k) xs (psh api);
  wr_cut : segmented (Z.to_nat (seg_size c)) (drop k data) (n_data <$> xs);
  wr_pcb : exists h o q, c' = (c |> set_tp_unsent h |> set_tp_unsent_oversize o |> set_tp_snd_lbb (u32 (tp_snd_lbb c + n))
    |> set_tp_snd_buf (tp_snd_buf c - n) |> set_tp_snd_queuelen q) /\
    tp_snd_queuelen c + Z.of_nat (length xs) <= q <= Z.min TCP_SND_QUEUELEN (tp_snd_queuelen c + Z.of_nat (length xs) + 1);
  wr_others : others K a (i_p s) L (tv_segs (tcp_of s)) ps' L' m' }.

(** What [tcp_write] does: it refuses the data, or it queues all of it. *)
Inductive write_result s L (pcb : Z) (c : tcp_pcb) (us K : list Z) (a : Z) (d data : list Z) (n api : Z) : option (istate W X U * Z) -> Prop :=
| write_not_open : can_send c = false -> write_result s L pcb c us K a d data n api (Some (s, ERR_CONN))
| write_no_room : can_send c = true -> tp_snd_buf c < n -> write_result s L pcb c us K a d data n api (Some (put_pcb s pcb (memerr_pcb c), ERR_MEM))
| write_no_memory ps' : can_send c = true -> n <= tp_snd_buf c -> unchanged (i_p s) L ps' ->
    write_result s L pcb c us K a d data n api (Some (run (refused s pcb c) ps' (tv_segs (tcp_of s)), ERR_MEM))
| write_queued ps' L' m' c' xs k : can_send c = true -> n <= tp_snd_buf c -> tp_snd_queuelen c < TCP_SND_QUEUELEN ->
    written s L c us K a d data n api ps' L' m' c' xs k ->
    write_result s L pcb c us K a d data n api (Some (run (put_pcb s pcb c') ps' m', ERR_OK)).

(** The third phase from the start. *)
Lemma loop_start s pcb c arg n api ps1 L1 m1 r j seg0 pos ql ov : pcb_at s pcb = Some c -> 0 <= tp_local_port c < 65536 /\ 0 <= tp_remote_port c < 65536 ->
  0 <= n < 65536 -> 0 <= seg_size c <= TCP_MSS -> has api TCP_WRITE_FLAG_COPY = true -> L1 !! r = Some j /\ r <= arg /\ arg + n <= r + j ->
  psys ps1 L1 -> segs_ok L1 m1 -> 0 <= pos <= n -> 0 <= ql <= TCP_SND_QUEUELEN ->
  exists ps L m q xs o, mjoin (while write_fuel (write_body stale custom_free pcb arg n api (seg_size c) (tp_snd_lbb c)) (run s ps1 m1, mkQueue seg0 0 0 pos ql ov)) =
      Some (run s ps m, wq_queue q, o) /\
    held c ps1 L1 m1 ps L m (wq_queue q) pos xs /\ wq_seg q = List.last (n_seg <$> xs) seg0 /\ wq_queuelen q = ql + Z.of_nat (length xs) /\
    wq_queuelen q <= TCP_SND_QUEUELEN /\
    ((o = None /\ pos < n) \/ (o = Some q /\ segmented (Z.to_nat (seg_size c)) (bytes (mem_of ps1) (arg + pos) (Z.to_nat (n - pos))) (n_data <$> xs))).
Proof.
  intros Ec Cp Hn Hs Copy Src S1 So1 Hp Hq. unfold TCP_MSS in Hs.
  destruct (loop_spec stale custom_free stale_ok s pcb c Ec Cp arg n api (seg_size c) Hn ltac:(lia) Copy ps1 L1 m1 r j Src seg0 pos ql ov
    write_fuel ps1 L1 m1 (mkQueue seg0 0 0 pos ql ov) []) as (ps & L & m & q & xs & o & -> & [Hh _ Hl _ Hk _] & Hm & R);
    [| exact So1 | exact Hp | exact Hq | unfold write_fuel; cbn [wq_queuelen]; lia |].
  - split; cbn; try reflexivity; try lia; [apply held_nil; assumption].
  - exists ps, L, m, q, xs, o. split; [reflexivity|]. do 4 (split; [assumption|]). destruct R as [[-> R] | (-> & _ & _ & R)]; [left | right]; auto.
Qed.

Lemma write_passed s L pcb c us r j arg n api : can_queue s L pcb c us r j arg n api -> can_send c = true -> n <= tp_snd_buf c -> tp_snd_queuelen c < TCP_SND_QUEUELEN ->
  tcp_write stale custom_free s pcb arg n api =
    ('(s, r) ← write_extend stale custom_free s pcb c arg n api (seg_size c);
     match r with
     | None => write_memerr custom_free s pcb 0 0
     | Some t =>
         '(s, queue, q) ← mjoin (while write_fuel (write_body stale custom_free pcb arg n api (seg_size c) (tp_snd_lbb c))
           (s, mkQueue (wt_seg t) 0 0 (wt_pos t) (wt_queuelen t) (wt_oversize t)));
         match q with
         | None => write_memerr custom_free s pcb (wt_concat t) queue
         | Some q => write_commit s pcb arg n api t q
         end
     end).
Proof.
  intros Q Cs Hb Hq. unfold tcp_write. rewrite (checks_spec s pcb c n (cq_pcb _ _ _ _ _ _ _ _ _ _ Q) (proj1 (cq_len _ _ _ _ _ _ _ _ _ _ Q))).
  rewrite (cq_pcb _ _ _ _ _ _ _ _ _ _ Q), Cs. cbn [mbind option_bind negb]. rewrite (proj2 (Z.eqb_neq arg 0)) by exact (cq_arg _ _ _ _ _ _ _ _ _ _ Q).
  rewrite (proj2 (Z.ltb_ge _ _)) by exact Hb. assert (queue_full (tp_snd_queuelen c) = false) as ->; [| reflexivity].
  unfold queue_full. change TCP_SNDQUEUELEN_OVERFLOW with 65532. change TCP_SND_QUEUELEN with 32 in *. rewrite (proj2 (Z.leb_gt _ _)), (proj2 (Z.ltb_ge _ _)) by lia. reflexivity.
Qed.

Lemma committed_fields c n q : 0 <= n <= tp_snd_buf c -> tp_snd_buf c < 65536 -> committed c n q =
  (c |> set_tp_unsent (tp_unsent c) |> set_tp_unsent_oversize (wq_oversize q) |> set_tp_snd_lbb (u32 (tp_snd_lbb c + n))
     |> set_tp_snd_buf (tp_snd_buf c - n) |> set_tp_snd_queuelen (wq_queuelen q)).
Proof. intros H1 H2. unfold committed. rewrite u16_id by lia. rewrite set_unsent_id. reflexivity. Qed.

(** The state when the last segment was looked at: [D] is in the pbuf that is to be chained. *)
Record extended s L (c : tcp_pcb) (arg n a : Z) (g : tcp_seg) l (d : list Z) ps1 L1 m1 (g1 : tcp_seg) (p over2 : Z) (D : list Z) : Prop := {
  ex_sys : psys ps1 L1;
  ex_segs : segs_ok L1 m1;
  ex_seg : m1 = <[a := g1]> (tv_segs (tcp_of s)) /\ sg_next g1 = sg_next g;
  ex_tail : tail_ok ps1 L1 m1 a g1 l (tp_unsent_oversize c) d;
  ex_others : others l.*1 a (i_p s) L (tv_segs (tcp_of s)) ps1 L1 m1;
  ex_keep : preserves (mem_of (i_p s)) (mem_of ps1) L;
  ex_chain : to_chain ps1 L1 l [] p over2 D;
  ex_fresh : p <> 0 -> L !! p = None;
  ex_data : D = bytes (mem_of (i_p s)) (arg + used c n) (length D);
  ex_len : Z.of_nat (length D) <= space c n (seg_size c) g /\ used c n + Z.of_nat (length D) <= n }.

Lemma tail_left ps L m a g l over d o : tail_ok ps L m a g l over d -> tail_ok ps L (<[a := set_sg_oversize_left o g]> m) a (set_sg_oversize_left o g) l over d.
Proof. intros [Sg Ch Le Ow Hh Sp]. split; try assumption. apply lookup_insert_eq. Qed.

Lemma extended_none s L pcb c us r j arg n api a g l d : can_queue s L pcb c us r j arg n api -> at_tail s c L (seg_size c) r a g l d ->
  extended s L c arg n a g l d (i_p s) L (tv_segs (tcp_of s)) g 0 0 [].
Proof.
  intros Q T. pose proof (at_ok _ _ _ _ _ _ _ _ _ T) as Tk. pose proof (cq_len _ _ _ _ _ _ _ _ _ _ Q) as Hn.
  destruct (tail_nonneg s c L n (seg_size c) r ltac:(lia) a g l d T) as (H1 & H2 & H3 & H4).
  split; try apply Q; cbn [length]; try reflexivity; try lia; try assumption.
  - rewrite insert_id by apply Tk. auto.
  - split; auto.
  - apply preserves_refl.
  - left. auto.
Qed.

Lemma extended_chain s L pcb c us r j arg n api a g l d ps1 p b k over2 : can_queue s L pcb c us r j arg n api -> at_tail s c L (seg_size c) r a g l d ->
  let w := Z.min (space c n (seg_size c) g) (n - used c n) in 0 < w -> packet (i_p s) L ps1 p b k (bytes (mem_of (i_p s)) (arg + used c n) (Z.to_nat w)) 0 over2 ->
  extended s L c arg n a g l d ps1 (<[p := k]> L) (<[a := set_sg_oversize_left (tp_unsent_oversize c + over2) g]> (tv_segs (tcp_of s)))
    (set_sg_oversize_left (tp_unsent_oversize c + over2) g) p over2 (bytes (mem_of (i_p s)) (arg + used c n) (Z.to_nat w)).
Proof.
  intros Q T w Hw Pk. pose proof (at_ok _ _ _ _ _ _ _ _ _ T) as Tk. pose proof Pk as [Np [F1 F2] Pb Ps Sy Rm Pl Po D Kp].
  assert (Nl : p ∉ l.*1) by (intros I; destruct (tail_live _ _ _ _ _ _ _ _ p (cq_sys _ _ _ _ _ _ _ _ _ _ Q) Tk I) as [i Hi]; congruence).
  split; rewrite ?bytes_length; try assumption; try reflexivity; try (unfold w in *; lia).
  - destruct (cq_segs _ _ _ _ _ _ _ _ _ _ Q a g (tl_seg _ _ _ _ _ _ _ _ Tk)) as (N & P & I).
    apply segs_ok_insert; [apply segs_ok_grow, Q | exact N | exact P |]. rewrite lookup_insert_ne; [exact I|]. intros ->. destruct I. congruence.
  - split; reflexivity.
  - apply tail_left, (tail_kept custom_free (i_p s) L (tv_segs (tcp_of s)) _ _ _ L a g l _ d (cq_sys _ _ _ _ _ _ _ _ _ _ Q) Tk (tl_seg _ _ _ _ _ _ _ _ Tk)); [| exact Kp].
    intros y I. assert (y <> p) by congruence. rewrite Ps, !lookup_insert_ne by congruence. auto.
  - exact (packet_others _ _ _ _ _ _ _ _ _ _ _ _ _ Pk).
  - right. split; [exact Np|]. exists b, k. rewrite !bytes_length in *. rewrite Ps, lookup_insert_eq. rewrite lookup_insert_eq.
    do 3 (split; [auto|]). split; [lia | split; [lia | split; [lia | split; [exact D | split; [exact Nl | apply not_elem_of_nil]]]]].
  - intros _. exact F1.
Qed.

(** The pbuf that is to be chained is not touched while the segments are made. *)
Lemma to_chain_held c ps0 L0 m0 ps L m h pos xs l p over2 D : held c ps0 L0 m0 ps L m h pos xs -> to_chain ps0 L0 l [] p over2 D -> to_chain ps L l xs p over2 D.
Proof.
  intros Hh [?|(Np & bp & k & Ep & Gp & Hk & H0 & H1 & Ho & Db & Ni & _)]; [left; assumption | right]. split; [exact Np|]. exists bp, k.
  destruct (held_apart _ _ _ _ _ _ _ _ _ _ p Hh (mk_is_Some _ _ Hk)) as [A1 A2]. rewrite (hd_store _ _ _ _ _ _ _ _ _ _ Hh p A1).
  rewrite (hd_live _ _ _ _ _ _ _ _ _ _ Hh) by (rewrite elem_of_app; tauto). do 6 (split; [assumption|]). split; [| auto].
  rewrite (bytes_kept L0 _ _ _ _ p k (hd_keep _ _ _ _ _ _ _ _ _ _ Hh) Hk) by lia. exact Db.
Qed.

(** The bytes in the last segment and those in new ones. *)
Lemma data_split (x : memory) arg n u (D : list Z) : 0 <= u -> u + Z.of_nat (length D) <= n -> D = bytes x (arg + u) (length D) ->
  bytes x arg (Z.to_nat u) ++ D = take (Z.to_nat (u + Z.of_nat (length D))) (bytes x arg (Z.to_nat n)).
Proof.
  intros Hu Hl E. rewrite take_bytes by lia. rewrite E at 1. replace (Z.to_nat (u + Z.of_nat (length D))) with (Z.to_nat u + length D)%nat by lia.
  rewrite bytes_app, Z2Nat.id by exact Hu. reflexivity.
Qed.

Lemma finish_tail s L pcb c us r j arg n api a g l d ps1 L1 m1 g1 p over2 D seg0 over1 ql ps2 L2 m2 q xs : can_queue s L pcb c (us ++ [a]) r j arg n api ->
  can_send c = true -> n <= tp_snd_buf c -> tp_snd_queuelen c < TCP_SND_QUEUELEN -> at_tail s c L (seg_size c) r a g l d -> chain_len l + TCP_MSS < 65536 ->
  extended s L c arg n a g l d ps1 L1 m1 g1 p over2 D -> let pos := used c n + Z.of_nat (length D) in held c ps1 L1 m1 ps2 L2 m2 (wq_queue q) pos xs ->
  wq_seg q = List.last (n_seg <$> xs) seg0 -> seg0 = a \/ seg0 = 0 -> wq_queuelen q = ql + Z.of_nat (length xs) -> wq_queuelen q <= TCP_SND_QUEUELEN ->
  tp_snd_queuelen c <= ql <= tp_snd_queuelen c + 1 -> segmented (Z.to_nat (seg_size c)) (bytes (mem_of ps1) (arg + pos) (Z.to_nat (n - pos))) (n_data <$> xs) ->
  write_result s L pcb c (us ++ [a]) l.*1 a d (bytes (mem_of (i_p s)) arg (Z.to_nat n)) n api
    (write_commit (run s ps2 m2) pcb arg n api (mkTail a seg0 (used c n) over1 p pos ql) q).
Proof.
  intros Q Cs Hb Hql T Hc [Sy So [Em Nx] Tk Ot Kp Ch Fp Ed Hl] pos Hh Es H0 Eq Hq Hql' Sg. pose proof Q as [S0 So0 Ec Cp Hs _ Hbuf Pu (Hr & Hr1 & Hr2) _ Hn _].
  destruct (tail_nonneg s c L n (seg_size c) r ltac:(lia) a g l d T) as (B1 & B2 & B3 & B4). pose proof (optlen_nonneg g) as Hopt.
  assert (Pu1 : path (sg_next <$> m1) (tp_unsent c) (us ++ [a])).
  { rewrite Em, (nexts_same _ a g g1 (tl_seg _ _ _ _ _ _ _ _ (at_ok _ _ _ _ _ _ _ _ _ T)) Nx). exact Pu. }
  destruct (held_path _ _ _ _ _ _ _ _ _ _ _ _ So Hh Pu1) as [Pu2 Dj]. pose proof (ready_held _ _ _ _ _ _ _ _ _ _ _ _ _ _ _ Sy So Tk Hh) as Rd.
  pose proof (others_trans _ _ _ _ _ _ _ _ _ _ _ Ot (held_others l.*1 a _ _ _ _ _ _ _ _ _ _ So Hh)) as Ot2.
  destruct (commit_spec s pcb c (i_p s) L (tv_segs (tcp_of s)) ps2 L2 m2 a g1 l _ d q xs us arg n api (used c n) r j seg0 over1 p over2 D pos ql Ec Rd Ot2 Pu2 Dj)
    as (ps' & m' & g' & l' & over' & -> & S' & So' & T' & P' & En' & Ot'); try assumption; try lia.
  { unfold space in *. lia. }
  { exact (ot_live _ _ _ _ _ _ _ _ Ot2 _ _ Hr). }
  { apply T. }
  { exact (to_chain_held _ _ _ _ _ _ _ _ _ _ _ _ _ _ Hh Ch). }
  { intros x I. destruct (held_new _ _ _ _ _ _ _ _ _ _ x Hh I) as [X1 X2]. split; [exact X1|].
    destruct (L !! n_p x) as [i|] eqn:E; [| reflexivity]. rewrite (ot_live _ _ _ _ _ _ _ _ Ot _ _ E) in X2. discriminate. }
  { intros ->. destruct (path_elem _ _ _ _ Pu (proj2 (elem_of_app us [0] 0) (or_intror (proj2 (list_elem_of_singleton 0 0) eq_refl)))) as [N _]. auto. }
  rewrite committed_fields by lia. apply (write_queued _ _ _ _ _ _ _ _ _ _ _ ps' L2 m' _ xs (Z.to_nat pos)); try assumption.
  assert (Hp : 0 <= pos <= n) by (unfold pos; lia). split; try assumption.
  - right. exists us, a, g', l', over'. split; [reflexivity|]. unfold pos. rewrite <- data_split by (assumption || lia).
    replace (bytes (mem_of (i_p s)) arg (Z.to_nat (used c n))) with (bytes (mem_of ps2) arg (Z.to_nat (used c n))); [exact T'|].
    apply bytes_ext. intros z Hz. apply (ot_mem _ _ _ _ _ _ _ _ Ot2 z r j Hr); [apply T | lia].
  - rewrite Z2Nat.id by lia. exact En'.
  - rewrite drop_bytes, Z2Nat.id by lia. replace (Z.to_nat n - Z.to_nat pos)%nat with (Z.to_nat (n - pos)) by lia.
    rewrite (bytes_kept L _ _ _ _ r j Kp Hr) in Sg by lia. exact Sg.
  - exists (tp_unsent c), (wq_oversize q), (wq_queuelen q). split; [reflexivity | lia].
Qed.

Lemma finish_first s L pcb c r j arg n api ps2 L2 m2 q xs : can_queue s L pcb c [] r j arg n api ->
  can_send c = true -> n <= tp_snd_buf c -> tp_snd_queuelen c < TCP_SND_QUEUELEN -> held c (i_p s) L (tv_segs (tcp_of s)) ps2 L2 m2 (wq_queue q) 0 xs ->
  wq_seg q = List.last (n_seg <$> xs) 0 -> wq_queuelen q = tp_snd_queuelen c + Z.of_nat (length xs) -> wq_queuelen q <= TCP_SND_QUEUELEN ->
  segmented (Z.to_nat (seg_size c)) (bytes (mem_of (i_p s)) arg (Z.to_nat n)) (n_data <$> xs) ->
  write_result s L pcb c [] [] 0 [] (bytes (mem_of (i_p s)) arg (Z.to_nat n)) n api
    (write_commit (run s ps2 m2) pcb arg n api (mkTail 0 0 0 0 0 0 (tp_snd_queuelen c)) q).
Proof.
  intros Q Cs Hb Hql Hh Es Eq Hq Sg. pose proof Q as [S0 So0 Ec Cp Hs _ Hbuf Pu _ _ Hn _].
  destruct (commit_first s pcb c ps2 L2 m2 L (tp_snd_queuelen c) n api arg q xs Ec Hh So0 Es) as (ps' & -> & S' & En' & Ot'). rewrite committed_fields by lia.
  apply (write_queued _ _ _ _ _ _ _ _ _ _ _ ps' L2 m2 _ xs 0%nat); try assumption. split; try assumption.
  - apply Hh.
  - apply Hh.
  - left. auto.
  - exists (wq_queue q), (wq_oversize q), (wq_queuelen q). split; [reflexivity | lia].
Qed.

Lemma refused_same s pcb c : refused s pcb c = run (refused s pcb c) (i_p s) (tv_segs (tcp_of s)).
Proof.
  pose proof (run_start (refused s pcb c)) as E. replace (tv_segs (tcp_of (refused s pcb c))) with (tv_segs (tcp_of s)) in E; [symmetry; exact E|].
  unfold refused, TCP_STATS_INC. rewrite !tcp_of_set_tcp. cbn. rewrite put_pcb_segs. reflexivity.
Qed.

(** Once the checks are passed: the two shapes of the queue. *)
Lemma write_first s L pcb c r j arg n api : can_queue s L pcb c [] r j arg n api -> can_send c = true -> n <= tp_snd_buf c -> tp_snd_queuelen c < TCP_SND_QUEUELEN ->
  write_result s L pcb c [] [] 0 [] (bytes (mem_of (i_p s)) arg (Z.to_nat n)) n api (tcp_write stale custom_free s pcb arg n api).
Proof.
  intros Q Cs Hb Hq. rewrite (write_passed _ _ _ _ _ _ _ _ _ _ Q Cs Hb Hq). pose proof Q as [S0 So0 Ec Cp Hs Hq0 Hbuf Pu Src _ Hn Copy].
  assert (Eu : tp_unsent c = 0) by (apply path_inv in Pu as [[E _] | (_ & ? & ? & E & _)]; [exact E | discriminate E]).
  unfold write_extend. rewrite Eu. cbn [Z.eqb mbind option_bind wt_seg wt_pos wt_queuelen wt_oversize wt_concat].
  pose proof (loop_start s pcb c arg n api (i_p s) L (tv_segs (tcp_of s)) r j 0 0 (tp_snd_queuelen c) 0 Ec Cp ltac:(lia) Hs Copy Src S0 So0 ltac:(lia) ltac:(lia)) as Lp. rewrite run_start in Lp.
  destruct Lp as (ps & L2 & m & q & xs & o & -> & Hh & Es & Eq & Hm & [[-> _] | [-> Sg]]); cbn [mbind option_bind].
  - destruct (failed_spec s pcb c ps L2 m L _ _ _ _ Ec Cp S0 So0 Hh) as (ps' & -> & Un). apply write_no_memory; assumption.
  - rewrite Z.add_0_r, Z.sub_0_r in Sg. exact (finish_first _ _ _ _ _ _ _ _ _ _ _ _ _ _ Q Cs Hb Hq Hh Es Eq Hm Sg).
Qed.

Lemma write_behind s L pcb c us r j arg n api a g l d : can_queue s L pcb c (us ++ [a]) r j arg n api -> can_send c = true -> n <= tp_snd_buf c ->
  tp_snd_queuelen c < TCP_SND_QUEUELEN -> at_tail s c L (seg_size c) r a g l d -> chain_len l + TCP_MSS < 65536 ->
  write_result s L pcb c (us ++ [a]) l.*1 a d (bytes (mem_of (i_p s)) arg (Z.to_nat n)) n api (tcp_write stale custom_free s pcb arg n api).
Proof.
  intros Q Cs Hb Hq T Hc. rewrite (write_passed _ _ _ _ _ _ _ _ _ _ Q Cs Hb Hq). pose proof Q as [S0 So0 Ec Cp Hs Hq0 Hbuf Pu Src Na Hn Copy].
  destruct (tail_nonneg s c L n (seg_size c) r ltac:(lia) a g l d T) as (B1 & B2 & B3 & B4). unfold TCP_MSS in Hs.
  destruct (extend_spec stale custom_free stale_ok s pcb c Ec L arg n api (seg_size c) r j S0 Src ltac:(lia) ltac:(lia) Copy ltac:(lia) us a g l d Pu T)
    as [(ps' & -> & Un) | [(Hu & ps1 & p & b & k & over2 & E & Pk & Ho & Hw) | [_ ->]]]; cbn [mbind option_bind].
  - unfold write_memerr. rewrite (memerr_run s pcb c ps' _ Ec). cbn [mbind option_bind Z.eqb negb]. apply write_no_memory; assumption.
  - cbv zeta in E. rewrite E. clear E. cbn [mbind option_bind wt_seg wt_pos wt_queuelen wt_oversize wt_concat].
    pose proof (extended_chain s L pcb c (us ++ [a]) r j arg n api a g l d ps1 p b k over2 Q T Hw Pk) as Ex. set (w := Z.min _ _) in *. cbv zeta in Ex.
    assert (Ew : used c n + w = used c n + Z.of_nat (length (bytes (mem_of (i_p s)) (arg + used c n) (Z.to_nat w)))) by (rewrite bytes_length; lia).
    destruct (loop_start s pcb c arg n api ps1 (<[p := k]> L) (<[a := set_sg_oversize_left (tp_unsent_oversize c + over2) g]> (tv_segs (tcp_of s))) r j a (used c n + w) (tp_snd_queuelen c + 1) over2 Ec Cp
      ltac:(lia) Hs Copy) as (ps & L2 & m & q & xs & o & -> & Hh & Es & Eq & Hm & [[-> Hp] | [-> Sg]]); cbn [mbind option_bind];
      [split; [exact (ot_live _ _ _ _ _ _ _ _ (ex_others _ _ _ _ _ _ _ _ _ _ _ _ _ _ _ _ Ex) _ _ (proj1 Src)) | apply Src] | apply Ex | apply Ex | lia | lia | |].
    + assert (Hz : over2 = 0) by (pose proof (pk_over _ _ _ _ _ _ _ _ _ Pk); unfold w in *; lia).
      rewrite Hz, Z.add_0_r, <- (at_left _ _ _ _ _ _ _ _ _ T) in Hh.
      assert (Eg : set_sg_oversize_left (sg_oversize_left g) g = g) by (destruct g; reflexivity). rewrite Eg, (insert_id (tv_segs (tcp_of s)) a g) in Hh by exact (tl_seg _ _ _ _ _ _ _ _ (at_ok _ _ _ _ _ _ _ _ _ T)).
      destruct (failed_chain_spec s pcb c ps L2 m L _ _ _ _ _ _ _ _ _ _ _ Ec Cp S0 So0 Pk Hh) as (ps' & -> & Un). apply write_no_memory; assumption.
    + rewrite Ew in Hh, Sg |- *.
      exact (finish_tail _ _ _ _ _ _ _ _ _ _ _ _ _ _ _ _ _ _ _ _ _ _ _ _ _ _ _ _ _ Q Cs Hb Hq T Hc Ex Hh Es (or_introl eq_refl) Eq Hm ltac:(lia) Sg).
  - cbn [mbind option_bind wt_seg wt_pos wt_queuelen wt_oversize wt_concat]. pose proof (extended_none _ _ _ _ _ _ _ _ _ _ _ _ _ _ Q T) as Ex.
    set (seg0 := if 0 <? _ then a else 0).
    pose proof (loop_start s pcb c arg n api (i_p s) L (tv_segs (tcp_of s)) r j seg0 (used c n) (tp_snd_queuelen c) (tp_unsent_oversize c - used c n) Ec Cp ltac:(lia) Hs Copy Src S0 So0 ltac:(lia) ltac:(lia)) as Lp. rewrite run_start in Lp.
    destruct Lp as (ps & L2 & m & q & xs & o & -> & Hh & Es & Eq & Hm & [[-> _] | [-> Sg]]); cbn [mbind option_bind].
    + destruct (failed_spec s pcb c ps L2 m L _ _ _ _ Ec Cp S0 So0 Hh) as (ps' & -> & Un). apply write_no_memory; assumption.
    + assert (Eu : used c n = used c n + Z.of_nat (length (@nil Z))) by (cbn; lia). assert (H0 : seg0 = a \/ seg0 = 0) by (unfold seg0; destruct (_ <? _); auto).
      pose proof (finish_tail s L pcb c us r j arg n api a g l d _ _ _ _ _ _ _ seg0 (tp_unsent_oversize c - used c n) (tp_snd_queuelen c) ps L2 m q xs Q Cs Hb Hq T Hc Ex) as F.
      cbv zeta in F. rewrite <- Eu in F. exact (F Hh Es H0 Eq Hm ltac:(lia) Sg).
Qed.

(** C3: [tcp_write] with data to be copied (TCP_WRITE_FLAG_COPY) always returns, and it
    refuses the data or queues all of it.  The call is one with 1 to 65535 bytes that lie
    in a live region, which is none of the pbufs of the last unsent segment, on a control
    block whose ports and send buffer are in the 16-bit range and whose segment size, the
    smaller of mss and half the largest window seen, is at most TCP_MSS.  If there is an
    unsent segment, the last one is in consistent PBUF_RAM pbufs of its own, of fewer than
    65536 - TCP_MSS bytes, its spare room is what
    the control block says, and its length, its options and that room together do not
    exceed the segment size; so that the 16-bit differences do not wrap, which they do when
    the segment size has shrunk below them.  The data is refused with ERR_CONN when the
    connection cannot send, with ERR_MEM when it does not fit into the send buffer, or
    with ERR_MEM on the way, while pbufs and segments for it are made; then everything that
    was allocated on the way was released, and the pbufs, the segments and the allocated
    memory are as before.  Otherwise the last unsent segment has got the first [k] bytes,
    the rest was cut at the segment size into new segments behind it, which have the next
    sequence numbers; the last new one, if there is one, has the PSH flag unless
    TCP_WRITE_FLAG_MORE is given, and the others do not have it; the send buffer has shrunk
    and [snd_lbb] has advanced by the length, the queue is no longer than
    TCP_SND_QUEUELEN, and no other segment or pbuf has changed. *)
Theorem tcp_write_queues s L pcb c us K a d r j arg n api : can_queue s L pcb c us r j arg n api -> queue_end s L c r us K a d ->
  write_result s L pcb c us K a d (bytes (mem_of (i_p s)) arg (Z.to_nat n)) n api (tcp_write stale custom_free s pcb arg n api).
Proof.
  intros Q E. destruct (can_send c) eqn:Cs; [destruct (Z.ltb_spec (tp_snd_buf c) n) as [Lt|Ge]; [| destruct (Z.ltb_spec (tp_snd_queuelen c) TCP_SND_QUEUELEN) as [Lq|Gq]] |].
  2:{ destruct E as [|us a g l d T Hc]; [exact (write_first _ _ _ _ _ _ _ _ _ Q Cs Ge Lq) | exact (write_behind _ _ _ _ _ _ _ _ _ _ _ _ _ _ Q Cs Ge Lq T Hc)]. }
  all: unfold tcp_write; rewrite (checks_spec s pcb c n (cq_pcb _ _ _ _ _ _ _ _ _ _ Q) (proj1 (cq_len _ _ _ _ _ _ _ _ _ _ Q))), (cq_pcb _ _ _ _ _ _ _ _ _ _ Q), Cs;
    cbn [mbind option_bind negb]; rewrite (proj2 (Z.eqb_neq arg 0)) by exact (cq_arg _ _ _ _ _ _ _ _ _ _ Q).
  - rewrite (proj2 (Z.ltb_lt _ _)) by exact Lt. apply write_no_room; assumption.
  - rewrite (proj2 (Z.ltb_ge _ _)) by exact Ge. unfold queue_full. rewrite (proj2 (Z.leb_le _ _)) by exact Gq. cbn [orb mbind option_bind].
    rewrite refused_same. apply (write_no_memory _ _ _ _ _ _ _ _ _ _ _ (i_p s)); [exact Cs | exact Ge | split; [reflexivity | split; [apply Q | apply preserves_refl]]].
  - apply write_not_open. exact Cs.
Qed.

End stream.

(** ** A connection that has nothing to send, and a pbuf with 100 bytes *)

#[local] Existing Instance World.world_system.
#[local] Existing Instance World.sample_laws.
#[local] Existing Instance TcpSample.tcp_itself.

Definition idle_pcb : tcp_pcb := Tcp.Tcp.new_pcb 64 6510 0 255 |> set_tp_state ESTABLISHED |> set_tp_local_port 7 |> set_tp_remote_port 1000 |> set_tp_snd_wnd_max 2000.
Definition idle : TcpSample.state :=
  set_tcp (set_i_p TcpSample.initial (sample_alloc sample_empty PBUF_TRANSPORT 100 PBUF_RAM)) (set_tv_pcbs {[ 64 := idle_pcb ]} TcpSample.no_pcbs).

Lemma tcp_write_queues_witness : exists L o, write_result idle L 64 idle_pcb [] [] 0 [] (replicate 100 0) 100 TCP_WRITE_FLAG_COPY o /\
  o = tcp_write no_stale no_custom idle 64 4180 100 TCP_WRITE_FLAG_COPY /\ snd <$> o = Some ERR_OK.
Proof.
  destruct (sample_alloc_ok sample_empty ∅ PBUF_TRANSPORT 100 PBUF_RAM sample_empty_ok ltac:(lia) ltac:(intros _; unfold ram_length_ok; lia)) as [L HL].
  exists L, (tcp_write no_stale no_custom idle 64 4180 100 TCP_WRITE_FLAG_COPY). split; [| split; [reflexivity | vm_compute; reflexivity]].
  assert (Eb : pst (sample_alloc sample_empty PBUF_TRANSPORT 100 PBUF_RAM) !! 4108 = Some (mkPbuf 0 4180 100 100 PBUF_RAM 0 1)) by (vm_compute; reflexivity).
  pose proof (ps_pbuf _ _ HL 4108 _ Eb) as (_ & _ & _ & _ & k & Hk & _ & Hb). cbn in Hb.
  assert (Ed : bytes (mem_of (i_p idle)) 4180 (Z.to_nat 100) = replicate 100 0) by (vm_compute; reflexivity). rewrite <- Ed.
  apply (tcp_write_queues no_stale no_custom (fun _ => eq_refl) idle L 64 idle_pcb [] [] 0 [] 4108 k 4180 100 TCP_WRITE_FLAG_COPY).
  - assert (Es : tv_segs (tcp_of idle) = ∅) by reflexivity.
    split; [exact HL | | reflexivity | cbn; lia | split; vm_compute; discriminate | cbn; lia | reflexivity | | split; [exact Hk | lia] | lia | lia | reflexivity].
    + intros a g Ea. rewrite Es, lookup_empty in Ea. discriminate Ea.
    + constructor.
  - constructor.
Defined.

End TcpStream.
