(* ===== verification/TcpOoseq.v ===== *)
(** Releasing segments that arrived out of order when the pool of packet buffers is empty:
    [pbuf_free_ooseq] of core/pbuf.c, which works on TCP's connections, and the macro
    PBUF_CHECK_FREE_OOSEQ of lwip/pbuf.h. *)

From stdpp Require Import base tactics numbers list gmap.
From Stdlib Require Import ZArith Lia.
From S2P Require Import Prelude Linked PbufDefs NetifDefs PbufMem Pbuf IpDefs TcpDefs TcpSeg Tcp Pres TcpFrame.

Local Open Scope Z_scope.

Module TcpOoseq.
Import Linked Pbuf IpDefs TcpDefs TcpSeg Tcp TcpFrame.

Section ooseq.
Context {W X U : Type} `{MemSystem W} `{HasTcp U}.
Context (custom_free : pstate W -> Z -> option (pstate W)).
Implicit Type s : istate W X U.

(** The first active connection with segments out of order. *)
Definition ooseq_pcb s : option Z :=
  for_list tp_next (tv_pcbs (tcp_of s)) (fun (_ : unit) pcb b => if negb (tp_ooseq b =? 0) then inr pcb else inl tt) (fun _ => 0) tt (tv_active (tcp_of s)).

Definition pbuf_free_ooseq s : option (istate W X U) :=
  let s := set_i_p s (set_pending (i_p s) 0) in
  pcb ← ooseq_pcb s;
  if pcb =? 0 then Some s
  else
    b ← pcb_at s pcb;
    s ← tcp_segs_free custom_free s (tp_ooseq b);
    upd s pcb (set_tp_ooseq 0).

Definition PBUF_CHECK_FREE_OOSEQ s : option (istate W X U) :=
  if negb (ooseq_pending (i_p s) =? 0) then pbuf_free_ooseq s else Some s.

(** The connection is the first of the list that has such segments. *)
Lemma ooseq_pcb_spec s l : linked tp_next (tv_pcbs (tcp_of s)) (tv_active (tcp_of s)) l ->
  (ooseq_pcb s = Some 0 /\ Forall (fun x => tp_ooseq x.2 = 0) l) \/
  exists l1 pcb b l2, ooseq_pcb s = Some pcb /\ l = l1 ++ (pcb, b) :: l2 /\ tp_ooseq b <> 0 /\ Forall (fun x => tp_ooseq x.2 = 0) l1.
Proof.
  intros Li. unfold ooseq_pcb. rewrite (for_list_spec _ _ _ _ _ _ _ Li). clear Li. induction l as [|[p b] l IH]; cbn; [left; auto|].
  destruct (Z.eqb_spec (tp_ooseq b) 0) as [E|N]; cbn.
  - destruct IH as [[-> F] | (l1 & pcb & b' & l2 & -> & -> & N & F)]; [left; auto | right]. exists ((p, b) :: l1), pcb, b', l2. auto.
  - right. exists [], p, b, l. auto.
Qed.

(** One connection loses these segments; all others, the lists and the skeleton of this
    one stay as they are. *)
Lemma pbuf_free_ooseq_one s l s' : linked tp_next (tv_pcbs (tcp_of s)) (tv_active (tcp_of s)) l -> pbuf_free_ooseq s = Some s' ->
  (s' = set_i_p s (set_pending (i_p s) 0) /\ Forall (fun x => tp_ooseq x.2 = 0) l) \/
  exists l1 pcb b l2 b', l = l1 ++ (pcb, b) :: l2 /\ tp_ooseq b <> 0 /\ Forall (fun x => tp_ooseq x.2 = 0) l1 /\
    skel pcb (tcp_of s') = skel pcb (tcp_of s) /\ pcb_at s' pcb = Some b' /\ tp_ooseq b' = 0.
Proof.
  intros Li. unfold pbuf_free_ooseq. set (s1 := set_i_p s _). destruct (ooseq_pcb_spec s1 l Li) as [[-> F] | (l1 & pcb & b & l2 & -> & El & Nb & F)]; cbn [mbind option_bind].
  - cbn [Z.eqb]. intros [= <-]. left. auto.
  - assert (Ep : pcb_at s1 pcb = Some b /\ pcb <> 0) by (apply (linked_lookup _ _ _ _ _ _ Li); rewrite El; apply elem_of_app; right; apply elem_of_cons; auto). destruct Ep as [Ep Np].
    rewrite (proj2 (Z.eqb_neq pcb 0)) by exact Np. rewrite Ep. cbn [mbind option_bind]. intros E. right. exists l1, pcb, b, l2.
    assert (K : sk pcb (skel pcb (tcp_of s)) s1) by reflexivity. destruct (tcp_segs_free custom_free s1 (tp_ooseq b)) as [s2|] eqn:E2; [| discriminate]. cbn [mbind option_bind] in E.
    pose proof (segs_free_sk custom_free pcb _ s1 (tp_ooseq b) K s2 E2) as K2. cbn in K2. pose proof (sk_upd _ s2 pcb (set_tp_ooseq 0) (fun _ => eq_refl) K2 s' E) as K3.
    unfold upd in E. destruct (pcb_at s2 pcb) as [b2|]; [| discriminate]. cbn [mbind option_bind] in E. injection E as <-. exists (set_tp_ooseq 0 b2).
    split; [exact El | split; [exact Nb | split; [exact F | split; [exact K3 | split; [| reflexivity]]]]].
    unfold pcb_at, put_pcb. rewrite tcp_of_set_tcp. apply lookup_insert_eq.
Qed.

End ooseq.
End TcpOoseq.
