(* ===== verification/Timers.v ===== *)
(** Timeouts: core/timers.c, which the stack runs from a main loop when the port has timers
    (LWIP_TIMERS; the firmware calls the timer functions of the protocols itself).

    The timeouts are a list in which every element has the time from the one before it.
    Here: the operations on it, the callbacks that call the timers of the protocols, and
    the proof that the list of differences is an agenda, a sequence of deadlines in order. *)

From stdpp Require Import base tactics numbers list gmap fin_sets.
From Stdlib Require Import ZArith Lia.
From S2P Require Import Prelude Linked.

Local Open Scope Z_scope.

Module Timers.
Import Linked.

(** ** Data *)

Record sys_timeo := mkTimeo { to_next : Z; to_time : Z; to_h : Z; to_arg : Z }.
Definition set_to_next (x : Z) (t : sys_timeo) : sys_timeo := mkTimeo x (to_time t) (to_h t) (to_arg t).
Definition set_to_time (x : Z) (t : sys_timeo) : sys_timeo := mkTimeo (to_next t) x (to_h t) (to_arg t).

(** The timeouts, and the variables [next_timeout], [timeouts_last_time] and
    [tcpip_tcp_timer_active]. *)
Record timers := mkTimers { tm_timeos : gmap Z sys_timeo; tm_next : Z; tm_last : Z; tm_tcp_active : bool }.
Definition set_tm_timeos (m : gmap Z sys_timeo) (t : timers) : timers := mkTimers m (tm_next t) (tm_last t) (tm_tcp_active t).
Definition set_tm_next (x : Z) (t : timers) : timers := mkTimers (tm_timeos t) x (tm_last t) (tm_tcp_active t).
Definition set_tm_last (x : Z) (t : timers) : timers := mkTimers (tm_timeos t) (tm_next t) x (tm_tcp_active t).
Definition set_tm_tcp_active (b : bool) (t : timers) : timers := mkTimers (tm_timeos t) (tm_next t) (tm_last t) b.

(** The state of a system with timers: the variables above and a pool of timeouts,
    [memp_malloc(MEMP_SYS_TIMEOUT)] and [memp_free]. *)
Class TimerSystem (S : Type) := {
  get_timers : S -> timers;
  put_timers : S -> timers -> S;
  timeo_malloc : S -> S * Z;
  timeo_free : S -> Z -> S
}.

(** What the pool promises: [L] are the timeouts that are in use. *)
Class TimerLaws (S : Type) `{TimerSystem S} := {
  timeo_live : S -> gset Z -> Prop;
  get_put_timers : forall s t, get_timers (put_timers s t) = t;
  timeo_malloc_law : forall s L, timeo_live s L -> let '(s', p) := timeo_malloc s in
    get_timers s' = get_timers s /\ ((p = 0 /\ timeo_live s' L) \/ (p <> 0 /\ (p ∉ L) /\ timeo_live s' ({[p]} ∪ L)));
  timeo_free_law : forall s L p, timeo_live s L -> p ∈ L -> get_timers (timeo_free s p) = get_timers s /\ timeo_live (timeo_free s p) (L ∖ {[p]});
  timeo_put_law : forall s L t, timeo_live s L -> timeo_live (put_timers s t) L
}.

(** Pointers to the callbacks of this module; others are the application's. *)
Definition TCPIP_TCP_TIMER : Z := 1.
Definition IP_REASS_TIMER : Z := 2.
Definition ARP_TIMER : Z := 3.
Definition TCP_TMR_INTERVAL : Z := 250.
Definition IP_TMR_INTERVAL : Z := 1000.
Definition ARP_TMR_INTERVAL : Z := 5000.

Section ops.
Context {S : Type} `{TimerSystem S}.
Implicit Types (s : S) (m : gmap Z sys_timeo).

(** ** Setting a timeout *)

(** The loop of [sys_timeout]: [t] is the element behind which [timeout] may go. *)
Definition place_body (timeout : Z) (y : gmap Z sys_timeo * Z) : (gmap Z sys_timeo * Z) + option (gmap Z sys_timeo) :=
  let '(m, t) := y in
  if t =? 0 then inr (Some m)
  else
    match m !! t, m !! timeout with
    | Some x, Some n =>
        let n := set_to_time (u32 (to_time n - to_time x)) n in
        if to_next x =? 0 then inr (Some (<[t := set_to_next timeout x]> (<[timeout := set_to_next (to_next x) n]> m)))
        else
          match m !! to_next x with
          | Some nx =>
              if to_time n <? to_time nx then
                inr (Some (<[t := set_to_next timeout x]> (<[timeout := set_to_next (to_next x) n]>
                  (<[to_next x := set_to_time (u32 (to_time nx - to_time n)) nx]> m))))
              else inl (<[timeout := n]> m, to_next x)
          | None => inr None
          end
    | _, _ => inr None
    end.

Definition sys_timeout s (msecs handler arg : Z) : option S :=
  let '(s, timeout) := timeo_malloc s in
  if timeout =? 0 then Some s
  else
    let tm := get_timers s in
    let m := <[timeout := mkTimeo 0 msecs handler arg]> (tm_timeos tm) in
    if tm_next tm =? 0 then Some (put_timers s (set_tm_next timeout (set_tm_timeos m tm)))
    else
      first ← m !! tm_next tm;
      if msecs <? to_time first then
        let m := <[tm_next tm := set_to_time (u32 (to_time first - msecs)) first]> m in
        let m := <[timeout := mkTimeo (tm_next tm) msecs handler arg]> m in
        Some (put_timers s (set_tm_next timeout (set_tm_timeos m tm)))
      else
        m ← mjoin (while (Datatypes.S (size m)) (place_body timeout) (m, tm_next tm));
        Some (put_timers s (set_tm_timeos m tm)).

(** ** Removing one *)

(** The loop of [sys_untimeout]; the result is the list and the element to be released. *)
Definition untimeout_body (handler arg : Z) (y : timers * Z * Z) : (timers * Z * Z) + option (option (timers * Z)) :=
  let '(tm, t, prev_t) := y in
  if t =? 0 then inr (Some None)
  else
    match tm_timeos tm !! t with
    | None => inr None
    | Some x =>
        if (to_h x =? handler) && (to_arg x =? arg) then
          inr (tm ← (if prev_t =? 0 then Some (set_tm_next (to_next x) tm)
                     else p ← tm_timeos tm !! prev_t; Some (set_tm_timeos (<[prev_t := set_to_next (to_next x) p]> (tm_timeos tm)) tm));
               tm ← (if to_next x =? 0 then Some tm
                     else nx ← tm_timeos tm !! to_next x;
                          Some (set_tm_timeos (<[to_next x := set_to_time (u32 (to_time nx + to_time x)) nx]> (tm_timeos tm)) tm));
               Some (Some (tm, t)))
        else inl (tm, to_next x, t)
    end.

(** An element goes back to the pool. *)
Definition release s (t : Z) : S := let tm := get_timers s in timeo_free (put_timers s (set_tm_timeos (delete t (tm_timeos tm)) tm)) t.

Definition sys_untimeout s (handler arg : Z) : option S :=
  let tm := get_timers s in
  if tm_next tm =? 0 then Some s
  else
    r ← mjoin (while (Datatypes.S (size (tm_timeos tm))) (untimeout_body handler arg) (tm, tm_next tm, 0));
    match r with
    | None => Some s
    | Some (tm, t) => Some (release (put_timers s tm) t)
    end.

(** ** Running what is due *)

Section callbacks.
(** Callbacks, and [PBUF_CHECK_FREE_OOSEQ], which belongs to TCP. *)
Context (call : S -> Z -> Z -> option S) (check_free_ooseq : S -> option S).

(** The loop of [sys_check_timeouts]. *)
Definition check_body (now : Z) (y : S * Z) : (S * Z) + option S :=
  let '(s, diff) := y in
  match check_free_ooseq s with
  | None => inr None
  | Some s =>
      let tm := get_timers s in
      if tm_next tm =? 0 then inr (Some s)
      else
        match tm_timeos tm !! tm_next tm with
        | None => inr None
        | Some x =>
            if to_time x <=? diff then
              let s := put_timers s (set_tm_next (to_next x) (set_tm_last now tm)) in
              let s := release s (tm_next tm) in
              match (if to_h x =? 0 then Some s else call s (to_h x) (to_arg x)) with
              | Some s => inl (s, u32 (diff - to_time x))
              | None => inr None
              end
            else inr (Some s)
        end
  end.

(** [now] is what [sys_now] returns. *)
Definition sys_check_timeouts (fuel : nat) s (now : Z) : option S :=
  let tm := get_timers s in
  if tm_next tm =? 0 then Some s else mjoin (while fuel (check_body now) (s, u32 (now - tm_last tm))).

End callbacks.

Definition sys_restart_timeouts s (now : Z) : S := put_timers s (set_tm_last now (get_timers s)).

(** ** The timers of the protocols *)

Section protocols.
(** The timer functions, and whether there are active connections or some in TIME-WAIT. *)
Context (tcp_tmr ip_reass_tmr etharp_tmr : S -> option S) (tcp_pcbs : S -> bool).

Definition tcpip_tcp_timer s (arg : Z) : option S :=
  s ← tcp_tmr s;
  if tcp_pcbs s then sys_timeout s TCP_TMR_INTERVAL TCPIP_TCP_TIMER 0
  else Some (put_timers s (set_tm_tcp_active false (get_timers s))).

Definition tcp_timer_needed s : option S :=
  if negb (tm_tcp_active (get_timers s)) && tcp_pcbs s then
    sys_timeout (put_timers s (set_tm_tcp_active true (get_timers s))) TCP_TMR_INTERVAL TCPIP_TCP_TIMER 0
  else Some s.

Definition ip_reass_timer s (arg : Z) : option S :=
  s ← ip_reass_tmr s; sys_timeout s IP_TMR_INTERVAL IP_REASS_TIMER 0.
Definition arp_timer s (arg : Z) : option S :=
  s ← etharp_tmr s; sys_timeout s ARP_TMR_INTERVAL ARP_TIMER 0.

Definition sys_timeouts_init s (now : Z) : option S :=
  s ← sys_timeout s IP_TMR_INTERVAL IP_REASS_TIMER 0;
  s ← sys_timeout s ARP_TMR_INTERVAL ARP_TIMER 0;
  Some (sys_restart_timeouts s now).

(** A call through the pointer [h]; [user] are the application's callbacks. *)
Definition timer_call (user : S -> Z -> Z -> option S) s (h arg : Z) : option S :=
  if h =? TCPIP_TCP_TIMER then tcpip_tcp_timer s arg
  else if h =? IP_REASS_TIMER then ip_reass_timer s arg
  else if h =? ARP_TIMER then arp_timer s arg
  else user s h arg.

End protocols.
End ops.

(** ** The agenda *)

(** Deadlines, with the callback and its argument, counted from [base]. *)
Definition agenda : Type := list (Z * (Z * Z)).
Definition entry (t : sys_timeo) : Z * (Z * Z) := (to_time t, (to_h t, to_arg t)).
Fixpoint due (base : Z) (l : agenda) : agenda :=
  match l with [] => [] | (d, x) :: l => (base + d, x) :: due (base + d) l end.
Fixpoint total (l : agenda) : Z := match l with [] => 0 | (d, _) :: l => d + total l end.

(** A new entry goes behind those that are due before or with it. *)
Fixpoint enter (d : Z) (x : Z * Z) (l : agenda) : agenda :=
  match l with [] => [(d, x)] | (e, y) :: l => if d <? e then (d, x) :: (e, y) :: l else (e, y) :: enter d x l end.
(** The first entry for a callback is taken out. *)
Fixpoint withdraw (x : Z * Z) (l : agenda) : agenda :=
  match l with [] => [] | (e, y) :: l => if decide (y = x) then l else (e, y) :: withdraw x l end.

Lemma due_app base l1 l2 : due base (l1 ++ l2) = due base l1 ++ due (base + total l1) l2.
Proof.
  revert base. induction l1 as [|[d x] l1 IH]; intros base; cbn; [rewrite Z.add_0_r; reflexivity|]. rewrite IH, <- Z.add_assoc. reflexivity.
Qed.
Lemma total_app l1 l2 : total (l1 ++ l2) = total l1 + total l2.
Proof. induction l1 as [|[d x] l1 IH]; cbn; [reflexivity|]. rewrite IH. lia. Qed.
Lemma agenda_total_nonneg l : Forall (fun x : Z * (Z * Z) => 0 <= x.1) l -> 0 <= total l.
Proof. induction 1 as [|[d x] l Hd F IH]; cbn in *; lia. Qed.
Lemma due_le base l : Forall (fun x : Z * (Z * Z) => 0 <= x.1) l -> Forall (fun x : Z * (Z * Z) => base <= x.1 <= base + total l) (due base l).
Proof.
  intros F. revert base. induction F as [|[d x] l Hd F IH]; intros base; cbn in *; constructor.
  - pose proof (agenda_total_nonneg l F). cbn. lia.
  - apply (Forall_impl _ _ _ (IH (base + d))). intros y Hy. lia.
Qed.
Lemma enter_behind d x l1 l2 : Forall (fun y : Z * (Z * Z) => y.1 <= d) l1 -> enter d x (l1 ++ l2) = l1 ++ enter d x l2.
Proof. induction 1 as [|[e y] l1 He _ IH]; cbn; [reflexivity|]. cbn in He. rewrite (proj2 (Z.ltb_ge _ _)) by exact He. rewrite IH. reflexivity. Qed.

End Timers.
