(* ===== verification/Agenda.v ===== *)
(** The timeouts (core/timers.c) as an agenda: setting and removing a timeout are entering
    and withdrawing a deadline, what is due is called in order, and the loop that calls it
    ends when callbacks start themselves again. *)

From stdpp Require Import base tactics numbers list gmap fin_sets.
From Stdlib Require Import ZArith Lia Sorting.Sorted.
From S2P Require Import Prelude Linked Allocator Memp PbufMem World Timers.

Local Open Scope Z_scope.

Module Agenda.
Import Linked Timers.

(** The differences of a list of timeouts. *)
Definition diffs (l : list (Z * sys_timeo)) : agenda := (fun x => entry x.2) <$> l.
Definition diffs_ok (d : agenda) : Prop := Forall (fun x => 0 <= x.1) d /\ total d < 4294967296.

Lemma diffs_app l1 l2 : diffs (l1 ++ l2) = diffs l1 ++ diffs l2.
Proof. apply fmap_app. Qed.

Lemma diffs_mid l1 t x l2 : diffs_ok (diffs (l1 ++ (t, x) :: l2)) -> Forall (fun x => 0 <= x.1) (diffs l1) /\ Forall (fun x => 0 <= x.1) (diffs l2) /\
  0 <= to_time x /\ 0 <= total (diffs l1) /\ 0 <= total (diffs l2) /\ total (diffs l1) + to_time x + total (diffs l2) < 4294967296.
Proof.
  intros [F T]. rewrite diffs_app in F, T. rewrite total_app in T. apply Forall_app in F as [F1 F2]. apply Forall_cons in F2 as [Fx F2].
  pose proof (agenda_total_nonneg _ F1). pose proof (agenda_total_nonneg _ F2). cbn in Fx, T. unfold diffs in *. repeat split; try assumption; lia.
Qed.

(** ** Linking a new element *)

Section lists.
Implicit Types (m : gmap Z sys_timeo) (l : list (Z * sys_timeo)).

Lemma linked_put m m2 h l1 t x l2 p x' a l2' : linked to_next m h (l1 ++ (t, x) :: l2) -> p <> 0 -> p ∉ (l1 ++ (t, x) :: l2).*1 ->
  to_next x' = p -> linked to_next m2 (to_next a) l2' -> l2'.*1 = l2.*1 -> (forall q, q ∈ l1.*1 -> m2 !! q = m !! q) ->
  linked to_next (<[t := x']> (<[p := a]> m2)) h (l1 ++ (t, x') :: (p, a) :: l2').
Proof.
  revert h. induction l1 as [|[y b] l1 IH]; intros h Li Np Ni Ex La E2 Eq; pose proof (linked_NoDup _ _ _ _ Li) as Nd;
    apply linked_inv in Li as [[_ ?] | (Nh & ? & ? & [= -> -> <-] & Hh & Li)]; try discriminate; cbn in Nd, Ni |- *; apply NoDup_cons in Nd as [Nh' Nd];
    apply not_elem_of_cons in Ni as [Ny Ni].
  - constructor; [exact Nh | apply lookup_insert_eq | rewrite Ex]. constructor; [exact Np | rewrite lookup_insert_ne, lookup_insert_eq by congruence; reflexivity|].
    apply linked_insert_ne; [apply linked_insert_ne; [exact La|] |]; rewrite E2; assumption.
  - constructor; [exact Nh | | apply IH; try assumption; intros q Hq; apply Eq, elem_of_cons; auto].
    rewrite lookup_insert_ne, lookup_insert_ne; [rewrite Eq by (apply elem_of_cons; auto); exact Hh | congruence |].
    intros ->. apply Nh'. rewrite fmap_app. apply elem_of_app. right. apply elem_of_cons. auto.
Qed.

(** What a new entry between two others does to the deadlines. *)
Lemma due_put d1 e n c d2 d2' : Forall (fun x => 0 <= x.1) d1 -> 0 <= e.1 -> 0 <= n ->
  (d2 = [] /\ d2' = []) \/ (exists f y r, d2 = (f, y) :: r /\ n < f /\ d2' = (f - n, y) :: r) ->
  due 0 (d1 ++ e :: (n, c) :: d2') = enter (total d1 + e.1 + n) c (due 0 (d1 ++ e :: d2)).
Proof.
  intros F He Hn D. rewrite !due_app. destruct e as [e y]. cbn [due fst] in *. rewrite Z.add_0_l. rewrite enter_behind.
  - f_equal. cbn. rewrite (proj2 (Z.ltb_ge _ _)) by lia. f_equal. destruct D as [[-> ->] | (f & z & r & -> & Hf & ->)]; cbn; [reflexivity|].
    rewrite (proj2 (Z.ltb_lt _ _)) by lia. replace (total d1 + e + n + (f - n)) with (total d1 + e + f) by lia. reflexivity.
  - apply (Forall_impl _ _ _ (due_le 0 d1 F)). intros [g w]. cbn. lia.
Qed.

Lemma linked_at m h l1 t x l2 : linked to_next m h (l1 ++ (t, x) :: l2) -> m !! t = Some x /\ t <> 0 /\ linked to_next m (to_next x) l2.
Proof.
  intros Li. destruct (linked_lookup _ _ _ _ t x Li) as [E N]; [apply elem_of_app; right; apply elem_of_cons; auto|]. split; [exact E | split; [exact N|]].
  destruct (linked_suffix _ _ _ _ _ Li) as [h' Ls]. apply linked_inv in Ls as [[_ ?] | (_ & ? & ? & [= -> <- <-] & _ & Ls)]; [discriminate | exact Ls].
Qed.

(** [l2'] is [l2] with the time of its first element reduced by [n]. *)
Definition sooner (n : Z) m l2 m2 l2' : Prop :=
  (l2 = [] /\ l2' = [] /\ m2 = m) \/
  exists y ny r, l2 = (y, ny) :: r /\ n < to_time ny /\ l2' = (y, set_to_time (to_time ny - n) ny) :: r /\ m2 = <[y := set_to_time (to_time ny - n) ny]> m.

(** The state when the place is found. *)
Record entered m h l m' l' (p msecs hd arg : Z) : Prop := {
  en_list : linked to_next m' h l';
  en_dom : dom m' = {[p]} ∪ dom m;
  en_addr : forall q, q ∈ l'.*1 <-> q = p \/ q ∈ l.*1;
  en_diffs : diffs_ok (diffs l');
  en_due : due 0 (diffs l') = enter msecs (hd, arg) (due 0 (diffs l)) }.

Lemma entered_behind p hd arg m h l1 t x l2 n m2 l2' : p <> 0 -> linked to_next m h (l1 ++ (t, x) :: l2) -> p ∉ (l1 ++ (t, x) :: l2).*1 ->
  diffs_ok (diffs (l1 ++ (t, x) :: l2)) -> 0 <= n -> total (diffs l1) + to_time x + n < 4294967296 -> sooner n m l2 m2 l2' ->
  let l := l1 ++ (t, x) :: l2 in let a := mkTimeo (to_next x) n hd arg in
  entered m h l (<[t := set_to_next p x]> (<[p := a]> m2)) (l1 ++ (t, set_to_next p x) :: (p, a) :: l2') p (total (diffs l1) + to_time x + n) hd arg.
Proof.
  intros Np Li Ni [Fo To] Hn Hs D l a. destruct (linked_at _ _ _ _ _ _ Li) as (Ex & Nt & Ls). pose proof (linked_NoDup _ _ _ _ Li) as Nd.
  assert (E2 : l2'.*1 = l2.*1) by (destruct D as [(-> & -> & _) | (y & ny & r & -> & _ & -> & _)]; reflexivity).
  assert (Lt : linked to_next m2 (to_next a) l2').
  { destruct D as [(-> & -> & ->) | (y & ny & r & -> & _ & -> & ->)]; [exact Ls|]. cbn [a to_next]. pose proof (linked_NoDup _ _ _ _ Ls) as Nr.
    apply linked_inv in Ls as [[_ ?] | (Ny & ? & ? & [= Ey <- <-] & _ & Ls)]; [discriminate|]. rewrite <- Ey in *. apply NoDup_cons in Nr as [Nr _].
    constructor; [exact Ny | apply lookup_insert_eq | apply linked_insert_ne; assumption]. }
  assert (Dm : dom m2 = dom m).
  { destruct D as [(_ & _ & ->) | (y & ny & r & -> & _ & _ & ->)]; [reflexivity|]. apply dom_insert_lookup_L.
    apply linked_inv in Ls as [[_ ?] | (_ & ? & ? & [= -> <- <-] & Ey & _)]; [discriminate | eauto]. }
  unfold l in *. destruct (diffs_mid _ _ _ _ (conj Fo To)) as (F1 & F3 & Fx & T1 & T3 & Tm).
  assert (Forall (fun x => 0 <= x.1) (diffs l2') /\ total (diffs l1) + to_time x + n + total (diffs l2') < 4294967296) as [F3' To'].
  { destruct D as [(-> & -> & _) | (y & ny & r & -> & Hy & -> & _)]; cbn in *; [split; [constructor | lia]|]. apply Forall_cons in F3 as [Fy F3]. split; [constructor; [cbn; lia | exact F3] | lia]. }
  split.
  - apply (linked_put m m2 h l1 t x l2); try assumption; [reflexivity|]. intros q Hq. destruct D as [(_ & _ & ->) | (y & ny & r & -> & _ & _ & ->)]; [reflexivity|].
    rewrite fmap_app in Nd. apply NoDup_app in Nd as (_ & Nd & _). apply lookup_insert_ne. intros <-. apply (Nd y Hq). cbn. rewrite !elem_of_cons. auto.
  - assert (It : t ∈ dom m) by (apply elem_of_dom; eauto). rewrite !dom_insert_L, Dm. apply set_eq. intros q. rewrite !elem_of_union, !elem_of_singleton. intuition congruence.
  - intros q. rewrite !fmap_app. cbn. rewrite E2, !elem_of_app, !elem_of_cons. tauto.
  - rewrite diffs_app. cbn. split; [apply Forall_app; split; [exact F1|]; repeat (constructor; [cbn; lia|]); exact F3' | rewrite total_app; cbn; unfold diffs in *; lia].
  - rewrite !diffs_app. apply (due_put (diffs l1) (entry x)); [exact F1 | exact Fx | exact Hn |].
    destruct D as [(-> & -> & _) | (y & ny & r & -> & Hy & -> & _)]; [left; auto | right]. exists (to_time ny), (to_h ny, to_arg ny), (diffs r). auto.
Qed.

(** The loop finds it. *)
Lemma place_loop p hd arg h msecs : p <> 0 -> msecs < 4294967296 -> forall l2 fuel m l1 t x tau, linked to_next m h (l1 ++ (t, x) :: l2) -> p ∉ (l1 ++ (t, x) :: l2).*1 ->
  m !! p = Some (mkTimeo 0 tau hd arg) -> diffs_ok (diffs (l1 ++ (t, x) :: l2)) -> to_time x <= tau -> total (diffs l1) + tau = msecs -> (length l2 < fuel)%nat ->
  exists m' l', while fuel (place_body p) (m, t) = Some (Some m') /\ entered m h (l1 ++ (t, x) :: l2) m' l' p msecs hd arg.
Proof.
  intros Np Hm. induction l2 as [|[y ny] l2 IH]; intros [|fuel] m l1 t x tau Li Ni Ep Ok Hx Ht Hf; cbn in Hf; try lia; rewrite while_S; unfold place_body;
    destruct (linked_at _ _ _ _ _ _ Li) as (Ex & Nt & Ls); rewrite (proj2 (Z.eqb_neq t 0)) by exact Nt; rewrite Ex, Ep; cbn [to_time set_to_time];
    destruct (diffs_mid _ _ _ _ Ok) as (F1 & F3 & Fx & T1 & T3 & Tm); rewrite (u32_id (tau - _)) by lia; assert (Hn : 0 <= tau - to_time x) by lia;
    replace msecs with (total (diffs l1) + to_time x + (tau - to_time x)) by lia.
  - apply linked_inv in Ls as [[E _] | (_ & ? & ? & ? & _)]; [| discriminate]. rewrite E. cbn [Z.eqb]. eexists _, _. split; [reflexivity|].
    pose proof (entered_behind p hd arg m h l1 t x [] (tau - to_time x) m [] Np Li Ni Ok Hn ltac:(lia) (or_introl (conj eq_refl (conj eq_refl eq_refl)))) as En.
    cbv zeta in En. rewrite E in En. exact En.
  - apply linked_inv in Ls as [[_ ?] | (Ny & ? & ? & [= Ey <- <-] & Hy & Ls)]; [discriminate|]. rewrite <- Ey in *. rewrite (proj2 (Z.eqb_neq y 0)) by exact Ny. rewrite Hy.
    destruct (Z.ltb_spec (tau - to_time x) (to_time ny)) as [Lt|Ge].
    + assert (Ok' : diffs_ok (diffs ((l1 ++ [(t, x)]) ++ (y, ny) :: l2))) by (rewrite <- app_assoc; exact Ok). destruct (diffs_mid _ _ _ _ Ok') as (_ & _ & Fy & S1 & S2 & S3). rewrite u32_id by lia. eexists _, _. split; [reflexivity|].
      pose proof (entered_behind p hd arg m h l1 t x ((y, ny) :: l2) (tau - to_time x) _ _ Np Li Ni Ok Hn ltac:(lia)
        (or_intror (ex_intro _ y (ex_intro _ ny (ex_intro _ l2 (conj eq_refl (conj Lt (conj eq_refl eq_refl)))))))) as En.
      cbv zeta in En. rewrite <- Ey in En. exact En.
    + destruct (IH fuel (<[p := mkTimeo 0 (tau - to_time x) hd arg]> m) (l1 ++ [(t, x)]) y ny (tau - to_time x)) as (m' & l' & E & En);
        rewrite <- ?app_assoc; cbn [app]; [| exact Ni | apply lookup_insert_eq | exact Ok | lia | rewrite diffs_app, total_app; cbn; lia | lia |].
      * apply linked_insert_ne; [rewrite Ey in Li |- *; exact Li | exact Ni].
      * exists m', l'. split; [exact E|]. rewrite <- app_assoc in En. cbn [app] in En. destruct En as [A1 A2 A3 A4 A5]. split; try assumption; [| ].
        -- rewrite A2, dom_insert_L. apply set_eq. intros q. rewrite !elem_of_union, !elem_of_singleton. tauto.
        -- replace (total (diffs l1) + to_time x + (tau - to_time x)) with msecs by lia. exact A5.
Qed.

(** ** Unlinking one *)

Lemma withdraw_behind c (l1 l2 : agenda) : Forall (fun y : Z * (Z * Z) => y.2 <> c) l1 -> withdraw c (l1 ++ l2) = l1 ++ withdraw c l2.
Proof. induction 1 as [|[e y] l1 He _ IH]; cbn; [reflexivity|]. rewrite decide_False by exact He. rewrite IH. reflexivity. Qed.
Lemma due_callbacks base d : (due base d).*2 = d.*2.
Proof. revert base. induction d as [|[e y] d IH]; intros base; cbn; [reflexivity|]. rewrite IH. reflexivity. Qed.

(** [d2'] is [d2] with the time of its first entry raised by [e]. *)
Definition raised (e : Z) (d2 d2' : agenda) : Prop := (d2 = [] /\ d2' = []) \/ exists f y r, d2 = (f, y) :: r /\ d2' = (f + e, y) :: r.

Lemma due_cut d1 e c d2 d2' : Forall (fun y => y.2 <> c) d1 -> raised e d2 d2' -> due 0 (d1 ++ d2') = withdraw c (due 0 (d1 ++ (e, c) :: d2)).
Proof.
  intros F D. rewrite !due_app, withdraw_behind.
  - f_equal. cbn. rewrite decide_True by reflexivity. destruct D as [[-> ->] | (f & y & r & -> & ->)]; cbn; [reflexivity|].
    replace (0 + total d1 + (f + e)) with (0 + total d1 + e + f) by lia. reflexivity.
  - apply Forall_forall. intros y Hy. assert (Hy2 : y.2 ∈ (due 0 d1).*2) by (apply list_elem_of_fmap_2, Hy). rewrite due_callbacks in Hy2.
    apply list_elem_of_fmap in Hy2 as (z & Ez & Hz). rewrite Ez. exact (proj1 (Forall_forall _ _) F z Hz).
Qed.

(** The list without [(t, x)]. *)
Record withdrawn (tm : timers) l1 (t : Z) x l2 (tm' : timers) l' : Prop := {
  wd_list : linked to_next (tm_timeos tm') (tm_next tm') l';
  wd_dom : dom (tm_timeos tm') = dom (tm_timeos tm);
  wd_addr : l'.*1 = l1.*1 ++ l2.*1;
  wd_diffs : diffs_ok (diffs l');
  wd_due : Forall (fun y => (to_h y.2, to_arg y.2) <> (to_h x, to_arg x)) l1 ->
    due 0 (diffs l') = withdraw (to_h x, to_arg x) (due 0 (diffs (l1 ++ (t, x) :: l2)));
  wd_rest : tm_last tm' = tm_last tm /\ tm_tcp_active tm' = tm_tcp_active tm }.

(** The first time behind it is raised. *)
Lemma raise_spec m h l1 x l2 : linked to_next m h (l1 ++ l2) -> linked to_next m (to_next x) l2 -> diffs_ok (diffs (l1 ++ l2)) -> 0 <= to_time x -> total (diffs (l1 ++ l2)) + to_time x < 4294967296 ->
  exists m' l2', (if to_next x =? 0 then Some m else nx ← m !! to_next x; Some (<[to_next x := set_to_time (u32 (to_time nx + to_time x)) nx]> m)) = Some m' /\
    linked to_next m' h (l1 ++ l2') /\ dom m' = dom m /\ l2'.*1 = l2.*1 /\ diffs_ok (diffs (l1 ++ l2')) /\ raised (to_time x) (diffs l2) (diffs l2').
Proof.
  intros Li Ls Ok Hx Ht. apply linked_inv in Ls as [[-> ->] | (Nx & ny & r & -> & Ey & Ls)].
  - exists m, []. cbn [Z.eqb]. split; [reflexivity|]. repeat (split; [assumption || reflexivity|]). left. auto.
  - rewrite (proj2 (Z.eqb_neq _ 0)) by exact Nx. rewrite Ey. cbn [mbind option_bind]. destruct (diffs_mid _ _ _ _ Ok) as (F1 & F2 & Fy & T1 & T2 & Tm).
    rewrite diffs_app, total_app in Ht. cbn in Ht. fold (diffs r) in Ht. rewrite u32_id by lia. set (y := set_to_time _ ny).
    pose proof (linked_NoDup _ _ _ _ Li) as Nd. rewrite fmap_app in Nd. apply NoDup_app in Nd as (_ & N1 & N2). cbn in N1, N2. apply NoDup_cons in N2 as [N2 _].
    exists (<[to_next x := y]> m), ((to_next x, y) :: r). split; [reflexivity|]. split; [| split; [| split; [reflexivity | split]]].
    + replace (l1 ++ (to_next x, y) :: r) with (list_set (to_next x) y (l1 ++ (to_next x, ny) :: r)); [apply (linked_set _ _ _ _ _ _ ny Li Ey); reflexivity|].
      rewrite list_set_app, list_set_here by exact N2. rewrite list_set_notin; [reflexivity|]. intros I. apply (N1 _ I), elem_of_cons. auto.
    + apply dom_insert_lookup_L. eauto.
    + rewrite diffs_app. split; [apply Forall_app; split; [exact F1 | constructor; [cbn; lia | exact F2]] | rewrite total_app; cbn; fold (diffs r); lia].
    + right. exists (to_time ny), (to_h ny, to_arg ny), (diffs r). auto.
Qed.

(** The element that was found is unlinked. *)
Lemma unlinked_spec tm l1 t x l2 prev : linked to_next (tm_timeos tm) (tm_next tm) (l1 ++ (t, x) :: l2) -> diffs_ok (diffs (l1 ++ (t, x) :: l2)) ->
  (prev = 0 /\ l1 = []) \/ (prev <> 0 /\ exists l0 b, l1 = l0 ++ [(prev, b)]) ->
  exists tm' l', (tm ← (if prev =? 0 then Some (set_tm_next (to_next x) tm)
      else p ← tm_timeos tm !! prev; Some (set_tm_timeos (<[prev := set_to_next (to_next x) p]> (tm_timeos tm)) tm));
    tm ← (if to_next x =? 0 then Some tm
      else nx ← tm_timeos tm !! to_next x; Some (set_tm_timeos (<[to_next x := set_to_time (u32 (to_time nx + to_time x)) nx]> (tm_timeos tm)) tm));
    Some (Some (tm, t))) = Some (Some (tm', t)) /\ withdrawn tm l1 t x l2 tm' l'.
Proof.
  intros Li Ok Hp. destruct (linked_at _ _ _ _ _ _ Li) as (Ex & Nt & Ls). destruct (diffs_mid _ _ _ _ Ok) as (F1 & F2 & Fx & T1 & T2 & Tm).
  assert (H1 : exists tm1 l1', (if prev =? 0 then Some (set_tm_next (to_next x) tm)
      else p ← tm_timeos tm !! prev; Some (set_tm_timeos (<[prev := set_to_next (to_next x) p]> (tm_timeos tm)) tm)) = Some tm1 /\
    linked to_next (tm_timeos tm1) (tm_next tm1) (l1' ++ l2) /\ linked to_next (tm_timeos tm1) (to_next x) l2 /\ dom (tm_timeos tm1) = dom (tm_timeos tm) /\
    l1'.*1 = l1.*1 /\ diffs l1' = diffs l1 /\ tm_last tm1 = tm_last tm /\ tm_tcp_active tm1 = tm_tcp_active tm).
  { destruct Hp as [[-> ->] | (Np & l0 & b & ->)]; [exists (set_tm_next (to_next x) tm), []; auto 9|]. rewrite (proj2 (Z.eqb_neq prev 0)) by exact Np.
    rewrite <- app_assoc in Li. cbn [app] in Li. destruct (linked_at _ _ _ _ _ _ Li) as (Ep & _ & _). rewrite Ep. cbn [mbind option_bind].
    eexists _, (l0 ++ [(prev, set_to_next (to_next x) b)]). split; [reflexivity|]. rewrite <- app_assoc. cbn.
    split; [exact (linked_cut _ _ _ _ _ _ _ _ _ (set_to_next (to_next x) b) Li eq_refl)|]. split; [| split; [apply dom_insert_lookup_L; eauto | split; [rewrite !fmap_app; reflexivity | rewrite !diffs_app; auto]]].
    apply linked_insert_ne; [exact Ls|]. pose proof (linked_NoDup _ _ _ _ Li) as Nd. rewrite fmap_app in Nd. apply NoDup_app in Nd as (_ & _ & Nd). cbn in Nd.
    apply NoDup_cons in Nd as [Nd _]. intros I. apply Nd, elem_of_cons. auto. }
  destruct H1 as (tm1 & l1' & -> & Li1 & Ls1 & Dm1 & A1 & D1 & R1 & R2). cbn [mbind option_bind].
  assert (Ok1 : diffs_ok (diffs (l1' ++ l2))) by (rewrite diffs_app, D1; split; [apply Forall_app; auto | rewrite total_app; lia]).
  destruct (raise_spec _ _ _ x _ Li1 Ls1 Ok1 Fx ltac:(rewrite diffs_app, D1, total_app; lia)) as (m' & l2' & Em & Li2 & Dm2 & A2 & Ok2 & Ra).
  exists (set_tm_timeos m' tm1), (l1' ++ l2'). split.
  - revert Em. destruct (to_next x =? 0); [intros [= <-]; destruct tm1; reflexivity|]. destruct (tm_timeos tm1 !! to_next x); [| discriminate]. cbn. intros [= <-]. reflexivity.
  - split; [exact Li2 | cbn; congruence | rewrite fmap_app; congruence | exact Ok2 | | auto].
    intros F. rewrite !diffs_app, D1. apply due_cut; [| exact Ra]. unfold diffs. apply Forall_fmap. exact F.
Qed.

Lemma untimeout_loop hd arg tm : forall l2 fuel l1 t prev, linked to_next (tm_timeos tm) (tm_next tm) (l1 ++ l2) -> linked to_next (tm_timeos tm) t l2 -> diffs_ok (diffs (l1 ++ l2)) ->
  (prev = 0 /\ l1 = []) \/ (prev <> 0 /\ exists l0 b, l1 = l0 ++ [(prev, b)]) -> Forall (fun y => (to_h y.2, to_arg y.2) <> (hd, arg)) l1 -> (length l2 < fuel)%nat ->
  (while fuel (untimeout_body hd arg) (tm, t, prev) = Some (Some None) /\ Forall (fun y => (to_h y.2, to_arg y.2) <> (hd, arg)) (l1 ++ l2)) \/
  exists l1 x q l2 tm' l', while fuel (untimeout_body hd arg) (tm, t, prev) = Some (Some (Some (tm', q))) /\ (to_h x, to_arg x) = (hd, arg) /\
    Forall (fun y => (to_h y.2, to_arg y.2) <> (hd, arg)) l1 /\ linked to_next (tm_timeos tm) (tm_next tm) (l1 ++ (q, x) :: l2) /\ withdrawn tm l1 q x l2 tm' l'.
Proof.
  induction l2 as [|[q x] l2 IH]; intros [|fuel] l1 t prev Li Ls Ok Hp F Hf; cbn in Hf; try lia; rewrite while_S; unfold untimeout_body.
  - apply linked_inv in Ls as [[-> _] | (_ & ? & ? & ? & _)]; [| discriminate]. left. rewrite app_nil_r. split; [reflexivity | exact F].
  - apply linked_inv in Ls as [[_ ?] | (Nt & ? & ? & [= -> <- <-] & Ex & Ls)]; [discriminate|]. rewrite (proj2 (Z.eqb_neq t 0)) by exact Nt. rewrite Ex.
    destruct ((to_h x =? hd) && (to_arg x =? arg)) eqn:Em.
    + right. apply andb_true_iff in Em as [E1%Z.eqb_eq E2%Z.eqb_eq]. destruct (unlinked_spec tm l1 t x l2 prev Li Ok Hp) as (tm' & l' & -> & Wd).
      exists l1, x, t, l2, tm', l'. split; [reflexivity|]. split; [congruence | auto].
    + fold (untimeout_body hd arg). assert (Nx : (to_h x, to_arg x) <> (hd, arg)) by (intros [= E1 E2]; rewrite E1, E2, !Z.eqb_refl in Em; discriminate).
      replace (l1 ++ (t, x) :: l2) with ((l1 ++ [(t, x)]) ++ l2) in * by (rewrite <- app_assoc; reflexivity).
      apply (IH fuel (l1 ++ [(t, x)]) (to_next x) t Li Ls Ok); [right; eauto | apply Forall_app; auto | lia].
Qed.

End lists.

(** ** The operations *)

Section sys.
Context {S : Type} `{TL : TimerLaws S}.
Implicit Types (s : S) (l : list (Z * sys_timeo)).

(** The timeouts of a state are [l], and each is an element of the pool. *)
Record timers_ok s l : Prop := {
  ok_live : timeo_live s (dom (tm_timeos (get_timers s)));
  ok_list : linked to_next (tm_timeos (get_timers s)) (tm_next (get_timers s)) l;
  ok_addr : forall q, q ∈ l.*1 <-> q ∈ dom (tm_timeos (get_timers s));
  ok_diffs : diffs_ok (diffs l) }.

(** The deadlines, counted from [timeouts_last_time]. *)
Definition deadlines l : agenda := due 0 (diffs l).
Definition same_clock s s' : Prop := tm_last (get_timers s') = tm_last (get_timers s) /\ tm_tcp_active (get_timers s') = tm_tcp_active (get_timers s).

Lemma entered_ok s l s1 p m' l' h msecs hd arg : timers_ok s l -> get_timers s1 = get_timers s -> timeo_live s1 ({[p]} ∪ dom (tm_timeos (get_timers s))) ->
  entered (tm_timeos (get_timers s)) h l m' l' p msecs hd arg ->
  timers_ok (put_timers s1 (set_tm_next h (set_tm_timeos m' (get_timers s)))) l' /\ deadlines l' = enter msecs (hd, arg) (deadlines l).
Proof.
  intros [Lv Li Ad Ok] Eg Lv1 [E1 E2 E3 E4 E5]. split; [| exact E5]. split; rewrite ?get_put_timers; cbn; [| exact E1 | | exact E4].
  - rewrite E2. apply timeo_put_law, Lv1.
  - intros q. rewrite E3, E2, Ad, elem_of_union, elem_of_singleton. reflexivity.
Qed.

(** In front of all the others, or alone. *)
Lemma entered_first m h l p msecs hd arg : linked to_next m h l -> p <> 0 -> p ∉ l.*1 -> diffs_ok (diffs l) -> 0 <= msecs < 4294967296 -> h = 0 \/ (exists x, m !! h = Some x /\ msecs < to_time x) ->
  exists m' l', (if h =? 0 then Some (<[p := mkTimeo 0 msecs hd arg]> m)
      else x ← m !! h; Some (<[p := mkTimeo h msecs hd arg]> (<[h := set_to_time (u32 (to_time x - msecs)) x]> (<[p := mkTimeo 0 msecs hd arg]> m)))) = Some m' /\
    entered m p l m' l' p msecs hd arg.
Proof.
  intros Li Np Ni Ok Hm Hh. apply linked_inv in Li as [[-> ->] | (Nh & x & r & -> & Ex & Li)].
  - eexists _, [(p, mkTimeo 0 msecs hd arg)]. split; [reflexivity|]. split.
    + constructor; [exact Np | apply lookup_insert_eq | constructor].
    + apply dom_insert_L.
    + intros q. cbn. rewrite elem_of_cons. reflexivity.
    + split; [repeat constructor; cbn; lia | cbn; lia].
    + cbn. reflexivity.
  - rewrite (proj2 (Z.eqb_neq h 0)) by exact Nh. rewrite Ex. destruct Hh as [?|(x' & E' & Lt)]; [contradiction|]. rewrite Ex in E'. injection E' as <-. cbn [mbind option_bind].
    destruct (diffs_mid [] h x r Ok) as (_ & F2 & Fx & _ & T2 & Tm). cbn in Tm. rewrite u32_id by lia. set (x' := set_to_time _ x). cbn in Ni. apply not_elem_of_cons in Ni as [Nph Ni].
    assert (Nr : h ∉ r.*1) by (assert (L2 : linked to_next m h ((h, x) :: r)) by (constructor; assumption); apply linked_NoDup in L2; cbn in L2; apply NoDup_cons in L2; tauto).
    eexists _, ((p, mkTimeo h msecs hd arg) :: (h, x') :: r). split; [reflexivity|]. split.
    + constructor; [exact Np | apply lookup_insert_eq |]. cbn [to_next]. constructor; [exact Nh | rewrite lookup_insert_ne, lookup_insert_eq by congruence; reflexivity |].
      repeat (apply linked_insert_ne; [| assumption]). exact Li.
    + assert (Ih : h ∈ dom m) by (apply elem_of_dom; eauto). rewrite !dom_insert_L. apply set_eq. intros q. rewrite !elem_of_union, !elem_of_singleton. intuition congruence.
    + intros q. cbn. rewrite !elem_of_cons. tauto.
    + split; [repeat (constructor; [cbn; lia|]); exact F2 | cbn; fold (diffs r); lia].
    + cbn. rewrite (proj2 (Z.ltb_lt _ _)) by lia. fold (diffs r). replace (0 + msecs + (to_time x - msecs)) with (0 + to_time x) by lia. replace (0 + msecs) with msecs by lia. reflexivity.
Qed.

(** Setting a timeout enters its deadline, if the pool has an element for it. *)
Lemma timeout_spec s l msecs hd arg : timers_ok s l -> 0 <= msecs < 4294967296 ->
  exists s', sys_timeout s msecs hd arg = Some s' /\ same_clock s s' /\
    (((timeo_malloc s).2 = 0 /\ timers_ok s' l) \/ ((timeo_malloc s).2 <> 0 /\ exists l', timers_ok s' l' /\ deadlines l' = enter msecs (hd, arg) (deadlines l))).
Proof.
  intros K Hm. pose proof K as [Lv Li Ad Ok]. unfold sys_timeout. pose proof (timeo_malloc_law s _ Lv) as Ml. destruct (timeo_malloc s) as [s1 p]. destruct Ml as [Eg Ml].
  destruct Ml as [[-> Lv1] | (Np & Nl & Lv1)].
  { exists s1. split; [reflexivity|]. split; [unfold same_clock; rewrite Eg; auto | left; split; [reflexivity|]]. split; rewrite ?Eg; assumption. }
  rewrite (proj2 (Z.eqb_neq p 0)) by exact Np. rewrite Eg. set (tm := get_timers s) in *. set (m := tm_timeos tm) in *.
  assert (Ni : p ∉ l.*1) by (rewrite Ad; exact Nl).
  assert (Fi : forall m' l' h, entered m h l m' l' p msecs hd arg -> exists s', Some (put_timers s1 (set_tm_next h (set_tm_timeos m' tm))) = Some s' /\ same_clock s s' /\
    (((s1, p).2 = 0 /\ timers_ok s' l) \/ ((s1, p).2 <> 0 /\ exists l', timers_ok s' l' /\ deadlines l' = enter msecs (hd, arg) (deadlines l)))).
  { intros m' l' h En. eexists. split; [reflexivity|]. split; [unfold same_clock; rewrite get_put_timers; auto|]. right. split; [exact Np|]. exists l'. exact (entered_ok s l s1 p m' l' h msecs hd arg K Eg Lv1 En). }
  assert (Hd : (tm_next tm = 0 \/ exists x, m !! tm_next tm = Some x /\ msecs < to_time x) \/ (tm_next tm <> 0 /\ exists x, m !! tm_next tm = Some x /\ to_time x <= msecs)).
  { destruct (linked_inv _ _ _ _ Li) as [[E0 _] | (Nh & x & r & _ & Ex & _)]; [auto|]. destruct (Z.ltb_spec msecs (to_time x)); eauto 6. }
  destruct Hd as [Hh | (Nh & x & Ex & Ge)].
  - destruct (entered_first m (tm_next tm) l p msecs hd arg Li Np Ni Ok Hm Hh) as (m' & l' & Em & En). destruct (Fi m' l' p En) as (s' & Es & Rs).
    exists s'. split; [| exact Rs]. revert Em. destruct Hh as [-> | (x & Ex & Lt)]; [cbn [Z.eqb]; intros [= ->]; exact Es|].
    destruct (linked_inv _ _ _ _ Li) as [[E0 ->] | (Nh & _)]; [rewrite E0; cbn [Z.eqb]; intros [= ->]; exact Es|].
    rewrite (proj2 (Z.eqb_neq _ 0)) by exact Nh. rewrite lookup_insert_ne by (intros E; apply Nl, elem_of_dom; rewrite E; eauto). rewrite Ex. cbn [mbind option_bind].
    rewrite (proj2 (Z.ltb_lt _ _)) by exact Lt. intros [= ->]. exact Es.
  - apply linked_inv in Li as [[E0 _] | (_ & x' & r & El & Ex' & Li)]; [contradiction|]. rewrite Ex in Ex'. injection Ex' as <-. rewrite (proj2 (Z.eqb_neq _ 0)) by exact Nh.
    assert (Nph : p <> tm_next tm) by (intros E; apply Nl, elem_of_dom; rewrite E; eauto). rewrite lookup_insert_ne, Ex by exact Nph. cbn [mbind option_bind].
    rewrite (proj2 (Z.ltb_ge _ _)) by exact Ge.
    assert (Li0 : linked to_next (<[p := mkTimeo 0 msecs hd arg]> m) (tm_next tm) ([] ++ (tm_next tm, x) :: r)).
    { apply linked_insert_ne; [constructor; assumption | rewrite El in Ni; exact Ni]. }
    destruct (place_loop p hd arg (tm_next tm) msecs Np ltac:(lia) r (Datatypes.S (size (<[p := mkTimeo 0 msecs hd arg]> m))) _ [] (tm_next tm) x msecs Li0) as (m' & l' & -> & En);
      [rewrite El in Ni; exact Ni | apply lookup_insert_eq | rewrite El in Ok; exact Ok | exact Ge | cbn; lia | apply linked_size in Li0; cbn in Li0; lia |].
    cbn [mbind option_bind mjoin option_join]. cbn [app] in En. rewrite <- El in En.
    assert (En' : entered m (tm_next tm) l m' l' p msecs hd arg).
    { destruct En as [A1 A2 A3 A4 A5]. split; try assumption. rewrite A2, dom_insert_L. apply set_eq. intros q. rewrite !elem_of_union, !elem_of_singleton. tauto. }
    destruct (Fi m' l' _ En') as (s' & Es & Rs). exists s'. split; [| exact Rs]. rewrite <- Es. destruct tm; reflexivity.
Qed.

(** An element that is on the list no more is released. *)
Lemma released_spec s s1 l l' t tm' : timers_ok s l -> timeo_live s1 (dom (tm_timeos (get_timers s))) -> linked to_next (tm_timeos tm') (tm_next tm') l' ->
  dom (tm_timeos tm') = dom (tm_timeos (get_timers s)) -> t ∈ l.*1 -> (forall q, q ∈ l'.*1 <-> q <> t /\ q ∈ l.*1) -> diffs_ok (diffs l') ->
  timers_ok (release (put_timers s1 tm') t) l' /\ get_timers (release (put_timers s1 tm') t) = set_tm_timeos (delete t (tm_timeos tm')) tm'.
Proof.
  intros [Lv Li Ad Ok] Lv1 Li' Dm It Ad' Ok'. unfold release. rewrite get_put_timers. set (tm2 := set_tm_timeos _ tm').
  assert (Lv2 : timeo_live (put_timers (put_timers s1 tm') tm2) (dom (tm_timeos tm'))) by (rewrite Dm; apply timeo_put_law, timeo_put_law, Lv1).
  destruct (timeo_free_law _ _ t Lv2) as [E Lv3]; [rewrite Dm; apply Ad, It|]. rewrite get_put_timers in E. split; [| exact E]. split; rewrite ?E; cbn; [| | | exact Ok'].
  - rewrite dom_delete_L. exact Lv3.
  - apply linked_delete_ne; [exact Li'|]. rewrite Ad'. tauto.
  - intros q. rewrite Ad', dom_delete_L, Dm, elem_of_difference, elem_of_singleton, Ad. tauto.
Qed.

(** Removing one withdraws the first deadline of its callback. *)
Lemma withdraw_none c (d : agenda) : Forall (fun y => y.2 <> c) d -> withdraw c d = d.
Proof. induction 1 as [|[e y] d Hy _ IH]; cbn; [reflexivity|]. rewrite decide_False by exact Hy. rewrite IH. reflexivity. Qed.

Lemma untimeout_spec s l hd arg : timers_ok s l ->
  exists s' l', sys_untimeout s hd arg = Some s' /\ same_clock s s' /\ timers_ok s' l' /\ deadlines l' = withdraw (hd, arg) (deadlines l).
Proof.
  intros K. pose proof K as [Lv Li Ad Ok]. unfold sys_untimeout. set (tm := get_timers s) in *.
  destruct (Z.eqb_spec (tm_next tm) 0) as [E0|Ne].
  { exists s, l. split; [reflexivity|]. split; [split; reflexivity|]. split; [exact K|]. rewrite E0 in Li. apply linked_inv in Li as [[_ ->] | [? _]]; [reflexivity | contradiction]. }
  pose proof (linked_size _ _ _ _ Li) as Sz.
  destruct (untimeout_loop hd arg tm l (Datatypes.S (size (tm_timeos tm))) [] (tm_next tm) 0 Li Li Ok) as [[-> F] | (l1 & x & q & l2 & tm' & l' & -> & Ec & F & Li2 & Wd)];
    [left; auto | constructor | lia | |]; cbn [mbind option_bind mjoin option_join].
  - exists s, l. split; [reflexivity|]. split; [split; reflexivity|]. split; [exact K|]. symmetry. apply withdraw_none. apply Forall_forall. intros y Hy.
    assert (Hy2 : y.2 ∈ (deadlines l).*2) by (apply list_elem_of_fmap_2, Hy). unfold deadlines in Hy2. rewrite due_callbacks in Hy2. unfold diffs in Hy2. rewrite <- list_fmap_compose in Hy2.
    apply list_elem_of_fmap in Hy2 as (z & Ez & Hz). rewrite Ez. exact (proj1 (Forall_forall _ _) F z Hz).
  - pose proof (linked_det _ _ _ _ _ Li Li2) as El. destruct Wd as [W1 W2 W3 W4 W5 W6]. pose proof (linked_NoDup _ _ _ _ Li) as Nd. rewrite El, fmap_app in Nd. cbn in Nd.
    apply NoDup_app in Nd as (_ & N1 & N2). apply NoDup_cons in N2 as [N2 _].
    destruct (released_spec s s l l' q tm' K Lv W1 W2) as [K' Eg]; [| | exact W4 |].
    + rewrite El, fmap_app. apply elem_of_app. right. apply elem_of_cons. auto.
    + intros y. rewrite W3, El, fmap_app. cbn. rewrite !elem_of_app, elem_of_cons. split; [| tauto].
      intros [I|I]; (split; [intros -> | auto]); [apply (N1 q I), elem_of_cons; auto | contradiction].
    + eexists _, l'. split; [reflexivity|]. split; [unfold same_clock; rewrite Eg; exact W6|]. split; [exact K'|]. unfold deadlines. rewrite El, <- Ec. apply W5. rewrite Ec. exact F.
Qed.

(** ** Calling what is due *)

(** The first element is taken off the list. *)
Lemma pop_spec s t x r now : timers_ok s ((t, x) :: r) -> tm_next (get_timers s) = t /\ t <> 0 /\ tm_timeos (get_timers s) !! t = Some x /\
  let s' := release (put_timers s (set_tm_next (to_next x) (set_tm_last now (get_timers s)))) t in timers_ok s' r /\ tm_last (get_timers s') = now.
Proof.
  intros K. pose proof K as [Lv Li Ad Ok]. pose proof (linked_NoDup _ _ _ _ Li) as Nd. apply NoDup_cons in Nd as [Nt _].
  apply linked_inv in Li as [[_ ?] | (Nh & ? & ? & [= -> <- <-] & Ex & Li)]; [discriminate|]. split; [reflexivity | split; [exact Nh | split; [exact Ex|]]]. cbv zeta.
  destruct (diffs_mid [] _ x r Ok) as (_ & F2 & Fx & _ & T2 & Tm). cbn in Tm.
  destruct (released_spec s s _ r (tm_next (get_timers s)) (set_tm_next (to_next x) (set_tm_last now (get_timers s))) K Lv) as [K' ->]; [exact Li | reflexivity | apply elem_of_cons; auto | | split; [exact F2 | lia] |].
  - intros q. cbn. rewrite elem_of_cons. split; [intros I; split; [intros -> | ]; auto | intros [? [?|?]]; [contradiction | assumption]].
  - split; [exact K' | reflexivity].
Qed.

Section check.
Context (call : S -> Z -> Z -> option S) (ooseq : S -> option S) (now : Z).

(** The callback of an element, or nothing. *)
Definition called s (x : sys_timeo) : option S := if to_h x =? 0 then Some s else call s (to_h x) (to_arg x).
Definition popped s (x : sys_timeo) : S := release (put_timers s (set_tm_next (to_next x) (set_tm_last now (get_timers s)))) (tm_next (get_timers s)).

Lemma check_step s0 s t x r diff : ooseq s0 = Some s -> timers_ok s ((t, x) :: r) -> 0 <= diff < 4294967296 ->
  check_body call ooseq now (s0, diff) =
    if to_time x <=? diff then match called (popped s x) x with Some s' => inl (s', diff - to_time x) | None => inr None end else inr (Some s).
Proof.
  intros Eo K Hd. destruct (pop_spec s t x r now K) as (E1 & Nt & Ex & _). destruct (diffs_mid [] t x r (ok_diffs _ _ K)) as (_ & _ & Fx & _).
  unfold check_body, called, popped. rewrite Eo, E1, (proj2 (Z.eqb_neq t 0)), Ex by exact Nt. destruct (Z.leb_spec (to_time x) diff); [| reflexivity].
  rewrite u32_id by lia. reflexivity.
Qed.
Lemma check_end s0 s diff : ooseq s0 = Some s -> timers_ok s [] -> check_body call ooseq now (s0, diff) = inr (Some s).
Proof.
  intros Eo [_ Li _ _]. apply linked_inv in Li as [[E _] | (_ & ? & ? & ? & _)]; [| discriminate]. unfold check_body. rewrite Eo, E. reflexivity.
Qed.

(** What was called is recorded in [log]. *)
Context (log : S -> list (Z * Z)).
Context (log_put : forall s t, log (put_timers s t) = log s) (log_free : forall s p, log (timeo_free s p) = log s).

(** What a callback does to the agenda: it starts at most one timeout, and not at once. *)
Definition restarted (d d' : agenda) : Prop := d' = d \/ exists msecs c, 1 <= msecs /\ d' = enter msecs c d.
Definition restarts : Prop := forall s l h arg, timers_ok s l -> h <> 0 -> exists s' l', call s h arg = Some s' /\ timers_ok s' l' /\
  tm_last (get_timers s') = tm_last (get_timers s) /\ log s' = log s ++ [(h, arg)] /\ restarted (deadlines l) (deadlines l').

(** [PBUF_CHECK_FREE_OOSEQ] does not touch the timeouts. *)
Definition calm : Prop := forall s l, timers_ok s l -> exists s', ooseq s = Some s' /\ timers_ok s' l /\ get_timers s' = get_timers s /\ log s' = log s.

(** The agenda when [diff] milliseconds have passed: the callbacks [cs] are called, each
    when its deadline is the next one, and the time they did not use is [left_].  The
    deadlines are counted from the last call. *)
Definition sooner_by (e : Z) (d : agenda) : agenda := (fun x => (x.1 - e, x.2)) <$> d.
Inductive passes : Z -> agenda -> list (Z * Z) -> Z -> agenda -> Prop :=
| passes_done diff d : (forall e c, (e, c) ∈ d -> diff < e) -> passes diff d [] diff d
| passes_null diff e arg d cs left_ d' : e <= diff -> passes (diff - e) (sooner_by e d) cs left_ d' -> passes diff ((e, (0, arg)) :: d) cs left_ d'
| passes_call diff e h arg d d1 cs left_ d' : e <= diff -> h <> 0 -> restarted (sooner_by e d) d1 -> passes (diff - e) d1 cs left_ d' ->
    passes diff ((e, (h, arg)) :: d) ((h, arg) :: cs) left_ d'.

(** How often callbacks can be called in [diff] milliseconds. *)
Fixpoint calls (diff : Z) (d : agenda) : nat :=
  match d with [] => 0%nat | (e, _) :: d => (Z.to_nat (diff - e + 1) + calls diff d)%nat end.

Lemma calls_enter diff msecs c d : calls diff (enter msecs c d) = (Z.to_nat (diff - msecs + 1) + calls diff d)%nat.
Proof. induction d as [|[e y] d IH]; cbn; [lia|]. destruct (msecs <? e); cbn; [lia|]. rewrite IH. lia. Qed.
Lemma calls_shift base diff d : calls diff (due base d) = calls (diff - base) (due 0 d).
Proof.
  assert (G : forall k base, calls diff (due (base + k) d) = calls (diff - k) (due base d)).
  { intros k. induction d as [|[e y] d IH]; intros b; cbn; [reflexivity|]. replace (b + k + e) with (b + e + k) by lia. rewrite IH. lia. }
  rewrite <- (G base 0). f_equal.
Qed.

Lemma later_due base d diff : Forall (fun x => 0 <= x.1) d -> diff < base -> forall e c, (e, c) ∈ due base d -> diff < e.
Proof. intros F Hb e c I. pose proof (proj1 (Forall_forall _ _) (due_le base d F) _ I) as X. cbn in X. lia. Qed.
Lemma due_sooner e d : sooner_by e (due e d) = due 0 d.
Proof.
  assert (G : forall b, sooner_by e (due (b + e) d) = due b d); [| exact (G 0)].
  induction d as [|[f y] d IH]; intros b; cbn; [reflexivity|]. replace (b + e + f) with (b + f + e) by lia. fold (sooner_by e (due (b + f + e) d)). rewrite IH.
  do 2 f_equal. lia.
Qed.
Lemma log_popped s x : log (popped s x) = log s.
Proof. unfold popped, release. rewrite log_free, !log_put. reflexivity. Qed.

Lemma check_loop_passes : restarts -> calm -> forall fuel s l diff, timers_ok s l -> 0 <= diff < 4294967296 -> (calls diff (deadlines l) < fuel)%nat ->
  exists s' l' cs left_, while fuel (check_body call ooseq now) (s, diff) = Some (Some s') /\ timers_ok s' l' /\ log s' = log s ++ cs /\
    passes diff (deadlines l) cs left_ (deadlines l') /\ (tm_last (get_timers s') = now \/ (get_timers s' = get_timers s /\ l' = l)).
Proof.
  intros Rs Cm. induction fuel as [|fuel IH]; intros s0 l diff K0 Hd Hf; [lia|]. rewrite while_S. destruct (Cm s0 l K0) as (s & Eo & K & G & Lo). rewrite <- G, <- Lo. clear K0 G Lo.
  destruct l as [|[t x] r].
  { rewrite (check_end s0 s diff Eo K). exists s, [], [], diff. rewrite app_nil_r. split; [reflexivity|]. split; [exact K | split; [reflexivity | split; [| auto]]].
    constructor. intros e c I. apply elem_of_nil in I. contradiction. }
  rewrite (check_step s0 s t x r diff Eo K Hd). destruct (diffs_mid [] t x r (ok_diffs _ _ K)) as (_ & F2 & Fx & _).
  assert (El : deadlines ((t, x) :: r) = (to_time x, (to_h x, to_arg x)) :: due (to_time x) (diffs r)) by reflexivity. destruct (Z.leb_spec (to_time x) diff) as [Le|Gt].
  - destruct (pop_spec s t x r now K) as (E1 & _ & _ & K1 & L1). cbv zeta in K1, L1. rewrite <- E1 in K1, L1 at 1. fold (popped s x) in K1, L1. rewrite El in Hf |- *. cbn in Hf. rewrite calls_shift in Hf.
    unfold called. destruct (Z.eqb_spec (to_h x) 0) as [E0|N0].
    + destruct (IH (popped s x) r (diff - to_time x) K1 ltac:(lia)) as (s' & l' & cs & lf & -> & K' & Lg & Ps & Lt); [unfold deadlines; lia|]. rewrite log_popped in Lg.
      exists s', l', cs, lf. split; [reflexivity | split; [exact K' | split; [exact Lg | split]]]; [| left; destruct Lt as [?|[-> _]]; assumption].
      rewrite E0. apply passes_null; [exact Le|]. rewrite due_sooner. exact Ps.
    + destruct (Rs (popped s x) r (to_h x) (to_arg x) K1 N0) as (s2 & l2 & -> & K2 & L2 & Lg2 & D).
      destruct (IH s2 l2 (diff - to_time x) K2 ltac:(lia)) as (s' & l' & cs & lf & -> & K' & Lg & Ps & Lt).
      { destruct D as [-> | (ms & c & Hms & ->)]; rewrite ?calls_enter; unfold deadlines; lia. }
      exists s', l', ((to_h x, to_arg x) :: cs), lf. split; [reflexivity | split; [exact K' | split; [| split]]].
      * rewrite Lg, Lg2, log_popped, <- app_assoc. reflexivity.
      * apply (passes_call diff _ _ _ _ (deadlines l2)); [exact Le | exact N0 | rewrite due_sooner; exact D | exact Ps].
      * left. destruct Lt as [?|[-> _]]; congruence.
  - exists s, ((t, x) :: r), [], diff. rewrite app_nil_r. split; [reflexivity|]. split; [exact K | split; [reflexivity | split; [| auto]]]. rewrite El. constructor. intros e c I.
    apply elem_of_cons in I as [[= -> _]|I]; [lia|]. exact (later_due (to_time x) _ diff F2 ltac:(lia) e c I).
Qed.

(** ** The callbacks of the protocols *)

Context (log_malloc : forall s, log (timeo_malloc s).1 = log s).

Lemma timeout_log s msecs hd arg s' : sys_timeout s msecs hd arg = Some s' -> log s' = log s.
Proof.
  unfold sys_timeout. pose proof (log_malloc s) as Lm. destruct (timeo_malloc s) as [s1 p]. cbn in Lm. destruct (p =? 0); [intros [= <-]; exact Lm|].
  destruct (tm_next _ =? 0); [intros [= <-]; rewrite log_put; exact Lm|]. destruct (_ !! tm_next _); [| discriminate]. cbn [mbind option_bind].
  destruct (_ <? _); [intros [= <-]; rewrite log_put; exact Lm|]. destruct (mjoin _); [| discriminate]. cbn. intros [= <-]. rewrite log_put. exact Lm.
Qed.

(** Something is done that leaves the timeouts alone, and is recorded. *)
Definition quiet (f : S -> option S) (c : Z * Z) : Prop := forall s l, timers_ok s l -> exists s', f s = Some s' /\ timers_ok s' l /\
  tm_last (get_timers s') = tm_last (get_timers s) /\ log s' = log s ++ [c].

Lemma quiet_restarts f c s l msecs hd arg : quiet f c -> timers_ok s l -> 1 <= msecs < 4294967296 ->
  exists s' l', (s ← f s; sys_timeout s msecs hd arg) = Some s' /\ timers_ok s' l' /\ tm_last (get_timers s') = tm_last (get_timers s) /\ log s' = log s ++ [c] /\
    restarted (deadlines l) (deadlines l').
Proof.
  intros Q K Hm. destruct (Q s l K) as (s1 & -> & K1 & L1 & Lg). cbn [mbind option_bind]. destruct (timeout_spec s1 l msecs hd arg K1 ltac:(lia)) as (s2 & E & [Lc _] & R).
  pose proof (timeout_log _ _ _ _ _ E) as Lt. rewrite E. exists s2. destruct R as [[_ K2] | (_ & l' & K2 & D)].
  - exists l. split; [reflexivity | split; [exact K2 | split; [congruence | split; [congruence | left; reflexivity]]]].
  - exists l'. split; [reflexivity | split; [exact K2 | split; [congruence | split; [congruence | right]]]]. exists msecs, (hd, arg). split; [lia | exact D].
Qed.

Lemma timers_put s l t : timers_ok s l -> tm_timeos t = tm_timeos (get_timers s) -> tm_next t = tm_next (get_timers s) -> timers_ok (put_timers s t) l.
Proof.
  intros [Lv Li Ad Ok] E1 E2. split; rewrite ?get_put_timers, ?E1, ?E2; try assumption. apply timeo_put_law, Lv.
Qed.

End check.

(** When the timer functions leave the timeouts alone, and the application's callbacks
    start at most one, the same is true of a call through any pointer. *)
Lemma timer_call_restarts (log : S -> list (Z * Z)) tcp_tmr ip_reass_tmr etharp_tmr tcp_pcbs user :
  (forall s t, log (put_timers s t) = log s) -> (forall s, log (timeo_malloc s).1 = log s) ->
  quiet log tcp_tmr (TCPIP_TCP_TIMER, 0) -> quiet log ip_reass_tmr (IP_REASS_TIMER, 0) -> quiet log etharp_tmr (ARP_TIMER, 0) -> restarts user log ->
  forall s l h arg, timers_ok s l -> h <> 0 -> (h <= 3 -> arg = 0) -> exists s' l', timer_call tcp_tmr ip_reass_tmr etharp_tmr tcp_pcbs user s h arg = Some s' /\ timers_ok s' l' /\
    tm_last (get_timers s') = tm_last (get_timers s) /\ log s' = log s ++ [(h, arg)] /\ restarted (deadlines l) (deadlines l').
Proof.
  intros Lp Lm Qt Qi Qe Us s l h arg K Nh Ha. unfold timer_call.
  destruct (Z.eqb_spec h TCPIP_TCP_TIMER) as [->|N1]; [| destruct (Z.eqb_spec h IP_REASS_TIMER) as [->|N2]; [| destruct (Z.eqb_spec h ARP_TIMER) as [->|N3]]].
  - rewrite Ha by (unfold TCPIP_TCP_TIMER; lia). unfold tcpip_tcp_timer. pose proof (quiet_restarts log Lp Lm tcp_tmr _ s l TCP_TMR_INTERVAL TCPIP_TCP_TIMER 0 Qt K ltac:(unfold TCP_TMR_INTERVAL; lia)) as R.
    destruct (Qt s l K) as (s1 & E & K1 & L1 & Lg). rewrite E in R |- *. cbn [mbind option_bind] in *. destruct (tcp_pcbs s1); [exact R|].
    eexists _, l. split; [reflexivity|]. split; [apply timers_put; auto|]. rewrite get_put_timers, Lp. split; [exact L1 | split; [exact Lg | left; reflexivity]].
  - rewrite Ha by (unfold IP_REASS_TIMER; lia). apply (quiet_restarts log Lp Lm _ _ s l _ _ _ Qi K). unfold IP_TMR_INTERVAL. lia.
  - rewrite Ha by (unfold ARP_TIMER; lia). apply (quiet_restarts log Lp Lm _ _ s l _ _ _ Qe K). unfold ARP_TMR_INTERVAL. lia.
  - apply Us; assumption.
Qed.

(** ** The claims *)

Lemma deadlines_sorted l : diffs_ok (diffs l) -> StronglySorted Z.le (deadlines l).*1.
Proof.
  intros [F _]. unfold deadlines. generalize 0. induction F as [|[d x] r Hd F IH]; intros base; cbn; constructor; [apply IH|].
  apply Forall_fmap, (Forall_impl _ _ _ (due_le (base + d) r F)). intros y. cbn. lia.
Qed.

(** C22: The list of differences is an agenda, whose deadlines are in order.  [sys_timeout]
    always returns, and enters the deadline behind those that are not later, or leaves the
    list as it is when the pool is empty; [sys_untimeout] always returns, and withdraws the
    first entry with the callback and argument; all other deadlines stay what they are,
    the list stays well formed, and every element that is not on it is in the pool. *)
Theorem timeouts_refine s l msecs hd arg : timers_ok s l -> 0 <= msecs < 4294967296 ->
  StronglySorted Z.le (deadlines l).*1 /\
  (exists s' l', sys_timeout s msecs hd arg = Some s' /\ same_clock s s' /\ timers_ok s' l' /\
     deadlines l' = if (timeo_malloc s).2 =? 0 then deadlines l else enter msecs (hd, arg) (deadlines l)) /\
  (exists s' l', sys_untimeout s hd arg = Some s' /\ same_clock s s' /\ timers_ok s' l' /\ deadlines l' = withdraw (hd, arg) (deadlines l)).
Proof.
  intros K Hm. split; [apply deadlines_sorted, K|]. split; [| exact (untimeout_spec s l hd arg K)].
  destruct (timeout_spec s l msecs hd arg K Hm) as (s' & E & Sc & [[-> K'] | (Np & l' & K' & D)]).
  - exists s', l. auto.
  - exists s', l'. rewrite (proj2 (Z.eqb_neq _ 0)) by exact Np. auto.
Qed.

(** C23: [sys_check_timeouts] ends and does what the agenda says, when every callback starts
    at most one timeout, which is not due at once (as those of the protocols do): it calls
    the callbacks whose deadlines have passed since [timeouts_last_time], in the order of
    the deadlines, those that were started on the way included, and no others; the
    remaining deadlines are counted from the last call, and the clock is set to the
    present if something was called.  [calls] bounds the number of passes of the loop. *)
Theorem sys_check_timeouts_passes call ooseq now log fuel s l : (forall s t, log (put_timers s t) = log s) -> (forall s p, log (timeo_free s p) = log s) ->
  restarts call log -> calm ooseq log -> timers_ok s l -> let diff := u32 (now - tm_last (get_timers s)) in (calls diff (deadlines l) < fuel)%nat ->
  exists s' l' cs left_, sys_check_timeouts call ooseq fuel s now = Some s' /\ timers_ok s' l' /\ log s' = log s ++ cs /\
    passes diff (deadlines l) cs left_ (deadlines l') /\ (tm_last (get_timers s') = now \/ (get_timers s' = get_timers s /\ l' = l)).
Proof.
  intros Lp Lf Rs Cm K diff Hf. unfold sys_check_timeouts. destruct (Z.eqb_spec (tm_next (get_timers s)) 0) as [E0|N0].
  - exists s, l, [], diff. rewrite app_nil_r. split; [reflexivity|]. split; [exact K | split; [reflexivity | split; [| auto]]].
    pose proof (ok_list _ _ K) as Li. rewrite E0 in Li. apply linked_inv in Li as [[_ ->] | [? _]]; [| contradiction]. constructor. intros e c I. apply elem_of_nil in I. contradiction.
  - destruct (check_loop_passes call ooseq now log Lp Lf Rs Cm fuel s l diff K (u32_range _) Hf) as (s' & l' & cs & lf & E & R). fold diff. rewrite E. exists s', l', cs, lf. auto.
Qed.

End sys.

(** ** A pool of the memory system *)

(** The configuration of the firmware has no pool of timeouts; any pool [t] of a memory
    system keeps the promises. *)
Section pool.
Context {W X : Type} `{LW : MemSystemLaws W} (t : Memp.memp_t).

Definition pool_system : TimerSystem (W * timers * X) := {|
  get_timers s := s.1.2;
  put_timers s tm := (s.1.1, tm, s.2);
  timeo_malloc s := let '(w, p) := ms_memp_malloc s.1.1 t in (w, s.1.2, s.2, p);
  timeo_free s p := (ms_memp_free s.1.1 t p, s.1.2, s.2) |}.

Definition pool_live (s : W * timers * X) (L : gset Z) : Prop :=
  exists R, ms_live s.1.1 R /\ forall p, p ∈ L -> is_Some (R !! p) /\ ms_pool p = Some t.

Definition pool_laws : @TimerLaws _ pool_system.
Proof.
  refine (@Build_TimerLaws _ pool_system pool_live _ _ _ _).
  - reflexivity.
  - intros [[w tm] x] L (R & Lv & HL). cbn. destruct (alloc_spec (Allocates := ms_memp_law t) w R Lv) as (w' & p & E & _ & Rs). injection E as E. rewrite E. cbn. split; [reflexivity|].
    destruct Rs as [[-> Lv'] | (Np & n & _ & Fp & Lv')]; [left; split; [reflexivity | exists R; auto] | right]. split; [exact Np|]. split.
    + intros I. destruct (HL p I) as [[k Hk] _]. congruence.
    + exists (<[p := n]> R). split; [exact Lv'|]. intros q I. apply elem_of_union in I as [->%elem_of_singleton | I].
      * rewrite lookup_insert_eq. split; [eauto | exact (ms_memp_pool w t w' p R Lv E Np)].
      * destruct (HL q I) as [[k Hk] Hp]. rewrite lookup_insert_ne by congruence. eauto.
  - intros [[w tm] x] L p (R & Lv & HL) I. cbn. split; [reflexivity|]. destruct (HL p I) as [[k Hk] Hp].
    destruct (release_spec (Releases := ms_memp_free_law t) w R p k Lv Hk Hp) as [Lv' _]. exists (delete p R). split; [exact Lv'|].
    intros q [Iq Nq]%elem_of_difference. rewrite elem_of_singleton in Nq. rewrite lookup_delete_ne by congruence. apply HL, Iq.
  - intros [[w tm] x] L tm' Lv. exact Lv.
Defined.

End pool.
(** ** A sample: callbacks that are recorded and start themselves again after 100 ms *)

#[local] Existing Instance World.world_system.
#[local] Existing Instance World.sample_laws.

Definition clock : Type := World.world * timers * list (Z * Z).
#[local] Instance clock_system : TimerSystem clock := pool_system Memp.MEMP_PBUF_POOL.
#[local] Instance clock_laws : TimerLaws clock := pool_laws Memp.MEMP_PBUF_POOL.

Definition stopped : clock := (World.sample_world, mkTimers ∅ 0 0 false, []).
Definition seen (s : clock) : list (Z * Z) := s.2.
Definition record (s : clock) (h arg : Z) : option clock := Some (s.1, s.2 ++ [(h, arg)]).
Definition again (s : clock) (h arg : Z) : option clock := s ← record s h arg; sys_timeout s 100 h arg.

Lemma stopped_ok : timers_ok stopped [].
Proof.
  assert (E : dom (tm_timeos (get_timers stopped)) = ∅) by apply dom_empty_L. split; rewrite ?E.
  - exists ∅. split; [exact World.sample_world_live | intros p I; apply elem_of_empty in I; contradiction].
  - constructor.
  - intros q. split; intros I; [apply elem_of_nil in I | apply elem_of_empty in I]; contradiction.
  - split; [constructor | reflexivity].
Qed.
Lemma put_seen (s : clock) t : seen (put_timers s t) = seen s.
Proof. reflexivity. Qed.
Lemma free_seen (s : clock) p : seen (timeo_free s p) = seen s.
Proof. reflexivity. Qed.
Lemma malloc_seen (s : clock) : seen (timeo_malloc s).1 = seen s.
Proof. unfold timeo_malloc. cbn -[World.world_system]. destruct (ms_memp_malloc s.1.1 Memp.MEMP_PBUF_POOL). reflexivity. Qed.

Lemma again_restarts : restarts again seen.
Proof.
  intros s l h arg K _. unfold again. apply (quiet_restarts seen put_seen malloc_seen (fun s => record s h arg)); [| exact K | lia].
  intros [[w tm] x] l' [Lv Li Ad Ok]. eexists. split; [reflexivity|]. split; [split; assumption | auto].
Qed.

Lemma some_calm : calm Some seen.
Proof. intros s l K. exists s. auto. Qed.

Lemma timeouts_refine_witness : exists s' l', sys_timeout stopped 10 5 0 = Some s' /\ timers_ok s' l' /\ deadlines l' = [(10, (5, 0))].
Proof.
  destruct (timeouts_refine stopped [] 10 5 0 stopped_ok ltac:(lia)) as (_ & (s' & l' & E & _ & K & D) & _). exists s', l'. split; [exact E | split; [exact K|]].
  assert (Ep : ((timeo_malloc stopped).2 =? 0) = false) by (vm_compute; reflexivity). rewrite Ep in D. exact D.
Defined.

Lemma sys_check_timeouts_passes_witness : exists s l s' l' cs left_, deadlines l = [(10, (5, 0))] /\ sys_check_timeouts again Some 300 s 250 = Some s' /\
  seen s' = cs /\ passes 250 [(10, (5, 0))] cs left_ (deadlines l').
Proof.
  destruct (timeout_spec stopped [] 10 5 0 stopped_ok ltac:(lia)) as (s & E & Sc & [[Ep _] | (_ & l & K & D)]); [vm_compute in Ep; discriminate|].
  assert (El : tm_last (get_timers s) = 0) by (destruct Sc as [-> _]; reflexivity).
  assert (Lg : seen s = []) by (exact (timeout_log seen put_seen malloc_seen _ _ _ _ _ E)).
  assert (D' : deadlines l = [(10, (5, 0))]) by exact D.
  assert (Hf : (calls (u32 (250 - tm_last (get_timers s))) (deadlines l) < 300)%nat) by (rewrite El, D'; vm_compute; lia).
  destruct (sys_check_timeouts_passes again Some 250 seen 300 s l put_seen free_seen again_restarts some_calm K Hf) as (s' & l' & cs & lf & Es & K' & Lg' & Ps & _).
  exists s, l, s', l', cs, lf. split; [exact D' | split; [exact Es | split; [rewrite Lg', Lg; reflexivity|]]]. rewrite El, D' in Ps. exact Ps.
Defined.

(** A timeout is called late: the time that had passed since the last deadline is not
    counted for the next one.  Deadlines at 10 and 15, looked at when it is 14 and 18. *)
Example timeout_late :
  (s ← sys_timeout stopped 10 5 0; s ← sys_timeout s 15 6 0; s ← sys_check_timeouts record Some 10 s 14; s ← sys_check_timeouts record Some 10 s 18; Some (seen s)) = Some [(5, 0)].
Proof. vm_compute. reflexivity. Qed.

(** A timeout is called early: its time is counted from the last call of a callback, not
    from when it is set.  It is set for 50 when it is 100, and called when it is 101. *)
Example timeout_early :
  (s ← sys_timeout stopped 1000 5 0; s ← sys_check_timeouts record Some 10 s 100; s ← sys_timeout s 50 6 0; s ← sys_check_timeouts record Some 10 s 101; Some (seen s)) = Some [(6, 0)].
Proof. vm_compute. reflexivity. Qed.

End Agenda.
