(* ===== verification/Asn1.v ===== *)
(** The ASN.1 codec of the SNMP agent: core/snmp/asn1_enc.c and core/snmp/asn1_dec.c.

    Numbers, object identifiers and octet strings are written to and read from a chain of
    packet buffers, octet by octet, with a pointer that goes from one buffer to the next. *)

From stdpp Require Import base tactics numbers list gmap.
From Stdlib Require Import ZArith Lia.
From S2P Require Import Prelude PbufDefs.

Local Open Scope Z_scope.

Module Asn1.

(** ** Functions that may return ERR_ARG *)

(** [S] is what a function changes: the memory or its results.  [None] is an access that
    has no meaning, [Some (s, None)] the return of ERR_ARG. *)
Definition prog (S A : Type) : Type := S -> option (S * option A).
Definition ret {S A} (a : A) : prog S A := fun s => Some (s, Some a).
Definition arg_error {S A} : prog S A := fun s => Some (s, None).
Definition stuck {S A} : prog S A := fun _ => None.
Definition bind {S A B} (x : prog S A) (f : A -> prog S B) : prog S B := fun s =>
  match x s with
  | Some (s, Some a) => f a s
  | Some (s, None) => Some (s, None)
  | None => None
  end.
Definition get {S} : prog S S := fun s => Some (s, Some s).
Definition modify {S} (f : S -> S) : prog S unit := fun s => Some (f s, Some tt).

Declare Scope prog_scope.
Notation "x <~ e ; f" := (bind e (fun x => f)) (at level 100, e at level 99, f at level 200, right associativity) : prog_scope.
Notation "e ;; f" := (bind e (fun _ => f)) (at level 100, f at level 200, right associativity) : prog_scope.
Local Open Scope prog_scope.

(** What the C function returns. *)
Definition result {S} (x : option (S * option unit)) : option (S * Z) :=
  '(s, r) ← x; Some (s, match r with Some _ => ERR_OK | None => ERR_ARG end).

(** ** Octets of a chain *)

(** [p], [msg_ptr], [ofs] and [plen] of the functions. *)
Record cursor := mkCursor { cu_p : Z; cu_ptr : Z; cu_ofs : Z; cu_plen : Z }.

Section codec.
Context (st : pstore).

(** The loop that all functions start with. *)
Definition seek_body (ofs : Z) (y : Z * Z) : (Z * Z) + option (option cursor) :=
  let '(p, plen) := y in
  if p =? 0 then inr (Some None)
  else
    match st !! p with
    | None => inr None
    | Some b =>
        let base := plen in
        let plen := u16 (plen + len b) in
        if ofs <? plen then inr (Some (Some (mkCursor p (payload b + (ofs - base)) ofs plen))) else inl (next b, plen)
    end.
Definition seek {S} (p ofs : Z) : prog S cursor := fun s =>
  r ← mjoin (while (Datatypes.S (size st)) (seek_body ofs) (p, 0)); Some (s, r).

(** [ofs += 1], and [msg_ptr] to the next octet, in this buffer or the next one. *)
Definition next_octet {S} (c : cursor) : prog S cursor :=
  let ofs := u16 (cu_ofs c + 1) in
  if cu_plen c <=? ofs then
    match st !! cu_p c with
    | None => stuck
    | Some b =>
        if next b =? 0 then arg_error
        else
          match st !! next b with
          | None => stuck
          | Some nb => ret (mkCursor (next b) (payload nb) ofs (u16 (cu_plen c + len nb)))
          end
    end
  else ret (mkCursor (cu_p c) (cu_ptr c + 1) ofs (cu_plen c)).

Definition store (c : cursor) (v : Z) : prog memory unit := modify (fun m => st8 m (cu_ptr c) (u8 v)).

(** ** Encoding *)

Definition snmp_asn1_enc_length_cnt (length : Z) : Z :=
  if length <? 0x80 then 1 else if length <? 0x100 then 2 else 3.
Definition snmp_asn1_enc_u32t_cnt (value : Z) : Z :=
  if value <? 0x80 then 1 else if value <? 0x8000 then 2 else if value <? 0x800000 then 3 else if value <? 0x80000000 then 4 else 5.
Definition snmp_asn1_enc_s32t_cnt (value : Z) : Z :=
  let value := if value <? 0 then Z.lnot value else value in
  if value <? 0x80 then 1 else if value <? 0x8000 then 2 else if value <? 0x800000 then 3 else 4.

(** The octets of one sub-identifier are counted in [cnt]; seven bits each, so there are
    at most five. *)
Definition sub_id_body (y : Z * Z) : (Z * Z) + Z :=
  let '(sub_id, cnt) := y in if 0 <? sub_id then inl (Z.shiftr sub_id 7, u8 (cnt + 1)) else inr cnt.
Fixpoint oid_cnt_loop (ident : list Z) (cnt : Z) : option Z :=
  match ident with
  | [] => Some cnt
  | sub_id :: ident => cnt ← while 6 sub_id_body (Z.shiftr sub_id 7, u8 (cnt + 1)); oid_cnt_loop ident cnt
  end.
Definition snmp_asn1_enc_oid_cnt (ident : list Z) : option Z :=
  if (1 <? length ident)%nat then oid_cnt_loop (drop 2 ident) 1 else oid_cnt_loop ident 0.

Definition snmp_asn1_enc_type (p ofs type : Z) (m : memory) : option (memory * Z) :=
  result ((c <~ seek p ofs; store c type) m).

(** The two octets of a length; [i] is the loop's counter. *)
Fixpoint enc_length_loop (i : nat) (length : Z) (c : cursor) : prog memory unit :=
  match i with
  | O => ret tt
  | Datatypes.S i =>
      c <~ next_octet c;
      store c (if (i =? 0)%nat then length else Z.shiftr length 8);;
      enc_length_loop i length c
  end.
Definition snmp_asn1_enc_length (p ofs length : Z) (m : memory) : option (memory * Z) :=
  result ((c <~ seek p ofs;
    if length <? 0x80 then store c length
    else if length <? 0x100 then store c 0x81;; c <~ next_octet c; store c length
    else store c 0x82;; enc_length_loop 2 length c) m).

(** The octets of a number, the most significant first; [n] is [octets_needed]. *)
Fixpoint enc_octets (n : nat) (value : Z) (c : cursor) : prog memory unit :=
  match n with
  | Datatypes.S (Datatypes.S _ as n) =>
      store c (Z.shiftr value (8 * Z.of_nat n));; c <~ next_octet c; enc_octets n value c
  | _ => store c value
  end.
Definition snmp_asn1_enc_u32t (p ofs octets_needed value : Z) (m : memory) : option (memory * Z) :=
  result ((c <~ seek p ofs;
    if octets_needed =? 5 then store c 0;; c <~ next_octet c; enc_octets 4 value c
    else enc_octets (Z.to_nat octets_needed) value c) m).
Definition snmp_asn1_enc_s32t (p ofs octets_needed value : Z) (m : memory) : option (memory * Z) :=
  result ((c <~ seek p ofs; enc_octets (Z.to_nat octets_needed) value c) m).

(** The octets of a sub-identifier that are not the last one: [shift] is 7 times [k]. *)
Fixpoint enc_sub_id (k : nat) (sub_id : Z) (tail : bool) (c : cursor) : prog memory cursor :=
  match k with
  | O => ret c
  | Datatypes.S k' =>
      let code := u8 (Z.shiftr sub_id (7 * Z.of_nat k)) in
      if negb (code =? 0) || tail then store c (Z.lor code 0x80);; c <~ next_octet c; enc_sub_id k' sub_id true c
      else enc_sub_id k' sub_id tail c
  end.
Fixpoint enc_ident (ident : list Z) (c : cursor) : prog memory unit :=
  match ident with
  | [] => ret tt
  | sub_id :: rest =>
      c <~ enc_sub_id 4 sub_id false c;
      store c (Z.land (u8 sub_id) 0x7F);;
      match rest with [] => ret tt | _ => c <~ next_octet c; enc_ident rest c end
  end.
Definition snmp_asn1_enc_oid (p ofs : Z) (ident : list Z) (m : memory) : option (memory * Z) :=
  result ((c <~ seek p ofs;
    match ident with
    | i0 :: i1 :: ident =>
        store c (if (i0 =? 1) && (i1 =? 3) then 0x2b else i0 * 40 + i1);;
        c <~ next_octet c;
        enc_ident ident c
    | _ => arg_error
    end) m).

(** The data at [raw], [n] octets of it. *)
Fixpoint enc_raw_loop (n : nat) (raw : Z) (c : cursor) : prog memory unit :=
  match n with
  | O => ret tt
  | Datatypes.S n =>
      m <~ get; store c (ld8 m raw);;
      match n with O => ret tt | _ => c <~ next_octet c; enc_raw_loop n (raw + 1) c end
  end.
Definition snmp_asn1_enc_raw (p ofs raw_len raw : Z) (m : memory) : option (memory * Z) :=
  result ((c <~ seek p ofs; enc_raw_loop (Z.to_nat raw_len) raw c) m).

(** ** Decoding *)

(** The results of a function are what it changes; the memory is not. *)
Section decode.
Context (m : memory).
Definition octet (c : cursor) : Z := ld8 m (cu_ptr c).

Definition snmp_asn1_dec_type (p ofs type : Z) : option (Z * Z) :=
  result ((c <~ seek p ofs; modify (fun _ => octet c)) type).

(** [octets_used] and [length] *)
Definition out_length : Type := Z * Z.
Definition set_used (n : Z) : prog out_length unit := modify (fun o => (n, o.2)).
Definition set_length (f : Z -> Z) : prog out_length unit := modify (fun o => (o.1, f o.2)).

(** The indefinite form: octets are counted until two of them are zero.  The result is
    what the loop ends with; one turn is one octet of the inner loop, or one test of the
    outer one when [i] is 0. *)
Definition indefinite_body (y : cursor * Z * Z * out_length) : (cursor * Z * Z * out_length) + option (out_length * option unit) :=
  let '(c, zeros, i, o) := y in
  if i =? 0 then (if zeros =? 2 then inr (Some (o, Some tt)) else inl (c, zeros, 2, o))
  else
    let i := i - 1 in
    let o := (o.1, u16 (o.2 + 1)) in
    match next_octet (S := unit) c tt with
    | Some (_, Some c) =>
        if octet c =? 0 then
          let zeros := zeros + 1 in inl (c, zeros, if zeros =? 2 then 0 else i, o)
        else inl (c, 0, i, o)
    | Some (_, None) => inr (Some (o, None))
    | None => inr None
    end.
(** Every octet takes at most two turns, and there are fewer than 65536. *)
Definition indefinite_fuel : nat := Z.to_nat 131080.

Fixpoint dec_length_loop (i : nat) (c : cursor) : prog out_length unit :=
  match i with
  | O => ret tt
  | Datatypes.S i =>
      c <~ next_octet c;
      set_length (fun l => if (i =? 0)%nat then Z.lor l (octet c) else Z.shiftl (octet c) 8);;
      dec_length_loop i c
  end.

Definition snmp_asn1_dec_length (p ofs : Z) (o : out_length) : option (out_length * Z) :=
  result ((c <~ seek p ofs;
    if octet c <? 0x80 then set_used 1;; set_length (fun _ => octet c)
    else if octet c =? 0x80 then
      set_length (fun _ => 0);;
      (fun o => mjoin (while indefinite_fuel indefinite_body (c, 0, 0, o)));;
      set_used 1
    else if octet c =? 0x81 then c <~ next_octet c; set_length (fun _ => octet c);; set_used 2
    else if octet c =? 0x82 then dec_length_loop 2 c;; set_used 3
    else set_used (u8 (1 + Z.land (octet c) 0x7f));; arg_error) o).

(** [value] *)
Fixpoint dec_u32_loop (n : nat) (c : cursor) : prog Z unit :=
  match n with
  | Datatypes.S (Datatypes.S _ as n) =>
      modify (fun v => u32 (Z.shiftl (Z.lor v (octet c)) 8));; c <~ next_octet c; dec_u32_loop n c
  | _ => modify (fun v => Z.lor v (octet c))
  end.
Definition snmp_asn1_dec_u32t (p ofs len value : Z) : option (Z * Z) :=
  result ((c <~ seek p ofs;
    if (0 <? len) && (len <? 6) then
      modify (fun _ => 0);;
      if negb (Z.land (octet c) 0x80 =? 0) then arg_error
      else if (1 <? len) && (octet c =? 0) then c <~ next_octet c; dec_u32_loop (Z.to_nat (len - 1)) c
      else dec_u32_loop (Z.to_nat len) c
    else arg_error) value).

(** The low octet of [*value], at [lsb_ptr]; the processor is little-endian. *)
Definition lsb (v : Z) : Z := Z.land v 255.
Definition set_lsb (v b : Z) : Z := v - lsb v + b.
Definition shift8 (v : Z) : Z := s32 (u32 (Z.shiftl v 8)).

Fixpoint dec_s32_loop (n : nat) (sign : bool) (c : cursor) : prog Z unit :=
  match n with
  | Datatypes.S (Datatypes.S _ as n) =>
      modify (fun v => if sign then set_lsb (shift8 (set_lsb v (Z.land (lsb v) (octet c)))) 255
                       else shift8 (set_lsb v (Z.lor (lsb v) (octet c))));;
      c <~ next_octet c; dec_s32_loop n sign c
  | _ => modify (fun v => set_lsb v (if sign then Z.land (lsb v) (octet c) else Z.lor (lsb v) (octet c)))
  end.
Definition snmp_asn1_dec_s32t (p ofs len value : Z) : option (Z * Z) :=
  result ((c <~ seek p ofs;
    if (0 <? len) && (len <? 5) then
      if negb (Z.land (octet c) 0x80 =? 0) then modify (fun _ => -1);; dec_s32_loop (Z.to_nat len) true c
      else modify (fun _ => 0);; dec_s32_loop (Z.to_nat len) false c
    else arg_error) value).

(** [oid->len] and [oid->id] *)
Definition LWIP_SNMP_OBJ_ID_LEN : nat := 32.
Record snmp_obj_id := mkObjId { oid_len : nat; oid_id : list Z }.

(** [*oid_ptr = v]; [oid_ptr] is [&oid->id[i]]. *)
Definition put_id (i : nat) (v : Z) : prog snmp_obj_id unit := fun o =>
  if (i <? length (oid_id o))%nat then Some (mkObjId (oid_len o) (<[i := v]> (oid_id o)), Some tt) else None.
Definition put_oid_len (n : nat) : prog snmp_obj_id unit := modify (fun o => mkObjId n (oid_id o)).

(** The octets of a sub-identifier with a bit that says that there are more; the result
    is [len], [sub_id] and the position of the last one. *)
Fixpoint dec_sub_id (fuel : nat) (len sub_id : Z) (c : cursor) : prog snmp_obj_id (Z * Z * cursor) :=
  match fuel with
  | O => stuck
  | Datatypes.S fuel =>
      if negb (Z.land (octet c) 0x80 =? 0) && (1 <? len) then
        let sub_id := s32 (u32 (Z.shiftl sub_id 7 + Z.land (octet c) 0x7f)) in
        c <~ next_octet c; dec_sub_id fuel (len - 1) sub_id c
      else ret (len, sub_id, c)
  end.

(** One sub-identifier for [oid->id[i]]; the result is [len]. *)
Definition dec_one (i : nat) (len : Z) (c : cursor) : prog snmp_obj_id (Z * cursor) :=
  if negb (Z.land (octet c) 0x80 =? 0) then
    r <~ dec_sub_id (Z.to_nat len) len 0 c;
    let '(len, sub_id, c) := r in
    if (Z.land (octet c) 0x80 =? 0) && (0 <? len) then
      put_id i (s32 (u32 (Z.shiftl sub_id 7 + octet c)));; ret (len - 1, c)
    else ret (len, c)
  else put_id i (octet c);; ret (len - 1, c).

(** The loop of [snmp_asn1_dec_oid]; [n] bounds [oid->len]. *)
Fixpoint dec_ids (n : nat) (i : nat) (len : Z) (c : cursor) : prog snmp_obj_id unit :=
  match n with
  | O => if len =? 0 then ret tt else arg_error
  | Datatypes.S n =>
      if 0 <? len then
        r <~ dec_one i len c;
        let '(len, c) := r in
        c <~ (if 0 <? len then next_octet c else ret c);
        put_oid_len (Datatypes.S i);;
        dec_ids n (Datatypes.S i) len c
      else ret tt
  end.

Definition snmp_asn1_dec_oid (p ofs len : Z) (o : snmp_obj_id) : option (snmp_obj_id * Z) :=
  result ((c <~ seek p ofs;
    put_oid_len 0;;
    if 0 <? len then
      (if octet c =? 0x2B then put_id 0 1;; put_id 1 3
       else if octet c <? 40 then put_id 0 0;; put_id 1 (octet c)
       else if octet c <? 80 then put_id 0 1;; put_id 1 (octet c - 40)
       else put_id 0 2;; put_id 1 (octet c - 80));;
      put_oid_len 2;;
      c <~ (if 0 <? len - 1 then next_octet c else ret c);
      dec_ids (LWIP_SNMP_OBJ_ID_LEN - 2) 2 (len - 1) c
    else ret tt) o).
End decode.

(** The copy of octets to [raw]. *)
Fixpoint dec_raw_loop (n : nat) (raw : Z) (c : cursor) : prog memory unit :=
  match n with
  | Datatypes.S (Datatypes.S _ as n) =>
      modify (fun m => st8 m raw (octet m c));; c <~ next_octet c; dec_raw_loop n (raw + 1) c
  | _ => modify (fun m => st8 m raw (octet m c))
  end.
Definition snmp_asn1_dec_raw (p ofs len raw_len raw : Z) (m : memory) : option (memory * Z) :=
  if 0 <? len then
    result ((c <~ seek p ofs; if len <=? raw_len then dec_raw_loop (Z.to_nat len) raw c else arg_error) m)
  else Some (m, ERR_OK).

End codec.
End Asn1.
