(* ===== verification/Ber.v ===== *)
(** The ASN.1 codec (core/snmp/asn1_enc.c, core/snmp/asn1_dec.c): on a chain of buffers it
    works as on one sequence of octets, and what it encodes it decodes. *)

From stdpp Require Import base tactics numbers list gmap.
From Stdlib Require Import ZArith Lia.
From S2P Require Import Prelude PbufDefs Asn1.

Local Open Scope Z_scope.

Module Ber.
Import Asn1.
Local Open Scope prog_scope.

(** ** A message: a chain of buffers that are not empty and do not overlap *)

Fixpoint addrs (l : list (Z * pbuf)) : list Z :=
  match l with [] => [] | (_, b) :: l => seqZ (payload b) (len b) ++ addrs l end.

Record message (st : pstore) (p : Z) (l : list (Z * pbuf)) : Prop := {
  ms_chain : chain st p l;
  ms_full : Forall (fun x => 0 < len x.2) l;
  ms_small : chain_len l < 65536;
  ms_apart : NoDup (addrs l) }.

Lemma bytes_seqZ m a n : 0 <= n -> bytes m a (Z.to_nat n) = ld8 m <$> seqZ a n.
Proof.
  intros Hn. unfold seqZ. rewrite <- list_fmap_compose. apply list_eq. intros i. destruct (decide (i < Z.to_nat n)%nat) as [Hi|Hi].
  - rewrite bytes_lookup by exact Hi. rewrite list_lookup_fmap, lookup_seq_lt by exact Hi. cbn. do 2 f_equal. lia.
  - rewrite !lookup_ge_None_2; [reflexivity | rewrite length_fmap, length_seq; lia | rewrite bytes_length; lia].
Qed.

Lemma message_data l m : Forall (fun x => 0 < len x.2) l -> chain_data m l = ld8 m <$> addrs l.
Proof.
  induction 1 as [|[q b] l Hb _ IH]; cbn; [reflexivity|]. cbn in Hb. rewrite fmap_app, bytes_seqZ, IH by lia. reflexivity.
Qed.
Lemma addrs_length l : Forall (fun x => 0 < len x.2) l -> Z.of_nat (length (addrs l)) = chain_len l.
Proof. induction 1 as [|[q b] l Hb _ IH]; cbn; [reflexivity|]. cbn in Hb. rewrite length_app, length_seqZ. lia. Qed.
Lemma addrs_app l1 l2 : addrs (l1 ++ l2) = addrs l1 ++ addrs l2.
Proof. induction l1 as [|[q b] l1 IH]; cbn; [reflexivity|]. rewrite IH, app_assoc. reflexivity. Qed.

Section message.
Context (st : pstore) (p : Z) (l : list (Z * pbuf)) (Ms : message st p l).

(** The pointers when the next octet is the [i]-th one. *)
Definition at_octet (i : nat) (c : cursor) : Prop :=
  exists l1 q b l2, l = l1 ++ (q, b) :: l2 /\ (length (addrs l1) <= i)%nat /\ Z.of_nat i < Z.of_nat (length (addrs l1)) + len b /\
    c = mkCursor q (payload b + (Z.of_nat i - Z.of_nat (length (addrs l1)))) (Z.of_nat i) (Z.of_nat (length (addrs l1)) + len b).

Lemma full_app l1 l2 : l = l1 ++ l2 -> Forall (fun x => 0 < len x.2) l1 /\ Forall (fun x => 0 < len x.2) l2.
Proof. intros E. pose proof (ms_full _ _ _ Ms) as F. rewrite E in F. apply Forall_app in F. exact F. Qed.
Lemma message_length : Z.of_nat (length (addrs l)) < 65536.
Proof. rewrite addrs_length by apply Ms. apply Ms. Qed.

Lemma at_octet_addr i c : at_octet i c -> addrs l !! i = Some (cu_ptr c).
Proof.
  intros (l1 & q & b & l2 & E & H1 & H2 & ->). rewrite E, addrs_app, lookup_app_r by exact H1. cbn [addrs]. rewrite lookup_app_l by (rewrite length_seqZ; lia). apply lookup_seqZ. cbn. lia.
Qed.
Lemma at_octet_lt i c : at_octet i c -> (i < length (addrs l))%nat.
Proof. intros A. exact (lookup_lt_Some _ _ _ (at_octet_addr i c A)). Qed.

Lemma seek_loop_at fuel : forall l1 l2 q i, l = l1 ++ l2 -> chain st q l2 -> (length (addrs l1) <= i)%nat -> (length l2 < fuel)%nat ->
  (exists c, while fuel (seek_body st (Z.of_nat i)) (q, Z.of_nat (length (addrs l1))) = Some (Some (Some c)) /\ at_octet i c) \/
  (while fuel (seek_body st (Z.of_nat i)) (q, Z.of_nat (length (addrs l1))) = Some (Some None) /\ (length (addrs l) <= i)%nat).
Proof.
  induction fuel as [|fuel IH]; intros l1 l2 q i El Ch Hi Hf; [lia|]. rewrite while_S. unfold seek_body. destruct Ch as [|q b l2 Nq Eq Ch].
  - right. split; [reflexivity|]. rewrite El, app_nil_r. exact Hi.
  - rewrite (proj2 (Z.eqb_neq q 0)) by exact Nq. rewrite Eq. destruct (full_app _ _ El) as [_ F]. apply Forall_cons in F as [Fb _]. cbn in Fb.
    pose proof message_length as Sm. rewrite El, addrs_app, length_app in Sm. cbn in Sm. rewrite length_app, length_seqZ in Sm. rewrite u16_id by lia.
    destruct (Z.ltb_spec (Z.of_nat i) (Z.of_nat (length (addrs l1)) + len b)) as [Lt|Ge].
    + left. eexists. split; [reflexivity|]. exists l1, q, b, l2. auto.
    + assert (Ea : length (addrs (l1 ++ [(q, b)])) = (length (addrs l1) + Z.to_nat (len b))%nat) by (rewrite addrs_app, length_app; cbn; rewrite app_nil_r, length_seqZ; reflexivity).
      replace (Z.of_nat (length (addrs l1)) + len b) with (Z.of_nat (length (addrs (l1 ++ [(q, b)])))) by lia.
      apply (IH (l1 ++ [(q, b)]) l2); [rewrite El, <- app_assoc; reflexivity | exact Ch | lia | cbn in Hf; lia].
Qed.

Lemma seek_at {S} (s : S) i : (exists c, seek st p (Z.of_nat i) s = Some (s, Some c) /\ at_octet i c) \/ (seek st p (Z.of_nat i) s = Some (s, None) /\ (length (addrs l) <= i)%nat).
Proof.
  pose proof (chain_length_size _ _ _ (ms_chain _ _ _ Ms)) as Sz. unfold seek.
  destruct (seek_loop_at (Datatypes.S (size st)) [] l p i eq_refl (ms_chain _ _ _ Ms) ltac:(cbn; lia) ltac:(lia)) as [(c & E & A) | [E A]]; change (Z.of_nat (length (addrs []))) with 0 in E; rewrite E; [left | right]; eauto.
Qed.
Lemma seek_in {S} (s : S) i : (i < length (addrs l))%nat -> exists c, seek st p (Z.of_nat i) s = Some (s, Some c) /\ at_octet i c.
Proof. intros Hi. destruct (seek_at s i) as [R | [_ ?]]; [exact R | lia]. Qed.

Lemma next_at {S} (s : S) i c : at_octet i c ->
  (exists c', next_octet st c s = Some (s, Some c') /\ at_octet (Datatypes.S i) c') \/ (next_octet st c s = Some (s, None) /\ (length (addrs l) <= Datatypes.S i)%nat).
Proof.
  intros A. pose proof (at_octet_lt i c A) as Hi. pose proof message_length as Sm. destruct A as (l1 & q & b & l2 & E & H1 & H2 & ->). unfold next_octet. cbn [cu_ofs cu_plen cu_p cu_ptr].
  rewrite u16_id by lia. pose proof (ms_chain _ _ _ Ms) as Ch. rewrite E in Ch.
  assert (Cq : st !! q = Some b /\ chain st (next b) l2).
  { clear -Ch. revert Ch. generalize p. induction l1 as [|[y d] l1 IH]; intros h Ch; inversion Ch; subst; [auto | eauto]. }
  destruct Cq as [Eq C2]. destruct (Z.leb_spec (Z.of_nat (length (addrs l1)) + len b) (Z.of_nat i + 1)) as [Le|Gt].
  - rewrite Eq. assert (Ea : length (addrs (l1 ++ [(q, b)])) = (length (addrs l1) + Z.to_nat (len b))%nat) by (rewrite addrs_app, length_app; cbn; rewrite app_nil_r, length_seqZ; reflexivity).
    destruct C2 as [|q2 b2 l3 N2 E2 C3].
    + right. split; [reflexivity|]. rewrite E. lia.
    + rewrite (proj2 (Z.eqb_neq q2 0)) by exact N2. rewrite E2. left. destruct (full_app _ _ E) as [_ F]. apply Forall_cons in F as [_ F]. apply Forall_cons in F as [F2 _]. cbn in F2.
      rewrite E, addrs_app, length_app in Sm. cbn in Sm. rewrite !length_app, !length_seqZ in Sm. rewrite u16_id by lia. eexists. split; [reflexivity|].
      exists (l1 ++ [(q, b)]), q2, b2, l3. split; [rewrite E, <- app_assoc; reflexivity|]. rewrite Ea. split; [lia | split; [lia|]]. f_equal; lia.
  - left. eexists. split; [reflexivity|]. exists l1, q, b, l2. split; [exact E | split; [lia | split; [lia|]]]. f_equal; lia.
Qed.
Lemma next_in {S} (s : S) i c : at_octet i c -> (Datatypes.S i < length (addrs l))%nat -> exists c', next_octet st c s = Some (s, Some c') /\ at_octet (Datatypes.S i) c'.
Proof. intros A Hi. destruct (next_at s i c A) as [R | [_ ?]]; [exact R | lia]. Qed.

(** ** Writing *)

Definition data (m : memory) : list Z := ld8 m <$> addrs l.
(** [bs] in place of the octets from [i] on. *)
Definition wrote (i : nat) (bs d : list Z) : list Z := take i d ++ bs ++ drop (i + length bs) d.

Lemma data_length m : length (data m) = length (addrs l).
Proof. apply length_fmap. Qed.
Lemma wrote_length i bs d : (i + length bs <= length d)%nat -> length (wrote i bs d) = length d.
Proof. intros Hi. unfold wrote. rewrite !length_app, length_take, length_drop. lia. Qed.
Lemma wrote_cons i v bs d : (i + length bs < length d)%nat -> wrote (Datatypes.S i) bs (<[i := v]> d) = wrote i (v :: bs) d.
Proof.
  intros Hi. unfold wrote. rewrite take_S_r with (x := v) by (apply list_lookup_insert_eq; lia). rewrite take_insert_ge by lia. rewrite <- app_assoc. cbn. do 3 f_equal.
  rewrite drop_insert_lt by lia. f_equal. lia.
Qed.
Lemma wrote_nil i d : wrote i [] d = d.
Proof. unfold wrote. cbn. rewrite Nat.add_0_r. apply take_drop. Qed.
Lemma wrote_app i bs1 bs2 d : (i + length bs1 + length bs2 <= length d)%nat -> wrote (i + length bs1) bs2 (wrote i bs1 d) = wrote i (bs1 ++ bs2) d.
Proof.
  revert i d. induction bs1 as [|b bs1 IH]; intros i d Hi; cbn [length app] in *; [rewrite wrote_nil, Nat.add_0_r; reflexivity|].
  rewrite <- (wrote_cons i b bs1), <- (wrote_cons i b (bs1 ++ bs2)) by (rewrite ?length_app; lia). rewrite <- IH by (rewrite length_insert; lia). f_equal. lia.
Qed.

Lemma store_data i c v m : at_octet i c -> data (st8 m (cu_ptr c) (u8 v)) = <[i := u8 v]> (data m).
Proof.
  intros A. pose proof (at_octet_addr i c A) as Ea. pose proof (at_octet_lt i c A) as Hi. apply list_eq. intros k. unfold data. destruct (decide (k = i)) as [->|N].
  - rewrite list_lookup_insert_eq by (rewrite length_fmap; exact Hi). rewrite list_lookup_fmap, Ea. cbn. rewrite ld8_st8_eq. rewrite u8_id by apply u8_range. reflexivity.
  - rewrite list_lookup_insert_ne by congruence. rewrite !list_lookup_fmap. destruct (addrs l !! k) as [y|] eqn:Ek; [| reflexivity]. cbn. rewrite ld8_st8_ne; [reflexivity|].
    intros ->. apply N. exact (NoDup_lookup _ _ _ _ (ms_apart _ _ _ Ms) Ek Ea).
Qed.

(** [x] writes [bs] from [i] on and nothing else. *)
Definition emits {A} (i : nat) (x : prog memory A) (bs : list Z) (P : A -> Prop) : Prop :=
  forall m, exists m' a, x m = Some (m', Some a) /\ P a /\ data m' = wrote i bs (data m) /\ forall y, y ∉ addrs l -> ld8 m' y = ld8 m y.

Lemma emits_store i c v : at_octet i c -> emits i (store c v) [u8 v] (fun _ => True).
Proof.
  intros A m. exists (st8 m (cu_ptr c) (u8 v)), tt. split; [reflexivity | split; [exact Logic.I | split]].
  - rewrite (store_data i c v m A), <- (wrote_cons i (u8 v) []) by (cbn; rewrite data_length; pose proof (at_octet_lt i c A); lia). rewrite wrote_nil. reflexivity.
  - intros y Ny. apply ld8_st8_ne. intros ->. apply Ny. exact (list_elem_of_lookup_2 _ _ _ (at_octet_addr i c A)).
Qed.
Lemma emits_ret {A} i (a : A) (P : A -> Prop) : P a -> emits i (ret a) [] P.
Proof. intros Pa m. exists m, a. rewrite wrote_nil. auto. Qed.
Lemma emits_weaken {A} i (x : prog memory A) bs (P Q : A -> Prop) : (forall a, P a -> Q a) -> emits i x bs P -> emits i x bs Q.
Proof. intros PQ E m. destruct (E m) as (m' & a & R). exists m', a. firstorder. Qed.
Lemma emits_bind {A B} i (x : prog memory A) (f : A -> prog memory B) bs1 bs2 P Q : (i + length bs1 + length bs2 <= length (addrs l))%nat -> emits i x bs1 P ->
  (forall a, P a -> emits (i + length bs1) (f a) bs2 Q) -> emits i (bind x f) (bs1 ++ bs2) Q.
Proof.
  intros Hi Ex Ef m. destruct (Ex m) as (m1 & a & E1 & Pa & D1 & K1). destruct (Ef a Pa m1) as (m2 & b & E2 & Qb & D2 & K2). exists m2, b. unfold bind. rewrite E1.
  split; [exact E2 | split; [exact Qb | split]]; [rewrite D2, D1; apply wrote_app; rewrite data_length; exact Hi | intros y Ny; rewrite K2, K1 by exact Ny; reflexivity].
Qed.
Lemma emits_next {A} i c (f : cursor -> prog memory A) bs Q : at_octet i c -> (Datatypes.S i < length (addrs l))%nat ->
  (forall c', at_octet (Datatypes.S i) c' -> emits (Datatypes.S i) (f c') bs Q) -> emits (Datatypes.S i) (bind (next_octet st c) f) bs Q.
Proof. intros Ac Hi Ef m. destruct (next_in m i c Ac Hi) as (c' & E & A'). unfold bind. rewrite E. exact (Ef c' A' m). Qed.
Lemma emits_cons {A} i c v (f : cursor -> prog memory A) bs Q : at_octet i c -> (Datatypes.S i < length (addrs l))%nat -> (i + Datatypes.S (length bs) <= length (addrs l))%nat ->
  (forall c', at_octet (Datatypes.S i) c' -> emits (Datatypes.S i) (f c') bs Q) -> emits i (store c v;; bind (next_octet st c) f) (u8 v :: bs) Q.
Proof.
  intros Ac Hi Hb Ef. apply (emits_bind i (store c v) _ [u8 v] bs (fun _ => True)); [cbn; lia | apply emits_store, Ac|]. intros _ _. cbn. rewrite Nat.add_1_r. apply (emits_next i c f bs Q Ac Hi Ef).
Qed.

(** A whole function. *)
Lemma emits_result i (f : cursor -> prog memory unit) bs m : (i < length (addrs l))%nat -> (forall c, at_octet i c -> emits i (f c) bs (fun _ => True)) ->
  exists m', result ((c <~ seek st p (Z.of_nat i); f c) m) = Some (m', ERR_OK) /\ data m' = wrote i bs (data m) /\ forall y, y ∉ addrs l -> ld8 m' y = ld8 m y.
Proof.
  intros Hi Ef. destruct (seek_in m i Hi) as (c & E & A). destruct (Ef c A m) as (m' & [] & Ex & _ & D & K). exists m'. unfold bind. rewrite E, Ex. auto.
Qed.

(** ** What is encoded *)

Definition length_octets (n : Z) : list Z := if n <? 0x80 then [n] else if n <? 0x100 then [0x81; n] else [0x82; n / 256; n mod 256].
(** The [n] low octets of a number. *)
Fixpoint be_octets (n : nat) (v : Z) : list Z :=
  match n with Datatypes.S (Datatypes.S _ as n) => u8 (Z.shiftr v (8 * Z.of_nat n)) :: be_octets n v | _ => [u8 v] end.
Definition u32_octets (v : Z) : list Z :=
  let n := snmp_asn1_enc_u32t_cnt v in if n =? 5 then 0 :: be_octets 4 v else be_octets (Z.to_nat n) v.
Definition s32_octets (v : Z) : list Z := be_octets (Z.to_nat (snmp_asn1_enc_s32t_cnt v)) v.

Lemma be_octets_S n v : be_octets (Datatypes.S (Datatypes.S n)) v = u8 (Z.shiftr v (8 * Z.of_nat (Datatypes.S n))) :: be_octets (Datatypes.S n) v.
Proof. reflexivity. Qed.
Lemma be_octets_length n v : length (be_octets n v) = Nat.max 1 n.
Proof. induction n as [|n IH]; [reflexivity|]. destruct n as [|n]; [reflexivity|]. rewrite be_octets_S. cbn [length]. rewrite IH. lia. Qed.

Lemma enc_octets_emits n : forall i v c, at_octet i c -> (i + Nat.max 1 n <= length (addrs l))%nat -> emits i (enc_octets st n v c) (be_octets n v) (fun _ => True).
Proof.
  induction n as [|n IH]; intros i v c A Hi; [apply emits_store, A|]. destruct n as [|n]; [apply emits_store, A|]. rewrite be_octets_S. change (enc_octets st (Datatypes.S (Datatypes.S n)) v c) with (store c (Z.shiftr v (8 * Z.of_nat (Datatypes.S n)));; bind (next_octet st c) (enc_octets st (Datatypes.S n) v)).
  apply emits_cons; [exact A | lia | rewrite be_octets_length; lia|]. intros c' A'. apply IH; [exact A' | lia].
Qed.

Lemma length_emits i n c : at_octet i c -> 0 <= n < 65536 -> (i + length (length_octets n) <= length (addrs l))%nat ->
  emits i (if n <? 0x80 then store c n else if n <? 0x100 then store c 0x81;; c <~ next_octet st c; store c n else store c 0x82;; enc_length_loop st 2 n c)
    (length_octets n) (fun _ => True).
Proof.
  intros A Hn. unfold length_octets. destruct (Z.ltb_spec n 0x80); [| destruct (Z.ltb_spec n 0x100)]; cbn [length]; intros Hi.
  - rewrite <- (u8_id n) at 2 by lia. apply emits_store, A.
  - change 0x81 with (u8 0x81) at 2. apply emits_cons; [exact A | lia | cbn; lia|]. intros c' A'. rewrite <- (u8_id n) at 2 by lia. apply emits_store, A'.
  - change 0x82 with (u8 0x82) at 2. cbn [enc_length_loop Nat.eqb]. apply emits_cons; [exact A | lia | cbn; lia|]. intros c1 A1.
    assert (u8 (Z.shiftr n 8) = n / 256) as <- by (rewrite Z.shiftr_div_pow2 by lia; change (2 ^ 8) with 256; apply u8_id; zlia). apply emits_cons; [exact A1 | lia | cbn; lia|].
    intros c2 A2. apply (emits_bind _ _ _ [n mod 256] [] (fun _ => True)); [cbn; lia | exact (emits_store _ _ n A2) | intros _ _; apply emits_ret; exact Logic.I].
Qed.

Lemma u32_emits i v c : at_octet i c -> (i + length (u32_octets v) <= length (addrs l))%nat ->
  emits i (if snmp_asn1_enc_u32t_cnt v =? 5 then store c 0;; c <~ next_octet st c; enc_octets st 4 v c else enc_octets st (Z.to_nat (snmp_asn1_enc_u32t_cnt v)) v c)
    (u32_octets v) (fun _ => True).
Proof.
  intros A. unfold u32_octets. destruct (snmp_asn1_enc_u32t_cnt v =? 5).
  - cbn [length]. intros Hi. rewrite be_octets_length in Hi. change 0 with (u8 0) at 2. apply emits_cons; [exact A | lia | rewrite be_octets_length; lia|].
    intros c' A'. apply enc_octets_emits; [exact A' | lia].
  - rewrite be_octets_length. apply enc_octets_emits, A.
Qed.

(** The octets of a sub-identifier: seven bits each, all but the last with the top bit. *)
Fixpoint high_octets (k : nat) (sub_id : Z) (tail : bool) : list Z :=
  match k with
  | O => []
  | Datatypes.S k' =>
      let code := u8 (Z.shiftr sub_id (7 * Z.of_nat k)) in
      if negb (code =? 0) || tail then Z.lor code 0x80 :: high_octets k' sub_id true else high_octets k' sub_id tail
  end.
Definition sub_octets (sub_id : Z) : list Z := high_octets 4 sub_id false ++ [Z.land sub_id 0x7f].
Definition ident_octets (ids : list Z) : list Z := concat (sub_octets <$> ids).
Definition oid_octets (i0 i1 : Z) (ids : list Z) : list Z := (i0 * 40 + i1) :: ident_octets ids.

Lemma lor_u8 code : 0 <= code < 256 -> u8 (Z.lor code 0x80) = Z.lor code 0x80.
Proof.
  intros Hc. apply u8_id. split; [apply Z.lor_nonneg; lia|]. apply Z.log2_lt_cancel. rewrite Z.log2_lor by lia. change (Z.log2 256) with 8. change (Z.log2 0x80) with 7.
  assert (Z.log2 code <= Z.log2 255) by (apply Z.log2_le_mono; lia). change (Z.log2 255) with 7 in *. lia.
Qed.

Lemma sub_id_emits k : forall i v tail c, at_octet i c -> (i + length (high_octets k v tail) < length (addrs l))%nat ->
  emits i (enc_sub_id st k v tail c) (high_octets k v tail) (fun c' => at_octet (i + length (high_octets k v tail)) c').
Proof.
  induction k as [|k IH]; intros i v tail c A Hi; cbn [enc_sub_id high_octets] in *; [rewrite Nat.add_0_r; apply emits_ret, A|].
  set (code := u8 _) in *. destruct (negb (code =? 0) || tail); [| apply IH; assumption]. cbn [length] in *. rewrite <- (lor_u8 code) at 2 by apply u8_range.
  apply emits_cons; [exact A | lia | lia|]. intros c' A'. apply (emits_weaken _ _ _ (fun c' => at_octet (Datatypes.S i + length (high_octets k v true)) c')); [| apply IH; [exact A' | lia]].
  intros a. rewrite Nat.add_succ_r. exact id.
Qed.

Lemma last_octet v : Z.land (u8 v) 0x7F = Z.land v 0x7f.
Proof. unfold u8. change 256 with (2 ^ 8). rewrite <- Z.land_ones by lia. rewrite <- Z.land_assoc. reflexivity. Qed.
Lemma last_octet_range v : 0 <= Z.land v 0x7f < 128.
Proof. change 0x7f with (Z.ones 7). rewrite Z.land_ones by lia. apply Z.mod_pos_bound. lia. Qed.

Lemma ident_emits ids : forall i c, ids <> [] -> at_octet i c -> (i + length (ident_octets ids) <= length (addrs l))%nat -> emits i (enc_ident st ids c) (ident_octets ids) (fun _ => True).
Proof.
  induction ids as [|v ids IH]; intros i c Ne A Hi; [contradiction|]. unfold ident_octets in *. cbn [fmap list_fmap concat enc_ident] in *. fold (ident_octets ids) in *.
  unfold sub_octets in *. rewrite <- app_assoc. rewrite !length_app in Hi. cbn [length] in Hi. pose proof (last_octet_range v) as Lo.
  apply (emits_bind i _ _ (high_octets 4 v false) _ (fun c' => at_octet (i + length (high_octets 4 v false)) c')); [rewrite length_app; cbn [length]; fold (ident_octets ids); lia | apply sub_id_emits; [exact A | lia] |].
  intros c' A'. cbn [app]. rewrite last_octet. rewrite <- (u8_id (Z.land v 0x7f)) at 2 by lia. destruct ids as [|w ids].
  - apply (emits_bind _ _ _ [_] [] (fun _ => True)); [cbn [length]; lia | apply emits_store, A' | intros _ _; apply emits_ret; exact Logic.I].
  - assert (Hp : (0 < length (ident_octets (w :: ids)))%nat) by (unfold ident_octets; cbn [fmap list_fmap concat]; unfold sub_octets; rewrite !length_app; cbn [length]; lia).
    apply emits_cons; [exact A' | lia | lia|]. intros c2 A2. apply IH; [discriminate | exact A2 | lia].
Qed.

(** ** Reading *)

(** The octets from [i] on start with [bs]. *)
Definition reads (m : memory) (i : nat) (bs : list Z) : Prop := exists r, drop i (data m) = bs ++ r.

Lemma octet_at m i c : at_octet i c -> data m !! i = Some (octet m c).
Proof. intros A. unfold data. rewrite list_lookup_fmap, (at_octet_addr i c A). reflexivity. Qed.
Lemma reads_cons m i b bs c : reads m i (b :: bs) -> at_octet i c -> octet m c = b /\ reads m (Datatypes.S i) bs.
Proof.
  intros [r E] A. pose proof (octet_at m i c A) as Eo. rewrite (drop_S _ _ _ Eo) in E. cbn in E. injection E as E1 E2. split; [exact E1 | exists r; exact E2].
Qed.
Lemma reads_lt m i bs : reads m i bs -> bs <> [] -> (i + length bs <= length (addrs l))%nat.
Proof.
  intros [r E] N. apply (f_equal length) in E. rewrite length_drop, length_app, data_length in E. destruct bs; [contradiction|]. cbn in *. lia.
Qed.
Lemma reads_wrote m i bs d : data m = wrote i bs d -> (i + length bs <= length d)%nat -> reads m i bs.
Proof.
  intros E Hi. exists (drop (i + length bs) d). rewrite E. unfold wrote. rewrite drop_app_length' by (rewrite length_take; lia). reflexivity.
Qed.
Lemma next_reads {S} (s : S) m i c b b2 bs : reads m i (b :: b2 :: bs) -> at_octet i c -> exists c', next_octet st c s = Some (s, Some c') /\ at_octet (Datatypes.S i) c'.
Proof. intros R A. apply reads_lt in R; [| discriminate]. cbn in R. apply next_in; [exact A | lia]. Qed.

(** What the loops compute. *)
Fixpoint u32_value (v : Z) (bs : list Z) : Z :=
  match bs with [] => v | [b] => Z.lor v b | b :: bs => u32_value (u32 (Z.shiftl (Z.lor v b) 8)) bs end.
Fixpoint s32_value (sign : bool) (v : Z) (bs : list Z) : Z :=
  match bs with
  | [] => v
  | [b] => set_lsb v (if sign then Z.land (lsb v) b else Z.lor (lsb v) b)
  | b :: bs => s32_value sign (if sign then set_lsb (shift8 (set_lsb v (Z.land (lsb v) b))) 255 else shift8 (set_lsb v (Z.lor (lsb v) b))) bs
  end.

Lemma dec_u32_reads m bs : forall i c v, bs <> [] -> reads m i bs -> at_octet i c -> dec_u32_loop st m (length bs) c v = Some (u32_value v bs, Some tt).
Proof.
  induction bs as [|b bs IH]; intros i c v N R A; [contradiction|]. pose proof (reads_cons _ _ _ _ _ R A) as [Eo R']. destruct bs as [|b2 bs].
  - cbn. unfold modify. rewrite Eo. reflexivity.
  - destruct (next_reads (u32 (Z.shiftl (Z.lor v b) 8)) _ _ _ _ _ _ R A) as (c' & E & A'). specialize (IH _ c' (u32 (Z.shiftl (Z.lor v b) 8)) ltac:(discriminate) R' A').
    cbn [length] in *. change (dec_u32_loop st m (Datatypes.S (Datatypes.S (length bs))) c v) with
      ((modify (fun v => u32 (Z.shiftl (Z.lor v (octet m c)) 8));; bind (next_octet st c) (dec_u32_loop st m (Datatypes.S (length bs)))) v).
    unfold bind, modify. rewrite Eo, E. exact IH.
Qed.
Lemma dec_s32_reads m sign bs : forall i c v, bs <> [] -> reads m i bs -> at_octet i c -> dec_s32_loop st m (length bs) sign c v = Some (s32_value sign v bs, Some tt).
Proof.
  induction bs as [|b bs IH]; intros i c v N R A; [contradiction|]. pose proof (reads_cons _ _ _ _ _ R A) as [Eo R']. destruct bs as [|b2 bs].
  - cbn. unfold modify. rewrite Eo. reflexivity.
  - set (v' := if sign then set_lsb (shift8 (set_lsb v (Z.land (lsb v) b))) 255 else shift8 (set_lsb v (Z.lor (lsb v) b))).
    destruct (next_reads v' _ _ _ _ _ _ R A) as (c' & E & A'). specialize (IH _ c' v' ltac:(discriminate) R' A').
    cbn [length] in *. change (dec_s32_loop st m (Datatypes.S (Datatypes.S (length bs))) sign c v) with
      ((modify (fun v => if sign then set_lsb (shift8 (set_lsb v (Z.land (lsb v) (octet m c)))) 255 else shift8 (set_lsb v (Z.lor (lsb v) (octet m c))));;
        bind (next_octet st c) (dec_s32_loop st m (Datatypes.S (length bs)) sign)) v).
    unfold bind, modify. rewrite Eo. fold v'. rewrite E. exact IH.
Qed.

End message.

(** ** Numbers *)

Lemma shiftr_pow v n : Z.shiftr v (8 * Z.of_nat n) = v / 256 ^ Z.of_nat n.
Proof. rewrite Z.shiftr_div_pow2, Z.pow_mul_r by lia. reflexivity. Qed.
Lemma shiftr_step v n : Z.shiftr v (8 * Z.of_nat (Datatypes.S n)) = Z.shiftr v (8 * Z.of_nat n) / 256.
Proof. rewrite !shiftr_pow, Nat2Z.inj_succ, Z.pow_succ_r, (Z.mul_comm 256), Z.div_div by lia. reflexivity. Qed.
Lemma lor_octet h : Z.lor (u32 (h / 256 * 256)) (h mod 256) = u32 h.
Proof.
  assert (u32 (h / 256 * 256) = u32 (h / 256 * 256) / 256 * 2 ^ 8) as -> by (change (2 ^ 8) with 256; unfold u32; zlia).
  rewrite lor_shift_add by (change (2 ^ 8) with 256; zlia). change (2 ^ 8) with 256. unfold u32. zlia.
Qed.

Lemma u32_value_octets n v : u32_value (u32 (Z.shiftl (Z.shiftr v (8 * Z.of_nat (Datatypes.S n))) 8)) (be_octets (Datatypes.S n) v) = u32 v.
Proof.
  induction n as [|n IH].
  - cbn [be_octets u32_value]. rewrite shiftr_step. change (Z.shiftr v (8 * Z.of_nat 0)) with v. rewrite shiftl_8. apply lor_octet.
  - rewrite be_octets_S. remember (be_octets (Datatypes.S n) v) as bs eqn:Eb. cbn [u32_value]. destruct bs as [|b bs]; [destruct n; discriminate|]. rewrite <- IH. f_equal.
    rewrite (shiftr_step v (Datatypes.S n)), !shiftl_8. set (h := Z.shiftr v (8 * Z.of_nat (Datatypes.S n))). unfold u8. rewrite lor_octet. unfold u32. zlia.
Qed.

(** Numbers of [n] octets, and their sign. *)
Lemma shiftr_zero v n : 0 <= v < 256 ^ Z.of_nat n -> Z.shiftr v (8 * Z.of_nat n) = 0.
Proof. intros Hv. rewrite shiftr_pow. apply Z.div_small, Hv. Qed.
Lemma u32_value_be n v : 0 <= v < 256 ^ Z.of_nat (Datatypes.S n) -> v < 4294967296 -> u32_value 0 (be_octets (Datatypes.S n) v) = v.
Proof.
  intros Hv Hs. pose proof (u32_value_octets n v) as E. rewrite shiftr_zero in E by exact Hv. change (u32 (Z.shiftl 0 8)) with 0 in E. rewrite E. apply u32_id. lia.
Qed.

Definition sval (x : Z) : Z := s32 (u32 x).
Lemma lsb_mod v : lsb v = v mod 256.
Proof. unfold lsb. change 255 with (Z.ones 8). rewrite Z.land_ones by lia. reflexivity. Qed.
Lemma shift8_sval h : shift8 h = sval (h * 256).
Proof. unfold shift8. rewrite shiftl_8. reflexivity. Qed.
Lemma lsb_shift8 h : lsb (shift8 h) = 0.
Proof. rewrite lsb_mod, shift8_sval. unfold sval, s32, u32. zlia. Qed.
Lemma low_octet h : shift8 (h / 256) + h mod 256 = sval h.
Proof. rewrite shift8_sval. unfold sval, s32, u32. zlia. Qed.
Lemma shift8_again h : shift8 (sval h) = shift8 h.
Proof. rewrite !shift8_sval. unfold sval, s32, u32. zlia. Qed.

(** The low octet of what the loop carries is 0 or 255. *)
Definition carries (sign : bool) (h : Z) : Z := if sign then set_lsb (shift8 h) 255 else shift8 h.
Lemma carries_octet sign h : set_lsb (carries sign (h / 256)) (if sign then Z.land (lsb (carries sign (h / 256))) (h mod 256) else Z.lor (lsb (carries sign (h / 256))) (h mod 256)) = sval h.
Proof.
  assert (E : lsb (carries sign (h / 256)) = if sign then 255 else 0).
  { unfold carries, set_lsb. destruct sign; rewrite ?lsb_shift8; [| reflexivity]. pose proof (lsb_shift8 (h / 256)) as L. rewrite lsb_mod in *. zlia. }
  unfold set_lsb. rewrite E. destruct sign.
  - change 255 with (Z.ones 8) at 2. rewrite Z.land_comm, Z.land_ones by lia. change (2 ^ 8) with 256. rewrite Z.mod_mod by lia. unfold carries, set_lsb. rewrite lsb_shift8.
    rewrite <- low_octet. lia.
  - rewrite Z.lor_0_l. unfold carries. rewrite <- low_octet. lia.
Qed.

Lemma s32_value_octets sign n v : s32_value sign (carries sign (Z.shiftr v (8 * Z.of_nat (Datatypes.S n)))) (be_octets (Datatypes.S n) v) = sval v.
Proof.
  induction n as [|n IH].
  - cbn [be_octets s32_value]. rewrite shiftr_step. change (Z.shiftr v (8 * Z.of_nat 0)) with v. apply carries_octet.
  - rewrite be_octets_S. remember (be_octets (Datatypes.S n) v) as bs eqn:Eb. cbn [s32_value]. destruct bs as [|b bs]; [destruct n; discriminate|]. rewrite <- IH. f_equal.
    rewrite (shiftr_step v (Datatypes.S n)). set (h := Z.shiftr v (8 * Z.of_nat (Datatypes.S n))). unfold u8. pose proof (carries_octet sign h) as E. destruct sign; rewrite E, shift8_again; reflexivity.
Qed.

(** ** Decoding what was encoded *)

Lemma top_bit b : 0 <= b < 256 -> (Z.land b 0x80 =? 0) = (b <? 0x80).
Proof.
  intros Hb. assert (F : forallb (fun b => Bool.eqb (Z.land b 0x80 =? 0) (b <? 0x80)) (seqZ 0 256) = true) by (vm_compute; reflexivity).
  apply Bool.eqb_prop. apply (proj1 (forallb_forall _ _) F). apply list_elem_of_In, elem_of_seqZ. lia.
Qed.

(** The first of [n + 1] octets. *)
Lemma be_octets_first n v : exists r, be_octets (Datatypes.S n) v = u8 (v / 256 ^ Z.of_nat n) :: r /\ (r = [] /\ n = O \/ exists k, n = Datatypes.S k /\ r = be_octets n v).
Proof.
  destruct n as [|n]; [exists []; cbn; rewrite Z.div_1_r; auto|]. rewrite be_octets_S, shiftr_pow. exists (be_octets (Datatypes.S n) v). split; [reflexivity | right; eauto].
Qed.

(** Sub-identifiers: seven bits of each octet. *)
Lemma more_bit code : 0 <= code < 256 -> 128 <= Z.lor code 0x80 < 256 /\ Z.land (Z.lor code 0x80) 0x7f = code mod 128.
Proof.
  intros Hb. assert (F : forallb (fun b => (128 <=? Z.lor b 0x80) && (Z.lor b 0x80 <? 256) && (Z.land (Z.lor b 0x80) 0x7f =? b mod 128)) (seqZ 0 256) = true) by (vm_compute; reflexivity).
  pose proof (proj1 (forallb_forall _ _) F code (proj1 (list_elem_of_In _ _) (proj2 (elem_of_seqZ 0 256 code) ltac:(lia)))) as E. cbv beta in E. apply andb_true_iff in E as [[E1%Z.leb_le E2%Z.ltb_lt]%andb_true_iff E3%Z.eqb_eq]. auto.
Qed.
Fixpoint sub_value (acc : Z) (bs : list Z) : Z :=
  match bs with [] => acc | b :: bs => sub_value (s32 (u32 (Z.shiftl acc 7 + Z.land b 0x7f))) bs end.

Lemma high_octets_top k v tail : Forall (fun b => 128 <= b < 256) (high_octets k v tail).
Proof.
  revert tail. induction k as [|k IH]; intros tail; cbn [high_octets]; [constructor|]. destruct (_ || _); [| apply IH]. constructor; [apply more_bit, u8_range | apply IH].
Qed.
Lemma seven v k : Z.shiftr v (7 * Z.of_nat (Datatypes.S k)) = Z.shiftr v (7 * Z.of_nat k) / 128.
Proof. rewrite <- (Z.shiftr_div_pow2 _ 7), Z.shiftr_shiftr by lia. f_equal. lia. Qed.

Lemma sub_value_octets k : forall v tail, 0 <= v < 2147483648 -> tail = true \/ Z.shiftr v (7 * Z.of_nat (Datatypes.S k)) = 0 ->
  sub_value (Z.shiftr v (7 * Z.of_nat (Datatypes.S k))) (high_octets k v tail) = Z.shiftr v 7.
Proof.
  induction k as [|k IH]; intros v tail Hv Ht; [reflexivity|]. cbn [high_octets]. rewrite (seven v (Datatypes.S k)) in Ht |- *. set (h := Z.shiftr v (7 * Z.of_nat (Datatypes.S k))) in *.
  assert (Hh : 0 <= h < 2147483648).
  { unfold h. rewrite Z.shiftr_div_pow2 by lia. assert (0 < 2 ^ (7 * Z.of_nat (Datatypes.S k))) by (apply Z.pow_pos_nonneg; lia). split; [apply Z.div_pos; lia | apply Z.div_lt_upper_bound; nia]. }
  destruct (negb (u8 h =? 0) || tail) eqn:Eb.
  - cbn [sub_value]. rewrite <- (IH v true Hv (or_introl eq_refl)). fold h. f_equal. destruct (more_bit (u8 h) (u8_range h)) as [_ ->].
    rewrite Z.shiftl_mul_pow2 by lia. change (2 ^ 7) with 128. unfold u8, u32, s32. zlia.
  - apply orb_false_iff in Eb as [Eb ->]. apply negb_false_iff, Z.eqb_eq in Eb. destruct Ht as [?|Ht]; [discriminate|].
    assert (Hz : h = 0) by (unfold u8 in Eb; zlia). rewrite Ht. rewrite <- (IH v false Hv (or_intror Hz)). fold h. rewrite Hz. reflexivity.
Qed.

Lemma sub_value_all v : 0 <= v < 2147483648 -> sub_value 0 (high_octets 4 v false) = v / 128.
Proof.
  intros Hv. assert (E0 : Z.shiftr v (7 * Z.of_nat 5) = 0) by (rewrite Z.shiftr_div_pow2 by lia; apply Z.div_small; cbn; lia).
  pose proof (sub_value_octets 4 v false Hv (or_intror E0)) as E. rewrite E0 in E. rewrite E. rewrite Z.shiftr_div_pow2 by lia. reflexivity.
Qed.

Section message.
Context (st : pstore) (p : Z) (l : list (Z * pbuf)) (Ms : message st p l) (m : memory).

Lemma dec_start {S} (s : S) i bs (f : cursor -> prog S unit) : bs <> [] -> reads l m i bs ->
  exists c, at_octet l i c /\ result ((c <~ seek st p (Z.of_nat i); f c) s) = result (f c s).
Proof.
  intros N R. pose proof (reads_lt l m i bs R N) as Hi. destruct bs; [contradiction|]. cbn in Hi. destruct (seek_in st p l Ms s i ltac:(lia)) as (c & E & A).
  exists c. split; [exact A|]. unfold bind. rewrite E. reflexivity.
Qed.

Lemma dec_u32_be k i v old : (k < 5)%nat -> 0 <= v < 128 * 256 ^ Z.of_nat k -> v < 4294967296 -> reads l m i (be_octets (Datatypes.S k) v) ->
  snmp_asn1_dec_u32t st m p (Z.of_nat i) (Z.of_nat (Datatypes.S k)) old = Some (v, ERR_OK).
Proof.
  intros Hk Hv Hs R. unfold snmp_asn1_dec_u32t. assert (Np : be_octets (Datatypes.S k) v <> []) by (destruct k; discriminate).
  match goal with |- result (bind _ ?g _) = _ => destruct (dec_start old i _ g Np R) as (c & A & ->) end. cbv beta.
  rewrite (proj2 (Z.ltb_lt 0 _)), (proj2 (Z.ltb_lt _ 6)) by lia. cbn [andb]. unfold bind at 1, modify.
  destruct (be_octets_first k v) as (r & Ef & Er). pose proof R as R0. rewrite Ef in R0. destruct (reads_cons l m i _ _ c R0 A) as [Eo R1]. assert (P1 : 0 < 256 ^ Z.of_nat k) by (apply Z.pow_pos_nonneg; lia).
  assert (Hd : 0 <= v / 256 ^ Z.of_nat k < 128) by (split; [apply Z.div_pos; lia | apply Z.div_lt_upper_bound; lia]). rewrite u8_id in Eo by lia. rewrite Eo.
  rewrite top_bit, (proj2 (Z.ltb_lt _ 0x80)) by lia. cbn [negb]. destruct Er as [[-> ->] | (k' & -> & ->)].
  - rewrite Z.pow_0_r, Z.div_1_r in *. change (1 <? Z.of_nat 1) with false. cbn [andb]. change (Z.to_nat (Z.of_nat 1)) with (length (be_octets 1 v)).
    rewrite (dec_u32_reads st p l Ms m _ i c 0 Np R A). rewrite u32_value_be by (cbn; lia). reflexivity.
  - rewrite (proj2 (Z.ltb_lt 1 _)) by lia. cbn [andb]. destruct (Z.eqb_spec (v / 256 ^ Z.of_nat (Datatypes.S k')) 0) as [Ez|Nz].
    + assert (Nb : be_octets (Datatypes.S k') v <> []) by (destruct k'; discriminate). destruct (be_octets (Datatypes.S k') v) as [|b2 r2] eqn:Eb; [contradiction|].
      destruct (next_reads st p l Ms 0 m i c _ _ _ R0 A) as (c' & E & A'). unfold bind. rewrite E. rewrite <- Eb in R1, Nb.
      replace (Z.to_nat (Z.of_nat (Datatypes.S (Datatypes.S k')) - 1)) with (length (be_octets (Datatypes.S k') v)) by (rewrite be_octets_length; lia).
      rewrite (dec_u32_reads st p l Ms m _ _ c' 0 Nb R1 A'). rewrite u32_value_be; [reflexivity | | exact Hs]. apply Z.div_small_iff in Ez; lia.
    + replace (Z.to_nat (Z.of_nat (Datatypes.S (Datatypes.S k')))) with (length (be_octets (Datatypes.S (Datatypes.S k')) v)) by (rewrite be_octets_length; lia).
      rewrite (dec_u32_reads st p l Ms m _ i c 0 Np R A). rewrite u32_value_be; [reflexivity | | exact Hs]. rewrite (Nat2Z.inj_succ (Datatypes.S k')), Z.pow_succ_r by lia. lia.
Qed.

Lemma dec_u32_octets i v old : 0 <= v < 4294967296 -> reads l m i (u32_octets v) ->
  snmp_asn1_dec_u32t st m p (Z.of_nat i) (Z.of_nat (length (u32_octets v))) old = Some (v, ERR_OK).
Proof.
  intros Hv R. unfold u32_octets, snmp_asn1_enc_u32t_cnt in *.
  destruct (Z.ltb_spec v 0x80) as [?|?]; [cbn [Z.eqb] in *; exact (dec_u32_be 0 i v old ltac:(lia) ltac:(cbn; lia) ltac:(lia) R)|].
  destruct (Z.ltb_spec v 0x8000) as [?|?]; [cbn [Z.eqb] in *; exact (dec_u32_be 1 i v old ltac:(lia) ltac:(cbn; lia) ltac:(lia) R)|].
  destruct (Z.ltb_spec v 0x800000) as [?|?]; [cbn [Z.eqb] in *; exact (dec_u32_be 2 i v old ltac:(lia) ltac:(cbn; lia) ltac:(lia) R)|].
  destruct (Z.ltb_spec v 0x80000000) as [?|?]; [cbn [Z.eqb] in *; exact (dec_u32_be 3 i v old ltac:(lia) ltac:(cbn; lia) ltac:(lia) R)|].
  change (5 =? 5) with true in *. cbn match in *.
  assert (E5 : 0 :: be_octets 4 v = be_octets 5 v).
  { rewrite (be_octets_S 3), shiftr_pow. rewrite Z.div_small by (cbn; lia). reflexivity. }
  rewrite E5 in *. exact (dec_u32_be 4 i v old ltac:(lia) ltac:(cbn; lia) ltac:(lia) R).
Qed.

Lemma dec_s32_be k i v old : (k < 4)%nat -> - (128 * 256 ^ Z.of_nat k) <= v < 128 * 256 ^ Z.of_nat k -> reads l m i (be_octets (Datatypes.S k) v) ->
  snmp_asn1_dec_s32t st m p (Z.of_nat i) (Z.of_nat (Datatypes.S k)) old = Some (v, ERR_OK).
Proof.
  intros Hk Hv R. unfold snmp_asn1_dec_s32t. assert (Np : be_octets (Datatypes.S k) v <> []) by (destruct k; discriminate).
  match goal with |- result (bind _ ?g _) = _ => destruct (dec_start old i _ g Np R) as (c & A & ->) end. cbv beta.
  rewrite (proj2 (Z.ltb_lt 0 _)), (proj2 (Z.ltb_lt _ 5)) by lia. cbn [andb].
  destruct (be_octets_first k v) as (r & Ef & _). pose proof R as R0. rewrite Ef in R0. destruct (reads_cons l m i _ _ c R0 A) as [Eo _]. assert (P1 : 0 < 256 ^ Z.of_nat k) by (apply Z.pow_pos_nonneg; lia).
  assert (P2 : 256 ^ Z.of_nat k <= 256 ^ 3) by (apply Z.pow_le_mono_r; lia). change (256 ^ 3) with 16777216 in P2.
  assert (Hd : -128 <= v / 256 ^ Z.of_nat k < 128) by (split; [apply Z.div_le_lower_bound; lia | apply Z.div_lt_upper_bound; lia]).
  assert (Hs : sval v = v) by (unfold sval, s32, u32; zlia). rewrite Eo, top_bit by apply u8_range.
  assert (Hh : Z.shiftr v (8 * Z.of_nat (Datatypes.S k)) = if v <? 0 then -1 else 0).
  { rewrite shiftr_pow, Nat2Z.inj_succ, Z.pow_succ_r by lia. destruct (Z.ltb_spec v 0); [symmetry; apply (Z.div_unique _ _ _ (v + 256 * 256 ^ Z.of_nat k)); [left|]; lia | apply Z.div_small; lia]. }
  assert (Eb : (u8 (v / 256 ^ Z.of_nat k) <? 0x80) = negb (v <? 0)).
  { unfold u8. destruct (Z.ltb_spec v 0) as [Lt|Ge]; cbn [negb].
    - assert (v / 256 ^ Z.of_nat k < 0) by (apply Z.div_lt_upper_bound; lia). apply Z.ltb_ge. zlia.
    - assert (0 <= v / 256 ^ Z.of_nat k) by (apply Z.div_pos; lia). apply Z.ltb_lt. zlia. }
  rewrite Eb, negb_involutive. replace (Z.to_nat (Z.of_nat (Datatypes.S k))) with (length (be_octets (Datatypes.S k) v)) by (rewrite be_octets_length; lia).
  destruct (v <? 0); unfold bind, modify.
  - rewrite (dec_s32_reads st p l Ms m true _ i c _ Np R A). pose proof (s32_value_octets true k v) as E. rewrite Hh in E. change (carries true (-1)) with (-1) in E. rewrite E, Hs. reflexivity.
  - rewrite (dec_s32_reads st p l Ms m false _ i c _ Np R A). pose proof (s32_value_octets false k v) as E. rewrite Hh in E. change (carries false 0) with 0 in E. rewrite E, Hs. reflexivity.
Qed.

Lemma dec_s32_octets i v old : -2147483648 <= v < 2147483648 -> reads l m i (s32_octets v) ->
  snmp_asn1_dec_s32t st m p (Z.of_nat i) (Z.of_nat (length (s32_octets v))) old = Some (v, ERR_OK).
Proof.
  intros Hv R. unfold s32_octets, snmp_asn1_enc_s32t_cnt in *. set (a := if v <? 0 then Z.lnot v else v) in *.
  assert (Ha : a = if v <? 0 then - v - 1 else v) by (unfold a, Z.lnot; destruct (v <? 0); lia). clearbody a.
  destruct (Z.ltb_spec a 0x80) as [?|?]; [apply (dec_s32_be 0 i v old ltac:(lia)); [destruct (Z.ltb_spec v 0); cbn; lia | exact R]|].
  destruct (Z.ltb_spec a 0x8000) as [?|?]; [apply (dec_s32_be 1 i v old ltac:(lia)); [destruct (Z.ltb_spec v 0); cbn; lia | exact R]|].
  destruct (Z.ltb_spec a 0x800000) as [?|?]; [apply (dec_s32_be 2 i v old ltac:(lia)); [destruct (Z.ltb_spec v 0); cbn; lia | exact R]|].
  apply (dec_s32_be 3 i v old ltac:(lia)); [cbn; lia | exact R].
Qed.

Lemma dec_length_octets i n o : 0 <= n < 65536 -> reads l m i (length_octets n) ->
  snmp_asn1_dec_length st m p (Z.of_nat i) o = Some ((snmp_asn1_enc_length_cnt n, n), ERR_OK).
Proof.
  intros Hn R. unfold snmp_asn1_dec_length, snmp_asn1_enc_length_cnt, length_octets in *.
  assert (N : (if n <? 0x80 then [n] else if n <? 0x100 then [0x81; n] else [0x82; n / 256; n mod 256]) <> []) by (destruct (n <? 0x80), (n <? 0x100); discriminate).
  match goal with |- result (bind _ ?g _) = _ => destruct (dec_start o i _ g N R) as (c & A & ->) end. clear N. cbv beta.
  destruct (Z.ltb_spec n 0x80) as [?|?]; [| destruct (Z.ltb_spec n 0x100)].
  - destruct (reads_cons l m i _ _ c R A) as [-> _]. rewrite (proj2 (Z.ltb_lt _ _)) by lia. reflexivity.
  - destruct (reads_cons l m i _ _ c R A) as [-> R1]. cbn [Z.ltb Z.eqb Z.compare Pos.compare Pos.compare_cont Pos.eqb].
    destruct (next_reads st p l Ms o m i c _ _ _ R A) as (c' & E & A'). destruct (reads_cons l m _ _ _ c' R1 A') as [Eo _]. unfold bind, set_length, set_used, modify. rewrite E, Eo. reflexivity.
  - destruct (reads_cons l m i _ _ c R A) as [-> R1]. cbn [Z.ltb Z.eqb Z.compare Pos.compare Pos.compare_cont Pos.eqb].
    destruct (next_reads st p l Ms o m i c _ _ _ R A) as (c1 & E1 & A1). destruct (reads_cons l m _ _ _ c1 R1 A1) as [Eo1 R2]. unfold dec_length_loop, bind, set_length, set_used, modify.
    destruct (next_reads (S := out_length) st p l Ms (o.1, Z.shiftl (n / 256) 8) m _ c1 _ _ _ R1 A1) as (c2 & E2 & A2). destruct (reads_cons l m _ _ _ c2 R2 A2) as [Eo2 _].
    rewrite E1. cbn [Nat.eqb]. rewrite Eo1. cbn [fst snd]. rewrite E2, Eo2. cbn [fst snd result mbind option_bind]. unfold ret.
    assert (Z.lor (Z.shiftl (n / 256) 8) (n mod 256) = n) as ->; [| reflexivity]. rewrite Z.shiftl_mul_pow2, lor_shift_add by (change (2 ^ 8) with 256; zlia). change (2 ^ 8) with 256. zlia.
Qed.

(** ** Object identifiers *)

Lemma dec_sub_id_reads bs : forall fuel i c len acc b r (o : snmp_obj_id), Forall (fun b => 128 <= b < 256) bs -> reads l m i (bs ++ b :: r) -> 0 <= b < 128 -> at_octet l i c ->
  Z.of_nat (length bs) < len -> (length bs < fuel)%nat ->
  exists c', dec_sub_id st m fuel len acc c o = Some (o, Some (len - Z.of_nat (length bs), sub_value acc bs, c')) /\ at_octet l (i + length bs) c'.
Proof.
  induction bs as [|b1 bs IH]; intros [|fuel] i c len acc b r o F R Hb A Hl Hf; cbn [length] in *; try lia; cbn [dec_sub_id].
  - destruct (reads_cons l m i _ _ c R A) as [-> _]. rewrite top_bit, (proj2 (Z.ltb_lt b _)) by lia. cbn [negb andb]. exists c. rewrite Nat.add_0_r, Z.sub_0_r. split; [reflexivity | exact A].
  - apply Forall_cons in F as [F1 F]. destruct (reads_cons l m i _ _ c R A) as [Eo R1]. rewrite Eo, top_bit, (proj2 (Z.ltb_ge b1 _)) by lia. cbn [negb].
    rewrite (proj2 (Z.ltb_lt 1 _)) by lia. cbn [andb]. assert (En : exists c', next_octet st c o = Some (o, Some c') /\ at_octet l (Datatypes.S i) c').
    { apply (next_in st p l Ms); [exact A|]. apply reads_lt in R; [| discriminate]. cbn in R. rewrite length_app in R. cbn in R. lia. }
    destruct En as (c1 & E1 & A1). unfold bind. rewrite E1.
    destruct (IH fuel (Datatypes.S i) c1 (len - 1) (s32 (u32 (Z.shiftl acc 7 + Z.land b1 0x7f))) b r o F R1 Hb A1 ltac:(lia) ltac:(lia)) as (c' & E & A'). exists c'. rewrite E. split; [| rewrite Nat.add_succ_r; exact A'].
    do 5 f_equal. lia.
Qed.

Lemma dec_one_reads idx i c len v r (o : snmp_obj_id) : 0 <= v < 2147483648 -> reads l m i (sub_octets v ++ r) -> at_octet l i c ->
  Z.of_nat (length (sub_octets v)) <= len -> (idx < length (oid_id o))%nat ->
  exists c' j, dec_one st m idx len c o = Some (mkObjId (oid_len o) (<[idx := v]> (oid_id o)), Some (len - Z.of_nat (length (sub_octets v)), c')) /\
    at_octet l j c' /\ Datatypes.S j = (i + length (sub_octets v))%nat.
Proof.
  intros Hv R A Hl Hi. unfold sub_octets in *. rewrite <- app_assoc in R. cbn [app] in R. rewrite length_app in *. cbn [length] in *. pose proof (last_octet_range v) as Lo.
  pose proof (sub_value_all v Hv) as Sv. pose proof (high_octets_top 4 v false) as Ft. assert (Ev : Z.land v 0x7f = v mod 128) by exact (Z.land_ones v 7 ltac:(lia)).
  assert (Pi : put_id idx v o = Some (mkObjId (oid_len o) (<[idx := v]> (oid_id o)), Some tt)) by (unfold put_id; rewrite (proj2 (Nat.ltb_lt _ _)) by exact Hi; reflexivity).
  unfold dec_one. destruct (high_octets 4 v false) as [|b bs].
  - destruct (reads_cons l m i _ _ c R A) as [-> _]. rewrite top_bit, (proj2 (Z.ltb_lt _ 0x80)) by lia. cbn [negb]. cbn in Sv. assert (Hs : v mod 128 = v) by zlia. rewrite Ev, Hs.
    unfold bind. rewrite Pi. exists c, i. split; [reflexivity | split; [exact A | cbn; lia]].
  - pose proof (reads_cons l m i _ _ c R A) as [Eo _]. pose proof Ft as Ft'. apply Forall_cons in Ft' as [Fb _]. rewrite Eo, top_bit, (proj2 (Z.ltb_ge b _)) by lia. cbn [negb].
    destruct (dec_sub_id_reads (b :: bs) (Z.to_nat len) i c len 0 _ r o Ft R Lo A ltac:(lia) ltac:(lia)) as (c' & E & A'). unfold bind. rewrite E.
    assert (R' : reads l m (i + length (b :: bs)) (Z.land v 0x7f :: r)).
    { destruct R as [q Eq]. exists q. rewrite <- drop_drop. rewrite <- app_assoc in Eq. rewrite Eq. apply drop_app_length. }
    destruct (reads_cons l m _ _ _ c' R' A') as [-> _]. rewrite top_bit, (proj2 (Z.ltb_lt _ 0x80)) by lia. rewrite (proj2 (Z.ltb_lt 0 _)) by lia. cbn [andb]. rewrite Sv, Ev.
    assert (s32 (u32 (Z.shiftl (v / 128) 7 + v mod 128)) = v) as -> by (rewrite Z.shiftl_mul_pow2 by lia; change (2 ^ 7) with 128; unfold u32, s32; zlia).
    rewrite Pi. eexists c', _. split; [unfold ret; do 4 f_equal; lia | split; [exact A' | lia]].
Qed.

Lemma ident_octets_cons v ids : ident_octets (v :: ids) = sub_octets v ++ ident_octets ids.
Proof. reflexivity. Qed.
Lemma sub_octets_pos v : (0 < length (sub_octets v))%nat.
Proof. unfold sub_octets. rewrite length_app. cbn [length]. lia. Qed.
Lemma reads_app i bs1 bs2 : reads l m i (bs1 ++ bs2) -> reads l m (i + length bs1) bs2.
Proof. intros [r E]. exists r. rewrite <- drop_drop. rewrite <- app_assoc in E. rewrite E. apply drop_app_length. Qed.

Lemma dec_ids_reads ids : forall n idx i c (o : snmp_obj_id), (length ids <= n)%nat -> reads l m i (ident_octets ids) -> (ids <> [] -> at_octet l i c) ->
  Forall (fun v => 0 <= v < 2147483648) ids -> (idx + length ids <= length (oid_id o))%nat -> oid_len o = idx ->
  dec_ids st m n idx (Z.of_nat (length (ident_octets ids))) c o = Some (mkObjId (idx + length ids) (wrote idx ids (oid_id o)), Some tt).
Proof.
  induction ids as [|v ids IH]; intros n idx i c o Hn R A F Hi Ho.
  - rewrite wrote_nil. cbn [length ident_octets fmap list_fmap concat]. rewrite Nat.add_0_r, <- Ho. destruct o. destruct n; reflexivity.
  - rewrite ident_octets_cons in *. rewrite length_app. pose proof (sub_octets_pos v) as Hp. cbn [length] in Hn, Hi. destruct n as [|n]; [lia|]. apply Forall_cons in F as [Fv F]. specialize (A ltac:(discriminate)).
    cbn [dec_ids]. rewrite (proj2 (Z.ltb_lt 0 _)) by lia. destruct (dec_one_reads idx i c (Z.of_nat (length (sub_octets v) + length (ident_octets ids))) v (ident_octets ids) o Fv R A ltac:(lia) ltac:(lia)) as (c' & j & E & A' & Ej).
    unfold bind at 1. rewrite E. replace (Z.of_nat (length (sub_octets v) + length (ident_octets ids)) - Z.of_nat (length (sub_octets v))) with (Z.of_nat (length (ident_octets ids))) by lia.
    set (o1 := mkObjId _ _). apply reads_app in R.
    assert (Hc : exists c2, (if 0 <? Z.of_nat (length (ident_octets ids)) then next_octet st c' else ret c') o1 = Some (o1, Some c2) /\ (ids <> [] -> at_octet l (i + length (sub_octets v)) c2)).
    { destruct ids as [|w ids]; [exists c'; split; [reflexivity | intros N; contradiction]|]. pose proof (sub_octets_pos w). rewrite ident_octets_cons, length_app, (proj2 (Z.ltb_lt 0 _)) by lia. rewrite <- Ej in *.
      assert (Nw : ident_octets (w :: ids) <> []) by (intros E0; apply (f_equal length) in E0; rewrite ident_octets_cons, length_app in E0; cbn [length] in E0; lia).
      pose proof (reads_lt l m _ _ R Nw) as Rl. rewrite ident_octets_cons, length_app in Rl. destruct (next_in st p l Ms o1 j c' A' ltac:(lia)) as (c2 & E2 & A2). exists c2. auto. }
    destruct Hc as (c2 & E2 & A2). unfold bind at 1. rewrite E2. unfold bind, put_oid_len, modify. cbn [oid_id o1].
    rewrite (IH n (Datatypes.S idx) (i + length (sub_octets v))%nat c2 (mkObjId (Datatypes.S idx) (<[idx := v]> (oid_id o))) ltac:(lia) R A2 F ltac:(cbn [oid_id]; rewrite length_insert; lia) eq_refl).
    cbn [oid_id length]. rewrite wrote_cons by lia. do 3 f_equal. lia.
Qed.

(** Identifiers whose first two numbers fit into one octet, as they do by the standard. *)
Definition oid_ok (i0 i1 : Z) (ids : list Z) : Prop :=
  ((0 <= i0 <= 1 /\ 0 <= i1 < 40) \/ (i0 = 2 /\ 0 <= i1 < 176)) /\ Forall (fun v => 0 <= v < 2147483648) ids /\ (length ids + 2 <= LWIP_SNMP_OBJ_ID_LEN)%nat.

Lemma dec_oid_octets i i0 i1 ids (o : snmp_obj_id) : oid_ok i0 i1 ids -> length (oid_id o) = LWIP_SNMP_OBJ_ID_LEN -> reads l m i (oid_octets i0 i1 ids) ->
  snmp_asn1_dec_oid st m p (Z.of_nat i) (Z.of_nat (length (oid_octets i0 i1 ids))) o = Some (mkObjId (2 + length ids) (wrote 0 (i0 :: i1 :: ids) (oid_id o)), ERR_OK).
Proof.
  intros (Hr & F & Hn) Ho R. unfold snmp_asn1_dec_oid. assert (Np : oid_octets i0 i1 ids <> []) by discriminate.
  match goal with |- result (bind _ ?g _) = _ => destruct (dec_start o i _ g Np R) as (c & A & ->) end. cbv beta. unfold oid_octets in *. cbn [length] in *.
  destruct (reads_cons l m i _ _ c R A) as [-> R1]. unfold bind at 1. unfold put_oid_len at 1. unfold modify. rewrite (proj2 (Z.ltb_lt 0 _)) by lia. set (d := oid_id o) in *.
  assert (Hf : forall z, (if i0 * 40 + i1 =? 0x2B then put_id 0 1;; put_id 1 3 else if i0 * 40 + i1 <? 40 then put_id 0 0;; put_id 1 (i0 * 40 + i1)
      else if i0 * 40 + i1 <? 80 then put_id 0 1;; put_id 1 (i0 * 40 + i1 - 40) else put_id 0 2;; put_id 1 (i0 * 40 + i1 - 80)) (mkObjId z d) = Some (mkObjId z (<[1%nat := i1]> (<[0%nat := i0]> d)), Some tt)).
  { assert (Pp : forall z a b, (put_id 0 a;; put_id 1 b) (mkObjId z d) = Some (mkObjId z (<[1%nat := b]> (<[0%nat := a]> d)), Some tt)).
    { intros z a b. unfold bind, put_id. cbn [oid_id oid_len]. rewrite Ho. change (0 <? LWIP_SNMP_OBJ_ID_LEN)%nat with true. cbn match. cbn [oid_id oid_len]. rewrite length_insert, Ho. reflexivity. }
    intros z. repeat case_bool; rewrite Pp; repeat f_equal; lia. }
  unfold bind at 1. rewrite Hf. unfold bind at 1. unfold put_oid_len at 1. unfold modify. cbn [oid_id].
  replace (Z.of_nat (Datatypes.S (length (ident_octets ids))) - 1) with (Z.of_nat (length (ident_octets ids))) by lia. set (o1 := mkObjId 2 _).
  assert (Hc : exists c2, (if 0 <? Z.of_nat (length (ident_octets ids)) then next_octet st c else ret c) o1 = Some (o1, Some c2) /\ (ids <> [] -> at_octet l (Datatypes.S i) c2)).
  { destruct ids as [|w ids]; [exists c; split; [reflexivity | intros N; contradiction]|]. pose proof (sub_octets_pos w). rewrite ident_octets_cons, length_app, (proj2 (Z.ltb_lt 0 _)) by lia.
    pose proof (reads_lt l m _ _ R Np) as Rl. cbn [length] in Rl. rewrite ident_octets_cons, length_app in Rl. destruct (next_in st p l Ms o1 i c A ltac:(lia)) as (c2 & E2 & A2). exists c2. auto. }
  destruct Hc as (c2 & E2 & A2). unfold bind. rewrite E2. unfold LWIP_SNMP_OBJ_ID_LEN in *.
  rewrite (dec_ids_reads ids (32 - 2) 2 (Datatypes.S i) c2 o1 ltac:(lia) R1 A2 F ltac:(cbn [o1 oid_id]; rewrite !length_insert; lia) eq_refl). cbn [o1 oid_id result mbind option_bind].
  rewrite wrote_cons by (rewrite length_insert; lia). rewrite wrote_cons by (cbn; lia). reflexivity.
Qed.

End message.
(** ** Octet strings *)

Section raw.
Context (st : pstore) (p : Z) (l : list (Z * pbuf)) (Ms : message st p l).

(** [n] octets at [a], none of them of the message. *)
Definition outside (a : Z) (n : nat) : Prop := forall y, a <= y < a + Z.of_nat n -> y ∉ addrs l.

Lemma enc_raw_writes n : forall i c raw m, at_octet l i c -> (n <> 0)%nat -> (i + n <= length (addrs l))%nat -> outside raw n ->
  exists m', enc_raw_loop st n raw c m = Some (m', Some tt) /\ data l m' = wrote i (bytes m raw n) (data l m) /\ forall y, y ∉ addrs l -> ld8 m' y = ld8 m y.
Proof.
  induction n as [|n IH]; intros i c raw m A Nn Hi Out; [contradiction|]. cbn [enc_raw_loop]. unfold bind at 1, get.
  assert (Eu : u8 (ld8 m raw) = ld8 m raw) by (apply u8_id, ld8_range). destruct (emits_store st p l Ms i c (ld8 m raw) A m) as (m1 & [] & E1 & _ & D1 & K1). rewrite Eu in D1. unfold bind at 1. rewrite E1.
  destruct n as [|n]; [exists m1; auto|]. destruct (next_in st p l Ms m1 i c A ltac:(lia)) as (c' & E2 & A2). unfold bind at 1. rewrite E2.
  destruct (IH (Datatypes.S i) c' (raw + 1) m1 A2 ltac:(lia) ltac:(lia)) as (m' & E & D & K); [intros y Hy; apply Out; lia|].
  exists m'. split; [exact E|]. split; [| intros y Ny; rewrite K, K1 by exact Ny; reflexivity].
  assert (Eb : bytes m1 (raw + 1) (Datatypes.S n) = bytes m (raw + 1) (Datatypes.S n)) by (apply bytes_ext; intros y Hy; apply K1, Out; lia).
  rewrite D, Eb, D1. change (bytes m raw (Datatypes.S (Datatypes.S n))) with ([ld8 m raw] ++ bytes m (raw + 1) (Datatypes.S n)).
  rewrite <- wrote_app by (rewrite data_length, bytes_length; cbn [length]; lia). f_equal. cbn [length]. lia.
Qed.

Lemma dec_raw_copies bs : forall i c dst m, bs <> [] -> reads l m i bs -> at_octet l i c -> outside dst (length bs) ->
  exists m', dec_raw_loop st (length bs) dst c m = Some (m', Some tt) /\ bytes m' dst (length bs) = bs /\ frame m m' dst (Z.of_nat (length bs)).
Proof.
  induction bs as [|b bs IH]; intros i c dst m N R A Out; [contradiction|]. pose proof (reads_cons l m i _ _ c R A) as [Eo R1].
  assert (Hb : u8 b = b) by (rewrite <- Eo; apply u8_id, ld8_range). destruct bs as [|b2 bs].
  - exists (st8 m dst b). cbn [length dec_raw_loop]. unfold modify. rewrite Eo. split; [reflexivity|]. split; [cbn; rewrite ld8_st8_eq, Hb; reflexivity|]. intros y Hy. apply ld8_st8_ne. lia.
  - destruct (next_reads st p l Ms (st8 m dst b) m i c _ _ _ R A) as (c' & E1 & A1).
    assert (R1' : reads l (st8 m dst b) (Datatypes.S i) (b2 :: bs)).
    { destruct R1 as [r Er]. exists r. rewrite <- Er. f_equal. unfold data. apply list_fmap_ext. intros k y Hk. apply ld8_st8_ne. intros ->. apply (Out dst); [cbn; lia | exact (list_elem_of_lookup_2 _ _ _ Hk)]. }
    destruct (IH (Datatypes.S i) c' (dst + 1) (st8 m dst b) ltac:(discriminate) R1' A1) as (m' & E & D & K); [intros y Hy; apply Out; cbn [length] in *; lia|].
    exists m'. split; [| split].
    + change (dec_raw_loop st (length (b :: b2 :: bs)) dst c m) with ((modify (fun m => st8 m dst (octet m c));; bind (next_octet st c) (dec_raw_loop st (length (b2 :: bs)) (dst + 1))) m).
      unfold bind, modify. rewrite Eo, E1. exact E.
    + change (bytes m' dst (length (b :: b2 :: bs))) with (ld8 m' dst :: bytes m' (dst + 1) (length (b2 :: bs))). rewrite D, K by lia. rewrite ld8_st8_eq, Hb. reflexivity.
    + intros y Hy. cbn [length] in Hy. rewrite K by (cbn [length]; lia). apply ld8_st8_ne. lia.
Qed.

End raw.

(** ** Counting *)

Lemma high_octets_true k v : length (high_octets k v true) = k.
Proof. induction k as [|k IH]; cbn [high_octets]; [reflexivity|]. rewrite orb_true_r. cbn [length]. rewrite IH. reflexivity. Qed.
(** The first octet is the topmost group of seven bits that is not zero. *)
Lemma high_octets_false k v : 0 <= v -> Z.shiftr v (7 * Z.of_nat (Datatypes.S (Datatypes.S k))) = 0 ->
  length (high_octets (Datatypes.S k) v false) = if Z.shiftr v (7 * Z.of_nat (Datatypes.S k)) =? 0 then length (high_octets k v false) else Datatypes.S k.
Proof.
  intros Hv Hs. cbn [high_octets]. rewrite seven in Hs. set (a := Z.shiftr v (7 * Z.of_nat (Datatypes.S k))) in *.
  assert (Ha : 0 <= a) by (apply Z.shiftr_nonneg, Hv). apply Z.div_small_iff in Hs; [|lia]. rewrite u8_id by lia. destruct (Z.eqb_spec a 0); [reflexivity|]. cbn [negb orb length]. rewrite high_octets_true. reflexivity.
Qed.

Lemma sub_octets_length v : 0 <= v < 2147483648 -> length (sub_octets v) = Datatypes.S
  (if Z.shiftr v 28 =? 0 then if Z.shiftr v 21 =? 0 then if Z.shiftr v 14 =? 0 then if Z.shiftr v 7 =? 0 then 0%nat else 1%nat else 2%nat else 3%nat else 4%nat).
Proof.
  intros Hv. unfold sub_octets. rewrite length_app. cbn [length]. rewrite Nat.add_1_r. f_equal.
  rewrite high_octets_false; [| lia | change (Z.shiftr v 35 = 0); rewrite Z.shiftr_div_pow2 by lia; apply Z.div_small; lia]. change (7 * Z.of_nat 4) with 28. destruct (Z.eqb_spec (Z.shiftr v 28) 0) as [E4|]; [|reflexivity].
  rewrite high_octets_false; [| lia | exact E4]. change (7 * Z.of_nat 3) with 21. destruct (Z.eqb_spec (Z.shiftr v 21) 0) as [E3|]; [|reflexivity].
  rewrite high_octets_false; [| lia | exact E3]. change (7 * Z.of_nat 2) with 14. destruct (Z.eqb_spec (Z.shiftr v 14) 0) as [E2|]; [|reflexivity].
  rewrite high_octets_false; [| lia | exact E2]. reflexivity.
Qed.

Lemma u8_plus a b : u8 (u8 a + b) = u8 (a + b).
Proof. unfold u8. apply Zplus_mod_idemp_l. Qed.
(** The loop that counts the octets of a sub-identifier, [k] groups of bits left. *)
Lemma sub_id_turn fuel v cnt : 0 <= v -> while (Datatypes.S fuel) sub_id_body (v, cnt) = if v =? 0 then Some cnt else while fuel sub_id_body (Z.shiftr v 7, u8 (cnt + 1)).
Proof. intros Hv. rewrite while_S. unfold sub_id_body at 1. case_bool; case_bool; try lia; reflexivity. Qed.

Lemma sub_id_counted v cnt : 0 <= v < 2147483648 -> while 6 sub_id_body (Z.shiftr v 7, u8 (cnt + 1)) = Some (u8 (cnt + Z.of_nat (length (sub_octets v)))).
Proof.
  intros Hv. rewrite sub_octets_length by exact Hv. assert (P : forall n, 0 <= Z.shiftr v n) by (intros n; apply Z.shiftr_nonneg; lia).
  assert (Z35 : Z.shiftr v 35 = 0) by (rewrite Z.shiftr_div_pow2 by lia; apply Z.div_small; lia).
  assert (M : forall n, 0 <= n -> Z.shiftr v n = 0 -> Z.shiftr v (n + 7) = 0) by (intros n Hn E; rewrite <- Z.shiftr_shiftr, E by lia; reflexivity).
  assert (M1 := M 7 ltac:(lia)). assert (M2 := M 14 ltac:(lia)). assert (M3 := M 21 ltac:(lia)). cbn in M1, M2, M3.
  do 5 (rewrite sub_id_turn by apply P; rewrite ?Z.shiftr_shiftr, ?u8_plus by lia). change (7 + 7) with 14. change (14 + 7) with 21. change (21 + 7) with 28. change (28 + 7) with 35. rewrite Z35, Z.eqb_refl.
  destruct (Z.eqb_spec (Z.shiftr v 7) 0) as [E1|], (Z.eqb_spec (Z.shiftr v 14) 0) as [E2|], (Z.eqb_spec (Z.shiftr v 21) 0) as [E3|], (Z.eqb_spec (Z.shiftr v 28) 0) as [E4|]; try tauto; do 2 f_equal; lia.
Qed.

Lemma oid_cnt_octets ids : forall cnt, Forall (fun v => 0 <= v < 2147483648) ids -> oid_cnt_loop ids (u8 cnt) = Some (u8 (cnt + Z.of_nat (length (ident_octets ids)))).
Proof.
  induction ids as [|v ids IH]; intros cnt F; cbn [oid_cnt_loop]; [rewrite Z.add_0_r; reflexivity|]. apply Forall_cons in F as [Hv F].
  rewrite u8_plus, sub_id_counted by exact Hv. cbn [mbind option_bind]. rewrite IH by exact F. rewrite ident_octets_cons, length_app. do 2 f_equal. lia.
Qed.
Lemma ident_octets_bound ids : Forall (fun v => 0 <= v < 2147483648) ids -> (length (ident_octets ids) <= 5 * length ids)%nat.
Proof.
  induction 1 as [|v ids Hv _ IH]; [cbn; lia|]. rewrite ident_octets_cons, length_app, sub_octets_length by exact Hv. cbn [length]. repeat case_bool; lia.
Qed.
(** The octet counter, of eight bits, is wide enough for the longest identifier. *)
Lemma oid_counted i0 i1 ids : oid_ok i0 i1 ids -> snmp_asn1_enc_oid_cnt (i0 :: i1 :: ids) = Some (Z.of_nat (length (oid_octets i0 i1 ids))).
Proof.
  intros (_ & F & Hn). unfold snmp_asn1_enc_oid_cnt. cbn [length Nat.ltb Nat.leb drop]. change 1 with (u8 1). rewrite oid_cnt_octets by exact F.
  pose proof (ident_octets_bound ids F). unfold LWIP_SNMP_OBJ_ID_LEN in Hn. f_equal. unfold oid_octets. cbn [length]. change (drop 0 ids) with ids. rewrite u8_id by lia. lia.
Qed.

(** ** The claims *)

Section claims.
Context (st : pstore) (p : Z) (l : list (Z * pbuf)) (Ms : message st p l).

Lemma data_chain m : data l m = chain_data m l.
Proof. symmetry. apply message_data, Ms. Qed.

(** [bs] is encoded at [i], and nothing else is changed. *)
Definition encoded (m m' : memory) (i : nat) (bs : list Z) : Prop :=
  chain_data m' l = wrote i bs (chain_data m l) /\ forall y, y ∉ addrs l -> ld8 m' y = ld8 m y.
(** There is room for [bs]. *)
Definition room (i : nat) (bs : list Z) : Prop := Z.of_nat i + Z.of_nat (length bs) <= chain_len l.

Lemma room_addrs i bs : room i bs -> (i + length bs <= length (addrs l))%nat.
Proof. unfold room. rewrite <- addrs_length by apply Ms. lia. Qed.
Lemma encoded_reads m m' i bs : encoded m m' i bs -> room i bs -> reads l m' i bs.
Proof. intros [E _] Hr. apply room_addrs in Hr. rewrite <- !data_chain in E. apply (reads_wrote l m' i bs (data l m) E). rewrite data_length. exact Hr. Qed.
Lemma encodes i (f : cursor -> prog memory unit) bs m : bs <> [] -> room i bs -> (forall c, at_octet l i c -> emits l i (f c) bs (fun _ => True)) ->
  exists m', result ((c <~ seek st p (Z.of_nat i); f c) m) = Some (m', ERR_OK) /\ encoded m m' i bs.
Proof.
  intros Nb Hr Ef. apply room_addrs in Hr. destruct bs; [contradiction|]. cbn in Hr. destruct (emits_result st p l Ms i f _ m ltac:(lia) Ef) as (m' & E & D & K). rewrite !data_chain in D. exists m'. split; [exact E | split; assumption].
Qed.

(** C37: Lengths and integers survive the round trip: on a chain of buffers that are not
    empty, the encoders of a length (below 65536), an unsigned and a signed 32-bit integer
    write the octets that their counting functions announce, over however many buffers
    these extend, and change nothing else; and the decoders, given that number of octets,
    return the value. *)
Theorem asn1_numbers_roundtrip m i :
  (forall n o, 0 <= n < 65536 -> room i (length_octets n) -> exists m', snmp_asn1_enc_length st p (Z.of_nat i) n m = Some (m', ERR_OK) /\ encoded m m' i (length_octets n) /\
     Z.of_nat (length (length_octets n)) = snmp_asn1_enc_length_cnt n /\ snmp_asn1_dec_length st m' p (Z.of_nat i) o = Some ((snmp_asn1_enc_length_cnt n, n), ERR_OK)) /\
  (forall v old, 0 <= v < 4294967296 -> room i (u32_octets v) -> let cnt := snmp_asn1_enc_u32t_cnt v in
     exists m', snmp_asn1_enc_u32t st p (Z.of_nat i) cnt v m = Some (m', ERR_OK) /\ encoded m m' i (u32_octets v) /\
       Z.of_nat (length (u32_octets v)) = cnt /\ snmp_asn1_dec_u32t st m' p (Z.of_nat i) cnt old = Some (v, ERR_OK)) /\
  (forall v old, -2147483648 <= v < 2147483648 -> room i (s32_octets v) -> let cnt := snmp_asn1_enc_s32t_cnt v in
     exists m', snmp_asn1_enc_s32t st p (Z.of_nat i) cnt v m = Some (m', ERR_OK) /\ encoded m m' i (s32_octets v) /\
       Z.of_nat (length (s32_octets v)) = cnt /\ snmp_asn1_dec_s32t st m' p (Z.of_nat i) cnt old = Some (v, ERR_OK)).
Proof.
  split; [| split].
  - intros n o Hn Hr. assert (N : length_octets n <> []) by (unfold length_octets; destruct (n <? 0x80), (n <? 0x100); discriminate).
    destruct (encodes i _ _ m N Hr (fun c A => length_emits st p l Ms i n c A Hn (room_addrs _ _ Hr))) as (m' & E & En). exists m'. split; [exact E | split; [exact En | split]].
    + unfold length_octets, snmp_asn1_enc_length_cnt. destruct (n <? 0x80), (n <? 0x100); reflexivity.
    + exact (dec_length_octets st p l Ms m' i n o Hn (encoded_reads _ _ _ _ En Hr)).
  - intros v old Hv Hr cnt. assert (Lc : Z.of_nat (length (u32_octets v)) = cnt).
    { unfold u32_octets. fold cnt. unfold cnt, snmp_asn1_enc_u32t_cnt. destruct (v <? 0x80), (v <? 0x8000), (v <? 0x800000), (v <? 0x80000000); reflexivity. }
    assert (N : u32_octets v <> []) by (unfold u32_octets; destruct (_ =? 5); [discriminate|]; destruct (Z.to_nat _) as [|[|]]; discriminate).
    destruct (encodes i _ _ m N Hr (fun c A => u32_emits st p l Ms i v c A (room_addrs _ _ Hr))) as (m' & E & En). exists m'. split; [exact E | split; [exact En | split; [exact Lc|]]].
    rewrite <- Lc. exact (dec_u32_octets st p l Ms m' i v old Hv (encoded_reads _ _ _ _ En Hr)).
  - intros v old Hv Hr cnt. assert (Lc : Z.of_nat (length (s32_octets v)) = cnt).
    { unfold s32_octets. fold cnt. unfold cnt, snmp_asn1_enc_s32t_cnt. set (a := if v <? 0 then _ else _). destruct (a <? 0x80), (a <? 0x8000), (a <? 0x800000); reflexivity. }
    assert (N : s32_octets v <> []) by (unfold s32_octets; destruct (Z.to_nat _) as [|[|]]; discriminate).
    assert (Hm : (i + Nat.max 1 (Z.to_nat cnt) <= length (addrs l))%nat) by (apply room_addrs in Hr; unfold s32_octets in Hr; rewrite be_octets_length in Hr; exact Hr).
    destruct (encodes i _ _ m N Hr (fun c A => enc_octets_emits st p l Ms (Z.to_nat cnt) i v c A Hm)) as (m' & E & En). exists m'. split; [exact E | split; [exact En | split; [exact Lc|]]].
    rewrite <- Lc. exact (dec_s32_octets st p l Ms m' i v old Hv (encoded_reads _ _ _ _ En Hr)).
Qed.

Lemma oid_emits i i0 i1 ids c : at_octet l i c -> 0 <= i0 * 40 + i1 < 256 -> room i (oid_octets i0 i1 ids) -> Z.of_nat i + 1 < chain_len l ->
  emits l i (store c (if (i0 =? 1) && (i1 =? 3) then 0x2b else i0 * 40 + i1);; c <~ next_octet st c; enc_ident st ids c) (oid_octets i0 i1 ids) (fun _ => True).
Proof.
  intros A H0 Hr H1. apply room_addrs in Hr. rewrite <- addrs_length in H1 by apply Ms. unfold oid_octets in *. cbn [length] in Hr.
  assert ((if (i0 =? 1) && (i1 =? 3) then 0x2b else i0 * 40 + i1) = i0 * 40 + i1) as ->.
  { destruct (Z.eqb_spec i0 1) as [->|]; [destruct (Z.eqb_spec i1 3) as [->|]; reflexivity | reflexivity]. }
  rewrite <- (u8_id (i0 * 40 + i1)) at 2 by exact H0. apply (emits_cons st p l Ms); [exact A | lia | lia|]. intros c' A'. destruct ids as [|v ids].
  - apply emits_ret. exact Logic.I.
  - apply (ident_emits st p l Ms); [discriminate | exact A' | lia].
Qed.

(** C38: Object identifiers and octet strings survive the round trip.  An identifier of 2
    to 32 (LWIP_SNMP_OBJ_ID_LEN) numbers, of which the first two share an octet (0 or 1
    and below 40, or 2 and below 176) and the others are below 2^31, is written seven bits
    to an octet, as many octets as were counted, and read back whole, if the message has
    room for its octets, and for one octet more than it needs if it has only two numbers.
    A string of at least one octet, for which the message has room, is copied into the message and out
    of it unchanged, if neither its source nor its destination overlaps the message.  The
    message is a chain of non-empty pbufs of less than 65536 octets that do not overlap. *)
Theorem asn1_strings_roundtrip m i :
  (forall i0 i1 ids o, oid_ok i0 i1 ids -> length (oid_id o) = LWIP_SNMP_OBJ_ID_LEN -> room i (oid_octets i0 i1 ids) -> Z.of_nat i + 1 < chain_len l ->
     exists m', snmp_asn1_enc_oid st p (Z.of_nat i) (i0 :: i1 :: ids) m = Some (m', ERR_OK) /\ encoded m m' i (oid_octets i0 i1 ids) /\
       snmp_asn1_enc_oid_cnt (i0 :: i1 :: ids) = Some (Z.of_nat (length (oid_octets i0 i1 ids))) /\
       snmp_asn1_dec_oid st m' p (Z.of_nat i) (Z.of_nat (length (oid_octets i0 i1 ids))) o = Some (mkObjId (2 + length ids) (wrote 0 (i0 :: i1 :: ids) (oid_id o)), ERR_OK)) /\
  (forall raw n dst, (0 < n)%nat -> outside l raw n -> outside l dst n -> Z.of_nat i + Z.of_nat n <= chain_len l ->
     exists m' m'', snmp_asn1_enc_raw st p (Z.of_nat i) (Z.of_nat n) raw m = Some (m', ERR_OK) /\ encoded m m' i (bytes m raw n) /\
       snmp_asn1_dec_raw st p (Z.of_nat i) (Z.of_nat n) (Z.of_nat n) dst m' = Some (m'', ERR_OK) /\ bytes m'' dst n = bytes m raw n /\ frame m' m'' dst (Z.of_nat n)).
Proof.
  split.
  - intros i0 i1 ids o Ok Ho Hr H1. assert (N : oid_octets i0 i1 ids <> []) by discriminate. assert (H0 : 0 <= i0 * 40 + i1 < 256) by (destruct Ok as (Hi & _); lia).
    destruct (encodes i _ _ m N Hr (fun c A => oid_emits i i0 i1 ids c A H0 Hr H1)) as (m' & E & En). exists m'. split; [exact E | split; [exact En | split; [apply oid_counted, Ok|]]].
    exact (dec_oid_octets st p l Ms m' i i0 i1 ids o Ok Ho (encoded_reads _ _ _ _ En Hr)).
  - intros raw n dst Hn Or Od Hr. rewrite <- addrs_length in Hr by apply Ms. unfold snmp_asn1_enc_raw, snmp_asn1_dec_raw. rewrite !Nat2Z.id, (proj2 (Z.ltb_lt 0 _)), Z.leb_refl by lia.
    destruct (seek_in st p l Ms m i ltac:(lia)) as (c & E & A). destruct (enc_raw_writes st p l Ms n i c raw m A ltac:(lia) ltac:(lia) Or) as (m' & E1 & D & K).
    assert (Re : reads l m' i (bytes m raw n)) by (apply (reads_wrote l m' i _ _ D); rewrite data_length, bytes_length; lia).
    destruct (seek_in st p l Ms m' i ltac:(lia)) as (c2 & E2 & A2). assert (Nb : bytes m raw n <> []) by (intros E0; apply (f_equal length) in E0; rewrite bytes_length in E0; cbn in E0; lia).
    destruct (dec_raw_copies st p l Ms (bytes m raw n) i c2 dst m' Nb Re A2) as (m'' & E3 & D3 & K3); [rewrite bytes_length; exact Od|]. rewrite bytes_length in *.
    exists m', m''. unfold bind. rewrite E, E1, E2, E3. rewrite !data_chain in D. split; [reflexivity | split; [split; assumption | auto]].
Qed.

(** An identifier of two numbers in the last octet: it is written, but ERR_ARG is returned. *)
Lemma enc_oid_last m i i0 i1 : Z.of_nat i + 1 = chain_len l -> exists m', snmp_asn1_enc_oid st p (Z.of_nat i) [i0; i1] m = Some (m', ERR_ARG).
Proof.
  intros Hi. rewrite <- addrs_length in Hi by apply Ms. unfold snmp_asn1_enc_oid. destruct (seek_in st p l Ms m i ltac:(lia)) as (c & E & A). unfold bind at 1. rewrite E.
  match goal with |- context [store c ?x] => set (v := x) end. set (m1 := st8 m (cu_ptr c) (u8 v)). destruct (next_at st p l Ms m1 i c A) as [(c' & _ & A') | [E2 _]]; [apply at_octet_lt in A'; lia|].
  exists m1. unfold bind, store, modify. fold m1. rewrite E2. reflexivity.
Qed.

End claims.

(** ** A message of nine octets in three buffers *)

Definition sample_buf (nx pl tl n : Z) : pbuf := mkPbuf nx pl tl n PBUF_RAM 0 1.
Definition sample_chain : list (Z * pbuf) := [(16, sample_buf 32 1000 9 4); (32, sample_buf 48 2000 5 3); (48, sample_buf 0 3000 2 2)].
Definition sample_store : pstore := list_to_map sample_chain.
Definition no_memory : memory := fun _ => 0.
(** The message starts with [bs]. *)
Definition sample_memory (bs : list Z) : memory := fold_left (fun m x => st8 m x.1 x.2) (zip (addrs sample_chain) bs) no_memory.

Lemma sample_message : message sample_store 16 sample_chain.
Proof.
  split.
  - repeat (econstructor; [lia | reflexivity |]). constructor.
  - repeat constructor.
  - reflexivity.
  - apply (bool_decide_unpack _). vm_compute. exact Logic.I.
Qed.

Lemma asn1_numbers_roundtrip_witness :
  (exists m', snmp_asn1_enc_length sample_store 16 2 300 no_memory = Some (m', ERR_OK) /\ encoded sample_chain no_memory m' 2 [0x82; 1; 44] /\
     snmp_asn1_dec_length sample_store m' 16 2 (0, 0) = Some ((3, 300), ERR_OK)) /\
  (exists m', snmp_asn1_enc_u32t sample_store 16 3 5 4294967295 no_memory = Some (m', ERR_OK) /\ snmp_asn1_dec_u32t sample_store m' 16 3 5 0 = Some (4294967295, ERR_OK)) /\
  (exists m', snmp_asn1_enc_s32t sample_store 16 3 2 (-129) no_memory = Some (m', ERR_OK) /\ snmp_asn1_dec_s32t sample_store m' 16 3 2 0 = Some (-129, ERR_OK)).
Proof.
  split; [| split].
  - destruct (proj1 (asn1_numbers_roundtrip sample_store 16 sample_chain sample_message no_memory 2) 300 (0, 0)) as (m' & E & En & _ & D); [lia | vm_compute; discriminate | exists m'; auto].
  - destruct (proj1 (proj2 (asn1_numbers_roundtrip sample_store 16 sample_chain sample_message no_memory 3)) 4294967295 0) as (m' & E & _ & _ & D); [lia | vm_compute; discriminate | exists m'; auto].
  - destruct (proj2 (proj2 (asn1_numbers_roundtrip sample_store 16 sample_chain sample_message no_memory 3)) (-129) 0) as (m' & E & _ & _ & D); [lia | vm_compute; discriminate | exists m'; auto].
Defined.

Lemma asn1_strings_roundtrip_witness :
  (exists m', snmp_asn1_enc_oid sample_store 16 2 [1; 3; 6; 200] no_memory = Some (m', ERR_OK) /\ encoded sample_chain no_memory m' 2 [0x2b; 6; 0x81; 0x48] /\
     snmp_asn1_dec_oid sample_store m' 16 2 4 (mkObjId 0 (replicate 32 0)) = Some (mkObjId 4 ([1; 3; 6; 200] ++ replicate 28 0), ERR_OK)) /\
  (exists m' m'', snmp_asn1_enc_raw sample_store 16 3 5 7000 (st8 no_memory 7003 9) = Some (m', ERR_OK) /\
     snmp_asn1_dec_raw sample_store 16 3 5 5 8000 m' = Some (m'', ERR_OK) /\ bytes m'' 8000 5 = [0; 0; 0; 9; 0]).
Proof.
  split.
  - destruct (proj1 (asn1_strings_roundtrip sample_store 16 sample_chain sample_message no_memory 2) 1 3 [6; 200] (mkObjId 0 (replicate 32 0))) as (m' & E & En & _ & D).
    + split; [left; lia | split; [repeat constructor; lia | unfold LWIP_SNMP_OBJ_ID_LEN; cbn; lia]].
    + reflexivity.
    + vm_compute. discriminate.
    + reflexivity.
    + exists m'. auto.
  - assert (O : forall a, 7000 <= a -> outside sample_chain a 5) by (intros a Ha y Hy Hin; change (y ∈ [1000; 1001; 1002; 1003; 2000; 2001; 2002; 3000; 3001]) in Hin; repeat (apply elem_of_cons in Hin as [->|Hin]; [lia|]); exact (not_elem_of_nil _ Hin)).
    destruct (proj2 (asn1_strings_roundtrip sample_store 16 sample_chain sample_message (st8 no_memory 7003 9) 3) 7000 5%nat 8000) as (m' & m'' & E & _ & D & B & _); [lia | apply O; lia | apply O; lia | vm_compute; discriminate | exists m', m''; auto].
Defined.

(** ** What the decoders accept *)

(** A last sub-identifier that says that it goes on is not refused: its number is left as
    it was in the array, and the octet behind the identifier is taken for one more. *)
Example dec_oid_overruns : snmp_asn1_dec_oid sample_store (sample_memory [0x2b; 0x81; 5; 0]) 16 0 2 (mkObjId 0 (replicate 32 77)) =
  Some (mkObjId 4 ([1; 3; 77; 5] ++ replicate 28 77), ERR_OK).
Proof. vm_compute. reflexivity. Qed.

(** Five octets that are more than 32 bits: the first one is lost. *)
Example dec_u32t_truncates : snmp_asn1_dec_u32t sample_store (sample_memory [1; 0; 0; 0; 7]) 16 0 5 0 = Some (7, ERR_OK).
Proof. vm_compute. reflexivity. Qed.

End Ber.
