(* ===== verification/TcpDeliver.v ===== *)
(** Receiving data in sequence: what [tcp_receive] (src/core/tcp_in.c) passes on to the
    application, as part of the stream that the peer sends. *)

From stdpp Require Import base tactics numbers list gmap.
From Stdlib Require Import ZArith Lia.
From S2P Require Import Prelude Mylib ByteOrder Fields Stats Linked PbufDefs NetifDefs InetChksum Allocator Mem Memp PbufMem World Pbuf PbufData PbufChains PbufLinks IpAddr IpDefs IpOutput TcpDefs TcpSeg TcpOut Tcp TcpIn TcpSample TcpFrame TcpWindow TcpCongestion TcpWrite.

Local Open Scope Z_scope.

Module TcpDeliver.
Import Fields ByteOrder Linked Memp Pbuf PbufData PbufChains PbufLinks IpDefs TcpDefs TcpSeg TcpOut Tcp TcpIn TcpFrame TcpWindow TcpCongestion TcpWrite.

(** ** The front of a packet is cut off *)

(** Pbufs in front are emptied; [T] is the length of the packet that is left. *)
Definition emptied (T : Z) (b : pbuf) : pbuf := set_len (set_tot_len b T) 0.
Definition empty_front (T : Z) (l : list (Z * pbuf)) : list (Z * pbuf) := (fun x => (x.1, emptied T x.2)) <$> l.

Lemma empty_fst T l : (empty_front T l).*1 = l.*1.
Proof. unfold empty_front. rewrite <- list_fmap_compose. by apply list_fmap_ext. Qed.
Lemma empty_len T l : chain_len (empty_front T l) = 0.
Proof. induction l as [|[a b] l IH]; cbn; [reflexivity|]. exact IH. Qed.
Lemma empty_data m T l : chain_data m (empty_front T l) = [].
Proof. induction l as [|[a b] l IH]; cbn; [reflexivity|]. exact IH. Qed.
Lemma empty_lengths T l1 l2 : lengths_ok l2 -> chain_len l2 = T -> T < 65536 -> lengths_ok (empty_front T l1 ++ l2).
Proof.
  intros H2 E HT. induction l1 as [|[a b] l1 IH]; cbn; [exact H2|]. fold (empty_front T l1). rewrite chain_len_app, empty_len. split; [lia|]. split; [lia|]. split; [lia | exact IH].
Qed.
Lemma chain_empty T st p l1 l2 : chain st p (l1 ++ l2) -> chain (ins (empty_front T l1) st) p (empty_front T l1 ++ l2).
Proof.
  revert st p. induction l1 as [|[a b] l1 IH]; intros st p Hc; [exact Hc|].
  pose proof (chain_NoDup _ _ _ Hc) as Hnd. cbn in Hnd. apply NoDup_cons in Hnd as [Ha Hnd].
  inversion Hc as [|? ? ? Hp Hb Hc']; subst. cbn [empty_front fmap list_fmap app ins fst snd]. constructor; [exact Hp | |].
  - rewrite lookup_ins_ne; [apply lookup_insert_eq|]. fold (empty_front T l1). rewrite empty_fst. intros Hin. apply Ha. rewrite fmap_app. apply elem_of_app. auto.
  - apply IH. by apply chain_insert_ne.
Qed.

Section deliver.
Context {W X U : Type} `{LW : MemSystemLaws W} `{HT : HasTcp U}.
Context (stale : Z -> Z) (custom_free : pstate W -> Z -> option (pstate W)).
Context (netif_output : X -> pstate W -> Z -> netif -> Z -> Z -> option (X * pstate W * Z)).
Implicit Types (s : istate W X U) (ps : pstate W) (L : regions).

(** ** The packet of a segment *)

(** The header, at [h], lies in front of the data in the first pbuf. *)
Record arrived ps L (p h : Z) (l : list (Z * pbuf)) : Prop := {
  ar_sys : psys ps L;
  ar_chain : chain (pst ps) p l;
  ar_lengths : lengths_ok l;
  ar_owned : Forall (fun x => owned x.2) l;
  ar_short : Forall (fun x => len x.2 <= 32767) l;
  ar_header : exists b0 l0, l = (p, b0) :: l0 /\ p <= h /\ h + 20 <= payload b0 }.

Lemma arrived_region ps L p h l a b : arrived ps L p h l -> (a, b) ∈ l -> exists n, L !! a = Some n /\ a <= payload b /\ payload b + len b <= a + n.
Proof.
  intros A Hin. destruct (chain_lookup _ _ _ _ _ (ar_chain _ _ _ _ _ A) Hin) as [Ha _]. destruct (ps_pbuf _ _ (ar_sys _ _ _ _ _ A) a b Ha) as (_ & _ & _ & _ & n & Hn & _ & Hty).
  exists n. split; [exact Hn|]. pose proof (ar_owned _ _ _ _ _ A) as F. rewrite Forall_forall in F. destruct (F _ Hin) as [Et|Et]; cbn in Et; rewrite Et in Hty; lia.
Qed.

Lemma arrived_not0 ps L p h l : arrived ps L p h l -> p <> 0.
Proof. intros A. destruct (ar_header _ _ _ _ _ A) as (b0 & l0 & -> & _). apply (chain_lookup _ _ _ _ _ (ar_chain _ _ _ _ _ A) (list_elem_of_here _ _)). Qed.

(** Writing to the header. *)
Lemma arrived_write ps L p h l x : arrived ps L p h l -> frame (mem_of ps) x h 20 -> arrived (set_mem ps x) L p h l /\ chain_data x l = chain_data (mem_of ps) l.
Proof.
  intros A F. pose proof A as [S C Le O Sh (b0 & l0 & E & H1 & H2)]. assert (In0 : (p, b0) ∈ l) by (rewrite E; apply list_elem_of_here).
  destruct (arrived_region _ _ _ _ _ _ _ A In0) as (n & Ln & R1 & R2). pose proof (proj1 (proj2 (proj2 (ps_pbuf _ _ S p b0 (proj1 (chain_lookup _ _ _ _ _ C In0)))))) as L0.
  split; [split; try assumption; [apply (psys_data ps L x p n h 20 S Ln); [lia | lia | exact F] | exists b0, l0; auto]|].
  apply chain_data_ext, Forall_forall. intros [a b] Hin y Hy. cbn in Hy. apply F. intros I. destruct (decide (a = p)) as [->|Na].
  - destruct (chain_lookup _ _ _ _ _ C Hin) as [Ea _]. destruct (chain_lookup _ _ _ _ _ C In0) as [E0 _]. assert (b = b0) as -> by congruence. lia.
  - destruct (arrived_region _ _ _ _ _ _ _ A Hin) as (k & Lk & R3 & R4). destruct (ro_disjoint _ (regions_of _ _ S) a p k n Lk Ln Na); lia.
Qed.

(** Cutting the end off. *)
Lemma arrived_realloc ps L p h l n : arrived ps L p h l -> 0 <= n ->
  exists ps' L' l', pbuf_realloc custom_free ps p n = Some ps' /\ psys ps' L' /\ chain (pst ps') p l' /\ lengths_ok l' /\
    chain_data (mem_of ps') l' = take (Z.to_nat n) (chain_data (mem_of ps) l) /\ (forall x, h <= x < h + 20 -> ld8 (mem_of ps') x = ld8 (mem_of ps) x) /\
    (forall a, a ∉ l.*1 -> pst ps' !! a = pst ps !! a).
Proof.
  intros A Hn. pose proof (arrived_not0 _ _ _ _ _ A) as Np. destruct A as [S C Le O Sh (b0 & l0 & E & H1 & H2)].
  destruct (realloc_truncates custom_free ps L p l n S C Np Le Hn) as (ps' & L' & l' & Hr & S' & C' & Le' & _ & _ & D & K & _ & _ & Fr).
  exists ps', L', l'. split; [exact Hr|]. split; [exact S'|]. split; [exact C'|]. split; [exact Le'|]. split; [exact (D O)|]. split.
  - intros x Hx. apply (Fr b0 l0 x E); [rewrite E in O; apply Forall_cons in O as [O _]; exact O | lia].
  - intros a Ha. apply K, Ha.
Qed.

Lemma trim_loop T fuel : forall s p l off, chain (pst (i_p s)) p l -> lengths_ok l -> 0 < off <= chain_len l -> (length l < fuel)%nat ->
  exists l1 q b l2, l = l1 ++ (q, b) :: l2 /\ 0 < off - chain_len l1 <= len b /\
    while fuel (trim_body T) (s, p, off) = Some (Some (set_i_p s (set_pst (i_p s) (ins (empty_front T l1) (pst (i_p s)))), q, off - chain_len l1)).
Proof.
  induction fuel as [|fuel IH]; intros s p l off Hc Hl Ho Hf; [lia|]. rewrite while_S. inversion Hc as [|? b l' Np Hb Hc']; subst; [cbn in Ho; lia|]. unfold trim_body at 1, i_pbuf. rewrite Hb.
  destruct Hl as (H1 & H2 & H3 & H4). cbn in Ho, Hf. destruct (Z.ltb_spec (len b) off) as [Lt|Ge].
  - pose proof (chain_NoDup _ _ _ Hc) as Hnd. cbn in Hnd. apply NoDup_cons in Hnd as [Hx _]. unfold update. rewrite Hb. cbn [mbind option_bind].
    set (ps1 := set_pst (i_p s) _). destruct (IH (set_i_p s ps1) (next b) l' (off - len b)) as (l1 & q & c & l2 & -> & Hq & Hr); [by apply chain_insert_ne | exact H4 | lia | lia|].
    exists ((p, b) :: l1), q, c, l2. split; [reflexivity|]. cbn [chain_len]. split; [lia|]. rewrite Z.sub_add_distr. exact Hr.
  - exists [], p, b, l'. cbn. rewrite Z.sub_0_r. split; [reflexivity|]. split; [lia|]. by destruct s as [[] ? ? ? ? ? ? ? ? ? ? ? ?].
Qed.

(** The pbufs after the loop and [pbuf_header]. *)
Lemma trimmed_arrived ps L p h l1 q b l2 o T : arrived ps L p h (l1 ++ (q, b) :: l2) -> 0 < o <= len b -> T = chain_len ((q, b) :: l2) - o ->
  let ps1 := set_pst ps (ins (empty_front T l1) (pst ps)) in let b' := move_payload b (- o) in let l' := empty_front T l1 ++ (q, b') :: l2 in
  let ps' := set_pst ps1 (<[q := b']> (pst ps1)) in
  pbuf_header ps1 q (s16 (- o)) = Some (ps', 0) /\ arrived ps' L p h l' /\ chain_len l' = T /\
    chain_data (mem_of ps') l' = drop (Z.to_nat (chain_len l1 + o)) (chain_data (mem_of ps) (l1 ++ (q, b) :: l2)) /\
    (forall a, a ∉ (l1 ++ (q, b) :: l2).*1 -> pst ps' !! a = pst ps !! a) /\ l'.*1 = (l1 ++ (q, b) :: l2).*1.
Proof.
  intros A Ho ET ps1 b' l' ps'. pose proof A as [S C Le O Sh (b0 & l0 & E & H1 & H2)]. pose proof (lengths_ok_app _ _ Le) as [Lq Hn1]. pose proof Lq as (Q1 & Q2 & Q3 & Q4).
  pose proof (chain_len_nonneg _ Q4) as Hn2. assert (Inq : (q, b) ∈ l1 ++ (q, b) :: l2) by (apply elem_of_app; right; apply list_elem_of_here).
  pose proof (chain_empty T _ _ _ _ C) as C1. change (ins (empty_front T l1) (pst ps)) with (pst ps1) in C1.
  destruct (chain_lookup _ _ _ q b C1) as [Eb Nq]; [apply elem_of_app; right; apply list_elem_of_here|].
  pose proof (ps_pbuf _ _ S q b (proj1 (chain_lookup _ _ _ _ _ C Inq))) as Okq. rewrite Forall_forall in O, Sh. pose proof (O _ Inq) as Oq. pose proof (Sh _ Inq) as Sq. cbn in Oq, Sq.
  assert (Es : s16 (- o) = - o) by (apply s16_id; lia). rewrite Es. cbn [chain_len] in ET.
  destruct (header_spec ps1 q b (- o) Eb Nq ltac:(lia) ltac:(lia) ltac:(lia)) as [Hh _]. rewrite Hh by (split; [lia | destruct Okq as (_ & _ & _ & _ & n & _ & _ & Hty); unfold SIZEOF_STRUCT_PBUF; destruct Oq as [Et|Et]; rewrite Et in *; lia]).
  split; [reflexivity|]. assert (El : chain_len l' = T) by (unfold l'; rewrite chain_len_app, empty_len; cbn; lia).
  assert (Ef : l'.*1 = (l1 ++ (q, b) :: l2).*1) by (unfold l'; rewrite !fmap_app, empty_fst; reflexivity).
  split; [split | split; [exact El | split; [| split; [| exact Ef]]]].
  - apply psys_update; [apply psys_ins; [exact S|]; unfold empty_front; apply Forall_fmap, Forall_forall; intros [a c] Hin |].
    + destruct (ps_pbuf _ _ S a c (proj1 (chain_lookup _ _ _ a c C ltac:(apply elem_of_app; auto)))) as (P1 & P2 & P3 & P4 & n & P5 & P6 & P7). split; [exact P1|]. split; [exact P2|]. split; [cbn; lia|].
      split; [exact P4|]. exists n. split; [exact P5|]. split; [exact P6|]. cbn. destruct (type c); try exact Logic.I; lia.
    + destruct Okq as (P1 & P2 & P3 & P4 & n & P5 & P6 & P7). split; [exact P1|]. split; [exact P2|]. split; [cbn; lia|]. split; [exact P4|]. exists n. split; [exact P5|]. split; [exact P6|]. cbn. destruct (type b); try exact Logic.I; lia.
  - apply (chain_replace (pst ps1) p (empty_front T l1) q b b' l2 l2); [exact C1|]. destruct (chain_after _ _ _ _ _ _ C1) as (C2 & Nq2 & _). by apply chain_insert_ne.
  - apply empty_lengths; [cbn; repeat split; try lia; exact Q4 | cbn; lia | lia].
  - unfold l', empty_front. apply Forall_app. split; [apply Forall_fmap|]; apply Forall_forall; [intros [a c] Hin; apply (O (a, c)), elem_of_app; auto|].
    intros [a c] [[= -> ->]|Hin]%elem_of_cons; [exact Oq | apply (O (a, c)), elem_of_app; right; apply elem_of_cons; auto].
  - unfold l', empty_front. apply Forall_app. split; [apply Forall_fmap|]; apply Forall_forall; [intros [a c] Hin; cbn; lia|].
    intros [a c] [[= -> ->]|Hin]%elem_of_cons; [cbn; lia | apply (Sh (a, c)), elem_of_app; right; apply elem_of_cons; auto].
  - unfold l'. destruct l1 as [|[a c] l1]; injection E as -> -> _; cbn; eexists _, _; (split; [reflexivity|]); cbn; lia.
  - unfold l'. rewrite !chain_data_app, empty_data. cbn [app chain_data]. rewrite drop_app_ge by (rewrite <- (Nat2Z.id (length _)), (chain_data_length_app _ _ _ Le); lia).
    replace (Z.to_nat (chain_len l1 + o) - length (chain_data (mem_of ps) l1))%nat with (Z.to_nat o) by (pose proof (chain_data_length_app (mem_of ps) _ _ Le); lia).
    rewrite drop_app_le by (rewrite bytes_length; lia). f_equal. cbn [payload len b' move_payload]. rewrite drop_bytes by lia. f_equal; lia.
  - intros a Ha. cbn. rewrite fmap_app in Ha. rewrite not_elem_of_app in Ha. destruct Ha as [Ha1 Ha2]. apply not_elem_of_cons in Ha2 as [Ha2 _]. cbn in Ha2. rewrite lookup_insert_ne by congruence. apply lookup_ins_ne. rewrite empty_fst. exact Ha1.
Qed.

(** ** What changes: pbufs, the segment and the control block *)

Section run.
Context (s : istate W X U) (pcb : Z).

Definition rs ps (i : tcp_in) (c : tcp_pcb) : istate W X U :=
  set_tcp (set_i_p s ps) (set_tv_pcbs (<[pcb := c]> (tv_pcbs (tcp_of s))) (set_tv_in i (tcp_of s))).

Lemma rs_start b : pcb_at s pcb = Some b -> rs (i_p s) (inp s) b = s.
Proof.
  intros Eb. unfold rs, inp. rewrite insert_id by exact Eb. assert (E1 : forall t, set_tv_pcbs (tv_pcbs t) (set_tv_in (tv_in t) t) = t) by (intros []; reflexivity).
  assert (E2 : forall x : istate W X U, set_i_p x (i_p x) = x) by (intros []; reflexivity). rewrite E1, E2. apply set_tcp_id.
Qed.
Lemma rs_tcp ps i c : tcp_of (rs ps i c) = set_tv_pcbs (<[pcb := c]> (tv_pcbs (tcp_of s))) (set_tv_in i (tcp_of s)).
Proof. apply tcp_of_set_tcp. Qed.
Lemma rs_inp ps i c : inp (rs ps i c) = i.
Proof. unfold inp. rewrite rs_tcp. reflexivity. Qed.
Lemma rs_pcb ps i c : pcb_at (rs ps i c) pcb = Some c.
Proof. unfold pcb_at. rewrite rs_tcp. apply lookup_insert_eq. Qed.
Lemma rs_upd ps i c f : upd (rs ps i c) pcb f = Some (rs ps i (f c)).
Proof. unfold upd. rewrite rs_pcb. cbn [mbind option_bind]. unfold put_pcb. rewrite rs_tcp. unfold rs. rewrite set_tcp_again. cbn [tv_pcbs set_tv_pcbs]. rewrite insert_insert_eq. reflexivity. Qed.
Lemma rs_upd_in ps i c f : upd_in (rs ps i c) f = rs ps (f i) c.
Proof. unfold upd_in, set_inp. rewrite rs_inp, rs_tcp. unfold rs. rewrite set_tcp_again. reflexivity. Qed.
Lemma rs_write ps i c x : i_write (rs ps i c) x = rs (set_mem ps x) i c.
Proof. reflexivity. Qed.
Lemma rs_mem ps i c : i_mem (rs ps i c) = mem_of ps.
Proof. reflexivity. Qed.
Lemma rs_pbuf ps i c p : i_pbuf (rs ps i c) p = pst ps !! p.
Proof. reflexivity. Qed.

Lemma flags_ext m m' h : (forall x, h + 12 <= x < h + 14 -> ld8 m' x = ld8 m x) -> TCPH_FLAGS m' h = TCPH_FLAGS m h.
Proof. intros E. unfold TCPH_FLAGS. rewrite (ld16_ext m m'); [reflexivity|]. intros x Hx. apply E. unfold TCPH_hdrlen_rsvd_flags in Hx. lia. Qed.

(** The segment behind the first [off] bytes. *)
Definition rest_of (off nxt : Z) (i : tcp_in) : tcp_in :=
  i |> set_ti_inseg (ti_inseg i |> set_sg_len (sg_len (ti_inseg i) - off)) |> set_ti_seqno nxt.

Lemma trim_front_spec ps L i c l off nxt : let p := sg_p (ti_inseg i) in let h := sg_tcphdr (ti_inseg i) in
  arrived ps L p h l -> 0 < off <= chain_len l -> sg_len (ti_inseg i) = chain_len l -> 0 <= ti_seqno i < 4294967296 -> nxt = u32 (ti_seqno i + off) ->
  exists ps' l', trim_front (rs ps i c) nxt = Some (rs ps' (rest_of off nxt i) c) /\ arrived ps' L p h l' /\ chain_len l' = chain_len l - off /\
    chain_data (mem_of ps') l' = drop (Z.to_nat off) (chain_data (mem_of ps) l) /\ (forall a, a ∉ l.*1 -> pst ps' !! a = pst ps !! a) /\ l'.*1 = l.*1 /\
    TCPH_FLAGS (mem_of ps') h = TCPH_FLAGS (mem_of ps) h.
Proof.
  intros p h A Ho Eg Hs En. pose proof A as [S C Le _ _ (b0 & l0 & E0 & H1 & H2)]. assert (Eb0 : pst ps !! p = Some b0) by (apply (chain_lookup _ _ _ p b0 C); rewrite E0; apply list_elem_of_here).
  rewrite E0 in Le. pose proof (chain_tot_len _ _ _ Le) as T0. rewrite <- E0 in Le, T0. assert (Hl : chain_len l < 65536) by (rewrite E0 in Le; destruct Le as (_ & _ & Le & _); lia).
  assert (Ed : u32 (nxt - ti_seqno i) = off). { rewrite En. rewrite <- (u32_id (ti_seqno i)) at 2 by exact Hs. rewrite u32_sub. rewrite u32_id by lia. lia. }
  unfold trim_front. rewrite rs_inp. fold p h. rewrite rs_pbuf, Eb0. cbn [mbind option_bind]. rewrite Ed, (s32_id off) by lia. set (T := u16 (tot_len b0 - off)). assert (ET : T = chain_len l - off) by (unfold T; rewrite T0; apply u16_id; lia).
  pose proof (chain_length_size _ _ _ C) as Sz. destruct (trim_loop T (Datatypes.S (size (pst ps))) (rs ps i c) p l off C Le ltac:(lia) ltac:(lia)) as (l1 & q & b & l2 & El & Hq & Ew).
  assert (Eif : (if len b0 <? off then mjoin (while (Datatypes.S (size (pst ps))) (trim_body T) (rs ps i c, p, off)) else Some (rs ps i c, p, off)) =
    Some (rs (set_pst ps (ins (empty_front T l1) (pst ps))) i c, q, off - chain_len l1)).
  { destruct (Z.ltb_spec (len b0) off) as [Lt|Ge]; [rewrite Ew; reflexivity|]. rewrite while_S in Ew. unfold trim_body at 1 in Ew. rewrite rs_pbuf, Eb0, (proj2 (Z.ltb_ge _ _)) in Ew by exact Ge. injection Ew as E1 E2 E3. rewrite <- E3, <- E2. rewrite <- E1. reflexivity. }
  change (pst (i_p (rs ps i c))) with (pst ps). rewrite Eif. cbn [mbind option_bind]. rewrite El in A.
  destruct (trimmed_arrived ps L p h l1 q b l2 (off - chain_len l1) T A ltac:(lia)) as (Eh & A' & Ll' & D' & K' & F').
  { rewrite ET, El, chain_len_app. lia. }
  unfold i_header. change (i_p (rs _ i c)) with (set_pst ps (ins (empty_front T l1) (pst ps))). rewrite Eh. cbn [mbind option_bind].
  set (ps1 := set_pst _ (<[q := _]> _)) in *. change (set_i_p (rs _ i c) ps1) with (rs ps1 i c). rewrite rs_write, rs_upd_in, rs_mem.
  assert (Fr : frame (mem_of ps1) (st32 (mem_of ps1) (h + TCPH_seqno) nxt) h 20) by (intros y Hy; apply ld8_st32_ne; unfold TCPH_seqno; lia).
  destruct (arrived_write _ _ _ _ _ _ A' Fr) as [A2 D2]. eexists (set_mem ps1 _), _. split; [cbv beta; rewrite Ed; unfold rest_of; rewrite Eg, (u16_id off), (u16_id (chain_len l - off)) by lia; reflexivity|].
  split; [exact A2|]. split; [rewrite Ll'; exact ET|]. rewrite mem_set, D2, D'. split; [rewrite El; f_equal; f_equal; lia|]. rewrite <- El in K', F'. split; [exact K'|]. split; [exact F'|].
  apply flags_ext. intros x Hx. apply ld8_st32_ne. unfold TCPH_seqno. lia.
Qed.

(** ** The flags of the header *)

Lemma all_below (f : Z -> bool) n : forallb f (seqZ 0 n) = true -> forall x, 0 <= x < n -> f x = true.
Proof. intros C x Hx. rewrite forallb_forall in C. apply C, list_elem_of_In, elem_of_seqZ. lia. Qed.
Lemma all_words (f : Z -> bool) : forallb (fun b => forallb (fun a => f (a + 256 * b)) (seqZ 0 256)) (seqZ 0 256) = true -> forall x, 0 <= x < 65536 -> f x = true.
Proof.
  intros C x Hx. rewrite (Z.div_mod x 256), Z.add_comm by lia. pose proof (all_below _ _ C (x / 256)) as Cb. cbv beta in Cb. apply (all_below _ _ (Cb ltac:(split; [apply Z.div_pos; lia | apply Z.div_lt_upper_bound; lia]))). apply Z.mod_pos_bound. lia.
Qed.
Lemma clear_fin_word x : 0 <= x < 65536 -> let fl := Z.land (PP_HTONS x) TCP_FLAGS in
  let v := Z.lor (Z.land x (PP_HTONS (not16 TCP_FLAGS))) (PP_HTONS (u16 (clear_flag fl TCP_FIN))) in
  0 <= v < 65536 /\ Z.land (PP_HTONS v) TCP_FLAGS = clear_flag fl TCP_FIN.
Proof.
  intros Hx. set (test := fun x => let fl := Z.land (PP_HTONS x) TCP_FLAGS in
    let v := Z.lor (Z.land x (PP_HTONS (not16 TCP_FLAGS))) (PP_HTONS (u16 (clear_flag fl TCP_FIN))) in
    (0 <=? v) && (v <? 65536) && (Z.land (PP_HTONS v) TCP_FLAGS =? clear_flag fl TCP_FIN)).
  assert (T : test x = true) by (apply (all_words test); [vm_compute; reflexivity | exact Hx]). unfold test in T. cbv zeta in T |- *.
  apply andb_true_iff in T as [T T3]. apply andb_true_iff in T as [T1 T2]. rewrite Z.leb_le in T1. rewrite Z.ltb_lt in T2. rewrite Z.eqb_eq in T3. auto.
Qed.
Lemma clear_fin m h : TCPH_FLAGS (TCPH_FLAGS_SET m h (clear_flag (TCPH_FLAGS m h) TCP_FIN)) h = clear_flag (TCPH_FLAGS m h) TCP_FIN.
Proof. destruct (clear_fin_word (ld16 m (h + TCPH_hdrlen_rsvd_flags)) (ld16_range _ _)) as [Hv E]. unfold TCPH_FLAGS at 1, TCPH_FLAGS_SET. rewrite ld16_st16 by exact Hv. exact E. Qed.
Lemma cleared_fin fl : has (clear_flag fl TCP_FIN) TCP_FIN = false /\ has (clear_flag fl TCP_FIN) TCP_SYN = has fl TCP_SYN.
Proof. unfold has, clear_flag. rewrite <- !Z.land_assoc. split; [change (Z.land (Z.lnot TCP_FIN) TCP_FIN) with 0; rewrite Z.land_0_r; reflexivity | reflexivity]. Qed.

Definition fin_len (m : memory) (h : Z) : Z := if has (TCPH_FLAGS m h) TCP_FIN then 1 else 0.
Lemma fin_len_range m h : 0 <= fin_len m h <= 1.
Proof. unfold fin_len. destruct (has (TCPH_FLAGS m h) TCP_FIN); lia. Qed.
Lemma tcplen_fin m g : has (TCPH_FLAGS m (sg_tcphdr g)) TCP_SYN = false -> TCP_TCPLEN m g = sg_len g + fin_len m (sg_tcphdr g).
Proof.
  intros Hs. unfold TCP_TCPLEN, fin_len. f_equal. unfold has in *. apply negb_false_iff, Z.eqb_eq in Hs. rewrite Z.land_lor_distr_r, Hs, Z.lor_0_r. reflexivity.
Qed.

(** ** The next segment *)

(** The segment of [i'] is that of [i], with [n] sequence numbers. *)
Definition same_segment (i i' : tcp_in) (n : Z) : Prop :=
  ti_tcplen i' = n /\ ti_seqno i' = ti_seqno i /\ sg_p (ti_inseg i') = sg_p (ti_inseg i) /\ sg_tcphdr (ti_inseg i') = sg_tcphdr (ti_inseg i) /\
  ti_recv_data i' = ti_recv_data i /\ ti_recv_flags i' = ti_recv_flags i.
(** What is left of the packet. *)
Record left_over ps0 ps L (l0 : list (Z * pbuf)) (p : Z) (l : list (Z * pbuf)) (d : list Z) : Prop := {
  lo_sys : psys ps L;
  lo_chain : chain (pst ps) p l;
  lo_lengths : lengths_ok l;
  lo_data : chain_data (mem_of ps) l = d;
  lo_others : forall a, a ∉ l0.*1 -> pst ps !! a = pst ps0 !! a }.

(** The FIN bit is removed from the header. *)
Lemma fin_cleared ps L p h l i c : arrived ps L p h l -> has (TCPH_FLAGS (mem_of ps) h) TCP_SYN = false ->
  exists ps1, (let fl := TCPH_FLAGS (mem_of ps) h in if has fl TCP_FIN then i_write (rs ps i c) (TCPH_FLAGS_SET (mem_of ps) h (clear_flag fl TCP_FIN)) else rs ps i c) = rs ps1 i c /\
    arrived ps1 L p h l /\ chain_data (mem_of ps1) l = chain_data (mem_of ps) l /\ pst ps1 = pst ps /\
    has (TCPH_FLAGS (mem_of ps1) h) TCP_FIN = false /\ has (TCPH_FLAGS (mem_of ps1) h) TCP_SYN = false.
Proof.
  intros A Hs. cbv zeta. set (fl := TCPH_FLAGS (mem_of ps) h) in *. destruct (has fl TCP_FIN) eqn:Hf; [| exists ps; do 4 (split; [auto|]); auto].
  set (x := TCPH_FLAGS_SET (mem_of ps) h (clear_flag fl TCP_FIN)). assert (Fr : frame (mem_of ps) x h 20) by (intros y Hy; apply ld8_st16_ne; unfold TCPH_hdrlen_rsvd_flags; lia).
  destruct (arrived_write _ _ _ _ _ _ A Fr) as [A1 D1]. exists (set_mem ps x). rewrite mem_set. split; [reflexivity|]. split; [exact A1|]. split; [exact D1|]. split; [reflexivity|].
  unfold x, fl. rewrite clear_fin. destruct (cleared_fin (TCPH_FLAGS (mem_of ps) h)) as [-> ->]. auto.
Qed.

(** The segment is cut at the edge of the window; the FIN bit is behind it. *)
Lemma window_cut ps L i c l wnd : let p := sg_p (ti_inseg i) in let h := sg_tcphdr (ti_inseg i) in let tl := chain_len l + fin_len (mem_of ps) h in
  arrived ps L p h l -> sg_len (ti_inseg i) = chain_len l -> has (TCPH_FLAGS (mem_of ps) h) TCP_SYN = false -> ti_tcplen i = tl -> 0 < wnd < 65536 ->
  exists ps' L' l' i',
    (if wnd <? ti_tcplen i then
       let fl := TCPH_FLAGS (mem_of ps) h in
       let s := if has fl TCP_FIN then i_write (rs ps i c) (TCPH_FLAGS_SET (mem_of ps) h (clear_flag fl TCP_FIN)) else rs ps i c in
       cut_inseg custom_free s wnd
     else Some (rs ps i c)) = Some (rs ps' i' c) /\
    same_segment i i' (Z.min tl wnd) /\ left_over ps ps' L' l p l' (take (Z.to_nat wnd) (chain_data (mem_of ps) l)) /\
    has (TCPH_FLAGS (mem_of ps') h) TCP_FIN = has (TCPH_FLAGS (mem_of ps) h) TCP_FIN && (tl <=? wnd).
Proof.
  intros p h tl A Eg Hs Et Hw. assert (Ht : tl = chain_len l + fin_len (mem_of ps) h) by reflexivity. clearbody tl. assert (Hd := chain_data_length (mem_of ps) l (ar_lengths _ _ _ _ _ A)). pose proof (fin_len_range (mem_of ps) h) as Hf.
  destruct (Z.ltb_spec wnd (ti_tcplen i)) as [Lt|Ge].
  2:{ exists ps, L, l, i. split; [reflexivity|]. split; [unfold same_segment; repeat split; lia|]. split; [destruct A; split; try assumption; [rewrite take_ge by lia; reflexivity | auto] |].
      rewrite (proj2 (Z.leb_le _ _)), andb_true_r by lia. reflexivity. }
  cbv zeta. set (fl := TCPH_FLAGS (mem_of ps) h) in *. destruct (fin_cleared ps L p h l i c A Hs) as (ps1 & Ew & A1 & D1 & Ep & Hx). cbv zeta in Ew. fold fl in Ew.
  destruct (arrived_realloc _ _ _ _ _ wnd A1 ltac:(lia)) as (ps' & L' & l' & Er & S' & C' & Le' & D' & K' & O'). rewrite Ep in O'.
  assert (Ef : TCPH_FLAGS (mem_of ps') h = TCPH_FLAGS (mem_of ps1) h) by (apply flags_ext; intros y Hy; apply K'; lia).
  rewrite Ew. unfold cut_inseg. rewrite rs_inp, rs_mem. fold h. rewrite (proj2 Hx), u16_id by lia. unfold in_realloc. change (i_p (rs ps1 i c)) with ps1. fold p. rewrite Er. cbn [mbind option_bind].
  change (set_i_p (rs ps1 i c) ps') with (rs ps' i c). rewrite rs_upd_in, rs_mem. cbv beta zeta.
  assert (Etl : TCP_TCPLEN (mem_of ps') (ti_inseg i |> set_sg_len wnd) = wnd) by (rewrite tcplen_fin; cbn [sg_tcphdr sg_len set_sg_len]; fold h; unfold fin_len; rewrite Ef; [rewrite (proj1 Hx); lia | apply Hx]).
  rewrite Etl, u16_id by lia. eexists ps', L', l', _. split; [reflexivity|]. split; [unfold same_segment; cbn; repeat split; lia|]. rewrite D1 in D'. split; [split; assumption|].
  rewrite Ef, (proj1 Hx). replace (tl <=? wnd) with false by (symmetry; apply Z.leb_gt; lia). rewrite andb_false_r. reflexivity.
Qed.

(** What the application gets: the packet, unless it is empty, and the end of the stream. *)
Definition passed_on (i i' : tcp_in) (p : Z) (d : list Z) (fin : bool) : Prop :=
  ti_recv_data i' = match d with [] => ti_recv_data i | _ => p end /\ sg_p (ti_inseg i') = match d with [] => p | _ => 0 end /\
  ti_recv_flags i' = if fin then or_flag (ti_recv_flags i) TF_GOT_FIN else ti_recv_flags i.

Lemma take_wnd_fields nxt n c : tp_ooseq (take_wnd nxt n c) = tp_ooseq c /\ tp_rcv_nxt (take_wnd nxt n c) = nxt /\ tp_rcv_wnd (take_wnd nxt n c) = u16 (tp_rcv_wnd c - n).
Proof. unfold take_wnd, tcp_update_rcv_ann_wnd. cbv zeta; repeat case_match; repeat split; reflexivity. Qed.

Lemma receive_next_spec ps L i c l : let p := sg_p (ti_inseg i) in let h := sg_tcphdr (ti_inseg i) in
  let tl := chain_len l + fin_len (mem_of ps) h in let n := Z.min tl (tp_rcv_wnd c) in let d := take (Z.to_nat (tp_rcv_wnd c)) (chain_data (mem_of ps) l) in
  arrived ps L p h l -> sg_len (ti_inseg i) = chain_len l -> has (TCPH_FLAGS (mem_of ps) h) TCP_SYN = false -> tl < 65536 -> 0 < tp_rcv_wnd c < 65536 -> tp_ooseq c = 0 ->
  exists ps' L' l' i', receive_next custom_free (rs ps i c) pcb = Some (rs ps' i' (tcp_ack (take_wnd (u32 (ti_seqno i + n)) n c))) /\
    left_over ps ps' L' l p l' d /\ passed_on i i' p d (has (TCPH_FLAGS (mem_of ps) h) TCP_FIN && (tl <=? tp_rcv_wnd c)).
Proof.
  intros p h tl n d A Eg Hs Ht Hw Ho. pose proof (chain_len_nonneg _ (ar_lengths _ _ _ _ _ A)) as Hl. pose proof (fin_len_range (mem_of ps) h) as Hf.
  assert (Etl : u16 (TCP_TCPLEN (mem_of ps) (ti_inseg i)) = tl) by (rewrite tcplen_fin by exact Hs; fold h; rewrite Eg; apply u16_id; subst tl; lia).
  unfold receive_next. rewrite rs_pcb. cbn [mbind option_bind]. rewrite rs_upd_in, rs_mem, Etl, rs_inp. set (i1 := i |> set_ti_tcplen tl). change (sg_tcphdr (ti_inseg i1)) with h. rewrite rs_mem.
  destruct (window_cut ps L i1 c l (tp_rcv_wnd c) A Eg Hs eq_refl Hw) as (ps' & L' & l' & i2 & Ec & (T2 & S2 & P2 & H2 & R2 & F2) & LO & Fin).
  change (ti_tcplen i2 = n) in T2. change (left_over ps ps' L' l p l' d) in LO. change (sg_tcphdr (ti_inseg i1)) with h in *. fold tl in Fin. cbv zeta in Ec. rewrite Ec. cbn [mbind option_bind].
  unfold adjust_ooseq. rewrite rs_pcb. cbn [mbind option_bind]. rewrite Ho. cbn [Z.eqb mbind option_bind]. rewrite rs_inp, rs_upd, T2, S2. change (ti_seqno i1) with (ti_seqno i). cbn [mbind option_bind].
  rewrite rs_pbuf, P2. change (sg_p (ti_inseg i1)) with p. pose proof (arrived_not0 _ _ _ _ _ A) as Np. clearbody n d.
  destruct LO as [Sy Ch Le Da Ot]. pose proof (chain_inv _ _ _ Ch) as [[? _] | (_ & b & l2 & El & Eb & _)]; [contradiction|]. rewrite Eb. cbn [mbind option_bind]. pose proof (chain_data_length (mem_of ps') _ Le) as Ld. rewrite Da in Ld.
  rewrite El in Le. rewrite (chain_tot_len _ _ _ Le). rewrite <- El in *. set (c' := take_wnd _ _ c). set (i3 := match d with [] => i2 | _ => i2 |> set_ti_recv_data p |> set_ti_inseg (ti_inseg i2 |> set_sg_p 0) end).
  assert (E3 : (if 0 <? chain_len l' then upd_in (rs ps' i2 c') (fun i => i |> set_ti_recv_data (sg_p (ti_inseg i)) |> set_ti_inseg (ti_inseg i |> set_sg_p 0)) else rs ps' i2 c') = rs ps' i3 c').
  { unfold i3. rewrite <- Ld. destruct d as [|x d']; [reflexivity|]. rewrite (proj2 (Z.ltb_lt _ _)) by (cbn; lia). rewrite rs_upd_in, P2. reflexivity. }
  rewrite E3, rs_mem, H2. rewrite Fin. set (fin := _ && _).
  set (i4 := if fin then i3 |> set_ti_recv_flags (or_flag (ti_recv_flags i3) TF_GOT_FIN) else i3).
  assert (E4 : (if fin then upd_in (rs ps' i3 c') (fun i => i |> set_ti_recv_flags (or_flag (ti_recv_flags i) TF_GOT_FIN)) else rs ps' i3 c') = rs ps' i4 c') by (unfold i4; destruct fin; [rewrite rs_upd_in; reflexivity | reflexivity]).
  rewrite E4, while_S. unfold ooseq_ready_body at 1. rewrite rs_pcb. unfold c'. rewrite (proj1 (take_wnd_fields _ _ _)), Ho. cbn [Z.eqb mjoin option_join mbind option_bind]. rewrite rs_upd.
  exists ps', L', l', i4. split; [reflexivity|]. split; [split; assumption|].
  unfold passed_on, i4, i3. destruct fin, d; cbn; rewrite ?R2, ?F2, ?P2; repeat split; reflexivity.
Qed.

(** The first part of the segment is old. *)
Lemma skip_old ps L i c l isn a r : let p := sg_p (ti_inseg i) in let h := sg_tcphdr (ti_inseg i) in
  arrived ps L p h l -> sg_len (ti_inseg i) = chain_len l -> ti_tcplen i = chain_len l + fin_len (mem_of ps) h -> ti_tcplen i < 65536 ->
  ti_seqno i = u32 (isn + a) -> tp_rcv_nxt c = u32 (isn + r) -> a <= r < a + ti_tcplen i ->
  exists ps1 i1 l1,
    (if TCP_SEQ_BETWEEN (tp_rcv_nxt c) (u32 (ti_seqno i + 1)) (u32 (ti_seqno i + ti_tcplen i - 1)) then trim_front (rs ps i c) (tp_rcv_nxt c)
     else if TCP_SEQ_LT (ti_seqno i) (tp_rcv_nxt c) then upd (rs ps i c) pcb tcp_ack_now else Some (rs ps i c)) = Some (rs ps1 i1 c) /\
    (arrived ps1 L p h l1 /\ chain_len l1 = chain_len l - (r - a) /\ chain_data (mem_of ps1) l1 = drop (Z.to_nat (r - a)) (chain_data (mem_of ps) l) /\
     (forall x, x ∉ l.*1 -> pst ps1 !! x = pst ps !! x) /\ l1.*1 = l.*1 /\ TCPH_FLAGS (mem_of ps1) h = TCPH_FLAGS (mem_of ps) h) /\
    (sg_len (ti_inseg i1) = chain_len l1 /\ ti_seqno i1 = tp_rcv_nxt c /\ sg_p (ti_inseg i1) = p /\ sg_tcphdr (ti_inseg i1) = h /\
     ti_recv_data i1 = ti_recv_data i /\ ti_recv_flags i1 = ti_recv_flags i).
Proof.
  intros p h A Eg Et Ht Es En Hr. pose proof (fin_len_range (mem_of ps) h) as Hf. rewrite Et in Hr, Ht.
  assert (N : forall x y, - 65536 <= x - y <= 65536 -> near (isn + x) (isn + y)) by (intros x y Hxy; unfold near, HALF; lia).
  assert (B : TCP_SEQ_BETWEEN (tp_rcv_nxt c) (u32 (ti_seqno i + 1)) (u32 (ti_seqno i + ti_tcplen i - 1)) = (a + 1 <=? r)).
  { rewrite Es, En, Et. rewrite <- Z.add_sub_assoc, !u32_add, <- !Z.add_assoc. unfold TCP_SEQ_BETWEEN. rewrite seq_geq by (apply N; lia).
    rewrite (proj1 (proj2 (seq_compare (isn + r) (isn + (a + (chain_len l + fin_len (mem_of ps) h - 1))) ltac:(apply N; lia)))). destruct (Z.leb_spec (isn + (a + 1)) (isn + r)), (Z.leb_spec (a + 1) r); lia. }
  rewrite B. destruct (Z.leb_spec (a + 1) r) as [Lt|Ge].
  - assert (Hs : 0 <= ti_seqno i < 4294967296) by (rewrite Es; apply u32_range).
    destruct (trim_front_spec ps L i c l (r - a) (tp_rcv_nxt c) A ltac:(lia) Eg Hs) as (ps1 & l1 & E & A1 & L1 & D1 & K1 & F1 & G1); [rewrite En, Es, u32_add; f_equal; lia|].
    exists ps1, (rest_of (r - a) (tp_rcv_nxt c) i), l1. split; [exact E|]. split; [exact (conj A1 (conj L1 (conj D1 (conj K1 (conj F1 G1)))))|]. rewrite L1, <- Eg. repeat split; reflexivity.
  - assert (Er : r = a) by lia. rewrite Es, En, Er. rewrite (proj1 (seq_compare _ _ (N a a ltac:(lia)))), Z.ltb_irrefl. exists ps, i, l. split; [reflexivity|].
    rewrite Z.sub_diag, Z.sub_0_r, Es. split; [|auto 10]. split; [exact A|]. auto 10.
Qed.

Lemma tcp_ack_fields c : tp_rcv_nxt (tcp_ack c) = tp_rcv_nxt c /\ tp_rcv_wnd (tcp_ack c) = tp_rcv_wnd c /\ has (tp_flags (tcp_ack c)) TF_ACK_NOW || has (tp_flags (tcp_ack c)) TF_ACK_DELAY = true.
Proof.
  assert (O : forall x f, 0 < f -> has (or_flag x f) f = true).
  { intros x f Hf. unfold has, or_flag. rewrite Z.land_lor_distr_l, Z.land_diag. apply negb_true_iff, Z.eqb_neq. intros E. apply Z.lor_eq_0_iff in E. lia. }
  unfold tcp_ack. destruct (has (tp_flags c) TF_ACK_DELAY); cbn; rewrite O by (unfold TF_ACK_NOW, TF_ACK_DELAY; lia); rewrite ?orb_true_r; auto.
Qed.

End run.

(** ** The stream *)

(** A segment for the connection [pcb], whose control block is [b].  The stream of the
    peer is [str]; its first byte has the sequence number [isn].  The segment carries
    the part of it from [a] on, and [r] bytes have been received. *)
Record segment s L (pcb : Z) (b : tcp_pcb) (l : list (Z * pbuf)) (isn a r : Z) (str : list Z) : Prop := {
  sm_pcb : pcb_at s pcb = Some b;
  sm_packet : arrived (i_p s) L (sg_p (ti_inseg (inp s))) (sg_tcphdr (ti_inseg (inp s))) l;
  sm_syn : has (TCPH_FLAGS (i_mem s) (sg_tcphdr (ti_inseg (inp s)))) TCP_SYN = false;
  sm_len : sg_len (ti_inseg (inp s)) = chain_len l;
  sm_tcplen : ti_tcplen (inp s) = chain_len l + fin_len (i_mem s) (sg_tcphdr (ti_inseg (inp s)));
  sm_short : ti_tcplen (inp s) < 65536;
  sm_seqno : ti_seqno (inp s) = u32 (isn + a);
  sm_data : chain_data (i_mem s) l `prefix_of` drop (Z.to_nat a) str;
  sm_fin : has (TCPH_FLAGS (i_mem s) (sg_tcphdr (ti_inseg (inp s)))) TCP_FIN = true -> a + chain_len l = Z.of_nat (length str);
  sm_next : tp_rcv_nxt b = u32 (isn + r);
  sm_new : 0 <= a <= r /\ r < a + ti_tcplen (inp s);
  sm_wnd : 0 < tp_rcv_wnd b < 65536;
  sm_ooseq : tp_ooseq b = 0 }.

(** The bytes that are new and inside the window; whether the end of the stream is. *)
Definition fresh s (b : tcp_pcb) (l : list (Z * pbuf)) (a r : Z) : list Z := take (Z.to_nat (tp_rcv_wnd b)) (drop (Z.to_nat (r - a)) (chain_data (i_mem s) l)).
Definition ended s (b : tcp_pcb) (a r : Z) : bool := has (TCPH_FLAGS (i_mem s) (sg_tcphdr (ti_inseg (inp s)))) TCP_FIN && (a + ti_tcplen (inp s) - r <=? tp_rcv_wnd b).

Lemma fresh_length s L pcb b l isn a r str : segment s L pcb b l isn a r str -> Z.of_nat (length (fresh s b l a r)) = Z.min (a + chain_len l - r) (tp_rcv_wnd b).
Proof.
  intros M. pose proof (chain_data_length (i_mem s) l (ar_lengths _ _ _ _ _ (sm_packet _ _ _ _ _ _ _ _ _ M))) as Ld. pose proof (sm_wnd _ _ _ _ _ _ _ _ _ M) as Hw.
  destruct (sm_new _ _ _ _ _ _ _ _ _ M) as [Ha Hr]. rewrite (sm_tcplen _ _ _ _ _ _ _ _ _ M) in Hr. pose proof (fin_len_range (i_mem s) (sg_tcphdr (ti_inseg (inp s)))). unfold fresh. rewrite length_take, length_drop. lia.
Qed.
(** The window takes the bytes and, if it is inside, the FIN. *)
Lemma taken s L pcb b l isn a r str : segment s L pcb b l isn a r str ->
  Z.min (chain_len l - (r - a) + fin_len (i_mem s) (sg_tcphdr (ti_inseg (inp s)))) (tp_rcv_wnd b) = Z.of_nat (length (fresh s b l a r)) + (if ended s b a r then 1 else 0).
Proof.
  intros M. rewrite (fresh_length _ _ _ _ _ _ _ _ _ M). destruct (sm_new _ _ _ _ _ _ _ _ _ M) as [Ha Hr]. pose proof (sm_wnd _ _ _ _ _ _ _ _ _ M) as Hw. unfold ended. rewrite (sm_tcplen _ _ _ _ _ _ _ _ _ M) in *. unfold fin_len in *.
  destruct (has (TCPH_FLAGS (i_mem s) (sg_tcphdr (ti_inseg (inp s)))) TCP_FIN); cbn [andb]; [case_bool|]; lia.
Qed.
Lemma fresh_prefix s L pcb b l isn a r str : segment s L pcb b l isn a r str -> fresh s b l a r `prefix_of` drop (Z.to_nat r) str.
Proof.
  intros M. destruct (sm_data _ _ _ _ _ _ _ _ _ M) as [k Ek]. destruct (sm_new _ _ _ _ _ _ _ _ _ M) as [Ha Hr]. pose proof (chain_data_length (i_mem s) l (ar_lengths _ _ _ _ _ (sm_packet _ _ _ _ _ _ _ _ _ M))) as Ld.
  rewrite (sm_tcplen _ _ _ _ _ _ _ _ _ M) in Hr. pose proof (fin_len_range (i_mem s) (sg_tcphdr (ti_inseg (inp s)))) as Hf.
  replace (Z.to_nat r) with (Z.to_nat a + Z.to_nat (r - a))%nat by lia. rewrite <- drop_drop, Ek, drop_app_le by lia. unfold fresh. exists (drop (Z.to_nat (tp_rcv_wnd b)) (drop (Z.to_nat (r - a)) (chain_data (i_mem s) l)) ++ k). rewrite app_assoc, take_drop. reflexivity.
Qed.

(** C4: Data in sequence is received as the peer sent it.  When a segment carries part of the
    peer's stream, some of it new and none missing in front, and no segments are waiting out
    of sequence, the application gets exactly the bytes of the stream behind those it has
    got, without the bytes it had and as many as the window allows, in the packet of the
    segment; [rcv_nxt] and the window advance by them, an acknowledgement is due, and no
    other pbuf changes.  The end of the stream is reported only with its last byte. *)
Theorem tcp_receive_in_order s L pcb b l isn a r str : segment s L pcb b l isn a r str ->
  let p := sg_p (ti_inseg (inp s)) in let d := fresh s b l a r in let fin := ended s b a r in
  exists s' L' l' b', receive_data stale custom_free netif_output s pcb = Some s' /\ pcb_at s' pcb = Some b' /\
    d `prefix_of` drop (Z.to_nat r) str /\ Z.of_nat (length d) = Z.min (a + chain_len l - r) (tp_rcv_wnd b) /\
    left_over (i_p s) (i_p s') L' l p l' d /\ passed_on (inp s) (inp s') p d fin /\
    (let n := Z.of_nat (length d) + (if fin then 1 else 0) in tp_rcv_nxt b' = u32 (isn + (r + n)) /\ tp_rcv_wnd b' = tp_rcv_wnd b - n) /\
    has (tp_flags b') TF_ACK_NOW || has (tp_flags b') TF_ACK_DELAY = true /\
    (fin = true -> r + Z.of_nat (length d) = Z.of_nat (length str)).
Proof.
  intros M p d fin. pose proof (taken _ _ _ _ _ _ _ _ _ M) as Tk. fold d fin in Tk. pose proof (fresh_length _ _ _ _ _ _ _ _ _ M) as Ld. fold d in Ld. pose proof (fresh_prefix _ _ _ _ _ _ _ _ _ M) as Pd. fold d in Pd.
  pose proof M as [Eb A Hs Eg Et Ht Es _ Hfin En [Ha Hr] Hw Ho]. set (i := inp s) in *. set (ps := i_p s) in *. change (i_mem s) with (mem_of ps) in *.
  assert (Call : receive_data stale custom_free netif_output s pcb = receive_data stale custom_free netif_output (rs s pcb ps i b) pcb) by (unfold ps, i; rewrite (rs_start s pcb b Eb); reflexivity).
  rewrite Call. unfold receive_data. rewrite rs_pcb, rs_inp. cbn [mbind option_bind].
  destruct (skip_old s pcb ps L i b l isn a r A Eg Et Ht Es En ltac:(lia)) as (ps1 & i1 & l1 & -> & (A1 & L1 & D1 & K1 & F1 & G1) & (Eg1 & Es1 & Ep1 & Eh1 & R1 & Q1)). cbn [mbind option_bind].
  rewrite rs_inp, Es1. assert (B : TCP_SEQ_BETWEEN (tp_rcv_nxt b) (tp_rcv_nxt b) (u32 (tp_rcv_nxt b + tp_rcv_wnd b - 1)) = true).
  { rewrite En, <- Z.add_sub_assoc, u32_add. unfold TCP_SEQ_BETWEEN. rewrite seq_geq by (unfold near, HALF; lia). rewrite (proj1 (proj2 (seq_compare (isn + r) (isn + r + (tp_rcv_wnd b - 1)) ltac:(unfold near, HALF; lia)))). apply andb_true_iff. rewrite !Z.leb_le. lia. }
  rewrite B, Z.eqb_refl. assert (Ff : fin_len (mem_of ps1) (sg_tcphdr (ti_inseg i)) = fin_len (mem_of ps) (sg_tcphdr (ti_inseg i))) by (unfold fin_len; rewrite G1; reflexivity).
  destruct (receive_next_spec s pcb ps1 L i1 b l1) as (ps' & L' & l' & i' & E & LO & Pa).
  1-6: rewrite ?Ep1, ?Eh1, ?Ff, ?G1; try assumption; lia.
  rewrite Ep1, Eh1, Ff, G1, L1, D1, Es1 in *. rewrite Tk in E. exists (rs s pcb ps' i' (tcp_ack (take_wnd (u32 (tp_rcv_nxt b + (Z.of_nat (length d) + (if fin then 1 else 0)))) (Z.of_nat (length d) + (if fin then 1 else 0)) b))), L', l'. eexists.
  split; [exact E|]. rewrite rs_pcb, rs_inp. split; [reflexivity|]. split; [exact Pd|]. split; [exact Ld|]. destruct LO as [Sy Ch Le Da Ot]. split; [|split; [|split; [|split]]].
  - split; [exact Sy | exact Ch | exact Le | exact Da |]. intros x Hx. transitivity (pst ps1 !! x); [apply Ot; rewrite F1; exact Hx | apply K1, Hx].
  - destruct Pa as (P1 & P2 & P3). rewrite R1 in P1. rewrite Q1 in P3. split; [exact P1|]. split; [exact P2|]. rewrite P3. unfold fin, ended. fold i. change (i_mem s) with (mem_of ps). rewrite Et.
    replace (chain_len l - (r - a) + fin_len (mem_of ps) (sg_tcphdr (ti_inseg i))) with (a + (chain_len l + fin_len (mem_of ps) (sg_tcphdr (ti_inseg i))) - r) by lia. reflexivity.
  - cbv zeta. destruct (tcp_ack_fields (take_wnd (u32 (tp_rcv_nxt b + (Z.of_nat (length d) + (if fin then 1 else 0)))) (Z.of_nat (length d) + (if fin then 1 else 0)) b)) as (-> & -> & _).
    destruct (take_wnd_fields (u32 (tp_rcv_nxt b + (Z.of_nat (length d) + (if fin then 1 else 0)))) (Z.of_nat (length d) + (if fin then 1 else 0)) b) as (_ & -> & ->). rewrite En, u32_add, u16_id by lia. split; [f_equal; lia | reflexivity].
  - apply tcp_ack_fields.
  - intros Ef. unfold fin, ended in Ef. apply andb_true_iff in Ef as [Ef1 Ef2]. specialize (Hfin Ef1). rewrite Z.leb_le in Ef2. fold i in Ef2. rewrite Et in Ef2. pose proof (fin_len_range (mem_of ps) (sg_tcphdr (ti_inseg i))). lia.
Qed.

End deliver.
(** ** A segment of 100 bytes, 30 of them received before *)

#[local] Existing Instance World.world_system.
#[local] Existing Instance World.sample_laws.
#[local] Existing Instance TcpSample.tcp_itself.

Definition sample_data : pstate World.world := sample_alloc sample_empty PBUF_TRANSPORT 100 PBUF_RAM.
Definition sample_ps : pstate World.world := set_mem sample_data (st8 (mem_of sample_data) 4210 7).
Definition sample_pcb : tcp_pcb := Tcp.Tcp.new_pcb 64 6510 0 255 |> set_tp_state ESTABLISHED |> set_tp_rcv_nxt 1030 |> set_tp_rcv_wnd 2000.
Definition sample_in : tcp_in := mkTcpIn (mkTcpSeg 0 4108 100 0 0 4156) 4156 4136 1000 0 0 100 0 0.
Definition sample_segment : TcpSample.state := set_tcp (set_i_p TcpSample.initial sample_ps) (set_tv_in sample_in (set_tv_pcbs {[ 64 := sample_pcb ]} TcpSample.no_pcbs)).

Lemma tcp_receive_in_order_witness : exists s' b', receive_data no_stale no_custom TcpSample.link sample_segment 64 = Some s' /\ pcb_at s' 64 = Some b' /\
  tp_rcv_nxt b' = 1100 /\ tp_rcv_wnd b' = 1930 /\ ti_recv_data (inp s') = 4108 /\ exists l, chain (pst (i_p s')) 4108 l /\ chain_data (i_mem s') l = 7 :: replicate 69 0.
Proof.
  destruct (sample_alloc_ok sample_empty ∅ PBUF_TRANSPORT 100 PBUF_RAM sample_empty_ok ltac:(lia) ltac:(intros _; unfold ram_length_ok; lia)) as [L HL].
  fold sample_data in HL. set (b := mkPbuf 0 4180 100 100 PBUF_RAM 0 1). assert (Eb : pst sample_data !! 4108 = Some b) by (vm_compute; reflexivity).
  pose proof (ps_pbuf _ _ HL 4108 _ Eb) as (_ & _ & _ & _ & k & Hk & _ & Hb). cbn in Hb.
  assert (Hp : psys sample_ps L) by (apply (psys_data _ _ _ 4108 k 4210 1 HL Hk); [lia | lia | intros y Hy; apply ld8_st8_ne; lia]).
  destruct (tcp_receive_in_order no_stale no_custom TcpSample.link sample_segment L 64 sample_pcb [(4108, b)] 1000 0 30 (replicate 30 0 ++ 7 :: replicate 100 0)) as (s' & L' & l' & b' & E & E1 & _ & _ & LO & (R & _ & _) & (N & Wn) & _ & _).
  - split; [vm_compute; reflexivity | | vm_compute; reflexivity | reflexivity | vm_compute; reflexivity | reflexivity | reflexivity | | vm_compute; discriminate | reflexivity | cbn; lia | cbn; lia | reflexivity].
    + split; [exact Hp | constructor; [lia | vm_compute; reflexivity | constructor] | cbn; repeat split; lia | repeat constructor | repeat constructor; cbn; lia | exists b, []; cbn; repeat split; lia].
    + exists (replicate 31 0). vm_compute. reflexivity.
  - exists s', b'. split; [exact E|]. split; [exact E1|]. split; [rewrite N; vm_compute; reflexivity|]. split; [rewrite Wn; vm_compute; reflexivity|]. split; [rewrite R; vm_compute; reflexivity|].
    exists l'. split; [apply LO|]. etransitivity; [apply LO | vm_compute; reflexivity].
Defined.

End TcpDeliver.
