(* ===== verification/Slip.v ===== *)
(** The serial line interface: netif/slipif.c, with packets received by interrupts too
    (SLIP_RX_FROM_ISR and SLIP_RX_QUEUE 1) and without a thread (NO_SYS 1).

    The functions of the serial device (sio_open, sio_send, sio_tryread) are not part of
    lwIP; they are arguments, and so is [netif->input]. *)

From stdpp Require Import base tactics numbers list gmap.
From Stdlib Require Import ZArith Lia.
From S2P Require Import Prelude Stats PbufDefs NetifDefs Memp PbufMem Pbuf.

Local Open Scope Z_scope.

Module Slip.
Import Memp Pbuf.

Definition SLIP_END : Z := 0xC0.
Definition SLIP_ESC : Z := 0xDB.
Definition SLIP_ESC_END : Z := 0xDC.
Definition SLIP_ESC_ESC : Z := 0xDD.
Definition SLIP_MAX_SIZE : Z := 1500.
Definition NETIF_FLAG_POINTTOPOINT : Z := 0x04.
(** of lwipopts.h *)
Definition PBUF_POOL_BUFSIZE : Z := 1700.

Inductive slipif_recv_state := SLIP_RECV_NORMAL | SLIP_RECV_ESCAPE.

(** [q] is the packet that is being received, [p] its pbuf for the next byte. *)
Record slipif_priv := mkSlip {
  sl_sd : Z; sl_p : Z; sl_q : Z; sl_state : slipif_recv_state; sl_i : Z; sl_recved : Z; sl_rxpackets : Z }.
Definition set_sl_p (x : Z) (v : slipif_priv) := mkSlip (sl_sd v) x (sl_q v) (sl_state v) (sl_i v) (sl_recved v) (sl_rxpackets v).
Definition set_sl_q (x : Z) (v : slipif_priv) := mkSlip (sl_sd v) (sl_p v) x (sl_state v) (sl_i v) (sl_recved v) (sl_rxpackets v).
Definition set_sl_state (x : slipif_recv_state) (v : slipif_priv) := mkSlip (sl_sd v) (sl_p v) (sl_q v) x (sl_i v) (sl_recved v) (sl_rxpackets v).
Definition set_sl_i (x : Z) (v : slipif_priv) := mkSlip (sl_sd v) (sl_p v) (sl_q v) (sl_state v) x (sl_recved v) (sl_rxpackets v).
Definition set_sl_recved (x : Z) (v : slipif_priv) := mkSlip (sl_sd v) (sl_p v) (sl_q v) (sl_state v) (sl_i v) x (sl_rxpackets v).
Definition set_sl_rxpackets (x : Z) (v : slipif_priv) := mkSlip (sl_sd v) (sl_p v) (sl_q v) (sl_state v) (sl_i v) (sl_recved v) x.

Section slip.
Context {W : Type} `{MemSystem W}.
Context (stale : Z -> Z) (custom_free : pstate W -> Z -> option (pstate W)).

(** [D] is the state of the serial device. *)
Context {D : Type}.
Context (sio_open : Z -> D -> D * Z) (sio_send : Z -> Z -> D -> D) (sio_tryread : Z -> D -> D * option Z).

(** ** Sending *)

Definition send_byte (sd c : Z) (d : D) : D :=
  if c =? SLIP_END then sio_send SLIP_ESC_END sd (sio_send SLIP_ESC sd d)
  else if c =? SLIP_ESC then sio_send SLIP_ESC_ESC sd (sio_send SLIP_ESC sd d)
  else sio_send c sd d.
(** [n] bytes are left in the pbuf, from [a] on. *)
Fixpoint send_bytes (m : memory) (sd a : Z) (n : nat) (d : D) : D :=
  match n with
  | O => d
  | S n => send_bytes m sd (a + 1) n (send_byte sd (ld8 m a) d)
  end.
Definition send_body (s : pstate W) (sd : Z) (y : Z * D) : (Z * D) + option D :=
  let '(q, d) := y in
  if q =? 0 then inr (Some d)
  else
    match pst s !! q with
    | None => inr None
    | Some b => inl (next b, send_bytes (mem_of s) sd (payload b) (Z.to_nat (len b)) d)
    end.
Definition slipif_output (s : pstate W) (priv : slipif_priv) (p : Z) (d : D) : option (D * Z) :=
  let d := sio_send SLIP_END (sl_sd priv) d in
  d ← mjoin (while (S (size (pst s))) (send_body s (sl_sd priv)) (p, d));
  Some (sio_send SLIP_END (sl_sd priv) d, ERR_OK).

(** ** Receiving *)

Record slip := mkSlipState { ss_p : pstate W; ss_priv : slipif_priv; ss_link : stats_proto }.
Definition LINK_STATS_INC (c : counter) (s : slip) : slip := mkSlipState (ss_p s) (ss_priv s) (STATS_INC c (ss_link s)).
Definition set_priv (s : slip) (v : slipif_priv) : slip := mkSlipState (ss_p s) v (ss_link s).
Definition set_ps (s : slip) (ps : pstate W) : slip := mkSlipState ps (ss_priv s) (ss_link s).

(** The packet is complete. *)
Definition rx_end (s : slip) : option (slip * Z) :=
  let priv := ss_priv s in
  if 0 <? sl_recved priv then
    ps ← pbuf_realloc custom_free (ss_p s) (sl_q priv) (sl_recved priv);
    let s := LINK_STATS_INC c_recv (set_ps s ps) in
    let priv := set_sl_p 0 (set_sl_q 0 priv) in
    Some (set_priv s (set_sl_i 0 (set_sl_recved 0 priv)), sl_q (ss_priv s))
  else Some (s, 0).

(** A pbuf for the next byte; [None] for [false] is the return without one. *)
Definition rx_alloc (s : slip) : option (slip * bool) :=
  let priv := ss_priv s in
  if sl_p priv =? 0 then
    '(ps, p) ← pbuf_alloc stale custom_free (ss_p s) PBUF_LINK (PBUF_POOL_BUFSIZE - PBUF_LINK_HLEN) PBUF_POOL;
    let s := set_priv (set_ps s ps) (set_sl_p p priv) in
    if p =? 0 then Some (LINK_STATS_INC c_drop s, false)
    else if negb (sl_q priv =? 0) then ps ← pbuf_cat (ss_p s) (sl_q priv) p; Some (set_ps s ps, true)
    else Some (set_priv s (set_sl_q p (ss_priv s)), true)
  else Some (s, true).

(** The byte is stored and the position moves on. *)
Definition rx_store (s : slip) (c : Z) : option slip :=
  let priv := ss_priv s in
  if negb (sl_p priv =? 0) && (sl_recved priv <=? SLIP_MAX_SIZE) then
    b ← pst (ss_p s) !! sl_p priv;
    let s := set_ps s (set_mem (ss_p s) (st8 (mem_of (ss_p s)) (payload b + sl_i priv) c)) in
    let priv := set_sl_i (u16 (sl_i priv + 1)) (set_sl_recved (u16 (sl_recved priv + 1)) priv) in
    if len b <=? sl_i priv then
      let priv := set_sl_i 0 priv in
      more ← (if negb (next b =? 0) then nb ← pst (ss_p s) !! next b; Some (0 <? len nb) else Some false);
      Some (set_priv s (set_sl_p (if more : bool then next b else 0) priv))
    else Some (set_priv s priv)
  else Some s.

Definition rx_data (s : slip) (c : Z) : option (slip * Z) :=
  '(s, ok) ← rx_alloc s;
  if ok : bool then s ← rx_store s c; Some (s, 0) else Some (s, 0).

Definition slipif_rxbyte (s : slip) (c : Z) : option (slip * Z) :=
  match sl_state (ss_priv s) with
  | SLIP_RECV_NORMAL =>
      if c =? SLIP_END then rx_end s
      else if c =? SLIP_ESC then Some (set_priv s (set_sl_state SLIP_RECV_ESCAPE (ss_priv s)), 0)
      else rx_data s c
  | SLIP_RECV_ESCAPE =>
      let c := if c =? SLIP_ESC_END then SLIP_END else if c =? SLIP_ESC_ESC then SLIP_ESC else c in
      rx_data (set_priv s (set_sl_state SLIP_RECV_NORMAL (ss_priv s))) c
  end.

(** ** Passing packets on *)

(** [N] is the rest of the stack. *)
Context {N : Type} (input : N -> pstate W -> Z -> option (N * pstate W * Z)).

(** [netif->input], and the release of a packet that it refuses. *)
Definition call_input (s : slip) (n : N) (p : Z) : option (slip * N) :=
  '(n, ps, r) ← input n (ss_p s) p;
  if negb (r =? ERR_OK) then '(ps, _) ← pbuf_free custom_free ps p; Some (set_ps s ps, n) else Some (set_ps s ps, n).

Definition slipif_rxbyte_input (s : slip) (n : N) (c : Z) : option (slip * N) :=
  '(s, p) ← slipif_rxbyte s c;
  if negb (p =? 0) then call_input s n p else Some (s, n).

(** [fuel] is more than the bytes the device has. *)
Definition poll_body (y : slip * N * D) : (slip * N * D) + option (slip * N * D) :=
  let '(s, n, d) := y in
  match sio_tryread (sl_sd (ss_priv s)) d with
  | (d, Some c) => match slipif_rxbyte_input s n c with None => inr None | Some (s, n) => inl (s, n, d) end
  | (d, None) => inr (Some (s, n, d))
  end.
Definition slipif_poll (fuel : nat) (s : slip) (n : N) (d : D) : option (slip * N * D) := mjoin (while fuel poll_body (s, n, d)).

(** The queue of packets from the interrupt: pbufs linked by [next], a packet ends with
    the pbuf whose [len] is its [tot_len]. *)
Definition last_of_body (ps : pstate W) (q : Z) : Z + option Z :=
  match pst ps !! q with
  | None => inr None
  | Some b => if negb (len b =? tot_len b) && negb (next b =? 0) then inl (next b) else inr (Some q)
  end.
Definition dequeue (s : slip) : option (slip * Z) :=
  let p := sl_rxpackets (ss_priv s) in
  q ← mjoin (while (S (size (pst (ss_p s)))) (last_of_body (ss_p s)) p);
  b ← pst (ss_p s) !! q;
  ps ← update (ss_p s) q (fun b => set_next b 0);
  Some (set_priv (set_ps s ps) (set_sl_rxpackets (next b) (ss_priv s)), p).
Definition rxqueue_body (y : slip * N) : (slip * N) + option (slip * N) :=
  let '(s, n) := y in
  if sl_rxpackets (ss_priv s) =? 0 then inr (Some (s, n))
  else
    match '(s, p) ← dequeue s; call_input s n p with
    | None => inr None
    | Some y => inl y
    end.
Definition slipif_process_rxqueue (fuel : nat) (s : slip) (n : N) : option (slip * N) := mjoin (while fuel rxqueue_body (s, n)).

Definition tail_body (ps : pstate W) (q : Z) : Z + option Z :=
  match pst ps !! q with
  | None => inr None
  | Some b => if negb (next b =? 0) then inl (next b) else inr (Some q)
  end.
Definition slipif_rxbyte_enqueue (s : slip) (data : Z) : option slip :=
  '(s, p) ← slipif_rxbyte s data;
  if negb (p =? 0) then
    if negb (sl_rxpackets (ss_priv s) =? 0) then
      q ← mjoin (while (S (size (pst (ss_p s)))) (tail_body (ss_p s)) p);
      ps ← update (ss_p s) q (fun b => set_next b p);
      Some (set_ps s ps)
    else Some (set_priv s (set_sl_rxpackets p (ss_priv s)))
  else Some s.
Definition slipif_received_byte (s : slip) (data : Z) : option slip := slipif_rxbyte_enqueue s data.
(** [len] bytes, [n] of them left, from [rxdata] on; [m] is the memory of the caller's data. *)
Fixpoint slipif_received_bytes (s : slip) (m : memory) (rxdata : Z) (n : nat) : option slip :=
  match n with
  | O => Some s
  | S n => s ← slipif_rxbyte_enqueue s (ld8 m rxdata); slipif_received_bytes s m (rxdata + 1) n
  end.

(** ** Initialisation *)

(** [sizeof(struct slipif_priv)] *)
Definition SIZEOF_SLIPIF_PRIV : Z := 24.
(** [state] is [netif->state], a pointer to the number of the port or NULL; the result has
    the new one, the private data, which is at that address, and the error. *)
Definition slipif_init (ps : pstate W) (n : netif) (state : Z) (d : D) : option (pstate W * netif * D * option (Z * slipif_priv) * Z) :=
  '(w, priv) ← ms_malloc (pw ps) SIZEOF_SLIPIF_PRIV;
  let ps := set_pw ps w in
  if priv =? 0 then Some (ps, n, d, None, ERR_MEM)
  else
    let n := mkNetif (nif_ip_addr n) (nif_netmask n) (nif_gw n) SLIP_MAX_SIZE (nif_hwaddr_len n) (nif_hwaddr n)
               (Z.lor (nif_flags n) NETIF_FLAG_POINTTOPOINT) (115, 108) (nif_num n) in
    let sio_num := if negb (state =? 0) then ld8 (mem_of ps) state else nif_num n in
    let '(d, sd) := sio_open sio_num d in
    if sd =? 0 then
      Some (set_pw ps (ms_free (pw ps) priv), n, d, None, ERR_IF)
    else Some (ps, n, d, Some (priv, mkSlip sd 0 0 SLIP_RECV_NORMAL 0 0 0), ERR_OK).

End slip.
End Slip.
