(* ===== verification/SlipLine.v ===== *)
(** The serial line (netif/slipif.c): a packet that is sent is received. *)

From stdpp Require Import base tactics numbers list gmap.
From Stdlib Require Import ZArith Lia.
From S2P Require Import Prelude Stats PbufDefs NetifDefs InetChksum Allocator Mem Memp PbufMem World Pbuf PbufData PbufChains PbufLinks TcpWrite Slip.

Local Open Scope Z_scope.

Module SlipLine.
Import Memp Pbuf PbufData PbufChains PbufLinks TcpWrite Slip.

(** ** The bytes on the line *)

Definition escape (c : Z) : list Z := if c =? SLIP_END then [SLIP_ESC; SLIP_ESC_END] else if c =? SLIP_ESC then [SLIP_ESC; SLIP_ESC_ESC] else [c].
Definition slip_frame (d : list Z) : list Z := SLIP_END :: concat (escape <$> d) ++ [SLIP_END].

Section line.
Context {W : Type} `{LW : MemSystemLaws W}.
Context (stale : Z -> Z) (custom_free : pstate W -> Z -> option (pstate W)).
Context (stale_ok : forall p, Z.land (stale p) PBUF_FLAG_IS_CUSTOM = 0).

Section send.
Context {D : Type} (sio_send : Z -> Z -> D -> D) (sd : Z).
Definition sent (cs : list Z) (d : D) : D := fold_left (fun d c => sio_send c sd d) cs d.

Lemma send_bytes_sent m n : forall a d, send_bytes sio_send m sd a n d = sent (concat (escape <$> bytes m a n)) d.
Proof.
  induction n as [|n IH]; intros a d; [reflexivity|]. cbn [send_bytes bytes fmap list_fmap concat]. rewrite IH. unfold sent. rewrite fold_left_app. f_equal.
  unfold send_byte, escape. destruct (ld8 m a =? SLIP_END); [reflexivity|]. destruct (ld8 m a =? SLIP_ESC); reflexivity.
Qed.
Lemma send_loop ps fuel : forall p l d, chain (pst ps) p l -> (length l < fuel)%nat ->
  while fuel (send_body sio_send ps sd) (p, d) = Some (Some (sent (concat (escape <$> chain_data (mem_of ps) l)) d)).
Proof.
  induction fuel as [|fuel IH]; intros p l d C Hf; [lia|]. rewrite while_S. unfold send_body at 1. destruct C as [|p b l Np Eb C]; [reflexivity|].
  rewrite (proj2 (Z.eqb_neq p 0)), Eb by exact Np. cbn in Hf. rewrite (IH _ l) by (assumption || lia). rewrite send_bytes_sent. do 2 f_equal. cbn [chain_data]. rewrite fmap_app, concat_app. unfold sent. rewrite fold_left_app. reflexivity.
Qed.
(** Any device gets the frame of the packet. *)
Lemma output_sent ps priv p l d : sl_sd priv = sd -> chain (pst ps) p l -> slipif_output sio_send ps priv p d = Some (sent (slip_frame (chain_data (mem_of ps) l)) d, ERR_OK).
Proof.
  intros Es C. unfold slipif_output. pose proof (chain_length_size _ _ _ C). rewrite Es, (send_loop ps _ p l) by (assumption || lia). cbn [mjoin option_join mbind option_bind]. do 2 f_equal. unfold slip_frame, sent. cbn [fold_left]. rewrite fold_left_app. reflexivity.
Qed.
Lemma sent_list (cs : list Z) d : fold_left (fun d c => d ++ [c]) cs d = d ++ cs.
Proof. revert d. induction cs as [|c cs IH]; intros d; cbn; [rewrite app_nil_r; reflexivity|]. rewrite IH, <- app_assoc. reflexivity. Qed.
End send.

(** ** Receiving *)

Local Abbreviation rxbyte := (slipif_rxbyte stale custom_free).

(** The bytes [cs] are received; the result has the packets. *)
Fixpoint rx_all (s : slip) (cs : list Z) : option (slip * list Z) :=
  match cs with
  | [] => Some (s, [])
  | c :: cs => '(s, p) ← rxbyte s c; '(s, ps) ← rx_all s cs; Some (s, if p =? 0 then ps else p :: ps)
  end.
Lemma rx_all_app s cs1 cs2 : rx_all s (cs1 ++ cs2) = ('(s1, p1) ← rx_all s cs1; '(s2, p2) ← rx_all s1 cs2; Some (s2, p1 ++ p2)).
Proof.
  revert s. induction cs1 as [|c cs1 IH]; intros s; cbn [app rx_all].
  - cbn [mbind option_bind]. destruct (rx_all s cs2) as [[s2 p2]|]; reflexivity.
  - destruct (rxbyte s c) as [[s1 p]|]; [|reflexivity]. cbn [mbind option_bind]. rewrite IH. destruct (rx_all s1 cs1) as [[s2 p2]|]; [|reflexivity]. cbn [mbind option_bind].
    destruct (rx_all s2 cs2) as [[s3 p3]|]; [|reflexivity]. cbn [mbind option_bind]. destruct (p =? 0); reflexivity.
Qed.

Definition limit : nat := 1501.

(** Nothing of a packet has been received. *)
Definition idle_priv (sd rx : Z) : slipif_priv := mkSlip sd 0 0 SLIP_RECV_NORMAL 0 0 rx.
(** [e] has been received of a packet; its first [limit] bytes are in the first pbuf. *)
Record receiving ps0 L0 sd rx (s : slip) L (q : Z) (b : pbuf) (l : list (Z * pbuf)) (e : list Z) : Prop := {
  rc_sys : psys (ss_p s) L;
  rc_chain : chain (pst (ss_p s)) q ((q, b) :: l);
  rc_lengths : lengths_ok ((q, b) :: l);
  rc_owned : Forall (fun x => owned x.2) ((q, b) :: l);
  rc_room : len b = 1684;
  rc_priv : ss_priv s = mkSlip sd q q SLIP_RECV_NORMAL (Z.of_nat (length (take limit e))) (Z.of_nat (length (take limit e))) rx;
  rc_data : bytes (mem_of (ss_p s)) (payload b) (length (take limit e)) = take limit e;
  rc_fresh : L0 !! q = None /\ forall a, a ∈ l.*1 -> L0 !! a = None;
  rc_old : forall a, a ∉ ((q, b) :: l).*1 -> pst (ss_p s) !! a = pst ps0 !! a /\ L !! a = L0 !! a;
  rc_keep : preserves (mem_of ps0) (mem_of (ss_p s)) L0 }.

Lemma receiving_not0 ps0 L0 sd rx s L q b l e : receiving ps0 L0 sd rx s L q b l e -> q <> 0.
Proof. intros R. apply (chain_lookup _ _ _ _ _ (rc_chain _ _ _ _ _ _ _ _ _ _ R) (list_elem_of_here _ _)). Qed.
Lemma receiving_region ps0 L0 sd rx s L q b l e : receiving ps0 L0 sd rx s L q b l e -> exists k, L !! q = Some k /\ q <= payload b /\ payload b + 1684 <= q + k.
Proof.
  intros R. destruct (ps_pbuf _ _ (rc_sys _ _ _ _ _ _ _ _ _ _ R) q b (proj1 (chain_lookup _ _ _ _ _ (rc_chain _ _ _ _ _ _ _ _ _ _ R) (list_elem_of_here _ _)))) as (_ & _ & _ & _ & k & Hk & _ & Hty).
  exists k. split; [exact Hk|]. pose proof (rc_room _ _ _ _ _ _ _ _ _ _ R) as Er. pose proof (rc_owned _ _ _ _ _ _ _ _ _ _ R) as O. apply Forall_cons in O as [[Et|Et] _]; cbn in Et; rewrite Et in Hty; lia.
Qed.

Lemma receiving_old ps0 L0 sd rx s L q b l e a n : receiving ps0 L0 sd rx s L q b l e -> L0 !! a = Some n -> L !! a = Some n /\ a <> q.
Proof.
  intros R Ha. destruct (rc_fresh _ _ _ _ _ _ _ _ _ _ R) as [F1 F2]. assert (Na : a <> q) by congruence. split; [|exact Na].
  rewrite (proj2 (rc_old _ _ _ _ _ _ _ _ _ _ R a ltac:(cbn; intros [->|I]%elem_of_cons; [contradiction | rewrite (F2 a I) in Ha; discriminate]))). exact Ha.
Qed.

(** A byte of the packet: it is stored, unless the limit is reached. *)
Lemma byte_stored ps0 L0 sd rx s L q b l e c : receiving ps0 L0 sd rx s L q b l e -> 0 <= c < 256 ->
  exists s', rx_store s c = Some s' /\ receiving ps0 L0 sd rx s' L q b l (e ++ [c]).
Proof.
  intros R Hc. pose proof (receiving_not0 _ _ _ _ _ _ _ _ _ _ R) as Nq. destruct (receiving_region _ _ _ _ _ _ _ _ _ _ R) as (k & Lk & K1 & K2). pose proof R as [Sy Ch Le Ow Ro Pr Da Fr Old Kp].
  unfold rx_store. rewrite Pr. cbn [sl_p sl_recved sl_i]. rewrite (proj2 (Z.eqb_neq q 0)) by exact Nq. cbn [negb andb]. assert (Lt : (length (take limit e) <= 1501)%nat) by (rewrite length_take; unfold limit; lia).
  destruct (Z.leb_spec (Z.of_nat (length (take limit e))) SLIP_MAX_SIZE) as [Sm|Bg]; unfold SLIP_MAX_SIZE in *.
  2:{ exists s. split; [reflexivity|]. rewrite length_take in Bg, Lt. assert (Et : take limit (e ++ [c]) = take limit e) by (apply take_app_le; unfold limit in *; lia). split; rewrite ?Et; assumption. }
  rewrite length_take in Sm, Lt. assert (He : (length e < limit)%nat) by (unfold limit in *; lia). rewrite take_ge in Pr, Da by lia. rewrite take_ge by lia.
  assert (Et : take limit (e ++ [c]) = e ++ [c]) by (apply take_ge; rewrite length_app; cbn; lia). unfold limit in He.
  rewrite (proj1 (chain_lookup _ _ _ _ _ Ch (list_elem_of_here _ _))). cbn [mbind option_bind]. set (x := st8 _ _ c). cbn [sl_i sl_p set_sl_i set_sl_recved sl_recved ss_priv set_ps]. rewrite !u16_id by lia. rewrite (proj2 (Z.leb_gt _ _)) by lia.
  assert (Fx : frame (mem_of (ss_p s)) x (payload b + Z.of_nat (length e)) 1) by (intros y Hy; apply ld8_st8_ne; lia).
  eexists. split; [reflexivity|]. split; cbn [ss_p ss_priv set_priv set_ps pst set_mem set_pw].
  - apply (psys_data _ L x q k (payload b + Z.of_nat (length e)) 1 Sy Lk); [lia | lia | exact Fx].
  - exact Ch.
  - exact Le.
  - exact Ow.
  - exact Ro.
  - rewrite Et, length_app. cbn. unfold set_sl_i, set_sl_recved. cbn. f_equal; lia.
  - rewrite Et, length_app, mem_set. cbn [length]. rewrite bytes_app. f_equal; [rewrite <- Da at 2; apply bytes_ext; intros y Hy; apply Fx; lia|]. cbn. unfold x. rewrite ld8_st8_eq, u8_id by exact Hc. reflexivity.
  - exact Fr.
  - exact Old.
  - intros y Hy. rewrite mem_set, Fx; [apply Kp, Hy|]. intros I. destruct Hy as (a & n & Ha & Hy). destruct (receiving_old _ _ _ _ _ _ _ _ _ _ _ _ R Ha) as [La Na].
    destruct (ro_disjoint _ (regions_of _ _ Sy) a q n k La Lk Na); lia.
Qed.

(** A chain of the pool with room for a whole packet in its first pbuf. *)
Lemma pool_first ps L ps' q : psys ps L -> pbuf_alloc stale custom_free ps PBUF_LINK 1686 PBUF_POOL = Some (ps', q) -> q <> 0 ->
  exists b, pst ps' !! q = Some b /\ len b = 1684.
Proof.
  intros Sy E Nq. unfold pbuf_alloc, alloc_pool in E. cbn [layer_offset] in E. unfold PBUF_LINK_HLEN, SIZEOF_STRUCT_PBUF, PBUF_POOL_BUFSIZE_ALIGNED in E. pose proof ms_pool_elem as He.
  destruct (memp_spec ps L MEMP_PBUF_POOL Sy) as (w & p & Em & Hpr & [[-> Hs'] | (Hp & Hpool & HL & Ha & Hpos & n & Hn & Hlt & Hl)]); rewrite Em in E.
  { cbn in E. injection E as _ E. congruence. }
  rewrite (proj2 (Z.eqb_neq p 0)) in E by exact Hp. change (Z.min 1686 (1700 - align_int 14)) with 1684 in E. change (1686 - 1684) with 2 in E. rewrite (align_payload custom_free p 14 Hpos Ha ltac:(lia) ltac:(change ((14 + 3) / 4) with 4; lia)) in E. change (align_int 14) with 16 in E.
  set (hd := mkPbuf 0 _ 1686 1684 _ _ _) in E.
  assert (Hok : pbuf_ok (<[p := n]> L) p hd).
  { split; [apply stale_ok|]. cbn. split; [lia|]. split; [lia|]. split; [exact Hpool|]. exists n. rewrite lookup_insert_eq. split; [reflexivity|]. zlia. }
  pose proof (building_init PBUF_POOL ps L w p n hd 2 Sy HL Hl Hok Hpr Hp eq_refl eq_refl eq_refl ltac:(reflexivity) ltac:(reflexivity)) as Hb.
  destruct (pool_loop custom_free (Datatypes.S (Z.to_nat 1686)) _ _ _ _ _ _ _ _ _ Hb ltac:(lia) ltac:(lia)) as (s' & p' & Hr & Hres). cbn [pst set_pw] in E. rewrite Hr in E. cbn [mjoin option_join mbind option_bind] in E.
  destruct Hres as [[-> _] | (-> & L' & r' & l' & Hb')]; [cbn in E; congruence|]. rewrite (proj2 (Z.eqb_neq p 0)) in E by exact Hp. destruct (bu_head _ _ _ _ _ _ _ _ _ _ Hb') as (nx & l2 & ->).
  pose proof (proj1 (chain_lookup _ _ _ _ _ (bu_chain _ _ _ _ _ _ _ _ _ _ Hb') (list_elem_of_here _ _))) as Ep. unfold update in E. rewrite Ep in E. cbn [mbind option_bind] in E. injection E as <- <-.
  eexists. split; [apply lookup_insert_eq | reflexivity].
Qed.

(** ** A packet *)

Section packet.
(** The receiver before the packet, and the pbuf that it gets. *)
Context (s0 : slip (W := W)) (L0 : regions) (Sy0 : psys (ss_p s0) L0) (sd rx : Z) (Idle : ss_priv s0 = idle_priv sd rx).
Context (ps1 : pstate W) (q0 : Z) (Got : pbuf_alloc stale custom_free (ss_p s0) PBUF_LINK 1686 PBUF_POOL = Some (ps1, q0)) (Nq0 : q0 <> 0).

Local Abbreviation receives := (receiving (ss_p s0) L0 sd rx).
(** [e] has been received. *)
Definition ready (s : slip) (e : list Z) : Prop := (e = [] /\ s = s0) \/ exists L b l, receives s L q0 b l e.

Lemma start : exists s, rx_alloc stale custom_free s0 = Some (s, true) /\ exists L b l, receives s L q0 b l [].
Proof.
  unfold rx_alloc. rewrite Idle. cbn [sl_p idle_priv Z.eqb]. change (PBUF_POOL_BUFSIZE - PBUF_LINK_HLEN) with 1686. rewrite Got. cbn [mbind option_bind]. rewrite (proj2 (Z.eqb_neq q0 0)) by exact Nq0. cbn [negb Z.eqb idle_priv sl_q].
  eexists. split; [reflexivity|]. destruct (pool_first _ _ _ _ Sy0 Got Nq0) as (b0 & Eb0 & Lb0).
  destruct (pbuf_alloc_spec stale custom_free stale_ok (ss_p s0) L0 PBUF_LINK 1686 PBUF_POOL Sy0 ltac:(lia) ltac:(discriminate)) as (s' & p & E & Res). rewrite Got in E. injection E as <- <-. destruct Res as [[? _] | (_ & L' & l & A)]; [contradiction|].
  destruct A as [C Le Ln Fi Fr Od Sy _ _ Kp]. destruct (chain_inv _ _ _ C) as [[? _] | (_ & b & l' & -> & Eb & _)]; [contradiction|]. assert (b0 = b) as -> by congruence.
  exists L', b, l'. split; cbn [ss_p ss_priv set_priv set_ps].
  - exact Sy.
  - exact C.
  - exact Le.
  - eapply Forall_impl; [exact Fi|]. intros [a c] (_ & T & _). right. exact T.
  - exact Lb0.
  - reflexivity.
  - reflexivity.
  - split; [apply Fr, elem_of_cons; auto | intros a Ha; apply Fr, elem_of_cons; auto].
  - exact Od.
  - exact Kp.
Qed.

Lemma data_byte s e c : ready s e -> 0 <= c < 256 -> exists s', rx_data stale custom_free s c = Some (s', 0) /\ ready s' (e ++ [c]).
Proof.
  intros Re Hc. assert (exists s1, rx_alloc stale custom_free s = Some (s1, true) /\ exists L b l, receives s1 L q0 b l e) as (s1 & E1 & L & b & l & R).
  { destruct Re as [[-> ->] | (L & b & l & R)]; [exact start|].
    exists s. split; [| exists L, b, l; exact R]. unfold rx_alloc. rewrite (rc_priv _ _ _ _ _ _ _ _ _ _ R). cbn [sl_p]. rewrite (proj2 (Z.eqb_neq q0 0)) by exact Nq0. reflexivity. }
  unfold rx_data. rewrite E1. cbn [mbind option_bind]. destruct (byte_stored _ _ _ _ _ _ _ _ _ _ c R Hc) as (s2 & -> & R2). exists s2. split; [reflexivity | right; exists L, b, l; exact R2].
Qed.

Lemma ready_normal s e : ready s e -> sl_state (ss_priv s) = SLIP_RECV_NORMAL.
Proof. intros [[_ ->] | (L & b & l & R)]; [rewrite Idle; reflexivity | rewrite (rc_priv _ _ _ _ _ _ _ _ _ _ R); reflexivity]. Qed.
(** An escaped byte. *)
Lemma escaped_byte s e c c' : ready s e -> 0 <= c < 256 -> (c = SLIP_END /\ c' = SLIP_ESC_END) \/ (c = SLIP_ESC /\ c' = SLIP_ESC_ESC) ->
  exists s', rx_all s [SLIP_ESC; c'] = Some (s', []) /\ ready s' (e ++ [c]).
Proof.
  intros Re Hc Hx. pose proof (ready_normal _ _ Re) as Nm. destruct (data_byte s e c Re Hc) as (s' & E & R'). exists s'. split; [|exact R']. set (s1 := set_priv s (set_sl_state SLIP_RECV_ESCAPE (ss_priv s))).
  assert (E1 : rxbyte s SLIP_ESC = Some (s1, 0)) by (unfold slipif_rxbyte; rewrite Nm; reflexivity).
  assert (Es : set_priv s1 (set_sl_state SLIP_RECV_NORMAL (ss_priv s1)) = s) by (unfold s1; destruct s as [ps [a b c0 st i r x] k]; cbn in *; rewrite Nm; reflexivity).
  assert (E2 : rxbyte s1 c' = rx_data stale custom_free s c) by (unfold slipif_rxbyte; change (sl_state (ss_priv s1)) with SLIP_RECV_ESCAPE; cbn match; rewrite Es; destruct Hx as [[-> ->]|[-> ->]]; reflexivity).
  cbn [rx_all]. rewrite E1. cbn [mbind option_bind]. rewrite E2, E. reflexivity.
Qed.
Lemma byte_received s e c : ready s e -> 0 <= c < 256 -> exists s', rx_all s (escape c) = Some (s', []) /\ ready s' (e ++ [c]).
Proof.
  intros Re Hc. unfold escape. destruct (Z.eqb_spec c SLIP_END) as [->|N1]; [apply escaped_byte; auto|]. destruct (Z.eqb_spec c SLIP_ESC) as [->|N2]; [apply escaped_byte; auto|].
  destruct (data_byte s e c Re Hc) as (s' & E & R'). exists s'. split; [|exact R']. cbn [rx_all]. unfold slipif_rxbyte. rewrite (ready_normal _ _ Re), (proj2 (Z.eqb_neq _ _) N1), (proj2 (Z.eqb_neq _ _) N2), E. reflexivity.
Qed.
Lemma bytes_received d : forall s e, ready s e -> Forall (fun c => 0 <= c < 256) d -> exists s', rx_all s (concat (escape <$> d)) = Some (s', []) /\ ready s' (e ++ d).
Proof.
  induction d as [|c d IH]; intros s e Re F; cbn [fmap list_fmap concat]; [exists s; rewrite app_nil_r; auto|]. apply Forall_cons in F as [Hc F].
  destruct (byte_received s e c Re Hc) as (s1 & E1 & R1). destruct (IH s1 (e ++ [c]) R1 F) as (s2 & E2 & R2). exists s2. rewrite rx_all_app, E1. cbn [mbind option_bind]. rewrite E2, <- app_assoc in *. split; [reflexivity | exact R2].
Qed.

Lemma packet_complete s L b l e : receives s L q0 b l e -> e <> [] ->
  exists s' L' l', rx_end custom_free s = Some (s', q0) /\ ss_priv s' = idle_priv sd rx /\ psys (ss_p s') L' /\ chain (pst (ss_p s')) q0 l' /\ lengths_ok l' /\
    chain_data (mem_of (ss_p s')) l' = take limit e /\ preserves (mem_of (ss_p s0)) (mem_of (ss_p s')) L0.
Proof.
  intros R Ne. pose proof R as [Sy Ch Le Ow Ro Pr Da Fr Old Kp]. assert (Hl : (0 < length (take limit e) <= 1501)%nat) by (rewrite length_take; destruct e; [contradiction | unfold limit; cbn [length]; lia]).
  unfold rx_end. rewrite Pr. cbn [sl_recved sl_q]. rewrite (proj2 (Z.ltb_lt 0 _)) by lia.
  destruct (realloc_truncates custom_free (ss_p s) L q0 ((q0, b) :: l) (Z.of_nat (length (take limit e))) Sy Ch Nq0 Le ltac:(lia)) as (ps' & L' & l' & -> & Sy' & Ch' & Le' & _ & _ & D' & _ & K' & _).
  cbn [mbind option_bind ss_priv set_ps LINK_STATS_INC]. rewrite Pr. eexists _, L', l'. split; [reflexivity|]. cbn [ss_priv ss_p set_priv set_ps LINK_STATS_INC]. split; [reflexivity|]. split; [exact Sy'|]. split; [exact Ch'|]. split; [exact Le'|]. split.
  - rewrite (D' Ow), Nat2Z.id. cbn [chain_data]. rewrite take_app_le by (rewrite bytes_length; lia). rewrite take_bytes by lia. exact Da.
  - intros x Hx. rewrite K'; [apply Kp, Hx|]. destruct Hx as (a & n & Ha & Hx). destruct (receiving_old _ _ _ _ _ _ _ _ _ _ _ _ R Ha) as [La Na]. exists a, n. split; [|exact Hx].
    rewrite lookup_del, decide_False; [exact La|]. cbn. intros [->|I]%elem_of_cons; [contradiction|]. rewrite (proj2 Fr a I) in Ha. discriminate.
Qed.

(** A packet of any length that is sent over a line that delivers the bytes in order: it
    is cut to 1501 bytes, one more than [SLIP_MAX_SIZE]. *)
Lemma slip_any_length ps priv p l : chain (pst ps) p l -> chain_data (mem_of ps) l <> [] ->
  exists cs s' L' l', slipif_output (fun c _ cs => cs ++ [c]) ps priv p [] = Some (cs, ERR_OK) /\
    rx_all s0 cs = Some (s', [q0]) /\ ss_priv s' = idle_priv sd rx /\ psys (ss_p s') L' /\ chain (pst (ss_p s')) q0 l' /\ lengths_ok l' /\
    chain_data (mem_of (ss_p s')) l' = take 1501 (chain_data (mem_of ps) l) /\ preserves (mem_of (ss_p s0)) (mem_of (ss_p s')) L0.
Proof.
  intros C Nd. set (d := chain_data (mem_of ps) l) in *. exists (slip_frame d). rewrite (output_sent _ (sl_sd priv) ps priv p l [] eq_refl C). fold d.
  destruct (bytes_received d s0 [] (or_introl (conj eq_refl eq_refl)) (InetChksum.chain_data_range _ _)) as (s1 & E1 & [[? _] | (L & b & l1 & R)]); [contradiction|].
  destruct (packet_complete s1 L b l1 d R Nd) as (s' & L' & l' & E & Rest). exists s', L', l'. split; [unfold sent; rewrite sent_list; reflexivity|]. split; [|exact Rest].
  unfold slip_frame. cbn [rx_all]. unfold slipif_rxbyte at 1. rewrite Idle. cbn [sl_state idle_priv]. rewrite Z.eqb_refl. unfold rx_end at 1. rewrite Idle. cbn [sl_recved idle_priv Z.ltb Z.compare mbind option_bind]. rewrite rx_all_app, E1. cbn [mbind option_bind rx_all].
  unfold slipif_rxbyte. rewrite (rc_priv _ _ _ _ _ _ _ _ _ _ R) at 1. cbn [sl_state]. change (SLIP_END =? SLIP_END) with true. cbn match. rewrite E. cbn [mbind option_bind]. rewrite (proj2 (Z.eqb_neq q0 0)) by exact Nq0. reflexivity.
Qed.

(** C39: A packet of 1 to [SLIP_MAX_SIZE] = 1500 bytes that [slipif_output] sends over a line
    that delivers the bytes in order is the packet that [slipif_rxbyte] returns, exactly once, with
    the last byte: the same bytes, END and ESC among them, in pbufs with consistent
    lengths.  The receiver, which was between two packets and gets a pbuf when the first byte
    of data arrives, is between two packets again and has changed no data of others. *)
Theorem slip_roundtrip ps priv p l : chain (pst ps) p l -> 0 < Z.of_nat (length (chain_data (mem_of ps) l)) <= SLIP_MAX_SIZE ->
  exists cs s' L' l', slipif_output (fun c _ cs => cs ++ [c]) ps priv p [] = Some (cs, ERR_OK) /\
    rx_all s0 cs = Some (s', [q0]) /\ ss_priv s' = idle_priv sd rx /\ psys (ss_p s') L' /\ chain (pst (ss_p s')) q0 l' /\ lengths_ok l' /\
    chain_data (mem_of (ss_p s')) l' = chain_data (mem_of ps) l /\ preserves (mem_of (ss_p s0)) (mem_of (ss_p s')) L0.
Proof.
  intros C Hl. assert (Nd : chain_data (mem_of ps) l <> []) by (intros E; rewrite E in Hl; cbn in Hl; lia). unfold SLIP_MAX_SIZE in Hl.
  destruct (slip_any_length ps priv p l C Nd) as (cs & s' & L' & l' & R). rewrite take_ge in R by lia. eauto.
Qed.

End packet.
End line.

(** ** Samples *)

#[local] Existing Instance World.world_system.
#[local] Existing Instance World.sample_laws.

Definition zeros : stats_proto := mkStatsProto 0 0 0 0 0 0 0 0 0 0 0 0.
Definition sample_receiver : slip (W := World.world) := mkSlipState sample_empty (idle_priv 1 0) zeros.
Definition sample_sender : pstate World.world := set_mem sample_packet (st8 (mem_of sample_packet) 19900 SLIP_END).
(** The pbufs after [cs], and the packets. *)
Definition received (s : slip (W := World.world)) (cs : list Z) : option (slip (W := World.world) * list Z) := rx_all no_stale no_custom s cs.

(** The first five bytes of it as a packet of one pbuf, END among them. *)
Definition small_chain : list (Z * pbuf) := [(19880, mkPbuf 0 19896 5 5 PBUF_ROM 0 1)].
Definition small_sender : pstate World.world := mkPstate (pw sample_sender) (list_to_map small_chain) 0.

Lemma slip_roundtrip_witness : exists cs s' l', slipif_output (fun c _ cs => cs ++ [c]) small_sender (idle_priv 1 0) 19880 [] = Some (cs, ERR_OK) /\
  received sample_receiver cs = Some (s', [19880]) /\ chain (pst (ss_p s')) 19880 l' /\ chain_data (mem_of (ss_p s')) l' = [0; 0; 0; 0; SLIP_END].
Proof.
  assert (C : chain (pst small_sender) 19880 small_chain) by (repeat (constructor; [lia | vm_compute; reflexivity |]); constructor).
  destruct (pbuf_alloc no_stale no_custom sample_empty PBUF_LINK 1686 PBUF_POOL) as [[ps1 q0]|] eqn:Got; [|vm_compute in Got; discriminate].
  assert (Eq : snd <$> pbuf_alloc no_stale no_custom sample_empty PBUF_LINK 1686 PBUF_POOL = Some 19880) by (vm_compute; reflexivity). rewrite Got in Eq. cbn in Eq. injection Eq as ->.
  assert (Ed : chain_data (mem_of small_sender) small_chain = [0; 0; 0; 0; SLIP_END]) by (vm_compute; reflexivity).
  assert (Nd : 0 < Z.of_nat (length (chain_data (mem_of small_sender) small_chain)) <= SLIP_MAX_SIZE) by (rewrite Ed; cbn; unfold SLIP_MAX_SIZE; lia).
  destruct (slip_roundtrip no_stale no_custom (fun _ => eq_refl) sample_receiver ∅ sample_empty_ok 1 0 eq_refl ps1 19880 Got ltac:(discriminate) small_sender (idle_priv 1 0) 19880 small_chain C Nd)
    as (cs & s' & L' & l' & E & R & _ & _ & Ch & _ & D & _).
  exists cs, s', l'. split; [exact E|]. split; [exact R|]. split; [exact Ch|]. rewrite D. exact Ed.
Defined.

(** Two packets of one byte each from the interrupt, before the queue is processed: the
    second one is linked to itself and lost. *)
Definition two_packets : option (slip (W := World.world)) :=
  s ← slipif_rxbyte_enqueue no_stale no_custom sample_receiver 7; s ← slipif_rxbyte_enqueue no_stale no_custom s SLIP_END;
  s ← slipif_rxbyte_enqueue no_stale no_custom s 8; slipif_rxbyte_enqueue no_stale no_custom s SLIP_END.
Example second_packet_lost : exists p q, p <> q /\
  (s ← two_packets; b ← pst (ss_p s) !! p; c ← pst (ss_p s) !! q; Some (sl_rxpackets (ss_priv s), next b, next c)) = Some (p, 0, q).
Proof. exists 19880, 18164. split; [discriminate | vm_compute; reflexivity]. Qed.

End SlipLine.
